(* ===== verification/_CoqProject ===== *)
-Q . S2P
Prelude.v
EventQueue.v
ListScheduler.v
MapScheduler.v
HeapScheduler.v
CalendarScheduler.v
Simulator.v
SimulatorProps.v
Int64x64.v
NsTime.v
Buffer.v
BufferIterator.v
BufferInv.v
BufferRw.v
BufferProps.v
Checksum.v
BufferSerial.v
SequenceNumber.v
Timer.v
Bits.v
NixVector.v
Wire.v
Ipv4Header.v
UdpHeader.v
TcpOption.v
TcpHeader.v
TcpHeaderProps.v
Encapsulation.v
PacketBytes.v
PacketTagList.v
PacketTagProps.v
PacketTags.v
TcpRxBuffer.v
TcpRxProps.v
TcpTxBuffer.v
TcpTxScoreboard.v
TcpTxProps.v
TcpTxInv.v
TcpTxSend.v
TcpTxFlags.v
TcpTxSack.v
TcpTxAck.v
TcpTxSystem.v
TcpTransfer.v
TcpCongestion.v
TcpCongestionProps.v
Ipv4Address.v
Ipv4Interface.v
Ipv4StaticRouting.v
Arp.v
ArpProps.v
Ipv4Fragment.v
Ipv4Reassembly.v
Ipv4L3.v
Ipv4L3Props.v
EndPoints.v
UdpSocket.v
UdpProps.v
UdpTransfer.v
ErrorModel.v
Queue.v
QueueProps.v
PointToPoint.v
PointToPointInv.v
PointToPointProps.v
PointToPointSystem.v
QueueDisc.v
Disciplines.v
QueueDiscProps.v
QueueDiscInv.v
DisciplinesProps.v
CoDelProps.v
QueueSystem.v
GymSync.v
GymProofs.v
GymSystem.v
GymContainers.v
GymContainersProps.v
GymEnv.v
GymEnvProps.v
