(* ===== verification/Prelude.v ===== *)
(** * ns-3 verification library

    ns-3 is a discrete-event network simulator. This library models its
    simulation kernel, its packet layer, the core of its Internet stack up to
    UDP sockets, of its traffic control and of its point-to-point links
    ([src/src/core], [src/src/network], [src/src/internet],
    [src/src/traffic-control], [src/src/point-to-point]), and the exchange of
    this repository with learning agents ([src/contrib/ns3-ai]). It proves what the rest of the
    simulator relies on: events run once, in time order; packet bytes, headers
    and tags are what was written to them; IPv4 packets that are cut, sent and
    put together again arrive unchanged; a datagram sent on a UDP socket is
    read from the socket it is meant for; TCP delivers the stream written;
    frames cross a link in order; times in other units are exact; queues and
    address resolution account for every packet; an agent in
    another process sees every state and its actions arrive. Where the code does
    not do so, the theorems name the condition and a lemma shows the input.

    ** How the parts interact

    A [Simulator] keeps pending events in a [Scheduler], one of five
    implementations; its loop takes the earliest event, advances virtual time
    and invokes the handler, which may schedule, cancel or remove events, and
    takes in the events other threads queued. Timers and watchdogs are clients
    of the simulator. Times are 64-bit counts of a unit; other units and
    transmission times are computed with fixed point numbers. Packets keep their bytes in a [Buffer]: blocks of memory
    shared between copies, with a zero area that is not stored, read and
    written through [Buffer::Iterator] by headers ([Ipv4Header], [UdpHeader],
    [TcpHeader] with its options), which use the Internet checksum; their tags
    are lists of nodes shared between copies. [Ipv4L3Protocol] owns the
    interfaces with their addresses, asks a routing protocol ([Ipv4StaticRouting] implements the interface) for a
    route, cuts packets to the MTU, decrements the TTL of packets it forwards
    and reassembles fragments under a timeout. TCP numbers its bytes with
    [SequenceNumber]; a send buffer cuts and joins items to segments and keeps
    the SACK scoreboard, a receive buffer puts segments in order. An interface
    asks ARP for the hardware address of the next hop; ARP keeps packets while
    it waits for an answer and asks again by a timer. Packets for a device go
    through a queue disc of traffic control, which uses queues, keeps
    statistics and holds back a packet when the device queue is stopped. UDP
    sockets bind to end points in a table, which the protocol searches for each
    datagram; what a socket sends goes through the UDP header to IPv4. A
    point-to-point device keeps frames in a queue while it transmits; the
    channel schedules the arrival at the other device, which asks an error
    model and hands the packet up. The gym interface sends the state of a simulation to a Python process and
    receives actions, as serialized messages in shared memory guarded by
    semaphores.

    ** Files

    Each file holds one or more Modules; where a name below is not that of a
    file, it is a Module of the file named before it.

    - [Prelude]: machine integers ([wrap], [u32], [i64]...), the abort notation
      [let*] and [assert*], tactics, hint databases, shared lemmas.
    - [EventQueue] (scheduler.h): [EventKey], [Event], their operators; the
      typeclass [SchedulerOps] for the abstract class [Scheduler], the laws
      [SchedulerLaws] an implementation promises and [SchedulerRemoveLaws] for
      a working [Remove]; draining and filling proved against the laws.
    - [ListScheduler] (list-scheduler.cc), [MapScheduler] (map-scheduler.cc,
      priority-queue-scheduler.cc), [HeapScheduler] (heap-scheduler.cc),
      [CalendarScheduler] (calendar-scheduler.cc): one function per member
      function, and the instances of the laws. The heap is the array with its
      index arithmetic; the calendar has its buckets, both bucket orders, the
      width computation and the resizing.
    - [Simulator] (default-simulator-impl.cc, event-id.cc, event-impl.cc): the
      record [Sim] over an arbitrary scheduler and one function per operation;
      the invariant [sim_inv], the relation [ext] between a state and a later
      one, the calls [api] of a handler. [SimulatorProps] holds its theorems.
    - [Int64x64] (int64x64-128.cc): 128-bit fixed point numbers, with the Module
      [Int64x64Props]; [NsTime] (nstime.h, time.cc, data-rate.cc): units,
      conversions and transmission times, with the Module [NsTimeProps].
    - [Timer] (timer.cc, watchdog.cc): the timer and the watchdog as clients of
      the simulator.
    - [Buffer] (buffer.cc, buffer.h): the heap of blocks with reference counts,
      the free list and the static maximum, and the operations of a buffer;
      [BufferIterator]: iterators and the operations built on them (full
      copies, concatenation, serialization, [CopyData], the checksum loop).
    - [BufferInv]: the bytes a buffer stands for ([content]), the invariant
      [inv] of the heap and the live buffers, a lemma per operation.
      [BufferRw]: writers and readers by the bytes they write and read
      ([writes], [reads]). [BufferProps], [Checksum], [BufferSerial]: theorems.
    - [SequenceNumber] (sequence-number.h) at 8, 16 and 32 bits.
    - [Bits]: [Crc32] (crc32.cc, ethernet-trailer.cc), [BitSerializer] and
      [BitDeserializer] (the files of those names), [BitFields] with their
      theorems. [NixVector] (nix-vector.cc and its place in packet.cc), with
      [NixVectorProps].
    - [Ipv4Header] (ipv4-header.cc): accessors, serialization, checksum.
    - [PacketBytes] (packet.cc): the byte operations of a packet on the values
      that [BufferProps] justifies. What [AddAtEnd] does depends on how the
      buffers share blocks: its outcome is an argument, the class [Memory], and
      [join_of] is its instance for two buffers ([AddAtEnd_code]).
    - [PacketTagList] (packet-tag-list.cc): the shared nodes with their counts
      and the operations on them; [PacketTagProps]: the heap invariant and a
      lemma per operation; [PacketTags]: the theorems.
    - [TcpRxBuffer] (tcp-rx-buffer.cc), [TcpRxProps]: the receive buffer and
      its theorems.
    - [TcpTxBuffer], [TcpTxScoreboard] (tcp-tx-buffer.cc, tcp-tx-item.h): the
      send buffer, its segments and its scoreboard. [TcpTxProps]: items that
      hold a stream, cutting and joining; [TcpTxInv]: the invariant [tx_inv];
      [TcpTxSend], [TcpTxFlags], [TcpTxSack], [TcpTxAck]: the operations keep
      it; [TcpTxSystem]: the calls of a connection [tx_op], the states it
      reaches and the theorems; [TcpTransfer]: both buffers and a network,
      with the instances of [TcpTxDemo].
    - [TcpCongestion] (tcp-congestion-ops.cc, tcp-linux-reno.cc, tcp-scalable.cc,
      tcp-recovery-ops.cc, tcp-prr-recovery.cc, rtt-estimator.cc and the places
      of tcp-socket-base.cc that use them): the typeclasses of a congestion
      control and of a recovery, with a Module per class, the estimator of
      round trip times, and what the socket does to the window in the states
      open, disorder, recovery and loss ([socket_DupAck], [socket_ProcessAck],
      [socket_ReTxTimeout]). [TcpCongestionProps]: the contract [CongestionLaws], its
      instances and the theorems.
    - [Ipv4Address] (ipv4-address.cc, ipv4-interface-address.cc),
      [Ipv4Interface] (ipv4-interface.cc and the interface table of
      ipv4-l3-protocol.cc), [Ipv4StaticRouting] (ipv4-static-routing.cc,
      ipv4-routing-table-entry.cc, ipv4-route.cc).
    - [Ipv4Fragment]: fragmentation and the [Fragments] object of
      ipv4-l3-protocol.cc; [Ipv4Reassembly]: the table of fragments and its
      timeouts; [Ipv4L3]: sending, forwarding, the interfaces and the
      notifications, over the typeclass of a routing protocol; [Ipv4L3Props].
    - [Wire] (packet.cc, address-utils.cc): adding and removing headers, the
      contract [HeaderLaws] of a header class, the checksum of a pseudo header
      in a buffer of its own. [UdpHeader] (udp-header.cc), [TcpOption]
      (tcp-option*.cc), [TcpHeader] (tcp-header.cc), [TcpHeaderProps];
      [Encapsulation]: the instances of the contract and the theorems, with
      [HeaderDemo], the bytes for which the code goes wrong.
    - [EndPoints] (ipv4-end-point.cc, ipv4-end-point-demux.cc), with
      [EndPointsProps]; [UdpSocket] (udp-socket-impl.cc, udp-socket-impl.h,
      socket.cc, udp-l4-protocol.cc): the state of sockets and of the protocol,
      a monad of calls on it, and in [UdpOps] the operations; [UdpProps]: the
      bytes of datagrams ([UdpBytes]) and the invariant of all sockets of a
      node; [UdpTransfer]: from socket to socket, with [UdpDemo].
    - [Arp] (arp-cache.cc, arp-l3-protocol.cc, arp-header.h): the cache, its
      timer, the protocol on one device composed with [Ipv4Interface];
      [ArpProps]: the invariant and the theorems, with [ArpDemo].
    - [Queue] (queue.h, queue.cc, drop-tail-queue.h, queue-size.cc), with the
      Module [QueueLimits] (dynamic-queue-limits.cc, and the queue of a device
      of net-device-queue-interface.cc); [QueueProps], [QueueLimitsProps]; [QueueDisc] (queue-disc.cc, queue-item.cc): the base class
      over the typeclass [Discipline]; [Disciplines]: fifo-queue-disc.cc,
      pfifo-fast-queue-disc.cc, codel-queue-disc.cc; [QueueDiscProps]: the
      contract [DisciplineLaws]; [QueueDiscInv]: the invariant of the base
      class; [DisciplinesProps], [CoDelProps]: the disciplines keep the
      contract; [QueueSystem]: the theorems, with [QueueDemo].
    - [ErrorModel] (error-model.cc): the base class as a typeclass of [DoCorrupt]
      and the models without random numbers. [PointToPoint]
      (point-to-point-net-device.cc, point-to-point-channel.cc, ppp-header.cc):
      devices and channel on the state of [Simulator], over any scheduler, and
      in [PppWire] the bytes of frames; [PointToPointInv]: the agenda, pending
      events with the calls they stand for ([LinkEvents]), the stream of one
      direction and the bounds on time ([LinkInv]); [PointToPointProps]: each
      operation keeps the invariant; [PointToPointSystem]: the theorems, with
      [LinkDemo].
    - [GymSync] (contrib/ns3-ai ns3-ai-semaphore.h, ns3-ai-msg-interface.h):
      the semaphores and both sides of the exchange as programs on shared
      memory; [GymProofs]: the invariant of all interleavings; [GymSystem]:
      the refinement; [GymContainers] (spaces.cc, container.cc),
      [GymContainersProps]; [GymEnv] (ns3-ai-gym-interface.cc and the Python
      side), [GymEnvProps] with [GymDemo].

    ** What the theorems show

    - Schedulers: filling any of the five and draining it yields the events in
      (time stamp, uid) order; two schedulers with the same events deliver the
      same sequence; the calendar finds the least event across resizes and in
      both orders; moving a simulation to another scheduler loses nothing.
      [HeapScheduler::Remove] removes the right event but can break the heap
      order (a missing sift up), and a simulation then aborts.
    - Simulator: over every scheduler with a working [Remove] and for all
      handlers that return and use the interface within its limits, a run never
      aborts and processes events in order; it returns when the handlers
      neither add, remove nor stop; cancelled and removed events do not run; [IsExpired],
      [GetDelayLeft] and the queue of foreign threads are exact.
    - Times: multiplication and division of fixed point numbers are the exact
      ones when the result has 128 bits; an inverse divides integers exactly; a time goes to
      any unit and back unchanged; a transmission time is the nearest one.
    - Timers: suspending and resuming keeps the time left and the suspended
      event never fires, except under the default policy, where it does; the
      watchdog fires at its deadline.
    - Buffers: programs of buffer operations behave as programs on independent
      byte strings ([Buffer_values], a refinement of the shared heap to
      values); round trips of integers, headers and serialized buffers;
      concatenation where it is correct, in particular of the fragments of a
      packet, which share its block ([fragments_join]), and the inputs where
      [AddAtEnd(const Buffer&)] loses bytes or aborts; the bounds checks that
      accept writes past the end.
    - Tags: programs on shared tag lists behave as programs on independent
      lists, and every node is freed exactly when no list uses it.
    - Checksum and [Ipv4Header]: a packet that carries its checksum verifies;
      a header is read back as written; any changed byte after the first is
      detected; headers with options are not written back.
    - Sequence numbers: signed difference, consistent comparisons, the order
      inside a window of half the range, and that it is not transitive beyond.
    - TCP: the receive buffer delivers the stream in order and stores exactly
      what lies in its window; the send buffer never aborts under the calls of
      a connection, every segment carries the stream, acknowledgements free
      exactly what they cover, the scoreboard counts are exact; joined by a
      network that loses, repeats and reorders, the reader gets a prefix of
      what the writer wrote ([transfer_in_order]). All this is for packets that
      lie in memory so that [AddAtEnd] joins pieces of the stream
      ([JoinsPieces]).
    - Congestion control: under any control that keeps the contract, with any
      initial threshold, the window neither vanishes nor overflows while the
      bytes in flight and acknowledged have 32 bits; NewReno grows as the
      protocol says, by the acknowledgement, whatever it covers;
      proportional rate reduction sends the proportion it promises, or a
      segment, while a product has 32 bits, and less when it wraps; round trip estimates and
      timeouts stay within bounds given by the samples.
    - IPv4: the longest matching prefix of least metric is chosen, except of
      several host routes, where it is the first whatever the metric; routes
      follow the addresses of the interfaces; fragments fit the MTU and
      reassemble to the packet, in any order and with duplicates, before their
      deadline; sending and receiving are inverse over a link of any MTU, for
      payloads whose parts [AddAtEnd] joins ([JoinsSlices]);
      identifications do not repeat for a flow within 2^16 packets; forwarding
      decrements the TTL.
    - Transport headers: a payload given a TCP header with any options, or a
      UDP header, and an IPv4 header comes back with both read as written and
      with good checksums, in memory shared with other packets; reading a TCP
      header is decided by 40 turns of its loop, and does not return exactly
      when the loop comes to an unknown option of length 0.
    - UDP: the lookup of end points is the most specific match, and never
      aborts when end points differ in network or device; the sockets of a node
      and its table stay consistent under all calls; receiving handles all
      bytes; a datagram goes from socket to socket over IPv4 with fragments in
      any order.
    - Links: in every world two devices reach, frames were taken, are in flight
      or wait in the queue, in the order they were accepted; nothing fails; the
      simulator runs to the end and then everything has arrived.
    - ARP: every packet is passed on, reported, forgotten with a deleted entry,
      lost on an interface that is down, or waiting; no assertion fails, because the timer serves waiting entries
      before they expire; two nodes resolve; without answers ARP gives up.
    - Queues: a drop-tail queue is a bounded first-in first-out queue with
      exact counters; in every discipline that keeps the contract, packets are
      conserved and the statistics count them, nothing fails, and a run makes
      progress within its quota; the control law of CoDel stays within its
      bounds; limits on the bytes of a device never stall it.
    - Bits: the checksum of frames is CRC-32 and detects every burst of four
      bytes; bit fields are read back, wide ones cut; a nix-vector gives every
      node on its route the next index, when no word of it is shifted by its width.
    - Gym interface: in every interleaving of the two processes each message
      read is the one written, the processes never touch the memory at once,
      and an exchange completes; observations and actions are read back as
      written; an episode that comes to an end when the programs call each
      other without messages comes to the same end by messages; one without a
      step, or whose first observation is the last, hangs; a message longer
      than the buffer ends the simulation.

    ** Choices and bounds

    An abort of the program ([NS_ASSERT], [NS_FATAL_ERROR], access out of
    range) is [None]. Integers keep their width: a [Z] wrapped where the code
    stores it. Hypotheses state where no overflow happens: time stamps below
    2^63 ([key_ok]), 32-bit uids not exhausted ([room]), buffers of at most
    [MAX_CONTENT] = 2^30 bytes, fewer than 2^32 live buffers, tag lists with
    fewer than 2^32 links to a node, one size per tag type, IPv4 payloads of at
    most 65515 bytes, MTUs of at least 28 bytes, TCP segments within [W] = 2^29
    bytes of the read position (older duplicates would be taken for new data,
    as in the protocol) and send buffers of at most [MAX_TX] = 2^30 bytes.
    Loops are structural or have fuel that is shown to be enough: the calendar
    search visits each bucket once before the direct search, the heap sifts at
    most its size, the carry loop of the checksum takes at most three turns
    ([fold_carry_ok]), a drain takes one step per event, a fragment loop one
    per fragment, the merging of SACK blocks and of items one per block or
    item. [Run] is cut after a number of events and says whether it returned;
    [Run_completes] shows that it returns. Memory that was never written is an
    argument [uninit] of the buffer operations; the handlers of events are an
    argument [notify] of the run loop. The conditions under which a connection
    calls its send buffer are the predicate [allowed] of [TcpTxSystem]: they
    state what the socket does (a request starts at an item or at the end of
    the data sent, SACK blocks lie above the acknowledged data), and leave out
    requests over data sent and not sent that span the end of the 32-bit
    numbers, which the code compares unwrapped ([copy_across_wrap]). The loop over
    TCP options has fuel 40, the space for options, and says when it is not
    enough; packets with a transport checksum have fewer than 2^16 bytes. ARP
    times are below 2^63 - 1 nanoseconds and the timeouts do not change while
    packets wait. Queues have capacities and items for which 32-bit counters
    do not wrap ([capacity_ok], [item_ok]); the loops of a queue disc have one
    turn more than it has packets; CoDel has [MinBytes] of at least 1. Messages
    of the gym interface have at most 1024 bytes, the shared buffer
    ([op_bound] memory steps per operation), made of bytes. Divisions of fixed point numbers
    take at most 64 rounds; times are converted when they are below 2^62 and
    their value in the unit has 64 bits. UDP datagrams have at most 65507 bytes
    and receive buffers at most 2^32 - 2^16. TCP segments have fewer than 2^16
    bytes, round trip times are below 2^57 nanoseconds. A shift of a word by its
    width, which nix-vector.cc does, is a parameter, and the theorem is about
    routes that do without it ([no_full_word]). The bounds of a link are
    [bounds_ok] and [device_ok]: frames of at most [smax] bytes take at most
    [D] to leave and arrive, and [budget] says that time and event numbers
    last for the frames queued; a packet belongs to the device it is sent on,
    so the sender does not change it afterwards. The wire format of protocol
    buffers is the parameter [Wire] with the round trip [WireLaws].

    ** Not modelled

    Logging and the texts of messages; reference counts of event objects (the
    addresses of the model are never reused); the pre-event hook, [Stop] with a
    delay, the system id; real-time and distributed simulators; packet
    metadata and byte tags; the attribute and type systems; the state machine
    of TCP sockets, congestion controls other than the three modelled and
    estimators with other gains, which compute with floating point numbers; IPv6, so
    also the IPv6 halves of UDP sockets and multicast groups, and the dynamic
    routing protocols; devices other than point-to-point, which compute signals
    in floating point, and error models with random numbers; queue discs with
    children and packet filters, and those that compute in floating point (RED,
    PIE, Cobalt, token bucket); the search of the ARP cache of a device; of
    contrib/, the creation of shared memory, the vector mode, the finish flag,
    the reset of an environment, and opengym, an older variant. *)

From Stdlib Require Export ZArith Lia Bool.
From Stdlib Require Import Sorting.Sorted.
From stdpp Require Export base option list sorting numbers sets gmap.
Set Warnings "-notation-overridden".

Declare Scope ns3_scope.
Delimit Scope ns3_scope with ns3.
Open Scope Z_scope.

(** ** Machine integers

    A [w]-bit C++ integer is a [Z] together with the wrap-around the language
    applies when a result is stored. *)
Definition wrap (w x : Z) : Z := x mod 2 ^ w.
Definition u8 (x : Z) : Z := wrap 8 x.
Definition u16 (x : Z) : Z := wrap 16 x.
Definition u32 (x : Z) : Z := wrap 32 x.
Definition u64 (x : Z) : Z := wrap 64 x.
(** Two's complement reading of a [w]-bit pattern. *)
Definition swrap (w x : Z) : Z := (x + 2 ^ (w - 1)) mod 2 ^ w - 2 ^ (w - 1).
Definition i32 (x : Z) : Z := swrap 32 x.
Definition i64 (x : Z) : Z := swrap 64 x.
Definition UINT32_MAX : Z := 2 ^ 32 - 1.
Definition UINT64_MAX : Z := 2 ^ 64 - 1.

(** ** Failing computations

    [None] is an abort of the program: an [NS_ASSERT] that does not hold, an
    access out of range, [front()] of an empty container, or (never reached in
    the theorems) a loop that ran out of fuel. *)
Definition NS_ASSERT (b : bool) : option unit := if b then Some tt else None.

Notation "'let*' x := c 'in' k" := (match c with Some x => k | None => None end)
  (at level 10, x pattern, c at level 100, k at level 200) : ns3_scope.
Notation "'assert*' b 'in' k" := (match NS_ASSERT b with Some _ => k | None => None end)
  (at level 10, b at level 100, k at level 200) : ns3_scope.
Open Scope ns3_scope.

(** ** Tactics *)

(** Turn boolean comparisons of the context into propositions. *)
Ltac bool_prop :=
  repeat match goal with
  | H : (_ && _)%bool = true |- _ => apply andb_true_iff in H; destruct H
  | H : (_ || _)%bool = false |- _ => apply orb_false_iff in H; destruct H
  | H : negb _ = true |- _ => apply negb_true_iff in H
  | H : negb _ = false |- _ => apply negb_false_iff in H
  | H : (_ =? _) = true |- _ => apply Z.eqb_eq in H
  | H : (_ =? _) = false |- _ => apply Z.eqb_neq in H
  | H : (_ <? _) = true |- _ => apply Z.ltb_lt in H
  | H : (_ <? _) = false |- _ => apply Z.ltb_ge in H
  | H : (_ <=? _) = true |- _ => apply Z.leb_le in H
  | H : (_ <=? _) = false |- _ => apply Z.leb_gt in H
  | H : (_ =? _)%nat = true |- _ => apply Nat.eqb_eq in H
  | H : (_ =? _)%nat = false |- _ => apply Nat.eqb_neq in H
  | H : (_ <? _)%nat = true |- _ => apply Nat.ltb_lt in H
  | H : (_ <? _)%nat = false |- _ => apply Nat.ltb_ge in H
  | H : (_ <=? _)%nat = true |- _ => apply Nat.leb_le in H
  | H : (_ <=? _)%nat = false |- _ => apply Nat.leb_gt in H
  end.

(** Split on every [if] of the goal, recording the test as a proposition. *)
Ltac case_ifs :=
  repeat match goal with
  | |- context [if ?b then _ else _] =>
      match type of b with bool => let E := fresh "E" in destruct b eqn:E end
  end; bool_prop.

(** Break a [let*] chain of the context into its successful steps. *)
Ltac inv_opt :=
  repeat match goal with
  | H : Some _ = Some _ |- _ => injection H as H; subst
  | H : None = Some _ |- _ => discriminate H
  | H : Some _ = None |- _ => discriminate H
  | H : NS_ASSERT ?b = Some _ |- _ =>
      let E := fresh "HA" in destruct b eqn:E; [clear H | discriminate H]
  | H : match ?c with Some _ => _ | None => None end = Some _ |- _ =>
      let E := fresh "HE" in destruct c eqn:E; [| discriminate H]
  end.

Create HintDb ns3.
Create Rewrite HintDb ns3_rw.

(** ** Integers *)

Lemma wrap_range w x : 0 <= w -> 0 <= wrap w x < 2 ^ w.
Proof. intros. apply Z.mod_pos_bound. lia. Qed.

Lemma wrap_small w x : 0 <= x < 2 ^ w -> wrap w x = x.
Proof. apply Z.mod_small. Qed.

Lemma u16_small x : 0 <= x < 2 ^ 16 -> u16 x = x.
Proof. apply wrap_small. Qed.

Lemma u32_small x : 0 <= x < 2 ^ 32 -> u32 x = x.
Proof. apply wrap_small. Qed.

Lemma u64_small x : 0 <= x < 2 ^ 64 -> u64 x = x.
Proof. apply wrap_small. Qed.

Lemma u32_range x : 0 <= u32 x < 2 ^ 32.
Proof. apply wrap_range; lia. Qed.

Lemma u64_range x : 0 <= u64 x < 2 ^ 64.
Proof. apply wrap_range; lia. Qed.

Lemma swrap_small w x : 0 < w -> - 2 ^ (w - 1) <= x < 2 ^ (w - 1) -> swrap w x = x.
Proof.
  intros Hw Hx. unfold swrap.
  assert (2 ^ w = 2 * 2 ^ (w - 1)) by (rewrite <- Z.pow_succ_r by lia; f_equal; lia).
  rewrite Z.mod_small; lia.
Qed.

Lemma i64_small x : - 2 ^ 63 <= x < 2 ^ 63 -> i64 x = x.
Proof. intros; apply (swrap_small 64); lia. Qed.

(** Congruent numbers less than a modulus apart are equal. *)
Lemma mod_eq_near a b n : 0 < n -> 0 <= b - a < n -> a mod n = b mod n -> a = b.
Proof.
  intros Hn Hd E.
  pose proof (Z.div_mod a n ltac:(lia)) as Ha. pose proof (Z.div_mod b n ltac:(lia)) as Hb.
  assert (b - a = n * (b / n - a / n)) as Hc by lia.
  assert (b / n - a / n = 0) by nia. lia.
Qed.

#[export] Hint Resolve u32_range u64_range : ns3.
#[export] Hint Rewrite u32_small u64_small using lia : ns3_rw.

(** ** Lists *)

Section Lists.
Context {A : Type}.

Lemma StronglySorted_app_inv (R : A -> A -> Prop) l1 l2 :
  StronglySorted R (l1 ++ l2) ->
  StronglySorted R l1 /\ StronglySorted R l2 /\ forall x y, x ∈ l1 -> y ∈ l2 -> R x y.
Proof.
  induction l1 as [|a l1 IH]; simpl; intros H.
  - repeat split; [constructor | done | set_solver].
  - apply StronglySorted_inv in H as [H Ha].
    destruct (IH H) as (? & ? & Hc). rewrite Forall_app in Ha. destruct Ha as [Ha1 Ha2].
    split; [constructor; done |]. split; [done |].
    intros x y [->|Hx]%elem_of_cons Hy; [by eapply Forall_forall in Ha2 | eauto].
Qed.

Lemma StronglySorted_app_intro (R : A -> A -> Prop) l1 l2 :
  StronglySorted R l1 -> StronglySorted R l2 -> (forall x y, x ∈ l1 -> y ∈ l2 -> R x y) ->
  StronglySorted R (l1 ++ l2).
Proof.
  induction l1 as [|a l1 IH]; simpl; intros H1 H2 Hc; [done |].
  apply StronglySorted_inv in H1 as [H1 Ha].
  constructor; [apply IH; set_solver |].
  apply Forall_app; split; [done |]. apply Forall_forall. set_solver.
Qed.

Lemma StronglySorted_remove_mid (R : A -> A -> Prop) l1 x l2 :
  StronglySorted R (l1 ++ x :: l2) -> StronglySorted R (l1 ++ l2).
Proof.
  intros (H1 & H2 & Hc)%StronglySorted_app_inv.
  apply StronglySorted_app_intro; [done | by apply StronglySorted_inv in H2 as [? _] |].
  set_solver.
Qed.

End Lists.

(** Position of an element in an interval of integers. *)
Lemma seqZ_split n l1 k l2 :
  seqZ 0 n = l1 ++ k :: l2 -> 0 <= k < n /\ forall k', 0 <= k' < k -> k' ∈ l1.
Proof.
  intros H. assert (seqZ 0 n !! length l1 = Some k) as Hk.
  { rewrite H. by rewrite list_lookup_middle. }
  apply lookup_seqZ in Hk as [Hk1 Hk2]. split; [lia |]. intros k' Hk'.
  assert (l1 !! Z.to_nat k' = Some k') as Hlk; [| by eapply list_elem_of_lookup_2].
  rewrite <- (lookup_app_l l1 (k :: l2)) by lia. rewrite <- H.
  apply lookup_seqZ. lia.
Qed.

Lemma filter_all {A} (P : A -> Prop) `{!forall x, Decision (P x)} (l : list A) :
  (forall x, x ∈ l -> P x) -> filter P l = l.
Proof.
  induction l as [|x l IH]; intros Hl; [done |]. rewrite filter_cons_True by (apply Hl; by left).
  f_equal. apply IH. intros y Hy. apply Hl. by right.
Qed.
