(* ===== verification/EventQueue.v ===== *)
(** * Event keys and the Scheduler interface (src/core/model/scheduler.h) *)

From Stdlib Require Import Sorting.Sorted.
From S2P Require Import Prelude.

(** ** Data *)

(** [EventImpl*]: an address, [nullptr] is 0. *)
Definition nullptr : Z := 0.

Record EventKey := mkKey { m_ts : Z; m_uid : Z; m_context : Z }.

Record Event := mkEvent { impl : Z; key : EventKey }.

#[export] Instance EventKey_eq_dec : EqDecision EventKey.
Proof. solve_decision. Defined.
#[export] Instance Event_eq_dec : EqDecision Event.
Proof. solve_decision. Defined.

(** ** Comparison operators *)

Definition key_eq (a b : EventKey) : bool := m_uid a =? m_uid b.
Definition key_neq (a b : EventKey) : bool := negb (m_uid a =? m_uid b).
Definition key_lt (a b : EventKey) : bool :=
  (m_ts a <? m_ts b) || ((m_ts a =? m_ts b) && (m_uid a <? m_uid b)).
Definition key_gt (a b : EventKey) : bool :=
  (m_ts b <? m_ts a) || ((m_ts a =? m_ts b) && (m_uid b <? m_uid a)).
Definition event_eq (a b : Event) : bool := key_eq (key a) (key b).
Definition event_neq (a b : Event) : bool := key_neq (key a) (key b).
Definition event_lt (a b : Event) : bool := key_lt (key a) (key b).
Definition event_gt (a b : Event) : bool := key_gt (key a) (key b).

(** ** The abstract event queue *)

Definition uid_of (e : Event) : Z := m_uid (key e).
Definition ts_of (e : Event) : Z := m_ts (key e).

(** [e] is a least element of [l]: nothing in [l] comes before it. *)
Definition minimal (e : Event) (l : list Event) : Prop :=
  forall x, x ∈ l -> event_lt x e = false.

(** The pending events carry pairwise distinct unique ids. *)
Definition distinct (l : list Event) : Prop := NoDup (uid_of <$> l).

(** What the fields can hold: a time stamp below the maximum simulation time
    (2^63 - 1) and a 32-bit unique id. *)
Definition key_ok (k : EventKey) : Prop :=
  0 <= m_ts k < 2 ^ 63 /\ 0 <= m_uid k < 2 ^ 32.

Definition before (a b : Event) : Prop := event_lt a b = true.

(** The virtual operations of class [Scheduler]. *)
Class SchedulerOps (S : Type) := {
  sched_new : S;
  sched_Insert : Event -> S -> option S;
  sched_IsEmpty : S -> bool;
  sched_PeekNext : S -> option Event;
  sched_RemoveNext : S -> option (Event * S);
  sched_Remove : Event -> S -> option S
}.

(** What an implementation promises: it holds the multiset [contents], answers
    with a least pending event, and never aborts on the inputs the simulator
    gives it. [sched_floor] is the earliest time stamp an insertion may carry. *)
Class SchedulerLaws (S : Type) `{SchedulerOps S} := {
  sched_inv : S -> Prop;
  contents : S -> list Event;
  sched_floor : S -> Z;
  sched_new_ok :
    sched_inv sched_new /\ contents sched_new = [] /\ sched_floor sched_new <= 0;
  sched_Insert_ok : forall e s,
    sched_inv s -> key_ok (key e) -> distinct (e :: contents s) ->
    sched_floor s <= ts_of e -> Z.of_nat (length (contents s)) < 2 ^ 32 - 1 ->
    exists s', sched_Insert e s = Some s' /\ sched_inv s' /\
      contents s' ≡ₚ e :: contents s /\ sched_floor s' = sched_floor s;
  sched_IsEmpty_ok : forall s,
    sched_inv s -> sched_IsEmpty s = true <-> contents s = [];
  sched_PeekNext_ok : forall s,
    sched_inv s -> contents s <> [] ->
    exists e, sched_PeekNext s = Some e /\ e ∈ contents s /\ minimal e (contents s);
  sched_RemoveNext_ok : forall s,
    sched_inv s -> contents s <> [] ->
    exists e s', sched_RemoveNext s = Some (e, s') /\ sched_inv s' /\
      contents s ≡ₚ e :: contents s' /\ minimal e (contents s) /\
      sched_floor s' <= Z.max (sched_floor s) (ts_of e)
}.

(** The additional promise of a working [Remove]. *)
Class SchedulerRemoveLaws (S : Type) `{SchedulerLaws S} := {
  sched_Remove_ok : forall e s,
    sched_inv s -> e ∈ contents s ->
    exists s', sched_Remove e s = Some s' /\ sched_inv s' /\
      contents s ≡ₚ e :: contents s' /\ sched_floor s' = sched_floor s
}.

(** Insert a list of events one after the other. *)
Fixpoint insert_all {S} `{SchedulerOps S} (l : list Event) (s : S) : option S :=
  match l with
  | [] => Some s
  | e :: l' => let* s' := sched_Insert e s in insert_all l' s'
  end.

(** [while (!IsEmpty()) RemoveNext()]: the events in the order they leave. *)
Fixpoint drain {S} `{SchedulerOps S} (fuel : nat) (s : S) : option (list Event) :=
  match fuel with
  | O => None
  | Datatypes.S fuel' =>
      if sched_IsEmpty s then Some [] else
      let* r := sched_RemoveNext s in
      let* l := drain fuel' r.2 in
      Some (r.1 :: l)
  end.

(** ** Lemmas *)

Lemma event_lt_iff a b :
  event_lt a b = true <->
  ts_of a < ts_of b \/ (ts_of a = ts_of b /\ uid_of a < uid_of b).
Proof.
  unfold event_lt, key_lt, ts_of, uid_of.
  rewrite orb_true_iff, andb_true_iff, Z.ltb_lt, Z.eqb_eq, Z.ltb_lt. tauto.
Qed.

Lemma event_lt_false a b :
  event_lt a b = false <->
  ts_of b < ts_of a \/ (ts_of a = ts_of b /\ uid_of b <= uid_of a).
Proof. pose proof (event_lt_iff a b). destruct (event_lt a b); split; intros; try done; lia. Qed.

(** Reduce comparisons of events to linear arithmetic. *)
Ltac event_order :=
  unfold before, minimal in *; intros;
  repeat match goal with
  | H : event_lt _ _ = true |- _ => apply event_lt_iff in H
  | H : event_lt _ _ = false |- _ => apply event_lt_false in H
  | |- event_lt _ _ = true => apply event_lt_iff
  | |- event_lt _ _ = false => apply event_lt_false
  end; lia.

Lemma key_gt_lt a b : key_gt a b = key_lt b a.
Proof. unfold key_gt, key_lt. by rewrite (Z.eqb_sym (m_ts a)). Qed.

Lemma event_lt_irrefl a : event_lt a a = false.
Proof. event_order. Qed.

#[export] Instance before_trans : Transitive before.
Proof. intros a b c. event_order. Qed.

Lemma event_lt_total a b : uid_of a <> uid_of b -> event_lt a b = false -> before b a.
Proof. event_order. Qed.

#[export] Instance distinct_perm : Proper ((≡ₚ) ==> iff) distinct.
Proof. intros l l' H. unfold distinct. by rewrite H. Qed.

#[export] Instance minimal_perm e : Proper ((≡ₚ) ==> iff) (minimal e).
Proof. intros l l' H. unfold minimal. by setoid_rewrite H. Qed.

Lemma distinct_cons e l :
  distinct (e :: l) <-> (forall x, x ∈ l -> uid_of x <> uid_of e) /\ distinct l.
Proof.
  unfold distinct. rewrite fmap_cons, NoDup_cons, list_elem_of_fmap.
  split; intros [H1 H2]; split; try done; [intros x ? E; apply H1; eauto | ].
  intros (x & ? & ?). by eapply H1.
Qed.

Lemma distinct_app_r l l' : distinct (l ++ l') -> distinct l'.
Proof. unfold distinct. rewrite fmap_app, NoDup_app. tauto. Qed.

Lemma distinct_inj l a b : distinct l -> a ∈ l -> b ∈ l -> uid_of a = uid_of b -> a = b.
Proof.
  induction l as [|x l IH]; intros Hd Ha Hb E; [by apply elem_of_nil in Ha |].
  apply distinct_cons in Hd as [Hx Hd].
  apply elem_of_cons in Ha as [->|Ha], Hb as [->|Hb]; eauto; exfalso.
  - by apply (Hx b).
  - by apply (Hx a).
Qed.

(** The head of a strictly sorted list is minimal in it. *)
Lemma sorted_head_minimal e l : StronglySorted before (e :: l) -> minimal e (e :: l).
Proof.
  intros [_ H]%StronglySorted_inv x [->|Hx]%elem_of_cons; [apply event_lt_irrefl |].
  eapply Forall_forall in H; [|done]. event_order.
Qed.

Lemma minimal_before e x l :
  minimal e l -> x ∈ l -> uid_of x <> uid_of e -> before e x.
Proof. intros Hm Hx Hu. specialize (Hm x Hx). event_order. Qed.

#[export] Instance before_antisymm : AntiSymm (=) before.
Proof. intros a b ? ?. exfalso. event_order. Qed.

Section Lawful.
Context {S : Type} `{SchedulerLaws S}.

(** A lawful scheduler drains completely, in strictly increasing key order. *)
Lemma drain_spec s :
  sched_inv s -> distinct (contents s) ->
  exists l, drain (Datatypes.S (length (contents s))) s = Some l /\
    l ≡ₚ contents s /\ StronglySorted before l.
Proof.
  remember (length (contents s)) as n eqn:Hn. revert s Hn.
  induction n as [|n IH]; intros s Hn Hi Hd; simpl.
  - symmetry in Hn. apply nil_length_inv in Hn. apply (sched_IsEmpty_ok s) in Hn as E; [|done].
    rewrite E, Hn. exists []. split_and!; [done | done | constructor].
  - assert (contents s <> []) as Hne by (intros E; rewrite E in Hn; done).
    destruct (sched_IsEmpty s) eqn:E; [by apply sched_IsEmpty_ok in E |].
    destruct (sched_RemoveNext_ok s Hi Hne) as (e & s' & -> & Hi' & Hp & Hm & _). simpl.
    rewrite Hp in Hd, Hm, Hn. simpl in Hn. apply distinct_cons in Hd as [Hu Hd].
    destruct (IH s') as (l & El & Hl & Hs); [lia | done | done |].
    simpl in El. rewrite El. exists (e :: l). split_and!; [done | by rewrite Hl, Hp |].
    constructor; [done |]. apply Forall_forall. intros x Hx. rewrite Hl in Hx.
    eapply minimal_before; [done | set_solver | by apply Hu].
Qed.

Lemma insert_all_spec l s :
  sched_inv s -> Forall (fun e => key_ok (key e)) l -> distinct (l ++ contents s) ->
  Forall (fun e => sched_floor s <= ts_of e) l ->
  Z.of_nat (length l + length (contents s)) < 2 ^ 32 ->
  exists s', insert_all l s = Some s' /\ sched_inv s' /\
    contents s' ≡ₚ l ++ contents s /\ sched_floor s' = sched_floor s.
Proof.
  revert s. induction l as [|e l IH]; intros s Hi Hk Hd Hf Hn; simpl in *; [by exists s |].
  apply Forall_cons in Hk as [Hk1 Hk], Hf as [Hf1 Hf].
  destruct (sched_Insert_ok e s) as (s1 & -> & Hi1 & Hp1 & Hf1'); try done; [| lia |].
  { apply distinct_cons in Hd as [Hu Hd]. apply distinct_cons.
    split; [set_solver | by eapply distinct_app_r]. }
  destruct (IH s1) as (s' & -> & Hi' & Hp' & Hf'); rewrite ?Hp1, ?Hf1'; try done.
  - by rewrite <- Permutation_middle.
  - simpl. lia.
  - exists s'. split_and!; [done | done | | congruence].
    rewrite Hp', Hp1. by rewrite Permutation_middle.
Qed.

End Lawful.
