(* ===== verification/ListScheduler.v ===== *)
(** * ListScheduler (src/core/model/list-scheduler.cc)

    The scheduler on a sorted [std::list]; also the reference implementation
    of the interface, since its state is the sorted list of pending events. *)

From Stdlib Require Import Sorting.Sorted.
From S2P Require Import Prelude EventQueue.

Module ListScheduler.

(** [m_events] *)
Definition t : Type := list Event.
#[global] Typeclasses Opaque t.

(** The insertion loop: before the first event that [ev] precedes, or at the end. *)
Fixpoint Insert (ev : Event) (m_events : t) : t :=
  match m_events with
  | [] => [ev]
  | i :: rest => if key_lt (key ev) (key i) then ev :: i :: rest else i :: Insert ev rest
  end.

Definition IsEmpty (m_events : t) : bool :=
  match m_events with [] => true | _ => false end.

(** [front()] of an empty list is undefined behaviour. *)
Definition PeekNext (m_events : t) : option Event :=
  match m_events with [] => None | e :: _ => Some e end.

Definition RemoveNext (m_events : t) : option (Event * t) :=
  match m_events with [] => None | e :: rest => Some (e, rest) end.

(** Erase the first event with the uid of [ev]; both assertions abort. *)
Fixpoint Remove (ev : Event) (m_events : t) : option t :=
  match m_events with
  | [] => None
  | i :: rest =>
      if m_uid (key i) =? m_uid (key ev)
      then assert* impl ev =? impl i in Some rest
      else let* rest' := Remove ev rest in Some (i :: rest')
  end.

#[global] Instance ops : SchedulerOps t := {
  sched_new := [];
  sched_Insert e s := Some (Insert e s);
  sched_IsEmpty := IsEmpty;
  sched_PeekNext := PeekNext;
  sched_RemoveNext := RemoveNext;
  sched_Remove := Remove
}.

(** Type invariant: strictly sorted, no unique id twice. *)
Definition inv (s : t) : Prop := StronglySorted before s /\ distinct s.

(** ** Lemmas *)

Lemma Insert_perm ev s : Insert ev s ≡ₚ ev :: s.
Proof.
  induction s as [|i s IH]; simpl; [done |].
  case_match; [done |]. rewrite IH. apply Permutation_swap.
Qed.

Lemma Insert_sorted ev s :
  StronglySorted before s -> distinct (ev :: s) -> StronglySorted before (Insert ev s).
Proof.
  induction s as [|i s IH]; intros Hs Hd; simpl; [by repeat constructor |].
  apply StronglySorted_inv in Hs as [Hs Hi].
  destruct (key_lt (key ev) (key i)) eqn:E.
  - change (before ev i) in E. constructor; [by constructor |].
    constructor; [done |]. eapply Forall_impl; [done |]. intros x ?. by transitivity i.
  - change (event_lt ev i = false) in E. apply distinct_cons in Hd as [Hu Hd].
    assert (before i ev) by (apply event_lt_total; [apply not_eq_sym, Hu; set_solver | done]).
    apply distinct_cons in Hd as [_ Hd].
    constructor.
    + apply IH; [done |]. apply distinct_cons. split; [set_solver | done].
    + rewrite Insert_perm. by constructor.
Qed.

Lemma Remove_split ev s :
  distinct s -> ev ∈ s ->
  exists l1 l2, s = l1 ++ ev :: l2 /\ Remove ev s = Some (l1 ++ l2).
Proof.
  induction s as [|i s IH]; intros Hd Hin; [by apply elem_of_nil in Hin |].
  apply distinct_cons in Hd as [Hu Hd]. simpl.
  apply elem_of_cons in Hin as [->|Hin].
  - exists [], s. rewrite Z.eqb_refl. unfold NS_ASSERT. by rewrite Z.eqb_refl.
  - destruct (m_uid (key i) =? m_uid (key ev)) eqn:E; bool_prop.
    + by destruct (Hu ev).
    + destruct (IH Hd Hin) as (l1 & l2 & -> & ->). by exists (i :: l1), l2.
Qed.

#[global] Instance laws : SchedulerLaws t.
Proof.
  refine {| sched_inv := inv; contents := fun s => s; sched_floor := fun _ => 0 |}.
  - repeat split; [constructor | constructor | done].
  - intros e s [Hs Hd0] _ Hd _ _. exists (Insert e s). simpl. repeat split.
    + by apply Insert_sorted.
    + by rewrite Insert_perm.
    + apply Insert_perm.
  - by intros [|e s] _.
  - intros [|e s] [Hs _] Hne; [done |]. exists e. simpl.
    split; [done |]. split; [set_solver | by apply sorted_head_minimal].
  - intros [|e s] [Hs Hd] Hne; [done |]. exists e, s. simpl.
    split_and!; [done | | done | by apply sorted_head_minimal | apply Z.le_max_l].
    split; [by apply StronglySorted_inv in Hs as [? _] | by apply distinct_cons in Hd as [_ ?]].
Defined.

#[global] Instance remove_laws : SchedulerRemoveLaws t.
Proof.
  split. intros e s [Hs Hd] Hin. simpl in *.
  destruct (Remove_split e s Hd Hin) as (l1 & l2 & -> & E).
  exists (l1 ++ l2). rewrite E. repeat split.
  - by eapply StronglySorted_remove_mid.
  - rewrite <- Permutation_middle in Hd. by apply distinct_cons in Hd as [_ ?].
  - by rewrite <- Permutation_middle.
Qed.

End ListScheduler.
