(* ===== verification/MapScheduler.v ===== *)
(** * MapScheduler and PriorityQueueScheduler
    (src/core/model/map-scheduler.cc, priority-queue-scheduler.cc)

    Two schedulers on ordered containers of the standard library. A
    [std::map] is the list of its (key, value) pairs in iteration order; a
    [std::priority_queue] with [std::greater<>] is the list of its elements
    in the order [pop()] yields them. *)

From Stdlib Require Import Sorting.Sorted.
From S2P Require Import Prelude EventQueue.

Module MapScheduler.

(** [m_list : std::map<EventKey, EventImpl*>] *)
Definition t : Type := list (EventKey * Z).
#[global] Typeclasses Opaque t.

(** Equivalence of keys as [std::map] sees it: neither is less. *)
Definition equiv_keys (a b : EventKey) : bool := negb (key_lt a b) && negb (key_lt b a).

(** [std::map::insert]: the map and whether the pair was inserted. *)
Fixpoint map_insert (k : EventKey) (v : Z) (m : t) : t * bool :=
  match m with
  | [] => ([(k, v)], true)
  | (k', v') :: rest =>
      if key_lt k k' then ((k, v) :: m, true)
      else if key_lt k' k then let '(r, b) := map_insert k v rest in ((k', v') :: r, b)
      else (m, false)
  end.

(** [std::map::find] *)
Fixpoint map_find (k : EventKey) (m : t) : option Z :=
  match m with
  | [] => None
  | (k', v') :: rest => if equiv_keys k k' then Some v' else map_find k rest
  end.

(** [std::map::erase] of the element found at [k]. *)
Fixpoint map_erase (k : EventKey) (m : t) : t :=
  match m with
  | [] => []
  | (k', v') :: rest => if equiv_keys k k' then rest else (k', v') :: map_erase k rest
  end.

Definition Insert (ev : Event) (m_list : t) : option t :=
  let result := map_insert (key ev) (impl ev) m_list in
  assert* result.2 in Some result.1.

Definition IsEmpty (m_list : t) : bool := match m_list with [] => true | _ => false end.

Definition PeekNext (m_list : t) : option Event :=
  match m_list with
  | [] => None
  | (k, v) :: _ => Some {| impl := v; key := k |}
  end.

Definition RemoveNext (m_list : t) : option (Event * t) :=
  match m_list with
  | [] => None
  | (k, v) :: rest => Some ({| impl := v; key := k |}, rest)
  end.

(** Dereferencing the iterator of a failed [find] is undefined behaviour. *)
Definition Remove (ev : Event) (m_list : t) : option t :=
  let* second := map_find (key ev) m_list in
  assert* second =? impl ev in
  Some (map_erase (key ev) m_list).

#[global] Instance map_ops : SchedulerOps t := {
  sched_new := [];
  sched_Insert := Insert;
  sched_IsEmpty := IsEmpty;
  sched_PeekNext := PeekNext;
  sched_RemoveNext := RemoveNext;
  sched_Remove := Remove
}.

Definition to_event (p : EventKey * Z) : Event := {| impl := p.2; key := p.1 |}.
Definition events (m : t) : list Event := to_event <$> m.
Definition map_inv (m : t) : Prop := StronglySorted before (events m) /\ distinct (events m).

(** ** Lemmas *)

Lemma map_insert_ok k v m :
  distinct (mkEvent v k :: events m) -> StronglySorted before (events m) ->
  exists m', map_insert k v m = (m', true) /\ events m' ≡ₚ mkEvent v k :: events m /\
    StronglySorted before (events m').
Proof.
  induction m as [|[k' v'] m IH]; simpl; intros Hd Hs.
  { eexists. split; [done |]. split; [done | by repeat constructor]. }
  pose proof Hs as [Hs' Hh]%StronglySorted_inv.
  pose proof Hd as [Hu [Hu' Hd']%distinct_cons]%distinct_cons.
  destruct (key_lt k k') eqn:E1.
  - change (before (mkEvent v k) (to_event (k', v'))) in E1.
    eexists. split; [done |]. split; [done |]. constructor; [done |].
    constructor; [done |]. eapply Forall_impl; [done |].
    intros x ?. by transitivity (to_event (k', v')).
  - change (event_lt (mkEvent v k) (to_event (k', v')) = false) in E1.
    assert (before (to_event (k', v')) (mkEvent v k)) as E2.
    { apply event_lt_total; [| done]. apply not_eq_sym, Hu. set_solver. }
    destruct IH as (m' & E & Hp & Hsm); [| done |].
    { apply distinct_cons. split; [set_solver | done]. }
    assert (key_lt k' k = true) as E3 by exact E2. rewrite E3, E.
    eexists. split; [done |]. simpl.
    split; [rewrite Hp; apply Permutation_swap |].
    constructor; [done |]. rewrite Hp. by constructor.
Qed.

Lemma equiv_keys_uid a b : equiv_keys a b = true -> m_uid a = m_uid b.
Proof. unfold equiv_keys, key_lt. intros. bool_prop. lia. Qed.

Lemma equiv_keys_refl a : equiv_keys a a = true.
Proof. unfold equiv_keys, key_lt. by rewrite !Z.ltb_irrefl, Z.eqb_refl. Qed.

Lemma map_find_split ev m :
  distinct (events m) -> ev ∈ events m ->
  map_find (key ev) m = Some (impl ev) /\
  exists l1 l2, events m = l1 ++ ev :: l2 /\ events (map_erase (key ev) m) = l1 ++ l2.
Proof.
  induction m as [|[k' v'] m IH]; simpl; intros Hd Hin; [by apply elem_of_nil in Hin |].
  apply distinct_cons in Hd as [Hu Hd]. apply elem_of_cons in Hin as [->|Hin]; simpl.
  - rewrite equiv_keys_refl. split; [done |]. by exists [], (events m).
  - destruct (equiv_keys (key ev) k') eqn:E.
    + apply equiv_keys_uid in E. by destruct (Hu ev Hin).
    + destruct (IH Hd Hin) as (-> & l1 & l2 & E1 & E2). split; [done |].
      exists (to_event (k', v') :: l1), l2. simpl. by rewrite <- E1, <- E2.
Qed.

#[global] Instance map_laws : SchedulerLaws t.
Proof.
  refine {| sched_inv := map_inv; contents := events; sched_floor := fun _ => 0 |}.
  - split_and!; [split; constructor | done | done].
  - intros e s [Hs _] _ Hd _ _. destruct e as [v k].
    destruct (map_insert_ok k v s Hd Hs) as (m' & E & Hp & Hs').
    exists m'. simpl. unfold Insert. simpl. rewrite E. simpl.
    split_and!; [done | split; [done | by rewrite Hp] | done | done].
  - intros [|[]] _; by split.
  - intros [|[k v] s] [Hs _] Hne; [done |]. exists (mkEvent v k). simpl.
    split_and!; [done | set_solver | by apply sorted_head_minimal].
  - intros [|[k v] s] [Hs Hd] Hne; [done |]. exists (mkEvent v k), s. simpl.
    split_and!; [done | | done | by apply sorted_head_minimal | apply Z.le_max_l].
    split; [by apply StronglySorted_inv in Hs as [? _] | by apply distinct_cons in Hd as [_ ?]].
Defined.

#[global] Instance map_remove_laws : SchedulerRemoveLaws t.
Proof.
  split. intros e s [Hs Hd] Hin. simpl in *.
  destruct (map_find_split e s Hd Hin) as (E & l1 & l2 & E1 & E2).
  exists (map_erase (key e) s). unfold Remove. rewrite E. unfold NS_ASSERT.
  rewrite Z.eqb_refl, E1, E2. rewrite E1 in Hs, Hd.
  split_and!; [done | | by rewrite <- Permutation_middle | done]. split; rewrite E2.
  - by eapply StronglySorted_remove_mid.
  - rewrite <- Permutation_middle in Hd. by apply distinct_cons in Hd as [_ ?].
Qed.

End MapScheduler.

Module PriorityQueueScheduler.

(** [m_queue]: the elements of the priority queue, top first. *)
Definition t : Type := list Event.
#[global] Typeclasses Opaque t.

(** [std::priority_queue::push] with comparator [std::greater<>]: [x] ranks
    below [y] when [x > y]. *)
Fixpoint push (ev : Event) (m_queue : t) : t :=
  match m_queue with
  | [] => [ev]
  | x :: rest => if event_gt ev x then x :: push ev rest else ev :: m_queue
  end.

Definition Insert (ev : Event) (m_queue : t) : t := push ev m_queue.

Definition IsEmpty (m_queue : t) : bool := match m_queue with [] => true | _ => false end.

Definition PeekNext (m_queue : t) : option Event := head m_queue.

Definition RemoveNext (m_queue : t) : option (Event * t) :=
  match m_queue with [] => None | ev :: rest => Some (ev, rest) end.

(** [EventPriorityQueue::remove]: find by [operator==], erase, make_heap. *)
Fixpoint remove (ev : Event) (c : t) : bool * t :=
  match c with
  | [] => (false, [])
  | x :: rest =>
      if event_eq x ev then (true, rest)
      else let '(b, rest') := remove ev rest in (b, x :: rest')
  end.

Definition Remove (ev : Event) (m_queue : t) : t := (remove ev m_queue).2.

#[global] Instance pq_ops : SchedulerOps t := {
  sched_new := [];
  sched_Insert e s := Some (Insert e s);
  sched_IsEmpty := IsEmpty;
  sched_PeekNext := PeekNext;
  sched_RemoveNext := RemoveNext;
  sched_Remove e s := Some (Remove e s)
}.

Definition pq_inv (s : t) : Prop := StronglySorted before s /\ distinct s.

(** ** Lemmas *)

Lemma push_perm ev s : push ev s ≡ₚ ev :: s.
Proof.
  induction s as [|x s IH]; simpl; [done |].
  case_match; [|done]. rewrite IH. apply Permutation_swap.
Qed.

Lemma push_sorted ev s :
  StronglySorted before s -> distinct (ev :: s) -> StronglySorted before (push ev s).
Proof.
  induction s as [|x s IH]; intros Hs Hd; simpl; [by repeat constructor |].
  pose proof Hs as [Hs' Hx]%StronglySorted_inv.
  pose proof Hd as [Hu [Hu' Hd']%distinct_cons]%distinct_cons.
  unfold event_gt. rewrite key_gt_lt.
  destruct (key_lt (key x) (key ev)) eqn:E.
  - change (before x ev) in E. constructor; [| rewrite push_perm; by constructor].
    apply IH; [done |]. apply distinct_cons. split; [set_solver | done].
  - change (event_lt x ev = false) in E.
    assert (before ev x) by (apply event_lt_total; [apply Hu; set_solver | done]).
    constructor; [done |]. constructor; [done |].
    eapply Forall_impl; [done |]. intros y ?. by transitivity x.
Qed.

Lemma remove_split ev s :
  distinct s -> ev ∈ s ->
  exists l1 l2, s = l1 ++ ev :: l2 /\ remove ev s = (true, l1 ++ l2).
Proof.
  induction s as [|x s IH]; intros Hd Hin; [by apply elem_of_nil in Hin |].
  apply distinct_cons in Hd as [Hu Hd]. simpl. unfold event_eq, key_eq.
  apply elem_of_cons in Hin as [->|Hin].
  - exists [], s. by rewrite Z.eqb_refl.
  - destruct (m_uid (key x) =? m_uid (key ev)) eqn:E; bool_prop; [by destruct (Hu ev) |].
    destruct (IH Hd Hin) as (l1 & l2 & -> & ->). by exists (x :: l1), l2.
Qed.

#[global] Instance pq_laws : SchedulerLaws t.
Proof.
  refine {| sched_inv := pq_inv; contents := fun s => s; sched_floor := fun _ => 0 |}.
  - split_and!; [split; constructor | done | done].
  - intros e s [Hs _] _ Hd _ _. exists (push e s). simpl.
    split_and!; [done | split; [by apply push_sorted | by rewrite push_perm] | apply push_perm | done].
  - by intros [|e s] _.
  - intros [|e s] [Hs _] Hne; [done |]. exists e. simpl.
    split_and!; [done | set_solver | by apply sorted_head_minimal].
  - intros [|e s] [Hs Hd] Hne; [done |]. exists e, s. simpl.
    split_and!; [done | | done | by apply sorted_head_minimal | apply Z.le_max_l].
    split; [by apply StronglySorted_inv in Hs as [? _] | by apply distinct_cons in Hd as [_ ?]].
Defined.

#[global] Instance pq_remove_laws : SchedulerRemoveLaws t.
Proof.
  split. intros e s [Hs Hd] Hin. simpl in *.
  destruct (remove_split e s Hd Hin) as (l1 & l2 & -> & E).
  exists (l1 ++ l2). unfold Remove. rewrite E.
  split_and!; [done | | by rewrite <- Permutation_middle | done]. split.
  - by eapply StronglySorted_remove_mid.
  - rewrite <- Permutation_middle in Hd. by apply distinct_cons in Hd as [_ ?].
Qed.

End PriorityQueueScheduler.
