(* ===== verification/HeapScheduler.v ===== *)
(** * HeapScheduler (src/core/model/heap-scheduler.cc)

    A binary heap in a [std::vector] whose entry 0 is wasted so that the root
    has index 1. [size_t] indices are [nat]; an access out of range aborts. *)

From Stdlib Require Import ZifyNat.
From S2P Require Import Prelude EventQueue.
Local Open Scope nat_scope.
(** [lia] on halved indices. *)
Local Ltac Zify.zify_post_hook ::= Z.to_euclidean_division_equations.

Module HeapScheduler.

(** [m_heap] *)
Definition t : Type := list Event.
#[global] Typeclasses Opaque t.

Definition empty_event : Event := {| impl := nullptr; key := mkKey 0 0 0 |}.
#[export] Instance Event_inhabited : Inhabited Event := populate empty_event.

(** Constructor: the wasted entry. *)
Definition HeapScheduler_new : list Event := [empty_event].

Definition Parent (id : nat) : nat := id / 2.
Definition Sibling (id : nat) : nat := id + 1.
Definition LeftChild (id : nat) : nat := id * 2.
Definition RightChild (id : nat) : nat := id * 2 + 1.
Definition Root : nat := 1.
Definition IsRoot (id : nat) : bool := id =? Root.
Definition Last (m_heap : list Event) : nat := length m_heap - 1.
Definition IsBottom (m_heap : list Event) (id : nat) : bool := length m_heap <=? id.

Definition Exch (a b : nat) (m_heap : list Event) : option (list Event) :=
  assert* (b <? length m_heap) && (a <? length m_heap) in
  let* tmp := m_heap !! a in
  let* at_b := m_heap !! b in
  Some (<[b := tmp]> (<[a := at_b]> m_heap)).

Definition IsLessStrictly (m_heap : list Event) (a b : nat) : option bool :=
  let* x := m_heap !! a in
  let* y := m_heap !! b in
  Some (event_lt x y).

Definition Smallest (m_heap : list Event) (a b : nat) : option nat :=
  let* l := IsLessStrictly m_heap a b in
  Some (if l then a else b).

Definition IsEmpty (m_heap : list Event) : bool := length m_heap =? 1.

(** The [while] loop of [BottomUp]; the index halves at each turn. *)
Fixpoint BottomUp_loop (fuel index : nat) (m_heap : list Event) : option (list Event) :=
  match fuel with
  | O => None
  | S fuel' =>
      if IsRoot index then Some m_heap else
      let* l := IsLessStrictly m_heap index (Parent index) in
      if l then
        let* m_heap' := Exch index (Parent index) m_heap in
        BottomUp_loop fuel' (Parent index) m_heap'
      else Some m_heap
  end.

Definition BottomUp (m_heap : list Event) : option (list Event) :=
  BottomUp_loop (length m_heap) (Last m_heap) m_heap.

(** The [while] loop of [TopDown]: [Some index] when the loop condition fails,
    [None] when the body returned from the function. *)
Fixpoint TopDown_loop (fuel index : nat) (m_heap : list Event) : option (list Event * option nat) :=
  match fuel with
  | O => None
  | S fuel' =>
      let right := RightChild index in
      if IsBottom m_heap right then Some (m_heap, Some index) else
      let left := LeftChild index in
      let* tmp := Smallest m_heap left right in
      let* l := IsLessStrictly m_heap index tmp in
      if l then Some (m_heap, None) else
      let* m_heap' := Exch index tmp m_heap in
      TopDown_loop fuel' tmp m_heap'
  end.

Definition TopDown (start : nat) (m_heap : list Event) : option (list Event) :=
  let* r := TopDown_loop (S (length m_heap)) start m_heap in
  match r with
  | (m_heap', None) => Some m_heap'
  | (m_heap', Some index) =>
      if IsBottom m_heap' index then Some m_heap' else
      assert* negb (IsBottom m_heap' index) in
      let left := LeftChild index in
      if IsBottom m_heap' left then Some m_heap' else
      let* l := IsLessStrictly m_heap' index left in
      if l then Some m_heap' else Exch index left m_heap'
  end.

Definition Insert (ev : Event) (m_heap : list Event) : option (list Event) := BottomUp (m_heap ++ [ev]).

Definition PeekNext (m_heap : list Event) : option Event := m_heap !! Root.

(** [pop_back()] *)
Definition pop_back (m_heap : list Event) : list Event := take (length m_heap - 1) m_heap.

Definition RemoveNext (m_heap : list Event) : option (Event * list Event) :=
  let* next := m_heap !! Root in
  let* m_heap1 := Exch Root (Last m_heap) m_heap in
  let* m_heap2 := TopDown Root (pop_back m_heap1) in
  Some (next, m_heap2).

(** The search loop of [Remove] from index [i]; [fuel] bounds the entries left. *)
Fixpoint Remove_loop (fuel i : nat) (ev : Event) (m_heap : list Event) : option (list Event) :=
  match fuel with
  | O => None
  | S fuel' =>
      if length m_heap <=? i then None (* NS_ASSERT(false) *) else
      let* x := m_heap !! i in
      if (m_uid (key ev) =? m_uid (key x))%Z then
        assert* (impl x =? impl ev)%Z in
        let* m_heap1 := Exch i (Last m_heap) m_heap in
        TopDown i (pop_back m_heap1)
      else Remove_loop fuel' (i + 1) ev m_heap
  end.

Definition Remove (ev : Event) (m_heap : list Event) : option (list Event) :=
  Remove_loop (length m_heap) 1 ev m_heap.

#[global] Instance heap_ops : SchedulerOps t := {
  sched_new := HeapScheduler_new;
  sched_Insert := Insert;
  sched_IsEmpty := IsEmpty;
  sched_PeekNext := PeekNext;
  sched_RemoveNext := RemoveNext;
  sched_Remove := Remove
}.

(** ** Invariant *)

(** Entry [i] does not come after entry [j]. *)
Definition le (h : list Event) (i j : nat) : Prop := event_lt (h !!! j) (h !!! i) = false.

(** Heap order: no entry comes before its parent. *)
Definition ordered (h : list Event) : Prop :=
  forall i, 2 <= i < length h -> le h (Parent i) i.

(** The pending events: every entry but the wasted one. *)
Definition entries (h : list Event) : list Event := tail h.

Definition heap_inv (h : list Event) : Prop := ordered h /\ 1 <= length h.

(** Order everywhere except between [idx] and its parent, with the children of
    [idx] already in order with that parent: the invariant of [BottomUp]. *)
Definition ordered_up (h : list Event) (idx : nat) : Prop :=
  (forall i, 2 <= i < length h -> i <> idx -> le h (Parent i) i) /\
  (forall i, 2 <= i < length h -> Parent i = idx -> 2 <= idx -> le h (Parent idx) i).

(** Order everywhere except between [idx] and its children: the invariant of
    [TopDown] started at the root. *)
Definition ordered_down (h : list Event) (idx : nat) : Prop :=
  (forall i, 2 <= i < length h -> Parent i <> idx -> le h (Parent i) i) /\
  (forall i, 2 <= i < length h -> Parent i = idx -> 2 <= idx -> le h (Parent idx) i).

(** ** Lemmas: exchange *)

Lemma le_trans_heap h i j k : le h i j -> le h j k -> le h i k.
Proof. unfold le. event_order. Qed.

Lemma le_refl_heap h i : le h i i.
Proof. unfold le. apply event_lt_irrefl. Qed.

Definition exch (a b : nat) (h : list Event) : list Event := <[b := h !!! a]> (<[a := h !!! b]> h).

Lemma Exch_exch a b h : a < length h -> b < length h -> Exch a b h = Some (exch a b h).
Proof.
  intros Ha Hb. unfold Exch.
  rewrite (proj2 (Nat.ltb_lt _ _) Ha), (proj2 (Nat.ltb_lt _ _) Hb).
  by rewrite (list_lookup_lookup_total_lt h a), (list_lookup_lookup_total_lt h b) by lia.
Qed.

Lemma exch_length a b h : length (exch a b h) = length h.
Proof. unfold exch. by rewrite !length_insert. Qed.

Lemma exch_lookup a b h k :
  a < length h -> b < length h ->
  exch a b h !!! k = if k =? b then h !!! a else if k =? a then h !!! b else h !!! k.
Proof.
  intros Ha Hb. unfold exch.
  destruct (Nat.eqb_spec k b) as [->|]; [by rewrite list_lookup_total_insert_eq by (rewrite length_insert; lia) |].
  rewrite list_lookup_total_insert_ne by done.
  destruct (Nat.eqb_spec k a) as [->|]; [by rewrite list_lookup_total_insert_eq by lia |].
  by rewrite list_lookup_total_insert_ne by done.
Qed.

(** The position [exch a b] fetches entry [k] from. *)
Definition swap (a b k : nat) : nat := if k =? b then a else if k =? a then b else k.

Lemma exch_swap a b h k :
  a < length h -> b < length h -> exch a b h !!! k = h !!! swap a b k.
Proof. intros. rewrite exch_lookup by done. unfold swap. by repeat case_match. Qed.

Lemma swap_inj a b : Inj (=) (=) (swap a b).
Proof. intros x y. unfold swap. case_ifs; lia. Qed.

Lemma exch_perm a b h : a < length h -> b < length h -> exch a b h ≡ₚ h.
Proof.
  intros Ha Hb. apply Permutation_inj. split; [apply exch_length |].
  exists (swap a b). split; [apply swap_inj |]. intros i.
  destruct (decide (i < length h)) as [Hi|Hi].
  - rewrite (list_lookup_lookup_total_lt (exch a b h)) by (rewrite exch_length; lia).
    rewrite exch_swap by done. symmetry. apply list_lookup_lookup_total_lt.
    unfold swap. case_ifs; lia.
  - rewrite lookup_ge_None_2 by (rewrite exch_length; lia).
    symmetry. apply lookup_ge_None_2. unfold swap. case_ifs; lia.
Qed.

Lemma exch_entries a b h :
  1 <= a < length h -> 1 <= b < length h -> entries (exch a b h) ≡ₚ entries h.
Proof.
  intros Ha Hb. destruct h as [|d l]; [simpl in *; lia |].
  destruct a as [|a], b as [|b]; try lia. simpl in *.
  apply (Permutation_cons_inv (a := d)).
  apply (exch_perm (S a) (S b) (d :: l)); simpl; lia.
Qed.

Lemma exch_le a b h i j :
  a < length h -> b < length h ->
  le h (swap a b i) (swap a b j) -> le (exch a b h) i j.
Proof. intros. unfold le. by rewrite !exch_swap by done. Qed.

Lemma IsLessStrictly_le h a b :
  a < length h -> b < length h -> IsLessStrictly h a b = Some (event_lt (h !!! a) (h !!! b)).
Proof.
  intros. unfold IsLessStrictly. by rewrite !list_lookup_lookup_total_lt by done.
Qed.

(** Solve [swap] of concrete-looking indices. *)
Ltac swap_simp :=
  repeat match goal with
  | |- context [swap ?a ?b ?k] =>
      first [ replace (swap a b k) with a by (unfold swap; case_ifs; lia)
            | replace (swap a b k) with b by (unfold swap; case_ifs; lia)
            | replace (swap a b k) with k by (unfold swap; case_ifs; lia) ]
  end.

(** ** Lemmas: BottomUp *)

Lemma ordered_up_step h idx :
  2 <= idx < length h -> ordered_up h idx ->
  event_lt (h !!! idx) (h !!! Parent idx) = true ->
  ordered_up (exch idx (Parent idx) h) (Parent idx).
Proof.
  intros Hidx [H1 H2] Hlt. unfold ordered_up, Parent in *.
  assert (le h idx (idx / 2)) as Hle by (unfold le; event_order).
  split; rewrite exch_length; intros i Hi; [intros Hne | intros Hp Hp2]; apply exch_le; try lia.
  - destruct (decide (i = idx)) as [->|Hi1]; [swap_simp; done |].
    destruct (decide (i / 2 = idx)) as [Hc|Hc].
    + rewrite Hc. swap_simp. apply H2; lia.
    + destruct (decide (i / 2 = idx / 2)) as [Hs|Hs].
      * rewrite Hs. swap_simp. eapply le_trans_heap; [done |]. rewrite <- Hs. apply H1; lia.
      * swap_simp. apply H1; lia.
  - assert (le h (idx / 2 / 2) (idx / 2)) as Hg by (apply H1; lia).
    destruct (decide (i = idx)) as [->|Hi1]; [swap_simp; done |].
    swap_simp. eapply le_trans_heap; [done |]. rewrite <- Hp. apply H1; lia.
Qed.

Lemma ordered_up_done h idx :
  ordered_up h idx -> (2 <= idx < length h -> le h (Parent idx) idx) -> ordered h.
Proof.
  intros [H1 _] Hi i Hb. destruct (decide (i = idx)) as [->|]; [by apply Hi | by apply H1].
Qed.

Lemma BottomUp_loop_ok fuel idx h :
  idx < fuel -> 1 <= idx < length h -> ordered_up h idx ->
  exists h', BottomUp_loop fuel idx h = Some h' /\ ordered h' /\
    entries h' ≡ₚ entries h /\ length h' = length h.
Proof.
  revert idx h. induction fuel as [|fuel IH]; intros idx h Hf Hidx Ho; [lia |]. simpl.
  unfold IsRoot, Root. destruct (Nat.eqb_spec idx 1) as [->|Hne].
  { exists h. split_and!; try done. apply (ordered_up_done h 1); [done | lia]. }
  assert (1 <= Parent idx < idx) as Hp by (unfold Parent; lia).
  rewrite IsLessStrictly_le by lia.
  destruct (event_lt (h !!! idx) (h !!! Parent idx)) eqn:E.
  - rewrite Exch_exch by lia.
    destruct (IH (Parent idx) (exch idx (Parent idx) h)) as (h' & -> & Ho' & Hp' & Hl);
      [lia | rewrite exch_length; lia | by apply ordered_up_step; [lia |..] |].
    exists h'. rewrite exch_length in Hl. split_and!; try done.
    rewrite Hp'. apply exch_entries; lia.
  - exists h. split_and!; try done. by apply (ordered_up_done h idx).
Qed.

(** ** Lemmas: TopDown *)

Lemma ordered_down_step h idx c :
  1 <= idx -> Parent c = idx -> 2 <= c < length h -> ordered_down h idx ->
  (forall i, 2 <= i < length h -> Parent i = idx -> le h c i) ->
  event_lt (h !!! idx) (h !!! c) = false ->
  ordered_down (exch idx c h) c.
Proof.
  intros Hidx Hc Hcl [H1 H2] Hmin Hlt. unfold ordered_down, Parent in *.
  assert (le h c idx) as Hle by done.
  split; rewrite exch_length; intros i Hi Hp; [| intros Hp2]; apply exch_le; try lia.
  - destruct (decide (i = c)) as [->|Hi1]; [rewrite Hc; swap_simp; done |].
    destruct (decide (i = idx)) as [->|Hi2].
    { swap_simp. apply H2; lia. }
    destruct (decide (i / 2 = idx)) as [Hs|Hs].
    + rewrite Hs. swap_simp. apply Hmin; lia.
    + swap_simp. apply H1; lia.
  - rewrite Hc. swap_simp. rewrite <- Hp. apply H1; lia.
Qed.

Lemma ordered_down_done h idx :
  ordered_down h idx -> (forall i, 2 <= i < length h -> Parent i = idx -> le h idx i) ->
  ordered h.
Proof.
  intros [H1 _] Hi i Hb. destruct (decide (Parent i = idx)) as [E|E]; [| by apply H1].
  rewrite E. by apply Hi.
Qed.

Lemma children idx i : 1 <= idx -> Parent i = idx -> i = LeftChild idx \/ i = RightChild idx.
Proof. unfold Parent, LeftChild, RightChild. lia. Qed.

(** [Smallest] of the two children of [idx] is not after any child of [idx]. *)
Lemma Smallest_child h idx :
  1 <= idx -> RightChild idx < length h ->
  exists c, Smallest h (LeftChild idx) (RightChild idx) = Some c /\
    (c = LeftChild idx \/ c = RightChild idx) /\
    forall i, 2 <= i < length h -> Parent i = idx -> le h c i.
Proof.
  intros Hidx Hr. unfold Smallest.
  assert (LeftChild idx < length h) by (unfold LeftChild, RightChild in *; lia).
  rewrite IsLessStrictly_le by done. eexists. split; [done |].
  destruct (event_lt (h !!! LeftChild idx) (h !!! RightChild idx)) eqn:E;
    (split; [tauto |]); intros i Hi [->| ->]%children; try done;
    try apply le_refl_heap; unfold le; event_order.
Qed.

Lemma TopDown_loop_ok fuel idx h :
  length h - idx < fuel -> 1 <= idx -> ordered_down h idx ->
  exists h' r, TopDown_loop fuel idx h = Some (h', r) /\
    entries h' ≡ₚ entries h /\ length h' = length h /\
    match r with
    | None => ordered h'
    | Some idx' => ordered_down h' idx' /\ 1 <= idx' /\ length h <= RightChild idx'
    end.
Proof.
  revert idx h. induction fuel as [|fuel IH]; intros idx h Hf Hidx Ho; [lia |]. simpl.
  unfold IsBottom. destruct (Nat.leb_spec (length h) (RightChild idx)) as [Hb|Hb].
  { exists h, (Some idx). by split_and!. }
  destruct (Smallest_child h idx Hidx Hb) as (c & -> & Hc & Hmin).
  assert (Parent c = idx /\ idx < c < length h) as [Hpc Hcl].
  { unfold Parent, LeftChild, RightChild in *. lia. }
  rewrite IsLessStrictly_le by lia.
  destruct (event_lt (h !!! idx) (h !!! c)) eqn:E.
  - exists h, None. split_and!; try done. apply (ordered_down_done h idx); [done |].
    intros i Hi Hp. apply (le_trans_heap _ _ c); [unfold le; event_order | by apply Hmin].
  - rewrite Exch_exch by lia.
    destruct (IH c (exch idx c h)) as (h' & r & -> & Hp & Hl & Hr);
      [rewrite exch_length; lia | lia | by apply ordered_down_step; [| | lia |..] |].
    rewrite exch_length in *. exists h', r. split_and!; try done.
    rewrite Hp. apply exch_entries; lia.
Qed.

Lemma TopDown_ok idx h :
  1 <= idx -> ordered_down h idx ->
  exists h', TopDown idx h = Some h' /\ ordered h' /\
    entries h' ≡ₚ entries h /\ length h' = length h.
Proof.
  intros Hidx Ho. unfold TopDown.
  destruct (TopDown_loop_ok (S (length h)) idx h) as (h1 & r & -> & Hp & Hl & Hr);
    [lia | done | done |].
  destruct r as [j|]; [| by exists h1].
  destruct Hr as (Ho1 & Hj & Hrc). unfold IsBottom.
  assert (forall P : Prop, length h1 <= LeftChild j ->
    (forall i, 2 <= i < length h1 -> Parent i = j -> P)) as Hno.
  { intros P Hlj i Hi Hpi. exfalso. unfold Parent, LeftChild in *. lia. }
  destruct (Nat.leb_spec (length h1) j) as [Hb|Hb].
  { exists h1. split_and!; try done. apply (ordered_down_done h1 j); [done |].
    intros i. apply Hno. unfold LeftChild. lia. }
  simpl. destruct (Nat.leb_spec (length h1) (LeftChild j)) as [Hb2|Hb2].
  { exists h1. split_and!; try done. apply (ordered_down_done h1 j); [done |].
    intros i. by apply Hno. }
  assert (forall i, 2 <= i < length h1 -> Parent i = j -> i = LeftChild j) as Honly.
  { intros i Hi [?|?]%children; [done | unfold RightChild in *; lia | done]. }
  rewrite IsLessStrictly_le by done.
  destruct (event_lt (h1 !!! j) (h1 !!! LeftChild j)) eqn:E.
  - exists h1. split_and!; try done. apply (ordered_down_done h1 j); [done |].
    intros i Hi Hpi. rewrite (Honly i Hi Hpi). unfold le. event_order.
  - rewrite Exch_exch by done. exists (exch j (LeftChild j) h1).
    assert (1 <= LeftChild j) by (unfold LeftChild; lia).
    rewrite exch_length. split_and!; try done; [| rewrite <- Hp; apply exch_entries; lia].
    apply (ordered_down_done _ (LeftChild j)).
    + apply ordered_down_step; try done; [unfold Parent, LeftChild; lia | unfold LeftChild in *; lia |].
      intros i Hi Hpi. rewrite (Honly i Hi Hpi). apply le_refl_heap.
    + rewrite exch_length. intros i Hi Hpi. exfalso.
      unfold Parent, LeftChild, RightChild in *. lia.
Qed.

(** Without any assumption on the order, [TopDown] terminates and only permutes
    the entries. *)
Lemma TopDown_loop_total fuel idx h :
  length h - idx < fuel -> 1 <= idx ->
  exists h' r, TopDown_loop fuel idx h = Some (h', r) /\
    entries h' ≡ₚ entries h /\ length h' = length h /\
    forall j, r = Some j -> 1 <= j.
Proof.
  revert idx h. induction fuel as [|fuel IH]; intros idx h Hf Hidx; [lia |]. simpl.
  unfold IsBottom. destruct (Nat.leb_spec (length h) (RightChild idx)) as [Hb|Hb].
  { exists h, (Some idx). split_and!; try done. by intros j [= <-]. }
  destruct (Smallest_child h idx Hidx Hb) as (c & -> & Hc & _).
  assert (idx < c < length h) as Hcl by (unfold LeftChild, RightChild in *; lia).
  rewrite IsLessStrictly_le by lia. case_match; [by exists h, None |].
  rewrite Exch_exch by lia.
  destruct (IH c (exch idx c h)) as (h' & r & -> & Hp & Hl & Hr); rewrite ?exch_length; try lia.
  rewrite exch_length in *. exists h', r. split_and!; try done.
  rewrite Hp. apply exch_entries; lia.
Qed.

Lemma TopDown_total idx h :
  1 <= idx ->
  exists h', TopDown idx h = Some h' /\ entries h' ≡ₚ entries h /\ length h' = length h.
Proof.
  intros Hidx. unfold TopDown.
  destruct (TopDown_loop_total (S (length h)) idx h) as (h1 & r & -> & Hp & Hl & Hr); [lia | done |].
  destruct r as [j|]; [| by exists h1]. specialize (Hr j eq_refl).
  unfold IsBottom. destruct (Nat.leb_spec (length h1) j); [by exists h1 |].
  destruct (Nat.leb_spec (length h1) (LeftChild j)); simpl; [by exists h1 |].
  rewrite IsLessStrictly_le by done. case_match; [by exists h1 |].
  rewrite Exch_exch by done. eexists. split; [done |]. rewrite exch_length.
  split; [| done]. rewrite <- Hp. apply exch_entries; unfold LeftChild in *; lia.
Qed.

(** ** Lemmas: operations *)

Lemma root_minimal h i : ordered h -> 1 <= i < length h -> le h 1 i.
Proof.
  intros Ho. induction (lt_wf i) as [i _ IH]. intros Hi.
  destruct (decide (i = 1)) as [->|]; [apply le_refl_heap |].
  apply (le_trans_heap _ _ (Parent i)); [apply IH; unfold Parent; lia | apply Ho; lia].
Qed.

Lemma entries_lookup h x : x ∈ entries h -> exists i, 1 <= i < length h /\ h !!! i = x.
Proof.
  destruct h as [|d l]; simpl; [intros H; by apply elem_of_nil in H |].
  intros (i & Hi)%list_elem_of_lookup_1. exists (S i).
  pose proof (lookup_lt_Some _ _ _ Hi). split; [lia |].
  by apply list_lookup_total_correct.
Qed.

Lemma entries_minimal h : ordered h -> minimal (h !!! 1) (entries h).
Proof. intros Ho x (i & Hi & <-)%entries_lookup. by apply root_minimal. Qed.

Lemma push_ordered_up h ev : ordered h -> 1 <= length h -> ordered_up (h ++ [ev]) (length h).
Proof.
  intros Ho Hl. assert (forall k, k < length h -> (h ++ [ev]) !!! k = h !!! k) as Hk.
  { intros. by apply lookup_total_app_l. }
  unfold ordered_up, le, Parent. rewrite length_app. cbn [length]. split; intros i Hi.
  - intros Hne. rewrite !Hk by lia. apply Ho; lia.
  - lia.
Qed.

Lemma pop_back_lookup h k : k < length h - 1 -> pop_back h !!! k = h !!! k.
Proof. intros. unfold pop_back. by apply lookup_total_take_lt. Qed.

Lemma pop_back_length h : length (pop_back h) = length h - 1.
Proof. unfold pop_back. rewrite length_take. lia. Qed.

Lemma pop_back_entries h :
  2 <= length h -> entries h ≡ₚ h !!! (length h - 1) :: entries (pop_back h).
Proof.
  destruct h as [|y h _] using rev_ind; [simpl; lia |]. intros Hl.
  rewrite length_app in Hl. unfold pop_back. rewrite length_app.
  replace (length h + length [y] - 1) with (length h) by (simpl; lia).
  rewrite take_app_length, lookup_total_app_r, Nat.sub_diag by lia.
  destruct h as [|d l]; simpl in *; [lia |]. by rewrite Permutation_app_comm.
Qed.

Lemma RemoveNext_ordered_down h :
  ordered h -> 2 <= length h ->
  ordered_down (pop_back (exch 1 (length h - 1) h)) 1.
Proof.
  intros Ho Hl. unfold ordered_down, le, Parent.
  rewrite pop_back_length, exch_length. split; intros i Hi Hp; [| lia].
  rewrite !pop_back_lookup by (rewrite exch_length; lia).
  apply exch_le; [lia | lia |]. swap_simp. apply Ho. lia.
Qed.

(** The search of [Remove] stops at the entry with the uid of [ev]. *)
Lemma Remove_loop_find fuel i k ev h :
  distinct (entries h) -> 1 <= i <= k -> k < length h -> h !!! k = ev -> k - i < fuel ->
  Remove_loop fuel i ev h = TopDown k (pop_back (exch k (length h - 1) h)).
Proof.
  intros Hd. revert i. induction fuel as [|fuel IH]; intros i Hi Hk Hev Hf; [lia |]. simpl.
  destruct (Nat.leb_spec (length h) i); [lia |].
  rewrite (list_lookup_lookup_total_lt h i) by lia.
  destruct (decide (i = k)) as [->|Hne].
  - rewrite Hev, Z.eqb_refl. unfold NS_ASSERT. rewrite Z.eqb_refl.
    by rewrite Exch_exch by (unfold Last; lia).
  - destruct (m_uid (key ev) =? m_uid (key (h !!! i)))%Z eqn:E; bool_prop; [| apply IH; [lia | lia | done | lia]].
    exfalso. apply Hne. destruct h as [|d l]; [simpl in *; lia |].
    destruct i as [|i], k as [|k]; try lia. simpl in *.
    f_equal. eapply (NoDup_lookup (uid_of <$> l)); [done | |];
      rewrite list_lookup_fmap, list_lookup_lookup_total_lt by lia; simpl; [done |].
    f_equal. unfold uid_of. rewrite Hev. done.
Qed.

Lemma Remove_at ev h :
  distinct (entries h) -> ev ∈ entries h ->
  exists k, 1 <= k < length h /\ h !!! k = ev /\
    Remove ev h = TopDown k (pop_back (exch k (length h - 1) h)).
Proof.
  intros Hd (k & Hk & He)%entries_lookup. exists k. split_and!; [lia | lia | done |].
  apply Remove_loop_find; try done; lia.
Qed.

Lemma pop_exch_entries k h :
  1 <= k < length h -> h !!! k :: entries (pop_back (exch k (length h - 1) h)) ≡ₚ entries h.
Proof.
  intros Hk. rewrite <- (exch_entries k (length h - 1) h) by lia.
  rewrite (pop_back_entries (exch k (length h - 1) h)) by (rewrite exch_length; lia).
  rewrite exch_length, exch_lookup, Nat.eqb_refl by lia. done.
Qed.

#[global] Instance heap_laws : SchedulerLaws t.
Proof.
  refine {| sched_inv := heap_inv; contents := entries; sched_floor := fun _ => 0%Z |}.
  - split_and!; [| done | done]. split; [intros i Hi; simpl in Hi; lia | done].
  - intros e h [Ho Hl] _ _ _ _. unfold t in *. simpl. unfold Insert, BottomUp, Last.
    destruct (BottomUp_loop_ok (length (h ++ [e])) (length (h ++ [e]) - 1) (h ++ [e]))
      as (h' & -> & Ho' & Hp & Hl'); rewrite ?length_app; simpl; try lia.
    { rewrite Nat.add_sub. by apply push_ordered_up. }
    exists h'. rewrite length_app in Hl'. split_and!; try done; [split; [done | lia] |].
    rewrite Hp. destruct h as [|d l]; simpl in *; [lia |]. by rewrite Permutation_app_comm.
  - intros [|d [|x h]] [_ Hl]; simpl in *; [lia | done |]. unfold IsEmpty. simpl. by split.
  - intros h [Ho Hl] Hne. destruct h as [|d [|x l]]; [done | done |].
    exists x. split_and!; [done | set_solver | by apply entries_minimal].
  - intros h [Ho Hl] Hne. unfold t in *. simpl. unfold RemoveNext, Root, Last.
    assert (2 <= length h) as Hl2 by (destruct h as [|d [|x l]]; simpl in *; [done | done | lia]).
    rewrite (list_lookup_lookup_total_lt h 1) by lia. rewrite Exch_exch by lia.
    destruct (TopDown_ok 1 (pop_back (exch 1 (length h - 1) h))) as (h' & -> & Ho' & Hp & Hl');
      [lia | by apply RemoveNext_ordered_down |].
    rewrite pop_back_length, exch_length in Hl'.
    exists (h !!! 1), h'. split_and!; [done | split; [done | lia] | | by apply entries_minimal | apply Z.le_max_l].
    rewrite Hp. symmetry. apply pop_exch_entries. lia.
Defined.

(** ** Properties of Remove *)

(** [HeapScheduler::Remove] of a pending event never aborts and removes
    exactly that event from the multiset of pending events, whatever the state
    of the heap order. *)
Theorem Heap_Remove_contents ev h :
  distinct (entries h) -> ev ∈ entries h ->
  exists h', Remove ev h = Some h' /\ entries h ≡ₚ ev :: entries h'.
Proof.
  intros Hd Hin. destruct (Remove_at ev h Hd Hin) as (k & Hk & He & ->).
  destruct (TopDown_total k (pop_back (exch k (length h - 1) h))) as (h' & -> & Hp & _); [lia |].
  exists h'. split; [done |]. rewrite Hp, <- He. symmetry. by apply pop_exch_entries.
Qed.

(** [HeapScheduler::Remove] restores the heap order when the last entry of
    the array, which takes the place of the removed one, does not come before
    the parent of that place. *)
Theorem Heap_Remove_ordered ev h k :
  heap_inv h -> distinct (entries h) -> 1 <= k < length h -> h !!! k = ev ->
  (2 <= k -> le h (Parent k) (length h - 1)) ->
  exists h', Remove ev h = Some h' /\ heap_inv h' /\ entries h ≡ₚ ev :: entries h'.
Proof.
  intros [Ho Hl] Hd Hk He Hle.
  assert (Remove ev h = TopDown k (pop_back (exch k (length h - 1) h))) as ->.
  { apply Remove_loop_find; try done; lia. }
  destruct (TopDown_ok k (pop_back (exch k (length h - 1) h))) as (h' & -> & Ho' & Hp & Hl'); [lia | |].
  - unfold ordered_down, le. rewrite pop_back_length, exch_length.
    split; intros i Hi Hp; [| intros Hk2]; unfold Parent in *;
      rewrite !pop_back_lookup by (rewrite exch_length; lia); apply exch_le; try lia.
    + destruct (decide (i = k)) as [->|]; [swap_simp; apply Hle; lia |].
      swap_simp. by apply Ho; lia.
    + swap_simp. apply (le_trans_heap _ _ k); [apply Ho; lia |].
      rewrite <- Hp. apply Ho; lia.
  - rewrite pop_back_length, exch_length in Hl'. exists h'.
    split_and!; [done | split; [done | lia] |]. rewrite Hp, <- He. symmetry. by apply pop_exch_entries.
Qed.

Definition ev_at (ts uid : Z) : Event := {| impl := 100 + uid; key := mkKey ts uid 0 |}.

Lemma Heap_Remove_contents_witness :
  exists h', Remove (ev_at 5 5) [empty_event; ev_at 1 6; ev_at 5 5] = Some h' /\
    entries [empty_event; ev_at 1 6; ev_at 5 5] ≡ₚ ev_at 5 5 :: entries h'.
Proof.
  apply Heap_Remove_contents; [apply (bool_decide_unpack _); vm_compute; exact I |].
  apply (bool_decide_unpack _); vm_compute; exact I.
Defined.

Lemma Heap_Remove_ordered_witness :
  exists h', Remove (ev_at 5 5) [empty_event; ev_at 1 6; ev_at 5 5; ev_at 7 7] = Some h' /\
    heap_inv h' /\
    entries [empty_event; ev_at 1 6; ev_at 5 5; ev_at 7 7] ≡ₚ ev_at 5 5 :: entries h'.
Proof.
  apply (Heap_Remove_ordered _ _ 2); [| apply (bool_decide_unpack _); vm_compute; exact I | simpl; lia | done | done].
  split; [| simpl; lia]. intros i Hi. simpl in Hi.
  assert (i = 2 \/ i = 3) as [-> | ->] by lia; done.
Defined.

(** Seven events inserted in the order of the list, one of them removed. *)
Definition bug_events : list Event :=
  [ev_at 5 10; ev_at 4 11; ev_at 7 12; ev_at 2 13; ev_at 6 14; ev_at 1 15; ev_at 3 16].

(** [HeapScheduler::Remove] only sifts down, so it can break the heap
    order: after inserting seven events and removing the first one, the events
    of time 4 and 3 leave the queue in the wrong order. *)
Theorem Heap_Remove_breaks_order :
  exists h h' : t, insert_all bug_events sched_new = Some h /\
    sched_Remove (ev_at 5 10) h = Some h' /\
    option_map (map ts_of) (drain 10 h') = Some [1; 2; 4; 3; 6; 7]%Z.
Proof. do 2 eexists. split; [vm_compute; reflexivity |]. split; vm_compute; reflexivity. Qed.

End HeapScheduler.
