(* ===== verification/CalendarScheduler.v ===== *)
(** * CalendarScheduler (src/core/model/calendar-scheduler.cc)

    Brown's calendar queue: an array of sorted buckets, bucket
    [(ts / width) % nBuckets] holding the events of time stamp [ts]. Time
    stamps and widths are 64-bit, bucket counters 32-bit, with their
    wrap-around; the scan over the buckets has the number of buckets as fuel,
    which is exactly how often the [do ... while] body runs. *)

From Stdlib Require Import Sorting.Sorted.
From S2P Require Import Prelude EventQueue.

Module CalendarScheduler.

Record t := mkCal {
  m_buckets : list (list Event);
  m_nBuckets : Z;
  m_width : Z;
  m_lastBucket : Z;
  m_bucketTop : Z;
  m_lastPrio : Z;
  m_qSize : Z;
  m_reverse : bool
}.

Definition set_buckets (b : list (list Event)) (s : t) : t :=
  mkCal b (m_nBuckets s) (m_width s) (m_lastBucket s) (m_bucketTop s) (m_lastPrio s) (m_qSize s)
    (m_reverse s).
Definition set_last (lastBucket bucketTop lastPrio : Z) (s : t) : t :=
  mkCal (m_buckets s) (m_nBuckets s) (m_width s) lastBucket bucketTop lastPrio (m_qSize s)
    (m_reverse s).
Definition set_qSize (n : Z) (s : t) : t :=
  mkCal (m_buckets s) (m_nBuckets s) (m_width s) (m_lastBucket s) (m_bucketTop s) (m_lastPrio s) n
    (m_reverse s).

(** ** Bucket primitives chosen by [SetReverse] *)

Definition NextEvent (reverse : bool) (bucket : list Event) : option Event :=
  if reverse then last bucket else head bucket.

Definition Order (reverse : bool) (a b : EventKey) : bool :=
  if reverse then key_gt a b else key_lt a b.

Definition Pop (reverse : bool) (bucket : list Event) : list Event :=
  if reverse then take (length bucket - 1) bucket else drop 1 bucket.

(** ** Operations *)

Definition Hash (s : t) (ts : Z) : Z := u32 ((ts / m_width s) mod m_nBuckets s).

Definition Init (nBuckets width startPrio : Z) (s : t) : t :=
  let s1 := mkCal (replicate (Z.to_nat nBuckets) []) nBuckets width (m_lastBucket s)
              (m_bucketTop s) startPrio (m_qSize s) (m_reverse s) in
  set_last (Hash s1 startPrio) (u64 ((startPrio / width + 1) * width)) startPrio s1.

(** The constructor, followed by [SetReverse] for the attribute. *)
Definition CalendarScheduler_new (reverse : bool) : t :=
  set_qSize 0 (Init 2 1 0 (mkCal [] 0 0 0 0 0 0 reverse)).

(** The insertion loop over one bucket. *)
Fixpoint bucket_insert (reverse : bool) (ev : Event) (bucket : list Event) : list Event :=
  match bucket with
  | [] => [ev]
  | i :: rest =>
      if Order reverse (key ev) (key i) then ev :: i :: rest
      else i :: bucket_insert reverse ev rest
  end.

Definition DoInsert (ev : Event) (s : t) : option t :=
  let bucket := Z.to_nat (Hash s (ts_of ev)) in
  let* b := m_buckets s !! bucket in
  Some (set_buckets (<[bucket := bucket_insert (m_reverse s) ev b]> (m_buckets s)) s).

Definition IsEmpty (s : t) : bool := m_qSize s =? 0.

(** The [do ... while] loop shared by [PeekNext] and [DoRemoveNext]: visit the
    buckets from [i] on; leave with [inl (i, next, bucketTop)] at the first
    bucket whose next event is below [bucketTop], and with the accumulator when
    the scan is back at [m_lastBucket]. *)
Fixpoint scan {A} (upd : A -> Z -> Event -> A) (fuel : nat) (s : t) (i bucketTop : Z) (acc : A)
    : option ((Z * Event * Z) + A) :=
  match fuel with
  | O => None
  | S fuel' =>
      let* b := m_buckets s !! Z.to_nat i in
      let continue acc' :=
        let i' := u32 (i + 1) mod m_nBuckets s in
        let bucketTop' := u64 (bucketTop + m_width s) in
        if i' =? m_lastBucket s then Some (inr acc') else scan upd fuel' s i' bucketTop' acc' in
      match NextEvent (m_reverse s) b with
      | None => continue acc
      | Some next =>
          if ts_of next <? bucketTop then Some (inl (i, next, bucketTop))
          else continue (upd acc i next)
      end
  end.

Definition peek_upd (minEvent : Event) (i : Z) (next : Event) : Event :=
  if key_lt (key next) (key minEvent) then next else minEvent.

Definition PeekNext (s : t) : option Event :=
  assert* negb (IsEmpty s) in
  let minEvent := {| impl := nullptr; key := mkKey UINT64_MAX UINT32_MAX 0 |} in
  let* r := scan peek_upd (Z.to_nat (m_nBuckets s)) s (m_lastBucket s) (m_bucketTop s) minEvent in
  match r with inl (_, next, _) => Some next | inr minEvent' => Some minEvent' end.

Definition remove_upd (acc : EventKey * Z) (i : Z) (next : Event) : EventKey * Z :=
  if key_lt (key next) acc.1 then (key next, i) else acc.

(** [-1] as a bucket index is out of range. *)
Definition DoRemoveNext (s : t) : option (Event * t) :=
  assert* negb (IsEmpty s) in
  let minKey := mkKey (u64 (- 1)) 0 (2 ^ 32 - 1) in
  let* r := scan remove_upd (Z.to_nat (m_nBuckets s)) s (m_lastBucket s) (m_bucketTop s)
              (minKey, -1) in
  match r with
  | inl (i, next, bucketTop) =>
      let s1 := set_last i bucketTop (ts_of next) s in
      let* b := m_buckets s1 !! Z.to_nat i in
      Some (next, set_buckets (<[Z.to_nat i := Pop (m_reverse s) b]> (m_buckets s1)) s1)
  | inr (minKey', minBucket) =>
      let s1 := set_last (Hash s (m_ts minKey'))
                  (u64 ((m_ts minKey' / m_width s + 1) * m_width s)) (m_ts minKey') s in
      if minBucket <? 0 then None else
      let* b := m_buckets s1 !! Z.to_nat minBucket in
      let* next := NextEvent (m_reverse s) b in
      Some (next, set_buckets (<[Z.to_nat minBucket := Pop (m_reverse s) b]> (m_buckets s1)) s1)
  end.

(** [for (i < nSamples) samples.push_back(DoRemoveNext())] *)
Fixpoint gather (n : nat) (s : t) : option (list Event * t) :=
  match n with
  | O => Some ([], s)
  | S n' =>
      let* r := DoRemoveNext s in
      let* r' := gather n' r.2 in
      Some (r.1 :: r'.1, r'.2)
  end.

Fixpoint DoInsert_all (l : list Event) (s : t) : option t :=
  match l with
  | [] => Some s
  | e :: l' => let* s' := DoInsert e s in DoInsert_all l' s'
  end.

(** First pass over the samples: the sum of the separations. *)
Fixpoint separation (totalSeparation : Z) (samples : list Event) : Z :=
  match samples with
  | cur :: (next :: _) as rest =>
      separation (u64 (totalSeparation + u64 (ts_of next - ts_of cur))) rest
  | _ => totalSeparation
  end.

(** Second pass: the sum of the separations up to [twiceAvg]. *)
Fixpoint separation_below (twiceAvg totalSeparation : Z) (samples : list Event) : Z :=
  match samples with
  | cur :: (next :: _) as rest =>
      let diff := u64 (ts_of next - ts_of cur) in
      separation_below twiceAvg
        (if diff <=? twiceAvg then u64 (totalSeparation + diff) else totalSeparation) rest
  | _ => totalSeparation
  end.

Definition nSamples (qSize : Z) : Z :=
  let n := if qSize <=? 5 then qSize else u32 (5 + qSize / 10) in
  if 25 <? n then 25 else n.

Definition CalculateNewWidth (s : t) : option (Z * t) :=
  if m_qSize s <? 2 then Some (1, s) else
  let n := nSamples (m_qSize s) in
  let* r := gather (Z.to_nat n) s in
  let samples := r.1 in
  let* s1 := DoInsert_all samples r.2 in
  let s2 := set_last (m_lastBucket s) (m_bucketTop s) (m_lastPrio s) s1 in
  let totalSeparation := separation 0 samples in
  let twiceAvg := u64 (totalSeparation / (n - 1) * 2) in
  let totalSeparation := separation_below twiceAvg 0 samples in
  let totalSeparation := u64 (totalSeparation * 3) in
  Some (Z.max totalSeparation 1, s2).

(** The old buckets are emptied in array order into the new ones. *)
Definition DoResize (newSize newWidth : Z) (s : t) : option t :=
  let oldBuckets := m_buckets s in
  DoInsert_all (concat oldBuckets) (Init newSize newWidth (m_lastPrio s) s).

Definition Resize (newSize : Z) (s : t) : option t :=
  let* r := CalculateNewWidth s in
  DoResize newSize r.1 r.2.

Definition ResizeUp (s : t) : option t :=
  if (u32 (m_nBuckets s * 2) <? m_qSize s) && (m_nBuckets s <? 32768)
  then Resize (u32 (m_nBuckets s * 2)) s else Some s.

Definition ResizeDown (s : t) : option t :=
  if m_qSize s <? m_nBuckets s / 2 then Resize (m_nBuckets s / 2) s else Some s.

Definition Insert (ev : Event) (s : t) : option t :=
  let* s1 := DoInsert ev s in
  ResizeUp (set_qSize (u32 (m_qSize s1 + 1)) s1).

Definition RemoveNext (s : t) : option (Event * t) :=
  assert* negb (IsEmpty s) in
  let* r := DoRemoveNext s in
  let* s2 := ResizeDown (set_qSize (u32 (m_qSize r.2 - 1)) r.2) in
  Some (r.1, s2).

(** The search loop of [Remove] over one bucket. *)
Fixpoint bucket_erase (ev : Event) (bucket : list Event) : option (list Event) :=
  match bucket with
  | [] => None
  | i :: rest =>
      if m_uid (key i) =? m_uid (key ev) then assert* impl ev =? impl i in Some rest
      else let* rest' := bucket_erase ev rest in Some (i :: rest')
  end.

Definition Remove (ev : Event) (s : t) : option t :=
  assert* negb (IsEmpty s) in
  let bucket := Z.to_nat (Hash s (ts_of ev)) in
  let* b := m_buckets s !! bucket in
  let* b' := bucket_erase ev b in
  let s1 := set_buckets (<[bucket := b']> (m_buckets s)) s in
  ResizeDown (set_qSize (u32 (m_qSize s1 - 1)) s1).

(** ** Invariant *)

Definition events (s : t) : list Event := concat (m_buckets s).

Definition bucket_order (reverse : bool) (a b : Event) : Prop :=
  if reverse then before b a else before a b.

(** Geometry: array size, widths and the position of the scan. *)
Record geometry (s : t) : Prop := mkGeometry {
  geo_len : Z.of_nat (length (m_buckets s)) = m_nBuckets s;
  geo_n : 1 <= m_nBuckets s <= 65536;
  geo_width : 1 <= m_width s < 2 ^ 64;
  geo_prio : 0 <= m_lastPrio s < 2 ^ 63;
  geo_last : m_lastBucket s = (m_lastPrio s / m_width s) mod m_nBuckets s;
  geo_top : m_bucketTop s = u64 ((m_lastPrio s / m_width s + 1) * m_width s)
}.

(** Every bucket is sorted and holds only events that hash to it. *)
Record placed (s : t) : Prop := mkPlaced {
  pl_sorted : forall j b, m_buckets s !! j = Some b -> StronglySorted (bucket_order (m_reverse s)) b;
  pl_hash : forall j b e, m_buckets s !! j = Some b -> e ∈ b -> Hash s (ts_of e) = Z.of_nat j;
  pl_key : forall e, e ∈ events s -> key_ok (key e);
  pl_distinct : distinct (events s)
}.

(** [core s]: all of the invariant but the event counter. *)
Record core (s : t) : Prop := mkCore {
  core_geo : geometry s;
  core_placed : placed s;
  core_floor : forall e, e ∈ events s -> m_lastPrio s <= ts_of e
}.

Definition cal_inv (s : t) : Prop :=
  core s /\ m_qSize s = Z.of_nat (length (events s)) /\ m_qSize s < 2 ^ 32.

(** ** Lemmas: one bucket *)

Lemma NextEvent_None rev b : NextEvent rev b = None -> b = [].
Proof. destruct rev; simpl; [apply last_None | by destruct b]. Qed.

Lemma Pop_snoc b e : Pop true (b ++ [e]) = b.
Proof. simpl. rewrite length_app. simpl. rewrite Nat.add_sub. apply take_app_length. Qed.

(** The next event of a sorted bucket is a least element, and popping removes it. *)
Lemma NextEvent_spec rev b e :
  StronglySorted (bucket_order rev) b -> NextEvent rev b = Some e ->
  b ≡ₚ e :: Pop rev b /\ minimal e b /\ StronglySorted (bucket_order rev) (Pop rev b).
Proof.
  destruct rev; simpl; intros Hs He.
  - destruct b as [|x b _] using rev_ind; [done |]. rewrite last_snoc in He. injection He as ->.
    change (take (length (b ++ [e]) - 1) (b ++ [e])) with (Pop true (b ++ [e])). rewrite Pop_snoc.
    apply StronglySorted_app_inv in Hs as (Hs & _ & Hc).
    split_and!; [by rewrite Permutation_app_comm | | done].
    intros x [Hx|Hx]%elem_of_app; [| apply list_elem_of_singleton in Hx as ->; apply event_lt_irrefl].
    specialize (Hc x e Hx (list_elem_of_here _ _)). simpl in Hc. event_order.
  - destruct b as [|x b]; [done |]. simpl in *. injection He as ->.
    rewrite drop_0. split_and!; [done | by apply sorted_head_minimal | by apply StronglySorted_inv in Hs as [? _]].
Qed.

Lemma bucket_insert_perm rev ev b : bucket_insert rev ev b ≡ₚ ev :: b.
Proof.
  induction b as [|i b IH]; simpl; [done |].
  case_match; [done |]. rewrite IH. apply Permutation_swap.
Qed.

Lemma Order_bucket_order rev a b :
  uid_of a <> uid_of b ->
  if Order rev (key a) (key b) then bucket_order rev a b else bucket_order rev b a.
Proof.
  intros Hu. unfold Order, bucket_order. destruct rev.
  - rewrite key_gt_lt. destruct (key_lt (key b) (key a)) eqn:E; [done |].
    apply event_lt_total; [congruence | done].
  - destruct (key_lt (key a) (key b)) eqn:E; [done |]. by apply event_lt_total.
Qed.

#[export] Instance bucket_order_trans rev : Transitive (bucket_order rev).
Proof. intros a b c. unfold bucket_order. destruct rev; simpl; event_order. Qed.

Lemma bucket_insert_sorted rev ev b :
  StronglySorted (bucket_order rev) b -> distinct (ev :: b) ->
  StronglySorted (bucket_order rev) (bucket_insert rev ev b).
Proof.
  induction b as [|i b IH]; intros Hs Hd; simpl; [by repeat constructor |].
  pose proof Hs as [Hs' Hi]%StronglySorted_inv.
  pose proof Hd as [Hu [Hu' Hd']%distinct_cons]%distinct_cons.
  pose proof (Order_bucket_order rev ev i) as HO.
  destruct (Order rev (key ev) (key i)).
  - constructor; [done |]. constructor; [apply HO, not_eq_sym, Hu; set_solver |].
    eapply Forall_impl; [done |]. intros x ?. transitivity i; [| done].
    apply HO, not_eq_sym, Hu; set_solver.
  - constructor; [apply IH; [done | apply distinct_cons; split; [set_solver | done]] |].
    rewrite bucket_insert_perm. constructor; [| done]. apply HO, not_eq_sym, Hu. set_solver.
Qed.

Lemma bucket_erase_split ev b :
  distinct b -> ev ∈ b ->
  exists l1 l2, b = l1 ++ ev :: l2 /\ bucket_erase ev b = Some (l1 ++ l2).
Proof.
  induction b as [|i b IH]; intros Hd Hin; [by apply elem_of_nil in Hin |].
  apply distinct_cons in Hd as [Hu Hd]. simpl. apply elem_of_cons in Hin as [->|Hin].
  - exists [], b. unfold NS_ASSERT. by rewrite !Z.eqb_refl.
  - destruct (m_uid (key i) =? m_uid (key ev)) eqn:E; bool_prop; [by destruct (Hu ev) |].
    destruct (IH Hd Hin) as (l1 & l2 & -> & ->). by exists (i :: l1), l2.
Qed.

(** ** Lemmas: the array of buckets *)

Lemma concat_update (bs : list (list Event)) i b b' e :
  bs !! i = Some b -> b' ≡ₚ e :: b -> concat (<[i := b']> bs) ≡ₚ e :: concat bs.
Proof.
  intros Hi Hb. rewrite <- (take_drop_middle bs i b Hi) at 2.
  rewrite insert_take_drop by (by eapply lookup_lt_Some).
  rewrite !concat_app. simpl. rewrite Hb. simpl. symmetry. apply Permutation_middle.
Qed.

Lemma concat_elem (bs : list (list Event)) e :
  e ∈ concat bs <-> exists j b, bs !! j = Some b /\ e ∈ b.
Proof.
  rewrite list_elem_of_In, in_concat. split.
  - intros (b & Hb & He). apply list_elem_of_In in Hb as (j & Hj)%list_elem_of_lookup.
    exists j, b. by rewrite list_elem_of_In.
  - intros (j & b & Hj & He). exists b. rewrite <- !list_elem_of_In.
    split; [by eapply list_elem_of_lookup_2 | done].
Qed.

Lemma distinct_bucket (bs : list (list Event)) i b :
  bs !! i = Some b -> distinct (concat bs) -> distinct b.
Proof.
  intros Hi. rewrite <- (take_drop_middle _ _ _ Hi), concat_app. simpl.
  rewrite Permutation_app_swap_app. unfold distinct. rewrite fmap_app, NoDup_app. tauto.
Qed.

Lemma concat_replicate_nil n : concat (replicate n ([] : list Event)) = [].
Proof. by induction n. Qed.

Lemma Hash_mod s ts : 1 <= m_nBuckets s <= 65536 -> Hash s ts = (ts / m_width s) mod m_nBuckets s.
Proof.
  intros Hn. apply u32_small. pose proof (Z.mod_pos_bound (ts / m_width s) (m_nBuckets s)). lia.
Qed.

Lemma Hash_range s ts : 1 <= m_nBuckets s <= 65536 -> 0 <= Hash s ts < m_nBuckets s.
Proof. intros Hn. rewrite Hash_mod by done. apply Z.mod_pos_bound. lia. Qed.

(** A change of one bucket that keeps the placement. *)
Lemma placed_update s j b b' :
  placed s -> m_buckets s !! j = Some b ->
  StronglySorted (bucket_order (m_reverse s)) b' ->
  (forall e, e ∈ b' -> Hash s (ts_of e) = Z.of_nat j /\ key_ok (key e)) ->
  distinct (concat (<[j := b']> (m_buckets s))) ->
  placed (set_buckets (<[j := b']> (m_buckets s)) s).
Proof.
  intros [H1 H2 H3 H4] Hj Hs He Hd.
  assert (forall i c, <[j := b']> (m_buckets s) !! i = Some c ->
    (i = j /\ c = b') \/ m_buckets s !! i = Some c) as Hlk.
  { intros i c [(-> & -> & _)|[_ ?]]%list_lookup_insert_Some; auto. }
  split; simpl.
  - intros i c [[-> ->]|Hi]%Hlk; [done | by eapply H1].
  - intros i c e [[-> ->]|Hi]%Hlk Hin; [by apply He | by eapply H2].
  - intros e (i & c & Hi & Hin)%concat_elem. apply Hlk in Hi as [[-> ->]|Hi]; [by apply He |].
    apply H3, concat_elem. eauto.
  - done.
Qed.

(** [s'] differs from [s] in its buckets only, and has as many. *)
Definition same_frame (s s' : t) : Prop :=
  exists bs, s' = set_buckets bs s /\ length bs = length (m_buckets s).

Lemma same_frame_refl s : same_frame s s.
Proof. exists (m_buckets s). by destruct s. Qed.

Lemma same_frame_trans s1 s2 s3 : same_frame s1 s2 -> same_frame s2 s3 -> same_frame s1 s3.
Proof. intros (b1 & -> & H1) (b2 & -> & H2). exists b2. split; [done | by rewrite H2]. Qed.

Lemma same_frame_geometry s s' : same_frame s s' -> geometry s -> geometry s'.
Proof. intros (bs & -> & Hl) [? ? ? ? ? ?]. split; simpl; congruence. Qed.

Lemma DoInsert_ok e s :
  Z.of_nat (length (m_buckets s)) = m_nBuckets s -> 1 <= m_nBuckets s <= 65536 ->
  placed s -> key_ok (key e) -> distinct (e :: events s) ->
  exists s', DoInsert e s = Some s' /\ same_frame s s' /\ placed s' /\
    events s' ≡ₚ e :: events s.
Proof.
  intros Hlen Hn Hp Hk Hd. unfold DoInsert.
  pose proof (Hash_range s (ts_of e) Hn) as Hr.
  destruct (lookup_lt_is_Some_2 (m_buckets s) (Z.to_nat (Hash s (ts_of e)))) as [b Hb]; [lia |].
  rewrite Hb. eexists. split; [done |].
  pose proof (concat_update _ _ _ _ _ Hb (bucket_insert_perm (m_reverse s) e b)) as Hc.
  split_and!; [eexists; split; [done | apply length_insert] | | done].
  eapply placed_update; [done | done | | | by rewrite Hc].
  - apply bucket_insert_sorted; [by eapply (pl_sorted _ Hp) |].
    apply distinct_cons in Hd as [Hu _]. apply distinct_cons. split.
    + intros x Hx. apply Hu, concat_elem. eauto.
    + by eapply distinct_bucket, (pl_distinct _ Hp).
  - intros x. rewrite bucket_insert_perm. intros [->|Hx]%elem_of_cons; [split; [lia | done] |].
    split; [by eapply (pl_hash _ Hp) |]. eapply (pl_key _ Hp), concat_elem. eauto.
Qed.

Lemma DoInsert_all_ok l s :
  Z.of_nat (length (m_buckets s)) = m_nBuckets s -> 1 <= m_nBuckets s <= 65536 ->
  placed s -> Forall (fun e => key_ok (key e)) l -> distinct (l ++ events s) ->
  exists s', DoInsert_all l s = Some s' /\ same_frame s s' /\ placed s' /\
    events s' ≡ₚ l ++ events s.
Proof.
  revert s. induction l as [|e l IH]; intros s Hlen Hn Hp Hk Hd; simpl in *.
  { exists s. by split_and!; [| apply same_frame_refl | |]. }
  apply Forall_cons in Hk as [Hk1 Hk]. pose proof Hd as [Hu Hd']%distinct_cons.
  destruct (DoInsert_ok e s) as (s1 & -> & Hf1 & Hp1 & He1); try done.
  { apply distinct_cons. split; [set_solver | by eapply distinct_app_r]. }
  pose proof Hf1 as (bs & -> & Hl).
  destruct (IH (set_buckets bs s)) as (s' & -> & Hf' & Hp' & He'); simpl; try done.
  - by rewrite Hl.
  - by rewrite He1, <- Permutation_middle.
  - exists s'. split_and!; [done | by eapply same_frame_trans | done |].
    by rewrite He', He1, Permutation_middle.
Qed.

(** ** Lemmas: the scan *)

Definition bucket_at (s : t) (i : Z) : list Event := m_buckets s !!! Z.to_nat i.

(** Next event of bucket [i]. *)
Definition next_at (s : t) (i : Z) : option Event := NextEvent (m_reverse s) (bucket_at s i).

Lemma bucket_at_lookup s i :
  Z.of_nat (length (m_buckets s)) = m_nBuckets s -> 0 <= i < m_nBuckets s ->
  m_buckets s !! Z.to_nat i = Some (bucket_at s i).
Proof. intros. apply list_lookup_lookup_total_lt. lia. Qed.

(** Index and top of the bucket visited at offset [k]: quotient [q + k], where
    [q] is the quotient of the last priority. *)
Definition quot (s : t) : Z := m_lastPrio s / m_width s.
Definition idx (s : t) (k : Z) : Z := (quot s + k) mod m_nBuckets s.
Definition top (s : t) (k : Z) : Z := u64 ((quot s + k + 1) * m_width s).

Lemma idx_range s k : geometry s -> 0 <= idx s k < m_nBuckets s.
Proof. intros [_ Hn _ _ _ _]. apply Z.mod_pos_bound. lia. Qed.

Lemma idx_succ s k : geometry s -> u32 (idx s k + 1) mod m_nBuckets s = idx s (k + 1).
Proof.
  intros Hg. pose proof (idx_range s k Hg). destruct Hg as [_ Hn _ _ _ _].
  rewrite u32_small by lia. unfold idx. rewrite Z.add_mod_idemp_l by lia. f_equal. lia.
Qed.

Lemma top_succ s k : u64 (top s k + m_width s) = top s (k + 1).
Proof. unfold top, u64, wrap. rewrite Z.add_mod_idemp_l by lia. f_equal. ring. Qed.

Lemma idx_back s k :
  geometry s -> 0 <= k < m_nBuckets s -> (idx s (k + 1) =? m_lastBucket s) = (k + 1 =? m_nBuckets s).
Proof.
  intros Hg Hk. destruct Hg as [_ Hn _ _ Hl _]. rewrite Hl. unfold idx. fold (quot s).
  destruct (Z.eqb_spec (k + 1) (m_nBuckets s)) as [E|E].
  - rewrite E. apply Z.eqb_eq. rewrite <- (Z.mul_1_l (m_nBuckets s)) at 1. apply Z_mod_plus_full.
  - apply Z.eqb_neq. intros Heq.
    symmetry in Heq. apply mod_eq_near in Heq; lia.
Qed.

(** The scan as a traversal of the offsets still to visit. *)
Fixpoint scan_list {A} (upd : A -> Z -> Event -> A) (s : t) (ks : list Z) (acc : A)
    : (Z * Event) + A :=
  match ks with
  | [] => inr acc
  | k :: ks' =>
      match next_at s (idx s k) with
      | None => scan_list upd s ks' acc
      | Some next =>
          if ts_of next <? top s k then inl (k, next)
          else scan_list upd s ks' (upd acc (idx s k) next)
      end
  end.

Lemma scan_scan_list {A} (upd : A -> Z -> Event -> A) s m k acc :
  geometry s -> 0 <= k -> k + Z.of_nat m = m_nBuckets s -> (1 <= m)%nat ->
  scan upd m s (idx s k) (top s k) acc =
  Some (match scan_list upd s (seqZ k (Z.of_nat m)) acc with
        | inl (k', next) => inl (idx s k', next, top s k')
        | inr acc' => inr acc' end).
Proof.
  intros Hg. revert k acc. induction m as [|m IH]; intros k acc Hk Hm H1; [lia |].
  rewrite seqZ_cons by lia. cbn [scan scan_list]. unfold next_at.
  rewrite bucket_at_lookup by (apply Hg || by apply idx_range).
  rewrite idx_succ, top_succ, idx_back by (done || lia).
  assert (forall acc', (if k + 1 =? m_nBuckets s then Some (inr acc')
     else scan upd m s (idx s (k + 1)) (top s (k + 1)) acc') =
     Some (match scan_list upd s (seqZ (Z.succ k) (Z.pred (Z.of_nat (S m)))) acc' with
        | inl (k', next) => inl (idx s k', next, top s k')
        | inr acc' => inr acc' end)) as Hstep.
  { intros acc'. replace (Z.pred (Z.of_nat (S m))) with (Z.of_nat m) by lia.
    destruct (Z.eqb_spec (k + 1) (m_nBuckets s)) as [E|E].
    - assert (m = 0%nat) as -> by lia. done.
    - rewrite IH by lia. by replace (Z.succ k) with (k + 1) by lia. }
  destruct (NextEvent (m_reverse s) (bucket_at s (idx s k))) as [next|]; [| apply Hstep].
  destruct (ts_of next <? top s k); [done | apply Hstep].
Qed.

(** What the traversal establishes: a first hit, or a fold over every bucket. *)
Lemma scan_list_spec {A} (upd : A -> Z -> Event -> A) s ks acc (I : list Z -> A -> Prop) :
  (forall pre k a y, I pre a -> next_at s (idx s k) = Some y -> I (pre ++ [k]) (upd a (idx s k) y)) ->
  (forall pre k a, I pre a -> next_at s (idx s k) = None -> I (pre ++ [k]) a) ->
  forall pre, I pre acc ->
  match scan_list upd s ks acc with
  | inl (k, e) => exists l1 l2, ks = l1 ++ k :: l2 /\ next_at s (idx s k) = Some e /\
      ts_of e < top s k /\ forall k' y, k' ∈ l1 -> next_at s (idx s k') = Some y -> top s k' <= ts_of y
  | inr acc' => I (pre ++ ks) acc'
  end.
Proof.
  intros Hupd Hnone. revert acc. induction ks as [|k ks IH]; intros acc pre HI; simpl.
  { by rewrite app_nil_r. }
  destruct (next_at s (idx s k)) as [y|] eqn:E.
  - destruct (ts_of y <? top s k) eqn:Et; bool_prop.
    + exists [], ks. split_and!; try done. intros k' y' Hk'. by apply elem_of_nil in Hk'.
    + specialize (IH (upd acc (idx s k) y) (pre ++ [k]) (Hupd _ _ _ _ HI E)).
      destruct (scan_list upd s ks _) as [[k0 e0]|a]; [| by rewrite <- app_assoc in IH].
      destruct IH as (l1 & l2 & -> & H1 & H2 & H3). exists (k :: l1), l2. split_and!; try done.
      intros k' y' [->|Hk']%elem_of_cons Hy; [congruence | eauto].
  - specialize (IH acc (pre ++ [k]) (Hnone _ _ _ HI E)).
    destruct (scan_list upd s ks acc) as [[k0 e0]|a]; [| by rewrite <- app_assoc in IH].
    destruct IH as (l1 & l2 & -> & H1 & H2 & H3). exists (k :: l1), l2. split_and!; try done.
    intros k' y' [->|Hk']%elem_of_cons Hy; [congruence | eauto].
Qed.

(** ** Lemmas: where an event is *)

Lemma events_bucket s e :
  core s -> e ∈ events s ->
  exists d, 0 <= d /\ ts_of e / m_width s = quot s + d /\ e ∈ bucket_at s (idx s d).
Proof.
  intros [Hg Hp Hf] He. pose proof He as (j & b & Hj & Hb)%concat_elem.
  pose proof (pl_hash _ Hp j b e Hj Hb) as Hh. pose proof (Hf e He) as Hfl.
  destruct Hg as [Hlen Hn Hw Hpr _ _].
  rewrite Hash_mod in Hh by lia.
  exists (ts_of e / m_width s - quot s). unfold idx, quot, bucket_at. split_and!; [| lia |].
  - pose proof (Z.div_le_mono (m_lastPrio s) (ts_of e) (m_width s)). lia.
  - rewrite Zplus_minus, Hh, Nat2Z.id. by rewrite (list_lookup_total_correct _ _ _ Hj).
Qed.

Lemma bucket_events s i e :
  geometry s -> 0 <= i < m_nBuckets s -> e ∈ bucket_at s i -> e ∈ events s.
Proof.
  intros Hg Hi He. apply concat_elem. exists (Z.to_nat i), (bucket_at s i).
  split; [apply bucket_at_lookup; [apply Hg | done] | done].
Qed.

Lemma bucket_at_sorted s i :
  geometry s -> placed s -> 0 <= i < m_nBuckets s ->
  StronglySorted (bucket_order (m_reverse s)) (bucket_at s i).
Proof. intros Hg Hp Hi. eapply (pl_sorted _ Hp), bucket_at_lookup; [apply Hg | done]. Qed.

Lemma next_at_minimal s i e :
  geometry s -> placed s -> 0 <= i < m_nBuckets s -> next_at s i = Some e ->
  e ∈ bucket_at s i /\ minimal e (bucket_at s i).
Proof.
  intros Hg Hp Hi He.
  destruct (NextEvent_spec _ _ _ (bucket_at_sorted s i Hg Hp Hi) He) as (Hperm & Hm & _).
  split; [rewrite Hperm; set_solver | done].
Qed.

Lemma next_at_member s i x : x ∈ bucket_at s i -> exists y, next_at s i = Some y.
Proof.
  intros Hx. unfold next_at. destruct (NextEvent _ _) eqn:E; [by eexists |].
  apply NextEvent_None in E. rewrite E in Hx. by apply elem_of_nil in Hx.
Qed.

(** An event at distance [d] is reached at offset [d mod nBuckets]. *)
Lemma idx_mod s d : geometry s -> idx s (d mod m_nBuckets s) = idx s d.
Proof. intros [_ Hn _ _ _ _]. unfold idx. by rewrite Z.add_mod_idemp_r by lia. Qed.

Lemma top_le s k : 0 <= quot s + k -> 1 <= m_width s -> top s k <= (quot s + k + 1) * m_width s.
Proof. intros. apply Z.mod_le; nia. Qed.

Lemma top_exact s k :
  0 <= quot s + k -> 1 <= m_width s -> (quot s + k + 1) * m_width s < 2 ^ 64 ->
  top s k = (quot s + k + 1) * m_width s.
Proof. intros. apply u64_small. nia. Qed.

Lemma quot_nonneg s : geometry s -> 0 <= quot s.
Proof. intros [_ _ Hw Hp _ _]. apply Z.div_pos; lia. Qed.

(** The event a scan hits first is at the offset it was found at. *)
Lemma hit_offset s k e :
  core s -> 0 <= k < m_nBuckets s -> next_at s (idx s k) = Some e -> ts_of e < top s k ->
  ts_of e / m_width s = quot s + k.
Proof.
  intros Hc Hk He Ht. pose proof Hc as [Hg Hp _]. pose proof (quot_nonneg s Hg) as Hq.
  pose proof (idx_range s k Hg) as Hi.
  destruct (next_at_minimal _ _ _ Hg Hp Hi He) as [Hin _].
  pose proof (bucket_events _ _ _ Hg Hi Hin) as Hev.
  destruct (events_bucket s e Hc Hev) as (d & Hd & Hdiv & Hind).
  assert (idx s d = idx s k) as Hidx.
  { pose proof (pl_hash _ Hp _ _ _ (bucket_at_lookup s _ (geo_len _ Hg) Hi) Hin) as H1.
    rewrite Hash_mod, Hdiv in H1 by apply Hg. unfold idx in *. lia. }
  destruct Hg as [_ Hn Hw _ _ _]. pose proof (top_le s k). unfold idx in Hidx.
  assert (ts_of e / m_width s < quot s + k + 1) as Hlt by (apply Z.div_lt_upper_bound; lia).
  apply mod_eq_near in Hidx; lia.
Qed.

Lemma hit_minimal s k e :
  core s -> 0 <= k < m_nBuckets s -> next_at s (idx s k) = Some e -> ts_of e < top s k ->
  (forall k' y, 0 <= k' < k -> next_at s (idx s k') = Some y -> top s k' <= ts_of y) ->
  minimal e (events s).
Proof.
  intros Hc Hk He Ht Hmiss x Hx. pose proof Hc as [Hg Hp _].
  pose proof (quot_nonneg s Hg) as Hq. pose proof (hit_offset s k e Hc Hk He Ht) as Hoff.
  destruct (events_bucket s x Hc Hx) as (d & Hd & Hdiv & Hind).
  assert (1 <= m_width s) as Hw by apply Hg.
  pose proof (Z.mul_div_le (ts_of e) (m_width s)) as Hfloor.
  assert (ts_of e < 2 ^ 64) by (pose proof (u64_range ((quot s + k + 1) * m_width s)); unfold top in Ht; lia).
  destruct (Z.lt_trichotomy d k) as [Hlt|[->|Hgt]].
  - destruct (next_at_member _ _ _ Hind) as [y Hy].
    destruct (next_at_minimal _ _ _ Hg Hp (idx_range s d Hg) Hy) as [_ Hmin].
    specialize (Hmin x Hind). specialize (Hmiss d y ltac:(lia) Hy).
    rewrite top_exact in Hmiss by nia.
    pose proof (Z.mul_succ_div_gt (ts_of x) (m_width s)). event_order.
  - by apply (next_at_minimal _ _ _ Hg Hp (idx_range s k Hg) He).
  - pose proof (Z.mul_div_le (ts_of x) (m_width s)).
    pose proof (Z.mul_succ_div_gt (ts_of e) (m_width s)).
    apply event_lt_false. left. nia.
Qed.

(** ** Lemmas: removing the least event *)

Lemma key_lt_false_trans a b c : key_lt a b = false -> key_lt c b = true -> key_lt a c = false.
Proof.
  change (event_lt (mkEvent 0 a) (mkEvent 0 b) = false ->
    event_lt (mkEvent 0 c) (mkEvent 0 b) = true ->
    event_lt (mkEvent 0 a) (mkEvent 0 c) = false). event_order.
Qed.

(** What the fold over all buckets knows of the least key so far. *)
Definition remove_fold (s : t) (acc0 : EventKey * Z) (pre : list Z) (acc : EventKey * Z) : Prop :=
  (forall k y, k ∈ pre -> next_at s (idx s k) = Some y -> key_lt (key y) acc.1 = false) /\
  (acc = acc0 \/
   exists k y, k ∈ pre /\ next_at s (idx s k) = Some y /\ key y = acc.1 /\ acc.2 = idx s k).

Lemma remove_fold_upd s acc0 pre k a y :
  remove_fold s acc0 pre a -> next_at s (idx s k) = Some y ->
  remove_fold s acc0 (pre ++ [k]) (remove_upd a (idx s k) y).
Proof.
  intros [H1 H2] Hy. unfold remove_upd.
  destruct (key_lt (key y) a.1) eqn:E; simpl; split; simpl.
  - intros k' y' [Hk|Hk]%elem_of_app Hy'; [eapply key_lt_false_trans; [by eapply H1 | done] |].
    apply list_elem_of_singleton in Hk as ->. assert (y' = y) as -> by congruence.
    apply (event_lt_irrefl y).
  - right. exists k, y. set_solver.
  - intros k' y' [Hk|Hk]%elem_of_app Hy'; [by eapply H1 |].
    apply list_elem_of_singleton in Hk as ->. congruence.
  - destruct H2 as [->|(k' & y' & ? & ?)]; [by left | right; exists k', y'; set_solver].
Qed.

Lemma remove_fold_none s acc0 pre k a :
  remove_fold s acc0 pre a -> next_at s (idx s k) = None -> remove_fold s acc0 (pre ++ [k]) a.
Proof.
  intros [H1 H2] Hn. split.
  - intros k' y' [Hk|Hk]%elem_of_app Hy'; [by eapply H1 |].
    apply list_elem_of_singleton in Hk as ->. congruence.
  - destruct H2 as [->|(k' & y' & ? & ?)]; [by left | right; exists k', y'; set_solver].
Qed.

Definition peek_fold (s : t) (e0 : Event) (pre : list Z) (e : Event) : Prop :=
  (forall k y, k ∈ pre -> next_at s (idx s k) = Some y -> key_lt (key y) (key e) = false) /\
  (e = e0 \/ exists k, k ∈ pre /\ next_at s (idx s k) = Some e).

Lemma peek_fold_upd s e0 pre k a y :
  peek_fold s e0 pre a -> next_at s (idx s k) = Some y ->
  peek_fold s e0 (pre ++ [k]) (peek_upd a (idx s k) y).
Proof.
  intros [H1 H2] Hy. unfold peek_upd. destruct (key_lt (key y) (key a)) eqn:E; split.
  - intros k' y' [Hk|Hk]%elem_of_app Hy'; [eapply key_lt_false_trans; [by eapply H1 | done] |].
    apply list_elem_of_singleton in Hk as ->. assert (y' = y) as -> by congruence.
    apply (event_lt_irrefl y).
  - right. exists k. set_solver.
  - intros k' y' [Hk|Hk]%elem_of_app Hy'; [by eapply H1 |].
    apply list_elem_of_singleton in Hk as ->. congruence.
  - destruct H2 as [->|(k' & ? & ?)]; [by left | right; exists k'; set_solver].
Qed.

Lemma peek_fold_none s e0 pre k a :
  peek_fold s e0 pre a -> next_at s (idx s k) = None -> peek_fold s e0 (pre ++ [k]) a.
Proof.
  intros [H1 H2] Hn. split.
  - intros k' y' [Hk|Hk]%elem_of_app Hy'; [by eapply H1 |].
    apply list_elem_of_singleton in Hk as ->. congruence.
  - destruct H2 as [->|(k' & ? & ?)]; [by left | right; exists k'; set_solver].
Qed.

(** Every pending event is behind the next event of some visited bucket. *)
Lemma visited s x :
  core s -> x ∈ events s ->
  exists k y, k ∈ seqZ 0 (m_nBuckets s) /\ next_at s (idx s k) = Some y /\ event_lt x y = false.
Proof.
  intros Hc Hx. pose proof Hc as [Hg Hp _].
  destruct (events_bucket s x Hc Hx) as (d & Hd & _ & Hin).
  rewrite <- (idx_mod s d Hg) in Hin. destruct (next_at_member _ _ _ Hin) as [y Hy].
  exists (d mod m_nBuckets s), y. split_and!; [| done |].
  - apply elem_of_seqZ. destruct Hg as [_ Hn _ _ _ _]. pose proof (Z.mod_pos_bound d (m_nBuckets s)). lia.
  - by apply (next_at_minimal _ _ _ Hg Hp (idx_range s _ Hg) Hy).
Qed.

Lemma fold_minimal s k0 e :
  core s -> key e = k0 ->
  (forall k y, k ∈ seqZ 0 (m_nBuckets s) -> next_at s (idx s k) = Some y -> key_lt (key y) k0 = false) ->
  minimal e (events s).
Proof.
  intros Hc <- Hmin x Hx. destruct (visited s x Hc Hx) as (k & y & Hk & Hy & Hxy).
  specialize (Hmin k y Hk Hy). change (event_lt y e = false) in Hmin. event_order.
Qed.

(** [s'] has the buckets, counters and direction of [s], up to the contents. *)
Definition same_shape (s s' : t) : Prop :=
  length (m_buckets s') = length (m_buckets s) /\ m_nBuckets s' = m_nBuckets s /\
  m_width s' = m_width s /\ m_qSize s' = m_qSize s /\ m_reverse s' = m_reverse s.

Lemma placed_set_last s a b c : placed s -> placed (set_last a b c s).
Proof. by intros [? ? ? ?]. Qed.

(** Popping the next event of bucket [i] and moving the scan to its time. *)
Lemma pop_core s i e :
  core s -> 0 <= i < m_nBuckets s -> next_at s i = Some e -> minimal e (events s) ->
  let s1 := set_last ((ts_of e / m_width s) mod m_nBuckets s)
              (u64 ((ts_of e / m_width s + 1) * m_width s)) (ts_of e) s in
  let s' := set_buckets (<[Z.to_nat i := Pop (m_reverse s) (bucket_at s i)]> (m_buckets s)) s1 in
  core s' /\ events s ≡ₚ e :: events s' /\ same_shape s s' /\ m_lastPrio s' = ts_of e.
Proof.
  intros Hc Hi He Hmin s1 s'. pose proof Hc as [Hg Hp Hf].
  pose proof (bucket_at_lookup s i (geo_len _ Hg) Hi) as Hb.
  destruct (NextEvent_spec _ _ _ (bucket_at_sorted s i Hg Hp Hi) He) as (Hperm & _ & Hsorted).
  assert (events s ≡ₚ e :: events s') as Hev.
  { unfold events. simpl. symmetry.
    rewrite <- (concat_update _ (Z.to_nat i) (Pop (m_reverse s) (bucket_at s i)) (bucket_at s i) e);
      [| by rewrite list_lookup_insert_eq by (by eapply lookup_lt_Some) | done].
    by rewrite list_insert_insert_eq, list_insert_id. }
  assert (e ∈ events s) as Hin by (rewrite Hev; set_solver).
  assert (placed s') as Hp'.
  { eapply (placed_update s1); [by apply placed_set_last | done | done | |].
    - intros x Hx. assert (x ∈ bucket_at s i) as Hx' by (rewrite Hperm; set_solver).
      split; [exact (pl_hash _ Hp _ _ _ Hb Hx') | eapply (pl_key _ Hp), concat_elem; eauto].
    - pose proof (pl_distinct _ Hp) as Hd. rewrite Hev in Hd. by apply distinct_cons in Hd as [_ ?]. }
  pose proof (pl_key _ Hp e Hin) as [Hts _].
  split_and!; [split | done | | done].
  - destruct Hg as [Hlen Hn Hw Hpr _ _]. split; simpl; rewrite ?length_insert; try done; unfold ts_of; lia.
  - done.
  - intros x Hx. simpl. assert (x ∈ events s) as Hxs by (rewrite Hev; set_solver).
    specialize (Hmin x Hxs). event_order.
  - split_and!; try done. simpl. apply length_insert.
Qed.

Lemma sentinel_above e : key_ok (key e) -> key_lt (key e) (mkKey (u64 (- 1)) 0 (2 ^ 32 - 1)) = true.
Proof.
  intros [Hts _]. unfold key_lt. apply orb_true_iff. left. apply Z.ltb_lt.
  change (m_ts (mkKey (u64 (-1)) 0 (2 ^ 32 - 1))) with (2 ^ 64 - 1). lia.
Qed.

Lemma start_of_scan s : geometry s -> m_lastBucket s = idx s 0 /\ m_bucketTop s = top s 0.
Proof.
  intros [_ _ _ _ Hl Ht]. rewrite Hl, Ht. unfold idx, top, quot. by rewrite Z.add_0_r.
Qed.

Lemma DoRemoveNext_ok s :
  core s -> events s <> [] -> IsEmpty s = false ->
  exists e s', DoRemoveNext s = Some (e, s') /\ core s' /\ events s ≡ₚ e :: events s' /\
    minimal e (events s) /\ same_shape s s' /\ m_lastPrio s' = ts_of e.
Proof.
  intros Hc Hne Hemp. pose proof Hc as [Hg Hp Hf]. unfold DoRemoveNext. rewrite Hemp. simpl.
  destruct (start_of_scan s Hg) as [-> ->].
  pose proof (geo_n _ Hg) as Hn.
  rewrite scan_scan_list by (done || lia). rewrite Z2Nat.id by lia.
  set (acc0 := (mkKey (u64 (-1)) 0 (2 ^ 32 - 1), -1)).
  pose proof (scan_list_spec remove_upd s (seqZ 0 (m_nBuckets s)) acc0 (remove_fold s acc0)
    (remove_fold_upd s acc0) (remove_fold_none s acc0) []) as Hspec.
  destruct (scan_list remove_upd s (seqZ 0 (m_nBuckets s)) acc0) as [[k e]|[minKey minBucket]].
  - destruct Hspec as (l1 & l2 & Hseq & He & Ht & Hmiss).
    { split; [intros k' y Hk'; by apply elem_of_nil in Hk' | by left]. }
    assert (0 <= k < m_nBuckets s /\ forall k', 0 <= k' < k -> k' ∈ l1) as [Hk Hl1].
    { by eapply seqZ_split. }
    assert (minimal e (events s)) as Hmin by (eapply (hit_minimal s k); eauto).
    pose proof (idx_range s k Hg) as Hi. pose proof (hit_offset s k e Hc Hk He Ht) as Hoff.
    destruct (pop_core s (idx s k) e Hc Hi He Hmin) as (H1 & H2 & H3 & H4).
    rewrite Hoff in *. simpl. rewrite bucket_at_lookup by (done || apply Hg).
    eexists _, _. split_and!; done.
  - destruct Hspec as [Hall Hsrc].
    { split; [intros k' y Hk'; by apply elem_of_nil in Hk' | by left]. }
    simpl in *. destruct Hsrc as [Heq|(k & e & Hk & He & Hke & Hb)].
    { exfalso. destruct (events s) as [|x l] eqn:Ev; [done |].
      assert (x ∈ events s) as Hx by (rewrite Ev; set_solver).
      destruct (visited s x Hc Hx) as (k & y & Hk & Hy & _). injection Heq as -> ->.
      specialize (Hall k y Hk Hy). rewrite sentinel_above in Hall; [done |].
      apply (pl_key _ Hp), (bucket_events s (idx s k)); [done | by apply idx_range |].
      by apply (next_at_minimal s (idx s k) y Hg Hp (idx_range s k Hg)). }
    subst minKey minBucket. pose proof (idx_range s k Hg) as Hi.
    assert (minimal e (events s)) as Hmin by (by eapply fold_minimal).
    destruct (pop_core s (idx s k) e Hc Hi He Hmin) as (H1 & H2 & H3 & H4).
    destruct (Z.ltb_spec (idx s k) 0); [lia |].
    rewrite bucket_at_lookup by (done || apply Hg).
    change (NextEvent (m_reverse s) (bucket_at s (idx s k))) with (next_at s (idx s k)).
    rewrite He, Hash_mod by lia. eexists _, _. split_and!; done.
Qed.

Lemma PeekNext_ok s :
  core s -> events s <> [] -> IsEmpty s = false ->
  exists e, PeekNext s = Some e /\ e ∈ events s /\ minimal e (events s).
Proof.
  intros Hc Hne Hemp. pose proof Hc as [Hg Hp Hf]. unfold PeekNext. rewrite Hemp. simpl.
  destruct (start_of_scan s Hg) as [-> ->]. pose proof (geo_n _ Hg) as Hn.
  rewrite scan_scan_list by (done || lia). rewrite Z2Nat.id by lia.
  set (e0 := mkEvent nullptr (mkKey UINT64_MAX UINT32_MAX 0)).
  assert (forall k y, next_at s (idx s k) = Some y -> y ∈ events s) as Hmem.
  { intros k y Hy. apply (bucket_events s (idx s k)); [done | by apply idx_range |].
    by apply (next_at_minimal s (idx s k) y Hg Hp (idx_range s k Hg)). }
  pose proof (scan_list_spec peek_upd s (seqZ 0 (m_nBuckets s)) e0 (peek_fold s e0)
    (peek_fold_upd s e0) (peek_fold_none s e0) []) as Hspec.
  destruct (scan_list peek_upd s (seqZ 0 (m_nBuckets s)) e0) as [[k e]|e].
  - destruct Hspec as (l1 & l2 & Hseq & He & Ht & Hmiss).
    { split; [intros k' y Hk'; by apply elem_of_nil in Hk' | by left]. }
    apply seqZ_split in Hseq as [Hk Hl1].
    exists e. split_and!; [done | by eapply Hmem | eapply (hit_minimal s k); eauto].
  - destruct Hspec as [Hall Hsrc].
    { split; [intros k' y Hk'; by apply elem_of_nil in Hk' | by left]. }
    simpl in *. exists e. destruct Hsrc as [->|(k & Hk & He)].
    { exfalso. destruct (events s) as [|x l] eqn:Ev; [done |].
      assert (x ∈ events s) as Hx by (rewrite Ev; set_solver).
      destruct (visited s x Hc Hx) as (k & y & Hk & Hy & _).
      specialize (Hall k y Hk Hy). rewrite <- Ev in Hmem.
      destruct (pl_key _ Hp y) as [Hts _]; [by eapply Hmem |].
      change (event_lt y e0 = false) in Hall. apply event_lt_false in Hall.
      unfold ts_of in Hall. change (m_ts (key e0)) with (2 ^ 64 - 1) in Hall. lia. }
    split_and!; [done | by eapply Hmem | by eapply fold_minimal].
Qed.

(** ** Lemmas: resizing *)

Lemma same_shape_refl s : same_shape s s.
Proof. by split_and!. Qed.

Lemma same_shape_trans s1 s2 s3 : same_shape s1 s2 -> same_shape s2 s3 -> same_shape s1 s3.
Proof. unfold same_shape. intros (?&?&?&?&?) (?&?&?&?&?). split_and!; congruence. Qed.

Lemma same_frame_shape s s' : same_frame s s' -> same_shape s s'.
Proof. intros (bs & -> & Hl). by split_and!. Qed.

Lemma gather_ok n s :
  core s -> (n <= length (events s))%nat -> IsEmpty s = false ->
  exists l s', gather n s = Some (l, s') /\ core s' /\ events s ≡ₚ l ++ events s' /\
    same_shape s s' /\ length l = n.
Proof.
  revert s. induction n as [|n IH]; intros s Hc Hn Hemp; simpl.
  { exists [], s. split_and!; done || apply same_shape_refl. }
  destruct (DoRemoveNext_ok s) as (e & s1 & -> & Hc1 & Hp1 & _ & Hsh & _); try done.
  { intros E. rewrite E in Hn. simpl in Hn. lia. }
  destruct (IH s1) as (l & s' & El & Hc' & Hp' & Hsh' & Hl); try done.
  { apply Permutation_length in Hp1. simpl in Hp1. lia. }
  { unfold IsEmpty. destruct Hsh as (_ & _ & _ & -> & _). done. }
  simpl. rewrite El. exists (e :: l), s'. simpl. split_and!; try done.
  - by rewrite Hp1, Hp'.
  - by eapply same_shape_trans.
  - by rewrite Hl.
Qed.

Lemma nSamples_range q : 2 <= q < 2 ^ 32 -> 2 <= nSamples q <= q.
Proof.
  intros Hq. unfold nSamples. assert (0 <= q / 10 <= q) by (Z.to_euclidean_division_equations; lia).
  assert (5 < q -> 5 + q / 10 <= q) by (Z.to_euclidean_division_equations; lia).
  rewrite u32_small by lia.
  destruct (Z.leb_spec q 5); [destruct (Z.ltb_spec 25 q) | destruct (Z.ltb_spec 25 (5 + q / 10))]; lia.
Qed.

(** Rewinding the scan to the state saved in [s]. *)
Lemma core_rewind s s' :
  core s -> placed s' -> same_shape s s' -> events s' ≡ₚ events s ->
  core (set_last (m_lastBucket s) (m_bucketTop s) (m_lastPrio s) s').
Proof.
  intros [[? ? ? ? ? ?] _ Hf] Hp (Hl & Hn & Hw & _ & _) Hev. split.
  - split; simpl; rewrite ?Hl, ?Hn, ?Hw; done.
  - by apply placed_set_last.
  - intros e He. simpl. apply Hf. by rewrite <- Hev.
Qed.

Lemma CalculateNewWidth_ok s :
  cal_inv s ->
  exists w s', CalculateNewWidth s = Some (w, s') /\ 1 <= w < 2 ^ 64 /\ core s' /\
    events s' ≡ₚ events s /\ same_shape s s' /\ m_lastPrio s' = m_lastPrio s.
Proof.
  intros (Hc & Hq & Hq32). unfold CalculateNewWidth.
  destruct (Z.ltb_spec (m_qSize s) 2) as [Hlt|Hge].
  { exists 1, s. split_and!; done || apply same_shape_refl. }
  pose proof (nSamples_range (m_qSize s) ltac:(lia)) as Hns.
  destruct (gather_ok (Z.to_nat (nSamples (m_qSize s))) s) as (l & s1 & -> & Hc1 & Hp1 & Hsh1 & _);
    [done | lia | apply Z.eqb_neq; lia |].
  pose proof (core_placed _ Hc) as Hp. simpl.
  destruct (DoInsert_all_ok l s1) as (s2 & -> & Hf2 & Hp2 & He2).
  - apply Hc1.
  - apply Hc1.
  - apply Hc1.
  - apply Forall_forall. intros e He. apply (pl_key _ Hp). rewrite Hp1. set_solver.
  - rewrite <- Hp1. apply Hp.
  - pose proof (u64_range (separation_below (u64 (separation 0 l / (nSamples (m_qSize s) - 1) * 2)) 0 l * 3)).
    apply same_frame_shape in Hf2. pose proof (same_shape_trans _ _ _ Hsh1 Hf2) as Hsh.
    eexists _, _. split_and!; [done | lia | lia | apply core_rewind; try done | | by destruct Hsh as (?&?&?&?&?); split_and! | done].
    + by rewrite He2, <- Hp1.
    + change (events s2 ≡ₚ events s). by rewrite He2, <- Hp1.
Qed.

Lemma Init_placed n w p s : placed (Init n w p s) /\ events (Init n w p s) = [].
Proof.
  assert (events (Init n w p s) = []) as E by apply concat_replicate_nil.
  split; [| done]. split.
  - intros j b Hj. apply lookup_replicate in Hj as [-> _]. constructor.
  - intros j b e Hj He. apply lookup_replicate in Hj as [-> _]. by apply elem_of_nil in He.
  - intros e. rewrite E. intros He. by apply elem_of_nil in He.
  - rewrite E. constructor.
Qed.

Lemma Init_geometry n w p s :
  1 <= n <= 65536 -> 1 <= w < 2 ^ 64 -> 0 <= p < 2 ^ 63 -> geometry (Init n w p s).
Proof.
  intros Hn Hw Hp. split; simpl; try done.
  - rewrite length_replicate. lia.
  - by rewrite Hash_mod.
Qed.

Lemma Resize_ok n s :
  cal_inv s -> 1 <= n <= 65536 ->
  exists s', Resize n s = Some s' /\ cal_inv s' /\ events s' ≡ₚ events s /\
    m_lastPrio s' = m_lastPrio s.
Proof.
  intros Hi Hn. unfold Resize.
  destruct (CalculateNewWidth_ok s Hi) as (w & s1 & -> & Hw & Hc1 & Hp1 & Hsh & Hlp). simpl.
  unfold DoResize. set (s2 := Init n w (m_lastPrio s1) s1).
  destruct (Init_placed n w (m_lastPrio s1) s1) as [Hp2 He2].
  pose proof (Init_geometry n w (m_lastPrio s1) s1 Hn Hw (geo_prio _ (core_geo _ Hc1))) as Hg2.
  destruct (DoInsert_all_ok (concat (m_buckets s1)) s2) as (s' & -> & Hf & Hp' & He').
  - apply Hg2.
  - done.
  - done.
  - apply Forall_forall. apply Hc1.
  - unfold s2. rewrite He2, app_nil_r. apply Hc1.
  - unfold s2 in He'. rewrite He2, app_nil_r in He'. fold (events s1) in He'.
    pose proof (same_frame_geometry _ _ Hf Hg2) as Hg'.
    destruct Hf as (bs & -> & Hl). simpl in *.
    assert (events (set_buckets bs s2) ≡ₚ events s) as Hev by (by rewrite He', Hp1).
    destruct Hi as (Hc & Hq & Hq32). destruct Hsh as (_ & _ & _ & Hqs & _).
    exists (set_buckets bs s2). split_and!; try done. unfold cal_inv. split_and!.
    + split; [done | done |]. simpl. intros e He. rewrite Hev in He. rewrite Hlp. by apply Hc.
    + simpl. rewrite Hqs, Hq. by rewrite Hev.
    + simpl. by rewrite Hqs.
Qed.

Lemma ResizeUp_ok s :
  cal_inv s ->
  exists s', ResizeUp s = Some s' /\ cal_inv s' /\ events s' ≡ₚ events s /\
    m_lastPrio s' = m_lastPrio s.
Proof.
  intros Hi. pose proof (geo_n _ (core_geo _ (proj1 Hi))) as Hn. unfold ResizeUp.
  rewrite u32_small by lia. destruct (_ && _) eqn:E; bool_prop; [| by exists s].
  apply Resize_ok; [done | lia].
Qed.

Lemma ResizeDown_ok s :
  cal_inv s ->
  exists s', ResizeDown s = Some s' /\ cal_inv s' /\ events s' ≡ₚ events s /\
    m_lastPrio s' = m_lastPrio s.
Proof.
  intros Hi. pose proof (geo_n _ (core_geo _ (proj1 Hi))) as Hn. unfold ResizeDown.
  assert (0 <= m_nBuckets s / 2 <= m_nBuckets s) by (Z.to_euclidean_division_equations; lia).
  case_ifs; [| by exists s]. apply Resize_ok; [done |]. destruct Hi as (_ & Hq & _). lia.
Qed.

(** Updating the event counter of a state whose buckets are in order. *)
Lemma set_qSize_inv s n :
  core s -> n = Z.of_nat (length (events s)) -> n < 2 ^ 32 -> cal_inv (set_qSize n s).
Proof.
  intros [[? ? ? ? ? ?] [? ? ? ?] ?] ? ?. by split_and!.
Qed.

Lemma CalendarScheduler_new_inv reverse : cal_inv (CalendarScheduler_new reverse).
Proof.
  apply set_qSize_inv; [| done | done].
  split; [by apply Init_geometry | apply Init_placed |].
  intros e He. by apply elem_of_nil in He.
Qed.

(** ** The calendar queue is a lawful scheduler *)

#[global] Instance cal_ops : SchedulerOps t := {
  sched_new := CalendarScheduler_new false;
  sched_Insert := Insert;
  sched_IsEmpty := IsEmpty;
  sched_PeekNext := PeekNext;
  sched_RemoveNext := RemoveNext;
  sched_Remove := Remove
}.

Lemma IsEmpty_events s : cal_inv s -> IsEmpty s = true <-> events s = [].
Proof.
  intros (_ & Hq & _). unfold IsEmpty. rewrite Z.eqb_eq, Hq. split; [| by intros ->].
  intros ?. apply nil_length_inv. lia.
Qed.

Lemma IsEmpty_nonempty s : cal_inv s -> events s <> [] -> IsEmpty s = false.
Proof. intros Hi Hne. destruct (IsEmpty s) eqn:E; [by apply IsEmpty_events in E | done]. Qed.

Lemma Insert_ok e s :
  cal_inv s -> key_ok (key e) -> distinct (e :: events s) -> m_lastPrio s <= ts_of e ->
  Z.of_nat (length (events s)) < 2 ^ 32 - 1 ->
  exists s', Insert e s = Some s' /\ cal_inv s' /\ events s' ≡ₚ e :: events s /\
    m_lastPrio s' = m_lastPrio s.
Proof.
  intros (Hc & Hq & Hq32) Hk Hd Hf Hlen. pose proof Hc as [Hg Hp Hfl]. unfold Insert.
  destruct (DoInsert_ok e s) as (s1 & -> & Hfr & Hp1 & He1); [apply Hg | apply Hg | done | done | done |].
  pose proof (same_frame_geometry _ _ Hfr Hg) as Hg1. destruct Hfr as (bs & -> & Hl).
  set (s1 := set_buckets bs s) in *.
  destruct (ResizeUp_ok (set_qSize (u32 (m_qSize s1 + 1)) s1)) as (s' & -> & Hi' & He' & Hlp').
  { simpl. rewrite u32_small by lia. apply set_qSize_inv; [| rewrite He1; simpl; lia | lia].
    split; [done | done |]. simpl. intros x Hx. rewrite He1 in Hx.
    apply elem_of_cons in Hx as [->|Hx]; [done | by apply Hfl]. }
  exists s'. split_and!; try done. rewrite He'. exact He1.
Qed.

Lemma RemoveNext_ok s :
  cal_inv s -> events s <> [] ->
  exists e s', RemoveNext s = Some (e, s') /\ cal_inv s' /\ events s ≡ₚ e :: events s' /\
    minimal e (events s) /\ m_lastPrio s' = ts_of e.
Proof.
  intros Hi Hne. pose proof Hi as (Hc & Hq & Hq32). pose proof (IsEmpty_nonempty s Hi Hne) as Hemp.
  unfold RemoveNext. rewrite Hemp. simpl.
  destruct (DoRemoveNext_ok s Hc Hne Hemp) as (e & s1 & -> & Hc1 & Hp1 & Hm & Hsh & Hlp). simpl.
  pose proof (Permutation_length Hp1) as Hlen. simpl in Hlen.
  destruct Hsh as (_ & _ & _ & Hqs & _).
  destruct (ResizeDown_ok (set_qSize (u32 (m_qSize s1 - 1)) s1)) as (s' & -> & Hi' & He' & Hlp').
  { rewrite u32_small by lia. apply set_qSize_inv; [done | lia | lia]. }
  exists e, s'. split_and!; try done; [| by rewrite Hlp'].
  rewrite Hp1. f_equiv. symmetry. exact He'.
Qed.

Lemma cal_Remove_ok e s :
  cal_inv s -> e ∈ events s ->
  exists s', Remove e s = Some s' /\ cal_inv s' /\ events s ≡ₚ e :: events s' /\
    m_lastPrio s' = m_lastPrio s.
Proof.
  intros Hi Hin. pose proof Hi as (Hc & Hq & Hq32). pose proof Hc as [Hg Hp Hfl].
  unfold Remove. rewrite IsEmpty_nonempty by (done || (intros E; rewrite E in Hin; by apply elem_of_nil in Hin)).
  simpl. pose proof Hin as (j & b & Hj & Hb)%concat_elem.
  rewrite (pl_hash _ Hp _ _ _ Hj Hb), Nat2Z.id, Hj.
  destruct (bucket_erase_split e b) as (l1 & l2 & -> & ->);
    [eapply distinct_bucket; [done | apply Hp] | done |].
  set (s1 := set_buckets (<[j := l1 ++ l2]> (m_buckets s)) s).
  assert (events s ≡ₚ e :: events s1) as Hev.
  { unfold events, s1. simpl. symmetry.
    rewrite <- (concat_update _ j (l1 ++ l2) (l1 ++ e :: l2) e);
      [| by rewrite list_lookup_insert_eq by (by eapply lookup_lt_Some) | by rewrite Permutation_middle].
    by rewrite list_insert_insert_eq, list_insert_id. }
  pose proof (Permutation_length Hev) as Hlen. simpl in Hlen.
  destruct (ResizeDown_ok (set_qSize (u32 (m_qSize s - 1)) s1)) as (s' & -> & Hi' & He' & Hlp').
  - simpl. rewrite u32_small by lia. apply set_qSize_inv; [| lia | lia]. split.
    + apply (same_frame_geometry s); [| done]. eexists. split; [done | apply length_insert].
    + eapply placed_update; [done | done | | |].
      * eapply StronglySorted_remove_mid. by eapply (pl_sorted _ Hp).
      * intros x Hx. assert (x ∈ l1 ++ e :: l2) as Hx' by set_solver.
        split; [by eapply (pl_hash _ Hp) | eapply (pl_key _ Hp), concat_elem; eauto].
      * pose proof (pl_distinct _ Hp) as Hd. rewrite Hev in Hd. by apply distinct_cons in Hd as [_ ?].
    + simpl. intros x Hx. apply Hfl. rewrite Hev. set_solver.
  - exists s'. split_and!; try done. rewrite Hev. f_equiv. symmetry. exact He'.
Qed.

#[global] Instance cal_laws : SchedulerLaws t.
Proof.
  refine {| sched_inv := cal_inv; contents := events; sched_floor := m_lastPrio |}.
  - split_and!; [apply CalendarScheduler_new_inv | done | done].
  - intros e s. apply Insert_ok.
  - intros s. apply IsEmpty_events.
  - intros s Hi Hne. apply PeekNext_ok; [apply Hi | done | by apply IsEmpty_nonempty].
  - intros s Hi Hne. destruct (RemoveNext_ok s Hi Hne) as (e & s' & ? & ? & ? & ? & Hf).
    exists e, s'. split_and!; try done. rewrite Hf. apply Z.le_max_r.
Defined.

#[global] Instance cal_remove_laws : SchedulerRemoveLaws t.
Proof. split. intros e s. apply cal_Remove_ok. Qed.

End CalendarScheduler.
