(* ===== verification/Simulator.v ===== *)
(** * The default simulator (src/core/model/default-simulator-impl.cc,
      event-id.cc, event-impl.cc)

    The state of [DefaultSimulatorImpl] as a record over an arbitrary
    implementation of the scheduler interface, one definition per operation.
    Simulation time is the 64-bit [Time::m_data]. An [EventImpl] object is its
    address; its [m_cancel] flag is membership in [m_cancelled]. Objects are
    never reclaimed in the model, so [Unref] has no effect. *)

From Stdlib Require Import Sorting.Sorted.
From S2P Require Import Prelude EventQueue.

Module Simulator.

(** ** Data *)

(** [EventId::UID] *)
Definition INVALID : Z := 0.
Definition NOW : Z := 1.
Definition DESTROY : Z := 2.
Definition RESERVED : Z := 3.
Definition VALID : Z := 4.
Definition NO_CONTEXT : Z := UINT32_MAX.

Record EventId := mkId { id_impl : Z; id_ts : Z; id_context : Z; id_uid : Z }.

Definition EventId_default : EventId := mkId nullptr 0 0 0.

(** [operator==] of [EventId] *)
Definition id_eq (a b : EventId) : bool :=
  (id_uid a =? id_uid b) && (id_context a =? id_context b) && (id_ts a =? id_ts b) &&
  (id_impl a =? id_impl b).

Record EventWithContext := mkEWC { ewc_context : Z; ewc_timestamp : Z; ewc_event : Z }.

Record Sim (S : Type) := mkSim {
  m_events : S;
  m_stop : bool;
  m_nextUid : Z;                 (* m_uid *)
  m_currentUid : Z;
  m_currentTs : Z;
  m_currentContext : Z;
  m_eventCount : Z;
  m_unscheduledEvents : Z;
  m_eventsWithContext : list EventWithContext;
  m_eventsWithContextEmpty : bool;
  m_destroyEvents : list EventId;
  m_mainThreadId : Z;
  m_cancelled : gset Z
}.
Arguments mkSim {S}.
Arguments m_events {S}.
Arguments m_stop {S}.
Arguments m_nextUid {S}.
Arguments m_currentUid {S}.
Arguments m_currentTs {S}.
Arguments m_currentContext {S}.
Arguments m_eventCount {S}.
Arguments m_unscheduledEvents {S}.
Arguments m_eventsWithContext {S}.
Arguments m_eventsWithContextEmpty {S}.
Arguments m_destroyEvents {S}.
Arguments m_mainThreadId {S}.
Arguments m_cancelled {S}.

Section Ops.
Context {S : Type} `{SchedulerOps S}.

(** ** Field updates *)

Definition set_events (q : S) (s : Sim S) : Sim S :=
  mkSim q (m_stop s) (m_nextUid s) (m_currentUid s) (m_currentTs s) (m_currentContext s)
    (m_eventCount s) (m_unscheduledEvents s) (m_eventsWithContext s) (m_eventsWithContextEmpty s)
    (m_destroyEvents s) (m_mainThreadId s) (m_cancelled s).
Definition set_stop (b : bool) (s : Sim S) : Sim S :=
  mkSim (m_events s) b (m_nextUid s) (m_currentUid s) (m_currentTs s) (m_currentContext s)
    (m_eventCount s) (m_unscheduledEvents s) (m_eventsWithContext s) (m_eventsWithContextEmpty s)
    (m_destroyEvents s) (m_mainThreadId s) (m_cancelled s).
Definition set_counters (uid unscheduled : Z) (s : Sim S) : Sim S :=
  mkSim (m_events s) (m_stop s) uid (m_currentUid s) (m_currentTs s) (m_currentContext s)
    (m_eventCount s) unscheduled (m_eventsWithContext s) (m_eventsWithContextEmpty s)
    (m_destroyEvents s) (m_mainThreadId s) (m_cancelled s).
Definition set_current (ts context uid count : Z) (s : Sim S) : Sim S :=
  mkSim (m_events s) (m_stop s) (m_nextUid s) uid ts context
    count (m_unscheduledEvents s) (m_eventsWithContext s) (m_eventsWithContextEmpty s)
    (m_destroyEvents s) (m_mainThreadId s) (m_cancelled s).
Definition set_foreign (l : list EventWithContext) (empty : bool) (s : Sim S) : Sim S :=
  mkSim (m_events s) (m_stop s) (m_nextUid s) (m_currentUid s) (m_currentTs s) (m_currentContext s)
    (m_eventCount s) (m_unscheduledEvents s) l empty
    (m_destroyEvents s) (m_mainThreadId s) (m_cancelled s).
Definition set_destroy (l : list EventId) (s : Sim S) : Sim S :=
  mkSim (m_events s) (m_stop s) (m_nextUid s) (m_currentUid s) (m_currentTs s) (m_currentContext s)
    (m_eventCount s) (m_unscheduledEvents s) (m_eventsWithContext s) (m_eventsWithContextEmpty s)
    l (m_mainThreadId s) (m_cancelled s).
Definition set_thread (t : Z) (s : Sim S) : Sim S :=
  mkSim (m_events s) (m_stop s) (m_nextUid s) (m_currentUid s) (m_currentTs s) (m_currentContext s)
    (m_eventCount s) (m_unscheduledEvents s) (m_eventsWithContext s) (m_eventsWithContextEmpty s)
    (m_destroyEvents s) t (m_cancelled s).
Definition set_cancelled (c : gset Z) (s : Sim S) : Sim S :=
  mkSim (m_events s) (m_stop s) (m_nextUid s) (m_currentUid s) (m_currentTs s) (m_currentContext s)
    (m_eventCount s) (m_unscheduledEvents s) (m_eventsWithContext s) (m_eventsWithContextEmpty s)
    (m_destroyEvents s) (m_mainThreadId s) c.

(** ** EventImpl *)

Definition EventImpl_Cancel (i : Z) (s : Sim S) : Sim S := set_cancelled ({[i]} ∪ m_cancelled s) s.
Definition EventImpl_IsCancelled (i : Z) (s : Sim S) : bool := bool_decide (i ∈ m_cancelled s).

(** ** Operations *)

(** Constructor (with the scheduler [SetScheduler] installs first). *)
Definition DefaultSimulatorImpl_new (thread : Z) : Sim S :=
  mkSim sched_new false VALID INVALID 0 NO_CONTEXT 0 0 [] true [] thread ∅.

(** [m_uid++; m_unscheduledEvents++; m_events->Insert(ev)] for an event whose
    uid field is the old [m_uid]; shared by the three scheduling operations. *)
Definition enqueue (ts context event : Z) (s : Sim S) : option (Event * Sim S) :=
  let ev := mkEvent event (mkKey ts (m_nextUid s) context) in
  let s1 := set_counters (u32 (m_nextUid s + 1)) (i32 (m_unscheduledEvents s + 1)) s in
  let* q := sched_Insert ev (m_events s1) in
  Some (ev, set_events q s1).

Definition GetContext (s : Sim S) : Z := m_currentContext s.

(** [this_thread] is the calling thread, [delay] the time step of the delay. *)
Definition Schedule (this_thread delay event : Z) (s : Sim S) : option (EventId * Sim S) :=
  assert* m_mainThreadId s =? this_thread in
  assert* 0 <=? delay in
  let tAbsolute := i64 (delay + i64 (m_currentTs s)) in
  let* r := enqueue (u64 tAbsolute) (GetContext s) event s in
  let k := key r.1 in
  Some (mkId event (m_ts k) (m_context k) (m_uid k), r.2).

Definition ScheduleWithContext (this_thread context delay event : Z) (s : Sim S) : option (Sim S) :=
  if m_mainThreadId s =? this_thread then
    let tAbsolute := i64 (delay + i64 (m_currentTs s)) in
    let* r := enqueue (u64 tAbsolute) context event s in
    Some r.2
  else
    let ev := mkEWC context (u64 delay) event in
    Some (set_foreign (m_eventsWithContext s ++ [ev]) false s).

Definition ScheduleNow (this_thread event : Z) (s : Sim S) : option (EventId * Sim S) :=
  assert* m_mainThreadId s =? this_thread in Schedule this_thread 0 event s.

Definition ScheduleDestroy (this_thread event : Z) (s : Sim S) : option (EventId * Sim S) :=
  assert* m_mainThreadId s =? this_thread in
  let id := mkId event (m_currentTs s) 4294967295 2 in
  Some (id, set_counters (u32 (m_nextUid s + 1)) (m_unscheduledEvents s)
              (set_destroy (m_destroyEvents s ++ [id]) s)).

Definition Now (s : Sim S) : Z := i64 (m_currentTs s).

Definition IsExpired (id : EventId) (s : Sim S) : bool :=
  if id_uid id =? DESTROY then
    if (id_impl id =? nullptr) || EventImpl_IsCancelled (id_impl id) s then true
    else negb (existsb (fun i => id_eq i id) (m_destroyEvents s))
  else
    (id_impl id =? nullptr) || (id_ts id <? m_currentTs s) ||
    ((id_ts id =? m_currentTs s) && (id_uid id <=? m_currentUid s)) ||
    EventImpl_IsCancelled (id_impl id) s.

Definition GetDelayLeft (id : EventId) (s : Sim S) : Z :=
  if IsExpired id s then 0 else i64 (u64 (id_ts id - m_currentTs s)).

(** Erase the first destroy event equal to [id]. *)
Fixpoint erase_destroy (id : EventId) (l : list EventId) : list EventId :=
  match l with
  | [] => []
  | i :: rest => if id_eq i id then rest else i :: erase_destroy id rest
  end.

Definition event_of_id (id : EventId) : Event :=
  mkEvent (id_impl id) (mkKey (id_ts id) (id_uid id) (id_context id)).

Definition Remove (id : EventId) (s : Sim S) : option (Sim S) :=
  if id_uid id =? DESTROY then Some (set_destroy (erase_destroy id (m_destroyEvents s)) s)
  else if IsExpired id s then Some s
  else
    let* q := sched_Remove (event_of_id id) (m_events s) in
    let s1 := EventImpl_Cancel (id_impl id) (set_events q s) in
    Some (set_counters (m_nextUid s1) (i32 (m_unscheduledEvents s1 - 1)) s1).

Definition Cancel (id : EventId) (s : Sim S) : Sim S :=
  if negb (IsExpired id s) then EventImpl_Cancel (id_impl id) s else s.

Definition Stop (s : Sim S) : Sim S := set_stop true s.

Definition IsFinished (s : Sim S) : bool := sched_IsEmpty (m_events s) || m_stop s.

Definition GetMaximumSimulationTime : Z := 9223372036854775807.

(** The loop that moves the events other threads queued into the scheduler. *)
Fixpoint insert_foreign (l : list EventWithContext) (s : Sim S) : option (Sim S) :=
  match l with
  | [] => Some s
  | event :: rest =>
      let* r := enqueue (u64 (m_currentTs s + ewc_timestamp event)) (ewc_context event)
                  (ewc_event event) s in
      insert_foreign rest r.2
  end.

Definition ProcessEventsWithContext (s : Sim S) : option (Sim S) :=
  if m_eventsWithContextEmpty s then Some s
  else insert_foreign (m_eventsWithContext s) (set_foreign [] true s).

End Ops.

Section Run.
Context {S : Type} `{SchedulerOps S}.

(** [EventImpl::Notify] of the object at an address: the client's code. *)
Variable notify : Z -> Sim S -> option (Sim S).

(** [EventImpl::Invoke]; also returns whether [Notify] ran. *)
Definition Invoke (i : Z) (s : Sim S) : option (bool * Sim S) :=
  if EventImpl_IsCancelled i s then Some (false, s)
  else let* s' := notify i s in Some (true, s').

(** The first half of [ProcessOneEvent]: take the next event and make it current. *)
Definition dispatch (s : Sim S) : option (Event * Sim S) :=
  let* r := sched_RemoveNext (m_events s) in
  let next := r.1 in
  assert* m_currentTs s <=? ts_of next in
  let s1 := set_events r.2 s in
  let s2 := set_counters (m_nextUid s1) (i32 (m_unscheduledEvents s1 - 1)) s1 in
  Some (next, set_current (ts_of next) (m_context (key next)) (uid_of next)
                (u64 (m_eventCount s2 + 1)) s2).

(** One event: the event, whether its handler ran, and the state after it. *)
Definition ProcessOneEvent (s : Sim S) : option (Event * bool * Sim S) :=
  let* r := dispatch s in
  let* r' := Invoke (impl r.1) r.2 in
  let* s' := ProcessEventsWithContext r'.2 in
  Some (r.1, r'.1, s').

(** The [while] loop of [Run], at most [n] turns: the events processed, whether
    the loop condition failed, and the state. *)
Fixpoint run_loop (n : nat) (s : Sim S) : option (list (Event * bool) * bool * Sim S) :=
  if negb (sched_IsEmpty (m_events s)) && negb (m_stop s) then
    match n with
    | O => Some ([], false, s)
    | Datatypes.S n' =>
        let* r := ProcessOneEvent s in
        let* r' := run_loop n' r.2 in
        Some (r.1 :: r'.1.1, r'.1.2, r'.2)
    end
  else Some ([], true, s).

(** [Run] cut after [n] events; [None] is an abort, the boolean tells whether
    [Run] returned. *)
Definition Run (n : nat) (this_thread : Z) (s : Sim S) : option (list (Event * bool) * bool * Sim S) :=
  let* s1 := ProcessEventsWithContext (set_thread this_thread s) in
  let* r := run_loop n (set_stop false s1) in
  if r.1.2 then
    assert* negb (sched_IsEmpty (m_events r.2)) || (m_unscheduledEvents r.2 =? 0) in Some r
  else Some r.

(** [Destroy]: run the destroy events; [n] bounds the number of them. *)
Fixpoint Destroy (n : nat) (s : Sim S) : option (list Z * Sim S) :=
  match m_destroyEvents s with
  | [] => Some ([], s)
  | id :: rest =>
      match n with
      | O => None
      | Datatypes.S n' =>
          let s1 := set_destroy rest s in
          if negb (EventImpl_IsCancelled (id_impl id) s1) then
            let* r := Invoke (id_impl id) s1 in
            let* r' := Destroy n' r.2 in
            Some (id_impl id :: r'.1, r'.2)
          else Destroy n' s1
      end
  end.

End Run.

(** The loop of [SetScheduler]: [while (!IsEmpty()) scheduler->Insert(RemoveNext())]. *)
Fixpoint move_events {S S'} `{SchedulerOps S} `{SchedulerOps S'} (fuel : nat) (q : S) (q' : S')
    : option S' :=
  match fuel with
  | O => None
  | Datatypes.S fuel' =>
      if sched_IsEmpty q then Some q' else
      let* r := sched_RemoveNext q in
      let* q'' := sched_Insert r.1 q' in
      move_events fuel' r.2 q''
  end.

(** [SetScheduler]: move the pending events to a fresh scheduler of another kind. *)
Definition SetScheduler {S S'} `{SchedulerOps S} `{SchedulerOps S'} (fuel : nat) (s : Sim S)
    : option (Sim S') :=
  let* q := move_events fuel (m_events s) (sched_new : S') in
  Some (mkSim q (m_stop s) (m_nextUid s) (m_currentUid s) (m_currentTs s) (m_currentContext s)
    (m_eventCount s) (m_unscheduledEvents s) (m_eventsWithContext s) (m_eventsWithContextEmpty s)
    (m_destroyEvents s) (m_mainThreadId s) (m_cancelled s)).

(** [DoDispose]: the pending events are dropped; the addresses released. *)
Definition DoDispose {S} `{SchedulerOps S} (fuel : nat) (s : Sim S) : option (list Z) :=
  let* s1 := ProcessEventsWithContext s in
  let* l := drain fuel (m_events s1) in
  Some (impl <$> l).

(** ** Invariant *)

Section Invariant.
Context {S : Type} `{SchedulerLaws S}.

Definition pending (s : Sim S) : list Event := contents (m_events s).

(** [e] is ordered after the event being processed. *)
Definition after_current (s : Sim S) (e : Event) : Prop :=
  m_currentTs s < ts_of e \/ (m_currentTs s = ts_of e /\ m_currentUid s < uid_of e).

Record sim_inv (s : Sim S) : Prop := mkInv {
  si_sched : sched_inv (m_events s);
  si_distinct : distinct (pending s);
  si_key : forall e, e ∈ pending s -> key_ok (key e);
  si_issued : forall e, e ∈ pending s -> VALID <= uid_of e < m_nextUid s;
  si_after : forall e, e ∈ pending s -> after_current s e;
  si_time : 0 <= m_currentTs s < 2 ^ 63;
  si_uid : 0 <= m_currentUid s < m_nextUid s /\ VALID <= m_nextUid s < 2 ^ 32;
  si_floor : sched_floor (m_events s) <= m_currentTs s;
  si_count : m_unscheduledEvents s = Z.of_nat (length (pending s)) /\ m_unscheduledEvents s < 2 ^ 31
}.

(** Room for one more event in the 32-bit uid and the [int] counter. *)
Definition room (s : Sim S) : Prop :=
  m_nextUid s < 2 ^ 32 - 1 /\ m_unscheduledEvents s < 2 ^ 31 - 1.

(** [id] was returned by a scheduling call: its event is pending, or was
    processed, or was removed (which cancels it). *)
Definition issued (s : Sim S) (id : EventId) : Prop :=
  VALID <= id_uid id < m_nextUid s /\
  (event_of_id id ∈ pending s \/ ~ after_current s (event_of_id id) \/ id_impl id ∈ m_cancelled s).

(** The calls a handler, which runs on the main thread, makes on the simulator. *)
Inductive api : Sim S -> Sim S -> Prop :=
| api_Schedule delay ev id s s' :
    0 <= delay -> m_currentTs s + delay < 2 ^ 63 -> room s ->
    Schedule (m_mainThreadId s) delay ev s = Some (id, s') -> api s s'
| api_ScheduleWithContext ctx delay ev s s' :
    0 <= delay -> m_currentTs s + delay < 2 ^ 63 -> room s ->
    ScheduleWithContext (m_mainThreadId s) ctx delay ev s = Some s' -> api s s'
| api_ScheduleNow ev id s s' :
    room s -> ScheduleNow (m_mainThreadId s) ev s = Some (id, s') -> api s s'
| api_ScheduleDestroy ev id s s' :
    room s -> ScheduleDestroy (m_mainThreadId s) ev s = Some (id, s') -> api s s'
| api_Cancel id s : api s (Cancel id s)
| api_Remove id s s' :
    (id_uid id = DESTROY \/ issued s id) -> Remove id s = Some s' -> api s s'
| api_Stop s : api s (Stop s).

(** [s'] is a later state than [s]: uids grow, cancellations stay, time does not
    go back, new events have new uids, no event disappears without having been
    processed or cancelled. *)
Record ext (s s' : Sim S) : Prop := mkExt {
  ext_uid : m_nextUid s <= m_nextUid s';
  ext_cancel : m_cancelled s ⊆ m_cancelled s';
  ext_time : forall e, ~ after_current s e -> ~ after_current s' e;
  ext_new : forall e, e ∈ pending s' -> e ∈ pending s \/ m_nextUid s <= uid_of e;
  ext_old : forall e, e ∈ pending s ->
    e ∈ pending s' \/ ~ after_current s' e \/ impl e ∈ m_cancelled s'
}.

(** The fields no call of a handler changes. *)
Definition same_moment (s s' : Sim S) : Prop :=
  m_currentTs s' = m_currentTs s /\ m_currentUid s' = m_currentUid s /\
  m_eventsWithContextEmpty s' = m_eventsWithContextEmpty s.

#[export] Instance ext_refl : Reflexive ext.
Proof. intros s. split; auto; lia. Qed.

#[export] Instance ext_trans : Transitive ext.
Proof.
  intros s1 s2 s3 [a1 b1 c1 d1 e1] [a2 b2 c2 d2 e2]. split; [lia | set_solver | auto | |].
  - intros e [He|He]%d2; [by apply d1 | right; lia].
  - intros e [He|[He|He]]%e1; [by apply e2 | auto | right; right; by apply b2].
Qed.

Lemma issued_ext s s' id : ext s s' -> issued s id -> issued s' id.
Proof.
  intros [a b c d e] [Hu Hc]. split; [lia |].
  destruct Hc as [Hc|[Hc|Hc]]; [by apply e in Hc | auto | right; right; by apply b].
Qed.

(** ** Lemmas: scheduling *)

Lemma enqueue_ok ts ctx ev s :
  sim_inv s -> m_currentTs s <= ts < 2 ^ 63 -> room s ->
  let e := mkEvent ev (mkKey ts (m_nextUid s) ctx) in
  exists s', enqueue ts ctx ev s = Some (e, s') /\ sim_inv s' /\ ext s s' /\
    same_moment s s' /\ pending s' ≡ₚ e :: pending s /\
    m_cancelled s' = m_cancelled s /\ m_nextUid s' = m_nextUid s + 1.
Proof.
  intros [Hs Hd Hk Hi Ha Ht Hu Hf [Hc Hc']] Hts [Hr1 Hr2] e. unfold enqueue. simpl.
  assert (distinct (e :: pending s)) as Hde.
  { apply distinct_cons. split; [| done]. intros x Hx%Hi. unfold uid_of at 2. simpl. lia. }
  assert (key_ok (key e)) as Hke by (unfold key_ok; simpl; lia).
  destruct (sched_Insert_ok e (m_events s)) as (q & Hq & Hiq & Hp & Hfl); try done.
  { unfold ts_of. simpl. lia. }
  { fold (pending s). lia. }
  fold e. rewrite Hq. eexists. split; [done |].
  assert (u32 (m_nextUid s + 1) = m_nextUid s + 1) as Eu by (apply u32_small; lia).
  assert (i32 (m_unscheduledEvents s + 1) = m_unscheduledEvents s + 1) as Ei.
  { apply (swrap_small 32); lia. }
  rewrite Eu, Ei. unfold pending in *.
  assert (after_current s e) as Hae.
  { unfold after_current, ts_of, uid_of. simpl. lia. }
  split_and!; try done; split; unfold pending; simpl; try done; try lia.
  - by rewrite Hp.
  - intros x. rewrite Hp. intros [->|Hx]%elem_of_cons; auto.
  - intros x. rewrite Hp. intros [->|Hx%Hi]%elem_of_cons; [unfold uid_of; simpl; lia | lia].
  - intros x. rewrite Hp. intros [->|Hx]%elem_of_cons; [exact Hae | exact (Ha x Hx)].
  - rewrite Hp. simpl. lia.
  - intros x. rewrite Hp. intros [->|Hx]%elem_of_cons; [right; unfold uid_of; simpl; lia | auto].
  - intros x Hx. left. rewrite Hp. set_solver.
Qed.

Lemma time_arith t d : 0 <= t -> 0 <= d -> t + d < 2 ^ 63 -> u64 (i64 (d + i64 t)) = t + d.
Proof.
  intros. rewrite (i64_small t), i64_small, u64_small by lia. lia.
Qed.

Lemma Schedule_ok delay ev s :
  sim_inv s -> 0 <= delay -> m_currentTs s + delay < 2 ^ 63 -> room s ->
  let id := mkId ev (m_currentTs s + delay) (m_currentContext s) (m_nextUid s) in
  exists s', Schedule (m_mainThreadId s) delay ev s = Some (id, s') /\ sim_inv s' /\ ext s s' /\
    same_moment s s' /\ pending s' ≡ₚ event_of_id id :: pending s /\
    m_cancelled s' = m_cancelled s /\ m_nextUid s' = m_nextUid s + 1.
Proof.
  intros Hi Hd Ht Hr id. pose proof (si_time _ Hi). unfold Schedule, NS_ASSERT.
  rewrite Z.eqb_refl, (proj2 (Z.leb_le _ _) Hd), time_arith by lia.
  destruct (enqueue_ok (m_currentTs s + delay) (GetContext s) ev s)
    as (s' & -> & Hrest); [done | lia | done |].
  by exists s'.
Qed.

Lemma ScheduleWithContext_ok ctx delay ev s :
  sim_inv s -> 0 <= delay -> m_currentTs s + delay < 2 ^ 63 -> room s ->
  exists s', ScheduleWithContext (m_mainThreadId s) ctx delay ev s = Some s' /\ sim_inv s' /\
    ext s s' /\ same_moment s s' /\
    pending s' ≡ₚ mkEvent ev (mkKey (m_currentTs s + delay) (m_nextUid s) ctx) :: pending s.
Proof.
  intros Hi Hd Ht Hr. pose proof (si_time _ Hi). unfold ScheduleWithContext.
  rewrite Z.eqb_refl, time_arith by lia.
  destruct (enqueue_ok (m_currentTs s + delay) ctx ev s)
    as (s' & -> & ? & ? & ? & ? & _); [done | lia | done |].
  by exists s'.
Qed.

(** A change of fields the invariant does not constrain. *)
Lemma inv_frame s s' :
  m_events s' = m_events s -> m_currentTs s' = m_currentTs s -> m_currentUid s' = m_currentUid s ->
  m_unscheduledEvents s' = m_unscheduledEvents s -> m_nextUid s <= m_nextUid s' < 2 ^ 32 ->
  m_cancelled s ⊆ m_cancelled s' -> sim_inv s -> sim_inv s' /\ ext s s'.
Proof.
  intros E1 E2 E3 E4 Hu Hc [Hs Hd Hk Hi Ha Ht Hu' Hf Hct].
  split; split; unfold pending, after_current in *; rewrite ?E1, ?E2, ?E3, ?E4; try done; try lia; auto.
  intros e He%Hi. lia.
Qed.

Lemma Cancel_ok id s : sim_inv s -> sim_inv (Cancel id s) /\ ext s (Cancel id s) /\ same_moment s (Cancel id s).
Proof.
  intros Hi. unfold Cancel. pose proof (si_uid _ Hi). case_match; [| by split_and!].
  destruct (inv_frame s (EventImpl_Cancel (id_impl id) s)); try done; [simpl; lia | simpl; set_solver].
Qed.

Lemma IsExpired_pending id s :
  sim_inv s -> issued s id -> IsExpired id s = false -> event_of_id id ∈ pending s.
Proof.
  intros Hi [Hu Hc] He. unfold IsExpired, VALID, DESTROY in *.
  destruct (Z.eqb_spec (id_uid id) 2); [lia |].
  apply orb_false_iff in He as [He Hcan]. apply orb_false_iff in He as [He Hcur].
  apply orb_false_iff in He as [_ Hts]. unfold EventImpl_IsCancelled in Hcan.
  apply bool_decide_eq_false in Hcan. destruct Hc as [Hc|[Hc|Hc]]; [done | | done].
  exfalso. apply Hc. unfold after_current, ts_of, uid_of. simpl.
  apply andb_false_iff in Hcur. bool_prop. destruct Hcur; bool_prop; lia.
Qed.

(** A pending event that was not cancelled is not expired. *)
Lemma IsExpired_false id s :
  sim_inv s -> VALID <= id_uid id -> id_impl id <> nullptr ->
  event_of_id id ∈ pending s -> id_impl id ∉ m_cancelled s -> IsExpired id s = false.
Proof.
  intros Hi Hu Hnull Hin Hc. pose proof (si_after _ Hi _ Hin) as Ha.
  unfold IsExpired, VALID, DESTROY, EventImpl_IsCancelled in *.
  destruct (Z.eqb_spec (id_uid id) 2); [lia |].
  rewrite (proj2 (Z.eqb_neq _ _) Hnull), bool_decide_eq_false_2, orb_false_r by done. simpl.
  unfold after_current, ts_of, uid_of in Ha. simpl in Ha.
  apply orb_false_iff. split; [apply Z.ltb_ge; lia |]. apply andb_false_iff.
  rewrite Z.eqb_neq, Z.leb_gt. lia.
Qed.

(** [Schedule] of a live event: the id it returns is pending with [delay] left. *)
Lemma Schedule_fresh delay ev s :
  sim_inv s -> 0 <= delay -> m_currentTs s + delay < 2 ^ 63 -> room s ->
  ev <> nullptr -> ev ∉ m_cancelled s ->
  let id := mkId ev (m_currentTs s + delay) (m_currentContext s) (m_nextUid s) in
  exists s', Schedule (m_mainThreadId s) delay ev s = Some (id, s') /\ sim_inv s' /\ ext s s' /\
    same_moment s s' /\ pending s' ≡ₚ event_of_id id :: pending s /\ issued s' id /\
    m_cancelled s' = m_cancelled s /\ IsExpired id s' = false /\ GetDelayLeft id s' = delay.
Proof.
  intros Hi Hd Ht Hr Hnull Hc id. pose proof (si_uid _ Hi). pose proof (si_time _ Hi).
  destruct (Schedule_ok delay ev s Hi Hd Ht Hr) as (s' & Es & Hi' & He & Hm & Hp & Hc' & Hn).
  fold id in Es, Hp. assert (event_of_id id ∈ pending s') as Hin by (rewrite Hp; set_solver).
  assert (IsExpired id s' = false) as Hx.
  { apply IsExpired_false; simpl; [done | lia | done | done | by rewrite Hc']. }
  exists s'. split_and!; try done.
  - split; [simpl; lia | by left].
  - destruct Hm as (Ht' & _). unfold GetDelayLeft. rewrite Hx. simpl.
    rewrite Ht', u64_small, i64_small by lia. lia.
Qed.

Lemma dispatch_ok s :
  sim_inv s -> pending s <> [] ->
  exists e s', dispatch s = Some (e, s') /\ sim_inv s' /\ ext s s' /\
    pending s ≡ₚ e :: pending s' /\ minimal e (pending s) /\
    m_currentTs s' = ts_of e /\ m_currentUid s' = uid_of e /\
    m_eventsWithContextEmpty s' = m_eventsWithContextEmpty s /\ m_cancelled s' = m_cancelled s /\
    m_stop s' = m_stop s.
Proof.
  intros [Hs Hd Hk Hii Ha Ht Hu Hf [Hct Hct']] Hne. unfold dispatch.
  destruct (sched_RemoveNext_ok (m_events s) Hs Hne) as (e & q & -> & Hiq & Hp & Hm & Hfl). simpl.
  unfold pending in *. assert (e ∈ contents (m_events s)) as Hin by (rewrite Hp; set_solver).
  pose proof (Ha e Hin) as Hae. pose proof (Hk e Hin) as [Hts Huid]. pose proof (Hii e Hin).
  assert ((m_currentTs s <=? ts_of e) = true) as Hle.
  { apply Z.leb_le. unfold after_current in Hae. lia. }
  unfold NS_ASSERT. rewrite Hle. eexists _, _. split; [done |].
  pose proof (Permutation_length Hp) as Hlen. simpl in Hlen.
  assert (i32 (m_unscheduledEvents s - 1) = m_unscheduledEvents s - 1) as Ei.
  { apply (swrap_small 32); lia. }
  assert (forall x, x ∈ contents q -> x ∈ contents (m_events s)) as Hsub.
  { intros x Hx. rewrite Hp. set_solver. }
  rewrite Hp in Hd. pose proof Hd as [Hux Hdq]%distinct_cons.
  assert (0 <= ts_of e < 2 ^ 63) by (unfold ts_of; lia).
  split_and!; try done; split; unfold pending; simpl; rewrite ?Ei; try done; try lia; auto.
  - intros x Hx. unfold after_current. simpl.
    pose proof (minimal_before e x _ Hm (Hsub x Hx) (Hux x Hx)). event_order.
  - unfold VALID in *. lia.
  - intros x Hx. unfold after_current in *. simpl. lia.
  - intros x. rewrite Hp. intros [->|Hx]%elem_of_cons; [| auto].
    right; left. unfold after_current. simpl. lia.
Qed.

End Invariant.

Section WithRemove.
Context {S : Type} `{SchedulerRemoveLaws S}.

Lemma Remove_ok id s :
  sim_inv s -> issued s id ->
  exists s', Remove id s = Some s' /\ sim_inv s' /\ ext s s' /\ same_moment s s' /\
    (IsExpired id s = false ->
     pending s ≡ₚ event_of_id id :: pending s' /\ id_impl id ∈ m_cancelled s' /\
     m_nextUid s' = m_nextUid s).
Proof.
  intros Hi Hid. pose proof Hid as [Hu _]. unfold Remove, VALID, DESTROY in *.
  destruct (Z.eqb_spec (id_uid id) 2); [lia |].
  destruct (IsExpired id s) eqn:E; [by exists s |].
  pose proof (IsExpired_pending id s Hi Hid E) as Hin.
  pose proof Hi as [Hs Hd Hk Hii Ha Ht Hu' Hf [Hct Hct']].
  destruct (sched_Remove_ok (event_of_id id) (m_events s) Hs Hin) as (q & Hq & Hiq & Hp & Hfl).
  rewrite Hq. eexists. split; [done |]. unfold pending in *.
  pose proof (Permutation_length Hp) as Hlen. simpl in Hlen.
  assert (forall e, e ∈ contents q -> e ∈ contents (m_events s)) as Hsub.
  { intros e He. rewrite Hp. set_solver. }
  assert (i32 (m_unscheduledEvents s - 1) = m_unscheduledEvents s - 1) as Ei.
  { apply (swrap_small 32); lia. }
  split_and!; try done; [split | split | ]; unfold pending; simpl; rewrite ?Ei; try done; try lia; auto.
  - rewrite Hp in Hd. by apply distinct_cons in Hd as [_ ?].
  - intros e He. exact (Ha e (Hsub e He)).
  - set_solver.
  - intros e. rewrite Hp. intros [->|He]%elem_of_cons; [| auto].
    right; right. simpl. set_solver.
  - intros _. split_and!; [done | set_solver | done].
Qed.

Lemma api_ok s s' : api s s' -> sim_inv s -> sim_inv s' /\ ext s s' /\ same_moment s s'.
Proof.
  intros Hapi Hi. pose proof (si_uid _ Hi) as Hu. destruct Hapi as
    [delay ev id s s' ? ? ? E | ctx delay ev s s' ? ? ? E | ev id s s' Hr E
    | ev id s s' Hr E | id s | id s s' Hid E | s].
  - destruct (Schedule_ok delay ev s) as (s1 & E1 & ? & ? & ? & _); try done.
    rewrite E1 in E. by injection E as <- <-.
  - destruct (ScheduleWithContext_ok ctx delay ev s) as (s1 & E1 & ? & ? & ? & _); try done.
    rewrite E1 in E. by injection E as <-.
  - pose proof (si_time _ Hi). unfold ScheduleNow, NS_ASSERT in E. rewrite Z.eqb_refl in E.
    destruct (Schedule_ok 0 ev s) as (s1 & E1 & ? & ? & ? & _); [done | lia | lia | done |].
    rewrite E1 in E. by injection E as <- <-.
  - unfold ScheduleDestroy, NS_ASSERT in E. rewrite Z.eqb_refl in E. injection E as <- <-.
    destruct Hr as [Hr _].
    match goal with |- sim_inv ?x /\ _ => destruct (inv_frame s x) end; simpl; try done;
      rewrite u32_small by lia; lia.
  - by apply Cancel_ok.
  - destruct Hid as [Hid|Hid].
    + unfold Remove in E. rewrite Hid in E. simpl in E. injection E as <-.
      match goal with |- sim_inv ?x /\ _ => destruct (inv_frame s x) end; simpl; try done; lia.
    + destruct (Remove_ok id s Hi Hid) as (s1 & E1 & ? & ? & ? & _).
      rewrite E1 in E. by injection E as <-.
  - destruct (inv_frame s (Stop s)); try done; simpl; lia.
Qed.

Lemma api_rtc_ok s s' : rtc api s s' -> sim_inv s -> sim_inv s' /\ ext s s' /\ same_moment s s'.
Proof.
  induction 1 as [s|s1 s2 s3 H12 _ IH]; intros Hi; [by split_and! |].
  destruct (api_ok _ _ H12 Hi) as (Hi2 & He2 & ? & ? & ?).
  destruct (IH Hi2) as (Hi3 & He3 & ? & ? & ?).
  split; [done |]. split; [by etransitivity |]. split_and!; congruence.
Qed.

(** ** Lemmas: the event loop *)

(** Handlers that never abort and only use the interface. *)
Definition handlers_ok (notify : Z -> Sim S -> option (Sim S)) : Prop :=
  forall i s, sim_inv s -> exists s', notify i s = Some s' /\ rtc api s s'.

Lemma Invoke_ok notify i s :
  handlers_ok notify -> sim_inv s ->
  exists b s', Invoke notify i s = Some (b, s') /\ sim_inv s' /\ ext s s' /\ same_moment s s' /\
    (i ∈ m_cancelled s -> b = false).
Proof.
  intros Hh Hi. unfold Invoke, EventImpl_IsCancelled. case_bool_decide as Hc.
  - exists false, s. by split_and!.
  - destruct (Hh i s Hi) as (s' & -> & Hr). destruct (api_rtc_ok _ _ Hr Hi) as (? & ? & ?).
    exists true, s'. by split_and!.
Qed.

Lemma ProcessOneEvent_ok notify s :
  handlers_ok notify -> sim_inv s -> pending s <> [] -> m_eventsWithContextEmpty s = true ->
  exists e b s', ProcessOneEvent notify s = Some (e, b, s') /\ sim_inv s' /\ ext s s' /\
    e ∈ pending s /\ minimal e (pending s) /\
    m_currentTs s' = ts_of e /\ m_currentUid s' = uid_of e /\
    m_eventsWithContextEmpty s' = true /\ (impl e ∈ m_cancelled s -> b = false).
Proof.
  intros Hh Hi Hne Hw. unfold ProcessOneEvent.
  destruct (dispatch_ok s Hi Hne) as (e & s1 & -> & Hi1 & He1 & Hp & Hm & Ht & Hu & Hw1 & Hc1 & _). simpl.
  destruct (Invoke_ok notify (impl e) s1 Hh Hi1) as (b & s2 & -> & Hi2 & He2 & (Ht2 & Hu2 & Hw2) & Hb). simpl.
  unfold ProcessEventsWithContext. rewrite Hw2, Hw1, Hw.
  exists e, b, s2. split_and!; try done; try congruence.
  - by etransitivity.
  - rewrite Hp. set_solver.
  - by rewrite <- Hc1.
Qed.

Lemma run_loop_ok notify n s :
  handlers_ok notify -> sim_inv s -> m_eventsWithContextEmpty s = true ->
  exists tr fin s', run_loop notify n s = Some (tr, fin, s') /\ sim_inv s' /\ ext s s' /\
    StronglySorted before tr.*1 /\
    (forall e b, (e, b) ∈ tr -> after_current s e /\ ~ after_current s' e /\
       (e ∈ pending s \/ m_nextUid s <= uid_of e) /\ (impl e ∈ m_cancelled s -> b = false)) /\
    (fin = true -> IsFinished s' = true).
Proof.
  intros Hh. revert s. induction n as [|n IH]; intros s Hi Hw; simpl;
    destruct (negb _ && negb _) eqn:Hgo.
  - exists [], false, s. split_and!; try done; [constructor |].
    intros e b He. by apply elem_of_nil in He.
  - exists [], true, s. split_and!; try done; [constructor | |].
    + intros e b He. by apply elem_of_nil in He.
    + intros _. unfold IsFinished. destruct (sched_IsEmpty (m_events s)), (m_stop s); done.
  - apply andb_true_iff in Hgo as [Hgo _]. apply negb_true_iff in Hgo.
    assert (pending s <> []) as Hne.
    { intros E. apply (sched_IsEmpty_ok (m_events s)) in E; [congruence | apply Hi]. }
    destruct (ProcessOneEvent_ok notify s Hh Hi Hne Hw)
      as (e & b & s1 & -> & Hi1 & He1 & Hin & Hm & Ht & Hu & Hw1 & Hb).
    destruct (IH s1 Hi1 Hw1) as (tr & fin & s' & Hrun & Hi' & He' & Hs & Htr & Hfin). simpl.
    rewrite Hrun. exists ((e, b) :: tr), fin, s'. simpl.
    split_and!; try done; [by etransitivity | |].
    + constructor; [done |]. apply Forall_forall. intros x Hx.
      apply list_elem_of_fmap in Hx as ([x' b'] & -> & Hx). simpl.
      destruct (Htr x' b' Hx) as (Hax & _). unfold after_current in Hax. event_order.
    + intros x b' [[= -> ->]|Hx]%elem_of_cons.
      * split_and!; [by apply (si_after _ Hi) | | by left | done].
        apply (ext_time _ _ He'). unfold after_current. lia.
      * destruct (Htr x b' Hx) as (Hax & Hnx & Hnew & Hbx). split_and!; [| done | |].
        -- pose proof (si_after _ Hi e Hin). unfold after_current in *. lia.
        -- destruct Hnew as [Hnew|Hnew]; [by apply (ext_new _ _ He1) |].
           right. pose proof (ext_uid _ _ He1). lia.
        -- intros Hcx. apply Hbx. by apply (ext_cancel _ _ He1).
  - exists [], true, s. split_and!; try done; [constructor | |].
    + intros e b He. by apply elem_of_nil in He.
    + intros _. unfold IsFinished. destruct (sched_IsEmpty (m_events s)), (m_stop s); done.
Qed.

End WithRemove.

(** ** Lemmas: whole runs *)

Section Runs.
Context {S : Type} `{SchedulerRemoveLaws S}.

Lemma set_thread_ok th s : sim_inv s -> sim_inv (set_thread th s) /\ ext s (set_thread th s).
Proof. intros Hi. pose proof (si_uid _ Hi). apply inv_frame; try done. simpl. lia. Qed.

Lemma set_stop_ok b s : sim_inv s -> sim_inv (set_stop b s) /\ ext s (set_stop b s).
Proof. intros Hi. pose proof (si_uid _ Hi). apply inv_frame; try done. simpl. lia. Qed.

(** The state the loop of [Run] starts from. *)
Definition run_start (th : Z) (s : Sim S) : Sim S := set_stop false (set_thread th s).

Lemma run_start_ok th s : sim_inv s -> sim_inv (run_start th s) /\ ext s (run_start th s).
Proof.
  intros Hi. destruct (set_thread_ok th s Hi) as [Hi1 He1].
  destruct (set_stop_ok false _ Hi1) as [Hi2 He2]. split; [done | by etransitivity].
Qed.

(** The consistency test at the end of [Run] holds. *)
Lemma final_test s :
  sim_inv s -> negb (sched_IsEmpty (m_events s)) || (m_unscheduledEvents s =? 0) = true.
Proof.
  intros Hi. destruct (sched_IsEmpty (m_events s)) eqn:E; [| done]. simpl.
  apply (sched_IsEmpty_ok _ (si_sched _ Hi)) in E. destruct (si_count _ Hi) as [-> _].
  unfold pending. by rewrite E.
Qed.

Lemma Run_ok notify n th s :
  handlers_ok notify -> sim_inv s -> m_eventsWithContextEmpty s = true ->
  exists tr fin s', Run notify n th s = Some (tr, fin, s') /\ sim_inv s' /\ ext s s' /\
    StronglySorted before tr.*1 /\
    (forall e b, (e, b) ∈ tr -> after_current s e /\ ~ after_current s' e /\
       (e ∈ pending s \/ m_nextUid s <= uid_of e) /\ (impl e ∈ m_cancelled s -> b = false)) /\
    (fin = true -> IsFinished s' = true).
Proof.
  intros Hh Hi Hw. unfold Run, ProcessEventsWithContext. simpl. rewrite Hw.
  fold (run_start th s). destruct (run_start_ok th s Hi) as [Hi1 He1].
  destruct (run_loop_ok notify n (run_start th s) Hh Hi1 Hw)
    as (tr & fin & s' & -> & Hi' & He' & Hs & Htr & Hfin). simpl.
  rewrite (final_test s' Hi'). exists tr, fin, s'.
  split_and!; try done; [by destruct fin | by etransitivity].
Qed.

(** Handlers that neither schedule, remove nor stop. *)
Definition handlers_passive (notify : Z -> Sim S -> option (Sim S)) : Prop :=
  forall i s s', notify i s = Some s' -> pending s' ≡ₚ pending s /\ m_stop s' = m_stop s.

Lemma run_loop_complete notify s :
  handlers_ok notify -> handlers_passive notify ->
  sim_inv s -> m_eventsWithContextEmpty s = true -> m_stop s = false ->
  exists tr s', run_loop notify (length (pending s)) s = Some (tr, true, s') /\
    sim_inv s' /\ tr.*1 ≡ₚ pending s /\ pending s' = [].
Proof.
  intros Hh Hpas. remember (length (pending s)) as n eqn:Hn. revert s Hn.
  induction n as [|n IH]; intros s Hn Hi Hw Hst; simpl.
  - symmetry in Hn. apply nil_length_inv in Hn.
    rewrite (proj2 (sched_IsEmpty_ok _ (si_sched _ Hi)) Hn). simpl.
    exists [], s. by split_and!; [| | rewrite Hn |].
  - assert (pending s <> []) as Hne by (intros E; rewrite E in Hn; done).
    destruct (sched_IsEmpty (m_events s)) eqn:E; [by apply (sched_IsEmpty_ok _ (si_sched _ Hi)) in E |].
    rewrite Hst. simpl. unfold ProcessOneEvent.
    destruct (dispatch_ok s Hi Hne) as (e & s1 & -> & Hi1 & _ & Hp & _ & _ & _ & Hw1 & _ & Hst1). simpl.
    assert (exists b s2, Invoke notify (impl e) s1 = Some (b, s2) /\ sim_inv s2 /\
      m_eventsWithContextEmpty s2 = true /\ pending s2 ≡ₚ pending s1 /\ m_stop s2 = m_stop s1)
      as (b & s2 & -> & Hi2 & Hw2 & Hp2 & Hst2).
    { unfold Invoke. case_match; [exists false, s1; split_and!; congruence || done |].
      destruct (Hh (impl e) s1 Hi1) as (s2 & E2 & Hr).
      destruct (api_rtc_ok _ _ Hr Hi1) as (? & _ & _ & _ & ?). destruct (Hpas _ _ _ E2).
      rewrite E2. exists true, s2. split_and!; congruence || done. }
    simpl. unfold ProcessEventsWithContext. rewrite Hw2.
    destruct (IH s2) as (tr & s' & Hrun & Hi' & Hptr & Hend); try done; [| congruence |].
    { rewrite Hp2. apply Permutation_length in Hp. simpl in Hp. lia. }
    simpl. rewrite Hrun. exists ((e, b) :: tr), s'. split_and!; try done.
    simpl. by rewrite Hptr, Hp2, Hp.
Qed.

Lemma insert_foreign_ok l s :
  sim_inv s ->
  Forall (fun ev => 0 <= ewc_timestamp ev /\ m_currentTs s + ewc_timestamp ev < 2 ^ 63) l ->
  m_nextUid s + Z.of_nat (length l) < 2 ^ 32 -> m_unscheduledEvents s + Z.of_nat (length l) < 2 ^ 31 ->
  exists s', insert_foreign l s = Some s' /\ sim_inv s' /\ ext s s' /\ same_moment s s' /\
    pending s' ≡ₚ imap (fun i ev => mkEvent (ewc_event ev)
      (mkKey (m_currentTs s + ewc_timestamp ev) (m_nextUid s + Z.of_nat i) (ewc_context ev))) l ++ pending s.
Proof.
  revert s. induction l as [|ev l IH]; intros s Hi Hl Hu Hc; simpl in *.
  { exists s. by split_and!. }
  apply Forall_cons in Hl as [[Hts1 Hts2] Hl]. pose proof (si_time _ Hi) as Ht.
  rewrite u64_small by lia.
  destruct (enqueue_ok (m_currentTs s + ewc_timestamp ev) (ewc_context ev) (ewc_event ev) s)
    as (s1 & -> & Hi1 & He1 & (Ht1 & Hu1 & Hw1) & Hp1 & _ & Hn1); [done | lia | split; lia |]. simpl.
  pose proof (Permutation_length Hp1) as Hlen. simpl in Hlen.
  destruct (si_count _ Hi) as [Hct _], (si_count _ Hi1) as [Hct1 _].
  destruct (IH s1) as (s' & -> & Hi' & He' & (Ht' & Hu' & Hw') & Hp'); [done | | lia | lia |].
  { by rewrite Ht1. }
  exists s'. split; [done |]. split; [done |]. split; [by etransitivity |].
  split; [split_and!; congruence |].
  rewrite Hp', Hp1, Ht1, Hn1. rewrite Z.add_0_r. rewrite <- Permutation_middle.
  apply Permutation_skip, Permutation_app_tail.
  match goal with |- ?a ≡ₚ ?b => assert (a = b) as -> end; [| done].
  apply imap_ext. intros i x _. simpl. f_equal. f_equal; lia.
Qed.

End Runs.

Section Move.
Context {S S' : Type} `{SchedulerLaws S} `{SchedulerLaws S'}.

Lemma move_events_ok (q : S) (q' : S') :
  sched_inv q -> sched_inv q' -> distinct (contents q ++ contents q') ->
  (forall e, e ∈ contents q -> key_ok (key e) /\ sched_floor q' <= ts_of e) ->
  Z.of_nat (length (contents q) + length (contents q')) < 2 ^ 32 - 1 ->
  exists q'', move_events (Datatypes.S (length (contents q))) q q' = Some q'' /\ sched_inv q'' /\
    contents q'' ≡ₚ contents q ++ contents q' /\ sched_floor q'' = sched_floor q'.
Proof.
  remember (length (contents q)) as n eqn:Hn. revert q q' Hn.
  induction n as [|n IH]; intros q q' Hn Hi Hi' Hd Hk Hlen; simpl.
  - symmetry in Hn. apply nil_length_inv in Hn.
    rewrite (proj2 (sched_IsEmpty_ok _ Hi) Hn), Hn. by exists q'.
  - assert (contents q <> []) as Hne by (intros E; rewrite E in Hn; done).
    destruct (sched_IsEmpty q) eqn:E; [by apply (sched_IsEmpty_ok _ Hi) in E |].
    destruct (sched_RemoveNext_ok q Hi Hne) as (e & q1 & -> & Hi1 & Hp & _). simpl.
    rewrite Hp in Hn, Hd. setoid_rewrite Hp in Hk. simpl in Hn. destruct (Hk e) as [Hke Hfe]; [set_solver |].
    simpl in Hd. rewrite Permutation_middle in Hd.
    destruct (sched_Insert_ok e q') as (q2 & -> & Hi2 & Hp2 & Hf2); try done; [| lia |].
    { by eapply distinct_app_r. }
    destruct (IH q1 q2) as (q'' & El & Hi'' & Hp'' & Hf''); try done; [lia | | | |].
    + by rewrite Hp2.
    + intros x Hx. rewrite Hf2. apply Hk. set_solver.
    + rewrite Hp2. simpl. lia.
    + simpl in El. rewrite El. exists q''. split_and!; [done | done | | congruence].
      rewrite Hp'', Hp2, Hp. simpl. by rewrite Permutation_middle.
Qed.

End Move.
End Simulator.
