(* ===== verification/SimulatorProps.v ===== *)
(** * Properties of the simulation kernel

    The theorems about the schedulers and the default simulator, stated against
    the scheduler interface, with their instances: all the implementations
    deliver the same order, a run processes events in time order and never
    aborts, cancellation and removal are effective, and the consequence of the
    faulty [HeapScheduler::Remove] for a simulation. *)

From Stdlib Require Import Sorting.Sorted.
From S2P Require Import Prelude EventQueue ListScheduler MapScheduler HeapScheduler.
From S2P Require Import CalendarScheduler Simulator.
Import Simulator.

(** ** Schedulers *)

(** C1: filling any implementation of the scheduler interface with events of
    distinct uids and draining it yields those events, each once, in strictly
    increasing (time stamp, uid) order, without an abort. *)
Theorem fill_and_drain {S} `{SchedulerLaws S} l :
  Forall (fun e => key_ok (key e)) l -> distinct l -> Z.of_nat (length l) < 2 ^ 32 ->
  exists s out, insert_all l (sched_new : S) = Some s /\
    drain (Datatypes.S (length l)) s = Some out /\ out ≡ₚ l /\ StronglySorted before out.
Proof.
  intros Hk Hd Hn. destruct sched_new_ok as (Hi & Hc & Hf).
  destruct (insert_all_spec l (sched_new : S)) as (s & Es & His & Hp & _); rewrite ?Hc, ?app_nil_r; try done.
  - apply Forall_forall. intros e He. eapply Forall_forall in Hk as [Hk _]; [| done].
    unfold ts_of. lia.
  - simpl. lia.
  - rewrite Hc, app_nil_r in Hp. destruct (drain_spec s His) as (out & Ed & Ho & Hs).
    { by rewrite Hp. }
    rewrite Hp in Ed. exists s, out. split_and!; [done | done | by rewrite Ho | done].
Qed.

Definition demo_events : list Event :=
  [mkEvent 104 (mkKey 30 4 0); mkEvent 105 (mkKey 10 5 0); mkEvent 106 (mkKey 10 6 1)].

Lemma demo_events_ok :
  Forall (fun e => key_ok (key e)) demo_events /\ distinct demo_events /\
  Z.of_nat (length demo_events) < 2 ^ 32.
Proof.
  split_and!; [| apply (bool_decide_unpack _); vm_compute; exact I | simpl; lia].
  repeat constructor; simpl; lia.
Qed.

Lemma fill_and_drain_witness :
  exists s out, insert_all demo_events (sched_new : CalendarScheduler.t) = Some s /\
    drain 4 s = Some out /\ out ≡ₚ demo_events /\ StronglySorted before out.
Proof. destruct demo_events_ok as (? & ? & ?). by apply (fill_and_drain (S := CalendarScheduler.t)). Defined.

(** The scheduler implementations are interchangeable: two of them that
    hold the same events, in any state, deliver the same sequence. *)
Theorem schedulers_agree {S S'} `{SchedulerLaws S} `{SchedulerLaws S'} (s : S) (s' : S') :
  sched_inv s -> sched_inv s' -> distinct (contents s) -> contents s ≡ₚ contents s' ->
  exists out, drain (Datatypes.S (length (contents s))) s = Some out /\
    drain (Datatypes.S (length (contents s'))) s' = Some out.
Proof.
  intros Hi Hi' Hd Hp. destruct (drain_spec s Hi Hd) as (o & Eo & Ho & Hs).
  destruct (drain_spec s' Hi') as (o' & Eo' & Ho' & Hs'); [by rewrite <- Hp |].
  exists o. split; [done |]. rewrite Eo'. f_equal.
  apply (StronglySorted_unique before); [done | done |]. by rewrite Ho, Ho', Hp.
Qed.

Lemma schedulers_agree_witness :
  exists out,
    drain 1 (sched_new : HeapScheduler.t) = Some out /\
    drain 1 (CalendarScheduler.CalendarScheduler_new true) = Some out.
Proof.
  refine (schedulers_agree (sched_new : HeapScheduler.t) (CalendarScheduler.CalendarScheduler_new true) _ _ _ _);
    [apply sched_new_ok | apply CalendarScheduler.CalendarScheduler_new_inv | constructor | done].
Defined.

(** [CalendarScheduler::PeekNext] and [RemoveNext] agree on a least pending
    event, in both bucket orders and after any sequence of resizes, and
    removing it keeps the invariant of the calendar. *)
Theorem Calendar_next_is_least s :
  CalendarScheduler.cal_inv s -> CalendarScheduler.events s <> [] ->
  exists e s', CalendarScheduler.PeekNext s = Some e /\
    CalendarScheduler.RemoveNext s = Some (e, s') /\ CalendarScheduler.cal_inv s' /\
    CalendarScheduler.events s ≡ₚ e :: CalendarScheduler.events s' /\
    minimal e (CalendarScheduler.events s).
Proof.
  intros Hi Hne.
  destruct (CalendarScheduler.PeekNext_ok s) as (p & Ep & Hp & Hmp);
    [apply Hi | done | by apply CalendarScheduler.IsEmpty_nonempty |].
  destruct (CalendarScheduler.RemoveNext_ok s Hi Hne) as (e & s' & Er & Hi' & Hperm & Hm & _).
  assert (p = e) as ->.
  { destruct Hi as ([_ [_ _ _ Hd] _] & _ & _).
    assert (e ∈ CalendarScheduler.events s) as He by (rewrite Hperm; set_solver).
    apply (distinct_inj (CalendarScheduler.events s)); [done | done | done |].
    specialize (Hm p Hp). specialize (Hmp e He). event_order. }
  by exists e, s'.
Qed.

Definition cal_demo : CalendarScheduler.t :=
  match insert_all demo_events (CalendarScheduler.CalendarScheduler_new true) with
  | Some s => s | None => CalendarScheduler.CalendarScheduler_new true end.

Lemma Calendar_next_is_least_witness :
  exists e s', CalendarScheduler.PeekNext cal_demo = Some e /\
    CalendarScheduler.RemoveNext cal_demo = Some (e, s') /\ CalendarScheduler.cal_inv s' /\
    CalendarScheduler.events cal_demo ≡ₚ e :: CalendarScheduler.events s' /\
    minimal e (CalendarScheduler.events cal_demo).
Proof.
  apply Calendar_next_is_least; [| by vm_compute].
  destruct demo_events_ok as (Hk & Hd & Hn).
  destruct (insert_all_spec demo_events (CalendarScheduler.CalendarScheduler_new true))
    as (s & Es & Hs & _); [apply CalendarScheduler.CalendarScheduler_new_inv | done | done | | done |].
  - eapply Forall_impl; [exact Hk |]. intros e [He _]. unfold ts_of. simpl. lia.
  - unfold cal_demo. by rewrite Es.
Defined.

(** ** The simulator *)

Lemma new_inv {S} `{SchedulerLaws S} th : sim_inv (DefaultSimulatorImpl_new th : Sim S).
Proof.
  destruct sched_new_ok as (Hi & Hc & Hf).
  split; unfold pending; simpl; rewrite ?Hc; try done; try (intros e He; by apply elem_of_nil in He);
    constructor.
Qed.

(** A handler that schedules one more event ten time steps later, while the
    counters have room. *)
Definition tick (i : Z) (s : Sim ListScheduler.t) : option (Sim ListScheduler.t) :=
  if (m_currentTs s + 10 <? 2 ^ 63) && (m_nextUid s <? 2 ^ 32 - 1) &&
     (m_unscheduledEvents s <? 2 ^ 31 - 1)
  then let* r := Schedule (m_mainThreadId s) 10 (i + 1) s in Some r.2
  else Some s.

Lemma tick_ok : handlers_ok tick.
Proof.
  intros i s Hi. unfold tick. destruct (_ && _) eqn:E; bool_prop; [| by exists s].
  destruct (Schedule_ok 10 (i + 1) s) as (s' & E1 & _); [done | lia | lia | by split |].
  rewrite E1. exists s'. split; [done |]. eapply rtc_once, api_Schedule; [| | | exact E1]; [lia | lia | by split].
Qed.

(** Three events scheduled on a fresh simulator. *)
Definition demo_add (delay event : Z) (s : Sim ListScheduler.t) : Sim ListScheduler.t :=
  match Schedule 7 delay event s with Some r => r.2 | None => s end.
Definition demo_sim1 : Sim ListScheduler.t := Eval vm_compute in
  demo_add 30 104 (DefaultSimulatorImpl_new 7).
Definition demo_sim2 : Sim ListScheduler.t := Eval vm_compute in demo_add 10 105 demo_sim1.
Definition demo_sim : Sim ListScheduler.t := Eval vm_compute in demo_add 10 106 demo_sim2.
Definition demo_id : EventId := mkId 105 10 NO_CONTEXT 5.

Lemma demo_add_inv delay event s s' :
  sim_inv s -> 0 <= delay -> m_currentTs s + delay < 2 ^ 63 -> room s -> m_mainThreadId s = 7 ->
  demo_add delay event s = s' -> sim_inv s'.
Proof.
  intros Hi Hd Ht Hr Hm <-. unfold demo_add. rewrite <- Hm.
  by destruct (Schedule_ok delay event s Hi Hd Ht Hr) as (s1 & -> & Hi1 & _).
Qed.

Lemma demo_sim_inv : sim_inv demo_sim.
Proof.
  apply (demo_add_inv 10 106 demo_sim2); [| lia | done | done | done | by vm_compute].
  apply (demo_add_inv 10 105 demo_sim1); [| lia | done | done | done | by vm_compute].
  apply (demo_add_inv 30 104 (DefaultSimulatorImpl_new 7)); [apply new_inv | lia | done | done | done | by vm_compute].
Qed.

Lemma demo_id_issued : issued demo_sim demo_id.
Proof. split; [vm_compute; split; congruence |]. left. apply (bool_decide_unpack _). vm_compute. exact I. Qed.

(** C2: for every scheduler that keeps [SchedulerRemoveLaws] (the list, the map, the
    priority queue and the calendar; not the heap, whose [Remove] is wrong, see
    [Heap_simulation_aborts]), every program of handlers that return and only call the
    simulator, within its limits (delays that are not negative, times below 2^63, room in
    the counter of uids and the number of events, identifiers that were issued), and every
    bound on the number of events, a run never aborts (in particular virtual time never
    goes back), processes events in strictly increasing (time, uid) order after the
    current event, keeps the invariant of the simulator, and reports itself finished when
    it returns. No other thread has scheduled events. *)
Theorem Run_in_order {S} `{SchedulerRemoveLaws S} notify n th (s : Sim S) :
  handlers_ok notify -> sim_inv s -> m_eventsWithContextEmpty s = true ->
  exists tr fin s', Run notify n th s = Some (tr, fin, s') /\ sim_inv s' /\
    StronglySorted before tr.*1 /\ (forall e, e ∈ tr.*1 -> after_current s e) /\
    (fin = true -> IsFinished s' = true).
Proof.
  intros Hh Hi Hw. destruct (Run_ok notify n th s Hh Hi Hw) as (tr & fin & s' & -> & Hi' & _ & Hs & Htr & Hf).
  exists tr, fin, s'. split_and!; try done. intros e He.
  apply list_elem_of_fmap in He as ([e' b] & -> & He). by apply (Htr e' b).
Qed.

Lemma Run_in_order_witness :
  exists tr fin s', Run tick 20 7 demo_sim = Some (tr, fin, s') /\ sim_inv s' /\
    StronglySorted before tr.*1 /\ (forall e, e ∈ tr.*1 -> after_current demo_sim e) /\
    (fin = true -> IsFinished s' = true).
Proof. apply Run_in_order; [apply tick_ok | apply demo_sim_inv | reflexivity]. Defined.

(** C36: when the handlers leave the set of pending events and the stop flag alone, that
    is, they neither schedule, remove nor stop, [Run] over a scheduler with a working
    [Remove] returns after exactly the pending events, having processed each of them once
    and in (time, uid) order, whether or not the simulator was stopped before; the queue is
    empty and the number of unscheduled events is zero. *)
Theorem Run_completes {S} `{SchedulerRemoveLaws S} notify th (s : Sim S) :
  handlers_ok notify -> handlers_passive notify ->
  sim_inv s -> m_eventsWithContextEmpty s = true ->
  exists tr s', Run notify (length (pending s)) th s = Some (tr, true, s') /\
    tr.*1 ≡ₚ pending s /\ StronglySorted before tr.*1 /\ pending s' = [] /\ m_unscheduledEvents s' = 0.
Proof.
  intros Hh Hp Hi Hw.
  destruct (run_start_ok th s Hi) as [Hi1 _].
  destruct (run_loop_complete notify (run_start th s) Hh Hp Hi1 Hw eq_refl)
    as (tr & s' & Erun & Hi' & Hperm & Hend).
  change (pending (run_start th s)) with (pending s) in *.
  destruct (run_loop_ok notify (length (pending s)) (run_start th s) Hh Hi1 Hw)
    as (tr1 & fin1 & s1 & E1 & _ & _ & Hs & _).
  rewrite Erun in E1. injection E1 as <- <- <-.
  unfold Run, ProcessEventsWithContext. simpl. rewrite Hw. fold (run_start th s).
  rewrite Erun. simpl. rewrite (final_test s' Hi'). exists tr, s'. split_and!; try done. destruct (si_count _ Hi') as [-> _]. by rewrite Hend.
Qed.

Lemma Run_completes_witness :
  exists tr s', Run (fun _ s => Some s) (length (pending demo_sim)) 7 demo_sim = Some (tr, true, s') /\
    tr.*1 ≡ₚ pending demo_sim /\ StronglySorted before tr.*1 /\ pending s' = [] /\ m_unscheduledEvents s' = 0.
Proof.
  apply (Run_completes (fun _ s => Some s) 7 demo_sim).
  - intros i s _. by exists s.
  - by intros i s s' [= ->].
  - apply demo_sim_inv.
  - reflexivity.
Defined.

(** After [Cancel] of a pending event, no later processing of its
    [EventImpl] runs the handler. *)
Theorem Cancel_is_effective {S} `{SchedulerRemoveLaws S} notify n th id (s : Sim S) :
  handlers_ok notify -> sim_inv s -> m_eventsWithContextEmpty s = true ->
  IsExpired id s = false ->
  exists tr fin s', Run notify n th (Cancel id s) = Some (tr, fin, s') /\
    forall e b, (e, b) ∈ tr -> impl e = id_impl id -> b = false.
Proof.
  intros Hh Hi Hw Hx. destruct (Cancel_ok id s Hi) as (Hi1 & _ & _ & _ & Hw1).
  destruct (Run_ok notify n th (Cancel id s) Hh Hi1) as (tr & fin & s' & -> & _ & _ & _ & Htr & _); [congruence |].
  exists tr, fin, s'. split; [done |]. intros e b He Himpl. apply (Htr e b He).
  unfold Cancel. rewrite Hx. simpl. set_solver.
Qed.

Lemma Cancel_is_effective_witness :
  exists tr fin s', Run tick 20 7 (Cancel demo_id demo_sim) = Some (tr, fin, s') /\
    forall e b, (e, b) ∈ tr -> impl e = 105 -> b = false.
Proof.
  apply (Cancel_is_effective tick 20 7 demo_id demo_sim);
    [apply tick_ok | apply demo_sim_inv | reflexivity | reflexivity].
Defined.

(** After [Remove] of a pending event, which never aborts, no later run
    processes an event with its uid. *)
Theorem Remove_is_effective {S} `{SchedulerRemoveLaws S} notify n th id (s : Sim S) :
  handlers_ok notify -> sim_inv s -> m_eventsWithContextEmpty s = true ->
  issued s id -> IsExpired id s = false ->
  exists s1 tr fin s', Remove id s = Some s1 /\ Run notify n th s1 = Some (tr, fin, s') /\
    forall e, e ∈ tr.*1 -> uid_of e <> id_uid id.
Proof.
  intros Hh Hi Hw Hid Hx.
  destruct (Remove_ok id s Hi Hid) as (s1 & -> & Hi1 & _ & (_ & _ & Hw1) & Hr).
  destruct (Hr Hx) as (Hp & _ & Hn).
  destruct (Run_ok notify n th s1 Hh Hi1) as (tr & fin & s' & E & _ & _ & _ & Htr & _); [congruence |].
  exists s1, tr, fin, s'. split_and!; [done | done |]. intros e He.
  apply list_elem_of_fmap in He as ([e' b] & -> & He). simpl.
  destruct (Htr e' b He) as (_ & _ & [Hin|Hnew] & _).
  - pose proof (si_distinct _ Hi) as Hd. rewrite Hp in Hd.
    apply distinct_cons in Hd as [Hu _]. apply (Hu e' Hin).
  - destruct Hid as [Hid _]. lia.
Qed.

Lemma Remove_is_effective_witness :
  exists s1 tr fin s', Remove demo_id demo_sim = Some s1 /\ Run tick 20 7 s1 = Some (tr, fin, s') /\
    forall e, e ∈ tr.*1 -> uid_of e <> 5.
Proof.
  apply (Remove_is_effective tick 20 7 demo_id demo_sim);
    [apply tick_ok | apply demo_sim_inv | reflexivity | apply demo_id_issued | reflexivity].
Defined.

(** For an id returned by a scheduling call, [IsExpired] is false exactly
    while its event is pending and not cancelled. *)
Theorem IsExpired_correct {S} `{SchedulerLaws S} id (s : Sim S) :
  sim_inv s -> issued s id -> id_impl id <> nullptr ->
  IsExpired id s = false <-> event_of_id id ∈ pending s /\ id_impl id ∉ m_cancelled s.
Proof.
  intros Hi Hid Hnull. split.
  - intros Hx. split; [by apply IsExpired_pending |]. destruct Hid as [Hu _].
    unfold IsExpired, VALID, DESTROY in *. destruct (Z.eqb_spec (id_uid id) 2); [lia |].
    apply orb_false_iff in Hx as [_ Hx]. by apply bool_decide_eq_false in Hx.
  - intros [Hin Hc]. destruct Hid as [Hu _]. apply IsExpired_false; try done. lia.
Qed.

Lemma IsExpired_correct_witness :
  IsExpired demo_id demo_sim = false <->
  event_of_id demo_id ∈ pending demo_sim /\ 105 ∉ m_cancelled demo_sim.
Proof. apply IsExpired_correct; [apply demo_sim_inv | apply demo_id_issued | done]. Defined.

(** [Schedule] of a live event never aborts, adds exactly that event [delay]
    steps ahead, and the returned id is pending with [delay] left. *)
Theorem Schedule_delay {S} `{SchedulerLaws S} delay ev (s : Sim S) :
  sim_inv s -> 0 <= delay -> m_currentTs s + delay < 2 ^ 63 -> room s ->
  ev <> nullptr -> ev ∉ m_cancelled s ->
  exists id s', Schedule (m_mainThreadId s) delay ev s = Some (id, s') /\ sim_inv s' /\
    pending s' ≡ₚ event_of_id id :: pending s /\ issued s' id /\
    IsExpired id s' = false /\ GetDelayLeft id s' = delay.
Proof.
  intros Hi Hd Ht Hr Hnull Hc.
  destruct (Schedule_fresh delay ev s Hi Hd Ht Hr Hnull Hc)
    as (s' & Es & Hi' & _ & _ & Hp & Hid & _ & Hx & Hl).
  by eexists _, s'.
Qed.

Lemma Schedule_delay_witness :
  exists id s', Schedule 7 25 109 demo_sim = Some (id, s') /\ sim_inv s' /\
    pending s' ≡ₚ event_of_id id :: pending demo_sim /\ issued s' id /\
    IsExpired id s' = false /\ GetDelayLeft id s' = 25.
Proof.
  apply (Schedule_delay 25 109 demo_sim); [apply demo_sim_inv | lia | simpl; lia | | done |].
  - split; vm_compute; done.
  - apply (bool_decide_unpack _). vm_compute. exact I.
Defined.

(** [SetScheduler] moves a running simulation to a scheduler of another
    kind without losing or reordering an event: it does not abort, the pending
    events are the same and the invariant of the simulator holds again. *)
Theorem SetScheduler_preserves {S S'} `{SchedulerLaws S} `{SchedulerLaws S'} (s : Sim S) :
  sim_inv s ->
  exists s' : Sim S', SetScheduler (Datatypes.S (length (pending s))) s = Some s' /\ sim_inv s' /\
    pending s' ≡ₚ pending s /\ m_currentTs s' = m_currentTs s /\ m_nextUid s' = m_nextUid s.
Proof.
  intros Hi. pose proof Hi as [Hs Hd Hk Hii Ha Ht Hu Hf [Hct Hct']].
  destruct (sched_new_ok (S := S')) as (Hin & Hcn & Hfn). unfold SetScheduler.
  destruct (move_events_ok (m_events s) (sched_new : S')) as (q & Eq & Hiq & Hp & Hfq); try done.
  - by rewrite Hcn, app_nil_r.
  - intros e He. split; [by apply Hk |]. destruct (Hk e He) as [? _]. unfold ts_of. lia.
  - rewrite Hcn. simpl. unfold pending in Hct. lia.
  - rewrite Hcn, app_nil_r in Hp. unfold pending in *. rewrite Eq. eexists. split; [done |].
    split; [| done]. split; unfold pending; simpl; try done; try lia.
    + by rewrite Hp.
    + intros e He. apply Hk. by rewrite <- Hp.
    + intros e He. apply Hii. by rewrite <- Hp.
    + intros e He. apply Ha. by rewrite <- Hp.
    + by rewrite Hp.
Qed.

Lemma SetScheduler_preserves_witness :
  exists s' : Sim CalendarScheduler.t,
    SetScheduler (S (length (pending demo_sim))) demo_sim = Some s' /\ sim_inv s' /\
    pending s' ≡ₚ pending demo_sim /\ m_currentTs s' = m_currentTs demo_sim /\
    m_nextUid s' = m_nextUid demo_sim.
Proof. apply (SetScheduler_preserves (S' := CalendarScheduler.t) demo_sim). apply demo_sim_inv. Defined.

(** Events queued by other threads enter the scheduler at the next
    synchronisation, in the order they were queued, each at the current time
    plus its delay and with the next uid; none is lost and none aborts. *)
Theorem ProcessEventsWithContext_preserves {S} `{SchedulerRemoveLaws S} (s : Sim S) :
  sim_inv s -> m_eventsWithContextEmpty s = false ->
  Forall (fun ev => 0 <= ewc_timestamp ev /\ m_currentTs s + ewc_timestamp ev < 2 ^ 63)
    (m_eventsWithContext s) ->
  m_nextUid s + Z.of_nat (length (m_eventsWithContext s)) < 2 ^ 32 ->
  m_unscheduledEvents s + Z.of_nat (length (m_eventsWithContext s)) < 2 ^ 31 ->
  exists s', ProcessEventsWithContext s = Some s' /\ sim_inv s' /\ m_eventsWithContextEmpty s' = true /\
    pending s' ≡ₚ imap (fun i ev => mkEvent (ewc_event ev)
      (mkKey (m_currentTs s + ewc_timestamp ev) (m_nextUid s + Z.of_nat i) (ewc_context ev)))
      (m_eventsWithContext s) ++ pending s.
Proof.
  intros Hi Hw Hl Hu Hc. unfold ProcessEventsWithContext. rewrite Hw.
  pose proof (si_uid _ Hi). destruct (inv_frame s (set_foreign [] true s)) as [Hi1 _]; try done.
  { simpl. lia. }
  destruct (insert_foreign_ok (m_eventsWithContext s) (set_foreign [] true s) Hi1 Hl Hu Hc)
    as (s' & -> & Hi' & _ & (_ & _ & Hw') & Hp).
  exists s'. by split_and!.
Qed.

Definition demo_foreign : Sim ListScheduler.t :=
  match ScheduleWithContext 8 3 15 207 demo_sim with Some s => s | None => demo_sim end.

Lemma ProcessEventsWithContext_preserves_witness :
  exists s', ProcessEventsWithContext demo_foreign = Some s' /\ sim_inv s' /\
    m_eventsWithContextEmpty s' = true /\
    pending s' ≡ₚ [mkEvent 207 (mkKey 15 7 3)] ++ pending demo_sim.
Proof.
  apply (ProcessEventsWithContext_preserves demo_foreign).
  - apply (inv_frame demo_sim demo_foreign); try reflexivity; [vm_compute; split; congruence | apply demo_sim_inv].
  - reflexivity.
  - repeat constructor; vm_compute; congruence.
  - vm_compute; reflexivity.
  - vm_compute; reflexivity.
Defined.

(** ** The faulty removal at work *)

(** Seven events on a simulator with a [HeapScheduler], the first one removed. *)
Definition heap_sim : option (Sim HeapScheduler.t) :=
  let* r1 := Schedule 7 5 110 (DefaultSimulatorImpl_new 7) in
  let* r2 := Schedule 7 4 111 r1.2 in
  let* r3 := Schedule 7 7 112 r2.2 in
  let* r4 := Schedule 7 2 113 r3.2 in
  let* r5 := Schedule 7 6 114 r4.2 in
  let* r6 := Schedule 7 1 115 r5.2 in
  let* r7 := Schedule 7 3 116 r6.2 in
  Remove r1.1 r7.2.

(** With a [HeapScheduler], a program that schedules seven events and
    removes one of them makes [ProcessOneEvent] fail its assertion that time
    does not go back: three events run, the fourth aborts. *)
Theorem Heap_simulation_aborts :
  exists s, heap_sim = Some s /\
    option_map (fun r => map (fun p => ts_of p.1) r.1.1) (Run (fun _ s => Some s) 3 7 s) = Some [1; 2; 4] /\
    Run (fun _ s => Some s) 4 7 s = None.
Proof. eexists. split; [vm_compute; reflexivity |]. split; vm_compute; reflexivity. Qed.
