(* ===== verification/Int64x64.v ===== *)
(** * Fixed point numbers (src/core/model/int64x64-128.h, int64x64-128.cc)

    An [int64x64_t] is a 128-bit signed integer, the number times 2^64. Multiplication
    works on halves, division in rounds over the remainder; both are compared with the
    exact quotients they compute. *)

From S2P Require Import Prelude.

Module Int64x64.

Definition u128 (x : Z) : Z := wrap 128 x.
Definition i128 (x : Z) : Z := swrap 128 x.
Definition ONE : Z := 2 ^ 64.

(** The masks are 64-bit numbers. *)
Definition HP_MASK_LO : Z := 0xffffffffffffffff.
Definition HP_MASK_HI : Z := u64 (Z.lnot HP_MASK_LO).
Definition HP128_MASK_HI_BIT : Z := u128 (Z.shiftl 1 127).

(** ** Construction, comparison, addition *)

Definition of_int (v : Z) : Z := i128 (Z.shiftl v 64).
Definition of_parts (hi lo : Z) : Z := i128 (Z.lor (Z.shiftl hi 64) lo).
Definition add (a b : Z) : Z := i128 (a + b).
Definition sub (a b : Z) : Z := i128 (a - b).
Definition neg (a : Z) : Z := i128 (- a).
Definition Abs (a : Z) : Z := if a <? 0 then neg a else a.
Definition Min (a b : Z) : Z := if a <? b then a else b.
Definition Max (a b : Z) : Z := if b <? a then a else b.
Definition GetHigh (v : Z) : Z := i64 (Z.shiftr v 64).
Definition GetLow (v : Z) : Z := u64 (Z.land v HP_MASK_LO).
Definition GetInt (v : Z) : Z :=
  let negative := v <? 0 in
  let value := u128 (if negative then - v else v) in
  let retval := i64 (Z.shiftr value 64) in
  if negative then i64 (- retval) else retval.
Definition Round (v : Z) : Z :=
  let negative := v <? 0 in
  let value := add (if negative then neg v else v) (of_parts 0 (2 ^ 63)) in
  let retval := GetHigh value in
  if negative then i64 (- retval) else retval.

(** ** Multiplication *)

Definition output_sign (sa sb : Z) : bool * Z * Z :=
  let negA := sa <? 0 in
  let negB := sb <? 0 in
  (xorb negA negB, u128 (if negA then - sa else sa), u128 (if negB then - sb else sb)).
Definition Umul (a b : Z) : option Z :=
  let aL := Z.land a HP_MASK_LO in
  let bL := Z.land b HP_MASK_LO in
  let aH := Z.land (Z.shiftr a 64) HP_MASK_LO in
  let bH := Z.land (Z.shiftr b 64) HP_MASK_LO in
  let loPart := u128 (aL * bL) in
  let midPart := u128 (u128 (aL * bH) + u128 (aH * bL)) in
  let hiPart := u128 (aH * bH) in
  assert* Z.land hiPart HP_MASK_HI =? 0 in
  let result := u128 (Z.shiftr loPart 64 + Z.land midPart HP_MASK_LO) in
  let res1 := u128 (Z.shiftl (u128 (Z.shiftr midPart 64 + Z.land hiPart HP_MASK_LO)) 64) in
  Some (u128 (result + res1)).
Definition Mul (v o : Z) : option Z :=
  let '(negative, a, b) := output_sign v o in
  let* result := Umul a b in
  Some (i128 (if negative then u128 (- result) else result)).

(** ** Division *)

Definition DIGITS : Z := 64.
(** The loops over bits; the turns left are those for which the digits are below
    [DIGITS]. *)
Fixpoint skip_trailing (turns : nat) (shift den : Z) : Z * Z :=
  match turns with
  | O => (shift, den)
  | S turns => if Z.land den 1 =? 0 then skip_trailing turns (shift + 1) (Z.shiftr den 1) else (shift, den)
  end.
Fixpoint skip_leading (turns : nat) (shift rem : Z) : Z * Z :=
  match turns with
  | O => (shift, rem)
  | S turns => if Z.land rem HP128_MASK_HI_BIT =? 0 then skip_leading turns (shift + 1) (u128 (Z.shiftl rem 1)) else (shift, rem)
  end.
Fixpoint cast_off (turns : nat) (shift rem den : Z) : Z * Z :=
  match turns with
  | O => (shift, den)
  | S turns => if (Z.land den 1 =? 0) || (rem <? den) then cast_off turns (shift + 1) rem (Z.shiftr den 1) else (shift, den)
  end.
Definition turns_left (digis shift : Z) : nat := Z.to_nat (DIGITS - (digis + shift)).
(** The rounds of the division; [fuel] bounds them. A division by zero aborts. *)
Fixpoint div_rounds (fuel : nat) (result rem den digis shift : Z) : option (Z * Z) :=
  if (digis <? DIGITS) && negb (rem =? 0) then
    match fuel with
    | O => None
    | S fuel =>
        let '(shift, rem) := skip_leading (turns_left digis shift) shift rem in
        let '(shift, den) := cast_off (turns_left digis shift) shift rem den in
        assert* negb (den =? 0) in
        let quo := rem / den in
        let rem := rem mod den in
        let result := u128 (u128 (Z.shiftl result shift) + quo) in
        div_rounds fuel result rem den (digis + shift) 0
    end
  else Some (result, digis).
Definition Udiv (a b : Z) : option Z :=
  assert* negb (b =? 0) in
  let quo := a / b in
  let rem := a mod b in
  assert* rem <? b in
  let '(shift, den) := skip_trailing (Z.to_nat DIGITS) 0 b in
  let* (result, digis) := div_rounds (Z.to_nat DIGITS) quo rem den 0 shift in
  if digis <? DIGITS then Some (u128 (Z.shiftl result (DIGITS - digis))) else Some result.
Definition Div (v o : Z) : option Z :=
  let '(negative, a, b) := output_sign v o in
  let* result := Udiv a b in
  let result := i128 result in
  Some (if negative then i128 (- result) else result).

(** ** Multiplication by inverses *)

Definition UmulByInvert (a b : Z) : Z :=
  let ah := Z.shiftr a 64 in
  let bh := Z.shiftr b 64 in
  let al := Z.land a HP_MASK_LO in
  let bl := Z.land b HP_MASK_LO in
  let hi := u128 (ah * bh) in
  let mid := Z.shiftr (u128 (u128 (ah * bl) + u128 (al * bh))) 64 in
  u128 (hi + mid).
Definition MulByInvert (v o : Z) : Z :=
  let negResult := v <? 0 in
  let result := UmulByInvert (u128 (if negResult then - v else v)) (u128 o) in
  i128 (if negResult then u128 (- result) else result).
Definition Invert (v : Z) : option Z :=
  assert* 1 <? v in
  let* q := Udiv (u128 (Z.shiftl 1 64)) v in
  let result := i128 q in
  let tmp := MulByInvert (of_parts (i64 v) 0) result in
  Some (if GetHigh tmp =? 1 then result else i128 (result + 1)).

End Int64x64.

(** * Fixed point arithmetic is exact up to its last digit

    Multiplication and division give the exact result, truncated; the only difference is
    the wrap-around of 128-bit numbers. *)

Module Int64x64Props.
Import Int64x64.

(** ** Halves of 128-bit numbers *)

Lemma mask_lo a : Z.land a HP_MASK_LO = a mod 2 ^ 64.
Proof. change HP_MASK_LO with (Z.ones 64). by rewrite Z.land_ones. Qed.
(** The high mask is empty: it was cut to 64 bits. *)
Lemma mask_hi : HP_MASK_HI = 0.
Proof. reflexivity. Qed.
Lemma shiftr_64 a : Z.shiftr a 64 = a / 2 ^ 64.
Proof. by rewrite Z.shiftr_div_pow2. Qed.
Lemma shiftl_64 a : Z.shiftl a 64 = a * 2 ^ 64.
Proof. by rewrite Z.shiftl_mul_pow2. Qed.
Lemma u128_small x : 0 <= x < 2 ^ 128 -> u128 x = x.
Proof. apply wrap_small. Qed.
Lemma u128_range x : 0 <= u128 x < 2 ^ 128.
Proof. apply wrap_range. lia. Qed.
Lemma u128_eq x y : (exists k, x = y + k * 2 ^ 128) -> u128 x = u128 y.
Proof. intros [k ->]. unfold u128, wrap. apply Z_mod_plus_full. Qed.
Lemma u128_repr x : exists k, u128 x = x + k * 2 ^ 128.
Proof. exists (- (x / 2 ^ 128)). unfold u128, wrap. rewrite Z.mod_eq by lia. lia. Qed.
Lemma i128_small x : - 2 ^ 127 <= x < 2 ^ 127 -> i128 x = x.
Proof. intros H. apply (swrap_small 128); [lia|exact H]. Qed.
Lemma i128_u128 x : i128 (u128 x) = i128 x.
Proof. destruct (u128_repr x) as [k ->]. unfold i128, swrap. f_equal. replace (x + k * 2 ^ 128 + 2 ^ (128 - 1)) with (x + 2 ^ (128 - 1) + k * 2 ^ 128) by lia. apply Z_mod_plus_full. Qed.

(** ** Multiplication *)

Lemma Umul_ok a b : 0 <= a < 2 ^ 128 -> 0 <= b < 2 ^ 128 -> Umul a b = Some (u128 (a * b / 2 ^ 64)).
Proof.
  intros Ha Hb. unfold Umul. rewrite mask_hi, Z.land_0_r. cbn [Z.eqb NS_ASSERT]. rewrite !mask_lo, !shiftr_64, shiftl_64. f_equal.
  set (aL := a mod 2 ^ 64). set (bL := b mod 2 ^ 64). rewrite (Z.mod_small (a / 2 ^ 64)), (Z.mod_small (b / 2 ^ 64)) by (split; [apply Z.div_pos; lia|apply Z.div_lt_upper_bound; lia]).
  set (aH := a / 2 ^ 64). set (bH := b / 2 ^ 64).
  assert (a = aH * 2 ^ 64 + aL) as Ea by (unfold aH, aL; pose proof (Z.div_mod a (2 ^ 64)); lia). assert (b = bH * 2 ^ 64 + bL) as Eb by (unfold bH, bL; pose proof (Z.div_mod b (2 ^ 64)); lia).
  assert (0 <= aL < 2 ^ 64) by (apply Z.mod_pos_bound; lia). assert (0 <= bL < 2 ^ 64) by (apply Z.mod_pos_bound; lia).
  assert (0 <= aL * bL < 2 ^ 128) as Hlo by nia. rewrite (u128_small (aL * bL)) by done.
  set (lo := aL * bL) in *. set (mid := u128 (u128 (aL * bH) + u128 (aH * bL))). set (hi := u128 (aH * bH)).
  assert (a * b / 2 ^ 64 = aH * bH * 2 ^ 64 + (aL * bH + aH * bL) + lo / 2 ^ 64) as ->.
  { replace (a * b) with (lo + (aH * bH * 2 ^ 64 + (aL * bH + aH * bL)) * 2 ^ 64) by (unfold lo; rewrite Ea, Eb; ring). rewrite Z.div_add by lia. lia. }
  apply u128_eq. destruct (u128_repr (aL * bH)) as [k1 E1], (u128_repr (aH * bL)) as [k2 E2], (u128_repr (u128 (aL * bH) + u128 (aH * bL))) as [k3 E3], (u128_repr (aH * bH)) as [k4 E4].
  fold mid in E3. fold hi in E4. rewrite E1, E2 in E3.
  pose proof (Z.div_mod mid (2 ^ 64) ltac:(lia)) as Em. pose proof (Z.div_mod hi (2 ^ 64) ltac:(lia)) as Eh. set (m0 := mid mod 2 ^ 64) in *. set (m1 := mid / 2 ^ 64) in *. set (h0 := hi mod 2 ^ 64) in *. set (h1 := hi / 2 ^ 64) in *.
  destruct (u128_repr (lo / 2 ^ 64 + m0)) as [k5 ->], (u128_repr (u128 (m1 + h0) * 2 ^ 64)) as [k6 ->], (u128_repr (m1 + h0)) as [k7 ->].
  exists (k5 + k6 + k7 * 2 ^ 64 + k1 + k2 + k3 + k4 * 2 ^ 64 - h1).
  replace (m0) with (mid - 2 ^ 64 * m1) by lia. replace h0 with (hi - 2 ^ 64 * h1) by lia. rewrite E3, E4. ring.
Qed.
(** The magnitudes of signed numbers. *)
Lemma output_sign_ok a b : - 2 ^ 127 <= a < 2 ^ 127 -> - 2 ^ 127 <= b < 2 ^ 127 -> output_sign a b = (xorb (a <? 0) (b <? 0), Z.abs a, Z.abs b).
Proof.
  intros Ha Hb. unfold output_sign. destruct (Z.ltb_spec a 0), (Z.ltb_spec b 0); rewrite !u128_small by lia; repeat f_equal; lia.
Qed.
Lemma quot_sign a b c : 0 < c -> Z.quot (a * b) c = (if xorb (a <? 0) (b <? 0) then -1 else 1) * (Z.abs a * Z.abs b / c).
Proof.
  intros Hc. rewrite <- Z.abs_mul, <- (Z.abs_eq c) at 1 by lia. rewrite <- Z.quot_div_nonneg by lia.
  destruct (Z.ltb_spec a 0), (Z.ltb_spec b 0); cbn [xorb]; rewrite ?(Z.abs_eq (a * b)), ?(Z.abs_neq (a * b)), ?(Z.abs_eq c), ?Z.quot_opp_l by nia; try lia.
Qed.
Lemma Mul_ok a b : - 2 ^ 127 <= a < 2 ^ 127 -> - 2 ^ 127 <= b < 2 ^ 127 -> Mul a b = Some (i128 (Z.quot (a * b) ONE)).
Proof.
  intros Ha Hb. unfold Mul. rewrite output_sign_ok by done. rewrite Umul_ok by lia. f_equal. rewrite quot_sign by done. unfold ONE.
  destruct (xorb _ _); [|by rewrite i128_u128, Z.mul_1_l]. rewrite i128_u128. destruct (u128_repr (Z.abs a * Z.abs b / 2 ^ 64)) as [k ->].
  rewrite <- (i128_u128 (- _)). rewrite <- (i128_u128 (-1 * _)). f_equal. apply u128_eq. exists (- k). lia.
Qed.

(** ** Division *)

Lemma land_1 x : (Z.land x 1 =? 0) = (x mod 2 =? 0).
Proof. change 1 with (Z.ones 1). by rewrite Z.land_ones. Qed.
Lemma high_bit x : 0 <= x < 2 ^ 128 -> (Z.land x HP128_MASK_HI_BIT =? 0) = (x <? 2 ^ 127).
Proof.
  intros Hx. change HP128_MASK_HI_BIT with (2 ^ 127). assert (Z.testbit x 127 = negb (x <? 2 ^ 127)) as Ht.
  { rewrite Z.testbit_odd, Z.shiftr_div_pow2 by lia. destruct (Z.ltb_spec x (2 ^ 127)); [by rewrite Z.div_small by lia|]. by replace (x / 2 ^ 127) with 1 by (apply Z.div_unique with (x - 2 ^ 127); lia). }
  destruct (Z.ltb_spec x (2 ^ 127)).
  - apply Z.eqb_eq, Z.bits_inj'. intros n Hn. rewrite Z.land_spec, Z.bits_0, Z.pow2_bits_eqb by lia. destruct (Z.eqb_spec 127 n) as [<-|]; [by rewrite Ht|apply andb_false_r].
  - apply Z.eqb_neq. intros E. assert (Z.testbit (Z.land x (2 ^ 127)) 127 = false) as Hf by (rewrite E; apply Z.bits_0). rewrite Z.land_spec, Z.pow2_bits_true, Ht in Hf by lia. discriminate.
Qed.
Lemma pow_succ k : 0 <= k -> 2 ^ (k + 1) = 2 * 2 ^ k.
Proof. intros. rewrite Z.pow_add_r by lia. lia. Qed.
Lemma skip_trailing_ok n shift den : 0 < den ->
  exists k d, skip_trailing n shift den = (shift + k, d) /\ 0 <= k <= Z.of_nat n /\ den = d * 2 ^ k /\ 0 < d.
Proof.
  revert shift den. induction n as [|n IH]; intros shift den Hd; cbn [skip_trailing]; [exists 0, den; rewrite Z.add_0_r; split_and!; done || lia|].
  rewrite land_1. destruct (Z.eqb_spec (den mod 2) 0) as [E|_]; [|exists 0, den; rewrite Z.add_0_r; split_and!; done || lia].
  rewrite Z.shiftr_div_pow2 by lia. change (2 ^ 1) with 2. pose proof (Z.div_mod den 2 ltac:(lia)).
  destruct (IH (shift + 1) (den / 2) ltac:(lia)) as (k&d&->&Hk&Ed&Hd'). exists (k + 1), d. rewrite pow_succ by lia. split_and!; [f_equal; lia|lia|lia|lia|lia].
Qed.
Lemma skip_leading_ok n shift rem : 0 <= rem < 2 ^ 128 ->
  exists k, skip_leading n shift rem = (shift + k, rem * 2 ^ k) /\ 0 <= k <= Z.of_nat n /\ rem * 2 ^ k < 2 ^ 128 /\ (k = Z.of_nat n \/ 2 ^ 127 <= rem * 2 ^ k).
Proof.
  revert shift rem. induction n as [|n IH]; intros shift rem Hr; cbn [skip_leading]; [exists 0; rewrite Z.add_0_r, Z.mul_1_r; split_and!; [done|lia..|by left]|].
  rewrite high_bit by done. destruct (Z.ltb_spec rem (2 ^ 127)); [|exists 0; rewrite Z.add_0_r, Z.mul_1_r; split_and!; [done|lia..|by right]].
  rewrite Z.shiftl_mul_pow2, u128_small by lia. change (2 ^ 1) with 2. destruct (IH (shift + 1) (rem * 2) ltac:(lia)) as (k&->&Hk&Hlt&Hor).
  exists (k + 1). rewrite pow_succ by lia. replace (rem * (2 * 2 ^ k)) with (rem * 2 * 2 ^ k) by lia. split_and!; [f_equal; lia|lia|lia|done|]. destruct Hor; [left; lia|by right].
Qed.
(** With the high bit of the remainder set, only zero bits are cast off. *)
Lemma cast_off_ok n shift rem den : 0 < den <= 2 ^ 127 -> (n = O \/ 2 ^ 127 <= rem) ->
  exists k d, cast_off n shift rem den = (shift + k, d) /\ 0 <= k <= Z.of_nat n /\ den = d * 2 ^ k /\ 0 < d.
Proof.
  intros Hd Hor. assert (n = O \/ den <= rem) as Hor' by (destruct Hor; [by left|right; lia]). clear Hor. revert shift den Hd Hor'.
  induction n as [|n IH]; intros shift den Hd Hor; cbn [cast_off]; [exists 0, den; rewrite Z.add_0_r; split_and!; done || lia|].
  destruct Hor as [|Hle]; [done|]. rewrite (proj2 (Z.ltb_ge rem den)), orb_false_r by done. rewrite land_1.
  destruct (Z.eqb_spec (den mod 2) 0) as [E|_]; [|exists 0, den; rewrite Z.add_0_r; split_and!; done || lia].
  rewrite Z.shiftr_div_pow2 by lia. change (2 ^ 1) with 2. pose proof (Z.div_mod den 2 ltac:(lia)).
  destruct (IH (shift + 1) (den / 2) ltac:(lia) ltac:(right; lia)) as (k&d&->&Hk&Ed&Hd'). exists (k + 1), d. rewrite pow_succ by lia. split_and!; [f_equal; lia|lia|lia|lia|lia].
Qed.
(** What holds between the rounds: [a * 2^digis] is divided, with quotient [q]; the divisor
    is [den * 2^t], of which [shift] bits are not yet counted as digits. *)
Record div_inv (a b q rem den digis shift t : Z) : Prop := mkDivInv {
  di_b : den * 2 ^ t = b /\ 0 < den <= 2 ^ 127;
  di_shift : 0 <= shift <= t;
  di_digis : 0 <= digis /\ digis + shift <= DIGITS;
  di_rem : 0 <= rem < 2 ^ 128 /\ rem * 2 ^ (t - shift) < b;
  di_eq : a * 2 ^ digis = q * b + rem * 2 ^ (t - shift)
}.
Lemma div_round a b q rem den digis shift t : div_inv a b q rem den digis shift t -> digis < DIGITS ->
  exists shift' rem' den' k2, skip_leading (turns_left digis shift) shift rem = (shift + (shift' - shift - k2), rem') /\
    cast_off (turns_left digis (shift + (shift' - shift - k2))) (shift + (shift' - shift - k2)) rem' den = (shift', den') /\ 1 <= shift' /\ 0 < den' /\
    div_inv a b (q * 2 ^ shift' + rem' / den') (rem' mod den') den' (digis + shift') 0 (t + k2).
Proof.
  intros [[Hb Hd] Hs [Hg1 Hg2] [Hr Hlt] He] Hdig. unfold DIGITS in *. unfold turns_left.
  destruct (skip_leading_ok (Z.to_nat (DIGITS - (digis + shift))) shift rem Hr) as (k1&E1&Hk1&Hr1&Hor). unfold DIGITS in *.
  destruct (cast_off_ok (Z.to_nat (64 - (digis + (shift + k1)))) (shift + k1) (rem * 2 ^ k1) den Hd) as (k2&d&E2&Hk2&Ed&Hd'); [destruct Hor; [left; lia|by right]|].
  exists (shift + k1 + k2), (rem * 2 ^ k1), d, k2. replace (shift + k1 + k2 - shift - k2) with k1 by lia. split; [done|]. split; [by rewrite E2|].
  assert (2 ^ (t + k2) = 2 ^ t * 2 ^ k2) as Et by (rewrite Z.pow_add_r by lia; done). assert (d * 2 ^ (t + k2) = b) as Eb by (rewrite Et; nia).
  assert (0 < 2 ^ k2) by lia. assert (0 < 2 ^ t) by lia. split_and!.
  - destruct (decide (shift = 0)) as [->|]; [|lia]. rewrite Z.sub_0_r in Hlt. assert (rem < den) by nia. destruct (decide (k1 = 0)) as [->|]; [|lia]. exfalso. rewrite Z.pow_0_r, Z.mul_1_r in Hor. lia.
  - done.
  - pose proof (Z.mod_pos_bound (rem * 2 ^ k1) d Hd'). pose proof (Z.div_mod (rem * 2 ^ k1) d ltac:(lia)) as Edm. assert (d <= den) by nia. split; unfold DIGITS.
    + split; [done|lia].
    + lia.
    + lia.
    + rewrite Z.sub_0_r. split; [lia|]. rewrite <- Eb. nia.
    + rewrite Z.sub_0_r. set (r := rem * 2 ^ k1 mod d) in *. set (qq := rem * 2 ^ k1 / d) in *.
      assert (rem * 2 ^ (t - shift) * 2 ^ (shift + k1 + k2) = rem * 2 ^ k1 * 2 ^ (t + k2)) as Ep by (rewrite <- !Z.mul_assoc, <- !Z.pow_add_r by lia; do 2 f_equal; lia).
      rewrite (Z.pow_add_r 2 digis) by lia. rewrite Z.mul_assoc, He, Z.mul_add_distr_r, Ep, Edm, <- Eb. ring.
Qed.
Lemma div_rounds_ok fuel a b q rem den digis shift t : div_inv a b q rem den digis shift t -> DIGITS - digis <= Z.of_nat fuel ->
  exists q' digis' r, div_rounds fuel (u128 q) rem den digis shift = Some (u128 q', digis') /\ a * 2 ^ digis' = q' * b + r /\ 0 <= r < b /\ 0 <= digis' <= DIGITS /\ (digis' = DIGITS \/ r = 0).
Proof.
  revert q rem den digis shift t. induction fuel as [|fuel IH]; intros q rem den digis shift t Hi Hf; pose proof Hi as [[Hb Hd] Hs [Hg1 Hg2] [Hr Hlt] He]; unfold DIGITS in *; cbn [div_rounds].
  - rewrite (proj2 (Z.ltb_ge digis DIGITS)) by (unfold DIGITS; lia). cbn [andb]. exists q, digis, (rem * 2 ^ (t - shift)). unfold DIGITS. split_and!; [done|done|lia|lia|lia|lia|left; lia].
  - destruct (Z.ltb_spec digis DIGITS) as [Hdig|Hdig]; [|cbn [andb]; exists q, digis, (rem * 2 ^ (t - shift)); unfold DIGITS in *; split_and!; [done|done|lia..|left; lia]].
    destruct (Z.eqb_spec rem 0) as [->|Hne]; cbn [andb negb]; [exists q, digis, 0; unfold DIGITS in *; split_and!; [done|lia..|by right]|].
    destruct (div_round _ _ _ _ _ _ _ _ Hi Hdig) as (shift'&rem'&den'&k2&E1&E2&Hs1&Hd'&Hi'). rewrite E1, E2. rewrite (proj2 (Z.eqb_neq den' 0)) by lia. cbn [negb NS_ASSERT].
    assert (u128 (u128 (Z.shiftl (u128 q) shift') + rem' / den') = u128 (q * 2 ^ shift' + rem' / den')) as ->.
    { apply u128_eq. rewrite Z.shiftl_mul_pow2 by lia. destruct (u128_repr q) as [j1 ->]. destruct (u128_repr ((q + j1 * 2 ^ 128) * 2 ^ shift')) as [j2 ->]. exists (j1 * 2 ^ shift' + j2). ring. }
    apply (IH _ _ _ _ _ _ Hi'). unfold DIGITS in *. lia.
Qed.
Lemma Udiv_ok a b : 0 <= a <= 2 ^ 127 -> 0 < b <= 2 ^ 127 -> Udiv a b = Some (u128 (a * 2 ^ 64 / b)).
Proof.
  intros Ha Hb. unfold Udiv. rewrite (proj2 (Z.eqb_neq b 0)) by lia. cbn [negb NS_ASSERT]. pose proof (Z.mod_pos_bound a b ltac:(lia)) as Hm. rewrite (proj2 (Z.ltb_lt _ _)) by lia. cbn [NS_ASSERT].
  destruct (skip_trailing_ok (Z.to_nat DIGITS) 0 b ltac:(lia)) as (k&d&->&Hk&Ed&Hd). rewrite Z.add_0_l. pose proof (Z.div_mod a b ltac:(lia)). unfold DIGITS in *.
  assert (0 <= a / b < 2 ^ 128) as Hq by (split; [apply Z.div_pos; lia|apply Z.div_lt_upper_bound; nia]). rewrite <- (u128_small _ Hq) at 1.
  destruct (div_rounds_ok (Z.to_nat 64) a b (a / b) (a mod b) d 0 k k) as (q&digis&r&->&He&Hr&Hdg&Hor).
  - split; unfold DIGITS; rewrite ?Z.sub_diag, ?Z.pow_0_r; [split; [lia|nia]|lia|lia|lia|lia].
  - unfold DIGITS. lia.
  - unfold DIGITS in *. destruct (Z.ltb_spec digis 64).
    + destruct Hor as [Hx| ->]; [lia|]. f_equal. apply u128_eq. rewrite Z.shiftl_mul_pow2 by lia. destruct (u128_repr q) as [j ->].
      assert (a * 2 ^ 64 / b = q * 2 ^ (64 - digis)) as ->. { replace 64 with (digis + (64 - digis)) at 1 by lia. rewrite Z.pow_add_r, Z.mul_assoc, He by lia. replace ((q * b + 0) * 2 ^ (64 - digis)) with (q * 2 ^ (64 - digis) * b) by ring. by apply Z.div_mul; lia. }
      exists (j * 2 ^ (64 - digis)). ring.
    + replace digis with 64 in He by lia. do 2 f_equal. symmetry. rewrite He, Z.div_add_l by lia. rewrite (Z.div_small r b) by lia. lia.
Qed.
Lemma Div_ok a b : - 2 ^ 127 <= a < 2 ^ 127 -> - 2 ^ 127 <= b < 2 ^ 127 -> b <> 0 -> Div a b = Some (i128 (Z.quot (a * ONE) b)).
Proof.
  intros Ha Hb Hne. unfold Div. rewrite output_sign_ok by done. rewrite Udiv_ok by lia. f_equal. rewrite i128_u128. unfold ONE.
  assert (Z.quot (a * 2 ^ 64) b = (if xorb (a <? 0) (b <? 0) then -1 else 1) * (Z.abs a * 2 ^ 64 / Z.abs b)) as ->.
  { rewrite <- Z.quot_div_nonneg by lia. destruct (Z.ltb_spec a 0), (Z.ltb_spec b 0); cbn [xorb]; rewrite ?(Z.abs_eq a), ?(Z.abs_neq a), ?(Z.abs_eq b), ?(Z.abs_neq b) by lia; rewrite ?Z.mul_opp_l, ?Z.quot_opp_opp, ?Z.quot_opp_l, ?Z.quot_opp_r by lia; lia. }
  destruct (xorb _ _); [|by rewrite Z.mul_1_l]. set (x := Z.abs a * 2 ^ 64 / Z.abs b). rewrite <- (i128_u128 (- i128 x)), <- (i128_u128 (-1 * x)). f_equal. apply u128_eq.
  unfold i128, swrap. rewrite Z.mod_eq by lia. exists ((x + 2 ^ (128 - 1)) / 2 ^ 128). lia.
Qed.

(** ** Rounding *)

Lemma i64_neg x : - 2 ^ 63 < x < 2 ^ 63 -> i64 (- x) = - x.
Proof. intros. apply i64_small. lia. Qed.
Lemma Round_ok v : Z.abs v < 2 ^ 127 - 2 ^ 63 -> Round v = Z.sgn v * ((Z.abs v + 2 ^ 63) / 2 ^ 64).
Proof.
  intros Hv. unfold Round, add, neg, GetHigh. change (of_parts 0 (2 ^ 63)) with (2 ^ 63).
  assert (0 <= (Z.abs v + 2 ^ 63) / 2 ^ 64 < 2 ^ 63) as Hb by (split; [apply Z.div_pos; lia|apply Z.div_lt_upper_bound; lia]).
  destruct (Z.ltb_spec v 0).
  - rewrite (i128_small (- v)) by lia. replace (- v) with (Z.abs v) by lia. rewrite i128_small by lia. rewrite shiftr_64, (i64_small ((Z.abs v + 2 ^ 63) / 2 ^ 64)), i64_neg by lia. replace (Z.sgn v) with (-1) by lia. lia.
  - replace (v + 2 ^ 63) with (Z.abs v + 2 ^ 63) by lia. rewrite i128_small by lia. rewrite shiftr_64, i64_small by lia. destruct (decide (v = 0)) as [->|]; [done|]. replace (Z.sgn v) with 1 by lia. lia.
Qed.
Lemma Round_near v n : 0 <= n < 2 ^ 63 - 1 -> n * 2 ^ 64 - 2 ^ 63 <= Z.abs v < n * 2 ^ 64 + 2 ^ 63 -> Round v = Z.sgn v * n.
Proof. intros Hn Hv. rewrite Round_ok by lia. f_equal. symmetry. apply Z.div_unique with (Z.abs v + 2 ^ 63 - n * 2 ^ 64); lia. Qed.
Lemma of_int_ok n : - 2 ^ 63 <= n < 2 ^ 63 -> of_int n = n * 2 ^ 64.
Proof. intros. unfold of_int. rewrite shiftl_64. apply i128_small. lia. Qed.
Lemma GetInt_ok v : Z.abs v < 2 ^ 127 -> GetInt v = Z.quot v ONE.
Proof.
  intros Hv. unfold GetInt, ONE. assert (0 <= Z.abs v / 2 ^ 64 < 2 ^ 63) as Hb by (split; [apply Z.div_pos; lia|apply Z.div_lt_upper_bound; lia]).
  destruct (Z.ltb_spec v 0).
  - replace (- v) with (Z.abs v) by lia. rewrite u128_small, shiftr_64 by lia. rewrite (i64_small (Z.abs v / 2 ^ 64)), i64_neg by lia. rewrite <- Z.quot_div_nonneg by lia. rewrite <- Z.quot_opp_l by lia. f_equal. lia.
  - rewrite u128_small, shiftr_64 by lia. replace (Z.abs v) with v in Hb by lia. rewrite i64_small by lia. symmetry. apply Z.quot_div_nonneg; lia.
Qed.

(** ** Inverses *)

(** The inverse of [v] is [2^128 / v], rounded up. *)
Definition inverse (v : Z) : Z := (2 ^ 128 + (v - 1)) / v.
Lemma inverse_spec v : 1 < v -> exists e, inverse v * v = 2 ^ 128 + e /\ 0 <= e < v.
Proof.
  intros Hv. unfold inverse. pose proof (Z.div_mod (2 ^ 128 + (v - 1)) v ltac:(lia)) as E. pose proof (Z.mod_pos_bound (2 ^ 128 + (v - 1)) v ltac:(lia)).
  exists (v - 1 - (2 ^ 128 + (v - 1)) mod v). lia.
Qed.
Lemma inverse_range v : 1 < v < 2 ^ 63 -> 0 < inverse v <= 2 ^ 127.
Proof. intros Hv. destruct (inverse_spec v ltac:(lia)) as (e&E&He). nia. Qed.
(** Multiplying an integer by an inverse. *)
Lemma UmulByInvert_int n b : 0 <= n < 2 ^ 63 -> 0 <= b <= 2 ^ 127 -> UmulByInvert (n * 2 ^ 64) b = n * b / 2 ^ 64.
Proof.
  intros Hn Hb. unfold UmulByInvert. rewrite !mask_lo, !shiftr_64. rewrite Z.div_mul, Z.mod_mul by lia. rewrite Z.mul_0_l. set (bh := b / 2 ^ 64). set (bl := b mod 2 ^ 64).
  assert (b = bh * 2 ^ 64 + bl) as Eb by (unfold bh, bl; pose proof (Z.div_mod b (2 ^ 64)); lia). assert (0 <= bl < 2 ^ 64) by (apply Z.mod_pos_bound; lia).
  assert (0 <= bh <= 2 ^ 63) by (split; [apply Z.div_pos; lia|]; apply Z.div_le_upper_bound; lia). change (u128 0) with 0. rewrite Z.add_0_r.
  rewrite (u128_small (n * bl)) by nia. rewrite (u128_small (n * bl)) by nia. rewrite (u128_small (n * bh)) by nia.
  assert (0 <= n * bl / 2 ^ 64 < 2 ^ 63) by (split; [apply Z.div_pos; nia|apply Z.div_lt_upper_bound; nia]). rewrite u128_small by nia.
  replace (n * b) with (n * bl + n * bh * 2 ^ 64) by (rewrite Eb; ring). rewrite Z.div_add by lia. lia.
Qed.
Lemma MulByInvert_int n b : Z.abs n < 2 ^ 63 -> 0 <= b <= 2 ^ 127 -> MulByInvert (n * 2 ^ 64) (i128 b) = i128 (Z.sgn n * (Z.abs n * b / 2 ^ 64)).
Proof.
  intros Hn Hb. unfold MulByInvert. assert (u128 (i128 b) = b) as ->. { rewrite <- (u128_small b) by lia. apply u128_eq. unfold i128, swrap. rewrite Z.mod_eq by lia. rewrite (u128_small b) by lia. exists (- ((b + 2 ^ (128 - 1)) / 2 ^ 128)). lia. }
  replace (n * 2 ^ 64 <? 0) with (n <? 0) by (destruct (Z.ltb_spec n 0); symmetry; [apply Z.ltb_lt|apply Z.ltb_ge]; lia).
  destruct (Z.ltb_spec n 0).
  - replace (- (n * 2 ^ 64)) with (Z.abs n * 2 ^ 64) by lia. rewrite (u128_small (Z.abs n * 2 ^ 64)) by lia. rewrite UmulByInvert_int by lia. rewrite i128_u128. f_equal. lia.
  - rewrite u128_small by lia. replace (n * 2 ^ 64) with (Z.abs n * 2 ^ 64) by lia. rewrite UmulByInvert_int by lia. destruct (decide (n = 0)) as [->|]; [done|]. f_equal. lia.
Qed.
Lemma Invert_ok v : 1 < v < 2 ^ 63 -> Invert v = Some (i128 (inverse v)).
Proof.
  intros Hv. unfold Invert. rewrite (proj2 (Z.ltb_lt 1 v)) by lia. cbn [NS_ASSERT]. change (u128 (Z.shiftl 1 64)) with (2 ^ 64). rewrite Udiv_ok by lia. change (2 ^ 64 * 2 ^ 64) with (2 ^ 128).
  set (f := 2 ^ 128 / v). assert (0 <= f <= 2 ^ 127) as Hf by (split; [apply Z.div_pos; lia|]; apply Z.div_le_upper_bound; lia). pose proof (Z.div_mod (2 ^ 128) v ltac:(lia)) as Ed. pose proof (Z.mod_pos_bound (2 ^ 128) v ltac:(lia)) as Hm. fold f in Ed.
  rewrite i128_u128. assert (of_parts (i64 v) 0 = v * 2 ^ 64) as ->. { unfold of_parts. rewrite Z.lor_0_r, i64_small, shiftl_64 by lia. apply i128_small. lia. }
  rewrite MulByInvert_int by lia. replace (Z.sgn v) with 1 by lia. rewrite Z.mul_1_l, (Z.abs_eq v) by lia.
  assert (0 <= v * f / 2 ^ 64 <= 2 ^ 64) as Hvf by (split; [apply Z.div_pos; nia|apply Z.div_le_upper_bound; lia]). rewrite i128_small by lia. unfold GetHigh. rewrite shiftr_64.
  destruct (decide (2 ^ 128 mod v = 0)) as [E0|Hne].
  - assert (v * f = 2 ^ 128) as -> by lia. change (i64 (2 ^ 128 / 2 ^ 64 / 2 ^ 64) =? 1) with true. cbv iota. do 2 f_equal. unfold inverse. replace (2 ^ 128 + (v - 1)) with (v - 1 + f * v) by lia. rewrite Z.div_add, Z.div_small by lia. lia.
  - assert (v * f / 2 ^ 64 / 2 ^ 64 = 0) as ->. { rewrite Z.div_div by lia. apply Z.div_small. nia. } change (i64 0 =? 1) with false. cbv iota. f_equal.
    assert (inverse v = f + 1) as ->. { unfold inverse. symmetry. apply Z.div_unique with (2 ^ 128 mod v - 1); lia. }
    rewrite <- (i128_u128 (i128 f + 1)), <- (i128_u128 (f + 1)). f_equal. apply u128_eq. unfold i128, swrap. rewrite Z.mod_eq by lia. exists (- ((f + 2 ^ (128 - 1)) / 2 ^ 128)). lia.
Qed.
(** The product of an integer and an inverse, times the number: near the integer. *)
Lemma inverse_near n v : 0 <= n < 2 ^ 63 -> 1 < v < 2 ^ 63 -> n * 2 ^ 64 - v < n * inverse v / 2 ^ 64 * v <= n * 2 ^ 64 + 2 ^ 62.
Proof.
  intros Hn Hv. destruct (inverse_spec v ltac:(lia)) as (e&E&He). set (x := n * inverse v / 2 ^ 64). pose proof (Z.div_mod (n * inverse v) (2 ^ 64) ltac:(lia)) as Ed. fold x in Ed.
  pose proof (Z.mod_pos_bound (n * inverse v) (2 ^ 64) ltac:(lia)) as Hm. set (m := n * inverse v mod 2 ^ 64) in *.
  assert (2 ^ 64 * x * v = n * 2 ^ 128 + n * e - m * v) as Ex by (replace (2 ^ 64 * x) with (n * inverse v - m) by lia; rewrite Z.mul_sub_distr_r, <- Z.mul_assoc, E; ring).
  assert (0 <= n * e <= 2 ^ 126) by nia. assert (0 <= m * v < 2 ^ 64 * v) by nia. nia.
Qed.
(** Dividing by multiplying with an inverse is exact on integers: [MulByInvert] with the
    result of [Invert(v)] has the integer part of the quotient, for every 63-bit number and
    every 63-bit divisor above 1. *)
Theorem inverse_divides n v : Z.abs n < 2 ^ 63 -> 1 < v < 2 ^ 63 -> exists i, Invert v = Some i /\ GetInt (MulByInvert (of_int n) i) = Z.quot n v.
Proof.
  intros Hn Hv. exists (i128 (inverse v)). split; [by apply Invert_ok|]. pose proof (inverse_range v Hv). rewrite of_int_ok, MulByInvert_int by lia.
  set (x := Z.abs n * inverse v / 2 ^ 64). pose proof (inverse_near (Z.abs n) v ltac:(lia) Hv) as Hx. fold x in Hx. assert (0 <= x) by (apply Z.div_pos; nia). assert (x < 2 ^ 127) by nia.
  rewrite i128_small by nia. rewrite GetInt_ok by nia. unfold ONE.
  assert (x / 2 ^ 64 = Z.abs n / v) as Eq.
  { unfold x. rewrite Z.div_div by lia. change (2 ^ 64 * 2 ^ 64) with (2 ^ 128). destruct (inverse_spec v ltac:(lia)) as (e&E&He). pose proof (Z.div_mod (Z.abs n) v ltac:(lia)) as Ed. pose proof (Z.mod_pos_bound (Z.abs n) v ltac:(lia)).
    set (q := Z.abs n / v) in *. set (r := Z.abs n mod v) in *. assert (0 <= Z.abs n * e < 2 ^ 126) by nia. symmetry. apply Z.div_unique with (Z.abs n * inverse v - 2 ^ 128 * q); [|lia]. left.
    assert (0 <= (Z.abs n * inverse v - 2 ^ 128 * q) * v < 2 ^ 128 * v); [|nia]. replace ((Z.abs n * inverse v - 2 ^ 128 * q) * v) with (2 ^ 128 * r + Z.abs n * e); [nia|]. rewrite Z.mul_sub_distr_r, <- Z.mul_assoc, E, Ed at 1. nia. }
  destruct (Z.lt_trichotomy n 0) as [Hneg|[->|Hpos]]; [|by subst x|].
  - replace (Z.sgn n) with (-1) by lia. replace (-1 * x) with (- x) by lia. rewrite Z.quot_opp_l, Z.quot_div_nonneg, Eq by lia. rewrite <- (Z.opp_involutive n) at 2. rewrite Z.quot_opp_l by lia. rewrite <- Z.quot_div_nonneg by lia. f_equal. f_equal. lia.
  - replace (Z.sgn n) with 1 by lia. rewrite Z.mul_1_l, Z.quot_div_nonneg, Eq by lia. rewrite <- Z.quot_div_nonneg by lia. f_equal. lia.
Qed.
(** C34: Fixed point arithmetic is exact: whenever the product or the quotient of two
    128-bit operands, truncated towards zero after 64 binary digits, is a 128-bit number
    again, the multiplication of halves and the division in rounds return just that.
    Nothing is claimed of results that do not fit: the code means to abort at some of
    them and does not (see [overflow_unnoticed]). *)
Theorem fixed_point_exact a b : - 2 ^ 127 <= a < 2 ^ 127 -> - 2 ^ 127 <= b < 2 ^ 127 ->
  (- 2 ^ 127 <= Z.quot (a * b) ONE < 2 ^ 127 -> Mul a b = Some (Z.quot (a * b) ONE)) /\
  (b <> 0 -> - 2 ^ 127 <= Z.quot (a * ONE) b < 2 ^ 127 -> Div a b = Some (Z.quot (a * ONE) b)).
Proof. intros Ha Hb. split; [intros Hq; rewrite Mul_ok by done|intros Hne Hq; rewrite Div_ok by done]; by rewrite i128_small. Qed.

Lemma fixed_point_exact_witness : Mul (3 * 2 ^ 64) (- 2 ^ 63) = Some (- (3 * 2 ^ 63)) /\ Div (2 ^ 64) (3 * 2 ^ 64) = Some (2 ^ 64 / 3).
Proof.
  destruct (fixed_point_exact (3 * 2 ^ 64) (- 2 ^ 63)) as [E1 _]; [split; [discriminate|reflexivity]|split; [discriminate|reflexivity]|].
  destruct (fixed_point_exact (2 ^ 64) (3 * 2 ^ 64)) as [_ E2]; [split; [discriminate|reflexivity]|split; [discriminate|reflexivity]|].
  split; [apply E1; vm_compute; split; [discriminate|reflexivity]|apply E2; [discriminate|vm_compute; split; [discriminate|reflexivity]]].
Defined.
Lemma inverse_divides_witness : exists i, Invert 1000 = Some i /\ GetInt (MulByInvert (of_int (-123456)) i) = -123.
Proof. apply (inverse_divides (-123456) 1000); [reflexivity|split; reflexivity]. Defined.
(** The check for overflow of a multiplication never fires: 2^40 * 2^40 is 0. *)
Lemma overflow_unnoticed : Mul (of_int (2 ^ 40)) (of_int (2 ^ 40)) = Some 0.
Proof. vm_compute. reflexivity. Qed.
End Int64x64Props.
