(* ===== verification/NsTime.v ===== *)
(** * Simulation time and its units (src/core/model/nstime.h, time.cc) and transmission
    times (src/network/utils/data-rate.cc)

    A [Time] counts units of the resolution; conversions to and from other units go through
    fixed point numbers. *)

From S2P Require Import Prelude Int64x64.

Module NsTime.
Import Int64x64 Int64x64Props.

(** ** Units *)

Inductive Unit := Y | D | H | MIN | S | MS | US | NS | PS | FS.
#[export] Instance Unit_eq_dec : EqDecision Unit.
Proof. solve_decision. Defined.
Definition UNIT_POWER (u : Unit) : Z := match u with Y | D | H => 17 | MIN => 16 | S => 15 | MS => 12 | US => 9 | NS => 6 | PS => 3 | FS => 0 end.
Definition UNIT_COEFF (u : Unit) : Z := match u with Y => 315360 | D => 864 | H => 36 | MIN => 6 | _ => 1 end.
Definition all_units : list Unit := [Y; D; H; MIN; S; MS; US; NS; PS; FS].

Record Information := mkInfo { toMul : bool; fromMul : bool; factor : Z; timeTo : Z; timeFrom : Z; isValid : bool }.

(** The ratio of two units as [SetResolution] computes it. It computes with doubles; the
    numbers below 2^63 that occur are exact as doubles ([factors_are_doubles]). *)
Definition quotient (unit i : Unit) : option Z :=
  if UNIT_COEFF unit <? UNIT_COEFF i then
    let q := UNIT_COEFF i / UNIT_COEFF unit in assert* q * UNIT_COEFF unit =? UNIT_COEFF i in Some q
  else if UNIT_COEFF i <? UNIT_COEFF unit then
    let q := UNIT_COEFF unit / UNIT_COEFF i in assert* q * UNIT_COEFF i =? UNIT_COEFF unit in Some q
  else Some 1.
Definition ratio (unit i : Unit) (q : Z) : Z := 10 ^ Z.abs (UNIT_POWER i - UNIT_POWER unit) * q.
(** [realFactor > 1], the fractions multiplied out. *)
Definition real_above_1 (unit i : Unit) : bool :=
  10 ^ UNIT_POWER unit * UNIT_COEFF unit <? 10 ^ UNIT_POWER i * UNIT_COEFF i.
(** The entry for unit [i] when the resolution is [unit]. *)
Definition SetResolution (unit i : Unit) : option Information :=
  let shift := UNIT_POWER i - UNIT_POWER unit in
  let* q := quotient unit i in
  if 2 ^ 63 <? ratio unit i q then Some (mkInfo false false 0 0 0 false)
  else
    let f := ratio unit i q in
    if (shift =? 0) && (q =? 1) then Some (mkInfo true true f (of_int 1) (of_int 1) true)
    else if real_above_1 unit i then let* inv := Invert f in Some (mkInfo false true f inv (of_int f) true)
    else assert* real_above_1 i unit in let* inv := Invert f in Some (mkInfo true false f (of_int f) inv true).

(** ** Conversions *)

Section Resolution.
Context (resolution : Unit).

(** The argument is a 64-bit unsigned number, the result a 64-bit signed one. *)
Definition FromInteger (value : Z) (unit : Unit) : option Z :=
  let* info := SetResolution resolution unit in
  assert* isValid info in
  Some (i64 (if fromMul info then u64 (value * factor info) else value / factor info)).
Definition From (value : Z) (unit : Unit) : option Z :=
  let* info := SetResolution resolution unit in
  assert* isValid info in
  let* retval := if fromMul info then Mul value (timeFrom info) else Some (MulByInvert value (timeFrom info)) in
  Some (Round retval).
Definition ToInteger (m_data : Z) (unit : Unit) : option Z :=
  let* info := SetResolution resolution unit in
  assert* isValid info in
  Some (if toMul info then i64 (m_data * factor info) else Z.quot m_data (factor info)).
Definition To (m_data : Z) (unit : Unit) : option Z :=
  let* info := SetResolution resolution unit in
  assert* isValid info in
  if toMul info then Mul (of_int m_data) (timeTo info) else Some (MulByInvert (of_int m_data) (timeTo info)).
Definition RoundTo (m_data : Z) (unit : Unit) : option Z :=
  let* x := To m_data unit in From (of_int (Round x)) unit.

(** ** Transmission times *)

Definition Seconds (value : Z) : option Z := From value S.
Definition CalculateBitsTxTime (bps bits : Z) : option Z :=
  let* q := Div (of_int bits) (of_int bps) in Seconds q.
Definition CalculateBytesTxTime (bps bytes : Z) : option Z := CalculateBitsTxTime bps (u32 (bytes * 8)).
End Resolution.

(** ** The table of factors *)

Definition unit_value (u : Unit) : Z := 10 ^ UNIT_POWER u * UNIT_COEFF u.
(** The entries of the table: how the factor relates the two units. *)
Inductive entry (unit i : Unit) : Information -> Prop :=
  | entry_invalid : 2 ^ 63 < Z.max (unit_value i) (unit_value unit) / Z.min (unit_value i) (unit_value unit) -> entry unit i (mkInfo false false 0 0 0 false)
  | entry_same : unit_value i = unit_value unit -> entry unit i (mkInfo true true 1 (of_int 1) (of_int 1) true)
  | entry_coarse f : 1 < f < 2 ^ 62 -> unit_value i = f * unit_value unit -> entry unit i (mkInfo false true f (i128 (inverse f)) (of_int f) true)
  | entry_fine f : 1 < f < 2 ^ 62 -> unit_value unit = f * unit_value i -> entry unit i (mkInfo true false f (of_int f) (i128 (inverse f)) true).
Definition entry_of (unit i : Unit) : Information :=
  let a := unit_value i in let b := unit_value unit in
  if a =? b then mkInfo true true 1 (of_int 1) (of_int 1) true
  else if b <? a then
    let f := a / b in if 2 ^ 63 <? f then mkInfo false false 0 0 0 false else mkInfo false true f (i128 (inverse f)) (of_int f) true
  else
    let f := b / a in if 2 ^ 63 <? f then mkInfo false false 0 0 0 false else mkInfo true false f (of_int f) (i128 (inverse f)) true.
Lemma SetResolution_eq unit i : SetResolution unit i = Some (entry_of unit i).
Proof. destruct unit, i; vm_compute; reflexivity. Qed.
(** Units are multiples of smaller units. *)
Definition multiple (a b : Z) : bool := (a / b * b =? a) && (1 <? a / b) && ((a / b <? 2 ^ 62) || (2 ^ 63 <? a / b)).
Lemma units_multiples unit i : let a := unit_value i in let b := unit_value unit in
  if a =? b then True else if b <? a then multiple a b = true else multiple b a = true.
Proof. destruct unit, i; vm_compute; exact I || reflexivity. Qed.
Lemma SetResolution_ok unit i : exists info, SetResolution unit i = Some info /\ entry unit i info.
Proof.
  exists (entry_of unit i). split; [apply SetResolution_eq|]. pose proof (units_multiples unit i) as Hm. cbv zeta in Hm. unfold entry_of. cbv zeta.
  assert (0 < unit_value i /\ 0 < unit_value unit) as [Hi Hu] by (destruct unit, i; split; reflexivity).
  destruct (Z.eqb_spec (unit_value i) (unit_value unit)) as [E|Hne]; [by apply entry_same|]. destruct (Z.ltb_spec (unit_value unit) (unit_value i)) as [Hlt|Hge].
  - unfold multiple in Hm. bool_prop. destruct (Z.ltb_spec (2 ^ 63) (unit_value i / unit_value unit)) as [Hbig|Hsm].
    + apply entry_invalid. by rewrite Z.max_l, Z.min_r by lia.
    + apply entry_coarse; [|lia]. split; [done|]. match goal with Ho : (_ || _)%bool = true |- _ => apply orb_true_iff in Ho as [Ho|Ho] end; bool_prop; lia.
  - unfold multiple in Hm. bool_prop. destruct (Z.ltb_spec (2 ^ 63) (unit_value unit / unit_value i)) as [Hbig|Hsm].
    + apply entry_invalid. by rewrite Z.max_r, Z.min_l by lia.
    + apply entry_fine; [|lia]. split; [done|]. match goal with Ho : (_ || _)%bool = true |- _ => apply orb_true_iff in Ho as [Ho|Ho] end; bool_prop; lia.
Qed.
(** A factor is a number of at most 53 bits times a power of two. *)
Lemma factors_are_doubles : forallb (fun unit => forallb (fun i => match SetResolution unit i with
  | Some info => negb (isValid info) || (factor info / 2 ^ 12 * 2 ^ 12 =? factor info) && (factor info <? 2 ^ 65) || (factor info <? 2 ^ 53)
  | None => false end) all_units) all_units = true.
Proof. vm_compute. reflexivity. Qed.
End NsTime.

(** * Conversions between units of time lose nothing, and the time a packet takes on the
    wire is the nearest one (src/core/model/nstime.h, src/network/utils/data-rate.cc) *)

Module NsTimeProps.
Import Int64x64 Int64x64Props NsTime.

(** ** Multiplying by factors and by their inverses *)

Lemma Mul_factor x f : Z.abs x < 2 ^ 127 -> 0 <= f < 2 ^ 63 -> Z.abs (x * f) < 2 ^ 127 -> Mul x (of_int f) = Some (x * f).
Proof.
  intros Hx Hf Hxf. rewrite of_int_ok, Mul_ok by lia. unfold ONE. f_equal. replace (x * (f * 2 ^ 64)) with (x * f * 2 ^ 64) by ring.
  rewrite Z.quot_mul by lia. apply i128_small. lia.
Qed.
Lemma Round_int n : Z.abs n < 2 ^ 63 - 1 -> Round (n * 2 ^ 64) = n.
Proof. intros Hn. rewrite (Round_near _ (Z.abs n)) by lia. lia. Qed.
Lemma abs_sgn n x : 0 <= x -> n <> 0 -> Z.abs (Z.sgn n * x) = x.
Proof. intros. destruct (Z.sgn_spec n) as [[? ->]|[[? ->]|[? ->]]]; lia. Qed.
(** An integer times an inverse, times the factor again, is within half of the integer. *)
Lemma inverse_back t f : Z.abs t < 2 ^ 62 -> 1 < f < 2 ^ 62 ->
  exists x, MulByInvert (of_int t) (i128 (inverse f)) = x /\ Z.abs x < 2 ^ 127 /\ Z.abs (x * f) < 2 ^ 127 /\ Round (x * f) = t.
Proof.
  intros Ht Hf. pose proof (inverse_range f ltac:(lia)). rewrite of_int_ok, MulByInvert_int by lia.
  set (x := Z.abs t * inverse f / 2 ^ 64). assert (0 <= x) as Hx0 by (apply Z.div_pos; nia). pose proof (inverse_near (Z.abs t) f ltac:(lia) ltac:(lia)) as Hx. fold x in Hx.
  eexists. split; [reflexivity|]. destruct (decide (t = 0)) as [->|Hne]; [repeat split|].
  assert (x < 2 ^ 126) by nia. pose proof (abs_sgn t x Hx0 Hne) as Ha. rewrite i128_small by lia. split_and!; [lia|rewrite Z.abs_mul, Ha; lia|].
  rewrite (Round_near _ (Z.abs t)); [|lia|rewrite Z.abs_mul, Ha; lia]. rewrite !Z.sgn_mul. destruct (decide (x = 0)) as [->|]; [lia|].
  rewrite (Z.sgn_pos x), (Z.sgn_pos f) by lia. lia.
Qed.
(** A multiple of the factor times the inverse is the integer. *)
Lemma inverse_multiple t f : 1 < f < 2 ^ 62 -> Z.abs (t * f) < 2 ^ 63 -> MulByInvert (of_int (t * f)) (i128 (inverse f)) = t * 2 ^ 64.
Proof.
  intros Hf Ht. pose proof (inverse_range f ltac:(lia)). rewrite of_int_ok, MulByInvert_int by lia. destruct (inverse_spec f ltac:(lia)) as (e&E&He).
  rewrite Z.abs_mul in Ht |- *. rewrite (Z.abs_eq f) in Ht |- * by lia. replace (Z.abs t * f * inverse f) with (Z.abs t * e + Z.abs t * 2 ^ 64 * 2 ^ 64) by (transitivity (Z.abs t * (inverse f * f)); [rewrite E|]; ring).
  rewrite Z.div_add, (Z.div_small (Z.abs t * e)) by nia. rewrite Z.add_0_l, Z.sgn_mul, (Z.sgn_pos f) by lia. rewrite i128_small by nia. nia.
Qed.

(** ** Converting to a unit and back *)

(** The times whose value in the unit is a 64-bit number. *)
Definition fits (resolution unit : Unit) (t : Z) : Prop :=
  Z.abs t < 2 ^ 62 /\ Z.abs t * unit_value resolution < 2 ^ 63 * unit_value unit.
Definition valid (resolution unit : Unit) : bool :=
  match SetResolution resolution unit with Some info => isValid info | None => false end.
Lemma unit_value_pos u : 0 < unit_value u.
Proof. destruct u; reflexivity. Qed.

Lemma To_From_ok resolution unit t : valid resolution unit = true -> fits resolution unit t ->
  exists x, To resolution t unit = Some x /\ From resolution x unit = Some t.
Proof.
  intros Hv [Ht Hf]. unfold valid, To, From in *. destruct (SetResolution_ok resolution unit) as (info&E&Hi). rewrite E in *. pose proof (unit_value_pos unit). pose proof (unit_value_pos resolution).
  destruct Hi as [|Eq|f Hr Eq|f Hr Eq]; [discriminate|..]; cbn [isValid toMul fromMul timeTo timeFrom NS_ASSERT].
  - rewrite Mul_factor, Z.mul_1_r by (rewrite ?of_int_ok; lia). eexists. split; [reflexivity|]. rewrite Mul_factor, Z.mul_1_r by (rewrite ?of_int_ok; lia).
    rewrite of_int_ok, Round_int by lia. done.
  - destruct (inverse_back t f Ht Hr) as (x&->&Hx1&Hx2&Hx3). eexists. split; [reflexivity|]. rewrite Mul_factor by lia. by rewrite Hx3.
  - assert (Z.abs (t * f) < 2 ^ 63) by nia. rewrite Mul_factor by (rewrite ?of_int_ok; lia). rewrite of_int_ok by lia. replace (t * 2 ^ 64 * f) with (t * f * 2 ^ 64) by ring.
    eexists. split; [reflexivity|]. rewrite <- of_int_ok, inverse_multiple by lia. by rewrite Round_int by lia.
Qed.

(** C32: A time converted to any unit the resolution can express, as a fixed point number,
    and back is the same time. This holds for coarser units, where the conversion
    multiplies by a rounded inverse, and for finer ones, for times below 2^62 units of the
    resolution whose value in the unit has 64 bits. *)
Theorem time_unit_round_trip resolution unit t : valid resolution unit = true -> fits resolution unit t ->
  (let* x := To resolution t unit in From resolution x unit) = Some t.
Proof. intros Hv Hf. destruct (To_From_ok resolution unit t Hv Hf) as (x&->&->). reflexivity. Qed.
Lemma time_unit_round_trip_witness : (let* x := To NS (-1234567890123456789) S in From NS x S) = Some (-1234567890123456789).
Proof. apply (time_unit_round_trip NS S (-1234567890123456789)); [vm_compute; reflexivity|split; vm_compute; reflexivity]. Defined.

(** ** Whole numbers of a unit *)

(** Whole numbers of a coarser unit come back. *)
Lemma integer_round_trip resolution unit f v : unit_value unit = f * unit_value resolution -> 0 < f -> 0 <= v -> v * f < 2 ^ 63 -> valid resolution unit = true ->
  FromInteger resolution v unit = Some (v * f) /\ ToInteger resolution (v * f) unit = Some v.
Proof.
  intros Eu Hf Hv Hb Hval. unfold valid, FromInteger, ToInteger in *. destruct (SetResolution_ok resolution unit) as (info&E&Hi). rewrite E in *. pose proof (unit_value_pos unit). pose proof (unit_value_pos resolution).
  destruct Hi as [|Eq|g Hr Eq|g Hr Eq]; [discriminate|..]; cbn [isValid toMul fromMul factor NS_ASSERT].
  - assert (f = 1) as -> by nia. rewrite !Z.mul_1_r in *. rewrite u64_small, i64_small by lia. done.
  - assert (g = f) as -> by nia. rewrite u64_small, i64_small by nia. rewrite Z.quot_mul by lia. done.
  - exfalso. nia.
Qed.
(** A negative number of a finer unit becomes a large positive time: the division is
    unsigned. One thousand picoseconds less than nothing is 18446744073709550 ns. *)
Lemma negative_picoseconds : FromInteger NS (u64 (-1000)) PS = Some 18446744073709550.
Proof. vm_compute. reflexivity. Qed.
(** The fixed point conversion of the same number is right. *)
Lemma negative_picoseconds_from : From NS (of_int (-1000)) PS = Some (-1).
Proof. vm_compute. reflexivity. Qed.

(** ** Transmission times *)

Lemma Seconds_ok resolution f q : unit_value S = f * unit_value resolution -> 0 < f -> 0 <= q -> q * f < 2 ^ 126 ->
  Seconds resolution q = Some (Round (q * f)).
Proof.
  intros Eu Hf Hq Hb. unfold Seconds, From. destruct (SetResolution_ok resolution S) as (info&E&Hi). rewrite E. pose proof (unit_value_pos resolution).
  destruct Hi as [Hbig|Eq|g Hr Eq|g Hr Eq]; cbn [isValid fromMul timeFrom NS_ASSERT].
  - exfalso. destruct resolution; vm_compute in Hbig; discriminate.
  - assert (f = 1) as -> by nia. by rewrite Mul_factor, !Z.mul_1_r by lia.
  - assert (g = f) as -> by nia. by rewrite Mul_factor by nia.
  - exfalso. nia.
Qed.
Lemma tx_time_ok resolution f bps bytes : unit_value S = f * unit_value resolution -> 0 < f -> 0 < bps < 2 ^ 63 -> 0 <= bytes < 2 ^ 29 -> bytes * 8 * f < 2 ^ 61 * bps ->
  exists tx, CalculateBytesTxTime resolution bps bytes = Some tx /\ 0 <= tx /\ 2 ^ 64 * Z.abs (tx * bps - bytes * 8 * f) <= (2 ^ 63 + f) * bps.
Proof.
  intros Eu Hf Hb Hy Hbig. unfold CalculateBytesTxTime, CalculateBitsTxTime. rewrite u32_small by lia. set (bits := bytes * 8) in *. assert (0 <= bits < 2 ^ 32) by lia.
  rewrite !of_int_ok, Div_ok by lia. unfold ONE. set (q := bits * 2 ^ 64 / bps). assert (Z.quot (bits * 2 ^ 64 * 2 ^ 64) (bps * 2 ^ 64) = q) as -> by (rewrite Z.quot_mul_cancel_r, Z.quot_div_nonneg by lia; done).
  pose proof (Z.div_mod (bits * 2 ^ 64) bps ltac:(lia)) as Eq. fold q in Eq. pose proof (Z.mod_pos_bound (bits * 2 ^ 64) bps ltac:(lia)) as Hr. set (r := (bits * 2 ^ 64) mod bps) in *.
  assert (0 <= q < 2 ^ 96) as Hq by (split; [apply Z.div_pos; lia|apply Z.div_lt_upper_bound; lia]). rewrite i128_small by lia. assert (q * f < 2 ^ 125) as Hqf by nia.
  rewrite (Seconds_ok _ f) by (done || lia). eexists. split; [reflexivity|]. assert (0 <= q * f) by nia. rewrite Round_ok by lia. rewrite Z.abs_eq by lia.
  pose proof (Z.div_mod (q * f + 2 ^ 63) (2 ^ 64) ltac:(lia)) as Et. pose proof (Z.mod_pos_bound (q * f + 2 ^ 63) (2 ^ 64) ltac:(lia)) as Hm.
  set (t := (q * f + 2 ^ 63) / 2 ^ 64) in *. set (m := (q * f + 2 ^ 63) mod 2 ^ 64) in *. assert (0 <= t) by nia.
  assert (Z.sgn (q * f) * t = t) as ->. { destruct (decide (q * f = 0)) as [E0|]; [|rewrite Z.sgn_pos by lia; lia]. rewrite E0 in Et |- *. cbn [Z.sgn]. nia. }
  split; [done|]. assert (2 ^ 64 * (t * bps - bits * f) = (2 ^ 63 - m) * bps - r * f) as Ed by nia. assert (2 ^ 64 * Z.abs (t * bps - bits * f) = Z.abs ((2 ^ 63 - m) * bps - r * f)) as -> by lia.
  assert (0 <= r * f <= f * bps) by nia. assert (- 2 ^ 63 * bps <= (2 ^ 63 - m) * bps <= 2 ^ 63 * bps) by nia. lia.
Qed.

(** C33: The time a packet takes on the wire is the exact one rounded to the nearest unit
    of the resolution: for every bit rate and packet size, the time times the rate differs
    from the bits (in units of the resolution) by at most half a unit plus the error of
    the fixed point quotient, f/2^64 units for a resolution of f units per second. *)
Theorem tx_time_nearest resolution f bps bytes : unit_value S = f * unit_value resolution -> 0 < f -> 0 < bps < 2 ^ 63 -> 0 <= bytes < 2 ^ 29 -> bytes * 8 * f < 2 ^ 61 * bps ->
  exists tx, CalculateBytesTxTime resolution bps bytes = Some tx /\ 0 <= tx /\ 2 ^ 64 * Z.abs (tx * bps - bytes * 8 * f) <= (2 ^ 63 + f) * bps.
Proof. apply tx_time_ok. Qed.
(** 1500 bytes at 9600 bits per second take 1.25 seconds. *)
Lemma tx_time_nearest_witness : CalculateBytesTxTime NS 9600 1500 = Some 1250000000 /\
  exists tx, CalculateBytesTxTime NS 9600 1500 = Some tx /\ 0 <= tx /\ 2 ^ 64 * Z.abs (tx * 9600 - 1500 * 8 * 10 ^ 9) <= (2 ^ 63 + 10 ^ 9) * 9600.
Proof. split; [vm_compute; reflexivity|]. apply (tx_time_nearest NS (10 ^ 9) 9600 1500); [reflexivity|reflexivity|split; reflexivity|split; [discriminate|reflexivity]|reflexivity]. Defined.

End NsTimeProps.
