(* ===== verification/Buffer.v ===== *)
(** * Buffer (src/network/model/buffer.cc, buffer.h): memory and buffers

    Packet buffers are reference counted views of shared blocks with a virtual
    zero area in the middle. The model keeps the sharing: blocks live in a heap
    indexed by address, a [Buffer] is a view (address and offsets), and every
    operation passes the heap along. All offsets are 32-bit and wrap. [None] is
    a failed assertion, a use of a released block or an access out of a block.

    The content of fresh memory is unspecified; it is the parameter [uninit] of
    the operations that allocate. *)

From S2P Require Import Prelude.

Module Buffer.

(** ** Byte arrays *)

Definition zlen (l : list Z) : Z := Z.of_nat (length l).

(** [n] bytes at offset [off]: the source of a [memcpy]. A copy of no bytes
    touches no memory. *)
Definition get_bytes (off n : Z) (l : list Z) : option (list Z) :=
  if n =? 0 then Some []
  else if (0 <=? off) && (0 <=? n) && (off + n <=? zlen l)
  then Some (take (Z.to_nat n) (drop (Z.to_nat off) l)) else None.

(** Overwrite the bytes from offset [off] with [src]: the target of a [memcpy]. *)
Definition put_bytes (off : Z) (src l : list Z) : option (list Z) :=
  if zlen src =? 0 then Some l
  else if (0 <=? off) && (off + zlen src <=? zlen l)
  then Some (take (Z.to_nat off) l ++ src ++ drop (Z.to_nat off + length src) l) else None.

(** ** Blocks and the heap *)

Record Data := mkData {
  m_count : Z;
  m_size : Z;
  m_dirtyStart : Z;
  m_dirtyEnd : Z;
  m_bytes : list Z
}.

Definition with_count (c : Z) (d : Data) : Data :=
  mkData c (m_size d) (m_dirtyStart d) (m_dirtyEnd d) (m_bytes d).
Definition with_dirty (s e : Z) (d : Data) : Data :=
  mkData (m_count d) (m_size d) s e (m_bytes d).
Definition with_bytes (l : list Z) (d : Data) : Data :=
  mkData (m_count d) (m_size d) (m_dirtyStart d) (m_dirtyEnd d) l.

(** The states of [g_freeList]; the vector is a stack, its back first. *)
Inductive FreeList :=
  | UNINITIALIZED
  | INITIALIZED (l : list Z)
  | DESTROYED.

Record Mem := mkMem {
  heap : gmap Z Data;
  next_addr : Z;
  g_freeList : FreeList;
  g_maxSize : Z;
  g_recommendedStart : Z
}.

Definition set_heap (h : gmap Z Data) (m : Mem) : Mem :=
  mkMem h (next_addr m) (g_freeList m) (g_maxSize m) (g_recommendedStart m).
Definition set_free (f : FreeList) (m : Mem) : Mem :=
  mkMem (heap m) (next_addr m) f (g_maxSize m) (g_recommendedStart m).
Definition set_maxSize (n : Z) (m : Mem) : Mem :=
  mkMem (heap m) (next_addr m) (g_freeList m) n (g_recommendedStart m).
Definition set_recommended (n : Z) (m : Mem) : Mem :=
  mkMem (heap m) (next_addr m) (g_freeList m) (g_maxSize m) n.
Definition load (a : Z) (m : Mem) : option Data := heap m !! a.
Definition store (a : Z) (d : Data) (m : Mem) : Mem := set_heap (<[a := d]> (heap m)) m.

Definition Mem_init : Mem := mkMem ∅ 1 UNINITIALIZED 0 0.

(** A buffer: the address of its block and its offsets. *)
Record Buffer := mkBuffer {
  m_data : Z;
  m_maxZeroAreaStart : Z;
  m_zeroAreaStart : Z;
  m_zeroAreaEnd : Z;
  m_start : Z;
  m_end : Z
}.

Definition Deallocate (a : Z) (m : Mem) : option Mem :=
  let* d := load a m in
  assert* m_count d =? 0 in
  Some (set_heap (delete a (heap m)) m).

Fixpoint Deallocate_all (l : list Z) (m : Mem) : option Mem :=
  match l with
  | [] => Some m
  | a :: rest => let* m1 := Deallocate a m in Deallocate_all rest m1
  end.

(** [LocalStaticDestructor::~LocalStaticDestructor]: at the end of the program. *)
Definition destroy_free_list (m : Mem) : option Mem :=
  match g_freeList m with
  | INITIALIZED l => let* m1 := Deallocate_all l m in Some (set_free DESTROYED m1)
  | _ => Some m
  end.

Definition Recycle (a : Z) (m : Mem) : option Mem :=
  let* d := load a m in
  assert* m_count d =? 0 in
  match g_freeList m with
  | UNINITIALIZED => None
  | DESTROYED => Deallocate a (set_maxSize (Z.max (g_maxSize m) (m_size d)) m)
  | INITIALIZED l =>
      let m1 := set_maxSize (Z.max (g_maxSize m) (m_size d)) m in
      if (m_size d <? g_maxSize m1) || (1000 <? Z.of_nat (length l)) then Deallocate a m1
      else Some (set_free (INITIALIZED (a :: l)) m1)
  end.

(** [m_data->m_count--], and [Recycle] when it reaches zero. *)
Definition Unref (a : Z) (m : Mem) : option Mem :=
  let* d := load a m in
  let m1 := store a (with_count (u32 (m_count d - 1)) d) m in
  if u32 (m_count d - 1) =? 0 then Recycle a m1 else Some m1.

(** [m_data->m_count++]. *)
Definition Ref (a : Z) (m : Mem) : option Mem :=
  let* d := load a m in
  Some (store a (with_count (u32 (m_count d + 1)) d) m).

(** ** Offsets of a buffer *)

Definition GetSize (b : Buffer) : Z := u32 (m_end b - m_start b).
Definition GetInternalSize (b : Buffer) : Z :=
  u32 (m_zeroAreaStart b - m_start b + m_end b - m_zeroAreaEnd b).
Definition GetInternalEnd (b : Buffer) : Z :=
  u32 (m_end b - u32 (m_zeroAreaEnd b - m_zeroAreaStart b)).

(** The checks of [CheckInternalState] (compiled out in the source). *)
Definition CheckInternalState (d : Data) (b : Buffer) : bool :=
  let offsetsOk := (m_start b <=? m_zeroAreaStart b) && (m_zeroAreaStart b <=? m_zeroAreaEnd b) &&
                   (m_zeroAreaEnd b <=? m_end b) in
  let dirtyOk := (m_dirtyStart d <=? m_start b) && (m_end b <=? m_dirtyEnd d) in
  let internalSizeOk := (GetInternalEnd b <=? m_size d) && (m_start b <=? m_size d) &&
                        (m_zeroAreaStart b <=? m_size d) in
  (0 <? m_count d) && offsetsOk && dirtyOk && internalSizeOk.

(** [m_maxZeroAreaStart = std::max(m_maxZeroAreaStart, m_zeroAreaStart)]. *)
Definition note_zero_start (b : Buffer) : Buffer :=
  mkBuffer (m_data b) (Z.max (m_maxZeroAreaStart b) (m_zeroAreaStart b)) (m_zeroAreaStart b)
    (m_zeroAreaEnd b) (m_start b) (m_end b).

Definition RemoveAtStart (start : Z) (b : Buffer) : option Buffer :=
  let newStart := u32 (m_start b + start) in
  let upd zs ze s e := note_zero_start (mkBuffer (m_data b) (m_maxZeroAreaStart b) zs ze s e) in
  if newStart <=? m_zeroAreaStart b then
    Some (upd (m_zeroAreaStart b) (m_zeroAreaEnd b) newStart (m_end b))
  else if newStart <=? m_zeroAreaEnd b then
    let delta := u32 (newStart - m_zeroAreaStart b) in
    Some (upd (m_zeroAreaStart b) (u32 (m_zeroAreaEnd b - delta)) (m_zeroAreaStart b)
            (u32 (m_end b - delta)))
  else if newStart <=? m_end b then
    assert* start <=? m_end b in
    let zeroSize := u32 (m_zeroAreaEnd b - m_zeroAreaStart b) in
    let s := u32 (newStart - zeroSize) in
    Some (upd s s s (u32 (m_end b - zeroSize)))
  else
    let e := u32 (m_end b - u32 (m_zeroAreaEnd b - m_zeroAreaStart b)) in
    Some (upd e e e e).

Definition RemoveAtEnd (end_ : Z) (b : Buffer) : Buffer :=
  let newEnd := u32 (m_end b - Z.min end_ (u32 (m_end b - m_start b))) in
  let upd zs ze e := note_zero_start (mkBuffer (m_data b) (m_maxZeroAreaStart b) zs ze (m_start b) e) in
  if m_zeroAreaEnd b <? newEnd then upd (m_zeroAreaStart b) (m_zeroAreaEnd b) newEnd
  else if m_zeroAreaStart b <? newEnd then upd (m_zeroAreaStart b) newEnd newEnd
  else if m_start b <? newEnd then upd newEnd newEnd newEnd
  else upd (m_start b) (m_start b) (m_start b).

Section Memory.

(** The byte at an offset of the fresh block at an address. *)
Variable uninit : Z -> nat -> Z.

Definition ALLOC_OVER_PROVISION : Z := 100.

Definition Allocate (reqSize : Z) (m : Mem) : Z * Mem :=
  let reqSize := if reqSize =? 0 then 1 else reqSize in
  let reqSize := u32 (reqSize + ALLOC_OVER_PROVISION) in
  let a := next_addr m in
  let bytes := map (fun i => u8 (uninit a i)) (seq 0 (Z.to_nat reqSize)) in
  (a, mkMem (<[a := mkData 1 reqSize 0 0 bytes]> (heap m)) (a + 1) (g_freeList m) (g_maxSize m)
        (g_recommendedStart m)).

(** The search of [Create] through the free list: the first large enough block
    from the back, those before it being released. *)
Fixpoint find_free (dataSize : Z) (l : list Z) (m : Mem) : option (option Z * list Z * Mem) :=
  match l with
  | [] => Some (None, [], m)
  | a :: rest =>
      let* d := load a m in
      if dataSize <=? m_size d then Some (Some a, rest, store a (with_count 1 d) m)
      else let* m1 := Deallocate a m in find_free dataSize rest m1
  end.

Definition Create (dataSize : Z) (m : Mem) : option (Z * Mem) :=
  match g_freeList m with
  | UNINITIALIZED => Some (Allocate dataSize (set_free (INITIALIZED []) m))
  | DESTROYED => Some (Allocate dataSize m)
  | INITIALIZED l =>
      let* r := find_free dataSize l m in
      let m1 := set_free (INITIALIZED r.1.2) r.2 in
      match r.1.1 with
      | Some a => Some (a, m1)
      | None => Some (Allocate dataSize m1)
      end
  end.

(** Also the constructors [Buffer()] and [Buffer(dataSize)]. *)
Definition Initialize (zeroSize : Z) (m : Mem) : option (Buffer * Mem) :=
  let* r := Create 0 m in
  let* d := load r.1 r.2 in
  let start := Z.min (m_size d) (g_recommendedStart r.2) in
  let zeroEnd := u32 (start + zeroSize) in
  Some (mkBuffer r.1 start start zeroEnd start zeroEnd,
        store r.1 (with_dirty start zeroEnd d) r.2).

(** The copy constructor. *)
Definition copy (o : Buffer) (m : Mem) : option (Buffer * Mem) :=
  let* m1 := Ref (m_data o) m in
  Some (mkBuffer (m_data o) (m_zeroAreaStart o) (m_zeroAreaStart o) (m_zeroAreaEnd o) (m_start o)
          (m_end o), m1).

(** [operator=]: the new value of the assigned buffer [b]. *)
Definition assign (b o : Buffer) (m : Mem) : option (Buffer * Mem) :=
  let* m2 := if m_data b =? m_data o then Some m
             else let* m1 := Unref (m_data b) m in Ref (m_data o) m1 in
  Some (mkBuffer (m_data o) (m_maxZeroAreaStart o) (m_zeroAreaStart o) (m_zeroAreaEnd o)
          (m_start o) (m_end o),
        set_recommended (Z.max (g_recommendedStart m2) (m_maxZeroAreaStart b)) m2).

(** The destructor. *)
Definition destroy (b : Buffer) (m : Mem) : option Mem :=
  Unref (m_data b) (set_recommended (Z.max (g_recommendedStart m) (m_maxZeroAreaStart b)) m).

(** Copy the internal bytes of [b] to offset [off] of a new block of [newSize]
    bytes and release the old block. *)
Definition move_to_new (newSize off : Z) (b : Buffer) (m : Mem) : option (Z * Mem) :=
  let* r := Create newSize m in
  let* newData := load r.1 r.2 in
  let* d := load (m_data b) r.2 in
  let* src := get_bytes (m_start b) (GetInternalSize b) (m_bytes d) in
  let* bytes := put_bytes off src (m_bytes newData) in
  let* m2 := Unref (m_data b) (store r.1 (with_bytes bytes newData) r.2) in
  Some (r.1, m2).

Definition AddAtStart (start : Z) (b : Buffer) (m : Mem) : option (Buffer * Mem) :=
  let* d := load (m_data b) m in
  let isDirty := (1 <? m_count d) && (m_dirtyStart d <? m_start b) in
  if (start <=? m_start b) && negb isDirty then
    assert* (m_count d =? 1) || (m_start b =? m_dirtyStart d) in
    let s := u32 (m_start b - start) in
    Some (note_zero_start (mkBuffer (m_data b) (m_maxZeroAreaStart b) (m_zeroAreaStart b)
            (m_zeroAreaEnd b) s (m_end b)),
          store (m_data b) (with_dirty s (m_dirtyEnd d) d) m)
  else
    let* r := move_to_new (u32 (GetInternalSize b + start)) start b m in
    let delta := i32 (start - m_start b) in
    let s := u32 (u32 (m_start b + delta) - start) in
    let e := u32 (m_end b + delta) in
    let* d' := load r.1 r.2 in
    Some (note_zero_start (mkBuffer r.1 (m_maxZeroAreaStart b) (u32 (m_zeroAreaStart b + delta))
            (u32 (m_zeroAreaEnd b + delta)) s e),
          store r.1 (with_dirty s e d') r.2).

Definition AddAtEnd (end_ : Z) (b : Buffer) (m : Mem) : option (Buffer * Mem) :=
  let* d := load (m_data b) m in
  let isDirty := (1 <? m_count d) && (m_end b <? m_dirtyEnd d) in
  if (u32 (GetInternalEnd b + end_) <=? m_size d) && negb isDirty then
    assert* (m_count d =? 1) || (m_end b =? m_dirtyEnd d) in
    let e := u32 (m_end b + end_) in
    Some (note_zero_start (mkBuffer (m_data b) (m_maxZeroAreaStart b) (m_zeroAreaStart b)
            (m_zeroAreaEnd b) (m_start b) e),
          store (m_data b) (with_dirty (m_dirtyStart d) e d) m)
  else
    let* r := move_to_new (u32 (GetInternalSize b + end_)) 0 b m in
    let delta := i32 (- m_start b) in
    let s := u32 (m_start b + delta) in
    let e := u32 (u32 (m_end b + delta) + end_) in
    let* d' := load r.1 r.2 in
    Some (note_zero_start (mkBuffer r.1 (m_maxZeroAreaStart b) (u32 (m_zeroAreaStart b + delta))
            (u32 (m_zeroAreaEnd b + delta)) s e),
          store r.1 (with_dirty s e d') r.2).

Definition CreateFragment (start length : Z) (b : Buffer) (m : Mem) : option (Buffer * Mem) :=
  let* r := copy b m in
  let* tmp := RemoveAtStart start r.1 in
  Some (RemoveAtEnd (u32 (GetSize b - u32 (start + length))) tmp, r.2).

End Memory.
End Buffer.
