(* ===== verification/BufferIterator.v ===== *)
(** * Buffer::Iterator and the byte-level operations of Buffer

    Iterators (src/network/model/buffer.h, buffer.cc) read and write the bytes
    of a buffer by virtual offsets; the operations of [Buffer] built on them:
    full copies, concatenation, serialization and [CopyData]. *)

From S2P Require Import Prelude Buffer.
Import Buffer.

Module Iterator.

Record Iterator := mkIter {
  m_zeroStart : Z;
  m_zeroEnd : Z;
  m_dataStart : Z;
  m_dataEnd : Z;
  m_current : Z;
  it_data : Z
}.

Definition Construct (b : Buffer) (current : Z) : Iterator :=
  mkIter (m_zeroAreaStart b) (m_zeroAreaEnd b) (m_start b) (m_end b) current (m_data b).

Definition Begin (b : Buffer) : Iterator := Construct b (m_start b).
Definition End_ (b : Buffer) : Iterator := Construct b (m_end b).

Definition move_to (c : Z) (i : Iterator) : Iterator :=
  mkIter (m_zeroStart i) (m_zeroEnd i) (m_dataStart i) (m_dataEnd i) c (it_data i).

(** [Next(delta)] and [Prev(delta)]; without argument, [delta] is 1. *)
Definition Next (delta : Z) (i : Iterator) : option Iterator :=
  assert* u32 (m_current i + delta) <=? m_dataEnd i in
  Some (move_to (u32 (m_current i + delta)) i).
Definition Prev (delta : Z) (i : Iterator) : option Iterator :=
  assert* delta <=? m_current i in Some (move_to (u32 (m_current i - delta)) i).

Definition GetDistanceFrom (o i : Iterator) : option Z :=
  assert* it_data i =? it_data o in
  let diff := i32 (m_current i - m_current o) in
  Some (if diff <? 0 then u32 (- diff) else diff).

Definition IsEnd (i : Iterator) : bool := m_current i =? m_dataEnd i.
Definition IsStart (i : Iterator) : bool := m_current i =? m_dataStart i.
Definition IterSize (i : Iterator) : Z := u32 (m_dataEnd i - m_dataStart i).
Definition GetRemainingSize (i : Iterator) : Z := u32 (m_dataEnd i - m_current i).

Definition CheckNoZero (start end_ : Z) (i : Iterator) : bool :=
  negb ((start <? m_dataStart i) || (m_dataEnd i <? end_) ||
        ((m_zeroStart i <? end_) && (start <? m_zeroEnd i) &&
         negb (m_zeroEnd i =? m_zeroStart i) && negb (start =? end_))).

Definition Check (p : Z) (i : Iterator) : bool :=
  (m_dataStart i <=? p) && negb ((m_zeroStart i <=? p) && (p <? m_zeroEnd i)) && (p <=? m_dataEnd i).

(** Position in the block of a virtual offset past the zero area. *)
Definition after_zero (p : Z) (i : Iterator) : Z := u32 (p - u32 (m_zeroEnd i - m_zeroStart i)).

(** [memcpy(&m_data[off], src, ...)] into the block of the iterator. *)
Definition poke (off : Z) (src : list Z) (i : Iterator) (m : Mem) : option Mem :=
  let* d := load (it_data i) m in
  let* bytes := put_bytes off src (m_bytes d) in
  Some (store (it_data i) (with_bytes bytes d) m).

(** [n] bytes of the block of the iterator. *)
Definition peek (off n : Z) (i : Iterator) (m : Mem) : option (list Z) :=
  let* d := load (it_data i) m in get_bytes off n (m_bytes d).

(** ** Writing *)

Definition WriteU8 (data : Z) (i : Iterator) (m : Mem) : option (Iterator * Mem) :=
  assert* Check (m_current i) i in
  let off := if m_current i <? m_zeroStart i then m_current i else after_zero (m_current i) i in
  let* m1 := poke off [data] i m in
  Some (move_to (u32 (m_current i + 1)) i, m1).

Definition WriteU8_len (data len : Z) (i : Iterator) (m : Mem) : option (Iterator * Mem) :=
  assert* CheckNoZero (m_current i) (u32 (m_current i + len)) i in
  let off := if m_current i <=? m_zeroStart i then m_current i else after_zero (m_current i) i in
  let* m1 := poke off (replicate (Z.to_nat len) data) i m in
  Some (move_to (u32 (m_current i + len)) i, m1).

(** [Write(buffer, size)]; the assertion is the one of the source, which
    passes [size] where the end of the written area is meant. *)
Definition Write_bytes (buffer : list Z) (i : Iterator) (m : Mem) : option (Iterator * Mem) :=
  let size := zlen buffer in
  assert* CheckNoZero (m_current i) size i in
  let off := if m_current i <=? m_zeroStart i then m_current i else after_zero (m_current i) i in
  let* m1 := poke off buffer i m in
  Some (move_to (u32 (m_current i + size)) i, m1).

(** [Write(start, end)]: copy the bytes between two iterators of another buffer. *)
Definition Write_iter (start end_ : Iterator) (i : Iterator) (m : Mem) : option (Iterator * Mem) :=
  assert* it_data start =? it_data end_ in
  assert* m_current start <=? m_current end_ in
  assert* m_zeroStart start =? m_zeroStart end_ in
  assert* m_zeroEnd start =? m_zeroEnd end_ in
  assert* negb (it_data i =? it_data start) in
  let size := u32 (m_current end_ - m_current start) in
  assert* CheckNoZero (m_current i) (u32 (m_current i + size)) i in
  let* (start, i, m, size) :=
    if m_current start <=? m_zeroStart start then
      let toCopy := Z.min size (u32 (m_zeroStart start - m_current start)) in
      let* src := peek (m_current start) toCopy start m in
      let* m1 := poke (m_current i) src i m in
      Some (move_to (u32 (m_current start + toCopy)) start, move_to (u32 (m_current i + toCopy)) i, m1,
            u32 (size - toCopy))
    else Some (start, i, m, size) in
  let* (start, i, m, size) :=
    if m_current start <=? m_zeroEnd start then
      let toCopy := Z.min size (u32 (m_zeroEnd start - m_current start)) in
      let* m1 := poke (m_current i) (replicate (Z.to_nat toCopy) 0) i m in
      Some (move_to (u32 (m_current start + toCopy)) start, move_to (u32 (m_current i + toCopy)) i, m1,
            u32 (size - toCopy))
    else Some (start, i, m, size) in
  let toCopy := Z.min size (u32 (m_dataEnd start - m_current start)) in
  let* from := peek (after_zero (m_current start) start) toCopy start m in
  let* m1 := poke (m_current i) from i m in
  Some (move_to (u32 (m_current i + toCopy)) i, m1).

(** [Write_seq l]: [WriteU8] of each byte of [l] in turn. *)
Fixpoint Write_seq (l : list Z) (i : Iterator) (m : Mem) : option (Iterator * Mem) :=
  match l with
  | [] => Some (i, m)
  | x :: rest => let* (i1, m1) := WriteU8 x i m in Write_seq rest i1 m1
  end.

Definition byte_at (k data : Z) : Z := Z.land (Z.shiftr data k) 255.

Definition WriteU16 (data : Z) (i : Iterator) (m : Mem) : option (Iterator * Mem) :=
  let* (i, m) := WriteU8 (Z.land data 255) i m in
  let data := Z.shiftr data 8 in
  WriteU8 (Z.land data 255) i m.

Definition WriteU32 (data : Z) (i : Iterator) (m : Mem) : option (Iterator * Mem) :=
  let* (i, m) := WriteU8 (Z.land data 255) i m in
  let data := Z.shiftr data 8 in
  let* (i, m) := WriteU8 (Z.land data 255) i m in
  let data := Z.shiftr data 8 in
  let* (i, m) := WriteU8 (Z.land data 255) i m in
  let data := Z.shiftr data 8 in
  WriteU8 (Z.land data 255) i m.

Definition WriteU64 (data : Z) (i : Iterator) (m : Mem) : option (Iterator * Mem) :=
  let* (i, m) := WriteU8 (Z.land data 255) i m in
  let data := Z.shiftr data 8 in
  let* (i, m) := WriteU8 (Z.land data 255) i m in
  let data := Z.shiftr data 8 in
  let* (i, m) := WriteU8 (Z.land data 255) i m in
  let data := Z.shiftr data 8 in
  let* (i, m) := WriteU8 (Z.land data 255) i m in
  let data := Z.shiftr data 8 in
  let* (i, m) := WriteU8 (Z.land data 255) i m in
  let data := Z.shiftr data 8 in
  let* (i, m) := WriteU8 (Z.land data 255) i m in
  let data := Z.shiftr data 8 in
  let* (i, m) := WriteU8 (Z.land data 255) i m in
  let data := Z.shiftr data 8 in
  WriteU8 (Z.land data 255) i m.

Definition WriteHtolsbU16 (data : Z) : Iterator -> Mem -> option (Iterator * Mem) :=
  Write_seq [byte_at 0 data; byte_at 8 data].
Definition WriteHtolsbU32 (data : Z) : Iterator -> Mem -> option (Iterator * Mem) :=
  Write_seq [byte_at 0 data; byte_at 8 data; byte_at 16 data; byte_at 24 data].
Definition WriteHtolsbU64 (data : Z) : Iterator -> Mem -> option (Iterator * Mem) :=
  Write_seq [byte_at 0 data; byte_at 8 data; byte_at 16 data; byte_at 24 data;
             byte_at 32 data; byte_at 40 data; byte_at 48 data; byte_at 56 data].
Definition WriteHtonU64 (data : Z) : Iterator -> Mem -> option (Iterator * Mem) :=
  Write_seq [byte_at 56 data; byte_at 48 data; byte_at 40 data; byte_at 32 data;
             byte_at 24 data; byte_at 16 data; byte_at 8 data; byte_at 0 data].

Definition WriteHtonU16 (data : Z) (i : Iterator) (m : Mem) : option (Iterator * Mem) :=
  assert* CheckNoZero (m_current i) (u32 (m_current i + 2)) i in
  let off := if u32 (m_current i + 2) <=? m_zeroStart i then m_current i
             else after_zero (m_current i) i in
  let* m1 := poke off [byte_at 8 data; byte_at 0 data] i m in
  Some (move_to (u32 (m_current i + 2)) i, m1).

Definition WriteHtonU32 (data : Z) (i : Iterator) (m : Mem) : option (Iterator * Mem) :=
  assert* CheckNoZero (m_current i) (u32 (m_current i + 4)) i in
  let off := if u32 (m_current i + 4) <=? m_zeroStart i then m_current i
             else after_zero (m_current i) i in
  let* m1 := poke off [byte_at 24 data; byte_at 16 data; byte_at 8 data; byte_at 0 data] i m in
  Some (move_to (u32 (m_current i + 4)) i, m1).

(** ** Reading *)

Definition PeekU8 (i : Iterator) (m : Mem) : option Z :=
  assert* (m_dataStart i <=? m_current i) && (m_current i <? m_dataEnd i) in
  if m_current i <? m_zeroStart i then
    let* l := peek (m_current i) 1 i m in head l
  else if m_current i <? m_zeroEnd i then Some 0
  else let* l := peek (after_zero (m_current i) i) 1 i m in head l.

Definition ReadU8 (i : Iterator) (m : Mem) : option (Z * Iterator) :=
  let* ret := PeekU8 i m in Some (ret, move_to (u32 (m_current i + 1)) i).

(** [data <<= 8; data |= byte] on a [w]-bit variable. *)
Definition shift_in (w data byte : Z) : Z := Z.lor (wrap w (Z.shiftl data 8)) byte.

(** [Read(buffer, size)]. *)
Fixpoint Read (size : nat) (i : Iterator) (m : Mem) : option (list Z * Iterator) :=
  match size with
  | O => Some ([], i)
  | S n => let* (x, i) := ReadU8 i m in let* (l, i) := Read n i m in Some (x :: l, i)
  end.

Definition ReadU16 (i : Iterator) (m : Mem) : option (Z * Iterator) :=
  let* (byte0, i) := ReadU8 i m in
  let* (byte1, i) := ReadU8 i m in
  Some (shift_in 16 byte1 byte0, i).

Definition ReadU32 (i : Iterator) (m : Mem) : option (Z * Iterator) :=
  let* (byte0, i) := ReadU8 i m in
  let* (byte1, i) := ReadU8 i m in
  let* (byte2, i) := ReadU8 i m in
  let* (byte3, i) := ReadU8 i m in
  Some (fold_left (shift_in 32) [byte2; byte1; byte0] byte3, i).

Definition ReadU64 (i : Iterator) (m : Mem) : option (Z * Iterator) :=
  let* (byte0, i) := ReadU8 i m in
  let* (byte1, i) := ReadU8 i m in
  let* (byte2, i) := ReadU8 i m in
  let* (byte3, i) := ReadU8 i m in
  let* (byte4, i) := ReadU8 i m in
  let* (byte5, i) := ReadU8 i m in
  let* (byte6, i) := ReadU8 i m in
  let* (byte7, i) := ReadU8 i m in
  Some (fold_left (shift_in 64) [byte6; byte5; byte4; byte3; byte2; byte1; byte0] byte7, i).

(** The least significant byte first readers have the same body. *)
Definition ReadLsbtohU16 (i : Iterator) (m : Mem) : option (Z * Iterator) := ReadU16 i m.
Definition ReadLsbtohU32 (i : Iterator) (m : Mem) : option (Z * Iterator) := ReadU32 i m.
Definition ReadLsbtohU64 (i : Iterator) (m : Mem) : option (Z * Iterator) := ReadU64 i m.

Definition SlowReadNtohU16 (i : Iterator) (m : Mem) : option (Z * Iterator) :=
  let* (l, i) := Read 2 i m in Some (fold_left (shift_in 16) l 0, i).
Definition SlowReadNtohU32 (i : Iterator) (m : Mem) : option (Z * Iterator) :=
  let* (l, i) := Read 4 i m in Some (fold_left (shift_in 32) l 0, i).
Definition ReadNtohU64 (i : Iterator) (m : Mem) : option (Z * Iterator) :=
  let* (l, i) := Read 8 i m in Some (fold_left (shift_in 64) l 0, i).

Definition ReadNtohU16 (i : Iterator) (m : Mem) : option (Z * Iterator) :=
  let fast off :=
    let* l := peek off 2 i m in
    Some (fold_left (shift_in 16) l 0, move_to (u32 (m_current i + 2)) i) in
  if u32 (m_current i + 2) <=? m_zeroStart i then fast (m_current i)
  else if m_zeroEnd i <=? m_current i then fast (after_zero (m_current i) i)
  else SlowReadNtohU16 i m.

Definition ReadNtohU32 (i : Iterator) (m : Mem) : option (Z * Iterator) :=
  let fast off :=
    let* l := peek off 4 i m in
    Some (fold_left (shift_in 32) l 0, move_to (u32 (m_current i + 4)) i) in
  if u32 (m_current i + 4) <=? m_zeroStart i then fast (m_current i)
  else if m_zeroEnd i <=? m_current i then fast (after_zero (m_current i) i)
  else SlowReadNtohU32 i m.

(** [Read(start, size)]: copy [size] bytes of this iterator to [start]. *)
Definition Read_iter (start : Iterator) (size : Z) (i : Iterator) (m : Mem) : option Mem :=
  let* e := Next size i in
  let* (_, m1) := Write_iter i e start m in Some m1.

(** ** Internet checksum (RFC 1071) *)

Fixpoint sum_words (n : nat) (sum : Z) (i : Iterator) (m : Mem) : option (Z * Iterator) :=
  match n with
  | O => Some (sum, i)
  | S n' => let* (w, i) := ReadU16 i m in sum_words n' (u32 (sum + w)) i m
  end.

(** [while (sum >> 16) ...]. *)
Fixpoint fold_carry (fuel : nat) (sum : Z) : option Z :=
  match fuel with
  | O => None
  | S fuel' =>
      if Z.shiftr sum 16 =? 0 then Some sum
      else fold_carry fuel' (u32 (Z.land sum 65535 + Z.shiftr sum 16))
  end.

(** Three turns of the loop are enough for a 32-bit sum. *)
Definition CalculateIpChecksum (size initialChecksum : Z) (i : Iterator) (m : Mem)
    : option (Z * Iterator) :=
  let* (sum, i) := sum_words (Z.to_nat (size / 2)) initialChecksum i m in
  let* (sum, i) :=
    if Z.land size 1 =? 0 then Some (sum, i)
    else let* (x, i) := ReadU8 i m in Some (u32 (sum + x), i) in
  let* sum := fold_carry 4 sum in
  Some (u16 (Z.lnot sum), i).

End Iterator.

(** ** Operations of Buffer built on iterators *)

Module BufferOps.
Import Iterator.

Section Memory.

Variable uninit : Z -> nat -> Z.

(** The zero area becomes real bytes; a buffer without one is only shared. *)
Definition CreateFullCopy (b : Buffer) (m : Mem) : option (Buffer * Mem) :=
  let zeroSize := u32 (m_zeroAreaEnd b - m_zeroAreaStart b) in
  if negb (zeroSize =? 0) then
    let* (tmp, m) := Initialize uninit 0 m in
    let* (tmp, m) := AddAtStart uninit zeroSize tmp m in
    let* (_, m) := WriteU8_len 0 zeroSize (Begin tmp) m in
    let dataStart := u32 (m_zeroAreaStart b - m_start b) in
    let* (tmp, m) := AddAtStart uninit dataStart tmp m in
    let* d := load (m_data b) m in
    let* src := get_bytes (m_start b) dataStart (m_bytes d) in
    let* (_, m) := Write_bytes src (Begin tmp) m in
    let dataEnd := u32 (m_end b - m_zeroAreaEnd b) in
    let* (tmp, m) := AddAtEnd uninit dataEnd tmp m in
    let* i := Prev dataEnd (End_ tmp) in
    let* d := load (m_data b) m in
    let* src := get_bytes (m_zeroAreaStart b) dataEnd (m_bytes d) in
    let* (_, m) := Write_bytes src i m in
    Some (tmp, m)
  else copy b m.

(** [*this = CreateFullCopy()]: assignment from a temporary that is destroyed
    at the end of the statement. [TransformIntoRealBuffer] has the same effect. *)
Definition TransformIntoRealBuffer (b : Buffer) (m : Mem) : option (Buffer * Mem) :=
  let* (tmp, m) := CreateFullCopy b m in
  let* (b', m) := assign b tmp m in
  let* m := destroy tmp m in
  Some (b', m).

(** [PeekData]: the buffer made real and the address of its first byte. *)
Definition PeekData (b : Buffer) (m : Mem) : option (Z * Z * Buffer * Mem) :=
  let* (b', m) := TransformIntoRealBuffer b m in
  Some (m_data b', m_start b', b', m).

(** [AddAtEnd(const Buffer& o)]. *)
Definition AddAtEnd_buffer (o b : Buffer) (m : Mem) : option (Buffer * Mem) :=
  let* d := load (m_data b) m in
  if (m_count d =? 1) &&
     ((m_end b =? m_zeroAreaEnd b) || (m_zeroAreaStart b =? m_zeroAreaEnd b)) &&
     (m_end b =? m_dirtyEnd d) && (m_start o =? m_zeroAreaStart o) &&
     (0 <? u32 (m_zeroAreaEnd o - m_zeroAreaStart o))
  then
    let zeroAreaStart := if m_zeroAreaStart b =? m_zeroAreaEnd b then m_end b else m_zeroAreaStart b in
    let zeroSize := u32 (m_zeroAreaEnd o - m_zeroAreaStart o) in
    let zeroAreaEnd := u32 (m_end b + zeroSize) in
    let b := mkBuffer (m_data b) (m_maxZeroAreaStart b) zeroAreaStart zeroAreaEnd (m_start b) zeroAreaEnd in
    let m := store (m_data b) (with_dirty (m_dirtyStart d) zeroAreaEnd d) m in
    let endData := u32 (m_end o - m_zeroAreaEnd o) in
    let* (b, m) := AddAtEnd uninit endData b m in
    let* dst := Prev endData (End_ b) in
    let* src := Prev endData (End_ o) in
    let* (_, m) := Write_iter src (End_ o) dst m in
    Some (b, m)
  else
    let* (b, m) := TransformIntoRealBuffer b m in
    let* (b, m) := AddAtEnd uninit (GetSize o) b m in
    let* destStart := Prev (GetSize o) (End_ b) in
    let* (_, m) := Write_iter (Begin o) (End_ o) destStart m in
    Some (b, m).

(** ** Serialization *)

(** [(n + 3) & (~3)] on 32 bits. *)
Definition align4 (n : Z) : Z := Z.land (u32 (n + 3)) (2 ^ 32 - 4).

(** A 32-bit integer in memory, in the byte order of a little endian host. *)
Definition bytes_of_u32 (n : Z) : list Z := [byte_at 0 n; byte_at 8 n; byte_at 16 n; byte_at 24 n].
Definition u32_of_bytes (l : list Z) : Z := fold_left (shift_in 32) (rev l) 0.

Definition GetSerializedSize (b : Buffer) : Z :=
  let dataStart := align4 (u32 (m_zeroAreaStart b - m_start b)) in
  let dataEnd := align4 (u32 (m_end b - m_zeroAreaEnd b)) in
  u32 (4 + 4 + dataStart + 4 + dataEnd).

(** [Serialize(buffer, maxSize)]: the returned flag and the array [buffer]
    after the call; [p] is the offset of the write position. *)
Definition Serialize (b : Buffer) (m : Mem) (buffer : list Z) (maxSize : Z) : option (Z * list Z) :=
  let* d := load (m_data b) m in
  let size := 4 in
  if maxSize <? size then Some (0, buffer) else
  let p := 0 in
  let* buffer := put_bytes p (bytes_of_u32 (u32 (m_zeroAreaEnd b - m_zeroAreaStart b))) buffer in
  let p := p + 4 in
  let size := u32 (size + 4) in
  if maxSize <? size then Some (0, buffer) else
  let dataStartLength := u32 (m_zeroAreaStart b - m_start b) in
  let* buffer := put_bytes p (bytes_of_u32 dataStartLength) buffer in
  let p := p + 4 in
  let size := u32 (size + align4 dataStartLength) in
  if maxSize <? size then Some (0, buffer) else
  let* src := get_bytes (m_start b) dataStartLength (m_bytes d) in
  let* buffer := put_bytes p src buffer in
  let p := p + 4 * (align4 dataStartLength / 4) in
  let size := u32 (size + 4) in
  if maxSize <? size then Some (0, buffer) else
  let dataEndLength := u32 (m_end b - m_zeroAreaEnd b) in
  let* buffer := put_bytes p (bytes_of_u32 dataEndLength) buffer in
  let p := p + 4 in
  let size := u32 (size + align4 dataEndLength) in
  if maxSize <? size then Some (0, buffer) else
  let* src := get_bytes (m_zeroAreaStart b) dataEndLength (m_bytes d) in
  let* buffer := put_bytes p src buffer in
  Some (1, buffer).

(** [Deserialize(buffer, size)] on a buffer that holds no block yet: the new
    value of the buffer and the returned flag. *)
Definition Deserialize (buffer : list Z) (size : Z) (m : Mem) : option (Z * Buffer * Mem) :=
  let p := 0 in
  let sizeCheck := u32 (size - 4) in
  assert* 4 <=? sizeCheck in
  let* l := get_bytes p 4 buffer in
  let zeroDataLength := u32_of_bytes l in
  let p := p + 4 in
  let sizeCheck := u32 (sizeCheck - 4) in
  let* (b, m) := Initialize uninit zeroDataLength m in
  assert* 4 <=? sizeCheck in
  let* l := get_bytes p 4 buffer in
  let dataStartLength := u32_of_bytes l in
  let p := p + 4 in
  let sizeCheck := u32 (sizeCheck - 4) in
  let* (b, m) := AddAtStart uninit dataStartLength b m in
  assert* dataStartLength <=? sizeCheck in
  let* src := get_bytes p dataStartLength buffer in
  let* (_, m) := Write_bytes src (Begin b) m in
  let p := p + 4 * (align4 dataStartLength / 4) in
  let sizeCheck := u32 (sizeCheck - align4 dataStartLength) in
  assert* 4 <=? sizeCheck in
  let* l := get_bytes p 4 buffer in
  let dataEndLength := u32_of_bytes l in
  let p := p + 4 in
  let sizeCheck := u32 (sizeCheck - 4) in
  let* (b, m) := AddAtEnd uninit dataEndLength b m in
  assert* dataEndLength <=? sizeCheck in
  let* tmp := Prev dataEndLength (End_ b) in
  let* src := get_bytes p dataEndLength buffer in
  let* (_, m) := Write_bytes src tmp m in
  let sizeCheck := u32 (sizeCheck - align4 dataEndLength) in
  assert* sizeCheck =? 0 in
  Some (if negb (sizeCheck =? 0) then 0 else 1, b, m).

End Memory.

(** ** CopyData *)

(** [while (left > 0)]: write chunks of at most [g_zeroes.size] zeroes. *)
Fixpoint write_zeroes (fuel : nat) (left : Z) : option (list Z) :=
  if left <=? 0 then Some [] else
  match fuel with
  | O => None
  | S fuel' =>
      let toWrite := Z.min left 1000 in
      let* rest := write_zeroes fuel' (u32 (left - toWrite)) in
      Some (replicate (Z.to_nat toWrite) 0 ++ rest)
  end.

(** [CopyData(os, size)]: the bytes appended to the stream. *)
Definition CopyData_stream (b : Buffer) (m : Mem) (size : Z) : option (list Z) :=
  let* d := load (m_data b) m in
  if 0 <? size then
    let tmpsize := Z.min (u32 (m_zeroAreaStart b - m_start b)) size in
    let* out1 := get_bytes (m_start b) tmpsize (m_bytes d) in
    if tmpsize <? size then
      let size := u32 (size - u32 (m_zeroAreaStart b - m_start b)) in
      let tmpsize := Z.min (u32 (m_zeroAreaEnd b - m_zeroAreaStart b)) size in
      let* out2 := write_zeroes (Z.to_nat tmpsize) tmpsize in
      if tmpsize <? size then
        let size := u32 (size - tmpsize) in
        let tmpsize := Z.min (u32 (m_end b - m_zeroAreaEnd b)) size in
        let* out3 := get_bytes (m_zeroAreaStart b) tmpsize (m_bytes d) in
        Some (out1 ++ out2 ++ out3)
      else Some (out1 ++ out2)
    else Some out1
  else Some [].

(** [CopyData(buffer, size)]: the returned count and the bytes stored at the
    start of [buffer]. *)
Definition CopyData (b : Buffer) (m : Mem) (size : Z) : option (Z * list Z) :=
  let* d := load (m_data b) m in
  let originalSize := size in
  let* (size, out) :=
    if 0 <? size then
      let tmpsize := Z.min (u32 (m_zeroAreaStart b - m_start b)) size in
      let* out1 := get_bytes (m_start b) tmpsize (m_bytes d) in
      let size := u32 (size - tmpsize) in
      if 0 <? size then
        let tmpsize := Z.min (u32 (m_zeroAreaEnd b - m_zeroAreaStart b)) size in
        let* out2 := write_zeroes (Z.to_nat tmpsize) tmpsize in
        let size := u32 (size - tmpsize) in
        if 0 <? size then
          let tmpsize := Z.min (u32 (m_end b - m_zeroAreaEnd b)) size in
          let* out3 := get_bytes (m_zeroAreaStart b) tmpsize (m_bytes d) in
          Some (u32 (size - tmpsize), out1 ++ out2 ++ out3)
        else Some (size, out1 ++ out2)
      else Some (size, out1)
    else Some (size, []) in
  Some (u32 (originalSize - size), out).

End BufferOps.
