(* ===== verification/BufferInv.v ===== *)
(** * Invariants of the shared packet buffers

    [minv] is the invariant of the heap against the list of references held:
    reference counts are exact, a block without references is on the free
    list and nowhere else. [binv] is the invariant of the live buffers against
    their blocks: offsets in order, bytes inside the block, and the dirty area
    condition under which writing in place cannot touch another buffer.
    The lemmas give the effect of each operation of [Buffer] on the byte
    strings ([content]) of all live buffers. *)

From S2P Require Import Prelude Buffer.
Import Buffer.

Module BufferInv.

(** ** Abstraction: the bytes a buffer stands for *)

Definition zone (b : Buffer) : Z := m_zeroAreaEnd b - m_zeroAreaStart b.
Definition iend (b : Buffer) : Z := m_end b - zone b.
Definition slice (s e : Z) (l : list Z) : list Z := take (Z.to_nat (e - s)) (drop (Z.to_nat s) l).

Definition content_of (l : list Z) (b : Buffer) : list Z :=
  slice (m_start b) (m_zeroAreaStart b) l ++ replicate (Z.to_nat (zone b)) 0 ++
  slice (m_zeroAreaStart b) (iend b) l.

(** A block without its reference count. *)
Definition view (d : Data) : Z * Z * Z * list Z := (m_size d, m_dirtyStart d, m_dirtyEnd d, m_bytes d).
Definition vw (m : Mem) (a : Z) : option (Z * Z * Z * list Z) := view <$> heap m !! a.

Definition content (m : Mem) (b : Buffer) : list Z :=
  match vw m (m_data b) with Some (_, _, _, l) => content_of l b | None => [] end.

(** ** Invariants *)

Definition MAX_CONTENT : Z := 2 ^ 30.
Definition MAX_BLOCK : Z := MAX_CONTENT + ALLOC_OVER_PROVISION.

Definition free_list (m : Mem) : list Z :=
  match g_freeList m with INITIALIZED l => l | _ => [] end.

Record block_ok (m : Mem) (rs : list Z) (a : Z) (d : Data) : Prop := mkBlockOk {
  bo_count : m_count d = Z.of_nat (count_occ Z.eq_dec rs a);
  bo_len : zlen (m_bytes d) = m_size d;
  bo_size : 1 <= m_size d <= MAX_BLOCK;
  bo_addr : a < next_addr m
}.

Record minv (m : Mem) (rs : list Z) : Prop := mkMinv {
  mi_block : forall a d, heap m !! a = Some d -> block_ok m rs a d;
  mi_live : forall a, a ∈ rs -> is_Some (heap m !! a);
  mi_nodup : NoDup (free_list m);
  mi_free : forall a, a ∈ free_list m <-> exists d, heap m !! a = Some d /\ m_count d = 0;
  mi_init : rs <> [] -> g_freeList m <> UNINITIALIZED;
  mi_few : Z.of_nat (length rs) < 2 ^ 32;
  mi_rec : 0 <= g_recommendedStart m
}.

Definition shape (b : Buffer) : Prop :=
  0 <= m_start b <= m_zeroAreaStart b /\ m_zeroAreaStart b <= m_zeroAreaEnd b <= m_end b /\
  m_end b - m_start b <= MAX_CONTENT.

Record binv (m : Mem) (bs : list Buffer) : Prop := mkBinv {
  bi_shape : forall b, b ∈ bs -> shape b;
  bi_block : forall b sz ds de l, b ∈ bs -> vw m (m_data b) = Some (sz, ds, de, l) ->
    ds <= m_start b /\ iend b <= sz;
  bi_share : forall b c sz ds de l, b ∈ bs -> c ∈ bs -> m_data b = m_data c ->
    vw m (m_data b) = Some (sz, ds, de, l) -> iend b + zone c <= de
}.

Definition inv (m : Mem) (bs : list Buffer) : Prop := minv m (m_data <$> bs) /\ binv m bs.

(** The buffers of [bs] see the same blocks in both heaps. *)
Definition same_view (m m' : Mem) (rs : list Z) : Prop := forall a, a ∈ rs -> vw m' a = vw m a.

(** ** Byte arrays *)

Lemma zlen_length l : Z.to_nat (zlen l) = length l.
Proof. unfold zlen. lia. Qed.

Lemma zlen_app l1 l2 : zlen (l1 ++ l2) = zlen l1 + zlen l2.
Proof. unfold zlen. rewrite length_app. lia. Qed.

Lemma zlen_nonneg l : 0 <= zlen l.
Proof. unfold zlen. lia. Qed.

Lemma slice_length s e l : 0 <= s <= e -> e <= zlen l -> zlen (slice s e l) = e - s.
Proof. intros. unfold zlen, slice in *. rewrite length_take, length_drop. lia. Qed.

Lemma slice_lookup s e l i :
  0 <= s -> (i < Z.to_nat (e - s))%nat -> slice s e l !! i = l !! (Z.to_nat s + i)%nat.
Proof. intros. unfold slice. rewrite lookup_take_lt, lookup_drop by lia. done. Qed.

Lemma get_bytes_slice off n l :
  0 <= off -> 0 <= n -> off + n <= zlen l -> get_bytes off n l = Some (slice off (off + n) l).
Proof.
  intros. unfold get_bytes, slice. destruct (Z.eqb_spec n 0) as [->|].
  - by replace (Z.to_nat (off + 0 - off)) with O by lia.
  - rewrite (proj2 (Z.leb_le 0 off)), (proj2 (Z.leb_le 0 n)), (proj2 (Z.leb_le _ _)) by lia. simpl.
    do 2 f_equal. lia.
Qed.

Lemma put_bytes_ok off src l :
  0 <= off -> off + zlen src <= zlen l ->
  exists l', put_bytes off src l = Some l' /\ zlen l' = zlen l /\
    slice off (off + zlen src) l' = src /\
    (forall s e, 0 <= s -> e <= off \/ off + zlen src <= s -> slice s e l' = slice s e l).
Proof.
  intros H1 H2. unfold put_bytes. destruct (Z.eqb_spec (zlen src) 0) as [E|].
  { exists l. split_and!; try done. unfold zlen in E. destruct src; [| simpl in E; lia].
    unfold slice. by replace (Z.to_nat (off + zlen [] - off)) with O by (unfold zlen; simpl; lia). }
  rewrite (proj2 (Z.leb_le 0 off)), (proj2 (Z.leb_le _ (zlen l))) by lia. simpl.
  eexists. split; [done |]. unfold zlen in *. split_and!.
  - rewrite !length_app, length_take, length_drop. lia.
  - unfold slice. rewrite drop_app_length' by (rewrite length_take; lia).
    rewrite take_app_length' by lia. done.
  - intros s e Hs Hd. apply list_eq. intros i. unfold slice.
    destruct (decide (i < Z.to_nat (e - s))%nat);
      [| rewrite !lookup_take_ge by lia; done].
    rewrite !lookup_take_lt, !lookup_drop by lia. destruct Hd.
    + rewrite lookup_app_l by (rewrite length_take; lia). by rewrite lookup_take_lt by lia.
    + rewrite lookup_app_r by (rewrite length_take; lia). rewrite length_take.
      rewrite lookup_app_r by lia. rewrite lookup_drop. f_equal. lia.
Qed.

(** The internal bytes of a buffer determine its content. *)
Lemma content_ext l l' b :
  shape b -> slice (m_start b) (iend b) l = slice (m_start b) (iend b) l' ->
  content_of l b = content_of l' b.
Proof.
  intros (Hs & Hz & _) E. unfold content_of.
  assert (forall s e, m_start b <= s -> e <= iend b -> slice s e l = slice s e l') as Hsl.
  { intros s e Hs1 He1. apply list_eq. intros i.
    destruct (decide (i < Z.to_nat (e - s))%nat); [| unfold slice; rewrite !lookup_take_ge by lia; done].
    rewrite !slice_lookup by lia.
    assert (forall x, slice (m_start b) (iend b) x !! (Z.to_nat (s - m_start b) + i)%nat = x !! (Z.to_nat s + i)%nat) as Hx.
    { intros x. rewrite slice_lookup by lia. f_equal. lia. }
    rewrite <- Hx, E. apply Hx. }
  unfold iend, zone in *. rewrite !Hsl by lia. done.
Qed.

Lemma content_of_length l b :
  shape b -> iend b <= zlen l -> zlen (content_of l b) = m_end b - m_start b.
Proof.
  intros (Hs & Hz & _) Hl. unfold content_of. unfold iend, zone in *. rewrite !zlen_app.
  rewrite !slice_length by lia. unfold zlen. rewrite length_replicate. lia.
Qed.

(** ** Slices and contents *)

Lemma slice_nil s e l : e <= s -> slice s e l = [].
Proof. intros. unfold slice. by replace (Z.to_nat (e - s)) with O by lia. Qed.

(** Remove the empty slices of the goal. *)
Ltac slice_nils :=
  repeat match goal with |- context [slice ?s ?e ?l] => rewrite (slice_nil s e l) by lia end.

(** Equal lists, part by part, with equal bounds. *)
Ltac same_parts := slice_nils; repeat first [reflexivity | lia | f_equal].

Lemma drop_slice k s e l :
  0 <= s -> drop k (slice s e l) = slice (s + Z.of_nat k) e l.
Proof.
  intros. unfold slice. rewrite skipn_firstn_comm, drop_drop. f_equal; [lia |]. f_equal. lia.
Qed.

Lemma take_slice k s e l :
  take k (slice s e l) = slice s (s + Z.min (Z.of_nat k) (Z.max 0 (e - s))) l.
Proof. unfold slice. rewrite take_take. f_equal. lia. Qed.

Lemma slice_app s k e l : 0 <= s <= k -> k <= e -> slice s k l ++ slice k e l = slice s e l.
Proof.
  intros. unfold slice. rewrite <- (take_drop (Z.to_nat (k - s)) (take (Z.to_nat (e - s)) _)).
  rewrite take_take, skipn_firstn_comm, drop_drop. do 2 f_equal; [lia | lia |]. f_equal. lia.
Qed.

Lemma slice_lenN s e l : 0 <= s <= e -> e <= zlen l -> length (slice s e l) = Z.to_nat (e - s).
Proof. intros. pose proof (slice_length s e l). unfold zlen in *. lia. Qed.

(** Well-placed offsets, and what follows for the arithmetic. *)
Definition placed (sz : Z) (b : Buffer) : Prop := shape b /\ iend b <= sz /\ sz <= MAX_BLOCK.

Lemma placed_bounds sz b : placed sz b ->
  0 <= m_start b <= m_zeroAreaStart b /\ m_zeroAreaStart b <= m_zeroAreaEnd b <= m_end b /\
  m_end b - m_start b <= 2 ^ 30 /\ m_end b - m_zeroAreaEnd b + m_zeroAreaStart b <= sz /\
  sz <= 2 ^ 30 + 100 /\ m_end b <= 2 ^ 31 + 100.
Proof.
  intros ((H1 & H2 & H3) & H4 & H5).
  unfold iend, zone, MAX_BLOCK, MAX_CONTENT, ALLOC_OVER_PROVISION in *. lia.
Qed.

Lemma RemoveAtStart_content n sz b l :
  placed sz b -> zlen l = sz -> 0 <= n < 2 ^ 30 * 2 ->
  exists b', RemoveAtStart n b = Some b' /\ m_data b' = m_data b /\ shape b' /\
    m_start b <= m_start b' /\ zone b' <= zone b /\ iend b' <= iend b /\
    content_of l b' = drop (Z.to_nat n) (content_of l b).
Proof.
  intros Hp Hl Hn. destruct (placed_bounds _ _ Hp) as (H1 & H2 & H3 & H4 & H5 & H6).
  unfold RemoveAtStart, note_zero_start. rewrite (u32_small (m_start b + n)) by lia.
  unfold content_of. rewrite !drop_app, drop_replicate.
  rewrite !drop_slice, length_replicate, slice_lenN by (unfold iend, zone in *; lia).
  unfold shape, MAX_CONTENT, iend, zone in *.
  case_ifs; rewrite ?(u32_small (m_zeroAreaEnd b - m_zeroAreaStart b)) by lia;
    rewrite ?(u32_small (m_start b + n - m_zeroAreaStart b)) by lia;
    rewrite ?u32_small by lia.
  - eexists. split; [done |]. simpl. split_and!; try lia. same_parts.
  - eexists. split; [done |]. simpl. split_and!; try lia. same_parts.
  - rewrite (proj2 (Z.leb_le n (m_end b))) by lia. simpl.
    eexists. split; [done |]. simpl. split_and!; try lia. same_parts.
  - eexists. split; [done |]. simpl. split_and!; try lia. same_parts.
Qed.

Lemma RemoveAtEnd_content n sz b l :
  placed sz b -> zlen l = sz -> 0 <= n < 2 ^ 32 ->
  let b' := RemoveAtEnd n b in
  m_data b' = m_data b /\ shape b' /\
    m_start b = m_start b' /\ zone b' <= zone b /\ iend b' <= iend b /\
    content_of l b' = take (Z.to_nat (m_end b - m_start b - n)) (content_of l b).
Proof.
  intros Hp Hl Hn. destruct (placed_bounds _ _ Hp) as (H1 & H2 & H3 & H4 & H5 & H6).
  unfold RemoveAtEnd, note_zero_start. rewrite (u32_small (m_end b - m_start b)) by lia.
  rewrite (u32_small (m_end b - Z.min _ _)) by lia.
  unfold content_of. rewrite !take_app, take_replicate.
  rewrite !take_slice, length_replicate, slice_lenN by (unfold iend, zone in *; lia).
  unfold shape, MAX_CONTENT, iend, zone in *.
  case_ifs; simpl; split_and!; try lia.
  - same_parts.
  - same_parts.
  - same_parts.
  - slice_nils. rewrite ?app_nil_r. symmetry.
    replace (Z.to_nat (m_end b - m_start b - n)) with O by lia. simpl.
    by replace (Z.to_nat (m_start b - m_start b)) with O by lia.
Qed.

(** ** The heap *)

Lemma count_occ_zero (rs : list Z) a : Z.of_nat (count_occ Z.eq_dec rs a) = 0 <-> a ∉ rs.
Proof.
  rewrite list_elem_of_In, (count_occ_In Z.eq_dec). lia.
Qed.

Lemma count_occ_one (rs : list Z) a :
  Z.of_nat (count_occ Z.eq_dec (a :: rs) a) = 1 <-> a ∉ rs.
Proof. rewrite count_occ_cons_eq by done. rewrite <- count_occ_zero. lia. Qed.

Lemma count_occ_le (rs : list Z) a : (count_occ Z.eq_dec rs a <= length rs)%nat.
Proof. apply count_occ_bound. Qed.

Lemma same_view_refl m rs : same_view m m rs.
Proof. done. Qed.

Lemma same_view_trans m1 m2 m3 rs : same_view m1 m2 rs -> same_view m2 m3 rs -> same_view m1 m3 rs.
Proof. intros H1 H2 a Ha. rewrite H2 by done. by apply H1. Qed.

Lemma vw_store m a d c : vw (store a d m) c = if decide (a = c) then Some (view d) else vw m c.
Proof.
  unfold vw, store. simpl. case_decide; simplify_eq; [by rewrite lookup_insert_eq | by rewrite lookup_insert_ne].
Qed.

Lemma minv_free_not_ref m rs a : minv m rs -> a ∈ free_list m -> a ∉ rs.
Proof.
  intros Hi Ha. apply (mi_free _ _ Hi) in Ha as (d & Hd & Hc).
  apply count_occ_zero. by rewrite <- (bo_count _ _ _ _ (mi_block _ _ Hi a d Hd)).
Qed.

(** Change a block but neither its count nor its size. *)
Lemma minv_store m rs a d d' :
  minv m rs -> heap m !! a = Some d -> m_count d' = m_count d -> m_size d' = m_size d ->
  zlen (m_bytes d') = m_size d -> minv (store a d' m) rs.
Proof.
  intros Hi Hd Hc Hs Hl. destruct Hi as [Hb Hlive Hn Hf Hin Hfew Hr].
  split; simpl; try done.
  - intros a' e He. destruct (decide (a' = a)) as [->|].
    + rewrite lookup_insert_eq in He. simplify_eq. destruct (Hb _ _ Hd). split; simpl; congruence.
    + rewrite lookup_insert_ne in He by done. by destruct (Hb _ _ He).
  - intros a' Ha'. destruct (decide (a' = a)) as [->|]; [by rewrite lookup_insert_eq |].
    rewrite lookup_insert_ne by done. by apply Hlive.
  - intros a'. change (free_list (store a d' m)) with (free_list m). rewrite Hf.
    destruct (decide (a' = a)) as [->|]; [| by rewrite lookup_insert_ne].
    rewrite lookup_insert_eq. split; intros (e & He & Hce); simplify_eq;
      (eexists; split; [done | congruence]).
Qed.

(** Raise the count of a live block. *)
Lemma minv_ref m rs a :
  minv m rs -> a ∈ rs -> Z.of_nat (length rs) + 1 < 2 ^ 32 ->
  exists m', Ref a m = Some m' /\ minv m' (a :: rs) /\ (forall c, vw m' c = vw m c).
Proof.
  intros Hi Ha Hlen. destruct Hi as [Hb Hlive Hn Hf Hin Hfew Hr].
  destruct (Hlive _ Ha) as [d Hd]. unfold Ref, load. rewrite Hd.
  destruct (Hb _ _ Hd) as [Hc Hl Hs Hlt]. pose proof (count_occ_le rs a).
  rewrite u32_small by lia. eexists. split; [done |]. split.
  - split; simpl; try done.
    + intros a' e He. destruct (decide (a' = a)) as [->|].
      * rewrite lookup_insert_eq in He. simplify_eq. split; simpl; try done.
        destruct (Z.eq_dec a a); lia.
      * rewrite lookup_insert_ne in He by done. destruct (Hb _ _ He). split; try done.
        by rewrite count_occ_cons_neq.
    + intros a' Ha'. destruct (decide (a' = a)) as [->|]; [by rewrite lookup_insert_eq |].
      rewrite lookup_insert_ne by done. apply Hlive. set_solver.
    + intros a'. change (free_list (store _ _ m)) with (free_list m). rewrite Hf.
      destruct (decide (a' = a)) as [->|]; [| by rewrite lookup_insert_ne].
      rewrite lookup_insert_eq. rewrite list_elem_of_In in Ha. apply (count_occ_In Z.eq_dec) in Ha.
      split; intros (e & He & Hce); simplify_eq; simpl in *; lia.
    + intros _. apply Hin. intros ->. by apply not_elem_of_nil in Ha.
    + lia.
  - intros c. rewrite vw_store. case_decide; [| done]. subst. unfold vw. by rewrite Hd.
Qed.

(** The heap invariant while the block [a] is in transit: neither referenced
    nor on the free list. *)
Record minv_but (a : Z) (m : Mem) (rs : list Z) : Prop := mkBut {
  mb_ref : a ∉ rs;
  mb_notfree : a ∉ free_list m;
  mb_block : forall c d, heap m !! c = Some d -> c <> a -> block_ok m rs c d;
  mb_live : forall c, c ∈ rs -> is_Some (heap m !! c);
  mb_nodup : NoDup (free_list m);
  mb_free : forall c, c <> a -> c ∈ free_list m <-> exists d, heap m !! c = Some d /\ m_count d = 0;
  mb_init : rs <> [] -> g_freeList m <> UNINITIALIZED;
  mb_few : Z.of_nat (length rs) < 2 ^ 32;
  mb_rec : 0 <= g_recommendedStart m
}.

Lemma minv_delete m rs a : minv_but a m rs -> minv (set_heap (delete a (heap m)) m) rs.
Proof.
  intros [Hra Hfa Hb Hlive Hn Hf Hin Hfew Hr]. split; simpl; try done.
  - intros c d Hd. apply lookup_delete_Some in Hd as [Hne Hd].
    destruct (Hb c d Hd) as [? ? ? ?]; [done |]. by split.
  - intros c Hc. rewrite lookup_delete_ne by (by intros ->). by apply Hlive.
  - intros c. change (free_list (set_heap _ m)) with (free_list m).
    destruct (decide (c = a)) as [->|].
    + split; [done |]. intros (d & Hd & _). by rewrite lookup_delete_eq in Hd.
    + rewrite Hf by done. by rewrite lookup_delete_ne.
Qed.

Lemma vw_delete m a c : c <> a -> vw (set_heap (delete a (heap m)) m) c = vw m c.
Proof. intros. unfold vw. simpl. by rewrite lookup_delete_ne. Qed.

Lemma Deallocate_ok m rs a d :
  minv_but a m rs -> heap m !! a = Some d -> m_count d = 0 ->
  exists m', Deallocate a m = Some m' /\ minv m' rs /\ same_view m m' rs /\
    g_recommendedStart m' = g_recommendedStart m /\ g_freeList m' = g_freeList m.
Proof.
  intros Hi Hd Hc. unfold Deallocate, load. rewrite Hd, Hc. simpl. eexists. split; [done |].
  split_and!; [by apply minv_delete | | done | done]. intros c Hcr. apply vw_delete.
  intros ->. by apply (mb_ref _ _ _ Hi).
Qed.

Lemma Recycle_ok m rs a d :
  minv_but a m rs -> heap m !! a = Some d -> m_count d = 0 -> block_ok m rs a d ->
  g_freeList m <> UNINITIALIZED ->
  exists m', Recycle a m = Some m' /\ minv m' rs /\ same_view m m' rs /\
    g_recommendedStart m' = g_recommendedStart m.
Proof.
  intros Hi Hd Hc Hbo Hu. set (m1 := set_maxSize (Z.max (g_maxSize m) (m_size d)) m).
  assert (minv_but a m1 rs) as Hi1.
  { destruct Hi as [? ? Hb ? ? ? ? ? ?]. split; try done. intros c e He Hne.
    by destruct (Hb c e He Hne). }
  destruct (Deallocate_ok m1 rs a d Hi1 Hd Hc) as (m2 & E2 & Hi2 & Hv2 & Hg2 & _).
  unfold Recycle, load. rewrite Hd, Hc. simpl. fold m1.
  destruct (g_freeList m) as [|l|] eqn:El; [done | | by exists m2].
  case_ifs; [by exists m2 |]. eexists. split; [done |]. split_and!; [| done | done].
  destruct Hi as [Hra Hfa Hb Hlive Hn Hf Hin Hfew Hr]. unfold free_list in *. rewrite El in *.
  split; simpl; unfold free_list; simpl; try done.
  - intros c e He. destruct (decide (c = a)) as [->|].
    + simplify_eq. by destruct Hbo.
    + by destruct (Hb c e).
  - constructor; done.
  - intros c. rewrite elem_of_cons. destruct (decide (c = a)) as [->|].
    + split; [intros _ | by left]. by exists d.
    + rewrite <- Hf by done. naive_solver.
Qed.

(** Drop one reference. *)
Lemma Unref_ok m rs a :
  minv m (a :: rs) ->
  exists m', Unref a m = Some m' /\ minv m' rs /\ same_view m m' rs /\
    g_recommendedStart m' = g_recommendedStart m.
Proof.
  intros [Hb Hlive Hn Hf Hin Hfew Hr].
  destruct (Hlive a) as [d Hd]; [set_solver |]. pose proof (Hb _ _ Hd) as [Hc Hl Hs Hlt].
  rewrite count_occ_cons_eq in Hc by done. pose proof (count_occ_le rs a). simpl in Hfew.
  assert (u32 (m_count d - 1) = Z.of_nat (count_occ Z.eq_dec rs a)) as Hu by (rewrite u32_small; lia).
  unfold Unref, load. rewrite Hd, Hu. set (d' := with_count _ d). set (m1 := store a d' m).
  assert (heap m1 !! a = Some d') as Hd1 by (unfold m1; simpl; by rewrite lookup_insert_eq).
  assert (forall c, c <> a -> heap m1 !! c = heap m !! c) as Hne1
    by (intros; unfold m1; simpl; by rewrite lookup_insert_ne).
  assert (block_ok m1 rs a d') as Hbo by (by split).
  assert (forall c e, heap m1 !! c = Some e -> c <> a -> block_ok m1 rs c e) as Hb1.
  { intros c e He Hne. rewrite Hne1 in He by done. destruct (Hb _ _ He) as [Hc' ? ? ?].
    split; try done. by rewrite count_occ_cons_neq in Hc'. }
  assert (forall c, c ∈ rs -> is_Some (heap m1 !! c)) as Hlive1.
  { intros c Hcr. destruct (decide (c = a)) as [->|]; [by rewrite Hd1 |].
    rewrite Hne1 by done. apply Hlive. set_solver. }
  assert (forall c, c <> a -> c ∈ free_list m1 <-> exists e, heap m1 !! c = Some e /\ m_count e = 0) as Hf1.
  { intros c Hne. change (free_list m1) with (free_list m). by rewrite Hf, Hne1. }
  assert (a ∉ free_list m1) as Hfa.
  { change (free_list m1) with (free_list m). rewrite Hf. intros (e & He & Hce).
    rewrite Hd in He. simplify_eq. lia. }
  assert (same_view m m1 rs) as Hv.
  { intros c _. unfold m1. rewrite vw_store. case_decide; [| done]. subst. unfold vw. by rewrite Hd. }
  case_ifs.
  - destruct (Recycle_ok m1 rs a d') as (m' & -> & Hi & Hv' & Hg); try done; [| by apply Hin |].
    + split; try done; [by apply count_occ_zero | by intros _; apply Hin | lia].
    + exists m'. split_and!; [done | done | by eapply same_view_trans | done].
  - exists m1. split_and!; try done. split; try done.
    + intros c e He. destruct (decide (c = a)) as [->|]; [| by apply Hb1].
      by replace e with d' by congruence.
    + intros c. destruct (decide (c = a)) as [->|]; [| by apply Hf1].
      split; [done |]. intros (e & He & Hce). rewrite Hd1 in He. simplify_eq; simpl in Hce; lia.
    + intros _. by apply Hin.
    + lia.
Qed.

Section Alloc.
Context (uninit : Z -> nat -> Z).

Lemma set_free_minv m rs f :
  minv m rs -> f <> UNINITIALIZED -> free_list (set_free f m) = free_list m -> minv (set_free f m) rs.
Proof.
  intros [Hb Hlive Hn Hf Hin Hfew Hr] Hfu Hfl. split; try done.
  - intros a d Hd. by destruct (Hb a d Hd).
  - by rewrite Hfl.
  - by rewrite Hfl.
Qed.

Lemma Allocate_ok m rs n :
  minv m rs -> g_freeList m <> UNINITIALIZED -> 0 <= n <= MAX_CONTENT ->
  Z.of_nat (length rs) + 1 < 2 ^ 32 ->
  exists a m', Allocate uninit n m = (a, m') /\ minv m' (a :: rs) /\ a ∉ rs /\ same_view m m' rs /\
    (exists d, heap m' !! a = Some d /\ n <= m_size d) /\
    g_recommendedStart m' = g_recommendedStart m.
Proof.
  intros [Hb Hlive Hn Hf Hin Hfew Hr] Hfu Hsz Hlen. unfold Allocate.
  set (req := if n =? 0 then 1 else n).
  assert (1 <= req <= MAX_CONTENT /\ n <= req) as Hreq
    by (unfold req, MAX_CONTENT in *; case_ifs; lia).
  unfold ALLOC_OVER_PROVISION in *. rewrite (u32_small (req + 100)) by (unfold MAX_CONTENT in *; lia).
  set (a := next_addr m). set (d0 := mkData 1 _ _ _ _).
  assert (heap m !! a = None) as Ha.
  { apply eq_None_not_Some. intros [d Hd]. apply Hb in Hd as [_ _ _ Hd]. subst a. lia. }
  assert (a ∉ rs) as Har by (intros Hr'; destruct (Hlive _ Hr') as [? Hx]; congruence).
  do 2 eexists. split; [done |]. split_and!; [| done | | |  done].
  - split; simpl; try done.
    + intros c d Hd. destruct (decide (c = a)) as [->|].
      * rewrite lookup_insert_eq in Hd. simplify_eq. split; simpl; try lia.
        -- destruct (Z.eq_dec a a); [| lia].
           apply count_occ_zero in Har. lia.
        -- unfold zlen. rewrite length_map, length_seq. lia.
        -- unfold MAX_BLOCK, ALLOC_OVER_PROVISION. lia.
      * rewrite lookup_insert_ne in Hd by done. destruct (Hb _ _ Hd) as [Hc ? ? ?].
        split; simpl; try done; [| lia].
        destruct (Z.eq_dec a c); [congruence | done].
    + intros c [->|Hc]%elem_of_cons; [by rewrite lookup_insert_eq |].
      rewrite lookup_insert_ne by (by intros ->). by apply Hlive.
    + intros c. change (free_list _) with (free_list m). destruct (decide (c = a)) as [->|].
      * rewrite lookup_insert_eq, Hf. split; intros (d & Hd & Hc); [congruence |]. by simplify_eq.
      * rewrite lookup_insert_ne by done. apply Hf.
    + lia.
  - intros c Hc. unfold vw. simpl. rewrite lookup_insert_ne by (by intros ->). done.
  - exists d0. simpl. rewrite lookup_insert_eq. split; [done |]. simpl. lia.
Qed.

(** Taking the back of the free list leaves that block in transit. *)
Lemma free_back_but m rs a rest :
  minv (set_free (INITIALIZED (a :: rest)) m) rs ->
  minv_but a (set_free (INITIALIZED rest) m) rs /\
  exists d, heap m !! a = Some d /\ m_count d = 0 /\ block_ok m rs a d.
Proof.
  intros Hi. pose proof (minv_free_not_ref _ _ a Hi ltac:(unfold free_list; simpl; set_solver)) as Hra.
  destruct Hi as [Hb Hlive Hn Hf Hin Hfew Hr]. unfold free_list in *. simpl in *.
  apply NoDup_cons in Hn as [Hna Hn]. split.
  - split; try done.
    + intros c d Hd _. by destruct (Hb c d Hd).
    + intros c Hne. rewrite <- Hf. unfold free_list. simpl. set_solver.
  - destruct (proj1 (Hf a)) as (d & Hd & Hc); [set_solver |]. exists d. split_and!; try done.
    by destruct (Hb a d Hd).
Qed.

Lemma find_free_ok n l m rs :
  minv (set_free (INITIALIZED l) m) rs -> Z.of_nat (length rs) + 1 < 2 ^ 32 ->
  exists r l' m', find_free n l m = Some (r, l', m') /\ same_view m m' rs /\
    g_recommendedStart m' = g_recommendedStart m /\
    match r with
    | Some a => minv (set_free (INITIALIZED l') m') (a :: rs) /\ a ∉ rs /\
                exists d, heap m' !! a = Some d /\ n <= m_size d
    | None => minv (set_free (INITIALIZED l') m') rs
    end.
Proof.
  revert m. induction l as [|a rest IH]; intros m Hi Hlen; simpl; [by exists None, [], m |].
  destruct (free_back_but m rs a rest Hi) as (Hbut & d & Hd & Hc & Hbo).
  unfold load. rewrite Hd. case_ifs.
  - eexists (Some a), rest, _. split; [done |].
    destruct Hbut as [Hra Hfa Hb Hlive Hn Hf Hin Hfew Hr]. split_and!; [| done | | done |].
    + intros c Hcr. rewrite vw_store, decide_False; [done |]. by intros ->.
    + split; simpl; try done.
      * intros c e He. destruct (decide (c = a)) as [->|].
        -- rewrite lookup_insert_eq in He. simplify_eq. destruct Hbo. split; simpl; try done.
           destruct (Z.eq_dec a a); [| lia]. apply count_occ_zero in Hra. lia.
        -- rewrite lookup_insert_ne in He by done. destruct (Hb c e He) as [? ? ? ?]; [done |].
           split; simpl; try done. destruct (Z.eq_dec a c); [congruence | done].
      * intros c [->|Hcr]%elem_of_cons; [by rewrite lookup_insert_eq |].
        rewrite lookup_insert_ne by (by intros ->). by apply Hlive.
      * intros c. destruct (decide (c = a)) as [->|].
        -- rewrite lookup_insert_eq. split; [done |]. intros (e & He & Hce). by simplify_eq.
        -- rewrite lookup_insert_ne by done. by apply Hf.
      * lia.
    + eexists. simpl. rewrite lookup_insert_eq. split; [done |]. simpl. lia.
  - destruct (Deallocate_ok _ _ a d Hbut Hd Hc) as (m1 & E1 & Hi1 & Hv1 & Hg1 & _).
    unfold Deallocate, load in E1 |- *. simpl in E1. rewrite Hd, Hc in E1 |- *. simpl in *. simplify_eq.
    destruct (IH (set_heap (delete a (heap m)) m)) as (r & l' & m' & -> & Hv & Hg & Hr); [exact Hi1 | done |].
    exists r, l', m'. split_and!; [done | | done | done]. by eapply same_view_trans.
Qed.

Lemma Create_ok n m rs :
  minv m rs -> 0 <= n <= MAX_CONTENT -> Z.of_nat (length rs) + 1 < 2 ^ 32 ->
  exists a m', Create uninit n m = Some (a, m') /\ minv m' (a :: rs) /\ a ∉ rs /\ same_view m m' rs /\
    (exists d, heap m' !! a = Some d /\ n <= m_size d) /\
    g_recommendedStart m' = g_recommendedStart m.
Proof.
  intros Hi Hn Hlen. unfold Create. destruct (g_freeList m) as [|l|] eqn:El.
  - destruct (Allocate_ok (set_free (INITIALIZED []) m) rs n) as (a & m' & -> & H); try done.
    + apply set_free_minv; try done. unfold free_list. by rewrite El.
    + by exists a, m'.
  - assert (m = set_free (INITIALIZED l) m) as Em by (destruct m; simpl in *; by subst).
    rewrite Em in Hi. destruct (find_free_ok n l m rs Hi Hlen) as (r & l' & m' & -> & Hv & Hg & Hr).
    destruct r as [a|]; simpl.
    + destruct Hr as (Hi' & Hra & Hd). by exists a, (set_free (INITIALIZED l') m').
    + destruct (Allocate_ok (set_free (INITIALIZED l') m') rs n) as (a & m2 & -> & Hi2 & Hra & Hv2 & Hd & Hg2); try done.
      exists a, m2. split_and!; try done; [by eapply same_view_trans | by rewrite Hg2].
  - destruct (Allocate_ok m rs n) as (a & m' & -> & H); try done; [by rewrite El |]. by exists a, m'.
Qed.

End Alloc.

(** ** Live buffers *)

Lemma minv_perm m rs rs' : rs ≡ₚ rs' -> minv m rs -> minv m rs'.
Proof.
  intros Hp [Hb Hlive Hn Hf Hin Hfew Hr]. split; try done.
  - intros a d Hd. destruct (Hb a d Hd) as [Hc ? ? ?]. split; try done.
    rewrite Hc. f_equal. by apply Permutation_count_occ.
  - intros a. rewrite <- Hp. apply Hlive.
  - intros Hne. apply Hin. intros ->. by apply Permutation_nil_l in Hp.
  - by rewrite <- Hp.
Qed.

Lemma binv_perm m bs bs' : bs ≡ₚ bs' -> binv m bs -> binv m bs'.
Proof.
  intros Hp [Hs Hb Hsh]. split; intros; [apply Hs | eapply Hb | eapply (Hsh b c)]; by rewrite ?Hp.
Qed.

Lemma binv_sub m bs bs' : bs' ⊆ bs -> binv m bs -> binv m bs'.
Proof. intros Hp [Hs Hb Hsh]. split; intros; [apply Hs | eapply Hb | eapply (Hsh b c)]; eauto. Qed.

Lemma same_view_binv m m' bs :
  same_view m m' (m_data <$> bs) -> binv m bs -> binv m' bs.
Proof.
  intros Hv [Hs Hb Hsh].
  assert (forall b, b ∈ bs -> vw m' (m_data b) = vw m (m_data b)) as Hv'.
  { intros b Hin. apply Hv. by apply list_elem_of_fmap_2. }
  split; [done | |]; intros *; intros Hin; rewrite Hv' by done; eauto.
Qed.

Lemma same_view_content m m' bs b :
  same_view m m' (m_data <$> bs) -> b ∈ bs -> content m' b = content m b.
Proof. intros Hv Hin. unfold content. rewrite Hv; [done |]. by apply list_elem_of_fmap_2. Qed.

(** A live buffer has a block it fits in. *)
Lemma live_block m bs b :
  inv m bs -> b ∈ bs ->
  exists d, heap m !! m_data b = Some d /\ placed (m_size d) b /\ m_dirtyStart d <= m_start b /\
    zlen (m_bytes d) = m_size d /\ m_count d = Z.of_nat (count_occ Z.eq_dec (m_data <$> bs) (m_data b)) /\
    content m b = content_of (m_bytes d) b.
Proof.
  intros [Hm Hb] Hin. destruct (mi_live _ _ Hm (m_data b)) as [d Hd]; [by apply list_elem_of_fmap_2 |].
  exists d. assert (vw m (m_data b) = Some (view d)) as Hv by (unfold vw; by rewrite Hd).
  destruct (bi_block _ _ Hb b _ _ _ _ Hin Hv) as [H1 H2].
  destruct (mi_block _ _ Hm _ _ Hd) as [Hc Hl Hs _].
  split_and!; try done; [split; [by apply Hb in Hin | lia] |].
  unfold content. by rewrite Hv.
Qed.

(** Shrinking a buffer in place. *)
Lemma binv_shrink m b b' bs :
  inv m (b :: bs) -> m_data b' = m_data b -> shape b' -> m_start b <= m_start b' ->
  zone b' <= zone b -> iend b' <= iend b -> inv m (b' :: bs).
Proof.
  intros [Hm [Hs Hb Hsh]] Ed Hs' Hst Hz He.
  assert (forall c, c ∈ b' :: bs -> exists c0, c0 ∈ b :: bs /\ m_data c = m_data c0 /\
            m_start c0 <= m_start c /\ zone c <= zone c0 /\ iend c <= iend c0) as Hold.
  { intros c [->|Hc]%elem_of_cons; [exists b; set_solver |]. exists c. split_and!; try done; set_solver. }
  split; [simpl; by rewrite Ed |]. split.
  - intros c [->|Hc]%elem_of_cons; [done |]. apply Hs. set_solver.
  - intros c sz ds de l Hc Hv. destruct (Hold c Hc) as (c0 & Hc0 & E & H1 & H2 & H3).
    rewrite E in Hv. destruct (Hb c0 _ _ _ _ Hc0 Hv). lia.
  - intros c e sz ds de l Hc He' E Hv.
    destruct (Hold c Hc) as (c0 & Hc0 & Ec & H1 & H2 & H3).
    destruct (Hold e He') as (e0 & He0 & Ee & H4 & H5 & H6).
    pose proof (Hsh c0 e0 sz ds de l Hc0 He0 ltac:(congruence) ltac:(congruence)). lia.
Qed.

Lemma RemoveAtStart_ok n m b bs :
  inv m (b :: bs) -> 0 <= n < 2 ^ 31 ->
  exists b', RemoveAtStart n b = Some b' /\ inv m (b' :: bs) /\
    content m b' = drop (Z.to_nat n) (content m b).
Proof.
  intros Hi Hn. destruct (live_block _ _ b Hi) as (d & Hd & Hp & _ & Hl & _ & Hc); [set_solver |].
  destruct (RemoveAtStart_content n _ _ _ Hp Hl) as (b' & -> & Ed & Hs & H1 & H2 & H3 & E); [lia |].
  exists b'. split_and!; [done | by eapply binv_shrink |].
  rewrite Hc, <- E. unfold content, vw. by rewrite Ed, Hd.
Qed.

Lemma RemoveAtEnd_ok n m b bs :
  inv m (b :: bs) -> 0 <= n < 2 ^ 32 ->
  inv m (RemoveAtEnd n b :: bs) /\
  content m (RemoveAtEnd n b) = take (length (content m b) - Z.to_nat n) (content m b).
Proof.
  intros Hi Hn. destruct (live_block _ _ b Hi) as (d & Hd & Hp & _ & Hl & _ & Hc); [set_solver |].
  destruct (RemoveAtEnd_content n _ _ _ Hp Hl Hn) as (Ed & Hs & H1 & H2 & H3 & E).
  split; [eapply binv_shrink; eauto; lia |]. rewrite Hc.
  destruct Hp as (Hsh & He & _). pose proof (content_of_length (m_bytes d) b Hsh) as Hlen.
  rewrite Hl in Hlen. specialize (Hlen He). unfold zlen in Hlen.
  replace (length (content_of (m_bytes d) b) - Z.to_nat n)%nat
    with (Z.to_nat (m_end b - m_start b - n)) by (destruct Hsh; lia).
  rewrite <- E. unfold content, vw. by rewrite Ed, Hd.
Qed.

(** The copy constructor: one more view of the same block. *)
Lemma copy_ok m b bs :
  inv m (b :: bs) -> Z.of_nat (length bs) + 2 < 2 ^ 32 ->
  exists b' m', copy b m = Some (b', m') /\ inv m' (b' :: b :: bs) /\
    content m' b' = content m b /\ (forall c, c ∈ b :: bs -> content m' c = content m c).
Proof.
  intros [Hm Hb] Hlen. destruct (minv_ref m (m_data <$> b :: bs) (m_data b)) as (m' & E & Hm' & Hv);
    [done | set_solver | simpl; rewrite length_fmap; lia |].
  unfold copy. rewrite E. do 2 eexists. split; [done |].
  assert (forall c, content m' c = content m c) as Hc by (intros; unfold content; by rewrite Hv).
  split_and!; [| by rewrite Hc | done]. split; [done |].
  assert (binv m' (b :: b :: bs)) as Hb2.
  { eapply (same_view_binv m); [by intros c _ |]. eapply binv_sub; [| done]. set_solver. }
  apply (binv_shrink m' b _ (b :: bs)); try done.
  apply (bi_shape _ _ Hb b). set_solver.
Qed.

Lemma set_recommended_minv m rs n : minv m rs -> minv (set_recommended (Z.max (g_recommendedStart m) n) m) rs.
Proof.
  intros [Hb Hlive Hn Hf Hin Hfew Hr]. split; simpl; try done; [| lia].
  intros a d Hd. by destruct (Hb a d Hd).
Qed.

(** The destructor gives one reference back; nobody else sees a difference. *)
Lemma destroy_ok m b bs :
  inv m (b :: bs) ->
  exists m', destroy b m = Some m' /\ inv m' bs /\ (forall c, c ∈ bs -> content m' c = content m c).
Proof.
  intros [Hm Hb]. unfold destroy.
  destruct (Unref_ok _ _ _ (set_recommended_minv _ _ (m_maxZeroAreaStart b) Hm)) as (m' & -> & Hm' & Hv & _).
  exists m'. split; [done |]. split; [split; [done |] |].
  - eapply (same_view_binv m); [done |]. eapply binv_sub; [| done]. set_solver.
  - intros c Hc. by eapply same_view_content.
Qed.

Lemma mkBuffer_eta o :
  mkBuffer (m_data o) (m_maxZeroAreaStart o) (m_zeroAreaStart o) (m_zeroAreaEnd o) (m_start o) (m_end o) = o.
Proof. by destruct o. Qed.

Lemma assign_ok m b o bs :
  inv m (b :: o :: bs) ->
  exists m', assign b o m = Some (o, m') /\ inv m' (o :: o :: bs) /\
    (forall c, c ∈ o :: bs -> content m' c = content m c).
Proof.
  intros [Hm Hb]. unfold assign. rewrite mkBuffer_eta.
  assert (forall m2, minv m2 (m_data <$> o :: o :: bs) -> same_view m m2 (m_data <$> o :: bs) ->
    let m3 := set_recommended (Z.max (g_recommendedStart m2) (m_maxZeroAreaStart b)) m2 in
    inv m3 (o :: o :: bs) /\ (forall c, c ∈ o :: bs -> content m3 c = content m c)) as Hfin.
  { intros m2 Hm2 Hv2. split; [split; [by apply set_recommended_minv |] |].
    - eapply (same_view_binv m); [intros a Ha; apply Hv2; set_solver |]. eapply binv_sub; [| done]. set_solver.
    - intros c Hc. by eapply (same_view_content m). }
  case_ifs.
  - destruct (Hfin m) as [H1 H2]; [simpl in *; congruence | done |]. by eexists.
  - destruct (Unref_ok m (m_data <$> o :: bs) (m_data b)) as (m1 & -> & Hm1 & Hv1 & _); [done |].
    pose proof (mi_few _ _ Hm) as Hfew. simpl in Hfew. rewrite length_fmap in Hfew.
    destruct (minv_ref m1 (m_data <$> o :: bs) (m_data o)) as (m2 & -> & Hm2 & Hv2);
      [done | set_solver | simpl; rewrite length_fmap; lia |].
    destruct (Hfin m2) as [H1 H2]; [done | intros a Ha; rewrite Hv2; by apply Hv1 |]. by eexists.
Qed.

Lemma assign_self_ok m b bs :
  inv m (b :: bs) ->
  exists m', assign b b m = Some (b, m') /\ inv m' (b :: bs) /\ (forall c, content m' c = content m c).
Proof.
  intros [Hm Hb]. unfold assign. rewrite Z.eqb_refl, mkBuffer_eta. eexists. split; [done |].
  split; [split; [by apply set_recommended_minv |] | done]. by eapply (same_view_binv m).
Qed.

(** A buffer alone on its block. *)
Lemma binv_alone m b bs d :
  binv m bs -> m_data b ∉ m_data <$> bs -> heap m !! m_data b = Some d -> shape b ->
  m_dirtyStart d <= m_start b -> iend b <= m_size d -> m_end b <= m_dirtyEnd d -> binv m (b :: bs).
Proof.
  intros [Hs Hb Hsh] Hna Hd Hshape H1 H2 H3.
  assert (vw m (m_data b) = Some (view d)) as Hv by (unfold vw; by rewrite Hd).
  assert (forall c, c ∈ bs -> m_data c <> m_data b) as Hne.
  { intros c Hc E. apply Hna. rewrite <- E. by apply list_elem_of_fmap_2. }
  split.
  - intros c [->|Hc]%elem_of_cons; auto.
  - intros c sz ds de l [->|Hc]%elem_of_cons Hvc; [| by eapply Hb]. rewrite Hv in Hvc. by injection Hvc as <- <- <- <-.
  - intros c e sz ds de l [->|Hc]%elem_of_cons [->|He]%elem_of_cons E Hvc.
    + rewrite Hv in Hvc. injection Hvc as <- <- <- <-. unfold iend in *. lia.
    + by destruct (Hne e He).
    + by destruct (Hne c Hc).
    + by eapply Hsh.
Qed.

(** What a buffer that was just grown may write without being seen by others:
    the internal bytes [s, e) of its block. *)
Definition private (b : Buffer) (s e : Z) (bs : list Buffer) : Prop :=
  forall c, c ∈ bs -> m_data c = m_data b -> e <= s \/ iend c <= s \/ e <= m_start c.

Lemma private_alone b s e bs : m_data b ∉ m_data <$> bs -> private b s e bs.
Proof. intros Hna c Hc E. destruct Hna. rewrite <- E. by apply list_elem_of_fmap_2. Qed.

(** Growing the content at the start of a slice. *)
Lemma content_of_start l b s0 :
  0 <= s0 <= m_start b -> shape b -> iend b <= zlen l ->
  content_of l (mkBuffer (m_data b) (m_maxZeroAreaStart b) (m_zeroAreaStart b) (m_zeroAreaEnd b) s0 (m_end b)) =
  slice s0 (m_start b) l ++ content_of l b.
Proof.
  intros H0 (H1 & H2 & _) Hl. unfold content_of, iend, zone. simpl.
  rewrite <- (slice_app s0 (m_start b) (m_zeroAreaStart b)) by lia. by rewrite <- app_assoc.
Qed.

Lemma content_of_end l b e0 :
  m_end b <= e0 -> shape b ->
  content_of l (mkBuffer (m_data b) (m_maxZeroAreaStart b) (m_zeroAreaStart b) (m_zeroAreaEnd b) (m_start b) e0) =
  content_of l b ++ slice (iend b) (e0 - zone b) l.
Proof.
  intros H0 (H1 & H2 & _). unfold content_of, iend, zone. simpl. rewrite <- !app_assoc.
  rewrite slice_app by lia. done.
Qed.

(** Shifting a buffer to another position of its bytes. *)
Lemma content_of_shift l l' b a k :
  shape b -> 0 <= m_start b + k ->
  slice (m_start b + k) (iend b + k) l' = slice (m_start b) (iend b) l ->
  content_of l' (mkBuffer a (m_maxZeroAreaStart b) (m_zeroAreaStart b + k) (m_zeroAreaEnd b + k)
                   (m_start b + k) (m_end b + k)) = content_of l b.
Proof.
  intros (H1 & H2 & _) Hk E. unfold content_of, iend, zone in *. simpl.
  set (z := m_zeroAreaEnd b - m_zeroAreaStart b) in *.
  assert (forall s e, m_start b <= s -> e <= m_end b - z -> slice (s + k) (e + k) l' = slice s e l) as Hsl.
  { intros s e Hs He. apply list_eq. intros i.
    destruct (decide (i < Z.to_nat (e - s))%nat);
      [| unfold slice; rewrite !lookup_take_ge by lia; done].
    rewrite !slice_lookup by lia.
    assert (slice (m_start b + k) (m_end b - z + k) l' !! (Z.to_nat (s - m_start b) + i)%nat =
            slice (m_start b) (m_end b - z) l !! (Z.to_nat (s - m_start b) + i)%nat) as Hx by by rewrite E.
    rewrite !slice_lookup in Hx by lia.
    replace (Z.to_nat (s + k) + i)%nat with (Z.to_nat (m_start b + k) + (Z.to_nat (s - m_start b) + i))%nat by lia.
    rewrite Hx. f_equal. lia. }
  rewrite Hsl by lia. f_equal. f_equal; [f_equal; lia |].
  rewrite <- Hsl by lia. f_equal. lia.
Qed.

(** Growing a buffer in place, with a new dirty area. *)
Lemma inv_grow m b b' bs d s' e' :
  inv m (b :: bs) -> heap m !! m_data b = Some d -> m_data b' = m_data b -> shape b' ->
  s' <= m_start b' -> iend b' <= m_size d -> m_end b' <= e' ->
  (forall c, c ∈ bs -> m_data c = m_data b ->
     s' <= m_start c /\ iend b' + zone c <= e' /\ iend c + zone b' <= e' /\ m_dirtyEnd d <= e') ->
  let m' := store (m_data b) (with_dirty s' e' d) m in
  inv m' (b' :: bs) /\ (forall c, content m' c = content m c).
Proof.
  intros [Hm [Hs Hb Hsh]] Hd Ed Hs' H1 H2 H3 Hoth m'.
  assert (vw m (m_data b) = Some (view d)) as Hv0 by (unfold vw; by rewrite Hd).
  assert (forall a, vw m' a = if decide (m_data b = a) then Some (m_size d, s', e', m_bytes d) else vw m a)
    as Hv by (intros a; unfold m'; by rewrite vw_store).
  split; [split |].
  - simpl. rewrite Ed. eapply minv_store; try done. by destruct (mi_block _ _ Hm _ _ Hd).
  - split.
    + intros c [->|Hc]%elem_of_cons; [done |]. apply Hs. set_solver.
    + intros c sz ds de l Hc. rewrite Hv. case_decide as E; intros Hvc.
      * simplify_eq. apply elem_of_cons in Hc as [->|Hc]; [done |].
        destruct (Hoth c Hc) as (? & _); [done |]. split; [done |].
        destruct (Hb c (m_size d) (m_dirtyStart d) (m_dirtyEnd d) (m_bytes d)); [set_solver | rewrite <- E; exact Hv0 | done].
      * apply elem_of_cons in Hc as [->|Hc]; [congruence |]. eapply (Hb c); [set_solver | done].
    + intros c e sz ds de l Hc He Eq. rewrite Hv. case_decide as E; intros Hvc.
      * simplify_eq. apply elem_of_cons in Hc as [->|Hc], He as [->|He].
        -- unfold iend in *. lia.
        -- by destruct (Hoth e He) as (_ & ? & _); [congruence |].
        -- by destruct (Hoth c Hc) as (_ & _ & ? & _); [congruence |].
        -- destruct (Hoth c Hc) as (_ & _ & _ & ?); [congruence |].
           pose proof (Hsh c e (m_size d) (m_dirtyStart d) (m_dirtyEnd d) (m_bytes d)
             ltac:(set_solver) ltac:(set_solver) ltac:(congruence) ltac:(rewrite <- E; exact Hv0)). lia.
      * apply elem_of_cons in Hc as [->|Hc], He as [->|He]; try congruence.
        eapply (Hsh c e); [set_solver | set_solver | done | done].
  - intros c. unfold content. rewrite Hv. case_decide as E; [| done]. rewrite <- E, Hv0. done.
Qed.

Lemma note_zero_start_ok m b bs :
  inv m (b :: bs) -> inv m (note_zero_start b :: bs) /\ content m (note_zero_start b) = content m b.
Proof.
  intros Hi. split; [| done]. eapply binv_shrink; try done.
  destruct Hi as [_ Hb]. apply (bi_shape _ _ Hb b). set_solver.
Qed.

(** A sole reference means a block of its own. *)
Lemma sole_owner m b bs d :
  inv m (b :: bs) -> heap m !! m_data b = Some d -> m_count d <= 1 -> m_data b ∉ m_data <$> bs.
Proof.
  intros [Hm _] Hd Hc. destruct (mi_block _ _ Hm _ _ Hd) as [Hcnt _ _ _].
  rewrite fmap_cons, count_occ_cons_eq in Hcnt by done. apply count_occ_zero. lia.
Qed.

Lemma content_size m b bs :
  inv m (b :: bs) -> zlen (content m b) = m_end b - m_start b.
Proof.
  intros Hi. destruct (live_block _ _ b Hi) as (d & Hd & (Hs & He & _) & _ & Hl & _ & ->); [set_solver |].
  apply content_of_length; [done | lia].
Qed.

(** The result of [AddAtStart] and [AddAtEnd] on a buffer of their own. *)
Lemma inv_moved m m' a b bs d' s z ze e :
  inv m (b :: bs) -> minv m' (a :: (m_data <$> bs)) -> a ∉ m_data <$> bs ->
  same_view m m' (m_data <$> bs) -> heap m' !! a = Some d' ->
  let b' := mkBuffer a (m_maxZeroAreaStart b) z ze s e in
  shape b' -> iend b' <= m_size d' ->
  let m2 := store a (with_dirty s e d') m' in
  inv m2 (b' :: bs) /\ content m2 b' = content_of (m_bytes d') b' /\
  (forall c, c ∈ bs -> content m2 c = content m c).
Proof.
  intros [_ Hb] Hm' Hna Hv Hd' b' Hs He m2.
  assert (heap m2 !! a = Some (with_dirty s e d')) as Hd2 by (simpl; by rewrite lookup_insert_eq).
  assert (same_view m m2 (m_data <$> bs)) as Hv2.
  { intros c Hc. unfold m2. rewrite vw_store, decide_False; [by apply Hv |]. by intros ->. }
  split_and!.
  - split; [eapply minv_store; try done; by destruct (mi_block _ _ Hm' _ _ Hd') |].
    eapply binv_alone; try done. eapply same_view_binv; [done |].
    eapply binv_sub; [| done]. set_solver.
  - unfold content, vw. simpl. by rewrite lookup_insert_eq.
  - intros c Hc. by eapply same_view_content.
Qed.

(** What is known of another buffer on the same block. *)
Lemma sharer_facts m b bs d c :
  inv m (b :: bs) -> heap m !! m_data b = Some d -> c ∈ bs -> m_data c = m_data b ->
  1 < m_count d /\ m_dirtyStart d <= m_start c /\ iend b + zone c <= m_dirtyEnd d /\
  iend c + zone b <= m_dirtyEnd d.
Proof.
  intros Hi Hd Hc Ec.
  assert (vw m (m_data b) = Some (m_size d, m_dirtyStart d, m_dirtyEnd d, m_bytes d)) as Hv
    by (unfold vw; by rewrite Hd).
  split.
  - destruct (Z.le_gt_cases (m_count d) 1) as [Hle|]; [| lia].
    destruct (sole_owner _ _ _ _ Hi Hd Hle). rewrite <- Ec. by apply list_elem_of_fmap_2.
  - destruct Hi as [_ Hb]. split_and!.
    + by destruct (bi_block _ _ Hb c _ _ _ _ ltac:(set_solver) ltac:(rewrite Ec; exact Hv)).
    + exact (bi_share _ _ Hb b c _ _ _ _ ltac:(set_solver) ltac:(set_solver) ltac:(done) Hv).
    + exact (bi_share _ _ Hb c b _ _ _ _ ltac:(set_solver) ltac:(set_solver) ltac:(done) ltac:(rewrite Ec; exact Hv)).
Qed.

Lemma dirty_end m b bs d : inv m (b :: bs) -> heap m !! m_data b = Some d -> m_end b <= m_dirtyEnd d.
Proof.
  intros [_ Hb] Hd. pose proof (bi_share _ _ Hb b b (m_size d) (m_dirtyStart d) (m_dirtyEnd d) (m_bytes d)
    ltac:(set_solver) ltac:(set_solver) eq_refl ltac:(unfold vw; by rewrite Hd)). unfold iend in *. lia.
Qed.

Lemma count_pos m b bs d : inv m (b :: bs) -> heap m !! m_data b = Some d -> 1 <= m_count d.
Proof.
  intros [Hm _] Hd. destruct (mi_block _ _ Hm _ _ Hd) as [Hc _ _ _].
  rewrite fmap_cons, count_occ_cons_eq in Hc by done. lia.
Qed.

(** The common result of the two operations that grow a buffer by [n] bytes. *)
Definition grown_start (n : Z) (m : Mem) (b : Buffer) (bs : list Buffer) (r : Buffer * Mem) : Prop :=
  let (b', m') := r in
  inv m' (b' :: bs) /\ (exists x, zlen x = n /\ content m' b' = x ++ content m b) /\
  (forall c, c ∈ bs -> content m' c = content m c) /\
  private b' (m_start b') (m_start b' + n) bs /\ m_start b' + n <= m_zeroAreaStart b' /\
  zone b' = zone b /\ (m_data b' = m_data b \/ m_data b' ∉ m_data <$> bs).

Definition grown_end (n : Z) (m : Mem) (b : Buffer) (bs : list Buffer) (r : Buffer * Mem) : Prop :=
  let (b', m') := r in
  inv m' (b' :: bs) /\ (exists x, zlen x = n /\ content m' b' = content m b ++ x) /\
  (forall c, c ∈ bs -> content m' c = content m c) /\
  private b' (iend b' - n) (iend b') bs /\ m_zeroAreaEnd b' <= m_end b' - n /\
  zone b' = zone b /\ (m_data b' = m_data b \/ m_data b' ∉ m_data <$> bs).

Lemma grown_note n m b bs b' m' :
  (grown_start n m b bs (b', m') -> grown_start n m b bs (note_zero_start b', m')) /\
  (grown_end n m b bs (b', m') -> grown_end n m b bs (note_zero_start b', m')).
Proof.
  split; intros (Hi & Hc & Ho & Hp & Hz & Hzn & Hd); destruct (note_zero_start_ok _ _ _ Hi) as [Hi' Hc'];
    (split_and!; [done | by rewrite Hc' | done | done | done | done | done]).
Qed.

Lemma AddAtStart_inplace n m b bs d :
  inv m (b :: bs) -> heap m !! m_data b = Some d -> 0 <= n <= m_start b ->
  m_end b - m_start b + n <= MAX_CONTENT -> m_count d <= 1 \/ m_start b = m_dirtyStart d ->
  grown_start n m b bs
    (mkBuffer (m_data b) (m_maxZeroAreaStart b) (m_zeroAreaStart b) (m_zeroAreaEnd b) (m_start b - n) (m_end b),
     store (m_data b) (with_dirty (m_start b - n) (m_dirtyEnd d) d) m).
Proof.
  intros Hi Hd Hn Hsz Hown.
  destruct (live_block _ _ b Hi) as (d0 & Hd0 & Hp & Hds & Hl & Hcnt & Hcont); [set_solver |].
  rewrite Hd in Hd0. injection Hd0 as <-.
  destruct (placed_bounds _ _ Hp) as (H1 & H2 & H3 & H4 & H5 & H6). set (b1 := mkBuffer _ _ _ _ _ _).
  destruct (inv_grow m b b1 bs d (m_start b - n) (m_dirtyEnd d)) as [Hi1 Hc1]; try done.
  - unfold shape in *. simpl. lia.
  - by destruct Hp as (_ & ? & _).
  - by apply (dirty_end m b bs).
  - intros c Hc Ec. destruct (sharer_facts _ _ _ _ _ Hi Hd Hc Ec) as (? & ? & ? & ?).
    change (iend b1) with (iend b). change (zone b1) with (zone b). lia.
  - split_and!; [done | | done | | simpl; lia | done | by left].
    + exists (slice (m_start b - n) (m_start b) (m_bytes d)). split; [rewrite slice_length; lia |].
      rewrite Hc1, Hcont. unfold content, vw. simpl. rewrite Hd. simpl.
      apply content_of_start; [lia | by destruct Hp | destruct Hp as (_ & ? & _); lia].
    + intros c Hc Ec. right; right. destruct (sharer_facts _ _ _ _ _ Hi Hd Hc Ec) as (? & ? & ? & ?). simpl. lia.
Qed.

Lemma AddAtStart_moved n m b bs d a m1 d' :
  inv m (b :: bs) -> heap m !! m_data b = Some d -> 0 <= n -> m_end b - m_start b + n <= MAX_CONTENT ->
  minv m1 (a :: (m_data <$> bs)) -> a ∉ m_data <$> bs -> same_view m m1 (m_data <$> bs) ->
  heap m1 !! a = Some d' -> iend b - m_start b + n <= m_size d' ->
  slice n (n + (iend b - m_start b)) (m_bytes d') = slice (m_start b) (iend b) (m_bytes d) ->
  let k := n - m_start b in
  grown_start n m b bs
    (mkBuffer a (m_maxZeroAreaStart b) (m_zeroAreaStart b + k) (m_zeroAreaEnd b + k) 0 (m_end b + k),
     store a (with_dirty 0 (m_end b + k) d') m1).
Proof.
  intros Hi Hd Hn Hsz Hm1 Hna Hv1 Hd' Hs' Hsl k.
  destruct (live_block _ _ b Hi) as (d0 & Hd0 & Hp & Hds & Hl & Hcnt & Hcont); [set_solver |].
  rewrite Hd in Hd0. injection Hd0 as <-.
  destruct (placed_bounds _ _ Hp) as (H1 & H2 & H3 & H4 & H5 & H6).
  unfold iend, zone in Hs'.
  destruct (inv_moved m m1 a b bs d' 0 (m_zeroAreaStart b + k) (m_zeroAreaEnd b + k) (m_end b + k))
    as (Hi1 & Hc1 & Ho1); try done.
  - unfold shape in *. simpl. lia.
  - unfold iend, zone. simpl. lia.
  - destruct (mi_block _ _ Hm1 _ _ Hd') as [_ Hl' _ _].
    split_and!; [done | | done | by apply private_alone | simpl; lia | unfold zone; simpl; lia | by right].
    exists (slice 0 n (m_bytes d')). split; [rewrite slice_length; lia |].
    rewrite Hc1, Hcont. rewrite <- (content_of_shift (m_bytes d) (m_bytes d') b a k);
      [| by destruct Hp | lia | rewrite <- Hsl; f_equal; lia].
    set (b0 := mkBuffer a _ _ _ (m_start b + k) _).
    replace n with (m_start b0) by (simpl; lia).
    apply (content_of_start _ b0); [simpl; lia | unfold shape in *; simpl; lia | unfold iend, zone; simpl; lia].
Qed.

Lemma AddAtEnd_inplace n m b bs d :
  inv m (b :: bs) -> heap m !! m_data b = Some d -> 0 <= n -> iend b + n <= m_size d ->
  m_end b - m_start b + n <= MAX_CONTENT -> m_count d <= 1 \/ m_end b = m_dirtyEnd d ->
  grown_end n m b bs
    (mkBuffer (m_data b) (m_maxZeroAreaStart b) (m_zeroAreaStart b) (m_zeroAreaEnd b) (m_start b) (m_end b + n),
     store (m_data b) (with_dirty (m_dirtyStart d) (m_end b + n) d) m).
Proof.
  intros Hi Hd Hn Hroom Hsz Hown.
  destruct (live_block _ _ b Hi) as (d0 & Hd0 & Hp & Hds & Hl & Hcnt & Hcont); [set_solver |].
  rewrite Hd in Hd0. injection Hd0 as <-.
  destruct (placed_bounds _ _ Hp) as (H1 & H2 & H3 & H4 & H5 & H6). set (b1 := mkBuffer _ _ _ _ _ _).
  assert (zone b1 = zone b) as Hz by done.
  assert (iend b1 = iend b + n) as He by (unfold iend; rewrite Hz; simpl; lia).
  destruct (inv_grow m b b1 bs d (m_dirtyStart d) (m_end b + n)) as [Hi1 Hc1]; try done.
  - unfold shape in *. simpl. lia.
  - lia.
  - intros c Hc Ec. destruct (sharer_facts _ _ _ _ _ Hi Hd Hc Ec) as (? & ? & ? & ?).
    rewrite He, Hz. lia.
  - split_and!; [done | | done | | simpl; lia | done | by left].
    + exists (slice (iend b) (iend b + n) (m_bytes d)).
      split; [rewrite slice_length; unfold iend, zone in *; lia |].
      rewrite Hc1, Hcont. unfold content, vw. simpl. rewrite Hd. simpl. unfold b1.
      rewrite content_of_end by (first [lia | by destruct Hp]). do 2 f_equal. unfold iend. lia.
    + intros c Hc Ec. right; left. destruct (sharer_facts _ _ _ _ _ Hi Hd Hc Ec) as (? & ? & ? & ?).
      rewrite He. unfold iend in *. lia.
Qed.

Lemma AddAtEnd_moved n m b bs d a m1 d' :
  inv m (b :: bs) -> heap m !! m_data b = Some d -> 0 <= n -> m_end b - m_start b + n <= MAX_CONTENT ->
  minv m1 (a :: (m_data <$> bs)) -> a ∉ m_data <$> bs -> same_view m m1 (m_data <$> bs) ->
  heap m1 !! a = Some d' -> iend b - m_start b + n <= m_size d' ->
  slice 0 (0 + (iend b - m_start b)) (m_bytes d') = slice (m_start b) (iend b) (m_bytes d) ->
  let k := - m_start b in
  grown_end n m b bs
    (mkBuffer a (m_maxZeroAreaStart b) (m_zeroAreaStart b + k) (m_zeroAreaEnd b + k) 0 (m_end b + k + n),
     store a (with_dirty 0 (m_end b + k + n) d') m1).
Proof.
  intros Hi Hd Hn Hsz Hm1 Hna Hv1 Hd' Hs' Hsl k.
  destruct (live_block _ _ b Hi) as (d0 & Hd0 & Hp & Hds & Hl & Hcnt & Hcont); [set_solver |].
  rewrite Hd in Hd0. injection Hd0 as <-.
  destruct (placed_bounds _ _ Hp) as (H1 & H2 & H3 & H4 & H5 & H6).
  unfold iend, zone in Hs'.
  destruct (inv_moved m m1 a b bs d' 0 (m_zeroAreaStart b + k) (m_zeroAreaEnd b + k) (m_end b + k + n))
    as (Hi1 & Hc1 & Ho1); try done.
  - unfold shape in *. simpl. lia.
  - unfold iend, zone. simpl. lia.
  - destruct (mi_block _ _ Hm1 _ _ Hd') as [_ Hl' _ _].
    split_and!; [done | | done | by apply private_alone | simpl; lia | unfold zone; simpl; lia | by right].
    exists (slice (iend b + k) (iend b + k + n) (m_bytes d')).
    split; [rewrite slice_length; unfold iend, zone; lia |].
    rewrite Hc1, Hcont. rewrite <- (content_of_shift (m_bytes d) (m_bytes d') b a k);
      [| by destruct Hp | lia | rewrite <- Hsl; f_equal; lia].
    set (b0 := mkBuffer a _ _ _ (m_start b + k) (m_end b + k)).
    replace (slice (iend b + k) _ _) with (slice (iend b0) (m_end b + k + n - zone b0) (m_bytes d'))
      by (unfold iend, zone, b0; simpl; f_equal; lia).
    rewrite <- content_of_end by (first [unfold shape in *; simpl; lia]).
    unfold b0. simpl. do 2 f_equal. lia.
Qed.

Section Alloc.
Context (uninit : Z -> nat -> Z).

Lemma Initialize_ok z m bs :
  inv m bs -> 0 <= z <= MAX_CONTENT -> Z.of_nat (length bs) + 1 < 2 ^ 32 ->
  exists b m', Initialize uninit z m = Some (b, m') /\ inv m' (b :: bs) /\
    content m' b = replicate (Z.to_nat z) 0 /\ (forall c, c ∈ bs -> content m' c = content m c) /\
    zone b = z /\ m_data b ∉ m_data <$> bs.
Proof.
  intros [Hm Hb] Hz Hlen. unfold Initialize.
  destruct (Create_ok uninit 0 m (m_data <$> bs)) as (a & m1 & -> & Hm1 & Hna & Hv1 & (d & Hd & _) & Hg);
    [done | unfold MAX_CONTENT; lia | by rewrite length_fmap |].
  unfold load. cbn [fst snd]. rewrite Hd. set (start := Z.min _ _).
  pose proof (mi_rec _ _ Hm1). destruct (mi_block _ _ Hm1 _ _ Hd) as [_ Hl Hs _].
  unfold MAX_BLOCK, MAX_CONTENT, ALLOC_OVER_PROVISION in *.
  rewrite (u32_small (start + z)) by lia. set (d' := with_dirty _ _ d). set (b := mkBuffer _ _ _ _ _ _).
  exists b, (store a d' m1). split; [done |].
  assert (heap (store a d' m1) !! m_data b = Some d') as Hd' by (simpl; by rewrite lookup_insert_eq).
  assert (same_view m (store a d' m1) (m_data <$> bs)) as Hv.
  { intros c Hc. rewrite vw_store, decide_False; [by apply Hv1 |]. by intros ->. }
  split; [split; [by eapply minv_store |] |].
  - eapply binv_alone; try done; [by eapply same_view_binv | |].
    + unfold shape, MAX_CONTENT. simpl. lia.
    + unfold iend, zone. simpl. lia.
  - split_and!; [| intros c Hc; by eapply same_view_content | unfold zone; simpl; lia | done].
    unfold content, vw. rewrite Hd'. simpl. unfold content_of, iend, zone, b. cbn [m_start m_zeroAreaStart m_zeroAreaEnd m_end].
    slice_nils. rewrite app_nil_r. simpl. f_equal. lia.
Qed.

(** Moving to a new block. *)
Lemma move_to_new_ok n off m b bs :
  inv m (b :: bs) -> Z.of_nat (length bs) + 2 < 2 ^ 32 -> n <= MAX_CONTENT -> 0 <= off ->
  off + (iend b - m_start b) <= n ->
  exists a m' d d', move_to_new uninit n off b m = Some (a, m') /\ minv m' (a :: (m_data <$> bs)) /\
    a ∉ m_data <$> bs /\ same_view m m' (m_data <$> bs) /\ heap m !! m_data b = Some d /\
    heap m' !! a = Some d' /\ n <= m_size d' /\
    slice off (off + (iend b - m_start b)) (m_bytes d') = slice (m_start b) (iend b) (m_bytes d).
Proof.
  intros Hi Hlen Hn Hoff Hfit. pose proof Hi as [Hm Hb].
  destruct (live_block _ _ b Hi) as (d & Hd & Hp & _ & Hl & _ & _); [set_solver |].
  destruct (placed_bounds _ _ Hp) as (H1 & H2 & H3 & H4 & H5 & H6). unfold iend, zone in *.
  destruct (Create_ok uninit n m (m_data <$> b :: bs)) as (a & m1 & E1 & Hm1 & Hna & Hv1 & (d0 & Hd0 & Hn0) & _);
    [done | lia | simpl; rewrite length_fmap; lia |].
  unfold move_to_new, load, GetInternalSize. rewrite E1. cbn [fst snd]. rewrite Hd0.
  assert (vw m1 (m_data b) = Some (view d)) as Hvb.
  { rewrite Hv1 by set_solver. unfold vw. by rewrite Hd. }
  unfold vw in Hvb. destruct (heap m1 !! m_data b) as [d1|] eqn:Hd1; [| done].
  injection Hvb as Hv. rewrite u32_small by lia.
  assert (m_bytes d1 = m_bytes d) as -> by done.
  rewrite get_bytes_slice by lia.
  replace (m_start b + (m_zeroAreaStart b - m_start b + m_end b - m_zeroAreaEnd b))
    with (m_end b - (m_zeroAreaEnd b - m_zeroAreaStart b)) by lia.
  destruct (mi_block _ _ Hm1 _ _ Hd0) as [_ Hl0 _ _].
  destruct (put_bytes_ok off (slice (m_start b) (m_end b - (m_zeroAreaEnd b - m_zeroAreaStart b)) (m_bytes d)) (m_bytes d0))
    as (l' & -> & Hl' & Hsl & _); [done | rewrite slice_length by lia; lia |].
  rewrite slice_length in Hsl by lia.
  set (m2 := store a (with_bytes l' d0) m1).
  assert (minv m2 (m_data b :: a :: (m_data <$> bs))) as Hm2.
  { eapply (minv_perm _ (a :: m_data b :: (m_data <$> bs))); [by constructor |].
    eapply minv_store; try done. simpl. congruence. }
  destruct (Unref_ok _ _ _ Hm2) as (m3 & -> & Hm3 & Hv3 & _).
  destruct (mi_live _ _ Hm3 a) as [d' Hd']; [set_solver |].
  assert (vw m3 a = vw m2 a) as Hva by (apply Hv3; set_solver).
  unfold m2 in Hva. rewrite vw_store, decide_True in Hva by done. unfold vw in Hva. rewrite Hd' in Hva.
  injection Hva as Hs' _ _ Hb'. simpl in Hna.
  exists a, m3, d, d'. split_and!; try done; [set_solver | | | ].
  - intros c Hc. rewrite Hv3 by set_solver. unfold m2. rewrite vw_store, decide_False by set_solver.
    apply Hv1. set_solver.
  - rewrite Hs'. done.
  - rewrite Hb'. simpl. by rewrite <- Hsl.
Qed.

Lemma AddAtStart_ok n m b bs :
  inv m (b :: bs) -> 0 <= n -> zlen (content m b) + n <= MAX_CONTENT ->
  Z.of_nat (length bs) + 2 < 2 ^ 32 ->
  exists r, AddAtStart uninit n b m = Some r /\ grown_start n m b bs r.
Proof.
  intros Hi Hn Hsz Hlen. rewrite (content_size _ _ _ Hi) in Hsz.
  destruct (live_block _ _ b Hi) as (d & Hd & Hp & _); [set_solver |].
  destruct (placed_bounds _ _ Hp) as (H1 & H2 & H3 & H4 & H5 & H6). pose proof (count_pos _ _ _ _ Hi Hd).
  unfold AddAtStart, load. rewrite Hd.
  destruct ((n <=? m_start b) && _) eqn:Ein.
  - apply andb_true_iff in Ein as [Hle Hcl]. bool_prop.
    assert (m_count d <= 1 \/ m_start b = m_dirtyStart d) as Hown.
    { destruct Hi as [_ Hb]. destruct (bi_block _ _ Hb b (m_size d) (m_dirtyStart d) (m_dirtyEnd d) (m_bytes d)
        ltac:(set_solver) ltac:(unfold vw; by rewrite Hd)) as [? _].
      apply andb_false_iff in Hcl as [?|?]; bool_prop; lia. }
    assert ((m_count d =? 1) || (m_start b =? m_dirtyStart d) = true) as ->.
    { apply orb_true_iff. rewrite !Z.eqb_eq. lia. }
    simpl NS_ASSERT. cbn iota. rewrite (u32_small (m_start b - n)) by lia.
    eexists. split; [done |]. apply grown_note. by apply AddAtStart_inplace.
  - unfold GetInternalSize. rewrite (u32_small (m_zeroAreaStart b - m_start b + _ - _)) by lia.
    unfold MAX_CONTENT in Hsz. rewrite u32_small by lia.
    destruct (move_to_new_ok (m_zeroAreaStart b - m_start b + m_end b - m_zeroAreaEnd b + n) n m b bs)
      as (a & m1 & d0 & d' & -> & Hm1 & Hna & Hv1 & Hd0 & Hd' & Hs' & Hsl);
      [done | done | unfold MAX_CONTENT; lia | done | unfold iend, zone; lia |].
    cbn [fst snd]. rewrite Hd'. rewrite Hd in Hd0. injection Hd0 as <-.
    assert (i32 (n - m_start b) = n - m_start b) as -> by (unfold i32; rewrite swrap_small; lia).
    rewrite !(u32_small (_ + (n - m_start b))) by lia.
    replace (u32 (m_start b + (n - m_start b) - n)) with 0 by (rewrite u32_small; lia).
    eexists. split; [done |]. apply grown_note. eapply AddAtStart_moved; try done.
    unfold iend, zone. lia.
Qed.

Lemma AddAtEnd_ok n m b bs :
  inv m (b :: bs) -> 0 <= n -> zlen (content m b) + n <= MAX_CONTENT ->
  Z.of_nat (length bs) + 2 < 2 ^ 32 ->
  exists r, AddAtEnd uninit n b m = Some r /\ grown_end n m b bs r.
Proof.
  intros Hi Hn Hsz Hlen. rewrite (content_size _ _ _ Hi) in Hsz.
  destruct (live_block _ _ b Hi) as (d & Hd & Hp & _); [set_solver |].
  destruct (placed_bounds _ _ Hp) as (H1 & H2 & H3 & H4 & H5 & H6). pose proof (count_pos _ _ _ _ Hi Hd).
  pose proof (dirty_end _ _ _ _ Hi Hd).
  unfold AddAtEnd, load, GetInternalEnd. rewrite Hd. unfold MAX_CONTENT in Hsz.
  rewrite (u32_small (m_zeroAreaEnd b - m_zeroAreaStart b)) by lia.
  rewrite (u32_small (m_end b - _)) by lia.
  rewrite (u32_small (m_end b - (m_zeroAreaEnd b - m_zeroAreaStart b) + n)) by lia.
  destruct ((_ <=? m_size d) && _) eqn:Ein.
  - apply andb_true_iff in Ein as [Hle Hcl]. bool_prop.
    assert (m_count d <= 1 \/ m_end b = m_dirtyEnd d) as Hown.
    { apply andb_false_iff in Hcl as [?|?]; bool_prop; lia. }
    assert ((m_count d =? 1) || (m_end b =? m_dirtyEnd d) = true) as ->.
    { apply orb_true_iff. rewrite !Z.eqb_eq. lia. }
    simpl NS_ASSERT. cbn iota. rewrite (u32_small (m_end b + n)) by lia.
    eexists. split; [done |]. apply grown_note. by apply AddAtEnd_inplace.
  - unfold GetInternalSize. rewrite (u32_small (m_zeroAreaStart b - m_start b + _ - _)) by lia.
    rewrite u32_small by lia.
    destruct (move_to_new_ok (m_zeroAreaStart b - m_start b + m_end b - m_zeroAreaEnd b + n) 0 m b bs)
      as (a & m1 & d0 & d' & -> & Hm1 & Hna & Hv1 & Hd0 & Hd' & Hs' & Hsl);
      [done | done | unfold MAX_CONTENT; lia | lia | unfold iend, zone; lia |].
    cbn [fst snd]. rewrite Hd'. rewrite Hd in Hd0. injection Hd0 as <-.
    assert (i32 (- m_start b) = - m_start b) as -> by (unfold i32; rewrite swrap_small; lia).
    rewrite !(u32_small (_ + - m_start b)) by lia. rewrite (u32_small (m_end b + - m_start b + n)) by lia.
    replace (m_start b + - m_start b) with 0 by lia.
    eexists. split; [done |]. apply grown_note. eapply AddAtEnd_moved; try done.
    unfold iend, zone. lia.
Qed.
End Alloc.
End BufferInv.
