(* ===== verification/BufferRw.v ===== *)
(** * Reading and writing through iterators

    The effect of [Buffer::Iterator] on the byte string a buffer stands for:
    reads deliver its bytes, writes replace them, and writing the area a buffer
    has just been grown by is invisible to every other buffer. *)

From S2P Require Import Prelude Buffer BufferIterator BufferInv.
Import Buffer Iterator BufferOps BufferInv.

Module BufferRw.

(** Replace the bytes from position [p] on. *)
Definition splice (p : Z) (src l : list Z) : list Z :=
  take (Z.to_nat p) l ++ src ++ drop (Z.to_nat p + length src) l.

(** ** Writing *)

(** The virtual position, from the start of the buffer, of an internal offset. *)
Definition virt (b : Buffer) (off : Z) : Z :=
  if off <? m_zeroAreaStart b then off - m_start b else off + zone b - m_start b.

Lemma content_of_put l l' b off src :
  shape b -> iend b <= zlen l -> m_start b <= off -> off + zlen src <= iend b ->
  off + zlen src <= m_zeroAreaStart b \/ m_zeroAreaStart b <= off ->
  src <> [] ->
  slice off (off + zlen src) l' = src ->
  (forall s e, 0 <= s -> e <= off \/ off + zlen src <= s -> slice s e l' = slice s e l) ->
  content_of l' b = splice (virt b off) src (content_of l b).
Proof.
  intros (H1 & H2 & _) Hl Hs He Hz Hne Hsrc Hrest.
  assert (0 < zlen src) as Hpos by (unfold zlen; destruct src; simpl; [done | lia]).
  assert (Z.of_nat (length src) = zlen src) as Hlen by done.
  unfold splice, content_of. rewrite !take_app, !drop_app, take_replicate, drop_replicate.
  rewrite !take_slice, !drop_slice, length_replicate, slice_lenN by (unfold iend, zone in *; lia).
  unfold virt, iend, zone in *. destruct Hz as [Hz|Hz].
  - rewrite (proj2 (Z.ltb_lt off (m_zeroAreaStart b))) by lia.
    rewrite <- (slice_app (m_start b) off (m_zeroAreaStart b) l') by lia.
    rewrite <- (slice_app off (off + zlen src) (m_zeroAreaStart b) l') by lia.
    rewrite Hsrc, !Hrest by lia. rewrite <- !app_assoc. slice_nils. simpl.
    replace (_ `min` _)%nat with O by lia. simpl. same_parts.
  - rewrite (proj2 (Z.ltb_ge off (m_zeroAreaStart b))) by lia.
    rewrite <- (slice_app (m_zeroAreaStart b) off (m_end b - _) l') by lia.
    rewrite <- (slice_app off (off + zlen src) (m_end b - _) l') by lia.
    rewrite Hsrc, !Hrest by lia. rewrite <- !app_assoc. slice_nils. simpl.
    replace (Z.to_nat (m_zeroAreaEnd b - m_zeroAreaStart b) - (_ - _))%nat with O by lia.
    simpl. same_parts.
Qed.

Lemma poke_ok off src i m b bs :
  inv m (b :: bs) -> it_data i = m_data b -> m_start b <= off -> off + zlen src <= iend b ->
  off + zlen src <= m_zeroAreaStart b \/ m_zeroAreaStart b <= off ->
  private b off (off + zlen src) bs -> src <> [] ->
  exists m', poke off src i m = Some m' /\ inv m' (b :: bs) /\
    content m' b = splice (virt b off) src (content m b) /\
    (forall c, c ∈ bs -> content m' c = content m c).
Proof.
  intros Hi Ei Hs He Hz Hpriv Hne.
  destruct (live_block _ _ b Hi) as (d & Hd & Hp & _ & Hl & _ & Hcont); [set_solver |].
  destruct Hp as (Hsh & Hend & _). pose proof Hsh as (Hs0 & _).
  destruct (put_bytes_ok off src (m_bytes d)) as (l' & El & Hl' & Hsrc & Hrest); [lia | lia |].
  unfold poke, load. rewrite Ei, Hd, El. eexists. split; [done |].
  set (m' := store (m_data b) (with_bytes l' d) m).
  assert (forall a, vw m' a = if decide (m_data b = a) then Some (m_size d, m_dirtyStart d, m_dirtyEnd d, l') else vw m a) as Hv
    by (intros a; unfold m'; by rewrite vw_store).
  assert (vw m (m_data b) = Some (m_size d, m_dirtyStart d, m_dirtyEnd d, m_bytes d)) as Hv0 by (unfold vw; by rewrite Hd).
  destruct Hi as [Hm Hb]. split_and!.
  - split; [eapply minv_store; try done; simpl; lia |]. destruct Hb as [Hb1 Hb2 Hb3]. split; [done | |].
    + intros c sz ds de l Hc. rewrite Hv. case_decide as E; [| by apply Hb2]. intros [= <- <- <- <-].
      eapply Hb2; [done |]. rewrite <- E. exact Hv0.
    + intros c e sz ds de l Hc Hc' Ec. rewrite Hv. case_decide as E; [| by apply Hb3]. intros [= <- <- <- <-].
      eapply Hb3; try done. rewrite <- E. exact Hv0.
  - unfold content at 1. rewrite Hv, decide_True by done. rewrite Hcont.
    apply content_of_put; try done. lia.
  - intros c Hc. unfold content. rewrite Hv. case_decide as E; [| done]. rewrite <- E, Hv0.
    apply content_ext; [apply Hb; set_solver |]. apply Hrest.
    + assert (shape c) as (Hc0 & _) by (apply Hb; set_solver). lia.
    + assert (0 < zlen src) by (unfold zlen; destruct src; simpl; [done | lia]).
      destruct (Hpriv c Hc) as [?|[?|?]]; [done | lia | by left | by right].
Qed.

(** *** Writers

    A position [c] at which [n] bytes may be written: inside the buffer and
    not in the zero area. *)
Definition region_ok (b : Buffer) (c n : Z) : Prop :=
  m_start b <= c /\ c + n <= m_end b /\ (c + n <= m_zeroAreaStart b \/ m_zeroAreaEnd b <= c).

(** The internal offset of a virtual one. *)
Definition phys (b : Buffer) (c : Z) : Z := if c <? m_zeroAreaStart b then c else c - zone b.

(** The writer [w] writes the bytes [src]: from any position where they fit, in
    bytes no other buffer uses, it replaces the bytes there and nothing else. *)
Definition writes (w : Iterator -> Mem -> option (Iterator * Mem)) (src : list Z) : Prop :=
  forall c m b bs, inv m (b :: bs) -> region_ok b c (zlen src) ->
  private b (phys b c) (phys b c + zlen src) bs ->
  exists m', w (Construct b c) m = Some (Construct b (c + zlen src), m') /\ inv m' (b :: bs) /\
    content m' b = splice (c - m_start b) src (content m b) /\
    (forall e, e ∈ bs -> content m' e = content m e).

Lemma splice_nil p l : splice p [] l = l.
Proof. unfold splice. simpl. rewrite Nat.add_0_r. apply take_drop. Qed.

Lemma splice_app p s1 s2 l :
  0 <= p -> p + zlen s1 <= zlen l ->
  splice (p + zlen s1) s2 (splice p s1 l) = splice p (s1 ++ s2) l.
Proof.
  intros Hp Hl. unfold splice, zlen in *. rewrite length_app.
  replace (Z.to_nat (p + Z.of_nat (length s1))) with (Z.to_nat p + length s1)%nat by lia.
  rewrite (app_assoc (take _ l)).
  rewrite take_app_length' by (rewrite length_app, length_take; lia).
  rewrite drop_app_ge by (rewrite length_app, length_take; lia).
  rewrite length_app, length_take, drop_drop, <- !app_assoc. do 3 f_equal. f_equal. lia.
Qed.

Lemma splice_length p s l : 0 <= p -> p + zlen s <= zlen l -> zlen (splice p s l) = zlen l.
Proof.
  intros Hp Hl. unfold splice, zlen in *. rewrite !length_app, length_take, length_drop. lia.
Qed.

Lemma inv_offsets m b bs : inv m (b :: bs) ->
  0 <= m_start b <= m_zeroAreaStart b /\ m_zeroAreaStart b <= m_zeroAreaEnd b <= m_end b /\
  m_end b <= 2 ^ 31 + 100.
Proof.
  intros Hi. destruct (live_block _ _ b Hi) as (d & _ & Hp & _); [set_solver |].
  destruct (placed_bounds _ _ Hp) as (? & ? & ? & ? & ? & ?). lia.
Qed.

(** Writing at the internal offset of a virtual position. *)
Lemma poke_at src c m b bs :
  inv m (b :: bs) -> region_ok b c (zlen src) -> private b (phys b c) (phys b c + zlen src) bs ->
  src <> [] ->
  exists m', poke (phys b c) src (Construct b c) m = Some m' /\ inv m' (b :: bs) /\
    content m' b = splice (c - m_start b) src (content m b) /\
    (forall e, e ∈ bs -> content m' e = content m e).
Proof.
  intros Hi (H1 & H2 & H3) Hp Hne. destruct (inv_offsets _ _ _ Hi) as (Ho1 & Ho2 & _).
  assert (0 < zlen src) by (unfold zlen; destruct src; simpl; [done | lia]).
  assert (virt b (phys b c) = c - m_start b) as <-.
  { unfold virt, phys, zone. case_ifs; lia. }
  apply poke_ok; try done; unfold phys, iend, zone; case_ifs; lia.
Qed.

(** The writer stores [src] at the internal offset of its position. *)
Lemma writes_poke w src :
  (forall c m b, 0 <= m_start b <= m_zeroAreaStart b -> m_zeroAreaStart b <= m_zeroAreaEnd b <= m_end b ->
    m_end b <= 2 ^ 31 + 100 -> region_ok b c (zlen src) ->
    w (Construct b c) m =
      let* m1 := poke (phys b c) src (Construct b c) m in
      Some (move_to (u32 (c + zlen src)) (Construct b c), m1)) ->
  src <> [] -> writes w src.
Proof.
  intros Hw Hne c m b bs Hi Hr Hp. destruct (inv_offsets _ _ _ Hi) as (Ho1 & Ho2 & Ho3).
  rewrite Hw by done. destruct (poke_at src c m b bs Hi Hr Hp Hne) as (m' & -> & Hi' & Hc & Ho).
  exists m'. split_and!; try done. unfold move_to, Construct. simpl.
  pose proof (zlen_nonneg src). destruct Hr as (? & ? & _). by rewrite u32_small by lia.
Qed.

(** Split on the position of the iterator and compare the internal offsets. *)
Ltac iter_offsets :=
  unfold phys, after_zero, zone; simpl; case_ifs;
  repeat match goal with |- context [u32 ?x] => rewrite (u32_small x) by lia end;
  try done; try lia;
  try match goal with
  | |- context [poke ?x _ _ _] =>
      match goal with |- context [poke ?y _ _ _] => replace y with x by lia; done end
  end.

Lemma writes_U8 x : writes (WriteU8 x) [x].
Proof.
  apply writes_poke; [| done]. intros c m b H1 H2 H3 (H4 & H5 & H6). change (zlen [x]) with 1 in *.
  unfold WriteU8, Check. simpl.
  replace (_ && _) with true; [| symmetry; rewrite !andb_true_iff, negb_true_iff, andb_false_iff, !Z.leb_le; bool_prop;
    rewrite Z.leb_gt, Z.ltb_ge; lia].
  simpl. iter_offsets.
Qed.

(** Writing no byte. *)
Lemma poke_nil off c m b bs : inv m (b :: bs) -> poke off [] (Construct b c) m = Some m.
Proof.
  intros Hi. destruct (live_block _ _ b Hi) as (d & Hd & _); [set_solver |].
  unfold poke, load, put_bytes. simpl. rewrite Hd. f_equal.
  unfold store, set_heap. destruct m as [h na f ms r], d as [cn sz ds de l]. simpl in *.
  unfold with_bytes. simpl. by rewrite insert_id.
Qed.

Lemma writes_nil w :
  (forall c m b, 0 <= m_start b <= m_zeroAreaStart b -> m_zeroAreaStart b <= m_zeroAreaEnd b <= m_end b ->
    m_end b <= 2 ^ 31 + 100 -> m_start b <= c <= m_end b ->
    exists off, w (Construct b c) m =
      let* m1 := poke off [] (Construct b c) m in Some (move_to (u32 c) (Construct b c), m1)) ->
  writes w [].
Proof.
  intros Hw c m b bs Hi (H1 & H2 & _) _. destruct (inv_offsets _ _ _ Hi) as (Ho1 & Ho2 & Ho3).
  change (zlen []) with 0 in *. destruct (Hw c m b) as [off ->]; try done; [lia |].
  rewrite (poke_nil off c m b bs Hi). exists m. rewrite splice_nil. split_and!; try done.
  unfold move_to, Construct. simpl. by rewrite Z.add_0_r, u32_small by lia.
Qed.

(** The assertion of [Write], in spite of its wrong argument, accepts every
    write that stays inside the buffer and off the zero area. *)
Lemma writes_bytes src : writes (Write_bytes src) src.
Proof.
  destruct src as [|x src].
  { apply writes_nil. intros c m b H1 H2 H3 H4. eexists. unfold Write_bytes, CheckNoZero. simpl.
    change (zlen []) with 0.
    replace (negb _) with true; [| symmetry; rewrite negb_true_iff, !orb_false_iff, !andb_false_iff, !Z.ltb_ge; lia].
    simpl. by rewrite Z.add_0_r. }
  apply writes_poke; [| done]. set (l := x :: src). intros c m b H1 H2 H3 (H4 & H5 & H6).
  assert (0 < zlen l) by (unfold zlen; simpl; lia).
  unfold Write_bytes, CheckNoZero. simpl.
  replace (negb _) with true; [| symmetry; rewrite negb_true_iff, !orb_false_iff, !andb_false_iff, !Z.ltb_ge; lia].
  simpl. iter_offsets.
Qed.

Lemma writes_U8_len x n : 0 < n -> writes (WriteU8_len x n) (replicate (Z.to_nat n) x).
Proof.
  intros Hn. assert (zlen (replicate (Z.to_nat n) x) = n) as Hl by (unfold zlen; rewrite length_replicate; lia).
  apply writes_poke; [| by destruct (Z.to_nat n) eqn:?; [lia | done]].
  rewrite Hl. intros c m b H1 H2 H3 (H4 & H5 & H6).
  unfold WriteU8_len, CheckNoZero. simpl. rewrite (u32_small (c + n)) by lia.
  replace (negb _) with true; [| symmetry; rewrite negb_true_iff, !orb_false_iff, !andb_false_iff, !Z.ltb_ge; lia].
  simpl. iter_offsets.
Qed.

Lemma writes_seq w1 s1 (w2 : Iterator -> Mem -> option (Iterator * Mem)) s2 :
  writes w1 s1 -> writes w2 s2 -> s2 <> [] ->
  writes (fun i m => let* (i, m) := w1 i m in w2 i m) (s1 ++ s2).
Proof.
  intros Hw1 Hw2 Hne c m b bs Hi (H1 & H2 & H3) Hp. rewrite zlen_app in *.
  assert (0 < zlen s2) by (unfold zlen; destruct s2; simpl; [done | lia]).
  pose proof (zlen_nonneg s1). destruct (inv_offsets _ _ _ Hi) as (Ho1 & Ho2 & Ho3).
  destruct (Hw1 c m b bs Hi) as (m1 & -> & Hi1 & Hc1 & Ho); [split_and!; lia | |].
  { intros e He Ee. destruct (Hp e He Ee); lia. }
  assert (phys b (c + zlen s1) = phys b c + zlen s1) as Hph by (unfold phys, zone; case_ifs; lia).
  destruct (Hw2 (c + zlen s1) m1 b bs Hi1) as (m2 & -> & Hi2 & Hc2 & Ho'); [split_and!; lia | |].
  { intros e He Ee. rewrite Hph. destruct (Hp e He Ee); lia. }
  exists m2. split_and!; [by rewrite Z.add_assoc | done | | by intros e He; rewrite Ho', Ho].
  pose proof (content_size _ _ _ Hi).
  rewrite Hc2, Hc1, <- splice_app by lia. do 2 f_equal. lia.
Qed.

Lemma writes_Write_seq l : l <> [] -> writes (Write_seq l) l.
Proof.
  induction l as [|x l IH]; [done |]. intros _. destruct l as [|y l].
  - intros c m b bs Hi Hr Hp. destruct (writes_U8 x c m b bs Hi Hr Hp) as (m' & E & H).
    exists m'. simpl. by rewrite E.
  - apply (writes_seq _ [x] (Write_seq (y :: l))); [apply writes_U8 | by apply IH | done].
Qed.

Lemma writes_HtonU16 v : writes (WriteHtonU16 v) [byte_at 8 v; byte_at 0 v].
Proof.
  apply writes_poke; [| done]. intros c m b H1 H2 H3 (H4 & H5 & H6).
  change (zlen [byte_at 8 v; byte_at 0 v]) with 2 in *.
  unfold WriteHtonU16, CheckNoZero. simpl. rewrite (u32_small (c + 2)) by lia.
  replace (negb _) with true; [| symmetry; rewrite negb_true_iff, !orb_false_iff, !andb_false_iff, !Z.ltb_ge; lia].
  simpl. iter_offsets.
Qed.

Lemma writes_HtonU32 v : writes (WriteHtonU32 v) [byte_at 24 v; byte_at 16 v; byte_at 8 v; byte_at 0 v].
Proof.
  apply writes_poke; [| done]. intros c m b H1 H2 H3 (H4 & H5 & H6).
  change (zlen [byte_at 24 v; byte_at 16 v; byte_at 8 v; byte_at 0 v]) with 4 in *.
  unfold WriteHtonU32, CheckNoZero. simpl. rewrite (u32_small (c + 4)) by lia.
  replace (negb _) with true; [| symmetry; rewrite negb_true_iff, !orb_false_iff, !andb_false_iff, !Z.ltb_ge; lia].
  simpl. iter_offsets.
Qed.

(** ** Integers as bytes *)

(** The [n] bytes of [v], most significant first. *)
Fixpoint be (n : nat) (v : Z) : list Z :=
  match n with O => [] | S n' => byte_at (8 * Z.of_nat n') v :: be n' v end.

Lemma be_length n v : length (be n v) = n.
Proof. induction n; simpl; auto. Qed.

Lemma byte_at_val k v : 0 <= k -> byte_at k v = (v / 2 ^ k) mod 256.
Proof. intros. unfold byte_at. rewrite Z.shiftr_div_pow2 by done. by rewrite (Z.land_ones _ 8) by lia. Qed.

Lemma shift_in_val w d x : 8 <= w -> 0 <= d < 2 ^ (w - 8) -> 0 <= x < 256 -> shift_in w d x = d * 256 + x.
Proof.
  intros Hw Hd Hx. unfold shift_in. rewrite Z.shiftl_mul_pow2 by lia. change (2 ^ 8) with 256.
  assert (2 ^ w = 2 ^ (w - 8) * 256) by (rewrite <- (Z.pow_add_r 2 _ 8) by lia; f_equal; lia).
  rewrite wrap_small by lia. rewrite <- Z.add_lor_land.
  assert (Z.land (d * 256) x = 0) as ->; [| lia].
  apply Z.bits_inj'. intros n Hn. rewrite Z.land_spec, Z.bits_0.
  change 256 with (2 ^ 8). destruct (Z.lt_ge_cases n 8).
  - rewrite Z.mul_pow2_bits_low by lia. done.
  - rewrite andb_comm. rewrite (Z.bits_above_log2 x n); [done | lia |].
    destruct (Z.eq_dec x 0) as [->|]; [simpl; lia |]. apply Z.log2_lt_pow2; [lia |].
    apply Z.lt_le_trans with (2 ^ 8); [lia |]. apply Z.pow_le_mono_r; lia.
Qed.

(** Reading most significant first undoes [be]. *)
Lemma fold_be w n v acc :
  8 * Z.of_nat n <= w -> 0 <= acc -> (acc + 1) * 2 ^ (8 * Z.of_nat n) <= 2 ^ w ->
  fold_left (shift_in w) (be n v) acc = acc * 2 ^ (8 * Z.of_nat n) + v mod 2 ^ (8 * Z.of_nat n).
Proof.
  revert acc. induction n as [|n IH]; intros acc Hw Ha Hb.
  { simpl. rewrite Z.mod_1_r. lia. }
  assert (2 ^ (8 * Z.of_nat (S n)) = 256 * 2 ^ (8 * Z.of_nat n)) as Hpow.
  { change 256 with (2 ^ 8). rewrite <- Z.pow_add_r by lia. f_equal. lia. }
  rewrite Hpow in Hb |- *. set (q := 2 ^ (8 * Z.of_nat n)) in *.
  assert (1 <= q) by (apply (Z.pow_le_mono_r 2 0); lia).
  assert (2 ^ w = 2 ^ (w - 8) * 256) by (rewrite <- (Z.pow_add_r 2 _ 8) by lia; f_equal; lia).
  cbn [be fold_left]. rewrite byte_at_val by lia. fold q.
  pose proof (Z.mod_pos_bound (v / q) 256 ltac:(lia)). rewrite shift_in_val by nia.
  rewrite IH by nia. rewrite (Z.mul_comm 256), Z.rem_mul_r by lia. fold q. lia.
Qed.

Lemma fold_be_value w n v :
  8 * Z.of_nat n <= w -> 0 <= v < 2 ^ (8 * Z.of_nat n) -> fold_left (shift_in w) (be n v) 0 = v.
Proof.
  intros Hw Hv. rewrite fold_be by (first [lia | rewrite Z.mul_1_l; apply Z.pow_le_mono_r; lia]).
  rewrite Z.mod_small by done. lia.
Qed.

(** ** Reading *)

(** The reader [r] consumes [n] bytes and returns [f] of them. *)
Definition reads {A} (r : Iterator -> Mem -> option (A * Iterator)) (n : Z) (f : list Z -> A) : Prop :=
  forall c m b bs, inv m (b :: bs) -> m_start b <= c -> c + n <= m_end b ->
  let p := c - m_start b in
  r (Construct b c) m = Some (f (slice p (p + n) (content m b)), Construct b (c + n)).

Lemma slice_app_l p q l1 l2 : 0 <= p -> q <= zlen l1 -> slice p q (l1 ++ l2) = slice p q l1.
Proof.
  intros Hp Hq. destruct (Z.le_gt_cases q p); [by rewrite !slice_nil |]. unfold slice, zlen in *.
  rewrite drop_app_le by lia. rewrite take_app_le; [done |]. rewrite length_drop. lia.
Qed.

Lemma slice_app_r p q l1 l2 :
  zlen l1 <= p -> slice p q (l1 ++ l2) = slice (p - zlen l1) (q - zlen l1) l2.
Proof.
  intros Hp. unfold slice, zlen in *. rewrite drop_app_ge by lia. f_equal; [lia |]. f_equal. lia.
Qed.

Lemma slice_slice p q s e l :
  0 <= p -> 0 <= s -> s + q <= e -> slice p q (slice s e l) = slice (s + p) (s + q) l.
Proof.
  intros. unfold slice at 1. rewrite drop_slice by lia. rewrite take_slice.
  destruct (Z.le_gt_cases q p); [by rewrite !slice_nil by lia |]. f_equal; lia.
Qed.

Lemma content_of_get l b c n :
  shape b -> iend b <= zlen l -> 0 <= n -> region_ok b c n ->
  slice (c - m_start b) (c - m_start b + n) (content_of l b) = slice (phys b c) (phys b c + n) l.
Proof.
  intros (H1 & H2 & _) Hl Hn (H3 & H4 & H5).
  destruct (Z.eq_dec n 0) as [->|]; [by rewrite !slice_nil by lia |].
  pose proof (slice_length (m_start b) (m_zeroAreaStart b) l ltac:(lia)
    ltac:(unfold iend, zone in *; lia)) as HA.
  assert (zlen (replicate (Z.to_nat (zone b)) 0) = zone b) as HZ
    by (unfold zlen, zone; rewrite length_replicate; lia).
  unfold content_of, phys, iend, zone in *. case_ifs.
  - rewrite slice_app_l, slice_slice by lia. f_equal; lia.
  - rewrite slice_app_r, slice_app_r, slice_slice by lia. f_equal; lia.
Qed.

Lemma peek_at c n m b bs :
  inv m (b :: bs) -> 0 <= n -> region_ok b c n -> n <> 0 ->
  peek (phys b c) n (Construct b c) m =
    Some (slice (c - m_start b) (c - m_start b + n) (content m b)).
Proof.
  intros Hi Hn Hr Hne. destruct (live_block _ _ b Hi) as (d & Hd & (Hs & He & _) & _ & Hl & _ & ->); [set_solver |].
  unfold peek, load. simpl. rewrite Hd. rewrite <- Hl in He.
  rewrite content_of_get by done. destruct Hs as (? & ? & _). destruct Hr as (? & ? & ?).
  apply get_bytes_slice; unfold phys, iend, zone in *; case_ifs; lia.
Qed.

Lemma content_zero m b bs c :
  inv m (b :: bs) -> m_zeroAreaStart b <= c < m_zeroAreaEnd b ->
  slice (c - m_start b) (c - m_start b + 1) (content m b) = [0].
Proof.
  intros Hi Hc. destruct (live_block _ _ b Hi) as (d & Hd & (Hs & He & _) & _ & Hl & _ & ->); [set_solver |].
  destruct Hs as (H1 & H2 & _). unfold content_of.
  pose proof (slice_length (m_start b) (m_zeroAreaStart b) (m_bytes d) ltac:(lia)
    ltac:(unfold iend, zone in *; lia)) as HA.
  assert (zlen (replicate (Z.to_nat (zone b)) 0) = zone b) as HZ
    by (unfold zlen, zone; rewrite length_replicate; lia).
  unfold zone in *. rewrite slice_app_r, slice_app_l by lia. rewrite HA.
  unfold slice. rewrite drop_replicate, take_replicate.
  replace (_ `min` _)%nat with 1%nat; [done | lia].
Qed.

Lemma slice_single p l : 0 <= p < zlen l -> exists x, slice p (p + 1) l = [x].
Proof.
  intros Hp. pose proof (slice_length p (p + 1) l ltac:(lia) ltac:(lia)) as Hl.
  unfold zlen in *. destruct (slice p (p + 1) l) as [|x [|]]; simpl in Hl; try lia. by exists x.
Qed.

Lemma reads_U8 : reads ReadU8 1 (hd 0).
Proof.
  intros c m b bs Hi Hs He p. destruct (inv_offsets _ _ _ Hi) as (Ho1 & Ho2 & Ho3).
  unfold ReadU8, PeekU8. simpl.
  rewrite (proj2 (Z.leb_le _ _)), (proj2 (Z.ltb_lt c (m_end b))) by lia. simpl.
  assert (forall off, off = phys b c -> region_ok b c 1 ->
    (let* l := peek off 1 (Construct b c) m in head l) = Some (hd 0 (slice p (p + 1) (content m b)))) as Hpk.
  { intros off -> Hr. rewrite (peek_at c 1 m b bs) by done. fold p.
    pose proof (content_size _ _ _ Hi). destruct (slice_single p (content m b)) as [x ->]; [lia | done]. }
  unfold move_to, Construct in *. simpl. rewrite (u32_small (c + 1)) by lia. case_ifs.
  - rewrite Hpk; [done | unfold phys; case_ifs; lia | split_and!; lia].
  - unfold p. by rewrite (content_zero m b bs).
  - rewrite Hpk; [done | | split_and!; lia]. unfold after_zero, phys, zone. simpl. case_ifs; [lia |].
    rewrite (u32_small (m_zeroAreaEnd b - _)), u32_small by lia. done.
Qed.

Lemma reads_Read n : reads (Read n) (Z.of_nat n) (fun l => l).
Proof.
  induction n as [|n IH]; intros c m b bs Hi Hs He p.
  { simpl. rewrite Z.add_0_r, slice_nil by lia. by rewrite Z.add_0_r. }
  cbn [Read]. rewrite (reads_U8 c m b bs) by (done || lia).
  rewrite (IH (c + 1) m b bs) by (done || lia). fold p.
  replace (c + 1 + Z.of_nat n) with (c + Z.of_nat (S n)) by lia. do 2 f_equal.
  rewrite <- (slice_app p (p + 1) (p + Z.of_nat (S n))) by lia.
  pose proof (content_size _ _ _ Hi). destruct (slice_single p (content m b)) as [x ->]; [lia |].
  simpl. do 2 f_equal; lia.
Qed.

(** Readers of integers in terms of the bytes read. *)

Lemma reads_map {A B} (r : Iterator -> Mem -> option (A * Iterator)) n f (g : A -> B) r' :
  reads r n f -> (forall i m, r' i m = let* (x, i) := r i m in Some (g x, i)) ->
  reads r' n (fun l => g (f l)).
Proof. intros Hr E c m b bs Hi H1 H2 p. rewrite E. by rewrite (Hr c m b bs Hi H1 H2). Qed.

Lemma shift_in_0 w x : shift_in w 0 x = x.
Proof. unfold shift_in. rewrite Z.shiftl_0_l. unfold wrap. by rewrite Zmod_0_l. Qed.

(** Unfold a sequence of [ReadU8] on both sides. *)
Ltac read_steps :=
  cbn [Read];
  repeat match goal with
  | |- context [ReadU8 ?i ?m] => destruct (ReadU8 i m) as [[? ?]|]; [| done]
  end.

Lemma reads_U16 : reads ReadU16 2 (fun l => fold_left (shift_in 16) (rev l) 0).
Proof.
  apply (reads_map (Read 2) _ (fun l => l)); [apply (reads_Read 2) |]. intros i m. unfold ReadU16.
  read_steps. simpl. by rewrite shift_in_0.
Qed.

Lemma reads_U32 : reads ReadU32 4 (fun l => fold_left (shift_in 32) (rev l) 0).
Proof.
  apply (reads_map (Read 4) _ (fun l => l)); [apply (reads_Read 4) |]. intros i m. unfold ReadU32.
  read_steps. simpl. by rewrite shift_in_0.
Qed.

Lemma reads_U64 : reads ReadU64 8 (fun l => fold_left (shift_in 64) (rev l) 0).
Proof.
  apply (reads_map (Read 8) _ (fun l => l)); [apply (reads_Read 8) |]. intros i m. unfold ReadU64.
  read_steps. simpl. by rewrite shift_in_0.
Qed.

Lemma reads_NtohU64 : reads ReadNtohU64 8 (fun l => fold_left (shift_in 64) l 0).
Proof. by apply (reads_map (Read 8) _ (fun l => l)); [apply (reads_Read 8) |]. Qed.

(** The two fast paths of the network order readers agree with the slow one. *)
Lemma fast_path_ok n c m b bs :
  inv m (b :: bs) -> 0 < n -> m_start b <= c -> c + n <= m_end b ->
  (u32 (c + n) <= m_zeroAreaStart b -> region_ok b c n /\ phys b c = c) /\
  (m_zeroAreaStart b < u32 (c + n) -> m_zeroAreaEnd b <= c ->
     region_ok b c n /\ phys b c = after_zero c (Construct b c)) /\ u32 (c + n) = c + n.
Proof.
  intros Hi Hn Hs He. destruct (inv_offsets _ _ _ Hi) as (Ho1 & Ho2 & Ho3).
  rewrite (u32_small (c + n)) by lia. unfold region_ok, phys, after_zero, zone. simpl. split_and!; intros.
  - case_ifs; lia.
  - rewrite (u32_small (m_zeroAreaEnd b - _)), u32_small by lia. case_ifs; lia.
  - done.
Qed.

Lemma reads_NtohU16 : reads ReadNtohU16 2 (fun l => fold_left (shift_in 16) l 0).
Proof.
  intros c m b bs Hi Hs He p. destruct (fast_path_ok 2 c m b bs Hi ltac:(lia) Hs He) as (H1 & H2 & Eu).
  unfold ReadNtohU16. simpl. case_ifs.
  - destruct (H1 E) as [Hr Eo]. pose proof (peek_at c 2 m b bs Hi ltac:(done) Hr ltac:(done)) as Hp.
    rewrite Eo in Hp. by rewrite Hp, Eu.
  - destruct (H2 E E0) as [Hr Eo]. pose proof (peek_at c 2 m b bs Hi ltac:(done) Hr ltac:(done)) as Hp.
    rewrite Eo in Hp. by rewrite Hp, Eu.
  - unfold SlowReadNtohU16. by rewrite (reads_Read 2 c m b bs).
Qed.

Lemma reads_NtohU32 : reads ReadNtohU32 4 (fun l => fold_left (shift_in 32) l 0).
Proof.
  intros c m b bs Hi Hs He p. destruct (fast_path_ok 4 c m b bs Hi ltac:(lia) Hs He) as (H1 & H2 & Eu).
  unfold ReadNtohU32. simpl. case_ifs.
  - destruct (H1 E) as [Hr Eo]. pose proof (peek_at c 4 m b bs Hi ltac:(done) Hr ltac:(done)) as Hp.
    rewrite Eo in Hp. by rewrite Hp, Eu.
  - destruct (H2 E E0) as [Hr Eo]. pose proof (peek_at c 4 m b bs Hi ltac:(done) Hr ltac:(done)) as Hp.
    rewrite Eo in Hp. by rewrite Hp, Eu.
  - unfold SlowReadNtohU32. by rewrite (reads_Read 4 c m b bs).
Qed.

(** *** Writers of integers, least significant byte first *)

Lemma byte_at_shift j k v : 0 <= j -> 0 <= k -> byte_at j (Z.shiftr v k) = byte_at (k + j) v.
Proof. intros. unfold byte_at. by rewrite Z.shiftr_shiftr by done. Qed.

Lemma byte_at_0 v : Z.land v 255 = byte_at 0 v.
Proof. unfold byte_at. by rewrite Z.shiftr_0_r. Qed.

(** A chain of [WriteU8] of shifted values as a sequence of bytes. *)
Ltac write_steps :=
  rewrite ?byte_at_0, ?byte_at_shift by lia; cbn [Write_seq];
  repeat match goal with
  | |- context [byte_at ?k _] => let k' := eval vm_compute in k in progress change k with k'
  end;
  repeat match goal with
  | |- context [WriteU8 ?x ?i ?m] => destruct (WriteU8 x i m) as [[? ?]|]; [| done]
  end.

Lemma WriteU16_seq v i m : WriteU16 v i m = Write_seq (rev (be 2 v)) i m.
Proof. unfold WriteU16. simpl rev. write_steps. done. Qed.
Lemma WriteU32_seq v i m : WriteU32 v i m = Write_seq (rev (be 4 v)) i m.
Proof. unfold WriteU32. simpl rev. write_steps. done. Qed.
Lemma WriteU64_seq v i m : WriteU64 v i m = Write_seq (rev (be 8 v)) i m.
Proof. unfold WriteU64. simpl rev. write_steps. done. Qed.

Lemma writes_ext w w' src : (forall i m, w' i m = w i m) -> writes w src -> writes w' src.
Proof. intros E Hw c m b bs Hi Hr Hp. rewrite E. by apply Hw. Qed.

(** ** Round trips *)

(** Writing with [w] and reading with [r] at the same place returns [v], leaves
    both iterators [n] bytes further, and changes no other buffer. *)
Definition round_trip (w : Iterator -> Mem -> option (Iterator * Mem))
    (r : Iterator -> Mem -> option (Z * Iterator)) (n v : Z) : Prop :=
  forall c m b bs, inv m (b :: bs) -> region_ok b c n -> private b (phys b c) (phys b c + n) bs ->
  exists m', w (Construct b c) m = Some (Construct b (c + n), m') /\ inv m' (b :: bs) /\
    r (Construct b c) m' = Some (v, Construct b (c + n)) /\
    (forall e, e ∈ bs -> content m' e = content m e).

Lemma splice_slice p src l :
  0 <= p -> p + zlen src <= zlen l -> slice p (p + zlen src) (splice p src l) = src.
Proof.
  intros Hp Hl. unfold slice, splice, zlen in *.
  rewrite drop_app_length' by (rewrite length_take; lia).
  by rewrite take_app_length' by lia.
Qed.

Lemma round_trip_intro w r src f v :
  writes w src -> reads r (zlen src) f -> f src = v -> round_trip w r (zlen src) v.
Proof.
  intros Hw Hr <- c m b bs Hi Hreg Hp.
  destruct (Hw c m b bs Hi Hreg Hp) as (m' & E & Hi' & Hc & Ho). exists m'. split_and!; try done.
  destruct Hreg as (H1 & H2 & H3). rewrite (Hr c m' b bs Hi' H1 H2), Hc.
  pose proof (content_size _ _ _ Hi). by rewrite splice_slice by lia.
Qed.

(** ** Fragments *)

Lemma CreateFragment_ok start len m b bs :
  inv m (b :: bs) -> 0 <= start -> 0 <= len -> start + len <= zlen (content m b) ->
  Z.of_nat (length bs) + 2 < 2 ^ 32 ->
  exists b' m', CreateFragment start len b m = Some (b', m') /\ inv m' (b' :: b :: bs) /\
    content m' b' = slice start (start + len) (content m b) /\
    (forall c, c ∈ b :: bs -> content m' c = content m c).
Proof.
  intros Hi Hs Hl Hsz Hlen. unfold CreateFragment.
  destruct (copy_ok m b bs Hi Hlen) as (b1 & m1 & -> & Hi1 & Hc1 & Ho1). cbn [fst snd].
  destruct (inv_offsets _ _ _ Hi) as (H1 & H2 & H3). pose proof (content_size _ _ _ Hi) as Hcs.
  pose proof (bi_shape _ _ (proj2 Hi) b ltac:(set_solver)) as (_ & _ & Hmax). unfold MAX_CONTENT in Hmax.
  destruct (RemoveAtStart_ok start m1 b1 (b :: bs) Hi1) as (b2 & -> & Hi2 & Hc2); [lia |].
  unfold GetSize. rewrite (u32_small (m_end b - m_start b)), (u32_small (start + len)), u32_small by lia.
  destruct (RemoveAtEnd_ok (m_end b - m_start b - (start + len)) m1 b2 (b :: bs) Hi2) as [Hi3 Hc3]; [lia |].
  do 2 eexists. split; [done |]. split_and!; [done | | done].
  rewrite Hc3, Hc2, Hc1. unfold slice, zlen in *. rewrite length_drop. f_equal. lia.
Qed.

(** ** Growing a buffer and filling the new bytes *)

Section Grow.
Context (uninit : Z -> nat -> Z).

(** [AddAtStart(n)] and a write of [n] bytes from [Begin()], as
    [Packet::AddHeader] does with the bytes of a header. *)
Definition prepend (w : Iterator -> Mem -> option (Iterator * Mem)) (n : Z) (b : Buffer) (m : Mem)
    : option (Buffer * Mem) :=
  let* (b, m) := AddAtStart uninit n b m in
  let* (_, m) := w (Begin b) m in
  Some (b, m).

(** [AddAtEnd(n)] and a write of [n] bytes from [End()] stepped back by [n]. *)
Definition append (w : Iterator -> Mem -> option (Iterator * Mem)) (n : Z) (b : Buffer) (m : Mem)
    : option (Buffer * Mem) :=
  let* (b, m) := AddAtEnd uninit n b m in
  let* i := Prev n (End_ b) in
  let* (_, m) := w i m in
  Some (b, m).

Lemma splice_start s x l : zlen x = zlen s -> splice 0 s (x ++ l) = s ++ l.
Proof. intros E. unfold splice. simpl. rewrite drop_app_length' by (unfold zlen in E; lia). done. Qed.

Lemma splice_end s x l : zlen x = zlen s -> splice (zlen l) s (l ++ x) = l ++ s.
Proof.
  intros E. unfold splice, zlen in *. rewrite Nat2Z.id, take_app_length.
  rewrite drop_ge by (rewrite length_app; lia). by rewrite app_nil_r.
Qed.

Lemma prepend_ok w src m b bs :
  writes w src -> inv m (b :: bs) -> zlen (content m b) + zlen src <= MAX_CONTENT ->
  Z.of_nat (length bs) + 2 < 2 ^ 32 ->
  exists b' m', prepend w (zlen src) b m = Some (b', m') /\ inv m' (b' :: bs) /\
    content m' b' = src ++ content m b /\ (forall c, c ∈ bs -> content m' c = content m c) /\
    zone b' = zone b /\ (m_data b' = m_data b \/ m_data b' ∉ m_data <$> bs).
Proof.
  intros Hw Hi Hsz Hlen. pose proof (zlen_nonneg src) as Hn. unfold prepend.
  destruct (AddAtStart_ok uninit (zlen src) m b bs Hi Hn Hsz Hlen) as ([b1 m1] & -> & Hi1 & (x & Hx & Hc1) & Ho1 & Hp & Hz & Hzn & Hdn).
  destruct (inv_offsets _ _ _ Hi1) as (H1 & H2 & H3).
  destruct (Hw (m_start b1) m1 b1 bs Hi1) as (m2 & Ew & Hi2 & Hc2 & Ho2).
  - unfold region_ok. lia.
  - intros c Hc Ec. destruct (Hp c Hc Ec); unfold phys; case_ifs; lia.
  - unfold Begin. rewrite Ew. exists b1, m2. split_and!; try done.
    + rewrite Hc2, Hc1, Z.sub_diag. by apply splice_start.
    + intros c Hc. by rewrite Ho2, Ho1.
Qed.

Lemma append_ok w src m b bs :
  writes w src -> inv m (b :: bs) -> zlen (content m b) + zlen src <= MAX_CONTENT ->
  Z.of_nat (length bs) + 2 < 2 ^ 32 ->
  exists b' m', append w (zlen src) b m = Some (b', m') /\ inv m' (b' :: bs) /\
    content m' b' = content m b ++ src /\ (forall c, c ∈ bs -> content m' c = content m c) /\
    zone b' = zone b /\ (m_data b' = m_data b \/ m_data b' ∉ m_data <$> bs).
Proof.
  intros Hw Hi Hsz Hlen. pose proof (zlen_nonneg src) as Hn. unfold append.
  destruct (AddAtEnd_ok uninit (zlen src) m b bs Hi Hn Hsz Hlen) as ([b1 m1] & -> & Hi1 & (x & Hx & Hc1) & Ho1 & Hp & Hz & Hzn & Hdn).
  destruct (inv_offsets _ _ _ Hi1) as (H1 & H2 & H3).
  pose proof (content_size _ _ _ Hi1) as Hs1. rewrite Hc1, zlen_app, Hx in Hs1.
  unfold Prev. simpl. rewrite (proj2 (Z.leb_le _ _)), u32_small by lia. simpl.
  destruct (Hw (m_end b1 - zlen src) m1 b1 bs Hi1) as (m2 & Ew & Hi2 & Hc2 & Ho2).
  - unfold region_ok. lia.
  - intros c Hc Ec. destruct (Hp c Hc Ec); unfold phys, iend, zone in *; case_ifs; lia.
  - unfold move_to. simpl. unfold Construct in Ew. rewrite Ew. exists b1, m2. split_and!; try done.
    + rewrite Hc2, Hc1. replace (m_end b1 - zlen src - m_start b1) with (zlen (content m b)) by lia.
      by apply splice_end.
    + intros c Hc. by rewrite Ho2, Ho1.
Qed.

End Grow.

End BufferRw.
