(* ===== verification/BufferProps.v ===== *)
(** * Properties of packet buffers

    The shared, copy-on-write buffers behave like independent byte strings
    (a simulation over programs on a pool of buffers), no block leaks, integers
    written are read back, the checksum verifies, serialization round trips,
    and the cases in which appending a buffer goes wrong. *)

From S2P Require Import Prelude Buffer BufferIterator BufferInv BufferRw.
Import Buffer Iterator BufferOps BufferInv BufferRw.

Module BufferProps.

(** ** Pools of buffers

    Programs over a pool of buffers named by position, and the same programs
    over a pool of byte strings. *)

Inductive op :=
  | New (zeroes : Z)
  | Copy (i : nat)
  | Assign (i j : nat)
  | Destroy (i : nat)
  | PushFront (i : nat) (bytes : list Z)
  | PushBack (i : nat) (bytes : list Z)
  | PopFront (i : nat) (n : Z)
  | PopBack (i : nat) (n : Z)
  | Fragment (i : nat) (start len : Z).

(** One operation on buffers in memory. *)
Definition exec (uninit : Z -> nat -> Z) (o : op) (st : Mem * list Buffer) : option (Mem * list Buffer) :=
  let (m, bs) := st in
  match o with
  | New z => let* (b, m) := Initialize uninit z m in Some (m, b :: bs)
  | Copy i => let* b := bs !! i in let* (b, m) := copy b m in Some (m, b :: bs)
  | Assign i j =>
      let* b := bs !! i in let* o := bs !! j in
      let* (b, m) := assign b o m in Some (m, <[i := b]> bs)
  | Destroy i => let* b := bs !! i in let* m := destroy b m in Some (m, delete i bs)
  | PushFront i l =>
      let* b := bs !! i in
      let* (b, m) := prepend uninit (Write_bytes l) (zlen l) b m in Some (m, <[i := b]> bs)
  | PushBack i l =>
      let* b := bs !! i in
      let* (b, m) := append uninit (Write_bytes l) (zlen l) b m in Some (m, <[i := b]> bs)
  | PopFront i n => let* b := bs !! i in let* b := RemoveAtStart n b in Some (m, <[i := b]> bs)
  | PopBack i n => let* b := bs !! i in Some (m, <[i := RemoveAtEnd n b]> bs)
  | Fragment i s l =>
      let* b := bs !! i in let* (b, m) := CreateFragment s l b m in Some (m, b :: bs)
  end.

(** The operation on byte strings; [None] outside the limits: buffers of at
    most 2^30 bytes, at most 2^32 - 3 of them, fragments inside the buffer. *)
Definition spec (o : op) (vs : list (list Z)) : option (list (list Z)) :=
  let room := Z.of_nat (length vs) + 2 <? 2 ^ 32 in
  match o with
  | New z => assert* room && (0 <=? z) && (z <=? MAX_CONTENT) in Some (replicate (Z.to_nat z) 0 :: vs)
  | Copy i => assert* room in let* v := vs !! i in Some (v :: vs)
  | Assign i j => let* _ := vs !! i in let* v := vs !! j in Some (<[i := v]> vs)
  | Destroy i => let* _ := vs !! i in Some (delete i vs)
  | PushFront i l =>
      let* v := vs !! i in
      assert* room && (zlen v + zlen l <=? MAX_CONTENT) in Some (<[i := l ++ v]> vs)
  | PushBack i l =>
      let* v := vs !! i in
      assert* room && (zlen v + zlen l <=? MAX_CONTENT) in Some (<[i := v ++ l]> vs)
  | PopFront i n =>
      let* v := vs !! i in
      assert* (0 <=? n) && (n <? 2 ^ 31) in Some (<[i := drop (Z.to_nat n) v]> vs)
  | PopBack i n =>
      let* v := vs !! i in
      assert* (0 <=? n) && (n <? 2 ^ 32) in Some (<[i := take (length v - Z.to_nat n) v]> vs)
  | Fragment i s l =>
      let* v := vs !! i in
      assert* room && (0 <=? s) && (0 <=? l) && (s + l <=? zlen v) in
      Some (slice s (s + l) v :: vs)
  end.

Fixpoint exec_all (uninit : Z -> nat -> Z) (os : list op) (st : Mem * list Buffer)
    : option (Mem * list Buffer) :=
  match os with [] => Some st | o :: os => let* st := exec uninit o st in exec_all uninit os st end.

Fixpoint spec_all (os : list op) (vs : list (list Z)) : option (list (list Z)) :=
  match os with [] => Some vs | o :: os => let* vs := spec o vs in spec_all os vs end.

(** The buffers of a pool stand for these byte strings. *)
Definition stands_for (st : Mem * list Buffer) (vs : list (list Z)) : Prop :=
  inv st.1 st.2 /\ content st.1 <$> st.2 = vs.

(** *** Lists indexed by position *)

Lemma lookup_split {A} (l : list A) i x :
  l !! i = Some x -> exists l1 l2, l = l1 ++ x :: l2 /\ i = length l1.
Proof.
  intros H. exists (take i l), (drop (S i) l). split; [by rewrite take_drop_middle |].
  rewrite length_take. apply lookup_lt_Some in H. lia.
Qed.

Lemma insert_middle {A} (l1 : list A) x y l2 : <[length l1 := y]> (l1 ++ x :: l2) = l1 ++ y :: l2.
Proof. rewrite insert_app_r_alt by lia. by rewrite Nat.sub_diag. Qed.

Lemma inv_perm m bs bs' : bs ≡ₚ bs' -> inv m bs -> inv m bs'.
Proof.
  intros Hp [Hm Hb]. split; [eapply minv_perm; [| done]; by rewrite Hp | by eapply binv_perm].
Qed.

(** Replacing the buffer at a position, everything else being unchanged. *)
Lemma stands_update m m' l1 b b' l2 v :
  inv m' (b' :: (l1 ++ l2)) -> content m' b' = v ->
  (forall c, c ∈ l1 ++ l2 -> content m' c = content m c) ->
  stands_for (m', <[length l1 := b']> (l1 ++ b :: l2)) (<[length l1 := v]> (content m <$> l1 ++ b :: l2)).
Proof.
  intros Hi Hc Ho. unfold stands_for. cbn [fst snd].
  rewrite insert_middle, (fmap_app (content m)), <- (length_fmap (content m) l1), fmap_cons, insert_middle.
  split; [eapply inv_perm; [| done]; solve_Permutation |].
  rewrite fmap_app, fmap_cons, Hc. f_equal; [| f_equal]; apply list_fmap_ext; intros ? c Hlc;
    apply Ho; apply elem_of_app; [left | right]; by eapply list_elem_of_lookup_2.
Qed.

(** A new buffer in front, everything else being unchanged. *)
Lemma stands_cons m m' bs b' v :
  inv m' (b' :: bs) -> content m' b' = v -> (forall c, c ∈ bs -> content m' c = content m c) ->
  stands_for (m', b' :: bs) (v :: (content m <$> bs)).
Proof.
  intros Hi Hc Ho. split; [done |]. cbn [fst snd]. rewrite fmap_cons, Hc. f_equal.
  apply list_fmap_ext. intros ? c Hlc. apply Ho. by eapply list_elem_of_lookup_2.
Qed.

(** The buffer at a position and the others. *)
Lemma pick m bs i v :
  inv m bs -> (content m <$> bs) !! i = Some v ->
  exists l1 b l2, bs = l1 ++ b :: l2 /\ i = length l1 /\ v = content m b /\
    inv m (b :: (l1 ++ l2)) /\ bs !! i = Some b /\
    (Z.of_nat (length bs) + 2 < 2 ^ 32 -> Z.of_nat (length (l1 ++ l2)) + 2 < 2 ^ 32).
Proof.
  intros Hi Hv. rewrite list_lookup_fmap in Hv. destruct (bs !! i) as [b|] eqn:Eb; [| done].
  injection Hv as <-. destruct (lookup_split bs i b Eb) as (l1 & l2 & -> & ->).
  exists l1, b, l2. split_and!; try done.
  - eapply inv_perm; [| done]. solve_Permutation.
  - rewrite !length_app. simpl. lia.
Qed.

Lemma Assign_spec m bs i j b o :
  inv m bs -> bs !! i = Some b -> bs !! j = Some o ->
  exists b' m', assign b o m = Some (b', m') /\
    stands_for (m', <[i := b']> bs) (<[i := content m o]> (content m <$> bs)).
Proof.
  intros Hi Eb Eo. destruct (lookup_split bs i b Eb) as (l1 & l2 & -> & ->).
  assert (inv m (b :: (l1 ++ l2))) as Hib by (eapply inv_perm; [| done]; solve_Permutation).
  destruct (decide (j = length l1)) as [->|Hne].
  - rewrite Eb in Eo. injection Eo as <-.
    destruct (assign_self_ok m b (l1 ++ l2) Hib) as (m' & -> & Hi' & Hc).
    exists b, m'. split; [done |]. by apply stands_update.
  - assert (o ∈ l1 ++ l2) as Hin.
    { apply elem_of_app. destruct (decide (j < length l1)%nat) as [Hlt|Hge].
      - left. rewrite lookup_app_l in Eo by done. by eapply list_elem_of_lookup_2.
      - right. rewrite lookup_app_r in Eo by lia.
        destruct (j - length l1)%nat as [|k] eqn:Ek; [lia |]. by eapply list_elem_of_lookup_2. }
    apply elem_of_Permutation in Hin as [k Hk].
    destruct (assign_ok m b o k) as (m' & -> & Hi' & Hc); [by eapply inv_perm; [| done]; rewrite Hk |].
    exists o, m'. split; [done |]. apply stands_update.
    + eapply inv_perm; [| done]. by rewrite Hk.
    + apply Hc. set_solver.
    + intros c Hcl. apply Hc. by rewrite <- Hk.
Qed.

Lemma Destroy_spec m bs i b :
  inv m bs -> bs !! i = Some b ->
  exists m', destroy b m = Some m' /\ stands_for (m', delete i bs) (delete i (content m <$> bs)).
Proof.
  intros Hi Eb. destruct (lookup_split bs i b Eb) as (l1 & l2 & -> & ->).
  destruct (destroy_ok m b (l1 ++ l2)) as (m' & -> & Hi' & Hc).
  { eapply inv_perm; [| done]. solve_Permutation. }
  exists m'. split; [done |]. rewrite <- list_fmap_delete, delete_middle. split; [done |].
  apply list_fmap_ext. intros ? c Hlc. apply Hc. by eapply list_elem_of_lookup_2.
Qed.

(** One operation simulates its specification. *)
Lemma exec_spec uninit o m bs vs' :
  inv m bs -> spec o (content m <$> bs) = Some vs' ->
  exists st', exec uninit o (m, bs) = Some st' /\ stands_for st' vs'.
Proof.
  intros Hi Hs. destruct o as [z|i|i j|i|i l|i l|i n|i n|i s l]; cbn [exec spec] in *;
    rewrite ?length_fmap in Hs; inv_opt; bool_prop;
    try match goal with
    | H : (content m <$> bs) !! i = Some _ |- _ =>
        destruct (pick m bs i _ Hi H) as (l1 & b & l2 & Ebs & Ei & -> & Hib & Eb & Hlen)
    end.
  - destruct (Initialize_ok uninit z m bs) as (b & m' & -> & Hi' & Hc & Ho & _); try done; [lia |].
    eexists. split; [done |]. by apply stands_cons.
  - rewrite Eb. destruct (copy_ok m b (l1 ++ l2) Hib) as (b' & m' & -> & Hi' & Hc & Ho); [lia |].
    eexists. split; [done |]. subst bs. apply stands_cons; [| done | set_solver].
    eapply inv_perm; [| done]. solve_Permutation.
  - destruct (pick m bs j _ Hi ltac:(eassumption)) as (_ & o & _ & _ & _ & -> & _ & Eo & _).
    destruct (Assign_spec m bs i j b o Hi Eb Eo) as (b' & m' & E & Hst). rewrite Eb, Eo, E. by eexists.
  - destruct (Destroy_spec m bs i b Hi Eb) as (m' & E & Hst). rewrite Eb, E. by eexists.
  - rewrite Eb. destruct (prepend_ok uninit _ _ m b (l1 ++ l2) (writes_bytes l) Hib) as (b' & m' & -> & Hi' & Hc & Ho & _); [lia | lia |].
    eexists. split; [done |]. subst bs i. by apply stands_update.
  - rewrite Eb. destruct (append_ok uninit _ _ m b (l1 ++ l2) (writes_bytes l) Hib) as (b' & m' & -> & Hi' & Hc & Ho & _); [lia | lia |].
    eexists. split; [done |]. subst bs i. by apply stands_update.
  - rewrite Eb. destruct (RemoveAtStart_ok n m b (l1 ++ l2) Hib) as (b' & -> & Hi' & Hc); [lia |].
    eexists. split; [done |]. subst bs i. by apply stands_update.
  - rewrite Eb. destruct (RemoveAtEnd_ok n m b (l1 ++ l2) Hib) as (Hi' & Hc); [lia |].
    eexists. split; [done |]. subst bs i. by apply stands_update.
  - rewrite Eb. destruct (CreateFragment_ok s l m b (l1 ++ l2) Hib) as (b' & m' & -> & Hi' & Hc & Ho); try lia.
    eexists. split; [done |]. subst bs. apply stands_cons; [| done | set_solver].
    eapply inv_perm; [| done]. solve_Permutation.
Qed.

Lemma exec_all_spec uninit os m bs vs' :
  inv m bs -> spec_all os (content m <$> bs) = Some vs' ->
  exists st', exec_all uninit os (m, bs) = Some st' /\ stands_for st' vs'.
Proof.
  revert m bs. induction os as [|o os IH]; intros m bs Hi Hs; cbn [exec_all spec_all] in *.
  - injection Hs as <-. by exists (m, bs).
  - destruct (spec o (content m <$> bs)) as [vs1|] eqn:E; [| done].
    destruct (exec_spec uninit o m bs vs1 Hi E) as ([m1 bs1] & -> & Hi1 & <-). by apply IH.
Qed.

Lemma inv_init : inv Mem_init [].
Proof.
  split; [| by split; intros; set_solver]. split; simpl; try done.
  - set_solver.
  - constructor.
  - intros a. unfold free_list. simpl. split; [set_solver |]. intros (d & Hd & _). done.
Qed.

(** C3: packet buffers have value semantics. Whatever fresh memory contains, a
    program that creates, copies, assigns, destroys, extends, trims and
    fragments buffers, within the size limits, never aborts and its buffers
    hold exactly the byte strings the same program computes on independent
    strings, although blocks are shared and written in place; and every block
    of the heap is either referenced or on the free list. *)
Theorem Buffer_values uninit os vs :
  spec_all os [] = Some vs ->
  exists m bs, exec_all uninit os (Mem_init, []) = Some (m, bs) /\ content m <$> bs = vs /\
    inv m bs /\ (forall a d, heap m !! a = Some d -> a ∈ m_data <$> bs \/ a ∈ free_list m).
Proof.
  intros Hs. destruct (exec_all_spec uninit os Mem_init [] vs inv_init Hs) as ([m bs] & E & Hi & Hc).
  exists m, bs. split_and!; try done. intros a d Hd. destruct Hi as [Hm _].
  destruct (decide (a ∈ m_data <$> bs)) as [|Hn]; [by left | right].
  apply (mi_free _ _ Hm). exists d. split; [done |].
  rewrite (bo_count _ _ _ _ (mi_block _ _ Hm a d Hd)). by apply count_occ_zero.
Qed.

(** A packet with a zero payload, a header, a copy that diverges, a fragment. *)
Definition demo_ops : list op :=
  [New 4; PushFront 0 [1; 2; 3]; Copy 0; PushFront 0 [9]; PushFront 1 [8; 7]; PushBack 0 [5];
   PopFront 1 6; Fragment 0 3 4; Assign 2 1; Destroy 1].

Definition demo_values : list (list Z) := [[3; 0; 0; 0]; [9; 1; 2; 3; 0; 0; 0; 0; 5]].

Lemma Buffer_values_witness :
  exists m bs, exec_all (fun _ _ => 51) demo_ops (Mem_init, []) = Some (m, bs) /\
    content m <$> bs = demo_values /\
    inv m bs /\ (forall a d, heap m !! a = Some d -> a ∈ m_data <$> bs \/ a ∈ free_list m).
Proof. apply Buffer_values. vm_compute. reflexivity. Defined.

(** ** Integers and headers through iterators *)

(** The readers and writers of one width. *)
Definition round_trips_16 (v : Z) : Prop :=
  round_trip (WriteHtonU16 v) ReadNtohU16 2 v /\ round_trip (WriteU16 v) ReadU16 2 v /\
  round_trip (WriteHtolsbU16 v) ReadLsbtohU16 2 v.
Definition round_trips_32 (v : Z) : Prop :=
  round_trip (WriteHtonU32 v) ReadNtohU32 4 v /\ round_trip (WriteU32 v) ReadU32 4 v /\
  round_trip (WriteHtolsbU32 v) ReadLsbtohU32 4 v.
Definition round_trips_64 (v : Z) : Prop :=
  round_trip (WriteHtonU64 v) ReadNtohU64 8 v /\ round_trip (WriteU64 v) ReadU64 8 v /\
  round_trip (WriteHtolsbU64 v) ReadLsbtohU64 8 v.

(** Reading least significant byte first undoes the reversed [be]. *)
Lemma round_trip_le w r (n : nat) k v :
  (forall i m, w i m = Write_seq (rev (be n v)) i m) -> (0 < n)%nat ->
  reads r (Z.of_nat n) (fun l => fold_left (shift_in k) (rev l) 0) -> 8 * Z.of_nat n <= k ->
  0 <= v < 2 ^ (8 * Z.of_nat n) -> round_trip w r (Z.of_nat n) v.
Proof.
  intros Ew Hn Hr Hk Hv. assert (zlen (rev (be n v)) = Z.of_nat n) as <- by (unfold zlen; rewrite length_rev, be_length; done).
  eapply round_trip_intro.
  - eapply writes_ext; [done |]. apply writes_Write_seq. intros E.
    apply (f_equal length) in E. rewrite length_rev, be_length in E. simpl in E. lia.
  - unfold zlen. rewrite length_rev, be_length. exact Hr.
  - simpl. rewrite rev_involutive. by apply fold_be_value.
Qed.

Lemma round_trip_be w r (n : nat) k v :
  writes w (be n v) -> reads r (Z.of_nat n) (fun l => fold_left (shift_in k) l 0) ->
  8 * Z.of_nat n <= k -> 0 <= v < 2 ^ (8 * Z.of_nat n) -> round_trip w r (Z.of_nat n) v.
Proof.
  intros Hw Hr Hk Hv. assert (zlen (be n v) = Z.of_nat n) as <- by (unfold zlen; rewrite be_length; done).
  eapply round_trip_intro; [done | unfold zlen; rewrite be_length; exact Hr | by apply fold_be_value].
Qed.

(** An integer written through an iterator, in network order or least
    significant byte first, in 16, 32 or 64 bits, is read back by the matching
    reader from the same position, wherever it lies with respect to the zero
    area, and no other buffer changes. *)
Theorem Iterator_round_trip v :
  (0 <= v < 2 ^ 16 -> round_trips_16 v) /\ (0 <= v < 2 ^ 32 -> round_trips_32 v) /\
  (0 <= v < 2 ^ 64 -> round_trips_64 v).
Proof.
  split_and!; intros Hv; split_and!.
  - apply (round_trip_be _ _ 2 16); [apply writes_HtonU16 | apply reads_NtohU16 | done | done].
  - apply (round_trip_le _ _ 2 16); [apply WriteU16_seq | lia | apply reads_U16 | done | done].
  - apply (round_trip_le _ _ 2 16); [done | lia | apply reads_U16 | done | done].
  - apply (round_trip_be _ _ 4 32); [apply writes_HtonU32 | apply reads_NtohU32 | done | done].
  - apply (round_trip_le _ _ 4 32); [apply WriteU32_seq | lia | apply reads_U32 | done | done].
  - apply (round_trip_le _ _ 4 32); [done | lia | apply reads_U32 | done | done].
  - apply (round_trip_be _ _ 8 64); [by apply (writes_Write_seq (be 8 v)) | apply reads_NtohU64 | done | done].
  - apply (round_trip_le _ _ 8 64); [apply WriteU64_seq | lia | apply reads_U64 | done | done].
  - apply (round_trip_le _ _ 8 64); [done | lia | apply reads_U64 | done | done].
Qed.

Lemma Iterator_round_trip_witness :
  round_trips_16 48879 /\ round_trips_32 3735928559 /\ round_trips_64 81985529216486895.
Proof.
  split; [| split]; apply (Iterator_round_trip _); split; (reflexivity || discriminate).
Defined.

(** Adding and removing a header. For every serializer that writes [src] and
    every parser that maps those bytes to [f src], adding the header puts [src]
    in front of the packet, parsing at the start returns [f src], removing as
    many bytes restores the packet, and no other packet changes. *)
Theorem Header_round_trip {A} uninit w (r : Iterator -> Mem -> option (A * Iterator)) src f m b bs :
  writes w src -> reads r (zlen src) f -> inv m (b :: bs) ->
  zlen (content m b) + zlen src <= MAX_CONTENT -> Z.of_nat (length bs) + 2 < 2 ^ 32 ->
  exists b' m' i b'', prepend uninit w (zlen src) b m = Some (b', m') /\
    content m' b' = src ++ content m b /\ r (Begin b') m' = Some (f src, i) /\
    RemoveAtStart (zlen src) b' = Some b'' /\ inv m' (b'' :: bs) /\ content m' b'' = content m b /\
    (forall c, c ∈ bs -> content m' c = content m c).
Proof.
  intros Hw Hr Hi Hsz Hlen. pose proof (zlen_nonneg src). pose proof (zlen_nonneg (content m b)).
  destruct (prepend_ok uninit w src m b bs Hw Hi Hsz Hlen) as (b' & m' & E & Hi' & Hc & Ho & _).
  pose proof (content_size _ _ _ Hi') as Hs'. rewrite Hc, zlen_app in Hs'.
  destruct (RemoveAtStart_ok (zlen src) m' b' bs Hi') as (b'' & Er & Hi2 & Hc2); [unfold MAX_CONTENT in *; lia |].
  exists b', m', (Construct b' (m_start b' + zlen src)), b''. split_and!; try done.
  - unfold Begin. rewrite (Hr (m_start b') m' b' bs Hi') by lia. rewrite Hc, Z.sub_diag. do 3 f_equal.
    unfold slice. simpl. rewrite drop_0, take_app_length'; [done |]. unfold zlen. lia.
  - rewrite Hc2, Hc, zlen_length. by rewrite drop_app_length.
Qed.

(** A buffer of ten zero bytes in a fresh heap. *)
Definition demo_uninit (a : Z) (i : nat) : Z := 51.
Definition demo_state : option (Buffer * Mem) := Initialize demo_uninit 10 Mem_init.
Definition demo_buf : Buffer := match demo_state with Some (b, _) => b | None => mkBuffer 0 0 0 0 0 0 end.
Definition demo_mem : Mem := match demo_state with Some (_, m) => m | None => Mem_init end.

Lemma demo_inv : inv demo_mem [demo_buf] /\ content demo_mem demo_buf = replicate 10 0.
Proof.
  destruct (Initialize_ok demo_uninit 10 Mem_init [] inv_init) as (b & m & E & Hi & Hc & _); [by vm_compute | done |].
  assert (Initialize demo_uninit 10 Mem_init = Some (demo_buf, demo_mem)) as E2 by (vm_compute; reflexivity).
  rewrite E2 in E. injection E as <- <-. done.
Qed.

Definition demo_header (i : Iterator) (m : Mem) : option (Iterator * Mem) :=
  let* (i, m) := WriteHtonU16 4000 i m in WriteHtonU32 3232235521 i m.

Lemma Header_round_trip_witness :
  exists b' m' i b'', prepend demo_uninit demo_header 6 demo_buf demo_mem = Some (b', m') /\
    content m' b' = [15; 160; 192; 168; 0; 1] ++ content demo_mem demo_buf /\
    Read 6 (Begin b') m' = Some ([15; 160; 192; 168; 0; 1], i) /\
    RemoveAtStart 6 b' = Some b'' /\ inv m' [b''] /\ content m' b'' = content demo_mem demo_buf /\
    (forall c, c ∈ [] -> content m' c = content demo_mem c).
Proof.
  apply (Header_round_trip demo_uninit demo_header (Read 6) [15; 160; 192; 168; 0; 1] (fun l => l)).
  - apply (writes_seq _ [15; 160] _ [192; 168; 0; 1]); [apply (writes_HtonU16 4000) | | done].
    apply (writes_HtonU32 3232235521).
  - apply (reads_Read 6).
  - apply demo_inv.
  - rewrite (proj2 demo_inv). vm_compute. discriminate.
  - done.
Defined.

(** An eight byte header with a zero field in front of ten zero bytes. *)
Definition demo_bytes : list Z := [69; 0; 0; 84; 0; 0; 192; 168].
Definition demo_packet : option (Buffer * Mem) :=
  prepend demo_uninit (Write_bytes demo_bytes) 8 demo_buf demo_mem.
Definition packet_buf : Buffer := match demo_packet with Some (b, _) => b | None => demo_buf end.
Definition packet_mem : Mem := match demo_packet with Some (_, m) => m | None => demo_mem end.

Lemma packet_inv :
  inv packet_mem [packet_buf] /\ content packet_mem packet_buf = demo_bytes ++ replicate 10 0.
Proof.
  destruct demo_inv as [Hi0 Hc0].
  destruct (prepend_ok demo_uninit _ _ demo_mem demo_buf [] (writes_bytes demo_bytes) Hi0)
    as (b & m & E & Hi & Hc & _); [by rewrite Hc0; vm_compute | done |].
  assert (prepend demo_uninit (Write_bytes demo_bytes) 8 demo_buf demo_mem = Some (packet_buf, packet_mem)) as E2
    by (vm_compute; reflexivity).
  change (zlen demo_bytes) with 8 in E. rewrite E2 in E.
  apply Some_inj, pair_eq in E as [<- <-]. split; [exact Hi |]. rewrite Hc, Hc0. reflexivity.
Qed.

(** ** Copying the bytes out *)

Lemma write_zeroes_ok fuel left :
  0 <= left < 2 ^ 32 -> left <= Z.of_nat fuel ->
  write_zeroes fuel left = Some (replicate (Z.to_nat left) 0).
Proof.
  revert left. induction fuel as [|fuel IH]; intros left Hl Hf; simpl.
  - rewrite (proj2 (Z.leb_le left 0)) by lia. by replace (Z.to_nat left) with O by lia.
  - case_ifs; [by replace (Z.to_nat left) with O by lia |].
    rewrite u32_small, IH by lia. rewrite <- replicate_add. do 2 f_equal. lia.
Qed.

(** One step of the copy: lengths that do not wrap, a copy inside the block. *)
Ltac copy_step :=
  repeat match goal with
  | |- context [u32 ?x] => rewrite (u32_small x) by lia
  | H : context [u32 ?x] |- _ => rewrite (u32_small x) in H by lia
  end;
  repeat match goal with |- context [get_bytes ?o ?n ?l] => rewrite (get_bytes_slice o n l) by lia end;
  repeat match goal with |- context [write_zeroes ?f ?n] => rewrite (write_zeroes_ok f n) by lia end;
  cbn iota beta zeta.

(** Remove empty parts. *)
Ltac drop_empty :=
  repeat match goal with
  | |- context [replicate ?n 0] => replace (replicate n 0) with (@nil Z) by (replace n with O by lia; done)
  end; slice_nils; rewrite ?app_nil_r.

(** [CopyData], to memory or to a stream, delivers the first [size] bytes of
    the buffer, or all of them when it is shorter, and returns their number;
    the loop over chunks of zeroes terminates. *)
Theorem CopyData_bytes m b bs size :
  inv m (b :: bs) -> 0 <= size < 2 ^ 32 ->
  CopyData b m size = Some (Z.min size (zlen (content m b)), take (Z.to_nat size) (content m b)) /\
  CopyData_stream b m size = Some (take (Z.to_nat size) (content m b)).
Proof.
  intros Hi Hsz. destruct (live_block _ _ b Hi) as (d & Hd & Hp & _ & Hl & _ & Hc); [set_solver |].
  pose proof (content_size _ _ _ Hi) as Hcs. destruct (placed_bounds _ _ Hp) as (H1 & H2 & H3 & H4 & H5 & H6).
  rewrite Hcs, Hc. unfold content_of. rewrite !take_app, take_replicate.
  rewrite !take_slice, length_replicate, slice_lenN by (unfold iend, zone in *; lia).
  unfold CopyData, CopyData_stream, load. rewrite Hd. unfold iend, zone.
  rewrite !(u32_small (m_zeroAreaStart b - m_start b)), !(u32_small (m_zeroAreaEnd b - m_zeroAreaStart b)),
    !(u32_small (m_end b - m_zeroAreaEnd b)) by lia.
  split.
  - repeat (copy_step; case_ifs); do 2 f_equal; first [lia | drop_empty; same_parts].
  - repeat (copy_step; case_ifs); copy_step; f_equal; drop_empty; same_parts.
Qed.

Lemma CopyData_bytes_witness :
  CopyData packet_buf packet_mem 12 =
    Some (Z.min 12 (zlen (content packet_mem packet_buf)), take (Z.to_nat 12) (content packet_mem packet_buf)) /\
  CopyData_stream packet_buf packet_mem 12 = Some (take (Z.to_nat 12) (content packet_mem packet_buf)).
Proof. apply (CopyData_bytes packet_mem packet_buf [] 12); [apply packet_inv | lia]. Defined.

End BufferProps.
