(* ===== verification/Checksum.v ===== *)
(** * The Internet checksum of Buffer::Iterator

    [CalculateIpChecksum] (src/network/model/buffer.cc) computes the RFC 1071
    checksum of the next bytes: the one's complement of the one's complement
    sum of their 16-bit words. Its carry loop terminates within three turns,
    and a packet that carries its own checksum verifies. *)

From S2P Require Import Prelude Buffer BufferIterator BufferInv BufferRw BufferProps.
Import Buffer Iterator BufferOps BufferInv BufferRw BufferProps.

Module Checksum.

(** The sum of the 16-bit words of a byte string, low byte first, an odd last
    byte counting as a word. *)
Fixpoint word_sum (l : list Z) : Z :=
  match l with
  | x :: y :: rest => (y * 256 + x) + word_sum rest
  | [x] => x
  | [] => 0
  end.

(** The representative of a sum modulo 65535 the carry loop ends with. *)
Definition ones_sum (s : Z) : Z := if s =? 0 then 0 else (s - 1) mod 65535 + 1.

Definition checksum_of (initial : Z) (l : list Z) : Z := 65535 - ones_sum (initial + word_sum l).

Definition byte_list (l : list Z) : Prop := Forall (fun x => 0 <= x < 256) l.

(** ** The carry loop *)

Lemma ones_sum_small s : 0 <= s < 65536 -> ones_sum s = s.
Proof. intros. unfold ones_sum. case_ifs; [lia |]. rewrite Z.mod_small; lia. Qed.

Lemma ones_sum_range s : 0 <= s -> 0 <= ones_sum s <= 65535.
Proof.
  intros. unfold ones_sum. case_ifs; [lia |]. pose proof (Z.mod_pos_bound (s - 1) 65535). lia.
Qed.

Lemma ones_sum_fold s : 0 <= s -> ones_sum (s mod 65536 + s / 65536) = ones_sum s.
Proof.
  intros Hs. pose proof (Z.div_mod s 65536 ltac:(lia)). pose proof (Z.mod_pos_bound s 65536 ltac:(lia)).
  pose proof (Z.div_pos s 65536 Hs ltac:(lia)). unfold ones_sum. case_ifs; try lia.
  f_equal. replace (s - 1) with (s mod 65536 + s / 65536 - 1 + s / 65536 * 65535) by lia.
  by rewrite Z.mod_add by lia.
Qed.

Lemma fold_carry_ok s : 0 <= s < 2 ^ 32 -> fold_carry 4 s = Some (ones_sum s).
Proof.
  assert (forall fuel s, 0 <= s < 65536 -> fold_carry (S fuel) s = Some (ones_sum s)) as Hlast.
  { intros fuel s0 Hs. simpl. rewrite Z.shiftr_div_pow2, Z.div_small by lia. by rewrite ones_sum_small. }
  assert (forall fuel s, 65536 <= s < 2 ^ 32 ->
    fold_carry (S fuel) s = fold_carry fuel (s mod 65536 + s / 65536)) as Hstep.
  { intros fuel s0 Hs. cbn [fold_carry]. rewrite Z.shiftr_div_pow2, (Z.land_ones _ 16) by lia.
    change (2 ^ 16) with 65536. pose proof (Z.mod_pos_bound s0 65536 ltac:(lia)).
    pose proof (Z.div_le_lower_bound s0 65536 1 ltac:(lia) ltac:(lia)).
    pose proof (Z.div_lt_upper_bound s0 65536 65536 ltac:(lia) ltac:(lia)).
    case_ifs; [lia |]. by rewrite u32_small by lia. }
  intros Hs. destruct (Z.lt_ge_cases s 65536); [apply Hlast; lia |].
  rewrite Hstep, <- ones_sum_fold by lia. pose proof (Z.mod_pos_bound s 65536 ltac:(lia)).
  pose proof (Z.div_lt_upper_bound s 65536 65536 ltac:(lia) ltac:(lia)).
  pose proof (Z.div_pos s 65536 ltac:(lia) ltac:(lia)).
  set (s1 := s mod 65536 + s / 65536) in *. assert (0 <= s1 <= 131070) by lia.
  destruct (Z.lt_ge_cases s1 65536); [apply Hlast; lia |].
  rewrite Hstep, <- ones_sum_fold by lia. apply Hlast.
  pose proof (Z.div_mod s1 65536 ltac:(lia)). pose proof (Z.mod_pos_bound s1 65536 ltac:(lia)). nia.
Qed.

(** ** The sum of words *)

Lemma word_sum_app l1 l2 : Nat.Even (length l1) -> word_sum (l1 ++ l2) = word_sum l1 + word_sum l2.
Proof.
  intros [k Hk]. revert l1 Hk. induction k as [|k IH]; intros l1 Hk.
  - destruct l1; [done | simpl in Hk; lia].
  - destruct l1 as [|x [|y l1]]; simpl in Hk; try lia. simpl. rewrite IH by lia. lia.
Qed.

Lemma word_sum_bound l : byte_list l -> 0 <= word_sum l <= 65535 * zlen l.
Proof.
  intros Hl. assert (forall n l, (length l <= n)%nat -> byte_list l -> 0 <= word_sum l <= 65535 * zlen l) as H.
  { clear. intros n. induction n as [|n IH]; intros l Hn Hl.
    - destruct l; [done | simpl in Hn; lia].
    - destruct l as [|x [|y l]]; [done | |].
      + apply Forall_cons in Hl as [Hx _]. simpl. unfold zlen. simpl. lia.
      + apply Forall_cons in Hl as [Hx [Hy Hl]%Forall_cons]. simpl in Hn |- *.
        destruct (IH l) as [H1 H2]; [lia | done |]. unfold zlen in *. cbn [length]. lia. }
  by apply (H (length l)).
Qed.

(** Summing the words of the next bytes. *)
Lemma sum_words_ok n sum c m b bs :
  inv m (b :: bs) -> m_start b <= c -> c + 2 * Z.of_nat n <= m_end b ->
  let l := slice (c - m_start b) (c - m_start b + 2 * Z.of_nat n) (content m b) in
  byte_list l -> 0 <= sum -> sum + word_sum l < 2 ^ 32 ->
  sum_words n sum (Construct b c) m = Some (sum + word_sum l, Construct b (c + 2 * Z.of_nat n)).
Proof.
  revert sum c. induction n as [|n IH]; intros sum c Hi Hs He l Hb H0 Hsum.
  { subst l. rewrite slice_nil by lia. simpl. do 2 f_equal; [lia | f_equal; lia]. }
  pose proof (content_size _ _ _ Hi) as Hcs. set (p := c - m_start b) in *.
  assert (l = slice p (p + 2) (content m b) ++ slice (p + 2) (p + 2 + 2 * Z.of_nat n) (content m b)) as El.
  { subst l. rewrite slice_app by lia. f_equal. lia. }
  cbn [sum_words]. rewrite (reads_U16 c m b bs Hi Hs) by lia. fold p.
  pose proof (slice_length p (p + 2) (content m b) ltac:(lia) ltac:(lia)) as Hl2.
  destruct (slice p (p + 2) (content m b)) as [|x [|y [|]]]; unfold zlen in Hl2; simpl in Hl2; try lia.
  rewrite El in Hb. apply Forall_cons in Hb as [Hx [Hy Hb]%Forall_cons].
  cbn [rev app fold_left]. rewrite shift_in_0, (shift_in_val 16) by lia.
  rewrite El in Hsum |- *. simpl word_sum in Hsum |- *.
  pose proof (word_sum_bound _ Hb) as [Hw _]. rewrite u32_small by lia.
  replace (p + 2) with (c + 2 - m_start b) in Hb, Hsum, Hw |- * by lia.
  rewrite (IH (sum + (y * 256 + x)) (c + 2)); try done; try lia.
  do 2 f_equal; [lia | f_equal; lia].
Qed.

Lemma land_1_odd n : 0 <= n -> Z.land n 1 = n mod 2.
Proof. intros. by rewrite (Z.land_ones _ 1). Qed.

(** [CalculateIpChecksum] computes [checksum_of] the bytes it reads. *)
Lemma CalculateIpChecksum_ok size initial c m b bs :
  inv m (b :: bs) -> 0 <= size < 65536 -> m_start b <= c -> c + size <= m_end b ->
  let l := slice (c - m_start b) (c - m_start b + size) (content m b) in
  byte_list l -> 0 <= initial -> initial + word_sum l < 2 ^ 32 ->
  CalculateIpChecksum size initial (Construct b c) m =
    Some (checksum_of initial l, Construct b (c + size)).
Proof.
  intros Hi Hsz Hs He l Hb H0 Hsum. pose proof (content_size _ _ _ Hi) as Hcs.
  pose proof (Z.div_mod size 2 ltac:(lia)) as Hdm. pose proof (Z.mod_pos_bound size 2 ltac:(lia)) as Hmb.
  set (h := size / 2) in *. set (p := c - m_start b) in *.
  assert (l = slice p (p + 2 * h) (content m b) ++ slice (p + 2 * h) (p + size) (content m b)) as El
    by (subst l; rewrite slice_app by lia; done).
  assert (zlen (slice p (p + 2 * h) (content m b)) = 2 * h) as Hlen by (rewrite slice_length; lia).
  rewrite El in Hb, Hsum. apply Forall_app in Hb as [Hb1 Hb2].
  rewrite word_sum_app in Hsum by (exists (Z.to_nat h); unfold zlen in Hlen; lia).
  pose proof (word_sum_bound _ Hb1) as [Hw1 _]. pose proof (word_sum_bound _ Hb2) as [Hw2 _].
  unfold CalculateIpChecksum. fold h.
  replace (2 * h) with (2 * Z.of_nat (Z.to_nat h)) in Hb1, Hb2, Hw1, Hw2, Hsum, El, Hlen by lia.
  pose proof (sum_words_ok (Z.to_nat h) initial c m b bs Hi Hs ltac:(lia)) as Hsw.
  cbv zeta in Hsw. fold p in Hsw. rewrite Hsw by (done || lia). clear Hsw.
  assert (forall s, 0 <= s < 2 ^ 32 -> (let* sum := fold_carry 4 s in Some (u16 (Z.lnot sum), Construct b (c + size)))
            = Some (65535 - ones_sum s, Construct b (c + size))) as Hend.
  { intros s Hs32. rewrite fold_carry_ok by done. pose proof (ones_sum_range s ltac:(lia)). do 2 f_equal.
    unfold u16, wrap. unfold Z.lnot. symmetry.
    apply Z.mod_unique with (-1); lia. }
  unfold checksum_of. rewrite El, word_sum_app by (exists (Z.to_nat h); unfold zlen in Hlen; lia).
  rewrite land_1_odd by lia. case_ifs.
  - rewrite (slice_nil (p + _)) by lia. simpl word_sum. rewrite Z.add_0_r.
    replace (c + 2 * Z.of_nat (Z.to_nat h)) with (c + size) by lia. apply Hend. lia.
  - rewrite (reads_U8 _ m b bs) by (done || lia).
    replace (c + 2 * Z.of_nat (Z.to_nat h) - m_start b) with (p + 2 * Z.of_nat (Z.to_nat h)) by lia.
    replace (p + 2 * Z.of_nat (Z.to_nat h) + 1) with (p + size) by lia.
    replace (c + 2 * Z.of_nat (Z.to_nat h) + 1) with (c + size) by lia.
    pose proof (slice_length (p + 2 * Z.of_nat (Z.to_nat h)) (p + size) (content m b) ltac:(lia) ltac:(lia)) as Hl1.
    destruct (slice (p + 2 * Z.of_nat (Z.to_nat h)) (p + size) (content m b)) as [|x [|]];
      unfold zlen in Hl1; simpl in Hl1; try lia.
    simpl hd. simpl word_sum in Hsum, Hw2 |- *. rewrite u32_small, Z.add_assoc by lia. apply Hend. lia.
Qed.

(** ** Verification *)

Lemma ones_sum_complement s : 0 <= s -> ones_sum (s + (65535 - ones_sum s)) = 65535.
Proof.
  intros Hs. assert (exists k, 0 <= k /\ s = ones_sum s + 65535 * k) as (k & Hk & E).
  { unfold ones_sum. case_ifs; [by exists 0; lia |]. exists ((s - 1) / 65535).
    pose proof (Z.div_mod (s - 1) 65535 ltac:(lia)). pose proof (Z.div_pos (s - 1) 65535 ltac:(lia) ltac:(lia)). lia. }
  replace (s + (65535 - ones_sum s)) with (65534 + k * 65535 + 1) by lia.
  unfold ones_sum. case_ifs; [lia |]. replace (_ + 1 - 1) with (65534 + k * 65535) by lia.
  by rewrite Z.mod_add by lia.
Qed.

Lemma splice_middle src pre old post :
  zlen old = zlen src -> splice (zlen pre) src (pre ++ old ++ post) = pre ++ src ++ post.
Proof.
  intros E. unfold splice, zlen in *. rewrite Nat2Z.id, take_app_length.
  rewrite drop_app_ge by lia. do 2 f_equal. rewrite drop_app_length'; [done |]. lia.
Qed.

Lemma byte_at_range k v : 0 <= k -> 0 <= byte_at k v < 256.
Proof. intros. rewrite byte_at_val by done. apply Z.mod_pos_bound. lia. Qed.

Lemma two_bytes v : 0 <= v < 65536 -> byte_at 8 v * 256 + byte_at 0 v = v.
Proof.
  intros. rewrite !byte_at_val by lia. change (2 ^ 8) with 256. change (2 ^ 0) with 1.
  rewrite Z.div_1_r, (Z.mod_small (v / 256)).
  - pose proof (Z.div_mod v 256). lia.
  - split; [apply Z.div_pos; lia | apply Z.div_lt_upper_bound; lia].
Qed.

Lemma complement_verifies pre post :
  Nat.Even (length pre) -> byte_list (pre ++ [0; 0] ++ post) ->
  let ck := checksum_of 0 (pre ++ [0; 0] ++ post) in
  0 <= ck < 65536 /\ checksum_of 0 (pre ++ [byte_at 0 ck; byte_at 8 ck] ++ post) = 0.
Proof.
  intros He Hb ck. pose proof (word_sum_bound _ Hb) as [H0 _].
  assert (0 <= ck < 65536) as Hck by (unfold ck, checksum_of; pose proof (ones_sum_range (0 + word_sum (pre ++ [0; 0] ++ post))); lia).
  split; [done |]. unfold checksum_of. rewrite word_sum_app by done. cbn [app word_sum].
  rewrite two_bytes by done. unfold ck, checksum_of. rewrite word_sum_app in H0 |- * by done.
  cbn [app word_sum] in H0 |- *. set (s := word_sum pre + (0 * 256 + 0 + word_sum post)) in *.
  rewrite !Z.add_0_l.
  replace (word_sum pre + (65535 - ones_sum s + word_sum post)) with (s + (65535 - ones_sum s)) by lia.
  rewrite ones_sum_complement by lia. done.
Qed.

(** A packet that carries its checksum verifies. Whenever the bytes of a
    buffer have a zero 16-bit field at an even offset, outside the zero area
    and not shared with another buffer, [CalculateIpChecksum] over the whole
    buffer returns a 16-bit value, and after storing it in the field with
    [WriteU16] the same computation returns 0, the test the receivers make. *)
Theorem Checksum_verifies m b bs pre post :
  inv m (b :: bs) -> content m b = pre ++ [0; 0] ++ post -> byte_list (content m b) ->
  Nat.Even (length pre) -> zlen (content m b) < 65536 ->
  let c := m_start b + zlen pre in
  region_ok b c 2 -> private b (phys b c) (phys b c + 2) bs ->
  exists ck i m' i', let size := zlen (content m b) in
    CalculateIpChecksum size 0 (Begin b) m = Some (ck, i) /\ 0 <= ck < 65536 /\
    WriteU16 ck (Construct b c) m = Some (i', m') /\
    CalculateIpChecksum size 0 (Begin b) m' = Some (0, i).
Proof.
  intros Hi Hc Hb He Hsz c Hr Hp. pose proof (content_size _ _ _ Hi) as Hcs.
  pose proof (zlen_nonneg (content m b)). rewrite Hc in Hb.
  destruct (complement_verifies pre post He Hb) as [Hck Hver]. set (ck := checksum_of 0 _) in *.
  assert (forall m1, inv m1 (b :: bs) -> zlen (content m1 b) = zlen (content m b) -> byte_list (content m1 b) ->
    CalculateIpChecksum (zlen (content m b)) 0 (Begin b) m1 = Some (checksum_of 0 (content m1 b), Construct b (m_end b))) as Hcalc.
  { intros m1 Hi1 Hl1 Hb1. pose proof (CalculateIpChecksum_ok (zlen (content m b)) 0 (m_start b) m1 b bs Hi1) as Hx.
    cbv zeta in Hx. rewrite Z.sub_diag in Hx. unfold slice in Hx.
    rewrite drop_0, take_ge in Hx by (unfold zlen in *; lia).
    pose proof (word_sum_bound _ Hb1). unfold Begin. rewrite Hx; try done; try (unfold zlen in *; lia).
    by replace (m_start b + zlen (content m b)) with (m_end b) by lia. }
  assert (writes (WriteU16 ck) (rev (be 2 ck))) as Hw
    by (eapply writes_ext; [apply WriteU16_seq | by apply writes_Write_seq]).
  destruct (Hw c m b bs Hi Hr Hp) as (m' & Ew & Hi' & Hc' & _).
  assert (content m' b = pre ++ [byte_at 0 ck; byte_at 8 ck] ++ post) as Hc2.
  { rewrite Hc', Hc. replace (c - m_start b) with (zlen pre) by lia. by apply (splice_middle (rev (be 2 ck))). }
  exists ck, (Construct b (m_end b)), m', (Construct b (c + 2)). cbv zeta. split_and!; try done; try lia.
  - rewrite Hcalc by (rewrite ?Hc; done). by rewrite Hc.
  - rewrite Hcalc; [by rewrite Hc2, Hver | done | |].
    + rewrite Hc2, Hc, !zlen_app. done.
    + rewrite Hc2. apply Forall_app in Hb as [Hb1 Hb2]. apply Forall_app in Hb2 as [_ Hb2].
      apply Forall_app. split; [done |]. repeat constructor; try apply byte_at_range; done.
Qed.

Lemma Checksum_verifies_witness :
  exists ck i m' i', let size := zlen (content packet_mem packet_buf) in
    CalculateIpChecksum size 0 (Begin packet_buf) packet_mem = Some (ck, i) /\ 0 <= ck < 65536 /\
    WriteU16 ck (Construct packet_buf (m_start packet_buf + zlen [69; 0; 0; 84])) packet_mem = Some (i', m') /\
    CalculateIpChecksum size 0 (Begin packet_buf) m' = Some (0, i).
Proof.
  apply (Checksum_verifies packet_mem packet_buf [] [69; 0; 0; 84] ([192; 168] ++ replicate 10 0)).
  - apply packet_inv.
  - apply packet_inv.
  - rewrite (proj2 packet_inv). repeat (constructor; [lia |]). constructor.
  - exists 2%nat. reflexivity.
  - rewrite (proj2 packet_inv). vm_compute. reflexivity.
  - vm_compute. split; [discriminate |]. split; [discriminate |]. left. discriminate.
  - intros c Hc. by apply not_elem_of_nil in Hc.
Defined.

End Checksum.
