(* ===== verification/BufferSerial.v ===== *)
(** * Serialization and concatenation of buffers

    [Buffer::Serialize] and [Deserialize] round trip, the length of the zero
    area travelling as a number; [AddAtEnd(const Buffer&)] concatenates in the
    cases where it is correct, with counterexamples for the others. *)

From S2P Require Import Prelude Buffer BufferIterator BufferInv BufferRw BufferProps.
Import Buffer Iterator BufferOps BufferInv BufferRw BufferProps.

Module BufferSerial.

(** ** Alignment and 32-bit fields *)

Lemma align4_val n : 0 <= n < 2 ^ 31 -> align4 n = 4 * ((n + 3) / 4).
Proof.
  intros Hn. unfold align4. rewrite u32_small by lia. set (x := n + 3).
  change (2 ^ 32 - 4) with (Z.shiftl (Z.ones 30) 2).
  assert (Z.land x (Z.shiftl (Z.ones 30) 2) = Z.shiftl (Z.land (Z.shiftr x 2) (Z.ones 30)) 2) as ->.
  { apply Z.bits_inj'. intros i Hi. rewrite Z.land_spec. destruct (Z.lt_ge_cases i 2).
    - rewrite !Z.shiftl_spec_low by lia. apply andb_false_r.
    - rewrite !Z.shiftl_spec, Z.land_spec, Z.shiftr_spec by lia. by replace (i - 2 + 2) with i by lia. }
  rewrite Z.land_ones, Z.shiftl_mul_pow2, Z.shiftr_div_pow2 by lia.
  rewrite Z.mod_small; [change (2 ^ 2) with 4; lia |].
  change (2 ^ 2) with 4. split; [apply Z.div_pos; lia | apply Z.div_lt_upper_bound; lia].
Qed.

Lemma align4_bounds n : 0 <= n < 2 ^ 31 -> n <= align4 n < n + 4 /\ 4 * (align4 n / 4) = align4 n.
Proof.
  intros Hn. rewrite align4_val by done. pose proof (Z.div_mod (n + 3) 4 ltac:(lia)).
  pose proof (Z.mod_pos_bound (n + 3) 4 ltac:(lia)).
  split; [lia |]. rewrite (Z.mul_comm 4 ((n + 3) / 4)), Z.div_mul by lia. lia.
Qed.

Lemma bytes_of_u32_length n : zlen (bytes_of_u32 n) = 4.
Proof. done. Qed.

Lemma u32_of_bytes_ok n : 0 <= n < 2 ^ 32 -> u32_of_bytes (bytes_of_u32 n) = n.
Proof. intros Hn. unfold u32_of_bytes. change (rev (bytes_of_u32 n)) with (be 4 n). by apply fold_be_value. Qed.

(** The serialized form of a buffer: its fields at their offsets. *)
Definition encodes (l : list Z) (zeros : Z) (pre post : list Z) : Prop :=
  let a := align4 (zlen pre) in
  12 + a + align4 (zlen post) <= zlen l /\
  slice 0 4 l = bytes_of_u32 zeros /\ slice 4 8 l = bytes_of_u32 (zlen pre) /\
  slice 8 (8 + zlen pre) l = pre /\ slice (8 + a) (12 + a) l = bytes_of_u32 (zlen post) /\
  slice (12 + a) (12 + a + zlen post) l = post.

(** The parts of the content of a live buffer. *)
Lemma content_parts m b bs :
  inv m (b :: bs) ->
  exists d pre post, heap m !! m_data b = Some d /\
    get_bytes (m_start b) (u32 (m_zeroAreaStart b - m_start b)) (m_bytes d) = Some pre /\
    get_bytes (m_zeroAreaStart b) (u32 (m_end b - m_zeroAreaEnd b)) (m_bytes d) = Some post /\
    u32 (m_zeroAreaStart b - m_start b) = zlen pre /\ u32 (m_end b - m_zeroAreaEnd b) = zlen post /\
    u32 (m_zeroAreaEnd b - m_zeroAreaStart b) = zone b /\ 0 <= zone b /\
    zlen pre + zone b + zlen post <= MAX_CONTENT /\
    content m b = pre ++ replicate (Z.to_nat (zone b)) 0 ++ post.
Proof.
  intros Hi. destruct (live_block _ _ b Hi) as (d & Hd & Hp & _ & Hl & _ & Hc); [set_solver |].
  destruct (placed_bounds _ _ Hp) as (H1 & H2 & H3 & H4 & H5 & H6).
  rewrite !u32_small by lia.
  exists d, (slice (m_start b) (m_zeroAreaStart b) (m_bytes d)), (slice (m_zeroAreaStart b) (iend b) (m_bytes d)).
  unfold iend, zone in *. rewrite !slice_length by lia.
  split_and!; try done; try lia; try (rewrite get_bytes_slice by lia; do 2 f_equal; lia).
  unfold MAX_CONTENT. lia.
Qed.

(** [Serialize] writes the encoding when there is room for it. *)
Lemma Serialize_ok m b bs arr :
  inv m (b :: bs) -> GetSerializedSize b <= zlen arr ->
  exists arr' pre post, Serialize b m arr (GetSerializedSize b) = Some (1, arr') /\
    encodes arr' (zone b) pre post /\ content m b = pre ++ replicate (Z.to_nat (zone b)) 0 ++ post /\
    GetSerializedSize b = 12 + align4 (zlen pre) + align4 (zlen post) /\
    0 <= zone b /\ zlen pre + zone b + zlen post <= MAX_CONTENT.
Proof.
  intros Hi Harr. destruct (content_parts m b bs Hi) as (d & pre & post & Hd & Eg1 & Eg2 & E1 & E2 & E3 & Hz & Hmax & Hc).
  pose proof (zlen_nonneg pre) as Hpre. pose proof (zlen_nonneg post) as Hpost. unfold MAX_CONTENT in *.
  destruct (align4_bounds (zlen pre)) as [Ha1 Ha2]; [lia |]. destruct (align4_bounds (zlen post)) as [Hb1 Hb2]; [lia |].
  assert (GetSerializedSize b = 12 + align4 (zlen pre) + align4 (zlen post)) as Hsz.
  { unfold GetSerializedSize. rewrite E1, E2, u32_small by lia. lia. }
  rewrite Hsz in *. rewrite E1 in Eg1. rewrite E2 in Eg2.
  set (a := align4 (zlen pre)) in *. set (e := align4 (zlen post)) in *.
  destruct (put_bytes_ok 0 (bytes_of_u32 (zone b)) arr) as (l1 & P1 & L1 & S1 & R1); [lia | rewrite bytes_of_u32_length; lia |].
  destruct (put_bytes_ok 4 (bytes_of_u32 (zlen pre)) l1) as (l2 & P2 & L2 & S2 & R2); [lia | rewrite bytes_of_u32_length; lia |].
  destruct (put_bytes_ok 8 pre l2) as (l3 & P3 & L3 & S3 & R3); [lia | lia |].
  destruct (put_bytes_ok (8 + a) (bytes_of_u32 (zlen post)) l3) as (l4 & P4 & L4 & S4 & R4); [lia | rewrite bytes_of_u32_length; lia |].
  destruct (put_bytes_ok (12 + a) post l4) as (l5 & P5 & L5 & S5 & R5); [lia | lia |].
  rewrite bytes_of_u32_length in S1, R1, S2, R2, S4, R4.
  exists l5, pre, post. split_and!; try done; [| split_and!].
  - unfold Serialize, load. rewrite Hd, E3, E1, E2. fold a e. rewrite Ha2.
    rewrite (u32_small (4 + 4)), (u32_small (4 + 4 + a)), (u32_small (4 + 4 + a + 4)), (u32_small (4 + 4 + a + 4 + e)) by lia.
    change (0 + 4) with 4. change (4 + 4) with 8. replace (8 + a + 4) with (12 + a) by lia.
    rewrite !(proj2 (Z.ltb_ge (12 + a + e) _)) by lia. by rewrite P1, P2, Eg1, P3, P4, Eg2, P5.
  - fold a e. lia.
  - by rewrite R5, R4, R3, R2 by lia.
  - by rewrite R5, R4, R3 by lia.
  - by rewrite R5, R4 by lia.
  - fold a. replace (12 + a) with (8 + a + 4) by lia. by rewrite R5 by lia.
  - done.
Qed.

(** Reading a field of the encoding. *)
Lemma get_field off n l x :
  0 <= off -> 0 <= n -> off + n <= zlen l -> slice off (off + n) l = x -> get_bytes off n l = Some x.
Proof. intros H1 H2 H3 <-. by apply get_bytes_slice. Qed.

(** The steps of [prepend] and [append] one by one. *)
Lemma prepend_steps uninit w n b m b' m' :
  prepend uninit w n b m = Some (b', m') ->
  exists m1 i, AddAtStart uninit n b m = Some (b', m1) /\ w (Begin b') m1 = Some (i, m').
Proof.
  unfold prepend. intros E. destruct (AddAtStart uninit n b m) as [[b1 m1]|]; [| done].
  destruct (w (Begin b1) m1) as [[i m2]|] eqn:E2; [| done]. injection E as <- <-. by exists m1, i.
Qed.

Lemma append_steps uninit w n b m b' m' :
  append uninit w n b m = Some (b', m') ->
  exists m1 i0 i, AddAtEnd uninit n b m = Some (b', m1) /\ Prev n (End_ b') = Some i0 /\ w i0 m1 = Some (i, m').
Proof.
  unfold append. intros E. destruct (AddAtEnd uninit n b m) as [[b1 m1]|]; [| done].
  destruct (Prev n (End_ b1)) as [i0|] eqn:E1; [| done].
  destruct (w i0 m1) as [[i m2]|] eqn:E2; [| done]. injection E as <- <-. by exists m1, i0, i.
Qed.

(** [Deserialize] rebuilds the buffer from its encoding. *)
Lemma Deserialize_ok uninit m bs arr zeros pre post :
  inv m bs -> encodes arr zeros pre post -> 0 <= zeros ->
  zlen pre + zeros + zlen post <= MAX_CONTENT -> Z.of_nat (length bs) + 2 < 2 ^ 32 ->
  exists b' m', Deserialize uninit arr (16 + align4 (zlen pre) + align4 (zlen post)) m = Some (1, b', m') /\
    inv m' (b' :: bs) /\ content m' b' = pre ++ replicate (Z.to_nat zeros) 0 ++ post /\
    (forall c, c ∈ bs -> content m' c = content m c).
Proof.
  intros Hi (Hlen & F1 & F2 & F3 & F4 & F5) Hz Hmax Hbs.
  pose proof (zlen_nonneg pre) as Hpre. pose proof (zlen_nonneg post) as Hpost.
  pose proof Hmax as Hmax'. unfold MAX_CONTENT in Hmax'.
  destruct (align4_bounds (zlen pre)) as [Ha1 Ha2]; [lia |]. destruct (align4_bounds (zlen post)) as [Hb1 Hb2]; [lia |].
  set (a := align4 (zlen pre)) in *. set (e := align4 (zlen post)) in *.
  destruct (Initialize_ok uninit zeros m bs Hi) as (b1 & m1 & E1 & Hi1 & Hc1 & Ho1 & _); [lia | lia |].
  assert (zlen (content m1 b1) = zeros) as Hl1 by (rewrite Hc1; unfold zlen; rewrite length_replicate; lia).
  destruct (prepend_ok uninit _ _ m1 b1 bs (writes_bytes pre) Hi1) as (b2 & m2 & E2 & Hi2 & Hc2 & Ho2 & _); [lia | lia |].
  assert (zlen (content m2 b2) = zlen pre + zeros) as Hl2 by (rewrite Hc2, zlen_app; lia).
  destruct (append_ok uninit _ _ m2 b2 bs (writes_bytes post) Hi2) as (b3 & m3 & E3 & Hi3 & Hc3 & Ho3 & _); [lia | lia |].
  apply prepend_steps in E2 as (m2' & i2 & Ea2 & Ew2). apply append_steps in E3 as (m3' & i30 & i3 & Ea3 & Ep3 & Ew3).
  exists b3, m3. split_and!; [| done | | by intros c Hc; rewrite Ho3, Ho2, Ho1].
  - unfold Deserialize. rewrite (u32_small (16 + a + e - 4)), (u32_small (_ - 4)) by lia.
    rewrite (proj2 (Z.leb_le 4 _)) by lia. cbn [NS_ASSERT].
    rewrite (get_field 0 4 arr _ ltac:(lia) ltac:(lia) ltac:(lia) F1), u32_of_bytes_ok, E1 by lia.
    rewrite (proj2 (Z.leb_le 4 _)) by lia. cbn [NS_ASSERT].
    rewrite (get_field (0 + 4) 4 arr _ ltac:(lia) ltac:(lia) ltac:(lia) F2), u32_of_bytes_ok, Ea2 by lia.
    rewrite (u32_small (_ - 4 - 4 - 4)), (proj2 (Z.leb_le (zlen pre) _)) by lia. cbn [NS_ASSERT].
    rewrite (get_field (0 + 4 + 4) (zlen pre) arr _ ltac:(lia) ltac:(lia) ltac:(lia) F3), Ew2. fold a. rewrite Ha2.
    rewrite (u32_small (_ - a)), (proj2 (Z.leb_le 4 _)) by lia. cbn [NS_ASSERT].
    replace (0 + 4 + 4 + a) with (8 + a) by lia.
    rewrite (get_field (8 + a) 4 arr (bytes_of_u32 (zlen post))), u32_of_bytes_ok, Ea3; try lia;
      [| by replace (8 + a + 4) with (12 + a) by lia].
    rewrite (u32_small (_ - a - 4)), (proj2 (Z.leb_le (zlen post) _)) by lia. cbn [NS_ASSERT].
    rewrite Ep3. replace (8 + a + 4) with (12 + a) by lia.
    rewrite (get_field (12 + a) (zlen post) arr _ ltac:(lia) ltac:(lia) ltac:(lia) F5), Ew3. fold e.
    replace (u32 (_ - e)) with 0 by (rewrite u32_small; lia). done.
  - rewrite Hc3, Hc2, Hc1. by rewrite <- app_assoc.
Qed.

(** Serialization round trips. Into an array of [GetSerializedSize()] bytes
    or more, [Serialize] succeeds, and [Deserialize] of that array (the size
    argument counting the preceding length word, as [Packet] passes it)
    succeeds and yields a buffer with the same bytes, the zero area included,
    without changing any live buffer. *)
Theorem Serialize_round_trip uninit m b bs arr :
  inv m (b :: bs) -> GetSerializedSize b <= zlen arr -> Z.of_nat (length bs) + 3 < 2 ^ 32 ->
  exists arr' b' m', Serialize b m arr (GetSerializedSize b) = Some (1, arr') /\
    Deserialize uninit arr' (GetSerializedSize b + 4) m = Some (1, b', m') /\
    inv m' (b' :: b :: bs) /\ content m' b' = content m b /\
    (forall c, c ∈ b :: bs -> content m' c = content m c).
Proof.
  intros Hi Harr Hlen. destruct (Serialize_ok m b bs arr Hi Harr) as (arr' & pre & post & Es & Henc & Hc & Hsz & Hz & Hmax).
  destruct (Deserialize_ok uninit m (b :: bs) arr' (zone b) pre post Hi Henc Hz Hmax) as (b' & m' & Ed & Hi' & Hc' & Ho);
    [simpl; lia |].
  exists arr', b', m'. split_and!; try done.
  - rewrite <- Ed. f_equal. lia.
  - by rewrite Hc', Hc.
Qed.

Lemma Serialize_round_trip_witness :
  exists arr' b' m', Serialize packet_buf packet_mem (replicate 32 0) (GetSerializedSize packet_buf) = Some (1, arr') /\
    Deserialize demo_uninit arr' (GetSerializedSize packet_buf + 4) packet_mem = Some (1, b', m') /\
    inv m' [b'; packet_buf] /\ content m' b' = content packet_mem packet_buf /\
    (forall c, c ∈ [packet_buf] -> content m' c = content packet_mem c).
Proof.
  apply (Serialize_round_trip demo_uninit packet_mem packet_buf [] (replicate 32 0)).
  - apply packet_inv.
  - vm_compute. discriminate.
  - done.
Defined.

(** ** Full copies *)

Section Concat.
Context (uninit : Z -> nat -> Z).

(** The three parts of a content are determined by their lengths. *)
Lemma parts_unique (p1 p2 z q1 q2 : list Z) :
  zlen p1 = zlen p2 -> p1 ++ z ++ q1 = p2 ++ z ++ q2 -> p1 = p2 /\ q1 = q2.
Proof.
  intros Hl E. apply app_inj_1 in E as [-> E]; [| unfold zlen in Hl; lia]. by apply app_inv_head in E.
Qed.

(** The real bytes of a buffer are the same in two heaps with the same content. *)
Lemma same_parts_bytes m m' b bs bs' :
  inv m (b :: bs) -> inv m' (b :: bs') -> content m' b = content m b ->
  exists d pre post, heap m' !! m_data b = Some d /\
    get_bytes (m_start b) (u32 (m_zeroAreaStart b - m_start b)) (m_bytes d) = Some pre /\
    get_bytes (m_zeroAreaStart b) (u32 (m_end b - m_zeroAreaEnd b)) (m_bytes d) = Some post /\
    u32 (m_zeroAreaStart b - m_start b) = zlen pre /\ u32 (m_end b - m_zeroAreaEnd b) = zlen post /\
    content m b = pre ++ replicate (Z.to_nat (zone b)) 0 ++ post.
Proof.
  intros Hi Hi' E. destruct (content_parts m' b bs' Hi') as (d & pre & post & H1 & H2 & H3 & H4 & H5 & _ & _ & _ & Hc).
  exists d, pre, post. split_and!; try done. by rewrite <- E.
Qed.

(** What the other buffers see of a growth before the new bytes are written. *)
Lemma AddAtStart_seen n m b bs b' m' :
  inv m (b :: bs) -> 0 <= n -> zlen (content m b) + n <= MAX_CONTENT -> Z.of_nat (length bs) + 2 < 2 ^ 32 ->
  AddAtStart uninit n b m = Some (b', m') ->
  inv m' (b' :: bs) /\ (forall c, c ∈ bs -> content m' c = content m c).
Proof.
  intros Hi Hn Hs Hl E. destruct (AddAtStart_ok uninit n m b bs Hi Hn Hs Hl) as ([b1 m1] & E1 & Hi1 & _ & Ho1 & _).
  rewrite E in E1. by injection E1 as <- <-.
Qed.

Lemma AddAtEnd_seen n m b bs b' m' :
  inv m (b :: bs) -> 0 <= n -> zlen (content m b) + n <= MAX_CONTENT -> Z.of_nat (length bs) + 2 < 2 ^ 32 ->
  AddAtEnd uninit n b m = Some (b', m') ->
  inv m' (b' :: bs) /\ (forall c, c ∈ bs -> content m' c = content m c).
Proof.
  intros Hi Hn Hs Hl E. destruct (AddAtEnd_ok uninit n m b bs Hi Hn Hs Hl) as ([b1 m1] & E1 & Hi1 & _ & Ho1 & _).
  rewrite E in E1. by injection E1 as <- <-.
Qed.

Lemma CreateFullCopy_ok m b bs :
  inv m (b :: bs) -> Z.of_nat (length bs) + 4 < 2 ^ 32 ->
  exists b' m', CreateFullCopy uninit b m = Some (b', m') /\ inv m' (b' :: b :: bs) /\
    content m' b' = content m b /\ zone b' = 0 /\
    (forall c, c ∈ b :: bs -> content m' c = content m c) /\
    (m_data b' = m_data b /\ iend b' = iend b /\ zone b = 0 \/ m_data b' ∉ m_data <$> b :: bs).
Proof.
  intros Hi Hlen. destruct (content_parts m b bs Hi) as (d & pre & post & Hd & Eg1 & Eg2 & E1 & E2 & E3 & Hz & Hmax & Hc).
  unfold CreateFullCopy. rewrite E3. destruct (Z.eqb_spec (zone b) 0) as [Hz0|Hz0]; cbn [negb].
  { destruct (copy_ok m b bs Hi) as (b' & m' & E & Hi' & Hc' & Ho'); [lia |]. rewrite E. exists b', m'.
    unfold copy in E. destruct (Ref (m_data b) m); [| done]. injection E as <- <-. split_and!; try done. by left. }
  pose proof (zlen_nonneg pre). pose proof (zlen_nonneg post).
  destruct (Initialize_ok uninit 0 m (b :: bs) Hi) as (b1 & m1 & -> & Hi1 & Hc1 & Ho1 & Hz1 & Hd1); [unfold MAX_CONTENT; lia | simpl; lia |].
  assert (zlen (replicate (Z.to_nat (zone b)) 0) = zone b) as Hlz by (unfold zlen; rewrite length_replicate; lia).
  destruct (prepend_ok uninit _ _ m1 b1 (b :: bs) (writes_U8_len 0 (zone b) ltac:(lia)) Hi1)
    as (b2 & m2 & Ep2 & Hi2 & Hc2 & Ho2 & Hz2 & Hd2); [rewrite Hc1, Hlz; simpl; change (zlen []) with 0; lia | simpl; lia |].
  rewrite Hlz in Ep2. apply prepend_steps in Ep2 as (m2' & i2 & -> & ->). rewrite Hc1, app_nil_r in Hc2.
  destruct (prepend_ok uninit _ _ m2 b2 (b :: bs) (writes_bytes pre) Hi2)
    as (b3 & m3 & Ep3 & Hi3 & Hc3 & Ho3 & Hz3 & Hd3); [rewrite Hc2, Hlz; lia | simpl; lia |].
  apply prepend_steps in Ep3 as (m3' & i3 & Ea3 & Ew3). rewrite E1, Ea3.
  destruct (AddAtStart_seen (zlen pre) m2 b2 (b :: bs) b3 m3' Hi2) as [Hi3' Ho3']; try done; [rewrite Hc2, Hlz; lia | simpl; lia |].
  assert (forall mx bx, inv mx (bx :: b :: bs) -> content mx b = content m b ->
    exists dx, load (m_data b) mx = Some dx /\ get_bytes (m_start b) (zlen pre) (m_bytes dx) = Some pre /\
      get_bytes (m_zeroAreaStart b) (zlen post) (m_bytes dx) = Some post) as Hsrc.
  { intros mx bx Hix Hcx. destruct (same_parts_bytes m mx b bs (bx :: bs) Hi) as (dx & p1 & q1 & Hdx & G1 & G2 & L1 & L2 & Hcp);
      [eapply inv_perm; [| exact Hix]; constructor | done |].
    rewrite Hc in Hcp. apply parts_unique in Hcp as [<- <-]; [| lia]. exists dx. rewrite <- E1, <- E2. done. }
  destruct (Hsrc m3' b3 Hi3') as (dx & -> & -> & _); [rewrite Ho3', Ho2, Ho1 by set_solver; done |].
  rewrite Ew3. clear Ew3.
  assert (zlen (content m3 b3) = zlen pre + zone b) as Hl3 by (rewrite Hc3, Hc2, zlen_app, Hlz; done).
  destruct (append_ok uninit _ _ m3 b3 (b :: bs) (writes_bytes post) Hi3)
    as (b4 & m4 & Ep4 & Hi4 & Hc4 & Ho4 & Hz4 & Hd4); [lia | simpl; lia |].
  apply append_steps in Ep4 as (m4' & i40 & i4 & Ea4 & Eprev & Ew4). rewrite E2, Ea4, Eprev.
  destruct (AddAtEnd_seen (zlen post) m3 b3 (b :: bs) b4 m4' Hi3) as [Hi4' Ho4']; try done; [lia | simpl; lia |].
  destruct (Hsrc m4' b4 Hi4') as (dy & -> & _ & ->); [rewrite Ho4', Ho3, Ho2, Ho1 by set_solver; done |].
  rewrite Ew4. exists b4, m4. split_and!; try done; try lia.
  - rewrite Hc4, Hc3, Hc2, Hc. by rewrite <- app_assoc.
  - intros c Hcb. rewrite Ho4, Ho3, Ho2, Ho1 by done. done.
  - right. destruct Hd4 as [->|?]; [| done]. destruct Hd3 as [->|?]; [| done]. by destruct Hd2 as [->|?].
Qed.

Lemma TransformIntoRealBuffer_ok m b bs :
  inv m (b :: bs) -> Z.of_nat (length bs) + 4 < 2 ^ 32 ->
  exists b' m', TransformIntoRealBuffer uninit b m = Some (b', m') /\ inv m' (b' :: bs) /\
    content m' b' = content m b /\ zone b' = 0 /\ (forall c, c ∈ bs -> content m' c = content m c) /\
    (m_data b' = m_data b /\ iend b' = iend b /\ zone b = 0 \/ m_data b' ∉ m_data <$> bs).
Proof.
  intros Hi Hlen. destruct (CreateFullCopy_ok m b bs Hi Hlen) as (t & m1 & E1 & Hi1 & Hc1 & Hz1 & Ho1 & Hd1).
  unfold TransformIntoRealBuffer. rewrite E1.
  destruct (assign_ok m1 b t bs) as (m2 & -> & Hi2 & Ho2); [eapply inv_perm; [| exact Hi1]; constructor |].
  destruct (destroy_ok m2 t (t :: bs) Hi2) as (m3 & -> & Hi3 & Ho3).
  exists t, m3. split_and!; try done.
  - rewrite Ho3, Ho2 by set_solver. done.
  - intros c Hc. rewrite Ho3, Ho2, Ho1 by set_solver. done.
  - destruct Hd1 as [|Hn]; [by left | right]. set_solver.
Qed.

(** ** Copying between buffers *)

(** An empty zero area may be placed anywhere. *)
Lemma recenter m b bs :
  inv m (b :: bs) -> zone b = 0 ->
  let b0 := mkBuffer (m_data b) (m_maxZeroAreaStart b) (m_start b) (m_start b) (m_start b) (m_end b) in
  inv m (b0 :: bs) /\ (forall m', inv m' (b0 :: bs) -> inv m' (b :: bs)) /\
  (forall m', inv m' (b :: bs) -> content m' b0 = content m' b).
Proof.
  intros Hi Hz b0. pose proof (bi_shape _ _ (proj2 Hi) b ltac:(set_solver)) as Hs.
  destruct Hs as (Hs1 & Hs2 & Hs3). unfold zone in Hz. split_and!.
  - apply (binv_shrink m b); try done; unfold shape, iend, zone, b0; simpl; lia.
  - intros m' Hi'. apply (binv_shrink m' b0); try done; unfold shape, iend, zone, b0; simpl; lia.
  - intros m' Hi'. destruct (live_block _ _ b Hi') as (d & Hd & _ & _ & _ & _ & ->); [set_solver |].
    unfold content, vw. simpl. rewrite Hd. simpl. unfold content_of, iend, zone, b0. simpl.
    rewrite Hz, Z.sub_diag. slice_nils. simpl. rewrite slice_app by lia. f_equal; lia.
Qed.

(** Writing at a position of a buffer without zero area. *)
Lemma poke_real src c m b bs i :
  inv m (b :: bs) -> zone b = 0 -> it_data i = m_data b -> m_start b <= c -> c + zlen src <= m_end b ->
  private b c (c + zlen src) bs ->
  exists m', poke c src i m = Some m' /\ inv m' (b :: bs) /\
    content m' b = splice (c - m_start b) src (content m b) /\
    (forall e, e ∈ bs -> content m' e = content m e).
Proof.
  intros Hi Hz Ei H1 H2 Hp.
  assert (forall x, poke c src i x = poke c src (Construct b c) x) as Epk by (intros; unfold poke; by rewrite Ei).
  rewrite Epk. destruct (decide (src = [])) as [->|Hne].
  { rewrite (poke_nil c c m b bs Hi). exists m. by rewrite splice_nil. }
  destruct (inv_offsets _ _ _ Hi) as (Ho1 & Ho2 & _). destruct (recenter m b bs Hi Hz) as (Hi0 & Hback & Hc0).
  set (b0 := mkBuffer _ _ _ _ _ _) in *.
  assert (phys b0 c = c) as Eph by (unfold phys, zone; simpl; case_ifs; lia).
  destruct (poke_at src c m b0 bs Hi0) as (m' & E & Hi' & Hc & Ho); try done; rewrite ?Eph; try done.
  { unfold region_ok. simpl. lia. }
  rewrite Eph in E. exists m'. split_and!; [exact E | by apply Hback | | done].
  rewrite <- !Hc0 by (done || by apply Hback). exact Hc.
Qed.

Lemma poke_data off src i j m : it_data i = it_data j -> poke off src i m = poke off src j m.
Proof. unfold poke. by intros ->. Qed.

(** The three copies of [Write(start, end)] over a whole buffer [o]. *)
Lemma Write_iter_steps m b o c pre post m1 m2 m3 :
  0 <= m_start o <= m_zeroAreaStart o -> m_zeroAreaStart o <= m_zeroAreaEnd o <= m_end o ->
  m_end o <= 2 ^ 31 + 100 -> zlen pre = m_zeroAreaStart o - m_start o -> zlen post = m_end o - m_zeroAreaEnd o ->
  0 <= m_start b <= c -> m_zeroAreaStart b = m_zeroAreaEnd b -> m_end b <= 2 ^ 31 + 100 ->
  c + zlen pre + zone o + zlen post <= m_end b -> m_data o <> m_data b ->
  peek (m_start o) (zlen pre) (Begin o) m = Some pre ->
  poke c pre (Construct b c) m = Some m1 ->
  poke (c + zlen pre) (replicate (Z.to_nat (zone o)) 0) (Construct b (c + zlen pre)) m1 = Some m2 ->
  peek (m_zeroAreaStart o) (zlen post) (Begin o) m2 = Some post ->
  poke (c + zlen pre + zone o) post (Construct b (c + zlen pre + zone o)) m2 = Some m3 ->
  Write_iter (Begin o) (End_ o) (Construct b c) m = Some (Construct b (c + zlen pre + zone o + zlen post), m3).
Proof.
  intros Ho1 Ho2 Ho3 Lpre Lpost Hc Hz Hb Hfit Hne P1 K1 K2 P2 K3. unfold zone in *.
  pose proof (zlen_nonneg pre). pose proof (zlen_nonneg post). set (z := m_zeroAreaEnd o - m_zeroAreaStart o) in *.
  unfold Write_iter. cbn [it_data m_current m_zeroStart m_zeroEnd m_dataEnd m_dataStart Begin End_ Construct].
  rewrite !Z.eqb_refl, (proj2 (Z.leb_le (m_start o) (m_end o))), (proj2 (Z.eqb_neq (m_data b) (m_data o))) by (lia || congruence).
  cbn [NS_ASSERT negb]. rewrite (u32_small (m_end o - m_start o)), (u32_small (c + (m_end o - m_start o))) by lia.
  replace (CheckNoZero _ _ _) with true;
    [| symmetry; unfold CheckNoZero; simpl; rewrite Hz, Z.eqb_refl; simpl;
       rewrite negb_true_iff, andb_false_r; simpl; rewrite orb_false_r, orb_false_iff, !Z.ltb_ge; lia].
  cbn [NS_ASSERT]. rewrite (proj2 (Z.leb_le (m_start o) (m_zeroAreaStart o))) by lia.
  rewrite (u32_small (m_zeroAreaStart o - m_start o)), <- Lpre by lia.
  rewrite (Z.min_r _ (zlen pre)), P1, K1, (u32_small (m_start o + zlen pre)), (u32_small (c + zlen pre)), (u32_small (_ - zlen pre)) by lia.
  cbn [move_to it_data m_current m_zeroStart m_zeroEnd m_dataEnd m_dataStart Begin Construct].
  rewrite (proj2 (Z.leb_le (m_start o + zlen pre) (m_zeroAreaEnd o))) by lia.
  replace (u32 (m_zeroAreaEnd o - (m_start o + zlen pre))) with z by (rewrite u32_small; lia).
  rewrite (Z.min_r _ z) by lia.
  rewrite (poke_data _ _ _ (Construct b (c + zlen pre))), K2 by done.
  rewrite (u32_small (m_start o + zlen pre + z)), (u32_small (c + zlen pre + z)), (u32_small (_ - z)) by lia.
  cbn [move_to it_data m_current m_zeroStart m_zeroEnd m_dataEnd m_dataStart].
  change (m_dataEnd (Begin o)) with (m_end o).
  replace (u32 (m_end o - (m_start o + zlen pre + z))) with (zlen post) by (rewrite u32_small; lia).
  rewrite (Z.min_r _ (zlen post)) by lia.
  unfold after_zero. simpl m_zeroStart. simpl m_zeroEnd. fold z. rewrite (u32_small z) by lia.
  replace (u32 (m_start o + zlen pre + z - z)) with (m_zeroAreaStart o) by (rewrite u32_small; lia).
  unfold peek in P2 |- *. simpl it_data in P2 |- *. rewrite P2.
  rewrite (poke_data _ _ _ (Construct b (c + zlen pre + z))), K3 by done. unfold Construct. rewrite u32_small by lia. done.
Qed.

(** [Write(Begin, End)] of another buffer into private bytes of [b]. *)
Lemma Write_iter_ok m b bs o c :
  inv m (b :: bs) -> zone b = 0 -> o ∈ bs -> m_data o <> m_data b ->
  m_start b <= c -> c + zlen (content m o) <= m_end b -> private b c (c + zlen (content m o)) bs ->
  exists i m', Write_iter (Begin o) (End_ o) (Construct b c) m = Some (i, m') /\ inv m' (b :: bs) /\
    content m' b = splice (c - m_start b) (content m o) (content m b) /\
    (forall e, e ∈ bs -> content m' e = content m e).
Proof.
  intros Hi Hz Ho Hne H1 H2 Hp.
  assert (exists bs0, b :: bs ≡ₚ o :: bs0) as [bs0 Hperm].
  { apply elem_of_Permutation in Ho as [k Hk]. exists (b :: k). rewrite Hk. constructor. }
  assert (inv m (o :: bs0)) as Hio by (by eapply inv_perm).
  destruct (content_parts m o bs0 Hio) as (d & pre & post & Hd & Eg1 & Eg2 & E1 & E2 & E3 & Hzo & Hmax & Hc).
  destruct (inv_offsets _ _ _ Hio) as (Ho1 & Ho2 & Ho3). destruct (inv_offsets _ _ _ Hi) as (Hb1 & Hb2 & Hb3).
  pose proof (zlen_nonneg pre). pose proof (zlen_nonneg post). pose proof (content_size _ _ _ Hio) as Hcs.
  pose proof (content_size _ _ _ Hi) as Hcb. unfold MAX_CONTENT in Hmax.
  assert (zlen (replicate (Z.to_nat (zone o)) 0) = zone o) as Hlz by (unfold zlen; rewrite length_replicate; lia).
  rewrite Hc, !zlen_app, Hlz in Hcs, H2, Hp.
  assert (zlen pre = m_zeroAreaStart o - m_start o) as Lpre by (rewrite <- E1; apply u32_small; lia).
  assert (zlen post = m_end o - m_zeroAreaEnd o) as Lpost by (rewrite <- E2; apply u32_small; lia).
  assert (forall s e, c <= s -> e <= c + (zlen pre + (zone o + zlen post)) -> private b s e bs) as Hpriv.
  { intros s e Hs He x Hx Ex. destruct (Hp x Hx Ex); lia. }
  destruct (poke_real pre c m b bs (Construct b c) Hi Hz eq_refl) as (m1 & Ek1 & Hi1 & Hc1 & Hx1); [lia | lia | apply Hpriv; lia |].
  destruct (poke_real (replicate (Z.to_nat (zone o)) 0) (c + zlen pre) m1 b bs (Construct b (c + zlen pre)) Hi1 Hz eq_refl)
    as (m2 & Ek2 & Hi2 & Hc2 & Hx2); [lia | lia | apply Hpriv; lia |].
  destruct (poke_real post (c + zlen pre + zone o) m2 b bs (Construct b (c + zlen pre + zone o)) Hi2 Hz eq_refl)
    as (m3 & Ek3 & Hi3 & Hc3 & Hx3); [lia | lia | apply Hpriv; lia |].
  assert (exists d2, heap m2 !! m_data o = Some d2 /\ get_bytes (m_zeroAreaStart o) (zlen post) (m_bytes d2) = Some post)
    as (d2 & Hd2 & G2).
  { destruct (same_parts_bytes m m2 o bs0 bs0 Hio) as (d2 & p1 & q1 & Hd2 & _ & G2 & L1 & L2 & Hcp);
      [by eapply inv_perm | by rewrite Hx2, Hx1 |].
    rewrite Hc in Hcp. apply parts_unique in Hcp as [<- <-]; [| lia]. exists d2. by rewrite <- E2. }
  exists (Construct b (c + zlen pre + zone o + zlen post)), m3. split_and!.
  - rewrite (Write_iter_steps m b o c pre post m1 m2 m3); try done; try (unfold zone in *; lia).
    + unfold peek, load. simpl. rewrite Hd. by rewrite <- E1.
    + unfold peek, load. simpl. rewrite Hd2. exact G2.
  - done.
  - rewrite Hc3, Hc2, Hc1, Hc.
    replace (c + zlen pre + zone o - m_start b) with
      (c - m_start b + zlen pre + zlen (replicate (Z.to_nat (zone o)) 0)) by lia.
    replace (c + zlen pre - m_start b) with (c - m_start b + zlen pre) by lia.
    rewrite splice_app, splice_app; try done; try lia. rewrite splice_length by lia. lia.
  - intros e He. by rewrite Hx3, Hx2, Hx1.
Qed.

Lemma Prev_End n m b bs :
  inv m (b :: bs) -> 0 <= n <= m_end b -> Prev n (End_ b) = Some (Construct b (m_end b - n)).
Proof.
  intros Hi Hn. destruct (inv_offsets _ _ _ Hi) as (H1 & H2 & H3). unfold Prev. simpl.
  rewrite (proj2 (Z.leb_le _ _)), u32_small by lia. done.
Qed.

(** Two buffers that [AddAtEnd(o)] keeps apart: on different blocks; or one has a zero
    area, or [o] ends after [b], so that [b] moves to a block of its own when it grows. *)
Definition apart (b o : Buffer) : Prop := m_data o <> m_data b \/ 0 < zone b \/ 0 < zone o \/ iend b < iend o.
Lemma AddAtEnd_moves n m b bs o b1 m1 :
  inv m (b :: bs) -> zone b = 0 -> o ∈ bs -> apart b o -> 0 <= n -> zlen (content m b) + n <= MAX_CONTENT -> Z.of_nat (length bs) + 2 < 2 ^ 32 ->
  AddAtEnd uninit n b m = Some (b1, m1) -> (m_data b1 = m_data b \/ m_data b1 ∉ m_data <$> bs) -> m_data o <> m_data b1.
Proof.
  intros Hi Hz Ho Hap Hn Hsz Hlen E [Ed|Hd]; [| intros Eo; apply Hd; rewrite <- Eo; by apply list_elem_of_fmap_2].
  destruct Hap as [Hne|Hlt]; [congruence |]. rewrite Hz in Hlt. destruct (Z.eq_dec (m_data o) (m_data b)) as [Eo|Hne]; [| congruence]. exfalso.
  destruct (live_block _ _ b Hi) as (d & Hb & Hp & _); [set_solver |]. destruct (placed_bounds _ _ Hp) as (H1 & H2 & H3 & H4 & H5 & H6).
  destruct (sharer_facts _ _ _ _ _ Hi Hb Ho Eo) as (Hc & _ & Hde1 & Hde2). rewrite (content_size _ _ _ Hi) in Hsz. unfold MAX_CONTENT in Hsz. unfold AddAtEnd, load in E. rewrite Hb in E.
  rewrite (proj2 (Z.ltb_lt 1 _)), (proj2 (Z.ltb_lt (m_end b) _)) in E by (unfold iend in *; lia). cbn [andb negb] in E. rewrite andb_false_r in E.
  unfold GetInternalSize in E. rewrite (u32_small (m_zeroAreaStart b - m_start b + _ - _)) in E by lia. rewrite u32_small in E by lia.
  destruct (move_to_new_ok uninit (m_zeroAreaStart b - m_start b + m_end b - m_zeroAreaEnd b + n) 0 m b bs) as (a & m' & d0 & d' & Em & _ & Hna & _ & _ & Hd' & _);
    [done | done | unfold MAX_CONTENT; lia | lia | unfold iend, zone; lia |].
  rewrite Em in E. cbn [fst snd] in E. unfold load in E. rewrite Hd' in E. injection E as <- _. cbn in Ed. apply Hna. rewrite Ed, <- Eo. by apply list_elem_of_fmap_2.
Qed.

(** The general path of [AddAtEnd(o)]: full copy, growth, copy of the bytes. *)
Lemma append_copy_ok m b o bs :
  inv m (b :: bs) -> zone b = 0 -> o ∈ bs -> apart b o ->
  zlen (content m b) + zlen (content m o) <= MAX_CONTENT -> Z.of_nat (length bs) + 2 < 2 ^ 32 ->
  exists b' m' i, AddAtEnd uninit (GetSize o) b m = Some (b', m') /\ inv m' (b' :: bs) /\
    Prev (GetSize o) (End_ b') = Some i /\
    exists j m2, Write_iter (Begin o) (End_ o) i m' = Some (j, m2) /\ inv m2 (b' :: bs) /\
      content m2 b' = content m b ++ content m o /\ (forall c, c ∈ bs -> content m2 c = content m c) /\
      (m_data b' = m_data b \/ m_data b' ∉ m_data <$> bs) /\ m_data o <> m_data b'.
Proof.
  intros Hi Hz Ho Hne Hsz Hlen.
  assert (exists bs0, b :: bs ≡ₚ o :: bs0) as [bs0 Hperm].
  { apply elem_of_Permutation in Ho as [k Hk]. exists (b :: k). rewrite Hk. constructor. }
  assert (inv m (o :: bs0)) as Hio by (by eapply inv_perm).
  assert (GetSize o = zlen (content m o)) as ->.
  { rewrite (content_size _ _ _ Hio). destruct (inv_offsets _ _ _ Hio) as (H1 & H2 & H3).
    unfold GetSize. rewrite u32_small; lia. }
  pose proof (zlen_nonneg (content m o)) as Hn.
  destruct (AddAtEnd_ok uninit (zlen (content m o)) m b bs Hi Hn Hsz Hlen)
    as ([b1 m1] & E & Hi1 & (x & Hx & Hc1) & Ho1 & Hp & Hend & Hz1 & Hd1).
  destruct (inv_offsets _ _ _ Hi1) as (H1 & H2 & H3). pose proof (content_size _ _ _ Hi1) as Hs1.
  rewrite Hc1, zlen_app, Hx in Hs1. pose proof (zlen_nonneg (content m b)).
  exists b1, m1, (Construct b1 (m_end b1 - zlen (content m o))).
  split_and!; [done | done | by eapply Prev_End; [done | lia] |].
  pose proof (AddAtEnd_moves (zlen (content m o)) m b bs o b1 m1 Hi Hz Ho Hne Hn Hsz Hlen E Hd1) as Hne1.
  destruct (Write_iter_ok m1 b1 bs o (m_end b1 - zlen (content m o)) Hi1) as (j & m2 & Ew & Hi2 & Hc2 & Ho2);
    rewrite ?(Ho1 o Ho); try done; try lia.
  - unfold iend in Hp. rewrite Hz1, Hz, Z.sub_0_r in Hp. intros e He Ee. destruct (Hp e He Ee); lia.
  - exists j, m2. split_and!; try done; [| by intros c Hc; rewrite Ho2, Ho1].
    rewrite Hc2, Hc1, (Ho1 o Ho). replace (m_end b1 - _ - m_start b1) with (zlen (content m b)) by lia.
    by apply splice_end.
Qed.

(** The fast path: [o] starts with a zero area that extends the one of [b]. *)
Lemma extend_zeroes_ok m b o bs d :
  inv m (b :: bs) -> heap m !! m_data b = Some d -> m_count d = 1 ->
  m_end b = m_zeroAreaEnd b \/ m_zeroAreaStart b = m_zeroAreaEnd b ->
  0 <= zone o -> zlen (content m b) + zone o <= MAX_CONTENT ->
  let zs := if m_zeroAreaStart b =? m_zeroAreaEnd b then m_end b else m_zeroAreaStart b in
  let b1 := mkBuffer (m_data b) (m_maxZeroAreaStart b) zs (m_end b + zone o) (m_start b) (m_end b + zone o) in
  let m1 := store (m_data b) (with_dirty (m_dirtyStart d) (m_end b + zone o) d) m in
  inv m1 (b1 :: bs) /\ content m1 b1 = content m b ++ replicate (Z.to_nat (zone o)) 0 /\
  (forall c, content m1 c = content m c).
Proof.
  intros Hi Hd Hcnt Hcase Hz Hsz zs b1 m1. rewrite (content_size _ _ _ Hi) in Hsz.
  destruct (live_block _ _ b Hi) as (d0 & Hd0 & Hp & Hds & Hl & _ & Hc); [set_solver |].
  rewrite Hd in Hd0. injection Hd0 as <-. destruct (placed_bounds _ _ Hp) as (H1 & H2 & H3 & H4 & H5 & H6).
  assert (m_start b <= zs <= m_end b /\ zs <= m_size d) as Hzs by (unfold zs; case_ifs; lia).
  assert (iend b1 = zs) as He1 by (unfold iend, zone; simpl; lia).
  destruct (inv_grow m b b1 bs d (m_dirtyStart d) (m_end b + zone o)) as [Hi1 Hc1]; try done.
  - unfold shape. simpl. lia.
  - lia.
  - intros c Hcb Ec. destruct (sharer_facts _ _ _ _ _ Hi Hd Hcb Ec). lia.
  - split_and!; [done | | done]. change (content m1 b1 = content m b ++ replicate (Z.to_nat (zone o)) 0).
    rewrite Hc1, Hc. unfold content, vw. simpl. rewrite Hd. simpl.
    unfold content_of. rewrite He1. unfold b1, zone, iend. cbn [m_start m_zeroAreaStart m_zeroAreaEnd m_end]. unfold zone.
    unfold zs. case_ifs.
    + rewrite <- E, Z.sub_diag, Z.sub_0_r. simpl replicate. rewrite (slice_nil (m_end b)) by lia.
      rewrite app_nil_r, app_nil_l, slice_app by lia. do 2 f_equal. lia.
    + slice_nils. rewrite !app_nil_r, <- app_assoc, <- replicate_add. do 2 f_equal.
      unfold zone in Hz. lia.
Qed.

(** Copying no byte from the end of a buffer that ends with its zero area. *)
Lemma Write_iter_none m b bs o bs0 c :
  inv m (b :: bs) -> inv m (o :: bs0) -> m_data o <> m_data b -> m_end o = m_zeroAreaEnd o -> 0 < zone o ->
  m_start b <= c <= m_end b ->
  Write_iter (End_ o) (End_ o) (Construct b c) m = Some (Construct b c, m).
Proof.
  intros Hi Hio Hne Heo Hzo Hc. destruct (inv_offsets _ _ _ Hi) as (H1 & H2 & H3).
  destruct (inv_offsets _ _ _ Hio) as (H4 & H5 & H6). unfold zone in Hzo.
  destruct (live_block _ _ o Hio) as (d & Hd & _); [set_solver |].
  unfold Write_iter. cbn [it_data m_current m_zeroStart m_zeroEnd m_dataEnd m_dataStart End_ Construct].
  rewrite !Z.eqb_refl, Z.leb_refl, (proj2 (Z.eqb_neq (m_data b) (m_data o))) by congruence.
  cbn [NS_ASSERT negb]. rewrite Z.sub_diag, (u32_small 0), Z.add_0_r, (u32_small c) by lia.
  replace (CheckNoZero c c _) with true;
    [| symmetry; unfold CheckNoZero; simpl; rewrite Z.eqb_refl, andb_false_r; simpl;
       rewrite orb_false_r, negb_true_iff, orb_false_iff, !Z.ltb_ge; lia].
  cbn [NS_ASSERT]. rewrite (proj2 (Z.leb_gt (m_end o) (m_zeroAreaStart o))) by lia. cbn iota beta.
  change (m_current (End_ o)) with (m_end o). change (m_zeroEnd (End_ o)) with (m_zeroAreaEnd o).
  change (m_current (Construct b c)) with c.
  rewrite (proj2 (Z.leb_le (m_end o) (m_zeroAreaEnd o))) by lia.
  rewrite (u32_small (m_zeroAreaEnd o - m_end o)), (Z.min_l 0) by lia. simpl replicate.
  rewrite (poke_nil c c m b bs Hi). rewrite !Z.add_0_r, !(u32_small c), (u32_small (m_end o)), (u32_small (0 - 0)) by lia.
  unfold move_to, Construct. cbn [it_data m_current m_zeroStart m_zeroEnd m_dataEnd m_dataStart].
  change (m_dataEnd (End_ o)) with (m_end o).
  rewrite !Z.sub_diag, (u32_small 0), Z.min_id by lia. unfold peek, load. simpl it_data. rewrite Hd.
  cbn [get_bytes Z.eqb]. pose proof (poke_nil c c m b bs Hi) as Hpk. unfold Construct in Hpk. rewrite Hpk.
  rewrite Z.add_0_r, (u32_small c) by lia. done.
Qed.

(** Where [AddAtEnd(o)] is right: [o] has no bytes after its zero area, or has
    bytes before it, or has no zero area. *)
Definition appendable (o : Buffer) : Prop :=
  m_end o = m_zeroAreaEnd o \/ m_start o <> m_zeroAreaStart o \/ zone o = 0.

(** [AddAtEnd(o)] concatenates. For buffers that are kept apart, when [o] has
    no bytes after its zero area, or has bytes before it, or has no zero area,
    it does not abort, the buffer holds its bytes followed by those of [o], and
    no other buffer changes; it ends up in a block that is not the one of [o], and is
    its old one or belongs to no other buffer; both the general path and the fast path that
    merges adjacent zero areas are covered. *)
Theorem AddAtEnd_concatenates m b o bs :
  inv m (b :: bs) -> o ∈ bs -> apart b o -> appendable o ->
  zlen (content m b) + zlen (content m o) <= MAX_CONTENT -> Z.of_nat (length bs) + 4 < 2 ^ 32 ->
  exists b' m', AddAtEnd_buffer uninit o b m = Some (b', m') /\ inv m' (b' :: bs) /\
    content m' b' = content m b ++ content m o /\ (forall c, c ∈ bs -> content m' c = content m c) /\
    (m_data b' = m_data b \/ m_data b' ∉ m_data <$> bs) /\ m_data o <> m_data b'.
Proof.
  intros Hi Ho Hne Happ Hsz Hlen.
  assert (exists bs0, bs ≡ₚ o :: bs0) as [bs0 Hperm] by (by apply elem_of_Permutation).
  assert (forall mx bx, inv mx (bx :: bs) -> inv mx (o :: bx :: bs0)) as Hpo.
  { intros mx bx Hx. eapply inv_perm; [| exact Hx]. rewrite Hperm. constructor. }
  pose proof (content_size _ _ _ (Hpo _ _ Hi)) as Hso. destruct (inv_offsets _ _ _ (Hpo _ _ Hi)) as (Ho1 & Ho2 & Ho3).
  destruct (live_block _ _ b Hi) as (d & Hd & Hp & _); [set_solver |].
  destruct (placed_bounds _ _ Hp) as (H1 & H2 & H3 & H4 & H5 & H6). pose proof Hsz as Hsz'.
  unfold MAX_CONTENT in Hsz'. pose proof (zlen_nonneg (content m b)). rewrite (content_size _ _ _ Hi) in Hsz'.
  unfold AddAtEnd_buffer, load. rewrite Hd, (u32_small (m_zeroAreaEnd o - m_zeroAreaStart o)) by lia. fold (zone o).
  destruct (_ && _) eqn:Efast.
  - rewrite !andb_true_iff, orb_true_iff, !Z.eqb_eq, Z.ltb_lt in Efast. destruct Efast as ((((Hcnt & Hcase) & _) & Hst) & Hzo).
    assert (m_data o <> m_data b) as Hdiff by (intros Eo; destruct (sharer_facts _ _ _ _ _ Hi Hd Ho Eo); lia).
    assert (m_end o = m_zeroAreaEnd o) as Heo by (destruct Happ as [|[|]]; [done | done | lia]).
    assert (content m o = replicate (Z.to_nat (zone o)) 0) as Hco.
    { destruct (content_parts m o (b :: bs0) (Hpo _ _ Hi)) as (d0 & pre & post & _ & _ & _ & E1 & E2 & _ & _ & _ & ->).
      rewrite Hst, Z.sub_diag, u32_small in E1 by lia. rewrite Heo, Z.sub_diag, u32_small in E2 by lia.
      destruct pre; [| by unfold zlen in E1]. destruct post; [by rewrite app_nil_r | by unfold zlen in E2]. }
    assert (zlen (content m o) = zone o) as Hlo by (rewrite Hso; unfold zone; lia).
    rewrite (u32_small (m_end b + zone o)) by lia.
    destruct (extend_zeroes_ok m b o bs d Hi Hd Hcnt Hcase) as (Hi1 & Hc1 & Hx1); [lia | lia |].
    set (b1 := mkBuffer _ _ _ _ _ _) in *. cbn [m_data]. set (m1 := store _ _ m) in *.
    replace (u32 (m_end o - m_zeroAreaEnd o)) with 0 by (rewrite u32_small; lia).
    destruct (AddAtEnd_ok uninit 0 m1 b1 bs Hi1) as ([b2 m2] & -> & Hi2 & (x & Hx & Hc2) & Hx2 & _ & _ & _ & Hd2);
      [lia | rewrite Hc1, <- Hco, zlen_app; lia | lia |].
    destruct (inv_offsets _ _ _ Hi2) as (H7 & H8 & H9).
    rewrite (Prev_End 0 m2 b2 bs Hi2), (Prev_End 0 m2 o (b2 :: bs0) (Hpo _ _ Hi2)) by lia. rewrite !Z.sub_0_r.
    change (Construct o (m_end o)) with (End_ o).
    assert (m_data o <> m_data b2) as Hdiff2 by (destruct Hd2 as [->|Hd2]; [done | intros Eo; apply Hd2; rewrite <- Eo; by apply list_elem_of_fmap_2]).
    rewrite (Write_iter_none m2 b2 bs o (b2 :: bs0)) by (first [done | by apply Hpo | lia]).
    exists b2, m2. split_and!; try done; [| by intros c Hc; rewrite Hx2, Hx1].
    rewrite Hc2, Hc1, Hco. destruct x; [by rewrite app_nil_r | by unfold zlen in Hx].
  - destruct (TransformIntoRealBuffer_ok m b bs Hi Hlen) as (b1 & m1 & -> & Hi1 & Hc1 & Hz1 & Hx1 & Hd1).
    destruct (append_copy_ok m1 b1 o bs Hi1 Hz1 Ho) as (b2 & m2 & i & -> & _ & -> & j & m3 & -> & Hi3 & Hc3 & Hx3 & Hd3 & Hn3).
    + destruct Hd1 as [(Ed1 & Ei1 & Ez1)|Hd1]; [unfold apart in *; by rewrite Ed1, Ei1, Hz1; rewrite Ez1 in Hne |]. left. intros Eo. apply Hd1. rewrite <- Eo. by apply list_elem_of_fmap_2.
    + by rewrite Hc1, Hx1.
    + lia.
    + exists b2, m3. split_and!; try done; [by rewrite Hc3, Hc1, Hx1 | by intros c Hc; rewrite Hx3, Hx1 |].
      destruct Hd3 as [->|]; [| by right]. destruct Hd1 as [(-> & _)|]; [by left | by right].
Qed.

(** ** Cutting a buffer and joining the parts *)

Definition no_trailer (b : Buffer) : Prop := m_end b = m_zeroAreaEnd b \/ zone b = 0.
(** The number of bytes that are stored. *)
Definition stored (b : Buffer) : Z := iend b - m_start b.
Lemma cut_end c k : shape c -> no_trailer c -> m_end c < 2 ^ 32 -> 0 <= k <= m_end c - m_start c ->
  let b := RemoveAtEnd (m_end c - m_start c - k) c in
  m_data b = m_data c /\ no_trailer b /\ zone b = Z.max 0 (k - stored c) /\ iend b = m_start c + Z.min k (stored c).
Proof.
  intros (H1 & H2 & _) Hno Hbig Hk. unfold RemoveAtEnd. rewrite (u32_small (m_end c - m_start c)), (Z.min_l (_ - k)) by lia. replace (m_end c - (m_end c - m_start c - k)) with (m_start c + k) by lia. rewrite u32_small by lia.
  unfold no_trailer, stored, iend, zone in *. case_ifs; cbn [m_data m_zeroAreaStart m_zeroAreaEnd m_start m_end note_zero_start]; lia.
Qed.
Lemma cut_start c e : shape c -> no_trailer c -> m_end c < 2 ^ 32 -> 0 <= e <= m_end c - m_start c ->
  exists t, RemoveAtStart e c = Some t /\ m_data t = m_data c /\ no_trailer t /\ shape t /\ m_end t < 2 ^ 32 /\ m_end t - m_start t = m_end c - m_start c - e /\ iend t = iend c /\ m_start t = m_start c + Z.min e (stored c).
Proof.
  intros (H1 & H2 & H3) Hno Hbig He. unfold RemoveAtStart. rewrite (u32_small (m_start c + e)), (u32_small (m_zeroAreaEnd c - m_zeroAreaStart c)) by lia. unfold no_trailer, stored, iend, zone, shape in *.
  destruct (Z.leb_spec (m_start c + e) (m_zeroAreaStart c)); [| destruct (Z.leb_spec (m_start c + e) (m_zeroAreaEnd c)); [| destruct (Z.leb_spec (m_start c + e) (m_end c)); [| lia]]].
  - eexists. split; [reflexivity |]. cbn. lia.
  - rewrite (u32_small (m_start c + e - _)), !u32_small by lia. eexists. split; [reflexivity |]. cbn. lia.
  - rewrite (proj2 (Z.leb_le e _)) by lia. cbn [NS_ASSERT]. rewrite !u32_small by lia. eexists. split; [reflexivity |]. cbn. lia.
Qed.
(** The parts of a buffer share its block. They can be joined: the second part ends after
    the first one, or a zero area is involved. *)
Lemma parts_apart c e n : shape c -> no_trailer c -> m_end c < 2 ^ 32 -> 0 <= e -> 0 < n -> e + n <= m_end c - m_start c ->
  let b := RemoveAtEnd (m_end c - m_start c - e) c in
  exists t, RemoveAtStart e c = Some t /\ let o := RemoveAtEnd (m_end c - m_start c - (e + n)) t in apart b o /\ appendable o /\ no_trailer b /\ no_trailer o.
Proof.
  intros Hs Hno Hbig He Hn Hle b. destruct (cut_end c e Hs Hno Hbig ltac:(lia)) as (_ & Hb & Zb & Ib). destruct (cut_start c e Hs Hno Hbig ltac:(lia)) as (t & -> & _ & Ht & Hst & Hbt & Hsz & Et & St). exists t. split; [done |].
  destruct (cut_end t n Hst Ht Hbt ltac:(lia)) as (_ & Ho & Zo & Io). fold b in Hb, Zb, Ib. replace (m_end c - m_start c - (e + n)) with (m_end t - m_start t - n) by lia. cbn zeta. split; [| split; [|done]].
  - unfold apart. rewrite Zb, Zo, Ib, Io. unfold stored in *. rewrite Et, St. right. lia.
  - unfold no_trailer in Ho. unfold appendable. tauto.
Qed.
Lemma CreateFragment_fields start len c m b m' : CreateFragment start len c m = Some (b, m') ->
  exists t, RemoveAtStart start (mkBuffer (m_data c) (m_zeroAreaStart c) (m_zeroAreaStart c) (m_zeroAreaEnd c) (m_start c) (m_end c)) = Some t /\ b = RemoveAtEnd (u32 (GetSize c - u32 (start + len))) t.
Proof.
  unfold CreateFragment, copy. destruct (Ref (m_data c) m); [| done]. cbn [fst snd]. destruct (RemoveAtStart start _) as [t|]; [| done]. intros [= <- <-]. eauto.
Qed.

(** A fragment of [c]: it shares the block of [c]. *)
Definition cut_from (c : Buffer) (s n : Z) (o : Buffer) : Prop :=
  exists t, RemoveAtStart s c = Some t /\ o = RemoveAtEnd (m_end c - m_start c - (s + n)) t.
Lemma cut_from_start c e b : shape c -> m_end c < 2 ^ 32 -> m_maxZeroAreaStart c = m_zeroAreaStart c -> 0 <= e <= m_end c - m_start c ->
  cut_from c 0 e b -> b = RemoveAtEnd (m_end c - m_start c - e) c.
Proof.
  intros (H1 & H2 & _) Hbig Hmx He (t & R & ->). unfold RemoveAtStart in R. rewrite Z.add_0_r, u32_small, (proj2 (Z.leb_le _ _)) in R by lia. injection R as <-.
  f_equal. destruct c. unfold note_zero_start. cbn in *. f_equal; lia.
Qed.
Lemma CreateFragment_cut s n m c bs : inv m (c :: bs) -> no_trailer c -> 0 <= s -> 0 < n -> s + n <= zlen (content m c) -> Z.of_nat (length bs) + 2 < 2 ^ 32 ->
  let c0 := mkBuffer (m_data c) (m_zeroAreaStart c) (m_zeroAreaStart c) (m_zeroAreaEnd c) (m_start c) (m_end c) in
  exists o m', CreateFragment s n c m = Some (o, m') /\ inv m' (o :: c :: bs) /\ content m' o = slice s (s + n) (content m c) /\
    (forall x, x ∈ c :: bs -> content m' x = content m x) /\ cut_from c0 s n o /\ m_data o = m_data c /\ no_trailer o.
Proof.
  intros Hi Hno Hs Hn Hle Hlen c0. pose proof (bi_shape _ _ (proj2 Hi) c ltac:(set_solver)) as Hsh. destruct (inv_offsets _ _ _ Hi) as (H1 & H2 & H3). pose proof (content_size _ _ _ Hi) as Hsz.
  pose proof Hsh as (_ & _ & Hmx). destruct (CreateFragment_ok s n m c bs Hi) as (o & m1 & E & Hi1 & Hc1 & Ho1); try lia. exists o, m1.
  destruct (CreateFragment_fields _ _ _ _ _ _ E) as (t & R & Eo). fold c0 in R. assert (cut_from c0 s n o) as Hcut.
  { exists t. split; [done |]. unfold GetSize in Eo. rewrite (u32_small (m_end c - m_start c)), (u32_small (s + n)), u32_small in Eo by lia. done. }
  destruct (cut_start c0 s Hsh Hno ltac:(cbn; lia) ltac:(cbn; lia)) as (t' & R' & Ed & Hn1 & Hs1 & Hb1 & Hl1 & _). rewrite R in R'. injection R' as <-.
  destruct Hcut as (t1 & R1 & Eo1). rewrite R in R1. injection R1 as <-. destruct (cut_end t n Hs1 Hn1 Hb1) as (Ed2 & Hn2 & _); [cbn in Hl1; lia |].
  replace (m_end t - m_start t - n) with (m_end c0 - m_start c0 - (s + n)) in * by lia. rewrite <- Eo1 in *. split_and!; try done; [by exists t | by rewrite Ed2, Ed].
Qed.

(** The fragments of the sizes [ns] of a packet from the offset [e]. *)
Fixpoint cut_all (ns : list Z) (e : Z) (c : Buffer) (m : Mem) : option (list Buffer * Mem) :=
  match ns with
  | [] => Some ([], m)
  | n :: ns => let* (o, m) := CreateFragment e n c m in let* (l, m) := cut_all ns (e + n) c m in Some (o :: l, m)
  end.
(** Packets appended one after the other. *)
Fixpoint append_all (l : list Buffer) (b : Buffer) (m : Mem) : option (Buffer * Mem) :=
  match l with
  | [] => Some (b, m)
  | o :: l => let* (b, m) := AddAtEnd_buffer uninit o b m in append_all l b m
  end.
Definition sum (ns : list Z) : Z := foldr Z.add 0 ns.

(** The packets to append are on other blocks; or they share one block, and the first of
    them is kept apart from [b], which then moves away. *)
Definition run_apart (b : Buffer) (l : list Buffer) : Prop :=
  (forall o, o ∈ l -> m_data o <> m_data b) \/
  match l with [] => True | o :: l => apart b o /\ forall x, x ∈ l -> m_data x = m_data o end.

(** A run of packets is appended without an abort and without a lost byte. *)
Lemma append_all_ok l m b bs : inv m (b :: bs) -> (forall o, o ∈ l -> o ∈ bs /\ appendable o) -> run_apart b l ->
  zlen (content m b ++ concat (content m <$> l)) <= MAX_CONTENT -> Z.of_nat (length bs) + 4 < 2 ^ 32 ->
  exists b' m', append_all l b m = Some (b', m') /\ inv m' (b' :: bs) /\ content m' b' = content m b ++ concat (content m <$> l) /\
    (forall x, x ∈ bs -> content m' x = content m x).
Proof.
  revert m b. induction l as [|o l IH]; intros m b Hi Hl Hap Hsz Hlen.
  { exists b, m. split_and!; try done. by rewrite app_nil_r. }
  destruct (Hl o ltac:(by left)) as [Hin Hao]. rewrite fmap_cons in *. cbn [concat] in *. rewrite app_assoc in Hsz |- *. pose proof Hsz as Hsz'. rewrite !zlen_app in Hsz'. pose proof (zlen_nonneg (concat (content m <$> l))).
  destruct (AddAtEnd_concatenates m b o bs Hi Hin) as (b1 & m1 & E1 & Hi1 & Hc1 & Ho1 & Hd1 & Hn1); [destruct Hap as [Hap|[? _]]; [left; apply Hap; by left | done] | done | lia | done |].
  cbn [append_all]. rewrite E1. assert (content m1 <$> l = content m <$> l) as Ef by (apply list_fmap_ext; intros i x Hx; apply Ho1, Hl; right; by eapply list_elem_of_lookup_2).
  rewrite <- Hc1, <- Ef in Hsz |- *. destruct (IH m1 b1 Hi1) as (b' & m' & -> & Hi' & Hc' & Ho'); try done; [intros x Hx; apply Hl; by right | left; intros x Hx Ex |].
  - destruct Hd1 as [Hd1|Hd1]; [| apply Hd1; rewrite <- Ex; apply list_elem_of_fmap_2, Hl; by right].
    destruct Hap as [Hap|[_ Hap]]; [apply (Hap x); [by right | congruence] | apply Hn1; rewrite <- Ex; symmetry; by apply Hap].
  - exists b', m'. split_and!; try done. intros x Hx. by rewrite Ho', Ho1.
Qed.

Lemma cut_all_ok ns e m c bs : inv m (c :: bs) -> no_trailer c -> Forall (Z.lt 0) ns -> 0 <= e -> e + sum ns <= zlen (content m c) -> Z.of_nat (length bs) + Z.of_nat (length ns) + 2 < 2 ^ 32 ->
  exists l m', cut_all ns e c m = Some (l, m') /\ inv m' (c :: l ++ bs) /\ concat (content m' <$> l) = slice e (e + sum ns) (content m c) /\
    (forall x, x ∈ c :: bs -> content m' x = content m x) /\ (forall o, o ∈ l -> m_data o = m_data c /\ no_trailer o) /\ length l = length ns.
Proof.
  revert e m bs. induction ns as [|n ns IH]; intros e m bs Hi Hno Hns He Hle Hlen.
  { exists [], m. split_and!; try done; [cbn; by rewrite Z.add_0_r, slice_nil by lia | by intros ? ?%elem_of_nil]. }
  apply Forall_cons in Hns as [Hn Hns]. cbn [sum foldr length cut_all] in *. fold (sum ns) in *. assert (0 <= sum ns) as Hpos by (clear -Hns; induction Hns; cbn; [lia |]; fold (sum l); lia).
  destruct (CreateFragment_cut e n m c bs Hi Hno He Hn) as (o & m1 & -> & Hi1 & Hc1 & Ho1 & _ & Hd & Hno1); [lia | lia |].
  destruct (IH (e + n) m1 (o :: bs)) as (l & m2 & -> & Hi2 & Hc2 & Ho2 & Hl2 & Hlen2); try done; try lia; [eapply inv_perm; [| exact Hi1]; constructor | rewrite Ho1 by set_solver; lia | cbn [length]; lia |].
  exists (o :: l), m2. split_and!; try done.
  - eapply inv_perm; [| exact Hi2]. solve_Permutation.
  - rewrite fmap_cons. cbn [concat]. rewrite Hc2, Ho2, Hc1, Ho1 by set_solver. rewrite slice_app by lia. f_equal. lia.
  - intros x Hx. rewrite Ho2, Ho1 by set_solver. done.
  - intros x [->|Hx]%elem_of_cons; [done | auto].
  - cbn [length]. by rewrite Hlen2.
Qed.

(** C40: A packet that is cut into fragments is put together again by [AddAtEnd]: in any
    memory, although the fragments share a block with each other and with other packets,
    cutting it into any number of adjacent fragments and appending them one after the other
    to the first one does not abort and gives the bytes of the packet, and neither the
    packet, nor a fragment, nor any other buffer changes. The packet has no bytes after a
    zero area, as all packets to which no trailer was added. *)
Theorem fragments_join m c bs n ns : inv m (c :: bs) -> no_trailer c -> Forall (Z.lt 0) (n :: ns) -> sum (n :: ns) = zlen (content m c) -> Z.of_nat (length bs) + Z.of_nat (length ns) + 8 < 2 ^ 32 ->
  exists b l m1 b' m2, cut_all (n :: ns) 0 c m = Some (b :: l, m1) /\ append_all l b m1 = Some (b', m2) /\
    inv m2 (b' :: c :: l ++ bs) /\ content m2 b' = content m c /\ (forall o, o ∈ l -> content m2 o = content m1 o) /\ (forall x, x ∈ c :: bs -> content m2 x = content m x).
Proof.
  intros Hi Hno Hns Hsum Hlen. destruct (cut_all_ok (n :: ns) 0 m c bs Hi Hno Hns) as (l0 & m1 & E1 & Hi1 & Hc1 & Ho1 & Hl1 & Hlen1); [lia | lia | cbn [length]; lia |].
  destruct l0 as [|b l]; [done |]. exists b, l, m1. assert (run_apart b l) as Hap.
  { right. destruct l as [|o l]; [done |]. split; [| intros x Hx; by rewrite (proj1 (Hl1 x ltac:(do 2 right; done))), (proj1 (Hl1 o ltac:(right; by left)))]. apply Forall_cons in Hns as [Hn Hns]. destruct ns as [|n2 ns]; [done |]. apply Forall_cons in Hns as [Hn2 Hns].
    cbn [sum foldr length cut_all] in *. fold (sum ns) in *. assert (0 <= sum ns) as Hpos by (clear -Hns; induction Hns; cbn; [lia |]; fold (sum l); lia).
    destruct (CreateFragment_cut 0 n m c bs Hi Hno) as (b1 & m2 & E2 & Hi2 & _ & Ho2 & Hcut1 & _); [lia | lia | lia | lia |]. rewrite E2 in E1.
    destruct (CreateFragment_cut (0 + n) n2 m2 c (b1 :: bs)) as (o1 & m3 & E3 & _ & _ & _ & Hcut2 & _); [eapply inv_perm; [| exact Hi2]; constructor | done | lia | lia | rewrite Ho2 by set_solver; lia | cbn [length]; lia |]. rewrite E3 in E1.
    destruct (cut_all ns (0 + n + n2) c m3) as [[l' m4]|]; [| done]. injection E1 as -> -> _ _.
    pose proof (bi_shape _ _ (proj2 Hi) c ltac:(set_solver)) as Hsh. destruct (inv_offsets _ _ _ Hi) as (H1 & H2 & H3). pose proof (content_size _ _ _ Hi) as Hsz. pose proof Hsh as (_ & _ & Hmx).
    set (c0 := mkBuffer _ _ _ _ _ _) in *. rewrite (cut_from_start c0 n b Hsh ltac:(cbn; lia) eq_refl ltac:(cbn; lia) Hcut1).
    destruct (parts_apart c0 n n2 Hsh Hno ltac:(cbn; lia)) as (t & Et & Hap & _); [lia | lia | cbn; lia |]. destruct Hcut2 as (t2 & Et2 & ->). rewrite Z.add_0_l, Et in Et2. injection Et2 as <-. exact Hap. }
  rewrite fmap_cons, Hsum, Z.add_0_l in Hc1. cbn [concat] in Hc1. assert (slice 0 (zlen (content m c)) (content m c) = content m c) as Eall by (unfold slice; rewrite Z.sub_0_r, zlen_length, drop_0; apply take_ge; lia).
  pose proof (content_size _ _ _ Hi) as Hsz. pose proof (bi_shape _ _ (proj2 Hi) c ltac:(set_solver)) as (_ & _ & Hmx). rewrite Eall in Hc1.
  destruct (append_all_ok l m1 b (c :: l ++ bs)) as (b' & m2 & E2 & Hi2 & Hc2 & Ho2).
  - eapply inv_perm; [| exact Hi1]. cbn. constructor.
  - intros o Ho. split; [set_solver |]. destruct (Hl1 o ltac:(by right)) as [_ Hn]. unfold no_trailer in Hn. unfold appendable. tauto.
  - done.
  - rewrite Hc1. lia.
  - cbn [length] in *. rewrite length_app. lia.
  - exists b', m2. split_and!; try done; [by rewrite Hc2 | intros o Ho; apply Ho2; set_solver | intros x Hx; rewrite Ho2, Ho1; [done | set_solver | set_solver]].
Qed.
End Concat.

(** Two buffers of zeroes, the second one followed by a trailer. *)
Definition concat_demo (z1 z2 : Z) (trailer : list Z) : option (Buffer * Buffer * Mem) :=
  let* (o, m) := Initialize demo_uninit z2 Mem_init in
  let* (o, m) := append demo_uninit (Write_bytes trailer) (zlen trailer) o m in
  let* (b, m) := Initialize demo_uninit z1 m in
  Some (b, o, m).

Definition concat_state : Buffer * Buffer * Mem :=
  match concat_demo 5 0 [7; 8] with Some r => r | None => (demo_buf, demo_buf, Mem_init) end.

Lemma concat_inv :
  let '(b, o, m) := concat_state in
  inv m [b; o] /\ content m b = replicate 5 0 /\ content m o = [7; 8].
Proof.
  destruct (Initialize_ok demo_uninit 0 Mem_init [] inv_init) as (o0 & m0 & E0 & Hi0 & Hc0 & _); [by vm_compute | done |].
  destruct (append_ok demo_uninit _ _ m0 o0 [] (writes_bytes [7; 8]) Hi0) as (o & m1 & E1 & Hi1 & Hc1 & _);
    [by rewrite Hc0; vm_compute | done |].
  destruct (Initialize_ok demo_uninit 5 m1 [o] Hi1) as (b & m2 & E2 & Hi2 & Hc2 & Hx2 & _); [by vm_compute | done |].
  assert (concat_demo 5 0 [7; 8] = Some (b, o, m2)) as E by (unfold concat_demo; rewrite E0, E1, E2; done).
  unfold concat_state. rewrite E. split; [exact Hi2 |]. split; [exact Hc2 |].
  rewrite Hx2, Hc1, Hc0 by set_solver. done.
Qed.

Lemma AddAtEnd_concatenates_witness :
  let '(b, o, m) := concat_state in
  exists b' m', AddAtEnd_buffer demo_uninit o b m = Some (b', m') /\ inv m' [b'; o] /\
    content m' b' = content m b ++ content m o /\ (forall c, c ∈ [o] -> content m' c = content m c) /\
    (m_data b' = m_data b \/ m_data b' ∉ m_data <$> [o]) /\ m_data o <> m_data b'.
Proof.
  pose proof concat_inv as Hinv. assert (m_data concat_state.1.2 <> m_data concat_state.1.1) as Hne by (vm_compute; discriminate).
  assert (zone concat_state.1.2 = 0) as Hz by (vm_compute; reflexivity).
  destruct concat_state as [[b o] m]. simpl in Hne, Hz. destruct Hinv as (Hi & Hb & Ho).
  apply (AddAtEnd_concatenates demo_uninit m b o [o]); try done.
  - set_solver.
  - by left.
  - by right; right.
  - rewrite Hb, Ho. vm_compute. discriminate.
Defined.

(** Three bytes and four zeroes, cut in the middle of both. *)
Definition cut_demo : option (Buffer * Mem) :=
  let* (c, m) := Initialize demo_uninit 4 Mem_init in prepend demo_uninit (Write_bytes [1; 2; 3]) (zlen [1; 2; 3]) c m.
Definition cut_state : Buffer * Mem := match cut_demo with Some r => r | None => (demo_buf, Mem_init) end.
Lemma cut_inv : inv cut_state.2 [cut_state.1] /\ content cut_state.2 cut_state.1 = [1; 2; 3; 0; 0; 0; 0].
Proof.
  destruct (Initialize_ok demo_uninit 4 Mem_init [] inv_init) as (c0 & m0 & E0 & Hi0 & Hc0 & _); [by vm_compute | done |].
  destruct (prepend_ok demo_uninit _ _ m0 c0 [] (writes_bytes [1; 2; 3]) Hi0) as (c & m & E & Hi & Hc & _); [by rewrite Hc0; vm_compute | done |].
  assert (cut_demo = Some (c, m)) as Ed by (unfold cut_demo; rewrite E0, E; done). unfold cut_state. rewrite Ed. split; [exact Hi |]. cbn [fst snd]. rewrite Hc, Hc0. done.
Qed.
Lemma fragments_join_witness : exists b l m1 b' m2, cut_all [2; 3; 1; 1] 0 cut_state.1 cut_state.2 = Some (b :: l, m1) /\
  append_all demo_uninit l b m1 = Some (b', m2) /\ content m2 b' = [1; 2; 3; 0; 0; 0; 0].
Proof.
  destruct cut_inv as [Hi Hc]. destruct (fragments_join demo_uninit cut_state.2 cut_state.1 [] 2 [3; 1; 1] Hi) as (b & l & m1 & b' & m2 & E1 & E2 & _ & Hb & _).
  - left. vm_compute. reflexivity.
  - repeat (apply List.Forall_cons; [reflexivity |]). apply List.Forall_nil.
  - rewrite Hc. reflexivity.
  - vm_compute. reflexivity.
  - exists b, l, m1, b', m2. split; [exact E1 |]. split; [exact E2 |]. rewrite Hb. exact Hc.
Defined.

(** ** Where appending goes wrong *)

(** The bytes of the buffer after appending [o] to it, and those of [o]. *)
Definition concat_result (z1 z2 : Z) (trailer : list Z) : option (list Z * list Z) :=
  let* (b, o, m) := concat_demo z1 z2 trailer in
  let* (b', m') := AddAtEnd_buffer demo_uninit o b m in
  Some (content m' b', content m' o).

(** [AddAtEnd(o)] loses the bytes [o] has after its zero area. The fast path
    copies them with [Iterator::Write(start, end)], which stores at virtual
    offsets without subtracting the zero area of the target: five zeroes
    followed by three zeroes and [7; 8] give fresh memory (51) instead of
    [7; 8], and with a payload of 200 bytes the copy runs out of the block. *)
Theorem AddAtEnd_loses_trailer :
  concat_result 5 3 [7; 8] = Some ([0; 0; 0; 0; 0; 0; 0; 0; 51; 51], [0; 0; 0; 7; 8]) /\
  concat_result 5 200 [7; 8] = None.
Proof. split; vm_compute; reflexivity. Qed.

(** Appending a copy of a buffer to itself aborts. A buffer of real bytes that
    shares its block with [o] and has room is grown in place, and the copy then
    fails its assertion that the two blocks differ. *)
Theorem AddAtEnd_shared_aborts :
  exists b o m, (let* (b, m) := Initialize demo_uninit 0 Mem_init in
                 let* (b, m) := append demo_uninit (Write_bytes [1; 2]) 2 b m in
                 let* (o, m) := copy b m in Some (b, o, m)) = Some (b, o, m) /\
    content m b = [1; 2] /\ content m o = [1; 2] /\ AddAtEnd_buffer demo_uninit o b m = None.
Proof. do 3 eexists. split; [vm_compute; reflexivity |]. split_and!; vm_compute; reflexivity. Qed.

(** The write checks of iterators accept writes past the end of a buffer.
    [b] holds the first two of the four bytes it shares with [c]; writing two
    bytes at its end with [Write(buffer, size)], whose assertion passes [size]
    instead of the end position, or one byte with [WriteU8], whose check admits
    the end position, succeeds and changes [c]. *)
Theorem Write_checks_miss_overflow :
  exists b c m, (let* (c, m) := Initialize demo_uninit 0 Mem_init in
                 let* (c, m) := append demo_uninit (Write_bytes [1; 2; 3; 4]) 4 c m in
                 let* (b, m) := copy c m in Some (RemoveAtEnd 2 b, c, m)) = Some (b, c, m) /\
    content m b = [1; 2] /\ content m c = [1; 2; 3; 4] /\
    (let* (_, m') := Write_bytes [9; 9] (End_ b) m in Some (content m' c)) = Some [1; 2; 9; 9] /\
    (let* (_, m') := WriteU8 9 (End_ b) m in Some (content m' c)) = Some [1; 2; 9; 4].
Proof. do 3 eexists. split; [vm_compute; reflexivity |]. split_and!; vm_compute; reflexivity. Qed.

End BufferSerial.
