(* ===== verification/SequenceNumber.v ===== *)
(** * Sequence numbers (src/network/utils/sequence-number.h)

    [SequenceNumber<NUMERIC_TYPE, SIGNED_TYPE>] for an unsigned type of [w]
    bits and the signed type of the same width; ns-3 instantiates it with
    [w] = 8, 16 and 32. The value is a [Z]; a result stored in
    [NUMERIC_TYPE] is wrapped with [wrap w], a conversion to [SIGNED_TYPE]
    reads the bits with [swrap w]. *)

From S2P Require Import Prelude.

Module SequenceNumber.

Section Width.
Variable w : Z.

Record SequenceNumber := mkSeq { m_value : Z }.

(** [std::numeric_limits<NUMERIC_TYPE>::max()] and half of it. *)
Definition maxValue : Z := 2 ^ w - 1.
Definition halfMaxValue : Z := maxValue / 2.

(** ** Constructors, assignment and access *)

Definition SequenceNumber_default : SequenceNumber := mkSeq 0.
Definition SequenceNumber_of (value : Z) : SequenceNumber := mkSeq value.
Definition SequenceNumber_copy (value : SequenceNumber) : SequenceNumber := mkSeq (m_value value).
Definition GetValue (s : SequenceNumber) : Z := m_value s.

(** ** Arithmetic *)

(** The prefix operators change the object and return it; the postfix ones
    return its old value (first) beside the changed object. *)
Definition pre_inc (s : SequenceNumber) : SequenceNumber := mkSeq (wrap w (m_value s + 1)).
Definition post_inc (s : SequenceNumber) : SequenceNumber * SequenceNumber :=
  (mkSeq (m_value s), mkSeq (wrap w (m_value s + 1))).
Definition pre_dec (s : SequenceNumber) : SequenceNumber := mkSeq (wrap w (m_value s - 1)).
Definition post_dec (s : SequenceNumber) : SequenceNumber * SequenceNumber :=
  (mkSeq (m_value s), mkSeq (wrap w (m_value s - 1))).

Definition plus_assign (value : Z) (s : SequenceNumber) : SequenceNumber :=
  mkSeq (wrap w (m_value s + value)).
Definition minus_assign (value : Z) (s : SequenceNumber) : SequenceNumber :=
  mkSeq (wrap w (m_value s - value)).
Definition plus_seq (s other : SequenceNumber) : SequenceNumber :=
  SequenceNumber_of (wrap w (m_value s + m_value other)).
Definition plus (s : SequenceNumber) (delta : Z) : SequenceNumber :=
  SequenceNumber_of (wrap w (m_value s + delta)).
Definition minus (s : SequenceNumber) (delta : Z) : SequenceNumber :=
  SequenceNumber_of (wrap w (m_value s - delta)).

(** [-x] for [x] of type [SIGNED_TYPE], converted back to it. A type narrower
    than [int] is promoted first; at 32 bits the negation is done in the type
    itself, where that of the least value is undefined ([None]). *)
Definition negate (x : Z) : option Z :=
  if (32 <=? w) && (x =? - 2 ^ (w - 1)) then None else Some (swrap w (- x)).

(** [operator-] of two sequence numbers. *)
Definition minus_seq (s other : SequenceNumber) : option Z :=
  if m_value other <? m_value s then
    let diff := wrap w (m_value s - m_value other) in
    if diff <? halfMaxValue then Some (swrap w diff)
    else negate (swrap w (maxValue - m_value s + 1 + m_value other))
  else
    let diff := wrap w (m_value other - m_value s) in
    if diff <? halfMaxValue then negate (swrap w diff)
    else Some (swrap w (maxValue - m_value other + 1 + m_value s)).

(** ** Comparisons *)

Definition gt (s other : SequenceNumber) : bool :=
  ((m_value other <? m_value s) && (m_value s - m_value other <=? halfMaxValue)) ||
  ((m_value s <? m_value other) && (halfMaxValue <? m_value other - m_value s)).
Definition eq (s other : SequenceNumber) : bool := m_value s =? m_value other.
Definition ne (s other : SequenceNumber) : bool := negb (m_value s =? m_value other).
Definition le (s other : SequenceNumber) : bool := negb (gt s other).
Definition ge (s other : SequenceNumber) : bool := gt s other || eq s other.
Definition lt (s other : SequenceNumber) : bool :=
  negb (gt s other) && negb (m_value s =? m_value other).

(** The value fits the unsigned type. *)
Definition seq_ok (s : SequenceNumber) : Prop := 0 <= m_value s < 2 ^ w.

(** ** Lemmas *)

Section Facts.
Hypothesis Hw : 2 <= w.

(** [2^w] and the other constants in terms of half the range. *)
Lemma seq_constants : exists h, 2 <= h /\ 2 ^ (w - 1) = h /\ 2 ^ w = 2 * h /\
  maxValue = 2 * h - 1 /\ halfMaxValue = h - 1.
Proof.
  exists (2 ^ (w - 1)). assert (2 ^ w = 2 * 2 ^ (w - 1)) as E
    by (rewrite <- Z.pow_succ_r by lia; f_equal; lia).
  assert (2 ^ 1 <= 2 ^ (w - 1)) by (apply Z.pow_le_mono_r; lia).
  unfold halfMaxValue, maxValue. rewrite E. split_and!; try lia.
  symmetry. apply Z.div_unique with 1; lia.
Qed.

(** The signed reading of a difference of two values. *)
Lemma swrap_diff x h : 2 ^ (w - 1) = h -> 2 ^ w = 2 * h -> - 2 * h < x < 2 * h ->
  swrap w x = if h <=? x then x - 2 * h else if x <? - h then x + 2 * h else x.
Proof.
  intros E1 E2 Hx. unfold swrap. rewrite E1, E2. case_ifs.
  - rewrite <- (Z.mod_unique (x + h) (2 * h) 1 (x - h)); lia.
  - rewrite <- (Z.mod_unique (x + h) (2 * h) (-1) (x + 3 * h)); lia.
  - rewrite Z.mod_small; lia.
Qed.

Lemma wrap_diff x h : 2 ^ w = 2 * h -> - 2 * h <= x < 4 * h ->
  wrap w x = if x <? 0 then x + 2 * h else if x <? 2 * h then x else x - 2 * h.
Proof.
  intros E Hx. unfold wrap. rewrite E. case_ifs.
  - symmetry. apply Z.mod_unique with (-1); lia.
  - apply Z.mod_small. lia.
  - symmetry. apply Z.mod_unique with 1; lia.
Qed.

Lemma swrap_period x : swrap w (x + 2 ^ w) = swrap w x.
Proof.
  unfold swrap. replace (x + 2 ^ w + 2 ^ (w - 1)) with (x + 2 ^ (w - 1) + 1 * 2 ^ w) by lia.
  rewrite Z.mod_add; [done | lia].
Qed.

Lemma negate_swrap x h : 2 ^ (w - 1) = h -> 2 ^ w = 2 * h -> - h < x < 2 * h ->
  negate (swrap w x) = if (32 <=? w) && (x =? h) then None else Some (swrap w (- x)).
Proof.
  intros E1 E2 Hx. unfold negate. rewrite E1, (swrap_diff x h), (proj2 (Z.ltb_ge x (- h))) by lia.
  destruct (Z.leb_spec h x); destruct (32 <=? w) eqn:Ew; simpl; case_ifs; try lia; try done.
  all: rewrite <- (swrap_period (- x)) by lia; f_equal; f_equal; lia.
Qed.

(** The branches of [minus_seq] compute the signed difference. *)
Lemma minus_seq_value s other :
  seq_ok s -> seq_ok other ->
  minus_seq s other =
    if (32 <=? w) && (m_value s =? m_value other + 2 ^ (w - 1)) then None
    else Some (swrap w (m_value s - m_value other)).
Proof.
  unfold seq_ok. destruct s as [x], other as [y]. simpl. intros Hx Hy.
  destruct seq_constants as (h & Hh & E1 & E2 & E3 & E4).
  unfold minus_seq. simpl. rewrite E1, E3, E4.
  destruct (Z.ltb_spec y x).
  - rewrite (wrap_diff (x - y) h), !(proj2 (Z.ltb_ge (x - y) 0)), (proj2 (Z.ltb_lt (x - y) (2 * h))) by lia.
    destruct (Z.ltb_spec (x - y) (h - 1)).
    + by rewrite (proj2 (Z.eqb_neq x (y + h))), andb_false_r by lia.
    + rewrite (negate_swrap _ h) by lia.
      replace (2 * h - 1 - x + 1 + y =? h) with (x =? y + h)
        by (destruct (Z.eqb_spec x (y + h)), (Z.eqb_spec (2 * h - 1 - x + 1 + y) h); lia).
      rewrite <- (swrap_period (- _)). by replace (- (2 * h - 1 - x + 1 + y) + 2 ^ w) with (x - y) by lia.
  - rewrite (wrap_diff (y - x) h), !(proj2 (Z.ltb_ge (y - x) 0)), (proj2 (Z.ltb_lt (y - x) (2 * h))) by lia.
    rewrite (proj2 (Z.eqb_neq x (y + h))), andb_false_r by lia.
    destruct (Z.ltb_spec (y - x) (h - 1)).
    + rewrite (negate_swrap _ h), (proj2 (Z.eqb_neq (y - x) h)), andb_false_r by lia. do 2 f_equal. lia.
    + rewrite <- (swrap_period (x - y)). do 2 f_equal. lia.
Qed.

(** The values of two numbers less than half the range apart. *)
Lemma wrap_near x y h : 2 ^ w = 2 * h -> - h < x - y < h ->
  exists a b, wrap w x = a /\ wrap w y = b /\ 0 <= a < 2 * h /\ 0 <= b < 2 * h /\
    (a - b = x - y \/ a - b = x - y + 2 * h \/ a - b = x - y - 2 * h).
Proof.
  intros E Hd. exists (wrap w x), (wrap w y). unfold wrap. rewrite E.
  assert (0 < 2 * h) as Hp by lia.
  pose proof (Z.mod_pos_bound x (2 * h) Hp). pose proof (Z.mod_pos_bound y (2 * h) Hp).
  pose proof (Z.div_mod x (2 * h) ltac:(lia)). pose proof (Z.div_mod y (2 * h) ltac:(lia)).
  split_and!; try lia. set (k := x / (2 * h) - y / (2 * h)).
  assert (x mod (2 * h) - y mod (2 * h) = x - y - 2 * h * k) as E2 by lia.
  assert (k = 0 \/ k = 1 \/ k = -1) as [-> | [-> | ->]] by nia; lia.
Qed.

Lemma gt_near x y : - 2 ^ (w - 1) < x - y < 2 ^ (w - 1) ->
  gt (mkSeq (wrap w x)) (mkSeq (wrap w y)) = (y <? x).
Proof.
  intros Hd. destruct seq_constants as (h & Hh & E1 & E2 & E3 & E4). rewrite E1 in Hd.
  destruct (wrap_near x y h E2 Hd) as (a & b & -> & -> & Ha & Hb & Hab). unfold gt. simpl. rewrite E4.
  destruct (Z.ltb_spec y x); repeat match goal with
  | |- context [?p <? ?q] => destruct (Z.ltb_spec p q)
  | |- context [?p <=? ?q] => destruct (Z.leb_spec p q) end; simpl; try done; lia.
Qed.

Lemma eq_near x y : - 2 ^ (w - 1) < x - y < 2 ^ (w - 1) ->
  eq (mkSeq (wrap w x)) (mkSeq (wrap w y)) = (x =? y).
Proof.
  intros Hd. destruct seq_constants as (h & Hh & E1 & E2 & E3 & E4). rewrite E1 in Hd.
  destruct (wrap_near x y h E2 Hd) as (a & b & -> & -> & Ha & Hb & Hab). unfold eq. simpl.
  destruct (Z.eqb_spec a b), (Z.eqb_spec x y); try done; lia.
Qed.

Lemma minus_near x y : - 2 ^ (w - 1) < x - y < 2 ^ (w - 1) ->
  minus_seq (mkSeq (wrap w x)) (mkSeq (wrap w y)) = Some (x - y).
Proof.
  intros Hd. destruct seq_constants as (h & Hh & E1 & E2 & E3 & E4).
  rewrite minus_seq_value by (apply wrap_range; lia). simpl. rewrite E1 in *.
  destruct (wrap_near x y h E2 Hd) as (a & b & -> & -> & Ha & Hb & Hab).
  rewrite (proj2 (Z.eqb_neq a (b + h))), andb_false_r by lia.
  f_equal. rewrite (swrap_diff _ h) by lia. case_ifs; lia.
Qed.

End Facts.
End Width.

(** The widths ns-3 uses. *)
Definition ns3_width (w : Z) : Prop := w = 8 \/ w = 16 \/ w = 32.

(** ** Properties *)

(** Subtraction of sequence numbers. For the three widths, [a - b] is the
    signed difference modulo the range, whichever branch computes it, except
    that at 32 bits the program negates the least [int32_t] (undefined
    behaviour, [None]) exactly when [a] is [b] plus half the range. *)
Theorem minus_seq_signed w a b :
  ns3_width w -> seq_ok w a -> seq_ok w b ->
  (minus_seq w a b = None <-> w = 32 /\ GetValue a = GetValue b + 2 ^ 31) /\
  (forall d, minus_seq w a b = Some d ->
     d = swrap w (GetValue a - GetValue b) /\ plus w b d = a /\ minus w a d = b).
Proof.
  intros Hw Ha Hb. assert (2 <= w) as H2 by (unfold ns3_width in Hw; lia).
  rewrite minus_seq_value by done. unfold GetValue. split.
  - destruct (32 <=? w) eqn:E; simpl; case_ifs; unfold ns3_width in Hw; split; try done; try lia.
    + intros _. assert (w = 32) as -> by lia. simpl in *. lia.
    + intros [-> ?]. simpl in *. lia.
  - intros d. case_ifs; intros [= <-]. split; [done |].
    destruct a as [x], b as [y]. unfold seq_ok in *. simpl in *.
    destruct (seq_constants w H2) as (h & Hh & E1 & E2 & _).
    unfold plus, minus, SequenceNumber_of. simpl. split; f_equal.
    + rewrite (swrap_diff w H2 _ h) by lia. rewrite (wrap_diff w _ h) by (case_ifs; lia). case_ifs; lia.
    + rewrite (swrap_diff w H2 _ h) by lia. rewrite (wrap_diff w _ h) by (case_ifs; lia). case_ifs; lia.
Qed.

Lemma minus_seq_signed_witness :
  (minus_seq 16 (mkSeq 3) (mkSeq 65534) = None <-> 16 = 32 /\ 3 = 65534 + 2 ^ 31) /\
  (forall d, minus_seq 16 (mkSeq 3) (mkSeq 65534) = Some d ->
     d = 5 /\ plus 16 (mkSeq 65534) d = mkSeq 3 /\ minus 16 (mkSeq 3) d = mkSeq 65534).
Proof. apply (minus_seq_signed 16 (mkSeq 3) (mkSeq 65534)); unfold ns3_width, seq_ok; simpl; lia. Defined.

(** The comparison operators of sequence numbers are consistent. Exactly
    one of [a < b], [a == b] and [a > b] holds; [<] is the converse of [>];
    [<=] and [>=] are what they are for a total order; [>] agrees with the sign
    of the difference unless the two numbers are half the range apart. *)
Theorem seq_comparisons w a b :
  ns3_width w -> seq_ok w a -> seq_ok w b ->
  (lt w a b = gt w b a) /\ (le w a b = ge w b a) /\ (ne a b = negb (eq a b)) /\
  (if eq a b then lt w a b = false /\ gt w a b = false else lt w a b = negb (gt w a b)) /\
  (forall d, minus_seq w a b = Some d -> d <> - 2 ^ (w - 1) ->
     gt w a b = (0 <? d) /\ lt w a b = (d <? 0) /\ eq a b = (d =? 0)).
Proof.
  intros Hw Ha Hb. assert (2 <= w) as H2 by (unfold ns3_width in Hw; lia).
  rewrite minus_seq_value by done. destruct a as [x], b as [y]. unfold seq_ok in *. simpl in *.
  destruct (seq_constants w H2) as (h & Hh & E1 & E2 & E3 & E4).
  unfold le, ge, lt, ne, eq, gt. simpl. rewrite E1, E4. split_and!.
  - destruct (Z.ltb_spec x y), (Z.ltb_spec y x), (Z.eqb_spec x y), (Z.leb_spec (x - y) (h - 1)),
      (Z.ltb_spec (h - 1) (y - x)), (Z.leb_spec (y - x) (h - 1)), (Z.ltb_spec (h - 1) (x - y)); simpl; lia.
  - destruct (Z.ltb_spec x y), (Z.ltb_spec y x), (Z.eqb_spec y x), (Z.leb_spec (x - y) (h - 1)),
      (Z.ltb_spec (h - 1) (y - x)), (Z.leb_spec (y - x) (h - 1)), (Z.ltb_spec (h - 1) (x - y)); simpl; lia.
  - done.
  - case_ifs; [| by rewrite andb_true_r]. subst. by rewrite Z.ltb_irrefl.
  - intros d. case_ifs; intros [= <-]. rewrite (swrap_diff w H2 _ h) by lia. intros Hd.
    destruct (Z.ltb_spec x y), (Z.ltb_spec y x), (Z.eqb_spec x y), (Z.leb_spec (x - y) (h - 1)),
      (Z.ltb_spec (h - 1) (y - x)), (Z.leb_spec h (x - y)), (Z.ltb_spec (x - y) (- h)); simpl in *; try lia.
    all: repeat match goal with
    | |- context [0 <? ?z] => destruct (Z.ltb_spec 0 z)
    | |- context [?z <? 0] => destruct (Z.ltb_spec z 0)
    | |- context [?z =? 0] => destruct (Z.eqb_spec z 0) end; try lia; auto.
Qed.

Lemma seq_comparisons_witness :
  (lt 32 (mkSeq 4294967290) (mkSeq 7) = gt 32 (mkSeq 7) (mkSeq 4294967290)) /\
  (le 32 (mkSeq 4294967290) (mkSeq 7) = ge 32 (mkSeq 7) (mkSeq 4294967290)) /\
  (ne (mkSeq 4294967290) (mkSeq 7) = negb (eq (mkSeq 4294967290) (mkSeq 7))) /\
  (if eq (mkSeq 4294967290) (mkSeq 7)
   then lt 32 (mkSeq 4294967290) (mkSeq 7) = false /\ gt 32 (mkSeq 4294967290) (mkSeq 7) = false
   else lt 32 (mkSeq 4294967290) (mkSeq 7) = negb (gt 32 (mkSeq 4294967290) (mkSeq 7))) /\
  (forall d, minus_seq 32 (mkSeq 4294967290) (mkSeq 7) = Some d -> d <> - 2 ^ 31 ->
     gt 32 (mkSeq 4294967290) (mkSeq 7) = (0 <? d) /\ lt 32 (mkSeq 4294967290) (mkSeq 7) = (d <? 0) /\
     eq (mkSeq 4294967290) (mkSeq 7) = (d =? 0)).
Proof. apply (seq_comparisons 32 (mkSeq 4294967290) (mkSeq 7)); unfold ns3_width, seq_ok; simpl; lia. Defined.

(** Inside a window of half the range the order is that of the offsets,
    across the wrap-around: for a start [s] and offsets [i], [j] of at most
    [halfMaxValue], [s + i > s + j] exactly when [i > j], and their difference
    is [i - j]. *)
Theorem window_order w s i j :
  ns3_width w -> seq_ok w s -> 0 <= i <= halfMaxValue w -> 0 <= j <= halfMaxValue w ->
  gt w (plus w s i) (plus w s j) = (j <? i) /\ minus_seq w (plus w s i) (plus w s j) = Some (i - j).
Proof.
  intros Hw Hs Hi Hj. assert (2 <= w) as H2 by (unfold ns3_width in Hw; lia).
  destruct (seq_constants w H2) as (h & Hh & E1 & E2 & E3 & E4). rewrite E4 in *.
  unfold plus, SequenceNumber_of. rewrite gt_near, minus_near by lia. split; [| f_equal; lia].
  destruct (Z.ltb_spec (m_value s + j) (m_value s + i)), (Z.ltb_spec j i); try done; lia.
Qed.

Lemma window_order_witness :
  gt 8 (plus 8 (mkSeq 250) 100) (plus 8 (mkSeq 250) 3) = true /\
  minus_seq 8 (plus 8 (mkSeq 250) 100) (plus 8 (mkSeq 250) 3) = Some 97.
Proof.
  apply (window_order 8 (mkSeq 250) 100 3); [left; done | unfold seq_ok; simpl; lia | |];
    (split; [lia | vm_compute; discriminate]).
Defined.

(** The order of sequence numbers is not transitive: three numbers a third
    of the range apart are each greater than the next, in a circle. *)
Theorem gt_not_transitive :
  let a := mkSeq 0 in let b := mkSeq 170 in let c := mkSeq 85 in
  gt 8 a b = true /\ gt 8 b c = true /\ gt 8 c a = true.
Proof. split_and!; reflexivity. Qed.

End SequenceNumber.
