(* ===== verification/Timer.v ===== *)
(** * Timers and watchdogs (src/core/model/timer.cc, timer.h, timer-impl.h,
      watchdog.cc)

    A [Timer] holds one event of the simulator, a policy and a suspended flag;
    a [Watchdog] holds one event and a deadline that pings push back. Both are
    clients of the simulator and their theorems are proved against its
    invariant, for every scheduler with a working [Remove]. *)

From S2P Require Import Prelude EventQueue ListScheduler Simulator SimulatorProps.
Import Simulator.

Module Timer.

(** ** Data *)

(** [Timer::DestroyPolicy] and the suspended bit *)
Definition CANCEL_ON_DESTROY : Z := Z.shiftl 1 3.
Definition REMOVE_ON_DESTROY : Z := Z.shiftl 1 4.
Definition CHECK_ON_DESTROY : Z := Z.shiftl 1 5.
Definition TIMER_SUSPENDED : Z := Z.shiftl 1 7.

Inductive State := RUNNING | EXPIRED | SUSPENDED.

(** [m_impl] is the address of the [TimerImpl], the bound callback. *)
Record Timer := mkTimer {
  m_flags : Z;
  m_delay : Z;
  m_event : EventId;
  m_impl : Z;
  m_delayLeft : Z
}.

Definition Timer_policy (destroyPolicy : Z) : Timer := mkTimer destroyPolicy 0 EventId_default nullptr 0.
Definition Timer_new : Timer := Timer_policy CHECK_ON_DESTROY.

Section Ops.
Context {S : Type} `{SchedulerOps S}.

(** ** EventId *)

Definition EventId_IsExpired (id : EventId) (s : Sim S) : bool := IsExpired id s.
Definition EventId_IsPending (id : EventId) (s : Sim S) : bool := negb (EventId_IsExpired id s).

(** [m_impl->Schedule(delay)]: a new [EventImpl], at address [ev], for the
    callback. *)
Definition TimerImpl_Schedule (impl this_thread delay ev : Z) (s : Sim S) : option (EventId * Sim S) :=
  if impl =? nullptr then None else Schedule this_thread delay ev s.

(** ** Operations *)

Definition SetFunction (impl : Z) (t : Timer) : Timer :=
  mkTimer (m_flags t) (m_delay t) (m_event t) impl (m_delayLeft t).
(** The arguments are kept in the [TimerImpl]; without one the call aborts. *)
Definition SetArguments (t : Timer) : option Timer := if m_impl t =? nullptr then None else Some t.
Definition SetDelay (time : Z) (t : Timer) : Timer :=
  mkTimer (m_flags t) time (m_event t) (m_impl t) (m_delayLeft t).
Definition GetDelay (t : Timer) : Z := m_delay t.
Definition set_event (id : EventId) (t : Timer) : Timer :=
  mkTimer (m_flags t) (m_delay t) id (m_impl t) (m_delayLeft t).
Definition set_flags (f : Z) (t : Timer) : Timer :=
  mkTimer f (m_delay t) (m_event t) (m_impl t) (m_delayLeft t).
Definition set_left (d : Z) (t : Timer) : Timer :=
  mkTimer (m_flags t) (m_delay t) (m_event t) (m_impl t) d.

(** [m_flags & bit] as a condition. *)
Definition has (bit : Z) (t : Timer) : bool := negb (Z.land (m_flags t) bit =? 0).

Definition IsSuspended (t : Timer) : bool := Z.land (m_flags t) TIMER_SUSPENDED =? TIMER_SUSPENDED.
Definition TimerIsExpired (t : Timer) (s : Sim S) : bool :=
  negb (IsSuspended t) && EventId_IsExpired (m_event t) s.
Definition IsRunning (t : Timer) (s : Sim S) : bool :=
  negb (IsSuspended t) && EventId_IsPending (m_event t) s.

Definition GetState (t : Timer) (s : Sim S) : option State :=
  if IsRunning t s then Some RUNNING
  else if TimerIsExpired t s then Some EXPIRED
  else assert* IsSuspended t in Some SUSPENDED.

Definition TimerGetDelayLeft (t : Timer) (s : Sim S) : option Z :=
  let* st := GetState t s in
  match st with
  | RUNNING => Some (GetDelayLeft (m_event t) s)
  | EXPIRED => Some 0
  | SUSPENDED => Some (m_delayLeft t)
  end.

Definition TimerCancel (t : Timer) (s : Sim S) : Sim S := Cancel (m_event t) s.
Definition TimerRemove (t : Timer) (s : Sim S) : option (Sim S) := Remove (m_event t) s.

(** [Schedule(delay)]; [NS_FATAL_ERROR] is an abort. *)
Definition TimerSchedule_delay (this_thread delay ev : Z) (t : Timer) (s : Sim S) : option (Timer * Sim S) :=
  assert* negb (m_impl t =? nullptr) in
  if EventId_IsPending (m_event t) s then None
  else
    let* (id, s) := TimerImpl_Schedule (m_impl t) this_thread delay ev s in
    Some (set_event id t, s).

Definition TimerSchedule (this_thread ev : Z) (t : Timer) (s : Sim S) : option (Timer * Sim S) :=
  TimerSchedule_delay this_thread (m_delay t) ev t s.

Definition Suspend (t : Timer) (s : Sim S) : option (Timer * Sim S) :=
  assert* IsRunning t s in
  let t1 := set_left (GetDelayLeft (m_event t) s) t in
  let* s1 :=
    if has CANCEL_ON_DESTROY t1 then Some (Cancel (m_event t1) s)
    else if has REMOVE_ON_DESTROY t1 then Remove (m_event t1) s
    else Some s in
  Some (set_flags (Z.lor (m_flags t1) TIMER_SUSPENDED) t1, s1).

Definition Resume (this_thread ev : Z) (t : Timer) (s : Sim S) : option (Timer * Sim S) :=
  assert* has TIMER_SUSPENDED t in
  let* (id, s) := TimerImpl_Schedule (m_impl t) this_thread (m_delayLeft t) ev s in
  let t1 := set_event id t in
  Some (set_flags (Z.land (m_flags t1) (Z.lnot TIMER_SUSPENDED)) t1, s).

(** The destructor; the state of the simulator after it. *)
Definition Timer_destroy (t : Timer) (s : Sim S) : option (Sim S) :=
  if has CHECK_ON_DESTROY t then
    if EventId_IsPending (m_event t) s then None else Some s
  else if has CANCEL_ON_DESTROY t then Some (Cancel (m_event t) s)
  else if has REMOVE_ON_DESTROY t then Remove (m_event t) s
  else Some s.

End Ops.

(** ** Lemmas *)

(** The policies under which [Suspend] and the destructor stop the event. *)
Definition stopping (p : Z) : Prop := p = CANCEL_ON_DESTROY \/ p = REMOVE_ON_DESTROY.

Section Facts.
Context {S : Type} `{SchedulerRemoveLaws S}.

(** The identifier a timer keeps: none, or one the simulator issued. *)
Definition event_ok (id : EventId) (s : Sim S) : Prop :=
  id = EventId_default \/ (issued s id /\ id_impl id <> nullptr).

Lemma event_ok_pending id s :
  event_ok id s -> IsExpired id s = false -> issued s id /\ id_impl id <> nullptr.
Proof. intros [->|Hid] Hx; [by vm_compute in Hx | done]. Qed.

(** Stopping a pending event, by [Cancel] or by [Remove], cancels it. *)
Lemma stop_event p id s :
  stopping p -> sim_inv s -> event_ok id s -> IsExpired id s = false ->
  exists s', (if negb (Z.land p CANCEL_ON_DESTROY =? 0) then Some (Cancel id s)
              else if negb (Z.land p REMOVE_ON_DESTROY =? 0) then Remove id s else Some s) = Some s' /\
    sim_inv s' /\ ext s s' /\ same_moment s s' /\ id_impl id ∈ m_cancelled s'.
Proof.
  intros Hp Hi Hid Hx. destruct (event_ok_pending id s Hid Hx) as [Hiss _].
  destruct Hp as [-> | ->]; simpl.
  - destruct (Cancel_ok id s Hi) as (? & ? & ?). exists (Cancel id s). split_and!; try done.
    unfold Cancel. rewrite Hx. simpl. set_solver.
  - destruct (Remove_ok id s Hi Hiss) as (s' & -> & ? & ? & ? & Hr). exists s'.
    split_and!; try done. by apply Hr.
Qed.

(** The handler of a cancelled event does not run. *)
Lemma cancelled_never_runs notify n th i s :
  handlers_ok notify -> sim_inv s -> m_eventsWithContextEmpty s = true -> i ∈ m_cancelled s ->
  exists tr fin s', Run notify n th s = Some (tr, fin, s') /\
    forall e b, (e, b) ∈ tr -> impl e = i -> b = false.
Proof.
  intros Hh Hi Hw Hc. destruct (Run_ok notify n th s Hh Hi Hw) as (tr & fin & s' & -> & _ & _ & _ & Htr & _).
  exists tr, fin, s'. split; [done |]. intros e b He <-. by apply (Htr e b He).
Qed.

(** The time left of a pending event. *)
Lemma GetDelayLeft_pending id (s : Sim S) :
  sim_inv s -> event_ok id s -> IsExpired id s = false ->
  GetDelayLeft id s = id_ts id - m_currentTs s /\ m_currentTs s <= id_ts id < 2 ^ 63.
Proof.
  intros Hi Hid Hx. destruct (event_ok_pending id s Hid Hx) as [Hiss _].
  pose proof (IsExpired_pending id s Hi Hiss Hx) as Hin. pose proof (si_time _ Hi).
  pose proof (si_after _ Hi _ Hin) as Ha. pose proof (si_key _ Hi _ Hin) as Hk.
  unfold after_current, ts_of, key_ok in *. simpl in *.
  unfold GetDelayLeft. rewrite Hx, u64_small, i64_small by lia. lia.
Qed.

Lemma running_state t (s : Sim S) :
  IsSuspended t = false -> IsExpired (m_event t) s = false ->
  GetState t s = Some RUNNING /\ TimerGetDelayLeft t s = Some (GetDelayLeft (m_event t) s).
Proof.
  intros Hs Hx. unfold TimerGetDelayLeft, GetState, IsRunning, EventId_IsPending, EventId_IsExpired.
  by rewrite Hs, Hx.
Qed.

Lemma suspended_state t (s : Sim S) :
  IsSuspended t = true -> GetState t s = Some SUSPENDED /\ TimerGetDelayLeft t s = Some (m_delayLeft t).
Proof.
  intros Hs. unfold TimerGetDelayLeft, GetState, IsRunning, TimerIsExpired. by rewrite Hs.
Qed.

End Facts.

(** The suspended bit on top of a policy. *)
Lemma flags_suspended p : stopping p ->
  let f := Z.lor p TIMER_SUSPENDED in
  Z.land p TIMER_SUSPENDED = 0 /\ Z.land f TIMER_SUSPENDED = TIMER_SUSPENDED /\
  Z.land f (Z.lnot TIMER_SUSPENDED) = p.
Proof. by intros [-> | ->]. Qed.

(** ** Properties *)

(** [Schedule] of a timer that is neither running nor suspended makes it
    RUNNING with the whole delay left and one more event, due at now + delay;
    scheduling it again while it runs aborts. *)
Theorem Timer_Schedule_runs {S} `{SchedulerRemoveLaws S} t (s : Sim S) delay ev :
  sim_inv s -> GetState t s = Some EXPIRED -> m_impl t <> nullptr ->
  0 <= delay -> m_currentTs s + delay < 2 ^ 63 -> room s -> ev <> nullptr -> ev ∉ m_cancelled s ->
  exists t' s', TimerSchedule_delay (m_mainThreadId s) delay ev t s = Some (t', s') /\ sim_inv s' /\
    event_ok (m_event t') s' /\ GetState t' s' = Some RUNNING /\ TimerGetDelayLeft t' s' = Some delay /\
    pending s' ≡ₚ event_of_id (m_event t') :: pending s /\ id_ts (m_event t') = m_currentTs s + delay /\
    forall th d ev', TimerSchedule_delay th d ev' t' s' = None.
Proof.
  intros Hi Hst Himpl Hd Ht Hr Hnull Hc.
  assert (IsSuspended t = false /\ IsExpired (m_event t) s = true) as [Hsusp Hx0].
  { unfold GetState, IsRunning, TimerIsExpired, EventId_IsPending, EventId_IsExpired, NS_ASSERT in Hst.
    by destruct (IsSuspended t), (IsExpired (m_event t) s). }
  destruct (Schedule_fresh delay ev s Hi Hd Ht Hr Hnull Hc) as (s' & Es & Hi' & _ & _ & Hp & Hid & _ & Hx & Hl).
  set (id := mkId ev (m_currentTs s + delay) (m_currentContext s) (m_nextUid s)) in *.
  destruct (running_state (set_event id t) s' Hsusp Hx) as [Hs' Hl'].
  unfold TimerSchedule_delay, TimerImpl_Schedule, EventId_IsPending, EventId_IsExpired.
  rewrite (proj2 (Z.eqb_neq _ _) Himpl), Hx0, Es. simpl.
  exists (set_event id t), s'. simpl in Hl'. rewrite Hl in Hl'. split_and!; try done.
  - by right.
  - intros th d ev'. simpl. rewrite Hx. unfold NS_ASSERT. by destruct (negb _).
Qed.

Definition demo_timer : Timer := SetFunction 50 (Timer_policy CANCEL_ON_DESTROY).
Definition demo_run (d : Z) (t : Timer) (s : Sim ListScheduler.t) : Timer * Sim ListScheduler.t :=
  match TimerSchedule_delay 7 d 200 t s with Some r => r | None => (t, s) end.

Lemma Timer_Schedule_runs_witness :
  exists t' s', TimerSchedule_delay 7 25 200 demo_timer demo_sim = Some (t', s') /\ sim_inv s' /\
    event_ok (m_event t') s' /\ GetState t' s' = Some RUNNING /\ TimerGetDelayLeft t' s' = Some 25 /\
    pending s' ≡ₚ event_of_id (m_event t') :: pending demo_sim /\ id_ts (m_event t') = 25 /\
    forall th d ev', TimerSchedule_delay th d ev' t' s' = None.
Proof.
  apply (Timer_Schedule_runs demo_timer demo_sim 25 200);
    [apply demo_sim_inv | done | done | lia | simpl; lia | by split; vm_compute | done |].
  apply (bool_decide_unpack _). vm_compute. exact I.
Defined.

(** Suspending and resuming a timer. Under the policies CANCEL_ON_DESTROY
    and REMOVE_ON_DESTROY, [Suspend] of a running timer succeeds, keeps the time
    left, and the event it had will never run its handler, whatever the
    handlers of the simulation do; [Resume] in any later state of the simulator
    makes the timer RUNNING again with that time left, due at now + left. *)
Theorem Timer_suspend_resume {S} `{SchedulerRemoveLaws S} t (s : Sim S) :
  stopping (m_flags t) -> sim_inv s -> event_ok (m_event t) s -> GetState t s = Some RUNNING ->
  m_eventsWithContextEmpty s = true -> m_impl t <> nullptr ->
  let left := GetDelayLeft (m_event t) s in
  exists t1 s1, Suspend t s = Some (t1, s1) /\ sim_inv s1 /\ GetState t1 s1 = Some SUSPENDED /\
    TimerGetDelayLeft t1 s1 = Some left /\
    (forall notify n th, handlers_ok notify -> exists tr fin s', Run notify n th s1 = Some (tr, fin, s') /\
       forall e b, (e, b) ∈ tr -> impl e = id_impl (m_event t) -> b = false) /\
    (forall s2 ev, sim_inv s2 -> m_currentTs s2 + left < 2 ^ 63 -> room s2 ->
       ev <> nullptr -> ev ∉ m_cancelled s2 ->
       exists t3 s3, Resume (m_mainThreadId s2) ev t1 s2 = Some (t3, s3) /\ sim_inv s3 /\
         m_flags t3 = m_flags t /\ GetState t3 s3 = Some RUNNING /\ TimerGetDelayLeft t3 s3 = Some left /\
         pending s3 ≡ₚ event_of_id (m_event t3) :: pending s2 /\
         id_ts (m_event t3) = m_currentTs s2 + left).
Proof.
  intros Hp Hi Hid Hst Hw Himpl left. destruct (flags_suspended _ Hp) as (Hf0 & Hf1 & Hf2).
  assert (IsSuspended t = false) as Hs0 by (unfold IsSuspended; by rewrite Hf0).
  assert (IsRunning t s = true /\ IsExpired (m_event t) s = false) as [Hrun Hx].
  { unfold GetState, TimerIsExpired, IsRunning, EventId_IsPending, EventId_IsExpired in *.
    rewrite Hs0 in *. by destruct (IsExpired (m_event t) s). }
  destruct (stop_event _ _ s Hp Hi Hid Hx) as (s1 & E1 & Hi1 & _ & (_ & _ & Hw1) & Hc1).
  set (t1 := set_flags (Z.lor (m_flags t) TIMER_SUSPENDED) (set_left left t)).
  assert (IsSuspended t1 = true) as Hs1 by (unfold IsSuspended; simpl; by rewrite Hf1).
  assert (Suspend t s = Some (t1, s1)) as Esus
    by (unfold Suspend, has; rewrite Hrun; simpl; by rewrite E1).
  exists t1, s1. destruct (suspended_state t1 s1 Hs1) as [Hst1 Hl1].
  split_and!; try done.
  - intros notify n th Hh. apply cancelled_never_runs; try done. congruence.
  - intros s2 ev Hi2 Ht2 Hr2 Hnull Hc2.
    assert (0 <= left) as Hl0 by (destruct (GetDelayLeft_pending _ s Hi Hid Hx); lia).
    destruct (Schedule_fresh left ev s2 Hi2 Hl0 Ht2 Hr2 Hnull Hc2)
      as (s3 & Es & Hi3 & _ & _ & Hp3 & Hid3 & _ & Hx3 & Hl3).
    unfold Resume, TimerImpl_Schedule, has. simpl. rewrite Hf1, (proj2 (Z.eqb_neq _ _) Himpl), Es, Hf2. simpl.
    eexists _, s3. split; [done |].
    match goal with |- context [set_flags ?f ?x] => destruct (running_state (set_flags f x) s3) as [-> ->] end;
      [done | done |].
    simpl. by rewrite Hl3.
Qed.

Definition demo_running : Timer * Sim ListScheduler.t := Eval vm_compute in demo_run 25 demo_timer demo_sim.

Lemma demo_running_ok : sim_inv demo_running.2 /\ event_ok (m_event demo_running.1) demo_running.2.
Proof.
  destruct (Schedule_fresh 25 200 demo_sim) as (s' & Es & Hi' & _ & _ & _ & Hid & _);
    [apply demo_sim_inv | lia | simpl; lia | by split; vm_compute | done | |].
  { apply (bool_decide_unpack _). vm_compute. exact I. }
  change (m_mainThreadId demo_sim) with 7 in Es.
  assert (Schedule 7 25 200 demo_sim = Some (m_event demo_running.1, demo_running.2)) as E
    by (vm_compute; reflexivity).
  rewrite E in Es. injection Es as E2. subst s'. split; [exact Hi' |]. right.
  split; [exact Hid | discriminate].
Qed.

Lemma Timer_suspend_resume_witness :
  exists t1 s1, Suspend demo_running.1 demo_running.2 = Some (t1, s1) /\ sim_inv s1 /\
    GetState t1 s1 = Some SUSPENDED /\ TimerGetDelayLeft t1 s1 = Some 25.
Proof.
  pose proof (Timer_suspend_resume demo_running.1 demo_running.2) as T. cbv zeta in T.
  destruct T as (t1 & s1 & E & Hi & Hs & Hl & _).
  - left. reflexivity.
  - apply demo_running_ok.
  - apply demo_running_ok.
  - vm_compute. reflexivity.
  - reflexivity.
  - discriminate.
  - exists t1, s1. split; [exact E |]. split; [exact Hi |]. split; [exact Hs |]. exact Hl.
Defined.

(** The destructor. A timer destroyed under CANCEL_ON_DESTROY or
    REMOVE_ON_DESTROY while its event is pending leaves a simulation in which
    that handler never runs; under CHECK_ON_DESTROY the program aborts exactly
    when the event is pending. *)
Theorem Timer_destroy_policies {S} `{SchedulerRemoveLaws S} t (s : Sim S) :
  sim_inv s -> event_ok (m_event t) s -> m_eventsWithContextEmpty s = true ->
  (m_flags t = CHECK_ON_DESTROY ->
     Timer_destroy t s = if EventId_IsPending (m_event t) s then None else Some s) /\
  (stopping (m_flags t) -> EventId_IsPending (m_event t) s = true ->
     exists s1, Timer_destroy t s = Some s1 /\ sim_inv s1 /\
       forall notify n th, handlers_ok notify -> exists tr fin s', Run notify n th s1 = Some (tr, fin, s') /\
         forall e b, (e, b) ∈ tr -> impl e = id_impl (m_event t) -> b = false).
Proof.
  intros Hi Hid Hw. split.
  - intros Hf. unfold Timer_destroy, has. by rewrite Hf.
  - intros Hp Hx. apply negb_true_iff in Hx.
    destruct (stop_event _ _ s Hp Hi Hid Hx) as (s1 & E1 & Hi1 & _ & (_ & _ & Hw1) & Hc1).
    exists s1. split_and!; [| done |].
    + rewrite <- E1. unfold Timer_destroy, has. by destruct Hp as [-> | ->].
    + intros notify n th Hh. apply cancelled_never_runs; try done. congruence.
Qed.

Lemma Timer_destroy_policies_witness :
  (m_flags demo_running.1 = CHECK_ON_DESTROY ->
     Timer_destroy demo_running.1 demo_running.2 =
       if EventId_IsPending (m_event demo_running.1) demo_running.2 then None else Some demo_running.2) /\
  (stopping (m_flags demo_running.1) -> EventId_IsPending (m_event demo_running.1) demo_running.2 = true ->
     exists s1, Timer_destroy demo_running.1 demo_running.2 = Some s1 /\ sim_inv s1 /\
       forall notify n th, handlers_ok notify -> exists tr fin s', Run notify n th s1 = Some (tr, fin, s') /\
         forall e b, (e, b) ∈ tr -> impl e = 200 -> b = false).
Proof.
  apply (Timer_destroy_policies demo_running.1 demo_running.2);
    [apply demo_running_ok | apply demo_running_ok | reflexivity].
Defined.

(** A timer of the default policy that runs for 10 steps, suspended at once,
    and what happens when the simulation goes on. *)
Definition default_timer : Timer := SetFunction 50 Timer_new.
Definition idle (i : Z) (s : Sim ListScheduler.t) : option (Sim ListScheduler.t) := Some s.
Definition suspend_and_run : option (State * list (Event * bool) * nat) :=
  let* (t, s) := TimerSchedule_delay 7 10 200 default_timer (DefaultSimulatorImpl_new 7) in
  let* (t, s) := Suspend t s in
  let* st := GetState t s in
  let* (tr, fin, s') := Run idle 10 7 s in
  let* (t2, s2) := Resume 7 201 t s in
  Some (st, tr, length (m_events s2)).

(** Under the default policy CHECK_ON_DESTROY, [Suspend] does not pause the
    timer: the timer reports SUSPENDED while its event stays scheduled and runs
    its handler on time, and [Resume] before that schedules a second event, so
    that the callback is due twice. *)
Theorem Suspend_default_still_fires :
  suspend_and_run = Some (SUSPENDED, [(mkEvent 200 (mkKey 10 4 NO_CONTEXT), true)], 2%nat).
Proof. vm_compute. reflexivity. Qed.

End Timer.

(** ** Watchdog *)

Module Watchdog.
Import Timer.

Record Watchdog := mkWatchdog { wd_impl : Z; wd_event : EventId; wd_end : Z }.

Definition Watchdog_new : Watchdog := mkWatchdog nullptr EventId_default 0.
Definition WatchdogSetFunction (impl : Z) (w : Watchdog) : Watchdog := mkWatchdog impl (wd_event w) (wd_end w).

Definition WatchdogSetArguments (w : Watchdog) : option Watchdog :=
  if wd_impl w =? nullptr then None else Some w.

Section Ops.
Context {S : Type} `{SchedulerOps S}.

(** [Ping(delay)]; [ev] is the address of the new [EventImpl] for [Expire]. *)
Definition Ping (this_thread delay ev : Z) (w : Watchdog) (s : Sim S) : option (Watchdog * Sim S) :=
  let end_ := i64 (Now s + delay) in
  let w1 := mkWatchdog (wd_impl w) (wd_event w) (Z.max (wd_end w) end_) in
  if EventId_IsPending (wd_event w1) s then Some (w1, s)
  else
    let* (id, s) := Schedule this_thread (i64 (wd_end w1 - Now s)) ev s in
    Some (mkWatchdog (wd_impl w1) id (wd_end w1), s).

(** [Expire]; the boolean tells whether the user's function is invoked. *)
Definition Expire (this_thread ev : Z) (w : Watchdog) (s : Sim S) : option (bool * Watchdog * Sim S) :=
  if wd_end w =? Now s then
    if wd_impl w =? nullptr then None else Some (true, w, s)
  else
    let* (id, s) := Schedule this_thread (i64 (wd_end w - Now s)) ev s in
    Some (false, mkWatchdog (wd_impl w) id (wd_end w), s).

(** The destructor *)
Definition Watchdog_destroy (w : Watchdog) (s : Sim S) : Sim S := Cancel (wd_event w) s.

End Ops.

Section Facts.
Context {S : Type} `{SchedulerRemoveLaws S}.

(** The event of a watchdog is due no later than its deadline. *)
Record wd_inv (w : Watchdog) (s : Sim S) : Prop := mkWd {
  wd_id : event_ok (wd_event w) s;
  wd_range : 0 <= wd_end w < 2 ^ 63;
  wd_due : id_ts (wd_event w) <= wd_end w
}.

(** Scheduling [Expire] at the deadline. *)
Lemma arm_ok impl end_ ev (s : Sim S) :
  sim_inv s -> m_currentTs s <= end_ < 2 ^ 63 -> room s -> ev <> nullptr -> ev ∉ m_cancelled s ->
  exists id s', Schedule (m_mainThreadId s) (i64 (end_ - Now s)) ev s = Some (id, s') /\ sim_inv s' /\
    wd_inv (mkWatchdog impl id end_) s' /\ EventId_IsPending id s' = true /\ id_ts id = end_ /\
    pending s' ≡ₚ event_of_id id :: pending s.
Proof.
  intros Hi He Hr Hnull Hc. pose proof (si_time _ Hi). unfold Now.
  rewrite (i64_small (m_currentTs s)), i64_small by lia.
  destruct (Schedule_fresh (end_ - m_currentTs s) ev s Hi) as (s' & -> & Hi' & _ & _ & Hp & Hid & _ & Hx & _);
    [lia | lia | done | done | done |].
  set (id := mkId ev (m_currentTs s + (end_ - m_currentTs s)) (m_currentContext s) (m_nextUid s)) in *.
  exists id, s'. split_and!; try done.
  - split; [by right | simpl; lia | simpl; lia].
  - unfold EventId_IsPending, EventId_IsExpired. by rewrite Hx.
  - simpl. lia.
Qed.

End Facts.

(** [Ping] never aborts while the deadline fits the clock; it moves the
    deadline to the later of the old one and now + delay, keeps the invariant
    (the event is due no later than the deadline) and leaves an event pending,
    adding one only when there was none. *)
Theorem Ping_extends {S} `{SchedulerRemoveLaws S} w (s : Sim S) delay ev :
  sim_inv s -> wd_inv w s -> 0 <= delay -> m_currentTs s + delay < 2 ^ 63 ->
  room s -> ev <> nullptr -> ev ∉ m_cancelled s ->
  exists w' s', Ping (m_mainThreadId s) delay ev w s = Some (w', s') /\ sim_inv s' /\ wd_inv w' s' /\
    wd_end w' = Z.max (wd_end w) (m_currentTs s + delay) /\ EventId_IsPending (wd_event w') s' = true /\
    (if EventId_IsPending (wd_event w) s then s' = s
     else pending s' ≡ₚ event_of_id (wd_event w') :: pending s /\ id_ts (wd_event w') = wd_end w').
Proof.
  intros Hi [Hid Hrg Hdue] Hd Ht Hr Hnull Hc. pose proof (si_time _ Hi).
  unfold Ping. replace (i64 (Now s + delay)) with (m_currentTs s + delay)
    by (unfold Now; rewrite (i64_small (m_currentTs s)), i64_small by lia; done).
  cbn [wd_event wd_end wd_impl]. set (e := Z.max (wd_end w) (m_currentTs s + delay)).
  destruct (EventId_IsPending (wd_event w) s) eqn:Hp.
  - eexists _, s. split; [done |]. split_and!; try done. split; simpl; [done | lia | lia].
  - destruct (arm_ok (wd_impl w) e ev s Hi) as (id & s' & -> & Hi' & Hw' & Hpd & Hts & Hperm);
      [lia | done | done | done |].
    eexists _, s'. by split.
Qed.

Definition demo_dog : Watchdog := WatchdogSetFunction 50 Watchdog_new.

Lemma demo_dog_inv : wd_inv demo_dog demo_sim.
Proof. split; [by left | simpl; lia | simpl; lia]. Qed.

Lemma Ping_extends_witness :
  exists w' s', Ping 7 40 300 demo_dog demo_sim = Some (w', s') /\ sim_inv s' /\ wd_inv w' s' /\
    wd_end w' = 40 /\ EventId_IsPending (wd_event w') s' = true /\
    (if EventId_IsPending (wd_event demo_dog) demo_sim then s' = demo_sim
     else pending s' ≡ₚ event_of_id (wd_event w') :: pending demo_sim /\ id_ts (wd_event w') = wd_end w').
Proof.
  apply (Ping_extends demo_dog demo_sim 40 300);
    [apply demo_sim_inv | apply demo_dog_inv | lia | simpl; lia | by split; vm_compute | done |].
  apply (bool_decide_unpack _). vm_compute. exact I.
Defined.

(** [Expire], run when the event of the watchdog is dispatched, invokes the
    function exactly when the deadline is reached; otherwise the deadline lies
    ahead, it does not abort and schedules itself at the deadline. *)
Theorem Expire_at_deadline {S} `{SchedulerRemoveLaws S} w (s : Sim S) ev :
  sim_inv s -> wd_inv w s -> m_currentTs s = id_ts (wd_event w) -> wd_impl w <> nullptr ->
  room s -> ev <> nullptr -> ev ∉ m_cancelled s ->
  exists fired w' s', Expire (m_mainThreadId s) ev w s = Some (fired, w', s') /\ sim_inv s' /\ wd_inv w' s' /\
    wd_end w' = wd_end w /\ (fired = true <-> m_currentTs s = wd_end w) /\
    (fired = false -> EventId_IsPending (wd_event w') s' = true /\ id_ts (wd_event w') = wd_end w /\
       m_currentTs s < wd_end w).
Proof.
  intros Hi Hw Hnow Himpl Hr Hnull Hc. pose proof (si_time _ Hi). pose proof Hw as [Hid Hrg Hdue].
  unfold Expire. replace (wd_end w =? Now s) with (wd_end w =? m_currentTs s)
    by (unfold Now; by rewrite i64_small by lia).
  destruct (Z.eqb_spec (wd_end w) (m_currentTs s)) as [E|E].
  - rewrite (proj2 (Z.eqb_neq _ _) Himpl). exists true, w, s. by split_and!.
  - destruct (arm_ok (wd_impl w) (wd_end w) ev s Hi) as (id & s' & -> & Hi' & Hw' & Hpd & Hts & _);
      [lia | done | done | done |].
    eexists false, _, s'. split; [done |]. split_and!; try done. intros _. simpl. split_and!; [done | done | lia].
Qed.

(** The event that [Ping(40)] at time 0 scheduled has just been dispatched. *)
Definition dog_run : option (Watchdog * Sim ListScheduler.t) :=
  let* (w, s) := Ping 7 40 300 demo_dog (DefaultSimulatorImpl_new 7) in
  let* (w, s) := Ping 7 60 301 w s in
  let* r := dispatch s in Some (w, r.2).
Definition dog_state : Watchdog * Sim ListScheduler.t := Eval vm_compute in
  match dog_run with Some r => r | None => (demo_dog, DefaultSimulatorImpl_new 7) end.

Lemma dog_state_ok : sim_inv dog_state.2 /\ wd_inv dog_state.1 dog_state.2.
Proof.
  split.
  - split; try (intros e He; vm_compute in He; by apply elem_of_nil in He); try by vm_compute.
    all: vm_compute; repeat constructor.
  - split; [right; split; [split; [by vm_compute | right; left] | done] | by vm_compute | by vm_compute].
    unfold after_current. vm_compute. intros [?|[? ?]]; done.
Qed.

Lemma Expire_at_deadline_witness :
  exists fired w' s', Expire 7 302 dog_state.1 dog_state.2 = Some (fired, w', s') /\ sim_inv s' /\
    wd_inv w' s' /\ wd_end w' = 60 /\ (fired = true <-> 40 = 60) /\
    (fired = false -> EventId_IsPending (wd_event w') s' = true /\ id_ts (wd_event w') = 60 /\ 40 < 60).
Proof.
  apply (Expire_at_deadline dog_state.1 dog_state.2 302);
    [apply dog_state_ok | apply dog_state_ok | reflexivity | done | by split; vm_compute | done |].
  apply (bool_decide_unpack _). vm_compute. exact I.
Defined.

End Watchdog.
