(* ===== verification/Bits.v ===== *)
(** * Bits: checksums of frames, bit fields

    [Crc32] models crc32.cc and the frame check sequence of ethernet-trailer.cc;
    [BitFields] models bit-serializer.cc and bit-deserializer.cc. *)

From S2P Require Import Prelude.

Module Crc32.

(** ** The code *)

Definition crc32table : list Z := [
  0x00000000; 0x77073096; 0xEE0E612C; 0x990951BA; 0x076DC419; 0x706AF48F; 0xE963A535; 0x9E6495A3;
  0x0EDB8832; 0x79DCB8A4; 0xE0D5E91E; 0x97D2D988; 0x09B64C2B; 0x7EB17CBD; 0xE7B82D07; 0x90BF1D91;
  0x1DB71064; 0x6AB020F2; 0xF3B97148; 0x84BE41DE; 0x1ADAD47D; 0x6DDDE4EB; 0xF4D4B551; 0x83D385C7;
  0x136C9856; 0x646BA8C0; 0xFD62F97A; 0x8A65C9EC; 0x14015C4F; 0x63066CD9; 0xFA0F3D63; 0x8D080DF5;
  0x3B6E20C8; 0x4C69105E; 0xD56041E4; 0xA2677172; 0x3C03E4D1; 0x4B04D447; 0xD20D85FD; 0xA50AB56B;
  0x35B5A8FA; 0x42B2986C; 0xDBBBC9D6; 0xACBCF940; 0x32D86CE3; 0x45DF5C75; 0xDCD60DCF; 0xABD13D59;
  0x26D930AC; 0x51DE003A; 0xC8D75180; 0xBFD06116; 0x21B4F4B5; 0x56B3C423; 0xCFBA9599; 0xB8BDA50F;
  0x2802B89E; 0x5F058808; 0xC60CD9B2; 0xB10BE924; 0x2F6F7C87; 0x58684C11; 0xC1611DAB; 0xB6662D3D;
  0x76DC4190; 0x01DB7106; 0x98D220BC; 0xEFD5102A; 0x71B18589; 0x06B6B51F; 0x9FBFE4A5; 0xE8B8D433;
  0x7807C9A2; 0x0F00F934; 0x9609A88E; 0xE10E9818; 0x7F6A0DBB; 0x086D3D2D; 0x91646C97; 0xE6635C01;
  0x6B6B51F4; 0x1C6C6162; 0x856530D8; 0xF262004E; 0x6C0695ED; 0x1B01A57B; 0x8208F4C1; 0xF50FC457;
  0x65B0D9C6; 0x12B7E950; 0x8BBEB8EA; 0xFCB9887C; 0x62DD1DDF; 0x15DA2D49; 0x8CD37CF3; 0xFBD44C65;
  0x4DB26158; 0x3AB551CE; 0xA3BC0074; 0xD4BB30E2; 0x4ADFA541; 0x3DD895D7; 0xA4D1C46D; 0xD3D6F4FB;
  0x4369E96A; 0x346ED9FC; 0xAD678846; 0xDA60B8D0; 0x44042D73; 0x33031DE5; 0xAA0A4C5F; 0xDD0D7CC9;
  0x5005713C; 0x270241AA; 0xBE0B1010; 0xC90C2086; 0x5768B525; 0x206F85B3; 0xB966D409; 0xCE61E49F;
  0x5EDEF90E; 0x29D9C998; 0xB0D09822; 0xC7D7A8B4; 0x59B33D17; 0x2EB40D81; 0xB7BD5C3B; 0xC0BA6CAD;
  0xEDB88320; 0x9ABFB3B6; 0x03B6E20C; 0x74B1D29A; 0xEAD54739; 0x9DD277AF; 0x04DB2615; 0x73DC1683;
  0xE3630B12; 0x94643B84; 0x0D6D6A3E; 0x7A6A5AA8; 0xE40ECF0B; 0x9309FF9D; 0x0A00AE27; 0x7D079EB1;
  0xF00F9344; 0x8708A3D2; 0x1E01F268; 0x6906C2FE; 0xF762575D; 0x806567CB; 0x196C3671; 0x6E6B06E7;
  0xFED41B76; 0x89D32BE0; 0x10DA7A5A; 0x67DD4ACC; 0xF9B9DF6F; 0x8EBEEFF9; 0x17B7BE43; 0x60B08ED5;
  0xD6D6A3E8; 0xA1D1937E; 0x38D8C2C4; 0x4FDFF252; 0xD1BB67F1; 0xA6BC5767; 0x3FB506DD; 0x48B2364B;
  0xD80D2BDA; 0xAF0A1B4C; 0x36034AF6; 0x41047A60; 0xDF60EFC3; 0xA867DF55; 0x316E8EEF; 0x4669BE79;
  0xCB61B38C; 0xBC66831A; 0x256FD2A0; 0x5268E236; 0xCC0C7795; 0xBB0B4703; 0x220216B9; 0x5505262F;
  0xC5BA3BBE; 0xB2BD0B28; 0x2BB45A92; 0x5CB36A04; 0xC2D7FFA7; 0xB5D0CF31; 0x2CD99E8B; 0x5BDEAE1D;
  0x9B64C2B0; 0xEC63F226; 0x756AA39C; 0x026D930A; 0x9C0906A9; 0xEB0E363F; 0x72076785; 0x05005713;
  0x95BF4A82; 0xE2B87A14; 0x7BB12BAE; 0x0CB61B38; 0x92D28E9B; 0xE5D5BE0D; 0x7CDCEFB7; 0x0BDBDF21;
  0x86D3D2D4; 0xF1D4E242; 0x68DDB3F8; 0x1FDA836E; 0x81BE16CD; 0xF6B9265B; 0x6FB077E1; 0x18B74777;
  0x88085AE6; 0xFF0F6A70; 0x66063BCA; 0x11010B5C; 0x8F659EFF; 0xF862AE69; 0x616BFFD3; 0x166CCF45;
  0xA00AE278; 0xD70DD2EE; 0x4E048354; 0x3903B3C2; 0xA7672661; 0xD06016F7; 0x4969474D; 0x3E6E77DB;
  0xAED16A4A; 0xD9D65ADC; 0x40DF0B66; 0x37D83BF0; 0xA9BCAE53; 0xDEBB9EC5; 0x47B2CF7F; 0x30B5FFE9;
  0xBDBDF21C; 0xCABAC28A; 0x53B39330; 0x24B4A3A6; 0xBAD03605; 0xCDD70693; 0x54DE5729; 0x23D967BF;
  0xB3667A2E; 0xC4614AB8; 0x5D681B02; 0x2A6F2B94; 0xB40BBE37; 0xC30C8EA1; 0x5A05DF1B; 0x2D02EF8D
].
(** The index is a byte, the table has 256 entries. *)
Definition crc_step (crc d : Z) : Z := Z.lxor (Z.shiftr crc 8) (nth (Z.to_nat (Z.lxor (Z.land crc 0xFF) d)) crc32table 0).
Definition CRC32Calculate (data : list Z) : Z := u32 (Z.lnot (foldl crc_step 0xffffffff data)).

Record EthernetTrailer := mkTrailer { m_calcFcs : bool; m_fcs : Z }.
Definition EthernetTrailer_new : EthernetTrailer := mkTrailer false 0.
Definition EnableFcs (enable : bool) (t : EthernetTrailer) : EthernetTrailer := mkTrailer enable (m_fcs t).
Definition SetFcs (fcs : Z) (t : EthernetTrailer) : EthernetTrailer := mkTrailer (m_calcFcs t) fcs.
Definition CheckFcs (p : list Z) (t : EthernetTrailer) : bool := if negb (m_calcFcs t) then true else m_fcs t =? CRC32Calculate p.
Definition CalcFcs (p : list Z) (t : EthernetTrailer) : EthernetTrailer := if negb (m_calcFcs t) then t else SetFcs (CRC32Calculate p) t.

(** ** The shift register of the polynomial *)

Definition POLYNOMIAL : Z := 0xEDB88320.
Definition crc_bit (c : Z) : Z := if Z.odd c then Z.lxor (Z.shiftr c 1) POLYNOMIAL else Z.shiftr c 1.
Definition crc_bits (n : nat) (c : Z) : Z := Nat.iter n crc_bit c.
Definition register (data : list Z) : Z := u32 (Z.lnot (foldl (fun c d => crc_bits 8 (Z.lxor c d)) 0xffffffff data)).

Lemma odd_lxor a b : Z.odd (Z.lxor a b) = xorb (Z.odd a) (Z.odd b).
Proof. by rewrite <- !Z.bit0_odd, Z.lxor_spec. Qed.
(** The register is linear. *)
Lemma crc_bit_lxor a b : crc_bit (Z.lxor a b) = Z.lxor (crc_bit a) (crc_bit b).
Proof.
  unfold crc_bit. rewrite odd_lxor, Z.shiftr_lxor. destruct (Z.odd a), (Z.odd b); cbn [xorb]; [|by rewrite !Z.lxor_assoc, (Z.lxor_comm POLYNOMIAL)|by rewrite Z.lxor_assoc|done].
  rewrite Z.lxor_assoc, <- (Z.lxor_assoc POLYNOMIAL), (Z.lxor_comm POLYNOMIAL), Z.lxor_assoc, Z.lxor_nilpotent, Z.lxor_0_r. done.
Qed.
Lemma crc_bits_S n c : crc_bits (S n) c = crc_bit (crc_bits n c).
Proof. done. Qed.
Lemma crc_bits_lxor n a b : crc_bits n (Z.lxor a b) = Z.lxor (crc_bits n a) (crc_bits n b).
Proof. induction n as [|n IH]; [done|]. by rewrite !crc_bits_S, IH, crc_bit_lxor. Qed.
(** Low zeroes are shifted out. *)
Lemma crc_bits_shiftl n k a : 0 <= k -> crc_bits n (Z.shiftl a (k + Z.of_nat n)) = Z.shiftl a k.
Proof.
  intros Hk. revert k Hk. induction n as [|n IH]; intros k Hk; [by rewrite Z.add_0_r|]. replace (k + Z.of_nat (S n)) with (k + 1 + Z.of_nat n) by lia.
  rewrite crc_bits_S, IH by lia. unfold crc_bit. rewrite <- Z.bit0_odd, Z.shiftl_spec_low by lia. rewrite Z.shiftr_shiftl_l by lia. f_equal. lia.
Qed.
Lemma crc_bits_add m n c : crc_bits (m + n) c = crc_bits m (crc_bits n c).
Proof. apply Nat.iter_add. Qed.

(** On 32 bits the register loses nothing: the top bit says what was shifted out. *)
Lemma crc_bit_range c : 0 <= c < 2 ^ 32 -> 0 <= crc_bit c < 2 ^ 32.
Proof.
  intros Hc. assert (0 <= Z.shiftr c 1 < 2 ^ 31) as Hs by (rewrite Z.shiftr_div_pow2 by lia; split; [apply Z.div_pos; lia|apply Z.div_lt_upper_bound; lia]).
  unfold crc_bit. destruct (Z.odd c); [|lia]. split; [apply Z.lxor_nonneg; unfold POLYNOMIAL; lia|].
  destruct (Z.eq_dec (Z.lxor (Z.shiftr c 1) POLYNOMIAL) 0) as [->|Hn]; [lia|]. apply Z.log2_lt_pow2; [apply Z.le_neq; split; [apply Z.lxor_nonneg; unfold POLYNOMIAL; lia|auto]|].
  eapply Z.le_lt_trans; [apply Z.log2_lxor; unfold POLYNOMIAL; lia|]. apply Z.max_lub_lt; [|reflexivity]. destruct (Z.eq_dec (Z.shiftr c 1) 0) as [->|]; [reflexivity|]. apply Z.log2_lt_pow2; lia.
Qed.
Lemma crc_bit_top c : 0 <= c < 2 ^ 32 -> Z.testbit (crc_bit c) 31 = Z.odd c.
Proof.
  intros Hc. assert (Z.testbit (Z.shiftr c 1) 31 = false) as Hs by (rewrite Z.shiftr_spec by lia; apply Z.testbit_false; [lia|]; rewrite Z.div_small by lia; done).
  unfold crc_bit. destruct (Z.odd c); [|done]. rewrite Z.lxor_spec, Hs. reflexivity.
Qed.
Lemma crc_bit_inj a b : 0 <= a < 2 ^ 32 -> 0 <= b < 2 ^ 32 -> crc_bit a = crc_bit b -> a = b.
Proof.
  intros Ha Hb E. assert (Z.odd a = Z.odd b) as Eo by (rewrite <- !crc_bit_top by done; by rewrite E).
  assert (Z.shiftr a 1 = Z.shiftr b 1) as Es.
  { unfold crc_bit in E. rewrite Eo in E. destruct (Z.odd b); [|done]. apply (f_equal (fun x => Z.lxor x POLYNOMIAL)) in E. by rewrite !Z.lxor_assoc, Z.lxor_nilpotent, !Z.lxor_0_r in E. }
  rewrite <- !Z.div2_spec in Es. rewrite (Z.div2_odd a), (Z.div2_odd b). by rewrite Es, Eo.
Qed.
Lemma crc_bits_range n c : 0 <= c < 2 ^ 32 -> 0 <= crc_bits n c < 2 ^ 32.
Proof. intros Hc. induction n as [|n IH]; [done|]. by apply crc_bit_range. Qed.
Lemma crc_bits_inj n a b : 0 <= a < 2 ^ 32 -> 0 <= b < 2 ^ 32 -> crc_bits n a = crc_bits n b -> a = b.
Proof. intros Ha Hb. induction n as [|n IH]; [done|]. intros E. apply IH, crc_bit_inj; [by apply crc_bits_range..|done]. Qed.

(** ** The table *)

Lemma table_ok : forallb (fun i => nth i crc32table 0 =? crc_bits 8 (Z.of_nat i)) (seq 0 256) = true.
Proof. vm_compute. reflexivity. Qed.
Lemma table_entry i : 0 <= i < 256 -> nth (Z.to_nat i) crc32table 0 = crc_bits 8 i.
Proof.
  intros Hi. pose proof table_ok as Ht. rewrite forallb_forall in Ht. specialize (Ht (Z.to_nat i)). rewrite Z.eqb_eq, Z2Nat.id in Ht by lia. apply Ht, in_seq. lia.
Qed.
Lemma low_byte_range c d : 0 <= d < 256 -> 0 <= Z.lxor (Z.land c 0xFF) d < 256.
Proof.
  intros Hd. replace (Z.land c 0xFF) with (c mod 2 ^ 8) by (symmetry; apply (Z.land_ones c 8); lia). rewrite <- (Z.mod_small d (2 ^ 8)) by (cbn; lia).
  assert (Z.lxor (c mod 2 ^ 8) (d mod 2 ^ 8) = Z.lxor c d mod 2 ^ 8) as ->; [|apply Z.mod_pos_bound; lia].
  apply Z.bits_inj'. intros k Hk. rewrite Z.lxor_spec. destruct (Z.ltb_spec k 8); [rewrite !Z.mod_pow2_bits_low, Z.lxor_spec by lia|rewrite !Z.mod_pow2_bits_high by lia]; done.
Qed.
Lemma split_byte c : c = Z.lxor (Z.shiftl (Z.shiftr c 8) 8) (Z.land c 0xFF).
Proof.
  apply Z.bits_inj'. intros k Hk. change 0xFF with (Z.ones 8). rewrite Z.lxor_spec, Z.land_spec. destruct (Z.ltb_spec k 8).
  - rewrite Z.shiftl_spec_low, Z.ones_spec_low by lia. by rewrite andb_true_r, xorb_false_l.
  - rewrite Z.shiftl_spec_high, Z.shiftr_spec, Z.ones_spec_high by lia. rewrite andb_false_r, xorb_false_r. f_equal. lia.
Qed.
Lemma crc_step_register c d : 0 <= d < 256 -> crc_step c d = crc_bits 8 (Z.lxor c d).
Proof.
  intros Hd. unfold crc_step. rewrite table_entry by (by apply low_byte_range).
  assert (crc_bits 8 (Z.shiftl (Z.shiftr c 8) 8) = Z.shiftr c 8) as E by (pose proof (crc_bits_shiftl 8 0 (Z.shiftr c 8) ltac:(lia)) as E; by rewrite Z.shiftl_0_r in E).
  rewrite <- E at 1. rewrite <- crc_bits_lxor, <- Z.lxor_assoc, <- split_byte. done.
Qed.
Lemma CRC32Calculate_register l : Forall (fun d => 0 <= d < 256) l -> CRC32Calculate l = register l.
Proof.
  intros Hl. unfold CRC32Calculate, register. do 2 f_equal. generalize 0xffffffff. induction Hl as [|d l Hd Hl IH]; intros c; [done|]. cbn [foldl]. by rewrite crc_step_register, IH.
Qed.
(** ** Errors in one place are detected *)

Definition byte (d : Z) : Prop := 0 <= d < 256.
Definition run (c : Z) (l : list Z) : Z := foldl crc_step c l.
(** The number that bytes stand for, the first the lowest. *)
Fixpoint number (l : list Z) : Z := match l with [] => 0 | d :: l => Z.lxor d (Z.shiftl (number l) 8) end.
Lemma lxor_shifted d x : byte d -> Z.lxor d (Z.shiftl x 8) = d + x * 2 ^ 8.
Proof.
  intros Hd. unfold byte in Hd. rewrite <- Z.shiftl_mul_pow2 by lia. symmetry. apply Z.add_nocarry_lxor. apply Z.bits_inj'. intros k Hk. rewrite Z.land_spec, Z.bits_0. destruct (Z.ltb_spec k 8); [rewrite Z.shiftl_spec_low by done; apply andb_false_r|].
  rewrite <- (Z.mod_small d (2 ^ 8)) by (cbn; lia). by rewrite Z.mod_pow2_bits_high by lia.
Qed.
Lemma number_range l : Forall byte l -> 0 <= number l < 2 ^ (8 * Z.of_nat (length l)).
Proof.
  induction 1 as [|d l Hd Hl IH]; [cbn; lia|]. cbn [number length]. rewrite lxor_shifted by done. replace (8 * Z.of_nat (S (length l))) with (8 * Z.of_nat (length l) + 8) by lia. rewrite Z.pow_add_r by lia. unfold byte in Hd. lia.
Qed.
Lemma number_inj l l' : Forall byte l -> Forall byte l' -> length l = length l' -> number l = number l' -> l = l'.
Proof.
  intros Hl. revert l'. induction Hl as [|d l Hd Hl IH]; intros [|d' l'] Hl' Hlen; try done. apply Forall_cons in Hl' as [Hd' Hl']. cbn [number]. rewrite !lxor_shifted by done. intros E. unfold byte in *.
  assert (d = d' /\ number l = number l') as [-> En] by lia. rewrite (IH l'); [done|done|by injection Hlen|done].
Qed.
(** Bytes that arrive one after the other are bits that arrive together. *)
Lemma run_number l c : Forall byte l -> run c l = crc_bits (8 * length l) (Z.lxor c (number l)).
Proof.
  intros Hl. revert c. induction Hl as [|d l Hd Hl IH]; intros c; [symmetry; apply Z.lxor_0_r|]. unfold run in *. cbn [foldl number length]. rewrite IH, crc_step_register by done.
  replace (8 * S (length l))%nat with (8 * length l + 8)%nat by lia. rewrite crc_bits_add. f_equal. rewrite <- Z.lxor_assoc, (crc_bits_lxor 8 (Z.lxor c d)). f_equal.
  pose proof (crc_bits_shiftl 8 0 (number l) ltac:(lia)) as E. by rewrite Z.shiftl_0_r in E.
Qed.
Lemma lxor_range32 a b : 0 <= a < 2 ^ 32 -> 0 <= b < 2 ^ 32 -> 0 <= Z.lxor a b < 2 ^ 32.
Proof.
  intros Ha Hb. rewrite <- (Z.mod_small a (2 ^ 32)), <- (Z.mod_small b (2 ^ 32)) by done. assert (Z.lxor (a mod 2 ^ 32) (b mod 2 ^ 32) = Z.lxor a b mod 2 ^ 32) as ->; [|apply Z.mod_pos_bound; lia].
  apply Z.bits_inj'. intros k Hk. rewrite Z.lxor_spec. destruct (Z.ltb_spec k 32); [rewrite !Z.mod_pow2_bits_low, Z.lxor_spec by lia|rewrite !Z.mod_pow2_bits_high by lia]; done.
Qed.
Lemma lxor_inj_l c a b : Z.lxor c a = Z.lxor c b -> a = b.
Proof. intros E. apply (f_equal (Z.lxor c)) in E. by rewrite <- !Z.lxor_assoc, Z.lxor_nilpotent, !Z.lxor_0_l in E. Qed.
Lemma crc_step_inj a b d : byte d -> 0 <= a < 2 ^ 32 -> 0 <= b < 2 ^ 32 -> crc_step a d = crc_step b d -> a = b.
Proof.
  intros Hd Ha Hb. rewrite !crc_step_register by done. unfold byte in Hd. intros E. apply crc_bits_inj in E; [|apply lxor_range32; lia..].
  apply (lxor_inj_l d). by rewrite !(Z.lxor_comm d).
Qed.
Lemma crc_step_range c d : byte d -> 0 <= c < 2 ^ 32 -> 0 <= crc_step c d < 2 ^ 32.
Proof. intros Hd Hc. rewrite crc_step_register by done. unfold byte in Hd. apply crc_bits_range, lxor_range32; lia. Qed.
Lemma run_range l c : Forall byte l -> 0 <= c < 2 ^ 32 -> 0 <= run c l < 2 ^ 32.
Proof. intros Hl. revert c. induction Hl as [|d l Hd Hl IH]; intros c Hc; [done|]. apply IH. by apply crc_step_range. Qed.
Lemma run_inj l a b : Forall byte l -> 0 <= a < 2 ^ 32 -> 0 <= b < 2 ^ 32 -> run a l = run b l -> a = b.
Proof.
  intros Hl. revert a b. induction Hl as [|d l Hd Hl IH]; intros a b Ha Hb E; [done|]. apply (crc_step_inj a b d Hd Ha Hb). by apply IH; [apply crc_step_range..|].
Qed.
Lemma burst_inj l l' c : Forall byte l -> Forall byte l' -> length l = length l' -> (length l <= 4)%nat -> 0 <= c < 2 ^ 32 -> run c l = run c l' -> l = l'.
Proof.
  intros Hl Hl' Hlen H4 Hc. rewrite !run_number by done. rewrite <- Hlen. assert (forall k, Forall byte k -> length k = length l -> 0 <= number k < 2 ^ 32) as Hr.
  { intros k Hk Ek. pose proof (number_range k Hk) as Hn. pose proof (Z.pow_le_mono_r 2 (8 * Z.of_nat (length k)) 32). lia. }
  intros E. apply crc_bits_inj in E; [|apply lxor_range32; auto..]. by apply lxor_inj_l, number_inj in E.
Qed.
Lemma complement_inj a b : 0 <= a < 2 ^ 32 -> 0 <= b < 2 ^ 32 -> u32 (Z.lnot a) = u32 (Z.lnot b) -> a = b.
Proof. intros Ha Hb. unfold u32, wrap, Z.lnot. intros E. assert (forall x, 0 <= x < 2 ^ 32 -> (Z.pred (- x)) mod 2 ^ 32 = 2 ^ 32 - 1 - x) as H by (intros x Hx; symmetry; apply (Z.mod_unique_pos _ _ (-1)); lia). rewrite !H in E by done. lia. Qed.

(** C25: The checksum of frames is CRC-32, and does its work. The table-driven routine
    computes the shift register of the polynomial bit by bit, for all frames; and when
    bytes of a frame change within four in a row, whatever the rest of the frame, a trailer
    that was computed for the frame refuses the changed one. *)
Theorem crc32_detects_bursts before l l' after : Forall byte before -> Forall byte l -> Forall byte l' -> Forall byte after -> length l = length l' -> (length l <= 4)%nat -> l <> l' ->
  let frame := before ++ l ++ after in
  CRC32Calculate frame = register frame /\ CheckFcs frame (CalcFcs frame (EnableFcs true EthernetTrailer_new)) = true /\
  CheckFcs (before ++ l' ++ after) (CalcFcs frame (EnableFcs true EthernetTrailer_new)) = false.
Proof.
  intros Hb Hl Hl' Ha Hlen H4 Hne frame. assert (0 <= 0xffffffff < 2 ^ 32) as H0 by lia. split; [apply CRC32Calculate_register; repeat apply Forall_app_2; done|]. split; [apply Z.eqb_refl|]. apply Z.eqb_neq. cbn. intros E.
  unfold CRC32Calculate in E. fold (run 0xffffffff frame) in E. fold (run 0xffffffff (before ++ l' ++ after)) in E. apply complement_inj in E; [|apply run_range; [by repeat apply Forall_app_2|done]..].
  unfold run, frame in E. rewrite !foldl_app in E. apply run_inj in E; [|done|apply run_range; [done|by apply run_range]..]. apply Hne. eapply burst_inj; [done..| |exact E]. by apply run_range.
Qed.
Lemma bytes_1234 : Forall byte [1; 2] /\ Forall byte [3; 4; 5] /\ Forall byte [3; 0; 7] /\ Forall byte [8].
Proof. split_and!; repeat constructor; unfold byte; lia. Qed.
Lemma crc32_detects_bursts_witness : CheckFcs [1; 2; 3; 0; 7; 8] (CalcFcs [1; 2; 3; 4; 5; 8] (EnableFcs true EthernetTrailer_new)) = false.
Proof. destruct bytes_1234 as (Ha&Hb&Hc&Hd). apply (crc32_detects_bursts [1; 2] [3; 4; 5] [3; 0; 7] [8] Ha Hb Hc Hd eq_refl); [cbn; lia|discriminate]. Defined.
(** The check value of CRC-32: the digits 1 to 9. *)
Example crc32_check_value : CRC32Calculate [49; 50; 51; 52; 53; 54; 55; 56; 57] = 0xCBF43926.
Proof. vm_compute. reflexivity. Qed.
End Crc32.

Module BitSerializer.
Record BitSerializer := mkSerializer { m_blob : list bool; m_padAtEnd : bool }.
Definition BitSerializer_new : BitSerializer := mkSerializer [] true.
Definition InsertPaddingAtEnd (padAtEnd : bool) (s : BitSerializer) : BitSerializer := mkSerializer (m_blob s) padAtEnd.
Definition padding (s : BitSerializer) : nat := 8 - length (m_blob s) mod 8.
Definition PadAtStart (s : BitSerializer) : BitSerializer := mkSerializer (replicate (padding s) false ++ m_blob s) (m_padAtEnd s).
Definition PadAtEnd (s : BitSerializer) : BitSerializer := mkSerializer (m_blob s ++ replicate (padding s) false) (m_padAtEnd s).
Definition Pad (s : BitSerializer) : BitSerializer := if m_padAtEnd s then PadAtEnd s else PadAtStart s.
Fixpoint push_loop (n : nat) (mask value : Z) (blob : list bool) : list bool :=
  match n with
  | O => blob
  | S n => push_loop n (Z.shiftr mask 1) value (blob ++ [negb (Z.land value mask =? 0)])
  end.
(** Shifts by a negative number or by more than 63 are undefined. *)
Definition PushBits (value significantBits : Z) (s : BitSerializer) : option BitSerializer :=
  assert* (1 <=? significantBits) && (significantBits <=? 64) in
  Some (mkSerializer (push_loop (Z.to_nat significantBits) (Z.shiftl 1 (significantBits - 1)) value (m_blob s)) (m_padAtEnd s)).
Definition shift_in (tmp : Z) (b : bool) : Z := Z.lor (u8 (Z.shiftl tmp 1)) (Z.b2z b).
(** The inner loop reads eight bits, past the end if there are fewer. *)
Fixpoint bytes_loop (l : list bool) : option (list Z) :=
  match l with
  | [] => Some []
  | b0 :: b1 :: b2 :: b3 :: b4 :: b5 :: b6 :: b7 :: l =>
      let* r := bytes_loop l in Some (foldl shift_in 0 [b0; b1; b2; b3; b4; b5; b6; b7] :: r)
  | _ => None
  end.
Definition GetBytes (s : BitSerializer) : option (list Z * BitSerializer) :=
  let s := Pad s in
  let* result := bytes_loop (m_blob s) in
  Some (result, mkSerializer [] (m_padAtEnd s)).
(** A write past the end of the buffer is an access out of range. *)
Fixpoint write_loop (l : list Z) (resultLen : Z) (buffer : list Z) : option (Z * list Z) :=
  match l with
  | [] => Some (resultLen, buffer)
  | tmp :: l => assert* resultLen <? Z.of_nat (length buffer) in write_loop l (u8 (resultLen + 1)) (<[Z.to_nat resultLen := tmp]> buffer)
  end.
Definition GetBytes_buffer (buffer : list Z) (size : Z) (s : BitSerializer) : option (Z * list Z * BitSerializer) :=
  let s := Pad s in
  assert* negb (Z.of_nat (length (m_blob s)) <=? u32 (8 * size)) in
  let* l := bytes_loop (m_blob s) in
  let* (resultLen, buffer) := write_loop l 0 buffer in
  Some (resultLen, buffer, mkSerializer [] (m_padAtEnd s)).
End BitSerializer.

Module BitDeserializer.
Record BitDeserializer := mkDeserializer { m_blob : list bool; m_bytesBlob : list Z; m_deserializing : bool }.
Definition BitDeserializer_new : BitDeserializer := mkDeserializer [] [] false.
Definition PushBytes (bytes : list Z) (d : BitDeserializer) : option BitDeserializer :=
  assert* negb (m_deserializing d) in Some (mkDeserializer (m_blob d) (m_bytesBlob d ++ bytes) (m_deserializing d)).
Definition PushBytes_array (bytes : list Z) (size : Z) (d : BitDeserializer) : option BitDeserializer :=
  assert* negb (m_deserializing d) in
  assert* size <=? Z.of_nat (length bytes) in
  Some (mkDeserializer (m_blob d) (m_bytesBlob d ++ take (Z.to_nat size) bytes) (m_deserializing d)).
Definition PushByte (byte : Z) (d : BitDeserializer) : option BitDeserializer :=
  assert* negb (m_deserializing d) in Some (mkDeserializer (m_blob d) (m_bytesBlob d ++ [byte]) (m_deserializing d)).
Definition byte_bits (b : Z) : list bool := (fun mask => negb (Z.land b mask =? 0)) <$> [0x80; 0x40; 0x20; 0x10; 0x8; 0x4; 0x2; 0x1].
Definition PrepareDeserialization (d : BitDeserializer) : BitDeserializer :=
  if negb (m_deserializing d) then mkDeserializer (m_blob d ++ (m_bytesBlob d ≫= byte_bits)) (m_bytesBlob d) true else d.
(** The result is kept in eight bits while it is read. *)
Fixpoint get_loop (n : nat) (result : Z) (blob : list bool) : option (Z * list bool) :=
  match n, blob with
  | O, _ => Some (result, blob)
  | S n, b :: blob => get_loop n (Z.lor (u8 (Z.shiftl result 1)) (Z.b2z b)) blob
  | S _, [] => None
  end.
Definition GetBits (size : Z) (d : BitDeserializer) : option (Z * BitDeserializer) :=
  let d := PrepareDeserialization d in
  assert* negb (64 <? size) in
  assert* negb (Z.of_nat (length (m_blob d)) <? size) in
  let* (result, blob) := get_loop (Z.to_nat size) 0 (m_blob d) in
  Some (result, mkDeserializer blob (m_bytesBlob d) (m_deserializing d)).
End BitDeserializer.

(** ** Fields that are written and read *)

Module BitFields.
Import BitSerializer BitDeserializer.

(** A field: its value and its number of bits. *)
Fixpoint push_all (fields : list (Z * Z)) (s : BitSerializer) : option BitSerializer :=
  match fields with [] => Some s | (v, w) :: fields => let* s := PushBits v w s in push_all fields s end.
Fixpoint get_all (widths : list Z) (d : BitDeserializer) : option (list Z) :=
  match widths with [] => Some [] | w :: widths => let* (v, d) := GetBits w d in let* l := get_all widths d in Some (v :: l) end.

(** The bits of a number, the highest first. *)
Fixpoint bits_of (n : nat) (v : Z) : list bool := match n with O => [] | S k => Z.testbit v (Z.of_nat k) :: bits_of k v end.
Lemma length_bits_of n v : length (bits_of n v) = n.
Proof. induction n as [|n IH]; [done|]. cbn. by rewrite IH. Qed.
Lemma test_mask v k : 0 <= k -> negb (Z.land v (Z.shiftl 1 k) =? 0) = Z.testbit v k.
Proof.
  intros Hk. rewrite Z.shiftl_1_l. destruct (Z.testbit v k) eqn:E.
  - apply negb_true_iff, Z.eqb_neq. intros E0. apply (f_equal (fun x => Z.testbit x k)) in E0. by rewrite Z.land_spec, E, Z.pow2_bits_true, Z.bits_0 in E0 by done.
  - apply negb_false_iff, Z.eqb_eq, Z.bits_inj'. intros j Hj. rewrite Z.land_spec, Z.bits_0. destruct (Z.eq_dec j k) as [->|]; [by rewrite E|]. rewrite Z.pow2_bits_false by done. apply andb_false_r.
Qed.
Lemma push_loop_bits n v blob : push_loop n (Z.shiftl 1 (Z.of_nat n - 1)) v blob = blob ++ bits_of n v.
Proof.
  revert blob. induction n as [|n IH]; intros blob; [by rewrite app_nil_r|]. cbn [push_loop bits_of]. replace (Z.of_nat (S n) - 1) with (Z.of_nat n) by lia. rewrite test_mask by lia.
  rewrite Z.shiftr_shiftl_r by lia. destruct n as [|n]; [by cbn|]. replace (Z.shiftr 1 (1 - Z.of_nat (S n))) with (Z.shiftl 1 (Z.of_nat (S n) - 1)) by (rewrite <- Z.shiftr_opp_r; f_equal; lia). by rewrite IH, <- app_assoc.
Qed.
Definition field_bits (f : Z * Z) : list bool := bits_of (Z.to_nat f.2) f.1.
Definition field_ok (f : Z * Z) : Prop := 1 <= f.2 <= 64.
Lemma push_all_bits fields s : Forall field_ok fields -> push_all fields s = Some (mkSerializer (BitSerializer.m_blob s ++ (fields ≫= field_bits)) (m_padAtEnd s)).
Proof.
  intros Hf. revert s. induction Hf as [|[v w] fields Hw Hf IH]; intros [b p]; cbn [push_all]; [cbn; by rewrite app_nil_r|]. unfold field_ok in Hw. cbn [snd] in Hw. unfold PushBits.
  rewrite (proj2 (Z.leb_le 1 w)), (proj2 (Z.leb_le w 64)) by lia. cbn [andb NS_ASSERT]. rewrite IH. cbn [BitSerializer.m_blob m_padAtEnd]. replace (w - 1) with (Z.of_nat (Z.to_nat w) - 1) by lia. rewrite push_loop_bits. cbn [mbind list_bind]. by rewrite <- app_assoc.
Qed.

(** ** Reading *)

Lemma shift_in_value r b : 0 <= r -> shift_in r b = (2 * r + Z.b2z b) mod 2 ^ 8.
Proof.
  intros Hr. unfold shift_in, u8, wrap. rewrite Z.shiftl_mul_pow2 by lia. change (2 ^ 1) with 2. apply Z.bits_inj'. intros k Hk. rewrite Z.lor_spec. destruct (Z.ltb_spec k 8).
  - rewrite !Z.mod_pow2_bits_low by lia. destruct (Z.eq_dec k 0) as [->|Hk0].
    + rewrite !Z.bit0_odd, Z.odd_add, Z.mul_comm, !Z.odd_mul. cbn. by destruct (Z.odd r), b.
    + replace k with (Z.succ (k - 1)) by lia. rewrite (Z.mul_comm r), Z.double_bits_succ. destruct b; cbn [Z.b2z]; [rewrite Z.testbit_odd_succ by lia|rewrite Z.add_0_r, Z.double_bits_succ].
      * destruct k as [|p|]; try lia. change 1 with (2 * 0 + 1). rewrite Z.testbit_odd_succ, Z.bits_0 by lia. apply orb_false_r.
      * rewrite Z.bits_0. apply orb_false_r.
  - rewrite !Z.mod_pow2_bits_high by lia. destruct b; [|by rewrite Z.bits_0]. apply (Z.bits_above_log2 1); cbn; lia.
Qed.
Fixpoint value_of (r : Z) (l : list bool) : Z := match l with [] => r | b :: l => value_of (2 * r + Z.b2z b) l end.
Lemma shift_in_all l : forall r r', 0 <= r -> 0 <= r' -> r mod 2 ^ 8 = r' mod 2 ^ 8 -> foldl shift_in r l mod 2 ^ 8 = value_of r' l mod 2 ^ 8.
Proof.
  induction l as [|b l IH]; intros r r' Hr Hr' E; [done|]. cbn [foldl value_of]. apply IH; rewrite ?shift_in_value by done; [apply Z.mod_pos_bound; lia|destruct b; cbn; lia|].
  rewrite Z.mod_mod by lia. rewrite <- (Z.add_mod_idemp_l (2 * r)), <- (Z.add_mod_idemp_l (2 * r')) by lia. by rewrite <- (Z.mul_mod_idemp_r 2 r), E, Z.mul_mod_idemp_r by lia.
Qed.
Lemma value_of_bits n v r : 0 <= r -> value_of r (bits_of n v) = r * 2 ^ Z.of_nat n + v mod 2 ^ Z.of_nat n.
Proof.
  revert r. induction n as [|n IH]; intros r Hr; cbn [bits_of value_of]; [change (2 ^ Z.of_nat 0) with 1; rewrite Z.mod_1_r; lia|]. rewrite IH by (destruct (Z.testbit v (Z.of_nat n)); cbn; lia).
  rewrite Nat2Z.inj_succ, Z.pow_succ_r by lia. assert (v mod (2 * 2 ^ Z.of_nat n) = Z.b2z (Z.testbit v (Z.of_nat n)) * 2 ^ Z.of_nat n + v mod 2 ^ Z.of_nat n) as ->; [|lia].
  rewrite Z.testbit_spec' by lia. rewrite (Z.mul_comm 2), Z.rem_mul_r by lia. lia.
Qed.
Lemma shift_in_bits n v : (1 <= n)%nat -> foldl shift_in 0 (bits_of n v) = v mod 2 ^ Z.of_nat n mod 2 ^ 8.
Proof.
  intros Hn. assert (foldl shift_in 0 (bits_of n v) = foldl shift_in 0 (bits_of n v) mod 2 ^ 8) as ->; [|rewrite (shift_in_all _ 0 0), value_of_bits by lia; done].
  destruct n as [|n]; [lia|]. cbn [bits_of foldl]. assert (forall l r, 0 <= r < 2 ^ 8 -> 0 <= foldl shift_in r l < 2 ^ 8) as Hr.
  { induction l as [|b l IHl]; intros r Hr; [done|]. cbn [foldl]. apply IHl. rewrite shift_in_value by lia. apply Z.mod_pos_bound. lia. }
  symmetry. apply Z.mod_small, Hr. rewrite shift_in_value by lia. apply Z.mod_pos_bound. lia.
Qed.
Lemma get_loop_bits l rest r : get_loop (length l) r (l ++ rest) = Some (foldl shift_in r l, rest).
Proof. revert r. induction l as [|b l IH]; intros r; [by destruct rest|]. cbn [length app get_loop foldl]. apply IH. Qed.

(** ** Bytes *)

Lemma byte_bits_shift_in b0 b1 b2 b3 b4 b5 b6 b7 : byte_bits (foldl shift_in 0 [b0; b1; b2; b3; b4; b5; b6; b7]) = [b0; b1; b2; b3; b4; b5; b6; b7].
Proof. destruct b0, b1, b2, b3, b4, b5, b6, b7; reflexivity. Qed.
Lemma bytes_loop_bits k : forall l, length l = (8 * k)%nat -> exists bytes, bytes_loop l = Some bytes /\ length bytes = k /\ (bytes ≫= byte_bits) = l.
Proof.
  induction k as [|k IH]; intros l Hl; [destruct l; [|done]; by exists []|]. do 8 (destruct l as [|? l]; [exfalso; cbn in Hl; lia|]).
  destruct (IH l) as (bytes&E&Hb&Eb); [cbn in Hl; lia|]. cbn [bytes_loop]. rewrite E. eexists. split; [done|]. split; [cbn; by rewrite Hb|]. cbn [mbind list_bind]. rewrite byte_bits_shift_in. cbn [app]. by rewrite Eb.
Qed.
Lemma padded_length s : length (BitSerializer.m_blob (Pad s)) = (8 * (length (BitSerializer.m_blob s) / 8 + 1))%nat.
Proof.
  assert (length (BitSerializer.m_blob (Pad s)) = length (BitSerializer.m_blob s) + padding s)%nat as -> by (unfold Pad, PadAtEnd, PadAtStart; destruct (m_padAtEnd s); cbn [BitSerializer.m_blob]; rewrite length_app, length_replicate; lia).
  unfold padding. pose proof (Nat.div_mod (length (BitSerializer.m_blob s)) 8 ltac:(done)). pose proof (Nat.mod_upper_bound (length (BitSerializer.m_blob s)) 8 ltac:(done)). lia.
Qed.
(** A deserializer whose remaining bits are [l]. *)
Definition reads_from (d : BitDeserializer) (l : list bool) : Prop := BitDeserializer.m_blob (PrepareDeserialization d) = l.
Lemma GetBits_bits l rest d : reads_from d (l ++ rest) -> (length l <= 64)%nat -> exists d', GetBits (Z.of_nat (length l)) d = Some (foldl shift_in 0 l, d') /\ reads_from d' rest.
Proof.
  intros Hd Hl. unfold GetBits, reads_from in *. rewrite Hd. rewrite (proj2 (Z.ltb_ge 64 _)), (proj2 (Z.ltb_ge _ (Z.of_nat (length l)))) by (rewrite ?length_app; lia). cbn [negb NS_ASSERT]. rewrite Nat2Z.id, get_loop_bits.
  eexists. split; [reflexivity|]. unfold PrepareDeserialization at 1. cbn. unfold PrepareDeserialization. destruct (m_deserializing d) eqn:E; cbn; [by rewrite E|done].
Qed.
Lemma get_all_fields fields rest d : Forall field_ok fields -> reads_from d ((fields ≫= field_bits) ++ rest) ->
  get_all (snd <$> fields) d = Some ((fun f => f.1 mod 2 ^ f.2 mod 2 ^ 8) <$> fields).
Proof.
  intros Hf. revert d. induction Hf as [|[v w] fields Hw Hf IH]; intros d Hd; [done|]. unfold field_ok in Hw. cbn [fst snd] in *. cbn [mbind list_bind] in Hd. rewrite <- app_assoc in Hd. unfold field_bits in Hd at 1. cbn [fst snd] in Hd.
  destruct (GetBits_bits _ _ _ Hd) as (d'&E&Hd'); [rewrite length_bits_of; lia|]. rewrite length_bits_of, Z2Nat.id in E by lia. cbn [fmap list_fmap get_all fst snd]. rewrite E, (IH d' Hd'). rewrite shift_in_bits, Z2Nat.id by lia. done.
Qed.

(** Bit fields that are pushed one after the other are read back from the bytes, in
    order, whatever their number and sizes and whatever side is padded (the reader then
    skips the padding, which is 0): fields of at most eight bits as they were, wider ones
    only by their low eight bits, because the reader keeps its result in a byte. The
    serializer is empty afterwards, and the bytes are one more than the bits fill. *)
Theorem bit_fields_round_trip fields padAtEnd : Forall field_ok fields ->
  let n := length (fields ≫= field_bits) in
  let values := (fun f => f.1 mod 2 ^ f.2 mod 2 ^ 8) <$> fields in
  exists s bytes s', push_all fields (InsertPaddingAtEnd padAtEnd BitSerializer_new) = Some s /\ GetBytes s = Some (bytes, s') /\ BitSerializer.m_blob s' = [] /\ length bytes = (n / 8 + 1)%nat /\
    exists d, PushBytes bytes BitDeserializer_new = Some d /\
      if padAtEnd then get_all (snd <$> fields) d = Some values
      else exists d', GetBits (Z.of_nat (8 - n mod 8)) d = Some (0, d') /\ get_all (snd <$> fields) d' = Some values.
Proof.
  intros Hf n values. rewrite push_all_bits by done. cbn [InsertPaddingAtEnd BitSerializer.m_blob m_padAtEnd BitSerializer_new app]. set (s := mkSerializer (fields ≫= field_bits) padAtEnd).
  destruct (bytes_loop_bits _ _ (padded_length s)) as (bytes&E&Hlen&Eb). exists s, bytes, (mkSerializer [] (m_padAtEnd (Pad s))). split; [done|]. split; [unfold GetBytes; by rewrite E|]. split; [done|]. split; [done|].
  eexists. split; [reflexivity|]. cbn [app BitDeserializer.m_blob m_bytesBlob m_deserializing BitDeserializer_new]. assert (reads_from (mkDeserializer [] bytes false) (BitSerializer.m_blob (Pad s))) as Hd by (rewrite <- Eb; done).
  destruct padAtEnd; [by apply (get_all_fields _ _ _ Hf Hd)|]. destruct (GetBits_bits (replicate (padding s) false) (fields ≫= field_bits) _ Hd) as (d'&Ed&Hd'); [rewrite length_replicate; unfold padding; lia|].
  rewrite length_replicate in Ed. exists d'. split; [|apply (get_all_fields _ [] _ Hf); by rewrite app_nil_r]. change (8 - n mod 8)%nat with (padding s). rewrite Ed. assert (foldl shift_in 0 (replicate (padding s) false) = 0) as ->; [|done].
  generalize (padding s) as k. induction k as [|k IH]; [done|exact IH].
Qed.
Lemma demo_fields : Forall field_ok [(0x55, 7); (0x7, 3); (0x0, 2)].
Proof. repeat (apply Forall_cons; split; [unfold field_ok; cbn; lia|]). constructor. Qed.
(** The fields of bit-serializer-test.cc. *)
Lemma bit_fields_round_trip_witness : exists s bytes s', push_all [(0x55, 7); (0x7, 3); (0x0, 2)] (InsertPaddingAtEnd true BitSerializer_new) = Some s /\ GetBytes s = Some (bytes, s') /\
  exists d, PushBytes bytes BitDeserializer_new = Some d /\ get_all [7; 3; 2] d = Some [0x55; 0x7; 0x0].
Proof.
  destruct (bit_fields_round_trip [(0x55, 7); (0x7, 3); (0x0, 2)] true demo_fields) as (s&bytes&s'&Es&Eb&_&_&d&Ed&Eg). exists s, bytes, s'. split; [exact Es|]. split; [exact Eb|]. exists d. split; [exact Ed|exact Eg].
Defined.

(** A field of 16 bits comes back as its low byte. *)
Lemma wide_field_cut : (let* d := PushBytes [0xAB; 0xCD] BitDeserializer_new in let* r := GetBits 16 d in Some r.1) = Some 0xCD.
Proof. vm_compute. reflexivity. Qed.
(** A whole byte is followed by a byte of padding. *)
Lemma padding_of_full_byte : (let* s := PushBits 0xAB 8 BitSerializer_new in let* r := GetBytes s in Some r.1) = Some [0xAB; 0].
Proof. vm_compute. reflexivity. Qed.
Lemma write_loop_overruns l resultLen buffer : 0 <= resultLen <= Z.of_nat (length buffer) -> Z.of_nat (length buffer) < 256 -> Z.of_nat (length buffer) < resultLen + Z.of_nat (length l) -> write_loop l resultLen buffer = None.
Proof.
  revert resultLen buffer. induction l as [|x l IH]; intros n buffer Hn Hb Hl; cbn [length write_loop] in *; [lia|]. destruct (Z.ltb_spec n (Z.of_nat (length buffer))); [|done]. cbn [NS_ASSERT].
  assert (u8 (n + 1) = n + 1) as -> by (apply wrap_small; lia). apply IH; rewrite ?length_insert; lia.
Qed.
(** The second form of [GetBytes] aborts when the buffer is large enough, and otherwise
    writes past its end: with a buffer of fewer than 256 bytes it never succeeds. *)
Lemma GetBytes_buffer_fails buffer s : Z.of_nat (length buffer) < 256 -> GetBytes_buffer buffer (Z.of_nat (length buffer)) s = None.
Proof.
  intros Hb. unfold GetBytes_buffer. rewrite u32_small by lia. destruct (Z.leb_spec (Z.of_nat (length (BitSerializer.m_blob (Pad s)))) (8 * Z.of_nat (length buffer))) as [Hle|Hlt]; [done|]. cbn [negb NS_ASSERT].
  destruct (bytes_loop_bits _ _ (padded_length s)) as (bytes&->&Hlen&_). rewrite padded_length in Hlt. rewrite write_loop_overruns; [done|lia..].
Qed.
End BitFields.
