(* ===== verification/NixVector.v ===== *)
(** * Nix-vectors: the route of a packet as a stack of bit fields

    nix-vector.cc: neighbour indices packed into 32-bit words, added on the way back from
    the destination and extracted at the hops; and how packet.cc writes and reads them. *)

From S2P Require Import Prelude.

Module NixVector.

Record NixVector := mkNix { m_nixVector : list Z; m_used : Z; m_totalBitSize : Z; m_epoch : Z }.
Definition NixVector_new : NixVector := mkNix [] 0 0 0.
Definition SetEpoch (epoch : Z) (v : NixVector) : NixVector := mkNix (m_nixVector v) (m_used v) (m_totalBitSize v) epoch.
Definition GetRemainingBits (v : NixVector) : Z := u32 (m_totalBitSize v - m_used v).
(** [m_nixVector.back() = x] *)
Definition set_back (x : Z) (l : list Z) : list Z := take (length l - 1) l ++ [x].

Definition AddNeighborIndex (newBits numberOfBits : Z) (v : NixVector) : option NixVector :=
  assert* negb (32 <? numberOfBits) in
  let currentVectorBitSize := m_totalBitSize v mod 32 in
  let words := if currentVectorBitSize =? 0 then m_nixVector v ++ [0] else m_nixVector v in
  let* back := last words in
  let words := if 32 <? u32 (currentVectorBitSize + numberOfBits) then
      set_back (Z.lor (u32 (Z.shiftl newBits currentVectorBitSize)) back) words ++ [Z.shiftr newBits (32 - currentVectorBitSize)]
    else set_back (Z.lor (u32 (Z.shiftl newBits currentVectorBitSize)) back) words in
  Some (mkNix words (m_used v) (u32 (m_totalBitSize v + numberOfBits)) (m_epoch v)).

(** A shift of 32 bits by 32, which C++ leaves undefined, is the function [wide_shift]:
    nothing is assumed of it. *)
Section Shift.
Variable wide_shift : Z -> Z.
Definition shl (x n : Z) : Z := if n <? 32 then u32 (Z.shiftl x n) else wide_shift x.
Definition ExtractNeighborIndex (numberOfBits : Z) (v : NixVector) : option (Z * NixVector) :=
  assert* negb (32 <? numberOfBits) in
  let totalRemainingBits := GetRemainingBits v in
  assert* negb (totalRemainingBits <? numberOfBits) in
  assert* negb (numberOfBits <=? 0) in
  let vectorIndex := (totalRemainingBits - 1) / 32 in
  let v' := mkNix (m_nixVector v) (u32 (m_used v + numberOfBits)) (m_totalBitSize v) (m_epoch v) in
  let r := totalRemainingBits mod 32 in
  let* word := m_nixVector v !! Z.to_nat vectorIndex in
  if (0 <? vectorIndex) && ((totalRemainingBits - 1) mod 32 <? numberOfBits - 1) then
    let* word' := m_nixVector v !! Z.to_nat (vectorIndex - 1) in
    let extractedBits := shl word (32 - r) in
    let extractedBits := Z.shiftr extractedBits ((32 - r) - (numberOfBits - r)) in
    Some (Z.lor extractedBits (Z.shiftr word' (32 - (numberOfBits - r))), v')
  else Some (Z.shiftr (shl word (32 - r)) (32 - numberOfBits), v').
End Shift.

Definition GetSerializedSize (v : NixVector) : Z :=
  if m_totalBitSize v =? 0 then 4 else u32 (4 + 4 + 4 * Z.of_nat (length (m_nixVector v)) + 4).
(** What is returned, and the words written at the start of the buffer. *)
Definition Serialize (maxSize : Z) (v : NixVector) : Z * list Z :=
  if maxSize <? GetSerializedSize v then (0, [])
  else (1, m_totalBitSize v :: (if m_totalBitSize v =? 0 then [] else m_used v :: m_nixVector v ++ [m_epoch v])).
(** The words are read from [buffer]; reading past its end is [None]. *)
Definition Deserialize (buffer : list Z) (size : Z) (v : NixVector) : option (Z * NixVector) :=
  assert* 4 <=? size in
  let* (total, p) := match buffer with x :: p => Some (x, p) | [] => None end in
  if total =? 0 then let v := mkNix (m_nixVector v) (m_used v) total (m_epoch v) in Some (GetSerializedSize v, v) else
  let* (used, p) := match p with x :: p => Some (x, p) | [] => None end in
  let nixVectorLength := u32 (total / 32 + (if total mod 32 =? 0 then 0 else 1)) in
  assert* u32 (16 + nixVectorLength) <=? size in
  if size <? u32 (16 + u32 (nixVectorLength * 4)) then Some (0, mkNix (m_nixVector v) used total (m_epoch v)) else
  assert* nixVectorLength <? Z.of_nat (length p) in
  let* epoch := p !! Z.to_nat nixVectorLength in
  let v := mkNix (take (Z.to_nat nixVectorLength) p) used total epoch in
  Some (GetSerializedSize v, v).

(** The loop halves the number until it is 0. *)
Fixpoint bit_count_loop (fuel : nat) (numberOfNeighbors bitCount : Z) : Z :=
  match fuel with
  | O => bitCount
  | S fuel => if numberOfNeighbors =? 0 then bitCount else bit_count_loop fuel (Z.shiftr numberOfNeighbors 1) (bitCount + 1)
  end.
Definition BitCount (numberOfNeighbors : Z) : Z :=
  if numberOfNeighbors <? 2 then 1 else bit_count_loop 32 (numberOfNeighbors - 1) 0.

(** The part of [Packet::Serialize] about the nix-vector: the words it writes, or none when
    it returns 0. The first word is the size, which counts itself. *)
Definition packet_nix_Serialize (maxSize : Z) (nix : option NixVector) : option (list Z) :=
  match nix with
  | Some v =>
      let nixSize := GetSerializedSize v in
      if maxSize <? nixSize then None else
      let '(serialized, l) := Serialize nixSize v in
      if serialized =? 0 then None else Some (u32 (nixSize + 4) :: l)
  | None => if maxSize <? 4 then None else Some [4]
  end.
(** The part of [Packet::Deserialize] about it: the vector and what is left to read, or
    nothing when it returns 0. *)
Definition packet_nix_Deserialize (size : Z) (p : list Z) : option (option (option NixVector * list Z)) :=
  let* (nixSize, p) := match p with x :: p => Some (x, p) | [] => None end in
  assert* nixSize <=? size in
  if 4 <? nixSize then
    let* (nixDeserialized, nix) := Deserialize p nixSize NixVector_new in
    if nixDeserialized =? 0 then Some None else
    Some (Some (Some nix, drop (Z.to_nat (Z.ldiff (u32 (nixSize - 4 + 3)) 3 / 4)) p))
  else Some (Some (None, p)).
End NixVector.

Module NixVectorProps.
Import NixVector.

(** ** The bits of a vector *)

Definition nbit (l : list Z) (i : Z) : bool := Z.testbit (nth (Z.to_nat (i / 32)) l 0) (i mod 32).
Definition word (x : Z) : Prop := 0 <= x < 2 ^ 32.
Record nix_ok (v : NixVector) : Prop := mkNixOk {
  nix_words : Forall word (m_nixVector v);
  nix_length : Z.of_nat (length (m_nixVector v)) = (m_totalBitSize v + 31) / 32;
  nix_range : 0 <= m_used v <= m_totalBitSize v /\ m_totalBitSize v < 2 ^ 32;
  nix_clear : forall i, m_totalBitSize v <= i -> nbit (m_nixVector v) i = false
}.
Lemma word_high x k : word x -> 32 <= k -> Z.testbit x k = false.
Proof. intros Hx Hk. unfold word in Hx. rewrite <- (Z.mod_small x (2 ^ 32)) by done. by apply Z.mod_pow2_bits_high. Qed.
Lemma word_bits x : 0 <= x -> (forall k, 32 <= k -> Z.testbit x k = false) -> word x.
Proof.
  intros Hx Hk. split; [done|]. destruct (Z.eq_dec x 0) as [->|]; [lia|]. apply Z.log2_lt_pow2; [lia|]. destruct (Z.lt_ge_cases (Z.log2 x) 32) as [|Hge]; [done|]. exfalso. specialize (Hk _ Hge). by rewrite Z.bit_log2 in Hk by lia.
Qed.
Lemma testbit_u32 x k : 0 <= k -> Z.testbit (u32 x) k = (k <? 32) && Z.testbit x k.
Proof. intros Hk. unfold u32, wrap. destruct (Z.ltb_spec k 32); [by rewrite Z.mod_pow2_bits_low by lia|by rewrite Z.mod_pow2_bits_high by lia]. Qed.
Lemma set_back_snoc x y l : set_back x (l ++ [y]) = l ++ [x].
Proof. unfold set_back. rewrite length_app. cbn [length]. by rewrite Nat.add_sub, take_app_length. Qed.
(** Bits of a vector that ends with the words [ws]. *)
Lemma nbit_app l ws i : 0 <= i -> nbit (l ++ ws) i = if i <? 32 * Z.of_nat (length l) then nbit l i else nbit ws (i - 32 * Z.of_nat (length l)).
Proof.
  intros Hi. unfold nbit. destruct (Z.ltb_spec i (32 * Z.of_nat (length l))).
  - rewrite app_nth1; [done|]. assert (i / 32 < Z.of_nat (length l)) by (apply Z.div_lt_upper_bound; lia). lia.
  - assert (Z.of_nat (length l) <= i / 32) by (apply Z.div_le_lower_bound; lia). rewrite app_nth2 by lia. replace (i - 32 * Z.of_nat (length l)) with (i + (- Z.of_nat (length l)) * 32) by lia. rewrite Z.div_add, Z.mod_add by lia. do 2 f_equal. lia.
Qed.
Lemma nbit_one x i : 0 <= i -> word x -> nbit [x] i = Z.testbit x i.
Proof.
  intros Hi Hx. unfold nbit. destruct (Z.lt_ge_cases i 32); [rewrite Z.div_small, Z.mod_small by lia; done|]. rewrite (word_high x i) by done. assert (1 <= i / 32) by (apply Z.div_le_lower_bound; lia).
  rewrite nth_overflow by (cbn; lia). apply Z.bits_0.
Qed.

(** ** Adding an index *)

(** The word that takes the next bits, after one was added if the others are full. *)
Lemma open_word v : nix_ok v -> let c := m_totalBitSize v mod 32 in
  exists l b, (if c =? 0 then m_nixVector v ++ [0] else m_nixVector v) = l ++ [b] /\ 32 * Z.of_nat (length l) + c = m_totalBitSize v /\ Forall word l /\ word b /\
    (forall k, c <= k -> Z.testbit b k = false) /\ forall i, 0 <= i -> nbit (l ++ [b]) i = nbit (m_nixVector v) i.
Proof.
  intros [Hw Hlen Hr Hc] c. pose proof (Z.div_mod (m_totalBitSize v) 32 ltac:(lia)) as Hdm. pose proof (Z.mod_pos_bound (m_totalBitSize v) 32 ltac:(lia)) as Hm. fold c in Hdm, Hm. destruct (Z.eqb_spec c 0) as [E|E].
  - exists (m_nixVector v), 0. assert (32 * Z.of_nat (length (m_nixVector v)) = m_totalBitSize v) as Hl by (rewrite Hlen; replace (m_totalBitSize v + 31) with (31 + m_totalBitSize v / 32 * 32) by lia; rewrite Z.div_add by lia; change (31 / 32) with 0; lia).
    split_and!; [done|lia|done|unfold word; lia|intros; apply Z.bits_0|]. intros i Hi. rewrite nbit_app by done. destruct (Z.ltb_spec i (32 * Z.of_nat (length (m_nixVector v)))); [done|]. rewrite nbit_one by (unfold word; lia). rewrite Z.bits_0. symmetry. apply Hc. lia.
  - destruct (m_nixVector v) as [|b l _] eqn:El using rev_ind; [exfalso; cbn in Hlen; assert (1 <= (m_totalBitSize v + 31) / 32) by (apply Z.div_le_lower_bound; lia); lia|].
    exists l, b. rewrite length_app in Hlen. cbn [length] in Hlen. assert (32 * Z.of_nat (length l) + c = m_totalBitSize v) as Hl by (replace (m_totalBitSize v + 31) with (c + 31 + m_totalBitSize v / 32 * 32) in Hlen by lia; rewrite Z.div_add in Hlen by lia; assert ((c + 31) / 32 = 1) by (symmetry; apply (Z.div_unique_pos _ _ _ (c - 1)); lia); lia).
    apply Forall_app in Hw as [Hw Hb]. rewrite Forall_singleton in Hb. split_and!; [done..| |done]. intros k Hk. rewrite <- nbit_one by (done || lia). specialize (Hc (32 * Z.of_nat (length l) + k) ltac:(lia)). rewrite nbit_app in Hc by lia.
    rewrite (proj2 (Z.ltb_ge _ _)) in Hc by lia. by replace (32 * Z.of_nat (length l) + k - 32 * Z.of_nat (length l)) with k in Hc by lia.
Qed.
Lemma bits_above x n k : 0 <= x < 2 ^ n -> 0 <= n <= k -> Z.testbit x k = false.
Proof. intros Hx Hn. rewrite <- (Z.mod_small x (2 ^ n)) by done. apply Z.mod_pow2_bits_high. lia. Qed.
(** The low part of the index, in the word that was open. *)
Lemma word_low x b c : word b -> word (Z.lor (u32 (Z.shiftl x c)) b).
Proof.
  intros Hb. apply word_bits; [apply Z.lor_nonneg; split; [apply u32_range|unfold word in Hb; lia]|]. intros k Hk. rewrite Z.lor_spec, testbit_u32, (word_high b k) by (done || lia). by rewrite (proj2 (Z.ltb_ge _ _)) by lia.
Qed.
Lemma word_high_part x n c : 0 <= c < 32 -> 0 <= x < 2 ^ n -> 0 <= n <= 32 -> word (Z.shiftr x (32 - c)).
Proof.
  intros Hc Hx Hn. apply word_bits; [apply Z.shiftr_nonneg; lia|]. intros k Hk. rewrite Z.shiftr_spec by lia. apply (bits_above x n); lia.
Qed.
Lemma packed_bits x n c b k : 0 <= c < 32 -> 0 <= x < 2 ^ n -> 1 <= n <= 32 -> word b -> (forall j, c <= j -> Z.testbit b j = false) -> 0 <= k ->
  nbit (if 32 <? c + n then [Z.lor (u32 (Z.shiftl x c)) b; Z.shiftr x (32 - c)] else [Z.lor (u32 (Z.shiftl x c)) b]) k = if k <? c then Z.testbit b k else Z.testbit x (k - c).
Proof.
  intros Hc Hx Hn Hb Hclear Hk. pose proof (word_low x b c Hb) as Hlow. assert (forall j, 0 <= j -> Z.testbit (Z.lor (u32 (Z.shiftl x c)) b) j = if j <? c then Z.testbit b j else (j <? 32) && Z.testbit x (j - c)) as El.
  { intros j Hj. rewrite Z.lor_spec, testbit_u32, Z.shiftl_spec by done. destruct (Z.ltb_spec j c); [by rewrite Z.testbit_neg_r, andb_false_r by lia|]. rewrite (Hclear j) by done. apply orb_false_r. }
  destruct (Z.ltb_spec 32 (c + n)).
  - change [?a; ?d] with ([a] ++ [d]). rewrite nbit_app by done. cbn [length]. change (32 * Z.of_nat 1) with 32. rewrite !nbit_one by (done || by eapply word_high_part || lia). rewrite El by done. destruct (Z.ltb_spec k 32); [done|].
    rewrite nbit_one, Z.shiftr_spec by (lia || by eapply (word_high_part x n); lia). rewrite (proj2 (Z.ltb_ge k c)) by lia. f_equal. lia.
  - rewrite nbit_one, El by done. destruct (Z.ltb_spec k c); [done|]. destruct (Z.ltb_spec k 32); [done|]. symmetry. apply (bits_above x n); lia.
Qed.
Lemma AddNeighborIndex_ok x n v : nix_ok v -> 0 <= x < 2 ^ n -> 1 <= n <= 32 -> m_totalBitSize v + n < 2 ^ 32 ->
  exists l, AddNeighborIndex x n v = Some (mkNix l (m_used v) (m_totalBitSize v + n) (m_epoch v)) /\ nix_ok (mkNix l (m_used v) (m_totalBitSize v + n) (m_epoch v)) /\
    forall i, 0 <= i -> nbit l i = if i <? m_totalBitSize v then nbit (m_nixVector v) i else Z.testbit x (i - m_totalBitSize v).
Proof.
  intros Hok Hx Hn Hb. destruct (open_word v Hok) as (l&b&E&Hl&Hwl&Hwb&Hclear&Ebits). destruct Hok as [Hw Hlen [Hu Ht] Hc]. set (c := m_totalBitSize v mod 32) in *. assert (0 <= c < 32) as Hcr by (apply Z.mod_pos_bound; lia).
  unfold AddNeighborIndex. rewrite (proj2 (Z.ltb_ge 32 n)) by lia. cbn [negb NS_ASSERT]. fold c. rewrite E, last_snoc. rewrite (u32_small (c + n)), (u32_small (m_totalBitSize v + n)) by lia. rewrite set_back_snoc.
  set (ws := if 32 <? c + n then [Z.lor (u32 (Z.shiftl x c)) b; Z.shiftr x (32 - c)] else [Z.lor (u32 (Z.shiftl x c)) b]). replace (if 32 <? c + n then (l ++ _) ++ _ else l ++ _) with (l ++ ws) by (unfold ws; destruct (32 <? c + n); [by rewrite <- app_assoc|done]).
  assert (forall i, 0 <= i -> nbit (l ++ ws) i = if i <? m_totalBitSize v then nbit (m_nixVector v) i else Z.testbit x (i - m_totalBitSize v)) as Hbits.
  { intros i Hi. rewrite <- (Ebits i Hi), !nbit_app by done. destruct (Z.ltb_spec i (32 * Z.of_nat (length l))); [by rewrite (proj2 (Z.ltb_lt _ _)) by lia|]. unfold ws. rewrite (packed_bits x n c b) by (done || lia). rewrite nbit_one by (done || lia).
    destruct (Z.ltb_spec (i - 32 * Z.of_nat (length l)) c), (Z.ltb_spec i (m_totalBitSize v)); try lia; [done|]. f_equal. lia. }
  eexists. split; [reflexivity|]. split; [|done]. split; cbn [m_nixVector m_totalBitSize m_used].
  - apply Forall_app. split; [done|]. pose proof (word_low x b c Hwb). pose proof (word_high_part x n c Hcr Hx ltac:(lia)). unfold ws. destruct (32 <? c + n); auto using Forall_cons_2, Forall_nil_2.
  - rewrite length_app. unfold ws. destruct (Z.ltb_spec 32 (c + n)); cbn [length].
    + apply (Z.div_unique_pos _ _ _ (c + n - 33)); lia.
    + apply (Z.div_unique_pos _ _ _ (c + n - 1)); lia.
  - lia.
  - intros i Hi. rewrite Hbits by lia. rewrite (proj2 (Z.ltb_ge _ _)) by lia. apply (bits_above x n); lia.
Qed.

(** ** Extracting an index *)

Lemma nbit_at l q x j : l !! Z.to_nat q = Some x -> 0 <= q -> 0 <= j < 32 -> nbit l (32 * q + j) = Z.testbit x j.
Proof.
  intros E Hq Hj. unfold nbit. replace (32 * q + j) with (j + q * 32) by lia. rewrite Z.div_add, Z.mod_add, Z.div_small, Z.mod_small by lia. by rewrite Z.add_0_l, (nth_lookup_Some _ _ _ _ E).
Qed.
Lemma word_at v q : nix_ok v -> 0 <= q -> 32 * q < m_totalBitSize v -> exists x, m_nixVector v !! Z.to_nat q = Some x /\ word x.
Proof.
  intros [Hw Hlen _ _] Hq Hlt. destruct (lookup_lt_is_Some_2 (m_nixVector v) (Z.to_nat q)) as [x Ex]; [assert (q + 1 <= (m_totalBitSize v + 31) / 32) by (apply Z.div_le_lower_bound; lia); lia|]. exists x. split; [done|]. by apply (proj1 (Forall_lookup word _) Hw _ _ Ex).
Qed.
Section Extract.
Context (wide_shift : Z -> Z).
(** The bits below the top of the remaining ones, at the top of a word. *)
Lemma testbit_shl x r k : 1 <= r < 32 -> 0 <= k -> Z.testbit (shl wide_shift x (32 - r)) k = (k <? 32) && Z.testbit x (k - (32 - r)).
Proof. intros Hr Hk. unfold shl. rewrite (proj2 (Z.ltb_lt _ _)) by lia. by rewrite testbit_u32, Z.shiftl_spec. Qed.
Lemma ExtractNeighborIndex_ok n v : nix_ok v -> 1 <= n <= 32 -> n <= m_totalBitSize v - m_used v -> (m_totalBitSize v - m_used v) mod 32 <> 0 ->
  exists y, ExtractNeighborIndex wide_shift n v = Some (y, mkNix (m_nixVector v) (m_used v + n) (m_totalBitSize v) (m_epoch v)) /\
    forall k, 0 <= k -> Z.testbit y k = (k <? n) && nbit (m_nixVector v) (m_totalBitSize v - m_used v - n + k).
Proof.
  intros Hok Hn Hr Hfull. pose proof Hok as [_ _ [Hu Ht] _]. unfold ExtractNeighborIndex, GetRemainingBits. rewrite (u32_small (_ - _)), (u32_small (m_used v + n)) by lia. set (R := m_totalBitSize v - m_used v) in *.
  rewrite (proj2 (Z.ltb_ge 32 n)), (proj2 (Z.ltb_ge R n)), (proj2 (Z.leb_gt n 0)) by lia. cbn [negb NS_ASSERT]. set (q := (R - 1) / 32). set (r := (R - 1) mod 32 + 1).
  assert (0 <= q /\ 1 <= r <= 32 /\ R = 32 * q + r) as (Hq&Hr32&ER) by (pose proof (Z.div_mod (R - 1) 32); pose proof (Z.mod_pos_bound (R - 1) 32); assert (0 <= q) by (apply Z.div_pos; lia); unfold q, r in *; lia).
  destruct (word_at v q Hok Hq ltac:(lia)) as (x&Ex&Hx). rewrite Ex. replace ((R - 1) mod 32) with (r - 1) by (unfold r; lia). assert (R mod 32 = r mod 32) as EM by (rewrite ER, Z.add_comm, Z.mul_comm; apply Z.mod_add; lia).
  assert (r < 32) as Hr31 by (destruct (Z.eq_dec r 32) as [E32|]; [rewrite E32 in EM; by apply Hfull in EM|lia]). rewrite EM, (Z.mod_small r) by lia.
  destruct ((0 <? q) && (r - 1 <? n - 1)) eqn:Hs; bool_prop.
  - destruct (word_at v (q - 1) Hok ltac:(lia) ltac:(lia)) as (x'&Ex'&Hx'). rewrite Ex'. eexists. split; [reflexivity|]. intros k Hk. rewrite Z.lor_spec, !Z.shiftr_spec by done. rewrite testbit_shl by lia.
    replace (k + (32 - r - (n - r)) <? 32) with (k <? n) by (destruct (Z.ltb_spec k n), (Z.ltb_spec (k + (32 - r - (n - r))) 32); lia). destruct (Z.ltb_spec k n); cbn [andb]; [|apply (word_high x'); lia || done].
    destruct (Z.lt_ge_cases k (n - r)).
    + rewrite (Z.testbit_neg_r x) by lia. cbn [orb]. rewrite <- (nbit_at _ _ _ _ Ex') by lia. f_equal. lia.
    + rewrite (word_high x') by (done || lia). rewrite orb_false_r, <- (nbit_at _ _ _ _ Ex) by lia. f_equal. lia.
  - assert (n <= r) as Hnr by (apply andb_false_iff in Hs as [Hs|Hs]; bool_prop; lia). eexists. split; [reflexivity|]. intros k Hk. rewrite Z.shiftr_spec, testbit_shl by lia.
    replace (k + (32 - n) <? 32) with (k <? n) by (destruct (Z.ltb_spec k n), (Z.ltb_spec (k + (32 - n)) 32); lia). destruct (Z.ltb_spec k n); cbn [andb]; [|done]. rewrite <- (nbit_at _ _ _ _ Ex) by lia. f_equal. lia.
Qed.
End Extract.

(** ** Widths *)

Lemma bit_count_loop_log2 fuel m c : 0 < m < 2 ^ Z.of_nat fuel -> bit_count_loop fuel m c = c + Z.log2 m + 1.
Proof.
  revert m c. induction fuel as [|fuel IH]; intros m c Hm; [cbn in Hm; lia|]. cbn [bit_count_loop]. rewrite (proj2 (Z.eqb_neq m 0)) by lia. rewrite Nat2Z.inj_succ, Z.pow_succ_r in Hm by lia. rewrite <- Z.div2_spec, Z.div2_div.
  destruct (Z.eq_dec m 1) as [->|]; [change (1 / 2) with 0; change (Z.log2 1) with 0; destruct fuel; cbn [bit_count_loop Z.eqb]; lia|]. assert (0 < m / 2 < 2 ^ Z.of_nat fuel) as Hh by (split; [apply Z.div_str_pos; lia|apply Z.div_lt_upper_bound; lia]). rewrite IH by done.
  assert (Z.log2 m = Z.log2 (m / 2) + 1) as ->; [|lia]. rewrite <- Z.div2_div, Z.div2_spec, Z.log2_shiftr by lia. pose proof (Z.log2_le_mono 2 m ltac:(lia)) as H2. change (Z.log2 2) with 1 in H2. lia.
Qed.
(** Every index of a neighbour fits, in at most 32 bits. *)
Lemma BitCount_ok k : 1 <= k < 2 ^ 32 -> 1 <= BitCount k <= 32 /\ k <= 2 ^ BitCount k.
Proof.
  intros Hk. unfold BitCount. destruct (Z.ltb_spec k 2); [change (2 ^ 1) with 2; lia|]. rewrite bit_count_loop_log2 by (change (Z.of_nat 32) with 32; lia). pose proof (Z.log2_spec (k - 1) ltac:(lia)) as Hl. pose proof (Z.log2_nonneg (k - 1)).
  assert (Z.log2 (k - 1) < 32) by (apply Z.log2_lt_pow2; lia). replace (0 + Z.log2 (k - 1) + 1) with (Z.succ (Z.log2 (k - 1))) by lia. lia.
Qed.

(** ** In packets *)

Lemma words_of_bits t : 0 <= t < 2 ^ 32 -> u32 (t / 32 + (if t mod 32 =? 0 then 0 else 1)) = (t + 31) / 32.
Proof.
  intros Ht. pose proof (Z.div_mod t 32 ltac:(lia)). pose proof (Z.mod_pos_bound t 32 ltac:(lia)). assert (t / 32 < 2 ^ 27) by (apply Z.div_lt_upper_bound; lia). assert (0 <= t / 32) by (apply Z.div_pos; lia).
  destruct (Z.eqb_spec (t mod 32) 0); rewrite u32_small by lia; [apply (Z.div_unique_pos _ _ _ 31)|apply (Z.div_unique_pos _ _ _ (t mod 32 - 1))]; lia.
Qed.
Lemma packet_nix_round_trip v size rest : nix_ok v -> 0 < m_totalBitSize v -> GetSerializedSize v + 4 <= size ->
  exists l, packet_nix_Serialize size (Some v) = Some l /\ packet_nix_Deserialize size (l ++ rest) = Some (Some (Some v, rest)).
Proof.
  intros [Hw Hlen [Hu Ht] _] Hpos Hsize. set (k := (m_totalBitSize v + 31) / 32) in *. assert (1 <= k <= 2 ^ 27) as Hk by (split; [apply Z.div_le_lower_bound; lia|unfold k; assert ((m_totalBitSize v + 31) / 32 < 2 ^ 27 + 1) by (apply Z.div_lt_upper_bound; lia); lia]).
  assert (GetSerializedSize v = 12 + 4 * k) as Es by (unfold GetSerializedSize; rewrite (proj2 (Z.eqb_neq _ _)), Hlen, u32_small by lia; lia).
  unfold packet_nix_Serialize, Serialize. rewrite (proj2 (Z.ltb_ge size _)), Z.ltb_irrefl by lia. rewrite (proj2 (Z.eqb_neq (m_totalBitSize v) 0)) by lia. cbn [Z.eqb]. eexists. split; [reflexivity|]. unfold packet_nix_Deserialize. cbn [app]. rewrite Es, u32_small by lia.
  rewrite (proj2 (Z.leb_le _ size)), (proj2 (Z.ltb_lt 4 _)) by lia. cbn [NS_ASSERT]. unfold Deserialize. rewrite (proj2 (Z.leb_le 4 _)), (proj2 (Z.eqb_neq (m_totalBitSize v) 0)), words_of_bits by lia. fold k. cbn [NS_ASSERT].
  rewrite (u32_small (k * 4)), (u32_small (16 + k)), (u32_small (16 + k * 4)) by lia. rewrite (proj2 (Z.leb_le (16 + k) _)), (proj2 (Z.ltb_ge _ (16 + k * 4))) by lia. cbn [NS_ASSERT]. rewrite <- app_assoc. rewrite (proj2 (Z.ltb_lt k _)) by (rewrite !length_app; cbn [length]; lia). cbn [NS_ASSERT].
  assert (Z.to_nat k = length (m_nixVector v)) as Ek by lia. rewrite Ek. change ([m_epoch v] ++ rest) with (m_epoch v :: rest). rewrite list_lookup_middle, take_app_length by done. destruct v as [l used total epoch]. cbn [m_nixVector m_used m_totalBitSize m_epoch] in *. rewrite Es, (proj2 (Z.eqb_neq _ 0)) by lia.
  change 3 with (Z.ones 2) at 2. rewrite Z.ldiff_ones_r, Z.shiftl_mul_pow2, Z.shiftr_div_pow2 by lia. change (2 ^ 2) with 4. rewrite Z.div_mul by lia. rewrite u32_small by lia. replace (12 + 4 * k + 4 - 4 + 3) with (3 + (3 + k) * 4) by lia. rewrite Z.div_add by lia. change (3 / 4) with 0.
  do 4 f_equal. replace (Z.to_nat (0 + (3 + k))) with (2 + (length l + 1))%nat by lia. cbn [drop plus]. by rewrite <- drop_drop, drop_app_length.
Qed.

(** ** Routes *)

(** The hops of a path, from the source: the index of the next node and the number of
    neighbours. The vector is built on the way back, the last hop first. *)
Fixpoint build (epoch : Z) (hops : list (Z * Z)) : option NixVector :=
  match hops with
  | [] => Some (SetEpoch epoch NixVector_new)
  | (i, k) :: hops => let* v := build epoch hops in AddNeighborIndex i (BitCount k) v
  end.
(** Every node reads the packet, takes its index and sends the packet on. *)
Fixpoint follow (wide_shift : Z -> Z) (hops : list (Z * Z)) (v : NixVector) : option (list Z * NixVector) :=
  match hops with
  | [] => Some ([], v)
  | (_, k) :: hops =>
      let* l := packet_nix_Serialize (GetSerializedSize v + 4) (Some v) in
      let* r := packet_nix_Deserialize (GetSerializedSize v + 4) l in
      let* (nix, _) := r in
      let* v := nix in
      let* (i, v) := ExtractNeighborIndex wide_shift (BitCount k) v in
      let* (l, v) := follow wide_shift hops v in Some (i :: l, v)
  end.
Definition hop_ok (hop : Z * Z) : Prop := 0 <= hop.1 < hop.2 /\ hop.2 < 2 ^ 32.
Definition width (hops : list (Z * Z)) : Z := foldr (fun hop s => BitCount hop.2 + s) 0 hops.
(** At no hop the bits that remain fill a number of whole words. *)
Fixpoint no_full_word (hops : list (Z * Z)) : Prop :=
  match hops with [] => True | _ :: rest => width hops mod 32 <> 0 /\ no_full_word rest end.
(** The lowest [width hops] bits are those of the hops, the first on top. *)
Fixpoint stacked (b : Z -> bool) (hops : list (Z * Z)) : Prop :=
  match hops with
  | [] => True
  | (i, k) :: hops => (forall j, 0 <= j < BitCount k -> b (width hops + j) = Z.testbit i j) /\ stacked b hops
  end.
Lemma hop_width hop : hop_ok hop -> 1 <= BitCount hop.2 <= 32 /\ 0 <= hop.1 < 2 ^ BitCount hop.2.
Proof. intros [Hi Hk]. pose proof (BitCount_ok hop.2 ltac:(lia)). lia. Qed.
Lemma width_nonneg hops : Forall hop_ok hops -> 0 <= width hops.
Proof. induction 1 as [|hop hops Hh _ IH]; [done|]. cbn [width foldr]. fold (width hops). pose proof (hop_width hop Hh). lia. Qed.
Lemma stacked_ext b b' hops : Forall hop_ok hops -> (forall j, 0 <= j < width hops -> b j = b' j) -> stacked b hops -> stacked b' hops.
Proof.
  induction 1 as [|[i k] hops Hh Hf IH]; intros Hb; [done|]. cbn [stacked width foldr snd] in *. fold (width hops) in *. pose proof (width_nonneg hops Hf). pose proof (hop_width _ Hh) as [Hw _]. cbn [snd] in Hw. intros [Hi Hs]. split; [|apply IH; [|done]; intros; apply Hb; lia].
  intros j Hj. rewrite <- Hi by done. symmetry. apply Hb. lia.
Qed.
Lemma empty_ok epoch : nix_ok (SetEpoch epoch NixVector_new).
Proof. split; cbn; [constructor|reflexivity|lia|]. intros i _. unfold nbit. rewrite nth_overflow by (cbn; lia). apply Z.bits_0. Qed.
Lemma build_ok epoch hops : Forall hop_ok hops -> width hops < 2 ^ 32 ->
  exists v, build epoch hops = Some v /\ nix_ok v /\ m_used v = 0 /\ m_totalBitSize v = width hops /\ m_epoch v = epoch /\ stacked (nbit (m_nixVector v)) hops.
Proof.
  induction 1 as [|[i k] hops Hh Hf IH]; intros Hw; cbn [build width foldr snd] in *; [eexists; split; [reflexivity|]; split; [apply empty_ok|done]|]. fold (width hops) in *. pose proof (hop_width _ Hh) as [Hk Hi]. cbn [fst snd] in Hk, Hi.
  destruct IH as (v&->&Hok&Eu&Et&Ee&Hs); [lia|]. destruct (AddNeighborIndex_ok i (BitCount k) v Hok Hi Hk ltac:(lia)) as (l&->&Hok'&Hb). eexists. split; [reflexivity|]. cbn [m_used m_totalBitSize m_epoch m_nixVector stacked]. pose proof (width_nonneg hops Hf). split_and!; [done|done|lia|done| |].
  - intros j Hj. rewrite Hb, Et, (proj2 (Z.ltb_ge _ _)) by lia. f_equal. lia.
  - eapply stacked_ext; [done| |exact Hs]. intros j Hj. by rewrite Hb, Et, (proj2 (Z.ltb_lt _ _)) by lia.
Qed.
Lemma follow_ok wide_shift hops v : no_full_word hops -> Forall hop_ok hops -> nix_ok v -> m_totalBitSize v - m_used v = width hops -> stacked (nbit (m_nixVector v)) hops ->
  follow wide_shift hops v = Some (fst <$> hops, mkNix (m_nixVector v) (m_totalBitSize v) (m_totalBitSize v) (m_epoch v)).
Proof.
  intros Hm Hf. revert v Hm. induction Hf as [|[i k] hops Hh Hf IH]; intros v Hm Hok Er Hs; cbn [no_full_word follow width foldr stacked fmap list_fmap fst snd] in *.
  { destruct v as [l u t e]. cbn in *. by replace u with t by lia. }
  fold (width hops) in *. destruct Hm as [Hm1 Hm]. pose proof (hop_width _ Hh) as [Hk Hi]. cbn [fst snd] in Hk, Hi. destruct Hs as [Hij Hs]. pose proof (width_nonneg hops Hf). pose proof Hok as [_ _ [Hu Ht] _].
  destruct (packet_nix_round_trip v (GetSerializedSize v + 4) [] Hok) as (l&->&El); [lia|lia|]. rewrite app_nil_r in El. rewrite El.
  destruct (ExtractNeighborIndex_ok wide_shift (BitCount k) v Hok Hk) as (y&->&Hy); [lia|by rewrite Er|]. assert (y = i) as ->.
  { apply Z.bits_inj'. intros j Hj. rewrite Hy by done. destruct (Z.ltb_spec j (BitCount k)); [rewrite <- Hij by lia; cbn [andb]; f_equal; lia|]. symmetry. apply (bits_above i (BitCount k)); lia. }
  rewrite IH; cbn [m_nixVector m_used m_totalBitSize m_epoch]; [done|done| |lia|done]. destruct Hok as [Hw Hlen _ Hc]. split; cbn [m_nixVector m_used m_totalBitSize]; [done|done|lia|done].
Qed.

(** C24: A nix-vector carries a route. Built from the destination back, with the number of
    bits each node's neighbours need, and written to and read from the packet at every
    hop, it gives each node on the path the index of the next one, and nothing is left at
    the end. The routes are those on which at no hop the bits that remain are a multiple
    of 32: there the code shifts a word by its width, which the language leaves undefined
    ([full_word_lost]). On these routes no such shift is made. *)
Theorem nix_route_followed wide_shift epoch hops : Forall hop_ok hops -> width hops < 2 ^ 32 -> no_full_word hops ->
  exists v v', build epoch hops = Some v /\ follow wide_shift hops v = Some (fst <$> hops, v') /\ GetRemainingBits v' = 0 /\ m_epoch v' = epoch.
Proof.
  intros Hf Hw Hm. destruct (build_ok epoch hops Hf Hw) as (v&E&Hok&Eu&Et&Ee&Hs). eexists v, _. split; [done|]. split; [apply follow_ok; auto; lia|]. unfold GetRemainingBits. cbn. by rewrite Z.sub_diag.
Qed.
Definition demo_hops : list (Z * Z) := [(2, 4); (0, 1); (70000, 100000); (5, 7); (1023, 1024); (3, 4); (6, 1000)].
Lemma demo_hops_ok : Forall hop_ok demo_hops.
Proof. repeat (apply Forall_cons; split; [unfold hop_ok; cbn; lia|]). constructor. Qed.
Lemma nix_route_followed_witness : exists v v', build 7 demo_hops = Some v /\ follow (fun _ => 0) demo_hops v = Some ([2; 0; 70000; 5; 1023; 3; 6], v') /\ GetRemainingBits v' = 0 /\ m_epoch v' = 7.
Proof. apply (nix_route_followed (fun _ => 0) 7 demo_hops demo_hops_ok); [reflexivity|]. vm_compute. repeat split; discriminate. Defined.
(** Where a shift by 32 gives 0, four hops of eight bits lose the first index. *)
Lemma full_word_lost : (let* v := build 0 [(200, 256); (1, 256); (2, 256); (3, 256)] in let* r := follow (fun _ => 0) [(200, 256); (1, 256); (2, 256); (3, 256)] v in Some r.1) = Some [0; 1; 2; 3].
Proof. vm_compute. reflexivity. Qed.
(** With room for the vector but not for the word with its size, five words are written
    where the limit is four. *)
Lemma size_word_not_counted : (let* v := AddNeighborIndex 1 8 NixVector_new in let* l := packet_nix_Serialize 16 (Some v) in Some (4 * Z.of_nat (length l))) = Some 20.
Proof. vm_compute. reflexivity. Qed.
End NixVectorProps.
