(* ===== verification/Wire.v ===== *)
(** * Headers in packets (src/network/model/packet.cc, network/utils/address-utils.cc)

    What protocol headers share: adding a header to a packet and removing it, the
    contract a header class keeps towards the packet, and the checksum over a pseudo
    header, which TCP and UDP compute in a buffer of their own. *)

From S2P Require Import Prelude Buffer BufferIterator BufferInv BufferRw BufferProps Checksum.

Module Wire.
Import Buffer Iterator BufferInv BufferRw BufferProps Checksum.

(** ** Packets and headers *)

Section Packet.
Context (uninit : Z -> nat -> Z).

(** The part of [Packet::AddHeader] and [Packet::RemoveHeader] that is about bytes. *)
Definition AddHeader (size : Z) (Serialize : Iterator -> Mem -> option Mem) (b : Buffer) (m : Mem) : option (Buffer * Mem) :=
  let* (b, m) := AddAtStart uninit size b m in
  let* m := Serialize (Begin b) m in
  Some (b, m).
Definition RemoveHeader {H} (Deserialize : Iterator -> Mem -> option (Z * H * Mem)) (b : Buffer) (m : Mem) : option (Z * H * Buffer * Mem) :=
  let* (deserialized, h, m) := Deserialize (Begin b) m in
  let* b := RemoveAtStart deserialized b in
  Some (deserialized, h, b, m).

(** ** Addresses *)

(** The addresses a pseudo header is made of; [NoAddress] is the default [Address]. *)
Inductive NetAddress := V4 (a : Z) | V6 (bytes : list Z) | NoAddress.
Definition IsIpv4 (a : NetAddress) : bool := match a with V4 _ => true | _ => false end.
Definition IsIpv6 (a : NetAddress) : bool := match a with V6 _ => true | _ => false end.
Definition address_bytes (a : NetAddress) : list Z := match a with V4 a => be 4 a | V6 l => l | NoAddress => [] end.
Definition WriteTo (a : NetAddress) (i : Iterator) (m : Mem) : option (Iterator * Mem) := Write_bytes (address_bytes a) i m.

(** ** The checksum of a pseudo header *)

Definition MAX_SIZE : Z := 20.
Definition pseudo_v4 (protocol size : Z) (i : Iterator) (m : Mem) : option (Iterator * Mem) :=
  let* (i, m) := WriteU8 0 i m in
  let* (i, m) := WriteU8 protocol i m in
  let* (i, m) := WriteU8 (Z.shiftr size 8) i m in
  WriteU8 (Z.land size 255) i m.
Definition pseudo_v6 (protocol size : Z) (i : Iterator) (m : Mem) : option (Iterator * Mem) :=
  let* (i, m) := WriteU16 0 i m in
  let* (i, m) := WriteU8 (Z.shiftr size 8) i m in
  let* (i, m) := WriteU8 (Z.land size 255) i m in
  let* (i, m) := WriteU16 0 i m in
  let* (i, m) := WriteU8 0 i m in
  WriteU8 protocol i m.
(** The buffer is created, filled by [write], summed over [hdrSize] bytes, destroyed. *)
Definition scratch_checksum (write : Iterator -> Mem -> option (Iterator * Mem)) (hdrSize : Z) (m : Mem) : option (Z * Mem) :=
  let* (buf, m) := Initialize uninit (2 * MAX_SIZE + 8) m in
  let* (buf, m) := AddAtStart uninit (2 * MAX_SIZE + 8) buf m in
  let* (_, m) := write (Begin buf) m in
  let* (sum, _) := CalculateIpChecksum hdrSize 0 (Begin buf) m in
  let* m := destroy buf m in
  Some (u16 (Z.lnot sum), m).
End Packet.

(** ** The contract of a header *)

(** The first [n] bytes of [b] may be written: no other buffer sees them. *)
Definition room (b : Buffer) (n : Z) (bs : list Buffer) : Prop := private b (m_start b) (m_start b + n) bs /\ m_start b + n <= m_zeroAreaStart b.
(** Memory as the buffers see it. *)
Definition same_contents (m m' : Mem) (bs : list Buffer) : Prop := forall e, e ∈ bs -> content m' e = content m e.
Definition few (bs : list Buffer) : Prop := Z.of_nat (length bs) + 4 < 2 ^ 32.

(** [Serialize] fills the [n] bytes before the payload; [Deserialize] reads them and
    returns their number and a header related to the payload by [out]. [fits] is what
    the header asks of the payload. *)
Class HeaderLaws {H} (n : Z) (Serialize : Iterator -> Mem -> option Mem) (Deserialize : Iterator -> Mem -> option (Z * H * Mem))
    (fits : list Z -> Prop) (out : list Z -> H -> Prop) : Prop := {
  law_size : 0 <= n <= MAX_CONTENT;
  law_round m b bs x payload : inv m (b :: bs) -> few bs -> content m b = x ++ payload -> zlen x = n -> room b n bs -> byte_list payload -> fits payload ->
    exists hdr m' h, Serialize (Begin b) m = Some m' /\ inv m' (b :: bs) /\ content m' b = hdr ++ payload /\ zlen hdr = n /\ byte_list hdr /\ same_contents m m' bs /\ out payload h /\
      (forall m2 b2 bs2, inv m2 (b2 :: bs2) -> few bs2 -> content m2 b2 = hdr ++ payload ->
        exists m3, Deserialize (Begin b2) m2 = Some (n, h, m3) /\ inv m3 (b2 :: bs2) /\ same_contents m2 m3 (b2 :: bs2))
}.

(** ** Shared lemmas *)

Lemma same_contents_refl m bs : same_contents m m bs.
Proof. done. Qed.
Lemma same_contents_trans m1 m2 m3 bs : same_contents m1 m2 bs -> same_contents m2 m3 bs -> same_contents m1 m3 bs.
Proof. intros H1 H2 e He. by rewrite H2, H1. Qed.
Lemma same_sub m1 m2 bs bs' : (forall e, e ∈ bs' -> e ∈ bs) -> same_contents m1 m2 bs -> same_contents m1 m2 bs'.
Proof. intros Hs H e He. by apply H, Hs. Qed.

(** A writer in the room at the start of a buffer. *)
Lemma write_in_room w src k n m b bs : writes w src -> inv m (b :: bs) -> room b n bs -> n <= zlen (content m b) ->
  0 <= k -> k + zlen src <= n -> src <> [] ->
  exists m', w (Construct b (m_start b + k)) m = Some (Construct b (m_start b + k + zlen src), m') /\ inv m' (b :: bs) /\
    content m' b = splice k src (content m b) /\ same_contents m m' bs.
Proof.
  intros Hw Hi [Hp Hz] Hn Hk Hkn Hne. pose proof (content_size _ _ _ Hi) as Hcs. destruct (inv_offsets _ _ _ Hi) as (O1&O2&O3).
  assert (0 < zlen src) by (destruct src; [done|unfold zlen; cbn [length]; lia]).
  assert (phys b (m_start b + k) = m_start b + k) as Hph by (unfold phys; rewrite (proj2 (Z.ltb_lt _ _)); lia).
  destruct (Hw (m_start b + k) m b bs Hi) as (m'&E&Hi'&Hc&Ho); [split_and!; lia| |].
  - rewrite Hph. intros e He Ee. destruct (Hp e He Ee); lia.
  - exists m'. split_and!; try done. rewrite Hc. f_equal. lia.
Qed.
(** A writer of all the bytes before the payload. *)
Lemma write_prefix w src m b bs x payload : writes w src -> inv m (b :: bs) -> room b (zlen src) bs -> content m b = x ++ payload -> zlen x = zlen src -> src <> [] ->
  exists m', w (Begin b) m = Some (Construct b (m_start b + zlen src), m') /\ inv m' (b :: bs) /\ content m' b = src ++ payload /\ same_contents m m' bs.
Proof.
  intros Hw Hi Hr Hc Hx Hne. pose proof (zlen_nonneg payload).
  destruct (write_in_room w src 0 (zlen src) m b bs Hw Hi Hr) as (m'&E&Hi'&Hc'&Ho); [rewrite Hc, zlen_app; lia|lia..|done|].
  rewrite Z.add_0_r in E. exists m'. split_and!; try done. rewrite Hc', Hc. by apply splice_start.
Qed.
(** A 16-bit field of the header, written by [WriteU16]. *)
Lemma write_field v n m b bs pre old post : inv m (b :: bs) -> room b n bs -> content m b = pre ++ old ++ post -> zlen old = 2 -> zlen pre + 2 <= n -> n <= zlen (content m b) ->
  exists m' i, (let* i := Next (zlen pre) (Begin b) in WriteU16 v i m) = Some (i, m') /\ inv m' (b :: bs) /\
    content m' b = pre ++ [byte_at 0 v; byte_at 8 v] ++ post /\ same_contents m m' bs.
Proof.
  intros Hi Hr Hc Ho Hn Hle. pose proof (zlen_nonneg pre). pose proof (content_size _ _ _ Hi) as Hcs. destruct (inv_offsets _ _ _ Hi) as (O1&O2&O3).
  assert (Next (zlen pre) (Begin b) = Some (Construct b (m_start b + zlen pre))) as ->.
  { unfold Next, Begin. simpl. rewrite (u32_small (m_start b + zlen pre)) by lia. by rewrite (proj2 (Z.leb_le _ _)) by lia. }
  assert (writes (WriteU16 v) (rev (be 2 v))) as Hw by (eapply writes_ext; [apply WriteU16_seq|by apply writes_Write_seq]).
  destruct (write_in_room _ _ (zlen pre) n m b bs Hw Hi Hr) as (m'&E&Hi'&Hc'&Hs); [done|lia|change (zlen (rev (be 2 v))) with 2; lia|done|].
  exists m', (Construct b (m_start b + zlen pre + zlen (rev (be 2 v)))). split_and!; try done. rewrite Hc', Hc. by apply (splice_middle (rev (be 2 v))).
Qed.

(** The checksum of a whole buffer. *)
Lemma whole_checksum initial m b bs : inv m (b :: bs) -> byte_list (content m b) -> zlen (content m b) < 65536 -> 0 <= initial <= 65535 ->
  CalculateIpChecksum (zlen (content m b)) initial (Begin b) m = Some (checksum_of initial (content m b), Construct b (m_end b)).
Proof.
  intros Hi Hb Hlt Hin. pose proof (content_size _ _ _ Hi) as Hcs. pose proof (zlen_nonneg (content m b)). pose proof (word_sum_bound _ Hb).
  pose proof (CalculateIpChecksum_ok (zlen (content m b)) initial (m_start b) m b bs Hi) as Hx. cbv zeta in Hx. rewrite Z.sub_diag in Hx.
  unfold slice in Hx. rewrite drop_0, take_ge in Hx by (unfold zlen in *; lia). unfold Begin. rewrite Hx; [|lia..|done|lia|nia].
  by replace (m_start b + zlen (content m b)) with (m_end b) by lia.
Qed.
Lemma checksum_range initial l : 0 <= initial -> byte_list l -> 0 <= checksum_of initial l <= 65535.
Proof. intros H0 Hb. pose proof (word_sum_bound _ Hb) as [Hw _]. unfold checksum_of. pose proof (ones_sum_range (initial + word_sum l)). lia. Qed.
(** The complement of a sum verifies it, also as all ones for zero. *)
Lemma field_sum v pre post : Nat.Even (length pre) -> 0 <= v < 65536 -> word_sum (pre ++ [byte_at 0 v; byte_at 8 v] ++ post) = word_sum (pre ++ [0; 0] ++ post) + v.
Proof.
  intros He Hv. rewrite (word_sum_app pre ([byte_at 0 v; byte_at 8 v] ++ post)), (word_sum_app pre ([0; 0] ++ post)) by done.
  cbn [app word_sum]. pose proof (two_bytes v Hv). lia.
Qed.
Lemma sealed_verifies initial pre post : 0 <= initial -> Nat.Even (length pre) -> byte_list (pre ++ [0; 0] ++ post) ->
  let ck := checksum_of initial (pre ++ [0; 0] ++ post) in checksum_of initial (pre ++ [byte_at 0 ck; byte_at 8 ck] ++ post) = 0.
Proof.
  intros H0 He Hb ck. pose proof (checksum_range initial _ H0 Hb) as Hr. fold ck in Hr. pose proof (word_sum_bound _ Hb) as [Hw _].
  unfold checksum_of at 1. rewrite field_sum by (done || lia). unfold ck, checksum_of.
  replace (initial + (word_sum _ + _)) with (initial + word_sum (pre ++ [0; 0] ++ post) + (65535 - ones_sum (initial + word_sum (pre ++ [0; 0] ++ post)))) by lia.
  rewrite ones_sum_complement by lia. done.
Qed.
Lemma all_ones_verifies initial pre post : 0 <= initial -> Nat.Even (length pre) -> byte_list (pre ++ [0; 0] ++ post) ->
  checksum_of initial (pre ++ [0; 0] ++ post) = 0 -> checksum_of initial (pre ++ [255; 255] ++ post) = 0.
Proof.
  intros H0 He Hb Hz. pose proof (word_sum_bound _ Hb) as [Hw _]. change [255; 255] with [byte_at 0 65535; byte_at 8 65535].
  unfold checksum_of in *. rewrite field_sum by (done || lia). set (s := initial + word_sum (pre ++ [0; 0] ++ post)) in *.
  replace (initial + (word_sum _ + 65535)) with (s + 65535) by (unfold s; lia). assert (ones_sum s = 65535) as E by lia.
  unfold ones_sum in *. destruct (s =? 0) eqn:Es; [lia|]. rewrite (proj2 (Z.eqb_neq _ _)) by lia.
  replace (s + 65535 - 1) with (s - 1 + 1 * 65535) by lia. rewrite Z.mod_add by lia. lia.
Qed.

(** A pseudo header is summed without a trace in memory. *)
Lemma u16_lnot_sum s : 0 <= s <= 65535 -> u16 (Z.lnot (65535 - s)) = s.
Proof. intros H. unfold u16, wrap, Z.lnot. symmetry. apply Z.mod_unique with (-1); lia. Qed.
Lemma scratch_checksum_ok uninit w src m bs : writes w src -> src <> [] -> byte_list src -> zlen src <= 48 -> inv m bs -> Z.of_nat (length bs) + 3 < 2 ^ 32 ->
  exists m', scratch_checksum uninit w (zlen src) m = Some (ones_sum (word_sum src), m') /\ inv m' bs /\ same_contents m m' bs.
Proof.
  intros Hw Hne Hb Hlen Hi Hf. unfold scratch_checksum. change (2 * MAX_SIZE + 8) with 48.
  destruct (Initialize_ok uninit 48 m bs Hi) as (b&m1&->&Hi1&Hc1&Ho1&_); [unfold MAX_CONTENT; lia|lia|].
  destruct (AddAtStart_ok uninit 48 m1 b bs Hi1) as ([b2 m2]&->&Hi2&(x&Hx&Hc2)&Ho2&Hp&Hz&_); [lia|rewrite Hc1; unfold MAX_CONTENT, zlen; rewrite length_replicate; lia|lia|].
  pose proof (content_size _ _ _ Hi2) as Hcs. rewrite Hc2, zlen_app, Hx in Hcs. pose proof (zlen_nonneg (content m1 b)). pose proof (zlen_nonneg src).
  destruct (write_in_room w src 0 48 m2 b2 bs Hw Hi2) as (m3&E3&Hi3&Hc3&Ho3); [done|rewrite Hc2, zlen_app; lia|lia..|done|].
  rewrite Z.add_0_r in E3. unfold Begin. rewrite E3.
  assert (slice 0 (0 + zlen src) (content m3 b2) = src) as Hsl by (rewrite Hc3, Hc2; apply splice_slice; [lia|rewrite zlen_app; lia]).
  pose proof (CalculateIpChecksum_ok (zlen src) 0 (m_start b2) m3 b2 bs Hi3) as Hck. cbv zeta in Hck. rewrite Z.sub_diag, Hsl in Hck.
  pose proof (word_sum_bound _ Hb). rewrite Hck by (done || lia). unfold checksum_of. rewrite Z.add_0_l.
  destruct (destroy_ok m3 b2 bs Hi3) as (m4&->&Hi4&Ho4). pose proof (ones_sum_range (word_sum src) ltac:(lia)). exists m4. rewrite u16_lnot_sum by lia.
  split_and!; try done. intros e He. by rewrite Ho4, Ho3, Ho2, Ho1.
Qed.

(** ** Pseudo headers *)

(** Two addresses of one family. *)
Definition net_ok (s d : NetAddress) : Prop :=
  match s, d with
  | V4 _, V4 _ => True
  | V6 l, V6 l' => zlen l = 16 /\ zlen l' = 16 /\ byte_list l /\ byte_list l'
  | _, _ => False
  end.
Definition pseudo_bytes (s d : NetAddress) (protocol size : Z) : list Z :=
  address_bytes s ++ address_bytes d ++
  (if IsIpv4 s then [0; protocol; Z.shiftr size 8; Z.land size 255] else [0; 0; Z.shiftr size 8; Z.land size 255; 0; 0; 0; protocol]).
Definition pseudo_sum (s d : NetAddress) (protocol size : Z) : Z := ones_sum (word_sum (pseudo_bytes s d protocol size)).
Definition write_both (s d : NetAddress) (protocol size : Z) (i : Iterator) (m : Mem) : option (Iterator * Mem) :=
  let* (i, m) := WriteTo s i m in
  let* (i, m) := WriteTo d i m in
  if IsIpv4 s then pseudo_v4 protocol size i m else pseudo_v6 protocol size i m.

Lemma writes_U16_le v : writes (WriteU16 v) [byte_at 0 v; byte_at 8 v].
Proof. eapply writes_ext; [apply WriteU16_seq|by apply (writes_Write_seq (rev (be 2 v)))]. Qed.
Lemma writes_bytes_eq w s s' : writes w s -> s = s' -> writes w s'.
Proof. by intros Hw <-. Qed.
(** A writer made of [n] + 1 writes. *)
Ltac one_write := first [apply writes_U8 | apply writes_HtonU16 | apply writes_HtonU32 | apply writes_U16_le | apply writes_bytes].
Ltac write_steps n :=
  lazymatch n with
  | O => one_write
  | S ?k => eapply writes_seq; [one_write|write_steps k|discriminate]
  end.
Lemma writes_pseudo_v4 protocol size : writes (pseudo_v4 protocol size) [0; protocol; Z.shiftr size 8; Z.land size 255].
Proof. eapply writes_bytes_eq; [unfold pseudo_v4; write_steps 3%nat|reflexivity]. Qed.
Lemma writes_pseudo_v6 protocol size : writes (pseudo_v6 protocol size) [0; 0; Z.shiftr size 8; Z.land size 255; 0; 0; 0; protocol].
Proof. eapply writes_bytes_eq; [unfold pseudo_v6; write_steps 5%nat|reflexivity]. Qed.
Lemma writes_both s d protocol size : writes (write_both s d protocol size) (pseudo_bytes s d protocol size).
Proof.
  unfold write_both, pseudo_bytes. destruct (IsIpv4 s).
  - eapply writes_seq; [apply writes_bytes|eapply writes_seq; [apply writes_bytes|apply writes_pseudo_v4|discriminate]|]. by destruct (address_bytes d).
  - eapply writes_seq; [apply writes_bytes|eapply writes_seq; [apply writes_bytes|apply writes_pseudo_v6|discriminate]|]. by destruct (address_bytes d).
Qed.
Lemma be_byte_list n v : byte_list (be n v).
Proof. induction n; simpl; constructor; [apply byte_at_range; lia|done]. Qed.
Lemma land_255_range x : 0 <= Z.land x 255 < 256.
Proof. change 255 with (Z.ones 8). rewrite Z.land_ones by lia. apply Z.mod_pos_bound. lia. Qed.
Lemma shiftr_8_range x : 0 <= x < 65536 -> 0 <= Z.shiftr x 8 < 256.
Proof. intros H. rewrite Z.shiftr_div_pow2 by lia. split; [apply Z.div_pos; lia|apply Z.div_lt_upper_bound; lia]. Qed.
Lemma pseudo_bytes_ok s d protocol size : net_ok s d -> 0 <= protocol < 256 -> 0 <= size < 65536 ->
  byte_list (pseudo_bytes s d protocol size) /\ zlen (pseudo_bytes s d protocol size) = if IsIpv4 s then 12 else 40.
Proof.
  intros Hn Hp Hs. pose proof (shiftr_8_range size Hs). pose proof (land_255_range size). unfold pseudo_bytes.
  destruct s as [a|l|], d as [a'|l'|]; try done; cbn [net_ok address_bytes IsIpv4] in *.
  - split; [|reflexivity]. apply Forall_app. split; [apply be_byte_list|]. apply Forall_app. split; [apply be_byte_list|]. repeat constructor; lia.
  - destruct Hn as (H1&H2&H3&H4). split; [|rewrite !zlen_app, H1, H2; reflexivity]. apply Forall_app. split; [done|]. apply Forall_app. split; [done|]. repeat constructor; lia.
Qed.
Lemma pseudo_sum_range s d protocol size : net_ok s d -> 0 <= protocol < 256 -> 0 <= size < 65536 -> 0 <= pseudo_sum s d protocol size <= 65535.
Proof. intros Hn Hp Hs. destruct (pseudo_bytes_ok s d protocol size Hn Hp Hs) as [Hb _]. apply ones_sum_range. apply (word_sum_bound _ Hb). Qed.
Lemma scratch_pseudo uninit w s d protocol size m bs : (forall i m, w i m = write_both s d protocol size i m) -> net_ok s d -> 0 <= protocol < 256 -> 0 <= size < 65536 ->
  inv m bs -> Z.of_nat (length bs) + 3 < 2 ^ 32 ->
  exists m', scratch_checksum uninit w (if IsIpv4 s then 12 else 40) m = Some (pseudo_sum s d protocol size, m') /\ inv m' bs /\ same_contents m m' bs.
Proof.
  intros Hw Hn Hp Hs Hi Hf. destruct (pseudo_bytes_ok s d protocol size Hn Hp Hs) as [Hb Hl]. rewrite <- Hl.
  apply scratch_checksum_ok; try done; [by eapply writes_ext; [exact Hw|apply writes_both]| |rewrite Hl; by destruct (IsIpv4 s)].
  intros E. rewrite E in Hl. by destruct (IsIpv4 s).
Qed.

(** A buffer as iterators see it. *)
Lemma IterSize_Begin m b bs : inv m (b :: bs) -> IterSize (Begin b) = zlen (content m b).
Proof.
  intros Hi. pose proof (content_size _ _ _ Hi) as Hcs. destruct (inv_offsets _ _ _ Hi) as (O1&O2&O3). pose proof (zlen_nonneg (content m b)).
  unfold IterSize, Begin. simpl. rewrite u32_small by lia. lia.
Qed.
(** What [CalculateHeaderChecksum] does: a value, and memory as it was. *)
Definition computes (scr : Mem -> option (Z * Mem)) (hs : Z) (bs : list Buffer) : Prop :=
  forall m, inv m bs -> exists m', scr m = Some (hs, m') /\ inv m' bs /\ same_contents m m' bs.
Lemma packet_sum hs m b bs : inv m (b :: bs) -> byte_list (content m b) -> zlen (content m b) < 65536 -> 0 <= hs <= 65535 ->
  CalculateIpChecksum (u16 (IterSize (Begin b))) hs (Begin b) m = Some (checksum_of hs (content m b), Construct b (m_end b)).
Proof.
  intros Hi Hb Hl Hh. rewrite (IterSize_Begin _ _ _ Hi). pose proof (zlen_nonneg (content m b)). unfold u16. rewrite wrap_small by lia. by eapply whole_checksum.
Qed.
(** Computing the checksum of a packet and storing it in its field. *)
Lemma seal_ok scr hs f m b bs pre post n : computes scr hs (b :: bs) -> 0 <= hs <= 65535 -> inv m (b :: bs) -> content m b = pre ++ [0; 0] ++ post -> byte_list (content m b) ->
  zlen (content m b) < 65536 -> zlen pre + 2 <= n -> n <= zlen (content m b) -> room b n bs ->
  let ck := checksum_of hs (pre ++ [0; 0] ++ post) in
  exists m', (let* (hc, m) := scr m in
    let* (checksum, _) := CalculateIpChecksum (u16 (IterSize (Begin b))) hc (Begin b) m in
    let* (_, m) := (let* i := Next (zlen pre) (Begin b) in WriteU16 (f checksum) i m) in Some m) = Some m' /\ inv m' (b :: bs) /\
    content m' b = pre ++ [byte_at 0 (f ck); byte_at 8 (f ck)] ++ post /\ same_contents m m' bs.
Proof.
  intros Hscr Hh Hi Hc Hb Hl Hp Hn Hr ck. destruct (Hscr m Hi) as (m1&->&Hi1&Ho1). assert (content m1 b = content m b) as Hc1 by (apply Ho1; by left).
  rewrite (packet_sum hs m1 b bs Hi1) by (rewrite ?Hc1; done). rewrite Hc1, Hc. fold ck.
  destruct (write_field (f ck) n m1 b bs pre [0; 0] post Hi1 Hr) as (m2&i&->&Hi2&Hc2&Ho2); [by rewrite Hc1|done..|by rewrite Hc1|].
  exists m2. split_and!; try done. eapply same_contents_trans; [|exact Ho2]. eapply same_sub; [|exact Ho1]. intros e He. by right.
Qed.
(** A reader at a known place of a buffer that starts with [l]. *)
Lemma read_in {A} (r : Iterator -> Mem -> option (A * Iterator)) n f k m b bs l payload : reads r n f -> inv m (b :: bs) -> content m b = l ++ payload ->
  0 <= k -> 0 <= n -> k + n <= zlen l -> r (Construct b (m_start b + k)) m = Some (f (slice k (k + n) l), Construct b (m_start b + (k + n))).
Proof.
  intros Hr Hi Hc Hk Hn Hkn. pose proof (content_size _ _ _ Hi) as Hcs. rewrite Hc, zlen_app in Hcs. pose proof (zlen_nonneg payload).
  rewrite (Hr (m_start b + k) m b bs Hi) by lia. rewrite Hc. replace (m_start b + k - m_start b) with k by lia. by rewrite slice_app_l, Z.add_assoc by lia.
Qed.

(** The bytes [l] are in the buffer at [c]. *)
Definition at_bytes (m : Mem) (b : Buffer) (c : Z) (l : list Z) : Prop :=
  m_start b <= c /\ c + zlen l <= m_end b /\ slice (c - m_start b) (c - m_start b + zlen l) (content m b) = l.
Lemma slice_take_app p l1 l2 rest : 0 <= p -> slice p (p + zlen (l1 ++ l2)) rest = l1 ++ l2 -> p + zlen (l1 ++ l2) <= zlen rest ->
  slice p (p + zlen l1) rest = l1 /\ slice (p + zlen l1) (p + zlen l1 + zlen l2) rest = l2.
Proof.
  intros Hp Hs Hl. rewrite zlen_app in *. pose proof (zlen_nonneg l1). pose proof (zlen_nonneg l2).
  rewrite <- (slice_app p (p + zlen l1)) in Hs by lia. apply app_inj_1 in Hs as [H1 H2]; [|pose proof (slice_length p (p + zlen l1) rest); unfold zlen in *; lia].
  split; [done|]. by rewrite <- Z.add_assoc.
Qed.
Lemma at_split m b bs c l1 l2 : inv m (b :: bs) -> at_bytes m b c (l1 ++ l2) -> at_bytes m b c l1 /\ at_bytes m b (c + zlen l1) l2.
Proof.
  intros Hi (H1&H2&H3). pose proof (content_size _ _ _ Hi). destruct (slice_take_app (c - m_start b) l1 l2 (content m b)) as [E1 E2]; [lia|done|lia|].
  rewrite zlen_app in H2. pose proof (zlen_nonneg l1). pose proof (zlen_nonneg l2). split; (split_and!; [lia|lia|]); [done|].
  by replace (c + zlen l1 - m_start b) with (c - m_start b + zlen l1) by lia.
Qed.
Lemma at_front m b bs l rest : inv m (b :: bs) -> content m b = l ++ rest -> at_bytes m b (m_start b) l.
Proof.
  intros Hi Hc. pose proof (content_size _ _ _ Hi) as Hcs. rewrite Hc, zlen_app in Hcs. pose proof (zlen_nonneg rest). split_and!; [lia..|].
  rewrite Z.sub_diag, Hc, slice_app_l by lia. unfold slice. rewrite drop_0, take_ge; [done|unfold zlen; lia].
Qed.
Lemma read_at {A} (r : Iterator -> Mem -> option (A * Iterator)) n f c m b bs l : reads r n f -> inv m (b :: bs) -> at_bytes m b c l -> zlen l = n ->
  r (Construct b c) m = Some (f l, Construct b (c + n)).
Proof. intros Hr Hi (H1&H2&H3) <-. rewrite (Hr c m b bs Hi) by done. by rewrite H3. Qed.
Lemma peek_at_byte m b bs c x l : inv m (b :: bs) -> at_bytes m b c (x :: l) -> PeekU8 (Construct b c) m = Some x.
Proof.
  intros Hi Ha. destruct (at_split _ _ _ _ [x] l Hi Ha) as [H1 _]. pose proof (read_at _ _ _ _ _ _ _ _ reads_U8 Hi H1 eq_refl) as E.
  unfold ReadU8 in E. destruct (PeekU8 _ m); [|done]. cbn in E. congruence.
Qed.
Lemma Next_in m b bs c n : inv m (b :: bs) -> 0 <= n -> 0 <= c -> c + n <= m_end b -> Next n (Construct b c) = Some (Construct b (c + n)).
Proof.
  intros Hi Hn Hc He. destruct (inv_offsets _ _ _ Hi) as (O1&O2&O3). unfold Next. simpl. rewrite (u32_small (c + n)) by lia. by rewrite (proj2 (Z.leb_le _ _)) by lia.
Qed.

(** ** Packets made of bytes *)

(** A packet made of bytes, as by the constructor of Packet. *)
Definition packet_of (uninit : Z -> nat -> Z) (bytes : list Z) : option (Buffer * Mem) :=
  let* (b, m) := Initialize uninit 0 Mem_init in prepend uninit (Write_bytes bytes) (zlen bytes) b m.
Lemma few_nil : few [].
Proof. unfold few. cbn. lia. Qed.
Lemma packet_of_ok uninit bytes : zlen bytes <= MAX_CONTENT -> exists b m, packet_of uninit bytes = Some (b, m) /\ inv m [b] /\ content m b = bytes.
Proof.
  intros Hs. unfold packet_of. destruct (Initialize_ok uninit 0 Mem_init [] inv_init) as (b0&m0&->&Hi0&Hc0&_); [unfold MAX_CONTENT; lia|done|].
  cbn [Z.to_nat replicate] in Hc0. destruct (prepend_ok uninit _ _ m0 b0 [] (writes_bytes bytes) Hi0) as (b&m&->&Hi&Hc&_); [by rewrite Hc0|done|].
  exists b, m. split_and!; [done..|]. by rewrite Hc, Hc0, app_nil_r.
Qed.

(** ** Round trips of packets *)

Lemma AddHeader_round {H} uninit n ser (des : Iterator -> Mem -> option (Z * H * Mem)) fits out `{!HeaderLaws n ser des fits out} m b bs :
  inv m (b :: bs) -> few bs -> byte_list (content m b) -> zlen (content m b) + n <= MAX_CONTENT -> fits (content m b) ->
  exists hdr b' m' h, AddHeader uninit n ser b m = Some (b', m') /\ inv m' (b' :: bs) /\ content m' b' = hdr ++ content m b /\ zlen hdr = n /\ byte_list hdr /\ same_contents m m' bs /\
    out (content m b) h /\
    forall m2 b2 bs2, inv m2 (b2 :: bs2) -> few bs2 -> content m2 b2 = hdr ++ content m b ->
      exists b3 m3, RemoveHeader des b2 m2 = Some (n, h, b3, m3) /\ inv m3 (b3 :: bs2) /\ content m3 b3 = content m b /\ same_contents m2 m3 bs2.
Proof.
  intros Hi Hf Hb Hsz Hfit. pose proof law_size. unfold few in *. unfold AddHeader.
  destruct (AddAtStart_ok uninit n m b bs Hi) as ([b1 m1]&->&Hi1&(x&Hx&Hc1)&Ho1&Hp&Hz&_); [lia|done|lia|].
  destruct (law_round m1 b1 bs x (content m b) Hi1 Hf Hc1 Hx (conj Hp Hz) Hb Hfit) as (hdr&m2&h&->&Hi2&Hc2&Hl&Hbh&Ho2&Hout&Hdes).
  exists hdr, b1, m2, h. split_and!; try done. { intros e He. by rewrite Ho2, Ho1. }
  intros m3 b3 bs3 Hi3 Hf3 Hc3. unfold RemoveHeader. destruct (Hdes m3 b3 bs3 Hi3 Hf3 Hc3) as (m4&->&Hi4&Ho4).
  assert (content m4 b3 = hdr ++ content m b) as Hc4 by (rewrite Ho4; [done|by left]).
  pose proof (content_size _ _ _ Hi4) as Hcs. destruct (RemoveAtStart_ok n m4 b3 bs3 Hi4) as (b4&->&Hi5&Hc5); [unfold MAX_CONTENT in *; lia|].
  exists b4, m4. split_and!; try done.
  - rewrite Hc5, Hc4. replace (Z.to_nat n) with (length hdr) by (unfold zlen in Hl; lia). by rewrite drop_app_length.
  - intros e He. apply Ho4. by right.
Qed.
(** Two headers, one inside the other: what a network layer does to a segment. *)
Section Layers.
Context {H1 H2 : Type} (uninit : Z -> nat -> Z).
Context (n1 : Z) (ser1 : Iterator -> Mem -> option Mem) (des1 : Iterator -> Mem -> option (Z * H1 * Mem)).
Context (n2 : Z) (ser2 : Iterator -> Mem -> option Mem) (des2 : Iterator -> Mem -> option (Z * H2 * Mem)).
Definition encapsulate (b : Buffer) (m : Mem) : option (Buffer * Mem) :=
  let* (b, m) := AddHeader uninit n1 ser1 b m in AddHeader uninit n2 ser2 b m.
Definition decapsulate (b : Buffer) (m : Mem) : option (H2 * H1 * Buffer * Mem) :=
  let* (_, h2, b, m) := RemoveHeader des2 b m in
  let* (_, h1, b, m) := RemoveHeader des1 b m in Some (h2, h1, b, m).

Context (fits1 fits2 : list Z -> Prop) (out1 : list Z -> H1 -> Prop) (out2 : list Z -> H2 -> Prop).
Context {L1 : HeaderLaws n1 ser1 des1 fits1 out1} {L2 : HeaderLaws n2 ser2 des2 fits2 out2}.
Lemma two_layers m b bs : inv m (b :: bs) -> few bs -> byte_list (content m b) -> zlen (content m b) + n1 + n2 <= MAX_CONTENT -> fits1 (content m b) ->
  (forall hdr, zlen hdr = n1 -> fits2 (hdr ++ content m b)) ->
  exists b' m' h1 h2 hdr, encapsulate b m = Some (b', m') /\ inv m' (b' :: bs) /\ same_contents m m' bs /\ zlen (content m' b') = zlen (content m b) + n1 + n2 /\
    zlen hdr = n1 /\ out1 (content m b) h1 /\ out2 (hdr ++ content m b) h2 /\
    exists b2 m2, decapsulate b' m' = Some (h2, h1, b2, m2) /\ inv m2 (b2 :: bs) /\ content m2 b2 = content m b /\ same_contents m m2 bs.
Proof.
  intros Hi Hf Hb Hsz Hfit Hfit2. pose proof (law_size (n := n1)). pose proof (law_size (n := n2)). unfold encapsulate, decapsulate.
  destruct (AddHeader_round uninit n1 ser1 des1 fits1 out1 m b bs Hi Hf Hb) as (hdr1&b1&m1&h1&->&Hi1&Hc1&Hl1&Hb1&Ho1&Hout1&Hrem1); [lia|done|].
  destruct (AddHeader_round uninit n2 ser2 des2 fits2 out2 m1 b1 bs Hi1 Hf) as (hdr2&b2&m2&h2&->&Hi2&Hc2&Hl2&Hb2&Ho2&Hout2&Hrem2).
  - rewrite Hc1. by apply Forall_app.
  - rewrite Hc1, zlen_app. lia.
  - rewrite Hc1. by apply Hfit2.
  - rewrite Hc1 in Hout2. exists b2, m2, h1, h2, hdr1. split; [done|]. split; [done|]. split; [by eapply same_contents_trans|]. split; [rewrite Hc2, Hc1, !zlen_app; lia|]. split_and!; try done.
    destruct (Hrem2 m2 b2 bs Hi2 Hf Hc2) as (b3&m3&->&Hi3&Hc3&Ho3). rewrite Hc1 in Hc3. destruct (Hrem1 m3 b3 bs Hi3 Hf Hc3) as (b4&m4&->&Hi4&Hc4&Ho4).
    exists b4, m4. split_and!; try done. eapply same_contents_trans; [exact Ho1|]. eapply same_contents_trans; [exact Ho2|]. by eapply same_contents_trans.
Qed.
End Layers.
End Wire.
