(* ===== verification/Ipv4Header.v ===== *)
(** * The IPv4 header (src/internet/model/ipv4-header.cc, ipv4-header.h)

    The fields of [Ipv4Header], its accessors, and its serialization to and
    from a buffer through [Buffer::Iterator]. An [Ipv4Address] is the 32-bit
    number [Get] returns. *)

From Stdlib Require Import String.
From S2P Require Import Prelude Buffer BufferIterator BufferInv BufferRw BufferProps Checksum.
Import Buffer Iterator BufferInv BufferRw BufferProps Checksum.

Module Ipv4Header.

(** ** Data *)

(** [DscpType] and [EcnType] are enumerations the code also converts integers
    to, so a value of them is a number; the enumerators with a meaning: *)
Definition DscpTypeToString (dscp : Z) : string :=
  match dscp with
  | 0 => "Default"
  | 8 => "CS1" | 10 => "AF11" | 12 => "AF12" | 14 => "AF13"
  | 16 => "CS2" | 18 => "AF21" | 20 => "AF22" | 22 => "AF23"
  | 24 => "CS3" | 26 => "AF31" | 28 => "AF32" | 30 => "AF33"
  | 32 => "CS4" | 34 => "AF41" | 36 => "AF42" | 38 => "AF43"
  | 40 => "CS5" | 46 => "EF"
  | 48 => "CS6" | 56 => "CS7"
  | _ => "Unrecognized DSCP"
  end.
Definition EcnTypeToString (ecn : Z) : string :=
  match ecn with
  | 0 => "Not-ECT" | 1 => "ECT (1)" | 2 => "ECT (0)" | 3 => "CE" | _ => "Unknown ECN"
  end.

(** [FlagsE] *)
Definition DONT_FRAGMENT : Z := Z.shiftl 1 0.
Definition MORE_FRAGMENTS : Z := Z.shiftl 1 1.

Record Ipv4Header := mkHeader {
  m_calcChecksum : bool;
  m_payloadSize : Z;      (* 16 bits *)
  m_identification : Z;   (* 16 bits *)
  m_tos : Z;              (* 8 bits *)
  m_ttl : Z;              (* 8 bits *)
  m_protocol : Z;         (* 8 bits *)
  m_flags : Z;            (* 3 bits *)
  m_fragmentOffset : Z;   (* 16 bits *)
  m_source : Z;
  m_destination : Z;
  m_checksum : Z;         (* 16 bits *)
  m_goodChecksum : bool;
  m_headerSize : Z        (* 16 bits *)
}.

(** The default [Ipv4Address] is 102.102.102.102. *)
Definition Ipv4Header_new : Ipv4Header :=
  mkHeader false 0 0 0 0 0 0 0 1717986918 1717986918 0 true (5 * 4).

(** ** Accessors *)

Definition EnableChecksum (h : Ipv4Header) : Ipv4Header :=
  mkHeader true (m_payloadSize h) (m_identification h) (m_tos h) (m_ttl h) (m_protocol h) (m_flags h)
    (m_fragmentOffset h) (m_source h) (m_destination h) (m_checksum h) (m_goodChecksum h) (m_headerSize h).
Definition SetPayloadSize (size : Z) (h : Ipv4Header) : Ipv4Header :=
  mkHeader (m_calcChecksum h) size (m_identification h) (m_tos h) (m_ttl h) (m_protocol h) (m_flags h)
    (m_fragmentOffset h) (m_source h) (m_destination h) (m_checksum h) (m_goodChecksum h) (m_headerSize h).
Definition GetPayloadSize (h : Ipv4Header) : Z := m_payloadSize h.
Definition GetIdentification (h : Ipv4Header) : Z := m_identification h.
Definition SetIdentification (identification : Z) (h : Ipv4Header) : Ipv4Header :=
  mkHeader (m_calcChecksum h) (m_payloadSize h) identification (m_tos h) (m_ttl h) (m_protocol h) (m_flags h)
    (m_fragmentOffset h) (m_source h) (m_destination h) (m_checksum h) (m_goodChecksum h) (m_headerSize h).
Definition SetTos (tos : Z) (h : Ipv4Header) : Ipv4Header :=
  mkHeader (m_calcChecksum h) (m_payloadSize h) (m_identification h) tos (m_ttl h) (m_protocol h) (m_flags h)
    (m_fragmentOffset h) (m_source h) (m_destination h) (m_checksum h) (m_goodChecksum h) (m_headerSize h).
(** Assignments to the 8-bit field [m_tos] keep its low bits. *)
Definition SetDscp (dscp : Z) (h : Ipv4Header) : Ipv4Header :=
  let tos := u8 (Z.land (m_tos h) 3) in
  SetTos (u8 (Z.lor tos (Z.shiftl dscp 2))) h.
Definition SetEcn (ecn : Z) (h : Ipv4Header) : Ipv4Header :=
  let tos := u8 (Z.land (m_tos h) 252) in
  SetTos (u8 (Z.lor tos ecn)) h.
Definition GetDscp (h : Ipv4Header) : Z := Z.shiftr (Z.land (m_tos h) 252) 2.
Definition GetEcn (h : Ipv4Header) : Z := Z.land (m_tos h) 3.
Definition GetTos (h : Ipv4Header) : Z := m_tos h.

Definition set_flags (f : Z) (h : Ipv4Header) : Ipv4Header :=
  mkHeader (m_calcChecksum h) (m_payloadSize h) (m_identification h) (m_tos h) (m_ttl h) (m_protocol h)
    (wrap 3 f) (m_fragmentOffset h) (m_source h) (m_destination h) (m_checksum h) (m_goodChecksum h)
    (m_headerSize h).
Definition SetMoreFragments (h : Ipv4Header) : Ipv4Header := set_flags (Z.lor (m_flags h) MORE_FRAGMENTS) h.
Definition SetLastFragment (h : Ipv4Header) : Ipv4Header :=
  set_flags (Z.land (m_flags h) (Z.lnot MORE_FRAGMENTS)) h.
Definition IsLastFragment (h : Ipv4Header) : bool := Z.land (m_flags h) MORE_FRAGMENTS =? 0.
Definition SetDontFragment (h : Ipv4Header) : Ipv4Header := set_flags (Z.lor (m_flags h) DONT_FRAGMENT) h.
Definition SetMayFragment (h : Ipv4Header) : Ipv4Header :=
  set_flags (Z.land (m_flags h) (Z.lnot DONT_FRAGMENT)) h.
Definition IsDontFragment (h : Ipv4Header) : bool := negb (Z.land (m_flags h) DONT_FRAGMENT =? 0).

Definition SetFragmentOffset (offsetBytes : Z) (h : Ipv4Header) : option Ipv4Header :=
  assert* Z.land offsetBytes 7 =? 0 in
  Some (mkHeader (m_calcChecksum h) (m_payloadSize h) (m_identification h) (m_tos h) (m_ttl h) (m_protocol h)
    (m_flags h) offsetBytes (m_source h) (m_destination h) (m_checksum h) (m_goodChecksum h) (m_headerSize h)).
(** A warning is logged when the fragment exceeds the maximum packet size. *)
Definition GetFragmentOffset (h : Ipv4Header) : Z := m_fragmentOffset h.

Definition SetTtl (ttl : Z) (h : Ipv4Header) : Ipv4Header :=
  mkHeader (m_calcChecksum h) (m_payloadSize h) (m_identification h) (m_tos h) ttl (m_protocol h) (m_flags h)
    (m_fragmentOffset h) (m_source h) (m_destination h) (m_checksum h) (m_goodChecksum h) (m_headerSize h).
Definition GetTtl (h : Ipv4Header) : Z := m_ttl h.
Definition GetProtocol (h : Ipv4Header) : Z := m_protocol h.
Definition SetProtocol (protocol : Z) (h : Ipv4Header) : Ipv4Header :=
  mkHeader (m_calcChecksum h) (m_payloadSize h) (m_identification h) (m_tos h) (m_ttl h) protocol (m_flags h)
    (m_fragmentOffset h) (m_source h) (m_destination h) (m_checksum h) (m_goodChecksum h) (m_headerSize h).
Definition SetSource (source : Z) (h : Ipv4Header) : Ipv4Header :=
  mkHeader (m_calcChecksum h) (m_payloadSize h) (m_identification h) (m_tos h) (m_ttl h) (m_protocol h)
    (m_flags h) (m_fragmentOffset h) source (m_destination h) (m_checksum h) (m_goodChecksum h) (m_headerSize h).
Definition GetSource (h : Ipv4Header) : Z := m_source h.
Definition SetDestination (dst : Z) (h : Ipv4Header) : Ipv4Header :=
  mkHeader (m_calcChecksum h) (m_payloadSize h) (m_identification h) (m_tos h) (m_ttl h) (m_protocol h)
    (m_flags h) (m_fragmentOffset h) (m_source h) dst (m_checksum h) (m_goodChecksum h) (m_headerSize h).
Definition GetDestination (h : Ipv4Header) : Z := m_destination h.
Definition IsChecksumOk (h : Ipv4Header) : bool := m_goodChecksum h.
Definition GetSerializedSize (h : Ipv4Header) : Z := m_headerSize h.

(** ** Serialization *)

(** [flagsFrag]: the flags and the five high bits of the offset in units of 8. *)
Definition flags_byte (flags fragmentOffset : Z) : Z :=
  let flagsFrag := u8 (Z.land (Z.shiftr fragmentOffset 8) 31) in
  let flagsFrag := if negb (Z.land flags DONT_FRAGMENT =? 0) then Z.lor flagsFrag (Z.shiftl 1 6) else flagsFrag in
  if negb (Z.land flags MORE_FRAGMENTS =? 0) then Z.lor flagsFrag (Z.shiftl 1 5) else flagsFrag.

(** The writes of the fields, the checksum as zero. *)
Definition Serialize_fields (h : Ipv4Header) (i : Iterator) (m : Mem) : option (Iterator * Mem) :=
  let verIhl := Z.lor (Z.shiftl 4 4) 5 in
  let* (i, m) := WriteU8 verIhl i m in
  let* (i, m) := WriteU8 (m_tos h) i m in
  let* (i, m) := WriteHtonU16 (u16 (m_payloadSize h + 5 * 4)) i m in
  let* (i, m) := WriteHtonU16 (m_identification h) i m in
  let fragmentOffset := m_fragmentOffset h / 8 in
  let* (i, m) := WriteU8 (flags_byte (m_flags h) fragmentOffset) i m in
  let frag := Z.land fragmentOffset 255 in
  let* (i, m) := WriteU8 frag i m in
  let* (i, m) := WriteU8 (m_ttl h) i m in
  let* (i, m) := WriteU8 (m_protocol h) i m in
  let* (i, m) := WriteHtonU16 0 i m in
  let* (i, m) := WriteHtonU32 (m_source h) i m in
  WriteHtonU32 (m_destination h) i m.

Definition Serialize (h : Ipv4Header) (start : Iterator) (m : Mem) : option Mem :=
  let* (_, m) := Serialize_fields h start m in
  if m_calcChecksum h then
    let* (checksum, _) := CalculateIpChecksum 20 0 start m in
    let* i := Next 10 start in
    let* (_, m) := WriteU16 checksum i m in
    Some m
  else Some m.

(** The returned size and the header read; a version other than 4 is refused
    with 0 and leaves the header as it was. *)
Definition Deserialize (h : Ipv4Header) (start : Iterator) (m : Mem) : option (Z * Ipv4Header) :=
  let* (verIhl, i) := ReadU8 start m in
  let ihl := Z.land verIhl 15 in
  let headerSize := u16 (ihl * 4) in
  if negb (Z.shiftr verIhl 4 =? 4) then Some (0, h)
  else
    let* (tos, i) := ReadU8 i m in
    let* (size, i) := ReadNtohU16 i m in
    let payloadSize := u16 (size - headerSize) in
    let* (identification, i) := ReadNtohU16 i m in
    let* (flags, i) := ReadU8 i m in
    let hflags := 0 in
    let hflags := if negb (Z.land flags (Z.shiftl 1 6) =? 0) then Z.lor hflags DONT_FRAGMENT else hflags in
    let hflags := if negb (Z.land flags (Z.shiftl 1 5) =? 0) then Z.lor hflags MORE_FRAGMENTS else hflags in
    let* i := Prev 1 i in
    let* (high, i) := ReadU8 i m in
    let fragmentOffset := Z.land high 31 in
    let fragmentOffset := u16 (Z.shiftl fragmentOffset 8) in
    let* (low, i) := ReadU8 i m in
    let fragmentOffset := Z.lor fragmentOffset low in
    let fragmentOffset := u16 (Z.shiftl fragmentOffset 3) in
    let* (ttl, i) := ReadU8 i m in
    let* (protocol, i) := ReadU8 i m in
    let* (checksum, i) := ReadU16 i m in
    let* (source, i) := ReadNtohU32 i m in
    let* (destination, i) := ReadNtohU32 i m in
    let* good :=
      if m_calcChecksum h then
        let* (checksum, _) := CalculateIpChecksum headerSize 0 start m in Some (checksum =? 0)
      else Some (m_goodChecksum h) in
    Some (headerSize, mkHeader (m_calcChecksum h) payloadSize identification tos ttl protocol hflags
      fragmentOffset source destination checksum good headerSize).

(** ** The bytes of a header *)

(** The 20 bytes of a header with checksum bytes [c0] and [c1]. *)
Definition header_bytes (h : Ipv4Header) (c0 c1 : Z) : list Z :=
  [69; m_tos h] ++ be 2 (u16 (m_payloadSize h + 20)) ++ be 2 (m_identification h) ++
  [flags_byte (m_flags h) (m_fragmentOffset h / 8); Z.land (m_fragmentOffset h / 8) 255;
   m_ttl h; m_protocol h; c0; c1] ++ be 4 (m_source h) ++ be 4 (m_destination h).

(** The fields fit their widths, the offset is one [SetFragmentOffset] accepts. *)
Record header_ok (h : Ipv4Header) : Prop := mkOk {
  ok_payload : 0 <= m_payloadSize h <= 65535 - 20;
  ok_id : 0 <= m_identification h < 2 ^ 16;
  ok_tos : 0 <= m_tos h < 2 ^ 8;
  ok_ttl : 0 <= m_ttl h < 2 ^ 8;
  ok_protocol : 0 <= m_protocol h < 2 ^ 8;
  ok_flags : 0 <= m_flags h < 4;
  ok_offset : 0 <= m_fragmentOffset h < 2 ^ 16 /\ Z.land (m_fragmentOffset h) 7 = 0;
  ok_source : 0 <= m_source h < 2 ^ 32;
  ok_destination : 0 <= m_destination h < 2 ^ 32
}.

Lemma writes_eq w s s' : writes w s -> s = s' -> writes w s'.
Proof. by intros Hw <-. Qed.

(** A sequence of writes. *)
Ltac write_one := first [apply writes_U8 | apply writes_HtonU16 | apply writes_HtonU32].
Ltac write_all n :=
  lazymatch n with
  | O => write_one
  | S ?n' => eapply writes_seq; [write_one | write_all n' | discriminate]
  end.

Lemma writes_fields h : writes (Serialize_fields h) (header_bytes h 0 0).
Proof. eapply writes_eq; [unfold Serialize_fields; write_all 10%nat | reflexivity]. Qed.

(** ** Writing the header *)

Lemma splice_inner p pre old new post l :
  0 <= p -> p + zlen (pre ++ old ++ post) <= zlen l -> zlen old = zlen new ->
  splice (p + zlen pre) new (splice p (pre ++ old ++ post) l) = splice p (pre ++ new ++ post) l.
Proof.
  intros Hp Hl E. rewrite !zlen_app in Hl. pose proof (zlen_nonneg pre). pose proof (zlen_nonneg old).
  pose proof (zlen_nonneg post). unfold splice at 2. rewrite <- !app_assoc, app_assoc.
  replace (p + zlen pre) with (zlen (take (Z.to_nat p) l ++ pre))
    by (rewrite zlen_app; unfold zlen in *; rewrite length_take; lia).
  rewrite splice_middle by done. unfold splice. rewrite <- !app_assoc. do 4 f_equal.
  rewrite !length_app. unfold zlen in E. f_equal. lia.
Qed.

Lemma be_bytes n v : byte_list (be n v).
Proof. induction n; simpl; constructor; [apply byte_at_range; lia | done]. Qed.

Lemma land_byte x : 0 <= Z.land x 255 < 256.
Proof. change 255 with (Z.ones 8). rewrite Z.land_ones by lia. apply Z.mod_pos_bound. lia. Qed.

(** [flags_byte] by the two flags and the high bits of the offset. *)
Lemma flags_byte_cases f o :
  0 <= o < 2 ^ 13 -> exists k, In k (seq 0 32) /\
  let x := Z.of_nat k in
  flags_byte f o = x + (if negb (Z.land f 1 =? 0) then 64 else 0) + (if negb (Z.land f 2 =? 0) then 32 else 0) /\
  x = o / 256.
Proof.
  intros Ho. exists (Z.to_nat (o / 256)).
  assert (0 <= o / 256 < 32) as Hr by (split; [apply Z.div_pos; lia | apply Z.div_lt_upper_bound; lia]).
  split; [apply in_seq; lia |]. rewrite Z2Nat.id by lia. split; [| done].
  unfold flags_byte, u8, wrap. change 31 with (Z.ones 5). rewrite Z.shiftr_div_pow2, Z.land_ones by lia.
  change (2 ^ 8) with 256. rewrite (Z.mod_small (o / 256) (2 ^ 5)), (Z.mod_small (o / 256) 256) by lia.
  change DONT_FRAGMENT with 1. change MORE_FRAGMENTS with 2.
  assert (forall k, (k < 32)%nat -> Z.lor (Z.of_nat k) (Z.shiftl 1 6) = Z.of_nat k + 64 /\
    Z.lor (Z.of_nat k) (Z.shiftl 1 5) = Z.of_nat k + 32 /\
    Z.lor (Z.of_nat k + 64) (Z.shiftl 1 5) = Z.of_nat k + 64 + 32) as Hk.
  { intros k Hk. do 32 (destruct k as [|k]; [by vm_compute |]). lia. }
  destruct (Hk (Z.to_nat (o / 256))) as (H1 & H2 & H3); [lia |]. rewrite Z2Nat.id in H1, H2, H3 by lia.
  destruct (negb (Z.land f 1 =? 0)), (negb (Z.land f 2 =? 0)); rewrite ?H1, ?H2, ?H3; lia.
Qed.

Lemma header_bytes_ok h c0 c1 :
  header_ok h -> 0 <= c0 < 256 -> 0 <= c1 < 256 -> byte_list (header_bytes h c0 c1).
Proof.
  intros [] H0 H1. unfold header_bytes, byte_list.
  destruct (flags_byte_cases (m_flags h) (m_fragmentOffset h / 8)) as (k & Hk & -> & _).
  { split; [apply Z.div_pos; lia | apply Z.div_lt_upper_bound; lia]. }
  apply in_seq in Hk. repeat (apply Forall_app; split); try apply be_bytes;
    repeat (apply Forall_cons; split); try apply Forall_nil; try done; try apply land_byte; try lia.
  case_ifs; lia.
Qed.

(** [Serialize] replaces 20 bytes by the header; with the checksum enabled the
    bytes verify. *)
Lemma Ipv4_Serialize_ok h c m b bs :
  header_ok h -> inv m (b :: bs) -> region_ok b c 20 -> private b (phys b c) (phys b c + 20) bs ->
  exists m' c0 c1, Serialize h (Construct b c) m = Some m' /\ inv m' (b :: bs) /\
    0 <= c0 < 256 /\ 0 <= c1 < 256 /\
    content m' b = splice (c - m_start b) (header_bytes h c0 c1) (content m b) /\
    (forall e, e ∈ bs -> content m' e = content m e) /\
    (m_calcChecksum h = true -> checksum_of 0 (header_bytes h c0 c1) = 0).
Proof.
  intros Hok Hi Hr Hp. pose proof Hr as (Hr1 & Hr2 & Hr3).
  destruct (inv_offsets _ _ _ Hi) as (Ho1 & Ho2 & Ho3). pose proof (content_size _ _ _ Hi) as Hcs.
  destruct (writes_fields h c m b bs Hi Hr Hp) as (m1 & E1 & Hi1 & Hc1 & Hb1).
  unfold Serialize. rewrite E1. destruct (m_calcChecksum h); [| by exists m1, 0, 0].
  assert (byte_list (header_bytes h 0 0)) as Hbl by (by apply header_bytes_ok).
  assert (slice (c - m_start b) (c - m_start b + 20) (content m1 b) = header_bytes h 0 0) as Hsl.
  { rewrite Hc1. apply (splice_slice (c - m_start b) (header_bytes h 0 0)); [lia |].
    change (zlen (header_bytes h 0 0)) with 20. lia. }
  pose proof (CalculateIpChecksum_ok 20 0 c m1 b bs Hi1 ltac:(lia) Hr1 Hr2) as Hck.
  cbv zeta in Hck. rewrite Hsl in Hck. pose proof (word_sum_bound _ Hbl) as Hws.
  change (zlen (header_bytes h 0 0)) with 20 in Hws. rewrite Hck by (done || lia). clear Hck.
  set (pre := take 10 (header_bytes h 0 0)). set (post := drop 12 (header_bytes h 0 0)).
  destruct (complement_verifies pre post) as [Hrange Hver]; [by exists 5%nat | done |].
  change (pre ++ [0; 0] ++ post) with (header_bytes h 0 0) in Hrange, Hver.
  set (ck := checksum_of 0 (header_bytes h 0 0)) in *.
  assert (Next 10 (Construct b c) = Some (Construct b (c + 10))) as ->.
  { unfold Next. simpl. rewrite (u32_small (c + 10)) by lia. by rewrite (proj2 (Z.leb_le _ _)) by lia. }
  assert (writes (WriteU16 ck) (rev (be 2 ck))) as Hw
    by (eapply writes_ext; [apply WriteU16_seq | by apply writes_Write_seq]).
  assert (phys b (c + 10) = phys b c + 10) as Hph by (unfold phys, zone; case_ifs; lia).
  destruct (Hw (c + 10) m1 b bs Hi1) as (m2 & -> & Hi2 & Hc2 & Hb2).
  { change (zlen (rev (be 2 ck))) with 2. split_and!; lia. }
  { change (zlen (rev (be 2 ck))) with 2. rewrite Hph. intros e He Ee. destruct (Hp e He Ee); lia. }
  exists m2, (byte_at 0 ck), (byte_at 8 ck). split_and!; try done; try apply byte_at_range; try lia.
  - rewrite Hc2, Hc1. replace (c + 10 - m_start b) with (c - m_start b + zlen pre)
      by (change (zlen pre) with 10; lia).
    apply (splice_inner (c - m_start b) pre [0; 0] (rev (be 2 ck)) post); [lia | | done].
    change (zlen (pre ++ [0; 0] ++ post)) with 20. lia.
  - intros e He. by rewrite Hb2, Hb1.
Qed.

(** ** Reading a header *)

(** A reader inside a known part [l] of the content, [k] bytes from its start. *)
Lemma reads_at {A} (r : Iterator -> Mem -> option (A * Iterator)) n f k c m b bs l :
  reads r n f -> inv m (b :: bs) -> m_start b <= c -> c + zlen l <= m_end b ->
  slice (c - m_start b) (c - m_start b + zlen l) (content m b) = l ->
  0 <= k -> 0 <= n -> k + n <= zlen l ->
  r (Construct b (c + k)) m = Some (f (slice k (k + n) l), Construct b (c + (k + n))).
Proof.
  intros Hr Hi Hs He Hl Hk Hn Hkn. rewrite (Hr (c + k) m b bs Hi) by lia.
  rewrite <- Hl at 1. rewrite slice_slice by lia.
  replace (c + k - m_start b) with (c - m_start b + k) by lia.
  by rewrite !Z.add_assoc.
Qed.

(** The header [Deserialize] builds from 20 bytes, given the verdict on the
    checksum. *)
Definition parsed (calc good : bool) (v tos s0 s1 i0 i1 f g ttl pr k0 k1 : Z) (src dst : list Z) : Ipv4Header :=
  let hs := u16 (Z.land v 15 * 4) in
  mkHeader calc (u16 (fold_left (shift_in 16) [s0; s1] 0 - hs)) (fold_left (shift_in 16) [i0; i1] 0)
    tos ttl pr
    (Z.lor (if negb (Z.land f 64 =? 0) then 1 else 0) (if negb (Z.land f 32 =? 0) then 2 else 0))
    (u16 (Z.shiftl (Z.lor (u16 (Z.shiftl (Z.land f 31) 8)) g) 3))
    (fold_left (shift_in 32) src 0) (fold_left (shift_in 32) dst 0)
    (fold_left (shift_in 16) [k1; k0] 0) good hs.

Lemma Ipv4_Deserialize_ok h c m b bs v tos s0 s1 i0 i1 f g ttl pr k0 k1 a0 a1 a2 a3 d0 d1 d2 d3 :
  inv m (b :: bs) -> m_start b <= c -> c + 20 <= m_end b ->
  slice (c - m_start b) (c - m_start b + 20) (content m b) =
    [v; tos; s0; s1; i0; i1; f; g; ttl; pr; k0; k1; a0; a1; a2; a3; d0; d1; d2; d3] ->
  let hs := u16 (Z.land v 15 * 4) in
  let hdr := slice (c - m_start b) (c - m_start b + hs) (content m b) in
  (m_calcChecksum h = true -> c + hs <= m_end b /\ byte_list hdr) ->
  Deserialize h (Construct b c) m =
    if negb (Z.shiftr v 4 =? 4) then Some (0, h)
    else
      let good := if m_calcChecksum h then checksum_of 0 hdr =? 0 else m_goodChecksum h in
      Some (hs, parsed (m_calcChecksum h) good v tos s0 s1 i0 i1 f g ttl pr k0 k1 [a0; a1; a2; a3] [d0; d1; d2; d3]).
Proof.
  intros Hi Hs He Hl hs hdr Hcalc. destruct (inv_offsets _ _ _ Hi) as (Ho1 & Ho2 & Ho3).
  set (l := [v; tos; s0; s1; i0; i1; f; g; ttl; pr; k0; k1; a0; a1; a2; a3; d0; d1; d2; d3]) in *.
  pose proof (fun A r n g k R => @reads_at A r n g k c m b bs l R Hi Hs He Hl) as Hat.
  assert (0 <= hs < 65536) as Hhs by (apply (wrap_range 16); lia).
  assert (zlen l = 20) as Hzl by done.
  unfold Deserialize. replace (ReadU8 (Construct b c) m) with (ReadU8 (Construct b (c + 0)) m) by (by rewrite Z.add_0_r).
  rewrite (Hat _ _ _ _ 0 reads_U8) by lia. change (hd 0 (slice 0 (0 + 1) l)) with v.
  destruct (negb (Z.shiftr v 4 =? 4)); [done |].
  rewrite (Hat _ _ _ _ (0 + 1) reads_U8), (Hat _ _ _ _ _ reads_NtohU16), (Hat _ _ _ _ _ reads_NtohU16),
    (Hat _ _ _ _ _ reads_U8) by lia.
  assert (Prev 1 (Construct b (c + (0 + 1 + 1 + 2 + 2 + 1))) = Some (Construct b (c + 6))) as ->.
  { unfold Prev. simpl. rewrite (proj2 (Z.leb_le _ _)), u32_small by lia. simpl. unfold move_to. simpl.
    unfold Construct. do 2 f_equal. lia. }
  rewrite (Hat _ _ _ _ 6 reads_U8), !(Hat _ _ _ _ _ reads_U8), (Hat _ _ _ _ _ reads_U16),
    !(Hat _ _ _ _ _ reads_NtohU32) by lia. fold hs.
  assert (m_calcChecksum h = true ->
    CalculateIpChecksum hs 0 (Construct b c) m = Some (checksum_of 0 hdr, Construct b (c + hs))) as Hck.
  { intros [Hc Hb]%Hcalc. pose proof (word_sum_bound _ Hb) as Hws.
    assert (zlen hdr = hs) as Hlen
      by (pose proof (content_size _ _ _ Hi); unfold hdr; rewrite slice_length; lia).
    rewrite Hlen in Hws. apply (CalculateIpChecksum_ok hs 0 c m b bs); try done; fold hdr; lia. }
  change (hd 0 (slice (0 + 1 + 1 + 2 + 2) (0 + 1 + 1 + 2 + 2 + 1) l)) with f.
  change (Z.shiftl 1 6) with 64. change (Z.shiftl 1 5) with 32. unfold parsed. fold hs.
  destruct (m_calcChecksum h); [rewrite Hck by done |];
    destruct (negb (Z.land f 64 =? 0)), (negb (Z.land f 32 =? 0)); reflexivity.
Qed.

(** ** Parsing undoes serializing *)

Lemma flags_byte_parse f o :
  0 <= f < 4 -> 0 <= o < 2 ^ 13 ->
  let x := flags_byte f o in
  Z.land x 31 = o / 256 /\
  Z.lor (if negb (Z.land x 64 =? 0) then 1 else 0) (if negb (Z.land x 32 =? 0) then 2 else 0) = f.
Proof.
  intros Hf Ho x. subst x. destruct (flags_byte_cases f o Ho) as (k & Hk & -> & <-). apply in_seq in Hk.
  assert (f = 0 \/ f = 1 \/ f = 2 \/ f = 3) as [-> | [-> | [-> | ->]]] by lia.
  all: do 32 (destruct k as [|k]; [by vm_compute |]); lia.
Qed.

Lemma offset_parse off :
  0 <= off < 2 ^ 16 -> Z.land off 7 = 0 ->
  u16 (Z.shiftl (Z.lor (u16 (Z.shiftl (off / 8 / 256) 8)) (Z.land (off / 8) 255)) 3) = off.
Proof.
  intros Hr Hm. change 7 with (Z.ones 3) in Hm. rewrite Z.land_ones in Hm by lia. change (2 ^ 3) with 8 in Hm.
  set (o := off / 8). assert (off = 8 * o) as E by (pose proof (Z.div_mod off 8); unfold o; lia).
  pose proof (Z.div_mod o 256 ltac:(lia)) as Hdm. pose proof (Z.mod_pos_bound o 256 ltac:(lia)).
  change 255 with (Z.ones 8). rewrite Z.land_ones by lia. change (2 ^ 8) with 256.
  pose proof (shift_in_val 16 (o / 256) (o mod 256) ltac:(lia) ltac:(lia) ltac:(lia)) as Hsh.
  unfold shift_in in Hsh. unfold u16. rewrite Hsh, Z.shiftl_mul_pow2, wrap_small by lia. lia.
Qed.

Lemma parsed_header h calc good c0 c1 :
  header_ok h ->
  parsed calc good 69 (m_tos h) (byte_at 8 (u16 (m_payloadSize h + 20))) (byte_at 0 (u16 (m_payloadSize h + 20)))
    (byte_at 8 (m_identification h)) (byte_at 0 (m_identification h))
    (flags_byte (m_flags h) (m_fragmentOffset h / 8)) (Z.land (m_fragmentOffset h / 8) 255)
    (m_ttl h) (m_protocol h) c0 c1 (be 4 (m_source h)) (be 4 (m_destination h)) =
  mkHeader calc (m_payloadSize h) (m_identification h) (m_tos h) (m_ttl h) (m_protocol h) (m_flags h)
    (m_fragmentOffset h) (m_source h) (m_destination h) (fold_left (shift_in 16) [c1; c0] 0) good 20.
Proof.
  intros []. destruct ok_offset0 as [Ho Hm].
  assert (0 <= m_fragmentOffset h / 8 < 2 ^ 13) as Hd
    by (split; [apply Z.div_pos; lia | apply Z.div_lt_upper_bound; lia]).
  destruct (flags_byte_parse (m_flags h) _ ok_flags0 Hd) as [E1 E2].
  unfold parsed. change (u16 (Z.land 69 15 * 4)) with 20. rewrite E1, E2, offset_parse by done.
  pose proof (fold_be_value 16 2) as H16. pose proof (fold_be_value 32 4) as H32.
  change (be 2) with (fun v => [byte_at 8 v; byte_at 0 v]) in H16. cbv beta in H16.
  assert (u16 (m_payloadSize h + 20) = m_payloadSize h + 20) as Ep by (apply wrap_small; lia).
  rewrite Ep, !H16, !H32 by (simpl; lia). f_equal. unfold u16. rewrite wrap_small by lia. lia.
Qed.

(** ** Properties *)

(** Serializing a header and reading it back. For every header whose
    fields fit, written over 20 bytes no other buffer uses, [Serialize] changes
    only those bytes, and [Deserialize] at the same place returns 20 and every
    field of the header; a receiver that verifies the checksum finds it good
    when the sender computed it. *)
Theorem Ipv4_round_trip h h0 c m b bs :
  header_ok h -> inv m (b :: bs) -> region_ok b c 20 -> private b (phys b c) (phys b c + 20) bs ->
  (m_calcChecksum h0 = true -> m_calcChecksum h = true) ->
  exists m' ck, Serialize h (Construct b c) m = Some m' /\ inv m' (b :: bs) /\
    (forall e, e ∈ bs -> content m' e = content m e) /\ zlen (content m' b) = zlen (content m b) /\
    Deserialize h0 (Construct b c) m' =
      Some (20, mkHeader (m_calcChecksum h0) (m_payloadSize h) (m_identification h) (m_tos h) (m_ttl h)
        (m_protocol h) (m_flags h) (m_fragmentOffset h) (m_source h) (m_destination h) ck
        (if m_calcChecksum h0 then true else m_goodChecksum h0) 20).
Proof.
  intros Hok Hi Hr Hp Hck. pose proof Hr as (Hr1 & Hr2 & _). pose proof (content_size _ _ _ Hi) as Hcs.
  destruct (Ipv4_Serialize_ok h c m b bs Hok Hi Hr Hp) as (m' & c0 & c1 & Es & Hi' & H0 & H1 & Hc & Ho & Hver).
  exists m', (fold_left (shift_in 16) [c1; c0] 0).
  assert (slice (c - m_start b) (c - m_start b + 20) (content m' b) = header_bytes h c0 c1) as Hsl.
  { rewrite Hc. apply (splice_slice (c - m_start b) (header_bytes h c0 c1)); [lia |].
    change (zlen (header_bytes h c0 c1)) with 20. lia. }
  split_and!; try done.
  { rewrite Hc. apply splice_length; [lia |]. change (zlen (header_bytes h c0 c1)) with 20. lia. }
  assert (byte_list (header_bytes h c0 c1)) as Hbl by (by apply header_bytes_ok).
  erewrite (Ipv4_Deserialize_ok h0 c m' b bs) by (done || exact Hsl ||
    (change (u16 (Z.land 69 15 * 4)) with 20; rewrite Hsl; done)).
  change (u16 (Z.land 69 15 * 4)) with 20. simpl (negb _). cbv zeta. rewrite Hsl.
  pose proof (parsed_header h (m_calcChecksum h0)
    (if m_calcChecksum h0 then true else m_goodChecksum h0) c0 c1 Hok) as Hpar.
  destruct (m_calcChecksum h0); [rewrite Hver by auto; simpl (0 =? 0) |]; cbv iota; f_equal; f_equal; exact Hpar.
Qed.

(** 24 bytes in front of ten zero bytes, room for a header. *)
Definition ip_state (bytes : list Z) : option (Buffer * Mem) :=
  prepend demo_uninit (Write_bytes bytes) (zlen bytes) demo_buf demo_mem.
Definition ip_buf (bytes : list Z) : Buffer := match ip_state bytes with Some (b, _) => b | None => demo_buf end.
Definition ip_mem (bytes : list Z) : Mem := match ip_state bytes with Some (_, m) => m | None => demo_mem end.

Lemma ip_inv bytes : zlen bytes <= 1000 ->
  inv (ip_mem bytes) [ip_buf bytes] /\
  content (ip_mem bytes) (ip_buf bytes) = bytes ++ replicate 10 0.
Proof.
  intros Hl. destruct demo_inv as [Hi0 Hc0].
  destruct (prepend_ok demo_uninit _ _ demo_mem demo_buf [] (writes_bytes bytes) Hi0)
    as (b & m & E & Hi & Hc & _); [rewrite Hc0; unfold MAX_CONTENT, zlen at 1; simpl; lia | done |].
  unfold ip_mem, ip_buf, ip_state. rewrite E, Hc, Hc0. done.
Qed.

Definition demo_header : Ipv4Header :=
  mkHeader true 1000 4711 184 64 17 2 1480 3232235521 3232235777 0 true 20.
Definition demo_room : list Z := replicate 24 255.

Lemma demo_header_ok : header_ok demo_header.
Proof. split; simpl; try lia. split; [lia | reflexivity]. Qed.

Lemma Ipv4_round_trip_witness :
  exists m' ck, Serialize demo_header (Construct (ip_buf demo_room) (m_start (ip_buf demo_room))) (ip_mem demo_room) = Some m' /\
    inv m' [ip_buf demo_room] /\
    (forall e, e ∈ [] -> content m' e = content (ip_mem demo_room) e) /\
    zlen (content m' (ip_buf demo_room)) = zlen (content (ip_mem demo_room) (ip_buf demo_room)) /\
    Deserialize (EnableChecksum Ipv4Header_new) (Construct (ip_buf demo_room) (m_start (ip_buf demo_room))) m' =
      Some (20, mkHeader true 1000 4711 184 64 17 2 1480 3232235521 3232235777 ck true 20).
Proof.
  apply (Ipv4_round_trip demo_header (EnableChecksum Ipv4Header_new) (m_start (ip_buf demo_room))
           (ip_mem demo_room) (ip_buf demo_room) []).
  - exact demo_header_ok.
  - apply ip_inv. vm_compute. discriminate.
  - vm_compute. split; [discriminate |]. split; [discriminate |]. left. discriminate.
  - intros e He. by apply not_elem_of_nil in He.
  - reflexivity.
Defined.

(** ** Corruption *)

(** Changing one byte changes the sum of words by less than 65535. *)
Lemma word_sum_insert l k x y :
  l !! k = Some y ->
  word_sum (<[k := x]> l) = word_sum l + (x - y) * (if Nat.even k then 1 else 256).
Proof.
  assert (forall n l k, (length l <= n)%nat -> l !! k = Some y ->
    word_sum (<[k := x]> l) = word_sum l + (x - y) * (if Nat.even k then 1 else 256)) as H.
  { clear. intros n. induction n as [|n IH]; intros l k Hn Hk.
    - destruct l; [done | simpl in Hn; lia].
    - destruct l as [|a [|a' l]]; [done | |].
      + destruct k; simpl in Hk; [| done]. injection Hk as ->. simpl. lia.
      + destruct k as [|[|k]]; simpl in Hk; [injection Hk as -> | injection Hk as -> |]; try (simpl; lia).
        change (<[S (S k) := x]> (a :: a' :: l)) with (a :: a' :: <[k := x]> l).
        cbn [word_sum]. rewrite (IH l k) by (simpl in Hn; done || lia).
        change (Nat.even (S (S k))) with (Nat.even k). lia. }
  by apply (H (length l)).
Qed.

Lemma ones_sum_max s : 0 <= s -> ones_sum s = 65535 -> s mod 65535 = 0.
Proof.
  intros Hs. unfold ones_sum. case_ifs; [lia |]. intros E1.
  pose proof (Z.div_mod (s - 1) 65535 ltac:(lia)) as Hd.
  replace s with (0 + ((s - 1) / 65535 + 1) * 65535) by lia. by rewrite Z.mod_add by lia.
Qed.

Lemma corrupted_checksum l k x y :
  byte_list l -> 0 <= x < 256 -> l !! k = Some y -> x <> y ->
  checksum_of 0 l = 0 -> checksum_of 0 (<[k := x]> l) <> 0.
Proof.
  intros Hb Hx Hk Hne H0 H1. unfold checksum_of in H0, H1. rewrite Z.add_0_l in H0, H1.
  pose proof (Forall_lookup_1 _ _ _ _ Hb Hk) as Hy. simpl in Hy.
  pose proof (word_sum_bound l Hb) as [Hw _].
  assert (byte_list (<[k := x]> l)) as Hb' by (by apply Forall_insert).
  pose proof (word_sum_bound _ Hb') as [Hw' _]. rewrite (word_sum_insert l k x y Hk) in Hw', H1.
  pose proof (ones_sum_max _ Hw ltac:(lia)) as M0.
  pose proof (ones_sum_max _ Hw' ltac:(lia)) as M1.
  apply Z.mod_divide in M0 as [p Ep]; [| lia]. apply Z.mod_divide in M1 as [q Eq]; [| lia].
  destruct (Nat.even k); lia.
Qed.

(** A receiver that verifies the checksum detects the corruption of any one
    byte of the header but the first: when the 20 bytes of a header verify and
    one of them, other than the version and length byte, is replaced by a
    different one, [Deserialize] returns 20 and the header reports a wrong
    checksum. *)
Theorem Ipv4_corruption_detected h c m b bs l k x y :
  inv m (b :: bs) -> m_start b <= c -> c + 20 <= m_end b -> m_calcChecksum h = true ->
  byte_list l -> length l = 20%nat -> l !! O = Some 69 -> checksum_of 0 l = 0 ->
  (0 < k)%nat -> l !! k = Some y -> 0 <= x < 256 -> x <> y ->
  slice (c - m_start b) (c - m_start b + 20) (content m b) = <[k := x]> l ->
  exists h', Deserialize h (Construct b c) m = Some (20, h') /\ IsChecksumOk h' = false.
Proof.
  intros Hi Hs He Hcalc Hb Hlen H0 Hok Hk Hy Hx Hne Hsl.
  pose proof (corrupted_checksum l k x y Hb Hx Hy Hne Hok) as Hbad.
  assert (byte_list (<[k := x]> l)) as Hb' by (by apply Forall_insert).
  assert (length (<[k := x]> l) = 20%nat) as Hlen' by (by rewrite length_insert).
  assert ((<[k := x]> l) !! O = Some 69) as H0' by (rewrite list_lookup_insert_ne by lia; done).
  set (l' := <[k := x]> l) in *. clearbody l'.
  do 20 (destruct l' as [|? l']; [discriminate |]). destruct l'; [| discriminate].
  injection H0' as ->. eexists. split.
  - erewrite (Ipv4_Deserialize_ok h c m b bs) by (done || exact Hsl ||
      (change (u16 (Z.land 69 15 * 4)) with 20; rewrite Hsl; done)).
    change (u16 (Z.land 69 15 * 4)) with 20. simpl (negb _). reflexivity.
  - cbn [IsChecksumOk m_goodChecksum parsed]. rewrite Hcalc, Hsl. by apply Z.eqb_neq.
Qed.

(** The header above with its checksum, and with a corrupted time to live. *)
Definition good_bytes : list Z := Eval vm_compute in
  let ck := checksum_of 0 (header_bytes demo_header 0 0) in
  header_bytes demo_header (byte_at 0 ck) (byte_at 8 ck).
Definition bad_bytes : list Z := Eval vm_compute in <[8%nat := 63]> good_bytes.

Lemma Ipv4_corruption_detected_witness :
  exists h', Deserialize (EnableChecksum Ipv4Header_new)
      (Construct (ip_buf bad_bytes) (m_start (ip_buf bad_bytes))) (ip_mem bad_bytes) = Some (20, h') /\
    IsChecksumOk h' = false.
Proof.
  apply (Ipv4_corruption_detected (EnableChecksum Ipv4Header_new) (m_start (ip_buf bad_bytes))
    (ip_mem bad_bytes) (ip_buf bad_bytes) [] good_bytes 8 63 64).
  - apply ip_inv. vm_compute. discriminate.
  - lia.
  - vm_compute. discriminate.
  - reflexivity.
  - repeat (constructor; [lia |]). constructor.
  - reflexivity.
  - reflexivity.
  - vm_compute. reflexivity.
  - lia.
  - reflexivity.
  - lia.
  - lia.
  - rewrite (proj2 (ip_inv bad_bytes ltac:(vm_compute; discriminate))), Z.sub_diag. reflexivity.
Defined.

(** ** Accessors *)

(** [P] holds of all pairs of numbers below [a] and [b] once it evaluates to
    true on them. *)
Lemma small_cases (P : Z -> Z -> bool) a b :
  forallb (fun i => forallb (fun j => P (Z.of_nat i) (Z.of_nat j)) (seq 0 b)) (seq 0 a) = true ->
  forall x y, 0 <= x < Z.of_nat a -> 0 <= y < Z.of_nat b -> P x y = true.
Proof.
  intros H x y Hx Hy. rewrite forallb_forall in H.
  pose proof (H (Z.to_nat x) ltac:(apply in_seq; lia)) as H1. rewrite forallb_forall in H1.
  pose proof (H1 (Z.to_nat y) ltac:(apply in_seq; lia)) as H2. by rewrite !Z2Nat.id in H2 by lia.
Qed.

(** The two halves of the type of service byte and the fragmentation flags
    are independent: setting the DSCP keeps the ECN bits and the reverse, each
    getter returns what was set, and each fragmentation flag is set and cleared
    without changing the other. *)
Theorem Ipv4_fields_independent h dscp ecn :
  0 <= m_tos h < 256 -> 0 <= m_flags h < 8 -> 0 <= dscp < 64 -> 0 <= ecn < 4 ->
  (GetDscp (SetDscp dscp h) = dscp /\ GetEcn (SetDscp dscp h) = GetEcn h) /\
  (GetEcn (SetEcn ecn h) = ecn /\ GetDscp (SetEcn ecn h) = GetDscp h) /\
  (IsLastFragment (SetMoreFragments h) = false /\ IsLastFragment (SetLastFragment h) = true /\
   IsDontFragment (SetMoreFragments h) = IsDontFragment h /\ IsDontFragment (SetLastFragment h) = IsDontFragment h) /\
  (IsDontFragment (SetDontFragment h) = true /\ IsDontFragment (SetMayFragment h) = false /\
   IsLastFragment (SetDontFragment h) = IsLastFragment h /\ IsLastFragment (SetMayFragment h) = IsLastFragment h).
Proof.
  intros Ht Hf Hd He.
  pose proof (small_cases (fun t d => (Z.shiftr (Z.land (u8 (Z.lor (u8 (Z.land t 3)) (Z.shiftl d 2))) 252) 2 =? d) &&
    (Z.land (u8 (Z.lor (u8 (Z.land t 3)) (Z.shiftl d 2))) 3 =? Z.land t 3)) 256 64
    ltac:(vm_compute; reflexivity) (m_tos h) dscp Ht Hd) as H1.
  pose proof (small_cases (fun t e => (Z.land (u8 (Z.lor (u8 (Z.land t 252)) e)) 3 =? e) &&
    (Z.shiftr (Z.land (u8 (Z.lor (u8 (Z.land t 252)) e)) 252) 2 =? Z.shiftr (Z.land t 252) 2)) 256 4
    ltac:(vm_compute; reflexivity) (m_tos h) ecn Ht He) as H2.
  cbv beta in H1, H2. bool_prop. split; [by split |]. split; [by split |].
  unfold IsLastFragment, IsDontFragment, SetMoreFragments, SetLastFragment, SetDontFragment, SetMayFragment, set_flags.
  simpl. assert (exists k, (k < 8)%nat /\ m_flags h = Z.of_nat k) as (k & Hk & ->)
    by (exists (Z.to_nat (m_flags h)); lia).
  do 8 (destruct k as [|k]; [by vm_compute |]). lia.
Qed.

Lemma Ipv4_fields_independent_witness :
  (GetDscp (SetDscp 46 demo_header) = 46 /\ GetEcn (SetDscp 46 demo_header) = GetEcn demo_header) /\
  (GetEcn (SetEcn 3 demo_header) = 3 /\ GetDscp (SetEcn 3 demo_header) = GetDscp demo_header) /\
  (IsLastFragment (SetMoreFragments demo_header) = false /\ IsLastFragment (SetLastFragment demo_header) = true /\
   IsDontFragment (SetMoreFragments demo_header) = IsDontFragment demo_header /\
   IsDontFragment (SetLastFragment demo_header) = IsDontFragment demo_header) /\
  (IsDontFragment (SetDontFragment demo_header) = true /\ IsDontFragment (SetMayFragment demo_header) = false /\
   IsLastFragment (SetDontFragment demo_header) = IsLastFragment demo_header /\
   IsLastFragment (SetMayFragment demo_header) = IsLastFragment demo_header).
Proof. apply (Ipv4_fields_independent demo_header 46 3); simpl; lia. Defined.

(** ** Headers with options *)

(** A received header of 24 bytes: version 4, IHL 6, one word of options. *)
Definition option_bytes : list Z :=
  [70; 0; 0; 34; 0; 1; 0; 0; 64; 17; 0; 0; 10; 0; 0; 1; 10; 0; 0; 2; 1; 1; 1; 0].

(** Read it, then put the header read in front of a packet the way a header is
    added (reserve [GetSerializedSize], serialize), and read it there. *)
Definition forward_options : option (Z * Z * Z) :=
  let* (n1, h) := Deserialize Ipv4Header_new (Begin (ip_buf option_bytes)) (ip_mem option_bytes) in
  let* (b, m) := AddAtStart demo_uninit (GetSerializedSize h) demo_buf demo_mem in
  let* m := Serialize h (Begin b) m in
  let* (n2, _) := Deserialize Ipv4Header_new (Begin b) m in
  Some (n1, GetSerializedSize h, n2).

(** A header with options does not survive being forwarded: [Deserialize]
    reports 24 bytes and [GetSerializedSize] reserves 24, but [Serialize] writes
    a 20 byte header (IHL 5), so the next reader takes 20 bytes for the header
    and the 4 bytes never written for payload. *)
Theorem Ipv4_options_lost : forward_options = Some (24, 24, 20).
Proof. vm_compute. reflexivity. Qed.

End Ipv4Header.
