(* ===== verification/UdpHeader.v ===== *)
(** * The UDP header (src/internet/model/udp-header.cc, udp-header.h)

    The fields, the checksum over the pseudo header, and reading and writing through
    iterators. *)

From S2P Require Import Prelude Buffer BufferIterator BufferInv BufferRw BufferProps Checksum Ipv4Header Wire.

Module UdpHeader.
Import Buffer Iterator BufferInv BufferRw BufferProps Checksum Wire.

Record UdpHeader := mkUdp {
  m_sourcePort : Z;
  m_destinationPort : Z;
  m_payloadSize : Z;
  m_forcedPayloadSize : Z;
  m_source : NetAddress;
  m_destination : NetAddress;
  m_protocol : Z;
  m_checksum : Z;
  m_calcChecksum : bool;
  m_goodChecksum : bool
}.
Definition UdpHeader_new : UdpHeader := mkUdp 0xfffd 0xfffd 0 0 NoAddress NoAddress 17 0 false true.

Definition EnableChecksums (h : UdpHeader) : UdpHeader :=
  mkUdp (m_sourcePort h) (m_destinationPort h) (m_payloadSize h) (m_forcedPayloadSize h) (m_source h) (m_destination h) (m_protocol h) (m_checksum h) true (m_goodChecksum h).
Definition SetDestinationPort (port : Z) (h : UdpHeader) : UdpHeader :=
  mkUdp (m_sourcePort h) port (m_payloadSize h) (m_forcedPayloadSize h) (m_source h) (m_destination h) (m_protocol h) (m_checksum h) (m_calcChecksum h) (m_goodChecksum h).
Definition SetSourcePort (port : Z) (h : UdpHeader) : UdpHeader :=
  mkUdp port (m_destinationPort h) (m_payloadSize h) (m_forcedPayloadSize h) (m_source h) (m_destination h) (m_protocol h) (m_checksum h) (m_calcChecksum h) (m_goodChecksum h).
Definition InitializeChecksum (source destination : NetAddress) (protocol : Z) (h : UdpHeader) : UdpHeader :=
  mkUdp (m_sourcePort h) (m_destinationPort h) (m_payloadSize h) (m_forcedPayloadSize h) source destination protocol (m_checksum h) (m_calcChecksum h) (m_goodChecksum h).
Definition ForceChecksum (checksum : Z) (h : UdpHeader) : UdpHeader :=
  mkUdp (m_sourcePort h) (m_destinationPort h) (m_payloadSize h) (m_forcedPayloadSize h) (m_source h) (m_destination h) (m_protocol h) checksum (m_calcChecksum h) (m_goodChecksum h).
Definition ForcePayloadSize (payloadSize : Z) (h : UdpHeader) : UdpHeader :=
  mkUdp (m_sourcePort h) (m_destinationPort h) (m_payloadSize h) payloadSize (m_source h) (m_destination h) (m_protocol h) (m_checksum h) (m_calcChecksum h) (m_goodChecksum h).
Definition IsChecksumOk (h : UdpHeader) : bool := m_goodChecksum h.
Definition GetSerializedSize : Z := 8.

Section Serialize.
Context (uninit : Z -> nat -> Z).

Definition write_pseudo (h : UdpHeader) (size : Z) (i : Iterator) (m : Mem) : option (Iterator * Mem) :=
  let* (i, m) := WriteTo (m_source h) i m in
  let* (i, m) := WriteTo (m_destination h) i m in
  if IsIpv4 (m_source h) then pseudo_v4 (m_protocol h) size i m
  else if IsIpv6 (m_source h) then pseudo_v6 (m_protocol h) size i m
  else Some (i, m).
Definition hdrSize (h : UdpHeader) : Z := if IsIpv4 (m_source h) then 12 else if IsIpv6 (m_source h) then 40 else 0.
Definition CalculateHeaderChecksum (h : UdpHeader) (size : Z) (m : Mem) : option (Z * Mem) :=
  scratch_checksum uninit (write_pseudo h size) (hdrSize h) m.

Definition write_fields (h : UdpHeader) (start i : Iterator) (m : Mem) : option (Iterator * Mem) :=
  let* (i, m) := WriteHtonU16 (m_sourcePort h) i m in
  let* (i, m) := WriteHtonU16 (m_destinationPort h) i m in
  if m_forcedPayloadSize h =? 0 then WriteHtonU16 (u16 (IterSize start)) i m else WriteHtonU16 (m_forcedPayloadSize h) i m.
Definition Serialize (h : UdpHeader) (start : Iterator) (m : Mem) : option Mem :=
  let* (i, m) := write_fields h start start m in
  if m_checksum h =? 0 then
    let* (_, m) := WriteU16 0 i m in
    if m_calcChecksum h then
      let* (headerChecksum, m) := CalculateHeaderChecksum h (u16 (IterSize start)) m in
      let* (checksum, _) := CalculateIpChecksum (u16 (IterSize start)) headerChecksum start m in
      let* (_, m) := (let* i := Next 6 start in WriteU16 (if checksum =? 0 then 0xffff else checksum) i m) in
      Some m
    else Some m
  else let* (_, m) := WriteU16 (m_checksum h) i m in Some m.
Definition Deserialize (h : UdpHeader) (start : Iterator) (m : Mem) : option (Z * UdpHeader * Mem) :=
  let* (sourcePort, i) := ReadNtohU16 start m in
  let* (destinationPort, i) := ReadNtohU16 i m in
  let* (size, i) := ReadNtohU16 i m in
  let* (checksum, i) := ReadU16 i m in
  let read good := mkUdp sourcePort destinationPort (u16 (size - GetSerializedSize)) (m_forcedPayloadSize h) (m_source h) (m_destination h) (m_protocol h) checksum (m_calcChecksum h) good in
  if m_calcChecksum h && negb (checksum =? 0) then
    let* (headerChecksum, m) := CalculateHeaderChecksum h (u16 (IterSize start)) m in
    let* (sum, _) := CalculateIpChecksum (u16 (IterSize start)) headerChecksum start m in
    Some (GetSerializedSize, read (sum =? 0), m)
  else Some (GetSerializedSize, read (m_goodChecksum h), m).
End Serialize.

(** ** What is on the wire *)

Record udp_ok (h : UdpHeader) : Prop := mkUdpOk {
  uo_source : 0 <= m_sourcePort h < 2 ^ 16;
  uo_dest : 0 <= m_destinationPort h < 2 ^ 16;
  uo_protocol : 0 <= m_protocol h < 2 ^ 8;
  uo_auto : m_forcedPayloadSize h = 0 /\ m_checksum h = 0;
  uo_net : m_calcChecksum h = true -> net_ok (m_source h) (m_destination h)
}.
Definition ports (h : UdpHeader) (payload : list Z) : list Z := be 2 (m_sourcePort h) ++ be 2 (m_destinationPort h) ++ be 2 (zlen payload + 8).
Definition udp_sum (h : UdpHeader) (payload : list Z) : Z := pseudo_sum (m_source h) (m_destination h) (m_protocol h) (zlen payload + 8).
(** RFC 768: zero is sent as all ones. *)
Definition nonzero (ck : Z) : Z := if ck =? 0 then 0xffff else ck.
Definition udp_checksum (h : UdpHeader) (payload : list Z) : Z :=
  if m_calcChecksum h then nonzero (checksum_of (udp_sum h payload) (ports h payload ++ [0; 0] ++ payload)) else 0.
Definition udp_bytes (h : UdpHeader) (payload : list Z) : list Z :=
  ports h payload ++ [byte_at 0 (udp_checksum h payload); byte_at 8 (udp_checksum h payload)].
(** The header [h0] once it has read what [h] wrote. *)
Definition udp_read (h h0 : UdpHeader) (payload : list Z) : UdpHeader :=
  mkUdp (m_sourcePort h) (m_destinationPort h) (zlen payload) (m_forcedPayloadSize h0) (m_source h0) (m_destination h0) (m_protocol h0) (udp_checksum h payload) (m_calcChecksum h0)
    (if m_calcChecksum h0 && m_calcChecksum h then true else m_goodChecksum h0).
Definition udp_fits (payload : list Z) : Prop := zlen payload + 8 < 2 ^ 16.

Lemma ports_ok h payload : zlen (ports h payload) = 6 /\ byte_list (ports h payload) /\ Nat.Even (length (ports h payload)).
Proof.
  split; [reflexivity|]. split; [|by exists 3%nat]. unfold ports, byte_list. rewrite !Forall_app. split_and!; apply be_byte_list.
Qed.
Lemma CalculateHeaderChecksum_ok uninit h bs payload : udp_ok h -> m_calcChecksum h = true -> Z.of_nat (length bs) + 3 < 2 ^ 32 -> udp_fits payload ->
  computes (CalculateHeaderChecksum uninit h (zlen payload + 8)) (udp_sum h payload) bs.
Proof.
  intros [] Hcalc Hf Hfit m Hi. specialize (uo_net0 Hcalc). unfold udp_fits in Hfit. pose proof (zlen_nonneg payload). unfold CalculateHeaderChecksum, hdrSize.
  replace (if IsIpv4 (m_source h) then 12 else _) with (if IsIpv4 (m_source h) then 12 else 40) by (by destruct (m_source h), (m_destination h)).
  apply scratch_pseudo; try done; try lia. intros i m'. unfold write_pseudo, write_both. by destruct (m_source h), (m_destination h).
Qed.
Lemma nonzero_range ck : 0 <= ck <= 65535 -> 0 < nonzero ck <= 65535.
Proof. intros H. unfold nonzero. destruct (ck =? 0) eqn:E; lia. Qed.
Lemma udp_sum_range h payload : udp_ok h -> m_calcChecksum h = true -> udp_fits payload -> 0 <= udp_sum h payload <= 65535.
Proof. intros [] Hc Hf. unfold udp_fits in Hf. pose proof (zlen_nonneg payload). apply pseudo_sum_range; [by apply uo_net0|lia..]. Qed.
Lemma udp_checksum_range h payload : udp_ok h -> byte_list payload -> udp_fits payload -> 0 <= udp_checksum h payload <= 65535 /\ (udp_checksum h payload = 0 <-> m_calcChecksum h = false).
Proof.
  intros Hok Hb Hf. destruct (ports_ok h payload) as (_&Hp&_). unfold udp_checksum. destruct (m_calcChecksum h) eqn:E; [|split; [lia|done]].
  pose proof (udp_sum_range h payload Hok E Hf). assert (byte_list (ports h payload ++ [0; 0] ++ payload)) as Hl by (apply Forall_app; split; [done|]; repeat constructor; lia || done).
  pose proof (checksum_range (udp_sum h payload) _ ltac:(lia) Hl) as Hr. pose proof (nonzero_range _ Hr). split; [lia|]. split; [lia|done].
Qed.
Lemma udp_verifies h payload : udp_ok h -> byte_list payload -> udp_fits payload -> m_calcChecksum h = true ->
  checksum_of (udp_sum h payload) (udp_bytes h payload ++ payload) = 0.
Proof.
  intros Hok Hb Hf Hc. destruct (ports_ok h payload) as (_&Hp&He). pose proof (udp_sum_range h payload Hok Hc Hf) as Hr.
  assert (byte_list (ports h payload ++ [0; 0] ++ payload)) as Hl by (apply Forall_app; split; [done|]; repeat constructor; lia || done).
  unfold udp_bytes, udp_checksum, nonzero. rewrite Hc, <- app_assoc. destruct (checksum_of _ (ports h payload ++ [0; 0] ++ payload) =? 0) eqn:E.
  - apply (all_ones_verifies (udp_sum h payload) (ports h payload) payload); [lia|done..|lia].
  - apply (sealed_verifies (udp_sum h payload) (ports h payload) payload); [lia|done..].
Qed.

(** ** Writing *)

Lemma writes_udp_fields h b m bs payload x : udp_ok h -> inv m (b :: bs) -> content m b = x ++ payload -> zlen x = 8 -> udp_fits payload ->
  writes (write_fields h (Begin b)) (ports h payload).
Proof.
  intros [] Hi Hc Hx Hf. unfold udp_fits in Hf. pose proof (zlen_nonneg payload). unfold write_fields. rewrite (proj1 uo_auto0), (IterSize_Begin _ _ _ Hi), Hc, zlen_app, Hx.
  simpl (0 =? 0). cbn iota. unfold u16. rewrite wrap_small by lia. eapply writes_bytes_eq; [write_steps 2%nat|]. by rewrite Z.add_comm.
Qed.
Lemma Serialize_bytes uninit h m b bs x payload : udp_ok h -> inv m (b :: bs) -> few bs -> content m b = x ++ payload -> zlen x = 8 -> room b 8 bs -> byte_list payload -> udp_fits payload ->
  exists m', Serialize uninit h (Begin b) m = Some m' /\ inv m' (b :: bs) /\ content m' b = udp_bytes h payload ++ payload /\ same_contents m m' bs.
Proof.
  intros Hok Hi Hf Hc Hx Hr Hb Hfit. destruct (ports_ok h payload) as (Hpl&Hpb&_). pose proof (zlen_nonneg payload).
  assert (zlen (ports h payload ++ [0; 0]) = 8) as Hl8 by reflexivity.
  assert (writes (fun i m => let* (i, m) := write_fields h (Begin b) i m in WriteU16 0 i m) (ports h payload ++ [0; 0])) as Hw.
  { eapply writes_seq; [by eapply writes_udp_fields|apply (writes_U16_le 0)|discriminate]. }
  destruct (write_prefix _ _ m b bs x payload Hw Hi) as (m1&E&Hi1&Hc1&Ho1); [by rewrite Hl8|done|by rewrite Hl8|discriminate|].
  unfold Serialize. destruct (write_fields h (Begin b) (Begin b) m) as [[i m0]|]; [|done]. rewrite (proj2 (uo_auto _ Hok)). simpl (0 =? 0). cbn iota. rewrite E.
  unfold udp_bytes, udp_checksum. destruct (m_calcChecksum h) eqn:Ec; [|by exists m1].
  assert (zlen (content m1 b) = zlen payload + 8) as Hsz by (rewrite Hc1, zlen_app, Hl8; lia). rewrite <- app_assoc in Hc1. unfold udp_fits in Hfit.
  assert (u16 (IterSize (Begin b)) = zlen payload + 8) as Hu by (rewrite (IterSize_Begin _ _ _ Hi1), Hsz; apply wrap_small; lia).
  destruct (seal_ok (CalculateHeaderChecksum uninit h (zlen payload + 8)) (udp_sum h payload) nonzero m1 b bs (ports h payload) payload 8) as (m2&E2&Hi2&Hc2&Ho2); try done.
  - apply CalculateHeaderChecksum_ok; try done. unfold few in Hf. cbn [length]. lia.
  - by apply udp_sum_range.
  - rewrite Hc1. apply Forall_app. split; [done|]. repeat constructor; lia || done.
  - lia.
  - lia.
  - exists m2. rewrite <- app_assoc. rewrite Hu at 1. split_and!; try done. by eapply same_contents_trans.
Qed.

(** ** Reading *)

Lemma Deserialize_bytes uninit h h0 m b bs payload : udp_ok h -> udp_ok h0 -> (m_calcChecksum h0 = true -> m_source h0 = m_source h /\ m_destination h0 = m_destination h /\ m_protocol h0 = m_protocol h) ->
  inv m (b :: bs) -> few bs -> content m b = udp_bytes h payload ++ payload -> byte_list payload -> udp_fits payload ->
  exists m', Deserialize uninit h0 (Begin b) m = Some (8, udp_read h h0 payload, m') /\ inv m' (b :: bs) /\ same_contents m m' (b :: bs).
Proof.
  intros Hok Hok0 Hsame Hi Hf Hc Hb Hfit. pose proof (zlen_nonneg payload). destruct (udp_checksum_range h payload Hok Hb Hfit) as [Hr Hz].
  pose proof (fun A r n f k R => @read_in A r n f k m b bs _ _ R Hi Hc) as Hat. assert (zlen (udp_bytes h payload) = 8) as Hl by reflexivity.
  unfold Deserialize. replace (ReadNtohU16 (Begin b) m) with (ReadNtohU16 (Construct b (m_start b + 0)) m) by (by rewrite Z.add_0_r).
  do 3 (rewrite (Hat _ _ _ _ _ reads_NtohU16) by lia; cbn iota). rewrite (Hat _ _ _ _ _ reads_U16) by lia.
  pose proof (fold_be_value 16 2) as H16. pose proof Hok as []. unfold udp_fits in Hfit.
  assert (slice 0 (0 + 2) (udp_bytes h payload) = be 2 (m_sourcePort h)) as -> by reflexivity.
  assert (slice (0 + 2) (0 + 2 + 2) (udp_bytes h payload) = be 2 (m_destinationPort h)) as -> by reflexivity.
  assert (slice (0 + 2 + 2) (0 + 2 + 2 + 2) (udp_bytes h payload) = be 2 (zlen payload + 8)) as -> by reflexivity.
  assert (rev (slice (0 + 2 + 2 + 2) (0 + 2 + 2 + 2 + 2) (udp_bytes h payload)) = be 2 (udp_checksum h payload)) as -> by reflexivity.
  rewrite !H16 by (simpl; lia). replace (u16 (zlen payload + 8 - GetSerializedSize)) with (zlen payload) by (unfold GetSerializedSize, u16; rewrite wrap_small; lia).
  unfold udp_read. destruct (m_calcChecksum h0) eqn:E0; [|by exists m]. destruct (Hsame eq_refl) as (S1&S2&S3). cbn [andb].
  destruct (m_calcChecksum h) eqn:E; [|rewrite (proj2 Hz eq_refl); by exists m].
  replace (udp_checksum h payload =? 0) with false by (symmetry; apply Z.eqb_neq; intros Hx; by apply Hz in Hx). cbn [negb].
  assert (zlen (content m b) = zlen payload + 8) as Hsz by (rewrite Hc, zlen_app, Hl; lia).
  assert (u16 (IterSize (Begin b)) = zlen payload + 8) as Hu by (rewrite (IterSize_Begin _ _ _ Hi), Hsz; apply wrap_small; lia).
  destruct (CalculateHeaderChecksum_ok uninit h0 (b :: bs) payload Hok0 E0) with (m := m) as (m1&E1&Hi1&Ho1); [unfold few in *; cbn [length]; lia|done|done|].
  assert (udp_sum h0 payload = udp_sum h payload) as Es by (unfold udp_sum; by rewrite S1, S2, S3). assert (content m1 b = content m b) as Hc1 by (apply Ho1; by left).
  pose proof (udp_sum_range h payload Hok E Hfit). exists m1. split; [|done]. rewrite Hu at 1. rewrite E1, Es, (packet_sum _ m1 b bs Hi1); [|rewrite Hc1, Hc|rewrite Hc1; lia|lia].
  - by rewrite Hc1, Hc, udp_verifies by done.
  - apply Forall_app. split; [|done]. apply Forall_app. split; [apply ports_ok|]. repeat constructor; apply byte_at_range; lia.
Qed.
#[export] Instance udp_laws uninit h h0 : udp_ok h -> udp_ok h0 ->
  (m_calcChecksum h0 = true -> m_source h0 = m_source h /\ m_destination h0 = m_destination h /\ m_protocol h0 = m_protocol h) ->
  HeaderLaws 8 (Serialize uninit h) (Deserialize uninit h0) udp_fits (fun payload h' => h' = udp_read h h0 payload).
Proof.
  intros Hok Hok0 Hs. constructor; [unfold MAX_CONTENT; lia|]. intros m b bs x payload Hi Hf Hc Hx Hr Hb Hfit.
  destruct (Serialize_bytes uninit h m b bs x payload) as (m'&E&Hi'&Hc'&Ho); try done. exists (udp_bytes h payload), m', (udp_read h h0 payload). split_and!; try done.
  - apply Forall_app. split; [apply ports_ok|]. repeat constructor; apply byte_at_range; lia.
  - intros m2 b2 bs2 Hi2 Hf2 Hc2. by apply Deserialize_bytes.
Qed.
End UdpHeader.
