(* ===== verification/TcpOption.v ===== *)
(** * TCP options (src/internet/model/tcp-option*.cc)

    The options as one type, with the constructors the classes stand for, and their
    reading and writing through iterators. *)

From S2P Require Import Prelude Buffer BufferIterator BufferInv BufferRw BufferProps Checksum Ipv4Header Wire.

Module TcpOption.
Import Buffer Iterator BufferInv BufferRw BufferProps Checksum Wire.

Definition END : Z := 0.
Definition NOP : Z := 1.
Definition MSS : Z := 2.
Definition WINSCALE : Z := 3.
Definition SACKPERMITTED : Z := 4.
Definition SACK : Z := 5.
Definition TS : Z := 8.

Inductive TcpOption :=
  | OptionEnd
  | OptionNOP
  | OptionMSS (m_mss : Z)
  | OptionWinScale (m_scale : Z)
  | OptionSackPermitted
  | OptionSack (m_sackList : list (Z * Z))
  | OptionTS (m_timestamp m_echo : Z)
  | OptionUnknown (m_kind m_size : Z) (m_content : list Z).
#[export] Instance tcp_option_eq_dec : EqDecision TcpOption.
Proof. solve_decision. Defined.
Definition GetKind (o : TcpOption) : Z :=
  match o with
  | OptionEnd => END | OptionNOP => NOP | OptionMSS _ => MSS | OptionWinScale _ => WINSCALE | OptionSackPermitted => SACKPERMITTED
  | OptionSack _ => SACK | OptionTS _ _ => TS | OptionUnknown k _ _ => k
  end.
Definition GetNumSackBlocks (l : list (Z * Z)) : Z := u32 (Z.of_nat (length l)).
Definition GetSerializedSize (o : TcpOption) : Z :=
  match o with
  | OptionEnd | OptionNOP => 1 | OptionMSS _ => 4 | OptionWinScale _ => 3 | OptionSackPermitted => 2
  | OptionSack l => u32 (2 + GetNumSackBlocks l * 8) | OptionTS _ _ => 10 | OptionUnknown _ size _ => size
  end.
Definition IsKindKnown (kind : Z) : bool := (kind =? END) || (kind =? NOP) || (kind =? MSS) || (kind =? WINSCALE) || (kind =? SACKPERMITTED) || (kind =? SACK) || (kind =? TS).
Definition CreateOption (kind : Z) : TcpOption :=
  if kind =? END then OptionEnd else if kind =? MSS then OptionMSS 1460 else if kind =? NOP then OptionNOP else if kind =? TS then OptionTS 0 0
  else if kind =? WINSCALE then OptionWinScale 0 else if kind =? SACKPERMITTED then OptionSackPermitted else if kind =? SACK then OptionSack []
  else OptionUnknown 0xff 0 [].
Definition SetScale (scale : Z) : option TcpOption := assert* scale <=? 14 in Some (OptionWinScale scale).
Definition AddSackBlock (s : Z * Z) (l : list (Z * Z)) : list (Z * Z) := l ++ [s].

(** ** Writing *)

Fixpoint write_blocks (l : list (Z * Z)) (i : Iterator) (m : Mem) : option (Iterator * Mem) :=
  match l with
  | [] => Some (i, m)
  | (leftEdge, rightEdge) :: l =>
      let* (i, m) := WriteHtonU32 leftEdge i m in
      let* (i, m) := WriteHtonU32 rightEdge i m in
      write_blocks l i m
  end.
Definition End_Serialize (i : Iterator) (m : Mem) : option (Iterator * Mem) := WriteU8 END i m.
Definition NOP_Serialize (i : Iterator) (m : Mem) : option (Iterator * Mem) := WriteU8 NOP i m.
Definition MSS_Serialize (mss : Z) (i : Iterator) (m : Mem) : option (Iterator * Mem) :=
  let* (i, m) := WriteU8 MSS i m in let* (i, m) := WriteU8 4 i m in WriteHtonU16 mss i m.
Definition WinScale_Serialize (scale : Z) (i : Iterator) (m : Mem) : option (Iterator * Mem) :=
  let* (i, m) := WriteU8 WINSCALE i m in let* (i, m) := WriteU8 3 i m in WriteU8 scale i m.
Definition SackPermitted_Serialize (i : Iterator) (m : Mem) : option (Iterator * Mem) := let* (i, m) := WriteU8 SACKPERMITTED i m in WriteU8 2 i m.
Definition Sack_Serialize (l : list (Z * Z)) (i : Iterator) (m : Mem) : option (Iterator * Mem) :=
  let* (i, m) := WriteU8 SACK i m in
  let* (i, m) := WriteU8 (u8 (GetNumSackBlocks l * 8 + 2)) i m in
  write_blocks l i m.
Definition TS_Serialize (timestamp echo : Z) (i : Iterator) (m : Mem) : option (Iterator * Mem) :=
  let* (i, m) := WriteU8 TS i m in
  let* (i, m) := WriteU8 10 i m in
  let* (i, m) := WriteHtonU32 timestamp i m in
  WriteHtonU32 echo i m.
Definition Unknown_Serialize (kind size : Z) (content : list Z) (i : Iterator) (m : Mem) : option (Iterator * Mem) :=
  if size =? 0 then Some (i, m)
  else
    let* (i, m) := WriteU8 kind i m in
    let* (i, m) := WriteU8 (u8 size) i m in
    Write_bytes (take (Z.to_nat (size - 2)) content) i m.
Definition write_option (o : TcpOption) : Iterator -> Mem -> option (Iterator * Mem) :=
  match o with
  | OptionEnd => End_Serialize | OptionNOP => NOP_Serialize | OptionMSS mss => MSS_Serialize mss | OptionWinScale scale => WinScale_Serialize scale
  | OptionSackPermitted => SackPermitted_Serialize | OptionSack l => Sack_Serialize l | OptionTS timestamp echo => TS_Serialize timestamp echo
  | OptionUnknown kind size content => Unknown_Serialize kind size content
  end.
(** The iterator is passed by value: the caller moves its own. *)
Definition Serialize (o : TcpOption) (i : Iterator) (m : Mem) : option Mem := let* (_, m) := write_option o i m in Some m.

(** ** Reading *)

Fixpoint read_blocks (n : nat) (l : list (Z * Z)) (i : Iterator) (m : Mem) : option (list (Z * Z)) :=
  match n with
  | O => Some l
  | S n =>
      let* (leftEdge, i) := ReadNtohU32 i m in
      let* (rightEdge, i) := ReadNtohU32 i m in
      read_blocks n (AddSackBlock (leftEdge, rightEdge) l) i m
  end.
(** The size, 0 when the option is malformed, and the option read. An MSS option of a
    wrong size aborts. *)
Definition End_Deserialize (start : Iterator) (m : Mem) : option (Z * TcpOption) :=
  let* (readKind, _) := ReadU8 start m in
  if negb (readKind =? END) then Some (0, OptionEnd) else Some (1, OptionEnd).
Definition NOP_Deserialize (start : Iterator) (m : Mem) : option (Z * TcpOption) :=
  let* (readKind, _) := ReadU8 start m in
  if negb (readKind =? NOP) then Some (0, OptionNOP) else Some (1, OptionNOP).
Definition MSS_Deserialize (mss : Z) (start : Iterator) (m : Mem) : option (Z * TcpOption) :=
  let* (readKind, i) := ReadU8 start m in
  if negb (readKind =? MSS) then Some (0, OptionMSS mss)
  else
    let* (size, i) := ReadU8 i m in
    assert* size =? 4 in
    let* (mss, _) := ReadNtohU16 i m in Some (4, OptionMSS mss).
Definition WinScale_Deserialize (scale : Z) (start : Iterator) (m : Mem) : option (Z * TcpOption) :=
  let* (readKind, i) := ReadU8 start m in
  if negb (readKind =? WINSCALE) then Some (0, OptionWinScale scale)
  else
    let* (size, i) := ReadU8 i m in
    if negb (size =? 3) then Some (0, OptionWinScale scale) else let* (scale, _) := ReadU8 i m in Some (3, OptionWinScale scale).
Definition SackPermitted_Deserialize (start : Iterator) (m : Mem) : option (Z * TcpOption) :=
  let* (readKind, i) := ReadU8 start m in
  if negb (readKind =? SACKPERMITTED) then Some (0, OptionSackPermitted)
  else let* (size, _) := ReadU8 i m in if negb (size =? 2) then Some (0, OptionSackPermitted) else Some (2, OptionSackPermitted).
Definition Sack_Deserialize (l : list (Z * Z)) (start : Iterator) (m : Mem) : option (Z * TcpOption) :=
  let* (readKind, i) := ReadU8 start m in
  if negb (readKind =? SACK) then Some (0, OptionSack l)
  else
    let* (size, i) := ReadU8 i m in
    let* l := read_blocks (Z.to_nat (u8 (Z.quot (size - 2) 8))) [] i m in
    Some (GetSerializedSize (OptionSack l), OptionSack l).
Definition TS_Deserialize (timestamp echo : Z) (start : Iterator) (m : Mem) : option (Z * TcpOption) :=
  let* (readKind, i) := ReadU8 start m in
  if negb (readKind =? TS) then Some (0, OptionTS timestamp echo)
  else
    let* (size, i) := ReadU8 i m in
    if negb (size =? 10) then Some (0, OptionTS timestamp echo)
    else let* (timestamp, i) := ReadNtohU32 i m in let* (echo, _) := ReadNtohU32 i m in Some (10, OptionTS timestamp echo).
Definition Unknown_Deserialize (content : list Z) (start : Iterator) (m : Mem) : option (Z * TcpOption) :=
  let* (kind, i) := ReadU8 start m in
  let* (size, i) := ReadU8 i m in
  if (size <? 2) || (40 <? size) then Some (0, OptionUnknown kind size content)
  else let* (c, _) := Read (Z.to_nat (size - 2)) i m in Some (size, OptionUnknown kind size c).
Definition Deserialize (o : TcpOption) : Iterator -> Mem -> option (Z * TcpOption) :=
  match o with
  | OptionEnd => End_Deserialize | OptionNOP => NOP_Deserialize | OptionMSS mss => MSS_Deserialize mss | OptionWinScale scale => WinScale_Deserialize scale
  | OptionSackPermitted => SackPermitted_Deserialize | OptionSack l => Sack_Deserialize l | OptionTS timestamp echo => TS_Deserialize timestamp echo
  | OptionUnknown _ _ content => Unknown_Deserialize content
  end.
(** The class of an option, with its code. *)
Ltac option_code :=
  unfold Deserialize, End_Deserialize, NOP_Deserialize, MSS_Deserialize, WinScale_Deserialize, SackPermitted_Deserialize, Sack_Deserialize, TS_Deserialize, Unknown_Deserialize.

(** ** Time stamps *)

(** Milliseconds, of a time in nanoseconds. *)
Definition NowToTsValue (now : Z) : Z := Z.land (u64 (now / 1000000)) 0xffffffff.
Definition ElapsedTimeFromTsValue (now echoTime : Z) : Z :=
  let now32 := Z.land (u64 (now / 1000000)) 0xffffffff in
  if echoTime <? now32 then (now32 - echoTime) * 1000000 else 0.

(** ** Bytes *)

Definition block_bytes (l : list (Z * Z)) : list Z := concat ((fun s => be 4 s.1 ++ be 4 s.2) <$> l).
Definition option_bytes (o : TcpOption) : list Z :=
  match o with
  | OptionEnd => [0] | OptionNOP => [1] | OptionMSS mss => [2; 4] ++ be 2 mss | OptionWinScale s => [3; 3; s] | OptionSackPermitted => [4; 2]
  | OptionSack l => [5; u8 (Z.of_nat (length l) * 8 + 2)] ++ block_bytes l | OptionTS t e => [8; 10] ++ be 4 t ++ be 4 e
  | OptionUnknown k size c => if size =? 0 then [] else [k; u8 size] ++ take (Z.to_nat (size - 2)) c
  end.
Definition seq32 (x : Z) : Prop := 0 <= x < 2 ^ 32.
(** A known option whose fields fit; the sizes are those a header has room for. *)
Definition option_ok (o : TcpOption) : Prop :=
  match o with
  | OptionMSS mss => 0 <= mss < 2 ^ 16
  | OptionWinScale s => 0 <= s < 2 ^ 8
  | OptionSack l => (length l <= 4)%nat /\ Forall (fun s => seq32 s.1 /\ seq32 s.2) l
  | OptionTS t e => seq32 t /\ seq32 e
  | OptionUnknown _ _ _ => False
  | _ => True
  end.

Lemma block_bytes_length l : zlen (block_bytes l) = 8 * Z.of_nat (length l).
Proof. induction l as [|s l IH]; [done|]. change (block_bytes (s :: l)) with ((be 4 s.1 ++ be 4 s.2) ++ block_bytes l). rewrite zlen_app, IH. change (zlen (be 4 s.1 ++ be 4 s.2)) with 8. cbn [length]. lia. Qed.
Lemma option_size o : option_ok o -> zlen (option_bytes o) = GetSerializedSize o /\ 1 <= GetSerializedSize o <= 40.
Proof.
  intros Hok. destruct o as [| | | | |l| |k size c]; try done; cbn [option_bytes GetSerializedSize] in *. destruct Hok as [Hl _]. rewrite zlen_app, block_bytes_length. unfold GetNumSackBlocks. rewrite (u32_small (Z.of_nat (length l))), u32_small by lia. change (zlen [5; _]) with 2. lia.
Qed.
Lemma option_byte_list o : option_ok o -> byte_list (option_bytes o).
Proof.
  intros Hok. destruct o as [| |mss|s| |l|t e|k size c]; cbn [option_bytes option_ok] in *; try (repeat constructor; lia); try done.
  - apply Forall_app. split; [repeat constructor; lia|apply be_byte_list].
  - apply Forall_app. split; [repeat constructor; try lia; apply (wrap_range 8); lia|]. destruct Hok as [_ Hl]. clear Hl.
    induction l as [|x l IH]; [constructor|]. cbn. unfold byte_list in *. repeat (constructor; [apply byte_at_range; lia|]). apply IH.
  - apply Forall_app. split; [repeat constructor; lia|]. apply Forall_app. split; apply be_byte_list.
Qed.

(** ** Writing an option *)

Lemma writes_blocks l : l <> [] -> writes (write_blocks l) (block_bytes l).
Proof.
  induction l as [|[a b] l IH]; [done|]. intros _. destruct l as [|y l].
  - eapply writes_ext with (w := fun i m => let* (i, m) := WriteHtonU32 a i m in WriteHtonU32 b i m).
    { intros i m. cbn. destruct (WriteHtonU32 a i m) as [[i1 m1]|]; [|done]. by destruct (WriteHtonU32 b i1 m1) as [[i2 m2]|]. }
    eapply writes_bytes_eq; [write_steps 1%nat|reflexivity].
  - change (block_bytes ((a, b) :: y :: l)) with (be 4 a ++ be 4 b ++ block_bytes (y :: l)).
    apply (writes_seq (WriteHtonU32 a) (be 4 a) (fun i m => let* (i, m) := WriteHtonU32 b i m in write_blocks (y :: l) i m)); [apply writes_HtonU32| |discriminate].
    apply (writes_seq (WriteHtonU32 b) (be 4 b)); [apply writes_HtonU32|by apply IH|discriminate].
Qed.
Lemma writes_sack l : (length l <= 4)%nat -> writes (write_option (OptionSack l)) (option_bytes (OptionSack l)).
Proof.
  intros Hl. assert (GetNumSackBlocks l = Z.of_nat (length l)) as E by (apply u32_small; lia). unfold write_option, Sack_Serialize; cbn [option_bytes]. rewrite E. destruct l as [|x l].
  - eapply writes_ext with (w := fun i m => let* (i, m) := WriteU8 SACK i m in WriteU8 2 i m); [|eapply writes_bytes_eq; [write_steps 1%nat|reflexivity]].
    intros i m. destruct (WriteU8 SACK i m) as [[i1 m1]|]; [|done]. cbn. by destruct (WriteU8 _ i1 m1) as [[i2 m2]|].
  - set (y := u8 _). change ([5; y] ++ block_bytes (x :: l)) with ([5] ++ [y] ++ block_bytes (x :: l)).
    eapply writes_seq; [apply writes_U8|eapply writes_seq; [apply writes_U8|by apply writes_blocks|discriminate]|discriminate].
Qed.
Lemma writes_option o : option_ok o -> writes (write_option o) (option_bytes o).
Proof.
  intros Hok. destruct o as [| |mss|s| |l|t e|k size c]; unfold write_option, End_Serialize, NOP_Serialize, MSS_Serialize, WinScale_Serialize, SackPermitted_Serialize, TS_Serialize; cbn [option_bytes].
  - apply writes_U8.
  - apply writes_U8.
  - eapply writes_bytes_eq; [write_steps 2%nat|reflexivity].
  - eapply writes_bytes_eq; [write_steps 2%nat|reflexivity].
  - eapply writes_bytes_eq; [write_steps 1%nat|reflexivity].
  - apply writes_sack, Hok.
  - eapply writes_bytes_eq; [write_steps 3%nat|reflexivity].
  - done.
Qed.
(** ** Reading an option *)

(** One step of a reader over known bytes. *)
Ltac read_step Hi H R l1 :=
  let H1 := fresh "Ha" in let H2 := fresh "Hb" in let z := eval vm_compute in (zlen l1) in
  destruct (at_split _ _ _ _ l1 _ Hi H) as [H1 H2]; rewrite (read_at _ _ _ _ _ _ _ _ R Hi H1 eq_refl); clear H; rename H2 into H; change (zlen l1) with z in H.
Lemma read_blocks_ok l acc c m b bs : Forall (fun s => seq32 s.1 /\ seq32 s.2) l -> inv m (b :: bs) -> at_bytes m b c (block_bytes l) ->
  read_blocks (length l) acc (Construct b c) m = Some (acc ++ l).
Proof.
  revert acc c. induction l as [|[x y] l IH]; intros acc c Hl Hi H; [cbn; by rewrite app_nil_r|]. apply Forall_cons in Hl as [[Hx Hy] Hl]. unfold seq32 in *. cbn in Hx, Hy.
  change (block_bytes ((x, y) :: l)) with (be 4 x ++ be 4 y ++ block_bytes l) in H. cbn [length read_blocks].
  read_step Hi H reads_NtohU32 (be 4 x). read_step Hi H reads_NtohU32 (be 4 y). rewrite !fold_be_value by (cbn; lia).
  rewrite IH by done. unfold AddSackBlock. by rewrite <- app_assoc.
Qed.
Lemma sack_count (l : list (Z * Z)) : (length l <= 4)%nat -> Z.to_nat (u8 (Z.quot (u8 (Z.of_nat (length l) * 8 + 2) - 2) 8)) = length l.
Proof.
  intros H. unfold u8. rewrite (wrap_small 8 (_ * 8 + 2)) by lia. replace (Z.of_nat (length l) * 8 + 2 - 2) with (Z.of_nat (length l) * 8) by lia.
  rewrite Z.quot_mul by lia. rewrite wrap_small by lia. lia.
Qed.
Lemma Deserialize_option o c m b bs : option_ok o -> inv m (b :: bs) -> at_bytes m b c (option_bytes o) ->
  Deserialize (CreateOption (GetKind o)) (Construct b c) m = Some (GetSerializedSize o, o).
Proof.
  intros Hok Hi H. destruct o as [| |mss|s| |l|t e|k size l]; cbn [option_bytes option_ok GetKind] in *; unfold CreateOption; simpl (_ =? _); cbn iota; option_code.
  - by rewrite (read_at _ _ _ _ _ _ _ _ reads_U8 Hi H eq_refl).
  - by rewrite (read_at _ _ _ _ _ _ _ _ reads_U8 Hi H eq_refl).
  - change ([2; 4] ++ be 2 mss) with ([2] ++ [4] ++ be 2 mss) in H. read_step Hi H reads_U8 [2]. read_step Hi H reads_U8 [4]. cbn [hd NS_ASSERT].
    simpl (_ =? _). cbn [negb NS_ASSERT]. rewrite (read_at _ _ _ _ _ _ _ _ reads_NtohU16 Hi H eq_refl). by rewrite fold_be_value by (cbn; lia).
  - read_step Hi H reads_U8 [3]. read_step Hi H reads_U8 [3]. by rewrite (read_at _ _ _ _ _ _ _ _ reads_U8 Hi H eq_refl).
  - read_step Hi H reads_U8 [4]. by rewrite (read_at _ _ _ _ _ _ _ _ reads_U8 Hi H eq_refl).
  - destruct Hok as [Hl Hs]. set (y := u8 _) in H. change ([5; y] ++ block_bytes l) with ([5] ++ [y] ++ block_bytes l) in H. read_step Hi H reads_U8 [5]. read_step Hi H reads_U8 [y].
    cbn [hd]. simpl (_ =? _). cbn [negb]. unfold y. rewrite sack_count by done. by rewrite (read_blocks_ok l [] _ m b bs).
  - change ([8; 10] ++ be 4 t ++ be 4 e) with ([8] ++ [10] ++ be 4 t ++ be 4 e) in H. unfold seq32 in Hok. read_step Hi H reads_U8 [8]. read_step Hi H reads_U8 [10]. cbn [hd]. simpl (_ =? _). cbn [negb].
    read_step Hi H reads_NtohU32 (be 4 t). rewrite (read_at _ _ _ _ _ _ _ _ reads_NtohU32 Hi H eq_refl). by rewrite !fold_be_value by (cbn; lia).
  - done.
Qed.
End TcpOption.
