(* ===== verification/TcpHeader.v ===== *)
(** * The TCP header (src/internet/model/tcp-header.cc, tcp-header.h)

    The fields, the list of options with its padding, the checksum over the pseudo
    header, and reading and writing through iterators. *)

From S2P Require Import Prelude Buffer BufferIterator BufferInv BufferRw BufferProps Checksum Ipv4Header Wire TcpOption.

Module TcpHeader.
Import Buffer Iterator Wire TcpOption.

Definition m_maxOptionsLen : Z := 40.
Record TcpHeader := mkTcp {
  m_sourcePort : Z;
  m_destinationPort : Z;
  m_sequenceNumber : Z;
  m_ackNumber : Z;
  m_length : Z;
  m_flags : Z;
  m_windowSize : Z;
  m_urgentPointer : Z;
  m_source : NetAddress;
  m_destination : NetAddress;
  m_protocol : Z;
  m_calcChecksum : bool;
  m_goodChecksum : bool;
  m_options : list TcpOption;
  m_optionsLen : Z
}.
Definition TcpHeader_new : TcpHeader := mkTcp 0 0 0 0 5 0 0xffff 0 NoAddress NoAddress 6 false true [] 0.

Definition EnableChecksums (h : TcpHeader) : TcpHeader :=
  mkTcp (m_sourcePort h) (m_destinationPort h) (m_sequenceNumber h) (m_ackNumber h) (m_length h) (m_flags h) (m_windowSize h) (m_urgentPointer h)
    (m_source h) (m_destination h) (m_protocol h) true (m_goodChecksum h) (m_options h) (m_optionsLen h).
Definition SetSourcePort (port : Z) (h : TcpHeader) : TcpHeader :=
  mkTcp port (m_destinationPort h) (m_sequenceNumber h) (m_ackNumber h) (m_length h) (m_flags h) (m_windowSize h) (m_urgentPointer h)
    (m_source h) (m_destination h) (m_protocol h) (m_calcChecksum h) (m_goodChecksum h) (m_options h) (m_optionsLen h).
Definition SetDestinationPort (port : Z) (h : TcpHeader) : TcpHeader :=
  mkTcp (m_sourcePort h) port (m_sequenceNumber h) (m_ackNumber h) (m_length h) (m_flags h) (m_windowSize h) (m_urgentPointer h)
    (m_source h) (m_destination h) (m_protocol h) (m_calcChecksum h) (m_goodChecksum h) (m_options h) (m_optionsLen h).
Definition SetSequenceNumber (sequenceNumber : Z) (h : TcpHeader) : TcpHeader :=
  mkTcp (m_sourcePort h) (m_destinationPort h) sequenceNumber (m_ackNumber h) (m_length h) (m_flags h) (m_windowSize h) (m_urgentPointer h)
    (m_source h) (m_destination h) (m_protocol h) (m_calcChecksum h) (m_goodChecksum h) (m_options h) (m_optionsLen h).
Definition SetAckNumber (ackNumber : Z) (h : TcpHeader) : TcpHeader :=
  mkTcp (m_sourcePort h) (m_destinationPort h) (m_sequenceNumber h) ackNumber (m_length h) (m_flags h) (m_windowSize h) (m_urgentPointer h)
    (m_source h) (m_destination h) (m_protocol h) (m_calcChecksum h) (m_goodChecksum h) (m_options h) (m_optionsLen h).
Definition SetFlags (flags : Z) (h : TcpHeader) : TcpHeader :=
  mkTcp (m_sourcePort h) (m_destinationPort h) (m_sequenceNumber h) (m_ackNumber h) (m_length h) flags (m_windowSize h) (m_urgentPointer h)
    (m_source h) (m_destination h) (m_protocol h) (m_calcChecksum h) (m_goodChecksum h) (m_options h) (m_optionsLen h).
Definition SetWindowSize (windowSize : Z) (h : TcpHeader) : TcpHeader :=
  mkTcp (m_sourcePort h) (m_destinationPort h) (m_sequenceNumber h) (m_ackNumber h) (m_length h) (m_flags h) windowSize (m_urgentPointer h)
    (m_source h) (m_destination h) (m_protocol h) (m_calcChecksum h) (m_goodChecksum h) (m_options h) (m_optionsLen h).
Definition SetUrgentPointer (urgentPointer : Z) (h : TcpHeader) : TcpHeader :=
  mkTcp (m_sourcePort h) (m_destinationPort h) (m_sequenceNumber h) (m_ackNumber h) (m_length h) (m_flags h) (m_windowSize h) urgentPointer
    (m_source h) (m_destination h) (m_protocol h) (m_calcChecksum h) (m_goodChecksum h) (m_options h) (m_optionsLen h).
Definition InitializeChecksum (source destination : NetAddress) (protocol : Z) (h : TcpHeader) : TcpHeader :=
  mkTcp (m_sourcePort h) (m_destinationPort h) (m_sequenceNumber h) (m_ackNumber h) (m_length h) (m_flags h) (m_windowSize h) (m_urgentPointer h)
    source destination protocol (m_calcChecksum h) (m_goodChecksum h) (m_options h) (m_optionsLen h).
Definition IsChecksumOk (h : TcpHeader) : bool := m_goodChecksum h.

(** ** Options *)

(** In words. *)
Definition CalculateHeaderLength (options : list TcpOption) : Z :=
  let len := fold_left (fun len o => u32 (len + GetSerializedSize o)) options 20 in
  let len := if negb (len mod 4 =? 0) then u32 (len + (4 - len mod 4)) else len in
  u8 (Z.shiftr len 2).
Definition GetSerializedSize (h : TcpHeader) : Z := CalculateHeaderLength (m_options h) * 4.
Definition set_options (l : list TcpOption) (optionsLen length : Z) (h : TcpHeader) : TcpHeader :=
  mkTcp (m_sourcePort h) (m_destinationPort h) (m_sequenceNumber h) (m_ackNumber h) length (m_flags h) (m_windowSize h) (m_urgentPointer h)
    (m_source h) (m_destination h) (m_protocol h) (m_calcChecksum h) (m_goodChecksum h) l optionsLen.
Definition AppendOption (o : TcpOption) (h : TcpHeader) : bool * TcpHeader :=
  if m_optionsLen h + TcpOption.GetSerializedSize o <=? m_maxOptionsLen then
    if negb (IsKindKnown (GetKind o)) then (false, h)
    else if negb (GetKind o =? END) then
      let optionsLen := u8 (m_optionsLen h + TcpOption.GetSerializedSize o) in
      let totalLen := 20 + 3 + optionsLen in
      (true, set_options (m_options h ++ [o]) optionsLen (Z.shiftr totalLen 2) h)
    else (true, h)
  else (false, h).
Definition GetOption (kind : Z) (h : TcpHeader) : option TcpOption := List.find (fun o => GetKind o =? kind) (m_options h).
Definition HasOption (kind : Z) (h : TcpHeader) : bool := existsb (fun o => GetKind o =? kind) (m_options h).

Section Serialize.
Context (uninit : Z -> nat -> Z).

Definition write_pseudo (h : TcpHeader) (size : Z) (i : Iterator) (m : Mem) : option (Iterator * Mem) :=
  let* (i, m) := WriteTo (m_source h) i m in
  let* (i, m) := WriteTo (m_destination h) i m in
  if IsIpv4 (m_source h) then pseudo_v4 (m_protocol h) size i m else pseudo_v6 (m_protocol h) size i m.
Definition CalculateHeaderChecksum (h : TcpHeader) (size : Z) (m : Mem) : option (Z * Mem) :=
  scratch_checksum uninit (write_pseudo h size) (if IsIpv4 (m_source h) then 12 else 40) m.

Definition write_fields (h : TcpHeader) (i : Iterator) (m : Mem) : option (Iterator * Mem) :=
  let* (i, m) := WriteHtonU16 (m_sourcePort h) i m in
  let* (i, m) := WriteHtonU16 (m_destinationPort h) i m in
  let* (i, m) := WriteHtonU32 (m_sequenceNumber h) i m in
  let* (i, m) := WriteHtonU32 (m_ackNumber h) i m in
  let* (i, m) := WriteHtonU16 (u16 (Z.lor (Z.shiftl (m_length h) 12) (m_flags h))) i m in
  let* (i, m) := WriteHtonU16 (m_windowSize h) i m in
  let* (i, m) := WriteHtonU16 0 i m in
  WriteHtonU16 (m_urgentPointer h) i m.
Fixpoint write_options (l : list TcpOption) (optionLen : Z) (i : Iterator) (m : Mem) : option (Z * Iterator * Mem) :=
  match l with
  | [] => Some (optionLen, i, m)
  | o :: l =>
      let optionLen := u32 (optionLen + TcpOption.GetSerializedSize o) in
      let* m := TcpOption.Serialize o i m in
      let* i := Next (TcpOption.GetSerializedSize o) i in
      write_options l optionLen i m
  end.
(** At most three turns. *)
Fixpoint pad_loop (fuel : nat) (optionLen : Z) (i : Iterator) (m : Mem) : option (Iterator * Mem) :=
  if optionLen mod 4 =? 0 then Some (i, m)
  else match fuel with
       | O => None
       | S fuel => let* (i, m) := WriteU8 END i m in pad_loop fuel (u32 (optionLen + 1)) i m
       end.
Definition Serialize (h : TcpHeader) (start : Iterator) (m : Mem) : option Mem :=
  let* (i, m) := write_fields h start m in
  let* (optionLen, i, m) := write_options (m_options h) 0 i m in
  let* (_, m) := pad_loop 3 optionLen i m in
  if m_calcChecksum h then
    let* (headerChecksum, m) := CalculateHeaderChecksum h (u16 (IterSize start)) m in
    let* (checksum, _) := CalculateIpChecksum (u16 (IterSize start)) headerChecksum start m in
    let* (_, m) := (let* i := Next 16 start in WriteU16 checksum i m) in
    Some m
  else Some m.

(** Skipping the padding. *)
Fixpoint skip (n : nat) (i : Iterator) : option Iterator :=
  match n with
  | O => Some i
  | S n => let* i := Next 1 i in skip n i
  end.
(** The options read and their length. [None]: an assertion fails; [Some None]: the
    loop is not finished after [fuel] turns. *)
Fixpoint read_options (fuel : nat) (optionLen optionsLen : Z) (options : list TcpOption) (i : Iterator) (m : Mem) : option (option (list TcpOption * Z)) :=
  if optionLen =? 0 then Some (Some (options, optionsLen))
  else match fuel with
       | O => Some None
       | S fuel =>
           let* kind := PeekU8 i m in
           let op := if IsKindKnown kind then CreateOption kind else CreateOption 255 in
           let* (optionSize, op) := TcpOption.Deserialize op i m in
           if negb (optionSize =? TcpOption.GetSerializedSize op) then Some (Some (options, optionsLen))
           else if optionSize <=? optionLen then
             let optionLen := u32 (optionLen - optionSize) in
             let* i := Next optionSize i in
             let options := options ++ [op] in
             let optionsLen := u8 (optionsLen + optionSize) in
             if GetKind op =? END then
               let* _ := skip (Z.to_nat optionLen) i in
               Some (Some (options, u8 (optionsLen + optionLen)))
             else read_options fuel optionLen optionsLen options i m
           else Some (Some (options, optionsLen))
       end.
(** [Some None] as above; the size read and the header otherwise. *)
Definition Deserialize_fuel (fuel : nat) (h : TcpHeader) (start : Iterator) (m : Mem) : option (option (Z * TcpHeader * Mem)) :=
  let* (sourcePort, i) := ReadNtohU16 start m in
  let* (destinationPort, i) := ReadNtohU16 i m in
  let* (sequenceNumber, i) := ReadNtohU32 i m in
  let* (ackNumber, i) := ReadNtohU32 i m in
  let* (field, i) := ReadNtohU16 i m in
  let flags := Z.land field 0xff in
  let length := Z.shiftr field 12 in
  let* (windowSize, i) := ReadNtohU16 i m in
  let* i := Next 2 i in
  let* (urgentPointer, i) := ReadNtohU16 i m in
  let read options optionsLen good := mkTcp sourcePort destinationPort sequenceNumber ackNumber length flags windowSize urgentPointer
    (m_source h) (m_destination h) (m_protocol h) (m_calcChecksum h) good options optionsLen in
  let optionLen := u32 ((length - 5) * 4) in
  if m_maxOptionsLen <? optionLen then Some (Some (20, read [] 0 (m_goodChecksum h), m))
  else
    let* r := read_options fuel optionLen 0 [] i m in
    match r with
    | None => Some None
    | Some (options, optionsLen) =>
        if m_calcChecksum h then
          let* (headerChecksum, m) := CalculateHeaderChecksum h (u16 (IterSize start)) m in
          let* (checksum, _) := CalculateIpChecksum (u16 (IterSize start)) headerChecksum start m in
          Some (Some (CalculateHeaderLength options * 4, read options optionsLen (checksum =? 0), m))
        else Some (Some (CalculateHeaderLength options * 4, read options optionsLen (m_goodChecksum h), m))
    end.
(** The loop over the options is finished after 40 turns, or never. *)
Definition Deserialize (h : TcpHeader) (start : Iterator) (m : Mem) : option (Z * TcpHeader * Mem) :=
  let* r := Deserialize_fuel 40 h start m in r.
End Serialize.
End TcpHeader.
