(* ===== verification/TcpHeaderProps.v ===== *)
(** * Correctness of the TCP header

    A header built by the setters and [AppendOption] is read back as it was written,
    with its options, on any payload, and its checksum verifies; when reading options
    ends. *)

From S2P Require Import Prelude Buffer BufferIterator BufferInv BufferRw BufferProps Checksum Ipv4Header Wire TcpOption TcpHeader.

Module TcpHeaderProps.
Import Buffer Iterator BufferInv BufferRw BufferProps Checksum Wire TcpOption TcpHeader.

(** ** Options on the wire *)

Definition opts_len (l : list TcpOption) : Z := foldr (fun o n => TcpOption.GetSerializedSize o + n) 0 l.
Definition options_bytes (l : list TcpOption) : list Z := concat (option_bytes <$> l).
(** The padding after [n] bytes. *)
Definition pad (n : Z) : list Z := replicate (Z.to_nat ((- n) mod 4)) 0.
Definition good_option (o : TcpOption) : Prop := option_ok o /\ o <> OptionEnd.
(** The options a reader finds: the first byte of the padding is an option. *)
Definition read_back (l : list TcpOption) : list TcpOption := l ++ if opts_len l mod 4 =? 0 then [] else [OptionEnd].

Lemma pad_zlen n : zlen (pad n) = (- n) mod 4.
Proof. unfold pad, zlen. rewrite length_replicate. pose proof (Z.mod_pos_bound (- n) 4). lia. Qed.
Lemma pad_aligned n : (n + zlen (pad n)) mod 4 = 0 /\ 0 <= zlen (pad n) < 4.
Proof. rewrite pad_zlen. pose proof (Z.mod_pos_bound (- n) 4). split; [|lia]. rewrite Zplus_mod_idemp_r. by rewrite Z.add_opp_r, Z.sub_diag. Qed.
Lemma opts_len_nonneg l : Forall good_option l -> Z.of_nat (length l) <= opts_len l.
Proof. induction 1 as [|o l [Ho _] _ IH]; [done|]. destruct (option_size o Ho) as [_ H]. cbn [length opts_len foldr]. fold (opts_len l). lia. Qed.
Lemma options_bytes_cons o l : options_bytes (o :: l) = option_bytes o ++ options_bytes l.
Proof. done. Qed.
Lemma options_zlen l : Forall good_option l -> zlen (options_bytes l) = opts_len l.
Proof.
  induction 1 as [|o l [Ho _] _ IH]; [done|]. rewrite options_bytes_cons, zlen_app, IH. destruct (option_size o Ho) as [-> _]. done.
Qed.
Lemma options_byte_list l : Forall good_option l -> byte_list (options_bytes l).
Proof. induction 1 as [|o l [Ho _] _ IH]; [constructor|]. apply Forall_app. split; [by apply option_byte_list|done]. Qed.
Lemma fold_sizes l : forall n, Forall option_ok l -> 0 <= n -> n + opts_len l < 2 ^ 32 -> fold_left (fun len o => u32 (len + TcpOption.GetSerializedSize o)) l n = n + opts_len l.
Proof.
  induction l as [|o l IH]; intros n Hl Hn Hb; [cbn; lia|]. apply Forall_cons in Hl as [Ho Hl]. destruct (option_size o Ho) as [_ Hs]. cbn [fold_left opts_len foldr] in *. fold (opts_len l) in *.
  assert (0 <= opts_len l) as H0. { clear - Hl. induction Hl as [|o l Ho _ IH]; [done|]. destruct (option_size o Ho) as [_ H]. cbn [opts_len foldr]. fold (opts_len l). lia. }
  rewrite u32_small by lia. rewrite IH by (done || lia). lia.
Qed.
Lemma CalculateHeaderLength_ok l : Forall option_ok l -> 0 <= opts_len l <= 40 -> CalculateHeaderLength l = 5 + (opts_len l + 3) / 4.
Proof.
  intros Hl Hn. unfold CalculateHeaderLength. rewrite fold_sizes by (done || lia). set (n := opts_len l) in *.
  pose proof (Z.div_mod (20 + n) 4 ltac:(lia)) as Hd. pose proof (Z.mod_pos_bound (20 + n) 4 ltac:(lia)) as Hm.
  assert (forall k, 20 + n <= 4 * k < 20 + n + 4 -> u8 (Z.shiftr (4 * k) 2) = 5 + (n + 3) / 4) as Hk.
  { intros k Hk. rewrite Z.shiftr_div_pow2 by lia. change (2 ^ 2) with 4. rewrite Z.mul_comm, Z.div_mul by lia. unfold u8. rewrite wrap_small by lia.
    pose proof (Z.div_mod (n + 3) 4 ltac:(lia)). pose proof (Z.mod_pos_bound (n + 3) 4 ltac:(lia)). lia. }
  destruct ((20 + n) mod 4 =? 0) eqn:E; cbn [negb].
  - rewrite (Z.div_mod (20 + n) 4) by lia. replace ((20 + n) mod 4) with 0 by lia. rewrite Z.add_0_r. apply Hk. lia.
  - rewrite u32_small by lia. replace (20 + n + (4 - (20 + n) mod 4)) with (4 * ((20 + n) / 4 + 1)) by lia. apply Hk. lia.
Qed.
Lemma opts_len_app l1 l2 : opts_len (l1 ++ l2) = opts_len l1 + opts_len l2.
Proof. induction l1 as [|o l1 IH]; [done|]. cbn [app opts_len foldr] in *. fold (opts_len (l1 ++ l2)). fold (opts_len l1). lia. Qed.
Lemma read_back_length l : Forall good_option l -> opts_len l <= 40 -> CalculateHeaderLength (read_back l) = 5 + (opts_len l + 3) / 4.
Proof.
  intros Hl Hn. pose proof (opts_len_nonneg l Hl) as H0. unfold read_back. assert (Forall option_ok l) as Hok by (eapply Forall_impl; [exact Hl|]; by intros o [H _]).
  pose proof (Z.div_mod (opts_len l) 4 ltac:(lia)) as Hd. pose proof (Z.mod_pos_bound (opts_len l) 4 ltac:(lia)) as Hm. destruct (opts_len l mod 4 =? 0) eqn:E.
  - rewrite app_nil_r. by apply CalculateHeaderLength_ok; [|lia].
  - rewrite CalculateHeaderLength_ok; rewrite ?opts_len_app; change (opts_len [OptionEnd]) with 1; [|apply Forall_app; split; [done|by repeat constructor]|lia]. f_equal.
    pose proof (Z.div_mod (opts_len l + 1 + 3) 4 ltac:(lia)). pose proof (Z.mod_pos_bound (opts_len l + 1 + 3) 4 ltac:(lia)).
    pose proof (Z.div_mod (opts_len l + 3) 4 ltac:(lia)). pose proof (Z.mod_pos_bound (opts_len l + 3) 4 ltac:(lia)). lia.
Qed.

(** ** Writing options *)

Lemma writes_then_nothing w1 s1 (w2 : Iterator -> Mem -> option (Iterator * Mem)) : writes w1 s1 -> (forall i m, w2 i m = Some (i, m)) ->
  writes (fun i m => let* (i, m) := w1 i m in w2 i m) s1.
Proof. intros Hw H2. eapply writes_ext; [|exact Hw]. intros i m. destruct (w1 i m) as [[i1 m1]|]; [|done]. by rewrite H2. Qed.
(** Writing through a copy of the iterator, then moving it. *)
Lemma writes_by_value w src : writes w src -> writes (fun i m => let* m := (let* (_, m) := w i m in Some m) in let* i := Next (zlen src) i in Some (i, m)) src.
Proof.
  intros Hw c m b bs Hi Hr Hp. destruct (Hw c m b bs Hi Hr Hp) as (m'&E&H). exists m'. split; [|done]. rewrite E. destruct Hr as (H1&H2&_). pose proof (zlen_nonneg src).
  destruct (inv_offsets _ _ _ Hi) as (O1&_). by rewrite (Next_in m b bs) by (done || lia).
Qed.
Lemma pad_done f n i m : (- n) mod 4 = 0 -> pad_loop f n i m = Some (i, m).
Proof. intros H. assert (n mod 4 = 0) as E. { apply Z.mod_divide in H as [k Hk]; [|lia]. apply Z.mod_divide; [lia|]. exists (- k). lia. } destruct f; cbn; by rewrite E. Qed.
Lemma writes_pad f : forall n, 0 <= n /\ n + Z.of_nat f < 2 ^ 31 -> 0 < (- n) mod 4 <= Z.of_nat f -> writes (pad_loop f n) (pad n).
Proof.
  induction f as [|f IH]; intros n Hn Hf; [lia|]. assert (n mod 4 <> 0) as E. { intros H. apply Z.mod_divide in H as [k Hk]; [|lia]. rewrite Hk, <- Z.mul_opp_l, Z.mod_mul in Hf by lia. lia. }
  assert ((- (n + 1)) mod 4 = (- n) mod 4 - 1) as E1. { symmetry. apply Z.mod_unique with ((- n) / 4); pose proof (Z.mod_pos_bound (- n) 4); pose proof (Z.div_mod (- n) 4); lia. }
  eapply writes_ext with (w := fun i m => let* (i, m) := WriteU8 END i m in pad_loop f (n + 1) i m).
  { intros i m. cbn [pad_loop]. rewrite (proj2 (Z.eqb_neq _ _)) by done. by rewrite u32_small by lia. }
  unfold pad. replace (Z.to_nat ((- n) mod 4)) with (S (Z.to_nat ((- (n + 1)) mod 4))) by lia. cbn [replicate]. destruct (decide ((- (n + 1)) mod 4 = 0)) as [E2|E2].
  - rewrite E2. apply writes_then_nothing; [apply writes_U8|]. intros i m. by apply pad_done.
  - apply (writes_seq (WriteU8 END) [0]); [apply writes_U8|apply IH; lia|]. pose proof (Z.mod_pos_bound (- (n + 1)) 4 ltac:(lia)). destruct (Z.to_nat ((- (n + 1)) mod 4)) eqn:Ez; [lia|done].
Qed.
(** The options and the padding. *)
Definition write_tail (l : list TcpOption) (n : Z) (i : Iterator) (m : Mem) : option (Iterator * Mem) :=
  let* (optionLen, i, m) := write_options l n i m in pad_loop 3 optionLen i m.
Lemma writes_tail l : forall n, Forall good_option l -> 0 <= n -> n + opts_len l <= 40 ->
  if decide (options_bytes l ++ pad (n + opts_len l) = []) then forall i m, write_tail l n i m = Some (i, m) else writes (write_tail l n) (options_bytes l ++ pad (n + opts_len l)).
Proof.
  induction l as [|o l IH]; intros n Hl Hn Hb.
  - cbn [options_bytes fmap concat opts_len foldr] in *. rewrite Z.add_0_r, app_nil_l in *. pose proof (Z.mod_pos_bound (- n) 4). destruct (decide (pad n = [])) as [E|E].
    + intros i m. unfold write_tail. cbn [write_options]. apply pad_done. pose proof (pad_zlen n) as H1. rewrite E in H1. done.
    + eapply writes_ext; [|apply (writes_pad 3); [lia|]]; [done|]. cut ((- n) mod 4 <> 0); [lia|]. intros H0. apply E. unfold pad. by rewrite H0.
  - apply Forall_cons in Hl as [[Ho Hne] Hl]. destruct (option_size o Ho) as [Es Hs]. change (opts_len (o :: l)) with (TcpOption.GetSerializedSize o + opts_len l) in *. pose proof (opts_len_nonneg l Hl).
    rewrite options_bytes_cons, <- app_assoc. specialize (IH (n + TcpOption.GetSerializedSize o) Hl ltac:(lia) ltac:(lia)). rewrite <- Z.add_assoc in IH.
    destruct (decide (option_bytes o ++ _ = [])) as [E|_]. { apply app_eq_nil in E as [E _]. rewrite E in Es. change (zlen []) with 0 in Es. lia. }
    eapply writes_ext with (w := fun i m => let* (i, m) := (let* m := TcpOption.Serialize o i m in let* i := Next (TcpOption.GetSerializedSize o) i in Some (i, m)) in
      write_tail l (n + TcpOption.GetSerializedSize o) i m).
    { intros i m. unfold write_tail. cbn [write_options]. destruct (TcpOption.Serialize o i m); [|done]. destruct (Next _ i); [|done]. by rewrite u32_small by lia. }
    assert (writes (fun i m => let* m := TcpOption.Serialize o i m in let* i := Next (TcpOption.GetSerializedSize o) i in Some (i, m)) (option_bytes o)) as Hw.
    { rewrite <- Es. by apply writes_by_value, writes_option. }
    destruct (decide (options_bytes l ++ pad _ = [])) as [E|E]; [rewrite E, app_nil_r; by apply writes_then_nothing|by apply writes_seq].
Qed.
(** ** Reading options *)

Lemma known_kind o : option_ok o -> IsKindKnown (GetKind o) = true.
Proof. by destruct o. Qed.
Lemma option_head o : option_ok o -> exists rest, option_bytes o = GetKind o :: rest.
Proof. destruct o; try done; intros _; by eexists. Qed.
Lemma kind_not_end o : good_option o -> (GetKind o =? END) = false.
Proof. intros [Ho Hne]. by destruct o. Qed.
Lemma skip_padding_ok n : forall c m b bs, inv m (b :: bs) -> 0 <= c -> c + Z.of_nat n <= m_end b -> skip n (Construct b c) = Some (Construct b (c + Z.of_nat n)).
Proof.
  induction n as [|n IH]; intros c m b bs Hi Hc He; cbn [skip]; [by rewrite Z.add_0_r|]. rewrite (Next_in m b bs) by (done || lia). rewrite (IH _ m b bs) by (done || lia). do 2 f_equal. lia.
Qed.
Lemma read_padding fuel k acc accLen c m b bs : inv m (b :: bs) -> at_bytes m b c (replicate (S k) 0) -> (0 < fuel)%nat -> 0 <= accLen -> accLen + Z.of_nat (S k) <= 40 ->
  read_options fuel (Z.of_nat (S k)) accLen acc (Construct b c) m = Some (Some (acc ++ [OptionEnd], accLen + Z.of_nat (S k))).
Proof.
  intros Hi H Hf Ha Hk. destruct fuel as [|fuel]; [lia|]. cbn [read_options]. rewrite (proj2 (Z.eqb_neq (Z.of_nat (S k)) 0)) by lia. cbn [replicate] in H.
  rewrite (peek_at_byte _ _ _ _ _ _ Hi H). pose proof H as (H1&H2&_). destruct (at_split _ _ _ _ [0] (replicate k 0) Hi H) as [H0 _]. destruct (inv_offsets _ _ _ Hi) as (O1&_).
  assert (zlen (0 :: replicate k 0) = Z.of_nat (S k)) as Hz by (unfold zlen; cbn [length]; rewrite length_replicate; lia). rewrite Hz in H2.
  assert (TcpOption.Deserialize (if IsKindKnown 0 then CreateOption 0 else CreateOption 255) (Construct b c) m = Some (1, OptionEnd)) as -> by exact (Deserialize_option OptionEnd c m b bs I Hi H0).
  change (TcpOption.GetSerializedSize OptionEnd) with 1. simpl (negb (1 =? 1)). cbn iota.
  rewrite (proj2 (Z.leb_le _ _)) by lia. rewrite (Next_in m b bs) by (done || lia). simpl (GetKind OptionEnd =? END). cbn iota. rewrite (u32_small (Z.of_nat (S k) - 1)) by lia.
  rewrite (skip_padding_ok _ _ m b bs) by (done || lia). do 3 f_equal. unfold u8. rewrite (wrap_small 8 (accLen + 1)), wrap_small by lia. lia.
Qed.
Lemma read_options_ok l : forall fuel acc accLen c m b bs, Forall good_option l -> inv m (b :: bs) -> let p := pad (accLen + opts_len l) in at_bytes m b c (options_bytes l ++ p) ->
  Z.of_nat (length l) + Z.min 1 (zlen p) <= Z.of_nat fuel -> 0 <= accLen -> accLen + opts_len l + zlen p <= 40 ->
  read_options fuel (opts_len l + zlen p) accLen acc (Construct b c) m = Some (Some (acc ++ l ++ (if zlen p =? 0 then [] else [OptionEnd]), accLen + opts_len l + zlen p)).
Proof.
  induction l as [|o l IH]; intros fuel acc accLen c m b bs Hl Hi p H Hf Ha Hb.
  - change (opts_len []) with 0 in *. subst p. rewrite Z.add_0_r, Z.add_0_l in *. change (options_bytes []) with ([] : list Z) in H. rewrite app_nil_l in H. cbn [length] in Hf. unfold pad in *. set (k := Z.to_nat _) in *.
    assert (zlen (replicate k 0) = Z.of_nat k) as Hz by (unfold zlen; by rewrite length_replicate). rewrite Hz in *. destruct k as [|k].
    + destruct fuel; cbn; by rewrite !app_nil_r, Z.add_0_r.
    + rewrite (proj2 (Z.eqb_neq _ _)) by lia. apply (read_padding _ _ _ _ _ m b bs); [done|done|lia..].
  - apply Forall_cons in Hl as [Hg Hl]. pose proof Hg as [Ho _]. destruct (option_size o Ho) as [Es Hs]. pose proof (opts_len_nonneg l Hl) as Hnn.
    change (opts_len (o :: l)) with (TcpOption.GetSerializedSize o + opts_len l) in *. subst p. set (s := TcpOption.GetSerializedSize o) in *. rewrite !Z.add_assoc in *. set (p := pad (accLen + s + opts_len l)) in *.
    rewrite options_bytes_cons, <- app_assoc in H. destruct (at_split _ _ _ _ _ _ Hi H) as [H0 H1]. rewrite Es in H1. fold s in H1. pose proof (zlen_nonneg p) as Hpn. pose proof H0 as (G1&G2&_). rewrite Es in G2. fold s in G2. destruct (inv_offsets _ _ _ Hi) as (O1&_).
    destruct fuel as [|fuel]; [cbn [length] in Hf; lia|]. cbn [read_options]. rewrite (proj2 (Z.eqb_neq _ _)) by lia. destruct (option_head o Ho) as [rest Er].
    rewrite (peek_at_byte m b bs c (GetKind o) rest Hi) by (by rewrite <- Er). rewrite known_kind, (Deserialize_option o c m b bs Ho Hi H0) by done. fold s. rewrite Z.eqb_refl. cbn [negb].
    rewrite (proj2 (Z.leb_le _ _)) by lia. rewrite (Next_in m b bs) by (done || lia). rewrite kind_not_end by done. rewrite u32_small by lia. unfold u8. rewrite wrap_small by lia.
    replace (s + opts_len l + zlen p - s) with (opts_len l + zlen p) by lia. pose proof (IH fuel (acc ++ [o]) (accLen + s) (c + s) m b bs Hl Hi) as HI. cbv zeta in HI. fold p in HI.
    rewrite HI; [|exact H1|cbn [length] in Hf; lia|lia|lia]. rewrite <- (app_assoc acc [o]). done.
Qed.
Lemma read_all l c m b bs : Forall good_option l -> opts_len l <= 40 -> inv m (b :: bs) -> at_bytes m b c (options_bytes l ++ pad (opts_len l)) ->
  read_options 40 (opts_len l + zlen (pad (opts_len l))) 0 [] (Construct b c) m = Some (Some (read_back l, opts_len l + zlen (pad (opts_len l)))).
Proof.
  intros Hl Hn Hi H. pose proof (opts_len_nonneg l Hl). destruct (pad_aligned (opts_len l)) as [P1 P2]. set (z := zlen (pad (opts_len l))) in *.
  assert (opts_len l + z <= 40) as Hz. { apply Z.mod_divide in P1 as [k Hk]; [|lia]. lia. }
  pose proof (read_options_ok l 40 [] 0 c m b bs Hl Hi) as HI. cbv zeta in HI. rewrite Z.add_0_l in HI. fold z in HI. rewrite HI by (done || lia). unfold read_back. cbn [app]. do 4 f_equal.
  unfold z. rewrite pad_zlen. destruct (opts_len l mod 4 =? 0) eqn:E.
  - apply Z.eqb_eq in E. apply Z.mod_divide in E as [k Hk]; [|lia]. by rewrite Hk, <- Z.mul_opp_l, Z.mod_mul by lia.
  - rewrite (proj2 (Z.eqb_neq _ _)); [done|]. intros E2. apply Z.mod_divide in E2 as [k Hk]; [|lia]. apply Z.eqb_neq in E. apply E, Z.mod_divide; [lia|]. exists (- k). lia.
Qed.
(** ** Headers on the wire *)

(** What the setters and [AppendOption] make of a new header. *)
Record tcp_ok (h : TcpHeader) : Prop := mkTcpOk {
  to_source : 0 <= m_sourcePort h < 2 ^ 16;
  to_dest : 0 <= m_destinationPort h < 2 ^ 16;
  to_seq : 0 <= m_sequenceNumber h < 2 ^ 32;
  to_ack : 0 <= m_ackNumber h < 2 ^ 32;
  to_flags : 0 <= m_flags h < 2 ^ 8;
  to_window : 0 <= m_windowSize h < 2 ^ 16;
  to_urgent : 0 <= m_urgentPointer h < 2 ^ 16;
  to_protocol : 0 <= m_protocol h < 2 ^ 8;
  to_options : Forall good_option (m_options h);
  to_optionsLen : m_optionsLen h = opts_len (m_options h) /\ opts_len (m_options h) <= 40;
  to_length : m_length h = 5 + (opts_len (m_options h) + 3) / 4
}.
Definition tcp_net (h : TcpHeader) : Prop := m_calcChecksum h = true -> net_ok (m_source h) (m_destination h).
Definition tcp_size (h : TcpHeader) : Z := 20 + opts_len (m_options h) + zlen (pad (opts_len (m_options h))).
Definition first_fields (h : TcpHeader) : list Z :=
  be 2 (m_sourcePort h) ++ be 2 (m_destinationPort h) ++ be 4 (m_sequenceNumber h) ++ be 4 (m_ackNumber h) ++
  be 2 (u16 (Z.lor (Z.shiftl (m_length h) 12) (m_flags h))) ++ be 2 (m_windowSize h).
Definition last_fields (h : TcpHeader) : list Z := be 2 (m_urgentPointer h) ++ options_bytes (m_options h) ++ pad (opts_len (m_options h)).
Definition tcp_sum (h : TcpHeader) (payload : list Z) : Z := pseudo_sum (m_source h) (m_destination h) (m_protocol h) (zlen payload + tcp_size h).
Definition tcp_checksum (h : TcpHeader) (payload : list Z) : Z :=
  if m_calcChecksum h then checksum_of (tcp_sum h payload) (first_fields h ++ [0; 0] ++ last_fields h ++ payload) else 0.
Definition tcp_bytes (h : TcpHeader) (payload : list Z) : list Z :=
  first_fields h ++ [byte_at 0 (tcp_checksum h payload); byte_at 8 (tcp_checksum h payload)] ++ last_fields h.
Definition tcp_fits (h : TcpHeader) (payload : list Z) : Prop := zlen payload + tcp_size h < 2 ^ 16.
(** The header [h0] once it has read what [h] wrote. *)
Definition tcp_read (h h0 : TcpHeader) : TcpHeader :=
  mkTcp (m_sourcePort h) (m_destinationPort h) (m_sequenceNumber h) (m_ackNumber h) (m_length h) (m_flags h) (m_windowSize h) (m_urgentPointer h)
    (m_source h0) (m_destination h0) (m_protocol h0) (m_calcChecksum h0) (if m_calcChecksum h0 then true else m_goodChecksum h0)
    (read_back (m_options h)) (tcp_size h - 20).

Lemma tcp_size_words h : tcp_ok h -> tcp_size h = 4 * (5 + (opts_len (m_options h) + 3) / 4) /\ 20 <= tcp_size h <= 60 /\ m_length h = tcp_size h / 4.
Proof.
  intros []. pose proof (opts_len_nonneg _ to_options0). unfold tcp_size in *. set (n := opts_len _) in *. destruct (pad_aligned n) as [P1 P2].
  pose proof (Z.div_mod (n + 3) 4 ltac:(lia)). pose proof (Z.mod_pos_bound (n + 3) 4 ltac:(lia)). apply Z.mod_divide in P1 as [k Hk]; [|lia].
  assert (k = (n + 3) / 4) by lia. split; [lia|]. split; [lia|]. rewrite to_length0. apply Z.div_unique with 0; lia.
Qed.
Lemma tcp_lengths h payload : tcp_ok h -> zlen (first_fields h) = 16 /\ zlen (last_fields h) = tcp_size h - 18 /\ zlen (tcp_bytes h payload) = tcp_size h /\ Nat.Even (length (first_fields h)).
Proof.
  intros []. assert (zlen (last_fields h) = tcp_size h - 18) as E. { unfold last_fields, tcp_size. rewrite !zlen_app, options_zlen by done. change (zlen (be 2 _)) with 2. lia. }
  split; [reflexivity|]. split; [done|]. split; [|by exists 8%nat]. unfold tcp_bytes. rewrite !zlen_app, E. change (zlen (first_fields h)) with 16. change (zlen [_; _]) with 2. lia.
Qed.
Lemma tcp_bytes_list h c0 c1 : tcp_ok h -> 0 <= c0 < 256 -> 0 <= c1 < 256 -> byte_list (first_fields h ++ [c0; c1] ++ last_fields h).
Proof.
  intros [] H0 H1. unfold first_fields, last_fields, pad, byte_list. rewrite !Forall_app. split_and!; try apply be_byte_list; try (repeat constructor; lia).
  - by apply options_byte_list.
  - apply Forall_replicate. lia.
Qed.
Lemma sealed_list h payload : tcp_ok h -> byte_list payload -> byte_list (first_fields h ++ [0; 0] ++ last_fields h ++ payload).
Proof. intros Hok Hb. pose proof (tcp_bytes_list h 0 0 Hok ltac:(lia) ltac:(lia)) as H. unfold byte_list in *. rewrite !Forall_app in *. tauto. Qed.
Lemma tcp_sum_range h payload : tcp_ok h -> tcp_net h -> m_calcChecksum h = true -> tcp_fits h payload -> 0 <= tcp_sum h payload <= 65535.
Proof. intros Hok Hn Hc Hf. pose proof (tcp_size_words h Hok). unfold tcp_fits in Hf. pose proof (zlen_nonneg payload). apply pseudo_sum_range; [by apply Hn|apply Hok|lia]. Qed.
Lemma CalculateHeaderChecksum_tcp uninit h bs size : tcp_ok h -> tcp_net h -> m_calcChecksum h = true -> Z.of_nat (length bs) + 3 < 2 ^ 32 -> 0 <= size < 2 ^ 16 ->
  computes (CalculateHeaderChecksum uninit h size) (pseudo_sum (m_source h) (m_destination h) (m_protocol h) size) bs.
Proof. intros [] Hn Hc Hf Hs m Hi. apply scratch_pseudo; try done. by apply Hn. Qed.
Lemma tcp_verifies h payload : tcp_ok h -> tcp_net h -> byte_list payload -> tcp_fits h payload -> m_calcChecksum h = true ->
  checksum_of (tcp_sum h payload) (tcp_bytes h payload ++ payload) = 0.
Proof.
  intros Hok Hn Hb Hf Hc. pose proof (tcp_sum_range h payload Hok Hn Hc Hf) as Hr. destruct (tcp_lengths h payload Hok) as (_&_&_&He).
  unfold tcp_bytes, tcp_checksum. rewrite Hc, <- !app_assoc. apply (sealed_verifies (tcp_sum h payload) (first_fields h) (last_fields h ++ payload)); [lia|done|by apply sealed_list].
Qed.

(** ** Writing headers *)

Lemma writes_header h : tcp_ok h -> writes (fun i m => let* (i, m) := TcpHeader.write_fields h i m in write_tail (m_options h) 0 i m) (first_fields h ++ [0; 0] ++ last_fields h).
Proof.
  intros []. assert (writes (TcpHeader.write_fields h) (first_fields h ++ [0; 0] ++ be 2 (m_urgentPointer h))) as Hw.
  { unfold TcpHeader.write_fields. eapply writes_bytes_eq; [write_steps 7%nat|reflexivity]. }
  pose proof (writes_tail (m_options h) 0 to_options0 ltac:(lia) ltac:(lia)) as Ht. rewrite Z.add_0_l in Ht.
  unfold last_fields. destruct (decide _) as [E|E].
  - eapply writes_bytes_eq; [by apply writes_then_nothing|]. by rewrite E, app_nil_r.
  - eapply writes_bytes_eq; [by apply writes_seq|]. by rewrite <- !app_assoc.
Qed.
Lemma Serialize_tcp uninit h m b bs x payload : tcp_ok h -> tcp_net h -> inv m (b :: bs) -> few bs -> content m b = x ++ payload -> zlen x = tcp_size h -> room b (tcp_size h) bs -> byte_list payload -> tcp_fits h payload ->
  exists m', TcpHeader.Serialize uninit h (Begin b) m = Some m' /\ inv m' (b :: bs) /\ content m' b = tcp_bytes h payload ++ payload /\ same_contents m m' bs.
Proof.
  intros Hok Hn Hi Hf Hc Hx Hr Hb Hfit. destruct (tcp_lengths h payload Hok) as (L1&L2&_&_). pose proof (tcp_size_words h Hok) as (_&Hs&_). pose proof (zlen_nonneg payload).
  assert (zlen (first_fields h ++ [0; 0] ++ last_fields h) = tcp_size h) as Hl by (rewrite !zlen_app, L1, L2; change (zlen [0; 0]) with 2; lia).
  destruct (write_prefix _ _ m b bs x payload (writes_header h Hok) Hi) as (m1&E&Hi1&Hc1&Ho1); [by rewrite Hl|done|by rewrite Hl|discriminate|].
  unfold TcpHeader.Serialize, write_tail in *. destruct (TcpHeader.write_fields h (Begin b) m) as [[i m0]|]; [|done]. destruct (write_options _ _ i m0) as [[[n i1] m2]|]; [|done]. rewrite E.
  unfold tcp_bytes, tcp_checksum. destruct (m_calcChecksum h) eqn:Ec; [|by exists m1].
  assert (zlen (content m1 b) = zlen payload + tcp_size h) as Hsz by (rewrite Hc1, zlen_app, Hl; lia). rewrite <- !app_assoc in Hc1. unfold tcp_fits in Hfit.
  assert (u16 (IterSize (Begin b)) = zlen payload + tcp_size h) as Hu by (rewrite (IterSize_Begin _ _ _ Hi1), Hsz; apply wrap_small; lia).
  destruct (seal_ok (CalculateHeaderChecksum uninit h (zlen payload + tcp_size h)) (tcp_sum h payload) id m1 b bs (first_fields h) (last_fields h ++ payload) (tcp_size h)) as (m3&E2&Hi2&Hc2&Ho2); try done; try lia.
  - apply CalculateHeaderChecksum_tcp; try done; [unfold few in Hf; cbn [length]; lia|lia].
  - by apply tcp_sum_range.
  - rewrite Hc1. by apply sealed_list.
  - exists m3. rewrite <- !app_assoc. rewrite Hu at 1. split_and!; try done. by eapply same_contents_trans.
Qed.
(** ** Reading headers *)

Lemma length_flags len flags : 0 <= len < 16 -> 0 <= flags < 256 ->
  let field := u16 (Z.lor (Z.shiftl len 12) flags) in 0 <= field < 2 ^ 16 /\ Z.land field 255 = flags /\ Z.shiftr field 12 = len.
Proof.
  intros Hl Hf field. pose proof (Ipv4Header.small_cases (fun l f => let field := u16 (Z.lor (Z.shiftl l 12) f) in (Z.land field 255 =? f) && (Z.shiftr field 12 =? l)) 16 256
    ltac:(vm_compute; reflexivity) len flags Hl Hf) as H. cbv zeta beta in H. fold field in H. bool_prop. split; [apply (wrap_range 16); lia|done].
Qed.
(** What reading finds, the checksum aside. *)
Lemma tcp_option_space h : tcp_ok h -> u32 ((m_length h - 5) * 4) = opts_len (m_options h) + zlen (pad (opts_len (m_options h))) /\ u32 ((m_length h - 5) * 4) <= 40.
Proof.
  intros Hok. destruct (tcp_size_words h Hok) as (E&Hs&_). rewrite (to_length h Hok). unfold tcp_size in *. rewrite u32_small by lia. lia.
Qed.
Lemma Deserialize_tcp uninit h h0 m b bs payload : tcp_ok h -> tcp_ok h0 -> tcp_net h -> tcp_net h0 ->
  (m_calcChecksum h0 = true -> m_calcChecksum h = true /\ m_source h0 = m_source h /\ m_destination h0 = m_destination h /\ m_protocol h0 = m_protocol h) ->
  inv m (b :: bs) -> few bs -> content m b = tcp_bytes h payload ++ payload -> byte_list payload -> tcp_fits h payload ->
  exists m', TcpHeader.Deserialize uninit h0 (Begin b) m = Some (tcp_size h, tcp_read h h0, m') /\ inv m' (b :: bs) /\ same_contents m m' (b :: bs).
Proof.
  intros Hok Hok0 Hn Hn0 Hsame Hi Hf Hc Hb Hfit. pose proof (zlen_nonneg payload). destruct (tcp_size_words h Hok) as (Ew&Hs&El). destruct (tcp_lengths h payload Hok) as (_&_&L3&_).
  destruct (inv_offsets _ _ _ Hi) as (O1&O2&O3). pose proof (at_front _ _ _ _ _ Hi Hc) as H0. pose proof Hok as []. pose proof H0 as (_&G2&_). rewrite L3 in G2.
  assert (0 <= m_length h < 16) as Hlen by (rewrite El; split; [apply Z.div_pos; lia|apply Z.div_lt_upper_bound; lia]).
  destruct (length_flags (m_length h) (m_flags h) Hlen to_flags0) as (F1&F2&F3). set (field := u16 _) in *. set (ck := tcp_checksum h payload) in *.
  change (tcp_bytes h payload) with (be 2 (m_sourcePort h) ++ be 2 (m_destinationPort h) ++ be 4 (m_sequenceNumber h) ++ be 4 (m_ackNumber h) ++ be 2 field ++ be 2 (m_windowSize h) ++ [byte_at 0 ck; byte_at 8 ck] ++ last_fields h) in H0.
  unfold TcpHeader.Deserialize, Deserialize_fuel, Begin.
  read_step Hi H0 reads_NtohU16 (be 2 (m_sourcePort h)). read_step Hi H0 reads_NtohU16 (be 2 (m_destinationPort h)). read_step Hi H0 reads_NtohU32 (be 4 (m_sequenceNumber h)).
  read_step Hi H0 reads_NtohU32 (be 4 (m_ackNumber h)). read_step Hi H0 reads_NtohU16 (be 2 field). read_step Hi H0 reads_NtohU16 (be 2 (m_windowSize h)).
  destruct (at_split _ _ _ _ [_; _] _ Hi H0) as [_ H1]. change (zlen [_; _]) with 2 in H1. clear H0. rewrite (Next_in m b bs) by (done || lia).
  unfold last_fields in H1. read_step Hi H1 reads_NtohU16 (be 2 (m_urgentPointer h)). rewrite !fold_be_value by (cbn; lia). rewrite F2, F3.
  destruct (tcp_option_space h Hok) as [Eo Ho]. rewrite Eo in *. unfold m_maxOptionsLen. rewrite (proj2 (Z.ltb_ge _ _)) by lia. rewrite (read_all _ _ m b bs) by (done || lia).
  rewrite read_back_length by (done || lia). replace ((5 + _) * 4) with (tcp_size h) by lia. unfold tcp_read. replace (tcp_size h - 20) with (opts_len (m_options h) + zlen (pad (opts_len (m_options h)))) by (unfold tcp_size; lia).
  destruct (m_calcChecksum h0) eqn:E0; [|by exists m]. destruct (Hsame eq_refl) as (E&S1&S2&S3).
  assert (zlen (content m b) = zlen payload + tcp_size h) as Hsz by (rewrite Hc, zlen_app, L3; lia). unfold tcp_fits in Hfit.
  assert (u16 (IterSize (Construct b (m_start b))) = zlen payload + tcp_size h) as Hu by (change (Construct b (m_start b)) with (Begin b); rewrite (IterSize_Begin _ _ _ Hi), Hsz; apply wrap_small; lia).
  destruct (CalculateHeaderChecksum_tcp uninit h0 (b :: bs) (zlen payload + tcp_size h) Hok0 Hn0 E0) with (m := m) as (m1&E1&Hi1&Ho1); [unfold few in *; cbn [length]; lia|lia|done|].
  rewrite S1, S2, S3 in E1. fold (tcp_sum h payload) in E1. assert (content m1 b = content m b) as Hc1 by (apply Ho1; by left). pose proof (tcp_sum_range h payload Hok Hn E Hfit).
  exists m1. split; [|done]. rewrite Hu at 1. rewrite E1. change (Construct b (m_start b)) with (Begin b). rewrite (packet_sum _ m1 b bs Hi1); [|rewrite Hc1, Hc|rewrite Hc1; lia|lia].
  - by rewrite Hc1, Hc, tcp_verifies by done.
  - apply Forall_app. split; [|done]. apply tcp_bytes_list; [done|apply byte_at_range; lia..].
Qed.
#[export] Instance tcp_laws uninit h h0 : tcp_ok h -> tcp_ok h0 -> tcp_net h -> tcp_net h0 ->
  (m_calcChecksum h0 = true -> m_calcChecksum h = true /\ m_source h0 = m_source h /\ m_destination h0 = m_destination h /\ m_protocol h0 = m_protocol h) ->
  HeaderLaws (tcp_size h) (TcpHeader.Serialize uninit h) (TcpHeader.Deserialize uninit h0) (tcp_fits h) (fun _ h' => h' = tcp_read h h0).
Proof.
  intros Hok Hok0 Hn Hn0 Hs. pose proof (tcp_size_words h Hok). constructor; [unfold MAX_CONTENT; lia|]. intros m b bs x payload Hi Hf Hc Hx Hr Hb Hfit.
  destruct (Serialize_tcp uninit h m b bs x payload) as (m'&E&Hi'&Hc'&Ho); try done. exists (tcp_bytes h payload), m', (tcp_read h h0). split_and!; try done.
  - by destruct (tcp_lengths h payload Hok) as (_&_&?&_).
  - apply tcp_bytes_list; [done|apply byte_at_range; lia..].
  - intros m2 b2 bs2 Hi2 Hf2 Hc2. by apply (Deserialize_tcp uninit h h0 m2 b2 bs2 payload).
Qed.
(** ** Building headers *)

Definition u16_ok (x : Z) : Prop := 0 <= x < 2 ^ 16.
(** The headers made by the operations of the class. *)
Inductive built : TcpHeader -> Prop :=
  | built_new : built TcpHeader_new
  | built_source p h : built h -> u16_ok p -> built (SetSourcePort p h)
  | built_dest p h : built h -> u16_ok p -> built (SetDestinationPort p h)
  | built_seq n h : built h -> seq32 n -> built (SetSequenceNumber n h)
  | built_ack n h : built h -> seq32 n -> built (SetAckNumber n h)
  | built_flags f h : built h -> 0 <= f < 2 ^ 8 -> built (SetFlags f h)
  | built_window n h : built h -> u16_ok n -> built (SetWindowSize n h)
  | built_urgent n h : built h -> u16_ok n -> built (SetUrgentPointer n h)
  | built_checksum h : built h -> built (EnableChecksums h)
  | built_pseudo s d p h : built h -> 0 <= p < 2 ^ 8 -> built (InitializeChecksum s d p h)
  | built_option o h : built h -> option_ok o -> built (AppendOption o h).2.

Lemma append_length n : 0 <= n -> Z.shiftr (20 + 3 + n) 2 = 5 + (n + 3) / 4.
Proof. intros Hn. rewrite Z.shiftr_div_pow2 by lia. change (2 ^ 2) with 4. replace (20 + 3 + n) with (n + 3 + 5 * 4) by lia. rewrite Z.div_add by lia. lia. Qed.
Lemma AppendOption_accepts o h : tcp_ok h -> option_ok o -> o <> OptionEnd -> opts_len (m_options h) + TcpOption.GetSerializedSize o <= 40 ->
  AppendOption o h = (true, set_options (m_options h ++ [o]) (opts_len (m_options h ++ [o])) (5 + (opts_len (m_options h ++ [o]) + 3) / 4) h).
Proof.
  intros [] Ho Hne Hl. pose proof (opts_len_nonneg _ to_options0). destruct (option_size o Ho) as [_ Hs]. destruct to_optionsLen0 as [El _]. unfold AppendOption, m_maxOptionsLen. rewrite El, (proj2 (Z.leb_le _ _)) by lia.
  rewrite known_kind, kind_not_end by (done || by split). cbn [negb]. unfold u8. rewrite wrap_small, append_length by lia.
  replace (opts_len (m_options h ++ [o])) with (opts_len (m_options h) + TcpOption.GetSerializedSize o); [done|]. rewrite opts_len_app. cbn [opts_len foldr]. lia.
Qed.
Lemma AppendOption_refuses o h : tcp_ok h -> option_ok o -> 40 < opts_len (m_options h) + TcpOption.GetSerializedSize o -> AppendOption o h = (false, h).
Proof. intros [] Ho Hl. destruct to_optionsLen0 as [El _]. unfold AppendOption, m_maxOptionsLen. by rewrite El, (proj2 (Z.leb_gt _ _)) by lia. Qed.
Lemma AppendOption_ok o h : tcp_ok h -> option_ok o -> tcp_ok (AppendOption o h).2.
Proof.
  intros Hok Ho. destruct (Z.le_gt_cases (opts_len (m_options h) + TcpOption.GetSerializedSize o) 40) as [Hl|Hl]; [|by rewrite AppendOption_refuses].
  destruct (decide (o = OptionEnd)) as [->|Hne].
  { unfold AppendOption. by destruct (_ <=? _). }
  rewrite AppendOption_accepts by done. destruct Hok. pose proof (opts_len_nonneg _ to_options0). destruct (option_size o Ho) as [_ Hs]. cbn [snd]. constructor; try done; cbn [set_options m_options m_optionsLen m_length].
  - apply Forall_app. split; [done|]. by repeat constructor.
  - split; [done|]. rewrite opts_len_app. cbn [opts_len foldr]. lia.
Qed.
Lemma built_tcp_ok h : built h -> tcp_ok h.
Proof.
  induction 1 as [|p h _ IH Hp|p h _ IH Hp|n h _ IH Hn|n h _ IH Hn|f h _ IH Hf|n h _ IH Hn|n h _ IH Hn|h _ IH|s d p h _ IH Hp|o h _ IH Ho].
  - constructor; try (cbn; lia); [constructor|reflexivity].
  - by destruct IH.
  - by destruct IH.
  - by destruct IH.
  - by destruct IH.
  - by destruct IH.
  - by destruct IH.
  - by destruct IH.
  - by destruct IH.
  - by destruct IH.
  - by apply AppendOption_ok.
Qed.

(** ** When reading options ends *)

(** An option of size 0 that is not the end is read again and again. *)
Lemma stuck k o optionLen i m : PeekU8 i m = Some k -> TcpOption.Deserialize (if IsKindKnown k then CreateOption k else CreateOption 255) i m = Some (0, o) ->
  TcpOption.GetSerializedSize o = 0 -> (GetKind o =? END) = false -> Next 0 i = Some i -> 0 < optionLen < 2 ^ 32 ->
  forall fuel optionsLen acc, read_options fuel optionLen optionsLen acc i m = Some None.
Proof.
  intros Hp Hd Hs Hk Hn Ho. induction fuel as [|fuel IH]; intros optionsLen acc; cbn [read_options]; rewrite (proj2 (Z.eqb_neq _ _)) by lia; [done|].
  rewrite Hp, Hd, Hs. simpl (negb (0 =? 0)). cbn iota. rewrite (proj2 (Z.leb_le _ _)) by lia. rewrite Hn, Hk, Z.sub_0_r, u32_small by lia. apply IH.
Qed.
Lemma zero_length_stuck k optionLen c m b bs : inv m (b :: bs) -> at_bytes m b c [k; 0] -> IsKindKnown k = false -> 0 < optionLen < 2 ^ 32 ->
  forall fuel optionsLen acc, read_options fuel optionLen optionsLen acc (Construct b c) m = Some None.
Proof.
  intros Hi H Hk Hn. pose proof H as (G1&G2&_). change (zlen [k; 0]) with 2 in G2. destruct (inv_offsets _ _ _ Hi) as (O1&_).
  apply (stuck k (OptionUnknown k 0 [])); try done; [by eapply peek_at_byte| | |rewrite (Next_in m b bs) by (done || lia); by rewrite Z.add_0_r].
  - rewrite Hk. unfold CreateOption. simpl (_ =? _). cbn iota. option_code. pose proof H as H1. read_step Hi H1 reads_U8 [k]. by rewrite (read_at _ _ _ _ _ _ _ _ reads_U8 Hi H1 eq_refl).
  - cbn [GetKind]. destruct (k =? END) eqn:E; [|done]. apply Z.eqb_eq in E. by subst k.
Qed.
Lemma size_range o i m n o' : TcpOption.Deserialize o i m = Some (n, o') -> n = TcpOption.GetSerializedSize o' -> 0 <= n < 2 ^ 32.
Proof.
  intros Hd ->. revert Hd. option_code.
  assert (forall n0 o0, Some (n0, o0) = Some (TcpOption.GetSerializedSize o', o') -> 0 <= TcpOption.GetSerializedSize o0 < 2 ^ 32 -> 0 <= TcpOption.GetSerializedSize o' < 2 ^ 32) as Hfin by (by intros n0 o0 [= _ ->]).
  destruct o as [| |mss|sc| |l|t e|k0 size cont]; (destruct (ReadU8 i m) as [[k j]|]; [|done]); try (destruct (negb _); [intros H0; apply (Hfin _ _ H0); first [cbn; lia|apply (wrap_range 32); lia]|]); try (intros H0; apply (Hfin _ _ H0); cbn; lia).
  all: destruct (ReadU8 j m) as [[sz j1]|]; [|done].
  - destruct (sz =? 4); [|done]. cbn [NS_ASSERT]. destruct (ReadNtohU16 j1 m) as [[v j2]|]; [|done]. intros H0. apply (Hfin _ _ H0). cbn. lia.
  - destruct (negb _); [intros H0; apply (Hfin _ _ H0); cbn; lia|]. destruct (ReadU8 j1 m) as [[v j2]|]; [|done]. intros H0. apply (Hfin _ _ H0). cbn. lia.
  - destruct (negb _); intros H0; apply (Hfin _ _ H0); cbn; lia.
  - destruct (read_blocks _ _ j1 m) as [l'|]; [|done]. intros H0. apply (Hfin _ _ H0). apply (wrap_range 32). lia.
  - destruct (negb _); [intros H0; apply (Hfin _ _ H0); cbn; lia|]. destruct (ReadNtohU32 j1 m) as [[v j2]|]; [|done]. destruct (ReadNtohU32 j2 m) as [[v' j3]|]; [|done]. intros H0. apply (Hfin _ _ H0). cbn. lia.
  - destruct (_ || _) eqn:E; [intros [= H0 <-]; cbn in *; lia|]. destruct (Read _ j1 m) as [[c j2]|]; [|done]. intros H0. apply (Hfin _ _ H0). cbn. lia.
Qed.
Lemma Next_range n i j : Next n i = Some j -> 0 <= m_current j < 2 ^ 32.
Proof. unfold Next. destruct (_ <=? _); [|done]. cbn [NS_ASSERT]. intros [= <-]. apply (wrap_range 32). lia. Qed.
Lemma Next_zero i j : 0 <= m_current i < 2 ^ 32 -> Next 0 i = Some j -> j = i.
Proof. intros Hc. unfold Next. destruct (_ <=? _); [|done]. cbn [NS_ASSERT]. intros [= <-]. rewrite Z.add_0_r, u32_small by done. by destruct i. Qed.
(** A loop over at most [fuel] bytes of options that is not finished after [fuel]
    turns is never finished. *)
Lemma read_options_decided fuel : forall optionLen optionsLen acc i m, 0 <= optionLen <= Z.of_nat fuel -> optionLen < 2 ^ 32 -> 0 <= m_current i < 2 ^ 32 ->
  forall fuel', (fuel <= fuel')%nat -> read_options fuel' optionLen optionsLen acc i m = read_options fuel optionLen optionsLen acc i m.
Proof.
  induction fuel as [|fuel IH]; intros optionLen optionsLen acc i m Hn Hb Hc fuel' Hf.
  { assert (optionLen = 0) as -> by lia. by destruct fuel'. }
  destruct fuel' as [|fuel']; [lia|]. destruct (decide (optionLen = 0)) as [->|Hne]; [done|].
  destruct (PeekU8 i m) as [k|] eqn:Ep; [|cbn [read_options]; by rewrite (proj2 (Z.eqb_neq _ _)), Ep by lia].
  destruct (TcpOption.Deserialize (if IsKindKnown k then CreateOption k else CreateOption 255) i m) as [[n o]|] eqn:Ed; [|cbn [read_options]; by rewrite (proj2 (Z.eqb_neq _ _)), Ep, Ed by lia].
  destruct (decide (n = 0 /\ TcpOption.GetSerializedSize o = 0 /\ (GetKind o =? END) = false)) as [(->&Hs&Hk)|Hns].
  { destruct (Next 0 i) as [j|] eqn:Ej; [apply Next_zero in Ej as Hj; [subst j|done]; by rewrite !(stuck k o optionLen i m) by (done || lia)|].
    cbn [read_options]. rewrite !(proj2 (Z.eqb_neq _ _)), Ep, Ed, Hs by lia. simpl (negb (0 =? 0)). by rewrite (proj2 (Z.leb_le _ _)), Ej by lia. }
  cbn [read_options]. rewrite !(proj2 (Z.eqb_neq _ _)), Ep, Ed by lia. destruct (negb (n =? TcpOption.GetSerializedSize o)) eqn:E1; [done|]. destruct (n <=? optionLen) eqn:E2; [|done].
  assert (n = TcpOption.GetSerializedSize o) as En by (destruct (n =? _) eqn:E; [lia|done]). pose proof (size_range _ _ _ _ _ Ed En) as Hr. destruct (Next n i) as [j|] eqn:Ej; [|done]. destruct (GetKind o =? END) eqn:Ek; [done|].
  assert (n <> 0) as Hn0. { intros ->. by apply Hns. }
  apply IH; [rewrite u32_small by lia; lia|rewrite u32_small by lia; lia|by eapply Next_range|lia].
Qed.
Lemma GetSerializedSize_tcp h : tcp_ok h -> TcpHeader.GetSerializedSize h = tcp_size h.
Proof.
  intros Hok. destruct (tcp_size_words h Hok) as (E&_). destruct Hok. pose proof (opts_len_nonneg _ to_options0). unfold TcpHeader.GetSerializedSize.
  rewrite CalculateHeaderLength_ok; [lia|eapply Forall_impl; [exact to_options0|by intros o [Ho _]]|lia].
Qed.
(** Known options have a size. *)
Lemma read_blocks_length n : forall l i m l', read_blocks n l i m = Some l' -> length l' = (length l + n)%nat.
Proof.
  induction n as [|n IH]; intros l i m l'; cbn [read_blocks]; [intros [= <-]; lia|]. destruct (ReadNtohU32 i m) as [[x i1]|]; [|done]. destruct (ReadNtohU32 i1 m) as [[y i2]|]; [|done].
  intros H. apply IH in H. unfold AddSackBlock in H. rewrite length_app in H. cbn [length] in H. lia.
Qed.
Lemma sack_size n (l : list (Z * Z)) : length l = Z.to_nat (u8 n) -> TcpOption.GetSerializedSize (OptionSack l) <> 0.
Proof.
  intros H. pose proof (wrap_range 8 n ltac:(lia)) as Hw. fold (u8 n) in Hw. cbn [TcpOption.GetSerializedSize]. unfold GetNumSackBlocks. rewrite (u32_small (Z.of_nat (length l))) by lia. rewrite u32_small by lia. lia.
Qed.
Lemma known_options k : IsKindKnown k = true -> CreateOption k ∈ [OptionEnd; OptionNOP; OptionMSS 1460; OptionWinScale 0; OptionSackPermitted; OptionSack []; OptionTS 0 0].
Proof.
  intros H. assert (k = 0 \/ k = 1 \/ k = 2 \/ k = 3 \/ k = 4 \/ k = 5 \/ k = 8) as Hk by (unfold IsKindKnown, END, NOP, MSS, WINSCALE, SACKPERMITTED, SACK, TS in H; bool_prop; lia).
  destruct Hk as [->|[->|[->|[->|[->|[->| ->]]]]]]; rewrite !elem_of_cons; vm_compute; tauto.
Qed.
Lemma known_size k i m n o : IsKindKnown k = true -> TcpOption.Deserialize (CreateOption k) i m = Some (n, o) -> TcpOption.GetSerializedSize o <> 0.
Proof.
  intros Hk Hd. pose proof (known_options k Hk) as H. revert Hd. option_code.
  rewrite !elem_of_cons in H. destruct H as [->|[->|[->|[->|[->|[->|[->|H]]]]]]]; [..|by apply not_elem_of_nil in H].
  all: (destruct (ReadU8 i m) as [[v j]|]; [|done]); destruct (negb _); [by intros [= _ <-]|]; try (by intros [= _ <-]); (destruct (ReadU8 j m) as [[sz j1]|]; [|done]).
  - destruct (sz =? 4); [|done]. cbn [NS_ASSERT]. destruct (ReadNtohU16 j1 m) as [[x j2]|]; [|done]. by intros [= _ <-].
  - destruct (negb _); [by intros [= _ <-]|]. destruct (ReadU8 j1 m) as [[x j2]|]; [|done]. by intros [= _ <-].
  - destruct (negb _); by intros [= _ <-].
  - destruct (read_blocks _ _ j1 m) as [l'|] eqn:E; [|done]. intros [= _ <-]. apply read_blocks_length in E. exact (sack_size (Z.quot (sz - 2) 8) l' E).
  - destruct (negb _); [by intros [= _ <-]|]. destruct (ReadNtohU32 j1 m) as [[x j2]|]; [|done]. destruct (ReadNtohU32 j2 m) as [[x' j3]|]; [|done]. by intros [= _ <-].
Qed.
(** An option that is read again and again: of an unknown kind, with the length 0;
    passing over it leaves the iterator where it is. *)
Definition zero_option (i : Iterator) (m : Mem) : Prop := exists k c, PeekU8 i m = Some k /\ IsKindKnown k = false /\ TcpOption.Deserialize (CreateOption 255) i m = Some (0, OptionUnknown k 0 c) /\ Next 0 i = Some i.
Lemma unknown_zero k i m o : PeekU8 i m = Some k -> TcpOption.Deserialize (CreateOption 255) i m = Some (0, o) -> TcpOption.GetSerializedSize o = 0 -> exists c, o = OptionUnknown k 0 c.
Proof.
  intros Hp. change (CreateOption 255) with (OptionUnknown 255 0 []). option_code. unfold ReadU8 at 1. rewrite Hp. destruct (ReadU8 _ m) as [[sz j]|]; [|done].
  destruct (_ || _) eqn:E; [intros [= <-]; cbn; intros ->; by eexists|]. destruct (Read _ j m) as [[c j1]|]; [|done]. intros [= H0 _]. lia.
Qed.
(** One option at [i] with [n] bytes of options left: what the loop reads and passes
    over, and where it goes on with how many bytes. *)
Definition option_code_of (k : Z) : TcpOption := if IsKindKnown k then CreateOption k else CreateOption 255.
Definition option_step (m : Mem) (n : Z) (i : Iterator) (n' : Z) (j : Iterator) : Prop :=
  exists k o, PeekU8 i m = Some k /\ TcpOption.Deserialize (option_code_of k) i m = Some (TcpOption.GetSerializedSize o, o) /\
    TcpOption.GetSerializedSize o <= n /\ (GetKind o =? END) = false /\ n' = n - TcpOption.GetSerializedSize o /\ Next (TcpOption.GetSerializedSize o) i = Some j.
(** The options that follow each other from [i] on, up to one at [j]. *)
Inductive option_at (m : Mem) : Z -> Iterator -> Z -> Iterator -> Prop :=
  | at_here n i : 0 < n -> option_at m n i n i
  | at_next n i n1 i1 n' j : 0 < n -> option_step m n i n1 i1 -> option_at m n1 i1 n' j -> option_at m n i n' j.
Lemma unfinished fuel : forall optionLen optionsLen acc i m, 0 <= optionLen <= Z.of_nat fuel -> optionLen < 2 ^ 32 -> 0 <= m_current i < 2 ^ 32 ->
  read_options fuel optionLen optionsLen acc i m = Some None -> exists n' j, option_at m optionLen i n' j /\ zero_option j m.
Proof.
  induction fuel as [|fuel IH]; intros optionLen optionsLen acc i m Hn Hb Hc; cbn [read_options]; destruct (optionLen =? 0) eqn:E0; try done; [lia|].
  destruct (PeekU8 i m) as [k|] eqn:Ep; [|done]. destruct (TcpOption.Deserialize _ i m) as [[n o]|] eqn:Ed; [|done]. destruct (negb (n =? _)) eqn:E1; [done|]. destruct (n <=? optionLen) eqn:E2; [|done].
  assert (n = TcpOption.GetSerializedSize o) as En by (destruct (n =? _) eqn:E; [lia|done]). pose proof (size_range _ _ _ _ _ Ed En) as Hr. destruct (Next n i) as [j|] eqn:Ej; [|done].
  destruct (GetKind o =? END) eqn:Ek; [by destruct (skip _ j)|]. destruct (decide (n = 0)) as [->|Hn0].
  - intros _. exists optionLen, i. split; [apply at_here; lia|]. destruct (IsKindKnown k) eqn:Ekn; [symmetry in En; by apply known_size in Ed|].
    destruct (unknown_zero k i m o Ep Ed (eq_sym En)) as [c ->]. exists k, c. split_and!; try done. apply Next_zero in Ej as Hj; [by subst j|done].
  - intros H. rewrite u32_small in H by lia. destruct (IH (optionLen - n) _ _ j m ltac:(lia) ltac:(lia) ltac:(by eapply Next_range) H) as (n'&j'&Ho&Hz).
    exists n', j'. split; [|done]. eapply at_next; [lia|exists k, o; rewrite <- En; split_and!; first [done|lia|by rewrite <- En in Ed]|done].
Qed.
(** Whatever was read before it, the loop does not get past such an option. *)
Lemma never_finished m n i n' j : option_at m n i n' j -> zero_option j m -> n < 2 ^ 32 -> forall fuel optionsLen acc, read_options fuel n optionsLen acc i m = Some None.
Proof.
  intros Ho Hz. induction Ho as [n i Hn|n i n1 i1 n' j Hn (k&o&Ep&Ed&Hle&Ek&En&Ej) Ho IH]; intros Hb fuel optionsLen acc.
  - destruct Hz as (k&c&Hp&Hk&Hd&Hnx). apply (stuck k (OptionUnknown k 0 c)); try done; [by rewrite Hk|]. cbn [GetKind]. destruct (k =? END) eqn:E; [|done]. apply Z.eqb_eq in E. by subst k.
  - pose proof (size_range _ _ _ _ _ Ed eq_refl) as Hr. destruct fuel as [|fuel]; cbn [read_options]; rewrite (proj2 (Z.eqb_neq _ _)) by lia; [done|]. unfold option_code_of in Ed. rewrite Ep. cbn beta iota zeta. rewrite Ed, Z.eqb_refl. simpl (negb true). cbn iota.
    rewrite (proj2 (Z.leb_le _ _)), Ej, Ek, u32_small by lia. rewrite <- En. apply IH; [done|lia].
Qed.
(** Where the options of a header are: behind its fixed fields, as many bytes of them
    as its length field says, or none when these are more than 40. *)
Definition option_area (start : Iterator) (m : Mem) : option (Z * Iterator) :=
  let* (_, i) := ReadNtohU16 start m in
  let* (_, i) := ReadNtohU16 i m in
  let* (_, i) := ReadNtohU32 i m in
  let* (_, i) := ReadNtohU32 i m in
  let* (field, i) := ReadNtohU16 i m in
  let* (_, i) := ReadNtohU16 i m in
  let* i := Next 2 i in
  let* (_, i) := ReadNtohU16 i m in
  let optionLen := u32 ((Z.shiftr field 12 - 5) * 4) in
  if m_maxOptionsLen <? optionLen then None else Some (optionLen, i).
Lemma ReadU8_range i m v j : ReadU8 i m = Some (v, j) -> 0 <= m_current j < 2 ^ 32.
Proof. unfold ReadU8. destruct (PeekU8 i m); [|done]. intros [= _ <-]. apply (wrap_range 32). lia. Qed.
Lemma ReadNtohU16_range i m v j : ReadNtohU16 i m = Some (v, j) -> 0 <= m_current j < 2 ^ 32.
Proof.
  unfold ReadNtohU16, SlowReadNtohU16. destruct (_ <=? _); [|destruct (_ <=? _)].
  1,2: destruct (peek _ _ _ _); [|done]; intros [= _ <-]; apply (wrap_range 32); lia.
  cbn [Read]. destruct (ReadU8 i m) as [[x i1]|]; [|done]. destruct (ReadU8 i1 m) as [[y i2]|] eqn:E; [|done]. intros [= _ <-]. by eapply ReadU8_range.
Qed.
(** What comes before the options. *)
Lemma Deserialize_decided uninit h i m : (forall fuel, (40 <= fuel)%nat -> Deserialize_fuel uninit fuel h i m = Deserialize_fuel uninit 40 h i m) /\
  (Deserialize_fuel uninit 40 h i m = Some None <-> exists n start n' j, option_area i m = Some (n, start) /\ option_at m n start n' j /\ zero_option j m).
Proof.
  assert (forall A : Type, (forall fuel, (40 <= fuel)%nat -> (None : option (option A)) = None) /\ ((None : option (option A)) = Some None <-> exists n start n' j, (None : option (Z * Iterator)) = Some (n, start) /\ option_at m n start n' j /\ zero_option j m)) as Hno.
  { intros A. split; [done|]. split; [done|by intros (?&?&?&?&?&_)]. }
  unfold Deserialize_fuel, option_area. destruct (ReadNtohU16 i m) as [[v1 i1]|]; [|by apply Hno]. destruct (ReadNtohU16 i1 m) as [[v2 i2]|]; [|by apply Hno]. destruct (ReadNtohU32 i2 m) as [[v3 i3]|]; [|by apply Hno].
  destruct (ReadNtohU32 i3 m) as [[v4 i4]|]; [|by apply Hno]. destruct (ReadNtohU16 i4 m) as [[v5 i5]|]; [|by apply Hno]. destruct (ReadNtohU16 i5 m) as [[v6 i6]|]; [|by apply Hno]. destruct (Next 2 i6) as [i7|]; [|by apply Hno].
  destruct (ReadNtohU16 i7 m) as [[v7 i8]|] eqn:E; [|by apply Hno]. destruct (m_maxOptionsLen <? _) eqn:Eo; [split; [done|]; split; [done|by intros (?&?&?&?&?&_)]|]. unfold m_maxOptionsLen in Eo. set (n := u32 _) in *.
  assert (0 <= n < 2 ^ 32) as Hn by (apply (wrap_range 32); lia). pose proof (ReadNtohU16_range _ _ _ _ E). split; [|split].
  - intros fuel Hf. rewrite (read_options_decided 40 n 0 [] i8 m) with (fuel' := fuel) by (done || lia). done.
  - destruct (read_options 40 n 0 [] i8 m) as [[[l k]|]|] eqn:Er; [| |done].
    + destruct (m_calcChecksum h); [|done]. destruct (CalculateHeaderChecksum _ _ _ m) as [[hc m1]|]; [|done]. by destruct (CalculateIpChecksum _ _ i m1) as [[ck i9]|].
    + intros _. destruct (unfinished 40 n 0 [] i8 m ltac:(lia) ltac:(lia) ltac:(lia) Er) as (n'&j&Ho&Hz). by exists n, i8, n', j.
  - intros (n0&st&n'&j&[= <- <-]&Ho&Hz). by rewrite (never_finished m n i8 n' j Ho Hz) by lia.
Qed.
End TcpHeaderProps.
