(* ===== verification/Encapsulation.v ===== *)
(** * Segments and datagrams inside IPv4 packets

    The headers of IPv4, UDP and TCP keep the contract [HeaderLaws] of packets, so a
    payload given its transport and network headers comes back with both headers read
    as they were written. *)

From S2P Require Import Prelude Buffer BufferIterator BufferInv BufferRw BufferProps Checksum Wire Ipv4Header UdpHeader TcpOption TcpHeader TcpHeaderProps.

Module Encapsulation.
Import Buffer Iterator BufferInv BufferRw BufferProps Checksum Wire TcpHeaderProps.

(** ** IPv4 keeps the contract *)

Definition Ipv4Deserialize (h0 : Ipv4Header.Ipv4Header) (i : Iterator) (m : Mem) : option (Z * Ipv4Header.Ipv4Header * Mem) :=
  let* (n, h) := Ipv4Header.Deserialize h0 i m in Some (n, h, m).
(** [h0] once it has read what [h] wrote, with some checksum. *)
Definition ipv4_read (h h0 h' : Ipv4Header.Ipv4Header) : Prop :=
  exists ck, h' = Ipv4Header.mkHeader (Ipv4Header.m_calcChecksum h0) (Ipv4Header.m_payloadSize h) (Ipv4Header.m_identification h) (Ipv4Header.m_tos h) (Ipv4Header.m_ttl h)
    (Ipv4Header.m_protocol h) (Ipv4Header.m_flags h) (Ipv4Header.m_fragmentOffset h) (Ipv4Header.m_source h) (Ipv4Header.m_destination h) ck
    (if Ipv4Header.m_calcChecksum h0 then true else Ipv4Header.m_goodChecksum h0) 20.
Lemma ipv4_reads_bytes h h0 c0 c1 m b bs payload : Ipv4Header.header_ok h -> (Ipv4Header.m_calcChecksum h0 = true -> checksum_of 0 (Ipv4Header.header_bytes h c0 c1) = 0) ->
  0 <= c0 < 256 -> 0 <= c1 < 256 -> inv m (b :: bs) -> content m b = Ipv4Header.header_bytes h c0 c1 ++ payload ->
  exists h', ipv4_read h h0 h' /\ Ipv4Header.Deserialize h0 (Begin b) m = Some (20, h') /\ Ipv4Header.m_checksum h' = fold_left (shift_in 16) [c1; c0] 0.
Proof.
  intros Hok Hck H0 H1 Hi Hc. destruct (at_front _ _ _ _ _ Hi Hc) as (G1&G2&Hsl). change (zlen (Ipv4Header.header_bytes h c0 c1)) with 20 in *.
  assert (byte_list (Ipv4Header.header_bytes h c0 c1)) as Hbl by (by apply Ipv4Header.header_bytes_ok). eexists. split; [by eexists|]. split.
  - unfold Begin. erewrite (Ipv4Header.Ipv4_Deserialize_ok h0 (m_start b) m b bs) by (done || exact Hsl || (change (u16 (Z.land 69 15 * 4)) with 20; rewrite Hsl; done)).
    change (u16 (Z.land 69 15 * 4)) with 20. simpl (negb _). cbv zeta. rewrite Hsl.
    pose proof (Ipv4Header.parsed_header h (Ipv4Header.m_calcChecksum h0) (if Ipv4Header.m_calcChecksum h0 then true else Ipv4Header.m_goodChecksum h0) c0 c1 Hok) as Hpar.
    destruct (Ipv4Header.m_calcChecksum h0); [rewrite Hck by auto; simpl (0 =? 0)|]; cbv iota; f_equal; f_equal; exact Hpar.
  - done.
Qed.
#[export] Instance ipv4_laws h h0 : Ipv4Header.header_ok h -> (Ipv4Header.m_calcChecksum h0 = true -> Ipv4Header.m_calcChecksum h = true) ->
  HeaderLaws 20 (Ipv4Header.Serialize h) (Ipv4Deserialize h0) (fun _ => True) (fun _ => ipv4_read h h0).
Proof.
  intros Hok Hck. constructor; [unfold MAX_CONTENT; lia|]. intros m b bs x payload Hi Hf Hc Hx [Hp Hz] Hb _.
  pose proof (content_size _ _ _ Hi) as Hcs. rewrite Hc, zlen_app, Hx in Hcs. pose proof (zlen_nonneg payload). destruct (inv_offsets _ _ _ Hi) as (O1&O2&O3).
  assert (phys b (m_start b) = m_start b) as Hph by (unfold phys; rewrite (proj2 (Z.ltb_lt _ _)); lia).
  destruct (Ipv4Header.Ipv4_Serialize_ok h (m_start b) m b bs Hok Hi) as (m'&c0&c1&E&Hi'&H0&H1&Hc'&Ho&Hver); [split_and!; lia|by rewrite Hph|].
  assert (content m' b = Ipv4Header.header_bytes h c0 c1 ++ payload) as Hc2 by (rewrite Hc', Hc, Z.sub_diag; by apply splice_start).
  destruct (ipv4_reads_bytes h h0 c0 c1 m' b bs payload Hok ltac:(auto) H0 H1 Hi' Hc2) as (h'&Hr&_&Hk). exists (Ipv4Header.header_bytes h c0 c1), m', h'. split_and!; try done; [by apply Ipv4Header.header_bytes_ok|].
  intros m2 b2 bs2 Hi2 Hf2 Hc3. destruct (ipv4_reads_bytes h h0 c0 c1 m2 b2 bs2 payload Hok ltac:(auto) H0 H1 Hi2 Hc3) as (h2&[ck2 ->]&E2&Hk2). exists m2. split; [|done].
  unfold Ipv4Deserialize. rewrite E2. destruct Hr as [ck1 ->]. cbn in Hk, Hk2. by rewrite Hk, Hk2.
Qed.

(** ** Theorems *)

(** C14: A TCP segment survives its way through a packet. For every payload, every TCP
    header made by the operations of the class, with any options, and every IPv4
    header whose fields fit: adding both headers to the payload succeeds and disturbs
    no other packet; removing them yields the IPv4 header and the TCP header as they
    were written, the options in order (with the end-of-options marker that begins the
    padding), and the payload. A receiver that verifies the checksums finds both good. *)
Theorem tcp_segment_round_trip uninit h h0 ip ip0 m b bs : built h -> built h0 -> tcp_net h -> tcp_net h0 -> Ipv4Header.header_ok ip ->
  (TcpHeader.m_calcChecksum h0 = true -> TcpHeader.m_calcChecksum h = true /\ TcpHeader.m_source h0 = TcpHeader.m_source h /\ TcpHeader.m_destination h0 = TcpHeader.m_destination h /\ TcpHeader.m_protocol h0 = TcpHeader.m_protocol h) ->
  (Ipv4Header.m_calcChecksum ip0 = true -> Ipv4Header.m_calcChecksum ip = true) ->
  inv m (b :: bs) -> few bs -> byte_list (content m b) -> tcp_fits h (content m b) ->
  exists b' m' ip' b2 m2, encapsulate uninit (TcpHeader.GetSerializedSize h) (TcpHeader.Serialize uninit h) 20 (Ipv4Header.Serialize ip) b m = Some (b', m') /\ same_contents m m' bs /\
    decapsulate (TcpHeader.Deserialize uninit h0) (Ipv4Deserialize ip0) b' m' = Some (ip', tcp_read h h0, b2, m2) /\ ipv4_read ip ip0 ip' /\
    inv m2 (b2 :: bs) /\ content m2 b2 = content m b /\ same_contents m m2 bs.
Proof.
  intros Hh Hh0 Hn Hn0 Hip Hck Hickl Hi Hf Hb Hfit. apply built_tcp_ok in Hh, Hh0. destruct (tcp_size_words h Hh) as (Ew&Hs&_). pose proof (tcp_laws uninit h h0 Hh Hh0 Hn Hn0 Hck) as L1. pose proof (ipv4_laws ip ip0 Hip Hickl) as L2.
  rewrite GetSerializedSize_tcp by done.
  unfold tcp_fits in Hfit. pose proof (zlen_nonneg (content m b)).
  destruct (two_layers uninit _ _ _ _ _ _ (tcp_fits h) (fun _ => True) _ _ m b bs Hi Hf Hb) as (b'&m'&h1&h2&hdr&E&Hi'&Ho&_&_&->&Hr&b2&m2&E2&Hi2&Hc2&Ho2); [unfold MAX_CONTENT; lia|done|done|].
  by exists b', m', h2, b2, m2.
Qed.
(** A UDP datagram survives its way through a packet: as for TCP, the headers are
    read as they were written, the payload size is that of the payload, and a checksum
    the sender computed verifies, also when it is zero and is sent as all ones. *)
Theorem udp_datagram_round_trip uninit h h0 ip ip0 m b bs : UdpHeader.udp_ok h -> UdpHeader.udp_ok h0 -> Ipv4Header.header_ok ip ->
  (UdpHeader.m_calcChecksum h0 = true -> UdpHeader.m_source h0 = UdpHeader.m_source h /\ UdpHeader.m_destination h0 = UdpHeader.m_destination h /\ UdpHeader.m_protocol h0 = UdpHeader.m_protocol h) ->
  (Ipv4Header.m_calcChecksum ip0 = true -> Ipv4Header.m_calcChecksum ip = true) ->
  inv m (b :: bs) -> few bs -> byte_list (content m b) -> UdpHeader.udp_fits (content m b) ->
  exists b' m' ip' b2 m2, encapsulate uninit UdpHeader.GetSerializedSize (UdpHeader.Serialize uninit h) 20 (Ipv4Header.Serialize ip) b m = Some (b', m') /\ same_contents m m' bs /\
    decapsulate (UdpHeader.Deserialize uninit h0) (Ipv4Deserialize ip0) b' m' = Some (ip', UdpHeader.udp_read h h0 (content m b), b2, m2) /\ ipv4_read ip ip0 ip' /\
    inv m2 (b2 :: bs) /\ content m2 b2 = content m b /\ same_contents m m2 bs.
Proof.
  intros Hh Hh0 Hip Hck Hickl Hi Hf Hb Hfit. pose proof (UdpHeader.udp_laws uninit h h0 Hh Hh0 Hck) as L1. pose proof (ipv4_laws ip ip0 Hip Hickl) as L2. pose proof (zlen_nonneg (content m b)).
  destruct (two_layers uninit _ _ _ _ _ _ UdpHeader.udp_fits (fun _ => True) _ _ m b bs Hi Hf Hb) as (b'&m'&h1&h2&hdr&E&Hi'&Ho&_&_&->&Hr&b2&m2&E2&Hi2&Hc2&Ho2); [unfold UdpHeader.udp_fits, MAX_CONTENT in *; lia|done|done|].
  by exists b', m', h2, b2, m2.
Qed.
(** C37: Reading a TCP header of any bytes returns or never does, and 40 turns of the
    loop over the options tell which: with more of them the result is the same. It
    does not return exactly when one of the options behind its fixed fields, reached by
    passing over the options before it while bytes of the header are left, is of an
    unknown kind and has the length byte 0. *)
Theorem tcp_reading_decided uninit h i m : (forall fuel, (40 <= fuel)%nat -> TcpHeader.Deserialize_fuel uninit fuel h i m = TcpHeader.Deserialize_fuel uninit 40 h i m) /\
  (TcpHeader.Deserialize_fuel uninit 40 h i m = Some None <->
    exists n start n' j, option_area i m = Some (n, start) /\ option_at m n start n' j /\ zero_option j m).
Proof. apply Deserialize_decided. Qed.
End Encapsulation.

(** * Headers on concrete packets

    A TCP segment and a UDP datagram taken through their headers, and the bytes for
    which reading or writing them goes wrong. *)

Module HeaderDemo.
Import Buffer Iterator BufferInv BufferRw BufferProps Checksum Wire TcpOption TcpHeaderProps Encapsulation.

Definition text : list Z := [71; 69; 84; 32; 47].
Definition text_buf : Buffer := Ipv4Header.ip_buf text.
Definition text_mem : Mem := Ipv4Header.ip_mem text.
Lemma text_inv : inv text_mem [text_buf] /\ content text_mem text_buf = text ++ replicate 10 0.
Proof. apply Ipv4Header.ip_inv. vm_compute. discriminate. Qed.
Lemma text_bytes : byte_list (content text_mem text_buf).
Proof. rewrite (proj2 text_inv). repeat (constructor; [lia|]). constructor. Qed.
Lemma few_none : few [].
Proof. unfold few. cbn. lia. Qed.
Definition here : NetAddress := V4 0x0a000001.
Definition there : NetAddress := V4 0x0a000002.

(** ** A segment with options *)

Definition seg0 : TcpHeader.TcpHeader := TcpHeader.EnableChecksums (TcpHeader.InitializeChecksum here there 6 (TcpHeader.SetFlags 24 (TcpHeader.SetSourcePort 49153 TcpHeader.TcpHeader_new))).
Definition seg : TcpHeader.TcpHeader := (TcpHeader.AppendOption (OptionWinScale 7) (TcpHeader.AppendOption (OptionSack [(1, 2); (7, 9)]) seg0).2).2.
Lemma seg0_built : built seg0.
Proof. apply built_checksum, built_pseudo; [|lia]. apply built_flags; [|lia]. apply built_source; [apply built_new|unfold u16_ok; lia]. Qed.
Lemma seg_built : built seg.
Proof.
  apply built_option; [apply built_option; [exact seg0_built|]|cbn; lia]. split; [cbn; lia|]. repeat constructor; cbn; lia.
Qed.
Lemma seg_options : TcpHeader.m_options seg = [OptionSack [(1, 2); (7, 9)]; OptionWinScale 7] /\ TcpHeader.GetSerializedSize seg = 44.
Proof. split; reflexivity. Qed.
Lemma tcp_segment_round_trip_witness : exists b' m' ip' b2 m2,
  encapsulate demo_uninit (TcpHeader.GetSerializedSize seg) (TcpHeader.Serialize demo_uninit seg) 20 (Ipv4Header.Serialize Ipv4Header.demo_header) text_buf text_mem = Some (b', m') /\
  decapsulate (TcpHeader.Deserialize demo_uninit seg0) (Ipv4Deserialize (Ipv4Header.EnableChecksum Ipv4Header.Ipv4Header_new)) b' m' = Some (ip', tcp_read seg seg0, b2, m2) /\
  content m2 b2 = text ++ replicate 10 0.
Proof.
  destruct (tcp_segment_round_trip demo_uninit seg seg0 Ipv4Header.demo_header (Ipv4Header.EnableChecksum Ipv4Header.Ipv4Header_new) text_mem text_buf [] seg_built seg0_built) as (b'&m'&ip'&b2&m2&E1&_&E2&_&_&Hc&_).
  - intros _. exact I.
  - intros _. exact I.
  - exact Ipv4Header.demo_header_ok.
  - intros _. repeat split.
  - reflexivity.
  - exact (proj1 text_inv).
  - exact few_none.
  - exact text_bytes.
  - unfold tcp_fits. rewrite (proj2 text_inv). vm_compute. reflexivity.
  - exists b', m', ip', b2, m2. split; [exact E1|]. split; [exact E2|]. rewrite Hc. exact (proj2 text_inv).
Defined.

(** ** A datagram *)

Definition dgram : UdpHeader.UdpHeader := UdpHeader.EnableChecksums (UdpHeader.InitializeChecksum here there 17 (UdpHeader.SetDestinationPort 53 UdpHeader.UdpHeader_new)).
Lemma dgram_ok : UdpHeader.udp_ok dgram.
Proof. constructor; cbn; try lia; done. Qed.
Lemma udp_datagram_round_trip_witness : exists b' m' ip' b2 m2,
  encapsulate demo_uninit UdpHeader.GetSerializedSize (UdpHeader.Serialize demo_uninit dgram) 20 (Ipv4Header.Serialize Ipv4Header.demo_header) text_buf text_mem = Some (b', m') /\
  decapsulate (UdpHeader.Deserialize demo_uninit dgram) (Ipv4Deserialize (Ipv4Header.EnableChecksum Ipv4Header.Ipv4Header_new)) b' m' = Some (ip', UdpHeader.udp_read dgram dgram (content text_mem text_buf), b2, m2) /\
  content m2 b2 = text ++ replicate 10 0.
Proof.
  destruct (udp_datagram_round_trip demo_uninit dgram dgram Ipv4Header.demo_header (Ipv4Header.EnableChecksum Ipv4Header.Ipv4Header_new) text_mem text_buf [] dgram_ok dgram_ok) as (b'&m'&ip'&b2&m2&E1&_&E2&_&_&Hc&_).
  - exact Ipv4Header.demo_header_ok.
  - intros _. repeat split.
  - reflexivity.
  - exact (proj1 text_inv).
  - exact few_none.
  - exact text_bytes.
  - unfold UdpHeader.udp_fits. rewrite (proj2 text_inv). vm_compute. reflexivity.
  - exists b', m', ip', b2, m2. split; [exact E1|]. split; [exact E2|]. rewrite Hc. exact (proj2 text_inv).
Defined.

(** ** What runs show *)

(** The 20 bytes of fields of a header of [n] words. *)
Definition raw (n : Z) : list Z := [192; 1; 0; 80; 0; 0; 0; 1; 0; 0; 0; 2; n * 16; 16; 255; 255; 0; 0; 0; 0].
(** A received header of 24 bytes whose option has an unknown kind and the length 0:
    the loop over the options does not end, and its list of options grows. *)
Definition hang : list Z := raw 6 ++ [254; 0; 0; 0].
Lemma zero_length_option_hangs fuel : (40 <= fuel)%nat ->
  TcpHeader.Deserialize_fuel demo_uninit fuel TcpHeader.TcpHeader_new (Begin (Ipv4Header.ip_buf hang)) (Ipv4Header.ip_mem hang) = Some None.
Proof. intros Hf. rewrite (proj1 (Deserialize_decided demo_uninit _ _ _) fuel Hf). vm_compute. reflexivity. Qed.
Lemma tcp_reading_decided_witness : TcpHeader.Deserialize_fuel demo_uninit 1000 TcpHeader.TcpHeader_new (Begin (Ipv4Header.ip_buf hang)) (Ipv4Header.ip_mem hang) = Some None /\
  exists n start n' j, option_area (Begin (Ipv4Header.ip_buf hang)) (Ipv4Header.ip_mem hang) = Some (n, start) /\ option_at (Ipv4Header.ip_mem hang) n start n' j /\ zero_option j (Ipv4Header.ip_mem hang).
Proof.
  destruct (tcp_reading_decided demo_uninit TcpHeader.TcpHeader_new (Begin (Ipv4Header.ip_buf hang)) (Ipv4Header.ip_mem hang)) as [H1 H2].
  rewrite (H1 1000%nat) by lia. split; [vm_compute; reflexivity|]. apply H2. vm_compute. reflexivity.
Defined.
(** A received MSS option of a wrong length ends the simulation. *)
Definition bad_mss : list Z := raw 6 ++ [2; 3; 5; 0].
Lemma bad_mss_aborts : TcpHeader.Deserialize_fuel demo_uninit 40 TcpHeader.TcpHeader_new (Begin (Ipv4Header.ip_buf bad_mss)) (Ipv4Header.ip_mem bad_mss) = None.
Proof. vm_compute. reflexivity. Qed.
(** An option appended to a header that was read is behind the end of the options:
    the next reader does not find it. *)
Definition one_nop : list Z := raw 6 ++ [1; 0; 0; 0].
Definition reread : option (list TcpOption * list TcpOption) :=
  let* (_, h, m) := TcpHeader.Deserialize demo_uninit TcpHeader.TcpHeader_new (Begin (Ipv4Header.ip_buf one_nop)) (Ipv4Header.ip_mem one_nop) in
  let h := (TcpHeader.AppendOption (OptionTS 1 2) h).2 in
  let* (b, m) := AddHeader demo_uninit (TcpHeader.GetSerializedSize h) (TcpHeader.Serialize demo_uninit h) demo_buf m in
  let* (_, h', _) := TcpHeader.Deserialize demo_uninit TcpHeader.TcpHeader_new (Begin b) m in
  Some (TcpHeader.m_options h, TcpHeader.m_options h').
Lemma appended_after_end_lost : reread = Some ([OptionNOP; OptionEnd; OptionTS 1 2], [OptionNOP; OptionEnd]).
Proof. vm_compute. reflexivity. Qed.
(** Without addresses, the sum of the pseudo header of TCP is that of bytes that were
    never written. *)
Definition no_addresses (uninit : Z -> nat -> Z) : option Z := let* (sum, _) := TcpHeader.CalculateHeaderChecksum uninit TcpHeader.TcpHeader_new 20 Mem_init in Some sum.
Lemma tcp_sums_unwritten_bytes : no_addresses (fun _ _ => 0) <> no_addresses (fun _ _ => 1).
Proof. vm_compute. discriminate. Qed.
(** A UDP header that was read writes the checksum it read, whatever it is written
    for: here a header with its own addresses, for another payload. *)
Definition forwarded : option bool :=
  let* (b, m) := AddHeader demo_uninit 8 (UdpHeader.Serialize demo_uninit dgram) text_buf text_mem in
  let* (_, h, m) := UdpHeader.Deserialize demo_uninit dgram (Begin b) m in
  let* (b2, m) := Initialize demo_uninit 3 m in
  let* (b2, m) := AddHeader demo_uninit 8 (UdpHeader.Serialize demo_uninit h) b2 m in
  let* (_, h2, _) := UdpHeader.Deserialize demo_uninit dgram (Begin b2) m in
  Some (UdpHeader.IsChecksumOk h2).
Lemma read_udp_header_keeps_checksum : forwarded = Some false.
Proof. vm_compute. reflexivity. Qed.
End HeaderDemo.
