(* ===== verification/PacketBytes.v ===== *)
(** * Packets as byte strings (src/network/model/packet.cc)

    The transport and network layers cut and join packets with
    [CreateFragment], [AddAtEnd], [RemoveAtStart] and [RemoveAtEnd]. Here a
    packet is the byte string its buffer denotes, and the operations are those
    [BufferProps] proves of the buffers underneath. What [AddAtEnd] does depends
    on more than the bytes, and is an argument. Packet metadata, off by default,
    is left out. *)

From S2P Require Import Prelude Buffer BufferIterator BufferInv BufferSerial.
Import Buffer BufferInv.

Module PacketBytes.

Definition Packet : Type := list Z.

(** At most 2^31 bytes by the bounds of [Buffer]. *)
Definition GetSize (p : Packet) : Z := zlen p.

(** More bytes than there are leave an empty packet. *)
Definition RemoveAtStart (size : Z) (p : Packet) : Packet := drop (Z.to_nat size) p.
Definition RemoveAtEnd (size : Z) (p : Packet) : Packet := take (length p - Z.to_nat size) p.

Definition CreateFragment (start length : Z) (p : Packet) : option Packet :=
  let fragment := RemoveAtEnd (u32 (GetSize p - u32 (start + length))) (RemoveAtStart start p) in
  assert* u32 (start + length) <=? GetSize p in Some fragment.

(** What appending one buffer to another does depends on the blocks they share and on where
    their zero areas are: it joins them, leaves other bytes, or aborts. The class [Memory]
    says which, for the packets of a program. *)
Inductive Join := Joined | Garbled (bytes : Packet) | Aborted.
Class Memory := joining : Packet -> Packet -> Join.
Definition AddAtEnd {mem : Memory} (packet p : Packet) : option Packet :=
  match joining p packet with
  | Joined => Some (p ++ packet)
  | Garbled bytes => Some bytes
  | Aborted => None
  end.

(** A memory in which every packet has a block of its own. *)
Definition plain_memory : Memory := fun _ _ => Joined.
(** What the code does to the buffers [b] and [o] in the memory [m]. *)
Definition join_of (uninit : Z -> nat -> Z) (b o : Buffer) (m : Mem) : Join :=
  match BufferOps.AddAtEnd_buffer uninit o b m with
  | Some (b', m') => if decide (content m' b' = content m b ++ content m o) then Joined else Garbled (content m' b')
  | None => Aborted
  end.

(** ** Facts *)

(** The operation on bytes is the one of the code on buffers, in every case. *)
Lemma AddAtEnd_code uninit b o m :
  @AddAtEnd (fun _ _ => join_of uninit b o m) (content m o) (content m b) = (let* (b', m') := BufferOps.AddAtEnd_buffer uninit o b m in Some (content m' b')).
Proof.
  unfold AddAtEnd, joining, join_of. destruct (BufferOps.AddAtEnd_buffer uninit o b m) as [[b' m']|]; [| done]. by destruct (decide _) as [->|].
Qed.
(** Buffers that are kept apart, the second one without a trailer, are joined. *)
Lemma join_of_apart uninit b o m bs : inv m (b :: bs) -> o ∈ bs -> BufferSerial.apart b o -> BufferSerial.appendable o ->
  zlen (content m b) + zlen (content m o) <= MAX_CONTENT -> Z.of_nat (length bs) + 4 < 2 ^ 32 -> join_of uninit b o m = Joined.
Proof.
  intros Hi Ho Ha Hp Hs Hl. unfold join_of. destruct (BufferSerial.AddAtEnd_concatenates uninit m b o bs Hi Ho Ha Hp Hs Hl) as (b' & m' & -> & _ & E & _). by rewrite decide_True.
Qed.

Lemma CreateFragment_slice start len p :
  0 <= start -> 0 <= len -> start + len <= zlen p -> zlen p < 2 ^ 32 ->
  CreateFragment start len p = Some (slice start (start + len) p).
Proof.
  intros H1 H2 H3 H4. unfold CreateFragment, RemoveAtEnd, RemoveAtStart, GetSize.
  rewrite (u32_small (start + len)), u32_small by lia. rewrite (proj2 (Z.leb_le _ _)) by lia. simpl. f_equal.
  unfold slice. rewrite length_drop. unfold zlen in *. f_equal. lia.
Qed.

(** A fragment that starts beyond the end, with a size that wraps around, is empty. *)
Lemma CreateFragment_beyond start p :
  zlen p <= start < 2 ^ 32 -> CreateFragment start (u32 (zlen p - start)) p = Some [].
Proof.
  intros H. unfold CreateFragment, RemoveAtEnd, RemoveAtStart, GetSize.
  assert (u32 (start + u32 (zlen p - start)) = zlen p) as ->.
  { unfold u32, wrap. rewrite Zplus_mod_idemp_r. replace (start + (zlen p - start)) with (zlen p) by lia.
    apply Z.mod_small. pose proof (zlen_nonneg p). lia. }
  rewrite Z.leb_refl. simpl. rewrite drop_ge by (unfold zlen in *; lia). by rewrite take_nil.
Qed.

End PacketBytes.
