(* ===== verification/PacketTagList.v ===== *)
(** * Packet tags (src/network/model/packet-tag-list.cc, packet-tag-list.h)

    The tags of a packet form a linked list; copies of a packet share the tail
    of the list, and [count] is the number of links that lead to a node. An
    operation that changes a list copies the shared nodes before the tag it is
    after. The nodes live in a memory addressed by numbers, 0 being the null
    pointer. A tag is its type and the bytes it serializes to. *)

From S2P Require Import Prelude.

Module PacketTagList.

(** ** Memory *)

Record TagData := mkTag {
  next : Z;
  count : Z;
  tid : Z;
  data : list Z
}.
Definition set_next (n : Z) (d : TagData) : TagData := mkTag n (count d) (tid d) (data d).
Definition set_count (c : Z) (d : TagData) : TagData := mkTag (next d) c (tid d) (data d).
Definition set_data (b : list Z) (d : TagData) : TagData := mkTag (next d) (count d) (tid d) b.

(** The nodes and the next address [malloc] returns. *)
Record TagMem := mkTagMem {
  heap : gmap Z TagData;
  fresh_addr : Z
}.
Definition store (a : Z) (d : TagData) (m : TagMem) : TagMem := mkTagMem (<[a := d]> (heap m)) (fresh_addr m).
Definition free (a : Z) (m : TagMem) : TagMem := mkTagMem (delete a (heap m)) (fresh_addr m).

(** Reading and writing through a pointer aborts when it does not point to a node. *)
Definition load (a : Z) (m : TagMem) : option TagData := if a =? 0 then None else heap m !! a.
Definition modify (a : Z) (f : TagData -> TagData) (m : TagMem) : option TagMem :=
  let* d := load a m in Some (store a (f d) m).

(** [CreateTagData]: the size must fit 32 bits. *)
Definition CreateTagData (d : TagData) (m : TagMem) : option (Z * TagMem) :=
  assert* Z.of_nat (length (data d)) <? 2 ^ 32 - 1 in
  Some (fresh_addr m, mkTagMem (<[fresh_addr m := d]> (heap m)) (fresh_addr m + 1)).

(** A pointer to a pointer: the head of the list or the [next] of a node. *)
Inductive Link := LinkHead | LinkNext (a : Z).
Definition write_link (l : Link) (v : Z) (m_next : Z) (m : TagMem) : option (Z * TagMem) :=
  match l with
  | LinkHead => Some (v, m)
  | LinkNext a => let* m := modify a (set_next v) m in Some (m_next, m)
  end.

(** ** Copy on write *)

(** What the writer does with the tag it finds; [Replace] carries the bytes of
    the new tag. *)
Inductive Writer := RemoveW | ReplaceW (new : list Z).

(** [tag.Serialize] into a buffer that holds [old]: a [TagBuffer] aborts when it
    is too small and leaves the bytes behind the new ones. *)
Definition overwrite (new old : list Z) : option (list Z) :=
  assert* (length new <=? length old)%nat in Some (new ++ drop (length new) old).

(** The bytes returned are those [Deserialize] gives to the tag. *)
Definition RemoveWriter (preMerge : bool) (cur : Z) (prevNext : Link) (m_next : Z) (m : TagMem)
    : option (list Z * Z * TagMem) :=
  let* d := load cur m in
  let* (m_next, m) := write_link prevNext (next d) m_next m in
  if preMerge then Some (data d, m_next, free cur m)
  else
    let* m := modify cur (fun d => set_count (u32 (count d - 1)) d) m in
    let* m := if negb (next d =? 0) then modify (next d) (fun d => set_count (u32 (count d + 1)) d) m else Some m in
    Some (data d, m_next, m).

Definition ReplaceWriter (new : list Z) (t : Z) (preMerge : bool) (cur : Z) (prevNext : Link) (m_next : Z) (m : TagMem)
    : option (list Z * Z * TagMem) :=
  let* d := load cur m in
  if preMerge then
    let* bytes := overwrite new (data d) in
    let* m := modify cur (set_data bytes) m in
    Some (new, m_next, m)
  else
    let* m := modify cur (fun d => set_count (u32 (count d - 1)) d) m in
    let* (copy, m) := CreateTagData (mkTag (next d) 1 t new) m in
    let* m := if negb (next d =? 0) then modify (next d) (fun d => set_count (u32 (count d + 1)) d) m else Some m in
    let* (m_next, m) := write_link prevNext copy m_next m in
    Some (new, m_next, m).

Definition run_writer (w : Writer) (t : Z) (preMerge : bool) (cur : Z) (prevNext : Link) (m_next : Z) (m : TagMem)
    : option (list Z * Z * TagMem) :=
  match w with
  | RemoveW => RemoveWriter preMerge cur prevNext m_next m
  | ReplaceW new => ReplaceWriter new t preMerge cur prevNext m_next m
  end.

(** The first loop of [COWTraverse] stops at the end, at a merge or at the tag. *)
Inductive Found := AtEnd | AtMerge (prevNext : Link) (cur : Z) | AtTag (prevNext : Link) (cur : Z).
Fixpoint head_loop (fuel : nat) (t : Z) (prevNext : Link) (cur : Z) (m : TagMem) : option Found :=
  if cur =? 0 then Some AtEnd
  else match fuel with
  | O => None
  | S fuel' =>
      let* d := load cur m in
      if 1 <? count d then Some (AtMerge prevNext cur)
      else if tid d =? t then Some (AtTag prevNext cur)
      else head_loop fuel' t (LinkNext cur) (next d) m
  end.

(** Whether the tag is in the list from [cur]. *)
Fixpoint has_tag (fuel : nat) (t : Z) (cur : Z) (m : TagMem) : option bool :=
  if cur =? 0 then Some false
  else match fuel with
  | O => None
  | S fuel' => let* d := load cur m in if tid d =? t then Some true else has_tag fuel' t (next d) m
  end.

(** The loop that copies nodes up to the tag. *)
Fixpoint copy_loop (fuel : nat) (t : Z) (prevNext : Link) (cur : Z) (m_next : Z) (m : TagMem)
    : option (Link * Z * Z * TagMem) :=
  match fuel with
  | O => None
  | S fuel' =>
      let* d := load cur m in
      if tid d =? t then
        assert* 1 <? count d in Some (prevNext, cur, m_next, m)
      else
        assert* 1 <? count d in
        let* m := modify cur (fun d => set_count (u32 (count d - 1)) d) m in
        let* (copy, m) := CreateTagData (mkTag (next d) 1 (tid d) (data d)) m in
        let* m := modify (next d) (fun d => set_count (u32 (count d + 1)) d) m in
        let* (m_next, m) := write_link prevNext copy m_next m in
        copy_loop fuel' t (LinkNext copy) (next d) m_next m
  end.

(** The fuel of the loops: no list is longer than the number of nodes. *)
Definition fuel_of (m : TagMem) : nat := S (size (heap m)).

(** [None] inside the result: the tag was not found. *)
Definition COWTraverse (t : Z) (w : Writer) (m_next : Z) (m : TagMem) : option (option (list Z) * Z * TagMem) :=
  let* found := head_loop (fuel_of m) t LinkHead m_next m in
  match found with
  | AtEnd => Some (None, m_next, m)
  | AtTag prevNext cur =>
      let* (bytes, m_next, m) := run_writer w t true cur prevNext m_next m in Some (Some bytes, m_next, m)
  | AtMerge prevNext cur =>
      let* present := has_tag (fuel_of m) t cur m in
      if negb present then Some (None, m_next, m)
      else
        let* (prevNext, cur, m_next, m) := copy_loop (fuel_of m) t prevNext cur m_next m in
        let* (bytes, m_next, m) := run_writer w t false cur prevNext m_next m in Some (Some bytes, m_next, m)
  end.

(** ** Operations *)

Definition Remove (t : Z) (m_next : Z) (m : TagMem) : option (option (list Z) * Z * TagMem) :=
  COWTraverse t RemoveW m_next m.

Definition Add (t : Z) (bytes : list Z) (m_next : Z) (m : TagMem) : option (Z * TagMem) :=
  let* present := has_tag (fuel_of m) t m_next m in
  assert* negb present in
  CreateTagData (mkTag m_next 1 t bytes) m.

Definition Replace (t : Z) (bytes : list Z) (m_next : Z) (m : TagMem) : option (bool * Z * TagMem) :=
  let* (found, m_next, m) := COWTraverse t (ReplaceW bytes) m_next m in
  match found with
  | Some _ => Some (true, m_next, m)
  | None => let* (m_next, m) := Add t bytes m_next m in Some (false, m_next, m)
  end.

Fixpoint peek_loop (fuel : nat) (t : Z) (cur : Z) (m : TagMem) : option (option (list Z)) :=
  if cur =? 0 then Some None
  else match fuel with
  | O => None
  | S fuel' => let* d := load cur m in if tid d =? t then Some (Some (data d)) else peek_loop fuel' t (next d) m
  end.
Definition Peek (t : Z) (m_next : Z) (m : TagMem) : option (option (list Z)) := peek_loop (fuel_of m) t m_next m.

(** The copy constructor. *)
Definition PacketTagList_copy (o_next : Z) (m : TagMem) : option (Z * TagMem) :=
  if o_next =? 0 then Some (0, m)
  else let* m := modify o_next (fun d => set_count (u32 (count d + 1)) d) m in Some (o_next, m).

(** [RemoveAll]: nodes are freed up to the first one another list leads to; the
    node before the current one is freed when the loop moves on. *)
Fixpoint remove_all_loop (fuel : nat) (prev cur : Z) (m : TagMem) : option TagMem :=
  if cur =? 0 then Some (if negb (prev =? 0) then free prev m else m)
  else match fuel with
  | O => None
  | S fuel' =>
      let* d := load cur m in
      let m := store cur (set_count (u32 (count d - 1)) d) m in
      if 0 <? u32 (count d - 1) then Some (if negb (prev =? 0) then free prev m else m)
      else
        let m := if negb (prev =? 0) then free prev m else m in
        remove_all_loop fuel' cur (next d) m
  end.
Definition RemoveAll (m_next : Z) (m : TagMem) : option (Z * TagMem) :=
  let* m := remove_all_loop (fuel_of m) 0 m_next m in Some (0, m).

Definition PacketTagList_assign (m_next o_next : Z) (m : TagMem) : option (Z * TagMem) :=
  if m_next =? o_next then Some (m_next, m)
  else let* (_, m) := RemoveAll m_next m in PacketTagList_copy o_next m.

End PacketTagList.
