(* ===== verification/PacketTagProps.v ===== *)
(** * Correctness of the shared packet tag lists

    The lists that share nodes behave as independent lists of tags: an operation
    on one list changes its value as specified and leaves every other value
    alone; no freed node is used, the counts are exact, and nodes are freed when
    no list needs them. *)

From S2P Require Import Prelude PacketTagList.
Import PacketTagList.

Module PacketTagProps.

(** ** Links and counts *)

Definition ind (a b : Z) : Z := if a =? b then 1 else 0.
(** Occurrences of [a] in a list of link targets. *)
Definition occ (a : Z) (l : list Z) : Z := foldr (fun b s => ind a b + s) 0 l.
(** The targets of all links: heads of lists and [next] of nodes. *)
Definition links (heads : list Z) (h : gmap Z TagData) : list Z := heads ++ ((fun e => next e.2) <$> map_to_list h).

Lemma ind_range a b : 0 <= ind a b <= 1.
Proof. unfold ind. destruct (a =? b); lia. Qed.
Lemma ind_refl a : ind a a = 1.
Proof. unfold ind. by rewrite Z.eqb_refl. Qed.
Lemma ind_ne a b : a <> b -> ind a b = 0.
Proof. intros. unfold ind. by rewrite (proj2 (Z.eqb_neq a b)). Qed.

Lemma occ_app a l1 l2 : occ a (l1 ++ l2) = occ a l1 + occ a l2.
Proof. induction l1 as [|b l1 IH]; simpl; [done |]. rewrite IH. lia. Qed.
Lemma occ_nonneg a l : 0 <= occ a l.
Proof. induction l as [|b l IH]; simpl; [lia |]. pose proof (ind_range a b). lia. Qed.
#[export] Instance occ_perm a : Proper ((≡ₚ) ==> eq) (occ a).
Proof. intros l1 l2 H. induction H as [|x l1 l2 _ IH|x y l|l1 l2 l3 _ IH1 _ IH2]; simpl; lia. Qed.
Lemma occ_elem a l : a ∈ l -> 1 <= occ a l.
Proof.
  intros (l1 & l2 & ->)%list_elem_of_split. rewrite occ_app. simpl. rewrite ind_refl.
  pose proof (occ_nonneg a l1). pose proof (occ_nonneg a l2). lia.
Qed.
Lemma occ_pos a l : 0 < occ a l -> a ∈ l.
Proof.
  induction l as [|b l IH]; simpl; [lia |]. intros H. destruct (Z.eq_dec a b) as [->|Hne]; [by left |].
  rewrite ind_ne in H by done. right. apply IH. lia.
Qed.

Lemma occ_heads a h1 x v h2 h : occ a (links (h1 ++ v :: h2) h) = occ a (links (h1 ++ x :: h2) h) - ind a x + ind a v.
Proof. unfold links. rewrite !occ_app. simpl. lia. Qed.
Lemma occ_insert_new a heads h n d : h !! n = None -> occ a (links heads (<[n := d]> h)) = occ a (links heads h) + ind a (next d).
Proof. intros Hn. unfold links. rewrite (map_to_list_insert h n d Hn). rewrite fmap_cons, !occ_app. simpl. lia. Qed.
Lemma occ_delete a heads h n d : h !! n = Some d -> occ a (links heads (delete n h)) = occ a (links heads h) - ind a (next d).
Proof.
  intros Hn. rewrite <- (insert_delete_id h n d Hn) at 2. rewrite occ_insert_new by apply lookup_delete_eq. lia.
Qed.
Lemma occ_update a heads h n d d' : h !! n = Some d ->
  occ a (links heads (<[n := d']> h)) = occ a (links heads h) - ind a (next d) + ind a (next d').
Proof.
  intros Hn. rewrite <- insert_delete_eq. rewrite occ_insert_new by apply lookup_delete_eq.
  rewrite (occ_delete _ _ _ _ _ Hn). lia.
Qed.

(** ** Paths *)

Fixpoint path (h : gmap Z TagData) (a : Z) (l : list Z) : Prop :=
  match l with
  | [] => a = 0
  | b :: rest => a = b /\ a <> 0 /\ exists d, h !! a = Some d /\ path h (next d) rest
  end.
(** A segment of the list from [a] through [l] to [e]. *)
Fixpoint segment (h : gmap Z TagData) (a : Z) (l : list Z) (e : Z) : Prop :=
  match l with
  | [] => a = e
  | b :: rest => a = b /\ a <> 0 /\ exists d, h !! a = Some d /\ segment h (next d) rest e
  end.
Definition tag_at (h : gmap Z TagData) (b : Z) : Z * list Z :=
  match h !! b with Some d => (tid d, data d) | None => (0, []) end.
(** The value of a list: its tags in order. *)
Definition value (h : gmap Z TagData) (l : list Z) : list (Z * list Z) := tag_at h <$> l.

Lemma path_app h a l1 l2 : path h a (l1 ++ l2) <-> exists e, segment h a l1 e /\ path h e l2.
Proof.
  revert a. induction l1 as [|b l1 IH]; intros a; simpl; [split; [intros; by exists a | by intros (e & -> & ?)] |].
  split.
  - intros (-> & H0 & d & Hd & (e & He & Hp)%IH). exists e. split; [| done]. split_and!; [done | done |]. by exists d.
  - intros (e & (-> & H0 & d & Hd & He) & Hp). split_and!; [done | done |]. exists d. split; [done |].
    apply IH. by exists e.
Qed.

Lemma segment_app h a l1 l2 e : segment h a (l1 ++ l2) e <-> exists b, segment h a l1 b /\ segment h b l2 e.
Proof.
  revert a. induction l1 as [|b l1 IH]; intros a; simpl; [split; [intros; by exists a | by intros (? & -> & ?)] |].
  split.
  - intros (-> & H0 & d & Hd & (c & He & Hp)%IH). exists c. split; [| done]. split_and!; [done | done |]. by exists d.
  - intros (c & (-> & H0 & d & Hd & He) & Hp). split_and!; [done | done |]. exists d. split; [done |].
    apply IH. by exists c.
Qed.

Lemma segment_node h a l e b : segment h a l e -> b ∈ l -> exists d, h !! b = Some d.
Proof.
  revert a. induction l as [|q l IH]; intros a Hs Hb; [by apply elem_of_nil in Hb |].
  destruct Hs as (-> & _ & d & Hd & Hs). apply elem_of_cons in Hb as [->|Hb]; [by exists d | by eapply IH].
Qed.

Lemma path_det h a l l' : path h a l -> path h a l' -> l = l'.
Proof.
  revert a l'. induction l as [|b l IH]; intros a [|b' l'] H H'; simpl in *; try done.
  - by destruct H' as (_ & ? & _).
  - by destruct H as (_ & ? & _).
  - destruct H as (<- & _ & d & Hd & H), H' as (<- & _ & d' & Hd' & H'). rewrite Hd in Hd'. injection Hd' as <-.
    f_equal. by eapply IH.
Qed.

(** Nodes that keep their tag and their successor. *)
Definition kept (h h' : gmap Z TagData) (b : Z) : Prop :=
  exists d d', h !! b = Some d /\ h' !! b = Some d' /\ next d' = next d /\ tid d' = tid d /\ data d' = data d.

Lemma path_frame h h' a l : path h a l -> (forall b, b ∈ l -> kept h h' b) -> path h' a l /\ value h' l = value h l.
Proof.
  revert a. induction l as [|b l IH]; intros a Hp Hk; [done |]. destruct Hp as (-> & H0 & d & Hd & Hp).
  destruct (Hk b ltac:(by left)) as (d1 & d2 & E1 & E2 & En & Et & Eb). rewrite Hd in E1. injection E1 as <-.
  destruct (IH (next d) Hp) as [Hp' Hv]; [intros c Hc; apply Hk; by right |]. split.
  - simpl. split_and!; [done | done |]. exists d2. split; [done |]. by rewrite En.
  - unfold value in *. rewrite !fmap_cons, Hv. f_equal. unfold tag_at. by rewrite Hd, E2, Et, Eb.
Qed.

Lemma segment_frame h h' a l e : segment h a l e -> (forall b, b ∈ l -> kept h h' b) -> segment h' a l e /\ value h' l = value h l.
Proof.
  revert a. induction l as [|b l IH]; intros a Hp Hk; [done |]. destruct Hp as (-> & H0 & d & Hd & Hp).
  destruct (Hk b ltac:(by left)) as (d1 & d2 & E1 & E2 & En & Et & Eb). rewrite Hd in E1. injection E1 as <-.
  destruct (IH (next d) Hp) as [Hp' Hv]; [intros c Hc; apply Hk; by right |]. split.
  - simpl. split_and!; [done | done |]. exists d2. split; [done |]. by rewrite En.
  - unfold value in *. rewrite !fmap_cons, Hv. f_equal. unfold tag_at. by rewrite Hd, E2, Et, Eb.
Qed.

(** ** Well-formed memories *)

Record wf (heads : list Z) (m : TagMem) : Prop := mkWf {
  w_null : heap m !! 0 = None;
  w_fresh : 0 < fresh_addr m /\ forall a d, heap m !! a = Some d -> a < fresh_addr m;
  w_rank : exists r : Z -> nat, forall a d, heap m !! a = Some d -> next d <> 0 -> (r (next d) < r a)%nat;
  w_count : forall a, a <> 0 -> occ a (links heads (heap m)) = match heap m !! a with Some d => count d | None => 0 end;
  w_pos : forall a d, heap m !! a = Some d -> 1 <= count d;
  w_data : forall a d, heap m !! a = Some d -> Z.of_nat (length (data d)) < 2 ^ 32 - 1
}.

Lemma occ_length a l : occ a l <= Z.of_nat (length l).
Proof. induction l as [|b l IH]; simpl; [lia |]. pose proof (ind_range a b). lia. Qed.

Section Wf.
Context (heads : list Z) (m : TagMem) (Hw : wf heads m).

Lemma link_node a d : heap m !! a = Some d -> next d ∈ links heads (heap m).
Proof.
  intros Hd. unfold links. apply elem_of_app. right. apply list_elem_of_fmap. exists (a, d). split; [done |].
  by apply elem_of_map_to_list.
Qed.

Lemma link_closed a : a <> 0 -> a ∈ links heads (heap m) -> is_Some (heap m !! a).
Proof.
  intros H0 Hin%occ_elem. rewrite (w_count _ _ Hw) in Hin by done. destruct (heap m !! a); [done | lia].
Qed.

Lemma paths_exist a : a = 0 \/ is_Some (heap m !! a) -> exists l, path (heap m) a l.
Proof.
  destruct (w_rank _ _ Hw) as [r Hr]. remember (r a) as n eqn:En. revert a En.
  induction (lt_wf n) as [n _ IH]. intros a En [->|[d Hd]]; [by exists [] |].
  assert (a <> 0) as H0 by (intros ->; by rewrite (w_null _ _ Hw) in Hd).
  assert (exists l, path (heap m) (next d) l) as [l Hl].
  { destruct (Z.eq_dec (next d) 0) as [->|Hn]; [by exists [] |].
    apply (IH (r (next d))); [rewrite En; by apply Hr | done |]. right. apply link_closed; [done |]. by eapply link_node. }
  exists (a :: l). split_and!; [done | done |]. by exists d.
Qed.

Lemma head_path a : a ∈ heads -> exists l, path (heap m) a l.
Proof.
  intros Ha. apply paths_exist. destruct (Z.eq_dec a 0) as [->|H0]; [by left |]. right. apply link_closed; [done |].
  unfold links. apply elem_of_app. by left.
Qed.

Lemma path_sub a l b : path (heap m) a l -> b ∈ l -> exists d, heap m !! b = Some d /\ b <> 0.
Proof.
  revert a. induction l as [|c l IH]; intros a Hp Hb; [by apply elem_of_nil in Hb |].
  destruct Hp as (-> & H0 & d & Hd & Hp). apply elem_of_cons in Hb as [->|Hb]; [by exists d | by eapply IH].
Qed.

Lemma path_NoDup a l : path (heap m) a l -> NoDup l.
Proof.
  destruct (w_rank _ _ Hw) as [r Hr].
  assert (forall l a b, path (heap m) a l -> b ∈ l -> (r b <= r a)%nat) as Hle.
  { clear a l. induction l as [|c l IH]; intros a b Hp Hb; [by apply elem_of_nil in Hb |].
    destruct Hp as (-> & H0 & d & Hd & Hp). apply elem_of_cons in Hb as [->|Hb]; [lia |].
    assert (next d <> 0) by (intros E; rewrite E in Hp; destruct l; [by apply elem_of_nil in Hb | by destruct Hp as (_ & ? & _)]).
    pose proof (IH _ _ Hp Hb). pose proof (Hr _ _ Hd ltac:(done)). lia. }
  revert a. induction l as [|c l IH]; intros a Hp; [by apply NoDup_nil |].
  destruct Hp as (-> & H0 & d & Hd & Hp). apply NoDup_cons. split; [| by eapply IH]. intros Hin.
  assert (next d <> 0) by (intros E; rewrite E in Hp; destruct l; [by apply elem_of_nil in Hin | by destruct Hp as (_ & ? & _)]).
  pose proof (Hle _ _ _ Hp Hin). pose proof (Hr _ _ Hd ltac:(done)). lia.
Qed.

Lemma path_length a l : path (heap m) a l -> (length l <= size (heap m))%nat.
Proof.
  intros Hp. pose proof (path_NoDup _ _ Hp) as Hn. rewrite <- size_dom. rewrite <- (size_list_to_set (C := gset Z)) by done.
  apply subseteq_size. intros b Hb. apply elem_of_list_to_set in Hb. apply elem_of_dom.
  destruct (path_sub _ _ _ Hp Hb) as (d & -> & _). done.
Qed.

End Wf.

(** ** Nodes of one list only *)

Section Own.
Context (h1 h2 : list Z) (x : Z) (m : TagMem) (Hw : wf (h1 ++ x :: h2) m).

(** The nodes [pre] of the list, each with a single link to it. *)
Definition single (h : gmap Z TagData) (pre : list Z) : Prop := forall b d, b ∈ pre -> h !! b = Some d -> count d = 1.

Lemma occ_nodes_two a b c d d' : heap m !! b = Some d -> heap m !! c = Some d' -> b <> c -> next d = a -> next d' = a ->
  2 <= occ a ((fun e => next e.2) <$> map_to_list (heap m)).
Proof.
  intros Hb Hc Hne E1 E2. rewrite <- (insert_delete_id (heap m) b d Hb).
  rewrite map_to_list_insert by apply lookup_delete_eq. rewrite fmap_cons. simpl. subst a. rewrite ind_refl.
  enough (1 <= occ (next d) ((fun e : Z * TagData => next e.2) <$> map_to_list (delete b (heap m)))) by lia.
  apply occ_elem, list_elem_of_fmap. exists (c, d'). split; [done |]. apply elem_of_map_to_list. by rewrite lookup_delete_ne.
Qed.

Lemma occ_node a b d : heap m !! b = Some d -> next d = a -> 1 <= occ a ((fun e => next e.2) <$> map_to_list (heap m)).
Proof.
  intros Hb <-. apply occ_elem, list_elem_of_fmap. exists (b, d). split; [done |]. by apply elem_of_map_to_list.
Qed.

Lemma segment_last h a pre b c : segment h a (pre ++ [b]) c -> exists d, h !! b = Some d /\ next d = c /\ b <> 0.
Proof. intros (e & _ & (-> & H0 & d & Hd & <-))%segment_app. by exists d. Qed.

Lemma single_exclusive pre cur y l b :
  segment (heap m) x pre cur -> single (heap m) pre -> y ∈ h1 ++ h2 -> path (heap m) y l -> b ∈ pre -> b ∉ l.
Proof.
  intros Hs H1 Hy Hp. revert cur Hs b. induction pre as [|p pre IH] using rev_ind; intros cur Hs b Hb; [by apply elem_of_nil in Hb |].
  apply segment_app in Hs as (c & Hs & (-> & Hp0 & d & Hd & <-)).
  assert (single (heap m) pre) as H1' by (intros c dc Hc; apply H1, elem_of_app; by left).
  apply elem_of_app in Hb as [Hb|Hb]; [by eapply IH |]. apply list_elem_of_singleton in Hb as ->.
  intros Hin. pose proof (H1 p d ltac:(apply elem_of_app; right; by left) Hd) as Hc1.
  pose proof (w_count _ _ Hw p Hp0) as Hocc. rewrite Hd, Hc1 in Hocc. unfold links in Hocc. rewrite occ_app, occ_app in Hocc. simpl in Hocc.
  pose proof (occ_nonneg p h1). pose proof (occ_nonneg p h2).
  pose proof (occ_nonneg p ((fun e => next e.2) <$> map_to_list (heap m))). pose proof (ind_range p x).
  (* the link of [pre] to [p] *)
  assert (pre = [] /\ x = p \/ exists q dq, q ∈ pre /\ heap m !! q = Some dq /\ next dq = p) as Hlink.
  { destruct pre as [|q0 pre0 _] using rev_ind; [by left |]. right. apply segment_last in Hs as (dq & ? & ? & _).
    exists q0, dq. split_and!; try done. apply elem_of_app. right. by left. }
  apply list_elem_of_split in Hin as (l1 & l2 & ->). destruct l1 as [|c1 l1 _] using rev_ind.
  - destruct Hp as (-> & _ & _). apply elem_of_app in Hy.
    assert (1 <= occ p h1 + occ p h2) by (destruct Hy as [Hy|Hy]; apply occ_elem in Hy; lia).
    destruct Hlink as [[_ ->]|(q & dq & _ & Hq & En)]; [rewrite ind_refl in Hocc; lia |].
    pose proof (occ_node p q dq Hq En). lia.
  - apply path_app in Hp as (e & Hse & He). apply segment_last in Hse as (dc & Hdc & En & _). simpl in He. destruct He as (-> & _).
    pose proof (occ_node p c1 dc Hdc En).
    destruct Hlink as [[_ ->]|(q & dq & Hq & Hdq & Enq)]; [rewrite ind_refl in Hocc; lia |].
    assert (q <> c1). { intros ->. apply (IH H1' _ Hs c1 Hq). rewrite <- app_assoc. apply elem_of_app. right. by left. }
    pose proof (occ_nodes_two p q c1 dq dc Hdq Hdc ltac:(done) Enq En). lia.
Qed.

End Own.

(** ** Writing a link *)

(** The link that leads past the nodes [pre]. *)
Definition link_of (pre : list Z) : Link := match last pre with None => LinkHead | Some p => LinkNext p end.

Lemma link_of_snoc pre p : link_of (pre ++ [p]) = LinkNext p.
Proof. unfold link_of. by rewrite last_snoc. Qed.

Definition same_but_next (h h' : gmap Z TagData) (b : Z) : Prop :=
  exists d d', h !! b = Some d /\ h' !! b = Some d' /\ count d' = count d /\ tid d' = tid d /\ data d' = data d.

Lemma relink h1 h2 x m pre cur v :
  segment (heap m) x pre cur -> NoDup pre -> cur <> 0 ->
  exists x' m', write_link (link_of pre) v x m = Some (x', m') /\ fresh_addr m' = fresh_addr m /\ size (heap m') = size (heap m) /\
    segment (heap m') x' pre v /\ value (heap m') pre = value (heap m) pre /\
    (forall b, b ∉ pre -> heap m' !! b = heap m !! b) /\ (forall b, b ∈ pre -> same_but_next (heap m) (heap m') b) /\
    (forall a, occ a (links (h1 ++ x' :: h2) (heap m')) = occ a (links (h1 ++ x :: h2) (heap m)) - ind a cur + ind a v) /\
    (forall r : Z -> nat, (forall a d, heap m !! a = Some d -> next d <> 0 -> (r (next d) < r a)%nat) ->
       (v <> 0 -> (r v <= r cur)%nat) ->
       (forall a d, heap m' !! a = Some d -> next d <> 0 -> (r (next d) < r a)%nat)).
Proof.
  intros Hs Hn Hc. destruct pre as [|p pre _] using rev_ind.
  - simpl in Hs. subst cur. exists v, m. split_and!; try done; [by intros ? ?%elem_of_nil |]. intros a. apply occ_heads.
  - rewrite link_of_snoc. apply segment_app in Hs as (c & Hs & (-> & Hp0 & d & Hd & Hcur)). simpl in Hcur. subst cur.
    apply NoDup_app in Hn as (Hn & Hd2 & _). cbn [write_link]. unfold modify, load.
    rewrite (proj2 (Z.eqb_neq p 0)), Hd by done. eexists x, _. split; [reflexivity |]. cbn [heap store fresh_addr].
    assert (p ∉ pre) as Hpp by (intros Hin; apply (Hd2 _ Hin); by left).
    destruct (segment_frame (heap m) (<[p := set_next v d]> (heap m)) x pre p Hs) as [Hs' Hv'].
    { intros b Hb. destruct (segment_node _ _ _ _ _ Hs Hb) as [db Hdb]. exists db, db. rewrite lookup_insert_ne by congruence. done. }
    split_and!; try done.
    + by rewrite map_size_insert, Hd.
    + apply segment_app. exists p. split; [done |]. split_and!; [done | done |]. exists (set_next v d).
      by rewrite lookup_insert_eq.
    + unfold value in *. rewrite !fmap_app, Hv'. simpl. do 2 f_equal. unfold tag_at. by rewrite lookup_insert_eq, Hd.
    + intros b Hb. rewrite lookup_insert_ne; [done |]. intros ->. apply Hb, elem_of_app. right. by left.
    + intros b Hb. destruct (decide (b = p)) as [->|Hne].
      * exists d, (set_next v d). by rewrite lookup_insert_eq.
      * apply elem_of_app in Hb as [Hb|Hb]; [| by apply list_elem_of_singleton in Hb].
        destruct (segment_node _ _ _ _ _ Hs Hb) as [db Hdb]. exists db, db. by rewrite lookup_insert_ne by congruence.
    + intros a. rewrite (occ_update a _ _ p d) by done. done.
    + intros r Hr Hv a d' Ha Hnz. destruct (decide (a = p)) as [->|Hne].
      * rewrite lookup_insert_eq in Ha. injection Ha as <-. simpl in *. specialize (Hv Hnz). specialize (Hr _ _ Hd Hc). lia.
      * rewrite lookup_insert_ne in Ha by done. eauto.
Qed.

(** All nodes but for the [next] of those in [pre]. *)
Lemma relink_view (h h' : gmap Z TagData) (pre : list Z) (c : Z) : (forall b, b ∉ pre -> h' !! b = h !! b) -> (forall b, b ∈ pre -> same_but_next h h' b) ->
  match h' !! c with
  | Some d' => exists d, h !! c = Some d /\ count d' = count d /\ tid d' = tid d /\ data d' = data d
  | None => h !! c = None
  end.
Proof.
  intros Ho Hp. destruct (decide (c ∈ pre)) as [Hin|Hout].
  - destruct (Hp c Hin) as (d & d' & E & -> & Hc & Ht & Hd). by exists d.
  - rewrite (Ho c Hout). destruct (h !! c) as [d|]; [by exists d | done].
Qed.

(** ** Values of lists *)

Definition rep (m : TagMem) (x : Z) (v : list (Z * list Z)) : Prop := exists l, path (heap m) x l /\ value (heap m) l = v.
Definition others_kept (hs : list Z) (m m' : TagMem) : Prop := forall y v, y ∈ hs -> rep m y v -> rep m' y v.
(** At most [2^32 - k] links, so that a count can grow by [k]. *)
Definition room (k : Z) (hs : list Z) (m : TagMem) : Prop := Z.of_nat (length hs) + Z.of_nat (size (heap m)) + k < 2 ^ 32.

Lemma node_nonzero hs m a d : wf hs m -> heap m !! a = Some d -> a <> 0.
Proof. intros Hw Hd ->. by rewrite (w_null _ _ Hw) in Hd. Qed.

Lemma count_room hs m k a d : wf hs m -> room k hs m -> heap m !! a = Some d -> 1 <= count d /\ count d + k < 2 ^ 32.
Proof.
  intros Hw Hr Hd. split; [by eapply w_pos |]. pose proof (w_count _ _ Hw a (node_nonzero _ _ _ _ Hw Hd)) as Hc. rewrite Hd in Hc.
  pose proof (occ_length a (links hs (heap m))) as Hl. unfold links in Hl. rewrite length_app, length_fmap, length_map_to_list in Hl.
  unfold room, links in *. lia.
Qed.

Lemma fresh_unlinked hs m : wf hs m -> heap m !! fresh_addr m = None /\ fresh_addr m ∉ links hs (heap m) /\ fresh_addr m <> 0.
Proof.
  intros Hw. destruct (w_fresh _ _ Hw) as [H0 Hf]. assert (heap m !! fresh_addr m = None) as Hn.
  { destruct (heap m !! fresh_addr m) eqn:E; [| done]. specialize (Hf _ _ E). lia. }
  split_and!; [done | | lia]. intros Hin. destruct (link_closed _ _ Hw (fresh_addr m)) as [d E]; [lia | done |]. congruence.
Qed.

Lemma modify_count F a d m : heap m !! a = Some d -> a <> 0 ->
  exists m', modify a (fun d => set_count (F d) d) m = Some m' /\ fresh_addr m' = fresh_addr m /\ size (heap m') = size (heap m) /\
    (forall hs b, occ b (links hs (heap m')) = occ b (links hs (heap m))) /\
    (forall b, heap m' !! b = if b =? a then Some (set_count (F d) d) else heap m !! b).
Proof.
  intros Hd H0. unfold modify, load. rewrite (proj2 (Z.eqb_neq a 0)), Hd by done. eexists. split; [reflexivity |]. cbn [store heap fresh_addr].
  split_and!; [done | | | ].
  - rewrite map_size_insert, Hd. done.
  - intros hs b. rewrite (occ_update b hs _ a d) by done. simpl. lia.
  - intros b. destruct (Z.eqb_spec b a) as [->|]; [by rewrite lookup_insert_eq | by rewrite lookup_insert_ne by congruence].
Qed.

(** A memory in which a list leads past [cur] to [nx], through a copy of [cur] when [k] is 1. *)
Lemma wf_past k hs hs' m m' cur nx d : 0 <= k <= 1 -> wf hs m -> heap m !! cur = Some d -> 1 < count d ->
  fresh_addr m' = fresh_addr m + k -> nx <> fresh_addr m ->
  (forall c, match heap m' !! c with
             | Some d' => k = 1 /\ c = fresh_addr m /\ count d' = 1 /\ Z.of_nat (length (data d')) < 2 ^ 32 - 1 \/
                 c <> fresh_addr m /\ exists dc, heap m !! c = Some dc /\ count d' = count dc - ind c cur + ind c nx /\ data d' = data dc
             | None => (c = fresh_addr m -> k = 0) /\ heap m !! c = None
             end) ->
  (forall a, occ a (links hs' (heap m')) = occ a (links hs (heap m)) + ind a nx - ind a cur + k * ind a (fresh_addr m)) ->
  (exists r : Z -> nat, forall a d, heap m' !! a = Some d -> next d <> 0 -> (r (next d) < r a)%nat) ->
  (nx <> 0 -> is_Some (heap m !! nx)) -> wf hs' m'.
Proof.
  intros Hk Hw Hd Hc HF Hnf View Hocc Hrank Hnx. destruct (fresh_unlinked _ _ Hw) as (Hf & Hnl & Hf0).
  destruct (w_fresh _ _ Hw) as [Hp Hlt]. constructor.
  - specialize (View 0). destruct (heap m' !! 0); [| done]. destruct View as [(_ & ? & _)|(_ & dc & E & _)]; [congruence |].
    by rewrite (w_null _ _ Hw) in E.
  - split; [lia |]. intros a da Ha. specialize (View a). rewrite Ha in View. destruct View as [(-> & -> & _)|(_ & dc & E & _)]; [lia |].
    specialize (Hlt _ _ E). lia.
  - done.
  - intros a Ha0. rewrite Hocc, (w_count _ _ Hw a Ha0). specialize (View a). destruct (heap m' !! a) as [d'|].
    + destruct View as [(-> & -> & -> & _)|(Hn & dc & -> & -> & _)].
      * rewrite Hf, ind_refl, !ind_ne; [lia | congruence | congruence].
      * rewrite (ind_ne a (fresh_addr m)) by done. lia.
    + destruct View as [Hn E]. rewrite E, (ind_ne a cur) by congruence.
      assert (k * ind a (fresh_addr m) = 0) as ->.
      { destruct (Z.eq_dec a (fresh_addr m)) as [->|]; [rewrite Hn by done; lia | rewrite ind_ne by done; lia]. }
      rewrite ind_ne; [lia |]. intros ->. destruct (Hnx Ha0). congruence.
  - intros a d' Ha. specialize (View a). rewrite Ha in View. destruct View as [(_ & _ & -> & _)|(Hn & dc & E & -> & _)]; [lia |].
    pose proof (w_pos _ _ Hw _ _ E). pose proof (ind_range a nx). destruct (Z.eq_dec a cur) as [->|]; [| rewrite (ind_ne a cur) by done; lia].
    rewrite ind_refl. assert (dc = d) as -> by congruence. lia.
  - intros a d' Ha. specialize (View a). rewrite Ha in View. destruct View as [(_ & _ & _ & ?)|(Hn & dc & E & _ & ->)]; [done |].
    by eapply w_data.
Qed.

Lemma frame_single h1 h2 x m pre cur m' : wf (h1 ++ x :: h2) m -> segment (heap m) x pre cur -> single (heap m) pre ->
  (forall b db, b ∉ pre -> heap m !! b = Some db -> kept (heap m) (heap m') b) -> others_kept (h1 ++ h2) m m'.
Proof.
  intros Hw Hs H1 Hk y v Hy (l & Hp & <-). exists l. apply path_frame; [done |]. intros b Hb.
  destruct (path_sub _ _ _ _ Hp Hb) as (db & Hdb & _). eapply Hk; [| done]. intros Hin. by eapply (single_exclusive h1 h2 x m Hw pre cur y l b).
Qed.

Section Step.
Context (h1 h2 : list Z) (x : Z) (m : TagMem) (Hw : wf (h1 ++ x :: h2) m).
Context (pre rest : list Z) (cur : Z) (d : TagData).
Context (Hs : segment (heap m) x pre cur) (H1 : single (heap m) pre) (Hd : heap m !! cur = Some d)
  (Hrest : path (heap m) (next d) rest).

Lemma here_nonzero : cur <> 0.
Proof. by eapply node_nonzero. Qed.
Lemma here_path : path (heap m) x (pre ++ cur :: rest).
Proof. apply path_app. exists cur. split; [done |]. split_and!; [done | apply here_nonzero |]. by exists d. Qed.
Lemma here_NoDup : NoDup pre /\ cur ∉ pre /\ cur ∉ rest /\ (forall b, b ∈ pre -> b ∉ rest) /\ next d <> cur.
Proof.
  pose proof (path_NoDup _ _ Hw _ _ here_path) as Hn. apply NoDup_app in Hn as (Hp & Hx & Hn). apply NoDup_cons in Hn as [Hc Hn].
  split_and!; try done.
  - intros Hin. apply (Hx _ Hin). by left.
  - intros b Hb Hin. apply (Hx _ Hb). by right.
  - intros E. rewrite E in Hrest. destruct rest as [|b r]; [by apply here_nonzero |]. destruct Hrest as (-> & _). apply Hc. by left.
Qed.

Lemma next_not_before : next d ∈ pre -> False.
Proof.
  intros Hin. destruct here_NoDup as (_ & _ & _ & Hx & _). destruct (segment_node _ _ _ _ _ Hs Hin) as [dn Hdn].
  apply (Hx _ Hin). destruct rest as [|b r]; [| destruct Hrest as (-> & _); by left].
  simpl in Hrest. rewrite Hrest, (w_null _ _ Hw) in Hdn. done.
Qed.

Lemma frame_others m' :
  (forall b db, b ∉ pre -> heap m !! b = Some db -> kept (heap m) (heap m') b) -> others_kept (h1 ++ h2) m m'.
Proof. by apply frame_single with (x := x) (cur := cur). Qed.

(** The same when [cur] is a node of this list only. *)
Lemma frame_others_cur m' : count d = 1 ->
  (forall b db, b ∉ pre -> b <> cur -> heap m !! b = Some db -> kept (heap m) (heap m') b) -> others_kept (h1 ++ h2) m m'.
Proof.
  intros Hc Hk. apply frame_single with (x := x) (pre := pre ++ [cur]) (cur := next d); [done | | |].
  - apply segment_app. exists cur. split; [done |]. split_and!; [done | apply here_nonzero |]. by exists d.
  - intros c dc [Hi|Hi]%elem_of_app Hdc; [by eapply H1 |]. apply list_elem_of_singleton in Hi as ->. congruence.
  - intros b db Hb. rewrite elem_of_app, list_elem_of_singleton in Hb. apply Hk; naive_solver.
Qed.

Lemma frame_rest m' :
  (forall b db, b ∉ pre -> b <> cur -> heap m !! b = Some db -> kept (heap m) (heap m') b) ->
  path (heap m') (next d) rest /\ value (heap m') rest = value (heap m) rest.
Proof.
  intros Hk. apply path_frame; [done |]. intros b Hb. destruct (path_sub _ _ _ _ Hrest Hb) as (db & Hdb & _).
  destruct here_NoDup as (_ & _ & Hc & Hx & _). eapply Hk; [| | done]; [intros Hin; by apply (Hx b) | congruence].
Qed.

(** The count of [cur] moves to its successor. *)
Definition adj (b : Z) (db : TagData) : TagData := set_count (count db - ind b cur + ind b (next d)) db.

Lemma kept_adj h' b db : heap m !! b = Some db -> h' !! b = adj b <$> heap m !! b -> kept (heap m) h' b.
Proof. intros Hb E. rewrite Hb in E. simpl in E. by exists db, (adj b db). Qed.

Context (Hroom : room 1 (h1 ++ x :: h2) m).

(** [next->count++], when there is a next. *)
Definition inc_next (m0 : TagMem) : option TagMem :=
  if negb (next d =? 0) then modify (next d) (fun d => set_count (u32 (count d + 1)) d) m0 else Some m0.

Lemma next_node : next d <> 0 -> exists dn, heap m !! next d = Some dn /\ 1 <= count dn /\ u32 (count dn + 1) = count dn + 1.
Proof.
  intros Hn. destruct (link_closed _ _ Hw (next d) Hn (link_node _ _ _ _ Hd)) as [dn E]. exists dn.
  destruct (count_room _ _ _ _ _ Hw Hroom E) as [? ?]. split_and!; [done | done |]. apply Z.mod_small. lia.
Qed.

Lemma dec_cur : 1 < count d -> u32 (count d - 1) = count d - 1.
Proof. intros. destruct (count_room _ _ _ _ _ Hw Hroom Hd). apply Z.mod_small. lia. Qed.

Lemma unshare_mem t b : 1 < count d -> Z.of_nat (length b) < 2 ^ 32 - 1 ->
  exists m0 m1 m2, modify cur (fun d => set_count (u32 (count d - 1)) d) m = Some m0 /\
    CreateTagData (mkTag (next d) 1 t b) m0 = Some (fresh_addr m, m1) /\ inc_next m1 = Some m2 /\
    fresh_addr m2 = fresh_addr m + 1 /\ size (heap m2) = S (size (heap m)) /\
    (forall hs a, occ a (links hs (heap m2)) = occ a (links hs (heap m)) + ind a (next d)) /\
    heap m2 !! fresh_addr m = Some (mkTag (next d) 1 t b) /\
    (forall c, c <> fresh_addr m -> heap m2 !! c = adj c <$> heap m !! c).
Proof.
  intros Hc Hb. pose proof here_nonzero as H0. destruct here_NoDup as (_ & _ & _ & _ & Hne).
  destruct (modify_count (fun d => u32 (count d - 1)) cur d m Hd H0) as (m0 & E0 & F0 & S0 & O0 & P0).
  destruct (fresh_unlinked _ _ Hw) as (Hf & Hnl & Hf0). exists m0. unfold CreateTagData. simpl (data _).
  rewrite (proj2 (Z.ltb_lt _ _) Hb), F0. cbn [NS_ASSERT].
  set (m1 := mkTagMem _ _). exists m1.
  assert (heap m0 !! fresh_addr m = None) as Hf1. { rewrite P0. destruct (Z.eqb_spec (fresh_addr m) cur) as [E|]; [congruence | done]. }
  assert (size (heap m1) = S (size (heap m))) as S1. { simpl. rewrite map_size_insert, Hf1. simpl. by rewrite S0. }
  assert (forall hs a, occ a (links hs (heap m1)) = occ a (links hs (heap m)) + ind a (next d)) as O1.
  { intros. simpl. rewrite occ_insert_new by done. by rewrite O0. }
  assert (next d <> fresh_addr m) as Hnf. { intros E. apply Hnl. rewrite <- E. by eapply link_node. }
  assert (forall c, c <> fresh_addr m -> heap m1 !! c = (fun dc => set_count (count dc - ind c cur) dc) <$> heap m !! c) as P1.
  { intros c Hcn. simpl. rewrite lookup_insert_ne by congruence. rewrite P0. destruct (Z.eqb_spec c cur) as [->|Hcc].
    - rewrite Hd. simpl. rewrite ind_refl. by rewrite dec_cur.
    - destruct (heap m !! c) as [[]|]; [| done]. simpl. rewrite ind_ne by done. by rewrite Z.sub_0_r. }
  unfold inc_next. destruct (Z.eqb_spec (next d) 0) as [En|En]; simpl negb.
  - exists m1. split_and!; try done; [apply lookup_insert_eq |]. intros c Hcn. rewrite P1 by done.
    destruct (heap m !! c) as [dc|] eqn:Edc; [| done]. simpl. unfold adj. rewrite En.
    rewrite (ind_ne c 0) by (by eapply node_nonzero). by rewrite Z.add_0_r.
  - destruct (next_node En) as (dn & Edn & _ & Hu).
    assert (heap m1 !! next d = Some dn) as Hdn1.
    { rewrite P1, Edn by done. simpl. rewrite ind_ne by done. rewrite Z.sub_0_r. by destruct dn. }
    destruct (modify_count (fun d => u32 (count d + 1)) (next d) dn m1 Hdn1 En) as (m2 & E2 & F2 & S2 & O2 & P2).
    exists m2. split_and!; try done; [by rewrite S2 | intros; by rewrite O2 | |].
    + rewrite P2. destruct (Z.eqb_spec (fresh_addr m) (next d)); [congruence |]. apply lookup_insert_eq.
    + intros c Hcn. rewrite P2. unfold adj. destruct (Z.eqb_spec c (next d)) as [->|Hcc].
      * rewrite Edn. simpl. rewrite ind_refl, ind_ne, Hu by done. do 2 f_equal. lia.
      * rewrite P1 by done. destruct (heap m !! c) as [dc|]; [| done]. simpl. rewrite (ind_ne c (next d)) by done. by rewrite Z.add_0_r.
Qed.

(** Copying the node [cur] of the list, with new contents [b] of type [t]. *)
Lemma unshare_ok t b : 1 < count d -> Z.of_nat (length b) < 2 ^ 32 - 1 ->
  exists m0 m1 m2 n x' m', modify cur (fun d => set_count (u32 (count d - 1)) d) m = Some m0 /\
    CreateTagData (mkTag (next d) 1 t b) m0 = Some (n, m1) /\ inc_next m1 = Some m2 /\
    write_link (link_of pre) n x m2 = Some (x', m') /\
    wf (h1 ++ x' :: h2) m' /\ size (heap m') = S (size (heap m)) /\ others_kept (h1 ++ h2) m m' /\
    segment (heap m') x' (pre ++ [n]) (next d) /\ single (heap m') (pre ++ [n]) /\
    value (heap m') (pre ++ [n]) = value (heap m) pre ++ [(t, b)] /\
    path (heap m') (next d) rest /\ value (heap m') rest = value (heap m) rest /\
    (forall dn, heap m' !! next d = Some dn -> next d <> 0 -> 1 < count dn).
Proof.
  intros Hc Hb. pose proof here_nonzero as H0. destruct here_NoDup as (Hnp & Hcp & Hcr & Hpr & Hne).
  destruct (unshare_mem t b Hc Hb) as (m0 & m1 & m2 & E0 & E1 & E2 & F2 & S2 & O2 & Hn2 & P2).
  destruct (fresh_unlinked _ _ Hw) as (Hf & Hnl & Hf0). set (n := fresh_addr m) in *.
  assert (forall c, c ∈ pre -> c <> n) as Hpn. { intros c Hin ->. destruct (segment_node _ _ _ _ _ Hs Hin). congruence. }
  assert (forall c dc, heap m !! c = Some dc -> c <> n) as Hmn by congruence.
  assert (forall c dc, heap m !! c = Some dc -> kept (heap m) (heap m2) c) as K2.
  { intros c dc Hdc. eapply kept_adj; [done |]. apply P2. by eapply Hmn. }
  destruct (segment_frame _ (heap m2) _ _ _ Hs) as [Hs2 Hv2].
  { intros c Hin. destruct (segment_node _ _ _ _ _ Hs Hin) as [dc Hdc]. by eapply K2. }
  destruct (relink h1 h2 x m2 pre cur n Hs2 Hnp H0) as (x' & m' & E' & F' & S' & Hs' & Hv' & Ho & Hsb & Hocc & Hrank).
  pose proof (fun c => relink_view _ _ _ c Ho Hsb) as View.
  assert (n ∉ pre) as Hnn by (intros Hin; by apply (Hpn n)).
  assert (forall c dc, c ∉ pre -> heap m !! c = Some dc -> kept (heap m) (heap m') c) as K'.
  { intros c dc Hout Hdc. destruct (K2 c dc Hdc) as (d1 & d2 & ? & ? & ?). exists d1, d2. by rewrite Ho. }
  exists m0, m1, m2, n, x', m'. do 4 (split; [done |]). split; [| split; [congruence |]]; [| split].
  - eapply (wf_past 1 _ _ m m' cur (next d) d); try done; [by rewrite F' | by intros E; apply Hnl; unfold n; rewrite <- E; eapply link_node | | | | by intros Hz; destruct (next_node Hz) as (dn & -> & _)].
    + intros c. specialize (View c). destruct (heap m' !! c) as [dc'|].
      * destruct View as (dc2 & Hdc2 & Ec & _ & Eb). destruct (decide (c = n)) as [->|Hcn].
        -- left. rewrite Hn2 in Hdc2. injection Hdc2 as <-. rewrite Ec, Eb. done.
        -- right. rewrite P2 in Hdc2 by done. destruct (heap m !! c) as [dc|]; [| done]. injection Hdc2 as <-. split; [done |].
           exists dc. rewrite Ec, Eb. done.
      * destruct (decide (c = n)) as [->|Hcn]; [by rewrite Hn2 in View |]. rewrite P2 in View by done.
        by destruct (heap m !! c).
    + intros a. rewrite Hocc, O2. fold n. lia.
    + destruct (w_rank _ _ Hw) as [r Hr]. exists (fun c => if c =? n then r cur else r c).
      apply (Hrank (fun c => if c =? n then r cur else r c)).
      * intros a da Ha Hnz. destruct (Z.eqb_spec a n) as [->|Han].
        -- rewrite Hn2 in Ha. injection Ha as <-. simpl in *. destruct (Z.eqb_spec (next d) n) as [E|_]; [| by apply Hr].
           exfalso. apply Hnl. rewrite <- E. by eapply link_node.
        -- rewrite P2 in Ha by done. destruct (heap m !! a) as [da0|] eqn:Ea; [| done]. injection Ha as <-. simpl in *.
           destruct (Z.eqb_spec (next da0) n) as [E|_]; [| by apply Hr]. exfalso. apply Hnl. rewrite <- E. by eapply link_node.
      * intros _. rewrite Z.eqb_refl. destruct (Z.eqb_spec cur n) as [->|]; [congruence | lia].
  - eapply frame_others. apply K'.
  - assert (heap m' !! n = Some (mkTag (next d) 1 t b)) as Hn' by (by rewrite Ho).
    destruct (frame_rest m') as [Hr' Hrv']; [intros c dc Hout _ Hdc; by eapply K' |].
    split_and!; try done.
    + apply segment_app. exists n. split; [done |]. split_and!; [done | done |]. by exists (mkTag (next d) 1 t b).
    + intros c dc [Hin|Hin]%elem_of_app Hdc; [| apply list_elem_of_singleton in Hin as ->; by rewrite Hn' in Hdc; injection Hdc as <-].
      destruct (segment_node _ _ _ _ _ Hs Hin) as [dc0 Hdc0]. specialize (View c). rewrite Hdc in View.
      destruct View as (d2 & E & -> & _). rewrite P2, Hdc0 in E by (by apply Hpn). injection E as <-. simpl.
      rewrite (H1 _ _ Hin Hdc0), !ind_ne; [done | | congruence]. intros ->. apply (next_not_before Hin).
    + unfold value in *. rewrite !fmap_app, Hv', Hv2. do 2 f_equal. simpl. unfold tag_at. by rewrite Hn'.
    + intros dn Hdn Hz. destruct (next_node Hz) as (dn0 & E & Hge & _).
      rewrite Ho, P2, E in Hdn by (done || (intros Hin; by apply (next_not_before Hin)) || (by eapply Hmn)).
      injection Hdn as <-. simpl. rewrite ind_refl, ind_ne by done. lia.
Qed.


Lemma bump m0 : heap m0 !! cur = Some d -> (next d <> 0 -> heap m0 !! next d = heap m !! next d) -> heap m0 !! 0 = None -> 1 < count d ->
  exists m1 m2, modify cur (fun d => set_count (u32 (count d - 1)) d) m0 = Some m1 /\ inc_next m1 = Some m2 /\
    fresh_addr m2 = fresh_addr m0 /\ size (heap m2) = size (heap m0) /\
    (forall hs a, occ a (links hs (heap m2)) = occ a (links hs (heap m0))) /\
    (forall c, heap m2 !! c = adj c <$> heap m0 !! c).
Proof.
  intros Hd0 Hn0 H00 Hc. pose proof here_nonzero as H0. destruct here_NoDup as (_ & _ & _ & _ & Hne).
  destruct (modify_count (fun d => u32 (count d - 1)) cur d m0 Hd0 H0) as (m1 & E1 & F1 & S1 & O1 & P1). exists m1.
  assert (forall c, heap m1 !! c = (fun dc => set_count (count dc - ind c cur) dc) <$> heap m0 !! c) as Q1.
  { intros c. rewrite P1. destruct (Z.eqb_spec c cur) as [->|Hcc].
    - rewrite Hd0. simpl. rewrite ind_refl. by rewrite dec_cur.
    - destruct (heap m0 !! c) as [[]|]; [| done]. simpl. rewrite ind_ne by done. by rewrite Z.sub_0_r. }
  unfold inc_next. destruct (Z.eqb_spec (next d) 0) as [En|En]; simpl negb.
  - exists m1. split_and!; try done. intros c. rewrite Q1. destruct (heap m0 !! c) as [dc|] eqn:Edc; [| done]. simpl. unfold adj.
    rewrite En, (ind_ne c 0) by congruence. by rewrite Z.add_0_r.
  - destruct (next_node En) as (dn & Edn & _ & Hu).
    assert (heap m1 !! next d = Some dn) as Hdn1.
    { rewrite Q1, Hn0, Edn by done. simpl. rewrite ind_ne by done. rewrite Z.sub_0_r. by destruct dn. }
    destruct (modify_count (fun d => u32 (count d + 1)) (next d) dn m1 Hdn1 En) as (m2 & E2 & F2 & S2 & O2 & P2).
    exists m2. split_and!; try done; [congruence | congruence | intros; by rewrite O2, O1 |].
    intros c. rewrite P2. unfold adj. destruct (Z.eqb_spec c (next d)) as [->|Hcc].
    + rewrite Hn0, Edn by done. simpl. rewrite ind_refl, ind_ne, Hu by done. do 2 f_equal. lia.
    + rewrite Q1. destruct (heap m0 !! c) as [dc|]; [| done]. simpl. rewrite (ind_ne c (next d)) by done. by rewrite Z.add_0_r.
Qed.

(** Leading past the shared node [cur]. *)
Lemma skip_ok : 1 < count d ->
  exists x' m0 m1 m', write_link (link_of pre) (next d) x m = Some (x', m0) /\
    modify cur (fun d => set_count (u32 (count d - 1)) d) m0 = Some m1 /\ inc_next m1 = Some m' /\
    wf (h1 ++ x' :: h2) m' /\ size (heap m') = size (heap m) /\ others_kept (h1 ++ h2) m m' /\ rep m' x' (value (heap m) pre ++ value (heap m) rest).
Proof.
  intros Hc. pose proof here_nonzero as H0. destruct here_NoDup as (Hnp & Hcp & Hcr & Hpr & Hne).
  destruct (fresh_unlinked _ _ Hw) as (Hf & Hnl & Hf0).
  destruct (relink h1 h2 x m pre cur (next d) Hs Hnp H0) as (x' & m0 & E0 & F0 & S0 & Hs0 & Hv0 & Ho & Hsb & Hocc & Hrank).
  assert (0 ∉ pre) as Hz0. { intros Hin. destruct (segment_node _ _ _ _ _ Hs Hin). by rewrite (w_null _ _ Hw) in *. }
  destruct (bump m0) as (m1 & m' & E1 & E' & F' & S' & O' & P'); [by rewrite Ho | | by rewrite Ho, (w_null _ _ Hw) | done |].
  { intros _. apply Ho. intros Hin. by apply next_not_before. }
  pose proof (fun c => relink_view _ _ _ c Ho Hsb) as View.
  assert (forall c dc, c ∉ pre -> heap m !! c = Some dc -> kept (heap m) (heap m') c) as K'.
  { intros c dc Hout Hdc. exists dc, (adj c dc). rewrite P', Ho, Hdc by done. done. }
  exists x', m0, m1, m'. split_and!; try done; [| congruence | by apply frame_others |].
  - eapply (wf_past 0 _ _ m m' cur (next d) d); try done; [rewrite F', F0; lia | by intros E; apply Hnl; rewrite <- E; eapply link_node | | | | by intros Hz; destruct (next_node Hz) as (dn & -> & _)].
    + intros c. specialize (View c). rewrite P'. destruct (heap m0 !! c) as [dc'|]; simpl.
      * destruct View as (dc & Hdc & Ec & _ & Eb). right. split; [congruence |]. exists dc. by rewrite Ec.
      * done.
    + intros a. rewrite O', Hocc. lia.
    + destruct (w_rank _ _ Hw) as [r Hr]. exists r. intros a da Ha Hz. rewrite P' in Ha.
      destruct (heap m0 !! a) as [da0|] eqn:Ea; [| done]. injection Ha as <-. simpl in *.
      apply (Hrank r Hr) with (d := da0); [| done | done]. intros Hz'. specialize (Hr _ _ Hd Hz'). lia.
  - destruct (frame_rest m') as [Hr' Hrv']; [intros c dc Hout _ Hdc; by eapply K' |].
    destruct (segment_frame _ (heap m') _ _ _ Hs0) as [Hs' Hv'].
    { intros c Hin. destruct (segment_node _ _ _ _ _ Hs0 Hin) as [dc Hdc]. exists dc, (adj c dc). by rewrite P', Hdc. }
    exists (pre ++ rest). split; [apply path_app; by exists (next d) |].
    unfold value in *. by rewrite fmap_app, Hrv', Hv', Hv0.
Qed.

(** Leading past the only link to [cur] and freeing it. *)
Lemma drop_ok : count d = 1 ->
  exists x' m0, write_link (link_of pre) (next d) x m = Some (x', m0) /\
    wf (h1 ++ x' :: h2) (free cur m0) /\ (size (heap (free cur m0)) <= size (heap m))%nat /\ others_kept (h1 ++ h2) m (free cur m0) /\
    rep (free cur m0) x' (value (heap m) pre ++ value (heap m) rest).
Proof.
  intros Hc. pose proof here_nonzero as H0. destruct here_NoDup as (Hnp & Hcp & Hcr & Hpr & Hne).
  destruct (relink h1 h2 x m pre cur (next d) Hs Hnp H0) as (x' & m0 & E0 & F0 & S0 & Hs0 & Hv0 & Ho & Hsb & Hocc & Hrank).
  pose proof (fun c => relink_view _ _ _ c Ho Hsb) as View.
  assert (heap m0 !! cur = Some d) as Hd0 by (by rewrite Ho).
  assert (forall c, c <> cur -> heap (free cur m0) !! c = heap m0 !! c) as P' by (intros; by apply lookup_delete_ne).
  assert (forall c dc, c ∉ pre -> c <> cur -> heap m !! c = Some dc -> kept (heap m) (heap (free cur m0)) c) as K'.
  { intros c dc Hout Hcc Hdc. exists dc, dc. rewrite P', Ho by done. done. }
  assert (forall c dc, heap (free cur m0) !! c = Some dc -> exists dc0, c <> cur /\ heap m0 !! c = Some dc /\
    heap m !! c = Some dc0 /\ count dc = count dc0 /\ data dc = data dc0) as V'.
  { intros c dc Hc0. apply (lookup_delete_Some (heap m0)) in Hc0 as [Hcc Hdc]. specialize (View c). rewrite Hdc in View. destruct View as (dc0 & ? & ? & _ & ?). by exists dc0. }
  exists x', m0. split_and!; [done | | | |].
  - constructor.
    + destruct (heap (free cur m0) !! 0) as [dz|] eqn:Ez; [| done]. destruct (V' _ _ Ez) as (? & _ & _ & E & _).
      by rewrite (w_null _ _ Hw) in E.
    + simpl. rewrite F0. destruct (w_fresh _ _ Hw) as [? Hlt]. split; [done |]. intros a da Ha. destruct (V' _ _ Ha) as (? & _ & _ & E & _). by eapply Hlt.
    + destruct (w_rank _ _ Hw) as [r Hr]. exists r. intros a da Ha Hz. destruct (V' _ _ Ha) as (? & _ & E & _).
      apply (Hrank r Hr) with (d := da); [| done | done]. intros Hz'. specialize (Hr _ _ Hd Hz'). lia.
    + intros a Ha. simpl heap. rewrite (occ_delete a _ _ cur d Hd0), Hocc, (w_count _ _ Hw a Ha).
      destruct (Z.eq_dec a cur) as [->|Hac]; [rewrite lookup_delete_eq, Hd, ind_refl; lia |].
      rewrite lookup_delete_ne, (ind_ne a cur) by done. specialize (View a).
      destruct (heap m0 !! a); [destruct View as (? & -> & -> & _); lia | rewrite View; lia].
    + intros a da Ha. destruct (V' _ _ Ha) as (da0 & _ & _ & E & -> & _). by eapply w_pos.
    + intros a da Ha. destruct (V' _ _ Ha) as (da0 & _ & _ & E & _ & ->). by eapply w_data.
  - simpl. rewrite map_size_delete, Hd0, S0. simpl. lia.
  - by apply frame_others_cur.
  - destruct (frame_rest (free cur m0)) as [Hr' Hrv']; [intros c dc Hout Hcc Hdc; by eapply K' |].
    destruct (segment_frame _ (heap (free cur m0)) _ _ _ Hs0) as [Hs' Hv'].
    { intros c Hin. destruct (segment_node _ _ _ _ _ Hs0 Hin) as [dc Hdc]. exists dc, dc. rewrite P', Hdc by congruence. done. }
    exists (pre ++ rest). split; [apply path_app; by exists (next d) |].
    unfold value in *. by rewrite fmap_app, Hrv', Hv', Hv0.
Qed.

(** Rewriting the contents of a node of this list only. *)
Lemma rewrite_ok b : count d = 1 -> length b = length (data d) ->
  exists m', modify cur (set_data b) m = Some m' /\ wf (h1 ++ x :: h2) m' /\ size (heap m') = size (heap m) /\
    others_kept (h1 ++ h2) m m' /\ rep m' x (value (heap m) pre ++ (tid d, b) :: value (heap m) rest).
Proof.
  intros Hc Hb. pose proof here_nonzero as H0. destruct here_NoDup as (Hnp & Hcp & Hcr & Hpr & Hne).
  unfold modify, load. rewrite (proj2 (Z.eqb_neq cur 0)), Hd by done. eexists. split; [reflexivity |].
  assert (forall c, heap (store cur (set_data b d) m) !! c = if c =? cur then Some (set_data b d) else heap m !! c) as P'.
  { intros c. simpl. destruct (Z.eqb_spec c cur) as [->|]; [apply lookup_insert_eq | by apply lookup_insert_ne]. }
  assert (forall c dc, c <> cur -> heap m !! c = Some dc -> kept (heap m) (heap (store cur (set_data b d) m)) c) as K'.
  { intros c dc Hcc Hdc. exists dc, dc. rewrite P', (proj2 (Z.eqb_neq c cur)) by done. done. }
  split_and!.
  - destruct Hw as [W0 [Wf Wlt] [r Wr] Wc Wp Wd]. constructor.
    + rewrite P', (proj2 (Z.eqb_neq 0 cur)) by congruence. done.
    + split; [done |]. intros a da Ha. rewrite P' in Ha. destruct (Z.eqb_spec a cur) as [->|]; by eapply Wlt.
    + exists r. intros a da Ha Hz. rewrite P' in Ha. destruct (Z.eqb_spec a cur) as [->|]; [injection Ha as <-; exact (Wr _ _ Hd Hz) | by eapply Wr].
    + intros a Ha. rewrite P'. simpl. rewrite (occ_update a _ _ cur d), Wc by done. simpl.
      destruct (Z.eqb_spec a cur) as [->|]; [rewrite Hd; simpl; lia | lia].
    + intros a da Ha. rewrite P' in Ha. destruct (Z.eqb_spec a cur) as [->|]; [injection Ha as <-; exact (Wp _ _ Hd) | by eapply Wp].
    + intros a da Ha. rewrite P' in Ha. destruct (Z.eqb_spec a cur) as [->|]; [injection Ha as <-; simpl; rewrite Hb; exact (Wd _ _ Hd) | by eapply Wd].
  - simpl. by rewrite map_size_insert, Hd.
  - apply frame_others_cur; [done |]. intros; by eapply K'.
  - destruct (frame_rest (store cur (set_data b d) m)) as [Hr' Hrv']; [intros c dc _ Hcc Hdc; by eapply K' |].
    destruct (segment_frame _ (heap (store cur (set_data b d) m)) _ _ _ Hs) as [Hs' Hv'].
    { intros c Hin. destruct (segment_node _ _ _ _ _ Hs Hin) as [dc Hdc]. eapply K'; [congruence | done]. }
    exists (pre ++ cur :: rest). split.
    + apply path_app. exists cur. split; [done |]. split_and!; [done | done |]. exists (set_data b d). by rewrite P', Z.eqb_refl.
    + unfold value in *. rewrite fmap_app, fmap_cons, Hrv', Hv'. do 2 f_equal. unfold tag_at. by rewrite P', Z.eqb_refl.
Qed.

End Step.

(** ** Lists of tags *)

Fixpoint tag_get (t : Z) (v : list (Z * list Z)) : option (list Z) :=
  match v with [] => None | (t', b) :: r => if t' =? t then Some b else tag_get t r end.
(** The first tag of type [t] replaced by [new]. *)
Fixpoint tag_upd (t : Z) (new : list (Z * list Z)) (v : list (Z * list Z)) : list (Z * list Z) :=
  match v with [] => [] | (t', b) :: r => if t' =? t then new ++ r else (t', b) :: tag_upd t new r end.

Lemma tag_split t b new v w : tag_get t v = None ->
  tag_get t (v ++ (t, b) :: w) = Some b /\ tag_upd t new (v ++ (t, b) :: w) = v ++ new ++ w.
Proof.
  induction v as [|[t' b'] v IH]; simpl; [by rewrite Z.eqb_refl |]. destruct (t' =? t); [done |]. intros H.
  destruct (IH H) as (-> & ->). done.
Qed.
Lemma tag_absent t new v : tag_get t v = None -> tag_upd t new v = v.
Proof. induction v as [|[t' b'] v IH]; simpl; [done |]. destruct (t' =? t); [done |]. intros ->%IH. done. Qed.
Lemma tag_get_app t v w : tag_get t v = None -> tag_get t (v ++ w) = tag_get t w.
Proof. induction v as [|[t' b'] v IH]; simpl; [done |]. by destruct (t' =? t). Qed.

(** ** The loops *)

Lemma value_cons h a l d : h !! a = Some d -> value h (a :: l) = (tid d, data d) :: value h l.
Proof. intros Hd. unfold value. rewrite fmap_cons. f_equal. unfold tag_at. by rewrite Hd. Qed.

Lemma value_app h l1 l2 : value h (l1 ++ l2) = value h l1 ++ value h l2.
Proof. apply fmap_app. Qed.

Lemma load_node a d m : heap m !! a = Some d -> a <> 0 -> load a m = Some d.
Proof. intros Hd H0. unfold load. by rewrite (proj2 (Z.eqb_neq a 0)). Qed.

Lemma peek_loop_ok fuel t a l m : path (heap m) a l -> (length l <= fuel)%nat -> peek_loop fuel t a m = Some (tag_get t (value (heap m) l)).
Proof.
  revert a l. induction fuel as [|fuel IH]; intros a [|b l] Hp Hf; simpl in Hf; try lia.
  - by rewrite Hp.
  - by rewrite Hp.
  - destruct Hp as (-> & H0 & d & Hd & Hp). cbn [peek_loop]. rewrite (proj2 (Z.eqb_neq b 0)), (load_node _ _ _ Hd H0) by done.
    rewrite (value_cons _ _ _ _ Hd). cbn [tag_get]. destruct (tid d =? t); [done |]. apply IH; [done | lia].
Qed.

Lemma has_tag_ok fuel t a l m : path (heap m) a l -> (length l <= fuel)%nat ->
  has_tag fuel t a m = Some (bool_decide (is_Some (tag_get t (value (heap m) l)))).
Proof.
  revert a l. induction fuel as [|fuel IH]; intros a [|b l] Hp Hf; simpl in Hf; try lia.
  - by rewrite Hp.
  - by rewrite Hp.
  - destruct Hp as (-> & H0 & d & Hd & Hp). cbn [has_tag]. rewrite (proj2 (Z.eqb_neq b 0)), (load_node _ _ _ Hd H0) by done.
    rewrite (value_cons _ _ _ _ Hd). cbn [tag_get]. destruct (tid d =? t); [done |]. apply IH; [done | lia].
Qed.

(** The list is split at a node: the nodes before it are of this list only and
    have other types. *)
Record at_node (t x : Z) (m : TagMem) (pre : list Z) (cur : Z) (d : TagData) (rest : list Z) : Prop := mkAt {
  at_segment : segment (heap m) x pre cur;
  at_single : single (heap m) pre;
  at_cur : heap m !! cur = Some d;
  at_rest : path (heap m) (next d) rest;
  at_before : tag_get t (value (heap m) pre) = None
}.

Lemma head_loop_ok fuel t x pre a l m :
  segment (heap m) x pre a -> single (heap m) pre -> tag_get t (value (heap m) pre) = None ->
  path (heap m) a l -> (length l <= fuel)%nat -> (forall b d, heap m !! b = Some d -> 1 <= count d) ->
  exists f, head_loop fuel t (link_of pre) a m = Some f /\
    match f with
    | AtEnd => tag_get t (value (heap m) (pre ++ l)) = None
    | AtTag link cur => exists p d rest, link = link_of p /\ at_node t x m p cur d rest /\ pre ++ l = p ++ cur :: rest /\ count d = 1 /\ tid d = t
    | AtMerge link cur => exists p d rest, link = link_of p /\ at_node t x m p cur d rest /\ pre ++ l = p ++ cur :: rest /\ 1 < count d
    end.
Proof.
  intros Hs H1 Hb Hp Hf Hpos. revert pre a l Hs H1 Hb Hp Hf. induction fuel as [|fuel IH]; intros pre a [|b l] Hs H1 Hb Hp Hf; simpl in Hf; try lia.
  - simpl in Hp. subst a. exists AtEnd. rewrite app_nil_r. done.
  - simpl in Hp. subst a. exists AtEnd. rewrite app_nil_r. done.
  - destruct Hp as (-> & H0 & d & Hd & Hp). cbn [head_loop]. rewrite (proj2 (Z.eqb_neq b 0)), (load_node _ _ _ Hd H0) by done.
    pose proof (Hpos _ _ Hd). destruct (Z.ltb_spec 1 (count d)) as [Hc|Hc].
    { eexists. split; [reflexivity |]. by exists pre, d, l. }
    destruct (Z.eqb_spec (tid d) t) as [Ht|Ht].
    { eexists. split; [reflexivity |]. exists pre, d, l. split_and!; try done. lia. }
    destruct (IH (pre ++ [b]) (next d) l) as (f & E & Hf'); try done; [| | | lia |].
    + apply segment_app. exists b. split; [done |]. split_and!; [done | done |]. by exists d.
    + intros c dc [Hi|Hi]%elem_of_app Hdc; [by eapply H1 |]. apply list_elem_of_singleton in Hi as ->.
      rewrite Hd in Hdc. injection Hdc as <-. lia.
    + unfold value. rewrite fmap_app, tag_get_app by done. change (tag_at (heap m) <$> [b]) with (value (heap m) [b]).
      rewrite (value_cons _ _ _ _ Hd). simpl. by rewrite (proj2 (Z.eqb_neq _ _) Ht).
    + exists f. rewrite link_of_snoc in E. split; [done |]. by rewrite <- app_assoc in Hf'.
Qed.

Lemma others_kept_refl hs m : others_kept hs m m.
Proof. by intros y v _. Qed.
Lemma others_kept_trans hs m m1 m2 : others_kept hs m m1 -> others_kept hs m1 m2 -> others_kept hs m m2.
Proof. intros H1 H2 y v Hy Hv. eauto. Qed.

Lemma copy_loop_ok fuel t h1 h2 x m pre cur d rest :
  wf (h1 ++ x :: h2) m -> at_node t x m pre cur d rest -> 1 < count d -> room (1 + Z.of_nat (length rest)) (h1 ++ x :: h2) m ->
  is_Some (tag_get t (value (heap m) (cur :: rest))) -> (length rest < fuel)%nat ->
  exists pre' cur' d' rest' x' m', copy_loop fuel t (link_of pre) cur x m = Some (link_of pre', cur', x', m') /\
    wf (h1 ++ x' :: h2) m' /\ at_node t x' m' pre' cur' d' rest' /\ 1 < count d' /\ tid d' = t /\ room 1 (h1 ++ x' :: h2) m' /\
    value (heap m') (pre' ++ cur' :: rest') = value (heap m) (pre ++ cur :: rest) /\ others_kept (h1 ++ h2) m m'.
Proof.
  revert x m pre cur d rest. induction fuel as [|fuel IH]; intros x m pre cur d rest Hw [Hs H1 Hd Hp Hb] Hc Hr Ht Hf; [lia |].
  pose proof (node_nonzero _ _ _ _ Hw Hd) as H0. cbn [copy_loop]. rewrite (load_node _ _ _ Hd H0), (proj2 (Z.ltb_lt _ _) Hc).
  cbn [NS_ASSERT]. destruct (Z.eqb_spec (tid d) t) as [Et|Et].
  { exists pre, cur, d, rest, x, m. split_and!; try done; [unfold room in *; lia | apply others_kept_refl]. }
  rewrite (value_cons _ _ _ _ Hd) in Ht. simpl in Ht. rewrite (proj2 (Z.eqb_neq _ _) Et) in Ht.
  destruct rest as [|c rest]; [by destruct Ht |]. pose proof Hp as (Hnc & Hn0 & dc & Hdc & Hpc).
  destruct (unshare_ok h1 h2 x m Hw pre (c :: rest) cur d Hs H1 Hd Hp ltac:(unfold room in *; lia) (tid d) (data d) Hc (w_data _ _ Hw _ _ Hd))
    as (m0 & m1 & m2 & n & x' & m' & E0 & E1 & E2 & E3 & Hw' & Hsz & Hk & Hs' & H1' & Hv' & Hp' & Hvr & Hc').
  unfold inc_next in E2. rewrite (proj2 (Z.eqb_neq _ _) Hn0) in E2. cbn [negb] in E2.
  rewrite E0, E1, E2, E3. rewrite Hnc in *. pose proof Hp' as (_ & _ & dc' & Hdc' & Hpc').
  assert (tag_get t (value (heap m') (pre ++ [n])) = None) as Hb'.
  { rewrite Hv', tag_get_app by done. simpl. by rewrite (proj2 (Z.eqb_neq _ _) Et). }
  destruct (IH x' m' (pre ++ [n]) c dc' rest) as (pre' & cur' & d' & rest' & x2 & m3 & E & Hw3 & Ha3 & Hc3 & Et3 & Hr3 & Hv3 & Hk3); try done.
  - by apply Hc'.
  - unfold room in *. rewrite Hsz, !length_app in *. simpl in *. lia.
  - by rewrite Hvr.
  - simpl in Hf. lia.
  - exists pre', cur', d', rest', x2, m3. rewrite link_of_snoc in E. split_and!; try done.
    + rewrite Hv3. unfold value in *. rewrite !fmap_app, Hvr. rewrite fmap_app in Hv'. rewrite Hv', fmap_cons, <- app_assoc. simpl.
      do 3 f_equal. unfold tag_at. by rewrite Hd.
    + by eapply others_kept_trans.
Qed.

(** ** Traversals *)

Section Traverse.
Context (t : Z) (w : Writer) (out : list Z -> list Z) (new : list (Z * list Z)) (Q : list Z -> Prop).
(** What the writer does at the node it is called on, before and after a merge. *)
Context (Hwriter : forall h1 h2 x m pre cur d rest (preMerge : bool),
  wf (h1 ++ x :: h2) m -> at_node t x m pre cur d rest -> tid d = t -> Q (data d) ->
  (if preMerge then count d = 1 else 1 < count d /\ room 1 (h1 ++ x :: h2) m) ->
  exists x' m', run_writer w t preMerge cur (link_of pre) x m = Some (out (data d), x', m') /\ wf (h1 ++ x' :: h2) m' /\
    others_kept (h1 ++ h2) m m' /\ rep m' x' (value (heap m) pre ++ new ++ value (heap m) rest)).

Lemma COWTraverse_ok h1 h2 x m v :
  wf (h1 ++ x :: h2) m -> rep m x v -> room (1 + Z.of_nat (size (heap m))) (h1 ++ x :: h2) m ->
  (forall b, tag_get t v = Some b -> Q b) ->
  exists x' m', COWTraverse t w x m = Some (out <$> tag_get t v, x', m') /\ wf (h1 ++ x' :: h2) m' /\
    others_kept (h1 ++ h2) m m' /\ rep m' x' (tag_upd t new v).
Proof.
  intros Hw (l & Hp & <-) Hr HQ. unfold COWTraverse. change LinkHead with (link_of []). pose proof (path_length _ _ Hw _ _ Hp) as Hlen.
  destruct (head_loop_ok (fuel_of m) t x [] x l m) as (f & -> & Hf); try done; [by intros ? ? ?%elem_of_nil | unfold fuel_of; lia | by eapply w_pos |].
  simpl app in Hf. destruct f as [|link cur|link cur].
  - exists x, m. rewrite Hf. split_and!; try done; [apply others_kept_refl |]. exists l. by rewrite tag_absent.
  - destruct Hf as (p & d & rest & -> & Ha & -> & Hc). pose proof Ha as [Hs H1 Hd Hrest Hb].
    assert (path (heap m) cur (cur :: rest)) as Hpc.
    { split_and!; [done | by eapply node_nonzero |]. by exists d. }
    rewrite length_app in Hlen. simpl in Hlen.
    rewrite (has_tag_ok _ _ _ _ _ Hpc) by (simpl; unfold fuel_of; lia).
    rewrite value_app, tag_get_app in HQ |- * by done.
    destruct (tag_get t (value (heap m) (cur :: rest))) as [b|] eqn:Eb.
    + rewrite bool_decide_eq_true_2 by done. cbn [negb].
      destruct (copy_loop_ok (fuel_of m) t h1 h2 x m p cur d rest) as (pre' & cur' & d' & rest' & x' & m' & -> & Hw' & Ha' & Hc' & Et' & Hr' & Hv' & Hk');
        try done; [unfold room in *; lia | unfold fuel_of; lia |].
      pose proof Ha' as [Hs' H1' Hd' Hrest' Hb']. rewrite !value_app, (value_cons _ _ _ _ Hd'), Et' in Hv'.
      destruct (tag_split t (data d') new (value (heap m') pre') (value (heap m') rest') Hb') as [Eg Eu].
      assert (b = data d') as ->. { rewrite Hv', tag_get_app, Eb in Eg by done. congruence. }
      destruct (Hwriter h1 h2 x' m' pre' cur' d' rest' false) as (x2 & m2 & -> & Hw2 & Hk2 & Hrep2); try done; [by apply HQ |].
      exists x2, m2. split_and!; try done; [by eapply others_kept_trans |]. by rewrite <- Hv', Eu.
    + rewrite bool_decide_eq_false_2 by (by intros []). cbn [negb]. exists x, m. split_and!; try done; [apply others_kept_refl |].
      exists (p ++ cur :: rest). split; [done |]. rewrite tag_absent; [by rewrite value_app |].
      by rewrite tag_get_app.
  - destruct Hf as (p & d & rest & -> & Ha & -> & Hc & Et). pose proof Ha as [Hs H1 Hd Hrest Hb].
    rewrite value_app, (value_cons _ _ _ _ Hd), Et in HQ |- *.
    destruct (tag_split t (data d) new (value (heap m) p) (value (heap m) rest) Hb) as [Eg Eu]. rewrite Eg, Eu in *.
    destruct (Hwriter h1 h2 x m p cur d rest true) as (x2 & m2 & -> & Hw2 & Hk2 & Hrep2); try done; [by apply HQ |].
    exists x2, m2. by split_and!.
Qed.

End Traverse.

Lemma RemoveWriter_ok t h1 h2 x m pre cur d rest (preMerge : bool) :
  wf (h1 ++ x :: h2) m -> at_node t x m pre cur d rest -> tid d = t ->
  (if preMerge then count d = 1 else 1 < count d /\ room 1 (h1 ++ x :: h2) m) ->
  exists x' m', run_writer RemoveW t preMerge cur (link_of pre) x m = Some (data d, x', m') /\ wf (h1 ++ x' :: h2) m' /\
    others_kept (h1 ++ h2) m m' /\ rep m' x' (value (heap m) pre ++ [] ++ value (heap m) rest).
Proof.
  intros Hw [Hs H1 Hd Hp Hb] Ht Hc. cbn [run_writer]. unfold RemoveWriter.
  rewrite (load_node _ _ _ Hd (node_nonzero _ _ _ _ Hw Hd)). destruct preMerge.
  - destruct (drop_ok h1 h2 x m Hw pre rest cur d Hs H1 Hd Hp Hc) as (x' & m0 & -> & Hw' & _ & Hk & Hr). by exists x', (free cur m0).
  - destruct Hc as [Hc Hroom].
    destruct (skip_ok h1 h2 x m Hw pre rest cur d Hs H1 Hd Hp Hroom Hc) as (x' & m0 & m1 & m' & -> & E1 & E2 & Hw' & _ & Hk & Hr).
    rewrite E1. unfold inc_next in E2. rewrite E2. by exists x', m'.
Qed.

Lemma ReplaceWriter_ok t bytes h1 h2 x m pre cur d rest (preMerge : bool) : Z.of_nat (length bytes) < 2 ^ 32 - 1 ->
  wf (h1 ++ x :: h2) m -> at_node t x m pre cur d rest -> tid d = t -> length bytes = length (data d) ->
  (if preMerge then count d = 1 else 1 < count d /\ room 1 (h1 ++ x :: h2) m) ->
  exists x' m', run_writer (ReplaceW bytes) t preMerge cur (link_of pre) x m = Some (bytes, x', m') /\ wf (h1 ++ x' :: h2) m' /\
    others_kept (h1 ++ h2) m m' /\ rep m' x' (value (heap m) pre ++ [(t, bytes)] ++ value (heap m) rest).
Proof.
  intros Hlen Hw [Hs H1 Hd Hp Hb] Ht Hsz Hc. cbn [run_writer]. unfold ReplaceWriter.
  rewrite (load_node _ _ _ Hd (node_nonzero _ _ _ _ Hw Hd)). destruct preMerge.
  - unfold overwrite. rewrite Hsz, Nat.leb_refl. cbn [NS_ASSERT]. rewrite drop_all, app_nil_r.
    destruct (rewrite_ok h1 h2 x m Hw pre rest cur d Hs H1 Hd Hp bytes Hc Hsz) as (m' & -> & Hw' & _ & Hk & Hr).
    rewrite Ht in Hr. by exists x, m'.
  - destruct Hc as [Hc Hroom].
    destruct (unshare_ok h1 h2 x m Hw pre rest cur d Hs H1 Hd Hp Hroom t bytes Hc Hlen)
      as (m0 & m1 & m2 & n & x' & m' & -> & E1 & E2 & E3 & Hw' & _ & Hk & Hs' & _ & Hv' & Hp' & Hvr & _).
    rewrite E1. unfold inc_next in E2. rewrite E2, E3. exists x', m'. split_and!; try done.
    exists ((pre ++ [n]) ++ rest). split; [apply path_app; by exists (next d) |]. by rewrite value_app, Hv', Hvr, <- app_assoc.
Qed.

(** ** Operations *)

Lemma tag_Remove_ok t h1 h2 x m v :
  wf (h1 ++ x :: h2) m -> rep m x v -> room (1 + Z.of_nat (size (heap m))) (h1 ++ x :: h2) m ->
  exists x' m', Remove t x m = Some (tag_get t v, x', m') /\ wf (h1 ++ x' :: h2) m' /\
    others_kept (h1 ++ h2) m m' /\ rep m' x' (tag_upd t [] v).
Proof.
  intros Hw Hv Hr. destruct (COWTraverse_ok t RemoveW (fun b => b) [] (fun _ => True)) with (h1 := h1) (h2 := h2) (x := x) (m := m) (v := v)
    as (x' & m' & E & H); try done.
  - intros. by apply RemoveWriter_ok.
  - exists x', m'. unfold Remove. rewrite E. by destruct (tag_get t v).
Qed.

Lemma Add_ok t bytes h1 h2 x m v :
  wf (h1 ++ x :: h2) m -> rep m x v -> tag_get t v = None -> Z.of_nat (length bytes) < 2 ^ 32 - 1 ->
  exists x' m', Add t bytes x m = Some (x', m') /\ wf (h1 ++ x' :: h2) m' /\ others_kept (h1 ++ h2) m m' /\ rep m' x' ((t, bytes) :: v).
Proof.
  intros Hw (l & Hp & <-) Ht Hb. unfold Add. pose proof (path_length _ _ Hw _ _ Hp) as Hlen.
  rewrite (has_tag_ok _ _ _ _ _ Hp) by (unfold fuel_of; lia). rewrite Ht, bool_decide_eq_false_2 by (by intros []). cbn [negb NS_ASSERT].
  unfold CreateTagData. simpl (data _). rewrite (proj2 (Z.ltb_lt _ _) Hb). cbn [NS_ASSERT].
  destruct (fresh_unlinked _ _ Hw) as (Hf & Hnl & Hf0). set (n := fresh_addr m) in *. set (nd := mkTag x 1 t bytes).
  eexists n, _. split; [reflexivity |].
  assert (forall c dc, heap m !! c = Some dc -> <[n := nd]> (heap m) !! c = Some dc) as P.
  { intros c dc Hdc. rewrite lookup_insert_ne by congruence. done. }
  assert (forall c dc, heap m !! c = Some dc -> kept (heap m) (<[n := nd]> (heap m)) c) as K.
  { intros c dc Hdc. exists dc, dc. by rewrite (P _ _ Hdc). }
  destruct Hw as [W0 [Wf Wlt] [r Wr] Wc Wp Wd]. split_and!.
  - constructor; cbn [heap fresh_addr].
    + by rewrite lookup_insert_ne.
    + split; [lia |]. intros a da [[<- _]|[_ Ha]]%lookup_insert_Some; [fold n; lia |]. specialize (Wlt _ _ Ha). fold n in Wlt. lia.
    + exists (fun c => if c =? n then S (r x) else r c). intros a da Ha Hz.
      assert (next da <> n) as Hnn.
      { intros E. apply Hnl. apply lookup_insert_Some in Ha as [[<- <-]|[_ Ha]]; [| rewrite <- E; by eapply link_node].
        unfold links. simpl in E. rewrite <- E. apply elem_of_app. left. apply elem_of_app. right. by left. }
      rewrite (proj2 (Z.eqb_neq _ _) Hnn). apply lookup_insert_Some in Ha as [[<- <-]|[Hne Ha]].
      * rewrite Z.eqb_refl. simpl. lia.
      * rewrite (proj2 (Z.eqb_neq a n)) by congruence. by apply Wr.
    + intros a Ha. rewrite (occ_heads a h1 x), occ_insert_new, Wc by done. simpl.
      destruct (Z.eq_dec a n) as [->|Hne]; [rewrite Hf, lookup_insert_eq, ind_refl; simpl; lia |].
      rewrite lookup_insert_ne, (ind_ne a n) by congruence. lia.
    + intros a da [[<- <-]|[_ Ha]]%lookup_insert_Some; [simpl; lia | by eapply Wp].
    + intros a da [[<- <-]|[_ Ha]]%lookup_insert_Some; [done | by eapply Wd].
  - intros y v' _ (l' & Hp' & <-). exists l'. apply path_frame; [done |]. intros b Hin.
    destruct (path_sub _ _ _ _ Hp' Hin) as (db & Hdb & _). by eapply K.
  - destruct (path_frame _ (<[n := nd]> (heap m)) _ _ Hp) as [Hp' Hv'].
    { intros b Hin. destruct (path_sub _ _ _ _ Hp Hin) as (db & Hdb & _). by eapply K. }
    exists (n :: l). split; [split_and!; [done | done |]; exists nd; split; [apply lookup_insert_eq | exact Hp'] |].
    rewrite (value_cons _ _ _ nd) by apply lookup_insert_eq. f_equal. exact Hv'.
Qed.

Lemma Replace_ok t bytes h1 h2 x m v :
  wf (h1 ++ x :: h2) m -> rep m x v -> room (1 + Z.of_nat (size (heap m))) (h1 ++ x :: h2) m ->
  Z.of_nat (length bytes) < 2 ^ 32 - 1 -> (forall b, tag_get t v = Some b -> length bytes = length b) ->
  exists x' m', Replace t bytes x m = Some (bool_decide (is_Some (tag_get t v)), x', m') /\ wf (h1 ++ x' :: h2) m' /\
    others_kept (h1 ++ h2) m m' /\ rep m' x' (if bool_decide (is_Some (tag_get t v)) then tag_upd t [(t, bytes)] v else (t, bytes) :: v).
Proof.
  intros Hw Hv Hr Hlen HQ.
  destruct (COWTraverse_ok t (ReplaceW bytes) (fun _ => bytes) [(t, bytes)] (fun b => length bytes = length b)) with (h1 := h1) (h2 := h2) (x := x) (m := m) (v := v)
    as (x' & m' & E & Hw' & Hk & Hrep); try done.
  - intros. by eapply ReplaceWriter_ok.
  - unfold Replace. rewrite E. destruct (tag_get t v) as [b|] eqn:Et; simpl.
    + exists x', m'. by split_and!.
    + rewrite tag_absent in Hrep by done. destruct (Add_ok t bytes h1 h2 x' m' v Hw' Hrep Et Hlen) as (x2 & m2 & -> & Hw2 & Hk2 & Hr2).
      exists x2, m2. split_and!; try done. by eapply others_kept_trans.
Qed.

(** Another link to the node [x], or one less. *)
Lemma wf_recount k hs hs' m x d : wf hs m -> heap m !! x = Some d -> 1 <= count d + k ->
  (forall a, a <> 0 -> occ a (links hs' (heap m)) = occ a (links hs (heap m)) + k * ind a x) ->
  wf hs' (store x (set_count (count d + k) d) m) /\ forall y v, rep m y v -> rep (store x (set_count (count d + k) d) m) y v.
Proof.
  intros Hw Hd Hk Hocc. pose proof (node_nonzero _ _ _ _ Hw Hd) as H0. destruct Hw as [W0 [Wf Wlt] [r Wr] Wc Wp Wd]. split.
  - constructor; cbn [heap fresh_addr store].
    + by rewrite lookup_insert_ne.
    + split; [done |]. intros a da [[<- <-]|[_ Ha]]%lookup_insert_Some; by eapply Wlt.
    + exists r. intros a da [[<- <-]|[_ Ha]]%lookup_insert_Some Hz; [exact (Wr _ _ Hd Hz) | by apply Wr].
    + intros a Ha. rewrite (occ_update a _ _ x d), Hocc, Wc by done. simpl.
      destruct (Z.eq_dec a x) as [->|Hne]; [rewrite Hd, lookup_insert_eq, ind_refl; simpl; lia |].
      rewrite lookup_insert_ne, (ind_ne a x) by congruence. lia.
    + intros a da [[<- <-]|[_ Ha]]%lookup_insert_Some; [done | by eapply Wp].
    + intros a da [[<- <-]|[_ Ha]]%lookup_insert_Some; [exact (Wd _ _ Hd) | by eapply Wd].
  - intros y v (l & Hp & <-). exists l. apply path_frame; [done |]. intros b Hin.
    destruct (path_sub _ _ _ _ Hp Hin) as (db & Hdb & _). destruct (decide (b = x)) as [->|Hne].
    + exists d, (set_count (count d + k) d). simpl. by rewrite lookup_insert_eq.
    + exists db, db. simpl. rewrite lookup_insert_ne by congruence. done.
Qed.

Lemma tag_copy_ok hs x m : wf hs m -> x ∈ hs -> room 1 hs m ->
  exists m', PacketTagList_copy x m = Some (x, m') /\ wf (hs ++ [x]) m' /\ size (heap m') = size (heap m) /\ forall y v, rep m y v -> rep m' y v.
Proof.
  intros Hw Hx Hr. unfold PacketTagList_copy.
  assert (forall a, occ a (links (hs ++ [x]) (heap m)) = occ a (links hs (heap m)) + 1 * ind a x) as Hocc.
  { intros a. unfold links. rewrite !occ_app. simpl. lia. }
  destruct (Z.eqb_spec x 0) as [->|H0].
  - exists m. split_and!; try done. destruct Hw. constructor; try done. intros a Ha. rewrite Hocc, (ind_ne a 0) by done.
    rewrite Z.mul_0_r, Z.add_0_r. by apply w_count0.
  - destruct (link_closed _ _ Hw x H0) as [d Hd]. { unfold links. apply elem_of_app. by left. }
    destruct (count_room _ _ _ _ _ Hw Hr Hd) as [Hge Hlt]. unfold modify. rewrite (load_node _ _ _ Hd H0).
    replace (u32 (count d + 1)) with (count d + 1) by (symmetry; apply Z.mod_small; lia).
    eexists. split; [reflexivity |]. destruct (wf_recount 1 hs (hs ++ [x]) m x d) as [Hw' Hv']; try done; [lia |].
    split_and!; try done. simpl. by rewrite map_size_insert, Hd.
Qed.

(** ** Freeing a list *)

(** [RemoveAll] with each node freed when it is left. *)
Fixpoint release (fuel : nat) (cur : Z) (m : TagMem) : option TagMem :=
  if cur =? 0 then Some m
  else match fuel with
  | O => None
  | S fuel' =>
      let* d := load cur m in
      if 0 <? u32 (count d - 1) then Some (store cur (set_count (u32 (count d - 1)) d) m) else release fuel' (next d) (free cur m)
  end.

Lemma free_store a d m : free a (store a d m) = free a m.
Proof. unfold free, store. simpl. by rewrite delete_insert_eq. Qed.
Lemma free_store_ne a b d m : a <> b -> free a (store b d m) = store b d (free a m).
Proof. intros. unfold free, store. simpl. by rewrite delete_insert_ne. Qed.

Lemma remove_all_release fuel prev cur m l : prev <> 0 -> path (heap m) cur l -> NoDup l -> prev ∉ l ->
  remove_all_loop fuel prev cur m = release fuel cur (free prev m).
Proof.
  revert prev cur m l. induction fuel as [|fuel IH]; intros prev cur m l Hp0 Hp Hn Hout; cbn [remove_all_loop release];
    (destruct (Z.eqb_spec cur 0) as [->|H0]; [by rewrite (proj2 (Z.eqb_neq prev 0)) |]); [done |].
  destruct l as [|b l]; [done |]. destruct Hp as (-> & _ & d & Hd & Hp). apply NoDup_cons in Hn as [Hb Hn].
  rewrite not_elem_of_cons in Hout. destruct Hout as [Hne Hout]. rewrite (proj2 (Z.eqb_neq prev 0)) by done. cbn [negb].
  assert (heap (free prev m) !! b = Some d) as Hd' by (simpl; by rewrite lookup_delete_ne).
  rewrite (load_node _ _ _ Hd H0), (load_node _ _ _ Hd' H0). destruct (0 <? u32 (count d - 1)).
  - by rewrite free_store_ne.
  - rewrite (IH b (next d) _ l); try done.
    + rewrite free_store_ne by done. by rewrite free_store.
    + destruct (path_frame _ (heap (free prev (store b (set_count (u32 (count d - 1)) d) m))) _ _ Hp) as [Hp' _]; [| done].
      intros c Hc. destruct (path_sub _ _ _ _ Hp Hc) as (dc & Hdc & _). exists dc, dc. simpl.
      rewrite lookup_delete_ne, lookup_insert_ne by congruence. done.
Qed.

Lemma RemoveAll_release hs x m l : wf hs m -> path (heap m) x l -> remove_all_loop (fuel_of m) 0 x m = release (fuel_of m) x m.
Proof.
  intros Hw Hp. unfold fuel_of. cbn [remove_all_loop release]. destruct (Z.eqb_spec x 0) as [->|H0]; [done |].
  pose proof (path_NoDup _ _ Hw _ _ Hp) as Hn. destruct l as [|b l]; [done |]. destruct Hp as (-> & _ & d & Hd & Hp).
  apply NoDup_cons in Hn as [Hb Hn]. rewrite (load_node _ _ _ Hd H0). simpl negb. cbn match. destruct (0 <? u32 (count d - 1)); [done |].
  rewrite (remove_all_release _ b (next d) _ l); try done; [by rewrite free_store |].
  destruct (path_frame _ (heap (store b (set_count (u32 (count d - 1)) d) m)) _ _ Hp) as [Hp' _]; [| done].
  intros c Hc. destruct (path_sub _ _ _ _ Hp Hc) as (dc & Hdc & _). exists dc, dc. simpl. rewrite lookup_insert_ne by congruence. done.
Qed.

Lemma release_ok fuel h1 h2 x m l : wf (h1 ++ x :: h2) m -> room 0 (h1 ++ x :: h2) m -> path (heap m) x l -> (length l <= fuel)%nat ->
  exists m', release fuel x m = Some m' /\ wf (h1 ++ 0 :: h2) m' /\ (size (heap m') <= size (heap m))%nat /\ others_kept (h1 ++ h2) m m'.
Proof.
  revert x m l. induction fuel as [|fuel IH]; intros x m [|b l] Hw Hr Hp Hf; simpl in Hf; try lia;
    [simpl in Hp; subst x; exists m; split_and!; [done | done | done | apply others_kept_refl].. |].
  destruct Hp as (-> & H0 & d & Hd & Hp). cbn [release]. rewrite (proj2 (Z.eqb_neq b 0)), (load_node _ _ _ Hd H0) by done.
  destruct (count_room _ _ _ _ _ Hw Hr Hd) as [Hge Hlt].
  replace (u32 (count d - 1)) with (count d - 1) by (symmetry; apply Z.mod_small; lia). destruct (Z.ltb_spec 0 (count d - 1)) as [Hc|Hc].
  - eexists. split; [reflexivity |]. destruct (wf_recount (-1) (h1 ++ b :: h2) (h1 ++ 0 :: h2) m b d) as [Hw' Hv']; try done; [lia | |].
    { intros a Ha. rewrite (occ_heads a h1 b), (ind_ne a 0) by done. lia. }
    split_and!; [done | simpl; rewrite map_size_insert, Hd; done |]. intros y v _. apply Hv'.
  - destruct (drop_ok h1 h2 b m Hw [] l b d) as (x' & m0 & E & Hw' & Hsz & Hk & _); try done; [by intros ? ? ?%elem_of_nil | lia |].
    injection E as <- <-. pose proof (path_NoDup _ _ Hw b (b :: l)) as Hn.
    destruct (IH (next d) (free b m) l) as (m' & -> & Hw2 & Hsz2 & Hk2); try done; [| | lia |].
    + unfold room in *. rewrite !length_app in *. simpl length in *. lia.
    + destruct (path_frame _ (heap (free b m)) _ _ Hp) as [Hp' _]; [| done]. intros c Hc'.
      destruct (path_sub _ _ _ _ Hp Hc') as (dc & Hdc & _). exists dc, dc. simpl. rewrite lookup_delete_ne; [done |]. intros <-.
      assert (NoDup (b :: l)) as [Hb _]%NoDup_cons; [| done]. apply Hn. split_and!; [done | done |]. by exists d.
    + exists m'. split_and!; try done; [lia | by eapply others_kept_trans].
Qed.

Lemma RemoveAll_ok h1 h2 x m v : wf (h1 ++ x :: h2) m -> room 0 (h1 ++ x :: h2) m -> rep m x v ->
  exists m', RemoveAll x m = Some (0, m') /\ wf (h1 ++ 0 :: h2) m' /\ (size (heap m') <= size (heap m))%nat /\ others_kept (h1 ++ h2) m m'.
Proof.
  intros Hw Hr (l & Hp & _). unfold RemoveAll. rewrite (RemoveAll_release _ _ _ _ Hw Hp).
  destruct (release_ok (fuel_of m) h1 h2 x m l) as (m' & -> & H); try done; [| by exists m'].
  pose proof (path_length _ _ Hw _ _ Hp). unfold fuel_of. lia.
Qed.

End PacketTagProps.
