(* ===== verification/PacketTags.v ===== *)
(** * Packet tag lists as independent lists

    Programs that create, copy, assign and clear tag lists, and add, remove,
    replace and look up tags: the lists that share nodes behave as independent
    lists, and the memory holds no node that no list needs. *)

From S2P Require Import Prelude PacketTagList PacketTagProps.
Import PacketTagList PacketTagProps.

Module PacketTags.

(** ** Programs *)

(** Operations on the list objects of a program, numbered in order of creation. *)
Inductive TagOp :=
  | NewT
  | CopyT (i : nat)
  | AssignT (i j : nat)
  | ClearT (i : nat)
  | AddT (i : nat) (t : Z) (b : list Z)
  | RemoveT (i : nat) (t : Z)
  | ReplaceT (i : nat) (t : Z) (b : list Z)
  | PeekT (i : nat) (t : Z).

Inductive TagResult := TDone | TBytes (b : option (list Z)) | TFlag (b : bool).

(** The head pointers and the memory. *)
Record World := mkWorld { heads : list Z; mem : TagMem }.
Definition world0 : World := mkWorld [] (mkTagMem ∅ 1).

Definition step (op : TagOp) (w : World) : option (World * TagResult) :=
  match op with
  | NewT => Some (mkWorld (heads w ++ [0]) (mem w), TDone)
  | CopyT i =>
      let* x := heads w !! i in
      let* (x', m) := PacketTagList_copy x (mem w) in Some (mkWorld (heads w ++ [x']) m, TDone)
  | AssignT i j =>
      let* x := heads w !! i in let* y := heads w !! j in
      let* (x', m) := PacketTagList_assign x y (mem w) in Some (mkWorld (<[i := x']> (heads w)) m, TDone)
  | ClearT i =>
      let* x := heads w !! i in
      let* (x', m) := RemoveAll x (mem w) in Some (mkWorld (<[i := x']> (heads w)) m, TDone)
  | AddT i t b =>
      let* x := heads w !! i in
      let* (x', m) := Add t b x (mem w) in Some (mkWorld (<[i := x']> (heads w)) m, TDone)
  | RemoveT i t =>
      let* x := heads w !! i in
      let* (r, x', m) := Remove t x (mem w) in Some (mkWorld (<[i := x']> (heads w)) m, TBytes r)
  | ReplaceT i t b =>
      let* x := heads w !! i in
      let* (r, x', m) := Replace t b x (mem w) in Some (mkWorld (<[i := x']> (heads w)) m, TFlag r)
  | PeekT i t =>
      let* x := heads w !! i in
      let* r := Peek t x (mem w) in Some (w, TBytes r)
  end.

(** ** Specification: each list is a list of tags *)

Notation Tags := (list (Z * list Z)) (only parsing).

Definition spec_step (op : TagOp) (vs : list Tags) : option (list Tags * TagResult) :=
  match op with
  | NewT => Some (vs ++ [[]], TDone)
  | CopyT i => let* v := vs !! i in Some (vs ++ [v], TDone)
  | AssignT i j => let* _ := vs !! i in let* v := vs !! j in Some (<[i := v]> vs, TDone)
  | ClearT i => let* _ := vs !! i in Some (<[i := []]> vs, TDone)
  | AddT i t b =>
      let* v := vs !! i in
      match tag_get t v with Some _ => None | None => Some (<[i := (t, b) :: v]> vs, TDone) end
  | RemoveT i t => let* v := vs !! i in Some (<[i := tag_upd t [] v]> vs, TBytes (tag_get t v))
  | ReplaceT i t b =>
      let* v := vs !! i in
      match tag_get t v with
      | Some _ => Some (<[i := tag_upd t [(t, b)] v]> vs, TFlag true)
      | None => Some (<[i := (t, b) :: v]> vs, TFlag false)
      end
  | PeekT i t => let* v := vs !! i in Some (vs, TBytes (tag_get t v))
  end.

Definition total (vs : list Tags) : nat := sum_list (length <$> vs).
(** Few enough lists and tags for the 32-bit counts. *)
Definition few (vs : list Tags) : bool := Z.of_nat (length vs) + 2 * Z.of_nat (total vs) + 1 <? 2 ^ 32.

(** Tags of a type have one size. *)
Section Sized.
Context (size_of : Z -> nat) (Hsize : forall t, Z.of_nat (size_of t) < 2 ^ 32 - 1).

Definition sized (v : Tags) : Prop := Forall (fun e => length e.2 = size_of e.1) v.
Definition op_sized (op : TagOp) : Prop :=
  match op with AddT _ t b | ReplaceT _ t b => length b = size_of t | _ => True end.

(** The memory represents the lists. *)
Definition R (w : World) (vs : list Tags) : Prop :=
  wf (heads w) (mem w) /\ Forall2 (rep (mem w)) (heads w) vs /\ Forall sized vs.

(** ** Every node is needed *)

Lemma rank_bounded (r : Z -> nat) (h : gmap Z TagData) : exists M, forall a d, h !! a = Some d -> (r a <= M)%nat.
Proof.
  exists (max_list ((fun e => r e.1) <$> map_to_list h)). intros a d Hd. apply max_list_elem_of_le.
  apply list_elem_of_fmap. exists (a, d). split; [done |]. by apply elem_of_map_to_list.
Qed.

Lemma node_reachable hs m a d : wf hs m -> heap m !! a = Some d -> exists x l, x ∈ hs /\ path (heap m) x l /\ a ∈ l.
Proof.
  intros Hw. destruct (w_rank _ _ Hw) as [r Hr]. destruct (rank_bounded r (heap m)) as [M HM].
  remember (M - r a)%nat as k eqn:Ek. revert a d Ek. induction (lt_wf k) as [k _ IH]. intros a d -> Hd.
  pose proof (node_nonzero _ _ _ _ Hw Hd) as H0. assert (0 < occ a (links hs (heap m))) as Ho.
  { rewrite (w_count _ _ Hw a H0), Hd. pose proof (w_pos _ _ Hw _ _ Hd). lia. }
  apply occ_pos in Ho. unfold links in Ho. apply elem_of_app in Ho as [Ho|Ho].
  - destruct (head_path _ _ Hw a Ho) as [l Hl]. exists a, l. split_and!; try done.
    destruct l as [|b l]; [done |]. destruct Hl as (-> & _). by left.
  - apply list_elem_of_fmap in Ho as ([b db] & E & Hb%elem_of_map_to_list). simpl in E.
    assert (r a < r b)%nat by (rewrite E; apply Hr; [done | congruence]). pose proof (HM _ _ Hb).
    destruct (IH (M - r b)%nat ltac:(lia) b db eq_refl Hb) as (x & l & Hx & Hp & Hin). exists x, l. split_and!; try done.
    apply list_elem_of_split in Hin as (l1 & l2 & ->). apply path_app in Hp as (e & _ & (-> & _ & db' & Hb' & Hp)).
    rewrite Hb in Hb'. injection Hb' as <-. apply elem_of_app. right. right. destruct l2 as [|c l2]; [simpl in Hp; congruence |].
    destruct Hp as (Ec & _). rewrite E, Ec. by left.
Qed.

Lemma heads_nodes hs m vs : Forall2 (rep m) hs vs ->
  exists L : list Z, (forall x l, x ∈ hs -> path (heap m) x l -> forall a, a ∈ l -> a ∈ L) /\ length L = total vs.
Proof.
  induction 1 as [|x v hs vs (l & Hp & <-) _ (L & HL & Hlen)]; [exists []; split; [by intros ? ? ?%elem_of_nil | done] |]. exists (l ++ L). split.
  - intros y l' [->|Hy]%elem_of_cons Hp' a Ha; apply elem_of_app.
    + left. by rewrite (path_det _ _ _ _ Hp Hp').
    + right. by eapply HL.
  - rewrite length_app, Hlen. unfold total. rewrite fmap_cons. cbn [sum_list]. unfold value. by rewrite length_fmap.
Qed.

Lemma nodes_bounded hs m vs : wf hs m -> Forall2 (rep m) hs vs -> (size (heap m) <= total vs)%nat.
Proof.
  intros Hw H. destruct (heads_nodes _ _ _ H) as (L & HL & <-). rewrite <- length_map_to_list, <- (length_fmap fst).
  apply submseteq_length, NoDup_submseteq; [apply NoDup_fst_map_to_list |].
  intros a ([a' d] & -> & Hd%elem_of_map_to_list)%list_elem_of_fmap.
  destruct (node_reachable _ _ _ _ Hw Hd) as (x & l & Hx & Hp & Ha). by eapply HL.
Qed.

(** ** One step *)

Lemma R_room w vs : R w vs -> few vs = true -> room (1 + Z.of_nat (size (heap (mem w)))) (heads w) (mem w).
Proof.
  intros (Hw & H & _) Hf%Z.ltb_lt. pose proof (nodes_bounded _ _ _ Hw H). assert (length (heads w) = length vs) by (by eapply Forall2_length). unfold room. lia.
Qed.

Lemma R_at w vs i : R w vs ->
  match heads w !! i, vs !! i with
  | Some x, Some v => rep (mem w) x v /\ sized v /\ exists h1 h2, heads w = h1 ++ x :: h2 /\ length h1 = i /\ wf (h1 ++ x :: h2) (mem w)
  | None, None => True
  | _, _ => False
  end.
Proof.
  intros (Hw & H & Hs). destruct (heads w !! i) as [x|] eqn:E.
  - destruct (Forall2_lookup_l _ _ _ _ _ H E) as (v & Ev & Hv). rewrite Ev. split; [done |]. split.
    + by eapply (Forall_lookup_1 sized vs).
    + exists (take i (heads w)), (drop (S i) (heads w)). rewrite take_drop_middle by done. split_and!; try done.
      apply length_take_le. apply lookup_lt_Some in E. lia.
  - apply lookup_ge_None in E. rewrite (Forall2_length _ _ _ H) in E. apply lookup_ge_None in E. by rewrite E.
Qed.

Lemma kept_Forall2 m m' hs vs : others_kept hs m m' -> Forall2 (rep m) hs vs -> Forall2 (rep m') hs vs.
Proof.
  intros Hk H. induction H as [|x v hs vs Hv _ IH]; constructor; [apply Hk; [by left | done] |]. apply IH.
  intros y u Hy. apply Hk. by right.
Qed.

(** An operation on one list that keeps the values of the others. *)
Lemma R_update w vs h1 h2 x x' m' v' : R w vs -> heads w = h1 ++ x :: h2 -> wf (h1 ++ x' :: h2) m' -> others_kept (h1 ++ h2) (mem w) m' ->
  rep m' x' v' -> sized v' -> R (mkWorld (<[length h1 := x']> (heads w)) m') (<[length h1 := v']> vs).
Proof.
  intros (Hw & H & Hs) E Hw' Hk Hr Hv'. unfold R. cbn [heads mem]. rewrite E in *. rewrite insert_app_r_alt, Nat.sub_diag by lia.
  cbn [list_insert]. split; [done |]. apply Forall2_app_inv_l in H as (vs1 & vs2 & H1 & H2 & ->).
  apply Forall2_cons_inv_l in H2 as (v & vs2' & Hv & H2 & ->). rewrite (Forall2_length _ _ _ H1).
  rewrite insert_app_r_alt, Nat.sub_diag by lia. cbn [list_insert]. apply Forall_app in Hs as [Hs1 Hs2]. apply Forall_cons in Hs2 as [_ Hs2]. split.
  - apply Forall2_app; [| apply Forall2_cons; split; [done |]].
    + apply (kept_Forall2 (mem w)); [| done]. intros y u Hy. apply Hk, elem_of_app. by left.
    + apply (kept_Forall2 (mem w)); [| done]. intros y u Hy. apply Hk, elem_of_app. by right.
  - apply Forall_app. split; [done |]. by apply Forall_cons.
Qed.

Lemma sized_upd t new v : sized v -> sized new -> sized (tag_upd t new v).
Proof.
  intros Hv Hn. induction Hv as [|[t' b] v Hb Hv IH]; [constructor |]. simpl. destruct (t' =? t); [by apply Forall_app | by constructor].
Qed.
Lemma sized_get t v b : sized v -> tag_get t v = Some b -> length b = size_of t.
Proof.
  induction 1 as [|[t' b'] v Hb _ IH]; simpl; [done |]. destruct (Z.eqb_spec t' t) as [->|]; [by intros [= <-] | done].
Qed.

Lemma R_append w vs m' v : R w vs -> wf (heads w ++ [v.1]) m' -> (forall y u, rep (mem w) y u -> rep m' y u) ->
  rep m' v.1 v.2 -> sized v.2 -> R (mkWorld (heads w ++ [v.1]) m') (vs ++ [v.2]).
Proof.
  intros (Hw & H & Hs) Hw' Hk Hr Hv. split_and!; [done | |].
  - apply Forall2_app; [| by repeat constructor]. apply (kept_Forall2 (mem w)); [| done]. intros y u _. apply Hk.
  - apply Forall_app. split; [done |]. by apply Forall_singleton.
Qed.

Lemma wf_same_heads hs hs' m : (forall a, a <> 0 -> occ a (links hs' (heap m)) = occ a (links hs (heap m))) -> wf hs m -> wf hs' m.
Proof. intros Ho [W0 Wf Wr Wc Wp Wd]. constructor; try done. intros a Ha. rewrite Ho by done. by apply Wc. Qed.

Lemma tag_assign_ok h1 h2 x y m v u : wf (h1 ++ x :: h2) m -> room 1 (h1 ++ x :: h2) m -> rep m x v -> rep m y u -> y ∈ h1 ++ x :: h2 ->
  exists m', PacketTagList_assign x y m = Some (y, m') /\ wf (h1 ++ y :: h2) m' /\ others_kept (h1 ++ h2) m m' /\ rep m' y u.
Proof.
  intros Hw Hr Hv Hu Hy. unfold PacketTagList_assign. destruct (Z.eqb_spec x y) as [->|Hne].
  - exists m. split_and!; try done. apply others_kept_refl.
  - destruct (RemoveAll_ok h1 h2 x m v Hw ltac:(unfold room in *; lia) Hv) as (m1 & -> & Hw1 & Hsz & Hk1).
    assert (y ∈ h1 ++ h2) as Hy'. { rewrite elem_of_app, elem_of_cons in *. naive_solver. }
    destruct (tag_copy_ok (h1 ++ 0 :: h2) y m1 Hw1) as (m2 & E2 & Hw2 & _ & Hv2).
    { rewrite elem_of_app, elem_of_cons in *. naive_solver. }
    { unfold room in *. rewrite !length_app in *. simpl length in *. lia. }
    exists m2. rewrite E2. split_and!; try done.
    + eapply wf_same_heads; [| exact Hw2]. intros a Ha. unfold links. rewrite !occ_app. simpl. rewrite (ind_ne a 0) by done. lia.
    + intros z t Hz Ht. apply Hv2. by apply Hk1.
    + apply Hv2. by apply Hk1.
Qed.

Lemma Peek_ok hs m t x v : wf hs m -> rep m x v -> Peek t x m = Some (tag_get t v).
Proof.
  intros Hw (l & Hp & <-). apply peek_loop_ok; [done |]. pose proof (path_length _ _ Hw _ _ Hp). unfold fuel_of. lia.
Qed.

Lemma step_refines op w vs : R w vs -> few vs = true -> op_sized op ->
  match spec_step op vs with
  | Some (vs', r) => exists w', step op w = Some (w', r) /\ R w' vs'
  | None => step op w = None
  end.
Proof.
  intros HR Hf Hop. pose proof (R_room _ _ HR Hf) as Hroom. pose proof HR as (Hwf & _ & _).
  destruct op as [|i|i j|i|i t b|i t|i t b|i t]; cbn [step spec_step op_sized] in *; [| pose proof (R_at _ _ i HR) as At;
    destruct (heads w !! i) as [x|] eqn:Ex, (vs !! i) as [v|] eqn:Ev; try done; destruct At as (Hv & Hsv & h1 & h2 & E & <- & Hw) ..].
  - eexists. split; [done |]. apply (R_append w vs (mem w) (0, [])); try done; [| by exists [] | constructor].
    eapply wf_same_heads; [| exact Hwf]. intros a Ha. unfold links. rewrite !occ_app. simpl.
    rewrite (ind_ne a 0) by done. lia.
  - destruct (tag_copy_ok (heads w) x (mem w) Hwf) as (m' & -> & Hw' & _ & Hk); [by eapply list_elem_of_lookup_2 | unfold room in *; lia |].
    eexists. split; [done |]. apply (R_append w vs m' (x, v)); try done. by apply Hk.
  - pose proof (R_at _ _ j HR) as At. destruct (heads w !! j) as [y|] eqn:Ey, (vs !! j) as [u|] eqn:Eu; try done.
    destruct At as (Hu & Hsu & _). apply list_elem_of_lookup_2 in Ey. rewrite E in Ey, Hroom.
    destruct (tag_assign_ok h1 h2 x y (mem w) v u Hw ltac:(unfold room in *; lia) Hv Hu Ey) as (m' & -> & Hw' & Hk & Hr).
    eexists. split; [done |]. by eapply R_update.
  - rewrite E in Hroom. destruct (RemoveAll_ok h1 h2 x (mem w) v Hw ltac:(unfold room in *; lia) Hv) as (m' & -> & Hw' & _ & Hk).
    eexists. split; [done |]. eapply R_update; try done; [by exists [] | constructor].
  - destruct (tag_get t v) as [b'|] eqn:Et.
    + unfold Add. destruct Hv as (l & Hp & <-). rewrite (has_tag_ok _ _ _ _ _ Hp), Et; [done |].
      pose proof (path_length _ _ Hw _ _ Hp). unfold fuel_of. lia.
    + destruct (Add_ok t b h1 h2 x (mem w) v Hw Hv Et) as (x' & m' & -> & Hw' & Hk & Hr); [rewrite Hop; apply Hsize |].
      eexists. split; [done |]. eapply R_update; try done. by constructor.
  - rewrite E in Hroom. destruct (tag_Remove_ok t h1 h2 x (mem w) v Hw Hv Hroom) as (x' & m' & -> & Hw' & Hk & Hr).
    eexists. split; [done |]. eapply R_update; try done. apply sized_upd; [done | constructor].
  - rewrite E in Hroom.
    destruct (Replace_ok t b h1 h2 x (mem w) v Hw Hv Hroom) as (x' & m' & -> & Hw' & Hk & Hr);
      [rewrite Hop; apply Hsize | intros b' Hb'; rewrite Hop; symmetry; by eapply sized_get |].
    destruct (tag_get t v) as [b'|] eqn:Et.
    + rewrite bool_decide_eq_true_2 in * by done. eexists. split; [done |]. eapply R_update; try done.
      apply sized_upd; [done |]. by repeat constructor.
    + rewrite bool_decide_eq_false_2 in * by (by intros []). eexists. split; [done |]. eapply R_update; try done. by constructor.
  - rewrite (Peek_ok _ _ t x v Hw Hv). eexists. by split.
Qed.

(** ** Programs of operations *)

Lemma R_initial : R world0 [].
Proof.
  split_and!; [| constructor | constructor]. constructor; cbn [mem world0 heap fresh_addr].
  - apply lookup_empty.
  - split; [lia |]. intros a d Ha. by rewrite lookup_empty in Ha.
  - exists (fun _ => O). intros a d Ha. by rewrite lookup_empty in Ha.
  - intros a _. rewrite lookup_empty. unfold links. by rewrite map_to_list_empty.
  - intros a d Ha. by rewrite lookup_empty in Ha.
  - intros a d Ha. by rewrite lookup_empty in Ha.
Qed.

Fixpoint run (ops : list TagOp) (w : World) : option (World * list TagResult) :=
  match ops with
  | [] => Some (w, [])
  | op :: ops' => let* (w', r) := step op w in let* (w2, rs) := run ops' w' in Some (w2, r :: rs)
  end.
Fixpoint spec_run (ops : list TagOp) (vs : list Tags) : option (list Tags * list TagResult) :=
  match ops with
  | [] => Some (vs, [])
  | op :: ops' => let* (vs', r) := spec_step op vs in let* (vs2, rs) := spec_run ops' vs' in Some (vs2, r :: rs)
  end.
(** The program never has too many lists and tags. *)
Fixpoint few_run (ops : list TagOp) (vs : list Tags) : bool :=
  few vs && match ops with
            | [] => true
            | op :: ops' => match spec_step op vs with Some (vs', _) => few_run ops' vs' | None => true end
            end.

Lemma run_refines ops w vs : R w vs -> few_run ops vs = true -> Forall op_sized ops ->
  match spec_run ops vs with
  | Some (vs', rs) => exists w', run ops w = Some (w', rs) /\ R w' vs'
  | None => run ops w = None
  end.
Proof.
  revert w vs. induction ops as [|op ops IH]; intros w vs HR Hf Hs; cbn [spec_run run few_run] in *; [by exists w |].
  apply andb_true_iff in Hf as [Hf Hf']. apply Forall_cons in Hs as [Hop Hs]. pose proof (step_refines op w vs HR Hf Hop) as Hstep.
  destruct (spec_step op vs) as [[vs' r]|]; [| by rewrite Hstep]. destruct Hstep as (w' & -> & HR').
  specialize (IH w' vs' HR' Hf' Hs). destruct (spec_run ops vs') as [[vs2 rs]|]; [| by rewrite IH].
  destruct IH as (w2 & -> & HR2). by exists w2.
Qed.

End Sized.

(** C10: Tag lists that share nodes refine independent lists of tags: a program
    that creates, copies, assigns and clears tag lists and adds, removes,
    replaces and looks up tags gives the results it would give on lists that
    share nothing, and its lists end with the values those lists have. It aborts
    exactly where the specification does: at an operation on a list that does not
    exist and at the addition of a second tag of a type. No node is read after it
    was freed, and every loop ends. This is for programs that use one size for all tags
    of a type ([op_sized]) and fewer nodes than a count can hold ([few_run]); with tags of
    one type and several sizes the result of a replacement depends on the sharing
    ([replace_depends_on_sharing]). *)
Theorem tag_lists_refine (size_of : Z -> nat) (ops : list TagOp) :
  (forall t, Z.of_nat (size_of t) < 2 ^ 32 - 1) -> Forall (op_sized size_of) ops -> few_run ops [] = true ->
  match spec_run ops [] with
  | Some (vs, rs) => exists w, run ops world0 = Some (w, rs) /\ Forall2 (rep (mem w)) (heads w) vs
  | None => run ops world0 = None
  end.
Proof.
  intros Hsz Hs Hf. pose proof (run_refines size_of Hsz ops world0 [] (R_initial size_of) Hf Hs) as H.
  destruct (spec_run ops []) as [[vs rs]|]; [| done]. destruct H as (w & E & (_ & HR & _)). by exists w.
Qed.

(** The memory of the tag lists holds what they need and no more: after any
    program the nodes are at most as many as the tags of all lists, every count
    is the number of pointers to its node, and when all lists are empty the
    memory is empty. *)
Theorem tag_nodes_exact (size_of : Z -> nat) (ops : list TagOp) vs rs w rs' :
  (forall t, Z.of_nat (size_of t) < 2 ^ 32 - 1) -> Forall (op_sized size_of) ops -> few_run ops [] = true ->
  spec_run ops [] = Some (vs, rs) -> run ops world0 = Some (w, rs') ->
  (size (heap (mem w)) <= total vs)%nat /\ (Forall (fun v => v = []) vs -> heap (mem w) = ∅) /\
  (forall a d, heap (mem w) !! a = Some d -> count d = occ a (links (heads w) (heap (mem w))) /\ 1 <= count d).
Proof.
  intros Hsz Hs Hf Ev Ew. pose proof (run_refines size_of Hsz ops world0 [] (R_initial size_of) Hf Hs) as H.
  rewrite Ev in H. destruct H as (w' & E & (Hw & HR & _)). rewrite Ew in E. injection E as <- _.
  pose proof (nodes_bounded _ _ _ Hw HR) as Hn. split_and!; [done | |].
  - intros H0. apply map_size_empty_inv. assert (total vs = 0%nat) as E0; [| lia].
    clear -H0. induction H0 as [|v vs -> _ IH]; [done |]. done.
  - intros a d Hd. split; [| by eapply w_pos]. rewrite (w_count _ _ Hw) by (by eapply node_nonzero). by rewrite Hd.
Qed.

(** Two packets that share tags: the second removes and replaces some. *)
Definition demo_ops : list TagOp :=
  [NewT; AddT 0 7 [1; 2]; AddT 0 8 [3; 4]; AddT 0 9 [5; 6]; CopyT 0; RemoveT 1 8; ReplaceT 1 7 [0; 0]; PeekT 0 8; PeekT 1 7;
   NewT; AssignT 2 1; ClearT 0; ClearT 1].

Lemma tag_lists_refine_witness : exists vs rs w, spec_run demo_ops [] = Some (vs, rs) /\ run demo_ops world0 = Some (w, rs) /\
  Forall2 (rep (mem w)) (heads w) vs /\ vs = [[]; []; [(9, [5; 6]); (7, [0; 0])]].
Proof.
  assert (Forall (op_sized (fun _ => 2%nat)) demo_ops) as Hs by (repeat constructor).
  pose proof (tag_lists_refine (fun _ => 2%nat) demo_ops (fun _ => eq_refl) Hs eq_refl) as H.
  eexists _, _. cbn in H. destruct H as (w & E & HR). exists w. split; [reflexivity |]. split; [exact E |]. by split.
Defined.

Lemma tag_nodes_exact_witness : exists w rs, run (demo_ops ++ [ClearT 2]) world0 = Some (w, rs) /\ heap (mem w) = ∅.
Proof.
  assert (Forall (op_sized (fun _ => 2%nat)) (demo_ops ++ [ClearT 2])) as Hs by (repeat constructor).
  destruct (run (demo_ops ++ [ClearT 2]) world0) as [[w rs]|] eqn:E; [| by vm_compute in E].
  exists w, rs. split; [done |]. eapply (tag_nodes_exact (fun _ => 2%nat)); [done | exact Hs | reflexivity | reflexivity | exact E |].
  repeat constructor.
Defined.

(** [Replace] depends on sharing when the size of the tag changes: a list that
    shares the node takes the new bytes, a list that owns it keeps the old tail
    behind the new bytes, and a longer tag aborts. *)
Lemma replace_depends_on_sharing :
  (exists w, run [NewT; AddT 0 7 [1; 2]; ReplaceT 0 7 [9]; PeekT 0 7] world0 = Some (w, [TDone; TDone; TFlag true; TBytes (Some [9; 2])])) /\
  (exists w, run [NewT; AddT 0 7 [1; 2]; CopyT 0; ReplaceT 0 7 [9]; PeekT 0 7] world0 = Some (w, [TDone; TDone; TDone; TFlag true; TBytes (Some [9])])) /\
  run [NewT; AddT 0 7 [1; 2]; ReplaceT 0 7 [9; 9; 9]] world0 = None.
Proof. split_and!; [by eexists | by eexists | reflexivity]. Qed.

End PacketTags.
