(* ===== verification/TcpRxBuffer.v ===== *)
(** * The TCP receive buffer (src/internet/model/tcp-rx-buffer.cc)

    [TcpRxBuffer] stores the segments of a connection, in order or not, and
    hands the contiguous part to the application. Sequence numbers are the
    32-bit numbers of [SequenceNumber]; packets are those of [PacketBytes]. The [std::map] from sequence numbers to packets is the list
    of its entries in the order of [operator<]. *)

From S2P Require Import Prelude Buffer BufferInv PacketBytes SequenceNumber.
Import Buffer BufferInv PacketBytes SequenceNumber.

Module TcpRxBuffer.

Definition SackBlock : Type := SequenceNumber * SequenceNumber.

Record TcpRxBuffer := mkRx {
  m_nextRxSeq : SequenceNumber;
  m_finSeq : SequenceNumber;
  m_gotFin : bool;
  rx_size : Z;
  m_maxBuffer : Z;
  m_availBytes : Z;
  rx_data : list (SequenceNumber * Packet);
  m_sackList : list SackBlock
}.

(** ** std::map *)

(** [m[k] = v]: replace the value of an equivalent key or insert in order. *)
Fixpoint map_assign (k : SequenceNumber) (v : Packet) (l : list (SequenceNumber * Packet))
    : list (SequenceNumber * Packet) :=
  match l with
  | [] => [(k, v)]
  | (k', v') :: rest =>
      if lt 32 k k' then (k, v) :: l
      else if lt 32 k' k then (k', v') :: map_assign k v rest
      else (k', v) :: rest
  end.

(** [m.find(k) == m.end()]. *)
Definition map_absent (k : SequenceNumber) (l : list (SequenceNumber * Packet)) : bool :=
  forallb (fun e => lt 32 k e.1 || lt 32 e.1 k) l.

(** [s + SequenceNumber32(n)]. *)
Definition advance (s : SequenceNumber) (n : Z) : SequenceNumber :=
  plus_seq 32 s (SequenceNumber_of (u32 n)).

(** ** Accessors *)

Definition TcpRxBuffer_new (n : Z) : TcpRxBuffer :=
  mkRx (SequenceNumber_of n) SequenceNumber_default false 0 32768 0 [] [].
Definition NextRxSequence (b : TcpRxBuffer) : SequenceNumber := m_nextRxSeq b.
Definition SetNextRxSequence (s : SequenceNumber) (b : TcpRxBuffer) : TcpRxBuffer :=
  mkRx s (m_finSeq b) (m_gotFin b) (rx_size b) (m_maxBuffer b) (m_availBytes b) (rx_data b) (m_sackList b).
Definition MaxBufferSize (b : TcpRxBuffer) : Z := m_maxBuffer b.
Definition SetMaxBufferSize (s : Z) (b : TcpRxBuffer) : TcpRxBuffer :=
  mkRx (m_nextRxSeq b) (m_finSeq b) (m_gotFin b) (rx_size b) s (m_availBytes b) (rx_data b) (m_sackList b).
Definition Size (b : TcpRxBuffer) : Z := rx_size b.
Definition Available (b : TcpRxBuffer) : Z := m_availBytes b.
Definition GotFin (b : TcpRxBuffer) : bool := m_gotFin b.
Definition IncNextRxSequence (b : TcpRxBuffer) : option TcpRxBuffer :=
  assert* rx_size b =? 0 in Some (SetNextRxSequence (pre_inc 32 (m_nextRxSeq b)) b).

Definition MaxRxSequence (b : TcpRxBuffer) : SequenceNumber :=
  if m_gotFin b then m_finSeq b
  else match rx_data b with
       | (first, _) :: _ =>
           if gt 32 (m_nextRxSeq b) first then advance first (m_maxBuffer b)
           else advance (m_nextRxSeq b) (m_maxBuffer b)
       | [] => advance (m_nextRxSeq b) (m_maxBuffer b)
       end.

Definition SetFinSequence (s : SequenceNumber) (b : TcpRxBuffer) : TcpRxBuffer :=
  let next := if eq (m_nextRxSeq b) s then pre_inc 32 (m_nextRxSeq b) else m_nextRxSeq b in
  mkRx next s true (rx_size b) (m_maxBuffer b) (m_availBytes b) (rx_data b) (m_sackList b).

Definition Finished (b : TcpRxBuffer) : bool := m_gotFin b && lt 32 (m_finSeq b) (m_nextRxSeq b).

Definition GetSackListSize (b : TcpRxBuffer) : Z := u32 (Z.of_nat (length (m_sackList b))).
Definition GetSackList (b : TcpRxBuffer) : list SackBlock := m_sackList b.

(** ** The SACK list *)

(** One pass of the merging loop after the first block [begin]: the first block
    that continues it on the left or on the right, merged, and the others. *)
Fixpoint find_merge (begin : SackBlock) (l : list SackBlock) : option (option (SackBlock * list SackBlock)) :=
  match l with
  | [] => Some None
  | current :: rest =>
      if eq begin.1 current.2 then
        assert* lt 32 current.1 begin.2 in Some (Some ((current.1, begin.2), rest))
      else if eq begin.2 current.1 then
        assert* lt 32 begin.1 current.2 in Some (Some ((begin.1, current.2), rest))
      else
        let* r := find_merge begin rest in
        Some (match r with Some (m, rest') => Some (m, current :: rest') | None => None end)
  end.

(** The loop restarts after each merge, which removes a block; [fuel] is the
    number of blocks. *)
Fixpoint merge_blocks (fuel : nat) (begin : SackBlock) (l : list SackBlock) : option (list SackBlock) :=
  let* r := find_merge begin l in
  match r with
  | None => Some (begin :: l)
  | Some (merged, l') =>
      match fuel with O => None | S fuel' => merge_blocks fuel' merged l' end
  end.

Definition UpdateSackList (head tail : SequenceNumber) (nextRx : SequenceNumber) (l : list SackBlock)
    : option (list SackBlock) :=
  assert* gt 32 head nextRx in
  let* l := merge_blocks (length l) (head, tail) l in
  Some (if (4 <? length l)%nat then take (length l - 1) l else l).

Fixpoint ClearSackList (seq : SequenceNumber) (l : list SackBlock) : option (list SackBlock) :=
  match l with
  | [] => Some []
  | block :: rest =>
      assert* lt 32 block.1 block.2 in
      let* rest' := ClearSackList seq rest in
      Some (if le 32 block.2 seq then rest' else block :: rest')
  end.

(** ** Add *)

(** The loop that removes overlapped bytes: the range left of the packet, the
    occupancy and the entries kept. *)
Fixpoint overlap (headSeq tailSeq : SequenceNumber) (size : Z) (l : list (SequenceNumber * Packet))
    : SequenceNumber * SequenceNumber * Z * list (SequenceNumber * Packet) :=
  match l with
  | [] => (headSeq, tailSeq, size, [])
  | (first, p) :: rest =>
      if le 32 first tailSeq then
        let lastByteSeq := advance first (GetSize p) in
        if gt 32 lastByteSeq headSeq then
          if gt 32 first headSeq && lt 32 lastByteSeq tailSeq then
            overlap headSeq tailSeq (u32 (size - GetSize p)) rest
          else
            let headSeq' := if le 32 first headSeq then lastByteSeq else headSeq in
            let tailSeq' := if ge 32 lastByteSeq tailSeq then first else tailSeq in
            let '(h, t, sz, rest') := overlap headSeq' tailSeq' size rest in
            (h, t, sz, (first, p) :: rest')
        else
          let '(h, t, sz, rest') := overlap headSeq tailSeq size rest in
          (h, t, sz, (first, p) :: rest')
      else (headSeq, tailSeq, size, l)
  end.

(** The loop that advances [m_nextRxSeq] over contiguous entries. *)
Fixpoint advance_next (next : SequenceNumber) (avail : Z) (sack : list SackBlock)
    (l : list (SequenceNumber * Packet)) : option (SequenceNumber * Z * list SackBlock) :=
  match l with
  | [] => Some (next, avail, sack)
  | (first, p) :: rest =>
      if lt 32 first next then advance_next next avail sack rest
      else if gt 32 first next then Some (next, avail, sack)
      else
        let next' := advance first (GetSize p) in
        let* sack' := ClearSackList next' sack in
        advance_next next' (u32 (avail + GetSize p)) sack' rest
  end.

(** The packet trimmed to the receive window. *)
Definition trim (headSeq tailSeq : SequenceNumber) (b : TcpRxBuffer) : SequenceNumber * SequenceNumber :=
  let headSeq := if lt 32 headSeq (m_nextRxSeq b) then m_nextRxSeq b else headSeq in
  match rx_data b with
  | [] => (headSeq, tailSeq)
  | (first, _) :: _ =>
      let maxSeq := advance first (m_maxBuffer b) in
      let tailSeq := if lt 32 maxSeq tailSeq then maxSeq else tailSeq in
      let headSeq := if lt 32 tailSeq headSeq then tailSeq else headSeq in
      (headSeq, tailSeq)
  end.

(** [Add(p, tcph)] for a header with sequence number [seq]. *)
Definition Add (p : Packet) (seq : SequenceNumber) (b : TcpRxBuffer) : option (bool * TcpRxBuffer) :=
  let pktSize := GetSize p in
  let '(headSeq, tailSeq) := trim seq (advance seq pktSize) b in
  let '(headSeq, tailSeq, size, data) := overlap headSeq tailSeq (rx_size b) (rx_data b) in
  if ge 32 headSeq tailSeq then
    Some (false, mkRx (m_nextRxSeq b) (m_finSeq b) (m_gotFin b) size (m_maxBuffer b) (m_availBytes b) data
                   (m_sackList b))
  else
    let* start := minus_seq 32 headSeq seq in
    let* length := minus_seq 32 tailSeq headSeq in
    let* p := CreateFragment (u32 start) (u32 length) p in
    assert* u32 length =? GetSize p in
    assert* map_absent headSeq data in
    let data := map_assign headSeq p data in
    let* sack :=
      if gt 32 headSeq (m_nextRxSeq b) then UpdateSackList headSeq tailSeq (m_nextRxSeq b) (m_sackList b)
      else Some (m_sackList b) in
    let size := u32 (size + GetSize p) in
    let* (next, avail, sack) := advance_next (m_nextRxSeq b) (m_availBytes b) sack data in
    let next := if m_gotFin b && eq next (m_finSeq b) then pre_inc 32 next else next in
    Some (true, mkRx next (m_finSeq b) (m_gotFin b) size (m_maxBuffer b) avail data sack).

(** ** Extract *)

Section Extract.
Context {mem : Memory}.
(** The extraction loop: [outPkt] holds the bytes taken so far. *)
Fixpoint extract_loop (next : SequenceNumber) (extractSize : Z) (outPkt : Packet) (l : list (SequenceNumber * Packet))
    (size avail : Z) : option (Packet * list (SequenceNumber * Packet) * Z * Z) :=
  if extractSize =? 0 then Some (outPkt, l, size, avail)
  else match l with
  | [] => None
  | (first, p) :: rest =>
      assert* le 32 first next in
      let pktSize := GetSize p in
      if pktSize <=? extractSize then
        let* outPkt := AddAtEnd p outPkt in
        extract_loop next (u32 (extractSize - pktSize)) outPkt rest (u32 (size - pktSize)) (u32 (avail - pktSize))
      else
        let* head := CreateFragment 0 extractSize p in
        let* outPkt := AddAtEnd head outPkt in
        let* tail := CreateFragment extractSize (pktSize - extractSize) p in
        let l' := map_assign (advance first extractSize) tail ((first, p) :: rest) in
        Some (outPkt, tl l', u32 (size - extractSize), u32 (avail - extractSize))
  end.

(** The packet extracted, [None] standing for the null pointer. *)
Definition Extract (maxSize : Z) (b : TcpRxBuffer) : option (option Packet * TcpRxBuffer) :=
  let extractSize := Z.min maxSize (m_availBytes b) in
  if extractSize =? 0 then Some (None, b)
  else
    assert* negb (length (rx_data b) =? 0)%nat in
    let* (outPkt, data, size, avail) :=
      extract_loop (m_nextRxSeq b) extractSize [] (rx_data b) (rx_size b) (m_availBytes b) in
    let b' := mkRx (m_nextRxSeq b) (m_finSeq b) (m_gotFin b) size (m_maxBuffer b) avail data (m_sackList b) in
    Some (if GetSize outPkt =? 0 then None else Some outPkt, b').
End Extract.

(** ** The stream *)

(** Segments and SACK blocks are described by offsets from the first byte of
    the stream; offsets that meet in a comparison are less than 2^31 apart. *)
Section Stream.
Context (isn : Z) (stream : Z -> Z).

Definition sq (o : Z) : SequenceNumber := mkSeq (wrap 32 (isn + o)).
Definition bytes (o n : Z) : list Z := (fun i => stream (o + i)) <$> seqZ 0 n.
Definition entry (e : Z * Z) : SequenceNumber * Packet := (sq e.1, bytes e.1 e.2).
Definition block (e : Z * Z) : SackBlock := (sq e.1, sq e.2).

Lemma bytes_size o n : 0 <= n -> zlen (bytes o n) = n.
Proof. intros. unfold zlen, bytes. rewrite length_fmap, length_seqZ. lia. Qed.

Lemma bytes_lookup o n i : (i < Z.to_nat n)%nat -> bytes o n !! i = Some (stream (o + Z.of_nat i)).
Proof. intros. unfold bytes. rewrite list_lookup_fmap, lookup_seqZ_lt by lia. simpl. do 2 f_equal. Qed.

Lemma bytes_slice o n a k : 0 <= a -> 0 <= k -> a + k <= n -> slice a (a + k) (bytes o n) = bytes (o + a) k.
Proof.
  intros Ha Hk Hn. apply list_eq_same_length with (Z.to_nat k).
  - pose proof (bytes_size (o + a) k Hk). unfold zlen in *. lia.
  - rewrite slice_lenN by (rewrite ?bytes_size; lia). lia.
  - intros i x y Hi. rewrite slice_lookup by lia. rewrite !bytes_lookup by lia. intros [= <-] [= <-].
    f_equal. lia.
Qed.

Lemma CreateFragment_bytes o n a k :
  0 <= a -> 0 <= k -> a + k <= n -> n < 2 ^ 32 -> CreateFragment a k (bytes o n) = Some (bytes (o + a) k).
Proof.
  intros. rewrite CreateFragment_slice by (rewrite ?bytes_size; lia). f_equal. by apply bytes_slice.
Qed.

Lemma bytes_app o n k : 0 <= n -> 0 <= k -> bytes o n ++ bytes (o + n) k = bytes o (n + k).
Proof.
  intros. unfold bytes. rewrite seqZ_app by lia. rewrite fmap_app. f_equal.
  rewrite (Z.add_comm 0 n), <- fmap_add_seqZ, <- list_fmap_compose.
  apply list_fmap_ext. intros i x _. simpl. f_equal. lia.
Qed.

(** Consecutive pieces of the stream can be joined. *)
Class JoinsPieces {mem : Memory} : Prop := joins_pieces o n k : 0 <= n -> 0 <= k -> joining (bytes o n) (bytes (o + n) k) = Joined.
Lemma AddAtEnd_bytes `{JoinsPieces} o n o' k : o' = o + n -> 0 <= n -> 0 <= k -> AddAtEnd (bytes o' k) (bytes o n) = Some (bytes o (n + k)).
Proof. intros -> Hn Hk. unfold AddAtEnd. by rewrite joins_pieces, bytes_app. Qed.

Lemma advance_sq o n : 0 <= n < 2 ^ 32 -> advance (sq o) n = sq (o + n).
Proof.
  intros Hn. unfold advance, plus_seq, SequenceNumber_of, sq. cbn [m_value]. rewrite (u32_small n Hn). f_equal.
  unfold wrap. rewrite Zplus_mod_idemp_l. f_equal. lia.
Qed.

Lemma pre_inc_sq o : pre_inc 32 (sq o) = sq (o + 1).
Proof. unfold pre_inc, sq. simpl. f_equal. unfold wrap. rewrite Zplus_mod_idemp_l. f_equal. lia. Qed.

(** Comparisons of sequence numbers are comparisons of offsets. *)
Definition near (x y : Z) : Prop := - 2 ^ 31 < x - y < 2 ^ 31.

Lemma gt_sq x y : near x y -> gt 32 (sq x) (sq y) = (y <? x).
Proof.
  intros H. unfold sq. rewrite gt_near; [| lia | unfold near in H; simpl; lia].
  destruct (Z.ltb_spec y x), (Z.ltb_spec (isn + y) (isn + x)); try done; lia.
Qed.
Lemma eq_sq x y : near x y -> eq (sq x) (sq y) = (x =? y).
Proof.
  intros H. unfold sq. rewrite (eq_near 32); [| lia | unfold near in H; simpl; lia].
  destruct (Z.eqb_spec x y), (Z.eqb_spec (isn + x) (isn + y)); try done; lia.
Qed.
Lemma le_sq x y : near x y -> le 32 (sq x) (sq y) = (x <=? y).
Proof. intros H. unfold le. rewrite gt_sq by done. by rewrite Z.leb_antisym. Qed.
Lemma lt_sq x y : near x y -> lt 32 (sq x) (sq y) = (x <? y).
Proof.
  intros H. unfold lt. rewrite gt_sq by done. change (m_value (sq x) =? m_value (sq y)) with (eq (sq x) (sq y)).
  rewrite eq_sq by done. destruct (Z.ltb_spec y x), (Z.eqb_spec x y), (Z.ltb_spec x y); try done; lia.
Qed.
Lemma ge_sq x y : near x y -> ge 32 (sq x) (sq y) = (y <=? x).
Proof.
  intros H. unfold ge. rewrite gt_sq, eq_sq by done.
  destruct (Z.ltb_spec y x), (Z.eqb_spec x y), (Z.leb_spec y x); try done; lia.
Qed.
Lemma minus_sq x y : near x y -> minus_seq 32 (sq x) (sq y) = Some (x - y).
Proof. intros H. unfold sq. rewrite minus_near; [f_equal; lia | lia | unfold near in H; simpl; lia]. Qed.

End Stream.

Lemma plain_joins stream : @JoinsPieces stream plain_memory.
Proof. done. Qed.

End TcpRxBuffer.
