(* ===== verification/TcpRxProps.v ===== *)
(** * Correctness of the TCP receive buffer

    The buffer of [TcpRxBuffer] refines the set of stream offsets it holds: a
    segment adds its bytes inside the window, extraction delivers the stream in
    order, and the SACK list only reports bytes the buffer holds. *)

From S2P Require Import Prelude Buffer BufferInv PacketBytes SequenceNumber TcpRxBuffer.
Import Buffer BufferInv PacketBytes SequenceNumber TcpRxBuffer.

Module TcpRxProps.

(** ** Ranges of offsets *)

(** Ordered, disjoint, non-empty segments [(offset, length)] inside [lo, hi]. *)
Fixpoint laid (lo hi : Z) (segs : list (Z * Z)) : Prop :=
  match segs with
  | [] => lo <= hi
  | (o, n) :: rest => lo <= o /\ 0 < n /\ laid (o + n) hi rest
  end.

Definition held (segs : list (Z * Z)) (x : Z) : Prop := exists o n, (o, n) ∈ segs /\ o <= x < o + n.
Definition total (segs : list (Z * Z)) : Z := foldr (fun e s => e.2 + s) 0 segs.

(** The operations of the buffer on offsets. *)
Fixpoint overlapZ (h t : Z) (segs : list (Z * Z)) : Z * Z * list (Z * Z) :=
  match segs with
  | [] => (h, t, [])
  | (o, n) :: rest =>
      if o <=? t then
        if h <? o + n then
          if (h <? o) && (o + n <? t) then overlapZ h t rest
          else
            let h' := if o <=? h then o + n else h in
            let t' := if t <=? o + n then o else t in
            let '(h'', t'', rest') := overlapZ h' t' rest in (h'', t'', (o, n) :: rest')
        else let '(h'', t'', rest') := overlapZ h t rest in (h'', t'', (o, n) :: rest')
      else (h, t, segs)
  end.

Fixpoint insertZ (h n : Z) (segs : list (Z * Z)) : list (Z * Z) :=
  match segs with
  | [] => [(h, n)]
  | (o, k) :: rest => if h <? o then (h, n) :: segs else (o, k) :: insertZ h n rest
  end.

Fixpoint reachZ (next : Z) (segs : list (Z * Z)) : Z :=
  match segs with
  | [] => next
  | (o, n) :: rest =>
      if o <? next then reachZ next rest else if next <? o then next else reachZ (o + n) rest
  end.

Fixpoint dropZ (k : Z) (segs : list (Z * Z)) : list (Z * Z) :=
  match segs with
  | [] => []
  | (o, n) :: rest =>
      if k =? 0 then segs
      else if n <=? k then dropZ (k - n) rest
      else (o + k, n - k) :: rest
  end.

(** *** Facts about segments *)

Lemma laid_weaken lo lo' hi hi' segs : laid lo hi segs -> lo' <= lo -> hi <= hi' -> laid lo' hi' segs.
Proof.
  revert lo lo'. induction segs as [|[o n] segs IH]; simpl; intros lo lo' H Hl Hh; [lia |].
  destruct H as (? & ? & ?). split_and!; [lia | lia |]. by apply (IH (o + n)).
Qed.

Lemma laid_range lo hi segs : laid lo hi segs -> lo <= hi.
Proof.
  revert lo. induction segs as [|[o n] segs IH]; simpl; intros lo H; [done |]. destruct H as (? & ? & ?%IH). lia.
Qed.

Lemma laid_bounds lo hi segs o n : laid lo hi segs -> (o, n) ∈ segs -> lo <= o /\ 0 < n /\ o + n <= hi.
Proof.
  revert lo. induction segs as [|[o' n'] segs IH]; simpl; intros lo H Hin; [by apply elem_of_nil in Hin |].
  destruct H as (? & ? & H). pose proof (laid_range _ _ _ H).
  apply elem_of_cons in Hin as [[= -> ->]|Hin]; [lia |]. destruct (IH _ H Hin). lia.
Qed.

Lemma held_cons o n segs x : held ((o, n) :: segs) x <-> o <= x < o + n \/ held segs x.
Proof.
  unfold held. split.
  - intros (o' & n' & [[= -> ->]|Hin]%elem_of_cons & Hx); [by left | right; by exists o', n'].
  - intros [Hx|(o' & n' & Hin & Hx)]; [exists o, n; split; [by left | done] | exists o', n'; split; [by right | done]].
Qed.

Lemma held_nil x : ~ held [] x.
Proof. intros (o & n & H & _). by apply elem_of_nil in H. Qed.

Lemma held_bounds lo hi segs x : laid lo hi segs -> held segs x -> lo <= x < hi.
Proof. intros Hl (o & n & Hin & Hx). destruct (laid_bounds _ _ _ _ _ Hl Hin). lia. Qed.

Lemma total_nonneg lo hi segs : laid lo hi segs -> 0 <= total segs <= hi - lo.
Proof.
  revert lo. induction segs as [|[o n] segs IH]; intros lo H; [simpl in *; lia |].
  simpl in H. destruct H as (? & ? & H%IH). simpl. lia.
Qed.

(** *** Trimming against the stored segments *)

Lemma overlapZ_above h t segs lo hi :
  laid lo hi segs -> t < lo -> overlapZ h t segs = (h, t, segs).
Proof.
  destruct segs as [|[o n] segs]; simpl; [done |]. intros (? & ? & _) Ht.
  by rewrite (proj2 (Z.leb_gt o t)) by lia.
Qed.

(** A head below every segment is kept. *)
Lemma overlapZ_low h t segs lo hi h' t' segs' :
  laid lo hi segs -> h < lo -> h < t -> overlapZ h t segs = (h', t', segs') -> h' = h /\ h < t'.
Proof.
  revert h t lo h' t' segs'. induction segs as [|[o n] segs IH]; intros h t lo h' t' segs' Hl Hh Ht E; simpl in E.
  { by injection E as <- <- <-. }
  simpl in Hl. destruct Hl as (H1 & H2 & Hl).
  destruct (Z.leb_spec o t); [| by injection E as <- <- <-].
  rewrite (proj2 (Z.ltb_lt h (o + n))), (proj2 (Z.ltb_lt h o)) in E by lia. simpl in E.
  destruct (Z.ltb_spec (o + n) t); [by apply (IH _ _ _ _ _ _ Hl) in E; [| lia | lia] |].
  rewrite (proj2 (Z.leb_gt o h)), (proj2 (Z.leb_le t (o + n))) in E by lia.
  rewrite (overlapZ_above h o segs _ _ Hl) in E by lia. injection E as <- <- <-. lia.
Qed.

Record trimmed (h t : Z) (segs : list (Z * Z)) (h' t' : Z) (segs' : list (Z * Z)) lo hi : Prop := mkTrimmed {
  tr_laid : laid lo hi segs';
  tr_sub : forall e, e ∈ segs' -> e ∈ segs;
  tr_range : h' < t' -> h <= h' /\ t' <= t;
  tr_apart : h' < t' -> forall o n, (o, n) ∈ segs' -> o + n <= h' \/ t' <= o;
  tr_same : t' <= h' -> segs' = segs /\ forall x, h <= x < t -> held segs x;
  tr_held : h' < t' -> forall x, held segs' x \/ h' <= x < t' <-> held segs x \/ h <= x < t;
  tr_new : h' < t' -> ~ held segs h'
}.

Lemma overlapZ_ok h t segs lo hi h' t' segs' :
  laid lo hi segs -> h <= t -> overlapZ h t segs = (h', t', segs') -> trimmed h t segs h' t' segs' lo hi.
Proof.
  revert h t lo h' t' segs'. induction segs as [|[o n] segs IH]; intros h t lo h' t' segs' Hl Ht E.
  { simpl in E. injection E as <- <- <-. split; try done; [by intros ? ? ? ?%elem_of_nil | |].
    - intros ?. split; [done |]. intros x Hx. exfalso. lia.
    - intros _. apply held_nil. }
  cbn [overlapZ] in E. pose proof Hl as (H1 & H2 & Hl').
  destruct (Z.leb_spec o t) as [Hot|Hot].
  2: { injection E as <- <- <-. assert (laid o hi ((o, n) :: segs)) as Hlo by by split_and!. split; try done.
       - intros _ o' n' Hin. right. destruct (laid_bounds _ _ _ o' n' Hlo); [done | lia].
       - intros ?. split; [done |]. intros x Hx. exfalso. lia.
       - intros Hlt ?%(held_bounds _ _ _ _ Hlo). lia. }
  destruct (Z.ltb_spec h (o + n)) as [He|He].
  2: { destruct (overlapZ h t segs) as [[h1 t1] segs1] eqn:E1. injection E as <- <- <-.
       destruct (IH _ _ _ _ _ _ Hl' Ht E1) as [T1 T0 T2 T3 T4 T5 T6]. split.
       - by split_and!.
       - intros e. rewrite !elem_of_cons. intros [?|?]; auto.
       - done.
       - intros Hlt o' n' [[= -> ->]|Hin]%elem_of_cons; [left; destruct (T2 Hlt); lia | by apply T3].
       - intros [-> Hx]%T4. split; [done |]. intros x Hr. apply held_cons. right. auto.
       - intros Hlt x. rewrite !held_cons. specialize (T5 Hlt x). tauto.
       - intros Hlt [?|?]%held_cons; [destruct (T2 Hlt); lia | by apply T6]. }
  destruct (Z.ltb_spec h o) as [Hho|Hho]; simpl in E.
  - destruct (Z.ltb_spec (o + n) t) as [Het|Het].
    + assert (h < t) as Hht by lia. destruct (overlapZ_low _ _ _ _ _ _ _ _ Hl' He Hht E) as [-> Hlt].
      destruct (IH _ _ _ _ _ _ Hl' Ht E) as [T1 T0 T2 T3 T4 T5 T6]. split; try done.
      * apply (laid_weaken (o + n) _ hi); [done | lia | lia].
      * intros e Hin. right. auto.
      * intros. lia.
      * intros Hlt' x. rewrite (T5 Hlt' x), held_cons. split; [tauto |]. intros [[Hx|Hx]|Hx]; auto. right. lia.
      * intros _ [?|?]%held_cons; [lia | by apply T6].
    + rewrite (proj2 (Z.leb_gt o h)), (proj2 (Z.leb_le t (o + n))) in E by lia.
      rewrite (overlapZ_above h o segs _ _ Hl') in E by lia. injection E as <- <- <-. split; try done.
      * intros _ o' n' [[= -> ->]|Hin]%elem_of_cons; [lia |].
        destruct (laid_bounds _ _ _ _ _ Hl' Hin). lia.
      * intros ?. exfalso. lia.
      * intros _ x. rewrite held_cons. split; [intros [?|?]; [tauto | right; lia] |].
        intros [?|Hx]; [tauto |]. destruct (Z.lt_ge_cases x o); [right; lia | left; left; lia].
      * intros _ ?%(held_bounds o hi ((o, n) :: segs)); [lia | by split_and!].
  - rewrite (proj2 (Z.leb_le o h)) in E by lia. destruct (Z.leb_spec t (o + n)) as [Het|Het].
    + rewrite (overlapZ_above _ o segs _ _ Hl') in E by lia. injection E as <- <- <-. split; try done; try lia.
      intros _. split; [done |]. intros x Hx. apply held_cons. left. lia.
    + destruct (overlapZ (o + n) t segs) as [[h1 t1] segs1] eqn:E1. injection E as <- <- <-.
      destruct (IH (o + n) t _ _ _ _ Hl' ltac:(lia) E1) as [T1 T0 T2 T3 T4 T5 T6]. split.
      * by split_and!.
      * intros e. rewrite !elem_of_cons. intros [?|?]; auto.
      * intros Hlt. destruct (T2 Hlt). lia.
      * intros Hlt o' n' [[= -> ->]|Hin]%elem_of_cons; [left; destruct (T2 Hlt); lia | by apply T3].
      * intros [-> Hx]%T4. split; [done |]. intros x Hr. apply held_cons.
        destruct (Z.lt_ge_cases x (o + n)); [left; lia | right; apply Hx; lia].
      * intros Hlt x. rewrite !held_cons. specialize (T5 Hlt x).
        assert (h <= x < t <-> (o <= x < o + n /\ h <= x) \/ o + n <= x < t) by lia. tauto.
      * intros Hlt [?|?]%held_cons; [destruct (T2 Hlt); lia | by apply T6].
Qed.

(** *** Inserting the trimmed segment *)

Lemma insertZ_laid lo hi h n segs :
  laid lo hi segs -> lo <= h -> 0 < n -> h + n <= hi ->
  (forall o k, (o, k) ∈ segs -> o + k <= h \/ h + n <= o) -> laid lo hi (insertZ h n segs).
Proof.
  revert lo. induction segs as [|[o k] segs IH]; intros lo Hl Hh Hn Hhi Ha; simpl.
  { split_and!; [lia | lia | lia]. }
  simpl in Hl. destruct Hl as (H1 & H2 & Hl). destruct (Ha o k ltac:(by left)) as [Hc|Hc].
  - rewrite (proj2 (Z.ltb_ge h o)) by lia. simpl. split_and!; try lia. apply IH; try done.
    intros o' k' Hin. apply Ha. by right.
  - rewrite (proj2 (Z.ltb_lt h o)) by lia. simpl. split_and!; try lia. done.
Qed.

Lemma insertZ_held h n segs x : held (insertZ h n segs) x <-> held segs x \/ h <= x < h + n.
Proof.
  induction segs as [|[o k] segs IH]; simpl.
  - rewrite held_cons. pose proof (held_nil x). tauto.
  - destruct (h <? o); rewrite !held_cons; [tauto |]. rewrite IH. tauto.
Qed.

Lemma insertZ_total h n segs : total (insertZ h n segs) = total segs + n.
Proof. induction segs as [|[o k] segs IH]; simpl; [lia |]. destruct (h <? o); simpl; lia. Qed.

Lemma insertZ_elem h n segs o k : (o, k) ∈ insertZ h n segs <-> (o, k) = (h, n) \/ (o, k) ∈ segs.
Proof.
  induction segs as [|[o' k'] segs IH]; simpl; [by rewrite list_elem_of_singleton, elem_of_nil; tauto |].
  destruct (h <? o'); rewrite !elem_of_cons; [tauto |]. rewrite IH. tauto.
Qed.

(** *** The contiguous part *)

(** [N] is not inside a segment. *)
Definition cut (N : Z) (segs : list (Z * Z)) : Prop := forall o n, (o, n) ∈ segs -> o + n <= N \/ N < o.

Lemma cut_not_held N segs : cut N segs -> ~ held segs N.
Proof. intros Hc (o & n & Hin & Hx). destruct (Hc _ _ Hin); lia. Qed.

Lemma reachZ_ok N segs lo hi :
  laid lo hi segs -> (forall o n, (o, n) ∈ segs -> o + n <= N \/ N <= o) ->
  let N' := reachZ N segs in
  N <= N' /\ (N' <= Z.max N hi) /\ cut N' segs /\ forall x, N <= x < N' -> held segs x.
Proof.
  revert N lo. induction segs as [|[o n] segs IH]; intros N lo Hl Ha; simpl.
  { split_and!; [lia | lia | by intros ? ? ?%elem_of_nil | lia]. }
  simpl in Hl. destruct Hl as (H1 & H2 & Hl). pose proof (laid_range _ _ _ Hl).
  assert (forall M, (forall o' n', (o', n') ∈ segs -> o' + n' <= M \/ M <= o') ->
    let N' := reachZ M segs in M <= N' /\ N' <= Z.max M hi /\ cut N' segs /\ forall x, M <= x < N' -> held segs x) as IH'
    by (intros M HM; by apply (IH M _ Hl)).
  assert (forall o' n', (o', n') ∈ segs -> o' + n' <= N \/ N <= o') as Ha' by (intros; apply Ha; by right).
  destruct (Z.ltb_spec o N) as [Ho|Ho]; [| destruct (Z.ltb_spec N o) as [Ho'|Ho']].
  - destruct (IH' N Ha') as (A & B & C & D). destruct (Ha o n ltac:(by left)); [| lia].
    split_and!; try done.
    + intros o' n' [[= -> ->]|Hin]%elem_of_cons; [lia | by apply C].
    + intros x Hx. apply held_cons. auto.
  - split_and!; [lia | lia | | lia]. intros o' n' [[= -> ->]|Hin]%elem_of_cons; [lia |].
    destruct (laid_bounds _ _ _ _ _ Hl Hin). lia.
  - assert (o = N) as -> by lia. destruct (IH' (N + n)) as (A & B & C & D).
    { intros o' n' Hin. destruct (laid_bounds _ _ _ _ _ Hl Hin). lia. }
    split_and!; try lia.
    + intros o' n' [[= -> ->]|Hin]%elem_of_cons; [lia | by apply C].
    + intros x Hx. apply held_cons. destruct (Z.lt_ge_cases x (N + n)); [left; lia | right; apply D; lia].
Qed.

(** *** Extraction *)

(** The segments start with the contiguous part [lo, N). *)
Lemma head_at lo hi N segs :
  laid lo hi segs -> lo < N -> cut N segs -> (forall x, lo <= x < N -> held segs x) ->
  exists n rest, segs = (lo, n) :: rest /\ 0 < n <= N - lo /\ laid (lo + n) hi rest /\ cut N rest /\
    forall x, lo + n <= x < N -> held rest x.
Proof.
  intros Hl HN Hc Hh. destruct segs as [|[o n] rest]; [by destruct (held_nil lo); apply Hh; lia |].
  simpl in Hl. destruct Hl as (H1 & H2 & Hl). assert (o = lo) as ->.
  { destruct (proj1 (held_cons o n rest lo) (Hh lo ltac:(lia))) as [?|Hr]; [lia |].
    apply (held_bounds _ _ _ _ Hl) in Hr. lia. }
  exists n, rest. destruct (Hc lo n ltac:(by left)); [| lia]. split_and!; try done; try lia.
  - intros o' n' Hin. apply Hc. by right.
  - intros x Hx. destruct (proj1 (held_cons lo n rest x) (Hh x ltac:(lia))); [lia | done].
Qed.

Lemma dropZ_ok k lo hi N segs :
  laid lo hi segs -> cut N segs -> (forall x, lo <= x < N -> held segs x) -> 0 <= k <= N - lo ->
  laid (lo + k) hi (dropZ k segs) /\ total (dropZ k segs) = total segs - k /\ cut N (dropZ k segs) /\
  (forall x, held (dropZ k segs) x <-> held segs x /\ lo + k <= x).
Proof.
  revert k lo. induction segs as [|[o n] segs IH]; intros k lo Hl Hc Hh Hk.
  { simpl in *. assert (k = 0) as ->.
    { destruct (Z.eq_dec k 0); [done |]. destruct (held_nil lo). apply Hh. lia. }
    split_and!; [lia | done | done |]. intros x. pose proof (held_nil x). tauto. }
  cbn [dropZ]. destruct (Z.eqb_spec k 0) as [->|Hk0].
  { split_and!; [by rewrite Z.add_0_r | lia | done |]. intros x. split; [| tauto]. intros Hx. split; [done |].
    destruct (held_bounds _ _ _ _ Hl Hx). lia. }
  destruct (head_at _ _ N _ Hl ltac:(lia) Hc Hh) as (n' & rest & [= -> -> ->] & Hn & Hl' & Hc' & Hh').
  destruct (Z.leb_spec n' k).
  - destruct (IH (k - n') (lo + n') Hl' Hc' Hh' ltac:(lia)) as (A & B & C & D).
    replace (lo + n' + (k - n')) with (lo + k) in A, D by lia. split_and!; [done | simpl; lia | done |].
    intros x. rewrite D, held_cons. split; [intros []; split; [by right | lia] |].
    intros [[?|?] ?]; [lia | done].
  - split_and!.
    + simpl. replace (lo + k + (n' - k)) with (lo + n') by lia. split_and!; [lia | lia | done].
    + simpl. lia.
    + intros o' n'' [[= -> ->]|Hin]%elem_of_cons; [lia | by apply Hc'].
    + intros x. rewrite !held_cons. replace (lo + k + (n' - k)) with (lo + n') by lia. split.
      * intros [?|Hx]; [lia |]. pose proof (held_bounds _ _ _ _ Hl' Hx). split; [by right | lia].
      * intros [[?|?] ?]; [left; lia | by right].
Qed.

(** ** The operations of the buffer, on offsets *)

Lemma total_cons o n segs : total ((o, n) :: segs) = n + total segs.
Proof. done. Qed.

Section Refinement.
Context (isn : Z) (stream : Z -> Z) {mem : Memory} {HJ : JoinsPieces stream}.
Notation sq := (sq isn).
Notation entry := (entry isn stream).
Notation block := (block isn).
Notation bytes := (bytes stream).

(** Offsets in a window of 2^31 starting at [c]. *)
Definition inw (c x : Z) : Prop := c <= x < c + 2 ^ 31.

Lemma inw_near c x y : inw c x -> inw c y -> near x y.
Proof. unfold inw, near. lia. Qed.

(** Rewrite comparisons of sequence numbers to comparisons of offsets. *)
Ltac sq_cmp c :=
  repeat match goal with
  | |- context [gt 32 (TcpRxBuffer.sq _ ?x) (TcpRxBuffer.sq _ ?y)] => rewrite (gt_sq isn x y) by (apply (inw_near c); unfold inw in *; lia)
  | |- context [lt 32 (TcpRxBuffer.sq _ ?x) (TcpRxBuffer.sq _ ?y)] => rewrite (lt_sq isn x y) by (apply (inw_near c); unfold inw in *; lia)
  | |- context [le 32 (TcpRxBuffer.sq _ ?x) (TcpRxBuffer.sq _ ?y)] => rewrite (le_sq isn x y) by (apply (inw_near c); unfold inw in *; lia)
  | |- context [ge 32 (TcpRxBuffer.sq _ ?x) (TcpRxBuffer.sq _ ?y)] => rewrite (ge_sq isn x y) by (apply (inw_near c); unfold inw in *; lia)
  | |- context [SequenceNumber.eq (TcpRxBuffer.sq _ ?x) (TcpRxBuffer.sq _ ?y)] => rewrite (eq_sq isn x y) by (apply (inw_near c); unfold inw in *; lia)
  end.

Lemma entry_size o n : 0 <= n -> GetSize (entry (o, n)).2 = n.
Proof. apply bytes_size. Qed.

Lemma overlap_sq c lo hi h t size segs h' t' segs' :
  laid lo hi segs -> inw c lo -> inw c hi -> inw c h -> inw c t -> total segs <= size < 2 ^ 32 ->
  overlapZ h t segs = (h', t', segs') ->
  overlap (sq h) (sq t) size (entry <$> segs) =
    (sq h', sq t', size - (total segs - total segs'), entry <$> segs') /\ inw c h' /\ inw c t' /\
  total segs' <= size - (total segs - total segs') < 2 ^ 32.
Proof.
  revert lo h t size h' t' segs'. induction segs as [|[o n] segs IH]; intros lo h t size h' t' segs' Hl Hlo Hhi Hh Ht Hsz E.
  { injection E as <- <- <-. split_and!; try done; [| lia..]. simpl. do 2 f_equal. lia. }
  pose proof Hl as (H1 & H2 & Hl'). pose proof (laid_range _ _ _ Hl'). rewrite total_cons in Hsz |- *.
  assert (inw c o /\ inw c (o + n)) as [Ho Hon] by (unfold inw in *; lia).
  pose proof (total_nonneg _ _ _ Hl') as Htn. assert (hi - lo < 2 ^ 31) by (unfold inw in Hhi, Hlo; lia).
  rewrite fmap_cons. cbn [overlap overlapZ] in E |- *. unfold TcpRxBuffer.entry at 1. cbn [fst snd].
  unfold GetSize. rewrite bytes_size by lia. rewrite advance_sq by lia. sq_cmp c.
  (* the entry is kept *)
  assert (forall h1 t1, inw c h1 -> inw c t1 -> (let '(h2, t2, r) := overlapZ h1 t1 segs in (h2, t2, (o, n) :: r)) = (h', t', segs') ->
    (let '(h2, t2, sz, r) := overlap (sq h1) (sq t1) size (entry <$> segs) in (h2, t2, sz, (sq o, bytes o n) :: r)) =
      (sq h', sq t', size - (n + total segs - total segs'), entry <$> segs') /\ inw c h' /\ inw c t' /\
      total segs' <= size - (n + total segs - total segs') < 2 ^ 32) as Hkeep.
  { intros h1 t1 Hh1 Ht1 Ek. destruct (overlapZ h1 t1 segs) as [[h2 t2] r] eqn:E3. injection Ek as <- <- <-.
    destruct (IH (o + n) h1 t1 size h2 t2 r Hl' Hon Hhi Hh1 Ht1 ltac:(lia) E3) as (-> & A & B & C).
    rewrite total_cons, fmap_cons. split_and!; try done; try lia. do 2 f_equal. lia. }
  destruct (o <=? t).
  2: { injection E as <- <- <-. rewrite total_cons, fmap_cons. split_and!; try done; try lia. do 2 f_equal. lia. }
  destruct (h <? o + n); [| by apply Hkeep].
  destruct ((h <? o) && (o + n <? t)).
  - rewrite u32_small by lia. destruct (IH (o + n) h t (size - n) h' t' segs' Hl' Hon Hhi Hh Ht ltac:(lia) E) as (-> & A & B & C).
    split_and!; try done; try lia. do 2 f_equal. lia.
  - destruct (o <=? h), (t <=? o + n); by apply Hkeep.
Qed.

Lemma map_assign_sq c lo hi h n segs :
  laid lo hi segs -> inw c lo -> inw c hi -> inw c h ->
  (forall o k, (o, k) ∈ segs -> o <> h) ->
  map_absent (sq h) (entry <$> segs) = true /\
  map_assign (sq h) (bytes h n) (entry <$> segs) = entry <$> insertZ h n segs.
Proof.
  revert lo. induction segs as [|[o k] segs IH]; intros lo Hl Hlo Hhi Hh Ha; [done |].
  destruct Hl as (H1 & H2 & Hl). pose proof (laid_range _ _ _ Hl).
  assert (inw c o /\ inw c (o + k)) as [Ho Hok] by (unfold inw in *; lia).
  destruct (IH (o + k) Hl Hok Hhi Hh) as [A B]; [intros; eapply Ha; by right |].
  pose proof (Ha o k ltac:(by left)) as Hne.
  rewrite fmap_cons. unfold map_absent in *. cbn [forallb map_assign insertZ]. change (entry (o, k)) with (sq o, bytes o k). cbn [fst snd].
  sq_cmp c. split.
  - rewrite A, andb_true_r. destruct (Z.ltb_spec h o), (Z.ltb_spec o h); try done; lia.
  - destruct (Z.ltb_spec h o), (Z.ltb_spec o h); try lia; [done |]. rewrite B, fmap_cons. done.
Qed.

(** *** SACK blocks *)

(** Ordered blocks inside the window. *)
Definition blocks_ok (c : Z) (sacks : list (Z * Z)) : Prop :=
  forall a b, (a, b) ∈ sacks -> inw c a /\ inw c b /\ a < b.

Lemma blocks_ok_cons c a b sacks :
  blocks_ok c ((a, b) :: sacks) <-> (inw c a /\ inw c b /\ a < b) /\ blocks_ok c sacks.
Proof.
  unfold blocks_ok. split.
  - intros H. split; [apply H; by left | intros; apply H; by right].
  - intros [H1 H2] a' b' [[= -> ->]|Hin]%elem_of_cons; auto.
Qed.

Lemma ClearSackList_sq c N sacks :
  blocks_ok c sacks -> inw c N ->
  ClearSackList (sq N) (block <$> sacks) = Some (block <$> filter (fun e => N < e.2) sacks).
Proof.
  induction sacks as [|[a b] sacks IH]; intros Hb HN; [done |].
  apply blocks_ok_cons in Hb as [(Ha & Hb & Hab) Hr]. rewrite fmap_cons. cbn [ClearSackList].
  change (block (a, b)) with (sq a, sq b). cbn [fst snd]. sq_cmp c. rewrite (proj2 (Z.ltb_lt a b)) by done. simpl.
  rewrite IH by done. destruct (Z.leb_spec b N).
  - rewrite filter_cons_False by (simpl; lia). done.
  - rewrite filter_cons_True by (simpl; lia). done.
Qed.

Lemma find_merge_sq c a b sacks :
  blocks_ok c ((a, b) :: sacks) ->
  find_merge (sq a, sq b) (block <$> sacks) = Some None \/
  exists a' b' x y sacks', find_merge (sq a, sq b) (block <$> sacks) = Some (Some ((sq a', sq b'), block <$> sacks')) /\
    (x, y) ∈ sacks /\ sacks ≡ₚ (x, y) :: sacks' /\
    ((a = y /\ a' = x /\ b' = b) \/ (b = x /\ a' = a /\ b' = y)).
Proof.
  intros H. apply blocks_ok_cons in H as [(Ha & Hb & Hab) H]. revert H.
  induction sacks as [|[x y] sacks IH]; intros H; [by left |].
  apply blocks_ok_cons in H as [(Hx & Hy & Hxy) H]. rewrite fmap_cons. cbn [find_merge].
  change (block (x, y)) with (sq x, sq y). cbn [fst snd]. sq_cmp c.
  destruct (Z.eqb_spec a y) as [->|Hay].
  { right. exists x, b, x, y, sacks. rewrite (proj2 (Z.ltb_lt x b)) by lia. split_and!; [done | by left | done |].
    by left. }
  destruct (Z.eqb_spec b x) as [->|Hbx].
  { right. exists a, y, x, y, sacks. rewrite (proj2 (Z.ltb_lt a y)) by lia. split_and!; [done | by left | done |].
    by right. }
  destruct (IH H) as [->|(a' & b' & x' & y' & sacks' & -> & Hin & Hp & Hc)]; [by left |].
  right. exists a', b', x', y', ((x, y) :: sacks'). split_and!; [done | by right | | done].
  rewrite Hp. apply Permutation_swap.
Qed.

(** Merging keeps a property that is closed under joining adjacent blocks. *)
Lemma merge_blocks_sq c (P : Z -> Z -> Prop) fuel a b sacks :
  (forall x y z, x < y < z -> P x y -> P y z -> P x z) ->
  blocks_ok c ((a, b) :: sacks) -> (forall x y, (x, y) ∈ (a, b) :: sacks -> P x y) -> (length sacks <= fuel)%nat ->
  exists sacks', merge_blocks fuel (sq a, sq b) (block <$> sacks) = Some (block <$> sacks') /\
    blocks_ok c sacks' /\ (forall x y, (x, y) ∈ sacks' -> P x y) /\ (length sacks' <= S (length sacks))%nat.
Proof.
  intros Hjoin. revert a b sacks. induction fuel as [|fuel IH]; intros a b sacks Hok HP Hf; cbn [merge_blocks];
    destruct (find_merge_sq c a b sacks Hok) as [->|(a' & b' & x & y & l & -> & Hin & Hp & Hc)];
    try (by exists ((a, b) :: sacks); rewrite fmap_cons).
  - destruct sacks; [by apply elem_of_nil in Hin | simpl in Hf; lia].
  - apply Permutation_length in Hp as Hlen. simpl in Hlen.
    pose proof (proj1 (blocks_ok_cons _ _ _ _) Hok) as [(Ha & Hb & Hab) Hok'].
    destruct (Hok' x y Hin) as (Hx & Hy & Hxy).
    assert (P a b) as Pab by (apply HP; by left). assert (P x y) as Pxy by (apply HP; by right).
    assert (forall e, e ∈ l -> e ∈ sacks) as Hsub by (intros e He; rewrite Hp; by right).
    destruct (IH a' b' l) as (s' & E & A & B & C).
    + apply blocks_ok_cons. split; [destruct Hc as [(-> & -> & ->)|(-> & -> & ->)]; unfold inw in *; lia |].
      intros x' y' Hin'. by apply Hok', Hsub.
    + intros x' y' [[= -> ->]|Hin']%elem_of_cons; [| by apply HP; right; apply Hsub].
      destruct Hc as [(-> & -> & ->)|(-> & -> & ->)]; [by apply (Hjoin x y b) | by apply (Hjoin a x y)].
    + lia.
    + exists s'. split_and!; try done. lia.
Qed.

Lemma UpdateSackList_sq c (P : Z -> Z -> Prop) h t N sacks :
  (forall x y z, x < y < z -> P x y -> P y z -> P x z) -> inw c N -> N < h ->
  blocks_ok c ((h, t) :: sacks) -> (forall x y, (x, y) ∈ (h, t) :: sacks -> P x y) -> (length sacks <= 4)%nat ->
  exists sacks', UpdateSackList (sq h) (sq t) (sq N) (block <$> sacks) = Some (block <$> sacks') /\
    blocks_ok c sacks' /\ (forall x y, (x, y) ∈ sacks' -> P x y) /\ (length sacks' <= 4)%nat.
Proof.
  intros Hjoin HN HhN Hok HP Hlen. unfold UpdateSackList.
  pose proof (proj1 (blocks_ok_cons _ _ _ _) Hok) as [(Hh & Ht & Hht) _]. sq_cmp c.
  rewrite (proj2 (Z.ltb_lt N h)) by done. simpl. rewrite length_fmap.
  destruct (merge_blocks_sq c P (length sacks) h t sacks Hjoin Hok HP ltac:(lia)) as (l & -> & A & B & C).
  rewrite length_fmap. destruct (Nat.ltb_spec 4 (length l)).
  - exists (take (length l - 1) l). rewrite fmap_take. split_and!; try done.
    + intros x y Hin. apply A. by eapply elem_of_take in Hin as (? & ?%list_elem_of_lookup_2 & _).
    + intros x y Hin. apply B. by eapply elem_of_take in Hin as (? & ?%list_elem_of_lookup_2 & _).
    + rewrite length_take. lia.
  - by exists l.
Qed.

(** *** Advancing *)

Lemma advance_next_sq c lo hi N avail sacks segs :
  laid lo hi segs -> inw c lo -> inw c hi -> inw c N -> blocks_ok c sacks ->
  (forall a b, (a, b) ∈ sacks -> N < b) -> 0 <= avail -> avail + total segs < 2 ^ 32 ->
  let N' := reachZ N segs in
  advance_next (sq N) avail (block <$> sacks) (entry <$> segs) =
    Some (sq N', avail + (N' - N), block <$> filter (fun e => N' < e.2) sacks).
Proof.
  revert lo N avail sacks. induction segs as [|[o n] segs IH]; intros lo N avail sacks Hl Hlo Hhi HN Hok HN2 H0 Hav.
  { simpl. do 2 f_equal; [f_equal; lia |]. f_equal. symmetry. apply filter_all.
    intros [a b] Hin. simpl. by apply (HN2 a). }
  destruct Hl as (H1 & H2 & Hl). pose proof (laid_range _ _ _ Hl). rewrite total_cons in Hav.
  assert (inw c o /\ inw c (o + n)) as [Ho Hon] by (unfold inw in *; lia).
  pose proof (total_nonneg _ _ _ Hl).
  rewrite fmap_cons. cbn [advance_next reachZ]. change (entry (o, n)) with (sq o, bytes o n). cbn [fst snd].
  unfold GetSize. rewrite bytes_size, advance_sq by (unfold inw in *; lia). sq_cmp c.
  destruct (Z.ltb_spec o N); [| destruct (Z.ltb_spec N o)].
  - apply (IH (o + n)); try done. lia.
  - do 2 f_equal; [f_equal; lia |]. f_equal. symmetry. apply filter_all.
    intros [a b] Hin. simpl. by apply (HN2 a).
  - assert (o = N) as -> by lia. rewrite (ClearSackList_sq c) by done. rewrite u32_small by lia.
    rewrite (IH (N + n) (N + n) (avail + n)); try done; try lia.
    + rewrite list_filter_filter_l; [do 2 f_equal; f_equal; lia |].
      intros [a b] Hb. simpl in *. pose proof (reachZ_ok (N + n) segs _ _ Hl) as (? & _); [| lia].
      intros o' n' Hin. destruct (laid_bounds _ _ _ _ _ Hl Hin). lia.
    + intros a b [_ Hin]%list_elem_of_filter. by apply Hok.
    + intros a b [Hin _]%list_elem_of_filter. done.
Qed.

(** *** Extracting *)

Lemma extract_loop_sq c R lo hi X N k segs size avail :
  laid lo hi segs -> inw c lo -> inw c hi -> inw c X -> N <= X -> cut N segs -> (forall x, lo <= x < N -> held segs x) ->
  R <= lo -> 0 <= k <= N - lo -> k <= size < 2 ^ 32 -> k <= avail < 2 ^ 32 ->
  extract_loop (sq X) k (bytes R (lo - R)) (entry <$> segs) size avail =
    Some (bytes R (lo - R + k), entry <$> dropZ k segs, size - k, avail - k).
Proof.
  revert lo k size avail. induction segs as [|[o n] segs IH]; intros lo k size avail Hl Hlo Hhi HN HNX Hc Hh HR Hk Hs Ha.
  { assert (k = 0) as ->. { destruct (Z.eq_dec k 0); [done |]. destruct (held_nil lo). apply Hh. lia. }
    cbn [extract_loop fmap list_fmap dropZ Z.eqb]. by rewrite Z.add_0_r, !Z.sub_0_r. }
  rewrite fmap_cons. cbn [extract_loop dropZ]. destruct (Z.eqb_spec k 0) as [->|Hk0].
  { by rewrite Z.add_0_r, !Z.sub_0_r. }
  destruct (head_at _ _ N _ Hl ltac:(lia) Hc Hh) as (n' & rest & [= -> -> ->] & Hn & Hl' & Hc' & Hh').
  pose proof (laid_range _ _ _ Hl'). assert (inw c (lo + n')) as Hln by (unfold inw in *; lia).
  change (entry (lo, n')) with (sq lo, bytes lo n'). cbn [fst snd]. sq_cmp c.
  rewrite (proj2 (Z.leb_le lo X)) by lia. simpl NS_ASSERT. cbv iota.
  unfold GetSize. rewrite bytes_size by lia. destruct (Z.leb_spec n' k).
  - rewrite !u32_small by lia. rewrite AddAtEnd_bytes by (done || lia).
    replace (lo - R + n') with (lo + n' - R) by lia. rewrite (IH (lo + n') (k - n') (size - n') (avail - n')); try done; try lia. replace (lo + n' - R + (k - n')) with (lo - R + k) by lia. by replace (size - n' - (k - n')) with (size - k) by lia; replace (avail - n' - (k - n')) with (avail - k) by lia.
  - rewrite advance_sq by lia. rewrite !CreateFragment_bytes, Z.add_0_r by (unfold inw in *; lia).
    rewrite AddAtEnd_bytes by (done || lia).
    rewrite !u32_small by lia. rewrite fmap_cons. do 3 f_equal. f_equal.
    cbn [map_assign]. sq_cmp c.
    rewrite (proj2 (Z.ltb_ge (lo + k) lo)), (proj2 (Z.ltb_lt lo (lo + k))) by lia. cbn [tl].
    destruct rest as [|[o2 n2] rest]; [done |]. destruct Hl' as (H3 & H4 & Hl'). pose proof (laid_range _ _ _ Hl').
    rewrite fmap_cons. cbn [map_assign]. change (entry (o2, n2)) with (sq o2, bytes o2 n2). cbv iota. sq_cmp c.
    by rewrite (proj2 (Z.ltb_lt (lo + k) o2)) by lia.
Qed.

(** ** The invariant *)

(** The stream has [L] bytes; the window of offsets around the read position. *)
Definition W : Z := 2 ^ 29.

(** The buffer after [R] bytes were extracted: [N] is the first missing offset,
    [segs] the segments stored and [sacks] the SACK blocks. *)
Record rx_inv (L R N : Z) (segs sacks : list (Z * Z)) (b : TcpRxBuffer) : Prop := mkRxInv {
  ri_next : m_nextRxSeq b = sq (if m_gotFin b && (N =? L) then N + 1 else N);
  ri_fin : m_gotFin b = true -> m_finSeq b = sq L /\ L <= R + W;
  ri_data : rx_data b = entry <$> segs;
  ri_laid : laid R (Z.min L (R + W)) segs;
  ri_pos : 0 <= R <= N /\ N <= Z.min L (R + W);
  ri_cut : cut N segs;
  ri_held : forall x, R <= x < N -> held segs x;
  ri_size : rx_size b = total segs;
  ri_avail : m_availBytes b = N - R;
  ri_max : 0 <= m_maxBuffer b <= W;
  ri_sack : m_sackList b = block <$> sacks;
  ri_four : (length sacks <= 4)%nat;
  ri_blocks : forall a e, (a, e) ∈ sacks -> N < a < e /\ forall x, a <= x < e -> held segs x
}.

(** The limit of the receive window: none when the buffer is empty, otherwise
    counted from the first byte held. *)
Definition limit (segs : list (Z * Z)) (b : TcpRxBuffer) (e : Z) : Z :=
  match segs with [] => e | (f, _) :: _ => Z.min e (f + m_maxBuffer b) end.

Lemma trim_sq L R N segs sacks b o n :
  rx_inv L R N segs sacks b -> R - W <= o -> 0 <= n -> o + n <= Z.min L (R + W) ->
  exists h t, trim (sq o) (sq (o + n)) b = (sq h, sq t) /\ inw (R - W) h /\ inw (R - W) t /\
    t = limit segs b (o + n) /\ (segs <> [] -> h <= t) /\
    (h < t -> N <= h) /\ (forall x, h <= x < t <-> Z.max o (if m_gotFin b && (N =? L) then N + 1 else N) <= x < t).
Proof.
  intros [] Ho Hn Hhi. unfold trim. rewrite ri_next0. set (X := if m_gotFin b && (N =? L) then N + 1 else N) in *.
  assert (N <= X <= N + 1) as HX by (unfold X; destruct (_ && _); lia). unfold W in *.
  assert (inw (R - W) o /\ inw (R - W) (o + n) /\ inw (R - W) X) as (Io & In & IX) by (unfold inw, W; lia).
  sq_cmp (R - W). replace (if o <? X then sq X else sq o) with (sq (Z.max o X))
    by (destruct (Z.ltb_spec o X); f_equal; lia).
  assert (inw (R - W) (Z.max o X)) by (unfold inw in *; lia).
  rewrite ri_data0. destruct segs as [|[f k] segs].
  - simpl. exists (Z.max o X), (o + n). split_and!; try done; lia.
  - destruct ri_laid0 as (H1 & H2 & Hl). pose proof (laid_range _ _ _ Hl).
    rewrite fmap_cons. change (entry (f, k)) with (sq f, bytes f k). cbv iota.
    rewrite advance_sq by lia. assert (inw (R - W) (f + m_maxBuffer b)) by (unfold inw, W; lia).
    sq_cmp (R - W). simpl limit. set (t := Z.min (o + n) (f + m_maxBuffer b)).
    replace (if f + m_maxBuffer b <? o + n then sq (f + m_maxBuffer b) else sq (o + n)) with (sq t)
      by (unfold t; destruct (Z.ltb_spec (f + m_maxBuffer b) (o + n)); f_equal; lia).
    assert (inw (R - W) t) by (unfold inw, t in *; lia). sq_cmp (R - W).
    exists (if t <? Z.max o X then t else Z.max o X), t.
    destruct (Z.ltb_spec t (Z.max o X)); split_and!; try done; lia.
Qed.

(** ** Add *)

(** What remains after the trimmed range [h', t') is known to be non-empty. *)
Lemma store_ok L R N segs sacks b h t h' t' segs' :
  rx_inv L R N segs sacks b -> trimmed h t segs h' t' segs' R (Z.min L (R + W)) -> N <= h -> t <= Z.min L (R + W) ->
  h' < t' ->
  let p := bytes h' (t' - h') in
  exists sack N' avail sacks' segs2,
    map_absent (sq h') (entry <$> segs') = true /\
    map_assign (sq h') p (entry <$> segs') = entry <$> segs2 /\
    (if gt 32 (sq h') (sq N) then UpdateSackList (sq h') (sq t') (sq N) (m_sackList b) else Some (m_sackList b)) = Some sack /\
    advance_next (sq N) (m_availBytes b) sack (entry <$> segs2) = Some (sq N', avail, block <$> sacks') /\
    N <= N' <= Z.min L (R + W) /\
    (forall b', m_nextRxSeq b' = sq (if m_gotFin b' && (N' =? L) then N' + 1 else N') ->
       (m_gotFin b' = true -> m_finSeq b' = sq L /\ L <= R + W) -> rx_data b' = entry <$> segs2 ->
       rx_size b' = total segs' + (t' - h') -> m_availBytes b' = avail -> m_maxBuffer b' = m_maxBuffer b ->
       m_sackList b' = block <$> sacks' -> rx_inv L R N' segs2 sacks' b') /\
    (forall x, held segs2 x <-> held segs x \/ h <= x < t).
Proof.
  intros [] [T1 T0 T2 T3 _ T5 _] HN Ht Hlt p. destruct (T2 Hlt) as [Hh' Ht'].
  assert (inw (R - W) R /\ inw (R - W) (Z.min L (R + W)) /\ inw (R - W) N /\ inw (R - W) h' /\ inw (R - W) t')
    as (IR & IH & IN & Ih & It) by (unfold inw, W in *; lia).
  set (segs2 := insertZ h' (t' - h') segs').
  destruct (map_assign_sq (R - W) _ _ h' (t' - h') segs' T1 IR IH Ih) as [Ea Em].
  { intros o k Hin ->. destruct (T3 Hlt _ _ Hin), (laid_bounds _ _ _ _ _ T1 Hin); lia. }
  assert (laid R (Z.min L (R + W)) segs2) as Hl2.
  { apply insertZ_laid; try done; try lia. intros o k Hin. destruct (T3 Hlt _ _ Hin); lia. }
  assert (forall x, held segs2 x <-> held segs x \/ h <= x < t) as Hh2.
  { intros x. unfold segs2. rewrite insertZ_held, <- (T5 Hlt x). replace (h' + (t' - h')) with t' by lia. done. }
  (* the blocks, old and new *)
  set (P := fun a e => N < a /\ forall x, a <= x < e -> held segs2 x).
  assert (forall a e, P a e -> a < e -> inw (R - W) a /\ inw (R - W) e) as HPin.
  { intros a e [Ha Hx] Hae. pose proof (held_bounds _ _ _ (e - 1) Hl2 (Hx (e - 1) ltac:(lia))).
    unfold inw, W in *. lia. }
  assert (forall a e, (a, e) ∈ sacks -> P a e /\ a < e) as Hold.
  { intros a e [[? ?] Hx]%ri_blocks0. split; [| lia]. split; [lia |]. intros x Hr. apply Hh2. left. auto. }
  assert (exists sacks1, (if gt 32 (sq h') (sq N) then UpdateSackList (sq h') (sq t') (sq N) (m_sackList b) else Some (m_sackList b))
      = Some (block <$> sacks1) /\ blocks_ok (R - W) sacks1 /\ (forall a e, (a, e) ∈ sacks1 -> P a e) /\ (length sacks1 <= 4)%nat)
    as (sacks1 & Es & Hok1 & HP1 & Hlen1).
  { sq_cmp (R - W). rewrite ri_sack0. destruct (Z.ltb_spec N h').
    - apply (UpdateSackList_sq (R - W) P); try done.
      + intros x y z Hr [? Hx] [? Hy]. split; [done |]. intros q Hq.
        destruct (Z.lt_ge_cases q y); [apply Hx | apply Hy]; lia.
      + apply blocks_ok_cons. split; [done |]. intros a e [HPa Hae]%Hold. destruct (HPin _ _ HPa Hae). by split_and!.
      + intros a e [[= -> ->]|Hin]%elem_of_cons; [| by apply Hold]. split; [done |]. intros x Hx. apply Hh2.
        apply (T5 Hlt x). by right.
    - exists sacks. split_and!; try done; [| intros a e Hin; by apply Hold].
      intros a e [HPa Hae]%Hold. destruct (HPin _ _ HPa Hae). by split_and!. }
  destruct (reachZ_ok N segs2 _ _ Hl2) as (HN1 & HN2 & HN3 & HN4).
  { intros o k [[= -> ->]|Hin]%insertZ_elem; [right; lia |]. apply T0, ri_cut0 in Hin. lia. }
  set (N' := reachZ N segs2) in *. pose proof (total_nonneg _ _ _ Hl2) as Htot.
  exists (block <$> sacks1), N', (m_availBytes b + (N' - N)), (filter (fun e => N' < e.2) sacks1), segs2.
  split_and!; try done.
  - apply (advance_next_sq (R - W) R (Z.min L (R + W))); try done.
    + intros a e Hin. destruct (HP1 _ _ Hin), (Hok1 _ _ Hin) as (_ & _ & ?). lia.
    + lia.
    + unfold W in *. lia.
  - lia.
  - intros b' B1 B2 B3 B4 B5 B6 B7. split; try done; try lia.
    + intros x Hx. destruct (Z.lt_ge_cases x N); [apply Hh2; left; apply ri_held0; lia | apply HN4; lia].
    + rewrite B4. unfold segs2. by rewrite insertZ_total.
    + pose proof (length_filter (fun e => N' < e.2) sacks1). lia.
    + intros a e [Hf Hin]%list_elem_of_filter. simpl in Hf. destruct (HP1 _ _ Hin) as [Ha Hx].
      destruct (Hok1 _ _ Hin) as (_ & _ & Hae). split; [| done]. split; [| done].
      destruct (Z.lt_ge_cases N' a); [done |]. exfalso. apply (cut_not_held _ _ HN3), Hx. lia.
Qed.

Lemma Add_inv L R N segs sacks b o n :
  rx_inv L R N segs sacks b -> R - W <= o -> 0 <= n -> o + n <= Z.min L (R + W) ->
  exists r b' N' segs' sacks', Add (bytes o n) (sq o) b = Some (r, b') /\ rx_inv L R N' segs' sacks' b' /\
    m_maxBuffer b' = m_maxBuffer b /\ m_gotFin b' = m_gotFin b /\
    (forall x, held segs' x <-> held segs x \/ (R <= x /\ o <= x < limit segs b (o + n))) /\
    (r = false -> b' = b /\ segs' = segs) /\ (r = true -> exists x, held segs' x /\ ~ held segs x).
Proof.
  intros Hinv Ho Hn Hhi. pose proof Hinv as [].
  destruct (trim_sq _ _ _ _ _ _ _ _ Hinv Ho Hn Hhi) as (h & t & Et & Ih & It & El & Hne & HN & Hx).
  assert (limit segs b (o + n) <= o + n) as Hlim by (destruct segs as [|[f k] ?]; simpl; lia).
  set (X := if m_gotFin b && (N =? L) then N + 1 else N) in *.
  assert (forall x, held segs x \/ h <= x < t <-> held segs x \/ (R <= x /\ o <= x < limit segs b (o + n))) as Hcov.
  { intros x. rewrite Hx, <- El. assert (N <= X) by (unfold X; destruct (_ && _); lia). split.
    - intros [?|?]; [tauto | right; lia].
    - intros [?|[Hr Hr2]]; [tauto |]. destruct (Z.lt_ge_cases x N); [left; auto |].
      right. split; [| lia]. unfold X. destruct (m_gotFin b && (N =? L)) eqn:EX; [| lia].
      apply andb_true_iff in EX as [_ EX%Z.eqb_eq]. lia. }
  unfold Add. unfold GetSize at 1. rewrite bytes_size, advance_sq, Et by (unfold W in *; lia).
  destruct (overlapZ h t segs) as [[h' t'] segs'] eqn:Eo.
  assert (inw (R - W) R /\ inw (R - W) (Z.min L (R + W))) as [IR IH] by (unfold inw, W in *; lia).
  pose proof (total_nonneg _ _ _ ri_laid0) as Htot.
  destruct (overlap_sq (R - W) _ _ h t (rx_size b) segs h' t' segs' ri_laid0 IR IH Ih It) as (Eov & Ih' & It' & Hsz);
    [unfold W in *; lia | done |].
  rewrite ri_data0, Eov. sq_cmp (R - W).
  destruct (Z.leb_spec t' h') as [Hge|Hlt].
  - (* nothing to buffer *)
    assert (segs' = segs /\ forall x, h <= x < t -> held segs x) as [-> Hsub].
    { destruct (decide (segs = [])) as [->|Hs]; [| by apply (overlapZ_ok h t segs _ _ h' t' segs' ri_laid0); auto].
      simpl in Eo. injection Eo as <- <- <-. split; [done | lia]. }
    exists false, b, N, segs, sacks. split_and!; try done.
    + do 2 f_equal. destruct b. simpl in *. f_equal; [lia | done].
    + intros x. rewrite <- Hcov. split; [tauto |]. intros [?|?]; auto.
  - assert (h <= t) as Hle.
    { destruct (decide (segs = [])) as [->|Hs]; [simpl in Eo; injection Eo as <- <- <-; lia | auto]. }
    pose proof (overlapZ_ok _ _ _ _ _ _ _ _ ri_laid0 Hle Eo) as Htr. pose proof (tr_range _ _ _ _ _ _ _ _ Htr Hlt) as [Hh' Ht'].
    pose proof (proj1 (Hx h) ltac:(lia)) as Hoh.
    assert (X = N) as EX.
    { unfold X. destruct (m_gotFin b && (N =? L)) eqn:EX; [| done].
      apply andb_true_iff in EX as [EX1 EX2%Z.eqb_eq].
      lia. }
    destruct (store_ok _ _ _ _ _ _ _ _ _ _ _ Hinv Htr (HN ltac:(lia)) ltac:(lia) Hlt)
      as (sack & N' & avail & sacks' & segs2 & Ea & Em & Es & Ead & HN' & Hb' & Hh2).
    rewrite !(minus_sq isn) by (apply (inw_near (R - W)); unfold inw, W in *; lia).
    rewrite !u32_small by (unfold inw, W in *; lia).
    rewrite CreateFragment_bytes by (unfold inw, W in *; lia). replace (o + (h' - o)) with h' by lia.
    unfold GetSize. rewrite bytes_size, Z.eqb_refl by lia. simpl NS_ASSERT. cbv iota.
    rewrite Ea. simpl NS_ASSERT. cbv iota. rewrite Em, ri_next0, EX, Es, Ead.
    pose proof (total_nonneg _ _ _ (tr_laid _ _ _ _ _ _ _ _ Htr)).
    rewrite u32_small by (unfold inw, W in *; lia).
    eexists true, _, N', segs2, sacks'. split; [reflexivity |]. split; [| split_and!; try done].
    + apply Hb'; simpl; try done; [| lia]. destruct (m_gotFin b) eqn:Eg; [| done]. simpl.
      destruct (ri_fin0 eq_refl) as [-> HL].
      rewrite (eq_sq isn) by (unfold near, W in *; lia).
      destruct (N' =? L); [apply pre_inc_sq | done].
    + intros x. rewrite Hh2. apply Hcov.
    + intros _. exists h'. split; [apply Hh2; right; lia | by apply (tr_new _ _ _ _ _ _ _ _ Htr)].
Qed.

(** ** Extract *)

Lemma Extract_inv L R N segs sacks b max :
  rx_inv L R N segs sacks b -> 0 <= max < 2 ^ 32 ->
  let k := Z.min max (N - R) in
  exists b', Extract max b = Some (if k =? 0 then None else Some (bytes R k), b') /\
    rx_inv L (R + k) N (dropZ k segs) sacks b' /\
    (forall x, held (dropZ k segs) x <-> held segs x /\ R + k <= x).
Proof.
  intros Hinv Hm k. pose proof Hinv as []. unfold Extract. rewrite ri_avail0. fold k.
  destruct (dropZ_ok k _ _ N segs ri_laid0 ri_cut0 ri_held0 ltac:(lia)) as (D1 & D2 & D3 & D4).
  destruct (Z.eqb_spec k 0) as [Ek|Ek].
  { exists b. rewrite Ek, Z.add_0_r in *. assert (dropZ 0 segs = segs) as -> by by destruct segs as [|[]].
    split_and!; try done. intros x. split; [| tauto]. intros Hx. split; [done |].
    pose proof (held_bounds _ _ _ _ ri_laid0 Hx). lia. }
  assert (segs <> []) as Hne by (intros ->; destruct (held_nil R); apply ri_held0; lia).
  rewrite ri_data0, length_fmap. destruct (Nat.eqb_spec (length segs) 0) as [E0|_]; [by destruct segs |].
  simpl NS_ASSERT. cbv iota. rewrite ri_next0. set (X := if m_gotFin b && (N =? L) then N + 1 else N).
  assert (N <= X <= N + 1) as HX by (unfold X; destruct (_ && _); lia).
  pose proof (total_nonneg _ _ _ D1). unfold W in *.
  assert ([] = bytes R (R - R)) as -> by (by rewrite Z.sub_diag).
  rewrite (extract_loop_sq R R R (Z.min L (R + W)) X N); try done; try (unfold inw, W; lia). rewrite Z.sub_diag, Z.add_0_l.
  unfold GetSize. rewrite bytes_size by lia. rewrite (proj2 (Z.eqb_neq k 0)) by done.
  eexists. split; [reflexivity |]. split; [| done]. split; simpl; try done; try lia.
  - intros Hg. destruct (ri_fin0 Hg). unfold W in *. split; [done | lia].
  - eapply laid_weaken; [done | lia | unfold W; lia].
  - unfold W in *. lia.
  - intros x Hx. apply D4. split; [apply ri_held0; lia | lia].
  - intros a e [? Hx]%ri_blocks0. split; [done |]. intros x Hr. apply D4. split; [by apply Hx | lia].
Qed.

Lemma SetFin_inv L R N segs sacks b :
  rx_inv L R N segs sacks b -> L <= R + W ->
  rx_inv L R N segs sacks (SetFinSequence (sq L) b).
Proof.
  intros [] HL. split; simpl; try done. rewrite ri_next0.
  rewrite eq_sq by (unfold near, W in *; destruct (_ && _); lia).
  destruct (Z.eqb_spec N L) as [->|Hne]; [| by rewrite andb_false_r, (proj2 (Z.eqb_neq _ _) Hne)].
  rewrite andb_true_r. destruct (m_gotFin b); [by rewrite (proj2 (Z.eqb_neq _ _)) by lia |].
  by rewrite Z.eqb_refl, pre_inc_sq.
Qed.

(** ** The specification *)

(** A buffer whose reader has taken [R] bytes and which holds the offsets [H]. *)
Definition rx_rel (L R : Z) (H : Z -> Prop) (b : TcpRxBuffer) : Prop :=
  exists N segs sacks, rx_inv L R N segs sacks b /\ forall x, H x <-> held segs x.

(** [f] is the first offset held. *)
Definition first_held (H : Z -> Prop) (f : Z) : Prop := H f /\ forall x, H x -> f <= x.

Lemma limit_first L R N segs sacks b e x :
  rx_inv L R N segs sacks b ->
  (x < limit segs b e <-> x < e /\ forall f, first_held (held segs) f -> x < f + m_maxBuffer b).
Proof.
  intros []. destruct segs as [|[f k] segs]; simpl.
  - split; [| lia]. intros ?. split; [done |]. by intros f [?%held_nil _].
  - destruct ri_laid0 as (H1 & H2 & Hl). split.
    + intros Hx. split; [lia |]. intros f' [[?|Hf]%held_cons _]; [lia |].
      pose proof (held_bounds _ _ _ _ Hl Hf). lia.
    + intros [Hx Hf]. enough (x < f + m_maxBuffer b) by lia. apply Hf. split; [apply held_cons; left; lia |].
      intros y [?|Hy]%held_cons; [lia |]. pose proof (held_bounds _ _ _ _ Hl Hy). lia.
Qed.

(** The states reached from a new buffer of capacity [mb] when segments of the
    stream arrive in any order, with overlaps and duplicates, while [out] is
    what the reader has received. *)
Inductive rx_reach (L mb : Z) : list Z -> TcpRxBuffer -> Prop :=
  | reach_init : rx_reach L mb [] (SetMaxBufferSize mb (TcpRxBuffer_new (wrap 32 isn)))
  | reach_add out b o n r b' :
      rx_reach L mb out b -> zlen out - W <= o -> 0 <= n -> o + n <= Z.min L (zlen out + W) ->
      Add (bytes o n) (sq o) b = Some (r, b') -> rx_reach L mb out b'
  | reach_fin out b :
      rx_reach L mb out b -> L <= zlen out + W -> rx_reach L mb out (SetFinSequence (sq L) b)
  | reach_extract out b max p b' :
      rx_reach L mb out b -> 0 <= max < 2 ^ 32 -> Extract max b = Some (p, b') ->
      rx_reach L mb (out ++ default [] p) b'.

Lemma init_inv L mb : 0 <= L -> 0 <= mb <= W ->
  rx_inv L 0 0 [] [] (SetMaxBufferSize mb (TcpRxBuffer_new (wrap 32 isn))).
Proof.
  intros HL Hmb. split; simpl; try done; try (unfold W in *; lia).
  - unfold TcpRxBuffer.sq. by rewrite Z.add_0_r.
  - by intros ? ? ?%elem_of_nil.
  - by intros ? ? ?%elem_of_nil.
Qed.

Lemma reach_inv L mb out b :
  0 <= L -> 0 <= mb <= W -> rx_reach L mb out b ->
  out = bytes 0 (zlen out) /\ m_maxBuffer b = mb /\ exists H, rx_rel L (zlen out) H b.
Proof.
  intros HL Hmb Hr. induction Hr as [|out b o n r b' Hr IH Ho Hn Hhi E|out b Hr IH HLo|out b max p b' Hr IH Hm E].
  - split_and!; [done | done |]. exists (held []), 0, [], []. split; [by apply init_inv | done].
  - destruct IH as (Hout & Hb & H & N & segs & sacks & Hinv & _).
    destruct (Add_inv _ _ _ _ _ _ _ _ Hinv Ho Hn Hhi) as (r' & b2 & N' & segs' & sacks' & E' & Hinv' & Hmb' & _).
    rewrite E in E'. injection E' as <- <-. split_and!; [done | congruence |].
    by exists (held segs'), N', segs', sacks'.
  - destruct IH as (Hout & Hb & H & N & segs & sacks & Hinv & HH). split_and!; [done | done |].
    exists H, N, segs, sacks. split; [by apply SetFin_inv | done].
  - destruct IH as (Hout & Hb & H & N & segs & sacks & Hinv & HH).
    destruct (Extract_inv _ _ _ _ _ _ max Hinv Hm) as (b2 & E' & Hinv' & Hd). rewrite E in E'. injection E' as -> <-.
    pose proof (ri_pos _ _ _ _ _ _ Hinv) as Hpos. set (k := Z.min max (N - zlen out)) in *.
    assert (forall q, default [] (if q =? 0 then None else Some (bytes (zlen out) q)) = bytes (zlen out) q) as ->
      by (intros q; by destruct (Z.eqb_spec q 0) as [->|]).
    assert (zlen (out ++ bytes (zlen out) k) = zlen out + k) as ->.
    { rewrite <- (bytes_size stream (zlen out) k) at 2 by lia. unfold zlen. rewrite length_app. lia. }
    split_and!.
    + rewrite Hout at 1. rewrite <- bytes_app by (unfold zlen; lia). done.
    + rewrite <- Hb. revert E. unfold Extract. case_match; [by intros [= _ <-] |].
      destruct (negb _); [| done]. simpl. destruct (extract_loop _ _ _ _ _ _) as [[[[? ?] ?] ?]|]; [| done].
      by intros [= _ <-].
    + by exists (held (dropZ k segs)), N, (dropZ k segs), sacks.
Qed.

(** ** Correctness *)

(** C9: the receive buffer delivers the stream in order: whatever segments of
    the stream arrived, in any order, with overlaps, duplicates and a FIN, and
    whatever was read in between, the bytes handed to the reader are a prefix of
    the stream, and neither [Add] of a segment in the window nor [Extract] runs
    into an assertion of the code. The packets lie in memory so that
    [Packet::AddAtEnd] joins consecutive pieces of the stream ([JoinsPieces]): for
    pieces that share memory in other ways it may abort or lose bytes
    ([AddAtEnd_shared_aborts], [AddAtEnd_loses_trailer]). *)
Theorem TcpRxBuffer_in_order L mb out b :
  0 <= L -> 0 <= mb <= W -> rx_reach L mb out b ->
  out = bytes 0 (zlen out) /\ zlen out + Available b <= L /\
  (forall o n, zlen out - W <= o -> 0 <= n -> o + n <= Z.min L (zlen out + W) ->
     is_Some (Add (bytes o n) (sq o) b)) /\
  (forall max, 0 <= max < 2 ^ 32 -> exists b',
     Extract max b = Some (if Z.min max (Available b) =? 0 then None
                           else Some (bytes (zlen out) (Z.min max (Available b))), b')).
Proof.
  intros HL Hmb Hr. destruct (reach_inv _ _ _ _ HL Hmb Hr) as (Hout & _ & H & N & segs & sacks & Hinv & _).
  pose proof (ri_avail _ _ _ _ _ _ Hinv). pose proof (ri_pos _ _ _ _ _ _ Hinv). unfold Available.
  split_and!; [done | lia | |].
  - intros o n Ho Hn Hhi. destruct (Add_inv _ _ _ _ _ _ _ _ Hinv Ho Hn Hhi) as (? & ? & ? & ? & ? & -> & _). done.
  - intros max Hm. destruct (Extract_inv _ _ _ _ _ _ max Hinv Hm) as (b' & E & _).
    exists b'. rewrite E. by replace (m_availBytes b) with (N - zlen out).
Qed.

(** [Add] stores exactly the bytes of the segment that have not been read
    and lie inside the receive window, which starts at the first byte held (and
    is unlimited for an empty buffer), on top of what was held; it returns true
    iff a byte became held, and a false return leaves the buffer unchanged. *)
Theorem TcpRxBuffer_Add_coverage L R H b o n :
  rx_rel L R H b -> R - W <= o -> 0 <= n -> o + n <= Z.min L (R + W) ->
  let H' x := H x \/ (R <= x /\ o <= x < o + n /\ forall f, first_held H f -> x < f + m_maxBuffer b) in
  exists r b', Add (bytes o n) (sq o) b = Some (r, b') /\ rx_rel L R H' b' /\
    (r = true <-> exists x, H' x /\ ~ H x) /\ (r = false -> b' = b).
Proof.
  intros (N & segs & sacks & Hinv & HH) Ho Hn Hhi H'.
  destruct (Add_inv _ _ _ _ _ _ _ _ Hinv Ho Hn Hhi) as (r & b' & N' & segs' & sacks' & E & Hinv' & _ & _ & Hcov & Hf & Ht).
  assert (forall x, H' x <-> held segs' x) as HH'.
  { intros x. rewrite Hcov. unfold H'. rewrite HH.
    assert (forall f, first_held H f <-> first_held (held segs) f) as Hff.
    { intros f. unfold first_held. rewrite HH. by setoid_rewrite HH. }
    setoid_rewrite Hff. pose proof (limit_first _ _ _ _ _ _ (o + n) x Hinv) as Hl. intuition. }
  exists r, b'. split_and!; [done | by exists N', segs', sacks' | | by intros [-> _]%Hf]. split.
  - intros (x & ? & ?)%Ht. exists x. by rewrite HH', HH.
  - intros (x & Hx & Hnx). destruct r; [done |]. exfalso. destruct (Hf eq_refl) as [_ ->].
    apply Hnx, HH. by apply HH'.
Qed.

(** [Extract] hands out the longest run of bytes that continues what was
    read, at most [max] of them, and keeps every other byte held. *)
Theorem TcpRxBuffer_Extract_prefix L R H b max :
  rx_rel L R H b -> 0 <= max < 2 ^ 32 ->
  exists k b', Extract max b = Some (if k =? 0 then None else Some (bytes R k), b') /\
    0 <= k <= max /\ (forall x, R <= x < R + k -> H x) /\ (k < max -> ~ H (R + k)) /\
    rx_rel L (R + k) (fun x => H x /\ R + k <= x) b'.
Proof.
  intros (N & segs & sacks & Hinv & HH) Hm. destruct (Extract_inv _ _ _ _ _ _ max Hinv Hm) as (b' & E & Hinv' & Hd).
  pose proof Hinv as []. exists (Z.min max (N - R)), b'. split_and!; [done | lia | lia | | |].
  - intros x Hx. apply HH, ri_held0. lia.
  - intros Hk. rewrite HH. replace (R + Z.min max (N - R)) with N by lia. by apply cut_not_held.
  - exists N, (dropZ (Z.min max (N - R)) segs), sacks. split; [done |]. intros x. by rewrite Hd, HH.
Qed.

(** The SACK list has at most four blocks, and each block is a non-empty
    range beyond the next expected byte all of whose bytes are held. *)
Theorem TcpRxBuffer_sack_bounds L R H b :
  rx_rel L R H b ->
  0 <= GetSackListSize b <= 4 /\
  exists N, (forall x, R <= x < N -> H x) /\ ~ H N /\ Available b = N - R /\
    forall blk, blk ∈ GetSackList b -> exists a e, blk = (sq a, sq e) /\ N < a < e /\ forall x, a <= x < e -> H x.
Proof.
  intros (N & segs & sacks & [] & HH). split.
  - unfold GetSackListSize. rewrite ri_sack0, length_fmap, u32_small; lia.
  - exists N. split_and!; [by intros x Hx; apply HH, ri_held0 | by rewrite HH; apply cut_not_held | done |].
    unfold GetSackList. rewrite ri_sack0. intros blk ([a e] & -> & [Hae Hx]%ri_blocks0)%list_elem_of_fmap.
    exists a, e. split_and!; try done; try lia. intros x Hr. by apply HH, Hx.
Qed.

(** The connection is finished exactly when the FIN was seen and every byte
    up to it is held or read; then all of the stream that is left is available. *)
Theorem TcpRxBuffer_Finished L R H b :
  rx_rel L R H b ->
  (Finished b = true <-> GotFin b = true /\ forall x, R <= x < L -> H x) /\
  (Finished b = true -> Available b = L - R).
Proof.
  intros (N & segs & sacks & [] & HH).
  assert (Finished b = true <-> m_gotFin b = true /\ N = L) as Hfin.
  { unfold Finished. rewrite andb_true_iff. split; intros [Hg Hlt]; (split; [done |]);
      destruct (ri_fin0 Hg) as [Ef ?]; rewrite Ef, ri_next0, Hg in *; simpl in *.
    - rewrite lt_sq in Hlt by (unfold near, W in *; destruct (N =? L); lia).
      destruct (Z.eqb_spec N L); [done |]. apply Z.ltb_lt in Hlt. lia.
    - rewrite lt_sq by (unfold near, W in *; destruct (N =? L); lia). subst N. rewrite Z.eqb_refl. apply Z.ltb_lt. lia. }
  unfold GotFin, Available. rewrite Hfin, ri_avail0. split; [| intros [_ ->]; lia].
  split; intros [Hg HN]; (split; [done |]).
  - intros x Hx. apply HH, ri_held0. lia.
  - destruct (Z.lt_ge_cases N L); [| lia]. exfalso. apply (cut_not_held _ _ ri_cut0), HH, HN. lia.
Qed.

End Refinement.

#[local] Existing Instances plain_memory plain_joins.

(** ** A stream whose sequence numbers wrap around *)

Definition demo_isn : Z := 2 ^ 32 - 3.
Definition demo_stream (i : Z) : Z := i mod 256.
Definition demo_new : TcpRxBuffer := SetMaxBufferSize 8 (TcpRxBuffer_new (wrap 32 demo_isn)).
Definition demo_add (o n : Z) (b : TcpRxBuffer) : TcpRxBuffer :=
  match Add (bytes demo_stream o n) (sq demo_isn o) b with Some (_, b') => b' | None => b end.
(** Bytes 5 to 7 arrived out of order, before bytes 0 to 1. *)
Definition demo_gap : TcpRxBuffer := demo_add 0 2 (demo_add 5 3 demo_new).
Definition demo_full : TcpRxBuffer := SetFinSequence (sq demo_isn 8) (demo_add 1 6 demo_gap).

(** A segment that embeds an older out-of-order segment leaves the block of the
    older one in the list, as a subset of the new block. *)
Lemma sack_subset_kept :
  m_sackList (demo_add 4 3 (demo_add 5 1 demo_new)) =
    [(sq demo_isn 4, sq demo_isn 7); (sq demo_isn 5, sq demo_isn 6)].
Proof. vm_compute. reflexivity. Qed.

Lemma demo_gap_reach : rx_reach demo_isn demo_stream 8 8 [] demo_gap.
Proof.
  apply (reach_add _ _ _ _ _ (demo_add 5 3 demo_new) 0 2 true); [| done | done | done | vm_compute; reflexivity].
  apply (reach_add _ _ _ _ _ demo_new 5 3 true); [| done | done | done | vm_compute; reflexivity].
  apply reach_init.
Qed.

Lemma demo_gap_rel : rx_rel demo_isn demo_stream 8 0 (held [(0, 2); (5, 3)]) demo_gap.
Proof.
  exists 2, [(0, 2); (5, 3)], [(5, 8)]. split; [| done].
  let b := eval vm_compute in demo_gap in replace demo_gap with b by (vm_compute; reflexivity).
  split; cbn [m_nextRxSeq m_finSeq m_gotFin rx_size m_maxBuffer m_availBytes rx_data m_sackList andb];
    try (vm_compute; reflexivity); try (unfold W; lia); try done.
  - intros o n. rewrite !elem_of_cons, elem_of_nil. intros [[= -> ->]|[[= -> ->]|[]]]; lia.
  - intros x Hx. apply held_cons. lia.
  - simpl. lia.
  - intros a e [[= -> ->]|[]%elem_of_nil]%elem_of_cons. split; [lia |]. intros x Hx. apply held_cons. right.
    apply held_cons. lia.
Qed.

Lemma demo_full_rel : rx_rel demo_isn demo_stream 8 0 (held [(0, 2); (2, 3); (5, 3)]) demo_full.
Proof.
  exists 8, [(0, 2); (2, 3); (5, 3)], []. split; [| done].
  let b := eval vm_compute in demo_full in replace demo_full with b by (vm_compute; reflexivity).
  split; cbn [m_nextRxSeq m_finSeq m_gotFin rx_size m_maxBuffer m_availBytes rx_data m_sackList andb];
    try (vm_compute; reflexivity); try (unfold W; lia); try done.
  - intros o n. rewrite !elem_of_cons, elem_of_nil. intros [[= -> ->]|[[= -> ->]|[[= -> ->]|[]]]]; lia.
  - intros x Hx. rewrite !held_cons. lia.
  - simpl. lia.
  - by intros a e ?%elem_of_nil.
Qed.

Lemma TcpRxBuffer_in_order_witness :
  zlen (@nil Z) + Available demo_gap <= 8 /\ is_Some (Add (bytes demo_stream 1 6) (sq demo_isn 1) demo_gap).
Proof.
  destruct (TcpRxBuffer_in_order demo_isn demo_stream 8 8 [] demo_gap ltac:(lia) ltac:(done) demo_gap_reach) as (_ & H & A & _).
  split; [exact H | apply A; done].
Defined.

Lemma TcpRxBuffer_Add_coverage_witness :
  exists r b', Add (bytes demo_stream 1 6) (sq demo_isn 1) demo_gap = Some (r, b') /\ (r = false -> b' = demo_gap).
Proof.
  destruct (TcpRxBuffer_Add_coverage demo_isn demo_stream 8 0 _ demo_gap 1 6 demo_gap_rel ltac:(done) ltac:(done) ltac:(done))
    as (r & b' & E & _ & _ & F). exists r, b'. split; [exact E | exact F].
Defined.

Lemma TcpRxBuffer_Extract_prefix_witness :
  exists k b', Extract 100 demo_gap = Some (if k =? 0 then None else Some (bytes demo_stream 0 k), b') /\ 0 <= k <= 100.
Proof.
  destruct (TcpRxBuffer_Extract_prefix demo_isn demo_stream 8 0 _ demo_gap 100 demo_gap_rel ltac:(done)) as (k & b' & E & H & _).
  exists k, b'. split; [exact E | exact H].
Defined.

Lemma TcpRxBuffer_sack_bounds_witness :
  GetSackListSize demo_gap = 1 /\ 0 <= GetSackListSize demo_gap <= 4.
Proof.
  split; [vm_compute; reflexivity |].
  exact (proj1 (TcpRxBuffer_sack_bounds demo_isn demo_stream 8 0 _ demo_gap demo_gap_rel)).
Defined.

Lemma TcpRxBuffer_Finished_witness : Finished demo_full = true /\ Available demo_full = 8.
Proof.
  assert (Finished demo_full = true) as F by (vm_compute; reflexivity).
  split; [exact F | exact (proj2 (TcpRxBuffer_Finished demo_isn demo_stream 8 0 _ demo_full demo_full_rel) F)].
Defined.

End TcpRxProps.
