(* ===== verification/TcpTxBuffer.v ===== *)
(** * The TCP send buffer (src/internet/model/tcp-tx-buffer.cc, tcp-tx-item.h)

    [TcpTxBuffer] keeps the bytes the application wrote until they are
    acknowledged: a list of items that were sent, with the flags of the SACK
    scoreboard, and a list of items that were not. Items are cut and joined to
    the segments that are sent. An item is known by its address; an iterator of a
    list is the address of the item it points to. The callback that gives the
    receiver window is an argument of the operation that calls it, as is the
    current time. *)

From S2P Require Import Prelude Buffer BufferInv PacketBytes SequenceNumber TcpRxBuffer.
Import Buffer BufferInv PacketBytes SequenceNumber.

Module TcpTxBuffer.

(** ** Data *)

Record TcpTxItem := mkItem {
  it_addr : Z;
  m_startSeq : SequenceNumber;
  m_packet : Packet;
  m_lost : bool;
  m_sacked : bool;
  m_retrans : bool;
  m_lastSent : Z
}.
Definition TIME_MAX : Z := 2 ^ 63 - 1.
Definition item_new (addr : Z) (p : Packet) : TcpTxItem :=
  mkItem addr SequenceNumber_default p false false false TIME_MAX.
Definition set_start (s : SequenceNumber) (i : TcpTxItem) : TcpTxItem :=
  mkItem (it_addr i) s (m_packet i) (m_lost i) (m_sacked i) (m_retrans i) (m_lastSent i).
Definition set_packet (p : Packet) (i : TcpTxItem) : TcpTxItem :=
  mkItem (it_addr i) (m_startSeq i) p (m_lost i) (m_sacked i) (m_retrans i) (m_lastSent i).
Definition set_lost (v : bool) (i : TcpTxItem) : TcpTxItem :=
  mkItem (it_addr i) (m_startSeq i) (m_packet i) v (m_sacked i) (m_retrans i) (m_lastSent i).
Definition set_sacked (v : bool) (i : TcpTxItem) : TcpTxItem :=
  mkItem (it_addr i) (m_startSeq i) (m_packet i) (m_lost i) v (m_retrans i) (m_lastSent i).
Definition set_retrans (v : bool) (i : TcpTxItem) : TcpTxItem :=
  mkItem (it_addr i) (m_startSeq i) (m_packet i) (m_lost i) (m_sacked i) v (m_lastSent i).
Definition set_lastSent (t : Z) (i : TcpTxItem) : TcpTxItem :=
  mkItem (it_addr i) (m_startSeq i) (m_packet i) (m_lost i) (m_sacked i) (m_retrans i) t.
Definition isize (i : TcpTxItem) : Z := GetSize (m_packet i).

Record TcpTxBuffer := mkTx {
  m_appList : list TcpTxItem;
  m_sentList : list TcpTxItem;
  m_maxBuffer : Z;
  m_size : Z;
  m_sentSize : Z;
  m_firstByteSeq : SequenceNumber;
  m_highestSack : option Z * SequenceNumber;
  m_lostOut : Z;
  m_sackedOut : Z;
  m_retransOut : Z;
  m_dupAckThresh : Z;
  m_segmentSize : Z;
  m_renoSack : bool;
  m_sackEnabled : bool;
  next_addr : Z
}.
(** The iterator of a new buffer points nowhere; [SetHeadSequence], called when a
    connection is set up, makes it the end iterator, as it is here from the start. *)
Definition TcpTxBuffer_new (n : Z) : TcpTxBuffer :=
  mkTx [] [] 32768 0 0 (SequenceNumber_of n) (None, SequenceNumber_default) 0 0 0 0 0 false true 1.

Definition set_lists (app sent : list TcpTxItem) (b : TcpTxBuffer) : TcpTxBuffer :=
  mkTx app sent (m_maxBuffer b) (m_size b) (m_sentSize b) (m_firstByteSeq b) (m_highestSack b) (m_lostOut b) (m_sackedOut b)
    (m_retransOut b) (m_dupAckThresh b) (m_segmentSize b) (m_renoSack b) (m_sackEnabled b) (next_addr b).
Definition set_sizes (size sentSize : Z) (b : TcpTxBuffer) : TcpTxBuffer :=
  mkTx (m_appList b) (m_sentList b) (m_maxBuffer b) size sentSize (m_firstByteSeq b) (m_highestSack b) (m_lostOut b) (m_sackedOut b)
    (m_retransOut b) (m_dupAckThresh b) (m_segmentSize b) (m_renoSack b) (m_sackEnabled b) (next_addr b).
Definition set_first (s : SequenceNumber) (b : TcpTxBuffer) : TcpTxBuffer :=
  mkTx (m_appList b) (m_sentList b) (m_maxBuffer b) (m_size b) (m_sentSize b) s (m_highestSack b) (m_lostOut b) (m_sackedOut b)
    (m_retransOut b) (m_dupAckThresh b) (m_segmentSize b) (m_renoSack b) (m_sackEnabled b) (next_addr b).
Definition set_highest (h : option Z * SequenceNumber) (b : TcpTxBuffer) : TcpTxBuffer :=
  mkTx (m_appList b) (m_sentList b) (m_maxBuffer b) (m_size b) (m_sentSize b) (m_firstByteSeq b) h (m_lostOut b) (m_sackedOut b)
    (m_retransOut b) (m_dupAckThresh b) (m_segmentSize b) (m_renoSack b) (m_sackEnabled b) (next_addr b).
Definition set_counts (lost sacked retrans : Z) (b : TcpTxBuffer) : TcpTxBuffer :=
  mkTx (m_appList b) (m_sentList b) (m_maxBuffer b) (m_size b) (m_sentSize b) (m_firstByteSeq b) (m_highestSack b) lost sacked
    retrans (m_dupAckThresh b) (m_segmentSize b) (m_renoSack b) (m_sackEnabled b) (next_addr b).
Definition set_next_addr (n : Z) (b : TcpTxBuffer) : TcpTxBuffer :=
  mkTx (m_appList b) (m_sentList b) (m_maxBuffer b) (m_size b) (m_sentSize b) (m_firstByteSeq b) (m_highestSack b) (m_lostOut b) (m_sackedOut b)
    (m_retransOut b) (m_dupAckThresh b) (m_segmentSize b) (m_renoSack b) (m_sackEnabled b) n.
Definition set_config (maxBuffer dupAckThresh segmentSize : Z) (renoSack sackEnabled : bool) (b : TcpTxBuffer) : TcpTxBuffer :=
  mkTx (m_appList b) (m_sentList b) maxBuffer (m_size b) (m_sentSize b) (m_firstByteSeq b) (m_highestSack b) (m_lostOut b) (m_sackedOut b)
    (m_retransOut b) dupAckThresh segmentSize renoSack sackEnabled (next_addr b).

(** [s + n] for an unsigned [n], which is converted to a signed integer. *)
Definition seq_add (s : SequenceNumber) (n : Z) : SequenceNumber := plus 32 s (swrap 32 n).

(** ** Accessors *)

Definition HeadSequence (b : TcpTxBuffer) : SequenceNumber := m_firstByteSeq b.
Definition TailSequence (b : TcpTxBuffer) : SequenceNumber := plus_seq 32 (m_firstByteSeq b) (SequenceNumber_of (m_size b)).
Definition Size (b : TcpTxBuffer) : Z := m_size b.
Definition MaxBufferSize (b : TcpTxBuffer) : Z := m_maxBuffer b.
Definition SetMaxBufferSize (n : Z) (b : TcpTxBuffer) : TcpTxBuffer :=
  set_config n (m_dupAckThresh b) (m_segmentSize b) (m_renoSack b) (m_sackEnabled b) b.
Definition IsSackEnabled (b : TcpTxBuffer) : bool := m_sackEnabled b.
Definition SetSackEnabled (enabled : bool) (b : TcpTxBuffer) : TcpTxBuffer :=
  set_config (m_maxBuffer b) (m_dupAckThresh b) (m_segmentSize b) (m_renoSack b) enabled b.
Definition Available (b : TcpTxBuffer) : Z := u32 (m_maxBuffer b - m_size b).
Definition SetDupAckThresh (n : Z) (b : TcpTxBuffer) : TcpTxBuffer :=
  set_config (m_maxBuffer b) n (m_segmentSize b) (m_renoSack b) (m_sackEnabled b) b.
Definition SetSegmentSize (n : Z) (b : TcpTxBuffer) : TcpTxBuffer :=
  set_config (m_maxBuffer b) (m_dupAckThresh b) n (m_renoSack b) (m_sackEnabled b) b.
Definition GetRetransmitsCount (b : TcpTxBuffer) : Z := m_retransOut b.
Definition GetLost (b : TcpTxBuffer) : Z := m_lostOut b.
Definition GetSacked (b : TcpTxBuffer) : Z := m_sackedOut b.
Definition reset_highest (b : TcpTxBuffer) : TcpTxBuffer := set_highest (None, SequenceNumber_default) b.
Definition SetHeadSequence (seq : SequenceNumber) (b : TcpTxBuffer) : option TcpTxBuffer :=
  assert* (length (m_sentList b) =? 0)%nat in Some (reset_highest (set_first seq b)).

(** ** Adding data *)

Definition Add (p : Packet) (b : TcpTxBuffer) : bool * TcpTxBuffer :=
  if GetSize p <=? Available b then
    if 0 <? GetSize p then
      (true, set_next_addr (next_addr b + 1) (set_sizes (u32 (m_size b + GetSize p)) (m_sentSize b)
        (set_lists (m_appList b ++ [item_new (next_addr b) p]) (m_sentList b) b)))
    else (true, b)
  else (false, b).

Definition SizeFromSequence (seq : SequenceNumber) (b : TcpTxBuffer) : option Z :=
  if ge 32 (TailSequence b) seq then let* d := minus_seq 32 (TailSequence b) seq in Some (u32 d) else Some 0.

(** ** Cutting and joining items *)

(** The new item [t1] takes the first [size] bytes of [t2]. *)
Definition SplitItems (addr : Z) (t2 : TcpTxItem) (size : Z) : option (TcpTxItem * TcpTxItem) :=
  let* p := CreateFragment 0 size (m_packet t2) in
  Some (mkItem addr (m_startSeq t2) p (m_lost t2) (m_sacked t2) (m_retrans t2) (m_lastSent t2),
        set_start (seq_add (m_startSeq t2) size) (set_packet (RemoveAtStart size (m_packet t2)) t2)).

Section Join.
Context {mem : Memory}.
(** [t2] is appended to [t1]; the count of retransmitted bytes is the buffer's. *)
Definition MergeItems (t1 t2 : TcpTxItem) (retrans : Z) : option (TcpTxItem * Z) :=
  assert* Bool.eqb (m_sacked t1) (m_sacked t2) in
  assert* Bool.eqb (m_lost t1) (m_lost t2) in
  let '(t1, retrans) :=
    if Bool.eqb (m_retrans t1) (m_retrans t2) then (t1, retrans)
    else if m_retrans t1 then (set_retrans false t1, u32 (retrans - isize t1))
    else (t1, u32 (retrans - isize t2)) in
  let t1 := if m_lastSent t1 <? m_lastSent t2 then set_lastSent (m_lastSent t2) t1 else t1 in
  let* p := AddAtEnd (m_packet t2) (m_packet t1) in
  Some (set_packet p t1, retrans).

(** The walk of [GetPacketFromList] to the item that contains [seq]: the items
    before it, the item, the sequence number of its first byte, the items after
    it. [check] is the assertion made on each item. *)
Fixpoint walk (check : TcpTxItem -> bool) (seq : SequenceNumber) (begin : SequenceNumber) (pre l : list TcpTxItem)
    : option (list TcpTxItem * TcpTxItem * SequenceNumber * list TcpTxItem) :=
  match l with
  | [] => None
  | cur :: rest =>
      assert* check cur in
      if lt 32 seq (seq_add begin (isize cur)) then Some (pre, cur, begin, rest)
      else walk check seq (seq_add begin (isize cur)) (pre ++ [cur]) rest
  end.

(** The result is the address of the item found or made, the list, the count of
    retransmitted bytes and the next address. *)
Fixpoint GetPacketFromList (fuel : nat) (check : TcpTxItem -> bool) (listStartFrom : SequenceNumber) (numBytes : Z)
    (seq : SequenceNumber) (l : list TcpTxItem) (retrans addr : Z) : option (Z * list TcpTxItem * Z * Z) :=
  match fuel with
  | O => None
  | S fuel' =>
      let* (pre, cur, begin, rest) := walk check seq listStartFrom [] l in
      if eq seq begin then
        if le 32 (seq_add seq numBytes) (seq_add begin (isize cur)) then
          if numBytes =? isize cur then Some (it_addr cur, l, retrans, addr)
          else if numBytes <? isize cur then
            let* (first, cur') := SplitItems addr cur numBytes in
            Some (addr, pre ++ first :: cur' :: rest, retrans, addr + 1)
          else None
        else
          match rest with
          | [] => Some (it_addr cur, l, retrans, addr)
          | next :: rest' =>
              let* (cur', retrans) := MergeItems cur next retrans in
              GetPacketFromList fuel' check listStartFrom numBytes seq (pre ++ cur' :: rest') retrans addr
          end
      else if gt 32 seq begin then
        let* d := minus_seq 32 seq begin in
        let* (first, cur') := SplitItems addr cur (u32 d) in
        GetPacketFromList fuel' check listStartFrom numBytes seq (pre ++ first :: cur' :: rest) retrans (addr + 1)
      else None
  end.

(** Each call cuts one item, once, or joins two. *)
Definition list_fuel (l : list TcpTxItem) : nat := S (S (length l)).

(** ** Segments *)

Definition find_item (addr : Z) (l : list TcpTxItem) : option TcpTxItem := List.find (fun i => it_addr i =? addr) l.
Definition map_item (addr : Z) (f : TcpTxItem -> TcpTxItem) (l : list TcpTxItem) : list TcpTxItem :=
  (fun i => if it_addr i =? addr then f i else i) <$> l.

(** New data: the item moves to the end of the sent list. *)
Definition GetNewSegment (numBytes : Z) (b : TcpTxBuffer) : option (Z * TcpTxBuffer) :=
  let startOfAppList := seq_add (m_firstByteSeq b) (m_sentSize b) in
  let* (addr, app, retrans, next) := GetPacketFromList (list_fuel (m_appList b)) (fun _ => true) startOfAppList numBytes
    startOfAppList (m_appList b) (m_retransOut b) (next_addr b) in
  let* item := find_item addr app in
  Some (addr, set_next_addr next (set_counts (m_lostOut b) (m_sackedOut b) retrans
    (set_sizes (m_size b) (u32 (m_sentSize b + isize item))
      (set_lists (List.filter (fun i => negb (it_addr i =? addr)) app) (m_sentList b ++ [set_start startOfAppList item]) b)))).

(** How much of the list may be joined for a retransmission at [seq]. *)
Fixpoint merge_limit (s : Z) (seq : SequenceNumber) (l : list TcpTxItem) : Z :=
  match l with
  | [] => s
  | it :: rest =>
      if eq (m_startSeq it) seq then
        match rest with
        | next :: _ =>
            if negb (m_sacked next) && Bool.eqb (m_lost it) (m_lost next) then Z.min s (u32 (isize it + isize next))
            else Z.min s (isize it)
        | [] => Z.min s (isize it)
        end
      else merge_limit s seq rest
  end.

Definition GetTransmittedSegment (numBytes : Z) (seq : SequenceNumber) (b : TcpTxBuffer) : option (Z * TcpTxBuffer) :=
  assert* ge 32 seq (m_firstByteSeq b) in
  assert* numBytes <=? m_sentSize b in
  assert* negb (length (m_sentList b) =? 0)%nat in
  let s := merge_limit numBytes seq (m_sentList b) in
  let* (addr, sent, retrans, next) := GetPacketFromList (list_fuel (m_sentList b)) (fun i => ge 32 (m_startSeq i) (m_firstByteSeq b))
    (m_firstByteSeq b) s seq (m_sentList b) (m_retransOut b) (next_addr b) in
  let* item := find_item addr sent in
  let '(sent, retrans) :=
    if negb (m_retrans item) then (map_item addr (set_retrans true) sent, u32 (retrans + isize item)) else (sent, retrans) in
  Some (addr, set_next_addr next (set_counts (m_lostOut b) (m_sackedOut b) retrans (set_lists (m_appList b) sent b))).

(** [CopyFromSequence]: the address of the item, none for a null pointer. The
    third case compares the numbers without regard to wrap-around; when no case
    applies the null item is dereferenced. *)
Definition send_item (now : Z) (addr : Z) (b : TcpTxBuffer) : option (option Z * TcpTxBuffer) :=
  let* item := find_item addr (m_sentList b) in
  assert* ge 32 (m_startSeq item) (m_firstByteSeq b) in
  Some (Some addr, set_lists (m_appList b) (map_item addr (set_lastSent now) (m_sentList b)) b).

Fixpoint copy_from (fuel : nat) (now numBytes : Z) (seq : SequenceNumber) (b : TcpTxBuffer) : option (option Z * TcpTxBuffer) :=
  match fuel with
  | O => None
  | S fuel' =>
      if gt 32 (m_firstByteSeq b) seq then None
      else
        let* avail := SizeFromSequence seq b in
        let s := Z.min numBytes avail in
        if s =? 0 then Some (None, b)
        else
          let sentEnd := seq_add (m_firstByteSeq b) (m_sentSize b) in
          if ge 32 sentEnd (seq_add seq s) then
            let* (addr, b) := GetTransmittedSegment s seq b in
            let* item := find_item addr (m_sentList b) in
            assert* negb (m_sacked item) in
            send_item now addr b
          else if le 32 sentEnd seq then
            if negb (eq sentEnd seq) then None
            else
              let* (addr, b) := GetNewSegment s b in
              let* item := find_item addr (m_sentList b) in
              assert* negb (m_retrans item) in
              send_item now addr b
          else
            let plainEnd := u32 (m_value (m_firstByteSeq b) + m_sentSize b) in
            if (m_value seq <? plainEnd) && (plainEnd <? u32 (m_value seq + s)) then
              copy_from fuel' now (u32 (plainEnd - m_value seq)) seq b
            else None
  end.
(** The shorter request of the third case is one the first case serves. *)
Definition CopyFromSequence (now numBytes : Z) (seq : SequenceNumber) (b : TcpTxBuffer) : option (option Z * TcpTxBuffer) :=
  copy_from 2 now numBytes seq b.
End Join.

End TcpTxBuffer.
