(* ===== verification/TcpTxScoreboard.v ===== *)
(** * The scoreboard of the TCP send buffer (src/internet/model/tcp-tx-buffer.cc)

    Acknowledgements, SACK blocks and timeouts change the flags of the sent
    items and the counts of lost, sacked and retransmitted bytes. *)

From S2P Require Import Prelude Buffer BufferInv PacketBytes SequenceNumber TcpRxBuffer TcpTxBuffer.
Import Buffer BufferInv PacketBytes SequenceNumber TcpTxBuffer.

Module TcpTxScoreboard.
Section Join.
Context {mem : Memory}.

(** ** Flags and counts *)

Definition RemoveFromCounts (item : TcpTxItem) (size : Z) (b : TcpTxBuffer) : option TcpTxBuffer :=
  assert* negb (m_sacked item) || (size <=? m_sackedOut b) in
  assert* negb (m_retrans item) || (size <=? m_retransOut b) in
  assert* negb (m_lost item) || (size <=? m_lostOut b) in
  Some (set_counts (if m_lost item then m_lostOut b - size else m_lostOut b)
    (if m_sacked item then m_sackedOut b - size else m_sackedOut b)
    (if m_retrans item then m_retransOut b - size else m_retransOut b) b).

Definition IsRetransmittedDataAcked (ack : SequenceNumber) (b : TcpTxBuffer) : bool :=
  existsb (fun i => eq (seq_add (m_startSeq i) (isize i)) ack && negb (m_sacked i) && m_retrans i) (m_sentList b).

Definition MarkHeadAsLost (b : TcpTxBuffer) : TcpTxBuffer :=
  match m_sentList b with
  | [] => b
  | head :: rest =>
      set_counts (if negb (m_lost head) then u32 (m_lostOut b + isize head) else m_lostOut b)
        (if m_sacked head then u32 (m_sackedOut b - isize head) else m_sackedOut b)
        (if m_retrans head then u32 (m_retransOut b - isize head) else m_retransOut b)
        (set_lists (m_appList b) (set_lost true (set_retrans false (set_sacked false head)) :: rest) b)
  end.

(** The first item that is not sacked gets the flag. *)
Fixpoint reno_loop (l : list TcpTxItem) : option (TcpTxItem * list TcpTxItem) :=
  match l with
  | [] => None
  | it :: rest =>
      if m_sacked it then let* (found, rest') := reno_loop rest in Some (found, it :: rest')
      else Some (it, set_sacked true it :: rest)
  end.
Definition AddRenoSack (b : TcpTxBuffer) : option TcpTxBuffer :=
  assert* (if m_sackEnabled b then 1 <? length (m_sentList b) else 0 <? length (m_sentList b))%nat in
  let b := set_config (m_maxBuffer b) (m_dupAckThresh b) (m_segmentSize b) true (m_sackEnabled b) b in
  match m_sentList b with
  | [] => None
  | head :: rest =>
      match reno_loop rest with
      | Some (it, rest') =>
          Some (set_highest (Some (it_addr it), m_startSeq it)
            (set_counts (m_lostOut b) (u32 (m_sackedOut b + isize it)) (m_retransOut b)
              (set_lists (m_appList b) (head :: rest') b)))
      | None => Some b
      end
  end.

Definition ResetRenoSack (b : TcpTxBuffer) : TcpTxBuffer :=
  reset_highest (set_counts (m_lostOut b) 0 (m_retransOut b) (set_lists (m_appList b) (set_sacked false <$> m_sentList b) b)).

Definition ResetSentList (b : TcpTxBuffer) : TcpTxBuffer :=
  reset_highest (set_counts 0 0 0 (set_sizes (m_size b) 0
    (set_lists (((fun i => set_retrans false (set_sacked false (set_lost false i))) <$> m_sentList b) ++ m_appList b) [] b))).

Definition ResetLastSegmentSent (b : TcpTxBuffer) : TcpTxBuffer :=
  match last (m_sentList b) with
  | None => b
  | Some item =>
      set_counts (m_lostOut b) (m_sackedOut b) (if m_retrans item then u32 (m_retransOut b - isize item) else m_retransOut b)
        (set_sizes (m_size b) (u32 (m_sentSize b - isize item)) (set_lists (item :: m_appList b) (removelast (m_sentList b)) b))
  end.

(** The loop of [SetSentListLost] without [resetSack]. *)
Definition lose (i : TcpTxItem) : TcpTxItem := set_retrans false (if m_lost i || m_sacked i then i else set_lost true i).
Definition lost_bytes (l : list TcpTxItem) : Z :=
  fold_left (fun n i => if m_lost i || negb (m_sacked i) then u32 (n + isize i) else n) l 0.
Definition SetSentListLost (resetSack : bool) (b : TcpTxBuffer) : option TcpTxBuffer :=
  let b :=
    if resetSack then
      reset_highest (set_counts (m_sentSize b) 0 0
        (set_lists (m_appList b) ((fun i => set_retrans false (set_lost true (set_sacked false i))) <$> m_sentList b) b))
    else set_counts (lost_bytes (m_sentList b)) (m_sackedOut b) 0 (set_lists (m_appList b) (lose <$> m_sentList b) b) in
  assert* u32 (m_sackedOut b + m_lostOut b) <=? m_sentSize b in Some b.

Definition IsHeadRetransmitted (b : TcpTxBuffer) : option bool :=
  if m_sentSize b =? 0 then Some false
  else match m_sentList b with [] => None | head :: _ => Some (m_retrans head) end.

Definition DeleteRetransmittedFlagFromHead (b : TcpTxBuffer) : option TcpTxBuffer :=
  if m_sentSize b =? 0 then Some b
  else match m_sentList b with
  | [] => None
  | head :: rest =>
      Some (if m_retrans head then
        set_counts (m_lostOut b) (m_sackedOut b) (u32 (m_retransOut b - isize head))
          (set_lists (m_appList b) (set_retrans false head :: rest) b)
      else b)
  end.

(** ** Acknowledgements *)

(** The loop of [DiscardUpTo]; the items given to [beforeDelCb] are returned. *)
Fixpoint discard_loop (fuel : nat) (now offset : Z) (b : TcpTxBuffer) : option (list TcpTxItem * TcpTxBuffer) :=
  if negb ((0 <? m_size b) && (0 <? offset)) then Some ([], b)
  else match fuel with
  | O => None
  | S fuel' =>
      let* b :=
        match m_sentList b with
        | [] => let* (p, b) := CopyFromSequence now offset (m_firstByteSeq b) b in let* _ := p in Some b
        | _ => Some b
        end in
      match m_sentList b with
      | [] => None
      | item :: rest =>
          assert* eq (m_startSeq item) (m_firstByteSeq b) in
          let pktSize := isize item in
          if pktSize <=? offset then
            let* b := RemoveFromCounts item pktSize
              (set_first (seq_add (m_firstByteSeq b) pktSize)
                (set_sizes (u32 (m_size b - pktSize)) (u32 (m_sentSize b - pktSize)) (set_lists (m_appList b) rest b))) in
            let* (deleted, b) := discard_loop fuel' now (u32 (offset - pktSize)) b in
            Some (item :: deleted, b)
          else
            let* p := CreateFragment offset (u32 (pktSize - offset)) (m_packet item) in
            let item' := set_start (seq_add (m_startSeq item) offset) (set_packet p item) in
            let* b := RemoveFromCounts item' offset
              (set_first (seq_add (m_firstByteSeq b) offset)
                (set_sizes (u32 (m_size b - offset)) (u32 (m_sentSize b - offset)) (set_lists (m_appList b) (item' :: rest) b))) in
            Some ([], b)
      end
  end.

(** A sacked head is a wrong guess of the SACK-less count. *)
Definition fix_head (seq : SequenceNumber) (b : TcpTxBuffer) : option TcpTxBuffer :=
  match m_sentList b with
  | [] => Some b
  | head :: rest =>
      let* b :=
        if m_sacked head then
          assert* negb (m_lost head) in
          let* b := AddRenoSack (set_counts (m_lostOut b) (u32 (m_sackedOut b - isize head)) (m_retransOut b)
            (set_lists (m_appList b) (set_sacked false head :: rest) b)) in
          Some (MarkHeadAsLost b)
        else Some b in
      assert* eq (m_startSeq head) seq in Some b
  end.

Definition DiscardUpTo (now : Z) (seq : SequenceNumber) (b : TcpTxBuffer) : option (list TcpTxItem * TcpTxBuffer) :=
  if ge 32 (m_firstByteSeq b) seq then Some ([], b)
  else
    let* d := minus_seq 32 seq (m_firstByteSeq b) in
    let* (deleted, b) := discard_loop (S (S (length (m_sentList b)))) now (u32 d) b in
    let b := if m_size b =? 0 then set_first seq b else b in
    let* b := fix_head seq b in
    let b := if le 32 (m_highestSack b).2 (m_firstByteSeq b) then reset_highest b else b in
    assert* ge 32 (m_firstByteSeq b) seq in
    assert* u32 (m_sackedOut b + m_lostOut b) <=? m_sentSize b in
    Some (deleted, b).

(** ** SACK blocks *)

(** The local variables of [Update] that its loops change. *)
Record SackState := mkSackState {
  ss_lostOut : Z;
  ss_sackedOut : Z;
  ss_bytesSacked : Z;
  ss_highest : option Z * SequenceNumber
}.

(** The inner loop over the sent items for one block; the items given to
    [sackedCb] are returned. *)
Fixpoint sack_loop (block : SequenceNumber * SequenceNumber) (begin : SequenceNumber) (l : list TcpTxItem) (st : SackState)
    : option (list TcpTxItem * list TcpTxItem * SackState) :=
  match l with
  | [] => Some ([], [], st)
  | item :: rest =>
      let pktSize := isize item in
      let pktEnd := seq_add begin pktSize in
      if ge 32 begin block.1 && le 32 pktEnd block.2 then
        if m_sacked item then
          assert* negb (m_lost item) in
          let* (called, rest', st) := sack_loop block pktEnd rest st in Some (called, item :: rest', st)
        else
          let item' := set_sacked true (set_lost false item) in
          let st := mkSackState (if m_lost item then u32 (ss_lostOut st - pktSize) else ss_lostOut st)
            (u32 (ss_sackedOut st + pktSize)) (u32 (ss_bytesSacked st + pktSize))
            (match ss_highest st with
             | (None, _) => (Some (it_addr item), begin)
             | (Some _, s) => if le 32 s pktEnd then (Some (it_addr item), begin) else ss_highest st
             end) in
          let* (called, rest', st) := sack_loop block pktEnd rest st in Some (item' :: called, item' :: rest', st)
      else if gt 32 pktEnd block.2 then Some ([], l, st)
      else let* (called, rest', st) := sack_loop block pktEnd rest st in Some (called, item :: rest', st)
  end.

(** The loop over the blocks; the flag says that it ended early, at a block
    beyond the sent data. *)
Fixpoint block_loop (first sentEnd : SequenceNumber) (blocks : list (SequenceNumber * SequenceNumber)) (l : list TcpTxItem)
    (st : SackState) : option (bool * list TcpTxItem * list TcpTxItem * SackState) :=
  match blocks with
  | [] => Some (false, [], l, st)
  | block :: blocks' =>
      if lt 32 sentEnd block.1 then Some (true, [], l, st)
      else
        let* (called, l, st) := sack_loop block first l st in
        let* (early, called', l, st) := block_loop first sentEnd blocks' l st in
        Some (early, called ++ called', l, st)
  end.

(** The walk of [UpdateLostCount] from the highest sacked item down to the
    second item, on the reversed list. *)
Fixpoint mark_back (thresh sacked lostOut : Z) (l : list TcpTxItem) : list TcpTxItem * Z * Z :=
  match l with
  | [] => ([], sacked, lostOut)
  | item :: rest =>
      let sacked := if m_sacked item then u32 (sacked + 1) else sacked in
      let mark := (thresh <=? sacked) && negb (m_sacked item) && negb (m_lost item) in
      let item' := if mark then set_lost true item else item in
      let lostOut := if mark then u32 (lostOut + isize item) else lostOut in
      let '(rest', sacked, lostOut) := mark_back thresh sacked lostOut rest in
      (item' :: rest', sacked, lostOut)
  end.

Fixpoint position (addr : Z) (l : list TcpTxItem) : option nat :=
  match l with
  | [] => None
  | i :: rest => if it_addr i =? addr then Some O else let* k := position addr rest in Some (S k)
  end.

Definition UpdateLostCount (b : TcpTxBuffer) : option TcpTxBuffer :=
  let* addr := (m_highestSack b).1 in
  let* k := position addr (m_sentList b) in
  match m_sentList b with
  | [] => None
  | head :: rest =>
      let '(back, sacked, lostOut) := mark_back (m_dupAckThresh b) 0 (m_lostOut b) (rev (take k rest)) in
      let mark := (m_dupAckThresh b <=? sacked) && negb (m_lost head) in
      Some (set_counts (if mark then u32 (lostOut + isize head) else lostOut) (m_sackedOut b) (m_retransOut b)
        (set_lists (m_appList b) ((if mark then set_lost true head else head) :: rev back ++ drop k rest) b))
  end.

(** The number of bytes newly sacked and the items given to [sackedCb]. *)
Definition Update (blocks : list (SequenceNumber * SequenceNumber)) (b : TcpTxBuffer) : option (Z * list TcpTxItem * TcpTxBuffer) :=
  let* (early, called, sent, st) := block_loop (m_firstByteSeq b) (seq_add (m_firstByteSeq b) (m_sentSize b)) blocks (m_sentList b)
    (mkSackState (m_lostOut b) (m_sackedOut b) 0 (m_highestSack b)) in
  let b := set_highest (ss_highest st) (set_counts (ss_lostOut st) (ss_sackedOut st) (m_retransOut b) (set_lists (m_appList b) sent b)) in
  if early then Some (ss_bytesSacked st, called, b)
  else
    let* b := if 0 <? ss_bytesSacked st then UpdateLostCount b else Some b in
    match m_sentList b with
    | [] => None
    | head :: _ =>
        assert* negb (m_sacked head) in
        assert* u32 (m_sackedOut b + m_lostOut b) <=? m_sentSize b in
        Some (ss_bytesSacked st, called, b)
    end.

(** ** Questions *)

Definition covers_seq (seq : SequenceNumber) (i : TcpTxItem) : bool :=
  le 32 (m_startSeq i) seq && lt 32 seq (seq_add (m_startSeq i) (isize i)).
Fixpoint is_lost_loop (seq : SequenceNumber) (l : list TcpTxItem) : bool :=
  match l with
  | [] => false
  | i :: rest =>
      if covers_seq seq i then if m_lost i then true else if m_sacked i then false else is_lost_loop seq rest
      else is_lost_loop seq rest
  end.
Definition IsLost (seq : SequenceNumber) (b : TcpTxBuffer) : bool :=
  if ge 32 seq (m_highestSack b).2 then false else is_lost_loop seq (m_sentList b).

(** The loop of [NextSeg]: a lost item that was not retransmitted, or the item
    noted for rule 3 (with the number 0 standing for none). *)
Fixpoint next_loop (isRecovery : bool) (begin : SequenceNumber) (rule3 : SequenceNumber) (valid3 : bool) (l : list TcpTxItem)
    : SequenceNumber + SequenceNumber * bool :=
  match l with
  | [] => inr (rule3, valid3)
  | item :: rest =>
      let next := seq_add begin (isize item) in
      if negb (m_retrans item) && negb (m_sacked item) then
        if m_lost item then inl begin
        else if (GetValue rule3 =? 0) && isRecovery then next_loop isRecovery next begin true rest
        else next_loop isRecovery next rule3 valid3 rest
      else next_loop isRecovery next rule3 valid3 rest
  end.
(** The range to send: its first number and its end. *)
Definition NextSeg (rWnd : Z) (isRecovery : bool) (b : TcpTxBuffer) : option (option (SequenceNumber * SequenceNumber)) :=
  match next_loop isRecovery (m_firstByteSeq b) SequenceNumber_default false (m_sentList b) with
  | inl seq => Some (Some (seq, seq_add seq (m_segmentSize b)))
  | inr (rule3, valid3) =>
      let sentEnd := seq_add (m_firstByteSeq b) (m_sentSize b) in
      let* unsent := SizeFromSequence sentEnd b in
      if 0 <? unsent then
        if m_sentSize b <? rWnd then
          Some (Some (sentEnd, seq_add sentEnd (Z.min (m_segmentSize b) (u32 (rWnd - m_sentSize b)))))
        else Some None
      else if valid3 then Some (Some (rule3, seq_add rule3 (m_segmentSize b)))
      else Some None
  end.

Definition BytesInFlight (b : TcpTxBuffer) : option Z :=
  assert* u32 (m_sackedOut b + m_lostOut b) <=? m_sentSize b in
  Some (u32 (m_sentSize b - u32 (m_sackedOut b + m_lostOut b) + m_retransOut b)).

(** [IsLostRFC] for the item at the head of the list. *)
Fixpoint lost_rfc_loop (b : TcpTxBuffer) (count bytes : Z) (begin : SequenceNumber) (l : list TcpTxItem) : bool :=
  match l with
  | [] => false
  | item :: rest =>
      let count := if m_sacked item then u32 (count + 1) else count in
      let bytes := if m_sacked item then u32 (bytes + isize item) else bytes in
      if m_sacked item && ((m_dupAckThresh b <=? count) || (u32 (u32 (m_dupAckThresh b - 1) * m_segmentSize b) <? bytes)) then true
      else if ge 32 begin (m_highestSack b).2 then m_lost item && negb (m_retrans item)
      else lost_rfc_loop b count bytes (seq_add begin (isize item)) rest
  end.
Definition IsLostRFC (seq : SequenceNumber) (l : list TcpTxItem) (b : TcpTxBuffer) : option bool :=
  match l with
  | [] => None
  | item :: _ => Some (if m_sacked item then false else lost_rfc_loop b 0 0 seq l)
  end.

(** The walk of [BytesInFlightRFC]: the pipe, and the lost, sacked,
    retransmitted and sent bytes. *)
Fixpoint rfc_loop (b : TcpTxBuffer) (begin : SequenceNumber) (l : list TcpTxItem) (acc : Z * Z * Z * Z * Z) : option (Z * Z * Z * Z * Z) :=
  match l with
  | [] => Some acc
  | item :: rest =>
      let '(size, lost, sacked, retrans, total) := acc in
      let n := isize item in
      let* isLost := IsLostRFC begin l b in
      let size := if negb (m_sacked item) && (negb isLost || m_retrans item) then u32 (size + n) else size in
      let lost := if negb (m_sacked item) && isLost then u32 (lost + n) else lost in
      let sacked := if m_sacked item then u32 (sacked + n) else sacked in
      let retrans := if m_retrans item then u32 (retrans + n) else retrans in
      rfc_loop b (seq_add begin n) rest (size, lost, sacked, retrans, u32 (total + n))
  end.
Definition BytesInFlightRFC (b : TcpTxBuffer) : option Z :=
  let* (size, lost, sacked, retrans, total) := rfc_loop b (m_firstByteSeq b) (m_sentList b) (0, 0, 0, 0, 0) in
  assert* lost =? m_lostOut b in
  assert* retrans =? m_retransOut b in
  assert* sacked =? m_sackedOut b in
  assert* total =? m_sentSize b in
  Some size.

Fixpoint highest_loop (begin : SequenceNumber) (l : list TcpTxItem) (ret : option Z * SequenceNumber) : option Z * SequenceNumber :=
  match l with
  | [] => ret
  | item :: rest => highest_loop (seq_add begin (isize item)) rest (if m_sacked item then (Some (it_addr item), begin) else ret)
  end.
Definition FindHighestSacked (b : TcpTxBuffer) : option Z * SequenceNumber :=
  highest_loop (m_firstByteSeq b) (m_sentList b) (None, SequenceNumber_default).

End Join.
End TcpTxScoreboard.
