(* ===== verification/TcpTxProps.v ===== *)
(** * Correctness of the TCP send buffer

    The items of the buffer hold the bytes of the stream from the first
    unacknowledged one on, in order; the counts agree with the flags; no
    operation a connection makes aborts, and every segment given out carries the
    bytes of the stream at its sequence number. *)

From S2P Require Import Prelude Buffer BufferInv PacketBytes SequenceNumber TcpRxBuffer TcpTxBuffer TcpTxScoreboard.
Import Buffer BufferInv PacketBytes SequenceNumber TcpTxBuffer TcpTxScoreboard.

Module TcpTxProps.

(** The largest amount of data a send buffer may hold, in bytes. *)
Definition MAX_TX : Z := 2 ^ 30.

(** ** Sums over items *)

Definition total (l : list TcpTxItem) : Z := foldr (fun i n => isize i + n) 0 l.
(** The bytes of the items that satisfy [f]. *)
Definition counted (f : TcpTxItem -> bool) (l : list TcpTxItem) : Z := foldr (fun i n => (if f i then isize i else 0) + n) 0 l.

Lemma isize_nonneg i : 0 <= isize i.
Proof. apply zlen_nonneg. Qed.
Lemma total_app l1 l2 : total (l1 ++ l2) = total l1 + total l2.
Proof. induction l1 as [|i l1 IH]; simpl; [done |]. rewrite IH. lia. Qed.
Lemma counted_app f l1 l2 : counted f (l1 ++ l2) = counted f l1 + counted f l2.
Proof. induction l1 as [|i l1 IH]; simpl; [done |]. rewrite IH. lia. Qed.
Lemma tx_total_nonneg l : 0 <= total l.
Proof. induction l as [|i l IH]; simpl; [lia |]. pose proof (isize_nonneg i). lia. Qed.
Lemma counted_range f l : 0 <= counted f l <= total l.
Proof. induction l as [|i l IH]; simpl; [lia |]. pose proof (isize_nonneg i). destruct (f i); lia. Qed.
Lemma counted_none f l : Forall (fun i => f i = false) l -> counted f l = 0.
Proof. induction 1 as [|i l Hi _ IH]; simpl; [done |]. by rewrite Hi, IH. Qed.
(** Items are sacked or lost, not both. *)
Definition apart (i : TcpTxItem) : Prop := m_sacked i && m_lost i = false.
Lemma counted_apart l : Forall apart l -> counted m_sacked l + counted m_lost l <= total l.
Proof.
  induction 1 as [|i l Hi _ IH]; simpl; [lia |]. pose proof (isize_nonneg i). unfold apart in Hi.
  destruct (m_sacked i), (m_lost i); try done; lia.
Qed.

Section Tx.
Context (isn : Z) (stream : Z -> Z) {mem : Memory} {HJ : TcpRxBuffer.JoinsPieces stream}.
Notation sq := (TcpRxBuffer.sq isn).
Notation bytes := (TcpRxBuffer.bytes stream).
Notation near := TcpRxBuffer.near.

(** The items hold the stream from offset [o] on. *)
Fixpoint laid (o : Z) (l : list TcpTxItem) : Prop :=
  match l with
  | [] => True
  | i :: r => 0 < isize i /\ m_packet i = bytes o (isize i) /\ laid (o + isize i) r
  end.
(** The items know the sequence numbers of their first bytes. *)
Fixpoint starts (o : Z) (l : list TcpTxItem) : Prop :=
  match l with
  | [] => True
  | i :: r => m_startSeq i = sq o /\ starts (o + isize i) r
  end.

Lemma laid_app o l1 l2 : laid o (l1 ++ l2) <-> laid o l1 /\ laid (o + total l1) l2.
Proof.
  revert o. induction l1 as [|i l1 IH]; intros o; simpl; [rewrite Z.add_0_r; tauto |]. rewrite IH.
  replace (o + isize i + total l1) with (o + (isize i + total l1)) by lia. tauto.
Qed.
Lemma starts_app o l1 l2 : starts o (l1 ++ l2) <-> starts o l1 /\ starts (o + total l1) l2.
Proof.
  revert o. induction l1 as [|i l1 IH]; intros o; simpl; [rewrite Z.add_0_r; tauto |]. rewrite IH.
  replace (o + isize i + total l1) with (o + (isize i + total l1)) by lia. tauto.
Qed.
Lemma laid_pos o l : laid o l -> l <> [] -> 0 < total l.
Proof. destruct l as [|i l]; [done |]. intros (Hi & _ & _) _. simpl. pose proof (tx_total_nonneg l). lia. Qed.

(** ** Sequence numbers *)

Lemma swrap_mod x : (swrap 32 x) mod 2 ^ 32 = x mod 2 ^ 32.
Proof. unfold swrap. rewrite Zminus_mod_idemp_l. f_equal. lia. Qed.

Lemma seq_add_sq o n : seq_add (sq o) n = sq (o + n).
Proof.
  unfold seq_add, plus, SequenceNumber_of, TcpRxBuffer.sq. cbn [m_value]. f_equal. unfold wrap.
  rewrite Zplus_mod_idemp_l, <- Zplus_mod_idemp_r, swrap_mod, Zplus_mod_idemp_r. f_equal. lia.
Qed.
Lemma tail_sq o n : plus_seq 32 (sq o) (SequenceNumber_of n) = sq (o + n).
Proof. unfold plus_seq, SequenceNumber_of, TcpRxBuffer.sq. cbn [m_value]. f_equal. unfold wrap. rewrite Zplus_mod_idemp_l. f_equal. lia. Qed.


(** ** Cutting and joining *)

Lemma RemoveAtStart_bytes o n k : 0 <= k <= n -> RemoveAtStart k (bytes o n) = bytes (o + k) (n - k).
Proof.
  intros H. unfold RemoveAtStart. rewrite <- (TcpRxBuffer.bytes_slice stream o n k (n - k)) by lia. unfold slice.
  rewrite take_ge; [done |]. rewrite length_drop. pose proof (TcpRxBuffer.bytes_size stream o n). unfold zlen in *. lia.
Qed.

(** Items that agree on the flags a merge compares. *)
Definition alike (i j : TcpTxItem) : Prop := m_sacked i = m_sacked j /\ m_lost i = m_lost j.

Lemma SplitItems_ok addr i o k : m_packet i = bytes o (isize i) -> 0 < k < isize i -> isize i <= MAX_TX ->
  exists i1 i2, SplitItems addr i k = Some (i1, i2) /\ it_addr i1 = addr /\ it_addr i2 = it_addr i /\
    isize i1 = k /\ isize i2 = isize i - k /\ m_packet i1 = bytes o k /\ m_packet i2 = bytes (o + k) (isize i - k) /\
    m_startSeq i1 = m_startSeq i /\ m_startSeq i2 = seq_add (m_startSeq i) k /\ alike i1 i /\ alike i2 i /\
    m_retrans i1 = m_retrans i /\ m_retrans i2 = m_retrans i.
Proof.
  intros Hp Hk Hm. unfold SplitItems, MAX_TX in *. rewrite Hp. rewrite (TcpRxBuffer.CreateFragment_bytes stream) by lia. rewrite Z.add_0_r.
  rewrite RemoveAtStart_bytes by lia. eexists _, _. split; [reflexivity |]. unfold isize in *. cbn.
  unfold GetSize in *. rewrite !(TcpRxBuffer.bytes_size stream) by lia. split_and!; done.
Qed.

Lemma MergeItems_ok i j o retr : m_packet i = bytes o (isize i) -> m_packet j = bytes (o + isize i) (isize j) -> alike i j ->
  (m_retrans i <> m_retrans j -> (if m_retrans i then isize i else isize j) <= retr < 2 ^ 32) ->
  exists k retr', MergeItems i j retr = Some (k, retr') /\ it_addr k = it_addr i /\ isize k = isize i + isize j /\
    m_packet k = bytes o (isize i + isize j) /\ m_startSeq k = m_startSeq i /\ alike k i /\ m_retrans k = m_retrans i && m_retrans j /\
    retr' = retr - counted m_retrans [i; j] + counted m_retrans [k].
Proof.
  intros Hi Hj [Hs Hl] Hr. unfold MergeItems. rewrite Hs, Hl, !eqb_reflx. cbn [NS_ASSERT].
  set (r := if Bool.eqb (m_retrans i) (m_retrans j) then (i, retr) else _).
  assert (exists i' retr', r = (i', retr') /\ it_addr i' = it_addr i /\ m_packet i' = m_packet i /\ m_startSeq i' = m_startSeq i /\ alike i' i /\ m_retrans i' = m_retrans i && m_retrans j /\
    retr' = retr - counted m_retrans [i; j] + (if m_retrans i' then isize i + isize j else 0)) as (i' & retr' & -> & Ea & Ep & Es & Hal & Hrt & Er).
  { unfold r. simpl. destruct (m_retrans i) eqn:Ei, (m_retrans j) eqn:Ej; simpl.
    - exists i, retr. rewrite Ei. split_and!; try done. lia.
    - exists (set_retrans false i), (retr - isize i). specialize (Hr ltac:(done)). split_and!; try done; [| simpl; lia].
      f_equal. apply Z.mod_small. pose proof (isize_nonneg i). lia.
    - exists i, (retr - isize j). specialize (Hr ltac:(done)). rewrite Ei. split_and!; try done; [| lia].
      f_equal. apply Z.mod_small. pose proof (isize_nonneg j). lia.
    - exists i, retr. rewrite Ei. split_and!; try done. lia. }
  assert (bytes o (isize i) ++ bytes (o + isize i) (isize j) = bytes o (isize i + isize j)) as Eb.
  { apply TcpRxBuffer.bytes_app; apply isize_nonneg. }
  assert (AddAtEnd (m_packet j) (m_packet i') = Some (bytes o (isize i + isize j))) as Epk by (rewrite Ep, Hi, Hj; apply (TcpRxBuffer.AddAtEnd_bytes stream); [done | apply isize_nonneg..]).
  assert (zlen (bytes o (isize i + isize j)) = isize i + isize j) as El.
  { apply TcpRxBuffer.bytes_size. pose proof (isize_nonneg i). pose proof (isize_nonneg j). lia. }
  set (i2 := if m_lastSent i' <? m_lastSent j then set_lastSent (m_lastSent j) i' else i').
  assert (it_addr i2 = it_addr i' /\ m_packet i2 = m_packet i' /\ m_startSeq i2 = m_startSeq i' /\ m_sacked i2 = m_sacked i' /\
    m_lost i2 = m_lost i' /\ m_retrans i2 = m_retrans i') as (F1 & F2 & F3 & F4 & F5 & F6) by (unfold i2; by destruct (m_lastSent i' <? m_lastSent j)).
  rewrite F2, Epk. assert (isize (set_packet (bytes o (isize i + isize j)) i2) = isize i + isize j) as Esz by exact El.
  eexists _, _. split; [reflexivity |]. split_and!; [by rewrite <- Ea | done | done | by rewrite <- Es | | cbn [m_retrans set_packet]; congruence |].
  - destruct Hal as [Ha1 Ha2]. split; cbn [m_sacked m_lost set_packet]; congruence.
  - cbn [counted foldr]. cbn [m_retrans set_packet]. rewrite Esz, F6, Er. simpl. lia.
Qed.

Lemma walk_ok check t o acc pre cur rest :
  o + total pre <= t < o + total pre + isize cur -> total (pre ++ cur :: rest) <= MAX_TX ->
  Forall (fun i => check i = true) (pre ++ [cur]) ->
  walk check (sq t) (sq o) acc (pre ++ cur :: rest) = Some (acc ++ pre, cur, sq (o + total pre), rest).
Proof.
  unfold MAX_TX. revert o acc. induction pre as [|i pre IH]; intros o acc Ht Hm Hc; simpl in *.
  - apply Forall_cons in Hc as [-> _]. cbn [NS_ASSERT]. rewrite seq_add_sq, TcpRxBuffer.lt_sq.
    + rewrite (proj2 (Z.ltb_lt _ _)) by lia. by rewrite app_nil_r, Z.add_0_r.
    + pose proof (tx_total_nonneg rest). unfold TcpRxBuffer.near. lia.
  - apply Forall_cons in Hc as [-> Hc]. cbn [NS_ASSERT]. rewrite total_app in Hm. simpl in Hm.
    pose proof (tx_total_nonneg rest). pose proof (tx_total_nonneg pre). pose proof (isize_nonneg i). pose proof (isize_nonneg cur).
    rewrite seq_add_sq, TcpRxBuffer.lt_sq by (unfold TcpRxBuffer.near; lia). rewrite (proj2 (Z.ltb_ge _ _)) by lia.
    rewrite IH; [| lia | rewrite total_app; simpl; lia | done]. rewrite <- app_assoc. do 3 f_equal. f_equal. lia.
Qed.

(** ** Finding or making a segment *)

(** The addresses of the items are distinct and below the next one. *)
Definition addrs_ok (addr : Z) (l : list TcpTxItem) : Prop := NoDup (it_addr <$> l) /\ Forall (fun i => it_addr i < addr) l.
(** The assertion of [GetPacketFromList] holds on items numbered from [o] on. *)
Definition check_ok (check : TcpTxItem -> bool) (o : Z) (l : list TcpTxItem) : Prop :=
  (forall i, check i = true) \/ (starts o l /\ forall i x, o <= x <= o + MAX_TX -> m_startSeq i = sq x -> check i = true).

Lemma check_prefix check o l1 l2 : check_ok check o (l1 ++ l2) -> total (l1 ++ l2) <= MAX_TX -> Forall (fun i => check i = true) l1.
Proof.
  intros [H|[Hs H]] Hm; [by apply Forall_true |]. apply starts_app in Hs as [Hs _]. rewrite total_app in Hm.
  pose proof (tx_total_nonneg l2) as H2.
  assert (forall o', o <= o' -> o' + total l1 <= o + MAX_TX -> starts o' l1 -> Forall (fun i => check i = true) l1) as Hg.
  { clear Hs Hm H2. induction l1 as [|i l1 IH]; intros o' Ho Ht Hs; [done |]. simpl in *. destruct Hs as [Hi Hs]. pose proof (isize_nonneg i).
    pose proof (tx_total_nonneg l1). constructor; [apply (H i o'); [lia | done] |]. apply (IH (o' + isize i)); [lia | lia | done]. }
  apply (Hg o); [lia | lia | done].
Qed.

Lemma addrs_split addr pre cur i1 i2 post : addrs_ok addr (pre ++ cur :: post) -> it_addr i1 = addr -> it_addr i2 = it_addr cur ->
  addrs_ok (addr + 1) (pre ++ i1 :: i2 :: post).
Proof.
  intros [Hn Hl] E1 E2. split.
  - rewrite fmap_app, fmap_cons in *. rewrite fmap_cons, E2, E1. rewrite <- (Permutation_middle (it_addr <$> pre)).
    apply NoDup_cons. split; [| done]. rewrite <- fmap_cons, <- fmap_app. intros (i & E & Hi)%list_elem_of_fmap.
    rewrite Forall_forall in Hl. specialize (Hl i Hi). lia.
  - rewrite Forall_app, !Forall_cons in *. destruct Hl as (H1 & H2 & H3). split_and!; [eapply Forall_impl; [done |]; simpl; lia | lia | lia |].
    eapply Forall_impl; [done |]. simpl. lia.
Qed.

Lemma addrs_merge addr pre cur next k post : addrs_ok addr (pre ++ cur :: next :: post) -> it_addr k = it_addr cur -> addrs_ok addr (pre ++ k :: post).
Proof.
  intros [Hn Hl] E. split.
  - rewrite fmap_app, !fmap_cons in *. rewrite E. apply NoDup_app in Hn as (H1 & H2 & H3). apply NoDup_app. split_and!; [done | |].
    + intros a Ha Hin. apply (H2 a Ha). apply elem_of_cons in Hin as [->|Hin]; [by left | right; by right].
    + apply NoDup_cons in H3 as [H3 H4]. apply NoDup_cons in H4 as [_ H4]. apply NoDup_cons. split; [| done]. intros Hin. apply H3. by right.
  - rewrite Forall_app, !Forall_cons in *. destruct Hl as (H1 & H2 & H3 & H4). split_and!; [done | by rewrite E | done].
Qed.

Record made (addr : Z) (cur : TcpTxItem) (m : list TcpTxItem) (o : Z) (pre post : list TcpTxItem) (s base : Z)
    (a : Z) (cur' : TcpTxItem) (m' : list TcpTxItem) (retr' addr' : Z) : Prop := mkMade {
  md_addr : it_addr cur' = a;
  md_size : isize cur' = s;
  md_total : isize cur' + total m' = isize cur + total m;
  md_laid : laid o (pre ++ cur' :: m' ++ post);
  md_starts : starts o (pre ++ cur :: m ++ post) -> starts o (pre ++ cur' :: m' ++ post);
  md_alike : Forall (fun j => alike j cur) (cur' :: m');
  md_retr : retr' = base + counted m_retrans (pre ++ cur' :: m' ++ post);
  md_addrs : addr <= addr' /\ addrs_ok addr' (pre ++ cur' :: m' ++ post);
  md_from : forall i, i ∈ pre ++ cur' :: m' ++ post -> it_addr i ∈ it_addr <$> (pre ++ cur :: m ++ post) \/ addr <= it_addr i;
  md_fresh : Forall (fun i => m_retrans i = false) (cur :: m) -> Forall (fun i => m_retrans i = false) (cur' :: m')
}.

Lemma GetPacketFromList_ok fuel check o s pre cur m post retr addr base :
  let l := pre ++ cur :: m ++ post in
  laid o l -> total l <= MAX_TX -> check_ok check o l -> Forall (fun j => alike j cur) m -> 0 < s <= isize cur + total m ->
  retr = base + counted m_retrans l -> 0 <= base -> base + MAX_TX < 2 ^ 32 -> addrs_ok addr l -> (length m < fuel)%nat ->
  exists a cur' m' retr' addr', GetPacketFromList fuel check (sq o) s (sq (o + total pre)) l retr addr
      = Some (a, pre ++ cur' :: m' ++ post, retr', addr') /\ made addr cur m o pre post s base a cur' m' retr' addr'.
Proof.
  intros l. subst l. revert cur m retr. induction fuel as [|fuel IH]; intros cur m retr Hl Hm Hchk Hal Hs Hr Hb Hb2 Ha Hf; [lia |].
  pose proof Hl as Hl0. apply laid_app in Hl0 as [Hlp Hl0]. simpl in Hl0. destruct Hl0 as (Hc0 & Hcp & Hlr).
  assert (isize cur <= MAX_TX) as Hcm.
  { rewrite total_app in Hm. simpl in Hm. pose proof (tx_total_nonneg pre). pose proof (tx_total_nonneg (m ++ post)). lia. }
  cbn [GetPacketFromList]. rewrite walk_ok; [| lia | done |].
  2: { apply check_prefix with (o := o) (l2 := m ++ post); by rewrite <- app_assoc. }
  rewrite TcpRxBuffer.eq_sq, Z.eqb_refl by (unfold TcpRxBuffer.near; lia). rewrite !seq_add_sq.
  assert (0 < s <= MAX_TX) as Hs2.
  { rewrite total_app in Hm. simpl in Hm. rewrite total_app in Hm. pose proof (tx_total_nonneg pre). pose proof (tx_total_nonneg post). lia. }
  unfold MAX_TX in *. rewrite TcpRxBuffer.le_sq by (unfold TcpRxBuffer.near; lia).
  destruct (Z.leb_spec (o + total pre + s) (o + total pre + isize cur)) as [Hle|Hgt].
  - destruct (Z.eqb_spec s (isize cur)) as [->|Hne].
    + exists (it_addr cur), cur, m, retr, addr. split; [done |]. constructor; try done; [by constructor |].
      intros i Hi. left. apply list_elem_of_fmap. by exists i.
    + rewrite (proj2 (Z.ltb_lt _ _)) by lia.
      destruct (SplitItems_ok addr cur (o + total pre) s Hcp ltac:(lia) ltac:(unfold MAX_TX; lia)) as (i1 & i2 & -> & E1 & E2 & Z1 & Z2 & P1 & P2 & S1 & S2 & A1 & A2 & R1 & R2).
      exists addr, i1, (i2 :: m), retr, (addr + 1). split; [done |]. constructor; try done.
      * simpl. lia.
      * apply laid_app. split; [done |]. simpl. rewrite Z1, Z2. split_and!; try done; [lia | lia |].
        by replace (o + total pre + s + (isize cur - s)) with (o + total pre + isize cur) by lia.
      * rewrite !starts_app. simpl. rewrite Z1, Z2, S1, S2. intros (H1 & H2 & H3). split_and!; try done; [by rewrite H2, seq_add_sq |].
        by replace (o + total pre + s + (isize cur - s)) with (o + total pre + isize cur) by lia.
      * constructor; [done |]. by constructor.
      * rewrite Hr, !counted_app. simpl. rewrite R1, R2, Z1, Z2. destruct (m_retrans cur); lia.
      * split; [lia |]. by apply addrs_split with (cur := cur).
      * intros i Hi. cbn [app] in Hi. rewrite elem_of_app, !elem_of_cons in Hi. rewrite fmap_app, fmap_cons, elem_of_app, elem_of_cons.
        destruct Hi as [Hi|[->|[->|Hi]]]; [left; left; by apply list_elem_of_fmap_2 | right; lia | left; right; by left |].
        left. right. right. by apply list_elem_of_fmap_2.
      * rewrite !Forall_cons. intros [Hc1 Hc2]. split_and!; [congruence | congruence | done].
  - destruct m as [|next m]; [simpl in Hs; lia |]. apply Forall_cons in Hal as [Hn Hal]. simpl in Hlr. destruct Hlr as (Hn0 & Hnp & Hlr).
    simpl in Hs. pose proof (counted_range m_retrans (pre ++ cur :: (next :: m) ++ post)) as Hcr.
    destruct (MergeItems_ok cur next (o + total pre) retr Hcp Hnp ltac:(destruct Hn; by split)) as (k & retr2 & E & Ka & Ks & Kp & Kst & Kal & Krt & Kr).
    { intros Hneq. pose proof (counted_range m_retrans pre). pose proof (counted_range m_retrans (m ++ post)). rewrite Hr.
      rewrite !counted_app in Hcr |- *. simpl in *. destruct (m_retrans cur), (m_retrans next); try done; lia. }
    cbn [app]. rewrite E.
    destruct (IH k m retr2) as (a & cur' & m' & retr' & addr' & E2 & Hmade); try done.
    + apply laid_app. split; [done |]. simpl. rewrite Ks. split_and!; [lia | done |].
      by replace (o + total pre + (isize cur + isize next)) with (o + total pre + isize cur + isize next) by lia.
    + rewrite !total_app in *. simpl in *. lia.
    + destruct Hchk as [Hchk|[Hst Hchk]]; [by left | right]. split; [| done]. rewrite starts_app in *. simpl in *. rewrite Kst, Ks.
      destruct Hst as (H1 & H2 & H3 & H4). split_and!; try done.
      by replace (o + total pre + (isize cur + isize next)) with (o + total pre + isize cur + isize next) by lia.
    + eapply Forall_impl; [exact Hal |]. intros j [J1 J2]. destruct Kal as [K1 K2]. split; congruence.
    + rewrite Ks. lia.
    + rewrite Kr, Hr, !counted_app. simpl. destruct (m_retrans cur), (m_retrans next), (m_retrans k); lia.
    + by apply addrs_merge with (cur := cur) (next := next).
    + simpl in Hf. lia.
    + exists a, cur', m', retr', addr'. split; [done |]. destruct Hmade as [M1 M2 M3 M4 M5 M6 M7 M8 M9 M10]. constructor; try done.
      * simpl. lia.
      * intros Hst. apply M5. rewrite starts_app in *. simpl in *. rewrite Kst, Ks. destruct Hst as (H1 & H2 & H3 & H4). split_and!; try done.
        by replace (o + total pre + (isize cur + isize next)) with (o + total pre + isize cur + isize next) by lia.
      * eapply Forall_impl; [exact M6 |]. intros j [J1 J2]. destruct Kal as [K1 K2]. split; congruence.
      * intros i Hi. destruct (M9 i Hi) as [Hin|?]; [left | by right]. rewrite fmap_app, fmap_cons in Hin |- *. rewrite Ka in Hin.
        rewrite elem_of_app, elem_of_cons in *. destruct Hin as [?|[?|?]]; [by left | right; by left | right; right; by right].
      * intros Hfr. apply M10. rewrite !Forall_cons in Hfr. destruct Hfr as (H1 & H2 & H3). constructor; [by rewrite Krt, H1 | done].
Qed.

End Tx.

End TcpTxProps.
