(* ===== verification/TcpTxInv.v ===== *)
(** * The invariant of the TCP send buffer

    The invariant [tx_inv] and, for each operation, the lemma that it returns and
    preserves the invariant under the conditions a connection calls it in. *)

From S2P Require Import Prelude Buffer BufferInv PacketBytes SequenceNumber TcpRxBuffer TcpTxBuffer TcpTxScoreboard TcpTxProps.
Import Buffer BufferInv PacketBytes SequenceNumber TcpTxBuffer TcpTxScoreboard TcpTxProps.

Module TcpTxInv.

Definition clean (i : TcpTxItem) : Prop := m_lost i = false /\ m_sacked i = false /\ m_retrans i = false.

(** ** Items by address *)

Lemma addrs_mid addr pre i post : addrs_ok addr (pre ++ i :: post) ->
  Forall (fun j => it_addr j <> it_addr i) pre /\ Forall (fun j => it_addr j <> it_addr i) post.
Proof.
  intros [Hn _]. rewrite fmap_app, fmap_cons in Hn. apply NoDup_app in Hn as (_ & H1 & H2). apply NoDup_cons in H2 as [H2 _]. split.
  - apply Forall_forall. intros j Hj E. apply (H1 (it_addr j)); [by apply list_elem_of_fmap_2 | rewrite E; by left].
  - apply Forall_forall. intros j Hj E. apply H2. rewrite <- E. by apply list_elem_of_fmap_2.
Qed.

Lemma find_item_mid pre i post : Forall (fun j => it_addr j <> it_addr i) pre -> find_item (it_addr i) (pre ++ i :: post) = Some i.
Proof.
  unfold find_item. induction 1 as [|j pre Hj _ IH]; simpl; [by rewrite Z.eqb_refl |]. by rewrite (proj2 (Z.eqb_neq _ _) Hj).
Qed.
Lemma map_item_none a f l : Forall (fun j => it_addr j <> a) l -> map_item a f l = l.
Proof.
  unfold map_item. induction 1 as [|j l Hj _ IH]; [done |]. rewrite fmap_cons, IH. by rewrite (proj2 (Z.eqb_neq _ _) Hj).
Qed.
Lemma map_item_mid f pre i post : Forall (fun j => it_addr j <> it_addr i) pre -> Forall (fun j => it_addr j <> it_addr i) post ->
  map_item (it_addr i) f (pre ++ i :: post) = pre ++ f i :: post.
Proof.
  intros H1 H2. unfold map_item. rewrite fmap_app, fmap_cons, Z.eqb_refl.
  change (map_item (it_addr i) f pre ++ f i :: map_item (it_addr i) f post = pre ++ f i :: post). by rewrite !map_item_none.
Qed.
Lemma filter_item_none a l : Forall (fun j => it_addr j <> a) l -> List.filter (fun j => negb (it_addr j =? a)) l = l.
Proof. induction 1 as [|j l Hj _ IH]; simpl; [done |]. by rewrite (proj2 (Z.eqb_neq _ _) Hj), IH. Qed.
Lemma filter_item_mid pre i post : Forall (fun j => it_addr j <> it_addr i) pre -> Forall (fun j => it_addr j <> it_addr i) post ->
  List.filter (fun j => negb (it_addr j =? it_addr i)) (pre ++ i :: post) = pre ++ post.
Proof. intros H1 H2. rewrite List.filter_app. simpl. rewrite Z.eqb_refl. simpl. by rewrite !filter_item_none. Qed.

Section Inv.
Context (isn : Z) (stream : Z -> Z) (hi : Z) {mem : Memory} {HJ : TcpRxBuffer.JoinsPieces stream}.
Notation sq := (TcpRxBuffer.sq isn).
Notation bytes := (TcpRxBuffer.bytes stream).
Notation laid := (laid stream).
Notation starts := (starts isn).

(** [hi]: the offset stored with the highest SACK. Unless it is already
    acknowledged, the item is in the list, is sacked and starts there or later. *)
Definition high_ok (una : Z) (sent : list TcpTxItem) (high : option Z * SequenceNumber) : Prop :=
  match high with
  | (None, _) => True
  | (Some a, s) => s = sq hi /\ (una < hi -> exists i x, i ∈ sent /\ it_addr i = a /\ m_sacked i = true /\ m_startSeq i = sq x /\ hi <= x <= una + total sent)
  end.

(** [una]: the offset of the first unacknowledged byte. *)
Record tx_inv (una : Z) (b : TcpTxBuffer) : Prop := mkTxInv {
  v_first : m_firstByteSeq b = sq una;
  v_laid : laid una (m_sentList b ++ m_appList b);
  v_starts : starts una (m_sentList b);
  v_size : m_size b = total (m_sentList b ++ m_appList b);
  v_sent : m_sentSize b = total (m_sentList b);
  v_max : m_size b <= m_maxBuffer b <= MAX_TX;
  v_lost : m_lostOut b = counted m_lost (m_sentList b);
  v_sacked : m_sackedOut b = counted m_sacked (m_sentList b);
  v_retrans : m_retransOut b = counted m_retrans (m_sentList b);
  v_apart : Forall apart (m_sentList b);
  v_clean : Forall clean (m_appList b);
  v_addrs : addrs_ok (next_addr b) (m_sentList b ++ m_appList b);
  v_high : high_ok una (m_sentList b) (m_highestSack b)
}.

(** Two states of one item: only the flags and the time may differ. *)
Definition same (i j : TcpTxItem) : Prop := it_addr j = it_addr i /\ m_startSeq j = m_startSeq i /\ m_packet j = m_packet i.
Lemma same_isize i j : same i j -> isize j = isize i.
Proof. intros (_ & _ & E). unfold isize. by rewrite E. Qed.
Lemma same_total l l' : Forall2 same l l' -> total l' = total l.
Proof. induction 1 as [|i j l l' H _ IH]; simpl; [done |]. by rewrite (same_isize i j H), IH. Qed.
Lemma same_laid o l l' : Forall2 same l l' -> laid o l -> laid o l'.
Proof.
  intros H. revert o. induction H as [|i j l l' H _ IH]; intros o; simpl; [done |]. rewrite (same_isize i j H). destruct H as (_ & _ & ->).
  intros (? & ? & ?). split_and!; auto.
Qed.
Lemma same_starts o l l' : Forall2 same l l' -> starts o l -> starts o l'.
Proof.
  intros H. revert o. induction H as [|i j l l' H _ IH]; intros o; simpl; [done |]. rewrite (same_isize i j H). destruct H as (_ & -> & _).
  intros (? & ?). auto.
Qed.
Lemma same_addrs l l' : Forall2 same l l' -> it_addr <$> l' = it_addr <$> l.
Proof. induction 1 as [|i j l l' (H & _ & _) _ IH]; [done |]. by rewrite !fmap_cons, H, IH. Qed.
Lemma addrs_ok_fmap addr l : addrs_ok addr l <-> NoDup (it_addr <$> l) /\ Forall (fun a => a < addr) (it_addr <$> l).
Proof. unfold addrs_ok. by rewrite Forall_fmap. Qed.
Lemma same_refl l : Forall2 same l l.
Proof. induction l; constructor; by try split_and!. Qed.

(** What the operations that only change flags leave as it is. *)
Definition frame (b b' : TcpTxBuffer) : Prop :=
  m_firstByteSeq b' = m_firstByteSeq b /\ m_appList b' = m_appList b /\ m_size b' = m_size b /\ m_sentSize b' = m_sentSize b /\
  m_maxBuffer b' = m_maxBuffer b /\ next_addr b' = next_addr b.

Lemma tx_inv_flags una b b' : tx_inv una b -> frame b b' -> Forall2 same (m_sentList b) (m_sentList b') ->
  m_lostOut b' = counted m_lost (m_sentList b') -> m_sackedOut b' = counted m_sacked (m_sentList b') ->
  m_retransOut b' = counted m_retrans (m_sentList b') -> Forall apart (m_sentList b') ->
  high_ok una (m_sentList b') (m_highestSack b') -> tx_inv una b'.
Proof.
  intros [] (F1 & F2 & F3 & F4 & F5 & F6) Hs Hl Hk Hr Ha Hh.
  assert (Forall2 same (m_sentList b ++ m_appList b) (m_sentList b' ++ m_appList b')) as Hs2.
  { rewrite F2. apply Forall2_app; [done | apply same_refl]. }
  constructor; try done.
  - by rewrite F1.
  - by apply same_laid with (l := m_sentList b ++ m_appList b).
  - by apply same_starts with (l := m_sentList b).
  - rewrite F3, v_size0. symmetry. by apply same_total.
  - rewrite F4, v_sent0. symmetry. by apply same_total.
  - by rewrite F3, F5.
  - by rewrite F2.
  - rewrite F6. apply addrs_ok_fmap. rewrite (same_addrs _ _ Hs2). by apply addrs_ok_fmap.
Qed.

(** The highest SACK is kept when every sacked item after the head stays sacked. *)
Lemma high_keep una sent sent' high : high_ok una sent high -> total sent' = total sent ->
  (forall i x, i ∈ sent -> m_sacked i = true -> m_startSeq i = sq x -> una < x <= una + total sent ->
    exists j, j ∈ sent' /\ same i j /\ m_sacked j = true) -> high_ok una sent' high.
Proof.
  intros H Et Hk. destruct high as [[a|] s]; [| done]. destruct H as [Es H]. split; [done |]. intros Hlt. destruct (H Hlt) as (i & x & Hi & Ha & Hs & Ex & Hr).
  destruct (Hk i x Hi Hs Ex ltac:(lia)) as (j & Hj & (J1 & J2 & J3) & Js). exists j, x. rewrite Et. split_and!; try done; try congruence; lia.
Qed.
Lemma high_same una sent sent' high : high_ok una sent high ->
  Forall2 (fun i j => same i j /\ (m_sacked i = true -> m_sacked j = true)) sent sent' -> high_ok una sent' high.
Proof.
  intros H Hs. apply high_keep with (sent := sent); [done | apply same_total; eapply Forall2_impl; [exact Hs | by intros ? ? []] |].
  intros i x Hi Hk _ _. apply list_elem_of_lookup in Hi as (n & Hi). destruct (Forall2_lookup_l _ _ _ _ _ Hs Hi) as (j & Hj & Hij & Hkj).
  exists j. split_and!; auto. by eapply list_elem_of_lookup_2.
Qed.

(** An item replaced by one that differs in the time it was sent. *)
Lemma same_mid pre i j post : same i j -> Forall2 same (pre ++ i :: post) (pre ++ j :: post).
Proof. intros H. apply Forall2_app; [apply same_refl |]. constructor; [done | apply same_refl]. Qed.
Lemma tx_inv_touch una b pre i post t : tx_inv una b -> m_sentList b = pre ++ i :: post ->
  tx_inv una (set_lists (m_appList b) (pre ++ set_lastSent t i :: post) b).
Proof.
  intros H E. pose proof H as []. apply tx_inv_flags with (b := b); try done; rewrite ?E in *; cbn [set_lists m_sentList m_lostOut m_sackedOut m_retransOut m_highestSack].
  - by apply same_mid.
  - by rewrite v_lost0, !counted_app.
  - by rewrite v_sacked0, !counted_app.
  - by rewrite v_retrans0, !counted_app.
  - rewrite Forall_app, Forall_cons in *. exact v_apart0.
  - eapply high_same; [done |]. apply Forall2_app; [| constructor; [done |]]; apply Forall2_same_length_lookup_2; try done;
      intros k x y Hx Hy; rewrite Hx in Hy; injection Hy as ->; done.
Qed.

End Inv.

End TcpTxInv.
