(* ===== verification/TcpTxSend.v ===== *)
(** * Sending from the TCP send buffer

    [Add] and [CopyFromSequence] return and keep the invariant; the segment given
    out carries the bytes of the stream at the number it was asked for. *)

From S2P Require Import Prelude Buffer BufferInv PacketBytes SequenceNumber TcpRxBuffer TcpTxBuffer TcpTxScoreboard TcpTxProps TcpTxInv.
Import Buffer BufferInv PacketBytes SequenceNumber TcpTxBuffer TcpTxScoreboard TcpTxProps TcpTxInv.

Module TcpTxSend.

Section Send.
Context (isn : Z) (stream : Z -> Z) (hi : Z) {mem : Memory} {HJ : TcpRxBuffer.JoinsPieces stream}.
Notation sq := (TcpRxBuffer.sq isn).
Notation bytes := (TcpRxBuffer.bytes stream).
Notation laid := (laid stream).
Notation starts := (starts isn).
Notation tx_inv := (tx_inv isn stream hi).

(** ** Adding data *)

Lemma Available_ok una b : tx_inv una b -> Available b = m_maxBuffer b - m_size b.
Proof.
  intros []. unfold Available, MAX_TX in *. apply Z.mod_small. pose proof (tx_total_nonneg (m_sentList b ++ m_appList b)). lia.
Qed.

Lemma tx_Add_ok una b n : tx_inv una b -> 0 <= n -> exists ok b', Add (bytes (una + m_size b) n) b = (ok, b') /\
  ok = (n <=? m_maxBuffer b - m_size b) /\ tx_inv una b' /\ m_size b' = (if ok then m_size b + n else m_size b) /\ m_sentList b' = m_sentList b.
Proof.
  intros H Hn. unfold Add. rewrite (Available_ok una) by done.
  assert (GetSize (bytes (una + m_size b) n) = n) as Esz by by apply TcpRxBuffer.bytes_size. rewrite Esz. destruct (Z.leb_spec n (m_maxBuffer b - m_size b)) as [Hle|Hgt].
  2: { eexists _, _. split_and!; done. }
  destruct (Z.ltb_spec 0 n) as [Hp|Hz]; [| eexists _, _; split_and!; try done; simpl; lia].
  pose proof H as []. pose proof (tx_total_nonneg (m_sentList b ++ m_appList b)). unfold MAX_TX in *. eexists _, _. split; [reflexivity |].
  assert (u32 (m_size b + n) = m_size b + n) as E by (apply Z.mod_small; lia). rewrite E. split_and!; try done.
  assert (isize (item_new (next_addr b) (bytes (una + m_size b) n)) = n) as Ei by exact Esz.
  constructor; cbn [set_lists set_sizes set_next_addr m_sentList m_appList m_firstByteSeq m_size m_sentSize m_maxBuffer m_lostOut m_sackedOut m_retransOut next_addr m_highestSack]; try done.
  - rewrite app_assoc. apply laid_app. split; [done |]. simpl. rewrite Ei, <- v_size0. split_and!; [lia | done | done].
  - rewrite app_assoc, total_app, <- v_size0. cbn [total foldr]. rewrite Ei. lia.
  - unfold MAX_TX. lia.
  - apply Forall_app. split; [done |]. apply Forall_cons. split; [| constructor]. by split_and!.
  - destruct v_addrs0 as [A1 A2]. rewrite app_assoc. split.
    + rewrite fmap_app. apply NoDup_app. split_and!; [done | | apply NoDup_singleton].
      intros a (i & -> & Hi)%list_elem_of_fmap Hin. apply list_elem_of_singleton in Hin. rewrite Forall_forall in A2. specialize (A2 i Hi).
      cbn [it_addr item_new] in Hin. lia.
    + apply Forall_app. split; [eapply Forall_impl; [exact A2 |]; simpl; lia |]. apply Forall_cons. split; [cbn [it_addr item_new]; lia | constructor].
Qed.

(** ** Retransmissions *)

Lemma starts_offset o l i : starts o l -> laid o l -> i ∈ l -> exists x, m_startSeq i = sq x /\ o <= x < o + total l.
Proof.
  revert o. induction l as [|j l IH]; intros o Hs Hl Hi; [by apply elem_of_nil in Hi |]. simpl in *. destruct Hs as [Hs1 Hs2], Hl as (L1 & _ & L3).
  pose proof (tx_total_nonneg l). apply elem_of_cons in Hi as [->|Hi].
  - exists o. split; [done | lia].
  - destruct (IH _ Hs2 L3 Hi) as (x & E & Hx). exists x. split; [done | lia].
Qed.

Lemma merge_limit_at n o pre cur rest : starts o (pre ++ cur :: rest) -> laid o (pre ++ cur :: rest) -> total (pre ++ cur :: rest) <= MAX_TX -> 0 < n ->
  exists m post, rest = m ++ post /\ Forall (fun j => alike j cur \/ m_sacked cur = true) m /\ (length m <= 1)%nat /\
    merge_limit n (sq (o + total pre)) (pre ++ cur :: rest) = Z.min n (isize cur + total m).
Proof.
  unfold MAX_TX. intros Hs Hl Hm Hn. revert o Hs Hl Hm. induction pre as [|i pre IH]; intros o Hs Hl Hm; simpl in *.
  - destruct Hs as [-> Hs]. rewrite TcpRxBuffer.eq_sq, (proj2 (Z.eqb_eq _ _)) by (unfold TcpRxBuffer.near; lia).
    destruct rest as [|next rest]; [exists [], []; split_and!; [done | constructor | simpl; lia | simpl; f_equal; lia] |].
    destruct (negb (m_sacked next)) eqn:E1; [destruct (Bool.eqb (m_lost cur) (m_lost next)) eqn:E2 |]; cbn [andb].
    2, 3: exists [], (next :: rest); split_and!; [done | constructor | simpl; lia | simpl; f_equal; lia].
    exists [next], rest. apply eqb_prop in E2. split_and!; [done | | simpl; lia |].
    + constructor; [| done]. destruct (m_sacked cur) eqn:E3; [by right | left]. split; [| congruence]. rewrite E3. by destruct (m_sacked next).
    + simpl in *. pose proof (tx_total_nonneg rest). pose proof (isize_nonneg cur). pose proof (isize_nonneg next). 
      rewrite u32_small by lia. f_equal. lia.
  - destruct Hs as [Hi Hs], Hl as (L1 & _ & L3). rewrite total_app in Hm. simpl in Hm.
    pose proof (tx_total_nonneg pre). pose proof (isize_nonneg cur). pose proof (tx_total_nonneg rest).
    rewrite Hi, TcpRxBuffer.eq_sq by (unfold TcpRxBuffer.near; lia). rewrite (proj2 (Z.eqb_neq _ _)) by lia.
    rewrite Z.add_assoc. apply IH; [done | done |]. rewrite total_app. simpl. lia.
Qed.

Lemma counted_const f v l : Forall (fun j => f j = v) l -> counted f l = if v then total l else 0.
Proof. induction 1 as [|j l Hj _ IH]; simpl; [by destruct v |]. rewrite Hj, IH. destruct v; lia. Qed.
Lemma counted_alike f (cur : TcpTxItem) l l' : (forall i j, alike i j -> f i = f j) -> Forall (fun j => alike j cur) l ->
  Forall (fun j => alike j cur) l' -> total l = total l' -> counted f l = counted f l'.
Proof.
  intros Hf H1 H2 E. rewrite (counted_const f (f cur) l), (counted_const f (f cur) l'); [by rewrite E | |]; (eapply Forall_impl; [eassumption |]; auto).
Qed.
Lemma addrs_made addr addr' l l' app : addrs_ok addr (l ++ app) -> addrs_ok addr' l' -> addr <= addr' ->
  (forall i, i ∈ l' -> it_addr i ∈ it_addr <$> l \/ addr <= it_addr i) -> addrs_ok addr' (l' ++ app).
Proof.
  intros [Hn Hb] [Hn' Hb'] Hle Hf. rewrite fmap_app in Hn. apply NoDup_app in Hn as (_ & Hd & Ha). apply Forall_app in Hb as [_ Hb]. split.
  - rewrite fmap_app. apply NoDup_app. split_and!; [done | | done]. intros a (i & -> & Hi)%list_elem_of_fmap Hin.
    destruct (Hf i Hi) as [Hold|Hnew]; [by apply (Hd _ Hold) |]. apply list_elem_of_fmap in Hin as (j & Ej & Hj).
    rewrite Forall_forall in Hb. specialize (Hb j Hj). lia.
  - apply Forall_app. split; [done |]. eapply Forall_impl; [exact Hb |]. simpl. lia.
Qed.

(** A part [cur :: m] of the sent list replaced by [cur' :: m'], which holds the
    same bytes and no sacked item. *)
Lemma tx_inv_made una b pre cur m post s base a cur' m' retr' addr' :
  tx_inv una b -> m_sentList b = pre ++ cur :: m ++ post ->
  made isn stream (next_addr b) cur m una pre post s base a cur' m' retr' addr' -> base = 0 ->
  Forall (fun j => alike j cur) m -> m_sacked cur = false ->
  tx_inv una (set_next_addr addr' (set_counts (m_lostOut b) (m_sackedOut b) retr' (set_lists (m_appList b) (pre ++ cur' :: m' ++ post) b))).
Proof.
  intros [] E [_ _ M3 M4 M5 M6 M7 [M8 M8'] M9 _] -> Hal Hns. rewrite E in *.
  assert (Forall (fun j => alike j cur) (cur :: m)) as Hal2 by by constructor.
  assert (total (pre ++ cur' :: m' ++ post) = total (pre ++ cur :: m ++ post)) as Et.
  { rewrite !total_app. simpl. rewrite !total_app. lia. }
  assert (forall f, (forall i j, alike i j -> f i = f j) -> counted f (pre ++ cur' :: m' ++ post) = counted f (pre ++ cur :: m ++ post)) as Hc.
  { intros f Hf. rewrite !app_comm_cons, !counted_app. do 2 f_equal. by apply (counted_alike f cur). }
  constructor; cbn [set_lists set_counts set_next_addr m_sentList m_appList m_firstByteSeq m_size m_sentSize m_maxBuffer m_lostOut m_sackedOut m_retransOut next_addr m_highestSack]; try done.
  - apply laid_app in v_laid0 as [_ Hl]. apply laid_app. by rewrite Et.
  - by apply M5.
  - by rewrite total_app, Et, <- total_app.
  - by rewrite Et.
  - rewrite Hc; [done |]. by intros i j [_ ?].
  - rewrite Hc; [done |]. by intros i j [? _].
  - rewrite !app_comm_cons, !Forall_app in *. destruct v_apart0 as (A1 & _ & A3). split_and!; try done.
    eapply Forall_impl; [exact M6 |]. intros j [J1 J2]. unfold apart. by rewrite J1, Hns.
  - by apply addrs_made with (addr := next_addr b) (l := pre ++ cur :: m ++ post).
  - apply high_keep with (sent := pre ++ cur :: m ++ post); [done | done |]. intros i x Hi Hs _ _. exists i. split_and!; try done.
    rewrite !app_comm_cons, !elem_of_app in *. destruct Hi as [Hi|[Hi|Hi]]; [by left | | by right; right]. exfalso.
    rewrite Forall_forall in Hal2. destruct (Hal2 i Hi) as [J1 _]. congruence.
Qed.

(** The item [addr] of the sent list is a segment of the stream at offset [o]. *)
Definition segment (b : TcpTxBuffer) (addr o : Z) (i : TcpTxItem) : Prop :=
  find_item addr (m_sentList b) = Some i /\ m_startSeq i = sq o /\ 0 < isize i /\ m_packet i = bytes o (isize i) /\
  m_sacked i = false /\ exists pre post, m_sentList b = pre ++ i :: post /\ it_addr i = addr.

Lemma segment_mid b pre i post o : m_sentList b = pre ++ i :: post -> Forall (fun j => it_addr j <> it_addr i) pre ->
  m_startSeq i = sq o -> 0 < isize i -> m_packet i = bytes o (isize i) -> m_sacked i = false -> segment b (it_addr i) o i.
Proof. intros E Hd Hs Hp Hk Hns. unfold segment. rewrite E. split_and!; [by apply find_item_mid | done.. | by eexists _, _]. Qed.

Lemma tx_bound una b : tx_inv una b -> 0 <= m_sentSize b <= m_size b /\ m_size b <= MAX_TX /\ m_sentSize b = total (m_sentList b).
Proof. intros []. rewrite total_app in v_size0. pose proof (tx_total_nonneg (m_sentList b)). pose proof (tx_total_nonneg (m_appList b)). lia. Qed.

(** The item found gets the flag of a retransmission. *)
Lemma tx_inv_retrans una b pre i post : tx_inv una b -> m_sentList b = pre ++ i :: post -> m_retrans i = false ->
  tx_inv una (set_counts (m_lostOut b) (m_sackedOut b) (m_retransOut b + isize i) (set_lists (m_appList b) (pre ++ set_retrans true i :: post) b)).
Proof.
  intros H E Hr. pose proof H as []. apply tx_inv_flags with (b := b); try done; rewrite ?E in *; cbn [set_counts set_lists m_sentList m_lostOut m_sackedOut m_retransOut m_highestSack].
  - by apply same_mid.
  - by rewrite v_lost0, !counted_app.
  - by rewrite v_sacked0, !counted_app.
  - rewrite v_retrans0, !counted_app. cbn [counted foldr]. change (isize (set_retrans true i)) with (isize i). rewrite Hr. cbn [m_retrans set_retrans]. lia.
  - rewrite Forall_app, Forall_cons in *. exact v_apart0.
  - eapply high_keep; [done | rewrite !total_app; done |]. intros j x Hj Hs _ _. rewrite elem_of_app, elem_of_cons in Hj.
    destruct Hj as [Hj|[->|Hj]]; [exists j | exists (set_retrans true i) | exists j]; rewrite elem_of_app, elem_of_cons; split_and!; try done; tauto.
Qed.

Lemma GetTransmittedSegment_ok una b n pre cur rest : tx_inv una b -> m_sentList b = pre ++ cur :: rest -> m_sacked cur = false ->
  0 < n <= m_sentSize b -> exists addr b' i, GetTransmittedSegment n (sq (una + total pre)) b = Some (addr, b') /\
    tx_inv una b' /\ segment b' addr (una + total pre) i /\ isize i <= n /\ m_retrans i = true /\ frame (set_next_addr (next_addr b') b) b' /\
    (exists post, m_sentList b' = pre ++ i :: post) /\ m_highestSack b' = m_highestSack b.
Proof.
  intros H E Hns Hn. pose proof H as []. pose proof (tx_bound una b H) as (Hb1 & Hb2 & Hb3). unfold GetTransmittedSegment. rewrite v_first0.
  assert (0 <= total pre < total (m_sentList b)) as Hpre.
  { rewrite laid_app, E, laid_app in v_laid0. destruct v_laid0 as ((_ & Hc & _ & _) & _). rewrite E, total_app. simpl.
    pose proof (tx_total_nonneg pre). pose proof (tx_total_nonneg rest). lia. }
  unfold MAX_TX in *. rewrite TcpRxBuffer.ge_sq by (unfold TcpRxBuffer.near; lia). rewrite (proj2 (Z.leb_le _ _)) by lia. cbn [NS_ASSERT].
  rewrite (proj2 (Z.leb_le n _)) by lia. cbn [NS_ASSERT]. 
  assert ((length (m_sentList b) =? 0)%nat = false) as -> by (rewrite E, length_app; apply Nat.eqb_neq; simpl; lia). cbn [negb NS_ASSERT].
  rewrite laid_app in v_laid0. destruct v_laid0 as [Hlaid _].
  destruct (merge_limit_at n una pre cur rest) as (m & post & -> & Hal & Hlen & Hml); [by rewrite <- E | by rewrite <- E | unfold MAX_TX; rewrite <- E; lia | lia |].
  rewrite E, Hml. rewrite E in v_addrs0, v_starts0, Hlaid. destruct v_addrs0 as [Hnd Hbd]. rewrite fmap_app, NoDup_app in Hnd. destruct Hnd as [Hnd _].
  assert (Forall (fun j => alike j cur) m) as Hal2 by (eapply Forall_impl; [exact Hal |]; intros j [?|?]; [done | congruence]).
  pose proof (tx_total_nonneg m) as Htm. pose proof (isize_nonneg cur).
  destruct (GetPacketFromList_ok isn stream (list_fuel (pre ++ cur :: m ++ post)) (fun i => ge 32 (m_startSeq i) (sq una)) una (Z.min n (isize cur + total m)) pre cur m post
    (m_retransOut b) (next_addr b) 0) as (a & cur' & m' & retr' & addr' & -> & Hmade); try done.
  { rewrite <- E. unfold MAX_TX. lia. }
  { right. split; [done |]. intros i x Hx ->. rewrite TcpRxBuffer.ge_sq by (unfold TcpRxBuffer.near, MAX_TX in *; lia). apply Z.leb_le. lia. }
  { rewrite laid_app in Hlaid. destruct Hlaid as (_ & Hc & _). lia. }
  { by rewrite v_retrans0, E. }
  { split; [done |]. by apply Forall_app in Hbd as [Hbd _]. }
  { unfold list_fuel. rewrite length_app. simpl. lia. }
  pose proof (tx_inv_made una b pre cur m post _ 0 _ _ _ _ _ H E Hmade eq_refl Hal2 Hns) as H1. set (b1 := set_next_addr _ _) in H1.
  pose proof Hmade as [M1 M2 M3 M4 M5 M6 M7 [M8 M8'] M9 _]. destruct (addrs_mid _ _ _ _ M8') as [D1 D2]. rewrite <- M1.
  rewrite find_item_mid by done.
  assert (m_startSeq cur' = sq (una + total pre)) as Est by (specialize (M5 v_starts0); apply starts_app in M5 as (_ & M5 & _); done).
  rewrite laid_app in M4. destruct M4 as (_ & Hp & Hpk & _).
  assert (m_sacked cur' = false) as Hs' by (apply Forall_cons in M6 as [[J _] _]; congruence).
  destruct (m_retrans cur') eqn:Er; cbn [negb].
  - exists (it_addr cur'), b1, cur'. subst b1. split_and!; try done; [| lia | by eexists]. by apply segment_mid with (pre := pre) (post := m' ++ post).
  - rewrite map_item_mid by done. pose proof (tx_inv_retrans una b1 pre cur' (m' ++ post) H1 eq_refl Er) as H2. subst b1.
    assert (u32 (retr' + isize cur') = retr' + isize cur') as ->.
    { apply u32_small. rewrite M7. pose proof (counted_range m_retrans (pre ++ cur' :: m' ++ post)) as Hcr. pose proof (isize_nonneg cur').
      assert (total (pre ++ cur' :: m' ++ post) <= MAX_TX) as Ht; [| unfold MAX_TX in Ht; rewrite !total_app in Ht; simpl in Ht; rewrite total_app in Ht;
        pose proof (tx_total_nonneg pre); pose proof (tx_total_nonneg m'); pose proof (tx_total_nonneg post); rewrite !total_app in Hcr; simpl in Hcr; rewrite total_app in Hcr; lia].
      rewrite !total_app. simpl. rewrite total_app. rewrite E, total_app in Hb3. simpl in Hb3. rewrite total_app in Hb3. unfold MAX_TX. lia. }
    eexists (it_addr cur'), _, (set_retrans true cur'). split; [reflexivity |]. split; [exact H2 |].
    split; [| change (isize (set_retrans true cur')) with (isize cur'); split_and!; try done; [lia | by eexists]].
    by apply (segment_mid _ pre (set_retrans true cur') (m' ++ post)).
Qed.

(** ** New data *)

Lemma addrs_comm addr l1 l2 : addrs_ok addr (l1 ++ l2) -> addrs_ok addr (l2 ++ l1).
Proof. unfold addrs_ok. rewrite !fmap_app, !Forall_app. intros [Hn [? ?]]. by rewrite (Permutation_app_comm (it_addr <$> l2)). Qed.
Lemma alike_clean i j : clean i -> alike i j -> m_retrans j = false -> clean j.
Proof. intros (H1 & H2 & _) [A1 A2] Hr. split_and!; congruence. Qed.
Lemma clean_apart i : clean i -> apart i.
Proof. intros (H1 & H2 & _). unfold apart. by rewrite H2. Qed.
Lemma counted_clean f l : (forall i, clean i -> f i = false) -> Forall clean l -> counted f l = 0.
Proof. intros Hf H. apply counted_none. eapply Forall_impl; [exact H |]. auto. Qed.

(** The first item of the data not sent moves to the end of the data sent. *)
Lemma tx_inv_advance una b sent' cur rest addr' : tx_inv una b -> m_sentList b = sent' -> laid (una + total sent') (cur :: rest) ->
  total (cur :: rest) = total (m_appList b) -> Forall clean (cur :: rest) -> addrs_ok addr' (sent' ++ cur :: rest) ->
  tx_inv una (set_next_addr addr' (set_counts (m_lostOut b) (m_sackedOut b) (m_retransOut b) (set_sizes (m_size b) (m_sentSize b + isize cur)
    (set_lists rest (sent' ++ [set_start (sq (una + total sent')) cur]) b)))).
Proof.
  intros [] <- Hl Ht Hc Ha. set (cur1 := set_start _ cur). assert (isize cur1 = isize cur) as Ez by done. simpl in Ht.
  assert (clean cur1 /\ Forall clean rest) as [Hc1 Hc2] by (apply Forall_cons in Hc as [? ?]; done).
  constructor; cbn [set_lists set_sizes set_counts set_next_addr m_sentList m_appList m_firstByteSeq m_size m_sentSize m_maxBuffer m_lostOut m_sackedOut m_retransOut next_addr m_highestSack]; try done.
  - rewrite <- app_assoc. apply laid_app in v_laid0 as [Hl0 _]. apply laid_app. split; [done |]. exact Hl.
  - apply (starts_app isn). split; [done |]. simpl. by split.
  - rewrite v_size0, !total_app. cbn [total foldr]. lia.
  - rewrite v_sent0, total_app. cbn [total foldr]. lia.
  - rewrite v_lost0, counted_app, (counted_clean m_lost [cur1]); [lia | by intros i (? & ? & ?) | by constructor].
  - rewrite v_sacked0, counted_app, (counted_clean m_sacked [cur1]); [lia | by intros i (? & ? & ?) | by constructor].
  - rewrite v_retrans0, counted_app, (counted_clean m_retrans [cur1]); [lia | by intros i (? & ? & ?) | by constructor].
  - apply Forall_app. split; [done |]. constructor; [by apply clean_apart | constructor].
  - rewrite <- app_assoc. cbn [app]. rewrite addrs_ok_fmap in *. rewrite fmap_app, fmap_cons in *. done.
  - unfold high_ok in *. destruct (m_highestSack b) as [[a|] s]; [| done]. destruct v_high0 as [Es Hh]. split; [done |]. intros Hlt. destruct (Hh Hlt) as (j & x & Hj & H2 & H3 & H4 & H5).
    exists j, x. rewrite elem_of_app, total_app. pose proof (tx_total_nonneg [cur1]). split_and!; try done; [by left | lia | lia].
Qed.

Lemma GetNewSegment_ok una b n : tx_inv una b -> 0 < n <= m_size b - m_sentSize b ->
  exists addr b' i, GetNewSegment n b = Some (addr, b') /\ tx_inv una b' /\ segment b' addr (una + m_sentSize b) i /\ isize i = n /\
    clean i /\ m_sentList b' = m_sentList b ++ [i] /\ m_size b' = m_size b /\ m_maxBuffer b' = m_maxBuffer b /\
    m_highestSack b' = m_highestSack b /\ m_sackEnabled b' = m_sackEnabled b.
Proof.
  intros H Hn. pose proof H as []. pose proof (tx_bound una b H) as (Hb1 & Hb2 & Hb3).
  rewrite total_app in v_size0. destruct (m_appList b) as [|cur m] eqn:E; [simpl in *; lia |].
  apply laid_app in v_laid0 as [Hl1 Hl2]. pose proof (tx_total_nonneg (m_sentList b)) as Hts. unfold MAX_TX in *. simpl in v_size0.
  assert (Forall (fun j => alike j cur) m) as Hal.
  { apply Forall_cons in v_clean0 as [(C1 & C2 & _) Hm]. eapply Forall_impl; [exact Hm |]. intros j (J1 & J2 & _). split; congruence. }
  unfold GetNewSegment. rewrite v_first0, E, seq_add_sq, Hb3.
  destruct (GetPacketFromList_ok isn stream (list_fuel (cur :: m)) (fun _ => true) (una + total (m_sentList b)) n [] cur m []
    (m_retransOut b) (next_addr b) (m_retransOut b)) as (a & cur' & m' & retr' & addr' & E2 & Hmade); cbn [app]; rewrite ?app_nil_r; try done.
  { simpl. unfold MAX_TX. lia. }
  { by left. }
  { lia. }
  { rewrite (counted_clean m_retrans (cur :: m)); [lia | by intros i (? & ? & ?) | done]. }
  { rewrite v_retrans0. pose proof (counted_range m_retrans (m_sentList b)). lia. }
  { rewrite v_retrans0. pose proof (counted_range m_retrans (m_sentList b)). unfold MAX_TX. lia. }
  { destruct (addrs_comm _ _ _ v_addrs0) as [A1 A2]. rewrite fmap_app, NoDup_app in A1. split; [apply A1 |]. by apply Forall_app in A2 as [? _]. }
  { unfold list_fuel. simpl. lia. }
  cbn [app total foldr] in E2. rewrite app_nil_r, Z.add_0_r in E2. rewrite E2.
  destruct Hmade as [M1 M2 M3 M4 M5 M6 M7 [M8 M8'] M9 M10]. cbn [app] in *. rewrite !app_nil_r in *.
  rewrite <- M1. pose proof (find_item_mid [] cur' m' ltac:(constructor)) as Ef. cbn [app] in Ef. rewrite Ef. destruct (addrs_mid _ [] _ _ M8') as [_ D2].
  pose proof (filter_item_mid [] cur' m' ltac:(constructor) D2) as Eg. cbn [app] in Eg. rewrite Eg.
  assert (Forall clean (cur' :: m')) as Hcl.
  { specialize (M10 ltac:(eapply Forall_impl; [exact v_clean0 |]; by intros i (? & ? & ?))). apply Forall_forall. intros j Hj.
    rewrite Forall_forall in M6, M10. apply alike_clean with (i := cur); [by apply Forall_cons in v_clean0 as [? _] | | by apply M10].
    destruct (M6 j Hj). by split. }
  assert (retr' = m_retransOut b) as ->.
  { rewrite M7, (counted_clean m_retrans (cur' :: m')); [lia | by intros i (? & ? & ?) | done]. }
  assert (addrs_ok addr' (m_sentList b ++ cur' :: m')) as Had.
  { apply addrs_comm. apply addrs_made with (addr := next_addr b) (l := cur :: m); try done. by apply addrs_comm. }
  rewrite (u32_small (_ + isize cur')) by lia.
  pose proof (tx_inv_advance una b (m_sentList b) cur' m' addr' H eq_refl M4 ltac:(simpl; rewrite E; simpl; lia) Hcl Had) as Hinv. rewrite Hb3 in Hinv.
  eexists (it_addr cur'), _, (set_start (sq (una + total (m_sentList b))) cur'). split; [reflexivity |]. split; [exact Hinv |].
  destruct M4 as (P1 & P2 & _). apply Forall_cons in Hcl as [Hcl _]. split_and!; try done; try apply Hcl.
  apply (segment_mid _ (m_sentList b) (set_start (sq (una + total (m_sentList b))) cur') []); try done; [| apply Hcl].
  by destruct (addrs_mid _ _ _ _ Had) as [? _].
Qed.

(** ** Copying a segment *)

Lemma frame_trans b1 b2 b3 : frame b1 b2 -> frame b2 b3 -> frame b1 b3.
Proof. unfold frame. intros (? & ? & ? & ? & ? & ?) (? & ? & ? & ? & ? & ?). split_and!; congruence. Qed.

Lemma SizeFromSequence_ok una b o : tx_inv una b -> una <= o <= una + m_size b -> SizeFromSequence (sq o) b = Some (una + m_size b - o).
Proof.
  intros H Ho. pose proof H as []. pose proof (tx_bound una b H) as (? & ? & _). unfold MAX_TX in *. unfold SizeFromSequence, TailSequence.
  rewrite v_first0, tail_sq, TcpRxBuffer.ge_sq by (unfold TcpRxBuffer.near; lia). rewrite (proj2 (Z.leb_le _ _)) by lia.
  rewrite TcpRxBuffer.minus_sq by (unfold TcpRxBuffer.near; lia). f_equal. apply u32_small. lia.
Qed.

Lemma send_item_ok una b now addr o i : tx_inv una b -> segment b addr o i ->
  exists b', send_item now addr b = Some (Some addr, b') /\ tx_inv una b' /\ segment b' addr o (set_lastSent now i) /\ frame b b' /\
    m_sentList b' = map_item addr (set_lastSent now) (m_sentList b) /\ m_highestSack b' = m_highestSack b /\ m_sackEnabled b' = m_sackEnabled b.
Proof.
  intros H (Hf & Hs & Hp & Hk & Hns & pre & post & E & Ea). pose proof H as []. pose proof (tx_bound una b H) as (? & ? & Hb3).
  assert (Forall (fun j => it_addr j <> it_addr i) pre /\ Forall (fun j => it_addr j <> it_addr i) post) as [D1 D2].
  { rewrite E, <- app_assoc in v_addrs0. apply addrs_mid in v_addrs0 as [D1 D2]. by apply Forall_app in D2 as [D2 _]. }
  unfold send_item. rewrite Hf.
  apply laid_app in v_laid0 as [Hl _].
  destruct (starts_offset una (m_sentList b) i v_starts0 Hl) as (x & Ex & Hx); [rewrite E, elem_of_app, elem_of_cons; tauto |]. unfold MAX_TX in *.
  rewrite Ex, v_first0, TcpRxBuffer.ge_sq by (unfold TcpRxBuffer.near; lia). rewrite (proj2 (Z.leb_le _ _)) by lia. cbn [NS_ASSERT].
  rewrite E, <- Ea, map_item_mid by done. eexists. split; [reflexivity |]. split; [by apply tx_inv_touch |]. split_and!; try done.
  by apply (segment_mid _ pre (set_lastSent now i) post).
Qed.

(** A request for sent data is served from one item or two. *)
Lemma copy_from_sent una b now n pre cur rest fuel : tx_inv una b -> m_sentList b = pre ++ cur :: rest -> m_sacked cur = false ->
  0 < n -> total pre < m_sentSize b -> total pre + Z.min n (m_size b - total pre) <= m_sentSize b ->
  exists addr b' i, copy_from (S fuel) now n (sq (una + total pre)) b = Some (Some addr, b') /\ tx_inv una b' /\
    segment b' addr (una + total pre) i /\ isize i <= n /\ m_retrans i = true /\ m_lastSent i = now /\ frame (set_next_addr (next_addr b') b) b' /\
    (exists post, m_sentList b' = pre ++ i :: post) /\ m_highestSack b' = m_highestSack b.
Proof.
  intros H E Hns Hn Hlt Hle. pose proof H as []. pose proof (tx_bound una b H) as (Hb1 & Hb2 & Hb3). pose proof (tx_total_nonneg pre) as Hp.
  unfold MAX_TX in *. cbn [copy_from]. rewrite v_first0, TcpRxBuffer.gt_sq by (unfold TcpRxBuffer.near; lia). rewrite (proj2 (Z.ltb_ge _ _)) by lia.
  rewrite (SizeFromSequence_ok una) by (done || lia). set (s := Z.min n (una + m_size b - (una + total pre))).
  rewrite (proj2 (Z.eqb_neq _ _)) by lia.
  rewrite !seq_add_sq, TcpRxBuffer.ge_sq by (unfold TcpRxBuffer.near; lia). rewrite (proj2 (Z.leb_le _ _)) by lia.
  destruct (GetTransmittedSegment_ok una b s pre cur rest H E Hns ltac:(lia)) as (addr & b1 & i & -> & H1 & Hsg & Hi & Hr & Hfr & (post & Hpost) & Hh1).
  pose proof Hsg as (-> & _ & _ & _ & -> & _). cbn [negb NS_ASSERT].
  destruct (send_item_ok una b1 now addr _ i H1 Hsg) as (b2 & -> & H2 & Hsg2 & Hfr2 & Hmap & Hh2 & _).
  exists addr, b2, (set_lastSent now i). split_and!; try done; [change (isize (set_lastSent now i)) with (isize i); lia | | | congruence].
  2: { exists post. rewrite Hmap, Hpost. destruct Hsg as (_ & _ & _ & _ & _ & _ & _ & _ & <-). pose proof (v_addrs _ _ _ _ _ H1) as Ha.
    rewrite Hpost, <- app_assoc in Ha. apply addrs_mid in Ha as [D1 D2]. rewrite map_item_mid; [done | done |]. by apply Forall_app in D2 as [? _]. }
  destruct Hfr as (? & ? & ? & ? & ? & ?), Hfr2 as (? & ? & ? & ? & ? & ?). unfold frame in *. split_and!; try congruence; done.
Qed.

Lemma CopyFromSequence_sent una b now n pre cur rest : tx_inv una b -> m_sentList b = pre ++ cur :: rest -> m_sacked cur = false ->
  0 < n < 2 ^ 31 -> total pre + Z.min n (m_size b - total pre) <= m_sentSize b \/ (isn + una + total pre) mod 2 ^ 32 + m_size b < 2 ^ 32 ->
  exists addr b' i, CopyFromSequence now n (sq (una + total pre)) b = Some (Some addr, b') /\ tx_inv una b' /\
    segment b' addr (una + total pre) i /\ isize i <= n /\ m_retrans i = true /\ m_lastSent i = now /\ frame (set_next_addr (next_addr b') b) b' /\
    (exists post, m_sentList b' = pre ++ i :: post) /\ m_highestSack b' = m_highestSack b.
Proof.
  intros H E Hns Hn Hw. pose proof H as []. pose proof (tx_bound una b H) as (Hb1 & Hb2 & Hb3). pose proof (tx_total_nonneg pre) as Hp.
  assert (total pre < m_sentSize b) as Hlt.
  { apply laid_app in v_laid0 as [Hl _]. rewrite E in Hl. apply laid_app in Hl as (_ & Hc & _). rewrite Hb3, E, total_app. simpl. pose proof (tx_total_nonneg rest). lia. }
  unfold CopyFromSequence. destruct (Z_le_gt_dec (total pre + Z.min n (m_size b - total pre)) (m_sentSize b)) as [Hin|Hout].
  { apply copy_from_sent with (cur := cur) (rest := rest); done || lia. }
  destruct Hw as [Hw|Hw]; [lia |]. unfold MAX_TX in *. remember 1%nat as k eqn:Ek. cbn [copy_from].
  rewrite v_first0, TcpRxBuffer.gt_sq by (unfold TcpRxBuffer.near; lia). rewrite (proj2 (Z.ltb_ge _ _)) by lia.
  rewrite (SizeFromSequence_ok una) by (done || lia). set (s := Z.min n (una + m_size b - (una + total pre))).
  rewrite (proj2 (Z.eqb_neq _ _)) by lia. rewrite !seq_add_sq, TcpRxBuffer.ge_sq by (unfold TcpRxBuffer.near; lia).
  rewrite (proj2 (Z.leb_gt _ _)) by lia. rewrite TcpRxBuffer.le_sq by (unfold TcpRxBuffer.near; lia). rewrite (proj2 (Z.leb_gt _ _)) by lia.
  pose proof (Z.mod_pos_bound (isn + una + total pre) (2 ^ 32) ltac:(lia)) as Hv.
  assert (m_value (sq (una + total pre)) = (isn + una + total pre) mod 2 ^ 32) as -> by (unfold TcpRxBuffer.sq; cbn [m_value]; unfold wrap; f_equal; lia).
  assert (u32 (m_value (sq una) + m_sentSize b) = (isn + una + total pre) mod 2 ^ 32 + (m_sentSize b - total pre)) as ->.
  { unfold TcpRxBuffer.sq, u32, wrap. cbn [m_value]. rewrite Zplus_mod_idemp_l, <- (Z.mod_small ((isn + una + total pre) mod 2 ^ 32 + _) (2 ^ 32)) by lia.
    rewrite Zplus_mod_idemp_l. f_equal. lia. }
  rewrite (u32_small (_ + s)) by lia. rewrite !(proj2 (Z.ltb_lt _ _)) by lia. cbn [andb]. rewrite u32_small by lia. subst k.
  destruct (copy_from_sent una b now ((isn + una + total pre) mod 2 ^ 32 + (m_sentSize b - total pre) - (isn + una + total pre) mod 2 ^ 32) pre cur rest 0)
    as (addr & b' & i & E1 & E2 & E3 & E4 & E5); try done; [lia.. |].
  exists addr, b', i. split_and!; try done; [lia | apply E5..].
Qed.

(** A request at the end of the data sent takes new data. *)
Lemma CopyFromSequence_new una b now n : tx_inv una b -> 0 < n < 2 ^ 31 -> m_sentSize b < m_size b ->
  exists addr b' i, CopyFromSequence now n (sq (una + m_sentSize b)) b = Some (Some addr, b') /\ tx_inv una b' /\
    segment b' addr (una + m_sentSize b) i /\ isize i = Z.min n (m_size b - m_sentSize b) /\ clean i /\ m_lastSent i = now /\
    m_sentList b' = m_sentList b ++ [i] /\ m_size b' = m_size b /\ m_maxBuffer b' = m_maxBuffer b /\
    m_highestSack b' = m_highestSack b /\ m_sackEnabled b' = m_sackEnabled b.
Proof.
  intros H Hn Hlt. pose proof H as []. pose proof (tx_bound una b H) as (Hb1 & Hb2 & Hb3).
  unfold CopyFromSequence, MAX_TX in *. cbn [copy_from]. rewrite v_first0, TcpRxBuffer.gt_sq by (unfold TcpRxBuffer.near; lia).
  rewrite (proj2 (Z.ltb_ge _ _)) by lia. rewrite (SizeFromSequence_ok una) by (done || lia). set (s := Z.min n (una + m_size b - (una + m_sentSize b))).
  rewrite (proj2 (Z.eqb_neq _ _)) by lia. rewrite !seq_add_sq, TcpRxBuffer.ge_sq by (unfold TcpRxBuffer.near; lia).
  rewrite (proj2 (Z.leb_gt _ _)) by lia. rewrite TcpRxBuffer.le_sq by (unfold TcpRxBuffer.near; lia). rewrite (proj2 (Z.leb_le _ _)) by lia.
  rewrite TcpRxBuffer.eq_sq, Z.eqb_refl by (unfold TcpRxBuffer.near; lia). cbn [negb].
  destruct (GetNewSegment_ok una b s H ltac:(lia)) as (addr & b1 & i & -> & H1 & Hsg & Hi & Hc & Hl & Hz & Hmx & Hh1 & Hc1).
  pose proof Hsg as (-> & _). destruct Hc as (C1 & C2 & C3). rewrite C3. cbn [negb NS_ASSERT].
  destruct (send_item_ok una b1 now addr _ i H1 Hsg) as (b2 & -> & H2 & Hsg2 & (? & ? & ? & ? & ? & ?) & El & Eh & Ec).
  exists addr, b2, (set_lastSent now i). split_and!; try done; try congruence; [change (isize (set_lastSent now i)) with (isize i); lia |].
  rewrite El, Hl. destruct Hsg as (_ & _ & _ & _ & _ & _ & _ & _ & <-).
  pose proof (v_addrs _ _ _ _ _ H1) as Ha. rewrite Hl, <- app_assoc in Ha. apply addrs_mid in Ha as [D1 _]. by rewrite map_item_mid.
Qed.

Lemma CopyFromSequence_none una b now n : tx_inv una b -> 0 <= n -> CopyFromSequence now n (sq (una + m_size b)) b = Some (None, b).
Proof.
  intros H Hn. pose proof H as []. pose proof (tx_bound una b H) as (Hb1 & Hb2 & _). unfold CopyFromSequence, MAX_TX in *. cbn [copy_from].
  rewrite v_first0, TcpRxBuffer.gt_sq by (unfold TcpRxBuffer.near; lia). rewrite (proj2 (Z.ltb_ge _ _)) by lia.
  rewrite (SizeFromSequence_ok una) by (done || lia). rewrite Z.sub_diag, Z.min_r by lia. done.
Qed.

End Send.

End TcpTxSend.
