(* ===== verification/TcpTxFlags.v ===== *)
(** * The flags of the TCP send buffer

    The operations that change flags and counts only: marking the head or the
    whole list as lost, the guesses of a connection without SACK, timeouts. *)

From S2P Require Import Prelude Buffer BufferInv PacketBytes SequenceNumber TcpRxBuffer TcpTxBuffer TcpTxScoreboard TcpTxProps TcpTxInv TcpTxSend.
Import Buffer BufferInv PacketBytes SequenceNumber TcpTxBuffer TcpTxScoreboard TcpTxProps TcpTxInv TcpTxSend.

Module TcpTxFlags.

Section Flags.
Context (isn : Z) (stream : Z -> Z) (hi : Z) {mem : Memory} {HJ : TcpRxBuffer.JoinsPieces stream}.
Notation sq := (TcpRxBuffer.sq isn).
Notation tx_inv := (tx_inv isn stream hi).

(** The fields of a buffer built by the setters. *)
Ltac fields := cbn [set_lists set_counts set_sizes set_highest set_config set_first set_next_addr reset_highest m_sentList m_appList m_firstByteSeq m_size m_sentSize
  m_maxBuffer m_lostOut m_sackedOut m_retransOut m_highestSack next_addr m_dupAckThresh m_segmentSize m_renoSack m_sackEnabled] in *.

(** Counts never leave the range of the machine word. *)
Lemma tx_counts una b : tx_inv una b -> 0 <= m_lostOut b <= m_sentSize b /\ 0 <= m_sackedOut b <= m_sentSize b /\ 0 <= m_retransOut b <= m_sentSize b /\
  m_sackedOut b + m_lostOut b <= m_sentSize b /\ m_sentSize b <= 2 ^ 30.
Proof.
  intros H. pose proof H as []. destruct (tx_bound isn stream hi una b H) as (? & ? & _). rewrite v_lost0, v_sacked0, v_retrans0, v_sent0 in *.
  pose proof (counted_range m_lost (m_sentList b)). pose proof (counted_range m_sacked (m_sentList b)). pose proof (counted_range m_retrans (m_sentList b)).
  pose proof (counted_apart _ v_apart0). unfold MAX_TX in *. lia.
Qed.

(** The bytes in flight are always computed, and they are the bytes sent that are
    neither sacked nor lost, plus those sent again. *)
Lemma BytesInFlight_ok una b : tx_inv una b -> BytesInFlight b =
  Some (counted (fun i => negb (m_sacked i) && negb (m_lost i)) (m_sentList b) + counted m_retrans (m_sentList b)).
Proof.
  intros H. destruct (tx_counts una b H) as (H1 & H2 & H3 & H4 & H5). destruct H. unfold BytesInFlight.
  rewrite (u32_small (_ + _)) by lia. rewrite (proj2 (Z.leb_le _ _)) by lia. cbn [NS_ASSERT]. rewrite u32_small by lia. f_equal.
  rewrite v_lost0, v_sacked0, v_retrans0, v_sent0 in *. clear - v_apart0.
  induction v_apart0 as [|i l Hi _ IH]; simpl; [done |]. unfold apart in Hi. destruct (m_sacked i), (m_lost i), (m_retrans i); try done; simpl; lia.
Qed.

(** Replacing every item by a version with other flags. *)
Lemma same_fmap f l : (forall i, same i (f i)) -> Forall2 same l (f <$> l).
Proof. intros Hf. induction l; constructor; auto. Qed.
Lemma counted_fmap g f l : (forall i, same i (f i)) -> counted g (f <$> l) = counted (fun i => g (f i)) l.
Proof.
  intros Hf. induction l as [|i l IH]; [done |]. rewrite fmap_cons. cbn [counted foldr]. fold (counted g (f <$> l)). rewrite IH.
  by rewrite (same_isize i (f i)) by apply Hf.
Qed.
Lemma counted_true f l : (forall i, f i = true) -> counted f l = total l.
Proof. intros Hf. induction l as [|i l IH]; simpl; [done |]. by rewrite Hf, IH. Qed.
Lemma counted_false f l : (forall i, f i = false) -> counted f l = 0.
Proof. intros Hf. apply counted_none. by apply Forall_true. Qed.

Lemma counted_ext f g l : (forall i, f i = g i) -> counted f l = counted g l.
Proof. intros Hf. induction l as [|i l IH]; simpl; [done |]. by rewrite Hf, IH. Qed.

Lemma ResetRenoSack_ok una b : tx_inv una b -> tx_inv una (ResetRenoSack b).
Proof.
  intros H. pose proof H as []. apply tx_inv_flags with (b := b); try done; unfold ResetRenoSack; fields.
  - by apply same_fmap.
  - rewrite counted_fmap by done. done.
  - rewrite counted_fmap by done. by rewrite counted_false.
  - rewrite counted_fmap by done. done.
  - apply Forall_fmap. by apply Forall_true.
Qed.

Lemma lost_bytes_ok l : total l < 2 ^ 32 -> lost_bytes l = counted (fun i => m_lost i || negb (m_sacked i)) l.
Proof.
  intros Ht. unfold lost_bytes. assert (forall n, 0 <= n -> n + total l < 2 ^ 32 ->
    fold_left (fun n i => if m_lost i || negb (m_sacked i) then u32 (n + isize i) else n) l n = n + counted (fun i => m_lost i || negb (m_sacked i)) l) as Hg.
  { clear Ht. induction l as [|i l IH]; intros n Hn Hb; simpl in *; [lia |]. pose proof (isize_nonneg i). pose proof (tx_total_nonneg l).
    destruct (m_lost i || negb (m_sacked i)); [rewrite u32_small by lia |]; rewrite IH; lia. }
  rewrite Hg; lia.
Qed.

Lemma lose_flags i : same i (lose i) /\ m_lost (lose i) = m_lost i || negb (m_sacked i) /\ m_sacked (lose i) = m_sacked i /\ m_retrans (lose i) = false.
Proof. unfold lose. destruct (m_lost i) eqn:E1, (m_sacked i) eqn:E2; simpl; rewrite ?E1, ?E2; split_and!; done. Qed.

Lemma SetSentListLost_ok una b resetSack : tx_inv una b -> exists b', SetSentListLost resetSack b = Some b' /\ tx_inv una b' /\
  m_retransOut b' = 0 /\ Forall (fun i => m_lost i = negb (m_sacked i)) (m_sentList b').
Proof.
  intros H. unfold SetSentListLost. set (b1 := if resetSack then _ else _).
  assert (tx_inv una b1 /\ m_retransOut b1 = 0 /\ Forall (fun i => m_lost i = negb (m_sacked i)) (m_sentList b1)) as (H1 & H2 & H3).
  { pose proof H as []. destruct (tx_bound isn stream hi una b H) as (? & ? & ?). unfold MAX_TX in *. subst b1. destruct resetSack; (split; [apply tx_inv_flags with (b := b); try done |]); fields.
    - by apply same_fmap.
    - rewrite counted_fmap, counted_true by done. lia.
    - by rewrite counted_fmap, counted_false.
    - by rewrite counted_fmap, counted_false.
    - apply Forall_fmap. by apply Forall_true.
    - split; [done |]. apply Forall_fmap. by apply Forall_true.
    - apply same_fmap. apply lose_flags.
    - rewrite lost_bytes_ok, counted_fmap by (lia || apply lose_flags). apply counted_ext. intros i. symmetry. apply lose_flags.
    - rewrite counted_fmap, v_sacked0 by apply lose_flags. apply counted_ext. intros i. symmetry. apply lose_flags.
    - rewrite counted_fmap, counted_false; [done | apply lose_flags..].
    - apply Forall_fmap. eapply Forall_impl; [exact v_apart0 |]. unfold apart, compose. intros i Hi. destruct (lose_flags i) as (_ & E1 & E2 & _). rewrite E1, E2.
      by destruct (m_sacked i), (m_lost i).
    - eapply high_same; [done |]. apply Forall2_fmap_r. apply Forall_Forall2_diag. apply Forall_true. intros i. destruct (lose_flags i) as (? & _ & Ek & _). split; [done |]. by rewrite Ek.
    - split; [done |]. apply Forall_fmap. eapply Forall_impl; [exact v_apart0 |]. unfold apart, compose. intros i Hi.
      destruct (lose_flags i) as (_ & E1 & E2 & _). rewrite E1, E2. by destruct (m_sacked i), (m_lost i). }
  destruct (tx_counts una b1 H1) as (? & ? & ? & ? & ?). rewrite u32_small, (proj2 (Z.leb_le _ _)) by lia. exists b1. done.
Qed.

(** ** The head *)

Lemma same_cons i j l : same i j -> Forall2 same (i :: l) (j :: l).
Proof. intros H. constructor; [done | apply same_refl]. Qed.
(** The highest SACK is not the head. *)
Lemma high_head una b head head' rest : tx_inv una b -> m_sentList b = head :: rest -> same head head' -> high_ok isn hi una (head' :: rest) (m_highestSack b).
Proof.
  intros H E Hs. pose proof H as []. destruct (tx_bound isn stream hi una b H) as (? & ? & Hb3). unfold MAX_TX in *. rewrite E in *.
  assert (isize head' = isize head) as Ez by by apply same_isize. simpl in v_starts0. destruct v_starts0 as [Hst _].
  apply high_keep with (sent := head :: rest); [done | simpl; lia |]. intros i x Hi Hk Ex Hx. apply elem_of_cons in Hi as [->|Hi].
  - exfalso. assert (eq (sq una) (sq x) = true) as He by (rewrite <- Hst, <- Ex; apply Z.eqb_refl).
    rewrite TcpRxBuffer.eq_sq in He by (unfold TcpRxBuffer.near; lia). lia.
  - exists i. split_and!; try done. by right.
Qed.

Lemma MarkHeadAsLost_ok una b : tx_inv una b -> tx_inv una (MarkHeadAsLost b).
Proof.
  intros H. unfold MarkHeadAsLost. destruct (m_sentList b) as [|head rest] eqn:E; [done |]. pose proof H as [].
  destruct (tx_counts una b H) as (H1 & H2 & H3 & H4 & H5). rewrite E in *. simpl in v_sent0, v_lost0, v_sacked0, v_retrans0.
  pose proof (isize_nonneg head). pose proof (counted_range m_lost rest). pose proof (counted_range m_sacked rest). pose proof (counted_range m_retrans rest).
  apply Forall_cons in v_apart0 as [Ha Hr]. unfold apart in Ha.
  apply tx_inv_flags with (b := b); try done; fields.
  - rewrite E. by apply same_cons.
  - cbn [counted foldr]. change (isize (set_lost true _)) with (isize head). change (m_lost (set_lost true _)) with true. fold (counted m_lost rest). cbn iota.
    destruct (m_lost head); cbn [negb]; rewrite ?u32_small; lia.
  - cbn [counted foldr]. change (m_sacked (set_lost true _)) with false. fold (counted m_sacked rest). cbn iota. destruct (m_sacked head); rewrite ?u32_small; lia.
  - cbn [counted foldr]. change (m_retrans (set_lost true _)) with false. fold (counted m_retrans rest). cbn iota. destruct (m_retrans head); rewrite ?u32_small; lia.
  - constructor; done.
  - by eapply high_head.
Qed.

Lemma DeleteRetransmittedFlagFromHead_ok una b : tx_inv una b -> exists b', DeleteRetransmittedFlagFromHead b = Some b' /\ tx_inv una b'.
Proof.
  intros H. pose proof H as []. unfold DeleteRetransmittedFlagFromHead. destruct (Z.eqb_spec (m_sentSize b) 0) as [E0|E0]; [by exists b |].
  destruct (m_sentList b) as [|head rest] eqn:E; [simpl in v_sent0; lia |]. eexists. split; [done |]. destruct (m_retrans head) eqn:Er; [| done].
  destruct (tx_counts una b H) as (H1 & H2 & H3 & H4 & H5). simpl in v_sent0, v_lost0, v_sacked0, v_retrans0. rewrite Er in v_retrans0.
  pose proof (isize_nonneg head). pose proof (counted_range m_retrans rest). apply Forall_cons in v_apart0 as [Ha Hr].
  apply tx_inv_flags with (b := b); try done; fields.
  - rewrite E. by apply same_cons.
  - cbn [counted foldr]. change (m_retrans (set_retrans false _)) with false. fold (counted m_retrans rest). cbn iota. rewrite u32_small; lia.
  - constructor; done.
  - by eapply high_head.
Qed.

Lemma IsHeadRetransmitted_ok una b : tx_inv una b -> exists r, IsHeadRetransmitted b = Some r.
Proof.
  intros []. unfold IsHeadRetransmitted. destruct (Z.eqb_spec (m_sentSize b) 0) as [E0|E0]; [by eexists |].
  destruct (m_sentList b) as [|head rest] eqn:E; [simpl in v_sent0; lia | by eexists].
Qed.

(** ** Timeouts and probes *)

Lemma ResetSentList_ok una b : tx_inv una b -> tx_inv una (ResetSentList b) /\ m_sentList (ResetSentList b) = [].
Proof.
  intros H. split; [| done]. pose proof H as [].
  assert (Forall2 same (m_sentList b ++ m_appList b) (m_appList (ResetSentList b))) as Hs by (apply Forall2_app; [by apply same_fmap | apply same_refl]).
  unfold ResetSentList in *. fields. constructor; fields; cbn [app]; try done.
  - by apply same_laid with (l := m_sentList b ++ m_appList b).
  - rewrite v_size0. symmetry. by apply same_total.
  - apply Forall_app. split; [| done]. apply Forall_fmap. by apply Forall_true.
  - apply addrs_ok_fmap. rewrite (same_addrs _ _ Hs). by apply addrs_ok_fmap.
Qed.

Lemma last_split (l : list TcpTxItem) i : last l = Some i -> l = removelast l ++ [i].
Proof.
  intros H. destruct l as [|x l' _] using rev_ind; [done |]. rewrite last_snoc in H. injection H as ->. by rewrite removelast_last.
Qed.

Lemma ResetLastSegmentSent_ok una b : tx_inv una b -> (forall i, last (m_sentList b) = Some i -> clean i) -> tx_inv una (ResetLastSegmentSent b).
Proof.
  intros H Hc. unfold ResetLastSegmentSent. destruct (last (m_sentList b)) as [item|] eqn:El; [| done]. specialize (Hc item eq_refl).
  apply last_split in El. set (sent := removelast (m_sentList b)) in *. pose proof H as []. rewrite El, <- ?app_assoc in *. cbn [app] in *.
  destruct (tx_bound isn stream hi una b H) as (? & ? & Hb3). unfold MAX_TX in *. rewrite El in Hb3. destruct Hc as (C1 & C2 & C3). rewrite C3.
  rewrite !total_app in *. cbn [total foldr] in *. pose proof (isize_nonneg item). pose proof (tx_total_nonneg sent).
  rewrite u32_small by lia. rewrite !counted_app in *. cbn [counted foldr] in v_lost0, v_sacked0, v_retrans0. rewrite C1 in v_lost0. rewrite C2 in v_sacked0. rewrite C3 in v_retrans0.
  constructor; fields; rewrite ?total_app; cbn [total foldr]; try done; try lia.
  - apply (starts_app isn) in v_starts0 as [? _]. done.
  - by apply Forall_app in v_apart0 as [? _].
  - by constructor.
  - unfold high_ok in *. destruct (m_highestSack b) as [[a|] s]; [| done]. destruct v_high0 as [Es Hh]. split; [done |]. intros Hlt.
    destruct (Hh Hlt) as (j & x & Hj & K2 & K3 & K4 & K5). rewrite elem_of_app, list_elem_of_singleton in Hj. destruct Hj as [Hj| ->]; [| congruence].
    apply laid_app in v_laid0 as [Hl _]. apply (starts_app isn) in v_starts0 as [Hs _].
    destruct (starts_offset isn stream una sent j Hs Hl Hj) as (y & Ey & Hy). exists j, x. split_and!; try done; [lia |].
    assert (eq (sq y) (sq x) = true) as He by (rewrite <- Ey, <- K4; apply Z.eqb_refl).
    rewrite total_app in K5. simpl in K5. rewrite TcpRxBuffer.eq_sq in He by (unfold TcpRxBuffer.near; lia). lia.
Qed.

(** ** Connections without SACK *)

Lemma reno_loop_spec l : match reno_loop l with
  | Some (i, l') => exists p q, l = p ++ i :: q /\ l' = p ++ set_sacked true i :: q /\ m_sacked i = false /\ Forall (fun j => m_sacked j = true) p
  | None => Forall (fun j => m_sacked j = true) l
  end.
Proof.
  induction l as [|i l IH]; simpl; [constructor |]. destruct (m_sacked i) eqn:E.
  - destruct (reno_loop l) as [[j l']|]; [| by constructor]. destruct IH as (p & q & -> & -> & Hj & Hp). exists (i :: p), q. split_and!; try done. by constructor.
  - exists [], l. split_and!; try done.
Qed.

End Flags.

(** The highest SACK, when there is one, is not acknowledged yet. *)
Definition live (hi una : Z) (b : TcpTxBuffer) : Prop := (m_highestSack b).1 <> None -> una < hi.

Section Reno.
Context (isn : Z) (stream : Z -> Z) {mem : Memory} {HJ : TcpRxBuffer.JoinsPieces stream}.
Notation sq := (TcpRxBuffer.sq isn).
Ltac fields := cbn [set_lists set_counts set_sizes set_highest set_config set_first set_next_addr reset_highest m_sentList m_appList m_firstByteSeq m_size m_sentSize
  m_maxBuffer m_lostOut m_sackedOut m_retransOut m_highestSack next_addr m_dupAckThresh m_segmentSize m_renoSack m_sackEnabled] in *.

(** Without a highest SACK the offset stored with it is free. *)
Lemma tx_inv_reset hi hi' una b : tx_inv isn stream hi una b -> tx_inv isn stream hi' una (reset_highest b).
Proof. intros []. constructor; try done. Qed.

Lemma AddRenoSack_ok hi una b : tx_inv isn stream hi una b ->
  (if m_sackEnabled b then 1 < length (m_sentList b) else 0 < length (m_sentList b))%nat ->
  (forall i l, reno_loop (tail (m_sentList b)) = Some (i, l) -> m_lost i = false) ->
  exists hi' b', AddRenoSack b = Some b' /\ tx_inv isn stream hi' una b' /\ m_lostOut b' = m_lostOut b /\
    frame b b' /\ head (m_sentList b') = head (m_sentList b) /\ m_sackedOut b <= m_sackedOut b' /\ Forall2 same (m_sentList b) (m_sentList b') /\
    (m_highestSack b' = m_highestSack b /\ hi' = hi \/ una < hi' <= una + MAX_TX).
Proof.
  intros H Hlen Hnl. unfold AddRenoSack. assert ((if m_sackEnabled b then 1 <? length (m_sentList b) else 0 <? length (m_sentList b))%nat = true) as ->.
  { destruct (m_sackEnabled b); by apply Nat.ltb_lt. }
  cbn [NS_ASSERT]. fields. destruct (m_sentList b) as [|hd rest] eqn:E; [exfalso; destruct (m_sackEnabled b); simpl in *; lia |]. simpl in Hnl.
  pose proof (reno_loop_spec rest) as Hspec. destruct (reno_loop rest) as [[i rest']|].
  2: { exists hi. eexists. split; [done |]. split; [| split_and!; try done; fields; rewrite ?E; try done; [apply same_refl | by left]].
    pose proof H as []. apply tx_inv_flags with (b := b); try done; fields; rewrite ?E in *; try done. apply same_refl. }
  destruct Hspec as (p & q & -> & -> & Hi & Hp). specialize (Hnl i _ eq_refl). pose proof H as [].
  destruct (tx_counts isn stream hi una b H) as (H1 & H2 & H3 & H4 & H5). rewrite E in *.
  pose proof v_starts0 as Hst. rewrite app_comm_cons in Hst. apply (starts_app isn) in Hst as [_ [Hst _]].
  pose proof v_laid0 as Hld. rewrite !app_comm_cons, <- app_assoc in Hld. apply laid_app in Hld as [(Hhd & _ & _) (Hi0 & _)].
  set (x := una + total (hd :: p)) in *. assert (una < x) as Hx by (unfold x; simpl; pose proof (tx_total_nonneg p); lia).
  assert (m_sackedOut b + isize i <= m_sentSize b) as Hle.
  { rewrite v_sacked0, v_sent0, !app_comm_cons, counted_app, total_app. pose proof (counted_range m_sacked (hd :: p)). pose proof (counted_range m_sacked q).
    change (total (i :: q)) with (isize i + total q). change (counted m_sacked (i :: q)) with ((if m_sacked i then isize i else 0) + counted m_sacked q).
    rewrite Hi. lia. }
  assert (x <= una + MAX_TX) as Hxm.
  { unfold x, MAX_TX. rewrite v_sent0, !app_comm_cons, total_app in H5. pose proof (tx_total_nonneg (i :: q)). lia. }
  rewrite u32_small by lia.
  assert (Forall2 same (hd :: p ++ i :: q) (hd :: p ++ set_sacked true i :: q)) as Hsame by (rewrite !app_comm_cons; by apply same_mid).
  exists x. eexists. split; [reflexivity |]. split; [| split_and!; try done; fields; rewrite ?E; try done; [lia | right; done]].
  apply tx_inv_flags with (b := reset_highest b); try done; fields; rewrite ?E in *; try done.
  - by apply tx_inv_reset with (hi := hi).
  - rewrite v_lost0, !app_comm_cons, !counted_app. done.
  - rewrite v_sacked0, !app_comm_cons, !counted_app. cbn [counted foldr]. rewrite Hi. cbn [m_sacked set_sacked].
    change (isize (set_sacked true i)) with (isize i). lia.
  - rewrite v_retrans0, !app_comm_cons, !counted_app. done.
  - rewrite app_comm_cons in v_apart0 |- *. apply Forall_app in v_apart0 as [A1 A2]. apply Forall_cons in A2 as [_ A2]. apply Forall_app. split; [done |].
    constructor; [| done]. unfold apart. cbn [m_sacked m_lost set_sacked]. by rewrite Hnl.
  - split; [done |]. intros _. exists (set_sacked true i), x. split_and!; try done; [rewrite elem_of_cons, elem_of_app, elem_of_cons; tauto |].
    unfold x. rewrite app_comm_cons, total_app. pose proof (tx_total_nonneg (set_sacked true i :: q)). lia.
Qed.

End Reno.

End TcpTxFlags.
