(* ===== verification/TcpTxSack.v ===== *)
(** * SACK blocks in the TCP send buffer

    [Update] marks exactly the items that lie within a block, keeps the counts
    and finds the items that are lost. *)

From S2P Require Import Prelude Buffer BufferInv PacketBytes SequenceNumber TcpRxBuffer TcpTxBuffer TcpTxScoreboard TcpTxProps TcpTxInv TcpTxSend TcpTxFlags.
Import Buffer BufferInv PacketBytes SequenceNumber TcpTxBuffer TcpTxScoreboard TcpTxProps TcpTxInv TcpTxSend TcpTxFlags.

Module TcpTxSack.

(** The items from offset [o] on after the block from [x] to [y]. *)
Definition sack_item (x y o : Z) (i : TcpTxItem) : TcpTxItem :=
  if (x <=? o) && (o + isize i <=? y) && negb (m_sacked i) then set_sacked true (set_lost false i) else i.
Fixpoint sacked_by (x y o : Z) (l : list TcpTxItem) : list TcpTxItem :=
  match l with
  | [] => []
  | i :: r => sack_item x y o i :: sacked_by x y (o + isize i) r
  end.
(** The same for a list of blocks. *)
Definition sacked_by_all (o : Z) (blocks : list (Z * Z)) (l : list TcpTxItem) : list TcpTxItem :=
  fold_left (fun l xy => sacked_by xy.1 xy.2 o l) blocks l.

Lemma sack_item_same x y o i : same i (sack_item x y o i).
Proof. unfold sack_item. case_match; done. Qed.
Lemma sacked_by_same x y o l : Forall2 same l (sacked_by x y o l).
Proof. revert o. induction l as [|i l IH]; intros o; constructor; [apply sack_item_same | apply IH]. Qed.
Lemma sacked_by_past x y o i r : y < o + isize i -> sacked_by x y o (i :: r) = i :: r.
Proof.
  revert o i. induction r as [|j r IH]; intros o i H; cbn [sacked_by]; unfold sack_item at 1; rewrite (proj2 (Z.leb_gt (o + isize i) y)), andb_false_r by lia; [done |].
  cbn [andb]. f_equal. apply IH. pose proof (isize_nonneg j). lia.
Qed.
Lemma same_trans l1 l2 l3 : Forall2 same l1 l2 -> Forall2 same l2 l3 -> Forall2 same l1 l3.
Proof.
  intros H. revert l3. induction H as [|i j l1 l2 (? & ? & ?) _ IH]; intros l3 H3; inversion H3 as [|? k ? l3' (? & ? & ?) Hr]; subst; constructor; [| by apply IH].
  unfold same. split_and!; congruence.
Qed.
Lemma sacked_by_all_same o blocks l : Forall2 same l (sacked_by_all o blocks l).
Proof.
  unfold sacked_by_all. revert l. induction blocks as [|xy blocks IH]; intros l; simpl; [apply same_refl |].
  specialize (IH (sacked_by xy.1 xy.2 o l)). pose proof (sacked_by_same xy.1 xy.2 o l) as H.
  by apply same_trans with (l2 := sacked_by xy.1 xy.2 o l).
Qed.

Lemma sacked_by_retrans x y o l : counted m_retrans (sacked_by x y o l) = counted m_retrans l.
Proof.
  revert o. induction l as [|i l IH]; intros o; simpl; [done |]. rewrite IH, (same_isize i _ (sack_item_same x y o i)).
  assert (m_retrans (sack_item x y o i) = m_retrans i) as -> by (unfold sack_item; by case_match). done.
Qed.
Lemma sacked_by_all_retrans o blocks l : counted m_retrans (sacked_by_all o blocks l) = counted m_retrans l.
Proof. unfold sacked_by_all. revert l. induction blocks as [|xy blocks IH]; intros l; simpl; [done |]. by rewrite IH, sacked_by_retrans. Qed.
(** The head is not inside a block that starts after it. *)
Lemma sacked_by_all_head o blocks hd rest : Forall (fun xy => o < xy.1) blocks -> exists rest', sacked_by_all o blocks (hd :: rest) = hd :: rest'.
Proof.
  unfold sacked_by_all. intros H. revert rest. induction H as [|xy blocks Hx _ IH]; intros rest; simpl; [by eexists |].
  assert (sack_item xy.1 xy.2 o hd = hd) as -> by (unfold sack_item; by rewrite (proj2 (Z.leb_gt _ _) Hx)). apply IH.
Qed.

Section Sack.
Context (isn : Z) (stream : Z -> Z) {mem : Memory} {HJ : TcpRxBuffer.JoinsPieces stream}.
Notation sq := (TcpRxBuffer.sq isn).
Notation laid := (laid stream).
Notation starts := (starts isn).

(** The state of the loops: [full] is the sent list, [s0] the bytes that were
    sacked before. *)
Record sack_inv (s0 una : Z) (full : list TcpTxItem) (hi : Z) (st : SackState) : Prop := mkSackInv {
  k_laid : laid una full;
  k_starts : starts una full;
  k_total : total full <= MAX_TX;
  k_apart : Forall apart full;
  k_lost : ss_lostOut st = counted m_lost full;
  k_sacked : ss_sackedOut st = counted m_sacked full;
  k_bytes : ss_bytesSacked st = counted m_sacked full - s0;
  k_s0 : 0 <= s0 <= counted m_sacked full;
  k_high : high_ok isn hi una full (ss_highest st);
  k_live : (ss_highest st).1 <> None -> una < hi;
  k_some : 0 < ss_bytesSacked st -> (ss_highest st).1 <> None
}.

(** One item is marked. *)
Lemma sack_inv_mark s0 una pre i r hi st high : sack_inv s0 una (pre ++ i :: r) hi st -> m_sacked i = false -> pre <> [] ->
  (high = (Some (it_addr i), sq (una + total pre)) \/ high = ss_highest st /\ high.1 <> None) ->
  exists hi', sack_inv s0 una (pre ++ set_sacked true (set_lost false i) :: r) hi'
    (mkSackState (if m_lost i then u32 (ss_lostOut st - isize i) else ss_lostOut st) (u32 (ss_sackedOut st + isize i)) (u32 (ss_bytesSacked st + isize i)) high).
Proof.
  intros [] Hi Hpre Hh. set (i' := set_sacked true (set_lost false i)). assert (same i i') as Hs by done. assert (isize i' = isize i) as Ez by done.
  pose proof (same_mid pre i i' r Hs) as Hsm. pose proof (same_total _ _ Hsm) as Et.
  apply laid_app in k_laid0 as Hl. destruct Hl as (Hlp & Hi0 & _). pose proof (laid_pos stream una pre Hlp Hpre) as Hpos.
  apply (starts_app isn) in k_starts0 as Hst. destruct Hst as (_ & Hst & _).
  assert (counted m_lost (pre ++ i' :: r) = counted m_lost (pre ++ i :: r) - (if m_lost i then isize i else 0)) as El.
  { rewrite !counted_app. cbn [counted foldr]. rewrite Ez. change (m_lost i') with false. cbn iota. destruct (m_lost i); lia. }
  assert (counted m_sacked (pre ++ i' :: r) = counted m_sacked (pre ++ i :: r) + isize i) as Ek.
  { rewrite !counted_app. cbn [counted foldr]. rewrite Ez, Hi. change (m_sacked i') with true. cbn iota. lia. }
  pose proof (counted_range m_sacked (pre ++ i' :: r)) as R1. pose proof (counted_range m_lost (pre ++ i' :: r)) as R2. rewrite Et in R1, R2. unfold MAX_TX in *.
  pose proof (counted_range m_lost (pre ++ i :: r)) as R3.
  assert (exists hi', high_ok isn hi' una (pre ++ i' :: r) high /\ (high.1 <> None -> una < hi')) as (hi' & Hh1 & Hh2).
  { destruct Hh as [->|[-> Hn]].
    - exists (una + total pre). split; [| lia]. split; [done |]. intros _. exists i', (una + total pre). rewrite Et, total_app. pose proof (tx_total_nonneg (i :: r)).
      split_and!; try done; [rewrite elem_of_app, elem_of_cons; tauto | lia].
    - exists hi. split; [| auto]. apply high_keep with (sent := pre ++ i :: r); [done | done |]. intros j z Hj Hk _ _. exists j. split_and!; try done.
      rewrite elem_of_app, elem_of_cons in Hj |- *. destruct Hj as [?|[->|?]]; [tauto | congruence | tauto]. }
  exists hi'. constructor; cbn [ss_lostOut ss_sackedOut ss_bytesSacked ss_highest].
  - by apply same_laid with (l := pre ++ i :: r).
  - by apply same_starts with (l := pre ++ i :: r).
  - unfold MAX_TX. lia.
  - apply Forall_app in k_apart0 as [A1 A2]. apply Forall_cons in A2 as [_ A2]. apply Forall_app. split; [done |]. by constructor.
  - rewrite El, k_lost0. destruct (m_lost i); [apply u32_small |]; lia.
  - rewrite Ek, k_sacked0. apply u32_small. lia.
  - rewrite Ek, k_bytes0. rewrite u32_small; lia.
  - lia.
  - done.
  - done.
  - intros _. destruct Hh as [->|[_ ?]]; done.
Qed.

Lemma sack_loop_ok s0 una x y pre l hi st : sack_inv s0 una (pre ++ l) hi st -> una < x <= una + MAX_TX -> una <= y <= una + MAX_TX ->
  exists called st' hi', sack_loop (sq x, sq y) (sq (una + total pre)) l st = Some (called, sacked_by x y (una + total pre) l, st') /\
    sack_inv s0 una (pre ++ sacked_by x y (una + total pre) l) hi' st'.
Proof.
  intros H Hx Hy. revert pre st hi H. induction l as [|i l IH]; intros pre st hi H; cbn [sack_loop sacked_by]; [by exists [], st, hi |].
  pose proof H as []. unfold MAX_TX in *. rewrite seq_add_sq. rewrite total_app in k_total0. cbn [total foldr] in k_total0. fold (total l) in k_total0.
  pose proof (tx_total_nonneg pre). pose proof (tx_total_nonneg l). pose proof (isize_nonneg i). cbn [fst snd].
  rewrite TcpRxBuffer.ge_sq, TcpRxBuffer.le_sq, TcpRxBuffer.gt_sq by (unfold TcpRxBuffer.near; lia). unfold sack_item.
  assert (forall i', isize i' = isize i -> una + total (pre ++ [i']) = una + total pre + isize i) as Hnext by (intros i' Ei; rewrite total_app; simpl; lia).
  destruct ((x <=? una + total pre) && (una + total pre + isize i <=? y)) eqn:Ein; cbn [andb].
  - destruct (m_sacked i) eqn:Ek; cbn [negb].
    + assert (m_lost i = false) as -> by (apply Forall_app in k_apart0 as [_ A2]; apply Forall_cons in A2 as [A2 _]; unfold apart in A2; by rewrite Ek in A2).
      cbn [negb NS_ASSERT]. destruct (IH (pre ++ [i]) st hi) as (called & st' & hi' & E & H'); [by rewrite <- app_assoc |]. rewrite Hnext in E, H' by done. rewrite E.
      exists called, st', hi'. split; [done |]. by rewrite <- app_assoc in H'.
    + set (i' := set_sacked true (set_lost false i)).
      set (high := match ss_highest st with (None, _) => (Some (it_addr i), sq (una + total pre)) | _ => _ end).
      destruct (sack_inv_mark s0 una pre i l hi st high H Ek) as (hi1 & Hm1).
      { intros ->. apply andb_prop in Ein as [Ein _]. simpl in Ein. lia. }
      { unfold high. destruct (ss_highest st) as [[a|] s]; [| by left]. destruct (le 32 s _); [by left | by right]. }
      edestruct (IH (pre ++ [i'])) as (called & st' & hi' & E & H'); [rewrite <- app_assoc; exact Hm1 |]. rewrite Hnext in E, H' by done. rewrite E.
      eexists _, st', hi'. split; [done |]. by rewrite <- app_assoc in H'.
  - destruct (Z.ltb_spec y (una + total pre + isize i)) as [Hgt|Hle].
    + exists [], st, hi. pose proof (sacked_by_past x y (una + total pre) i l Hgt) as E. cbn [sacked_by] in E. unfold sack_item in E. rewrite Ein in E. cbn [andb] in E.
      rewrite E. done.
    + destruct (IH (pre ++ [i]) st hi) as (called & st' & hi' & E & H'); [by rewrite <- app_assoc |]. rewrite Hnext in E, H' by done. rewrite E.
      exists called, st', hi'. split; [done |]. by rewrite <- app_assoc in H'.
Qed.

(** The blocks up to the first one that starts beyond the data sent. *)
Fixpoint reached (stop : Z) (blocks : list (Z * Z)) : list (Z * Z) :=
  match blocks with
  | [] => []
  | xy :: r => if stop <? xy.1 then [] else xy :: reached stop r
  end.
Definition enc (xy : Z * Z) : SequenceNumber * SequenceNumber := (sq xy.1, sq xy.2).
(** A block is above the first unacknowledged byte and not too far. *)
Definition block_ok (una : Z) (xy : Z * Z) : Prop := una < xy.1 <= una + MAX_TX /\ una <= xy.2 <= una + MAX_TX.

Lemma block_loop_ok s0 una blocks l hi st : sack_inv s0 una l hi st -> Forall (block_ok una) blocks ->
  exists early called st' hi', block_loop (sq una) (sq (una + total l)) (enc <$> blocks) l st
      = Some (early, called, sacked_by_all una (reached (una + total l) blocks) l, st') /\
    sack_inv s0 una (sacked_by_all una (reached (una + total l) blocks) l) hi' st' /\
    early = negb (length (reached (una + total l) blocks) =? length blocks)%nat.
Proof.
  intros H Hb. revert l st hi H. induction Hb as [|xy blocks [Hx Hy] _ IH]; intros l st hi H; [by exists false, [], st, hi |].
  rewrite fmap_cons. cbn [block_loop reached]. unfold enc at 1 2. cbn [fst snd]. pose proof H as []. unfold MAX_TX in *. pose proof (tx_total_nonneg l).
  rewrite TcpRxBuffer.lt_sq by (unfold TcpRxBuffer.near; lia). destruct (Z.ltb_spec (una + total l) xy.1) as [Hlt|Hge]; [by exists true, [], st, hi |].
  destruct (sack_loop_ok s0 una xy.1 xy.2 [] l hi st H ltac:(unfold MAX_TX; lia) ltac:(unfold MAX_TX; lia)) as (called & st1 & hi1 & E & H1).
  cbn [app total foldr] in E, H1. rewrite Z.add_0_r in E, H1. rewrite E.
  pose proof (same_total _ _ (sacked_by_same xy.1 xy.2 una l)) as Et.
  destruct (IH _ st1 hi1 H1) as (early & called' & st2 & hi2 & E2 & H2 & E3). rewrite Et in E2, H2, E3. rewrite E2.
  by exists early, (called ++ called'), st2, hi2.
Qed.

(** ** Lost items *)

Definition nsacked (l : list TcpTxItem) : Z := Z.of_nat (length (List.filter m_sacked l)).
(** An item that is not sacked is lost when [thresh] items after it are sacked;
    [n] are sacked after the list. *)
Definition lose_if (thresh n : Z) (i : TcpTxItem) : TcpTxItem :=
  if (thresh <=? n) && negb (m_sacked i) && negb (m_lost i) then set_lost true i else i.
Fixpoint lost_by (thresh n : Z) (l : list TcpTxItem) : list TcpTxItem :=
  match l with
  | [] => []
  | i :: r => lose_if thresh (n + nsacked r) i :: lost_by thresh n r
  end.

Lemma nsacked_range l : 0 <= nsacked l <= Z.of_nat (length l).
Proof. unfold nsacked. pose proof (List.filter_length_le m_sacked l). lia. Qed.
Lemma lose_if_flags thresh n i : same i (lose_if thresh n i) /\ m_sacked (lose_if thresh n i) = m_sacked i /\ m_retrans (lose_if thresh n i) = m_retrans i /\
  (apart i -> apart (lose_if thresh n i)).
Proof. unfold lose_if, apart. destruct (thresh <=? n), (m_sacked i) eqn:E1, (m_lost i) eqn:E2; simpl; rewrite ?E1, ?E2; split_and!; try done. Qed.
Lemma lost_by_flags thresh n l : Forall2 (fun i j => same i j /\ m_sacked j = m_sacked i /\ m_retrans j = m_retrans i /\ (apart i -> apart j)) l (lost_by thresh n l).
Proof. induction l as [|i l IH]; constructor; [apply lose_if_flags | apply IH]. Qed.

Lemma mark_back_app thresh n lo l1 l2 : mark_back thresh n lo (l1 ++ l2) =
  let '(l1', n1, lo1) := mark_back thresh n lo l1 in let '(l2', n2, lo2) := mark_back thresh n1 lo1 l2 in (l1' ++ l2', n2, lo2).
Proof.
  revert n lo. induction l1 as [|i l1 IH]; intros n lo; simpl; [by destruct (mark_back thresh n lo l2) as [[? ?] ?] |]. rewrite IH.
  destruct (mark_back thresh _ _ l1) as [[l1' n1] lo1]. by destruct (mark_back thresh n1 lo1 l2) as [[l2' n2] lo2].
Qed.

Lemma mark_back_ok thresh n lo l : 0 <= n -> n + Z.of_nat (length l) < 2 ^ 32 -> 0 <= lo -> lo + total l < 2 ^ 32 ->
  mark_back thresh n lo (rev l) = (rev (lost_by thresh n l), n + nsacked l, lo + (counted m_lost (lost_by thresh n l) - counted m_lost l)).
Proof.
  induction l as [|i l IH]; intros Hn Hz Hlo Ht; [simpl; do 2 f_equal; unfold nsacked; simpl; lia |].
  cbn [rev lost_by total foldr counted] in *. fold (total l) (counted m_lost l) (counted m_lost (lost_by thresh n l)) in *.
  assert (Z.of_nat (length (i :: l)) = Z.of_nat (length l) + 1) as Ez by (simpl; lia). rewrite mark_back_app, IH by (pose proof (isize_nonneg i); lia).
  cbn [mark_back]. pose proof (nsacked_range l). assert (nsacked (i :: l) = nsacked l + (if m_sacked i then 1 else 0)) as En.
  { unfold nsacked. simpl. destruct (m_sacked i); simpl; lia. }
  assert (0 <= counted m_lost (lost_by thresh n l) - counted m_lost l <= total l) as Hc.
  { clear. induction l as [|j l IH]; cbn [lost_by total counted foldr]; [lia |]. fold (total l) (counted m_lost l) (counted m_lost (lost_by thresh n l)).
    pose proof (isize_nonneg j). unfold lose_if. destruct ((thresh <=? n + nsacked l) && negb (m_sacked j)) eqn:E, (m_lost j) eqn:E2; cbn [andb negb]; rewrite ?E2; simpl;
      try change (isize (set_lost true j)) with (isize j); lia. }
  rewrite En. unfold lose_if. pose proof (isize_nonneg i).
  destruct (m_sacked i) eqn:Ek; [rewrite u32_small by lia | rewrite Z.add_0_r]; cbn [negb]; rewrite ?andb_false_r, ?andb_true_r; cbn [andb].
  - apply f_equal2; [apply f_equal2; [done | lia] | destruct (m_lost i); lia].
  - destruct ((thresh <=? n + nsacked l) && negb (m_lost i)) eqn:E; [| apply f_equal2; [done | destruct (m_lost i); lia]].
    apply andb_prop in E as [_ E]. destruct (m_lost i); [done |]. cbn [m_lost set_lost]. change (isize (set_lost true i)) with (isize i).
    rewrite u32_small by lia. apply f_equal2; [done | lia].
Qed.

Lemma laid_length o l : laid o l -> Z.of_nat (length l) <= total l.
Proof. revert o. induction l as [|i l IH]; intros o; simpl; [lia |]. intros (? & _ & H). specialize (IH _ H). lia. Qed.
Lemma position_in l i : i ∈ l -> exists k, position (it_addr i) l = Some k.
Proof.
  induction l as [|j l IH]; intros Hi; [by apply elem_of_nil in Hi |]. simpl. destruct (Z.eqb_spec (it_addr j) (it_addr i)) as [E|E]; [by eexists |].
  apply elem_of_cons in Hi as [->|Hi]; [done |]. destruct (IH Hi) as (k & ->). by eexists.
Qed.

(** Only the marks of loss differ. *)
Lemma counted_flags f l l' : Forall2 (fun i j => same i j /\ f j = f i) l l' -> counted f l' = counted f l.
Proof. induction 1 as [|i j l l' [Hs Hf] _ IH]; simpl; [done |]. by rewrite (same_isize i j Hs), Hf, IH. Qed.
Lemma tx_inv_lost hi una b b' : tx_inv isn stream hi una b -> frame b b' ->
  Forall2 (fun i j => same i j /\ m_sacked j = m_sacked i /\ m_retrans j = m_retrans i /\ (apart i -> apart j)) (m_sentList b) (m_sentList b') ->
  m_lostOut b' = counted m_lost (m_sentList b') -> m_sackedOut b' = m_sackedOut b -> m_retransOut b' = m_retransOut b -> m_highestSack b' = m_highestSack b ->
  tx_inv isn stream hi una b'.
Proof.
  intros H Hfr Hf E1 E2 E3 E4. pose proof H as []. apply tx_inv_flags with (b := b); try done.
  - eapply Forall2_impl; [exact Hf |]. by intros ? ? (? & _).
  - rewrite E2, v_sacked0. symmetry. apply counted_flags. eapply Forall2_impl; [exact Hf |]. by intros ? ? (? & ? & _).
  - rewrite E3, v_retrans0. symmetry. apply counted_flags. eapply Forall2_impl; [exact Hf |]. by intros ? ? (? & _ & ? & _).
  - clear - Hf v_apart0. induction Hf as [|i j l l' (_ & _ & _ & Ha) _ IH]; [done |]. apply Forall_cons in v_apart0 as [? ?]. constructor; auto.
  - rewrite E4. eapply high_same; [done |]. eapply Forall2_impl; [exact Hf |]. intros i j (? & Hk & _). split; [done |]. by rewrite Hk.
Qed.

Lemma UpdateLostCount_ok hi una b hd rest : tx_inv isn stream hi una b -> live hi una b -> (m_highestSack b).1 <> None ->
  m_sentList b = hd :: rest -> m_sacked hd = false ->
  exists k b', UpdateLostCount b = Some b' /\ tx_inv isn stream hi una b' /\ m_highestSack b' = m_highestSack b /\
    (let* a := (m_highestSack b).1 in position a (m_sentList b)) = Some k /\
    m_sentList b' = lost_by (m_dupAckThresh b) 0 (take (S k) (m_sentList b)) ++ drop (S k) (m_sentList b) /\ frame b b'.
Proof.
  intros H Hlv Hhi E Hk. pose proof H as []. destruct (tx_bound isn stream hi una b H) as (? & ? & Hb3). destruct (tx_counts isn stream hi una b H) as (? & ? & ? & ? & ?).
  specialize (Hlv Hhi). pose proof v_high0 as Hh. unfold UpdateLostCount, high_ok in *. destruct (m_highestSack b) as [[a|] s] eqn:Eh; [| done]. cbn [fst] in *.
  destruct Hh as [Es Hh]. destruct (Hh Hlv) as (i & x & Hi & <- & _). destruct (position_in _ _ Hi) as (k & Ep). rewrite Ep, E.
  apply laid_app in v_laid0 as [Hl _]. pose proof (laid_length una _ Hl) as Hlen. rewrite <- Hb3 in Hlen. rewrite E in *. unfold MAX_TX in *.
  pose proof (take_drop k rest) as Etd. assert (total (take k rest) + total (drop k rest) = total rest) as Ett by (rewrite <- total_app; by rewrite Etd).
  cbn [total foldr] in Hb3. fold (total rest) in Hb3. pose proof (tx_total_nonneg (take k rest)). pose proof (tx_total_nonneg (drop k rest)). pose proof (isize_nonneg hd).
  assert (Z.of_nat (length (take k rest)) < 2 ^ 32) as Hlt by (pose proof (length_take_le rest k); rewrite length_take; simpl in Hlen; lia).
  assert (0 <= counted m_lost rest /\ m_lostOut b = (if m_lost hd then isize hd else 0) + counted m_lost rest) as [R1 R2] by (split; [apply counted_range | exact v_lost0]).
  assert (m_lostOut b + total (take k rest) < 2 ^ 32) as Hov by lia.
  rewrite mark_back_ok by lia. rewrite Z.add_0_l, rev_involutive.
  assert ((if (m_dupAckThresh b <=? nsacked (take k rest)) && negb (m_lost hd) then set_lost true hd else hd) = lose_if (m_dupAckThresh b) (0 + nsacked (take k rest)) hd) as Ehd.
  { unfold lose_if. rewrite Hk, Z.add_0_l. cbn [negb]. by rewrite andb_true_r. }
  exists k. eexists. split; [reflexivity |]. cbn [take drop]. split; [| split_and!; [done | done | cbn [m_sentList set_counts set_lists lost_by]; by rewrite Ehd | done]].
  pose proof (lost_by_flags (m_dupAckThresh b) 0 (take (S k) (hd :: rest))) as Hf. cbn [take lost_by] in Hf. rewrite <- Ehd in Hf.
  apply tx_inv_lost with (b := b); try done; cbn [m_sentList m_lostOut set_counts set_lists]; rewrite ?E.
  - rewrite <- Etd at 1. rewrite !app_comm_cons. apply Forall2_app; [done |]. apply Forall_Forall2_diag. by apply Forall_true.
  - assert (counted m_lost rest = counted m_lost (take k rest) + counted m_lost (drop k rest)) as Ec by (rewrite <- counted_app; by rewrite Etd).
    pose proof (counted_range m_lost (lost_by (m_dupAckThresh b) 0 (take k rest))) as R3. pose proof (counted_range m_lost (take k rest)).
    pose proof (counted_range m_lost (drop k rest)). assert (total (lost_by (m_dupAckThresh b) 0 (take k rest)) = total (take k rest)) as Etl.
    { apply same_total. eapply Forall2_impl; [apply lost_by_flags |]. by intros ? ? (? & _). }
    cbn [counted foldr]. fold (counted m_lost (lost_by (m_dupAckThresh b) 0 (take k rest) ++ drop k rest)). rewrite counted_app.
    destruct (m_dupAckThresh b <=? nsacked (take k rest)), (m_lost hd) eqn:Elh; cbn [andb negb]; rewrite ?Elh; try lia.
    change (m_lost (set_lost true hd)) with true. change (isize (set_lost true hd)) with (isize hd). cbn iota. rewrite u32_small; lia.
Qed.

(** [Update]: every item inside a block is sacked, the items followed by enough
    sacked ones are lost, and the number of newly sacked bytes is returned. *)
Lemma Update_ok hi una b hd rest blocks : tx_inv isn stream hi una b -> live hi una b -> m_sentList b = hd :: rest -> m_sacked hd = false ->
  Forall (block_ok una) blocks ->
  let sent1 := sacked_by_all una (reached (una + m_sentSize b) blocks) (m_sentList b) in
  let new := counted m_sacked sent1 - m_sackedOut b in
  exists hi' b' called, Update (enc <$> blocks) b = Some (new, called, b') /\ tx_inv isn stream hi' una b' /\ live hi' una b' /\ 0 <= new /\ (exists hd' rest', m_sentList b' = hd' :: rest' /\ m_sacked hd' = false) /\ frame b b' /\
    (m_sentList b' = sent1 \/ 0 < new /\ exists k, m_sentList b' = lost_by (m_dupAckThresh b) 0 (take (S k) sent1) ++ drop (S k) sent1 /\
      (let* a := (m_highestSack b').1 in position a sent1) = Some k).
Proof.
  intros H Hlv E Hk Hb sent1 new. pose proof H as []. destruct (tx_bound isn stream hi una b H) as (? & ? & Hb3). destruct (tx_counts isn stream hi una b H) as (? & ? & ? & ? & ?).
  apply laid_app in v_laid0 as Hl. destruct Hl as [Hl _].
  assert (sack_inv (m_sackedOut b) una (m_sentList b) hi (mkSackState (m_lostOut b) (m_sackedOut b) 0 (m_highestSack b))) as Hs.
  { constructor; cbn; try done; lia. }
  destruct (block_loop_ok _ una blocks (m_sentList b) hi _ Hs Hb) as (early & called & st & hi1 & E1 & Hs1 & _). rewrite <- Hb3 in E1, Hs1. fold sent1 in E1, Hs1.
  unfold Update. rewrite v_first0, seq_add_sq, E1. pose proof (sacked_by_all_same una (reached (una + m_sentSize b) blocks) (m_sentList b)) as Hsame. fold sent1 in Hsame.
  set (b1 := set_highest _ _). destruct Hs1.
  assert (tx_inv isn stream hi1 una b1) as Hb1.
  { apply tx_inv_flags with (b := reset_highest b); try done.
    cbn [b1 set_highest set_counts set_lists m_retransOut m_sentList]. unfold sent1. by rewrite sacked_by_all_retrans. }
  assert (live hi1 una b1) as Hlv1 by exact k_live0.
  assert (exists rest', sent1 = hd :: rest') as (rest' & Er).
  { unfold sent1. rewrite E. apply sacked_by_all_head. clear - Hb. generalize (una + m_sentSize b). intros stop. induction Hb as [|xy l [? _] _ IH]; simpl; [done |].
    destruct (stop <? xy.1); [constructor | constructor; [lia | done]]. }
  assert (ss_bytesSacked st = new) as En by (unfold new; lia). rewrite En in *.
  destruct early; [exists hi1, b1, called; split_and!; try done; [lia | by exists hd, rest' | by left] |].
  assert (exists b2, (if 0 <? new then UpdateLostCount b1 else Some b1) = Some b2 /\ tx_inv isn stream hi1 una b2 /\ m_highestSack b2 = m_highestSack b1 /\
    frame b b2 /\ (m_sentList b2 = sent1 \/ 0 < new /\ exists k, m_sentList b2 = lost_by (m_dupAckThresh b) 0 (take (S k) sent1) ++ drop (S k) sent1 /\
      (let* a := (m_highestSack b2).1 in position a sent1) = Some k)) as (b2 & -> & Hb2 & Eh2 & Hfr & Hsh).
  { destruct (Z.ltb_spec 0 new) as [Hp|Hz]; [| exists b1; split_and!; try done; by left].
    destruct (UpdateLostCount_ok hi1 una b1 hd rest' Hb1 Hlv1 (k_some0 Hp) Er Hk) as (k & b2 & -> & K1 & K2 & K3 & K4 & K5).
    exists b2. split_and!; try done. right. split; [done |]. exists k. split; [exact K4 |]. by rewrite K2. }
  assert (exists hd' rest2, m_sentList b2 = hd' :: rest2 /\ m_sacked hd' = false) as (hd' & rest2 & E2 & Hk2).
  { destruct Hsh as [->|(_ & k & -> & _)]; rewrite Er; [by exists hd, rest' |]. cbn [take drop lost_by app]. eexists _, _. split; [done |].
    by destruct (lose_if_flags (m_dupAckThresh b) (0 + nsacked (take k rest')) hd) as (_ & -> & _). }
  rewrite E2, Hk2. cbn [negb NS_ASSERT]. destruct (tx_counts isn stream hi1 una b2 Hb2) as (? & ? & ? & ? & ?).
  rewrite u32_small, (proj2 (Z.leb_le _ _)) by lia. cbn [NS_ASSERT]. exists hi1, b2, called. split_and!; try done; [| lia | by eexists _, _].
  unfold live in *. by rewrite Eh2.
Qed.

End Sack.

End TcpTxSack.
