(* ===== verification/TcpTxAck.v ===== *)
(** * Acknowledgements in the TCP send buffer

    [DiscardUpTo] returns, keeps the invariant and leaves exactly the bytes from
    the acknowledged number on. *)

From S2P Require Import Prelude Buffer BufferInv PacketBytes SequenceNumber TcpRxBuffer TcpTxBuffer TcpTxScoreboard TcpTxProps TcpTxInv TcpTxSend TcpTxFlags.
Import Buffer BufferInv PacketBytes SequenceNumber TcpTxBuffer TcpTxScoreboard TcpTxProps TcpTxInv TcpTxSend TcpTxFlags.

Module TcpTxAck.

Section Ack.
Context (isn : Z) (stream : Z -> Z) {mem : Memory} {HJ : TcpRxBuffer.JoinsPieces stream}.
Notation sq := (TcpRxBuffer.sq isn).
Notation tx_inv := (tx_inv isn stream).
Ltac fields := cbn [set_lists set_counts set_sizes set_highest set_config set_first set_next_addr reset_highest m_sentList m_appList m_firstByteSeq m_size m_sentSize
  m_maxBuffer m_lostOut m_sackedOut m_retransOut m_highestSack next_addr m_dupAckThresh m_segmentSize m_renoSack m_sackEnabled] in *.

(** Items with the same flags. *)
Definition sflags (i j : TcpTxItem) : Prop := m_sacked j = m_sacked i /\ m_lost j = m_lost i /\ m_retrans j = m_retrans i.

(** The buffer after the first [k] bytes of its head [i] went away, with [tl] the
    sent items from there on. *)
Definition shift (una k : Z) (i : TcpTxItem) (tl : list TcpTxItem) (b : TcpTxBuffer) : TcpTxBuffer :=
  set_counts (if m_lost i then m_lostOut b - k else m_lostOut b) (if m_sacked i then m_sackedOut b - k else m_sackedOut b)
    (if m_retrans i then m_retransOut b - k else m_retransOut b)
    (set_first (sq (una + k)) (set_sizes (m_size b - k) (m_sentSize b - k) (set_lists (m_appList b) tl b))).

Lemma RemoveFromCounts_ok hi una i j r b b' k : tx_inv hi una b -> m_sentList b = i :: r -> sflags i j -> 0 <= k <= isize i ->
  m_lostOut b' = m_lostOut b -> m_sackedOut b' = m_sackedOut b -> m_retransOut b' = m_retransOut b ->
  RemoveFromCounts j k b' = Some (set_counts (if m_lost i then m_lostOut b - k else m_lostOut b) (if m_sacked i then m_sackedOut b - k else m_sackedOut b)
    (if m_retrans i then m_retransOut b - k else m_retransOut b) b').
Proof.
  intros [] E (J1 & J2 & J3) Hk E1 E2 E3. unfold RemoveFromCounts. rewrite J1, J2, J3, E1, E2, E3. rewrite E in v_lost0, v_sacked0, v_retrans0. simpl in *.
  pose proof (counted_range m_lost r). pose proof (counted_range m_sacked r). pose proof (counted_range m_retrans r).
  destruct (m_lost i), (m_sacked i), (m_retrans i); cbn [negb orb]; rewrite ?(proj2 (Z.leb_le _ _)) by lia; done.
Qed.

(** The highest SACK, not acknowledged yet, is among the items after the head. *)
Lemma high_tail hi una b i r : tx_inv hi una b -> m_sentList b = i :: r -> forall k tl, 0 < k -> total tl = total (m_sentList b) - k ->
  (forall j, j ∈ r -> j ∈ tl) -> high_ok isn hi (una + k) tl (m_highestSack b).
Proof.
  intros H E k tl Hk Ht Hin. pose proof H as []. destruct (tx_bound isn stream hi una b H) as (? & ? & Hb3). unfold MAX_TX, high_ok in *. destruct (m_highestSack b) as [[a|] s]; [| done].
  destruct v_high0 as [Es Hh]. split; [done |]. intros Hlt. destruct (Hh ltac:(lia)) as (j & x & Hj & Ha & Hs & Ex & Hx). exists j, x. rewrite E in Hj, v_starts0.
  destruct v_starts0 as [Hst _]. apply elem_of_cons in Hj as [->|Hj].
  - exfalso. assert (eq (sq una) (sq x) = true) as He by (rewrite <- Hst, <- Ex; apply Z.eqb_refl).
    rewrite TcpRxBuffer.eq_sq in He by (unfold TcpRxBuffer.near; lia). lia.
  - split_and!; try done; [by apply Hin | lia | lia].
Qed.

(** The head is removed. *)
Lemma tx_inv_drop hi una b i r : tx_inv hi una b -> m_sentList b = i :: r -> tx_inv hi (una + isize i) (shift una (isize i) i r b).
Proof.
  intros H E. pose proof H as []. pose proof (high_tail hi una b i r H E (isize i) r) as Hh. rewrite E in *. cbn [app TcpTxProps.laid] in v_laid0. destruct v_laid0 as (Hp & _ & Hl).
  cbn [total foldr app] in *. fold (total (r ++ m_appList b)) (total r) in *. destruct v_starts0 as [_ Hst]. cbn [counted foldr] in v_lost0, v_sacked0, v_retrans0.
  fold (counted m_lost r) (counted m_sacked r) (counted m_retrans r) in *.
  constructor; unfold shift; fields; try done; try lia.
  - destruct (m_lost i); lia.
  - destruct (m_sacked i); lia.
  - destruct (m_retrans i); lia.
  - by apply Forall_cons in v_apart0 as [_ ?].
  - destruct v_addrs0 as [A1 A2]. rewrite fmap_cons in A1. apply NoDup_cons in A1 as [_ A1]. apply Forall_cons in A2 as [_ A2]. by split.
  - apply Hh; [done | lia | done].
Qed.

(** The head is cut. *)
Lemma tx_inv_cut hi una b i r k : tx_inv hi una b -> m_sentList b = i :: r -> 0 < k < isize i ->
  let i' := set_start (sq (una + k)) (set_packet (TcpRxBuffer.bytes stream (una + k) (isize i - k)) i) in
  tx_inv hi (una + k) (shift una k i (i' :: r) b) /\ isize i' = isize i - k.
Proof.
  intros H E Hk i'. assert (isize i' = isize i - k) as Ez by (apply TcpRxBuffer.bytes_size; lia). split; [| done].
  pose proof H as []. pose proof (high_tail hi una b i r H E k (i' :: r)) as Hh. rewrite E in *. cbn [app TcpTxProps.laid] in v_laid0. destruct v_laid0 as (Hp & _ & Hl).
  cbn [total foldr app] in *. fold (total (r ++ m_appList b)) (total r) in *. destruct v_starts0 as [_ Hst]. cbn [counted foldr] in v_lost0, v_sacked0, v_retrans0.
  fold (counted m_lost r) (counted m_sacked r) (counted m_retrans r) in *.
  constructor; unfold shift; fields; try done; cbn [app TcpTxProps.laid TcpTxProps.starts total counted foldr]; rewrite ?Ez; try lia.
  - split_and!; [lia | done |]. by replace (una + k + (isize i - k)) with (una + isize i) by lia.
  - split; [done |]. by replace (una + k + (isize i - k)) with (una + isize i) by lia.
  - fold (total (r ++ m_appList b)). lia.
  - fold (total r). lia.
  - change (m_lost i') with (m_lost i). fold (counted m_lost r). destruct (m_lost i); lia.
  - change (m_sacked i') with (m_sacked i). fold (counted m_sacked r). destruct (m_sacked i); lia.
  - change (m_retrans i') with (m_retrans i). fold (counted m_retrans r). destruct (m_retrans i); lia.
  - apply Forall_cons in v_apart0 as [? ?]. by constructor.
  - rewrite addrs_ok_fmap in *. exact v_addrs0.
  - apply Hh; [lia | rewrite Ez; lia |]. intros j Hj. by right.
Qed.

(** ** The loop *)

Lemma discard_stop fuel now k b : m_size b = 0 \/ k = 0 -> 0 <= k -> discard_loop fuel now k b = Some ([], b).
Proof.
  intros H Hk. assert (negb ((0 <? m_size b) && (0 <? k)) = true) as E.
  { destruct H as [-> | ->]; [done | by rewrite andb_false_r]. }
  destruct fuel; cbn [discard_loop]; by rewrite E.
Qed.

(** One step of the loop, at the head [i]. *)
Lemma discard_step hi una b i r fuel now k : tx_inv hi una b -> m_sentList b = i :: r -> 0 < k < 2 ^ 31 ->
  discard_loop (S fuel) now k b =
    if isize i <=? k then let* (deleted, b') := discard_loop fuel now (k - isize i) (shift una (isize i) i r b) in Some (i :: deleted, b')
    else Some ([], shift una k i (set_start (sq (una + k)) (set_packet (TcpRxBuffer.bytes stream (una + k) (isize i - k)) i) :: r) b).
Proof.
  intros H E Hk. pose proof H as []. destruct (tx_bound isn stream hi una b H) as (? & ? & Hb3). unfold MAX_TX in *. cbn [discard_loop].
  apply laid_app in v_laid0 as [Hl _]. rewrite E in Hl, v_starts0, Hb3. destruct Hl as (Hp & Hpk & _), v_starts0 as [Hst _]. cbn [total foldr] in Hb3. fold (total r) in Hb3.
  pose proof (tx_total_nonneg r). rewrite (proj2 (Z.ltb_lt 0 (m_size b))), (proj2 (Z.ltb_lt 0 k)) by lia. cbn [andb negb]. rewrite E. cbn iota beta. rewrite E.
  rewrite Hst, v_first0, TcpRxBuffer.eq_sq, Z.eqb_refl by (unfold TcpRxBuffer.near; lia). cbn [NS_ASSERT].
  rewrite !seq_add_sq. destruct (Z.leb_spec (isize i) k) as [Hle|Hgt].
  - rewrite (RemoveFromCounts_ok hi una i i r b) by (done || lia). rewrite !u32_small by lia. done.
  - rewrite u32_small by lia. rewrite Hpk at 1. rewrite (TcpRxBuffer.CreateFragment_bytes stream) by lia.
    rewrite (RemoveFromCounts_ok hi una i _ r b) by (done || lia). rewrite !u32_small by lia. done.
Qed.

(** When nothing is left of the data sent, new data is taken. *)
Lemma discard_new hi una b fuel now k : tx_inv hi una b -> m_sentList b = [] -> 0 < m_size b -> 0 < k < 2 ^ 31 ->
  exists i b1, discard_loop (S fuel) now k b = discard_loop (S fuel) now k b1 /\ tx_inv hi una b1 /\ m_sentList b1 = [i] /\ isize i = Z.min k (m_size b) /\
    m_size b1 = m_size b /\ m_highestSack b1 = m_highestSack b /\ m_sackEnabled b1 = m_sackEnabled b /\ m_maxBuffer b1 = m_maxBuffer b.
Proof.
  intros H E Hz Hk. destruct (tx_bound isn stream hi una b H) as (? & ? & Hb3). rewrite E in Hb3. cbn [total foldr] in Hb3.
  destruct (CopyFromSequence_new isn stream hi una b now k H Hk ltac:(lia)) as (a & b1 & i & E1 & Hb1 & Hs & Hi & _ & _ & El & Em & Ex & Eh & Ec).
  rewrite Hb3, Z.add_0_r in E1. rewrite E in El. exists i, b1. split_and!; try done; [| lia].
  cbn [discard_loop]. rewrite Em. rewrite (proj2 (Z.ltb_lt 0 (m_size b))), (proj2 (Z.ltb_lt 0 k)) by lia. cbn [andb negb]. rewrite E.
  rewrite (v_first _ _ _ _ _ H), E1, El. cbn [app]. by rewrite El.
Qed.

(** What is left of the sent items after [k] bytes. *)
Definition left_over (k : Z) (l l' deleted : list TcpTxItem) : Prop :=
  l' = [] \/ exists i i' r, l = deleted ++ i :: r /\ l' = i' :: r /\ sflags i i' /\ total deleted <= k < total deleted + isize i.

Lemma discard_loop_ok hi fuel now una b k : tx_inv hi una b -> 0 <= k < 2 ^ 31 -> (length (m_sentList b) < fuel)%nat ->
  exists deleted b', discard_loop fuel now k b = Some (deleted, b') /\ tx_inv hi (una + Z.min k (m_size b)) b' /\
    m_size b' = m_size b - Z.min k (m_size b) /\ m_highestSack b' = m_highestSack b /\ m_sackEnabled b' = m_sackEnabled b /\ m_maxBuffer b' = m_maxBuffer b /\
    left_over k (m_sentList b) (m_sentList b') deleted.
Proof.
  revert una b k. induction fuel as [|fuel IH]; intros una b k H Hk Hf; [lia |].
  destruct (tx_bound isn stream hi una b H) as (Hb1 & Hb2 & Hb3). destruct (decide (m_size b = 0 \/ k = 0)) as [Hstop|Hgo].
  { rewrite discard_stop by (done || lia). exists [], b. replace (Z.min k (m_size b)) with 0 by lia. rewrite Z.add_0_r. split_and!; try done; [lia |].
    destruct (m_sentList b) as [|i r] eqn:E; [by left | right]. pose proof (v_laid _ _ _ _ _ H) as Hl. apply laid_app in Hl as [Hl _]. rewrite E in Hl. destruct Hl as (Hp & _).
    exists i, i, r. simpl in *. pose proof (tx_total_nonneg r). split_and!; try done; lia. }
  destruct (m_sentList b) as [|i r] eqn:E.
  - cbn [total foldr] in Hb3. destruct (discard_new hi una b fuel now k) as (i & b1 & -> & H1 & E1 & Ez & Hz & Hh & Hc & Hm); [done | done | lia | lia |].
    unfold MAX_TX in *. rewrite (discard_step hi una b1 i []) by (done || lia). rewrite (proj2 (Z.leb_le _ _)) by lia.
    rewrite discard_stop; [| unfold shift; fields; lia | lia]. exists [i], (shift una (isize i) i [] b1). split; [done |].
    pose proof (tx_inv_drop hi una b1 i [] H1 E1) as H2. rewrite Ez in H2 at 1. unfold shift in *; fields. split_and!; try done; [lia | by left].
  - assert (isize i <= m_size b) as Hi by (simpl in Hb3; pose proof (tx_total_nonneg r); lia). unfold MAX_TX in *. pose proof (isize_nonneg i).
    rewrite (discard_step hi una b i r) by (done || lia). destruct (Z.leb_spec (isize i) k) as [Hle|Hgt].
    + destruct (IH (una + isize i) (shift una (isize i) i r b) (k - isize i)) as (deleted & b' & -> & H1 & Hz & Hh & Hc & Hm & Hlo); [by apply tx_inv_drop | lia | simpl in Hf; unfold shift; fields; lia |].
      unfold shift in *; fields. exists (i :: deleted), b'. split; [done |]. replace (una + isize i + Z.min (k - isize i) (m_size b - isize i)) with (una + Z.min k (m_size b)) in H1 by lia.
      split_and!; try done; [lia |]. destruct Hlo as [->|(j & j' & r' & -> & -> & Hj & Hr)]; [by left | right]. exists j, j', r'. simpl. split_and!; try done; lia.
    + destruct (tx_inv_cut hi una b i r k H E ltac:(lia)) as [H1 Hz]. eexists [], _. split; [done |]. replace (Z.min k (m_size b)) with k by lia.
      split_and!; try done. right. eexists i, _, r. split_and!; [done | done | done | simpl; lia | simpl; lia].
Qed.

(** ** Acknowledging *)

(** The mark of a sacked head is taken away. *)
Lemma tx_inv_unsack hi una b hd r : tx_inv hi una b -> m_sentList b = hd :: r -> m_sacked hd = true ->
  tx_inv hi una (set_counts (m_lostOut b) (u32 (m_sackedOut b - isize hd)) (m_retransOut b) (set_lists (m_appList b) (set_sacked false hd :: r) b)).
Proof.
  intros H E Hk. pose proof H as []. destruct (tx_counts isn stream hi una b H) as (? & ? & ? & ? & ?). rewrite E in *. cbn [counted foldr] in v_sacked0. rewrite Hk in v_sacked0.
  fold (counted m_sacked r) in v_sacked0. pose proof (counted_range m_sacked r). pose proof (isize_nonneg hd).
  apply tx_inv_flags with (b := b); try done; fields.
  - rewrite E. by apply same_cons.
  - cbn [counted foldr]. change (m_sacked (set_sacked false hd)) with false. fold (counted m_sacked r). cbn iota. rewrite u32_small; lia.
  - apply Forall_cons in v_apart0 as [? ?]. by constructor.
  - by eapply high_head.
Qed.

Lemma MarkHeadAsLost_keeps b : m_highestSack (MarkHeadAsLost b) = m_highestSack b /\ m_size (MarkHeadAsLost b) = m_size b /\ m_maxBuffer (MarkHeadAsLost b) = m_maxBuffer b.
Proof. unfold MarkHeadAsLost. by destruct (m_sentList b). Qed.

(** The first item sent is not sacked. *)
Definition free_head (b : TcpTxBuffer) : Prop := forall hd r, m_sentList b = hd :: r -> m_sacked hd = false.
Lemma MarkHeadAsLost_head b : free_head (MarkHeadAsLost b).
Proof. unfold free_head, MarkHeadAsLost. destruct (m_sentList b) as [|hd r] eqn:E; [intros hd r E2; by rewrite E in E2 |]. cbn. by intros ? ? [= <- <-]. Qed.

Lemma fix_head_ok hi una b : tx_inv hi una b ->
  (forall hd r, m_sentList b = hd :: r -> m_sacked hd = true -> m_sackEnabled b = false /\ Forall (fun j => m_lost j = false) r) ->
  exists hi' b', fix_head (sq una) b = Some b' /\ tx_inv hi' una b' /\ m_size b' = m_size b /\ m_maxBuffer b' = m_maxBuffer b /\
    (m_highestSack b' = m_highestSack b /\ hi' = hi \/ una < hi' <= una + MAX_TX) /\ free_head b'.
Proof.
  intros H Hhd. pose proof H as []. unfold fix_head. destruct (m_sentList b) as [|hd r] eqn:E; [exists hi, b; split_and!; try done; [by left | by intros ? ? E2; rewrite E in E2] |].
  destruct v_starts0 as [Hst _]. assert (eq (m_startSeq hd) (sq una) = true) as Eeq by (rewrite Hst; apply Z.eqb_refl).
  destruct (m_sacked hd) eqn:Ek; [| rewrite Eeq; exists hi, b; split_and!; try done; [by left | intros ? ? E2; rewrite E in E2; by injection E2 as <- <-]].
  destruct (Hhd hd r eq_refl Ek) as [Hen Hnl]. apply Forall_cons in v_apart0 as [Ha _]. unfold apart in Ha. rewrite Ek in Ha. cbn [andb] in Ha. rewrite Ha. cbn [negb NS_ASSERT].
  pose proof (tx_inv_unsack hi una b hd r H E Ek) as H1. set (b1 := set_counts _ _ _ _) in *.
  destruct (AddRenoSack_ok isn stream hi una b1 H1) as (hi' & b2 & -> & H2 & _ & (_ & _ & Fz & _ & Fm & _) & _ & _ & _ & Hh).
  { subst b1. fields. rewrite Hen. simpl. lia. }
  { intros i l Hi. subst b1. cbn [set_counts set_lists m_sentList tail] in Hi. pose proof (reno_loop_spec r) as Hsp. rewrite Hi in Hsp. destruct Hsp as (p & q & -> & _ & _).
    apply Forall_app in Hnl as [_ Hnl]. by apply Forall_cons in Hnl as [? _]. }
  rewrite Eeq. cbn [NS_ASSERT]. destruct (MarkHeadAsLost_keeps b2) as (M1 & M2 & M3). exists hi', (MarkHeadAsLost b2).
  split_and!; try done; [by apply MarkHeadAsLost_ok | by rewrite M2, Fz | by rewrite M3, Fm | | apply MarkHeadAsLost_head]. rewrite M1. destruct Hh as [[-> ->]|?]; [by left | by right].
Qed.

Lemma tx_inv_fin hi una o b : tx_inv hi una b -> m_size b = 0 -> una <= o -> tx_inv hi o (set_first (sq o) b).
Proof.
  intros H Hz Ho. pose proof H as []. assert (m_sentList b = [] /\ m_appList b = []) as [E1 E2].
  { destruct (m_sentList b ++ m_appList b) eqn:E; [by apply app_eq_nil in E |]. destruct v_laid0 as (Hp & _). simpl in v_size0. pose proof (tx_total_nonneg l). lia. }
  rewrite E1, E2 in *. constructor; fields; rewrite ?E1, ?E2; try done.
  unfold high_ok in *. destruct (m_highestSack b) as [[a|] s]; [| done]. destruct v_high0 as [Es Hh]. split; [done |]. intros Hlt.
  destruct (Hh ltac:(lia)) as (i & _ & Hi & _). by apply elem_of_nil in Hi.
Qed.

(** [b'] is [b] with the bytes before offset [o] gone. *)
Lemma DiscardUpTo_ok hi una b now o : tx_inv hi una b -> live hi una b -> una < o < una + m_size b + MAX_TX ->
  (forall pre i r, m_sentList b = pre ++ i :: r -> total pre <= o - una < total pre + isize i -> m_sacked i = true ->
    m_sackEnabled b = false /\ Forall (fun j => m_lost j = false) r) ->
  exists deleted hi' b', DiscardUpTo now (sq o) b = Some (deleted, b') /\ tx_inv hi' o b' /\ live hi' o b' /\
    m_size b' = Z.max 0 (una + m_size b - o) /\ m_maxBuffer b' = m_maxBuffer b /\ free_head b'.
Proof.
  intros H Hlv Ho Hsk. pose proof H as []. destruct (tx_bound isn stream hi una b H) as (Hb1 & Hb2 & Hb3). unfold DiscardUpTo, MAX_TX in *.
  rewrite v_first0, TcpRxBuffer.ge_sq by (unfold TcpRxBuffer.near; lia). rewrite (proj2 (Z.leb_gt _ _)) by lia.
  rewrite TcpRxBuffer.minus_sq by (unfold TcpRxBuffer.near; lia). rewrite u32_small by lia.
  destruct (discard_loop_ok hi (S (S (length (m_sentList b)))) now una b (o - una)) as (deleted & b1 & -> & H1 & Hz & Hh & Hc & Hm & Hlo); [done | lia | lia |].
  set (b2 := if m_size b1 =? 0 then set_first (sq o) b1 else b1).
  assert (tx_inv hi o b2) as H2.
  { subst b2. destruct (Z.eqb_spec (m_size b1) 0) as [E0|E0]; [apply tx_inv_fin with (una := una + Z.min (o - una) (m_size b)); [done | done | lia] |].
    by replace (una + Z.min (o - una) (m_size b)) with o in H1 by lia. }
  assert (m_sentList b2 = m_sentList b1 /\ m_sackEnabled b2 = m_sackEnabled b1 /\ m_highestSack b2 = m_highestSack b1 /\ m_size b2 = m_size b1 /\ m_maxBuffer b2 = m_maxBuffer b1)
    as (B1 & B2 & B3 & B4 & B5) by (subst b2; by destruct (m_size b1 =? 0)).
  destruct (fix_head_ok hi o b2 H2) as (hi' & b3 & -> & H3 & Fz & Fm & Fh & Ffree).
  { rewrite B1, B2, Hc. intros hd r Er Hk. destruct Hlo as [E0|(i & i' & r' & E1 & E2 & (S1 & _ & _) & Hr)]; [congruence |].
    rewrite E2 in Er. injection Er as -> ->. apply (Hsk deleted i r); [done | done | congruence]. }
  assert (m_size b3 = Z.max 0 (una + m_size b - o)) as Ez by lia. assert (m_maxBuffer b3 = m_maxBuffer b) as Em by congruence.
  set (b4 := if le 32 _ _ then _ else _).
  assert (tx_inv hi' o b4 /\ live hi' o b4 /\ m_size b4 = m_size b3 /\ m_maxBuffer b4 = m_maxBuffer b3 /\ free_head b4) as (H4 & Hl4 & Ez4 & Em4 & Hfree).
  { subst b4. destruct (le 32 (m_highestSack b3).2 (m_firstByteSeq b3)) eqn:Ele; [split_and!; try done; first [by apply (tx_inv_reset isn stream hi') | intros Hx; by destruct Hx] |].
    split_and!; try done. unfold live. intros Hn. destruct Fh as [[Eh ->]|Hgt]; [| lia].
    assert ((m_highestSack b).1 <> None) as Hn0 by (rewrite <- Hh, <- B3, <- Eh; done). specialize (Hlv Hn0).
    unfold high_ok in v_high0. rewrite Eh, B3, Hh, (v_first _ _ _ _ _ H3) in Ele. destruct (m_highestSack b) as [[a|] s]; [| done].
    destruct v_high0 as [-> Hx]. destruct (Hx Hlv) as (_ & x & _ & _ & _ & _ & Hx2). cbn [snd] in Ele.
    rewrite TcpRxBuffer.le_sq in Ele by (unfold TcpRxBuffer.near; lia). lia. }
  rewrite (v_first _ _ _ _ _ H4), TcpRxBuffer.ge_sq by (unfold TcpRxBuffer.near; lia). rewrite Z.leb_refl. cbn [NS_ASSERT].
  destruct (tx_counts isn stream hi' o b4 H4) as (? & ? & ? & ? & ?). rewrite u32_small, (proj2 (Z.leb_le _ _)) by lia. cbn [NS_ASSERT].
  exists deleted, hi', b4. split_and!; try done; congruence.
Qed.

(** An old acknowledgement changes nothing. *)
Lemma DiscardUpTo_old hi una b now o : tx_inv hi una b -> una - MAX_TX <= o <= una -> DiscardUpTo now (sq o) b = Some ([], b).
Proof.
  intros [] Ho. unfold DiscardUpTo, MAX_TX in *. rewrite v_first0, TcpRxBuffer.ge_sq by (unfold TcpRxBuffer.near; lia). by rewrite (proj2 (Z.leb_le _ _)) by lia.
Qed.

End Ack.

End TcpTxAck.
