(* ===== verification/TcpTxSystem.v ===== *)
(** * Runs of the TCP send buffer

    The operations of a connection as data, the conditions it makes them under,
    and the states it reaches. *)

From S2P Require Import Prelude Buffer BufferInv PacketBytes SequenceNumber TcpRxBuffer TcpTxBuffer TcpTxScoreboard TcpTxProps TcpTxInv TcpTxSend TcpTxFlags TcpTxSack TcpTxAck.
Import Buffer BufferInv PacketBytes SequenceNumber TcpTxBuffer TcpTxScoreboard TcpTxProps TcpTxInv TcpTxSend TcpTxFlags TcpTxSack TcpTxAck.

Module TcpTxSystem.

(** Offsets of the stream stand for the sequence numbers of the calls. *)
Inductive tx_op :=
  | OpWrite (p : Packet)
  | OpSend (now n o : Z)
  | OpAck (now o : Z)
  | OpSack (blocks : list (Z * Z))
  | OpReno
  | OpMarkHead
  | OpAllLost (resetSack : bool)
  | OpResetReno
  | OpResetSent
  | OpResetLast
  | OpClearHead.

Section Sys.
Context (isn : Z) {mem : Memory}.
Notation sq := (TcpRxBuffer.sq isn).

(** A buffer as a connection sets it up. *)
Definition tx_new (mb thresh seg : Z) (sack : bool) : TcpTxBuffer :=
  SetSackEnabled sack (SetSegmentSize seg (SetDupAckThresh thresh (SetMaxBufferSize mb (TcpTxBuffer_new (wrap 32 isn))))).

Definition tx_apply (op : tx_op) (b : TcpTxBuffer) : option TcpTxBuffer :=
  match op with
  | OpWrite p => Some (Add p b).2
  | OpSend now n o => let* (_, b') := CopyFromSequence now n (sq o) b in Some b'
  | OpAck now o => let* (_, b') := DiscardUpTo now (sq o) b in Some b'
  | OpSack blocks => let* (_, _, b') := Update (enc isn <$> blocks) b in Some b'
  | OpReno => AddRenoSack b
  | OpMarkHead => Some (MarkHeadAsLost b)
  | OpAllLost resetSack => SetSentListLost resetSack b
  | OpResetReno => Some (ResetRenoSack b)
  | OpResetSent => Some (ResetSentList b)
  | OpResetLast => Some (ResetLastSegmentSent b)
  | OpClearHead => DeleteRetransmittedFlagFromHead b
  end.

(** The first unacknowledged offset after the operation. *)
Definition una_after (una : Z) (op : tx_op) : Z := match op with OpAck _ o => Z.max una o | _ => una end.

(** When a connection makes the call. A request to send starts at the end of the
    data sent or at an item that is not sacked; an acknowledgement that falls into
    a sacked item comes only to a connection without SACK, which has no lost items
    after it; SACK blocks lie above the acknowledged data; the guess of a
    connection without SACK does not fall on a lost item; a segment taken back
    was just sent. *)
Definition allowed (una : Z) (b : TcpTxBuffer) (op : tx_op) : Prop :=
  match op with
  | OpSend _ n o => 0 < n < 2 ^ 31 /\ (o = una + m_sentSize b \/ exists pre cur rest, m_sentList b = pre ++ cur :: rest /\ m_sacked cur = false /\ o = una + total pre /\
      (total pre + Z.min n (m_size b - total pre) <= m_sentSize b \/ (isn + una + total pre) mod 2 ^ 32 + m_size b < 2 ^ 32))
  | OpAck _ o => una - MAX_TX <= o < una + m_size b + MAX_TX /\
      forall pre i r, m_sentList b = pre ++ i :: r -> total pre <= o - una < total pre + isize i -> m_sacked i = true ->
        m_sackEnabled b = false /\ Forall (fun j => m_lost j = false) r
  | OpSack blocks => m_sentList b <> [] /\ Forall (block_ok una) blocks
  | OpReno => (if m_sackEnabled b then 1 < length (m_sentList b) else 0 < length (m_sentList b))%nat /\
      forall i l, reno_loop (tail (m_sentList b)) = Some (i, l) -> m_lost i = false
  | OpResetLast => forall i, last (m_sentList b) = Some i -> clean i
  | _ => True
  end.

Section Stream.
Context (stream : Z -> Z) {HJ : TcpRxBuffer.JoinsPieces stream}.
Notation bytes := (TcpRxBuffer.bytes stream).

(** The application writes the next bytes of the stream. *)
Definition writes (una : Z) (b : TcpTxBuffer) (op : tx_op) : Prop :=
  match op with OpWrite p => p = bytes (una + m_size b) (zlen p) | _ => True end.

Definition good (una : Z) (b : TcpTxBuffer) : Prop := exists hi, tx_inv isn stream hi una b /\ live hi una b /\ free_head b.

Lemma good_new mb thresh seg sack : 0 <= mb <= MAX_TX -> good 0 (tx_new mb thresh seg sack).
Proof.
  intros Hm. exists 0. split; [| by split; [intros Hx; destruct Hx |]]. constructor; cbn; try done.
  - unfold SequenceNumber_of, TcpRxBuffer.sq. by rewrite Z.add_0_r.
  - split; constructor.
Qed.

Lemma free_same b b' : free_head b -> Forall2 (fun i j => m_sacked i = false -> m_sacked j = false) (m_sentList b) (m_sentList b') -> free_head b'.
Proof. intros H Hf hd r E. rewrite E in Hf. inversion Hf as [|i ? l ? Hi ? E2]; subst. apply Hi. by apply (H i l). Qed.

(** ** Every operation keeps the invariant *)

Lemma write_good una b p : good una b -> writes una b (OpWrite p) -> good una (Add p b).2 /\
  m_size (Add p b).2 = (if zlen p <=? m_maxBuffer b - m_size b then m_size b + zlen p else m_size b) /\ m_maxBuffer (Add p b).2 = m_maxBuffer b.
Proof.
  intros (hi & H & Hl & Hf) Hw. cbn in Hw. destruct (tx_Add_ok isn stream hi una b (zlen p) H (zlen_nonneg p)) as (ok & b' & E & -> & H' & Hz & Hs).
  rewrite <- Hw in E. assert (m_maxBuffer (Add p b).2 = m_maxBuffer b /\ m_highestSack (Add p b).2 = m_highestSack b) as [Em Eh] by (unfold Add; repeat case_match; done).
  rewrite E in *. cbn [snd] in *. split_and!; try done. exists hi. split_and!; [done | unfold live in *; by rewrite Eh | unfold free_head; by rewrite Hs].
Qed.

Lemma send_good una b now n o : good una b -> allowed una b (OpSend now n o) -> exists r b', CopyFromSequence now n (sq o) b = Some (r, b') /\ good una b' /\
  m_size b' = m_size b /\ m_maxBuffer b' = m_maxBuffer b /\
  match r with
  | Some a => exists i, find_item a (m_sentList b') = Some i /\ m_startSeq i = sq o /\ m_packet i = bytes o (isize i) /\ 0 < isize i <= n /\ m_sacked i = false /\ m_lastSent i = now /\
      o + isize i <= una + m_size b
  | None => m_sentSize b = m_size b /\ o = una + m_size b
  end.
Proof.
  intros (hi & H & Hl & Hf) [Hn Ha]. destruct (tx_bound isn stream hi una b H) as (Hb1 & _ & _).
  destruct Ha as [->|(pre & cur & rest & E & Hc & -> & Hw)].
  - destruct (Z.eq_dec (m_sentSize b) (m_size b)) as [Es|Es].
    { rewrite Es. rewrite (CopyFromSequence_none isn stream hi una b now n H) by lia. exists None, b. split_and!; try done. by exists hi. }
    destruct (CopyFromSequence_new isn stream hi una b now n H Hn ltac:(lia)) as (a & b' & i & E1 & H' & (F1 & F2 & F3 & F4 & F5 & _) & Hi & Hcl & Hnow & Hs & Hz & Hm & Hh & _).
    exists (Some a), b'. split_and!; try done.
    + exists hi. split_and!; [done | unfold live in *; by rewrite Hh |]. intros hd r Er. rewrite Hs in Er. destruct (m_sentList b) as [|h l] eqn:El.
      * injection Er as <- <-. done.
      * injection Er as <- <-. by apply (Hf h l).
    + exists i. split_and!; try done; lia.
  - destruct (CopyFromSequence_sent isn stream hi una b now n pre cur rest H E Hc Hn Hw) as (a & b' & i & E1 & H' & (F1 & F2 & F3 & F4 & F5 & _) & Hi & Hr & Hnow & (_ & _ & Hz & _ & Hm & _) & (post & Hs) & Hh).
    exists (Some a), b'. split_and!; try done.
    + exists hi. split_and!; [done | unfold live in *; by rewrite Hh |]. intros hd r Er. rewrite Hs in Er. destruct pre as [|h l]; [by injection Er as <- <- |].
      injection Er as <- <-. apply (Hf h (l ++ cur :: rest)). done.
    + exists i. split_and!; try done. destruct (tx_bound isn stream hi una b' H') as (Hx1 & _ & Hx2). rewrite Hs, total_app in Hx2. cbn [total foldr] in Hx2. fold (total post) in Hx2.
      pose proof (tx_total_nonneg post). cbn [set_next_addr m_size] in Hz. lia.
Qed.

Lemma ack_good una b now o : good una b -> allowed una b (OpAck now o) -> exists d b', DiscardUpTo now (sq o) b = Some (d, b') /\ good (Z.max una o) b' /\
  m_size b' = (if o <=? una then m_size b else Z.max 0 (una + m_size b - o)) /\ m_maxBuffer b' = m_maxBuffer b.
Proof.
  intros (hi & H & Hl & Hf) [Ho Hs]. destruct (Z.leb_spec o una) as [Hle|Hgt].
  - rewrite (DiscardUpTo_old isn stream hi una b now o H) by lia. exists [], b. rewrite Z.max_l by lia. split_and!; try done. by exists hi.
  - destruct (DiscardUpTo_ok isn stream hi una b now o H Hl ltac:(lia) Hs) as (d & hi' & b' & E & H' & Hl' & Hz & Hm & Hf'). exists d, b'.
    rewrite Z.max_r by lia. split_and!; try done. by exists hi'.
Qed.

(** The operations that change flags only. *)
Definition flag_op (op : tx_op) : bool := match op with OpWrite _ | OpSend _ _ _ | OpAck _ _ => false | _ => true end.

Lemma good_frame una b b' hi : tx_inv isn stream hi una b' -> live hi una b' -> free_head b' -> frame b b' -> good una b' /\ m_size b' = m_size b /\ m_maxBuffer b' = m_maxBuffer b.
Proof. intros H1 H2 H3 (_ & _ & ? & _ & ? & _). split_and!; try done. by exists hi. Qed.

Lemma sack_good una b blocks : good una b -> allowed una b (OpSack blocks) -> exists new called b', Update (enc isn <$> blocks) b = Some (new, called, b') /\
  good una b' /\ m_size b' = m_size b /\ m_maxBuffer b' = m_maxBuffer b.
Proof.
  intros (hi & H & Hl & Hf) [Hne Hb]. destruct (m_sentList b) as [|hd r] eqn:E; [done |].
  destruct (Update_ok isn stream hi una b hd r blocks H Hl E (Hf hd r E) Hb) as (hi' & b' & called & EU & H' & Hl' & _ & (hd' & r' & E' & Hk) & Hfr & _).
  eexists _, called, b'. split; [done |]. apply good_frame with (hi := hi'); try done. intros h l El. rewrite E' in El. by injection El as <- <-.
Qed.

Lemma reno_good una b : good una b -> allowed una b OpReno -> exists b', AddRenoSack b = Some b' /\ good una b' /\ m_size b' = m_size b /\ m_maxBuffer b' = m_maxBuffer b.
Proof.
  intros (hi & H & Hl & Hf) [Hlen Hnl].
  destruct (AddRenoSack_ok isn stream hi una b H Hlen Hnl) as (hi' & b' & E & H' & _ & Hfr & Hhd & _ & _ & Hhi). exists b'. split; [done |].
  apply good_frame with (hi := hi'); try done; [unfold live in *; destruct Hhi as [[-> ->]|?]; [done | lia] |].
  intros h l El. rewrite El in Hhd. destruct (m_sentList b) as [|h0 l0] eqn:E0; [done |]. injection Hhd as ->. by apply (Hf h0 l0).
Qed.

Lemma lost_good una b resetSack : good una b -> exists b', SetSentListLost resetSack b = Some b' /\ good una b' /\ m_size b' = m_size b /\ m_maxBuffer b' = m_maxBuffer b.
Proof.
  intros (hi & H & Hl & Hf). destruct (SetSentListLost_ok isn stream hi una b resetSack H) as (b' & E & H' & _). exists b'. split; [done |].
  assert (frame b b' /\ (m_highestSack b' = m_highestSack b \/ (m_highestSack b').1 = None) /\
    Forall2 (fun i j => m_sacked i = false -> m_sacked j = false) (m_sentList b) (m_sentList b')) as (Hfr & Hh & Hs).
  { unfold SetSentListLost in E. destruct resetSack, (_ <=? _); try done; injection E as <-; (split; [done | split; [cbn; tauto |]]); cbn [m_sentList set_counts set_lists reset_highest set_highest];
      apply Forall2_fmap_r, Forall_Forall2_diag, Forall_true; intros i; [done |]. intros Hi. by rewrite (proj1 (proj2 (proj2 (lose_flags i)))). }
  apply good_frame with (hi := hi); try done; [| by eapply free_same]. unfold live in *. destruct Hh as [->| ->]; done.
Qed.

Lemma flag_good una b op : good una b -> allowed una b op -> flag_op op = true ->
  exists b', tx_apply op b = Some b' /\ good una b' /\ m_size b' = m_size b /\ m_maxBuffer b' = m_maxBuffer b.
Proof.
  intros Hg Ha Hop. destruct op as [| | |blocks| | |resetSack| | | |]; try done; cbn [tx_apply].
  - destruct (sack_good una b blocks Hg Ha) as (new & called & b' & -> & ?). by exists b'.
  - by apply reno_good.
  - destruct Hg as (hi & H & Hl & Hf). eexists. split; [done |]. apply good_frame with (hi := hi); [by apply MarkHeadAsLost_ok | | apply MarkHeadAsLost_head |].
    + unfold live in *. by rewrite (proj1 (MarkHeadAsLost_keeps b)).
    + unfold MarkHeadAsLost. by destruct (m_sentList b).
  - by apply lost_good.
  - destruct Hg as (hi & H & Hl & Hf). eexists. split; [done |]. apply good_frame with (hi := hi); [by apply ResetRenoSack_ok | by intros Hx; destruct Hx | | done].
    intros hd r E. cbn [ResetRenoSack reset_highest set_highest set_counts set_lists m_sentList] in E. destruct (m_sentList b); [done |]. by injection E as <- _.
  - destruct Hg as (hi & H & Hl & Hf). eexists. split; [done |]. destruct (ResetSentList_ok isn stream hi una b H) as [H' E]. split_and!; try done.
    exists hi. split_and!; [done | by intros Hx; destruct Hx |]. by intros hd r.
  - destruct Hg as (hi & H & Hl & Hf). eexists. split; [done |]. pose proof (ResetLastSegmentSent_ok isn stream hi una b H Ha) as H'.
    assert (m_size (ResetLastSegmentSent b) = m_size b /\ m_maxBuffer (ResetLastSegmentSent b) = m_maxBuffer b /\ m_highestSack (ResetLastSegmentSent b) = m_highestSack b /\
      (forall hd r, m_sentList (ResetLastSegmentSent b) = hd :: r -> exists r', m_sentList b = hd :: r')) as (? & ? & Eh & Hs).
    { unfold ResetLastSegmentSent. destruct (last (m_sentList b)) as [i|] eqn:E; [| split_and!; try done; intros hd r ->; by eexists]. apply last_split in E. split_and!; try done.
      cbn [set_counts set_sizes set_lists m_sentList]. intros hd r Er. rewrite Er in E. by eexists. }
    split_and!; try done. exists hi. split_and!; [done | unfold live in *; by rewrite Eh |]. intros hd r E. destruct (Hs hd r E) as (r' & E'). by apply (Hf hd r').
  - destruct Hg as (hi & H & Hl & Hf). destruct (DeleteRetransmittedFlagFromHead_ok isn stream hi una b H) as (b' & E & H'). exists b'. split; [done |].
    assert (frame b b' /\ m_highestSack b' = m_highestSack b /\ free_head b') as (Hfr & Eh & Hf').
    { unfold DeleteRetransmittedFlagFromHead in E. destruct (m_sentSize b =? 0); [by injection E as <- |]. destruct (m_sentList b) as [|hd r] eqn:Es; [done |].
      destruct (m_retrans hd); injection E as <-; split_and!; try done. intros h l El. cbn in El. injection El as <- <-. by apply (Hf hd r). }
    apply good_frame with (hi := hi); try done. unfold live in *. by rewrite Eh.
Qed.

Lemma op_good una b op : good una b -> allowed una b op -> writes una b op ->
  exists b', tx_apply op b = Some b' /\ good (una_after una op) b' /\ m_maxBuffer b' = m_maxBuffer b.
Proof.
  intros Hg Ha Hw. destruct (flag_op op) eqn:Ef.
  - destruct (flag_good una b op Hg Ha Ef) as (b' & E & Hg' & _ & Hm). exists b'. split_and!; try done. by destruct op.
  - destruct op as [p|now n o|now o| | | | | | | |]; try done; cbn [tx_apply una_after].
    + destruct (write_good una b p Hg Hw) as (Hg' & _ & Hm). by exists (Add p b).2.
    + destruct (send_good una b now n o Hg Ha) as (r & b' & -> & Hg' & _ & Hm & _). by exists b'.
    + destruct (ack_good una b now o Hg Ha) as (d & b' & -> & Hg' & _ & Hm). by exists b'.
Qed.

(** The states of a buffer of capacity [mb] whose application writes the stream:
    the first unacknowledged offset and the buffer. *)
Inductive tx_reach (mb : Z) : Z -> TcpTxBuffer -> Prop :=
  | tx_start thresh seg sack : 0 <= mb <= MAX_TX -> tx_reach mb 0 (tx_new mb thresh seg sack)
  | tx_next una b op b' : tx_reach mb una b -> allowed una b op -> writes una b op -> tx_apply op b = Some b' ->
      tx_reach mb (una_after una op) b'.

Lemma reach_good mb una b : tx_reach mb una b -> good una b.
Proof.
  induction 1 as [thresh seg sack Hm|una b op b' _ IH Ha Hw E]; [by apply good_new |].
  destruct (op_good una b op IH Ha Hw) as (b2 & E2 & H & _). rewrite E in E2. by injection E2 as <-.
Qed.

(** The bytes in the buffer. *)
Definition contents (b : TcpTxBuffer) : list Z := concat (m_packet <$> (m_sentList b ++ m_appList b)).
Lemma laid_concat o l : laid stream o l -> concat (m_packet <$> l) = bytes o (total l).
Proof.
  revert o. induction l as [|i l IH]; intros o; [done |]. rewrite fmap_cons. cbn [TcpTxProps.laid total foldr concat]. fold (total l). intros (_ & Hp & Hl).
  rewrite (IH _ Hl), <- (TcpRxBuffer.bytes_app stream) by (apply isize_nonneg || apply tx_total_nonneg). rewrite Hp at 1. done.
Qed.
Lemma good_contents una b : good una b -> contents b = bytes una (m_size b) /\ 0 <= m_size b.
Proof.
  intros (hi & H & _). destruct (tx_bound isn stream hi una b H) as (? & ? & _). destruct H. unfold contents. rewrite (laid_concat una) by done. rewrite <- v_size0. split; [done | lia].
Qed.

(** ** What to send next *)

(** [o] is the start of an item that was not sacked and not sent again. *)
Definition resendable (una : Z) (b : TcpTxBuffer) (o : Z) : Prop :=
  exists pre cur rest, m_sentList b = pre ++ cur :: rest /\ o = una + total pre /\ m_sacked cur = false /\ m_retrans cur = false.

Lemma next_loop_spec rec o pre l r3 v3 full una : full = pre ++ l -> o = una + total pre ->
  let at_item s (lost : bool) := exists p i q, full = p ++ i :: q /\ s = sq (una + total p) /\ m_sacked i = false /\ m_retrans i = false /\ (lost = true -> m_lost i = true) in
  (v3 = true -> at_item r3 false) ->
  match next_loop rec (sq o) r3 v3 l with
  | inl s => at_item s true
  | inr (r, v) => v = true -> at_item r false
  end.
Proof.
  intros E Eo at_item. revert o pre r3 v3 E Eo. induction l as [|i l IH]; intros o pre r3 v3 E Eo Hv; cbn [next_loop]; [done |].
  rewrite seq_add_sq.
  assert (full = (pre ++ [i]) ++ l /\ o + isize i = una + total (pre ++ [i])) as [E1 E2].
  { rewrite <- app_assoc, total_app. cbn [total foldr]. split; [done | lia]. }
  destruct (m_retrans i) eqn:Er, (m_sacked i) eqn:Ek; cbn [negb andb]; try by apply (IH _ (pre ++ [i])).
  assert (forall lost : bool, (lost = true -> m_lost i = true) -> at_item (sq o) lost) as Hat by (intros lost Hlost; exists pre, i, l; split_and!; try done; by rewrite Eo).
  destruct (m_lost i) eqn:El; [by apply Hat |]. destruct ((GetValue r3 =? 0) && rec); apply (IH _ (pre ++ [i])); try done. intros _. by apply Hat.
Qed.

Lemma NextSeg_ok una b rWnd rec : good una b -> exists r, NextSeg rWnd rec b = Some r /\
  match r with
  | Some (s, e) => exists o, s = sq o /\ (resendable una b o \/ o = una + m_sentSize b /\ m_sentSize b < m_size b /\ m_sentSize b < rWnd)
  | None => m_sentSize b = m_size b \/ rWnd <= m_sentSize b
  end.
Proof.
  intros (hi & H & _ & _). pose proof H as []. destruct (tx_bound isn stream hi una b H) as (? & ? & _). unfold NextSeg. rewrite v_first0.
  pose proof (next_loop_spec rec una [] (m_sentList b) SequenceNumber_default false (m_sentList b) una eq_refl ltac:(simpl; lia) ltac:(done)) as Hs.
  destruct (next_loop _ _ _ _ _) as [s|[r3 v3]].
  { destruct Hs as (p & i & q & E & -> & Hk & Hr & _). eexists. split; [done |]. exists (una + total p). split; [done |]. left. exists p, i, q. done. }
  rewrite seq_add_sq, (SizeFromSequence_ok isn stream hi una b) by (done || lia). destruct (Z.ltb_spec 0 (una + m_size b - (una + m_sentSize b))) as [Hp|Hz].
  - destruct (Z.ltb_spec (m_sentSize b) rWnd); eexists; (split; [done |]); cbn iota; [| lia]. exists (una + m_sentSize b). split; [done |]. right. lia.
  - destruct v3; eexists; (split; [done |]); cbn iota; [| lia]. destruct (Hs eq_refl) as (p & i & q & E & -> & Hk & Hr & _). exists (una + total p). split; [done |]. left. by exists p, i, q.
Qed.

(** ** Properties *)

(** C30: every segment a connection takes from the buffer, new or again, starts
    at the number asked for, has at most the size asked for, is not sacked and
    carries the bytes the application wrote at that place of the stream; nothing
    is returned only when there is no more data.
    The packets lie in memory so that [Packet::AddAtEnd] joins consecutive pieces of the
    stream ([JoinsPieces]), and a request to send that starts in data already sent and
    reaches beyond it does not span the end of the 32-bit numbers, where the code
    compares them unwrapped ([allowed]). *)
Theorem tx_segments_carry_stream mb una b now n o : tx_reach mb una b -> allowed una b (OpSend now n o) ->
  exists r b', CopyFromSequence now n (sq o) b = Some (r, b') /\ tx_reach mb una b' /\
  match r with
  | Some a => exists i, find_item a (m_sentList b') = Some i /\ m_startSeq i = sq o /\ m_packet i = bytes o (isize i) /\ 0 < isize i <= n /\
      m_sacked i = false /\ m_lastSent i = now
  | None => o = una + Size b
  end.
Proof.
  intros Hr Ha. destruct (send_good una b now n o (reach_good mb una b Hr) Ha) as (r & b' & E & _ & _ & _ & Hm). exists r, b'. split_and!; try done.
  - apply (tx_next mb una b (OpSend now n o)); try done. cbn [tx_apply]. by rewrite E.
  - destruct r; [destruct Hm as (i & ? & ? & ? & ? & ? & ? & _); by exists i | apply Hm].
Qed.

(** C31: no operation a connection makes on its send buffer runs into an
    assertion, whatever the order of writes, transmissions, acknowledgements,
    SACK blocks, duplicate acknowledgements, timeouts and probes; the counts of
    lost, sacked and retransmitted bytes are those of the marked items, no item
    is both sacked and lost, and the bytes in flight are the bytes sent that are
    neither, plus those sent again.
    The packets lie in memory so that [Packet::AddAtEnd] joins consecutive pieces of the
    stream ([JoinsPieces]), and a request to send that starts in data already sent and
    reaches beyond it does not span the end of the 32-bit numbers, where the code
    compares them unwrapped ([allowed]). *)
Theorem tx_counters_exact mb una b : tx_reach mb una b ->
  (forall op, allowed una b op -> writes una b op -> is_Some (tx_apply op b)) /\
  GetLost b = counted m_lost (m_sentList b) /\ GetSacked b = counted m_sacked (m_sentList b) /\ GetRetransmitsCount b = counted m_retrans (m_sentList b) /\
  (forall i, i ∈ m_sentList b -> m_sacked i && m_lost i = false) /\
  BytesInFlight b = Some (counted (fun i => negb (m_sacked i) && negb (m_lost i)) (m_sentList b) + counted m_retrans (m_sentList b)).
Proof.
  intros Hr. pose proof (reach_good mb una b Hr) as Hg. split.
  - intros op Ha Hw. destruct (op_good una b op Hg Ha Hw) as (b' & -> & _). done.
  - destruct Hg as (hi & H & _). pose proof H as []. split_and!; try done; [| by apply (BytesInFlight_ok isn stream hi una)].
    intros i Hi. rewrite Forall_forall in v_apart0. by apply v_apart0.
Qed.

(** The buffer holds exactly the bytes of the stream from the first
    unacknowledged one on, and an acknowledgement removes exactly the bytes
    before its number: part of an item, several items, or data that the sender
    had taken back from the sent list. *)
Theorem tx_ack_frees_exactly mb una b now o : tx_reach mb una b -> allowed una b (OpAck now o) ->
  exists deleted b', DiscardUpTo now (sq o) b = Some (deleted, b') /\ tx_reach mb (Z.max una o) b' /\
    contents b = bytes una (Size b) /\ contents b' = drop (Z.to_nat (o - una)) (contents b) /\
    HeadSequence b' = sq (Z.max una o).
Proof.
  intros Hr Ha. pose proof (reach_good mb una b Hr) as Hg. destruct (ack_good una b now o Hg Ha) as (d & b' & E & Hg' & Hz & _). exists d, b'.
  destruct (good_contents _ _ Hg) as [Hc Hn]. destruct (good_contents _ _ Hg') as [Hc' _]. split_and!; try done.
  - apply (tx_next mb una b (OpAck now o)); try done. cbn [tx_apply]. by rewrite E.
  - rewrite Hc, Hc', Hz. destruct (Z.leb_spec o una) as [Hle|Hgt].
    + rewrite Z.max_l by lia. replace (Z.to_nat (o - una)) with 0%nat by lia. done.
    + rewrite Z.max_r by lia. destruct (Z.le_gt_cases (o - una) (m_size b)) as [Hin|Hout].
      * rewrite Z.max_r by lia. pose proof (RemoveAtStart_bytes stream una (m_size b) (o - una) ltac:(lia)) as Hd. unfold RemoveAtStart in Hd.
        rewrite Hd. f_equal; lia.
      * rewrite Z.max_l by lia. rewrite drop_ge; [done |]. pose proof (TcpRxBuffer.bytes_size stream una (m_size b) Hn). unfold zlen in *. lia.
  - destruct Hg' as (hi & [] & _). done.
Qed.

(** SACK blocks mark exactly the items that lie inside one of them (up to the
    first block beyond the data sent), the number returned is that of the bytes
    newly marked, and when there are any, the items that are not sacked and have
    the threshold of sacked items between them and the highest SACK become lost. *)
Theorem Update_marks_blocks mb una b blocks : tx_reach mb una b -> allowed una b (OpSack blocks) ->
  let sent1 := sacked_by_all una (reached (una + m_sentSize b) blocks) (m_sentList b) in
  let new := counted m_sacked sent1 - GetSacked b in
  exists called b', Update (enc isn <$> blocks) b = Some (new, called, b') /\ tx_reach mb una b' /\ 0 <= new /\
    (m_sentList b' = sent1 \/ 0 < new /\ exists k, m_sentList b' = lost_by (m_dupAckThresh b) 0 (take (S k) sent1) ++ drop (S k) sent1 /\
      (let* a := (m_highestSack b').1 in position a sent1) = Some k).
Proof.
  intros Hr Ha sent1 new. destruct (reach_good mb una b Hr) as (hi & H & Hl & Hf). pose proof Ha as [Hne Hb].
  destruct (m_sentList b) as [|hd r] eqn:E; [done |].
  destruct (Update_ok isn stream hi una b hd r blocks H Hl E (Hf hd r E) Hb) as (hi' & b' & called & EU & _ & _ & Hnew & _ & _ & Hsh).
  rewrite E in EU, Hnew, Hsh. exists called, b'. split_and!; try done. apply (tx_next mb una b (OpSack blocks)); try done. cbn [tx_apply]. by rewrite EU.
Qed.

(** [NextSeg] always answers, and what it names can be sent: the start of an
    item that is neither sacked nor sent again, or the end of the data sent when
    there is new data and the window is open; it names nothing only when there
    is no new data or the window is closed. *)
Theorem NextSeg_sendable mb una b rWnd isRecovery : tx_reach mb una b ->
  exists r, NextSeg rWnd isRecovery b = Some r /\
  match r with
  | Some (s, e) => exists o, s = sq o /\ (resendable una b o \/ o = una + m_sentSize b /\ m_sentSize b < Size b /\ m_sentSize b < rWnd)
  | None => m_sentSize b = Size b \/ rWnd <= m_sentSize b
  end.
Proof. intros Hr. by apply NextSeg_ok, (reach_good mb). Qed.

End Stream.
End Sys.

End TcpTxSystem.
