(* ===== verification/TcpTransfer.v ===== *)
(** * Transfer of a byte stream

    A send buffer and a receive buffer joined by a network that loses, repeats
    and reorders segments and acknowledgements: what the reader takes out is
    what the writer put in. *)

From S2P Require Import Prelude Buffer BufferInv SequenceNumber PacketBytes TcpRxBuffer TcpRxProps TcpTxBuffer TcpTxScoreboard TcpTxProps TcpTxInv TcpTxSack TcpTxSystem.

Import Buffer BufferInv PacketBytes SequenceNumber TcpTxBuffer TcpTxSystem.

Module TcpTransfer.

Notation W := TcpRxProps.W.

(** The two buffers, the segments and the acknowledgements sent so far (a lost one
    is never picked, a repeated one is picked twice), the first unacknowledged
    offset, and the bytes written and read. Segments and acknowledgements keep the
    offset in the stream of their number, which says how old they are. *)
Record net := mkNet {
  n_tx : TcpTxBuffer;
  n_rx : TcpRxBuffer.TcpRxBuffer;
  n_una : Z;
  n_wire : list (Z * SequenceNumber * Packet);
  n_acks : list (Z * SequenceNumber);
  n_in : list Z;
  n_out : list Z
}.

Section Net.
Context (isn : Z) {mem : Memory}.
Notation sq := (TcpRxBuffer.sq isn).

Definition net_new (txmax rxmax thresh seg : Z) (sack : bool) : net :=
  mkNet (tx_new isn txmax thresh seg sack) (TcpRxBuffer.SetMaxBufferSize rxmax (TcpRxBuffer.TcpRxBuffer_new (wrap 32 isn))) 0 [] [] [] [].

(** A segment that arrives is not older than the window of numbers the receiver
    tells apart, and within the receiver's reach. *)
Definition in_window (out : list Z) (o : Z) (p : Packet) : Prop := zlen out - W <= o /\ o + zlen p <= zlen out + W.

Inductive net_step : net -> net -> Prop :=
  | ns_write st p ok tx : Add p (n_tx st) = (ok, tx) ->
      net_step st (mkNet tx (n_rx st) (n_una st) (n_wire st) (n_acks st) (if ok then n_in st ++ p else n_in st) (n_out st))
  | ns_send st now n o a tx i : allowed isn (n_una st) (n_tx st) (OpSend now n o) -> CopyFromSequence now n (sq o) (n_tx st) = Some (Some a, tx) ->
      find_item a (m_sentList tx) = Some i ->
      net_step st (mkNet tx (n_rx st) (n_una st) ((o, m_startSeq i, m_packet i) :: n_wire st) (n_acks st) (n_in st) (n_out st))
  | ns_flags st op tx : flag_op op = true -> allowed isn (n_una st) (n_tx st) op -> tx_apply isn op (n_tx st) = Some tx ->
      net_step st (mkNet tx (n_rx st) (n_una st) (n_wire st) (n_acks st) (n_in st) (n_out st))
  | ns_deliver st o s p r rx : (o, s, p) ∈ n_wire st -> in_window (n_out st) o p -> TcpRxBuffer.Add p s (n_rx st) = Some (r, rx) ->
      net_step st (mkNet (n_tx st) rx (n_una st) (n_wire st) ((zlen (n_out st) + TcpRxBuffer.Available rx, TcpRxBuffer.NextRxSequence rx) :: n_acks st) (n_in st) (n_out st))
  | ns_read st max p rx : 0 <= max < 2 ^ 32 -> TcpRxBuffer.Extract max (n_rx st) = Some (p, rx) ->
      net_step st (mkNet (n_tx st) rx (n_una st) (n_wire st) (n_acks st) (n_in st) (n_out st ++ default [] p))
  | ns_ack st now o a d tx : (o, a) ∈ n_acks st -> allowed isn (n_una st) (n_tx st) (OpAck now o) -> TcpTxScoreboard.DiscardUpTo now a (n_tx st) = Some (d, tx) ->
      net_step st (mkNet tx (n_rx st) (Z.max (n_una st) o) (n_wire st) (n_acks st) (n_in st) (n_out st)).

Inductive net_reach (txmax rxmax : Z) : net -> Prop :=
  | nr_start thresh seg sack : 0 <= txmax <= TcpTxProps.MAX_TX -> 0 <= rxmax <= W -> net_reach txmax rxmax (net_new txmax rxmax thresh seg sack)
  | nr_step st st' : net_reach txmax rxmax st -> net_step st st' -> net_reach txmax rxmax st'.

(** ** The invariant *)

Section Stream.
Context (stream : Z -> Z) {HJ : TcpRxBuffer.JoinsPieces stream}.
Notation bytes := (TcpRxBuffer.bytes stream).

Record net_inv (st : net) : Prop := mkNetInv {
  ni_tx : good isn stream (n_una st) (n_tx st);
  ni_in : zlen (n_in st) = n_una st + m_size (n_tx st);
  ni_rx : exists N segs sacks, TcpRxProps.rx_inv isn stream (zlen (n_in st)) (zlen (n_out st)) N segs sacks (n_rx st) /\ 0 <= n_una st <= N /\
    Forall (fun e => e.2 = sq e.1 /\ e.1 <= N) (n_acks st);
  ni_fin : TcpRxBuffer.m_gotFin (n_rx st) = false;
  ni_wire : Forall (fun e => e.1.2 = sq e.1.1 /\ e.2 = bytes e.1.1 (zlen e.2) /\ e.1.1 + zlen e.2 <= zlen (n_in st)) (n_wire st);
  ni_out : n_out st = bytes 0 (zlen (n_out st))
}.

Lemma rx_inv_grow L L' R N segs sacks b : TcpRxProps.rx_inv isn stream L R N segs sacks b -> TcpRxBuffer.m_gotFin b = false -> L <= L' ->
  TcpRxProps.rx_inv isn stream L' R N segs sacks b.
Proof.
  intros [] Hf HL. constructor; try done.
  - by rewrite Hf in *.
  - by rewrite Hf.
  - eapply TcpRxProps.laid_weaken; [done | lia | lia].
  - lia.
Qed.

Lemma bytes_split (l1 l2 : list Z) : l1 ++ l2 = bytes 0 (zlen (l1 ++ l2)) -> l1 = bytes 0 (zlen l1) /\ l2 = bytes (zlen l1) (zlen l2).
Proof.
  rewrite zlen_app, <- (TcpRxBuffer.bytes_app stream) by apply zlen_nonneg. intros E. rewrite Z.add_0_l in E.
  apply app_inj_1 in E as [? ?]; [done |]. pose proof (TcpRxBuffer.bytes_size stream 0 (zlen l1) (zlen_nonneg l1)). unfold zlen in *. lia.
Qed.

Lemma net_new_inv txmax rxmax thresh seg sack : 0 <= txmax <= TcpTxProps.MAX_TX -> 0 <= rxmax <= W -> net_inv (net_new txmax rxmax thresh seg sack).
Proof.
  intros Ht Hr. constructor; cbn; try done; [by apply good_new |]. exists 0, [], []. split_and!; try done. by apply TcpRxProps.init_inv.
Qed.

Lemma Add_result p b ok b' : Add p b = (ok, b') -> (ok = false -> b' = b) /\ (ok = true -> zlen p <= Available b).
Proof.
  unfold Add. destruct (Z.leb_spec (GetSize p) (Available b)) as [Hle|Hgt]; [| by intros [= <- <-]].
  destruct (0 <? GetSize p); intros [= <- <-]; done.
Qed.

Lemma write_inv st p ok tx : net_inv st -> Add p (n_tx st) = (ok, tx) -> p = bytes (zlen (n_in st)) (zlen p) \/ ok = false ->
  net_inv (mkNet tx (n_rx st) (n_una st) (n_wire st) (n_acks st) (if ok then n_in st ++ p else n_in st) (n_out st)).
Proof.
  intros Hinv E Hp. destruct (Add_result p _ ok tx E) as [Hno Hyes]. destruct ok; [| rewrite (Hno eq_refl); by destruct st].
  destruct Hp as [Hp|?]; [| done]. destruct Hinv as [Htx Hin (N & segs & sacks & Hrx & Hu & Hac) Hfin Hw Ho]. specialize (Hyes eq_refl).
  pose proof Htx as (hi & Hti & _). rewrite (TcpTxSend.TcpTxSend.Available_ok isn stream hi (n_una st)) in Hyes by done.
  destruct (write_good isn stream (n_una st) (n_tx st) p Htx) as (Hg & Hz & _); [cbn; by rewrite <- Hin |]. rewrite E in Hg, Hz. cbn [snd] in Hg, Hz.
  rewrite (proj2 (Z.leb_le _ _)) in Hz by lia. pose proof (zlen_nonneg p) as Hzp. constructor; cbn [n_tx n_rx n_una n_wire n_acks n_in n_out]; rewrite ?zlen_app; try done.
  - lia.
  - exists N, segs, sacks. split_and!; try done; try lia. apply rx_inv_grow with (L := zlen (n_in st)); [done | done | lia].
  - eapply Forall_impl; [exact Hw |]. cbn beta. intros e (? & ? & ?). split_and!; try done. lia.
Qed.

Lemma send_inv st now n o a tx i : net_inv st -> allowed isn (n_una st) (n_tx st) (OpSend now n o) -> CopyFromSequence now n (sq o) (n_tx st) = Some (Some a, tx) ->
  find_item a (m_sentList tx) = Some i ->
  net_inv (mkNet tx (n_rx st) (n_una st) ((o, m_startSeq i, m_packet i) :: n_wire st) (n_acks st) (n_in st) (n_out st)).
Proof.
  intros [Htx Hin Hrx Hfin Hw Ho] Ha E Ef. destruct (send_good isn stream (n_una st) (n_tx st) now n o Htx Ha) as (r & tx' & E' & Hg & Hz & _ & Hi).
  rewrite E in E'. injection E' as <- <-. destruct Hi as (i' & Ef' & Hs & Hp & Hsz & _ & _ & Hr). rewrite Ef in Ef'. injection Ef' as <-.
  constructor; cbn [n_tx n_rx n_una n_wire n_acks n_in n_out]; try done; [lia |]. constructor; [| done]. cbn [fst snd]. split_and!; try done.
  change (zlen (m_packet i)) with (isize i). lia.
Qed.

Lemma flags_inv st op tx : net_inv st -> flag_op op = true -> allowed isn (n_una st) (n_tx st) op -> tx_apply isn op (n_tx st) = Some tx ->
  net_inv (mkNet tx (n_rx st) (n_una st) (n_wire st) (n_acks st) (n_in st) (n_out st)).
Proof.
  intros [Htx Hin Hrx Hfin Hw Ho] Hf Ha E. destruct (flag_good isn stream (n_una st) (n_tx st) op Htx Ha Hf) as (tx' & E' & Hg & Hz & _).
  rewrite E in E'. injection E' as <-. constructor; cbn [n_tx n_rx n_una n_wire n_acks n_in n_out]; try done. lia.
Qed.

Lemma deliver_inv st o s p r rx : net_inv st -> (o, s, p) ∈ n_wire st -> in_window (n_out st) o p -> TcpRxBuffer.Add p s (n_rx st) = Some (r, rx) ->
  net_inv (mkNet (n_tx st) rx (n_una st) (n_wire st) ((zlen (n_out st) + TcpRxBuffer.Available rx, TcpRxBuffer.NextRxSequence rx) :: n_acks st) (n_in st) (n_out st)).
Proof.
  intros [Htx Hin (N & segs & sacks & Hrx & Hu & Hac) Hfin Hw Ho] Hel [Hlo Hhi] E. rewrite Forall_forall in Hw. destruct (Hw _ Hel) as (Es & Ep & Hle). cbn [fst snd] in *.
  rewrite Es, Ep in E.
  destruct (TcpRxProps.Add_inv isn stream _ _ _ _ _ _ o (zlen p) Hrx Hlo (zlen_nonneg p) ltac:(lia)) as (r' & rx' & N' & segs' & sacks' & E' & Hrx' & _ & Hf' & Hcov & _).
  rewrite E in E'. injection E' as <- <-. rewrite Hfin in Hf'.
  assert (N <= N') as HN.
  { destruct (Z.le_gt_cases N N') as [?|Hgt]; [done | exfalso]. apply (TcpRxProps.cut_not_held N' segs'); [by destruct Hrx' |]. apply Hcov. left.
    destruct Hrx as [_ _ _ _ _ _ Hh _ _ _ _ _ _]. apply Hh. destruct Hrx' as [_ _ _ _ Hpos _ _ _ _ _ _ _ _]. lia. }
  assert (TcpRxBuffer.m_nextRxSeq rx = sq N' /\ TcpRxBuffer.m_availBytes rx = N' - zlen (n_out st)) as [En Ea].
  { destruct Hrx' as [Hn _ _ _ _ _ _ _ Hav _ _ _ _]. rewrite Hf' in Hn. done. }
  constructor; cbn [n_tx n_rx n_una n_wire n_acks n_in n_out]; try done; [| by apply Forall_forall].
  exists N', segs', sacks'. split_and!; try done; try lia. unfold TcpRxBuffer.Available, TcpRxBuffer.NextRxSequence. rewrite En, Ea.
  constructor; cbn [fst snd]; [split; [f_equal |]; lia |]. eapply Forall_impl; [exact Hac |]. cbn beta. intros e [? ?]. split; [done | lia].
Qed.

Lemma read_inv st max p rx : net_inv st -> 0 <= max < 2 ^ 32 -> TcpRxBuffer.Extract max (n_rx st) = Some (p, rx) ->
  net_inv (mkNet (n_tx st) rx (n_una st) (n_wire st) (n_acks st) (n_in st) (n_out st ++ default [] p)).
Proof.
  intros [Htx Hin (N & segs & sacks & Hrx & Hu & Hac) Hfin Hw Ho] Hm E.
  destruct (TcpRxProps.Extract_inv isn stream _ _ _ _ _ _ max Hrx Hm) as (rx' & E' & Hrx' & _). rewrite E in E'. injection E' as -> <-.
  set (k := Z.min max (N - zlen (n_out st))) in *. assert (0 <= k) as Hk by (destruct Hrx as [_ _ _ _ Hpos _ _ _ _ _ _ _ _]; lia).
  assert (default [] (if k =? 0 then None else Some (bytes (zlen (n_out st)) k)) = bytes (zlen (n_out st)) k) as -> by (destruct (Z.eqb_spec k 0) as [E0|]; [by rewrite E0 | done]).
  assert (zlen (n_out st ++ bytes (zlen (n_out st)) k) = zlen (n_out st) + k) as Ez by (rewrite zlen_app, (TcpRxBuffer.bytes_size stream) by done; done).
  constructor; cbn [n_tx n_rx n_una n_wire n_acks n_in n_out]; rewrite ?Ez; try done.
  - exists N, (TcpRxProps.dropZ k segs), sacks. done.
  - rewrite <- Hfin. revert E. unfold TcpRxBuffer.Extract. case_match; [by intros [= _ <-] |]. destruct (negb _); [| done]. simpl.
    destruct (TcpRxBuffer.extract_loop _ _ _ _ _ _) as [[[[? ?] ?] ?]|]; [| done]. by intros [= _ <-].
  - rewrite Ho at 1. rewrite <- (TcpRxBuffer.bytes_app stream) by (apply zlen_nonneg || done). done.
Qed.

Lemma ack_inv st now o a d tx : net_inv st -> (o, a) ∈ n_acks st -> allowed isn (n_una st) (n_tx st) (OpAck now o) ->
  TcpTxScoreboard.DiscardUpTo now a (n_tx st) = Some (d, tx) ->
  net_inv (mkNet tx (n_rx st) (Z.max (n_una st) o) (n_wire st) (n_acks st) (n_in st) (n_out st)).
Proof.
  intros [Htx Hin (N & segs & sacks & Hrx & Hu & Hac) Hfin Hw Ho] Hel Ha E. rewrite Forall_forall in Hac. destruct (Hac _ Hel) as [Ea HoN]. cbn [fst snd] in *. rewrite Ea in E.
  destruct (ack_good isn stream (n_una st) (n_tx st) now o Htx Ha) as (d' & tx' & E' & Hg & Hz & _). rewrite E in E'. injection E' as <- <-.
  pose proof Hrx as [_ _ _ _ Hpos _ _ _ _ _ _ _ _].
  constructor; cbn [n_tx n_rx n_una n_wire n_acks n_in n_out]; try done.
  - destruct (Z.leb_spec o (n_una st)); lia.
  - exists N, segs, sacks. split_and!; try done; try lia. by apply Forall_forall.
Qed.

Lemma reach_net_inv txmax rxmax st : net_reach txmax rxmax st -> n_in st = bytes 0 (zlen (n_in st)) -> net_inv st.
Proof.
  induction 1 as [thresh seg sack Ht Hr|st st' _ IH Hstep]; intros Hs; [by apply net_new_inv |].
  destruct Hstep as [st p ok tx E|st now n o a tx i Ha E Ef|st op tx Hf Ha E|st o s p r rx Hel Hwin E|st max p rx Hm E|st now o a d tx Hel Ha E]; cbn [n_in] in Hs.
  - destruct ok; [apply bytes_split in Hs as [H1 H2]; apply (write_inv st p true); [by apply IH | done | by left] |].
    apply (write_inv st p false); [by apply IH | done | by right].
  - eapply send_inv; eauto.
  - eapply flags_inv; eauto.
  - eapply deliver_inv; eauto.
  - eapply read_inv; eauto.
  - eapply ack_inv; eauto.
Qed.

End Stream.

(** The stream the application wrote. *)
Definition stream_of (l : list Z) (x : Z) : Z := nth (Z.to_nat x) l 0.
Lemma stream_of_bytes l : l = TcpRxBuffer.bytes (stream_of l) 0 (zlen l).
Proof.
  apply list_eq. intros k. destruct (l !! k) as [x|] eqn:E.
  - assert (k < length l)%nat as Hk by by eapply lookup_lt_Some. rewrite (TcpRxBuffer.bytes_lookup (stream_of l) 0) by (unfold zlen; lia).
    unfold stream_of. rewrite Z.add_0_l, Nat2Z.id. f_equal. symmetry. by apply nth_lookup_Some.
  - symmetry. apply lookup_ge_None in E. apply lookup_ge_None. pose proof (TcpRxBuffer.bytes_size (stream_of l) 0 (zlen l) (zlen_nonneg l)). unfold zlen in *. lia.
Qed.

(** C4: reliable transfer. Whatever the application writes and reads, whatever
    the sender transmits, retransmits and marks, and whatever the network loses,
    repeats and reorders of segments and acknowledgements that are not older
    than the window, the bytes read are a prefix of the bytes written; and no
    segment or acknowledgement that arrives, and no read, makes either buffer
    run into an assertion. The packets the application wrote lie in memory so
    that [Packet::AddAtEnd] joins consecutive pieces of the stream, which holds
    for pieces of one packet and for packets with memory of their own
    ([fragments_join], [join_of_apart]); and a request to send that starts in
    data already sent and reaches beyond it does not span the end of the 32-bit
    numbers ([allowed]). *)
Theorem transfer_in_order txmax rxmax st : net_reach txmax rxmax st -> TcpRxBuffer.JoinsPieces (stream_of (n_in st)) ->
  n_out st `prefix_of` n_in st /\
  (forall o s p, (o, s, p) ∈ n_wire st -> in_window (n_out st) o p -> is_Some (TcpRxBuffer.Add p s (n_rx st))) /\
  (forall max, 0 <= max < 2 ^ 32 -> is_Some (TcpRxBuffer.Extract max (n_rx st))) /\
  (forall now o a, (o, a) ∈ n_acks st -> allowed isn (n_una st) (n_tx st) (OpAck now o) -> is_Some (TcpTxScoreboard.DiscardUpTo now a (n_tx st))).
Proof.
  intros Hr HJ. pose proof (stream_of_bytes (n_in st)) as Hs.
  destruct (reach_net_inv (stream_of (n_in st)) txmax rxmax st Hr Hs) as [Htx Hin (N & segs & sacks & Hrx & Hu & Hac) Hfin Hw Ho].
  pose proof Hrx as [_ _ _ _ Hpos _ _ _ _ _ _ _ _]. split_and!.
  - pose proof (TcpRxBuffer.bytes_app (stream_of (n_in st)) 0 (zlen (n_out st)) (zlen (n_in st) - zlen (n_out st)) ltac:(lia) ltac:(lia)) as E.
    rewrite Z.add_0_l, Zplus_minus, <- Hs, <- Ho in E. by eexists.
  - intros o s p Hel [Hlo Hhi]. rewrite Forall_forall in Hw. destruct (Hw _ Hel) as (Es & Ep & Hle). cbn [fst snd] in *. rewrite Es, Ep.
    destruct (TcpRxProps.Add_inv isn (stream_of (n_in st)) _ _ _ _ _ _ o (zlen p) Hrx Hlo (zlen_nonneg p) ltac:(lia)) as (? & ? & ? & ? & ? & -> & _). done.
  - intros max Hm. destruct (TcpRxProps.Extract_inv isn (stream_of (n_in st)) _ _ _ _ _ _ max Hrx Hm) as (? & -> & _). done.
  - intros now o a Hel Ha. rewrite Forall_forall in Hac. destruct (Hac _ Hel) as [Ea _]. cbn [fst snd] in Ea. rewrite Ea.
    destruct (ack_good isn (stream_of (n_in st)) (n_una st) (n_tx st) now o Htx Ha) as (? & ? & -> & _). done.
Qed.

End Net.

End TcpTransfer.

(** * The TCP send buffer on concrete connections

    Instances of the properties of the send buffer and of the transfer, across a
    wrap-around of the sequence numbers, and behaviours of the scoreboard that
    the comments of the code do not describe. *)

Import Buffer BufferInv PacketBytes SequenceNumber TcpTxBuffer TcpTxScoreboard TcpTxProps TcpTxInv TcpTxSack TcpTxSystem.

Module TcpTxDemo.
#[local] Existing Instances plain_memory TcpRxBuffer.plain_joins.

Definition demo_isn : Z := 2 ^ 32 - 3.
Definition demo_stream (x : Z) : Z := x mod 256.
Notation dbytes := (TcpRxBuffer.bytes demo_stream).
Definition run (isn : Z) (ops : list tx_op) (b : TcpTxBuffer) : TcpTxBuffer := fold_left (fun b op => default b (tx_apply isn op b)) ops b.

(** Three items of two bytes were sent. *)
Definition demo_sent : TcpTxBuffer := run demo_isn [OpWrite (dbytes 0 6); OpSend 1 2 0; OpSend 2 2 2; OpSend 3 2 4] (tx_new demo_isn 8 1 2 true).

Lemma demo_sent_reach : tx_reach demo_isn demo_stream 8 0 demo_sent.
Proof.
  apply (tx_next demo_isn demo_stream 8 0 (run demo_isn [OpWrite (dbytes 0 6); OpSend 1 2 0; OpSend 2 2 2] (tx_new demo_isn 8 1 2 true)) (OpSend 3 2 4)); [| | done | by vm_compute].
  - apply (tx_next demo_isn demo_stream 8 0 (run demo_isn [OpWrite (dbytes 0 6); OpSend 1 2 0] (tx_new demo_isn 8 1 2 true)) (OpSend 2 2 2)); [| | done | by vm_compute].
    + apply (tx_next demo_isn demo_stream 8 0 (run demo_isn [OpWrite (dbytes 0 6)] (tx_new demo_isn 8 1 2 true)) (OpSend 1 2 0)); [| | done | by vm_compute].
      * apply (tx_next demo_isn demo_stream 8 0 (tx_new demo_isn 8 1 2 true) (OpWrite (dbytes 0 6))); [by apply tx_start | done | by vm_compute | by vm_compute].
      * split; [lia | left; by vm_compute].
    + split; [lia | left; by vm_compute].
  - split; [lia | left; by vm_compute].
Qed.

(** ** Instances *)

Lemma demo_resend : allowed demo_isn 0 demo_sent (OpSend 9 2 2).
Proof.
  split; [lia | right]. exists (take 1 (m_sentList demo_sent)), (default (item_new 0 []) (m_sentList demo_sent !! 1%nat)), (drop 2 (m_sentList demo_sent)).
  split_and!; [by vm_compute.. |]. left. vm_compute. done.
Qed.
Lemma tx_segments_carry_stream_witness :
  exists r b', CopyFromSequence 9 2 (TcpRxBuffer.sq demo_isn 2) demo_sent = Some (r, b') /\ tx_reach demo_isn demo_stream 8 0 b'.
Proof. destruct (tx_segments_carry_stream demo_isn demo_stream 8 0 demo_sent 9 2 2 demo_sent_reach demo_resend) as (r & b' & E & Hr & _). exists r, b'. exact (conj E Hr). Defined.

Lemma tx_counters_exact_witness : BytesInFlight demo_sent = Some 6 /\ is_Some (tx_apply demo_isn OpMarkHead demo_sent).
Proof.
  destruct (tx_counters_exact demo_isn demo_stream 8 0 demo_sent demo_sent_reach) as (Hop & _ & _ & _ & _ & E).
  split; [rewrite E; by vm_compute | apply Hop; exact I].
Defined.

(** The acknowledgement falls into the second item. *)
Lemma tx_ack_frees_exactly_witness : exists d b', DiscardUpTo 9 (TcpRxBuffer.sq demo_isn 3) demo_sent = Some (d, b') /\ contents b' = [3; 4; 5].
Proof.
  destruct (tx_ack_frees_exactly demo_isn demo_stream 8 0 demo_sent 9 3 demo_sent_reach) as (d & b' & E & _ & E1 & E2 & _).
  - split; [vm_compute; done |]. intros pre i r E Hr Hk. exfalso. assert (Forall (fun j => m_sacked j = false) (m_sentList demo_sent)) as Hf by (vm_compute; by repeat constructor).
    rewrite E in Hf. apply Forall_app in Hf as [_ Hf]. apply Forall_cons in Hf as [Hf _]. congruence.
  - exists d, b'. split; [exact E |]. rewrite E2. by vm_compute.
Defined.

(** Sacking the last item marks, with a threshold of one, the two before it as lost. *)
Lemma Update_marks_blocks_witness : exists called b', Update (enc demo_isn <$> [(4, 6)]) demo_sent = Some (2, called, b') /\ tx_reach demo_isn demo_stream 8 0 b'.
Proof.
  destruct (Update_marks_blocks demo_isn demo_stream 8 0 demo_sent [(4, 6)] demo_sent_reach) as (called & b' & E & Hr & _).
  - split; [by vm_compute |]. constructor; [| constructor]. vm_compute. done.
  - exists called, b'. split; [| exact Hr]. rewrite E. by vm_compute.
Defined.

Lemma NextSeg_sendable_witness : exists r, NextSeg 100 false demo_sent = Some r.
Proof. destruct (NextSeg_sendable demo_isn demo_stream 8 0 demo_sent 100 false demo_sent_reach) as (r & E & _). exists r. exact E. Defined.

(** ** A transfer with a lost, a repeated and a late segment *)

Section DemoNet.
Import TcpTransfer.TcpTransfer.
Notation reach := (net_reach demo_isn 8 8).

(** The steps of the network as functions; a step that fails changes nothing. *)
Definition do_write (p : Packet) (st : net) : net :=
  let '(ok, tx) := Add p (n_tx st) in mkNet tx (n_rx st) (n_una st) (n_wire st) (n_acks st) (if ok then n_in st ++ p else n_in st) (n_out st).
Definition do_send (now n o : Z) (st : net) : net :=
  default st (let* (a, tx) := CopyFromSequence now n (TcpRxBuffer.sq demo_isn o) (n_tx st) in let* a := a in let* i := find_item a (m_sentList tx) in
    Some (mkNet tx (n_rx st) (n_una st) ((o, m_startSeq i, m_packet i) :: n_wire st) (n_acks st) (n_in st) (n_out st))).
Definition do_deliver (k : nat) (st : net) : net :=
  default st (let* (o, s, p) := n_wire st !! k in let* (_, rx) := TcpRxBuffer.Add p s (n_rx st) in
    Some (mkNet (n_tx st) rx (n_una st) (n_wire st) ((zlen (n_out st) + TcpRxBuffer.Available rx, TcpRxBuffer.NextRxSequence rx) :: n_acks st) (n_in st) (n_out st))).
Definition do_read (max : Z) (st : net) : net :=
  default st (let* (p, rx) := TcpRxBuffer.Extract max (n_rx st) in
    Some (mkNet (n_tx st) rx (n_una st) (n_wire st) (n_acks st) (n_in st) (n_out st ++ default [] p))).
Definition do_ack (now : Z) (k : nat) (st : net) : net :=
  default st (let* (o, a) := n_acks st !! k in let* (_, tx) := DiscardUpTo now a (n_tx st) in
    Some (mkNet tx (n_rx st) (Z.max (n_una st) o) (n_wire st) (n_acks st) (n_in st) (n_out st))).

Lemma reach_write p st : reach st -> reach (do_write p st).
Proof. intros H. unfold do_write. destruct (Add p (n_tx st)) as [ok tx] eqn:E. eapply nr_step; [exact H |]. by apply ns_write. Qed.
Lemma reach_send now n o st : reach st -> allowed demo_isn (n_una st) (n_tx st) (OpSend now n o) -> reach (do_send now n o st).
Proof.
  intros H Ha. unfold do_send. destruct (CopyFromSequence _ _ _ _) as [[[a|] tx]|] eqn:E; try exact H. cbn.
  destruct (find_item a (m_sentList tx)) as [i|] eqn:Ef; [| exact H]. eapply nr_step; [exact H |]. by eapply ns_send.
Qed.
Lemma reach_deliver k st : reach st -> (forall o s p, n_wire st !! k = Some (o, s, p) -> in_window (n_out st) o p) -> reach (do_deliver k st).
Proof.
  intros H Hw. unfold do_deliver. destruct (n_wire st !! k) as [[[o s] p]|] eqn:E; [| exact H]. cbn. destruct (TcpRxBuffer.Add p s (n_rx st)) as [[r rx]|] eqn:Ea; [| exact H].
  eapply nr_step; [exact H |]. eapply ns_deliver; [by eapply list_elem_of_lookup_2 | by apply (Hw o s p) | exact Ea].
Qed.
Lemma reach_read max st : reach st -> 0 <= max < 2 ^ 32 -> reach (do_read max st).
Proof. intros H Hm. unfold do_read. destruct (TcpRxBuffer.Extract max (n_rx st)) as [[p rx]|] eqn:E; [| exact H]. eapply nr_step; [exact H |]. by apply (ns_read demo_isn st max). Qed.
Lemma reach_ack now k st : reach st -> (forall o a, n_acks st !! k = Some (o, a) -> allowed demo_isn (n_una st) (n_tx st) (OpAck now o)) -> reach (do_ack now k st).
Proof.
  intros H Hw. unfold do_ack. destruct (n_acks st !! k) as [[o a]|] eqn:E; [| exact H]. cbn. destruct (DiscardUpTo now a (n_tx st)) as [[d tx]|] eqn:Ea; [| exact H].
  eapply nr_step; [exact H |]. eapply ns_ack; [by eapply list_elem_of_lookup_2 | by apply (Hw o a) | exact Ea].
Qed.

(** The second segment arrives first, twice; the first is lost, sent again, read
    and acknowledged. *)
Definition demo_flight : net := do_send 2 2 2 (do_send 1 2 0 (do_write [7; 8; 9; 10] (net_new demo_isn 8 8 3 2 true))).
Definition demo_resent : net := do_send 3 2 0 (do_deliver 0 (do_deliver 0 demo_flight)).
Definition demo_read : net := do_read 3 (do_deliver 0 demo_resent).
Definition demo_done : net := do_ack 4 0 demo_read.

Lemma demo_done_reach : reach demo_done.
Proof.
  unfold demo_done. apply reach_ack.
  2: { intros o a E0. vm_compute in E0. injection E0 as <- <-. split; [by vm_compute |]. intros pre i r E _ Hk. exfalso.
    assert (Forall (fun j => m_sacked j = false) (m_sentList (n_tx demo_read))) as Hf by (vm_compute; by repeat constructor).
    rewrite E in Hf. apply Forall_app in Hf as [_ Hf]. apply Forall_cons in Hf as [Hf _]. congruence. }
  unfold demo_read. apply reach_read; [| lia]. apply reach_deliver; [| intros o s p E0; vm_compute in E0; injection E0 as <- <- <-; by vm_compute].
  unfold demo_resent. apply reach_send.
  2: { split; [lia | right]. set (l := m_sentList _). exists [], (default (item_new 0 []) (head l)), (tail l). split_and!; [by vm_compute.. |]. left. by vm_compute. }
  apply reach_deliver; [| intros o s p E0; vm_compute in E0; injection E0 as <- <- <-; by vm_compute]. apply reach_deliver; [| intros o s p E0; vm_compute in E0; injection E0 as <- <- <-; by vm_compute].
  unfold demo_flight. apply reach_send; [| split; [lia | left; by vm_compute]]. apply reach_send; [| split; [lia | left; by vm_compute]].
  apply reach_write. apply nr_start; by vm_compute.
Qed.

Lemma transfer_in_order_witness : n_out demo_done = [7; 8; 9] /\ n_una demo_done = 4 /\ n_out demo_done `prefix_of` n_in demo_done.
Proof. split_and!; [by vm_compute | by vm_compute |]. apply (transfer_in_order demo_isn 8 8 demo_done demo_done_reach (TcpRxBuffer.plain_joins _)). Defined.

End DemoNet.

(** ** What the comments do not say *)

Definition five : TcpTxBuffer := run 0 ([OpWrite [1; 2; 3; 4; 5]] ++ (OpSend 1 1 <$> [0; 1; 2; 3; 4])) (tx_new 0 8 3 1 true).

(** The highest SACK moves down when the item just before it is sacked later, so
    that the same three SACKs mark two items as lost in one order and none in the other. *)
Lemma sack_order_matters :
  let up := run 0 [OpSack [(2, 3)]; OpSack [(3, 4)]; OpSack [(4, 5)]] five in
  let down := run 0 [OpSack [(4, 5)]; OpSack [(3, 4)]; OpSack [(2, 3)]] five in
  GetSacked up = 3 /\ GetSacked down = 3 /\ GetLost up = 2 /\ GetLost down = 0 /\ (m_highestSack down).2 = TcpRxBuffer.sq 0 2.
Proof. by vm_compute. Qed.

(** A block beyond the data sent ends the update before the lost items are found. *)
Lemma far_block_hides_loss :
  GetLost (run 0 [OpSack [(2, 5)]] five) = 2 /\ GetLost (run 0 [OpSack [(2, 5); (7, 8)]] five) = 0.
Proof. by vm_compute. Qed.

(** A request that covers sent and new data across the wrap-around of the
    numbers matches no case. *)
Lemma copy_across_wrap :
  let b isn := run isn [OpWrite [1; 2; 3; 4; 5; 6]; OpSend 1 2 0; OpSend 1 2 2] (tx_new isn 8 3 2 true) in
  CopyFromSequence 4 4 (TcpRxBuffer.sq (2 ^ 32 - 3) 2) (b (2 ^ 32 - 3)) = None /\
  is_Some (CopyFromSequence 4 4 (TcpRxBuffer.sq 0 2) (b 0)).
Proof. split; [by vm_compute | vm_compute; by eexists]. Qed.

(** Without SACKs the highest SACK is the number 0, and a lost head is reported
    as lost only on the half of the numbers below it. *)
Lemma lost_head_depends_on_number :
  let head isn := let b := run isn [OpWrite [1; 2]; OpSend 1 2 0; OpMarkHead] (tx_new isn 8 3 2 true) in (GetLost b, IsLost (HeadSequence b) b) in
  head 5 = (2, false) /\ head (2 ^ 31 + 5) = (2, true).
Proof. by vm_compute. Qed.

(** Bytes that were sent again and then sacked count as in flight, where the
    computation of the RFC does not count them. *)
Lemma sacked_retransmission_in_flight :
  let b := run 0 [OpSend 2 1 2; OpSack [(2, 3)]] five in
  BytesInFlight b = Some 5 /\ BytesInFlightRFC b = Some 4.
Proof. by vm_compute. Qed.

End TcpTxDemo.
