(* ===== verification/TcpCongestion.v ===== *)
(** * Congestion control, loss recovery and round trip times of TCP

    [TcpNewReno] (tcp-congestion-ops.cc), [TcpLinuxReno] (tcp-linux-reno.cc) and
    [TcpScalable] (tcp-scalable.cc) behind the interface of [TcpCongestionOps];
    [TcpClassicRecovery] (tcp-recovery-ops.cc) and [TcpPrrRecovery] (tcp-prr-recovery.cc);
    [RttMeanDeviation] (rtt-estimator.cc), and what tcp-socket-base.cc does with them.

    The code divides 32-bit numbers as doubles and rounds the quotient down or up. Such a
    quotient differs from the next integer by at least 2^-32 of its size unless it is one,
    so the rounding of the division does not change the result, and the model divides
    integers. A division by zero and a conversion out of range, which C++ leaves
    undefined, are [None]. *)

From S2P Require Import Prelude.

Module TcpCongestion.

(** ** The state shared with the socket (tcp-socket-state.h) *)

Record TcpSocketState := mkTcb {
  m_cWnd : Z;
  m_cWndInfl : Z;
  m_ssThresh : Z;
  m_segmentSize : Z;
  m_bytesInFlight : Z;
  m_isRetransDataAcked : bool
}.
Definition set_cWnd (w : Z) (tcb : TcpSocketState) : TcpSocketState :=
  mkTcb w (m_cWndInfl tcb) (m_ssThresh tcb) (m_segmentSize tcb) (m_bytesInFlight tcb) (m_isRetransDataAcked tcb).
Definition set_cWndInfl (w : Z) (tcb : TcpSocketState) : TcpSocketState :=
  mkTcb (m_cWnd tcb) w (m_ssThresh tcb) (m_segmentSize tcb) (m_bytesInFlight tcb) (m_isRetransDataAcked tcb).
Definition set_ssThresh (w : Z) (tcb : TcpSocketState) : TcpSocketState :=
  mkTcb (m_cWnd tcb) (m_cWndInfl tcb) w (m_segmentSize tcb) (m_bytesInFlight tcb) (m_isRetransDataAcked tcb).
Definition GetCwndInSegments (tcb : TcpSocketState) : option Z :=
  assert* negb (m_segmentSize tcb =? 0) in Some (m_cWnd tcb / m_segmentSize tcb).

(** ** Congestion control *)

(** The virtual operations of class [TcpCongestionOps]. *)
Class TcpCongestionOps (C : Type) := {
  IncreaseWindow : Z -> TcpSocketState -> C -> option (TcpSocketState * C);
  GetSsThresh : TcpSocketState -> Z -> C -> option Z
}.

Module NewReno.
Definition SlowStart (segmentsAcked : Z) (tcb : TcpSocketState) : Z * TcpSocketState :=
  if 1 <=? segmentsAcked then (segmentsAcked - 1, set_cWnd (u32 (m_cWnd tcb + m_segmentSize tcb)) tcb)
  else (0, tcb).
Definition CongestionAvoidance (segmentsAcked : Z) (tcb : TcpSocketState) : option TcpSocketState :=
  if 0 <? segmentsAcked then
    assert* negb (m_cWnd tcb =? 0) in
    let adder := Z.max 1 (u32 (m_segmentSize tcb * m_segmentSize tcb) / m_cWnd tcb) in
    Some (set_cWnd (u32 (m_cWnd tcb + adder)) tcb)
  else Some tcb.
Definition IncreaseWindow (segmentsAcked : Z) (tcb : TcpSocketState) : option TcpSocketState :=
  let '(segmentsAcked, tcb) := if m_cWnd tcb <? m_ssThresh tcb then SlowStart segmentsAcked tcb else (segmentsAcked, tcb) in
  if m_ssThresh tcb <=? m_cWnd tcb then CongestionAvoidance segmentsAcked tcb else Some tcb.
Definition GetSsThresh (tcb : TcpSocketState) (bytesInFlight : Z) : Z := Z.max (u32 (2 * m_segmentSize tcb)) (bytesInFlight / 2).
End NewReno.
#[export] Instance NewReno_ops : TcpCongestionOps unit := {|
  IncreaseWindow acked tcb c := let* tcb := NewReno.IncreaseWindow acked tcb in Some (tcb, c);
  GetSsThresh tcb bytesInFlight _ := Some (NewReno.GetSsThresh tcb bytesInFlight)
|}.

Module LinuxReno.
Record TcpLinuxReno := mkLinuxReno { m_cWndCnt : Z }.
Definition SlowStart (segmentsAcked : Z) (tcb : TcpSocketState) : option (Z * TcpSocketState) :=
  if 1 <=? segmentsAcked then
    let sndCwnd := m_cWnd tcb in
    let tcb := set_cWnd (Z.min (u32 (sndCwnd + u32 (segmentsAcked * m_segmentSize tcb))) (m_ssThresh tcb)) tcb in
    assert* negb (m_segmentSize tcb =? 0) in
    Some (u32 (segmentsAcked - u32 (m_cWnd tcb - sndCwnd) / m_segmentSize tcb), tcb)
  else Some (0, tcb).
Definition CongestionAvoidance (segmentsAcked : Z) (tcb : TcpSocketState) (c : TcpLinuxReno) : option (TcpSocketState * TcpLinuxReno) :=
  assert* negb (m_segmentSize tcb =? 0) in
  let w := m_cWnd tcb / m_segmentSize tcb in
  let w := if w =? 0 then 1 else w in
  let '(tcb, cnt) := if w <=? m_cWndCnt c then (set_cWnd (u32 (m_cWnd tcb + m_segmentSize tcb)) tcb, 0) else (tcb, m_cWndCnt c) in
  let cnt := u32 (cnt + segmentsAcked) in
  if w <=? cnt then
    let delta := cnt / w in
    Some (set_cWnd (u32 (m_cWnd tcb + u32 (delta * m_segmentSize tcb))) tcb, mkLinuxReno (u32 (cnt - u32 (delta * w))))
  else Some (tcb, mkLinuxReno cnt).
Definition IncreaseWindow (segmentsAcked : Z) (tcb : TcpSocketState) (c : TcpLinuxReno) : option (TcpSocketState * TcpLinuxReno) :=
  if m_cWnd tcb <? m_ssThresh tcb then let* (_, tcb) := SlowStart segmentsAcked tcb in Some (tcb, c)
  else CongestionAvoidance segmentsAcked tcb c.
Definition GetSsThresh (tcb : TcpSocketState) : Z := Z.max (u32 (2 * m_segmentSize tcb)) (m_cWnd tcb / 2).
End LinuxReno.
#[export] Instance LinuxReno_ops : TcpCongestionOps LinuxReno.TcpLinuxReno := {|
  IncreaseWindow := LinuxReno.IncreaseWindow;
  GetSsThresh tcb _ _ := Some (LinuxReno.GetSsThresh tcb)
|}.

(** The decrease factor is that of the default attribute, 1/8; slow start is that of the
    base class. *)
Module Scalable.
Record TcpScalable := mkScalable { m_ackCnt : Z; m_aiFactor : Z }.
Definition CongestionAvoidance (segmentsAcked : Z) (tcb : TcpSocketState) (c : TcpScalable) : option (TcpSocketState * TcpScalable) :=
  let* oldCwnd := GetCwndInSegments tcb in
  assert* 1 <=? oldCwnd in
  let w := Z.min oldCwnd (m_aiFactor c) in
  let '(segCwnd, ackCnt) := if w <=? m_ackCnt c then (u32 (oldCwnd + 1), 0) else (oldCwnd, m_ackCnt c) in
  let ackCnt := u32 (ackCnt + segmentsAcked) in
  let* (segCwnd, ackCnt) :=
    (if w <=? ackCnt then assert* negb (w =? 0) in Some (u32 (segCwnd + ackCnt / w), 0) else Some (segCwnd, ackCnt)) in
  Some (if segCwnd =? oldCwnd then tcb else set_cWnd (u32 (segCwnd * m_segmentSize tcb)) tcb, mkScalable ackCnt (m_aiFactor c)).
Definition IncreaseWindow (segmentsAcked : Z) (tcb : TcpSocketState) (c : TcpScalable) : option (TcpSocketState * TcpScalable) :=
  let '(segmentsAcked, tcb) := if m_cWnd tcb <? m_ssThresh tcb then NewReno.SlowStart segmentsAcked tcb else (segmentsAcked, tcb) in
  if m_ssThresh tcb <=? m_cWnd tcb then CongestionAvoidance segmentsAcked tcb c else Some (tcb, c).
Definition GetSsThresh (tcb : TcpSocketState) (bytesInFlight : Z) : option Z :=
  assert* negb (m_segmentSize tcb =? 0) in
  let segCwnd := bytesInFlight / m_segmentSize tcb in
  let ssThresh := Z.max 2 (segCwnd * 7 / 8) in
  Some (u32 (ssThresh * m_segmentSize tcb)).
End Scalable.
#[export] Instance Scalable_ops : TcpCongestionOps Scalable.TcpScalable := {|
  IncreaseWindow := Scalable.IncreaseWindow;
  GetSsThresh tcb bytesInFlight _ := Scalable.GetSsThresh tcb bytesInFlight
|}.

(** ** Loss recovery *)

(** The virtual operations of class [TcpRecoveryOps]. *)
Class TcpRecoveryOps (R : Type) := {
  EnterRecovery : Z -> Z -> Z -> TcpSocketState -> R -> option (TcpSocketState * R);
  DoRecovery : Z -> TcpSocketState -> R -> option (TcpSocketState * R);
  ExitRecovery : TcpSocketState -> R -> TcpSocketState;
  UpdateBytesSent : Z -> R -> R
}.

Module Classic.
Definition EnterRecovery (dupAckCount : Z) (tcb : TcpSocketState) : TcpSocketState :=
  set_cWndInfl (u32 (m_ssThresh tcb + u32 (dupAckCount * m_segmentSize tcb))) (set_cWnd (m_ssThresh tcb) tcb).
Definition DoRecovery (tcb : TcpSocketState) : TcpSocketState := set_cWndInfl (u32 (m_cWndInfl tcb + m_segmentSize tcb)) tcb.
Definition ExitRecovery (tcb : TcpSocketState) : TcpSocketState := set_cWndInfl (m_ssThresh tcb) tcb.
End Classic.
#[export] Instance Classic_ops : TcpRecoveryOps unit := {|
  EnterRecovery dupAckCount _ _ tcb r := Some (Classic.EnterRecovery dupAckCount tcb, r);
  DoRecovery _ tcb r := Some (Classic.DoRecovery tcb, r);
  ExitRecovery tcb _ := Classic.ExitRecovery tcb;
  UpdateBytesSent _ r := r
|}.

Module Prr.
Inductive ReductionBound := CRB | SSRB.
Record TcpPrrRecovery := mkPrr { m_prrDelivered : Z; m_prrOut : Z; m_recoveryFlightSize : Z; m_reductionBoundMode : ReductionBound }.
(** A number converted to [int]: from a double it must be in range, from an unsigned
    number it wraps. *)
Definition to_int (x : Z) : option Z := assert* (- 2 ^ 31 <=? x) && (x <? 2 ^ 31) in Some x.
Definition ceil_div (a b : Z) : Z := - (- a / b).
Definition sendCount (deliveredBytes : Z) (tcb : TcpSocketState) (r : TcpPrrRecovery) : option Z :=
  if m_ssThresh tcb <? m_bytesInFlight tcb then
    assert* negb (m_recoveryFlightSize r =? 0) in
    to_int (ceil_div (u32 (m_prrDelivered r * m_ssThresh tcb)) (m_recoveryFlightSize r) - m_prrOut r)
  else
    let limit := match m_reductionBoundMode r with
      | CRB => i32 (u32 (m_prrDelivered r - m_prrOut r))
      | SSRB =>
          if m_isRetransDataAcked tcb then i32 (u32 (Z.max (u32 (m_prrDelivered r - m_prrOut r)) deliveredBytes + m_segmentSize tcb))
          else i32 deliveredBytes
      end in
    Some (Z.min limit (i32 (u32 (m_ssThresh tcb - m_bytesInFlight tcb)))).
Definition DoRecovery (deliveredBytes : Z) (tcb : TcpSocketState) (r : TcpPrrRecovery) : option (TcpSocketState * TcpPrrRecovery) :=
  let r := mkPrr (u32 (m_prrDelivered r + deliveredBytes)) (m_prrOut r) (m_recoveryFlightSize r) (m_reductionBoundMode r) in
  let* n := sendCount deliveredBytes tcb r in
  let n := Z.max n (if 0 <? m_prrOut r then 0 else i32 (m_segmentSize tcb)) in
  let w := u32 (m_bytesInFlight tcb + n) in
  Some (set_cWndInfl w (set_cWnd w tcb), r).
Definition EnterRecovery (unAckDataCount deliveredBytes : Z) (tcb : TcpSocketState) (r : TcpPrrRecovery) : option (TcpSocketState * TcpPrrRecovery) :=
  DoRecovery deliveredBytes tcb (mkPrr 0 0 unAckDataCount (m_reductionBoundMode r)).
Definition ExitRecovery (tcb : TcpSocketState) : TcpSocketState := set_cWndInfl (m_cWnd tcb) tcb.
Definition UpdateBytesSent (bytesSent : Z) (r : TcpPrrRecovery) : TcpPrrRecovery :=
  mkPrr (m_prrDelivered r) (u32 (m_prrOut r + bytesSent)) (m_recoveryFlightSize r) (m_reductionBoundMode r).
End Prr.
#[export] Instance Prr_ops : TcpRecoveryOps Prr.TcpPrrRecovery := {|
  EnterRecovery _ unAck delivered tcb r := Prr.EnterRecovery unAck delivered tcb r;
  DoRecovery := Prr.DoRecovery;
  ExitRecovery tcb _ := Prr.ExitRecovery tcb;
  UpdateBytesSent := Prr.UpdateBytesSent
|}.

(** ** What the socket does with them (tcp-socket-base.cc) *)

(** Without explicit congestion notification. *)
Inductive TcpCongState := CA_OPEN | CA_DISORDER | CA_RECOVERY | CA_LOSS.
Definition in_loss (s : TcpCongState) : bool := match s with CA_LOSS => true | _ => false end.
(** What [ProcessAck] finds out about an acknowledgement of new data: the segments and the
    bytes it acknowledges; what it delivers; whether it reaches [m_recover]; whether it is
    a duplicate by its SACK blocks; whether the segment that is to be sent next was already
    sent again and acknowledged. *)
Record Ack := mkAck { ack_segments : Z; ack_bytes : Z; ack_delivered : Z; ack_full : bool; ack_dup : bool; ack_resent : bool }.
Definition SafeSubtraction (a b : Z) : Z := if b <? a then u32 (a - b) else 0.

Section Socket.
Context {C : Type} `{TcpCongestionOps C} {R : Type} `{TcpRecoveryOps R}.
(** The part of [TcpSocketBase::EnterRecovery] about the window. *)
Definition socket_EnterRecovery (bytesInFlight dupAckCount unAckDataCount delivered : Z) (tcb : TcpSocketState) (c : C) (r : R) : option (TcpSocketState * R) :=
  let* t := GetSsThresh tcb bytesInFlight c in
  EnterRecovery dupAckCount unAckDataCount delivered (set_ssThresh t tcb) r.
(** The end of recovery in [TcpSocketBase::ProcessAck]. *)
Definition socket_ExitRecovery (tcb : TcpSocketState) (r : R) : TcpSocketState :=
  ExitRecovery (set_cWnd (m_ssThresh tcb) tcb) r.
(** The part of [TcpSocketBase::DupAck] about the window. [enter] says that this duplicate
    is the one that starts recovery: the third one, or the head is lost. *)
Definition socket_DupAck (enter : bool) (bytesInFlight dupAckCount unAckDataCount delivered : Z) (s : TcpCongState) (tcb : TcpSocketState) (c : C) (r : R) : option (TcpCongState * TcpSocketState * R) :=
  match s with
  | CA_LOSS => Some (s, tcb, r)
  | CA_RECOVERY => let* (tcb, r) := DoRecovery delivered tcb r in Some (s, tcb, r)
  | CA_OPEN | CA_DISORDER =>
      if enter then let* (tcb, r) := socket_EnterRecovery bytesInFlight dupAckCount unAckDataCount delivered tcb c r in Some (CA_RECOVERY, tcb, r)
      else Some (CA_DISORDER, tcb, r)
  end.
(** The part of [TcpSocketBase::ProcessAck] about the window, for an acknowledgement of new
    data. *)
Definition grow_open (segments : Z) (tcb : TcpSocketState) (c : C) (r : R) : option (TcpCongState * TcpSocketState * C * R) :=
  let* (tcb, c) := IncreaseWindow segments tcb c in Some (CA_OPEN, set_cWndInfl (m_cWnd tcb) tcb, c, r).
Definition socket_ProcessAck (a : Ack) (s : TcpCongState) (tcb : TcpSocketState) (c : C) (r : R) : option (TcpCongState * TcpSocketState * C * R) :=
  match s with
  | CA_RECOVERY =>
      if ack_full a then grow_open (ack_segments a) (socket_ExitRecovery tcb r) c r
      else
        let* (tcb, r) := (if 1 <=? ack_segments a then DoRecovery (ack_delivered a) tcb r else Some (tcb, r)) in
        Some (s, if ack_resent a then tcb else set_cWndInfl (SafeSubtraction (m_cWndInfl tcb) (ack_bytes a)) tcb, c, r)
  | CA_LOSS =>
      if ack_full a then grow_open (ack_segments a) tcb c r
      else let* (tcb, c) := IncreaseWindow (ack_segments a) tcb c in Some (s, tcb, c, r)
  | CA_DISORDER => if ack_dup a then Some (s, tcb, c, r) else grow_open (ack_segments a) tcb c r
  | CA_OPEN => grow_open (ack_segments a) tcb c r
  end.
(** The part of [TcpSocketBase::ReTxTimeout] about the window. *)
Definition socket_ReTxTimeout (headRetransmitted : bool) (inFlightBeforeRto : Z) (s : TcpCongState) (tcb : TcpSocketState) (c : C) : option TcpSocketState :=
  let* tcb := (if negb (in_loss s) || negb headRetransmitted then let* t := GetSsThresh tcb inFlightBeforeRto c in Some (set_ssThresh t tcb) else Some tcb) in
  let tcb := set_cWnd (m_segmentSize tcb) tcb in
  Some (set_cWndInfl (m_cWnd tcb) tcb).
End Socket.

(** ** Round trip times *)

Record RttEstimator := mkRtt { m_initialEstimatedRtt : Z; m_estimatedRtt : Z; m_estimatedVariation : Z; m_nSamples : Z }.
Definition RttEstimator_new (initial : Z) : RttEstimator := mkRtt initial initial 0 0.
Definition Reset (r : RttEstimator) : RttEstimator := mkRtt (m_initialEstimatedRtt r) (m_initialEstimatedRtt r) 0 0.
Definition IntegerUpdate (m rttShift variationShift : Z) (r : RttEstimator) : RttEstimator :=
  let delta := i64 (m - m_estimatedRtt r) in
  let srtt := i64 (i64 (Z.shiftl (m_estimatedRtt r) rttShift) + delta) in
  let delta := if delta <? 0 then i64 (- delta) else delta in
  let delta := i64 (delta - m_estimatedVariation r) in
  let rttvar := i64 (i64 (Z.shiftl (m_estimatedVariation r) variationShift) + delta) in
  mkRtt (m_initialEstimatedRtt r) (Z.shiftr srtt rttShift) (Z.shiftr rttvar variationShift) (m_nSamples r).
(** The gains are reciprocal powers of two, as those of the default attributes, 1/8 and
    1/4. *)
Definition Measurement (rttShift variationShift m : Z) (r : RttEstimator) : RttEstimator :=
  let r := if negb (m_nSamples r =? 0) then IntegerUpdate m rttShift variationShift r
           else mkRtt (m_initialEstimatedRtt r) m (Z.quot m 2) (m_nSamples r) in
  mkRtt (m_initialEstimatedRtt r) (m_estimatedRtt r) (m_estimatedVariation r) (u32 (m_nSamples r + 1)).
(** The timeout of [TcpSocketBase::EstimateRtt] and its doubling in [ReTxTimeout]. *)
Definition rto (clockGranularity minRto : Z) (r : RttEstimator) : Z :=
  Z.max (i64 (m_estimatedRtt r + Z.max clockGranularity (i64 (m_estimatedVariation r * 4)))) minRto.
Definition double_rto (sixty : Z) (t : Z) : Z := Z.min (i64 (t + t)) sixty.

End TcpCongestion.
