(* ===== verification/TcpCongestionProps.v ===== *)
(** * Congestion windows, recovery and timeouts of TCP stay in their bounds

    Any congestion control that keeps the contract [CongestionLaws] drives a window that
    never vanishes or overflows; the window of [TcpNewReno] grows as the protocol says;
    proportional rate reduction sends the proportion it promises; round trip estimates
    follow their samples. *)

From S2P Require Import Prelude TcpCongestion.

Module TcpCongestionProps.
Import TcpCongestion.

(** ** The contract of a congestion control *)

Record tcb_ok (tcb : TcpSocketState) : Prop := mkTcbOk {
  tcb_segment : 0 < m_segmentSize tcb < 2 ^ 16;
  tcb_window : m_segmentSize tcb <= m_cWnd tcb < 2 ^ 32;
  tcb_threshold : 0 <= m_ssThresh tcb < 2 ^ 32
}.
Class CongestionLaws (C : Type) `{TcpCongestionOps C} := {
  ctl_ok : C -> Prop;
  IncreaseWindow_ok acked tcb c : tcb_ok tcb -> ctl_ok c -> 0 <= acked -> m_cWnd tcb + (acked + 1) * m_segmentSize tcb < 2 ^ 32 ->
    exists w c', IncreaseWindow acked tcb c = Some (set_cWnd w tcb, c') /\ ctl_ok c' /\ m_cWnd tcb <= w <= m_cWnd tcb + (acked + 1) * m_segmentSize tcb;
  GetSsThresh_ok tcb n c : tcb_ok tcb -> ctl_ok c -> 0 <= n < 2 ^ 32 ->
    exists t, GetSsThresh tcb n c = Some t /\ 2 * m_segmentSize tcb <= t /\ t <= Z.max (2 * m_segmentSize tcb) (Z.max n (m_cWnd tcb))
}.

Lemma set_cWnd_same tcb : set_cWnd (m_cWnd tcb) tcb = tcb.
Proof. by destruct tcb. Qed.
Lemma SlowStart_ok acked tcb : tcb_ok tcb -> 0 <= acked -> m_cWnd tcb + (acked + 1) * m_segmentSize tcb < 2 ^ 32 ->
  exists w, NewReno.SlowStart acked tcb = (Z.max 0 (acked - 1), set_cWnd w tcb) /\ w = m_cWnd tcb + Z.min acked 1 * m_segmentSize tcb.
Proof.
  intros [[Hs1 Hs2] [Hw1 Hw2] _] Ha Hb. unfold NewReno.SlowStart. destruct (Z.leb_spec 1 acked).
  - rewrite u32_small by nia. eexists. split; [f_equal; lia|]. replace (Z.min acked 1) with 1 by lia. lia.
  - assert (acked = 0) as -> by lia. exists (m_cWnd tcb). rewrite set_cWnd_same. split; [done|lia].
Qed.
(** What congestion avoidance of NewReno adds. *)
Definition adder (tcb : TcpSocketState) : Z := Z.max 1 (m_segmentSize tcb * m_segmentSize tcb / m_cWnd tcb).
Lemma adder_range tcb : tcb_ok tcb -> 1 <= adder tcb <= m_segmentSize tcb.
Proof.
  intros [[Hs1 Hs2] [Hw1 Hw2] _]. unfold adder. split; [lia|]. apply Z.max_lub; [lia|]. apply Z.div_le_upper_bound; nia.
Qed.
Lemma CongestionAvoidance_ok acked tcb : tcb_ok tcb -> 0 <= acked -> m_cWnd tcb + (acked + 1) * m_segmentSize tcb < 2 ^ 32 ->
  NewReno.CongestionAvoidance acked tcb = Some (set_cWnd (m_cWnd tcb + (if 0 <? acked then adder tcb else 0)) tcb).
Proof.
  intros Hok Ha Hb. pose proof (adder_range tcb Hok). pose proof Hok as [[Hs1 Hs2] [Hw1 Hw2] _]. unfold NewReno.CongestionAvoidance. destruct (Z.ltb_spec 0 acked).
  - rewrite (proj2 (Z.eqb_neq _ _)) by lia. cbn [negb NS_ASSERT]. rewrite (u32_small (m_segmentSize tcb * m_segmentSize tcb)) by nia. fold (adder tcb). by rewrite u32_small by nia.
  - by rewrite Z.add_0_r, set_cWnd_same.
Qed.
Lemma tcb_ok_window w tcb : tcb_ok tcb -> m_segmentSize tcb <= w < 2 ^ 32 -> tcb_ok (set_cWnd w tcb).
Proof. intros [] Hw. by split. Qed.
Lemma new_reno_IncreaseWindow acked tcb : tcb_ok tcb -> 0 <= acked -> m_cWnd tcb + (acked + 1) * m_segmentSize tcb < 2 ^ 32 ->
  exists w, NewReno.IncreaseWindow acked tcb = Some (set_cWnd w tcb) /\ m_cWnd tcb + Z.min acked 1 <= w <= m_cWnd tcb + Z.min acked 2 * m_segmentSize tcb.
Proof.
  intros Hok Ha Hb. pose proof Hok as [[Hs1 Hs2] [Hw1 Hw2] Ht]. unfold NewReno.IncreaseWindow. destruct (Z.ltb_spec (m_cWnd tcb) (m_ssThresh tcb)) as [Hss|Hca].
  - destruct (SlowStart_ok acked tcb Hok Ha Hb) as (w&->&Ew). assert (tcb_ok (set_cWnd w tcb)) as Hok1 by (apply tcb_ok_window; [done|nia]).
    cbn [m_ssThresh m_cWnd set_cWnd]. destruct (Z.leb_spec (m_ssThresh tcb) w); [|exists w; split; [done|nia]].
    rewrite CongestionAvoidance_ok by (done || (cbn [m_cWnd m_segmentSize set_cWnd]; nia) || lia). pose proof (adder_range _ Hok1) as Hadd. cbn [m_cWnd m_segmentSize set_cWnd] in *. eexists. split; [reflexivity|].
    destruct (Z.ltb_spec 0 (Z.max 0 (acked - 1))); nia.
  - rewrite (proj2 (Z.leb_le _ _)) by done. rewrite CongestionAvoidance_ok by done. eexists. split; [reflexivity|]. pose proof (adder_range _ Hok). destruct (Z.ltb_spec 0 acked); nia.
Qed.
#[export] Instance NewReno_laws : CongestionLaws unit.
Proof.
  refine {| ctl_ok := fun _ => True |}.
  - intros acked tcb c Hok _ Ha Hb. destruct (new_reno_IncreaseWindow acked tcb Hok Ha Hb) as (w&E&Hw). exists w, c. cbn. rewrite E. destruct Hok as [Hs _ _]. split_and!; [done|done|lia|nia].
  - intros tcb n c [[Hs1 Hs2] Hw Ht] _ Hn. eexists. split; [reflexivity|]. unfold NewReno.GetSsThresh. rewrite u32_small by lia. pose proof (Z.div_le_upper_bound n 2 n). lia.
Defined.

(** ** TcpLinuxReno and TcpScalable *)

Lemma div_count cnt acked w : 0 <= cnt < w -> 0 <= acked -> (cnt + acked) / w <= acked.
Proof. intros Hc Ha. apply Z.lt_succ_r, Z.div_lt_upper_bound; nia. Qed.
Lemma linux_CongestionAvoidance_ok acked tcb c : tcb_ok tcb -> 0 <= LinuxReno.m_cWndCnt c < 2 ^ 32 -> 0 <= acked -> m_cWnd tcb + (acked + 1) * m_segmentSize tcb < 2 ^ 32 ->
  exists w c', LinuxReno.CongestionAvoidance acked tcb c = Some (set_cWnd w tcb, c') /\ 0 <= LinuxReno.m_cWndCnt c' < 2 ^ 32 /\ m_cWnd tcb <= w <= m_cWnd tcb + (acked + 1) * m_segmentSize tcb.
Proof.
  intros [[Hs1 Hs2] [Hw1 Hw2] Ht] Hc Ha Hb. unfold LinuxReno.CongestionAvoidance. rewrite (proj2 (Z.eqb_neq _ _)) by lia. cbn [negb NS_ASSERT].
  set (q := m_cWnd tcb / m_segmentSize tcb). assert (1 <= q) as Hq by (apply Z.div_le_lower_bound; lia). assert (q * m_segmentSize tcb <= m_cWnd tcb) as Hqm by (pose proof (Z.mul_div_le (m_cWnd tcb) (m_segmentSize tcb)); unfold q; lia).
  rewrite (proj2 (Z.eqb_neq q 0)) by lia. set (x := LinuxReno.m_cWndCnt c) in *.
  assert (exists w0 cnt, (if q <=? x then (set_cWnd (u32 (m_cWnd tcb + m_segmentSize tcb)) tcb, 0) else (tcb, x)) = (set_cWnd w0 tcb, cnt) /\ 0 <= cnt < q /\ m_cWnd tcb <= w0 /\ w0 + (cnt + acked) / q * m_segmentSize tcb <= m_cWnd tcb + (acked + 1) * m_segmentSize tcb) as (w0&cnt&->&Hcnt&Hw0&Hw0').
  { destruct (Z.leb_spec q x).
    - rewrite u32_small by nia. eexists _, 0. split; [reflexivity|]. pose proof (div_count 0 acked q ltac:(lia) Ha). split_and!; [lia|lia|lia|nia].
    - exists (m_cWnd tcb), x. rewrite set_cWnd_same. pose proof (div_count x acked q ltac:(lia) Ha). split_and!; [done|lia|lia|lia|nia]. }
  assert (0 <= cnt + acked < 2 ^ 32) as Hcs by nia. rewrite (u32_small (cnt + acked)) by done. destruct (Z.leb_spec q (cnt + acked)) as [Hge|Hlt].
  - set (delta := (cnt + acked) / q) in *. assert (0 <= delta) by (apply Z.div_pos; lia). assert (delta * q <= cnt + acked) by (pose proof (Z.mul_div_le (cnt + acked) q); unfold delta; lia).
    cbn [m_cWnd m_segmentSize set_cWnd]. rewrite (u32_small (delta * m_segmentSize tcb)), (u32_small (delta * q)) by nia. rewrite (u32_small (w0 + _)), (u32_small (cnt + acked - _)) by nia.
    eexists _, _. split; [reflexivity|]. cbn. split_and!; nia.
  - assert (0 <= (cnt + acked) / q) by (apply Z.div_pos; lia). eexists w0, _. split; [reflexivity|]. cbn. split_and!; nia.
Qed.
#[export] Instance LinuxReno_laws : CongestionLaws LinuxReno.TcpLinuxReno.
Proof.
  refine {| ctl_ok := fun c => 0 <= LinuxReno.m_cWndCnt c < 2 ^ 32 |}.
  - intros acked tcb c Hok Hc Ha Hb. pose proof Hok as [[Hs1 Hs2] [Hw1 Hw2] Ht]. cbn. unfold LinuxReno.IncreaseWindow. destruct (Z.ltb_spec (m_cWnd tcb) (m_ssThresh tcb)) as [Hss|Hca]; [|by apply linux_CongestionAvoidance_ok].
    unfold LinuxReno.SlowStart. destruct (Z.leb_spec 1 acked); [|exists (m_cWnd tcb), c; rewrite set_cWnd_same; split_and!; [done|lia|lia|lia|nia]].
    cbn [m_segmentSize set_cWnd]. rewrite (proj2 (Z.eqb_neq _ _)) by lia. cbn [negb NS_ASSERT]. eexists _, c. split; [reflexivity|]. rewrite (u32_small (acked * _)), u32_small by nia. split_and!; [lia|lia|lia|nia].
  - intros tcb n c [[Hs1 Hs2] Hw Ht] _ Hn. eexists. split; [reflexivity|]. unfold LinuxReno.GetSsThresh. rewrite u32_small by lia. pose proof (Z.div_le_upper_bound (m_cWnd tcb) 2 (m_cWnd tcb)). lia.
Defined.

Definition scalable_ok (c : Scalable.TcpScalable) : Prop := 0 <= Scalable.m_ackCnt c < 2 ^ 32 /\ 1 <= Scalable.m_aiFactor c < 2 ^ 32.
Lemma scalable_CongestionAvoidance_ok acked tcb c : tcb_ok tcb -> scalable_ok c -> 0 <= acked -> m_cWnd tcb + (acked + 1) * m_segmentSize tcb < 2 ^ 32 ->
  exists w c', Scalable.CongestionAvoidance acked tcb c = Some (set_cWnd w tcb, c') /\ scalable_ok c' /\ m_cWnd tcb <= w <= m_cWnd tcb + (acked + 1) * m_segmentSize tcb.
Proof.
  intros [[Hs1 Hs2] [Hw1 Hw2] Ht] [Hc Hai] Ha Hb. unfold Scalable.CongestionAvoidance, GetCwndInSegments. rewrite (proj2 (Z.eqb_neq _ _)) by lia. cbn [negb NS_ASSERT].
  set (q := m_cWnd tcb / m_segmentSize tcb). assert (1 <= q) as Hq by (apply Z.div_le_lower_bound; lia). assert (q * m_segmentSize tcb <= m_cWnd tcb < (q + 1) * m_segmentSize tcb) as Hqm by (pose proof (Z.div_mod (m_cWnd tcb) (m_segmentSize tcb)); pose proof (Z.mod_pos_bound (m_cWnd tcb) (m_segmentSize tcb)); unfold q; lia).
  rewrite (proj2 (Z.leb_le 1 q)) by done. cbn [NS_ASSERT]. set (w := Z.min q (Scalable.m_aiFactor c)). assert (1 <= w <= q) as Hw by lia. set (x := Scalable.m_ackCnt c) in *.
  assert (exists s0 cnt, (if w <=? x then (u32 (q + 1), 0) else (q, x)) = (s0, cnt) /\ 0 <= cnt < w /\ q <= s0 /\ s0 + (cnt + acked) / w <= q + acked + 1) as (s0&cnt&->&Hcnt&Hs0&Hs0').
  { destruct (Z.leb_spec w x).
    - rewrite u32_small by nia. eexists _, 0. split; [reflexivity|]. pose proof (div_count 0 acked w ltac:(lia) Ha). lia.
    - exists q, x. pose proof (div_count x acked w ltac:(lia) Ha). split; [done|lia]. }
  rewrite (u32_small (cnt + acked)) by nia. assert (0 <= (cnt + acked) / w) as Hd by (apply Z.div_pos; lia).
  assert (forall s1 k, q <= s1 <= q + acked + 1 -> 0 <= k < 2 ^ 32 -> exists w' c', Some (if s1 =? q then tcb else set_cWnd (u32 (s1 * m_segmentSize tcb)) tcb, Scalable.mkScalable k (Scalable.m_aiFactor c)) = Some (set_cWnd w' tcb, c') /\ scalable_ok c' /\ m_cWnd tcb <= w' <= m_cWnd tcb + (acked + 1) * m_segmentSize tcb) as Hfin.
  { intros s1 k Hs' Hk. destruct (Z.eqb_spec s1 q); [exists (m_cWnd tcb); rewrite set_cWnd_same|rewrite u32_small by nia; eexists]; eexists; (split; [reflexivity|]); (split; [by split|nia]). }
  destruct (Z.leb_spec w (cnt + acked)); [|apply Hfin; nia]. rewrite (proj2 (Z.eqb_neq w 0)) by lia. cbn [negb NS_ASSERT]. rewrite u32_small by nia. apply Hfin; lia.
Qed.
#[export] Instance Scalable_laws : CongestionLaws Scalable.TcpScalable.
Proof.
  refine {| ctl_ok := scalable_ok |}.
  - intros acked tcb c Hok Hc Ha Hb. pose proof Hok as [[Hs1 Hs2] [Hw1 Hw2] Ht]. cbn. unfold Scalable.IncreaseWindow. destruct (Z.ltb_spec (m_cWnd tcb) (m_ssThresh tcb)) as [Hss|Hca].
    + destruct (SlowStart_ok acked tcb Hok Ha Hb) as (w&->&Ew). assert (tcb_ok (set_cWnd w tcb)) as Hok1 by (apply tcb_ok_window; [done|nia]).
      cbn [m_ssThresh m_cWnd set_cWnd]. destruct (Z.leb_spec (m_ssThresh tcb) w); [|exists w, c; split_and!; [done|done|nia|nia]].
      destruct (scalable_CongestionAvoidance_ok (Z.max 0 (acked - 1)) (set_cWnd w tcb) c Hok1 Hc) as (w'&c'&->&Hc'&Hw'); [lia|cbn [m_cWnd m_segmentSize set_cWnd]; nia|]. cbn [m_cWnd m_segmentSize set_cWnd] in Hw'. exists w', c'. split_and!; [done|done|nia|].
      destruct (decide (acked = 0)) as [->|]; [nia|]. replace (Z.min acked 1) with 1 in Ew by lia. replace (Z.max 0 (acked - 1) + 1) with acked in Hw' by lia. nia.
    + rewrite (proj2 (Z.leb_le _ _)) by done. by apply scalable_CongestionAvoidance_ok.
  - intros tcb n c [[Hs1 Hs2] Hw Ht] _ Hn. cbn. unfold Scalable.GetSsThresh. rewrite (proj2 (Z.eqb_neq _ _)) by lia. cbn [negb NS_ASSERT]. eexists. split; [reflexivity|].
    set (q := n / m_segmentSize tcb). assert (0 <= q /\ q * m_segmentSize tcb <= n) as [Hq1 Hq2] by (split; [apply Z.div_pos; lia|]; pose proof (Z.mul_div_le n (m_segmentSize tcb)); unfold q; lia).
    assert (q * 7 / 8 <= q) by (apply Z.div_le_upper_bound; lia). assert (0 <= q * 7 / 8) by (apply Z.div_pos; lia). rewrite u32_small by nia. nia.
Defined.

(** ** Every congestion control *)

Section Any.
Context {C : Type} `{CongestionLaws C}.


End Any.

(** ** The growth of the window of TcpNewReno *)

Fixpoint acks (l : list Z) (tcb : TcpSocketState) : option TcpSocketState :=
  match l with [] => Some tcb | n :: l => let* tcb := NewReno.IncreaseWindow n tcb in acks l tcb end.

Lemma slow_start_ack n tcb : tcb_ok tcb -> 1 <= n -> m_cWnd tcb + m_segmentSize tcb <= m_ssThresh tcb -> (m_cWnd tcb + m_segmentSize tcb = m_ssThresh tcb -> n = 1) ->
  NewReno.IncreaseWindow n tcb = Some (set_cWnd (m_cWnd tcb + m_segmentSize tcb) tcb).
Proof.
  intros [[Hs1 Hs2] [Hw1 Hw2] Ht] Hn Hle Heq. unfold NewReno.IncreaseWindow, NewReno.SlowStart. rewrite (proj2 (Z.ltb_lt _ _)) by lia. rewrite (proj2 (Z.leb_le 1 n)) by lia. rewrite u32_small by lia.
  cbn [m_ssThresh m_cWnd set_cWnd]. destruct (Z.leb_spec (m_ssThresh tcb) (m_cWnd tcb + m_segmentSize tcb)); [|done].
  rewrite (Heq ltac:(lia)). unfold NewReno.CongestionAvoidance. done.
Qed.
Lemma slow_start_run l tcb : tcb_ok tcb -> Forall (fun k => 1 <= k) l -> m_cWnd tcb + Z.of_nat (length l) * m_segmentSize tcb <= m_ssThresh tcb ->
  (m_cWnd tcb + Z.of_nat (length l) * m_segmentSize tcb = m_ssThresh tcb -> forall k, last l = Some k -> k = 1) ->
  acks l tcb = Some (set_cWnd (m_cWnd tcb + Z.of_nat (length l) * m_segmentSize tcb) tcb).
Proof.
  intros Hok Hl. revert tcb Hok. induction Hl as [|n l Hn Hl IH]; intros tcb Hok Hle Heq; cbn [acks length] in *; [by rewrite Z.mul_0_l, Z.add_0_r, set_cWnd_same|].
  pose proof Hok as [[Hs1 Hs2] [Hw1 Hw2] Ht]. rewrite slow_start_ack; [|done|done|nia|].
  - rewrite IH; [|apply tcb_ok_window; [done|nia]|cbn [m_cWnd m_segmentSize m_ssThresh set_cWnd]; lia|].
    + cbn [m_cWnd m_segmentSize set_cWnd]. unfold set_cWnd. cbn. do 2 f_equal. lia.
    + cbn [m_cWnd m_segmentSize m_ssThresh set_cWnd]. intros E k Hk. apply Heq; [lia|]. by destruct l.
  - intros E. destruct l as [|k l]; [by apply (Heq ltac:(cbn [length]; lia))|]. cbn [length] in Hle. nia.
Qed.
Lemma avoidance_run l tcb b : tcb_ok tcb -> Forall (fun n => 1 <= n) l -> m_ssThresh tcb <= m_cWnd tcb -> b <= m_cWnd tcb -> 0 < b ->
  m_cWnd tcb + Z.of_nat (length l) * m_segmentSize tcb < 2 ^ 32 ->
  exists w, acks l tcb = Some (set_cWnd w tcb) /\ m_cWnd tcb + Z.of_nat (length l) <= w <= m_cWnd tcb + Z.of_nat (length l) * Z.max 1 (m_segmentSize tcb * m_segmentSize tcb / b).
Proof.
  intros Hok Hl. revert tcb Hok. induction Hl as [|n l Hn Hl IH]; intros tcb Hok Hca Hb Hb' Hbig; cbn [acks length] in *; [exists (m_cWnd tcb); rewrite set_cWnd_same; split; [done|lia]|].
  pose proof Hok as [[Hs1 Hs2] [Hw1 Hw2] Ht]. pose proof (adder_range tcb Hok) as Ha. set (q := Z.max 1 (m_segmentSize tcb * m_segmentSize tcb / b)) in *.
  assert (adder tcb <= q) as Hq. { unfold adder, q. apply Z.max_le_compat_l, Z.div_le_compat_l; nia. }
  unfold NewReno.IncreaseWindow. rewrite (proj2 (Z.ltb_ge _ _)), (proj2 (Z.leb_le (m_ssThresh tcb) _)) by done.
  assert (NewReno.CongestionAvoidance n tcb = Some (set_cWnd (m_cWnd tcb + adder tcb) tcb)) as ->.
  { unfold NewReno.CongestionAvoidance. rewrite (proj2 (Z.ltb_lt 0 n)), (proj2 (Z.eqb_neq (m_cWnd tcb) 0)) by lia. cbn [negb NS_ASSERT]. rewrite (u32_small (m_segmentSize tcb * m_segmentSize tcb)) by nia. fold (adder tcb). by rewrite u32_small by nia. }
  destruct (IH (set_cWnd (m_cWnd tcb + adder tcb) tcb)) as (w&->&Hw); [apply tcb_ok_window; [done|nia]|cbn [m_cWnd m_ssThresh m_segmentSize set_cWnd]; nia..|].
  cbn [m_cWnd m_segmentSize set_cWnd] in Hw. fold q in Hw. exists w. split; [done|]. rewrite Nat2Z.inj_succ. nia.
Qed.

(** C20: The window of NewReno grows as RFC 5681 says, per acknowledgement of new data,
    however many segments each of them covers. In slow start it grows by exactly one segment
    for every such acknowledgement, so that acknowledgements of every segment of a window
    double it, as long as it stays below the threshold; the last one may reach the
    threshold if it covers one segment. From the threshold on, each acknowledgement adds at
    least one byte and at most segment^2 / window, rounded down, or one byte: as many of
    them as there are segments in the window add at most the larger of one segment and a
    byte for each of them. *)
Theorem new_reno_growth l tcb : tcb_ok tcb -> Forall (fun k => 1 <= k) l -> let n := Z.of_nat (length l) in let w := m_cWnd tcb in let seg := m_segmentSize tcb in
  (w + n * seg < m_ssThresh tcb \/ w + n * seg = m_ssThresh tcb /\ last l = Some 1 -> acks l tcb = Some (set_cWnd (w + n * seg) tcb)) /\
  (m_ssThresh tcb <= w -> w + n * seg < 2 ^ 32 ->
    exists w', acks l tcb = Some (set_cWnd w' tcb) /\ w + n <= w' <= w + n * Z.max 1 (seg * seg / w) /\ (n * seg <= w -> w' <= w + Z.max seg n)).
Proof.
  intros Hok Hl n w seg. pose proof Hok as [[Hs1 Hs2] [Hw1 Hw2] Ht]. split; [intros Hle; apply slow_start_run; [done|done|unfold n, w, seg in *; lia|]|].
  { intros Eq k Hk. unfold n, w, seg in *. destruct Hle as [|[_ Hl1]]; [lia|]. rewrite Hk in Hl1. by injection Hl1. }
  intros Hca Hbig. destruct (avoidance_run l tcb w Hok Hl Hca) as (w'&E&Hw); [done|unfold w; lia|done|]. fold n w seg in Hw. exists w'. split; [done|]. split; [done|]. intros Hn.
  set (q := seg * seg / w) in *. assert (q * w <= seg * seg) by (pose proof (Z.mul_div_le (seg * seg) w); unfold q, w in *; lia).
  assert (0 <= q) by (apply Z.div_pos; unfold w, seg; lia). assert (n * q <= seg) by (assert (0 <= n) by (unfold n; lia); unfold w, seg in *; nia). assert (0 <= n) by (unfold n; lia). nia.
Qed.
Definition demo_tcb (cWnd ssThresh : Z) : TcpSocketState := mkTcb cWnd cWnd ssThresh 1000 0 false.
Lemma demo_tcb_ok : tcb_ok (demo_tcb 4000 4000).
Proof. split; vm_compute; split; (reflexivity || discriminate). Qed.
(** Slow start with cumulative acknowledgements, and four acknowledgements of a window of
    four segments. *)
Lemma new_reno_growth_witness : acks [2; 2; 1] (demo_tcb 4000 7000) = Some (set_cWnd 7000 (demo_tcb 4000 7000)) /\
  exists w, acks [1; 2; 1; 1] (demo_tcb 4000 4000) = Some (set_cWnd w (demo_tcb 4000 4000)) /\ 4004 <= w <= 5000.
Proof.
  split.
  - apply (new_reno_growth [2; 2; 1] (demo_tcb 4000 7000)); [split; vm_compute; split; (reflexivity || discriminate)|repeat (apply Forall_cons; split; [lia|]); constructor|right; split; reflexivity].
  - destruct (new_reno_growth [1; 2; 1; 1] (demo_tcb 4000 4000) demo_tcb_ok) as [_ Hca]; [repeat (apply Forall_cons; split; [lia|]); constructor|].
    destruct Hca as (w&E&[Hlo _]&Hhi); [discriminate|reflexivity|]. exists w. split; [exact E|]. split; [exact Hlo|apply Hhi; discriminate].
Defined.

(** ** Proportional rate reduction *)

Definition with_inFlight (n : Z) (tcb : TcpSocketState) : TcpSocketState :=
  mkTcb (m_cWnd tcb) (m_cWndInfl tcb) (m_ssThresh tcb) (m_segmentSize tcb) n (m_isRetransDataAcked tcb).
(** An acknowledgement of [delivered] bytes that leaves [inFlight]; the sender then sends
    what the window allows. *)
Definition prr_ack (ack : Z * Z) (x : TcpSocketState * Prr.TcpPrrRecovery) : option (TcpSocketState * Prr.TcpPrrRecovery) :=
  let '(delivered, inFlight) := ack in
  let* (tcb, r) := Prr.DoRecovery delivered (with_inFlight inFlight x.1) x.2 in
  Some (tcb, Prr.UpdateBytesSent (m_cWnd tcb - inFlight) r).
Fixpoint prr_run (l : list (Z * Z)) (x : TcpSocketState * Prr.TcpPrrRecovery) : option (TcpSocketState * Prr.TcpPrrRecovery) :=
  match l with [] => Some x | ack :: l => let* y := prr_ack ack x in prr_run l y end.
Definition delivered_by (l : list (Z * Z)) : Z := foldr (fun a s => a.1 + s) 0 l.

Lemma ceil_div_spec a b : 0 <= a -> 0 < b -> 0 <= Prr.ceil_div a b /\ (Prr.ceil_div a b - 1) * b < a <= Prr.ceil_div a b * b.
Proof. intros Ha Hb. unfold Prr.ceil_div. pose proof (Z.div_mod (- a) b ltac:(lia)). pose proof (Z.mod_pos_bound (- a) b Hb). nia. Qed.
Lemma ceil_div_mono a a' b : 0 < b -> a <= a' -> Prr.ceil_div a b <= Prr.ceil_div a' b.
Proof. intros Hb Ha. unfold Prr.ceil_div. pose proof (Z.div_le_mono (- a') (- a) b Hb). lia. Qed.
(** The recovery after [d] bytes were delivered and [out] sent. *)
Record prr_at (seg ss flight d out : Z) (x : TcpSocketState * Prr.TcpPrrRecovery) : Prop := mkPrrAt {
  pa_segment : m_segmentSize x.1 = seg /\ 0 < seg < 2 ^ 16;
  pa_threshold : m_ssThresh x.1 = ss /\ 0 < ss;
  pa_state : Prr.m_prrDelivered x.2 = d /\ Prr.m_prrOut x.2 = out /\ Prr.m_recoveryFlightSize x.2 = flight;
  pa_range : 0 <= d <= flight /\ flight * ss < 2 ^ 32 /\ 0 <= out < 2 ^ 31
}.
Lemma prr_ack_ok seg ss flight d out delivered inFlight x : prr_at seg ss flight d out x -> 0 <= delivered -> d + delivered <= flight -> 0 < flight -> ss < inFlight < 2 ^ 31 ->
  exists y, prr_ack (delivered, inFlight) x = Some y /\ prr_at seg ss flight (d + delivered) (Z.max (Z.max out (Prr.ceil_div ((d + delivered) * ss) flight)) (if 0 <? out then 0 else seg)) y.
Proof.
  destruct x as [tcb r]. intros [[Es Hs] [Et Ht] (Ed&Eo&Ef) (Hd&Hp&Ho)] Hdl Hle Hfl Hin. cbn [fst snd] in *. unfold prr_ack, Prr.DoRecovery. cbn [fst snd]. rewrite Ed, Eo, Ef.
  rewrite u32_small by nia. unfold Prr.sendCount. cbn [m_ssThresh m_bytesInFlight m_segmentSize with_inFlight Prr.m_recoveryFlightSize Prr.m_prrDelivered Prr.m_prrOut]. rewrite Et, Es.
  rewrite (proj2 (Z.ltb_lt _ _)), (proj2 (Z.eqb_neq flight 0)) by lia. cbn [negb NS_ASSERT]. rewrite u32_small by nia. set (c := Prr.ceil_div ((d + delivered) * ss) flight).
  destruct (ceil_div_spec ((d + delivered) * ss) flight ltac:(nia) Hfl) as [Hc0 Hc]. fold c in Hc0, Hc. assert (c <= ss) as Hcs by nia.
  unfold Prr.to_int. rewrite (proj2 (Z.leb_le _ _)), (proj2 (Z.ltb_lt _ _)) by lia. cbn [andb NS_ASSERT]. replace (i32 seg) with seg by (symmetry; apply swrap_small; lia).
  set (n := Z.max (c - out) (if 0 <? out then 0 else seg)). assert (0 <= n < 2 ^ 31) as Hn by (unfold n; destruct (Z.ltb_spec 0 out); lia). rewrite (u32_small (inFlight + n)) by lia.
  eexists. split; [reflexivity|]. split; cbn; [by rewrite Es|by rewrite Et| |].
  - split_and!; [done| |done]. replace (inFlight + n - inFlight) with n by lia. unfold n. destruct (Z.ltb_spec 0 out); rewrite u32_small by lia; lia.
  - destruct (Z.ltb_spec 0 out); lia.
Qed.
Lemma delivered_nonneg ss l : Forall (fun a => 0 <= a.1 /\ ss < a.2 < 2 ^ 31) l -> 0 <= delivered_by l.
Proof. induction 1 as [|a l [Ha _] _ IH]; [done|]. cbn [delivered_by foldr]. unfold delivered_by in IH. lia. Qed.
Lemma prr_run_ok seg ss flight l : forall d out x, prr_at seg ss flight d out x -> 0 < flight -> Forall (fun a => 0 <= a.1 /\ ss < a.2 < 2 ^ 31) l -> d + delivered_by l <= flight -> l <> [] ->
  out = 0 \/ (seg <= out /\ Prr.ceil_div (d * ss) flight <= out) ->
  exists y, prr_run l x = Some y /\ prr_at seg ss flight (d + delivered_by l) (Z.max seg (Z.max out (Prr.ceil_div ((d + delivered_by l) * ss) flight))) y.
Proof.
  induction l as [|[dl fl] l IH]; intros d out x Hx Hfl Hl Hle Hne Ho; [done|]. apply Forall_cons in Hl as [[Hdl Hin] Hl]. cbn [fst snd delivered_by foldr prr_run] in *. fold (delivered_by l) in *.
  pose proof (delivered_nonneg ss l Hl) as Hd0. pose proof Hx as [[_ Hs] [_ Ht] _ (Hd&_&Hor)].
  destruct (prr_ack_ok seg ss flight d out dl fl x Hx Hdl ltac:(lia) Hfl Hin) as (y&->&Hy). set (c1 := Prr.ceil_div ((d + dl) * ss) flight) in *.
  destruct (ceil_div_spec ((d + dl) * ss) flight ltac:(nia) Hfl) as [Hc0 _]. fold c1 in Hc0. assert (Z.max (Z.max out c1) (if 0 <? out then 0 else seg) = Z.max seg (Z.max out c1)) as E1 by (destruct (Z.ltb_spec 0 out); lia).
  rewrite E1 in Hy. rewrite Z.add_assoc. destruct l as [|a l]; [exists y; cbn [delivered_by foldr]; by rewrite Z.add_0_r|].
  destruct (IH _ _ y Hy Hfl Hl ltac:(lia) ltac:(done)) as (z&->&Hz); [right; fold c1; lia|]. exists z. split; [done|].
  assert (c1 <= Prr.ceil_div ((d + dl + delivered_by (a :: l)) * ss) flight) by (apply ceil_div_mono; [done|nia]). by replace (Z.max seg (Z.max out (Prr.ceil_div ((d + dl + delivered_by (a :: l)) * ss) flight))) with (Z.max seg (Z.max (Z.max seg (Z.max out c1)) (Prr.ceil_div ((d + dl + delivered_by (a :: l)) * ss) flight))) by lia.
Qed.

(** C19: Proportional rate reduction keeps its promise (RFC 6937): while more is in flight
    than the threshold, the bytes sent during recovery are, after every acknowledgement,
    the proportion threshold / flight size of the bytes delivered, rounded up, and at least
    the one segment that is sent at once; when everything was delivered they are the
    threshold. This holds while delivered bytes times threshold fit in 32 bits. *)
Theorem prr_proportional tcb mode seg ss flight l : m_segmentSize tcb = seg -> m_ssThresh tcb = ss -> 0 < seg < 2 ^ 16 -> seg <= ss -> 0 < flight -> flight * ss < 2 ^ 32 -> l <> [] ->
  Forall (fun a => 0 <= a.1 /\ ss < a.2 < 2 ^ 31) l -> delivered_by l <= flight ->
  exists tcb' r', prr_run l (tcb, Prr.mkPrr 0 0 flight mode) = Some (tcb', r') /\ Prr.m_prrOut r' = Z.max seg (Prr.ceil_div (delivered_by l * ss) flight) /\
    (delivered_by l = flight -> Prr.m_prrOut r' = ss).
Proof.
  intros Es Et Hs Hss Hfl Hb Hne Hl Hle. destruct (prr_run_ok seg ss flight l 0 0 (tcb, Prr.mkPrr 0 0 flight mode)) as ([tcb' r']&E&[_ _ (_&Eo&_) _]); [|done|done|done|done|by left|].
  { split; cbn; [done|split; [done|lia]|done|split_and!; lia]. }
  cbn [fst snd] in *. rewrite Z.add_0_l in Eo. exists tcb', r'. split; [done|]. pose proof (ceil_div_spec (delivered_by l * ss) flight) as Hc. pose proof (delivered_nonneg ss l Hl) as Hd0.
  destruct Hc as [Hc0 Hc]; [nia|done|]. split; [lia|]. intros Ed. rewrite Ed in *. assert (Prr.ceil_div (flight * ss) flight = ss) by nia. lia.
Qed.
Lemma prr_proportional_witness : exists tcb' r', prr_run [(1000, 9000); (5000, 8000); (4000, 6000)] (demo_tcb 10000 5000, Prr.mkPrr 0 0 10000 Prr.SSRB) = Some (tcb', r') /\ Prr.m_prrOut r' = 5000.
Proof.
  destruct (prr_proportional (demo_tcb 10000 5000) Prr.SSRB 1000 5000 10000 [(1000, 9000); (5000, 8000); (4000, 6000)]) as (tcb'&r'&E&_&Ho); [reflexivity|reflexivity|lia|lia|lia|lia|discriminate| |vm_compute; discriminate|].
  - repeat (apply Forall_cons; split; [cbn; lia|]). constructor.
  - exists tcb', r'. split; [exact E|exact (Ho eq_refl)].
Defined.
(** The product of the bytes delivered and the threshold is a 32-bit number: with 120000
    bytes in flight and a threshold of 60000, 100000 delivered bytes allow 14209 bytes
    instead of 50000. *)
Lemma prr_product_wraps : Prr.sendCount 0 (with_inFlight 70000 (demo_tcb 70000 60000)) (Prr.mkPrr 100000 0 120000 Prr.SSRB) = Some 14209.
Proof. vm_compute. reflexivity. Qed.
(** With slow start reduction bound the limit is meant to be at least what the
    acknowledgement delivered and a segment; when more was sent than delivered the
    difference is a large unsigned number, and the limit is below that. *)
Lemma prr_unsigned_limit : let tcb := mkTcb 5000 5000 9000 1000 4000 true in
  Prr.sendCount 1000 tcb (Prr.mkPrr 4000 4900 10000 Prr.SSRB) = Some 100 /\ Z.min (Z.max (4000 - 4900) 1000 + 1000) (9000 - 4000) = 2000.
Proof. vm_compute. done. Qed.
(** ** Round trip times *)

Definition measure (s v : Z) (l : list Z) (r : RttEstimator) : RttEstimator := foldl (fun r m => Measurement s v m r) r l.
(** Estimates within [lo] and [hi]; there may be none yet. *)
Record rtt_ok (lo hi : Z) (r : RttEstimator) : Prop := mkRttOk {
  ro_estimate : lo <= m_estimatedRtt r <= hi;
  ro_variation : 0 <= m_estimatedVariation r <= hi
}.
Lemma shift_range s : 1 <= s <= 5 -> 2 <= 2 ^ s <= 32.
Proof. intros Hs. split; [apply (Z.pow_le_mono_r 2 1 s)|apply (Z.pow_le_mono_r 2 s 5)]; lia. Qed.
(** A weighted mean rounded down stays within the bounds of its terms. *)
Lemma mean_range a b p lo hi : 2 <= p -> lo <= a <= hi -> lo <= b <= hi -> lo <= (a * p + (b - a)) / p <= hi.
Proof.
  intros Hp Ha Hb. split.
  - apply Z.div_le_lower_bound; [lia|]. nia.
  - apply Z.div_le_upper_bound; [lia|]. nia.
Qed.
Lemma scaled_small a p d : 0 <= a < 2 ^ 57 -> - 2 ^ 57 < d < 2 ^ 57 -> 2 <= p <= 32 -> i64 (i64 (a * p) + d) = a * p + d.
Proof. intros Ha Hd Hp. rewrite (i64_small (a * p)) by nia. apply i64_small. nia. Qed.
(** The shifts are the weighted means of Jacobson and Karels. *)
Lemma IntegerUpdate_means s v m r hi : 1 <= s <= 5 -> 1 <= v <= 5 -> hi < 2 ^ 57 -> 0 <= m <= hi -> rtt_ok 0 hi r ->
  IntegerUpdate m s v r = mkRtt (m_initialEstimatedRtt r) ((m_estimatedRtt r * 2 ^ s + (m - m_estimatedRtt r)) / 2 ^ s)
    ((m_estimatedVariation r * 2 ^ v + (Z.abs (m - m_estimatedRtt r) - m_estimatedVariation r)) / 2 ^ v) (m_nSamples r).
Proof.
  intros Hs Hv Hhi Hm [He Hvar]. pose proof (shift_range s Hs). pose proof (shift_range v Hv). unfold IntegerUpdate. rewrite !Z.shiftl_mul_pow2, !Z.shiftr_div_pow2 by lia.
  rewrite (i64_small (m - m_estimatedRtt r)) by lia. rewrite scaled_small by lia.
  assert ((if m - m_estimatedRtt r <? 0 then i64 (- (m - m_estimatedRtt r)) else m - m_estimatedRtt r) = Z.abs (m - m_estimatedRtt r)) as ->
    by (destruct (Z.ltb_spec (m - m_estimatedRtt r) 0); [rewrite i64_small by lia|]; lia).
  rewrite (i64_small (Z.abs _ - _)) by lia. by rewrite scaled_small by lia.
Qed.
Lemma Measurement_ok s v m r lo hi : 1 <= s <= 5 -> 1 <= v <= 5 -> 0 <= lo -> hi < 2 ^ 57 -> lo <= m <= hi -> m_nSamples r = 0 \/ rtt_ok lo hi r -> rtt_ok lo hi (Measurement s v m r).
Proof.
  intros Hs Hv Hlo Hhi Hm Hr. unfold Measurement. destruct (Z.eqb_spec (m_nSamples r) 0) as [E|E]; cbn [negb].
  - split; cbn; [done|]. rewrite Z.quot_div_nonneg by lia. split; [apply Z.div_pos; lia|]. apply Z.div_le_upper_bound; lia.
  - destruct Hr as [?|[He Hvar]]; [done|]. rewrite (IntegerUpdate_means s v m r hi) by (done || lia || (split; lia)).
    split; cbn [m_estimatedRtt m_estimatedVariation]; apply mean_range; lia || by apply shift_range.
Qed.
Lemma measure_ok s v lo hi l r : 1 <= s <= 5 -> 1 <= v <= 5 -> 0 <= lo -> hi < 2 ^ 57 -> Forall (fun m => lo <= m <= hi) l -> rtt_ok lo hi r -> rtt_ok lo hi (measure s v l r).
Proof. intros Hs Hv Hlo Hhi Hl. revert r. induction Hl as [|m l Hm Hl IH]; intros r Hr; [done|]. apply IH, Measurement_ok; auto. Qed.
Lemma rto_range g lowest lo hi r : 0 <= lo -> hi < 2 ^ 57 -> 0 <= g < 2 ^ 57 -> rtt_ok lo hi r -> lo <= rto g lowest r /\ lowest <= rto g lowest r <= Z.max lowest (hi + Z.max g (4 * hi)).
Proof. intros Hlo Hhi Hg [He Hv]. unfold rto. rewrite (i64_small (_ * 4)) by lia. rewrite i64_small by lia. lia. Qed.
(** Timeouts in a row double the timer up to the limit. *)
Lemma rto_backoff n limit t : 0 <= t <= limit -> limit < 2 ^ 61 -> Nat.iter n (double_rto limit) t = Z.min (2 ^ Z.of_nat n * t) limit.
Proof.
  intros Ht Hl. induction n as [|n IH]; [change (2 ^ Z.of_nat 0) with 1; cbn; lia|]. change (Nat.iter (S n) (double_rto limit) t) with (double_rto limit (Nat.iter n (double_rto limit) t)). rewrite IH, Nat2Z.inj_succ, Z.pow_succ_r by lia.
  assert (0 <= 2 ^ Z.of_nat n * t) by (apply Z.mul_nonneg_nonneg; [apply Z.pow_nonneg|]; lia). unfold double_rto. rewrite i64_small by lia. lia.
Qed.

(** An estimator that has seen the sample [m] only, [n] times more than once. *)
Lemma measure_same s v m n r : 1 <= s <= 5 -> 1 <= v <= 5 -> 0 <= m < 2 ^ 57 -> 0 < m_nSamples r -> m_nSamples r + Z.of_nat n < 2 ^ 32 -> m_estimatedRtt r = m -> 0 <= m_estimatedVariation r <= m ->
  let r' := measure s v (replicate n m) r in
  m_estimatedRtt r' = m /\ 0 <= m_estimatedVariation r' /\ (2 ^ v) ^ Z.of_nat n * m_estimatedVariation r' <= (2 ^ v - 1) ^ Z.of_nat n * m_estimatedVariation r.
Proof.
  intros Hs Hv Hm. pose proof (shift_range v Hv) as Hq. revert r. induction n as [|n IH]; intros r Hn Hlt He Hvar; [cbn; lia|]. cbn [replicate measure foldl].
  pose proof (IntegerUpdate_means s v m r m Hs Hv ltac:(lia) ltac:(lia) ltac:(split; lia)) as Hu. rewrite He, Z.sub_diag, Z.add_0_r, Z.div_mul in Hu by (apply Z.pow_nonzero; lia). cbn [Z.abs] in Hu.
  set (x := m_estimatedVariation r) in *. set (x' := (x * 2 ^ v + (0 - x)) / 2 ^ v) in *. assert (2 ^ v * x' <= (2 ^ v - 1) * x) as Hx by (pose proof (Z.mul_div_le (x * 2 ^ v + (0 - x)) (2 ^ v)); unfold x'; lia).
  assert (0 <= x') as Hx0 by (apply Z.div_pos; nia). assert (Measurement s v m r = mkRtt (m_initialEstimatedRtt r) m x' (m_nSamples r + 1)) as ->.
  { unfold Measurement. rewrite (proj2 (Z.eqb_neq _ _)) by lia. cbn [negb]. rewrite Hu. cbn. by rewrite u32_small by lia. }
  destruct (IH (mkRtt (m_initialEstimatedRtt r) m x' (m_nSamples r + 1))) as (E&H0&Hb); cbn [m_nSamples m_estimatedRtt m_estimatedVariation] in *; [lia|lia|done|nia|]. split; [done|]. split; [done|].
  rewrite Nat2Z.inj_succ, !Z.pow_succ_r by lia. assert (0 <= (2 ^ v - 1) ^ Z.of_nat n) by (apply Z.pow_nonneg; lia). unfold measure in *. nia.
Qed.

(** C21: The round trip time estimator follows its samples, whatever their order. For
    gains 1/2 to 1/32, after any samples between [lo] and [hi] the estimate is between
    them, the variation is at most [hi], and the retransmission timeout is at least the
    estimate's lower bound and the minimum, and at most the larger of the minimum and
    [hi] plus four times [hi] or the clock granularity. When all samples agree, the estimate
    is that sample and the variation shrinks geometrically to 0. *)
Theorem rtt_follows_samples s v initial : 1 <= s <= 5 -> 1 <= v <= 5 ->
  (forall lo hi g lowest l, 0 <= lo -> hi < 2 ^ 57 -> 0 <= g < 2 ^ 57 -> l <> [] -> Forall (fun m => lo <= m <= hi) l ->
    let r := measure s v l (RttEstimator_new initial) in
    lo <= m_estimatedRtt r <= hi /\ 0 <= m_estimatedVariation r <= hi /\ lo <= rto g lowest r /\ lowest <= rto g lowest r <= Z.max lowest (hi + Z.max g (4 * hi))) /\
  (forall m n, 0 <= m < 2 ^ 57 -> 1 + Z.of_nat n < 2 ^ 32 ->
    let r := measure s v (replicate (S n) m) (RttEstimator_new initial) in
    m_estimatedRtt r = m /\ 0 <= m_estimatedVariation r /\ (2 ^ v) ^ Z.of_nat n * m_estimatedVariation r <= (2 ^ v - 1) ^ Z.of_nat n * (m / 2)).
Proof.
  intros Hs Hv. split.
  - intros lo hi g lowest [|m l] Hlo Hhi Hg Hne Hl; [done|]. apply Forall_cons in Hl as [Hm Hl]. assert (rtt_ok lo hi (measure s v (m :: l) (RttEstimator_new initial))) as Hr.
    { apply (measure_ok s v lo hi l); auto. apply Measurement_ok; auto. }
    pose proof (rto_range g lowest lo hi _ Hlo Hhi Hg Hr). destruct Hr. done.
  - intros m n Hm Hn. cbn [replicate]. assert (Measurement s v m (RttEstimator_new initial) = mkRtt initial m (m / 2) 1) as E by (unfold Measurement; cbn; by rewrite Z.quot_div_nonneg by lia).
    assert (0 <= m / 2 <= m) by (split; [apply Z.div_pos; lia|apply Z.div_le_upper_bound; lia]). unfold measure. cbn [foldl]. rewrite E. by apply (measure_same s v m n (mkRtt initial m (m / 2) 1)).
Qed.
(** With the default gains, samples of 80 to 120 and a minimal timeout of 200. *)
Lemma rtt_follows_samples_witness : 80 <= m_estimatedRtt (measure 3 2 [100; 120; 80] (RttEstimator_new 1000)) <= 120 /\
  m_estimatedRtt (measure 3 2 (replicate 5 100) (RttEstimator_new 1000)) = 100.
Proof.
  destruct (rtt_follows_samples 3 2 1000) as [Hr He]; [lia|lia|]. split.
  - apply (Hr 80 120 1 200 [100; 120; 80]); [lia|lia|lia|discriminate|]. repeat (apply Forall_cons; split; [lia|]). constructor.
  - apply (He 100 4%nat); lia.
Defined.
End TcpCongestionProps.
