(* ===== verification/Ipv4Address.v ===== *)
(** * IPv4 addresses, masks and interface addresses
    (src/network/utils/ipv4-address.cc, src/internet/model/ipv4-interface-address.cc)

    An [Ipv4Address] and an [Ipv4Mask] are their 32-bit numbers [m_address] and
    [m_mask]. The flag [m_initialized] takes no part in the operations of this
    file; the one place that reads it, the gateway of a route, keeps it there. *)

From S2P Require Import Prelude Buffer BufferInv.

Module Ipv4Mask.

Definition Ipv4Mask_default : Z := 0x66666666.
Definition GetLoopback : Z := 0xff000000.
Definition GetZero : Z := 0.
Definition GetOnes : Z := 0xffffffff.

(** The constructor from a string [/plen]. *)
Definition Ipv4Mask_prefix (plen : Z) : option Z :=
  assert* plen <=? 32 in
  Some (if 0 <? plen then u32 (Z.shiftl 0xffffffff (32 - plen)) else 0).

Definition IsMatch (mask a b : Z) : bool := Z.land a mask =? Z.land b mask.
Definition GetInverse (mask : Z) : Z := u32 (Z.lnot mask).

(** The shifting loop; a mask of 32 bits is zero after at most 32 shifts. *)
Fixpoint prefix_loop (fuel : nat) (mask tmp : Z) : option Z :=
  if mask =? 0 then Some tmp
  else match fuel with O => None | S fuel' => prefix_loop fuel' (u32 (Z.shiftl mask 1)) (u16 (tmp + 1)) end.
Definition GetPrefixLength (mask : Z) : option Z := prefix_loop 32 mask 0.

(** ** Facts *)

Lemma shiftl1_land m k : 0 <= k -> u32 (Z.shiftl (u32 (Z.shiftl m k)) 1) = u32 (Z.shiftl m (k + 1)).
Proof.
  intros Hk. rewrite !Z.shiftl_mul_pow2 by lia. unfold u32, wrap. rewrite Zmult_mod_idemp_l. f_equal.
  rewrite Z.pow_add_r by lia. lia.
Qed.

(** After [k] shifts the loop holds the low bits of the mask. *)
Lemma prefix_loop_ok fuel m k n :
  0 <= k <= n -> n <= 32 -> n - k <= Z.of_nat fuel ->
  (forall j, k <= j < n -> u32 (Z.shiftl m j) <> 0) -> u32 (Z.shiftl m n) = 0 ->
  prefix_loop fuel (u32 (Z.shiftl m k)) k = Some n.
Proof.
  revert k. induction fuel as [|fuel IH]; intros k Hk Hn Hf Hne Hz.
  - assert (k = n) as -> by lia. simpl. rewrite Hz. done.
  - simpl. destruct (Z.eqb_spec (u32 (Z.shiftl m k)) 0) as [E|E].
    + destruct (Z.eq_dec k n) as [->|]; [done | destruct (Hne k); [lia | done]].
    + assert (k <> n) by congruence. rewrite shiftl1_land by lia.
      unfold u16. rewrite wrap_small by lia. apply IH; try lia; try done. intros j Hj. apply Hne. lia.
Qed.

Lemma shift_zero_iff m n : 0 <= m < 2 ^ 32 -> 0 <= n <= 32 ->
  (u32 (Z.shiftl m n) = 0 <-> m mod 2 ^ (32 - n) = 0).
Proof.
  intros Hm Hn. rewrite Z.shiftl_mul_pow2 by lia. unfold u32, wrap.
  replace (2 ^ 32) with (2 ^ (32 - n) * 2 ^ n) by (rewrite <- Z.pow_add_r by lia; f_equal; lia).
  rewrite Z.mul_mod_distr_r by (apply Z.pow_nonzero; lia).
  pose proof (Z.pow_pos_nonneg 2 n). nia.
Qed.

(** The number of leading bits of the mask, counted to its last set bit. *)
Lemma GetPrefixLength_spec m n :
  0 <= m < 2 ^ 32 -> 0 <= n <= 32 ->
  (GetPrefixLength m = Some n <-> m mod 2 ^ (32 - n) = 0 /\ (forall j, 0 <= j < n -> m mod 2 ^ (32 - j) <> 0)).
Proof.
  intros Hm Hn. assert (forall k, 0 <= k <= 32 -> m mod 2 ^ (32 - k) = 0 ->
    (forall j, 0 <= j < k -> m mod 2 ^ (32 - j) <> 0) -> GetPrefixLength m = Some k) as Hk.
  { intros k Hr Hz Hne. unfold GetPrefixLength.
    rewrite <- (u32_small m) by lia. replace (u32 m) with (u32 (Z.shiftl m 0)) by (f_equal; apply Z.shiftl_0_r).
    apply prefix_loop_ok; try lia; [intros j Hj | by apply shift_zero_iff].
    rewrite shift_zero_iff by lia. by apply Hne. }
  split; [| by intros []; apply Hk].
  intros E. assert (exists k, 0 <= k <= 32 /\ m mod 2 ^ (32 - k) = 0 /\ forall j, 0 <= j < k -> m mod 2 ^ (32 - j) <> 0)
    as (k & Hr & Hz & Hne).
  { assert (forall f : nat, (f <= 33)%nat ->
      (exists k, 0 <= k < Z.of_nat f /\ m mod 2 ^ (32 - k) = 0 /\ forall j, 0 <= j < k -> m mod 2 ^ (32 - j) <> 0) \/
      (forall j, 0 <= j < Z.of_nat f -> m mod 2 ^ (32 - j) <> 0)) as Hs.
    { induction f as [|f IH]; intros Hf; [right; lia |]. destruct (IH ltac:(lia)) as [(k & ? & ?)|Hno].
      - left. exists k. split; [lia | done].
      - destruct (Z.eq_dec (m mod 2 ^ (32 - Z.of_nat f)) 0) as [Ez|Ez].
        + left. exists (Z.of_nat f). split; [lia | done].
        + right. intros j Hj. destruct (Z.eq_dec j (Z.of_nat f)) as [->|]; [done | apply Hno; lia]. }
    destruct (Hs 33%nat ltac:(lia)) as [(k & ? & ?)|Hno]; [exists k; split; [lia | done] |].
    destruct (Hno 32); [lia |]. simpl. apply Z.mod_1_r. }
  rewrite (Hk k Hr Hz Hne) in E. injection E as ->. done.
Qed.

Lemma GetPrefixLength_total m : 0 <= m < 2 ^ 32 -> exists n, GetPrefixLength m = Some n /\ 0 <= n <= 32.
Proof.
  intros Hm. assert (forall fuel k, 0 <= k -> 32 - k <= Z.of_nat fuel -> k <= 32 ->
    exists n, prefix_loop fuel (u32 (Z.shiftl m k)) k = Some n /\ 0 <= n <= 32) as H.
  { induction fuel as [|fuel IH]; intros k Hk Hf Hk2.
    - assert (k = 32) as -> by lia. exists 32. simpl. split; [| lia].
      by rewrite (proj2 (shift_zero_iff m 32 Hm ltac:(lia)) ltac:(apply Z.mod_1_r)).
    - simpl. destruct (Z.eqb_spec (u32 (Z.shiftl m k)) 0) as [E|E]; [by exists k |].
      destruct (Z.eq_dec k 32) as [->|].
      { destruct E. apply (shift_zero_iff m 32 Hm); [lia | apply Z.mod_1_r]. }
      rewrite shiftl1_land by lia. unfold u16. rewrite wrap_small by lia. apply IH; lia. }
  destruct (H 32%nat 0) as (n & E & Hn); try lia. exists n. split; [| done]. unfold GetPrefixLength. rewrite <- E.
  by rewrite Z.shiftl_0_r, u32_small by lia.
Qed.

Lemma Ipv4Mask_prefix_value n : 0 <= n <= 32 -> Ipv4Mask_prefix n = Some (2 ^ 32 - 2 ^ (32 - n)).
Proof.
  intros Hn. unfold Ipv4Mask_prefix. rewrite (proj2 (Z.leb_le n 32)) by lia. simpl. f_equal.
  destruct (Z.ltb_spec 0 n); [| by replace n with 0 by lia].
  rewrite Z.shiftl_mul_pow2 by lia. unfold u32, wrap.
  replace (4294967295 * 2 ^ (32 - n)) with ((2 ^ 32 - 2 ^ (32 - n)) + (2 ^ (32 - n) - 1) * 2 ^ 32) by (simpl (2 ^ 32); lia).
  rewrite Z_mod_plus_full. apply Z.mod_small.
  pose proof (Z.pow_pos_nonneg 2 (32 - n)). pose proof (Z.pow_le_mono_r 2 (32 - n) 32). lia.
Qed.

Lemma land_prefix a n : 0 <= a < 2 ^ 32 -> 0 <= n <= 32 ->
  Z.land a (2 ^ 32 - 2 ^ (32 - n)) = a / 2 ^ (32 - n) * 2 ^ (32 - n).
Proof.
  intros Ha Hn. replace (2 ^ 32 - 2 ^ (32 - n)) with (Z.shiftl (Z.ones n) (32 - n)).
  2: { rewrite Z.shiftl_mul_pow2, Z.ones_equiv by lia. replace (2 ^ 32) with (2 ^ n * 2 ^ (32 - n))
         by (rewrite <- Z.pow_add_r by lia; f_equal; lia). lia. }
  rewrite <- (Z.shiftl_mul_pow2 _ (32 - n)), <- Z.shiftr_div_pow2 by lia. apply Z.bits_inj'. intros i Hi.
  rewrite Z.land_spec, !Z.shiftl_spec by lia. destruct (Z.lt_ge_cases i (32 - n)).
  - by rewrite !(Z.testbit_neg_r _ (i - (32 - n))), andb_false_r by lia.
  - rewrite Z.shiftr_spec by lia. replace (i - (32 - n) + (32 - n)) with i by lia.
    destruct (Z.lt_ge_cases i 32); [rewrite Z.ones_spec_low by lia; apply andb_true_r |].
    rewrite (Z.bits_above_log2 a) by (lia || (destruct (Z.eq_dec a 0) as [->|]; [simpl; lia | apply Z.log2_lt_pow2; [lia |];
      pose proof (Z.pow_le_mono_r 2 32 i); lia])). done.
Qed.

(** The mask written [/n] has prefix length [n], matches two addresses
    exactly when their first [n] bits agree, and its inverse has the other
    [32 - n] bits. *)
Theorem prefix_mask_correct n a b :
  0 <= n <= 32 -> 0 <= a < 2 ^ 32 -> 0 <= b < 2 ^ 32 ->
  exists mask, Ipv4Mask_prefix n = Some mask /\ GetPrefixLength mask = Some n /\
    (IsMatch mask a b = true <-> a / 2 ^ (32 - n) = b / 2 ^ (32 - n)) /\
    GetInverse mask = 2 ^ (32 - n) - 1.
Proof.
  intros Hn Ha Hb. exists (2 ^ 32 - 2 ^ (32 - n)).
  assert (0 < 2 ^ (32 - n) <= 2 ^ 32) by (split; [apply Z.pow_pos_nonneg; lia | apply Z.pow_le_mono_r; lia]).
  split_and!; [by apply Ipv4Mask_prefix_value | | |].
  - apply GetPrefixLength_spec; [lia.. |].
    assert (forall j, 0 <= j <= n -> 2 ^ 32 mod 2 ^ (32 - j) = 0 /\ 2 ^ (32 - n) <= 2 ^ (32 - j)) as Hj.
    { intros j Hj. split; [| apply Z.pow_le_mono_r; lia].
      replace (2 ^ 32) with (2 ^ j * 2 ^ (32 - j)) by (rewrite <- Z.pow_add_r by lia; f_equal; lia).
      apply Z.mod_mul. apply Z.pow_nonzero; lia. }
    split.
    + rewrite Zminus_mod, (proj1 (Hj n ltac:(lia))), Z_mod_same_full. done.
    + intros j Hjn E. destruct (Hj j ltac:(lia)) as [Hm _].
      rewrite Zminus_mod, Hm in E. assert (2 ^ (32 - n) < 2 ^ (32 - j)) by (apply Z.pow_lt_mono_r; lia).
      rewrite (Z.mod_small (2 ^ (32 - n))) in E by lia. apply Z.mod_divide in E as [q Hq]; [destruct (Z.lt_ge_cases q 0); nia | lia].
  - unfold IsMatch. rewrite !land_prefix by lia. rewrite Z.eqb_eq. nia.
  - unfold GetInverse, u32, wrap, Z.lnot.
    replace (Z.pred (- (2 ^ 32 - 2 ^ (32 - n)))) with (2 ^ (32 - n) - 1 + (-1) * 2 ^ 32) by lia.
    rewrite Z_mod_plus_full. apply Z.mod_small. lia.
Qed.

Lemma prefix_mask_correct_witness :
  exists mask, Ipv4Mask_prefix 24 = Some mask /\ GetPrefixLength mask = Some 24.
Proof.
  destruct (prefix_mask_correct 24 0x0a010203 0x0a0102ff ltac:(lia) ltac:(lia) ltac:(lia)) as (m & A & B & _).
  exists m. split; [exact A | exact B].
Defined.

End Ipv4Mask.

Module Ipv4Address.
Import Ipv4Mask.

Definition Ipv4Address_default : Z := 0x66666666.
Definition GetAny : Z := 0.
Definition GetBroadcast : Z := 0xffffffff.
Definition GetLoopback : Z := 0x7f000001.

Definition CombineMask (a mask : Z) : Z := Z.land a mask.
Definition GetSubnetDirectedBroadcast (a mask : Z) : option Z :=
  assert* negb (mask =? GetOnes) in Some (Z.lor a (GetInverse mask)).
Definition IsSubnetDirectedBroadcast (a mask : Z) : bool :=
  if mask =? GetOnes then false else Z.lor a mask =? GetBroadcast.
Definition IsAny (a : Z) : bool := a =? 0.
Definition IsLocalhost (a : Z) : bool := a =? 0x7f000001.
Definition IsBroadcast (a : Z) : bool := a =? 0xffffffff.
Definition IsMulticast (a : Z) : bool := (0xe0000000 <=? a) && (a <=? 0xefffffff).
Definition IsLocalMulticast (a : Z) : bool := Z.land a 0xffffff00 =? 0xe0000000.

Definition Serialize (a : Z) : list Z :=
  [Z.land (Z.shiftr a 24) 0xff; Z.land (Z.shiftr a 16) 0xff; Z.land (Z.shiftr a 8) 0xff; Z.land (Z.shiftr a 0) 0xff].
(** The four bytes of [buf]; a shorter array is an access out of range. *)
Definition Deserialize (buf : list Z) : option Z :=
  match buf with
  | b0 :: b1 :: b2 :: b3 :: _ =>
      let a := Z.lor 0 b0 in
      let a := Z.lor (u32 (Z.shiftl a 8)) b1 in
      let a := Z.lor (u32 (Z.shiftl a 8)) b2 in
      Some (Z.lor (u32 (Z.shiftl a 8)) b3)
  | _ => None
  end.

(** ** Facts *)

Lemma local_multicast_range a : 0 <= a < 2 ^ 32 ->
  (IsLocalMulticast a = true <-> 0xe0000000 <= a <= 0xe00000ff).
Proof.
  intros Ha. unfold IsLocalMulticast. replace 0xffffff00 with (2 ^ 32 - 2 ^ (32 - 24)) by reflexivity.
  rewrite land_prefix by lia. rewrite Z.eqb_eq. pose proof (Z.div_mod a (2 ^ (32 - 24))).
  pose proof (Z.mod_pos_bound a (2 ^ (32 - 24))). simpl in *. lia.
Qed.

End Ipv4Address.

(** ** Addresses of an interface (ipv4-interface-address.cc) *)

Module Ipv4InterfaceAddress.
Import Ipv4Mask Ipv4Address.

(** [InterfaceAddressScope_e], in the order of the enumeration. *)
Inductive Scope := HOST | LINK | GLOBAL.
#[export] Instance Scope_eq_dec : EqDecision Scope.
Proof. solve_decision. Defined.
Definition scope_rank (s : Scope) : Z := match s with HOST => 0 | LINK => 1 | GLOBAL => 2 end.

Record Ipv4InterfaceAddress := mkIfAddr {
  m_local : Z;
  m_mask : Z;
  m_broadcast : Z;
  m_scope : Scope;
  m_secondary : bool
}.
#[export] Instance IfAddr_eq_dec : EqDecision Ipv4InterfaceAddress.
Proof. solve_decision. Defined.

Definition InterfaceAddress_default : Ipv4InterfaceAddress :=
  mkIfAddr Ipv4Address_default Ipv4Mask_default Ipv4Address_default GLOBAL false.
Definition InterfaceAddress_new (local mask : Z) : Ipv4InterfaceAddress :=
  mkIfAddr local mask (Z.lor local (u32 (Z.lnot mask))) (if local =? GetLoopback then HOST else GLOBAL) false.
Definition IsInSameSubnet (b : Z) (a : Ipv4InterfaceAddress) : bool :=
  CombineMask (m_local a) (m_mask a) =? CombineMask b (m_mask a).
Definition SetSecondary (a : Ipv4InterfaceAddress) : Ipv4InterfaceAddress :=
  mkIfAddr (m_local a) (m_mask a) (m_broadcast a) (m_scope a) true.
Definition SetPrimary (a : Ipv4InterfaceAddress) : Ipv4InterfaceAddress :=
  mkIfAddr (m_local a) (m_mask a) (m_broadcast a) (m_scope a) false.
Definition SetLocal (local : Z) (a : Ipv4InterfaceAddress) : Ipv4InterfaceAddress :=
  mkIfAddr local (m_mask a) (m_broadcast a) (m_scope a) (m_secondary a).
Definition SetMask (mask : Z) (a : Ipv4InterfaceAddress) : Ipv4InterfaceAddress :=
  mkIfAddr (m_local a) mask (m_broadcast a) (m_scope a) (m_secondary a).
Definition SetBroadcast (broadcast : Z) (a : Ipv4InterfaceAddress) : Ipv4InterfaceAddress :=
  mkIfAddr (m_local a) (m_mask a) broadcast (m_scope a) (m_secondary a).
Definition SetScope (scope : Scope) (a : Ipv4InterfaceAddress) : Ipv4InterfaceAddress :=
  mkIfAddr (m_local a) (m_mask a) (m_broadcast a) scope (m_secondary a).

End Ipv4InterfaceAddress.
