(* ===== verification/Ipv4Interface.v ===== *)
(** * IPv4 interfaces (src/internet/model/ipv4-interface.cc) and the interface
    table of Ipv4L3Protocol (src/internet/model/ipv4-l3-protocol.cc)

    An interface binds a device to a list of addresses. A device is seen through
    the operations of [NetDevice] the code calls; sending returns the calls made
    to the device, the traffic control layer and ARP. *)

From S2P Require Import Prelude Ipv4Address.
Import Ipv4Mask Ipv4Address Ipv4InterfaceAddress.

Module Ipv4Interface.

(** The device an interface is bound to: its identity and what
    [GetMtu], [NeedsArp], [IsMulticast] and the cast to [LoopbackNetDevice] give. *)
Record NetDevice := mkDevice {
  dev_id : Z;
  dev_mtu : Z;
  dev_needsArp : bool;
  dev_isMulticast : bool;
  dev_isLoopback : bool
}.

Record Ipv4Interface := mkInterface {
  m_ifup : bool;
  m_forwarding : bool;
  m_metric : Z;
  m_ifaddrs : list Ipv4InterfaceAddress;
  m_device : NetDevice
}.

Definition Ipv4Interface_new (device : NetDevice) : Ipv4Interface := mkInterface false true 1 [] device.
Definition SetMetric (metric : Z) (i : Ipv4Interface) : Ipv4Interface :=
  mkInterface (m_ifup i) (m_forwarding i) metric (m_ifaddrs i) (m_device i).
Definition IsUp (i : Ipv4Interface) : bool := m_ifup i.
Definition IsDown (i : Ipv4Interface) : bool := negb (m_ifup i).
Definition SetUp (i : Ipv4Interface) : Ipv4Interface :=
  mkInterface true (m_forwarding i) (m_metric i) (m_ifaddrs i) (m_device i).
Definition SetDown (i : Ipv4Interface) : Ipv4Interface :=
  mkInterface false (m_forwarding i) (m_metric i) (m_ifaddrs i) (m_device i).
Definition IsForwarding (i : Ipv4Interface) : bool := m_forwarding i.
Definition SetForwarding (val : bool) (i : Ipv4Interface) : Ipv4Interface :=
  mkInterface (m_ifup i) val (m_metric i) (m_ifaddrs i) (m_device i).
Definition set_addrs (l : list Ipv4InterfaceAddress) (i : Ipv4Interface) : Ipv4Interface :=
  mkInterface (m_ifup i) (m_forwarding i) (m_metric i) l (m_device i).

Definition GetNAddresses (i : Ipv4Interface) : Z := u32 (Z.of_nat (length (m_ifaddrs i))).
Definition AddAddress (addr : Ipv4InterfaceAddress) (i : Ipv4Interface) : bool * Ipv4Interface :=
  (true, set_addrs (m_ifaddrs i ++ [addr]) i).
(** An index out of bounds is a fatal error. *)
Definition GetAddress (index : Z) (i : Ipv4Interface) : option Ipv4InterfaceAddress :=
  if (0 <=? index) && (index <? GetNAddresses i) then m_ifaddrs i !! Z.to_nat index else None.
Definition RemoveAddress_index (index : Z) (i : Ipv4Interface) : option (Ipv4InterfaceAddress * Ipv4Interface) :=
  let* addr := GetAddress index i in
  Some (addr, set_addrs (delete (Z.to_nat index) (m_ifaddrs i)) i).

(** The first address with this local address is erased. *)
Fixpoint remove_local (address : Z) (l : list Ipv4InterfaceAddress)
    : option (Ipv4InterfaceAddress * list Ipv4InterfaceAddress) :=
  match l with
  | [] => None
  | a :: rest =>
      if m_local a =? address then Some (a, rest)
      else match remove_local address rest with Some (r, rest') => Some (r, a :: rest') | None => None end
  end.
Definition RemoveAddress (address : Z) (i : Ipv4Interface) : Ipv4InterfaceAddress * Ipv4Interface :=
  if address =? Ipv4Address.GetLoopback then (InterfaceAddress_default, i)
  else match remove_local address (m_ifaddrs i) with
       | Some (ifAddr, l) => (ifAddr, set_addrs l i)
       | None => (InterfaceAddress_default, i)
       end.

(** ** Send *)

(** The link-layer address a packet is sent to: the broadcast address of the
    device or the address it derives from a multicast group. *)
Inductive HwAddress := HwBroadcast | HwMulticast (group : Z).

(** The call that hands the packet on. *)
Inductive SendCall :=
  | CallNothing
  | CallDeviceSend
  | CallReceiveNow
  | CallTcSend (hardwareDestination : HwAddress)
  | CallArpLookup (dest : Z).

(** [Send(p, hdr, dest)]; for [CallArpLookup] the packet goes to the traffic
    control layer if ARP knows the address and waits in its cache otherwise. *)
Definition Send (dest : Z) (i : Ipv4Interface) : option SendCall :=
  if negb (IsUp i) then Some CallNothing
  else if dev_isLoopback (m_device i) then Some CallDeviceSend
  else if existsb (fun a => dest =? m_local a) (m_ifaddrs i) then Some CallReceiveNow
  else if dev_needsArp (m_device i) then
    if IsBroadcast dest then Some (CallTcSend HwBroadcast)
    else if IsMulticast dest then
      assert* dev_isMulticast (m_device i) in Some (CallTcSend (HwMulticast dest))
    else if existsb (fun a => IsSubnetDirectedBroadcast dest (m_mask a)) (m_ifaddrs i) then
      Some (CallTcSend HwBroadcast)
    else Some (CallArpLookup dest)
  else Some (CallTcSend HwBroadcast).

End Ipv4Interface.

(** ** The interface table of Ipv4L3Protocol *)

Module Interfaces.
Export Ipv4Interface.

Record Interfaces := mkIfs {
  m_interfaces : list Ipv4Interface;
  m_reverseInterfacesContainer : gmap Z Z;   (* from device to index *)
  m_ipForward : bool;
  m_strongEndSystemModel : bool
}.

Definition set_interfaces (l : list Ipv4Interface) (s : Interfaces) : Interfaces :=
  mkIfs l (m_reverseInterfacesContainer s) (m_ipForward s) (m_strongEndSystemModel s).

Definition AddIpv4Interface (interface : Ipv4Interface) (s : Interfaces) : Z * Interfaces :=
  let index := u32 (Z.of_nat (length (m_interfaces s))) in
  (index, mkIfs (m_interfaces s ++ [interface])
            (<[dev_id (m_device interface) := index]> (m_reverseInterfacesContainer s)) (m_ipForward s)
            (m_strongEndSystemModel s)).
Definition AddInterface (device : NetDevice) (s : Interfaces) : Z * Interfaces :=
  AddIpv4Interface (SetForwarding (m_ipForward s) (Ipv4Interface_new device)) s.

Definition GetNInterfaces (s : Interfaces) : Z := u32 (Z.of_nat (length (m_interfaces s))).
(** [None] is the null pointer. *)
Definition GetInterface (index : Z) (s : Interfaces) : option Ipv4Interface :=
  if index <? 0 then None else m_interfaces s !! Z.to_nat index.
Definition GetInterfaceForDevice (device : Z) (s : Interfaces) : Z :=
  match m_reverseInterfacesContainer s !! device with Some i => i32 i | None => -1 end.

(** The index, from [k], of the first interface with an address satisfying [f]. *)
Fixpoint find_interface (f : Ipv4InterfaceAddress -> bool) (k : Z) (l : list Ipv4Interface) : Z :=
  match l with
  | [] => -1
  | i :: rest => if existsb f (m_ifaddrs i) then k else find_interface f (k + 1) rest
  end.
Definition GetInterfaceForAddress (address : Z) (s : Interfaces) : Z :=
  find_interface (fun a => m_local a =? address) 0 (m_interfaces s).
Definition GetInterfaceForPrefix (address mask : Z) (s : Interfaces) : Z :=
  find_interface (fun a => CombineMask (m_local a) mask =? CombineMask address mask) 0 (m_interfaces s).

Definition GetAddress (interfaceIndex addressIndex : Z) (s : Interfaces) : option Ipv4InterfaceAddress :=
  let* interface := GetInterface interfaceIndex s in Ipv4Interface.GetAddress addressIndex interface.
Definition GetNAddresses (interface : Z) (s : Interfaces) : option Z :=
  let* iface := GetInterface interface s in Some (Ipv4Interface.GetNAddresses iface).
Definition GetMtu (i : Z) (s : Interfaces) : option Z :=
  let* interface := GetInterface i s in Some (u16 (dev_mtu (m_device interface))).
Definition IsUp (i : Z) (s : Interfaces) : option bool :=
  let* interface := GetInterface i s in Some (Ipv4Interface.IsUp interface).
Definition IsForwarding (i : Z) (s : Interfaces) : option bool :=
  let* interface := GetInterface i s in Some (Ipv4Interface.IsForwarding interface).
Definition GetNetDevice (i : Z) (s : Interfaces) : option NetDevice :=
  let* interface := GetInterface i s in Some (m_device interface).

(** Update of the interface at an index; a null interface is dereferenced. *)
Definition update (f : Ipv4Interface -> Ipv4Interface) (i : Z) (s : Interfaces) : option Interfaces :=
  let* interface := GetInterface i s in
  Some (set_interfaces (<[Z.to_nat i := f interface]> (m_interfaces s)) s).
Definition SetMetric (i metric : Z) (s : Interfaces) : option Interfaces := update (Ipv4Interface.SetMetric metric) i s.
Definition SetForwarding (i : Z) (val : bool) (s : Interfaces) : option Interfaces :=
  update (Ipv4Interface.SetForwarding val) i s.
Definition SetIpForward (forward : bool) (s : Interfaces) : Interfaces :=
  mkIfs (Ipv4Interface.SetForwarding forward <$> m_interfaces s) (m_reverseInterfacesContainer s) forward
    (m_strongEndSystemModel s).
Definition SetWeakEsModel (model : bool) (s : Interfaces) : Interfaces :=
  mkIfs (m_interfaces s) (m_reverseInterfacesContainer s) (m_ipForward s) (negb model).
Definition SetStrongEndSystemModel (model : bool) (s : Interfaces) : Interfaces :=
  mkIfs (m_interfaces s) (m_reverseInterfacesContainer s) (m_ipForward s) model.

(** ** Addresses of the node *)

Definition for_me (address : Z) (a : Ipv4InterfaceAddress) : bool :=
  (address =? m_local a) || (address =? m_broadcast a).

(** [IsDestinationAddress(address, iif)]; a null interface is dereferenced. *)
Definition IsDestinationAddress (address iif : Z) (s : Interfaces) : option bool :=
  let* interface := GetInterface iif s in
  Some (existsb (for_me address) (m_ifaddrs interface) ||
    (IsMulticast address || (IsBroadcast address ||
      (negb (m_strongEndSystemModel s) &&
        existsb (fun '(j, i) => negb (Z.of_nat j =? iif) && existsb (for_me address) (m_ifaddrs i))
          (imap pair (m_interfaces s)))))).

Definition IsUnicast (ad : Z) (s : Interfaces) : bool :=
  if IsBroadcast ad || IsMulticast ad then false
  else negb (existsb (fun i => existsb (fun a => ad =? m_broadcast a) (m_ifaddrs i)) (m_interfaces s)).
Definition IsUnicast_mask (ad interfaceMask : Z) : bool :=
  negb (IsMulticast ad) && negb (IsSubnetDirectedBroadcast ad interfaceMask).

(** [test] is on the link of [dest]. *)
Definition on_link (dest : Z) (test : Ipv4InterfaceAddress) : bool :=
  CombineMask (m_local test) (m_mask test) =? CombineMask dest (m_mask test).

Definition SourceAddressSelection (interfaceIdx dest : Z) (s : Interfaces) : option Z :=
  let* n := GetNAddresses interfaceIdx s in
  if n =? 1 then let* a := GetAddress interfaceIdx 0 s in Some (m_local a)
  else
    let* candidate := GetAddress interfaceIdx 0 s in
    let* interface := GetInterface interfaceIdx s in
    Some (match List.find (fun test => on_link dest test && negb (m_secondary test)) (m_ifaddrs interface) with
          | Some test => m_local test
          | None => m_local candidate
          end).

(** The loop over the addresses of one interface: the address on the link of
    the destination, or the first one of a suitable scope. *)
Fixpoint select_on (dst : Z) (scope : Scope) (l : list Ipv4InterfaceAddress) (found : option Z) : Z + option Z :=
  match l with
  | [] => inr found
  | iaddr :: rest =>
      if m_secondary iaddr then select_on dst scope rest found
      else if scope_rank scope <? scope_rank (m_scope iaddr) then select_on dst scope rest found
      else if on_link dst iaddr then inl (m_local iaddr)
      else select_on dst scope rest (match found with Some _ => found | None => Some (m_local iaddr) end)
  end.

(** The loop over all interfaces. *)
Definition select_any (scope : Scope) (l : list Ipv4Interface) : option Z :=
  match List.find (fun iaddr => negb (m_secondary iaddr) && bool_decide (m_scope iaddr <> LINK) &&
                      (scope_rank (m_scope iaddr) <=? scope_rank scope)) (l ≫= m_ifaddrs) with
  | Some iaddr => Some (m_local iaddr)
  | None => None
  end.

Definition SelectSourceAddress (device : option Z) (dst : Z) (scope : Scope) (s : Interfaces) : option Z :=
  let* r :=
    match device with
    | None => Some (inr None)
    | Some d =>
        let i := GetInterfaceForDevice d s in
        assert* 0 <=? i in
        let* interface := GetInterface i s in
        Some (select_on dst scope (m_ifaddrs interface) None)
    end in
  match r with
  | inl addr => Some addr
  | inr (Some addr) => Some addr
  | inr None => Some (default 0 (select_any scope (m_interfaces s)))
  end.

(** ** Well-formed tables *)

(** Every device is bound to one interface, and the reverse map finds it. *)
Record table_ok (s : Interfaces) : Prop := mkTableOk {
  tk_small : Z.of_nat (length (m_interfaces s)) < 2 ^ 31;
  tk_reverse : forall d k, m_reverseInterfacesContainer s !! d = Some k <->
    exists i, m_interfaces s !! Z.to_nat k = Some i /\ dev_id (m_device i) = d /\ 0 <= k
}.

Definition empty_table (forward strong : bool) : Interfaces := mkIfs [] ∅ forward strong.

Lemma empty_table_ok f st : table_ok (empty_table f st).
Proof. split; [simpl; lia |]. intros d k. simpl. rewrite lookup_empty. split; [done | by intros (i & ? & _)]. Qed.

Lemma i32_small x : 0 <= x < 2 ^ 31 -> i32 x = x.
Proof. intros. apply (swrap_small 32); simpl in *; lia. Qed.

Lemma AddInterface_ok device s :
  table_ok s -> Z.of_nat (length (m_interfaces s)) + 1 < 2 ^ 31 ->
  m_reverseInterfacesContainer s !! dev_id device = None -> table_ok (AddInterface device s).2.
Proof.
  intros [H1 H2] Hn Hd. split; simpl; [rewrite length_app; simpl; lia |]. intros d k.
  rewrite u32_small by lia. set (n := length (m_interfaces s)) in *.
  destruct (decide (d = dev_id device)) as [->|Hne].
  - rewrite lookup_insert_eq. split.
    + intros [= <-]. exists (Ipv4Interface.SetForwarding (m_ipForward s) (Ipv4Interface_new device)).
      rewrite Nat2Z.id. rewrite lookup_app_r by lia. fold n. rewrite Nat.sub_diag. split_and!; [done | done | lia].
    + intros (i & Hi & Hid & Hk). apply lookup_app_Some in Hi as [Hi|[Hlen Hi]].
      * assert (m_reverseInterfacesContainer s !! dev_id device = Some k) by (apply H2; by exists i). congruence.
      * apply list_lookup_singleton_Some in Hi as [Hi _]. fold n in Hlen, Hi. f_equal. lia.
  - rewrite lookup_insert_ne by done. rewrite H2. split.
    + intros (i & Hi & ? & ?). exists i. split_and!; try done. by apply lookup_app_l_Some.
    + intros (i & Hi & Hid & Hk). apply lookup_app_Some in Hi as [Hi|[Hlen Hi]]; [by exists i |].
      apply list_lookup_singleton_Some in Hi as [_ <-]. done.
Qed.

(** The reverse lookup and the table agree. *)
Lemma GetInterfaceForDevice_spec s d k :
  table_ok s -> 0 <= k -> (GetInterfaceForDevice d s = k <-> exists dev, GetNetDevice k s = Some dev /\ dev_id dev = d).
Proof.
  intros [H1 H2] Hk. unfold GetInterfaceForDevice, GetNetDevice, GetInterface.
  rewrite (proj2 (Z.ltb_ge k 0)) by done. split.
  - intros E. destruct (m_reverseInterfacesContainer s !! d) as [k'|] eqn:El; [| lia].
    pose proof (proj1 (H2 _ _) El) as (i & Hi & Hid & Hk'). pose proof (lookup_lt_Some _ _ _ Hi).
    rewrite i32_small in E by lia. subst k'. rewrite Hi. by eexists.
  - intros (dev & E & Hd). destruct (m_interfaces s !! Z.to_nat k) as [i|] eqn:Hi; [| done]. injection E as <-.
    rewrite (proj2 (H2 d k)) by (by exists i). apply i32_small. pose proof (lookup_lt_Some _ _ _ Hi). lia.
Qed.

End Interfaces.
