(* ===== verification/Ipv4StaticRouting.v ===== *)
(** * Static IPv4 routing (src/internet/model/ipv4-static-routing.cc,
    ipv4-routing-table-entry.cc, ipv4-route.cc)

    The routing table is a list of entries with metrics, in insertion order;
    [LookupStatic] searches it for the best match. The node's interfaces are the
    table of [Interfaces], which the code reaches through [m_ipv4]. *)

From S2P Require Import Prelude Ipv4Address Ipv4Interface Ipv4Header.
Import Ipv4Mask Ipv4Address Ipv4InterfaceAddress Interfaces.

Module Ipv4StaticRouting.

(** ** Data *)

Record Ipv4RoutingTableEntry := mkEntry {
  m_dest : Z;
  m_destNetworkMask : Z;
  m_gateway : Z;
  m_interface : Z
}.
#[export] Instance Entry_eq_dec : EqDecision Ipv4RoutingTableEntry.
Proof. solve_decision. Defined.

Definition Entry_default : Ipv4RoutingTableEntry := mkEntry Ipv4Address_default Ipv4Mask_default Ipv4Address_default 0.
Definition CreateNetworkRouteTo (network networkMask nextHop interface : Z) : Ipv4RoutingTableEntry :=
  mkEntry network networkMask nextHop interface.
Definition CreateNetworkRouteTo_direct (network networkMask interface : Z) : Ipv4RoutingTableEntry :=
  mkEntry network networkMask 0 interface.
Definition CreateHostRouteTo (dest nextHop interface : Z) : Ipv4RoutingTableEntry := mkEntry dest GetOnes nextHop interface.
Definition CreateHostRouteTo_direct (dest interface : Z) : Ipv4RoutingTableEntry := mkEntry dest GetOnes 0 interface.
Definition CreateDefaultRoute (nextHop interface : Z) : Ipv4RoutingTableEntry := mkEntry 0 GetZero nextHop interface.
Definition IsHost (e : Ipv4RoutingTableEntry) : bool := m_destNetworkMask e =? GetOnes.
Definition IsNetwork (e : Ipv4RoutingTableEntry) : bool := negb (IsHost e).
Definition IsDefault (e : Ipv4RoutingTableEntry) : bool := m_dest e =? 0.
Definition IsGateway (e : Ipv4RoutingTableEntry) : bool := negb (m_gateway e =? 0).

Record Ipv4MulticastRoutingTableEntry := mkMEntry {
  m_origin : Z;
  m_group : Z;
  m_inputInterface : Z;
  m_outputInterfaces : list Z
}.

(** [Ipv4Route]; [gw_initialized] is [IsInitialized] of the gateway address. *)
Record Ipv4Route := mkRoute {
  rt_dest : Z;
  rt_source : Z;
  rt_gateway : Z;
  gw_initialized : bool;
  rt_outputDevice : Z
}.

(** [Ipv4MulticastRoute]; the map of output TTLs in the order of its keys. *)
Record Ipv4MulticastRoute := mkMRoute {
  mr_group : Z;
  mr_origin : Z;
  mr_parent : Z;
  m_ttls : list (Z * Z)
}.
Definition MAX_TTL : Z := 255.
Fixpoint set_ttl (oif ttl : Z) (l : list (Z * Z)) : list (Z * Z) :=
  match l with
  | [] => [(oif, ttl)]
  | (k, v) :: rest =>
      if oif <? k then (oif, ttl) :: l else if oif =? k then (oif, ttl) :: rest else (k, v) :: set_ttl oif ttl rest
  end.
Definition SetOutputTtl (oif ttl : Z) (r : Ipv4MulticastRoute) : Ipv4MulticastRoute :=
  mkMRoute (mr_group r) (mr_origin r) (mr_parent r)
    (if MAX_TTL <=? ttl then List.filter (fun e => negb (e.1 =? oif)) (m_ttls r) else set_ttl oif ttl (m_ttls r)).

Record Ipv4StaticRouting := mkStatic {
  m_networkRoutes : list (Ipv4RoutingTableEntry * Z);
  m_multicastRoutes : list Ipv4MulticastRoutingTableEntry
}.
Definition StaticRouting_new : Ipv4StaticRouting := mkStatic [] [].
Definition set_routes (l : list (Ipv4RoutingTableEntry * Z)) (r : Ipv4StaticRouting) : Ipv4StaticRouting :=
  mkStatic l (m_multicastRoutes r).

(** ** The table *)

Definition LookupRoute (route : Ipv4RoutingTableEntry) (metric : Z) (r : Ipv4StaticRouting) : bool :=
  existsb (fun '(rtentry, m) =>
    (m_dest rtentry =? m_dest route) && (m_destNetworkMask rtentry =? m_destNetworkMask route) &&
    (m_gateway rtentry =? m_gateway route) && (m_interface rtentry =? m_interface route) && (m =? metric))
    (m_networkRoutes r).

(** The common part of the two [AddNetworkRouteTo]. *)
Definition add_route (route : Ipv4RoutingTableEntry) (metric : Z) (r : Ipv4StaticRouting) : Ipv4StaticRouting :=
  if LookupRoute route metric r then r else set_routes (m_networkRoutes r ++ [(route, metric)]) r.
Definition AddNetworkRouteTo (network networkMask nextHop interface metric : Z) (r : Ipv4StaticRouting)
    : Ipv4StaticRouting :=
  add_route (CreateNetworkRouteTo network networkMask nextHop interface) metric r.
Definition AddNetworkRouteTo_direct (network networkMask interface metric : Z) (r : Ipv4StaticRouting)
    : Ipv4StaticRouting :=
  add_route (CreateNetworkRouteTo_direct network networkMask interface) metric r.
Definition AddHostRouteTo (dest nextHop interface metric : Z) (r : Ipv4StaticRouting) : Ipv4StaticRouting :=
  AddNetworkRouteTo dest GetOnes nextHop interface metric r.
Definition AddHostRouteTo_direct (dest interface metric : Z) (r : Ipv4StaticRouting) : Ipv4StaticRouting :=
  AddNetworkRouteTo_direct dest GetOnes interface metric r.
Definition SetDefaultRoute (nextHop interface metric : Z) (r : Ipv4StaticRouting) : Ipv4StaticRouting :=
  AddNetworkRouteTo 0 GetZero nextHop interface metric r.
Definition SetDefaultMulticastRoute (outputInterface : Z) (r : Ipv4StaticRouting) : Ipv4StaticRouting :=
  set_routes (m_networkRoutes r ++ [(CreateNetworkRouteTo_direct 0xe0000000 0xf0000000 outputInterface, 0)]) r.
Definition GetNRoutes (r : Ipv4StaticRouting) : Z := u32 (Z.of_nat (length (m_networkRoutes r))).
(** The loops that count to [index]. *)
Definition at_index {A} (index : Z) (l : list A) : option A :=
  if index <? 0 then None else l !! Z.to_nat index.
Definition GetRoute (index : Z) (r : Ipv4StaticRouting) : option Ipv4RoutingTableEntry :=
  let* e := at_index index (m_networkRoutes r) in Some e.1.
Definition GetMetric (index : Z) (r : Ipv4StaticRouting) : option Z :=
  let* e := at_index index (m_networkRoutes r) in Some e.2.
Definition RemoveRoute (index : Z) (r : Ipv4StaticRouting) : option Ipv4StaticRouting :=
  let* e := at_index index (m_networkRoutes r) in
  Some (set_routes (delete (Z.to_nat index) (m_networkRoutes r)) r).

(** [GetDefaultRoute]: among the entries with an empty mask, the last one of
    the smallest metric. *)
Fixpoint default_loop (l : list (Ipv4RoutingTableEntry * Z)) (shortest_metric : Z)
    (result : option Ipv4RoutingTableEntry) : option (option Ipv4RoutingTableEntry) :=
  match l with
  | [] => Some result
  | (j, metric) :: rest =>
      let* masklen := GetPrefixLength (m_destNetworkMask j) in
      if negb (masklen =? 0) then default_loop rest shortest_metric result
      else if shortest_metric <? metric then default_loop rest shortest_metric result
      else default_loop rest metric (Some j)
  end.
Definition GetDefaultRoute (r : Ipv4StaticRouting) : option Ipv4RoutingTableEntry :=
  let* result := default_loop (m_networkRoutes r) 0xffffffff None in
  Some (default Entry_default result).

(** *** Multicast entries *)

Definition AddMulticastRoute (origin group inputInterface : Z) (outputInterfaces : list Z) (r : Ipv4StaticRouting)
    : Ipv4StaticRouting :=
  mkStatic (m_networkRoutes r) (m_multicastRoutes r ++ [mkMEntry origin group inputInterface outputInterfaces]).
Definition GetNMulticastRoutes (r : Ipv4StaticRouting) : Z := u32 (Z.of_nat (length (m_multicastRoutes r))).
Definition GetMulticastRoute (index : Z) (r : Ipv4StaticRouting) : option Ipv4MulticastRoutingTableEntry :=
  at_index index (m_multicastRoutes r).
Definition is_multicast_route (origin group inputInterface : Z) (e : Ipv4MulticastRoutingTableEntry) : bool :=
  (origin =? m_origin e) && (group =? m_group e) && (inputInterface =? m_inputInterface e).
Fixpoint remove_first {A} (f : A -> bool) (l : list A) : option (list A) :=
  match l with
  | [] => None
  | x :: rest => if f x then Some rest else match remove_first f rest with Some l' => Some (x :: l') | None => None end
  end.
Definition RemoveMulticastRoute (origin group inputInterface : Z) (r : Ipv4StaticRouting) : bool * Ipv4StaticRouting :=
  match remove_first (is_multicast_route origin group inputInterface) (m_multicastRoutes r) with
  | Some l => (true, mkStatic (m_networkRoutes r) l)
  | None => (false, r)
  end.
Definition RemoveMulticastRoute_index (index : Z) (r : Ipv4StaticRouting) : Ipv4StaticRouting :=
  mkStatic (m_networkRoutes r)
    (if index <? 0 then m_multicastRoutes r else delete (Z.to_nat index) (m_multicastRoutes r)).

(** ** Lookup *)

(** The route made from an entry. *)
Definition make_route (route : Ipv4RoutingTableEntry) (ipv4 : Interfaces) : option Ipv4Route :=
  let interfaceIdx := m_interface route in
  let* source := SourceAddressSelection interfaceIdx (m_dest route) ipv4 in
  let* device := GetNetDevice interfaceIdx ipv4 in
  Some (mkRoute (m_dest route) source (m_gateway route) true (dev_id device)).

(** The loop over the table with its local variables; [None] is an abort. *)
Fixpoint lookup_loop (dest : Z) (oif : option Z) (ipv4 : Interfaces) (l : list (Ipv4RoutingTableEntry * Z))
    (longest_mask shortest_metric : Z) (rtentry : option Ipv4Route) : option (option Ipv4Route) :=
  match l with
  | [] => Some rtentry
  | (j, metric) :: rest =>
      let* masklen := GetPrefixLength (m_destNetworkMask j) in
      if IsMatch (m_destNetworkMask j) dest (m_dest j) then
        let* skip :=
          match oif with
          | Some d => let* device := GetNetDevice (m_interface j) ipv4 in Some (negb (d =? dev_id device))
          | None => Some false
          end in
        if skip then lookup_loop dest oif ipv4 rest longest_mask shortest_metric rtentry
        else if masklen <? longest_mask then lookup_loop dest oif ipv4 rest longest_mask shortest_metric rtentry
        else
          let shortest_metric := if longest_mask <? masklen then 0xffffffff else shortest_metric in
          if shortest_metric <? metric then lookup_loop dest oif ipv4 rest masklen shortest_metric rtentry
          else
            let* route := make_route j ipv4 in
            if masklen =? 32 then Some (Some route)
            else lookup_loop dest oif ipv4 rest masklen metric (Some route)
      else lookup_loop dest oif ipv4 rest longest_mask shortest_metric rtentry
  end.

Definition LookupStatic (dest : Z) (oif : option Z) (ipv4 : Interfaces) (r : Ipv4StaticRouting)
    : option (option Ipv4Route) :=
  if IsLocalMulticast dest then
    match oif with
    | None => None
    | Some d =>
        let* a := GetAddress (GetInterfaceForDevice d ipv4) 0 ipv4 in
        Some (Some (mkRoute dest (m_local a) 0 true d))
    end
  else lookup_loop dest oif ipv4 (m_networkRoutes r) 0 0xffffffff None.

Definition IF_ANY : Z := 0xffffffff.
Definition make_mroute (route : Ipv4MulticastRoutingTableEntry) : Ipv4MulticastRoute :=
  foldl (fun mr j => if negb (j =? 0) then SetOutputTtl j (MAX_TTL - 1) mr else mr)
    (mkMRoute (m_group route) (m_origin route) (m_inputInterface route) []) (m_outputInterfaces route).
Definition LookupStatic_multicast (origin group interface : Z) (r : Ipv4StaticRouting) : option Ipv4MulticastRoute :=
  match List.find (fun route => (group =? m_group route) &&
          ((interface =? IF_ANY) || (interface =? m_inputInterface route))) (m_multicastRoutes r) with
  | Some route => Some (make_mroute route)
  | None => None
  end.

(** ** The routing protocol interface *)

Inductive SocketErrno := ERROR_NOTERROR | ERROR_NOROUTETOHOST.

Definition RouteOutput (header : Ipv4Header.Ipv4Header) (oif : option Z) (ipv4 : Interfaces) (r : Ipv4StaticRouting)
    : option (option Ipv4Route * SocketErrno) :=
  let* rtentry := LookupStatic (Ipv4Header.GetDestination header) oif ipv4 r in
  Some (rtentry, match rtentry with Some _ => ERROR_NOTERROR | None => ERROR_NOROUTETOHOST end).

(** The callback [RouteInput] makes; [NotHandled] is a return of false. *)
Inductive RouteDecision :=
  | UnicastForward (route : Ipv4Route)
  | MulticastForward (route : Ipv4MulticastRoute)
  | LocalDeliver (iif : Z)
  | RouteError (e : SocketErrno)
  | NotHandled.

(** The local delivery callback is the one Ipv4L3Protocol passes, never null. *)
Definition RouteInput (ipHeader : Ipv4Header.Ipv4Header) (idev : Z) (ipv4 : Interfaces) (r : Ipv4StaticRouting)
    : option RouteDecision :=
  let iif := GetInterfaceForDevice idev ipv4 in
  assert* 0 <=? iif in
  let destination := Ipv4Header.GetDestination ipHeader in
  if IsMulticast destination then
    match LookupStatic_multicast (Ipv4Header.GetSource ipHeader) destination iif r with
    | Some mrtentry => Some (MulticastForward mrtentry)
    | None => Some NotHandled
    end
  else
    let* for_me := IsDestinationAddress destination iif ipv4 in
    if for_me : bool then Some (LocalDeliver iif)
    else
      let* forwarding := IsForwarding iif ipv4 in
      if negb forwarding then Some (RouteError ERROR_NOROUTETOHOST)
      else
        let* rtentry := LookupStatic destination None ipv4 r in
        Some (match rtentry with Some route => UnicastForward route | None => NotHandled end).

(** ** Notifications *)

Definition NotifyInterfaceUp (i : Z) (ipv4 : Interfaces) (r : Ipv4StaticRouting) : option Ipv4StaticRouting :=
  let* interface := GetInterface i ipv4 in
  Some (foldl (fun r a =>
    if negb (m_local a =? Ipv4Address_default) && negb (m_mask a =? Ipv4Mask_default) && negb (m_mask a =? GetOnes)
    then AddNetworkRouteTo_direct (CombineMask (m_local a) (m_mask a)) (m_mask a) i 0 r else r)
    r (m_ifaddrs interface)).
Definition NotifyInterfaceDown (i : Z) (r : Ipv4StaticRouting) : Ipv4StaticRouting :=
  set_routes (List.filter (fun e => negb (m_interface e.1 =? i)) (m_networkRoutes r)) r.
Definition NotifyAddAddress (interface : Z) (address : Ipv4InterfaceAddress) (ipv4 : Interfaces) (r : Ipv4StaticRouting)
    : option Ipv4StaticRouting :=
  let* up := IsUp interface ipv4 in
  if negb up then Some r
  else Some (if negb (m_local address =? Ipv4Address_default) && negb (m_mask address =? Ipv4Mask_default)
             then AddNetworkRouteTo_direct (CombineMask (m_local address) (m_mask address)) (m_mask address) interface 0 r
             else r).
Definition NotifyRemoveAddress (interface : Z) (address : Ipv4InterfaceAddress) (ipv4 : Interfaces)
    (r : Ipv4StaticRouting) : option Ipv4StaticRouting :=
  let* up := IsUp interface ipv4 in
  if negb up then Some r
  else
    let networkAddress := CombineMask (m_local address) (m_mask address) in
    Some (set_routes (List.filter (fun e => negb ((m_interface e.1 =? interface) && IsNetwork e.1 &&
            (m_dest e.1 =? networkAddress) && (m_destNetworkMask e.1 =? m_mask address))) (m_networkRoutes r)) r).
(** The loop of [SetIpv4] over the interfaces from [i]. *)
Fixpoint notify_all (i : Z) (l : list Ipv4Interface) (ipv4 : Interfaces) (r : Ipv4StaticRouting)
    : option Ipv4StaticRouting :=
  match l with
  | [] => Some r
  | interface :: rest =>
      let* r := if Ipv4Interface.IsUp interface then NotifyInterfaceUp i ipv4 r else Some (NotifyInterfaceDown i r) in
      notify_all (i + 1) rest ipv4 r
  end.
Definition SetIpv4 (ipv4 : Interfaces) (r : Ipv4StaticRouting) : option Ipv4StaticRouting :=
  notify_all 0 (m_interfaces ipv4) ipv4 r.

(** ** Longest prefix match *)

Section Lookup.
Context (ipv4 : Interfaces) (dest : Z) (oif : option Z).

Definition prefix_len (e : Ipv4RoutingTableEntry) : Z := default 0 (GetPrefixLength (m_destNetworkMask e)).

(** The entry leads to the destination, through the requested device if any. *)
Definition candidate (e : Ipv4RoutingTableEntry) : Prop :=
  IsMatch (m_destNetworkMask e) dest (m_dest e) = true /\
  match oif with Some d => exists dev, GetNetDevice (m_interface e) ipv4 = Some dev /\ dev_id dev = d | None => True end.

(** Masks and metrics are 32-bit numbers and a route can be made of the entry:
    its interface exists and has an address. *)
Definition entry_ok (x : Ipv4RoutingTableEntry * Z) : Prop :=
  0 <= m_destNetworkMask x.1 < 2 ^ 32 /\ 0 <= x.2 < 2 ^ 32 /\ is_Some (make_route x.1 ipv4).

(** [(e, m)], between [l1] and [l2], is what the loop chooses among the candidates:
    the longest mask, among equal masks the smallest metric and then the last entry;
    of host entries the first one, whatever the metrics. *)
Definition best (l1 : list (Ipv4RoutingTableEntry * Z)) (e : Ipv4RoutingTableEntry) (m : Z)
    (l2 : list (Ipv4RoutingTableEntry * Z)) : Prop :=
  candidate e /\
  (forall e' m', (e', m') ∈ l1 ++ l2 -> candidate e' -> prefix_len e' <= prefix_len e) /\
  (prefix_len e < 32 -> forall e' m', candidate e' -> prefix_len e' = prefix_len e ->
     ((e', m') ∈ l1 -> m <= m') /\ ((e', m') ∈ l2 -> m < m')) /\
  (prefix_len e = 32 -> forall e' m', (e', m') ∈ l1 -> candidate e' -> prefix_len e' < 32).

Lemma prefix_len_ok x : entry_ok x -> GetPrefixLength (m_destNetworkMask x.1) = Some (prefix_len x.1) /\ 0 <= prefix_len x.1 <= 32.
Proof.
  intros (Hm & _ & _). unfold prefix_len. destruct (GetPrefixLength_total _ Hm) as (n & -> & Hn). done.
Qed.

Lemma entry_device x : entry_ok x -> exists dev, GetNetDevice (m_interface x.1) ipv4 = Some dev.
Proof.
  intros (_ & _ & [r Hr]). unfold make_route in Hr.
  destruct (SourceAddressSelection _ _ _); [| done]. destruct (GetNetDevice _ _) as [dev|]; [by exists dev | done].
Qed.

(** The state of the loop after the entries [pre]. *)
Definition loop_inv (pre : list (Ipv4RoutingTableEntry * Z)) (longest shortest : Z) (rt : option Ipv4Route) : Prop :=
  match rt with
  | None => longest = 0 /\ shortest = 0xffffffff /\ forall e m, (e, m) ∈ pre -> ~ candidate e
  | Some route => exists l1 e l2, pre = l1 ++ (e, shortest) :: l2 /\ make_route e ipv4 = Some route /\
      longest = prefix_len e /\ prefix_len e < 32 /\ best l1 e shortest l2
  end.

(** An entry that does not beat the choice so far. *)
Lemma loop_inv_skip pre longest shortest rt x :
  loop_inv pre longest shortest rt ->
  (candidate x.1 -> prefix_len x.1 < longest \/ (rt <> None /\ prefix_len x.1 = longest /\ shortest < x.2)) ->
  (candidate x.1 -> 0 <= prefix_len x.1) ->
  loop_inv (pre ++ [x]) longest shortest rt.
Proof.
  destruct x as [e' m']. simpl. intros Hi Hx H0. destruct rt as [route|].
  - destruct Hi as (l1 & e & l2 & -> & Hr & -> & H32 & Hc & B1 & B2 & B3).
    exists l1, e, (l2 ++ [(e', m')]). rewrite <- app_assoc. split_and!; try done. unfold best. split_and!; try done.
    + intros e2 m2. rewrite !elem_of_app, list_elem_of_singleton. intros [Hin|[Hin|[= -> ->]]] Hc2.
      * apply (B1 e2 m2); [apply elem_of_app; by left | done].
      * apply (B1 e2 m2); [apply elem_of_app; by right | done].
      * destruct (Hx Hc2) as [?|(_ & ? & _)]; lia.
    + intros _ e2 m2 Hc2 El. destruct (B2 H32 e2 m2 Hc2 El) as [C1 C2]. split; [done |].
      rewrite elem_of_app, list_elem_of_singleton. intros [?|[= -> ->]]; [by apply C2 |].
      destruct (Hx Hc2) as [?|(_ & _ & ?)]; lia.
  - destruct Hi as (-> & -> & Hn). split_and!; try done. intros e2 m2.
    rewrite elem_of_app, list_elem_of_singleton. intros [?|[= -> ->]] Hc; [by eapply Hn |].
    destruct (Hx Hc) as [?|[? _]]; [| done]. specialize (H0 Hc). lia.
Qed.

(** An entry that beats the choice so far becomes the choice. *)
Lemma best_take pre longest shortest rt e m rest :
  loop_inv pre longest shortest rt -> candidate e -> longest <= prefix_len e ->
  (longest < prefix_len e \/ m <= shortest) -> 0 <= prefix_len e <= 32 ->
  (forall e' m', (e', m') ∈ rest -> candidate e' -> prefix_len e' <= prefix_len e) ->
  (prefix_len e < 32 -> forall e' m', (e', m') ∈ rest -> candidate e' -> prefix_len e' = prefix_len e -> m < m') ->
  best pre e m rest.
Proof.
  intros Hi Hc Hl Hm H32 Hr1 Hr2. destruct rt as [route|].
  - destruct Hi as (l1 & e0 & l2 & -> & Hr & -> & H0 & Hc0 & B1 & B2 & B3).
    assert (forall e' m', (e', m') ∈ l1 ++ (e0, shortest) :: l2 -> candidate e' -> prefix_len e' <= prefix_len e0) as Hall.
    { intros e' m'. rewrite elem_of_app, elem_of_cons. intros [?|[[= -> ->]|?]] ?; [| done |];
        apply (B1 e' m'); try done; apply elem_of_app; tauto. }
    split_and!; [done | | |].
    + intros e' m' [Hin|Hin]%elem_of_app Hc'; [| eauto]. specialize (Hall _ _ Hin Hc'). lia.
    + intros Hlt e' m' Hc' El. split; [| intros; by apply (Hr2 Hlt e' m')]. intros Hin.
      pose proof (Hall _ _ Hin Hc'). destruct Hm as [?|Hm]; [lia |].
      apply elem_of_app in Hin as [Hin|[[= -> ->]|Hin]%elem_of_cons]; [| done |];
        destruct (B2 H0 e' m' Hc' ltac:(lia)) as [C1 C2]; [specialize (C1 Hin) | specialize (C2 Hin)]; lia.
    + intros E32 e' m' Hin Hc'. specialize (Hall _ _ Hin Hc'). lia.
  - destruct Hi as (-> & -> & Hn). split_and!; [done | | |].
    + intros e' m' [Hin|Hin]%elem_of_app Hc'; [by destruct (Hn _ _ Hin) | eauto].
    + intros Hlt e' m' Hc' El. split; [intros Hin; by destruct (Hn _ _ Hin) |]. intros. by apply (Hr2 Hlt e' m').
    + intros _ e' m' Hin Hc'. by destruct (Hn _ _ Hin).
Qed.

Lemma best_singleton_inv pre longest shortest rt e m route :
  loop_inv pre longest shortest rt -> candidate e -> longest <= prefix_len e ->
  (longest < prefix_len e \/ m <= shortest) -> 0 <= prefix_len e < 32 -> make_route e ipv4 = Some route ->
  loop_inv (pre ++ [(e, m)]) (prefix_len e) m (Some route).
Proof.
  intros Hi Hc Hl Hm H32 Hr. exists pre, e, []. split_and!; try done; [lia |].
  eapply best_take; [done | done | done | done | lia | by intros ? ? ?%elem_of_nil | by intros _ ? ? ?%elem_of_nil].
Qed.

(** What the loop computes for the table [l]. *)
Definition lookup_spec (l : list (Ipv4RoutingTableEntry * Z)) (res : option Ipv4Route) : Prop :=
  match res with
  | None => forall e m, (e, m) ∈ l -> ~ candidate e
  | Some route => exists l1 e m l2, l = l1 ++ (e, m) :: l2 /\ make_route e ipv4 = Some route /\ best l1 e m l2
  end.

Lemma lookup_loop_ok l pre longest shortest rt :
  Forall entry_ok l -> loop_inv pre longest shortest rt -> 0 <= longest -> shortest <= 0xffffffff ->
  exists res, lookup_loop dest oif ipv4 l longest shortest rt = Some res /\ lookup_spec (pre ++ l) res.
Proof.
  revert pre longest shortest rt. induction l as [|[e m] l IH]; intros pre longest shortest rt Hok Hi H0 Hs.
  { exists rt. split; [done |]. rewrite app_nil_r. destruct rt as [route|]; simpl.
    - destruct Hi as (l1 & e & l2 & -> & Hr & _ & _ & Hb). by exists l1, e, shortest, l2.
    - by destruct Hi as (_ & _ & ?). }
  apply Forall_cons in Hok as [Hx Hok]. pose proof (prefix_len_ok _ Hx) as [El Hl].
  destruct (entry_device _ Hx) as [dev Hdev]. destruct Hx as (_ & Hm & [route Hr]). simpl in *.
  assert (forall rest', pre ++ (e, m) :: rest' = (pre ++ [(e, m)]) ++ rest') as Eapp by (intros; by rewrite <- app_assoc).
  assert (forall a b c, loop_inv (pre ++ [(e, m)]) a b c -> 0 <= a -> b <= 0xffffffff ->
    exists res, lookup_loop dest oif ipv4 l a b c = Some res /\ lookup_spec (pre ++ (e, m) :: l) res) as Hgo.
  { intros a b c Ha Hb Hc. rewrite Eapp. by apply IH. }
  rewrite El. destruct (IsMatch (m_destNetworkMask e) dest (m_dest e)) eqn:Em.
  2: { apply Hgo; try done. apply loop_inv_skip; [done | |]; intros [? _]; simpl in *; congruence. }
  assert (exists skip, (match oif with
      | Some d => let* device := GetNetDevice (m_interface e) ipv4 in Some (negb (d =? dev_id device))
      | None => Some false end) = Some skip /\ (skip = false <-> candidate e)) as (skip & -> & Hskip).
  { unfold candidate. rewrite Em. destruct oif as [d|]; [| by exists false]. rewrite Hdev. eexists. split; [done |].
    rewrite negb_false_iff, Z.eqb_eq. split; [intros ->; split; [done | by exists dev] |].
    intros (_ & ? & [= <-] & ?). done. }
  destruct skip.
  { apply Hgo; try done. apply loop_inv_skip; [done | |]; intros Hc; by apply Hskip in Hc. }
  pose proof (proj1 Hskip eq_refl) as Hc. destruct (Z.ltb_spec (prefix_len e) longest).
  { apply Hgo; try done. apply loop_inv_skip; [done | by left | simpl; lia]. }
  assert (longest < prefix_len e \/ longest = prefix_len e) as Hcase by lia.
  destruct (Z.ltb_spec (if longest <? prefix_len e then 4294967295 else shortest) m) as [Hlt|Hge].
  - revert Hlt. destruct (Z.ltb_spec longest (prefix_len e)); [lia |]. intros Hlt. destruct Hcase as [?|<-]; [lia |].
    destruct rt as [rt|]; [| destruct Hi as (_ & -> & _); lia].
    apply Hgo; try done. apply loop_inv_skip; [done | | simpl; lia]. intros _. right. simpl. split_and!; [done | lia | lia].
  - assert (longest < prefix_len e \/ m <= shortest) as Hbeat by (revert Hge; destruct (Z.ltb_spec longest (prefix_len e)); lia).
    rewrite Hr. destruct (Z.eqb_spec (prefix_len e) 32) as [E32|E32].
    + exists (Some route). split; [done |]. exists pre, e, m, l. split_and!; try done.
      eapply best_take; try done; [| lia]. intros e' m' Hin _. rewrite E32.
      rewrite Forall_forall in Hok. by destruct (prefix_len_ok _ (Hok _ Hin)) as [_ []].
    + apply Hgo; [| lia | lia]. eapply best_singleton_inv; try done. lia.
Qed.

(** The table has at most one candidate that is a host entry. *)
Definition one_host (l : list (Ipv4RoutingTableEntry * Z)) : Prop :=
  forall l1 x l2, l = l1 ++ x :: l2 -> candidate x.1 -> prefix_len x.1 = 32 -> forall y, y ∈ l1 ++ l2 -> candidate y.1 -> prefix_len y.1 < 32.
(** What is documented of a lookup: of the candidates with the longest mask, the metric
    decides ([AddNetworkRouteTo], "metric of route in case of multiple routes to same
    destination"), and of equal metrics the entry that was added last. *)
Definition longest_prefix (l : list (Ipv4RoutingTableEntry * Z)) (route : Ipv4Route) : Prop :=
  exists l1 e m l2, l = l1 ++ (e, m) :: l2 /\ make_route e ipv4 = Some route /\ candidate e /\
    (forall y, y ∈ l1 ++ l2 -> candidate y.1 -> prefix_len y.1 <= prefix_len e) /\
    (prefix_len e < 32 \/ one_host l ->
      forall y, candidate y.1 -> prefix_len y.1 = prefix_len e -> (y ∈ l1 -> m <= y.2) /\ (y ∈ l2 -> m < y.2)).
Lemma best_longest l1 e m l2 route : make_route e ipv4 = Some route -> 0 <= prefix_len e <= 32 -> best l1 e m l2 -> longest_prefix (l1 ++ (e, m) :: l2) route.
Proof.
  intros Hr Hl (Hc&Hmax&Hmet&_). exists l1, e, m, l2. split_and!; [done..| |].
  - intros [e' m'] Hin. by apply (Hmax e' m').
  - intros Hcase [e' m'] Hc' El. cbn [fst snd] in *. destruct (decide (prefix_len e < 32)) as [Hlt|Hge]; [by apply Hmet|].
    destruct Hcase as [?|H1]; [done|]. assert (forall x, x ∈ l1 ++ l2 -> x = (e', m') -> False) as Hno.
    { intros x Hin ->. specialize (H1 l1 (e, m) l2 eq_refl Hc ltac:(cbn [fst]; lia) (e', m') Hin Hc'). cbn [fst] in H1. lia. }
    split; intros Hin; exfalso; apply (Hno (e', m')); try done; apply elem_of_app; tauto.
Qed.

(** C22: [LookupStatic] implements longest prefix match: for a table of 32-bit
    masks and metrics whose interfaces exist and have addresses, and a
    destination that is not link-local multicast, it does not abort; it returns no route
    exactly when no entry matches (on the requested device), and otherwise a route made
    of a matching entry with the longest mask. Among those it has one of the smallest
    metric, and of equal metrics the last one, when these are not host entries or only
    one host entry matches. Of several host entries for one destination the first is
    taken whatever the metrics, against the documentation; nothing is claimed of the
    metric there (see [host_route_metric_ignored]). *)
Theorem LookupStatic_longest_prefix r :
  IsLocalMulticast dest = false -> Forall entry_ok (m_networkRoutes r) ->
  exists res, LookupStatic dest oif ipv4 r = Some res /\
    match res with
    | None => forall y, y ∈ m_networkRoutes r -> ~ candidate y.1
    | Some route => longest_prefix (m_networkRoutes r) route
    end.
Proof.
  intros Hd Hok. destruct (lookup_loop_ok (m_networkRoutes r) [] 0 0xffffffff None) as (res&E&Hs); [done| |done|done|].
  { split_and!; [done | done |]. by intros ? ? ?%elem_of_nil. }
  unfold LookupStatic. rewrite Hd. exists res. split; [done|]. cbn [app] in Hs. destruct res as [route|]; [|by intros [e m]; apply Hs].
  destruct Hs as (l1&e&m&l2&El&Hr&Hb). rewrite El in Hok |- *. apply Forall_app in Hok as [_ [Hok _]%Forall_cons]. apply prefix_len_ok in Hok as [_ Hl].
  by apply best_longest.
Qed.

End Lookup.

(** ** Routes leave through the node's interfaces *)

(** The output device of the route is one of the node's and its gateway is set. *)
Definition route_valid (ipv4 : Interfaces) (route : Ipv4Route) : Prop :=
  gw_initialized route = true /\
  exists dev, GetNetDevice (GetInterfaceForDevice (rt_outputDevice route) ipv4) ipv4 = Some dev /\
    dev_id dev = rt_outputDevice route.

Lemma GetInterface_index k ipv4 i : GetInterface k ipv4 = Some i -> 0 <= k.
Proof. unfold GetInterface. case_ifs; [done | lia]. Qed.

Lemma device_valid ipv4 k dev :
  table_ok ipv4 -> GetNetDevice k ipv4 = Some dev ->
  GetNetDevice (GetInterfaceForDevice (dev_id dev) ipv4) ipv4 = Some dev.
Proof.
  intros Hok E. assert (0 <= k) as Hk.
  { unfold GetNetDevice in E. destruct (GetInterface k ipv4) eqn:Ei; [by eapply GetInterface_index | done]. }
  by rewrite (proj2 (GetInterfaceForDevice_spec ipv4 (dev_id dev) k Hok Hk)) by (by exists dev).
Qed.

Lemma make_route_valid ipv4 e route : table_ok ipv4 -> make_route e ipv4 = Some route -> route_valid ipv4 route.
Proof.
  intros Hok E. unfold make_route in E. inv_opt. split; [done |]. simpl.
  match goal with H : GetNetDevice _ _ = Some ?n |- _ => exists n; split; [by eapply device_valid | done] end.
Qed.

Lemma lookup_loop_valid ipv4 dest oif l longest shortest rt route :
  table_ok ipv4 -> (forall r, rt = Some r -> route_valid ipv4 r) ->
  lookup_loop dest oif ipv4 l longest shortest rt = Some (Some route) -> route_valid ipv4 route.
Proof.
  intros Hok. revert longest shortest rt.
  induction l as [|[e m] l IH]; intros longest shortest rt Hrt E; simpl in E; [injection E; auto |].
  destruct (GetPrefixLength _) as [n|]; [| done]. destruct (IsMatch _ _ _); [| by eapply IH].
  destruct (match oif with Some _ => _ | None => _ end) as [[]|]; [by eapply IH | | done].
  destruct (n <? longest); [by eapply IH |]. destruct (_ <? m); [by eapply IH |].
  destruct (make_route e ipv4) as [r|] eqn:Em; [| done].
  destruct (n =? 32); [injection E as <-; by eapply make_route_valid |].
  eapply IH; [| done]. intros ? [= <-]. by eapply make_route_valid.
Qed.

Lemma LookupStatic_valid ipv4 dest oif r route :
  table_ok ipv4 -> LookupStatic dest oif ipv4 r = Some (Some route) -> route_valid ipv4 route.
Proof.
  intros Hok E. unfold LookupStatic in E. destruct (IsLocalMulticast dest); [| eapply (lookup_loop_valid ipv4 dest oif _ _ _ None); [done | by intros ? | done]].
  destruct oif as [d|]; [| done]. destruct (GetAddress _ _ _) as [a|] eqn:Ea; [| done]. injection E as <-.
  split; [done |]. simpl. unfold GetAddress in Ea. destruct (GetInterface _ _) as [i|] eqn:Ei; [| done].
  pose proof (GetInterface_index _ _ _ Ei) as Hk.
  apply (proj1 (GetInterfaceForDevice_spec ipv4 d _ Hok Hk) eq_refl).
Qed.

(** ** The interface of routing protocols (ipv4-routing-protocol.h) *)

Class RoutingProtocol (R : Type) := {
  route_output : Ipv4Header.Ipv4Header -> option Z -> Interfaces -> R -> option (option Ipv4Route * SocketErrno);
  route_input : Ipv4Header.Ipv4Header -> Z -> Interfaces -> R -> option RouteDecision;
  notify_interface_up : Z -> Interfaces -> R -> option R;
  notify_interface_down : Z -> Interfaces -> R -> option R;
  notify_add_address : Z -> Ipv4InterfaceAddress -> Interfaces -> R -> option R;
  notify_remove_address : Z -> Ipv4InterfaceAddress -> Interfaces -> R -> option R
}.

(** What Ipv4L3Protocol relies on: the routes it is given can be used. *)
Class RoutingLaws (R : Type) `{RoutingProtocol R} : Prop := {
  route_output_valid h oif ipv4 r route e :
    table_ok ipv4 -> route_output h oif ipv4 r = Some (Some route, e) -> route_valid ipv4 route;
  route_input_valid h idev ipv4 r route :
    table_ok ipv4 -> route_input h idev ipv4 r = Some (UnicastForward route) -> route_valid ipv4 route
}.

#[export] Instance static_routing : RoutingProtocol Ipv4StaticRouting := {
  route_output := RouteOutput;
  route_input := RouteInput;
  notify_interface_up := NotifyInterfaceUp;
  notify_interface_down i _ r := Some (NotifyInterfaceDown i r);
  notify_add_address := NotifyAddAddress;
  notify_remove_address := NotifyRemoveAddress
}.

#[export] Instance static_routing_laws : RoutingLaws Ipv4StaticRouting.
Proof.
  split; simpl.
  - intros h oif ipv4 r route e Hok E. unfold RouteOutput in E.
    destruct (LookupStatic _ _ _ _) as [rt|] eqn:El; [| done]. injection E as -> _. by eapply LookupStatic_valid.
  - intros h idev ipv4 r route Hok E. unfold RouteInput in E. inv_opt. case_match; [by case_match |].
    inv_opt. case_match; [done |]. inv_opt. case_match; [done |]. inv_opt.
    case_match; [| done]. injection E as ->. by eapply LookupStatic_valid.
Qed.

(** ** Addresses and routes *)

Definition network_route (interface : Z) (a : Ipv4InterfaceAddress) (e : Ipv4RoutingTableEntry) : Prop :=
  m_interface e = interface /\ m_dest e = CombineMask (m_local a) (m_mask a) /\ m_destNetworkMask e = m_mask a.

(** The routing table follows the addresses of an interface that is up:
    adding an address makes the network of the address a candidate through the
    interface and keeps every other entry; removing the address removes every
    such entry and no other, unless its mask is all ones, in which case the host
    entry stays in the table. *)
Theorem static_routes_follow_addresses interface a ipv4 r :
  IsUp interface ipv4 = Some true -> m_local a <> Ipv4Address_default -> m_mask a <> Ipv4Mask_default ->
  exists r1 r2, NotifyAddAddress interface a ipv4 r = Some r1 /\
    NotifyRemoveAddress interface a ipv4 r1 = Some r2 /\
    (exists e, (e, 0) ∈ m_networkRoutes r1 /\ network_route interface a e) /\
    (forall x, x ∈ m_networkRoutes r -> x ∈ m_networkRoutes r1) /\
    (m_mask a <> GetOnes -> forall x, x ∈ m_networkRoutes r2 <-> x ∈ m_networkRoutes r /\ ~ network_route interface a x.1) /\
    (m_mask a = GetOnes -> r2 = r1).
Proof.
  intros Hup Hl Hm. unfold NotifyAddAddress, NotifyRemoveAddress. rewrite Hup. simpl.
  rewrite (proj2 (Z.eqb_neq _ _) Hl), (proj2 (Z.eqb_neq _ _) Hm). simpl.
  unfold AddNetworkRouteTo_direct, add_route. set (e := CreateNetworkRouteTo_direct _ _ _).
  assert (network_route interface a e) as He by done.
  set (r1 := if LookupRoute e 0 r then r else _).
  assert (m_networkRoutes r1 = m_networkRoutes r \/ m_networkRoutes r1 = m_networkRoutes r ++ [(e, 0)]) as Hr1
    by (unfold r1; destruct (LookupRoute e 0 r); auto).
  assert (exists e', (e', 0) ∈ m_networkRoutes r1 /\ network_route interface a e') as Hex.
  { unfold r1. destruct (LookupRoute e 0 r) eqn:E.
    - unfold LookupRoute in E. apply existsb_exists in E as ([e' m'] & Hin & Hc). bool_prop. subst m'.
      exists e'. split; [by apply list_elem_of_In | done].
    - exists e. simpl. split; [apply elem_of_app; right; by left | done]. }
  eexists r1, _. split; [done |]. split; [reflexivity |]. split; [done |]. split_and!.
  - intros x Hx. destruct Hr1 as [->| ->]; [done | apply elem_of_app; by left].
  - intros Hone x. simpl. rewrite list_elem_of_In, filter_In, <- list_elem_of_In.
    assert (negb ((m_interface x.1 =? interface) && IsNetwork x.1 && (m_dest x.1 =? CombineMask (m_local a) (m_mask a)) &&
      (m_destNetworkMask x.1 =? m_mask a)) = true <-> ~ network_route interface a x.1) as ->.
    { rewrite negb_true_iff, <- not_true_iff_false. unfold network_route, IsNetwork, IsHost.
      rewrite !andb_true_iff, !Z.eqb_eq, negb_true_iff, Z.eqb_neq. split; intros H ?; apply H; [| tauto].
      intuition congruence. }
    destruct Hr1 as [->| ->]; [done |]. rewrite elem_of_app, list_elem_of_singleton. split; [| tauto].
    intros [[?| ->] Hn]; [done |]. by destruct Hn.
  - intros Hone. assert (forall l, List.filter (fun x : Ipv4RoutingTableEntry * Z =>
      negb ((m_interface x.1 =? interface) && IsNetwork x.1 && (m_dest x.1 =? CombineMask (m_local a) (m_mask a)) &&
        (m_destNetworkMask x.1 =? m_mask a))) l = l) as ->; [| by destruct r1].
    induction l as [|x l IHl]; [done |]. simpl. rewrite IHl. unfold IsNetwork, IsHost. rewrite Hone.
    by destruct (m_destNetworkMask x.1 =? GetOnes), (m_interface x.1 =? interface), (m_dest x.1 =? _).
Qed.

(** ** A node with two interfaces, 10.0.0.1/8 and 10.1.0.1/16 *)

Definition demo_interface (id mtu addr mask : Z) : Ipv4Interface :=
  mkInterface true true 1 [InterfaceAddress_new addr mask] (mkDevice id mtu true true false).
Definition demo_ifs : Interfaces :=
  mkIfs [demo_interface 100 1500 0x0a000001 0xff000000; demo_interface 200 600 0x0a010001 0xffff0000]
    {[100 := 0; 200 := 1]} true false.
(** 10.0.0.0/8 on interface 0, 10.1.0.0/16 on interface 1, 10.1.0.0/16 via
    10.1.0.9 with metric 5, and a default route. *)
Definition demo_routes : Ipv4StaticRouting :=
  SetDefaultRoute 0x0a000009 0 0
    (AddNetworkRouteTo 0x0a010000 0xffff0000 0x0a010009 1 5
      (AddNetworkRouteTo_direct 0x0a010000 0xffff0000 1 0
        (AddNetworkRouteTo_direct 0x0a000000 0xff000000 0 0 StaticRouting_new))).

Lemma demo_table_ok : table_ok demo_ifs.
Proof.
  split; [done |]. intros d k. simpl. rewrite lookup_insert_Some, lookup_singleton_Some. split.
  - intros [[<- <-]|[_ [<- <-]]]; by eexists.
  - intros (i & Hi & <- & Hk). destruct (Z.to_nat k) as [|[|n]] eqn:En; simpl in Hi; [| | done].
    + injection Hi as <-. left. split; [done | lia].
    + injection Hi as <-. right. split; [done |]. split; [done | lia].
Qed.

Lemma LookupStatic_longest_prefix_witness :
  LookupStatic 0x0a010203 None demo_ifs demo_routes = Some (Some (mkRoute 0x0a010000 0x0a010001 0 true 200)) /\
  longest_prefix demo_ifs 0x0a010203 None (m_networkRoutes demo_routes) (mkRoute 0x0a010000 0x0a010001 0 true 200).
Proof.
  destruct (LookupStatic_longest_prefix demo_ifs 0x0a010203 None demo_routes) as (res&E&H); [reflexivity | |].
  - repeat (apply List.Forall_cons; [split; [vm_compute; split; [discriminate | reflexivity] |];
      split; [vm_compute; split; [discriminate | reflexivity] | vm_compute; eexists; reflexivity] |]). apply List.Forall_nil.
  - assert (LookupStatic 0x0a010203 None demo_ifs demo_routes = Some (Some (mkRoute 0x0a010000 0x0a010001 0 true 200))) as E' by (vm_compute; reflexivity).
    split; [exact E'|]. rewrite E' in E. injection E as <-. exact H.
Defined.

Lemma static_routes_follow_addresses_witness :
  exists r1 r2, NotifyAddAddress 1 (InterfaceAddress_new 0x0a020001 0xffff0000) demo_ifs demo_routes = Some r1 /\
    NotifyRemoveAddress 1 (InterfaceAddress_new 0x0a020001 0xffff0000) demo_ifs r1 = Some r2.
Proof.
  destruct (static_routes_follow_addresses 1 (InterfaceAddress_new 0x0a020001 0xffff0000) demo_ifs demo_routes)
    as (r1 & r2 & A & B & _); [reflexivity | discriminate | discriminate |].
  exists r1, r2. split; [exact A | exact B].
Defined.

(** Of two host routes to the same address the first one is used even when the
    second has a smaller metric. *)
Lemma host_route_metric_ignored :
  let r := AddHostRouteTo 0x0a010203 0x0a010008 1 1 (AddHostRouteTo 0x0a010203 0x0a010009 1 7 StaticRouting_new) in
  LookupStatic 0x0a010203 None demo_ifs r = Some (Some (mkRoute 0x0a010203 0x0a010001 0x0a010009 true 200)).
Proof. vm_compute. reflexivity. Qed.

End Ipv4StaticRouting.
