(* ===== verification/Arp.v ===== *)
(** * ARP (src/internet/model: arp-cache.cc, arp-l3-protocol.cc, arp-header.h)

    The cache of a device with the states of its entries, the packets that wait for
    an answer and the one timer that asks again; and the protocol that uses it.
    Times are nanoseconds. The timer is the time at which its event is due, if it is
    pending. A packet with its header is opaque ([Pkt]); what happens to packets is
    kept in a log. *)

From S2P Require Import Prelude Ipv4Address Ipv4Interface.

Module Arp.
Import Ipv4Mask Ipv4Address Ipv4InterfaceAddress Ipv4Interface.

(** ** Hardware addresses (network/model/address.cc) *)

Record Address := mkAddress { a_type : Z; a_data : list Z }.
#[export] Instance address_eq_dec : EqDecision Address.
Proof. solve_decision. Defined.
(** A type of zero is equal to any type. *)
Definition address_eq (a b : Address) : bool :=
  if negb (a_type a =? a_type b) && negb (a_type a =? 0) && negb (a_type b =? 0) then false
  else bool_decide (a_data a = a_data b).
Definition IsInvalid (a : Address) : bool := (length (a_data a) =? 0)%nat && (a_type a =? 0).

(** ** ARP messages *)

Inductive ArpType := ARP_TYPE_REQUEST | ARP_TYPE_REPLY | ARP_TYPE_OTHER (n : Z).
Record ArpHeader := mkArp { m_type : ArpType; m_macSource : Address; m_macDest : Address; m_ipv4Source : Z; m_ipv4Dest : Z }.
Definition SetRequest (smac : Address) (sip : Z) (dmac : Address) (dip : Z) : ArpHeader := mkArp ARP_TYPE_REQUEST smac dmac sip dip.
Definition SetReply (smac : Address) (sip : Z) (dmac : Address) (dip : Z) : ArpHeader := mkArp ARP_TYPE_REPLY smac dmac sip dip.
Definition IsRequest (h : ArpHeader) : bool := match m_type h with ARP_TYPE_REQUEST => true | _ => false end.
Definition IsReply (h : ArpHeader) : bool := match m_type h with ARP_TYPE_REPLY => true | _ => false end.

(** ** Entries *)

Inductive ArpCacheEntryState := ALIVE | WAIT_REPLY | DEAD | PERMANENT | STATIC_AUTOGENERATED.
#[export] Instance entry_state_eq_dec : EqDecision ArpCacheEntryState.
Proof. solve_decision. Defined.
Definition TIME_MAX : Z := 2 ^ 63 - 1.

Section Arp.
Context {Pkt : Type}.

Record Entry := mkEntry {
  m_state : ArpCacheEntryState;
  m_lastSeen : Z;
  m_macAddress : Address;
  m_ipv4Address : Z;
  m_pending : list Pkt;
  m_retries : Z
}.
Record ArpCache := mkCache {
  m_aliveTimeout : Z;
  m_deadTimeout : Z;
  m_waitReplyTimeout : Z;
  m_maxRetries : Z;
  m_pendingQueueSize : Z;
  m_waitReplyTimer : option Z;
  m_arpCache : list (Z * Entry)
}.
Definition Entry_new : Entry := mkEntry ALIVE 0 (mkAddress 0 []) 0 [] 0.
Definition in_state (s : ArpCacheEntryState) (e : Entry) : bool := bool_decide (m_state e = s).
Definition IsDead := in_state DEAD.
Definition IsAlive := in_state ALIVE.
Definition IsWaitReply := in_state WAIT_REPLY.
Definition IsPermanent := in_state PERMANENT.
Definition IsAutoGenerated := in_state STATIC_AUTOGENERATED.

Definition SetMacAddress (a : Address) (e : Entry) : Entry := mkEntry (m_state e) (m_lastSeen e) a (m_ipv4Address e) (m_pending e) (m_retries e).
Definition SetIpv4Address (a : Z) (e : Entry) : Entry := mkEntry (m_state e) (m_lastSeen e) (m_macAddress e) a (m_pending e) (m_retries e).
Definition UpdateSeen (now : Z) (e : Entry) : Entry := mkEntry (m_state e) now (m_macAddress e) (m_ipv4Address e) (m_pending e) (m_retries e).
Definition ClearRetries (e : Entry) : Entry := mkEntry (m_state e) (m_lastSeen e) (m_macAddress e) (m_ipv4Address e) (m_pending e) 0.
Definition IncrementRetries (now : Z) (e : Entry) : Entry :=
  UpdateSeen now (mkEntry (m_state e) (m_lastSeen e) (m_macAddress e) (m_ipv4Address e) (m_pending e) (u32 (m_retries e + 1))).
Definition ClearPendingPacket (e : Entry) : Entry := mkEntry (m_state e) (m_lastSeen e) (m_macAddress e) (m_ipv4Address e) [] (m_retries e).
Definition set_state (s : ArpCacheEntryState) (e : Entry) : Entry := mkEntry s (m_lastSeen e) (m_macAddress e) (m_ipv4Address e) (m_pending e) (m_retries e).
Definition push_pending (p : Pkt) (e : Entry) : Entry :=
  mkEntry (m_state e) (m_lastSeen e) (m_macAddress e) (m_ipv4Address e) (m_pending e ++ [p]) (m_retries e).

Definition MarkDead (now : Z) (e : Entry) : option Entry :=
  assert* IsAlive e || IsWaitReply e || IsDead e in
  Some (UpdateSeen now (ClearRetries (set_state DEAD e))).
Definition MarkAlive (now : Z) (macAddress : Address) (e : Entry) : option Entry :=
  assert* IsWaitReply e in
  Some (UpdateSeen now (ClearRetries (set_state ALIVE (SetMacAddress macAddress e)))).
Definition MarkPermanent (now : Z) (e : Entry) : option Entry :=
  assert* negb (IsInvalid (m_macAddress e)) in
  Some (UpdateSeen now (ClearRetries (set_state PERMANENT e))).
Definition MarkAutoGenerated (now : Z) (e : Entry) : option Entry :=
  assert* negb (IsInvalid (m_macAddress e)) in
  Some (UpdateSeen now (ClearRetries (set_state STATIC_AUTOGENERATED e))).
(** [false] when the queue of waiting packets is full. *)
Definition UpdateWaitReply (c : ArpCache) (waiting : Pkt) (e : Entry) : option (bool * Entry) :=
  assert* IsWaitReply e in
  if m_pendingQueueSize c <=? Z.of_nat (length (m_pending e)) then Some (false, e) else Some (true, push_pending waiting e).
(** The entry's part; the caller starts the timer ([StartWaitReplyTimer]). *)
Definition MarkWaitReply (now : Z) (waiting : Pkt) (e : Entry) : option Entry :=
  assert* IsAlive e || IsDead e in
  assert* bool_decide (length (m_pending e) = 0%nat) in
  Some (UpdateSeen now (push_pending waiting (set_state WAIT_REPLY e))).
Definition DequeuePending (e : Entry) : option Pkt * Entry :=
  match m_pending e with
  | [] => (None, e)
  | p :: rest => (Some p, mkEntry (m_state e) (m_lastSeen e) (m_macAddress e) (m_ipv4Address e) rest (m_retries e))
  end.
Definition GetTimeout (c : ArpCache) (e : Entry) : Z :=
  match m_state e with
  | WAIT_REPLY => m_waitReplyTimeout c
  | DEAD => m_deadTimeout c
  | ALIVE => m_aliveTimeout c
  | PERMANENT | STATIC_AUTOGENERATED => TIME_MAX
  end.
Definition IsExpired (now : Z) (c : ArpCache) (e : Entry) : bool := GetTimeout c e <? now - m_lastSeen e.

(** ** The cache *)

Definition set_timer (t : option Z) (c : ArpCache) : ArpCache :=
  mkCache (m_aliveTimeout c) (m_deadTimeout c) (m_waitReplyTimeout c) (m_maxRetries c) (m_pendingQueueSize c) t (m_arpCache c).
Definition set_entries (l : list (Z * Entry)) (c : ArpCache) : ArpCache :=
  mkCache (m_aliveTimeout c) (m_deadTimeout c) (m_waitReplyTimeout c) (m_maxRetries c) (m_pendingQueueSize c) (m_waitReplyTimer c) l.
Definition SetWaitReplyTimeout (t : Z) (c : ArpCache) : ArpCache :=
  mkCache (m_aliveTimeout c) (m_deadTimeout c) t (m_maxRetries c) (m_pendingQueueSize c) (m_waitReplyTimer c) (m_arpCache c).

(** The map from addresses, as its entries in order. *)
Fixpoint find_entry (to : Z) (l : list (Z * Entry)) : option Entry :=
  match l with
  | [] => None
  | (k, e) :: rest => if k =? to then Some e else find_entry to rest
  end.
Fixpoint put_entry (to : Z) (e : Entry) (l : list (Z * Entry)) : list (Z * Entry) :=
  match l with
  | [] => [(to, e)]
  | (k, x) :: rest => if k =? to then (to, e) :: rest else if to <? k then (to, e) :: l else (k, x) :: put_entry to e rest
  end.
Definition CacheLookup (to : Z) (c : ArpCache) : option Entry := find_entry to (m_arpCache c).
Definition update (to : Z) (e : Entry) (c : ArpCache) : ArpCache := set_entries (put_entry to e (m_arpCache c)) c.
Definition Add (to : Z) (c : ArpCache) : option (Entry * ArpCache) :=
  match CacheLookup to c with
  | Some _ => None
  | None => let e := SetIpv4Address to Entry_new in Some (e, update to e c)
  end.
Definition LookupInverse (to : Address) (c : ArpCache) : list Entry :=
  filter (fun e => address_eq (m_macAddress e) to = true) (snd <$> m_arpCache c).

Definition StartWaitReplyTimer (now : Z) (c : ArpCache) : ArpCache :=
  match m_waitReplyTimer c with
  | Some _ => c
  | None => set_timer (Some (now + m_waitReplyTimeout c)) c
  end.

(** What happens to packets and messages. The code reports the first two; [Forgotten]
    are the waiting packets of deleted entries. *)
Inductive aevent :=
  | CacheDrop (p : Pkt) | ArpDrop (p : Pkt) | Forgotten (p : Pkt)
  | TcSend (to : Address) (p : Pkt) | OtherSend (call : SendCall) (p : Pkt)
  | ScheduleRequest (at_ to : Z) | RequestCallback (to : Z) | SentArp (to : Address) (h : ArpHeader) | DropMessage (h : ArpHeader).

(** The loop of [HandleWaitReplyTimeout]: the new entries, what was reported and
    whether the timer is restarted. *)
Fixpoint timeout_loop (now : Z) (c : ArpCache) (l : list (Z * Entry)) : option (list (Z * Entry) * list aevent * bool) :=
  match l with
  | [] => Some ([], [], false)
  | (k, entry) :: rest =>
      let* (e', ev, again) :=
        if IsWaitReply entry then
          if m_retries entry <? m_maxRetries c
          then Some (IncrementRetries now entry, [RequestCallback (m_ipv4Address entry)], true)
          else let* dead := MarkDead now entry in Some (ClearPendingPacket (ClearRetries dead), CacheDrop <$> m_pending dead, false)
        else Some (entry, [], false) in
      let* (rest', evs, again') := timeout_loop now c rest in
      Some ((k, e') :: rest', ev ++ evs, again || again')
  end.
Definition HandleWaitReplyTimeout (now : Z) (c : ArpCache) : option (ArpCache * list aevent) :=
  let* (l, evs, again) := timeout_loop now c (m_arpCache c) in
  let c' := set_entries l c in
  Some (if again then set_timer (Some (now + m_waitReplyTimeout c)) c' else c', evs).
Definition Flush (c : ArpCache) : ArpCache * list aevent :=
  (set_timer None (set_entries [] c), Forgotten <$> concat ((fun x => m_pending x.2) <$> m_arpCache c)).
Fixpoint remove_auto (l : list (Z * Entry)) : list (Z * Entry) * list aevent :=
  match l with
  | [] => ([], [])
  | (k, e) :: rest =>
      let '(rest', evs) := remove_auto rest in
      if IsAutoGenerated e then (rest', (Forgotten <$> m_pending e) ++ evs) else ((k, e) :: rest', evs)
  end.
Definition RemoveAutoGeneratedEntries (c : ArpCache) : ArpCache * list aevent :=
  let '(l, evs) := remove_auto (m_arpCache c) in (set_entries l c, evs).
(** The entry of address [to] is removed. *)
Definition Remove (to : Z) (c : ArpCache) : ArpCache * list aevent :=
  match CacheLookup to c with
  | None => (c, [])
  | Some e => (set_entries (filter (fun x => x.1 <> to) (m_arpCache c)) c, Forgotten <$> m_pending e)
  end.

(** ** The protocol on one device *)

Record Arp := mkArpState { cache : ArpCache; interface : Ipv4Interface; hwAddress : Address; hwBroadcast : Address; a_log : list aevent }.
Definition set_cache (c : ArpCache) (a : Arp) : Arp := mkArpState c (interface a) (hwAddress a) (hwBroadcast a) (a_log a).
Definition report (l : list aevent) (a : Arp) : Arp := mkArpState (cache a) (interface a) (hwAddress a) (hwBroadcast a) (a_log a ++ l).

(** The entry waits for an answer; a request is scheduled after [jitter]. *)
Definition ask (now jitter : Z) (packet : Pkt) (destination : Z) (entry : Entry) (a : Arp) : option (option Address * Arp) :=
  let* e := MarkWaitReply now packet entry in
  Some (None, report [ScheduleRequest (now + jitter) destination] (set_cache (StartWaitReplyTimer now (update destination e (cache a))) a)).
(** The hardware address, if it is known. *)
Definition Lookup (now jitter : Z) (packet : Pkt) (destination : Z) (a : Arp) : option (option Address * Arp) :=
  match CacheLookup destination (cache a) with
  | Some entry =>
      if IsExpired now (cache a) entry then
        if IsDead entry then ask now jitter packet destination entry a
        else if IsAlive entry then ask now jitter packet destination entry a
        else None
      else if IsDead entry then Some (None, report [ArpDrop packet] a)
      else if IsAlive entry then Some (Some (m_macAddress entry), a)
      else if IsWaitReply entry then
        let* (fits, e) := UpdateWaitReply (cache a) packet entry in
        let a' := set_cache (update destination e (cache a)) a in
        Some (None, if fits then a' else report [ArpDrop packet] a')
      else if IsPermanent entry || IsAutoGenerated entry then Some (Some (m_macAddress entry), a)
      else Some (None, a)
  | None =>
      let* (entry, c) := Add destination (cache a) in
      ask now jitter packet destination entry (set_cache c a)
  end.
(** [Ipv4Interface::Send], with its call of [Lookup]. *)
Definition InterfaceSend (now jitter : Z) (packet : Pkt) (dest : Z) (a : Arp) : option Arp :=
  let* call := Ipv4Interface.Send dest (interface a) in
  match call with
  | CallArpLookup d =>
      let* (found, a') := Lookup now jitter packet d a in
      Some (match found with Some mac => report [TcSend mac packet] a' | None => a' end)
  | _ => Some (report [OtherSend call packet] a)
  end.

(** [source]: the address [Ipv4L3Protocol::SelectSourceAddress] chooses. *)
Definition SendArpRequest (source to : Z) (a : Arp) : Arp :=
  report [SentArp (hwBroadcast a) (SetRequest (hwAddress a) source (hwBroadcast a) to)] a.
Definition SendArpReply (myIp toIp : Z) (toMac : Address) (a : Arp) : Arp := report [SentArp toMac (SetReply (hwAddress a) myIp toMac toIp)] a.

(** Sending the packets that waited: the entry is read again for each. *)
Fixpoint send_pending (fuel : nat) (now jitter from : Z) (a : Arp) : option Arp :=
  let* entry := CacheLookup from (cache a) in
  match DequeuePending entry with
  | (None, _) => Some a
  | (Some p, e) =>
      match fuel with
      | O => None
      | S fuel =>
          let* a' := InterfaceSend now jitter p from (set_cache (update from e (cache a)) a) in
          send_pending fuel now jitter from a'
      end
  end.
Definition receive_reply (now jitter : Z) (arp : ArpHeader) (a : Arp) : option Arp :=
  let from := m_ipv4Source arp in
  match CacheLookup from (cache a) with
  | Some entry =>
      if IsWaitReply entry then
        let* e := MarkAlive now (m_macSource arp) entry in
        send_pending (length (m_pending e)) now jitter from (set_cache (update from e (cache a)) a)
      else Some (report [DropMessage arp] a)
  | None => Some (report [DropMessage arp] a)
  end.
(** The loop over the addresses of the interface. *)
Fixpoint receive_loop (now jitter : Z) (arp : ArpHeader) (addrs : list Ipv4InterfaceAddress) (a : Arp) : option Arp :=
  match addrs with
  | [] => Some a
  | i :: rest =>
      if IsRequest arp && (m_ipv4Dest arp =? m_local i)
      then Some (SendArpReply (m_ipv4Dest arp) (m_ipv4Source arp) (m_macSource arp) a)
      else if IsReply arp && (m_ipv4Dest arp =? m_local i) && address_eq (m_macDest arp) (hwAddress a)
      then receive_reply now jitter arp a
      else receive_loop now jitter arp rest a
  end.
(** A message whose header could not be read is ignored. *)
Definition Receive (now jitter : Z) (arp : option ArpHeader) (a : Arp) : option Arp :=
  match arp with
  | None => Some a
  | Some h => receive_loop now jitter h (m_ifaddrs (interface a)) a
  end.
(** A static entry, as [NeighborCacheHelper::AddEntry] makes it; [perm] is for callers
    that make it permanent instead. *)
Definition AddStatic (now : Z) (perm : bool) (ip : Z) (mac : Address) (a : Arp) : option Arp :=
  let* (entry, c) := match CacheLookup ip (cache a) with Some e => Some (e, cache a) | None => Add ip (cache a) end in
  let* e := (if perm then MarkPermanent else MarkAutoGenerated) now (SetMacAddress mac entry) in
  Some (set_cache (update ip e c) a).
Definition AddEntry (now ip : Z) (mac : Address) (a : Arp) : option Arp := AddStatic now false ip mac a.
(** The event of the timer; the callback of the cache sends a request at once. *)
Definition request_now (source : Z -> Z) (a : Arp) (e : aevent) : aevent :=
  match e with
  | RequestCallback to => SentArp (hwBroadcast a) (SetRequest (hwAddress a) (source to) (hwBroadcast a) to)
  | _ => e
  end.
Definition TimerEvent (source : Z -> Z) (now : Z) (a : Arp) : option Arp :=
  let* (c, evs) := HandleWaitReplyTimeout now (set_timer None (cache a)) in
  Some (report (request_now source a <$> evs) (set_cache c a)).
End Arp.

Arguments Entry : clear implicits.
Arguments ArpCache : clear implicits.
Arguments Arp : clear implicits.
Arguments aevent : clear implicits.
End Arp.
