(* ===== verification/ArpProps.v ===== *)
(** * Correctness of ARP

    Every packet handed to ARP is sent, reported as dropped, forgotten with a deleted
    entry, or still waiting; no assertion fails, because the one timer of a cache
    reaches every waiting entry before it expires; an answer sends the waiting packets
    in order; without one the entry is given up after the retries. *)

From S2P Require Import Prelude Ipv4Address Ipv4Interface Arp.

Module ArpProps.
Import Ipv4Interface Arp.

Section Props.
Context {Pkt : Type}.
Implicit Types (e : Entry Pkt) (l : list (Z * Entry Pkt)) (ps : list Pkt) (c : ArpCache Pkt) (a : Arp Pkt).

(** ** The map *)

Definition sorted_keys l : Prop := StronglySorted Z.lt (fst <$> l).
Lemma find_put_eq to e l : find_entry to (put_entry to e l) = Some e.
Proof.
  induction l as [|[k x] l IH]; cbn; [by rewrite Z.eqb_refl|]. destruct (k =? to) eqn:E; cbn; [by rewrite Z.eqb_refl|].
  destruct (to <? k); cbn; [by rewrite Z.eqb_refl|]. by rewrite E.
Qed.
Lemma find_put_ne to k' e l : k' <> to -> find_entry k' (put_entry to e l) = find_entry k' l.
Proof.
  intros Hne. assert ((to =? k') = false) as E0 by lia. induction l as [|[k x] l IH]; cbn; [by rewrite E0|].
  destruct (k =? to) eqn:E; cbn; [rewrite E0; by replace (k =? k') with false by lia|]. destruct (to <? k); cbn; [by rewrite E0|]. by rewrite IH.
Qed.
Lemma put_put to e e' l : put_entry to e' (put_entry to e l) = put_entry to e' l.
Proof.
  induction l as [|[k x] l IH]; cbn; [by rewrite Z.eqb_refl|]. destruct (k =? to) eqn:E; cbn; [by rewrite Z.eqb_refl|].
  destruct (to <? k) eqn:E2; cbn; [by rewrite Z.eqb_refl|]. by rewrite E, E2, IH.
Qed.
Lemma find_None_keys to l : find_entry to l = None <-> to ∉ fst <$> l.
Proof.
  induction l as [|[k x] l IH]; cbn; [split; [intros _; apply not_elem_of_nil|done]|]. rewrite not_elem_of_cons, <- IH.
  destruct (k =? to) eqn:E; [split; [done|lia]|]. split; [intros H; split; [lia|done]|tauto].
Qed.
Lemma sorted_cons k x l : sorted_keys ((k, x) :: l) -> sorted_keys l /\ Forall (fun y => k < y.1) l.
Proof. unfold sorted_keys. rewrite fmap_cons. intros H. apply StronglySorted_inv in H as [H1 H2]. split; [done|]. by rewrite Forall_fmap in H2. Qed.
Lemma put_present to e0 l : sorted_keys l -> find_entry to l = Some e0 ->
  exists l1 l2, l = l1 ++ (to, e0) :: l2 /\ forall e, put_entry to e l = l1 ++ (to, e) :: l2.
Proof.
  induction l as [|[k x] l IH]; [done|]. intros [Hs Hk]%sorted_cons. cbn. destruct (k =? to) eqn:E.
  - intros [= ->]. exists [], l. apply Z.eqb_eq in E as ->. done.
  - intros Hf. destruct (IH Hs Hf) as (l1&l2&->&H). exists ((k, x) :: l1), l2. split; [done|]. intros e.
    rewrite Forall_app, Forall_cons in Hk. destruct Hk as (_&Hk&_). cbn in Hk. replace (to <? k) with false by lia. by rewrite H.
Qed.
Lemma put_same to e l : sorted_keys l -> find_entry to l = Some e -> put_entry to e l = l.
Proof. intros Hs Hf. destruct (put_present to e l Hs Hf) as (l1&l2&->&H). apply H. Qed.
Lemma put_absent to e l : find_entry to l = None -> put_entry to e l ≡ₚ (to, e) :: l.
Proof.
  induction l as [|[k x] l IH]; [done|]. cbn. destruct (k =? to) eqn:E; [done|]. intros Hf. destruct (to <? k); [done|]. rewrite IH by done. apply Permutation_swap.
Qed.
Lemma put_keys_present to e e0 l : sorted_keys l -> find_entry to l = Some e0 -> fst <$> put_entry to e l = fst <$> l.
Proof. intros Hs Hf. destruct (put_present to e0 l Hs Hf) as (l1&l2&->&H). rewrite H, !fmap_app. done. Qed.
Lemma put_sorted to e l : sorted_keys l -> sorted_keys (put_entry to e l).
Proof.
  induction l as [|[k x] l IH]; intros Hs; [by repeat constructor|]. pose proof (sorted_cons _ _ _ Hs) as [Hs' Hk]. cbn. destruct (k =? to) eqn:E; [apply Z.eqb_eq in E as ->; exact Hs|].
  unfold sorted_keys. destruct (to <? k) eqn:E2; cbn.
  - constructor; [exact Hs|]. rewrite Forall_cons. split; [cbn; lia|]. rewrite Forall_fmap. eapply Forall_impl; [exact Hk|]. intros y Hy. cbn in *. lia.
  - constructor; [by apply IH|]. rewrite Forall_fmap. destruct (find_entry to l) as [e0|] eqn:Ef.
    + destruct (put_present to e0 l Hs' Ef) as (l1&l2&->&H). rewrite H. rewrite !Forall_app, !Forall_cons in *. cbn in *. tauto.
    + rewrite (put_absent _ _ _ Ef). constructor; [cbn; lia|]. done.
Qed.

(** The waiting packets of all entries. *)
Definition waiting_in l : list Pkt := concat ((fun x => m_pending x.2) <$> l).
Lemma waiting_perm l l' : l ≡ₚ l' -> waiting_in l ≡ₚ waiting_in l'.
Proof. intros H. unfold waiting_in. by rewrite H. Qed.
Lemma waiting_put to e e0 l : sorted_keys l -> find_entry to l = Some e0 -> exists rest, waiting_in l ≡ₚ m_pending e0 ++ rest /\ waiting_in (put_entry to e l) ≡ₚ m_pending e ++ rest.
Proof.
  intros Hs Hf. destruct (put_present to e0 l Hs Hf) as (l1&l2&->&H). exists (waiting_in (l1 ++ l2)). rewrite H. unfold waiting_in.
  rewrite !fmap_app, !concat_app. cbn. split; solve_Permutation.
Qed.
Lemma waiting_put_new to e l : find_entry to l = None -> waiting_in (put_entry to e l) ≡ₚ m_pending e ++ waiting_in l.
Proof. intros Hf. by rewrite (waiting_perm _ _ (put_absent to e l Hf)). Qed.
Lemma Forall_put (P : Z * Entry Pkt -> Prop) to e l : sorted_keys l -> Forall P l -> P (to, e) -> Forall P (put_entry to e l).
Proof.
  intros Hs Hl He. destruct (find_entry to l) as [e0|] eqn:Ef.
  - destruct (put_present to e0 l Hs Ef) as (l1&l2&->&H). rewrite H. rewrite !Forall_app, !Forall_cons in *. tauto.
  - rewrite (put_absent _ _ _ Ef). by constructor.
Qed.
Lemma find_Forall (P : Z * Entry Pkt -> Prop) to e l : Forall P l -> find_entry to l = Some e -> P (to, e).
Proof. induction 1 as [|[k x] l Hx _ IH]; [done|]. cbn. destruct (k =? to) eqn:E; [|done]. intros [= <-]. by apply Z.eqb_eq in E as <-. Qed.

(** ** The invariant *)

Definition conf_ok (c : ArpCache Pkt) : Prop :=
  0 <= m_aliveTimeout c /\ 0 <= m_deadTimeout c /\ 0 <= m_waitReplyTimeout c /\ 0 <= m_maxRetries c < 2 ^ 32 - 1 /\ 0 <= m_pendingQueueSize c.
(** The timer is due before a waiting entry expires. *)
Definition entry_ok (now : Z) (c : ArpCache Pkt) (x : Z * Entry Pkt) : Prop :=
  m_ipv4Address x.2 = x.1 /\ 0 <= m_lastSeen x.2 <= now /\ Z.of_nat (length (m_pending x.2)) <= Z.max 1 (m_pendingQueueSize c) /\
  match m_state x.2 with
  | WAIT_REPLY => 0 <= m_retries x.2 <= m_maxRetries c /\ exists f, m_waitReplyTimer c = Some f /\ now <= f <= m_lastSeen x.2 + m_waitReplyTimeout c
  | ALIVE | DEAD => m_pending x.2 = [] /\ m_retries x.2 = 0
  | PERMANENT | STATIC_AUTOGENERATED => True
  end.
Record cache_inv (now : Z) (c : ArpCache Pkt) : Prop := mkCacheInv {
  ci_conf : conf_ok c;
  ci_now : 0 <= now <= TIME_MAX;
  ci_sorted : sorted_keys (m_arpCache c);
  ci_entries : Forall (entry_ok now c) (m_arpCache c);
  ci_timer f : m_waitReplyTimer c = Some f -> now <= f <= now + m_waitReplyTimeout c
}.

(** The packets that left ARP, in the log. *)
(** All packets that ARP is done with, whatever became of them. *)
Definition handled (log : list (aevent Pkt)) : list Pkt :=
  omap (fun ev => match ev with CacheDrop p | ArpDrop p | Forgotten p | TcSend _ p | OtherSend _ p => Some p | _ => None end) log.
Definition waiting (a : Arp Pkt) : list Pkt := waiting_in (m_arpCache (cache a)).
Definition all_packets (a : Arp Pkt) : list Pkt := handled (a_log a) ++ waiting a.
Definition arp_inv (now : Z) (offered : list Pkt) (a : Arp Pkt) : Prop :=
  cache_inv now (cache a) /\ dev_isMulticast (m_device (interface a)) = true /\ offered ≡ₚ all_packets a.

Lemma handled_app (l1 l2 : list (aevent Pkt)) : handled (l1 ++ l2) = handled l1 ++ handled l2.
Proof. apply omap_app. Qed.
Lemma find_ok now c to e : cache_inv now c -> CacheLookup to c = Some e -> entry_ok now c (to, e).
Proof. intros Hc Hf. eapply find_Forall; [apply Hc|exact Hf]. Qed.

(** Changing one entry, with the timer as it is. *)
Lemma update_inv now c to e : cache_inv now c -> entry_ok now c (to, e) -> cache_inv now (update to e c).
Proof.
  intros [H1 H2 H3 H4 H5] He. constructor; try done; cbn; [by apply put_sorted|]. by apply Forall_put.
Qed.
(** Starting the timer does not disturb what it serves. *)
Lemma timer_inv now c : cache_inv now c -> cache_inv now (StartWaitReplyTimer now c).
Proof.
  intros Hc. unfold StartWaitReplyTimer. destruct (m_waitReplyTimer c) as [f|] eqn:Et; [done|]. destruct Hc as [H1 H2 H3 H4 H5].
  constructor; try done; cbn.
  - eapply Forall_impl; [exact H4|]. intros [k e] (A1&A2&A3&A4). split_and!; [exact A1|apply A2|apply A2|exact A3|]. cbn in *.
    destruct (m_state e); try done. destruct A4 as (_&f&Ef&_). congruence.
  - intros f [= <-]. destruct H1 as (_&_&HT&_). lia.
Qed.
Lemma timer_update now to e c : StartWaitReplyTimer now (update to e c) = update to e (StartWaitReplyTimer now c).
Proof. unfold StartWaitReplyTimer. cbn. by destruct (m_waitReplyTimer c). Qed.
Lemma timer_started now c : exists f, m_waitReplyTimer (StartWaitReplyTimer now c) = Some f.
Proof. unfold StartWaitReplyTimer. destruct (m_waitReplyTimer c) eqn:E; eauto. Qed.
Lemma waiting_timer now c : m_arpCache (StartWaitReplyTimer now c) = m_arpCache c.
Proof. unfold StartWaitReplyTimer. by destruct (m_waitReplyTimer c). Qed.

(** A waiting entry never expires: this is what the timer is for. *)
Lemma waiting_not_expired now c to e : cache_inv now c -> CacheLookup to c = Some e -> m_state e = WAIT_REPLY -> IsExpired now c e = false.
Proof.
  intros Hc Hf Hs. destruct (find_ok _ _ _ _ Hc Hf) as (_&_&_&Hw). cbn in Hw. rewrite Hs in Hw. destruct Hw as (_&f&_&Hle).
  unfold IsExpired, GetTimeout. rewrite Hs. apply Z.ltb_ge. lia.
Qed.
Lemma static_not_expired now c to e : cache_inv now c -> CacheLookup to c = Some e -> m_state e = PERMANENT \/ m_state e = STATIC_AUTOGENERATED -> IsExpired now c e = false.
Proof.
  intros Hc Hf Hs. destruct (find_ok _ _ _ _ Hc Hf) as (_&Hl&_). cbn in Hl. pose proof (ci_now _ _ Hc).
  unfold IsExpired, GetTimeout. apply Z.ltb_ge. destruct Hs as [-> | ->]; lia.
Qed.

(** ** Asking *)

(** What an operation does: the packets are kept, the configuration too. *)
Definition keeps (now : Z) (new : list Pkt) (a a' : Arp Pkt) : Prop :=
  cache_inv now (cache a') /\ interface a' = interface a /\ hwAddress a' = hwAddress a /\ new ++ all_packets a ≡ₚ all_packets a'.
Lemma keeps_inv now offered new a a' : arp_inv now offered a -> keeps now new a a' -> arp_inv now (offered ++ new) a'.
Proof. intros (Hc&Hm&Hp) (Hc'&Hi&_&Hp'). split_and!; [done|by rewrite Hi|]. rewrite Hp, <- Hp'. solve_Permutation. Qed.

Lemma ask_ok now jitter packet to e a : cache_inv now (cache a) -> CacheLookup to (cache a) = Some e \/ CacheLookup to (cache a) = None ->
  m_state e = ALIVE \/ m_state e = DEAD -> m_pending e = [] -> m_retries e = 0 -> m_ipv4Address e = to ->
  exists a', ask now jitter packet to e a = Some (None, a') /\ keeps now [packet] a a'.
Proof.
  intros Hc Hf Hs Hp Hr Hip. unfold ask, MarkWaitReply, IsAlive, IsDead, in_state.
  replace (_ || _) with true by (destruct Hs as [-> | ->]; done). rewrite Hp. cbn [length]. rewrite bool_decide_true by done. cbn iota.
  set (e' := UpdateSeen now _). eexists. split; [reflexivity|]. split; [|split; [done|split; [done|]]].
  - cbn [cache report set_cache]. rewrite timer_update. pose proof (timer_inv _ _ Hc) as Hc0. destruct (timer_started now (cache a)) as [f Hf0].
    apply update_inv; [done|]. pose proof (ci_timer _ _ Hc0 f Hf0). pose proof (ci_conf _ _ Hc0) as (_&_&_&C4&C5). pose proof (ci_now _ _ Hc0).
    split_and!; [done|cbn; lia..|cbn; rewrite Hp; cbn; lia|]. cbn. rewrite Hr. split; [lia|]. exists f. split; [done|lia].
  - unfold all_packets, waiting. cbn. rewrite handled_app, waiting_timer. cbn. rewrite app_nil_r.
    enough (waiting_in (put_entry to e' (m_arpCache (cache a))) ≡ₚ [packet] ++ waiting_in (m_arpCache (cache a))) as -> by solve_Permutation.
    destruct Hf as [Hf|Hf].
    + destruct (waiting_put to e' e _ (ci_sorted _ _ Hc) Hf) as (rest&->&->). subst e'. cbn. by rewrite Hp.
    + rewrite (waiting_put_new _ _ _ Hf). subst e'. cbn. by rewrite Hp.
Qed.

Lemma keeps_refl now a : cache_inv now (cache a) -> keeps now [] a a.
Proof. done. Qed.
Lemma keeps_report now p ev a : cache_inv now (cache a) -> handled [ev] = [p] -> keeps now [p] a (report [ev] a).
Proof. intros Hc Hev. split_and!; try done. unfold all_packets. cbn. rewrite handled_app, Hev. solve_Permutation. Qed.

(** [Lookup] answers; a packet whose destination is not known is kept or reported. *)
Definition lookup_result (now : Z) (packet : Pkt) (r : option Address) a a' : Prop :=
  match r with Some _ => a' = a | None => keeps now [packet] a a' end.
Lemma Lookup_wait now jitter packet to e a : cache_inv now (cache a) -> CacheLookup to (cache a) = Some e -> m_state e = WAIT_REPLY ->
  exists a', Lookup now jitter packet to a = Some (None, a') /\ keeps now [packet] a a'.
Proof.
  intros Hc Hf Hs. unfold Lookup. rewrite Hf, (waiting_not_expired _ _ _ _ Hc Hf Hs). pose proof (find_ok _ _ _ _ Hc Hf) as (A1&A2&A3&A4). cbn in A1, A2, A3, A4.
  unfold IsDead, IsAlive, IsWaitReply, UpdateWaitReply, in_state. rewrite Hs in *. cbn. unfold IsWaitReply, in_state. rewrite Hs. cbn. destruct A4 as (Hr&f&Ef&Hle).
  destruct (m_pendingQueueSize (cache a) <=? _) eqn:Eq; (eexists; split; [reflexivity|]).
  - assert (update to e (cache a) = cache a) as E. { unfold update. rewrite put_same; [by destruct (cache a)|apply Hc|done]. }
    cbn. rewrite E. assert (set_cache (cache a) a = a) as -> by (by destruct a). by apply keeps_report.
  - split; [|split; [done|split; [done|]]].
    + apply update_inv; [done|]. split_and!; try done; cbn; [lia..|rewrite length_app; cbn; lia|]. rewrite Hs. split; [lia|]. by exists f.
    + unfold all_packets, waiting. cbn. destruct (waiting_put to (push_pending packet e) e _ (ci_sorted _ _ Hc) Hf) as (rest&->&->). cbn. solve_Permutation.
Qed.
Lemma Lookup_ok now jitter packet to a : cache_inv now (cache a) -> exists r a', Lookup now jitter packet to a = Some (r, a') /\ lookup_result now packet r a a'.
Proof.
  intros Hc. destruct (CacheLookup to (cache a)) as [e|] eqn:Hf.
  - destruct (decide (m_state e = WAIT_REPLY)) as [Hw|Hw].
    { destruct (Lookup_wait now jitter packet to e a Hc Hf Hw) as (a'&E&Hk). by exists None, a'. }
    pose proof (find_ok _ _ _ _ Hc Hf) as (A1&_&_&A4). cbn in A1, A4. unfold Lookup. rewrite Hf. unfold IsDead, IsAlive, IsWaitReply, IsPermanent, IsAutoGenerated, in_state.
    destruct (m_state e) eqn:Hs; cbn; try done.
    + destruct (IsExpired now (cache a) e); [|by exists (Some (m_macAddress e)), a].
      destruct (ask_ok now jitter packet to e a Hc (or_introl Hf) (or_introl Hs)) as (a'&E&Hk); [tauto..|done|]. by exists None, a'.
    + destruct (IsExpired now (cache a) e).
      * destruct (ask_ok now jitter packet to e a Hc (or_introl Hf) (or_intror Hs)) as (a'&E&Hk); [tauto..|done|]. by exists None, a'.
      * eexists None, _. split; [reflexivity|]. by apply keeps_report.
    + rewrite (static_not_expired _ _ _ _ Hc Hf (or_introl Hs)). by exists (Some (m_macAddress e)), a.
    + rewrite (static_not_expired _ _ _ _ Hc Hf (or_intror Hs)). by exists (Some (m_macAddress e)), a.
  - unfold Lookup, Add. rewrite Hf. set (e := SetIpv4Address to Entry_new).
    destruct (ask_ok now jitter packet to e a Hc (or_intror Hf) (or_introl eq_refl) eq_refl eq_refl eq_refl) as (a'&E&Hk).
    exists None, a'. split; [|done]. revert E. unfold ask. destruct (MarkWaitReply now packet e); [|done]. intros [= <-]. do 3 f_equal.
    unfold set_cache. cbn. do 2 f_equal. unfold update, set_entries. cbn. by rewrite put_put.
Qed.

(** ** Sending *)

Lemma Send_total dest (i : Ipv4Interface) : dev_isMulticast (m_device i) = true -> exists call, Ipv4Interface.Send dest i = Some call.
Proof. intros Hm. unfold Ipv4Interface.Send. rewrite Hm. repeat (destruct (negb _ || _) || case_match); eauto; done. Qed.
Lemma InterfaceSend_ok now jitter packet dest a : cache_inv now (cache a) -> dev_isMulticast (m_device (interface a)) = true ->
  exists a', InterfaceSend now jitter packet dest a = Some a' /\ keeps now [packet] a a'.
Proof.
  intros Hc Hm. unfold InterfaceSend. destruct (Send_total dest _ Hm) as [call E]. rewrite E.
  destruct call; try (eexists; split; [reflexivity|]; by apply keeps_report).
  destruct (Lookup_ok now jitter packet dest0 a Hc) as (r&a'&->&Hr). eexists. split; [reflexivity|]. destruct r as [mac|]; cbn in Hr; [subst a'; by apply keeps_report|done].
Qed.

(** ** Answers *)

(** What becomes of a packet sent to a resolved address. *)
Definition sent_event (call : SendCall) (mac : Address) (p : Pkt) : aevent Pkt := match call with CallArpLookup _ => TcSend mac p | _ => OtherSend call p end.
Lemma Send_lookup_dest dest i d : Ipv4Interface.Send dest i = Some (CallArpLookup d) -> d = dest.
Proof. unfold Ipv4Interface.Send. repeat case_match; try done. by intros [= ->]. Qed.
Lemma set_cache_twice c1 c2 a : set_cache c2 (set_cache c1 a) = set_cache c2 a.
Proof. done. Qed.
Lemma update_twice to e1 e2 c : update to e2 (update to e1 c) = update to e2 c.
Proof. unfold update. cbn. by rewrite put_put. Qed.
Lemma report_twice (l1 l2 : list (aevent Pkt)) a : report l2 (report l1 a) = report (l1 ++ l2) a.
Proof. unfold report. cbn. by rewrite app_assoc. Qed.
(** The packets of a fresh entry are sent, in order. *)
Lemma send_pending_eq now jitter from call ps : forall fuel a e, sorted_keys (m_arpCache (cache a)) -> CacheLookup from (cache a) = Some e ->
  m_state e = ALIVE -> m_lastSeen e = now -> m_pending e = ps -> (length ps <= fuel)%nat -> 0 <= m_aliveTimeout (cache a) ->
  Ipv4Interface.Send from (interface a) = Some call ->
  send_pending fuel now jitter from a = Some (report (sent_event call (m_macAddress e) <$> ps) (set_cache (update from (ClearPendingPacket e) (cache a)) a)).
Proof.
  induction ps as [|p ps IH]; intros fuel a e Hs Hf Hst Hl Hp Hfu Ha Hc.
  - assert (ClearPendingPacket e = e) as -> by (destruct e; cbn in *; by subst). unfold update. rewrite put_same by done.
    destruct fuel; cbn; rewrite Hf; unfold DequeuePending; rewrite Hp; do 2 f_equal; destruct a as [[] ? ? ? ?]; unfold report; cbn; by rewrite app_nil_r.
  - destruct fuel as [|fuel]; [cbn in Hfu; lia|]. cbn [send_pending]. rewrite Hf. unfold DequeuePending. rewrite Hp.
    set (e1 := mkEntry _ _ _ _ _ _). set (a1 := set_cache (update from e1 (cache a)) a).
    assert (InterfaceSend now jitter p from a1 = Some (report [sent_event call (m_macAddress e) p] a1)) as ->.
    { unfold InterfaceSend. change (interface a1) with (interface a). rewrite Hc. destruct call; try done. apply Send_lookup_dest in Hc as ->. unfold Lookup.
      assert (CacheLookup from (cache a1) = Some e1) as -> by (unfold CacheLookup; cbn; apply find_put_eq).
      assert (IsExpired now (cache a1) e1 = false) as -> by (unfold IsExpired, GetTimeout; subst e1; cbn; rewrite Hst; apply Z.ltb_ge; lia).
      unfold IsDead, IsAlive, in_state. subst e1. cbn. by rewrite Hst. }
    set (a2 := report _ a1). rewrite (IH fuel a2 e1); try done; [|cbn; by apply put_sorted|unfold CacheLookup; cbn; apply find_put_eq|cbn in Hfu; lia].
    f_equal. rewrite fmap_cons. change (sent_event call (m_macAddress e) p :: ?l) with ([sent_event call (m_macAddress e) p] ++ l). rewrite <- report_twice.
    unfold a2, a1, report, set_cache. cbn. by rewrite update_twice.
Qed.
(** A reply for a waiting entry resolves it. *)
Lemma receive_reply_wait now jitter h e a : cache_inv now (cache a) -> CacheLookup (m_ipv4Source h) (cache a) = Some e -> m_state e = WAIT_REPLY ->
  forall call, Ipv4Interface.Send (m_ipv4Source h) (interface a) = Some call ->
  receive_reply now jitter h a = Some (report (sent_event call (m_macSource h) <$> m_pending e)
    (set_cache (update (m_ipv4Source h) (mkEntry ALIVE now (m_macSource h) (m_ipv4Address e) [] 0) (cache a)) a)).
Proof.
  intros Hc Hf Hs call Hcall. unfold receive_reply. rewrite Hf. unfold MarkAlive, IsWaitReply, in_state. rewrite Hs, bool_decide_true by done.
  set (e1 := UpdateSeen _ _). cbn [NS_ASSERT]. rewrite (send_pending_eq now jitter _ call (m_pending e) _ _ e1); try done; [|by apply put_sorted, Hc|unfold CacheLookup; apply find_put_eq|apply Hc].
  do 2 f_equal. unfold set_cache. cbn. by rewrite update_twice.
Qed.
Lemma handled_sent call mac ps : handled (sent_event call mac <$> ps) = ps.
Proof. induction ps as [|p ps IH]; [done|]. unfold handled in *. rewrite fmap_cons. cbn. rewrite IH. by destruct call. Qed.
Lemma receive_reply_ok now jitter h a : cache_inv now (cache a) -> dev_isMulticast (m_device (interface a)) = true ->
  exists a', receive_reply now jitter h a = Some a' /\ keeps now [] a a'.
Proof.
  intros Hc Hm. assert (keeps now [] a (report [DropMessage h] a)) as Hdrop. { split_and!; try done. unfold all_packets. cbn. by rewrite handled_app, app_nil_r. }
  destruct (CacheLookup (m_ipv4Source h) (cache a)) as [e|] eqn:Hf; [|unfold receive_reply; rewrite Hf; eauto].
  destruct (decide (m_state e = WAIT_REPLY)) as [Hw|Hw].
  2:{ unfold receive_reply, IsWaitReply, in_state. rewrite Hf, bool_decide_false by done. eauto. }
  destruct (Send_total (m_ipv4Source h) _ Hm) as [call Hcall]. rewrite (receive_reply_wait _ _ _ _ _ Hc Hf Hw _ Hcall). eexists. split; [done|].
  destruct (find_ok _ _ _ _ Hc Hf) as (A1&_). cbn in A1. pose proof (ci_now _ _ Hc). split; [|split; [done|split; [done|]]].
  - apply update_inv; [done|]. pose proof (ci_conf _ _ Hc) as (_&_&_&_&C5). split_and!; cbn; try done; lia.
  - unfold all_packets, waiting. cbn. rewrite handled_app, handled_sent.
    destruct (waiting_put (m_ipv4Source h) (mkEntry ALIVE now (m_macSource h) (m_ipv4Address e) [] 0) e _ (ci_sorted _ _ Hc) Hf) as (rest&->&->). cbn. solve_Permutation.
Qed.
Lemma Receive_ok now jitter h a : cache_inv now (cache a) -> dev_isMulticast (m_device (interface a)) = true -> exists a', Receive now jitter h a = Some a' /\ keeps now [] a a'.
Proof.
  intros Hc Hm. unfold Receive. destruct h as [h|]; [|by exists a]. generalize (m_ifaddrs (interface a)). intros addrs. induction addrs as [|i addrs IH]; cbn; [by exists a|].
  destruct (_ && _); [|destruct (_ && _ && _); [by apply receive_reply_ok|done]]. eexists. split; [reflexivity|]. split_and!; try done.
  unfold all_packets. cbn. by rewrite handled_app, app_nil_r.
Qed.

(** ** The timer *)

(** What the loop makes of the entries: those that wait have just been refreshed. *)
Definition refreshed (now : Z) c (again : bool) (x : Z * Entry Pkt) : Prop :=
  entry_ok now (set_timer (Some (now + m_waitReplyTimeout c)) c) x /\ (m_state x.2 = WAIT_REPLY -> again = true).
Lemma refreshed_more now c again again' x : refreshed now c again x -> refreshed now c (again || again') x.
Proof. intros [H1 H2]. split; [done|]. intros Hs. by rewrite (H2 Hs). Qed.
Lemma not_waiting_ok now c t x : entry_ok now c x -> m_state x.2 <> WAIT_REPLY -> entry_ok now (set_timer t c) x.
Proof. intros (A1&A2&A3&A4) Hw. split_and!; [done|apply A2|apply A2|done|]. by destruct (m_state x.2). Qed.
Lemma handled_drops ps : handled (CacheDrop <$> ps) = ps.
Proof. induction ps as [|p ps IH]; [done|]. unfold handled in *. cbn. by rewrite IH. Qed.
Lemma handled_forgotten ps : handled (Forgotten <$> ps) = ps.
Proof. induction ps as [|p ps IH]; [done|]. unfold handled in *. cbn. by rewrite IH. Qed.
Lemma arp_timeout_loop_ok now c l : conf_ok c -> 0 <= now -> Forall (entry_ok now c) l ->
  exists l' evs again, timeout_loop now (set_timer None c) l = Some (l', evs, again) /\ fst <$> l' = fst <$> l /\
    waiting_in l ≡ₚ handled evs ++ waiting_in l' /\ Forall (refreshed now c again) l'.
Proof.
  intros (C1&C2&C3&C4&C5) Hn. induction 1 as [|[k e] l He _ (l'&evs&again&E&Hk&Hw&Hr)]; [by exists [], [], false|]. cbn -[MarkDead]. rewrite E.
  pose proof He as (A1&A2&A3&A4). cbn in A1, A2, A3, A4. destruct (IsWaitReply e) eqn:Ew; unfold IsWaitReply, in_state in Ew.
  - apply bool_decide_eq_true in Ew. rewrite Ew in A4. destruct A4 as (R1&f&Ef&Hf). destruct (m_retries e <? m_maxRetries c) eqn:Er.
    + eexists _, _, _. split; [reflexivity|]. split; [by rewrite !fmap_cons, Hk|]. split.
      { change (waiting_in ((k, e) :: l)) with (m_pending e ++ waiting_in l). rewrite Hw. unfold waiting_in. cbn. solve_Permutation. }
      constructor; [|eapply Forall_impl; [exact Hr|]; intros x; rewrite orb_comm; apply refreshed_more].
      split; [|done]. cbn [entry_ok]. split_and!; cbn; try done; try lia. rewrite Ew, u32_small by lia. split; [lia|]. eexists. split; [done|lia].
    + unfold MarkDead, IsAlive, IsWaitReply, IsDead, in_state. rewrite Ew. cbn. eexists _, _, _. split; [reflexivity|]. split; [by rewrite !fmap_cons, Hk|]. split.
      { change (waiting_in ((k, e) :: l)) with (m_pending e ++ waiting_in l). rewrite handled_app, handled_drops, Hw. unfold waiting_in. cbn. solve_Permutation. }
      constructor; [|exact Hr]. split; [|done]. split_and!; cbn; try done; lia.
  - apply bool_decide_eq_false in Ew. eexists _, _, _. split; [reflexivity|]. split; [by rewrite !fmap_cons, Hk|]. split.
    { change (waiting_in ((k, e) :: l)) with (m_pending e ++ waiting_in l). rewrite Hw. unfold waiting_in. cbn. solve_Permutation. }
    constructor; [|exact Hr]. split; [by apply not_waiting_ok|done].
Qed.
Lemma handled_request source a evs : handled (request_now source a <$> evs) = handled evs.
Proof. induction evs as [|ev evs IH]; [done|]. unfold handled in *. cbn. rewrite IH. by destruct ev. Qed.
Lemma TimerEvent_ok source now a : cache_inv now (cache a) -> exists a', TimerEvent source now a = Some a' /\ keeps now [] a a'.
Proof.
  intros [H1 H2 H3 H4 H5]. unfold TimerEvent, HandleWaitReplyTimeout. destruct (arp_timeout_loop_ok now (cache a) _ H1 ltac:(lia) H4) as (l'&evs&again&E&Hk&Hw&Hr).
  change (m_arpCache (set_timer None (cache a))) with (m_arpCache (cache a)). rewrite E. eexists. split; [reflexivity|]. split; [|split; [done|split; [done|]]].
  - cbn. destruct again; constructor; try done; cbn; try (unfold sorted_keys; by rewrite Hk).
    + eapply Forall_impl; [exact Hr|]. by intros x [Hx _].
    + intros f [= <-]. destruct H1 as (_&_&HT&_). lia.
    + eapply Forall_impl; [exact Hr|]. intros x [Hx Hno]. apply (not_waiting_ok _ _ None) in Hx; [done|]. intros Hs. by specialize (Hno Hs).
  - unfold all_packets, waiting. cbn. rewrite handled_app, handled_request, Hw. destruct again; cbn; solve_Permutation.
Qed.
Lemma arp_tick_ok now now' a : cache_inv now (cache a) -> now <= now' <= TIME_MAX -> (forall f, m_waitReplyTimer (cache a) = Some f -> now' <= f) -> cache_inv now' (cache a).
Proof.
  intros [H1 H2 H3 H4 H5] Hn Hf. constructor; try done; [lia| |].
  - eapply Forall_impl; [exact H4|]. intros x (A1&A2&A3&A4). split_and!; [done|lia..|done|]. destruct (m_state x.2); try done.
    destruct A4 as (A4&f&Ef&Hle). split; [done|]. exists f. specialize (Hf f Ef). split; [done|lia].
  - intros f Ef. specialize (Hf f Ef). specialize (H5 f Ef). lia.
Qed.

(** ** Changes of the table *)

Lemma Flush_keeps now a : cache_inv now (cache a) -> let '(c, evs) := Flush (cache a) in keeps now [] a (report evs (set_cache c a)).
Proof.
  intros [H1 H2 H3 H4 H5]. cbn. split; [|split; [done|split; [done|]]]; [constructor; try done; cbn; apply SSorted_nil|].
  unfold all_packets, waiting. cbn. rewrite handled_app, handled_forgotten. unfold waiting_in. cbn. by rewrite app_nil_r.
Qed.
Lemma remove_auto_ok l : let '(l', evs) := remove_auto l in sublist l' l /\ waiting_in l ≡ₚ handled evs ++ waiting_in l'.
Proof.
  induction l as [|[k e] l IH]; cbn; [done|]. destruct (remove_auto l) as [l' evs]. destruct IH as [Hs Hw]. destruct (IsAutoGenerated e); cbn.
  - split; [by apply sublist_cons|]. rewrite handled_app, handled_forgotten. change (waiting_in ((k, e) :: l)) with (m_pending e ++ waiting_in l). rewrite Hw. solve_Permutation.
  - split; [by apply sublist_skip|]. change (waiting_in ((k, e) :: ?x)) with (m_pending e ++ waiting_in x). rewrite Hw. solve_Permutation.
Qed.
Lemma sublist_Forall_ok {X} (P : X -> Prop) (l l' : list X) : sublist l' l -> Forall P l -> Forall P l'.
Proof. rewrite !Forall_forall. intros Hs H x Hx. apply H. by eapply elem_of_sublist. Qed.
Lemma arp_sorted_sublist l l' : sublist l' l -> sorted_keys l -> sorted_keys l'.
Proof.
  unfold sorted_keys. induction 1 as [|x l1 l2 Hs IH|x l1 l2 Hs IH]; [done| |]; rewrite !fmap_cons || rewrite fmap_cons; intros [H1 H2]%StronglySorted_inv; [|by apply IH].
  constructor; [by apply IH|]. rewrite Forall_fmap in *. by eapply sublist_Forall_ok.
Qed.
Lemma smaller_inv now c l : cache_inv now c -> sublist l (m_arpCache c) -> cache_inv now (set_entries l c).
Proof. intros [H1 H2 H3 H4 H5] Hs. constructor; try done; cbn; [by eapply arp_sorted_sublist|by eapply sublist_Forall_ok]. Qed.
Lemma RemoveAuto_keeps now a : cache_inv now (cache a) -> let '(c, evs) := RemoveAutoGeneratedEntries (cache a) in keeps now [] a (report evs (set_cache c a)).
Proof.
  intros Hc. unfold RemoveAutoGeneratedEntries. pose proof (remove_auto_ok (m_arpCache (cache a))) as H. destruct (remove_auto _) as [l' evs]. destruct H as [Hs Hw].
  split; [by apply smaller_inv|]. split; [done|]. split; [done|]. unfold all_packets, waiting. cbn. rewrite handled_app, Hw. solve_Permutation.
Qed.
Lemma filter_all_ok (P : Z * Entry Pkt -> Prop) `{!forall x, Decision (P x)} l : Forall P l -> filter P l = l.
Proof. induction 1 as [|x l Hx _ IH]; [done|]. by rewrite filter_cons_True, IH. Qed.
Lemma Remove_keeps now to a : cache_inv now (cache a) -> let '(c, evs) := Remove to (cache a) in keeps now [] a (report evs (set_cache c a)).
Proof.
  intros Hc. unfold Remove. destruct (CacheLookup to (cache a)) as [e|] eqn:Hf.
  2:{ split_and!; try done. unfold all_packets. cbn. by rewrite app_nil_r. }
  split; [apply smaller_inv; [done|apply sublist_filter]|]. split; [done|]. split; [done|]. unfold all_packets, waiting. cbn. rewrite handled_app, handled_forgotten.
  destruct (put_present to e _ (ci_sorted _ _ Hc) Hf) as (l1&l2&El&_). pose proof (ci_sorted _ _ Hc) as Hs. rewrite El in *.
  unfold sorted_keys in Hs. rewrite fmap_app in Hs. apply StronglySorted_app in Hs as (Hx&_&Hr). rewrite fmap_cons in Hr, Hx. apply StronglySorted_inv in Hr as [_ Hr].
  assert (filter (fun x => x.1 <> to) l1 = l1) as E1.
  { apply filter_all_ok, Forall_forall. intros x Hx1. assert (x.1 < to); [|lia]. apply Hx; [by apply list_elem_of_fmap_2|cbn; apply elem_of_cons; by left]. }
  assert (filter (fun x => x.1 <> to) l2 = l2) as E2.
  { apply filter_all_ok, Forall_forall. intros x Hx1. rewrite Forall_fmap, Forall_forall in Hr. specialize (Hr x Hx1). cbn in Hr. lia. }
  rewrite filter_app, filter_cons_False, E1, E2 by (cbn; tauto). unfold waiting_in. rewrite !fmap_app, !concat_app. cbn. solve_Permutation.
Qed.
Lemma AddStatic_ok now perm ip mac a : cache_inv now (cache a) -> IsInvalid mac = false -> exists a', AddStatic now perm ip mac a = Some a' /\ keeps now [] a a'.
Proof.
  intros Hc Hmac. unfold AddStatic, Add. pose proof (ci_now _ _ Hc).
  assert (forall e, 0 <= m_lastSeen e -> Z.of_nat (length (m_pending e)) <= Z.max 1 (m_pendingQueueSize (cache a)) -> m_ipv4Address e = ip ->
    exists e', (if perm then MarkPermanent else MarkAutoGenerated) now (SetMacAddress mac e) = Some e' /\ m_pending e' = m_pending e /\ entry_ok now (cache a) (ip, e')) as Hmark.
  { intros e H1 H2 H3. destruct perm; [unfold MarkPermanent|unfold MarkAutoGenerated]; cbn [m_macAddress SetMacAddress]; rewrite Hmac; (eexists; split; [reflexivity|]); (split; [done|]); split_and!; cbn; done || lia. }
  destruct (CacheLookup ip (cache a)) as [e|] eqn:Hf.
  - destruct (find_ok _ _ _ _ Hc Hf) as (A1&A2&A3&_). cbn in A1, A2, A3. destruct (Hmark e) as (e'&->&Hp&Hok); [lia|done..|]. eexists. split; [reflexivity|].
    split; [by apply update_inv|]. split; [done|]. split; [done|]. unfold all_packets, waiting. cbn. destruct (waiting_put ip e' e _ (ci_sorted _ _ Hc) Hf) as (rest&->&->). by rewrite Hp.
  - destruct (Hmark (SetIpv4Address ip Entry_new)) as (e'&->&Hp&Hok); [cbn; lia..|done|]. eexists. split; [reflexivity|]. rewrite update_twice.
    split; [by apply update_inv|]. split; [done|]. split; [done|]. unfold all_packets, waiting. cbn [cache set_cache update set_entries m_arpCache a_log]. rewrite (waiting_put_new _ _ _ Hf), Hp. done.
Qed.

(** ** Runs *)

Definition set_interface (i : Ipv4Interface) a : Arp Pkt := mkArpState (cache a) i (hwAddress a) (hwBroadcast a) (a_log a).
(** Time advances to the next event at most; the event of the timer runs when it is due. *)
Inductive arp_reach (source : Z -> Z) : Z -> list Pkt -> Arp Pkt -> Prop :=
  | arp_init now a : 0 <= now <= TIME_MAX -> conf_ok (cache a) -> m_arpCache (cache a) = [] -> m_waitReplyTimer (cache a) = None -> a_log a = [] ->
      dev_isMulticast (m_device (interface a)) = true -> arp_reach source now [] a
  | arp_send now jitter p dest offered a a' : arp_reach source now offered a -> InterfaceSend now jitter p dest a = Some a' -> arp_reach source now (offered ++ [p]) a'
  | arp_receive now jitter h offered a a' : arp_reach source now offered a -> Receive now jitter h a = Some a' -> arp_reach source now offered a'
  | arp_timer now offered a a' : arp_reach source now offered a -> m_waitReplyTimer (cache a) = Some now -> TimerEvent source now a = Some a' -> arp_reach source now offered a'
  | arp_request now to offered a : arp_reach source now offered a -> arp_reach source now offered (SendArpRequest (source to) to a)
  | arp_tick now now' offered a : arp_reach source now offered a -> now <= now' <= TIME_MAX -> (forall f, m_waitReplyTimer (cache a) = Some f -> now' <= f) -> arp_reach source now' offered a
  | arp_flush now offered a : arp_reach source now offered a -> arp_reach source now offered (report (Flush (cache a)).2 (set_cache (Flush (cache a)).1 a))
  | arp_remove_auto now offered a : arp_reach source now offered a ->
      arp_reach source now offered (report (RemoveAutoGeneratedEntries (cache a)).2 (set_cache (RemoveAutoGeneratedEntries (cache a)).1 a))
  | arp_remove now to offered a : arp_reach source now offered a -> arp_reach source now offered (report (Remove to (cache a)).2 (set_cache (Remove to (cache a)).1 a))
  | arp_static now perm ip mac offered a a' : arp_reach source now offered a -> IsInvalid mac = false -> AddStatic now perm ip mac a = Some a' -> arp_reach source now offered a'
  | arp_interface now i offered a : arp_reach source now offered a -> m_device i = m_device (interface a) -> arp_reach source now offered (set_interface i a).

Lemma keeps_step now offered a a' : arp_inv now offered a -> keeps now [] a a' -> arp_inv now offered a'.
Proof. intros H1 H2. pose proof (keeps_inv _ _ _ _ _ H1 H2) as H. by rewrite app_nil_r in H. Qed.
Lemma arp_reach_inv source now offered a : arp_reach source now offered a -> arp_inv now offered a.
Proof.
  induction 1 as [now a Hn Hc He Ht Hl Hm|now jitter p dest offered a a' _ IH E|now jitter h offered a a' _ IH E|now offered a a' _ IH _ E|now to offered a _ IH|now now' offered a _ IH Hn Hf
    |now offered a _ IH|now offered a _ IH|now to offered a _ IH|now perm ip mac offered a a' _ IH Hmac E|now i offered a _ IH Hd].
  - split_and!; [|done|]. { constructor; try done; rewrite He || rewrite Ht; [apply SSorted_nil|constructor|done]. } unfold all_packets, waiting. by rewrite He, Hl.
  - destruct (InterfaceSend_ok now jitter p dest a) as (a1&E1&Hk); [apply IH..|]. rewrite E in E1. injection E1 as <-. by eapply keeps_inv.
  - destruct (Receive_ok now jitter h a) as (a1&E1&Hk); [apply IH..|]. rewrite E in E1. injection E1 as <-. by eapply keeps_step.
  - destruct (TimerEvent_ok source now a) as (a1&E1&Hk); [apply IH|]. rewrite E in E1. injection E1 as <-. by eapply keeps_step.
  - eapply keeps_step; [exact IH|]. split_and!; try done; [apply IH|]. unfold all_packets. cbn. by rewrite handled_app, app_nil_r.
  - destruct IH as (Hc&Hm&Hp). split_and!; [by eapply arp_tick_ok|done..].
  - eapply keeps_step; [exact IH|]. exact (Flush_keeps now a (proj1 IH)).
  - eapply keeps_step; [exact IH|]. pose proof (RemoveAuto_keeps now a (proj1 IH)) as H. by destruct (RemoveAutoGeneratedEntries (cache a)).
  - eapply keeps_step; [exact IH|]. pose proof (Remove_keeps now to a (proj1 IH)) as H. by destruct (Remove to (cache a)).
  - destruct (AddStatic_ok now perm ip mac a) as (a1&E1&Hk); [apply IH|done|]. rewrite E in E1. injection E1 as <-. by eapply keeps_step.
  - destruct IH as (Hc&Hm&Hp). split_and!; [done| |done]. cbn. by rewrite Hd.
Qed.

(** ** Giving up *)

(** The timer fires [n] times, with nothing in between. *)
Fixpoint timeouts (source : Z -> Z) (n : nat) a : option (Arp Pkt) :=
  match n with
  | O => Some a
  | S n => let* f := m_waitReplyTimer (cache a) in let* next := TimerEvent source f a in timeouts source n next
  end.
(** What one timeout does to a waiting entry. *)
Lemma timeout_loop_find now c to e l : forall l' evs again, timeout_loop now c l = Some (l', evs, again) -> find_entry to l = Some e -> m_state e = WAIT_REPLY ->
  if m_retries e <? m_maxRetries c then find_entry to l' = Some (IncrementRetries now e) /\ again = true /\ RequestCallback (m_ipv4Address e) ∈ evs
  else exists e', find_entry to l' = Some e' /\ m_state e' = DEAD /\ m_pending e' = [] /\ forall p, p ∈ m_pending e -> CacheDrop p ∈ evs.
Proof.
  induction l as [|[k x] l IH]; [done|]. intros l' evs again E Hf Hs. cbn -[MarkDead] in E, Hf.
  destruct (timeout_loop now c l) as [[[l2 evs2] again2]|] eqn:E2.
  2:{ exfalso. revert E. set (r := if IsWaitReply x then _ else _). by destruct r as [[[? ?] ?]|]. }
  destruct (k =? to) eqn:Ek.
  - injection Hf as ->. unfold IsWaitReply, in_state in E. rewrite Hs, bool_decide_true in E by done. destruct (_ <? _).
    + injection E as <- <- <-. cbn. rewrite Ek. split_and!; try done. by left.
    + unfold MarkDead, IsAlive, IsWaitReply, IsDead, in_state in E. rewrite Hs in E. cbn in E. injection E as <- <- <-. cbn. rewrite Ek. eexists. split; [done|]. split_and!; try done.
      intros p Hp. apply elem_of_app. left. by apply list_elem_of_fmap_2.
  - specialize (IH l2 evs2 again2 eq_refl Hf Hs). set (r := if IsWaitReply x then _ else _) in E. destruct r as [[[e' ev] ag]|]; [|done]. injection E as <- <- <-.
    cbn. rewrite Ek. destruct (_ <? _).
    + destruct IH as (I1&->&I3). split_and!; [done|by rewrite orb_true_r|]. apply elem_of_app. by right.
    + destruct IH as (e1&I1&I2&I3&I4). exists e1. split_and!; try done. intros p Hp. apply elem_of_app. right. by apply I4.
Qed.
Lemma TimerEvent_waiting source now a a' to e : TimerEvent source now a = Some a' -> CacheLookup to (cache a) = Some e -> m_state e = WAIT_REPLY ->
  m_maxRetries (cache a') = m_maxRetries (cache a) /\ m_waitReplyTimeout (cache a') = m_waitReplyTimeout (cache a) /\ (exists evs, a_log a' = a_log a ++ evs) /\
  if m_retries e <? m_maxRetries (cache a) then CacheLookup to (cache a') = Some (IncrementRetries now e) /\ m_waitReplyTimer (cache a') = Some (now + m_waitReplyTimeout (cache a))
  else exists e', CacheLookup to (cache a') = Some e' /\ m_state e' = DEAD /\ m_pending e' = [] /\ forall p, p ∈ m_pending e -> CacheDrop p ∈ a_log a'.
Proof.
  intros E Hf Hs. unfold TimerEvent, HandleWaitReplyTimeout in E. destruct (timeout_loop _ _ _) as [[[l' evs] again]|] eqn:E2; [|done].
  pose proof (timeout_loop_find _ _ _ _ _ _ _ _ E2 Hf Hs) as H. injection E as <-. split; [by destruct again|]. split; [by destruct again|]. split; [by eexists|].
  change (m_maxRetries (set_timer None (cache a))) with (m_maxRetries (cache a)) in H. destruct (_ <? _).
  - destruct H as (H1&->&_). split; [exact H1|done].
  - destruct H as (e'&H1&H2&H3&H4). exists e'. split; [by destruct again|]. split; [done|]. split; [done|]. intros p Hp. cbn. apply elem_of_app. right.
    specialize (H4 p Hp). apply (list_elem_of_fmap_2 (request_now source a)) in H4. exact H4.
Qed.
Lemma timeouts_give_up source to n : forall now a e, cache_inv now (cache a) -> CacheLookup to (cache a) = Some e -> m_state e = WAIT_REPLY ->
  Z.of_nat n = m_maxRetries (cache a) - m_retries e -> now + (Z.of_nat n + 1) * m_waitReplyTimeout (cache a) <= TIME_MAX ->
  exists a' e', timeouts source (S n) a = Some a' /\ CacheLookup to (cache a') = Some e' /\ m_state e' = DEAD /\ m_pending e' = [] /\
    forall p, p ∈ m_pending e -> CacheDrop p ∈ a_log a'.
Proof.
  induction n as [|n IH]; intros now a e Hc Hf Hs Hn Hb; destruct (find_ok _ _ _ _ Hc Hf) as (_&_&_&Hw); cbn in Hw; rewrite Hs in Hw; destruct Hw as (Hr&f&Ef&Hle).
  all: pose proof (ci_timer _ _ Hc f Ef) as Hft; pose proof (ci_conf _ _ Hc) as (_&_&HT&HM&_).
  all: assert (cache_inv f (cache a)) as Hcf by (eapply arp_tick_ok; [exact Hc|nia|intros g Eg; rewrite Ef in Eg; injection Eg as <-; lia]).
  all: destruct (TimerEvent_ok source f a Hcf) as (a1&E1&Hc1&_); pose proof (TimerEvent_waiting _ _ _ _ _ _ E1 Hf Hs) as (Em&ET&_&H).
  - replace (_ <? _) with false in H by lia. destruct H as (e'&H1&H2&H3&H4). exists a1, e'. cbn. by rewrite Ef, E1.
  - replace (_ <? _) with true in H by lia. destruct H as (H1&_).
    destruct (IH f a1 (IncrementRetries f e) Hc1 H1) as (a'&e'&E&G1&G2&G3&G4); [exact Hs|rewrite Em; cbn; rewrite u32_small by lia; lia|rewrite ET; nia|].
    exists a', e'. cbn [timeouts] in *. rewrite Ef, E1. done.
Qed.

(** ** Theorems *)

(** What became of them: handed on to the device, the traffic control layer or the node
    itself; reported by a drop trace; deleted with their entries; and those that a
    [Send] on an interface that is down returns from without doing anything. *)
Definition passed_on (log : list (aevent Pkt)) : list Pkt :=
  omap (fun ev => match ev with TcSend _ p => Some p | OtherSend CallNothing _ => None | OtherSend _ p => Some p | _ => None end) log.
Definition reported (log : list (aevent Pkt)) : list Pkt := omap (fun ev => match ev with CacheDrop p | ArpDrop p => Some p | _ => None end) log.
Definition forgotten (log : list (aevent Pkt)) : list Pkt := omap (fun ev => match ev with Forgotten p => Some p | _ => None end) log.
Definition lost_when_down (log : list (aevent Pkt)) : list Pkt := omap (fun ev => match ev with OtherSend CallNothing p => Some p | _ => None end) log.
Lemma handled_split log : handled log ≡ₚ passed_on log ++ reported log ++ forgotten log ++ lost_when_down log.
Proof.
  induction log as [|ev log IH]; [done|]. unfold handled, passed_on, reported, forgotten, lost_when_down in *.
  destruct ev as [p|p|p|to p|call p|at_ to|to|to h|h]; [..|destruct call| | | |]; cbn; rewrite IH; solve_Permutation.
Qed.
Lemma Send_nothing dest i : Ipv4Interface.Send dest i = Some CallNothing <-> IsUp i = false.
Proof.
  unfold Ipv4Interface.Send. destruct (IsUp i); [|done]. split; [|done]. cbn [negb]. by repeat case_match.
Qed.
(** C26: No packet handed to ARP is duplicated, and it is known of each what became of it. After
    any sequence of sends, messages, timeouts and changes of the table and the interface, the packets
    offered are, each exactly once, those handed on, those reported as dropped, those
    deleted with their entries, those that an interface which is down takes and says
    nothing about, and those that wait. A queue size of at least one is kept: no entry
    holds more waiting packets. *)
Theorem arp_conserves source now offered a : arp_reach source now offered a ->
  offered ≡ₚ passed_on (a_log a) ++ reported (a_log a) ++ forgotten (a_log a) ++ lost_when_down (a_log a) ++ waiting a /\
  (1 <= m_pendingQueueSize (cache a) -> Forall (fun x => Z.of_nat (length (m_pending x.2)) <= m_pendingQueueSize (cache a)) (m_arpCache (cache a))).
Proof.
  intros H. destruct (arp_reach_inv _ _ _ _ H) as (Hc&_&Hp). split.
  - unfold all_packets in Hp. rewrite Hp, handled_split. by rewrite <- !(assoc_L (++)).
  - intros Hq. eapply Forall_impl; [apply Hc|]. intros x (_&_&H3&_). lia.
Qed.
(** C28: Address resolution works between two nodes whose interfaces have one address
    each. When [a] waits for the address
    [ip] of a node [b] on its link, [b] answers the request of [a]; the answer makes
    [a] send every waiting packet to the hardware address of [b], in order; and until
    the entry expires further packets go there at once. *)
Theorem arp_resolves source now offered a (b : Arp Pkt) jitter ip e i j : arp_reach source now offered a ->
  CacheLookup ip (cache a) = Some e -> m_state e = WAIT_REPLY -> Ipv4Interface.Send ip (interface a) = Some (CallArpLookup ip) ->
  m_ifaddrs (interface b) = [i] -> Ipv4InterfaceAddress.m_local i = ip -> m_ifaddrs (interface a) = [j] ->
  let request := SetRequest (hwAddress a) (Ipv4InterfaceAddress.m_local j) (hwBroadcast a) ip in
  exists b' a' reply, Receive now jitter (Some request) b = Some b' /\ a_log b' = a_log b ++ [SentArp (hwAddress a) reply] /\
    Receive now jitter (Some reply) a = Some a' /\ a_log a' = a_log a ++ (TcSend (hwAddress b) <$> m_pending e) /\
    forall now' p, now <= now' <= now + m_aliveTimeout (cache a) -> Lookup now' jitter p ip a' = Some (Some (hwAddress b), a').
Proof.
  intros Hr Hf Hs Hsend Hbi Hi Haj. cbv zeta. destruct (arp_reach_inv _ _ _ _ Hr) as (Hc&_&_).
  exists (SendArpReply ip (Ipv4InterfaceAddress.m_local j) (hwAddress a) b). eexists _, (SetReply (hwAddress b) ip (hwAddress a) (Ipv4InterfaceAddress.m_local j)).
  split; [unfold Receive; rewrite Hbi; cbn; by rewrite Hi, Z.eqb_refl|]. split; [done|]. split.
  { unfold Receive. rewrite Haj. cbn -[receive_reply]. rewrite Z.eqb_refl. unfold address_eq. rewrite Z.eqb_refl. cbn -[receive_reply]. rewrite bool_decide_true by done.
    exact (receive_reply_wait now jitter (SetReply (hwAddress b) ip (hwAddress a) (Ipv4InterfaceAddress.m_local j)) e a Hc Hf Hs _ Hsend). }
  split; [done|]. intros now' p Hn. unfold Lookup, CacheLookup. cbn. rewrite find_put_eq. unfold IsExpired, GetTimeout. cbn. by replace (_ <? _) with false by lia.
Qed.
(** C29: ARP gives up. When the timer fires once more than there are retries left and
    no answer comes, the entry of an address that waits is dead, and every packet that
    waited for it is reported as dropped. *)
Theorem arp_gives_up source now offered a to e : arp_reach source now offered a -> CacheLookup to (cache a) = Some e -> m_state e = WAIT_REPLY ->
  now + (m_maxRetries (cache a) - m_retries e + 1) * m_waitReplyTimeout (cache a) <= TIME_MAX ->
  exists a' e', timeouts source (S (Z.to_nat (m_maxRetries (cache a) - m_retries e))) a = Some a' /\ CacheLookup to (cache a') = Some e' /\
    m_state e' = DEAD /\ m_pending e' = [] /\ forall p, p ∈ m_pending e -> CacheDrop p ∈ a_log a'.
Proof.
  intros Hr Hf Hs Hb. destruct (arp_reach_inv _ _ _ _ Hr) as (Hc&_&_). destruct (find_ok _ _ _ _ Hc Hf) as (_&_&_&Hw). cbn in Hw. rewrite Hs in Hw. destruct Hw as (Hret&_).
  eapply timeouts_give_up; [exact Hc|done..|lia|]. rewrite Z2Nat.id by lia. done.
Qed.
End Props.
End ArpProps.

(** * ARP on concrete nodes

    Two nodes on a link, run through the operations: the packets that wait, the
    answer, the retries. The last section holds what runs show that the code's
    comments or its fatal errors do not expect. *)

Module ArpDemo.
Import Ipv4Mask Ipv4Address Ipv4InterfaceAddress Ipv4Interface Arp ArpProps.

Definition mac (n : Z) : Address := mkAddress 1 [0; 0; 0; 0; 0; n].
Definition bcast : Address := mkAddress 1 [255; 255; 255; 255; 255; 255].
Definition ip (n : Z) : Z := 0x0a000000 + n.
Definition second : Z := 1000000000.
(** The default attributes of [ArpCache]: 120 s, 100 s, 1 s, 3 retries, 3 packets. *)
Definition cache0 : ArpCache Z := mkCache (120 * second) (100 * second) second 3 3 None [].
Definition node (n : Z) : Arp Z :=
  mkArpState cache0 (mkInterface true true 1 [InterfaceAddress_new (ip n) 0xffffff00] (mkDevice 0 1500 true true false)) (mac n) bcast [].
Definition src (n to : Z) : Z := ip n.
Definition or_else (o : option (Arp Z)) (a : Arp Z) : Arp Z := from_option id a o.

(** Node 1 sends four packets to node 2, whose address it does not know. *)
Definition n1 : Arp Z := Eval vm_compute in or_else (InterfaceSend 10 0 101 (ip 2) (node 1)) (node 1).
Definition n2 : Arp Z := Eval vm_compute in or_else (InterfaceSend 10 0 102 (ip 2) n1) n1.
Definition n3 : Arp Z := Eval vm_compute in or_else (InterfaceSend 10 0 103 (ip 2) n2) n2.
Definition n4 : Arp Z := Eval vm_compute in or_else (InterfaceSend 10 0 104 (ip 2) n3) n3.
Definition waiting_entry : Entry Z := mkEntry WAIT_REPLY 10 (mkAddress 0 []) (ip 2) [101; 102; 103] 0.

Lemma node_conf n : conf_ok (cache (node n)).
Proof. unfold conf_ok. cbn. unfold second. lia. Qed.
Lemma demo_start now n : 0 <= now <= TIME_MAX -> arp_reach (src n) now [] (node n).
Proof. intros H. apply arp_init; done || apply node_conf. Qed.
Lemma arp_demo_reach : arp_reach (src 1) 10 [101; 102; 103; 104] n4.
Proof.
  assert (arp_reach (src 1) 10 [] (node 1)) as H0 by (apply demo_start; done).
  assert (arp_reach (src 1) 10 [101] n1) as H1 by (apply (arp_send _ 10 0 101 (ip 2) [] _ _ H0); vm_compute; reflexivity).
  assert (arp_reach (src 1) 10 [101; 102] n2) as H2 by (apply (arp_send _ 10 0 102 (ip 2) [101] _ _ H1); vm_compute; reflexivity).
  assert (arp_reach (src 1) 10 [101; 102; 103] n3) as H3 by (apply (arp_send _ 10 0 103 (ip 2) [101; 102] _ _ H2); vm_compute; reflexivity).
  apply (arp_send _ 10 0 104 (ip 2) [101; 102; 103] _ _ H3); vm_compute; reflexivity.
Qed.
Lemma demo_waiting : CacheLookup (ip 2) (cache n4) = Some waiting_entry.
Proof. reflexivity. Qed.
Lemma demo_log : a_log n4 = [ScheduleRequest 10 (ip 2); ArpDrop 104].
Proof. reflexivity. Qed.

(** ** Witnesses *)

(** The interface goes down, and a fifth packet is taken and forgotten. *)
Definition down (a : Arp Z) : Arp Z := set_interface (mkInterface false true 1 [InterfaceAddress_new (ip 1) 0xffffff00] (mkDevice 0 1500 true true false)) a.
Definition n5 : Arp Z := Eval vm_compute in or_else (InterfaceSend 10 0 105 (ip 2) (down n4)) n4.
Lemma down_reach : arp_reach (src 1) 10 [101; 102; 103; 104; 105] n5.
Proof. apply (arp_send _ 10 0 105 (ip 2) [101; 102; 103; 104] (down n4)); [|vm_compute; reflexivity]. apply arp_interface; [exact arp_demo_reach|reflexivity]. Qed.
Lemma arp_conserves_witness : arp_reach (src 1) 10 [101; 102; 103; 104; 105] n5 /\ waiting n5 = [101; 102; 103] /\ reported (a_log n5) = [104] /\ lost_when_down (a_log n5) = [105] /\
  [101; 102; 103; 104; 105] ≡ₚ passed_on (a_log n5) ++ reported (a_log n5) ++ forgotten (a_log n5) ++ lost_when_down (a_log n5) ++ waiting n5.
Proof.
  split; [exact down_reach|]. split; [reflexivity|]. split; [reflexivity|]. split; [reflexivity|].
  exact (proj1 (arp_conserves (src 1) 10 [101; 102; 103; 104; 105] n5 down_reach)).
Defined.
Lemma arp_resolves_witness : exists b' a' reply,
  Receive 10 0 (Some (SetRequest (mac 1) (ip 1) bcast (ip 2))) (node 2) = Some b' /\ a_log b' = [SentArp (mac 1) reply] /\
  Receive 10 0 (Some reply) n4 = Some a' /\ a_log a' = a_log n4 ++ [TcSend (mac 2) 101; TcSend (mac 2) 102; TcSend (mac 2) 103].
Proof.
  destruct (arp_resolves (src 1) 10 [101; 102; 103; 104] n4 (node 2) 0 (ip 2) waiting_entry (InterfaceAddress_new (ip 2) 0xffffff00) (InterfaceAddress_new (ip 1) 0xffffff00)
    arp_demo_reach eq_refl eq_refl eq_refl eq_refl eq_refl eq_refl) as (b'&a'&reply&H1&H2&H3&H4&_).
  exists b', a', reply. split; [exact H1|]. split; [exact H2|]. split; [exact H3|exact H4].
Defined.
Lemma arp_gives_up_witness : exists a' e', timeouts (src 1) 4 n4 = Some a' /\ CacheLookup (ip 2) (cache a') = Some e' /\ m_state e' = DEAD /\ CacheDrop 102 ∈ a_log a'.
Proof.
  assert (10 + (m_maxRetries (cache n4) - m_retries waiting_entry + 1) * m_waitReplyTimeout (cache n4) <= TIME_MAX) as Hb by (vm_compute; discriminate).
  destruct (arp_gives_up (src 1) 10 [101; 102; 103; 104] n4 (ip 2) waiting_entry arp_demo_reach demo_waiting eq_refl Hb) as (a'&e'&H1&H2&H3&_&H5).
  exists a', e'. split; [exact H1|]. split; [exact H2|]. split; [exact H3|]. apply H5. apply (list_elem_of_lookup_2 _ 1%nat). reflexivity.
Defined.

(** ** What runs show *)

(** A queue of size 0 holds a packet: the one that makes an entry wait is not counted. *)
Definition no_queue : Arp Z := set_cache (mkCache (120 * second) (100 * second) second 3 0 None []) (node 1).
Lemma empty_queue_holds_one : (let* a := InterfaceSend 10 0 101 (ip 2) no_queue in Some (waiting a)) = Some [101].
Proof. reflexivity. Qed.
(** When packets wait and the queue is full, the packet that comes is dropped; those
    that waited stay. *)
Lemma full_queue_drops_the_new_packet : UpdateWaitReply (cache n3) 104 waiting_entry = Some (false, waiting_entry).
Proof. reflexivity. Qed.
(** A shorter timeout, set while an entry waits, lets the entry expire before the
    timer serves it: [Lookup] stops at the code it takes to be unreachable. *)
Definition shortened : Arp Z := set_cache (SetWaitReplyTimeout (second / 2) (cache n4)) n4.
Lemma shortened_timeout_is_fatal :
  m_waitReplyTimer (cache shortened) = Some (10 + second) /\ Lookup (10 + (second / 2 + 1)) 0 105 (ip 2) shortened = None.
Proof. split; reflexivity. Qed.
(** Filling the cache by the helper while packets wait for an address leaves them there: later
    packets are sent, these are not, and the timer passes over them. *)
Definition stranded : Arp Z := Eval vm_compute in or_else (AddEntry 10 (ip 2) (mac 2) n4) n4.
Definition stranded_later : Arp Z := Eval vm_compute in or_else (TimerEvent (src 1) (10 + second) stranded) stranded.
Lemma static_entry_strands_waiting_packets :
  AddEntry 10 (ip 2) (mac 2) n4 = Some stranded /\ TimerEvent (src 1) (10 + second) stranded = Some stranded_later /\
  waiting stranded_later = [101; 102; 103] /\ m_waitReplyTimer (cache stranded_later) = None /\
  (let* a := Receive (10 + second) 0 (Some (SetReply (mac 2) (ip 2) (mac 1) (ip 1))) stranded_later in Some (waiting a)) = Some [101; 102; 103] /\
  Lookup (10 + second) 0 105 (ip 2) stranded_later = Some (Some (mac 2), stranded_later).
Proof. repeat split; vm_compute; reflexivity. Qed.
(** Flushing the cache forgets the waiting packets: nothing is reported for them. *)
Lemma flush_forgets : (Flush (cache n4)).2 = [Forgotten 101; Forgotten 102; Forgotten 103].
Proof. reflexivity. Qed.
End ArpDemo.
