(* ===== verification/Ipv4Fragment.v ===== *)
(** * IPv4 fragmentation and reassembly (src/internet/model/ipv4-l3-protocol.cc)

    [DoFragmentation] cuts a packet for a link, the class [Fragments] collects
    the pieces of one packet at the destination. *)

From S2P Require Import Prelude Buffer BufferInv BufferRw PacketBytes Ipv4Header.
Import Buffer BufferInv PacketBytes Ipv4Header.Ipv4Header.

Module Ipv4Fragment.

(** ** Fragmentation *)

Definition Ipv4PayloadHeaderPair : Type := Packet * Ipv4Header.

(** The payload of a fragment: a multiple of 8 that fits the link. *)
Definition fragment_size (outIfaceMtu : Z) (h : Ipv4Header) : Z :=
  Z.land (u32 (outIfaceMtu - GetSerializedSize h)) (u32 (Z.lnot 7)).

(** The [do] loop from [offset]; [checksum] is [Node::ChecksumEnabled]. *)
Fixpoint fragment_loop (fuel : nat) (checksum : bool) (p : Packet) (ipv4Header : Ipv4Header) (fragmentSize : Z)
    (offset : Z) : option (list Ipv4PayloadHeaderPair) :=
  match fuel with
  | O => None
  | S fuel' =>
      let moreFragment := u32 (offset + fragmentSize) <? GetSize p in
      let currentFragmentablePartSize := if moreFragment then fragmentSize else u32 (GetSize p - offset) in
      let fragmentHeader :=
        if moreFragment then SetMoreFragments ipv4Header
        else if negb (IsLastFragment ipv4Header) then SetMoreFragments ipv4Header
        else SetLastFragment ipv4Header in
      let* fragment := CreateFragment offset currentFragmentablePartSize p in
      let* fragmentHeader := SetFragmentOffset (u16 (offset + GetFragmentOffset ipv4Header)) fragmentHeader in
      let fragmentHeader := SetPayloadSize (u16 currentFragmentablePartSize) fragmentHeader in
      let fragmentHeader := if checksum then EnableChecksum fragmentHeader else fragmentHeader in
      let* rest :=
        if moreFragment
        then fragment_loop fuel' checksum p ipv4Header fragmentSize (u16 (offset + currentFragmentablePartSize))
        else Some [] in
      Some ((fragment, fragmentHeader) :: rest)
  end.

(** Every pass takes at least eight bytes, so a pass per byte is enough. *)
Definition DoFragmentation (checksum : bool) (packet : Packet) (ipv4Header : Ipv4Header) (outIfaceMtu : Z)
    : option (list Ipv4PayloadHeaderPair) :=
  assert* GetSerializedSize ipv4Header =? 5 * 4 in
  fragment_loop (S (length packet)) checksum packet ipv4Header (fragment_size outIfaceMtu ipv4Header) 0.

(** ** Reassembly: the class Fragments *)

Record Fragments := mkFragments {
  m_moreFragment : bool;
  m_fragments : list (Packet * Z)
}.
Definition Fragments_new : Fragments := mkFragments false [].

(** Insertion before the first fragment of a larger offset; whether that is
    the end of the list. *)
Fixpoint insert_fragment (fragment : Packet) (fragmentOffset : Z) (l : list (Packet * Z)) : list (Packet * Z) * bool :=
  match l with
  | [] => ([(fragment, fragmentOffset)], true)
  | (q, o) :: rest =>
      if fragmentOffset <? o then ((fragment, fragmentOffset) :: l, false)
      else let '(rest', at_end) := insert_fragment fragment fragmentOffset rest in ((q, o) :: rest', at_end)
  end.
Definition AddFragment (fragment : Packet) (fragmentOffset : Z) (moreFragment : bool) (f : Fragments) : Fragments :=
  let '(l, at_end) := insert_fragment fragment fragmentOffset (m_fragments f) in
  mkFragments (if at_end then moreFragment else m_moreFragment f) l.

(** The loop that looks for a hole. *)
Fixpoint entire_loop (lastEndOffset : Z) (l : list (Packet * Z)) : bool :=
  match l with
  | [] => true
  | (q, o) :: rest =>
      if lastEndOffset <? o then false else entire_loop (Z.max lastEndOffset (u16 (GetSize q + o))) rest
  end.
Definition IsEntire (f : Fragments) : bool :=
  negb (m_moreFragment f) && negb (length (m_fragments f) =? 0)%nat && entire_loop 0 (m_fragments f).

Section Join.
Context {mem : Memory}.

(** The loop of [GetPacket]: the packet built so far and its size. *)
Fixpoint packet_loop (p : Packet) (lastEndOffset : Z) (l : list (Packet * Z)) : option Packet :=
  match l with
  | [] => Some p
  | (q, o) :: rest =>
      let* p' :=
        if o <? lastEndOffset then
          let newStart := u32 (lastEndOffset - o) in
          if newStart <? GetSize q then
            let* tempFragment := CreateFragment newStart (u32 (GetSize q - newStart)) q in
            AddAtEnd tempFragment p
          else Some p
        else AddAtEnd q p in
      packet_loop p' (u16 (GetSize p')) rest
  end.
(** The first element of an empty list is an access out of range. *)
Definition GetPacket (f : Fragments) : option Packet :=
  match m_fragments f with
  | [] => None
  | (p, _) :: rest => packet_loop p (u16 (GetSize p)) rest
  end.

Fixpoint partial_loop (p : Packet) (lastEndOffset : Z) (l : list (Packet * Z)) : option Packet :=
  match l with
  | [] => Some p
  | (q, o) :: rest =>
      let* p' :=
        if o <? lastEndOffset then
          let newStart := u32 (lastEndOffset - o) in
          let* tempFragment := CreateFragment newStart (u32 (GetSize q - newStart)) q in
          AddAtEnd tempFragment p
        else if lastEndOffset =? o then AddAtEnd q p
        else Some p in
      partial_loop p' (u16 (GetSize p')) rest
  end.
Definition GetPartialPacket (f : Fragments) : option Packet :=
  match m_fragments f with
  | [] => None
  | (_, o) :: _ => if 0 <? o then Some [] else partial_loop [] 0 (m_fragments f)
  end.

End Join.

(** ** Pieces of a payload *)

(** [p] is the non-empty part of [P] at offset [o]; [more] tells whether bytes follow it. *)
Record piece (P : Packet) (p : Packet) (o : Z) (more : bool) : Prop := mkPiece {
  pc_bytes : p = slice o (o + zlen p) P;
  pc_range : 0 <= o /\ o + zlen p <= zlen P;
  pc_size : 0 < zlen p;
  pc_more : more = negb (o + zlen p =? zlen P)
}.

(** An IPv4 payload. *)
Definition payload_ok (P : Packet) : Prop := zlen P <= 65515.

(** *** Fragments of a fragment *)

Lemma fragment_size_ok mtu h :
  GetSerializedSize h = 20 -> 28 <= mtu < 2 ^ 32 ->
  let fs := fragment_size mtu h in 8 <= fs <= mtu - 20 /\ fs mod 8 = 0.
Proof.
  intros Hh Hm. unfold fragment_size. rewrite Hh, u32_small by lia.
  assert (Z.land (mtu - 20) (u32 (Z.lnot 7)) = (mtu - 20) / 8 * 8) as ->.
  { replace (u32 (Z.lnot 7)) with (Z.shiftl (Z.ones 29) 3) by reflexivity. change 8 with (2 ^ 3).
    rewrite <- (Z.shiftl_mul_pow2 _ 3), <- Z.shiftr_div_pow2 by lia. apply Z.bits_inj'. intros i Hi.
    rewrite Z.land_spec, !Z.shiftl_spec by lia. destruct (Z.lt_ge_cases i 3).
    - by rewrite !(Z.testbit_neg_r _ (i - 3)), andb_false_r by lia.
    - rewrite Z.shiftr_spec by lia. replace (i - 3 + 3) with i by lia. destruct (Z.lt_ge_cases i 32).
      + rewrite Z.ones_spec_low by lia. apply andb_true_r.
      + rewrite (Z.bits_above_log2 (mtu - 20) i); [done | lia |].
        apply Z.log2_lt_pow2; [lia |]. pose proof (Z.pow_le_mono_r 2 32 i). lia. }
  split; [| by rewrite Z.mod_mul].
  assert (1 <= (mtu - 20) / 8) by (apply Z.div_le_lower_bound; lia).
  pose proof (Z.mul_div_le (mtu - 20) 8). lia.
Qed.

(** The fields a fragment shares with the packet. *)
Definition same_flow (h h' : Ipv4Header) : Prop :=
  m_identification h' = m_identification h /\ m_tos h' = m_tos h /\ m_ttl h' = m_ttl h /\
  m_protocol h' = m_protocol h /\ m_source h' = m_source h /\ m_destination h' = m_destination h /\
  m_headerSize h' = m_headerSize h.

(** The header of a packet or of a fragment that can be cut. *)
Record cut_ok (h : Ipv4Header) : Prop := mkCutOk {
  ct_flags : 0 <= m_flags h < 8;
  ct_offset : 0 <= m_fragmentOffset h /\ m_fragmentOffset h mod 8 = 0;
  ct_size : m_headerSize h = 20
}.

(** A fragment [(q, hq)] of the payload [P] cut from a packet with header [h]. *)
Record fragment_ok (P : Packet) (h : Ipv4Header) (mtu : Z) (x : Ipv4PayloadHeaderPair) : Prop := mkFragmentOk {
  fo_piece : piece P x.1 (GetFragmentOffset x.2) (negb (IsLastFragment x.2));
  fo_mtu : zlen x.1 + 20 <= mtu;
  fo_payload : GetPayloadSize x.2 = zlen x.1;
  fo_flow : same_flow h x.2;
  fo_cut : cut_ok x.2
}.

(** Consecutive fragments from offset [o] to [e]. *)
Fixpoint chain (o e : Z) (l : list Ipv4PayloadHeaderPair) : Prop :=
  match l with
  | [] => o = e
  | (q, hq) :: rest => GetFragmentOffset hq = o /\ chain (o + zlen q) e rest
  end.

Lemma flag_set h : 0 <= m_flags h < 8 ->
  IsLastFragment (SetMoreFragments h) = false /\ IsLastFragment (SetLastFragment h) = true /\
  0 <= m_flags (SetMoreFragments h) < 8 /\ 0 <= m_flags (SetLastFragment h) < 8.
Proof.
  intros Hf. unfold IsLastFragment, SetMoreFragments, SetLastFragment, set_flags. simpl.
  assert (m_flags h ∈ [0; 1; 2; 3; 4; 5; 6; 7]) as Hin by (rewrite !elem_of_cons, elem_of_nil; lia).
  repeat (apply elem_of_cons in Hin as [-> |Hin]; [vm_compute; done |]). by apply elem_of_nil in Hin.
Qed.

Lemma land7_mod x : 0 <= x -> Z.land x 7 = x mod 8.
Proof. intros. change 7 with (Z.ones 3). by rewrite Z.land_ones by lia. Qed.

Lemma piece_sub P p o more a k :
  piece P p o more -> 0 <= a -> 0 < k -> a + k <= zlen p ->
  piece P (slice a (a + k) p) (o + a) (negb (o + a + k =? zlen P)).
Proof.
  intros [Hb Hr Hs _] Ha Hk Hle. assert (zlen (slice a (a + k) p) = k) as El by (rewrite slice_length; lia).
  split; rewrite ?El; try lia; try done.
  rewrite Hb at 1. rewrite BufferRw.slice_slice by lia. f_equal; lia.
Qed.

(** The header a pass of the loop makes. *)
Definition fragment_header (checksum last : bool) (offset size : Z) (h : Ipv4Header) : option Ipv4Header :=
  let fh := if last then SetLastFragment h else SetMoreFragments h in
  let* fh := SetFragmentOffset (u16 (offset + GetFragmentOffset h)) fh in
  let fh := SetPayloadSize (u16 size) fh in
  Some (if checksum then EnableChecksum fh else fh).

Lemma fragment_header_ok checksum last offset size h :
  cut_ok h -> 0 <= offset -> offset mod 8 = 0 -> offset + m_fragmentOffset h < 2 ^ 16 -> 0 <= size < 2 ^ 16 ->
  exists hq, fragment_header checksum last offset size h = Some hq /\
    GetFragmentOffset hq = m_fragmentOffset h + offset /\ IsLastFragment hq = last /\
    GetPayloadSize hq = size /\ same_flow h hq /\ cut_ok hq.
Proof.
  intros [Hf [Ho Ho8] Hs] H0 H8 Hlt Hsz. unfold fragment_header, SetFragmentOffset, GetFragmentOffset.
  unfold u16. rewrite !wrap_small by lia. rewrite land7_mod by lia.
  rewrite Z.add_mod, H8, Ho8 by lia. simpl. pose proof (flag_set h Hf) as (F1 & F2 & F3 & F4).
  eexists. split; [reflexivity |].
  destruct last, checksum; (split_and!; [simpl; lia | done | done | done | split; simpl]); try done;
    (split; [lia | by rewrite Z.add_mod, H8, Ho8 by lia]).
Qed.

(** The loop, with the header of a pass factored out. *)
Lemma fragment_loop_unfold fuel checksum p h fs offset :
  fragment_loop (S fuel) checksum p h fs offset =
    let more := u32 (offset + fs) <? GetSize p in
    let size := if more then fs else u32 (GetSize p - offset) in
    let* fragment := CreateFragment offset size p in
    let* fh := fragment_header checksum (negb more && IsLastFragment h) offset size h in
    let* rest := if more then fragment_loop fuel checksum p h fs (u16 (offset + size)) else Some [] in
    Some ((fragment, fh) :: rest).
Proof.
  cbn [fragment_loop]. unfold fragment_header. cbv zeta. destruct (u32 (offset + fs) <? GetSize p); simpl.
  - destruct (CreateFragment _ _ _); [| done]. destruct (SetFragmentOffset _ _); done.
  - destruct (CreateFragment _ _ _); [| done]. destruct (IsLastFragment h); simpl; destruct (SetFragmentOffset _ _); done.
Qed.

Lemma fragment_loop_ok fuel checksum P p h mtu offset fs :
  piece P p (GetFragmentOffset h) (negb (IsLastFragment h)) -> payload_ok P -> cut_ok h ->
  8 <= fs <= mtu - 20 -> fs < 2 ^ 31 -> fs mod 8 = 0 -> 0 <= offset < zlen p -> offset mod 8 = 0 ->
  zlen p - offset <= Z.of_nat fuel ->
  exists l, fragment_loop fuel checksum p h fs offset = Some l /\
    chain (GetFragmentOffset h + offset) (GetFragmentOffset h + zlen p) l /\ Forall (fragment_ok P h mtu) l.
Proof.
  intros Hp HP Hh Hfs Hfs2 Hfs8. revert offset. induction fuel as [|fuel IH]; intros offset Ho Ho8 Hf; [lia |].
  pose proof Hp as [Hb Hr Hs Hmore]. unfold payload_ok in HP. unfold GetFragmentOffset in *.
  pose proof (ct_offset _ Hh) as [HO _].
  rewrite fragment_loop_unfold. cbv zeta. unfold GetSize. rewrite u32_small by lia.
  destruct (Z.ltb_spec (offset + fs) (zlen p)) as [Hm|Hm]; simpl.
  - rewrite CreateFragment_slice by lia.
    destruct (fragment_header_ok checksum false offset fs h Hh) as (hq & -> & E1 & E2 & E3 & E4 & E5); try lia.
    unfold u16. rewrite wrap_small by lia.
    destruct (IH (offset + fs)) as (l & -> & Hc & Hl); try lia; [by rewrite Z.add_mod, Ho8, Hfs8 by lia |].
    exists ((slice offset (offset + fs) p, hq) :: l). split; [done |].
    assert (zlen (slice offset (offset + fs) p) = fs) as El by (rewrite slice_length; lia). split.
    + simpl. rewrite El. split; [exact E1 |]. by replace (m_fragmentOffset h + offset + fs) with (m_fragmentOffset h + (offset + fs)) by lia.
    + constructor; [| done]. split; simpl; rewrite ?El; try done; try lia. rewrite E1, E2.
      pose proof (piece_sub _ _ _ _ offset fs Hp ltac:(lia) ltac:(lia) ltac:(lia)) as Hq.
      by rewrite (proj2 (Z.eqb_neq (m_fragmentOffset h + offset + fs) (zlen P))) in Hq by lia.
  - rewrite u32_small by lia. replace (offset + (zlen p - offset)) with (zlen p) by lia.
    rewrite CreateFragment_slice by lia.
    destruct (fragment_header_ok checksum (IsLastFragment h) offset (zlen p - offset) h Hh) as (hq & -> & E1 & E2 & E3 & E4 & E5); try lia.
    eexists. split; [reflexivity |]. set (q := slice offset (offset + (zlen p - offset)) p).
    assert (zlen q = zlen p - offset) as El by (unfold q; rewrite slice_length; lia). split.
    + simpl. rewrite El. split; [exact E1 | lia].
    + constructor; [| done]. split; simpl; rewrite ?El; try done; try lia. rewrite E1, E2.
      pose proof (piece_sub _ _ _ _ offset (zlen p - offset) Hp ltac:(lia) ltac:(lia) ltac:(lia)) as Hq.
      fold q in Hq. rewrite Hmore. by replace (m_fragmentOffset h + zlen p) with (m_fragmentOffset h + offset + (zlen p - offset)) by lia.
Qed.

Lemma DoFragmentation_ok checksum P p h mtu :
  piece P p (GetFragmentOffset h) (negb (IsLastFragment h)) -> payload_ok P -> cut_ok h -> 28 <= mtu < 2 ^ 31 ->
  exists l, DoFragmentation checksum p h mtu = Some l /\
    chain (GetFragmentOffset h) (GetFragmentOffset h + zlen p) l /\ Forall (fragment_ok P h mtu) l.
Proof.
  intros Hp HP Hh Hm. unfold DoFragmentation, GetSerializedSize. rewrite (ct_size _ Hh). simpl NS_ASSERT. cbv iota.
  destruct (fragment_size_ok mtu h (ct_size _ Hh)) as [H1 H2]; [lia |]. pose proof (pc_size _ _ _ _ Hp).
  destruct (fragment_loop_ok (S (length p)) checksum P p h mtu 0 (fragment_size mtu h)) as (l & E & Hc & Hl); try done; try lia.
  { unfold zlen. lia. }
  exists l. rewrite Z.add_0_r in Hc. done.
Qed.

(** *** Collecting pieces *)

(** Pieces in the order they arrive, with their [more fragments] flags. *)
Definition arrival : Type := Packet * Z * bool.
Definition collect (l : list arrival) : Fragments :=
  foldl (fun f '(p, o, more) => AddFragment p o more f) Fragments_new l.

(** The beginning of the payload and a part that follows it can be joined. *)
Class JoinsSlices (P : Packet) {mem : Memory} : Prop :=
  joins_slices e t : 0 <= e <= t -> t <= zlen P -> joining (slice 0 e P) (slice e t P) = Joined.

Section Reassembly.
Context (P : Packet) (HP : payload_ok P) {mem : Memory} {HJ : JoinsSlices P}.

Definition piece_at (x : Packet * Z) : Prop := exists more, piece P x.1 x.2 more.
Definition covers (l : list (Packet * Z)) (x : Z) : Prop := exists (q : Packet) (o : Z), (q, o) ∈ l /\ o <= x < o + zlen q.
Definition by_offset (x y : Packet * Z) : Prop := x.2 <= y.2.
(** No byte follows the fragment. *)
Definition is_last (x : Packet * Z) : bool := x.2 + zlen x.1 =? zlen P.

Lemma piece_at_range q o : piece_at (q, o) -> 0 <= o /\ 0 < zlen q /\ o + zlen q <= zlen P /\ zlen P <= 65515 /\
  q = slice o (o + zlen q) P.
Proof. intros [more [Hb Hr Hs _]]. unfold payload_ok in HP. simpl in *. split_and!; try done; lia. Qed.

Lemma insert_fragment_ok p o l l' at_end :
  insert_fragment p o l = (l', at_end) -> StronglySorted by_offset l ->
  l' ≡ₚ (p, o) :: l /\ StronglySorted by_offset l' /\
  last l' = (if at_end then Some (p, o) else last l) /\ (at_end = false -> l <> []).
Proof.
  revert l' at_end. induction l as [|[q k] l IH]; intros l' at_end E Hs; simpl in E.
  { injection E as <- <-. split_and!; try done. by repeat constructor. }
  apply StronglySorted_inv in Hs as [Hs Hk]. destruct (Z.ltb_spec o k) as [Ho|Ho].
  - injection E as <- <-. split_and!; try done. repeat constructor; try done; [unfold by_offset; simpl; lia |].
    eapply Forall_impl; [done |]. unfold by_offset. simpl. intros [? ?] ?. simpl in *. lia.
  - destruct (insert_fragment p o l) as [l1 e1] eqn:E1. injection E as <- <-.
    destruct (IH _ _ eq_refl Hs) as (Hp & Hs' & Hl & Hne). split_and!.
    + rewrite Hp. apply Permutation_swap.
    + constructor; [done |]. rewrite Hp. constructor; [unfold by_offset; simpl; lia | done].
    + destruct l1 as [|x l1]; [by apply Permutation_nil_cons in Hp |]. rewrite last_cons_cons || (cbn [last]). rewrite Hl.
      destruct e1; [done |]. destruct l; [by destruct Hne | done].
    + done.
Qed.

(** The state of the collector. *)
Record frag_inv (l : list arrival) (f : Fragments) : Prop := mkFragInv {
  fi_perm : m_fragments f ≡ₚ l.*1;
  fi_sorted : StronglySorted by_offset (m_fragments f);
  fi_more : m_moreFragment f = match last (m_fragments f) with Some x => negb (is_last x) | None => false end
}.

Lemma collect_inv l : Forall (fun '(p, o, more) => piece P p o more) l -> frag_inv l (collect l).
Proof.
  induction l as [|[[p o] more] l IH] using rev_ind; [by repeat constructor |].
  intros [Hl [Hx _]%Forall_cons]%Forall_app. destruct (IH Hl) as [I1 I2 I3].
  unfold collect. rewrite foldl_app. simpl. fold (collect l). unfold AddFragment.
  destruct (insert_fragment p o (m_fragments (collect l))) as [l' at_end] eqn:E.
  destruct (insert_fragment_ok _ _ _ _ _ E I2) as (Hp & Hs & Hla & Hne). split; simpl.
  - rewrite Hp, I1, fmap_app. simpl. by rewrite Permutation_app_comm.
  - done.
  - rewrite Hla. destruct at_end; [apply (pc_more _ _ _ _ Hx) | done].
Qed.

Lemma collect_pieces l : Forall (fun '(p, o, more) => piece P p o more) l -> Forall piece_at (m_fragments (collect l)).
Proof.
  intros Hl. destruct (collect_inv l Hl) as [Hp _ _]. rewrite Hp. apply Forall_fmap. eapply Forall_impl; [done |].
  intros [[p o] more] ?. by exists more.
Qed.

(** *** The whole packet *)

Definition end_of (x : Packet * Z) : Z := x.2 + zlen x.1.
Definition reach (e : Z) (l : list (Packet * Z)) : Z := foldl (fun e x => Z.max e (end_of x)) e l.

Lemma reach_ge e l : e <= reach e l /\ (forall x, x ∈ l -> end_of x <= reach e l).
Proof.
  revert e. induction l as [|x l IH]; intros e; simpl; [split; [lia | by intros ? ?%elem_of_nil] |].
  destruct (IH (Z.max e (end_of x))) as [H1 H2]. split; [lia |].
  intros y [->|Hy]%elem_of_cons; [lia | auto].
Qed.

Lemma reach_le e l b : Forall piece_at l -> e <= b -> zlen P <= b -> reach e l <= b.
Proof.
  revert e. induction l as [|[q o] l IH]; intros e Hl He Hb; simpl; [done |].
  apply Forall_cons in Hl as [Hq Hl]. destruct (piece_at_range _ _ Hq) as (? & ? & ? & _).
  apply IH; try done. unfold end_of. simpl. lia.
Qed.

Lemma zlen_slice0 e : 0 <= e <= zlen P -> zlen (slice 0 e P) = e.
Proof. intros. rewrite slice_length; lia. Qed.

Lemma AddAtEnd_slice e t : 0 <= e <= t -> t <= zlen P -> AddAtEnd (slice e t P) (slice 0 e P) = Some (slice 0 t P).
Proof. intros He Ht. unfold AddAtEnd. by rewrite joins_slices, slice_app by lia. Qed.

(** Appending what a piece adds beyond [e]. *)
Lemma AddAtEnd_extends e q o :
  piece_at (q, o) -> 0 <= e -> o <= e -> e <= o + zlen q ->
  AddAtEnd (slice (e - o) (zlen q) q) (slice 0 e P) = Some (slice 0 (o + zlen q) P).
Proof.
  intros Hq He Ho Hlt. destruct (piece_at_range _ _ Hq) as (? & ? & ? & _ & Eq).
  assert (slice (e - o) (zlen q) q = slice e (o + zlen q) P) as ->.
  { rewrite Eq at 2. rewrite BufferRw.slice_slice by lia. f_equal; lia. }
  apply AddAtEnd_slice; lia.
Qed.
Lemma AddAtEnd_next q o : piece_at (q, o) -> AddAtEnd q (slice 0 o P) = Some (slice 0 (o + zlen q) P).
Proof. intros Hq. destruct (piece_at_range _ _ Hq) as (? & ? & ? & _ & Eq). rewrite Eq at 1. apply AddAtEnd_slice; lia. Qed.
Lemma AddAtEnd_nothing e : 0 <= e <= zlen P -> AddAtEnd [] (slice 0 e P) = Some (slice 0 e P).
Proof. intros He. rewrite <- (slice_nil e e P) at 1 by lia. apply AddAtEnd_slice; lia. Qed.

Lemma packet_loop_ok e l :
  Forall piece_at l -> 0 <= e <= zlen P -> entire_loop e l = true ->
  packet_loop (slice 0 e P) (u16 e) l = Some (slice 0 (reach e l) P).
Proof.
  revert e. induction l as [|[q o] l IH]; intros e Hl He Hent; [done |].
  apply Forall_cons in Hl as [Hq Hl]. destruct (piece_at_range _ _ Hq) as (? & ? & ? & ? & Eq).
  cbn [packet_loop reach entire_loop foldl] in *. unfold GetSize in *. rewrite u16_small in Hent |- * by lia.
  destruct (Z.ltb_spec e o) as [|Ho]; [done |].
  assert ((let* p' :=
      if o <? e then
        if u32 (e - o) <? zlen q then
          let* tempFragment := CreateFragment (u32 (e - o)) (u32 (zlen q - u32 (e - o))) q in
          AddAtEnd tempFragment (slice 0 e P)
        else Some (slice 0 e P)
      else AddAtEnd q (slice 0 e P) in Some p') = Some (slice 0 (Z.max e (end_of (q, o))) P)) as Estep.
  { rewrite (u32_small (e - o)) by lia. unfold end_of. simpl. destruct (Z.ltb_spec o e).
    - destruct (Z.ltb_spec (e - o) (zlen q)); [| do 2 f_equal; lia].
      rewrite u32_small, CreateFragment_slice by lia.
      replace (e - o + (zlen q - (e - o))) with (zlen q) by lia.
      rewrite AddAtEnd_extends by (done || lia). do 2 f_equal. lia.
    - assert (o = e) as -> by lia. rewrite AddAtEnd_next by done. do 2 f_equal. lia. }
  destruct (if o <? e then _ else _) as [p'|]; [| done]. injection Estep as ->.
  rewrite zlen_slice0 by (unfold end_of; simpl; lia). apply IH; [done | unfold end_of; simpl; lia |].
  unfold end_of. simpl. replace (o + zlen q) with (zlen q + o) by lia. done.
Qed.

(** *** Completeness *)

Lemma entire_loop_complete e l :
  Forall piece_at l -> StronglySorted by_offset l -> 0 <= e ->
  (forall x, e <= x < zlen P -> covers l x) -> entire_loop e l = true.
Proof.
  revert e. induction l as [|[q o] l IH]; intros e Hl Hs He Hc; [done |].
  apply Forall_cons in Hl as [Hq Hl]. apply StronglySorted_inv in Hs as [Hs Ho].
  destruct (piece_at_range _ _ Hq) as (? & ? & ? & ? & _).
  cbn [entire_loop]. unfold GetSize. rewrite u16_small by lia. destruct (Z.ltb_spec e o) as [Hlt|].
  - destruct (Hc e ltac:(lia)) as (q' & o' & [[= -> ->]|Hin]%elem_of_cons & Hx); [lia |].
    rewrite Forall_forall in Ho. specialize (Ho _ Hin). unfold by_offset in Ho. simpl in Ho. lia.
  - apply IH; try done; [lia |]. intros x Hx.
    destruct (Hc x ltac:(lia)) as (q' & o' & [[= -> ->]|Hin]%elem_of_cons & Hr); [lia |].
    by exists q', o'.
Qed.

Lemma entire_loop_covers e l x :
  Forall piece_at l -> entire_loop e l = true -> e <= x < reach e l -> covers l x.
Proof.
  revert e. induction l as [|[q o] l IH]; intros e Hl He Hx; simpl in Hx; [lia |].
  apply Forall_cons in Hl as [Hq Hl]. destruct (piece_at_range _ _ Hq) as (? & ? & ? & ? & _).
  cbn [entire_loop] in He. unfold GetSize in He. rewrite u16_small in He by lia.
  destruct (Z.ltb_spec e o); [done |]. unfold end_of in Hx. simpl in Hx. rewrite Z.add_comm in He.
  destruct (Z.lt_ge_cases x (Z.max e (o + zlen q))).
  - exists q, o. split; [by left | lia].
  - destruct (IH _ Hl He ltac:(lia)) as (q' & o' & ? & ?). exists q', o'. split; [by right | done].
Qed.

(** What [IsEntire] sees. *)
Lemma IsEntire_inv l :
  Forall (fun '(p, o, more) => piece P p o more) l -> IsEntire (collect l) = true ->
  (forall x, 0 <= x < zlen P -> covers (m_fragments (collect l)) x) /\ GetPacket (collect l) = Some P.
Proof.
  intros Hl He. destruct (collect_inv l Hl) as [_ _ Hm]. pose proof (collect_pieces l Hl) as Hp.
  unfold IsEntire in He. apply andb_true_iff in He as [[Hmore Hne]%andb_true_iff He].
  rewrite Hm in Hmore. assert (zlen P <= reach 0 (m_fragments (collect l))) as Hr.
  { destruct (last (m_fragments (collect l))) as [x|] eqn:El.
    - rewrite negb_involutive in Hmore. unfold is_last in Hmore. apply Z.eqb_eq in Hmore.
      pose proof (proj2 (reach_ge 0 _) x (last_Some_elem_of _ _ El)) as Hx. unfold end_of in Hx. lia.
    - apply last_None in El. rewrite El in Hne. done. }
  split; [intros x Hx; apply (entire_loop_covers 0); [done | done | lia] |].
  pose proof (reach_le 0 _ (zlen P) Hp (zlen_nonneg P) ltac:(lia)) as Hr2.
  unfold GetPacket. destruct (m_fragments (collect l)) as [|[p o] rest]; [done |].
  apply Forall_cons in Hp as [Hq Hp]. destruct (piece_at_range _ _ Hq) as (? & ? & ? & ? & Eq).
  cbn [entire_loop] in He. unfold GetSize in *. destruct (Z.ltb_spec 0 o); [done |]. assert (o = 0) as -> by lia.
  change (reach 0 ((p, 0) :: rest)) with (reach (Z.max 0 (end_of (p, 0))) rest) in *.
  assert (Z.max 0 (end_of (p, 0)) = zlen p) as Em by (unfold end_of; simpl; lia). rewrite Em in *.
  rewrite u16_small, Z.add_0_r, Z.max_r in He by lia. simpl in Eq.
  rewrite Eq at 1. rewrite packet_loop_ok by (done || lia). f_equal. replace (reach (zlen p) rest) with (zlen P) by lia.
  unfold slice. rewrite Z.sub_0_r, zlen_length, drop_0. apply take_ge. lia.
Qed.

Lemma covers_collect l x :
  Forall (fun '(p, o, more) => piece P p o more) l -> (covers (m_fragments (collect l)) x <-> covers l.*1 x).
Proof.
  intros Hl. destruct (collect_inv l Hl) as [Hp _ _]. unfold covers. by setoid_rewrite Hp.
Qed.

(** All bytes present and every last fragment behind the others: entire. *)
Lemma IsEntire_complete l :
  Forall (fun '(p, o, more) => piece P p o more) l -> 0 < zlen P ->
  (forall x, 0 <= x < zlen P -> covers l.*1 x) ->
  (forall q o q' o', (q, o, true) ∈ l -> (q', o', false) ∈ l -> o < o') ->
  IsEntire (collect l) = true.
Proof.
  intros Hl HP0 Hc Hlast. destruct (collect_inv l Hl) as [Hperm Hs Hm]. pose proof (collect_pieces l Hl) as Hp.
  rewrite Forall_forall in Hl.
  assert (forall q o, (q, o) ∈ l.*1 -> (q, o, negb (is_last (q, o))) ∈ l) as Hflag.
  { intros q o ([[q' o'] more] & [= -> ->] & Hin)%list_elem_of_fmap.
    pose proof (Hl _ Hin) as Hx. simpl in Hx. rewrite (pc_more _ _ _ _ Hx) in Hin. done. }
  unfold IsEntire. rewrite !andb_true_iff. split_and!.
  - rewrite Hm. destruct (last (m_fragments (collect l))) as [[q o]|] eqn:El; [| done].
    destruct (is_last (q, o)) eqn:Ei; [done |]. exfalso.
    assert ((q, o) ∈ l.*1) as Hq by (rewrite <- Hperm; by apply last_Some_elem_of).
    pose proof (Hflag _ _ Hq) as Hq2. rewrite Ei in Hq2.
    destruct (Hc (zlen P - 1) ltac:(lia)) as (q' & o' & Hin & Hx).
    assert ((q', o') ∈ m_fragments (collect l)) as Hin' by by rewrite Hperm.
    rewrite Forall_forall in Hp. destruct (piece_at_range _ _ (Hp _ Hin')) as (? & ? & ? & _).
    pose proof (Hflag _ _ Hin) as Hin2.
    assert (is_last (q', o') = true) as E2 by (unfold is_last; simpl; apply Z.eqb_eq; lia). rewrite E2 in Hin2.
    pose proof (Hlast _ _ _ _ Hq2 Hin2). apply last_Some in El as [l1 El]. rewrite El in Hs, Hin'.
    apply StronglySorted_app_inv in Hs as (_ & _ & Hle). apply elem_of_app in Hin' as [Hin'|Hin'].
    + specialize (Hle _ (q, o) Hin' ltac:(by left)). unfold by_offset in Hle. simpl in Hle. lia.
    + apply list_elem_of_singleton in Hin' as [= -> ->]. lia.
  - apply negb_true_iff, Nat.eqb_neq. destruct (Hc 0 ltac:(lia)) as (q & o & Hin & _).
    intros E0%length_zero_iff_nil. rewrite <- Hperm, E0 in Hin. by apply elem_of_nil in Hin.
  - apply entire_loop_complete; try done. intros x Hx. unfold covers. setoid_rewrite Hperm. by apply Hc.
Qed.

(** *** The part received when the timer expires *)

Lemma partial_loop_ok e l :
  Forall piece_at l -> StronglySorted by_offset l -> 0 <= e <= zlen P ->
  exists k, partial_loop (slice 0 e P) e l = Some (slice 0 k P) /\ e <= k <= zlen P /\
    (forall x, e <= x < k -> covers l x) /\ (forall q o, (q, o) ∈ l -> o + zlen q <= k \/ k < o).
Proof.
  revert e. induction l as [|[q o] l IH]; intros e Hl Hs He.
  { exists e. split_and!; try done; [lia | lia | by intros ? ? ?%elem_of_nil]. }
  apply Forall_cons in Hl as [Hq Hl]. apply StronglySorted_inv in Hs as [Hs Ho].
  destruct (piece_at_range _ _ Hq) as (? & ? & ? & ? & Eq). cbn [partial_loop]. unfold GetSize.
  (* the piece is used up to its end *)
  assert (forall p', p' = slice 0 (Z.max e (o + zlen q)) P -> o <= e -> exists k,
    partial_loop p' (u16 (zlen p')) l = Some (slice 0 k P) /\ e <= k <= zlen P /\
    (forall x, e <= x < k -> covers ((q, o) :: l) x) /\ (forall q' o', (q', o') ∈ (q, o) :: l -> o' + zlen q' <= k \/ k < o')) as Huse.
  { intros p' -> Hoe. rewrite zlen_slice0, u16_small by lia.
    destruct (IH (Z.max e (o + zlen q)) Hl Hs ltac:(lia)) as (k & -> & Hk & Hc & Ha). exists k. split_and!; try done; try lia.
    - intros x Hx. destruct (Z.lt_ge_cases x (Z.max e (o + zlen q))).
      + exists q, o. split; [by left | lia].
      + destruct (Hc x ltac:(lia)) as (q' & o' & ? & ?). exists q', o'. split; [by right | done].
    - intros q' o' [[= -> ->]|Hin]%elem_of_cons; [lia | auto]. }
  destruct (Z.ltb_spec o e); [| destruct (Z.eqb_spec e o) as [->|]].
  - rewrite (u32_small (e - o)) by lia. destruct (Z.lt_ge_cases (e - o) (zlen q)).
    + rewrite u32_small, CreateFragment_slice by lia.
      replace (e - o + (zlen q - (e - o))) with (zlen q) by lia.
      rewrite AddAtEnd_extends by (done || lia). apply Huse; [f_equal; lia | lia].
    + rewrite CreateFragment_beyond, AddAtEnd_nothing by lia. apply Huse; [f_equal; lia | lia].
  - rewrite AddAtEnd_next by done. apply Huse; [f_equal; lia | lia].
  - rewrite zlen_slice0, u16_small by lia.
    destruct (IH e Hl Hs He) as (k & -> & Hk & Hc & Ha). exists k.
    assert (k = e) as ->.
    { destruct (Z.eq_dec k e); [done |]. destruct (Hc e ltac:(lia)) as (q' & o' & Hin & Hx).
      rewrite Forall_forall in Ho. specialize (Ho _ Hin). unfold by_offset in Ho. simpl in Ho. lia. }
    split_and!; try done; try lia. intros q' o' [[= -> ->]|Hin]%elem_of_cons; [lia | auto].
Qed.

End Reassembly.

(** ** Correctness *)

(** How a fragment is handed to [AddFragment]. *)
Definition arrive (x : Ipv4PayloadHeaderPair) : arrival := (x.1, GetFragmentOffset x.2, negb (IsLastFragment x.2)).

Lemma arrive_pieces P h mtu l :
  Forall (fragment_ok P h mtu) l -> Forall (fun '(p, o, more) => piece P p o more) (arrive <$> l).
Proof. intros Hl. apply Forall_fmap. eapply Forall_impl; [done |]. intros [q hq] Hx. apply (fo_piece _ _ _ _ Hx). Qed.

Lemma chain_bounds o e l P h mtu x :
  chain o e l -> Forall (fragment_ok P h mtu) l -> x ∈ l ->
  o <= GetFragmentOffset x.2 /\ GetFragmentOffset x.2 + zlen x.1 <= e.
Proof.
  revert o. induction l as [|[q hq] l IH]; intros o Hc Hl Hin; [by apply elem_of_nil in Hin |].
  destruct Hc as [Hq Hc]. apply Forall_cons in Hl as [Hx Hl]. pose proof (pc_size _ _ _ _ (fo_piece _ _ _ _ Hx)) as Hs.
  simpl in Hs. assert (o + zlen q <= e) as Hle.
  { clear -Hc Hl. revert Hc. generalize (o + zlen q). induction l as [|[q' hq'] l IH]; intros z; simpl; [lia |].
    intros [_ Hc]. apply Forall_cons in Hl as [Hx Hl]. specialize (IH Hl _ Hc). pose proof (zlen_nonneg q'). lia. }
  apply elem_of_cons in Hin as [->|Hin]; [simpl; lia |]. destruct (IH _ Hc Hl Hin). lia.
Qed.

(** Fragments of a chain that share a byte are the same. *)
Lemma chain_disjoint o e l P h mtu x y b :
  chain o e l -> Forall (fragment_ok P h mtu) l -> x ∈ l -> y ∈ l ->
  GetFragmentOffset x.2 <= b < GetFragmentOffset x.2 + zlen x.1 ->
  GetFragmentOffset y.2 <= b < GetFragmentOffset y.2 + zlen y.1 -> x = y.
Proof.
  revert o. induction l as [|[q hq] l IH]; intros o Hc Hl Hx Hy Bx By; [by apply elem_of_nil in Hx |].
  destruct Hc as [Hq Hc]. apply Forall_cons in Hl as [_ Hl].
  apply elem_of_cons in Hx as [->|Hx], Hy as [->|Hy]; [done | | | by eapply IH]; simpl in *;
    [destruct (chain_bounds _ _ _ _ _ _ _ Hc Hl Hy) | destruct (chain_bounds _ _ _ _ _ _ _ Hc Hl Hx)]; lia.
Qed.

Lemma chain_covers o e l b : chain o e l -> o <= b < e ->
  exists x, x ∈ l /\ GetFragmentOffset x.2 <= b < GetFragmentOffset x.2 + zlen x.1.
Proof.
  revert o. induction l as [|[q hq] l IH]; intros o Hc Hb; simpl in Hc; [lia |]. destruct Hc as [Hq Hc].
  destruct (Z.lt_ge_cases b (o + zlen q)); [exists (q, hq); split; [by left | simpl; lia] |].
  destruct (IH _ Hc ltac:(lia)) as (x & Hx & ?). exists x. split; [by right | done].
Qed.

(** The header of an unfragmented packet. *)
Definition whole (P : Packet) (h : Ipv4Header) : Prop :=
  cut_ok h /\ GetFragmentOffset h = 0 /\ IsLastFragment h = true /\ 0 < zlen P.

Lemma whole_piece P h : whole P h -> piece P P (GetFragmentOffset h) (negb (IsLastFragment h)).
Proof.
  intros (_ & -> & -> & HP). split; rewrite ?Z.add_0_l; try lia. unfold slice. rewrite Z.sub_0_r, zlen_length, drop_0. symmetry. by apply take_ge.
Qed.

Lemma fragmentation_ok checksum P h mtu {mem : Memory} {HJ : JoinsSlices P} :
  whole P h -> payload_ok P -> 28 <= mtu < 2 ^ 31 ->
  exists l, DoFragmentation checksum P h mtu = Some l /\ Forall (fragment_ok P h mtu) l /\
    forall l', (forall x, x ∈ l' -> x ∈ l) ->
      let f := collect (arrive <$> l') in
      (IsEntire f = true <-> forall x, x ∈ l -> x ∈ l') /\ (IsEntire f = true -> GetPacket f = Some P).
Proof.
  intros Hw HP Hm. pose proof Hw as (Hcut & H0 & Hlast & HP0).
  destruct (DoFragmentation_ok checksum P P h mtu (whole_piece _ _ Hw) HP Hcut Hm) as (l & E & Hc & Hl).
  rewrite H0 in Hc. simpl in Hc. exists l. split; [done |]. split; [done |]. intros l' Hsub f.
  assert (Forall (fragment_ok P h mtu) l') as Hl'.
  { rewrite Forall_forall in Hl |- *. intros x Hx. auto. }
  pose proof (arrive_pieces _ _ _ _ Hl') as Hp. split; [| by intros ?; apply (IsEntire_inv P HP)]. split.
  - intros He x Hx. destruct (IsEntire_inv P HP _ Hp He) as [Hcov _].
    rewrite Forall_forall in Hl. pose proof (Hl _ Hx) as Hxo. destruct (fo_piece _ _ _ _ Hxo) as [_ Hr Hs _].
    destruct (Hcov (GetFragmentOffset x.2) ltac:(lia)) as (q & o & Hin & Hb).
    assert ((q, o) ∈ (arrive <$> l').*1) as Hin' by by rewrite <- (fi_perm _ _ _ (collect_inv P _ Hp)).
    rewrite <- list_fmap_compose in Hin'. apply list_elem_of_fmap in Hin' as (y & [= -> ->] & Hy).
    assert (x = y) as ->; [| done].
    apply (chain_disjoint 0 (zlen P) l P h mtu x y (GetFragmentOffset x.2)); [done | by apply Forall_forall | done | by apply Hsub | | done]. split; [done | by apply Z.lt_add_pos_r].
  - intros Hall. apply (IsEntire_complete P HP); try done.
    + intros b Hb. destruct (chain_covers _ _ _ b Hc Hb) as (x & Hx & Hxb). exists x.1, (GetFragmentOffset x.2).
      split; [| done]. rewrite <- list_fmap_compose. apply list_elem_of_fmap. exists x. split; [done | auto].
    + intros q o q' o' (x & [= -> -> Ex] & Hx)%list_elem_of_fmap (y & [= -> -> Ey] & Hy)%list_elem_of_fmap.
      rewrite Forall_forall in Hl'. pose proof (fo_piece _ _ _ _ (Hl' _ Hx)) as [_ Hxr Hxs Hxm].
      pose proof (fo_piece _ _ _ _ (Hl' _ Hy)) as [_ Hyr Hys Hym]. rewrite <- Ex in Hxm. rewrite <- Ey in Hym.
      symmetry in Hxm, Hym. bool_prop. destruct x as [qx hx], y as [qy hy]. cbn [fst snd] in *.
      destruct (Z.lt_ge_cases (GetFragmentOffset hx) (GetFragmentOffset hy)); [done |]. exfalso.
      assert ((qx, hx) = (qy, hy)) as [= -> ->]; [| lia].
      apply (chain_disjoint _ _ _ P h mtu (qx, hx) (qy, hy) (GetFragmentOffset hx) Hc Hl); auto; simpl; lia.
Qed.

(** Fragmentation and reassembly are inverse: for a payload that fits an
    IPv4 packet and a link MTU of at least 28 bytes, [DoFragmentation] returns
    fragments, and a receiver that has got some of them, in any order and any
    number of times, reports the packet entire exactly when every fragment has
    arrived, and then [GetPacket] returns the payload. *)
Theorem fragmentation_round_trip checksum P h mtu {mem : Memory} {HJ : JoinsSlices P} :
  whole P h -> payload_ok P -> 28 <= mtu < 2 ^ 31 ->
  exists l, DoFragmentation checksum P h mtu = Some l /\
    forall l', (forall x, x ∈ l' -> x ∈ l) ->
      let f := collect (arrive <$> l') in
      (IsEntire f = true <-> forall x, x ∈ l -> x ∈ l') /\ (IsEntire f = true -> GetPacket f = Some P).
Proof.
  intros Hw HP Hm. destruct (fragmentation_ok checksum P h mtu Hw HP Hm) as (l & E & _ & H). by exists l.
Qed.

(** [GetPacket] never returns anything but the payload: whatever pieces of
    it arrived, cut in any way by routers with different MTUs, overlapping and
    repeated, when [IsEntire] holds the packet returned is the payload. *)
Theorem reassembly_safe P l {mem : Memory} {HJ : JoinsSlices P} :
  payload_ok P -> Forall (fun '(p, o, more) => piece P p o more) l -> IsEntire (collect l) = true ->
  GetPacket (collect l) = Some P.
Proof. intros HP Hl He. by apply (IsEntire_inv P HP). Qed.

(** Every fragment fits the link, starts at a multiple of eight, carries its
    own size and the identification, addresses, protocol, TTL and TOS of the
    packet; the fragments follow each other and cover the packet. A packet that
    is itself a fragment is cut into pieces of the original payload. *)
Theorem DoFragmentation_bounds checksum P p h mtu :
  piece P p (GetFragmentOffset h) (negb (IsLastFragment h)) -> payload_ok P -> cut_ok h -> 28 <= mtu < 2 ^ 31 ->
  exists l, DoFragmentation checksum p h mtu = Some l /\
    chain (GetFragmentOffset h) (GetFragmentOffset h + zlen p) l /\
    forall q hq, (q, hq) ∈ l -> zlen q + 20 <= mtu /\ GetFragmentOffset hq mod 8 = 0 /\ GetPayloadSize hq = zlen q /\
      same_flow h hq /\ piece P q (GetFragmentOffset hq) (negb (IsLastFragment hq)).
Proof.
  intros Hp HP Hh Hm. destruct (DoFragmentation_ok checksum P p h mtu Hp HP Hh Hm) as (l & E & Hc & Hl).
  exists l. split_and!; try done. intros q hq Hin. rewrite Forall_forall in Hl. destruct (Hl _ Hin) as [A B C D F].
  split_and!; try done. by destruct (ct_offset _ F).
Qed.

Lemma GetPartialPacket_ok P l {mem : Memory} {HJ : JoinsSlices P} :
  payload_ok P -> Forall (fun '(p, o, more) => piece P p o more) l -> l <> [] ->
  exists k, GetPartialPacket (collect l) = Some (slice 0 k P) /\ 0 <= k <= zlen P /\
    (forall x, 0 <= x < k -> covers l.*1 x) /\ ~ covers l.*1 k.
Proof.
  intros HP Hl Hne. destruct (collect_inv P _ Hl) as [Hperm Hs _]. pose proof (collect_pieces P _ Hl) as Hp.
  setoid_rewrite <- (fun x => covers_collect P l x Hl).
  destruct (partial_loop_ok P HP 0 (m_fragments (collect l)) Hp Hs) as (k & E & Hk & Hc & Ha); [pose proof (zlen_nonneg P); lia |].
  assert (~ covers (m_fragments (collect l)) k) as Hn by (intros (q & o & Hin & Hx); destruct (Ha _ _ Hin); lia).
  unfold GetPartialPacket. destruct (m_fragments (collect l)) as [|[q o] rest] eqn:Ef.
  { destruct Hne. apply Permutation_nil_l in Hperm. symmetry in Hperm. by apply fmap_nil_inv in Hperm. }
  destruct (Z.ltb_spec 0 o) as [Ho|Ho].
  - exists 0. split_and!; [by rewrite slice_nil by lia | lia | apply zlen_nonneg | intros; lia |].
    intros (q' & o' & Hin & Hx). apply elem_of_cons in Hin as [[= -> ->]|Hin]; [lia |].
    apply StronglySorted_inv in Hs as [_ Hs]. rewrite Forall_forall in Hs. specialize (Hs _ Hin). unfold by_offset in Hs. simpl in Hs. lia.
  - exists k. rewrite slice_nil in E by lia. done.
Qed.

(** What is returned when the reassembly timer expires is the longest
    beginning of the payload that has arrived without a hole. *)
Theorem GetPartialPacket_prefix P l {mem : Memory} {HJ : JoinsSlices P} :
  payload_ok P -> Forall (fun '(p, o, more) => piece P p o more) l -> l <> [] ->
  exists k, GetPartialPacket (collect l) = Some (slice 0 k P) /\ 0 <= k <= zlen P /\
    (forall x, 0 <= x < k -> covers l.*1 x) /\ ~ covers l.*1 k.
Proof. intros. by apply GetPartialPacket_ok. Qed.

(** ** Examples *)

Lemma plain_slices P : @JoinsSlices P plain_memory.
Proof. done. Qed.
#[local] Existing Instances plain_memory plain_slices.

(** A packet of 100 bytes sent over links with MTU 68: fragments of 48, 48 and 4 bytes. *)
Definition demo_payload : Packet := seqZ 0 100.
Definition demo_header : Ipv4Header := SetIdentification 7 (SetTtl 64 (SetProtocol 17 Ipv4Header_new)).

Lemma demo_whole : whole demo_payload demo_header.
Proof.
  split; [| split_and!; reflexivity]. split; [split; vm_compute; congruence || done | | reflexivity].
  split; [vm_compute; congruence | reflexivity].
Qed.

Lemma fragmentation_round_trip_witness :
  exists l, DoFragmentation true demo_payload demo_header 68 = Some l /\
    IsEntire (collect (arrive <$> reverse l ++ l)) = true /\ GetPacket (collect (arrive <$> reverse l ++ l)) = Some demo_payload.
Proof.
  destruct (fragmentation_round_trip true demo_payload demo_header 68 demo_whole) as (l & E & H).
  { vm_compute. congruence. }
  { lia. }
  assert (forall x, x ∈ reverse l ++ l -> x ∈ l) as Hs.
  { intros x Hx. apply elem_of_app in Hx as [Hx|Hx]; [by rewrite elem_of_reverse in Hx | exact Hx]. }
  destruct (H (reverse l ++ l) Hs) as [H1 H2]. exists l. split; [exact E |].
  assert (IsEntire (collect (arrive <$> reverse l ++ l)) = true) as He.
  { apply H1. intros x Hx. apply elem_of_app. right. exact Hx. }
  split; [exact He | exact (H2 He)].
Defined.

(** Two different cuts of 32 bytes. *)
Definition bytes32 : Packet := seqZ 0 32.
Definition cut_at (o n : Z) : arrival := (slice o (o + n) bytes32, o, negb (o + n =? 32)).

Lemma cut_at_piece o n : 0 <= o -> 0 < n -> o + n <= 32 ->
  let '(p, k, more) := cut_at o n in piece bytes32 p k more.
Proof.
  intros. simpl. assert (zlen bytes32 = 32) as El by reflexivity.
  assert (zlen (slice o (o + n) bytes32) = n) as En by (rewrite slice_length; lia).
  split; rewrite ?En, ?El; try done; lia.
Qed.

Lemma reassembly_safe_witness :
  GetPacket (collect [cut_at 16 16; cut_at 0 24; cut_at 8 8]) = Some bytes32.
Proof.
  apply (reassembly_safe bytes32 [cut_at 16 16; cut_at 0 24; cut_at 8 8]).
  - vm_compute. congruence.
  - repeat (apply List.Forall_cons; [apply cut_at_piece; lia |]). apply List.Forall_nil.
  - vm_compute. reflexivity.
Defined.

Lemma DoFragmentation_bounds_witness :
  exists l, DoFragmentation true demo_payload demo_header 68 = Some l /\ chain 0 (0 + zlen demo_payload) l.
Proof.
  destruct (DoFragmentation_bounds true demo_payload demo_payload demo_header 68 (whole_piece _ _ demo_whole)) as (l & E & H & _).
  - vm_compute. congruence.
  - exact (proj1 demo_whole).
  - lia.
  - exists l. split; [exact E | exact H].
Defined.

Lemma GetPartialPacket_prefix_witness :
  exists k, GetPartialPacket (collect [cut_at 24 8; cut_at 8 8; cut_at 0 8]) = Some (slice 0 k bytes32) /\
    0 <= k <= zlen bytes32.
Proof.
  destruct (GetPartialPacket_prefix bytes32 [cut_at 24 8; cut_at 8 8; cut_at 0 8]) as (k & E & H & _).
  - vm_compute. congruence.
  - repeat (apply List.Forall_cons; [apply cut_at_piece; lia |]). apply List.Forall_nil.
  - discriminate.
  - exists k. split; [exact E | exact H].
Defined.

(** Cuts by routers with different MTUs can hide the end of the packet: every
    byte has arrived, but the piece of the largest offset is not the last one. *)
Lemma overlap_hides_last :
  (forall x, 0 <= x < 32 -> covers [cut_at 8 24; cut_at 16 8; cut_at 0 8].*1 x) /\
  IsEntire (collect [cut_at 8 24; cut_at 16 8; cut_at 0 8]) = false.
Proof.
  split; [| vm_compute; reflexivity]. intros x Hx. destruct (Z.lt_ge_cases x 8).
  - exists (slice 0 8 bytes32), 0. split; [right; right; by left |]. change (zlen (slice 0 8 bytes32)) with 8. lia.
  - exists (slice 8 32 bytes32), 8. split; [by left |]. change (zlen (slice 8 32 bytes32)) with 24. lia.
Qed.

End Ipv4Fragment.
