(* ===== verification/Ipv4Reassembly.v ===== *)
(** * Reassembly at the destination (src/internet/model/ipv4-l3-protocol.cc)

    The map from fragment keys to [Fragments], the list of their deadlines and
    the timer event that serves it. *)

From Stdlib Require Import Sorting.Sorted.
From S2P Require Import Prelude Buffer BufferInv PacketBytes Ipv4Header Ipv4Fragment.
Import Buffer BufferInv PacketBytes Ipv4Header.Ipv4Header Ipv4Fragment.

Module Ipv4Reassembly.

(** ** State *)

Definition FragmentKey_t : Type := Z * Z.

(** An element of [m_timeoutEventList]; [te_id] is the identity of the list
    node, which an iterator keeps. *)
Record TimeoutEntry := mkTimeout {
  te_id : Z;
  te_time : Z;
  te_key : FragmentKey_t;
  te_header : Ipv4Header;
  te_iif : Z
}.

(** The fragments of a key with their timeout iterator, the list of timeouts
    and the identity of the next list node. *)
Record Reassembly := mkReassembly {
  m_fragments : gmap FragmentKey_t (Fragments * Z);
  m_timeoutEventList : list TimeoutEntry;
  next_id : Z
}.
Definition Reassembly_new : Reassembly := mkReassembly ∅ [] 0.

(** Calls of the simulator and of the traces and protocols above. *)
Inductive Effect :=
  | ScheduleTimeout (delay : Z)
  | DropFragments (h : Ipv4Header) (p : Packet) (iif : Z)
  | TimeExceeded (h : Ipv4Header) (p : Packet).

(** ** Operations *)

Section Operations.
(** [m_fragmentExpirationTimeout] *)
Context {mem : Memory} (timeout : Z).

Definition fragment_key (h : Ipv4Header) : FragmentKey_t :=
  (Z.lor (u64 (Z.shiftl (GetSource h) 32)) (GetDestination h),
   Z.lor (u32 (Z.shiftl (GetIdentification h) 16)) (GetProtocol h)).

(** The iterator returned is the identity of the new node. *)
Definition SetTimeout (now : Z) (key : FragmentKey_t) (ipHeader : Ipv4Header) (iif : Z) (r : Reassembly)
    : Z * list Effect * Reassembly :=
  let effects := if (length (m_timeoutEventList r) =? 0)%nat then [ScheduleTimeout timeout] else [] in
  (next_id r, effects,
   mkReassembly (m_fragments r)
     (m_timeoutEventList r ++ [mkTimeout (next_id r) (now + timeout) key ipHeader iif]) (next_id r + 1)).

(** [m_timeoutEventList.erase(iter)] *)
Definition erase_timeout (iter : Z) (l : list TimeoutEntry) : list TimeoutEntry :=
  List.filter (fun e => negb (te_id e =? iter)) l.

(** [ProcessFragment]: the packet when it is complete. *)
Definition ProcessFragment (now : Z) (packet : Packet) (ipHeader : Ipv4Header) (iif : Z) (r : Reassembly)
    : option (option Packet * list Effect * Reassembly) :=
  let key := fragment_key ipHeader in
  let '(fragments, iter, effects, r) :=
    match m_fragments r !! key with
    | None =>
        let '(iter, effects, r) := SetTimeout now key ipHeader iif r in (Fragments_new, iter, effects, r)
    | Some (fragments, iter) => (fragments, iter, [], r)
    end in
  let fragments := AddFragment packet (GetFragmentOffset ipHeader) (negb (IsLastFragment ipHeader)) fragments in
  if IsEntire fragments then
    let* p := GetPacket fragments in
    Some (Some p, effects,
      mkReassembly (delete key (m_fragments r)) (erase_timeout iter (m_timeoutEventList r)) (next_id r))
  else Some (None, effects, mkReassembly (<[key := (fragments, iter)]> (m_fragments r)) (m_timeoutEventList r) (next_id r)).

(** A key without fragments is a dereferenced end iterator. *)
Definition HandleFragmentsTimeout (key : FragmentKey_t) (ipHeader : Ipv4Header) (iif : Z) (r : Reassembly)
    : option (list Effect * Reassembly) :=
  let* (fragments, _) := m_fragments r !! key in
  let* packet := GetPartialPacket fragments in
  let icmp := if 8 <? GetSize packet then [TimeExceeded ipHeader packet] else [] in
  Some (icmp ++ [DropFragments ipHeader packet iif],
    mkReassembly (delete key (m_fragments r)) (m_timeoutEventList r) (next_id r)).

(** The [while] loop of [HandleTimeout] takes an element off the list in each
    pass. *)
Fixpoint timeout_loop (fuel : nat) (now : Z) (r : Reassembly) : option (list Effect * Reassembly) :=
  match m_timeoutEventList r with
  | [] => Some ([], r)
  | e :: _ =>
      if te_time e =? now then
        match fuel with
        | O => None
        | S fuel' =>
            let* (effects, r) := HandleFragmentsTimeout (te_key e) (te_header e) (te_iif e) r in
            let* (effects', r) := timeout_loop fuel' now
              (mkReassembly (m_fragments r) (tail (m_timeoutEventList r)) (next_id r)) in
            Some (effects ++ effects', r)
        end
      else Some ([], r)
  end.

Definition HandleTimeout (now : Z) (r : Reassembly) : option (list Effect * Reassembly) :=
  let* (effects, r) := timeout_loop (length (m_timeoutEventList r)) now r in
  Some (match m_timeoutEventList r with
        | [] => (effects, r)
        | e :: _ => (effects ++ [ScheduleTimeout (te_time e - now)], r)
        end).

(** [LocalDeliver] up to the call of the transport protocol: the packet and the
    header delivered. *)
Definition LocalDeliver (now : Z) (packet : Packet) (ip : Ipv4Header) (iif : Z) (r : Reassembly)
    : option (option (Packet * Ipv4Header) * list Effect * Reassembly) :=
  if negb (IsLastFragment ip) || negb (GetFragmentOffset ip =? 0) then
    let* (complete, effects, r) := ProcessFragment now packet ip iif r in
    match complete with
    | None => Some (None, effects, r)
    | Some p =>
        let* ipHeader := SetFragmentOffset 0 ip in
        Some (Some (p, SetPayloadSize (u16 (GetSize p)) ipHeader), effects, r)
    end
  else Some (Some (packet, ip), [], r).

End Operations.

(** ** Invariants *)

(** The pairs (key, iterator) of the timeouts are those of the fragments. *)
Record keys_ok (r : Reassembly) : Prop := mkKeysOk {
  ko_find : forall k i, (exists f, m_fragments r !! k = Some (f, i)) <->
    exists e, e ∈ m_timeoutEventList r /\ te_key e = k /\ te_id e = i;
  ko_id : NoDup (te_id <$> m_timeoutEventList r);
  ko_key : NoDup (te_key <$> m_timeoutEventList r);
  ko_next : forall e, e ∈ m_timeoutEventList r -> te_id e < next_id r
}.

(** Every collector holds pieces of the payload [P] of its key, not all of them. *)
Definition pieces_ok (P : FragmentKey_t -> Packet) (r : Reassembly) : Prop :=
  forall k f i, m_fragments r !! k = Some (f, i) ->
    exists l, l <> [] /\ f = collect l /\ Forall (fun '(p, o, more) => piece (P k) p o more) l.

(** The arriving packet is a piece of the payload of its key. *)
Definition arrives (P : FragmentKey_t -> Packet) (p : Packet) (h : Ipv4Header) : Prop :=
  piece (P (fragment_key h)) p (GetFragmentOffset h) (negb (IsLastFragment h)).

Lemma keys_ok_new : keys_ok Reassembly_new.
Proof.
  split; simpl; [| by apply NoDup_nil | by apply NoDup_nil | by intros ? ?%elem_of_nil].
  intros k i. split; [intros [f H]; by rewrite lookup_empty in H | by intros (e & ?%elem_of_nil & _)].
Qed.

Lemma keys_ok_add r key now h iif f :
  keys_ok r -> m_fragments r !! key = None ->
  keys_ok (mkReassembly (<[key := (f, next_id r)]> (m_fragments r))
    (m_timeoutEventList r ++ [mkTimeout (next_id r) now key h iif]) (next_id r + 1)).
Proof.
  intros [H1 H2 H3 H4] Hk. split; simpl.
  - intros k i. setoid_rewrite elem_of_app. setoid_rewrite list_elem_of_singleton.
    destruct (decide (k = key)) as [->|Hne].
    + rewrite lookup_insert_eq. split.
      * intros [f' [= _ <-]]. eexists. split; [by right | done].
      * intros (e & [Hin| ->] & Hek & <-); [| by exists f].
        destruct (proj2 (H1 key (te_id e))) as [f' Hf']; [by exists e | congruence].
    + rewrite lookup_insert_ne by done. rewrite H1. split.
      * intros (e & Hin & ? & ?). exists e. split_and!; [by left | done | done].
      * intros (e & [Hin| ->] & Hek & ?); [by exists e | done].
  - rewrite fmap_app. apply NoDup_app. split_and!; [done | | apply NoDup_singleton].
    intros i (e & -> & Hin)%list_elem_of_fmap Hi. apply list_elem_of_singleton in Hi. simpl in Hi.
    specialize (H4 _ Hin). lia.
  - rewrite fmap_app. apply NoDup_app. split_and!; [done | | apply NoDup_singleton].
    intros i (e & -> & Hin)%list_elem_of_fmap Hi. apply list_elem_of_singleton in Hi. simpl in Hi.
    destruct (proj2 (H1 key (te_id e))) as [f' Hf']; [by exists e | congruence].
  - intros e [Hin|Hin]%elem_of_app; [specialize (H4 _ Hin); lia |]. apply list_elem_of_singleton in Hin as ->. simpl. lia.
Qed.

Lemma keys_ok_update r key f f' i :
  keys_ok r -> m_fragments r !! key = Some (f, i) ->
  keys_ok (mkReassembly (<[key := (f', i)]> (m_fragments r)) (m_timeoutEventList r) (next_id r)).
Proof.
  intros [H1 H2 H3 H4] Hk. split; simpl; try done. intros k j. rewrite <- H1.
  destruct (decide (k = key)) as [->|Hne]; [rewrite lookup_insert_eq | by rewrite lookup_insert_ne by done].
  rewrite Hk. split; [intros [? [= _ <-]]; by exists f | intros [? [= _ <-]]; by exists f'].
Qed.

Lemma erase_timeout_elem i l e : e ∈ erase_timeout i l <-> e ∈ l /\ te_id e <> i.
Proof.
  unfold erase_timeout. rewrite !list_elem_of_In, filter_In. rewrite negb_true_iff, Z.eqb_neq. done.
Qed.

Lemma erase_timeout_sublist i l : erase_timeout i l `sublist_of` l.
Proof.
  induction l as [|e l IH]; simpl; [constructor |]. destruct (negb (te_id e =? i)); by constructor.
Qed.

(** Entries with the same key or the same identity are the same. *)
Lemma timeout_inj {A} (g : TimeoutEntry -> A) l e e' : NoDup (g <$> l) -> e ∈ l -> e' ∈ l -> g e = g e' -> e = e'.
Proof.
  intros Hn He He' E. apply list_elem_of_lookup in He as [a Ha], He' as [b Hb].
  assert (a = b) as ->; [| congruence]. eapply NoDup_lookup; [exact Hn | by rewrite list_lookup_fmap, Ha |].
  by rewrite list_lookup_fmap, Hb, E.
Qed.

Lemma keys_ok_erase r key f i :
  keys_ok r -> m_fragments r !! key = Some (f, i) ->
  keys_ok (mkReassembly (delete key (m_fragments r)) (erase_timeout i (m_timeoutEventList r)) (next_id r)).
Proof.
  intros [H1 H2 H3 H4] Hk. destruct (proj1 (H1 key i)) as (e0 & He0 & Hk0 & Hi0); [by exists f |].
  split; simpl.
  - intros k j. setoid_rewrite erase_timeout_elem. destruct (decide (k = key)) as [->|Hne].
    + rewrite lookup_delete_eq. split; [by intros [] |]. intros (e & [Hin Hi] & Hke & <-). destruct Hi.
      rewrite (timeout_inj te_key _ e e0 H3 Hin He0); congruence.
    + rewrite lookup_delete_ne by done. rewrite H1. split; intros (e & Hin & ? & ?).
      * exists e. split_and!; try done. intros Hi.
        assert (e = e0) by (by apply (timeout_inj te_id _ e e0 H2 Hin He0); congruence). congruence.
      * exists e. by destruct Hin.
  - eapply sublist_NoDup; [done | apply fmap_sublist, erase_timeout_sublist].
  - eapply sublist_NoDup; [done | apply fmap_sublist, erase_timeout_sublist].
  - intros e [Hin _]%erase_timeout_elem. auto.
Qed.

(** ** Arrivals *)

Section Run.
Context {mem : Memory} (P : FragmentKey_t -> Packet) (HP : forall k, payload_ok (P k)) {HJ : forall k, JoinsSlices (P k)} (timeout : Z).

Lemma collect_add l p o more : AddFragment p o more (collect l) = collect (l ++ [(p, o, more)]).
Proof. unfold collect. by rewrite foldl_app. Qed.

(** The fragments found or created for a key, with the state after [SetTimeout]. *)
Definition open_key (now : Z) (h : Ipv4Header) (iif : Z) (r : Reassembly) : Fragments * Z * list Effect * Reassembly :=
  match m_fragments r !! fragment_key h with
  | None => let '(iter, effects, r) := SetTimeout timeout now (fragment_key h) h iif r in (Fragments_new, iter, effects, r)
  | Some (fragments, iter) => (fragments, iter, [], r)
  end.

Lemma open_key_ok now h iif r fragments iter effects r1 f' :
  keys_ok r -> pieces_ok P r -> open_key now h iif r = (fragments, iter, effects, r1) ->
  keys_ok (mkReassembly (<[fragment_key h := (f', iter)]> (m_fragments r1)) (m_timeoutEventList r1) (next_id r1)) /\
  m_fragments r1 = m_fragments r /\
  exists l, fragments = collect l /\ Forall (fun '(p, o, more) => piece (P (fragment_key h)) p o more) l.
Proof.
  intros Hk Hp. unfold open_key. destruct (m_fragments r !! fragment_key h) as [[f i]|] eqn:E.
  - intros [= <- <- <- <-]. split_and!; [by eapply keys_ok_update | done |].
    destruct (Hp _ _ _ E) as (l & _ & -> & Hl). by exists l.
  - intros [= <- <- <- <-]. split_and!; [exact (keys_ok_add _ _ _ _ _ _ Hk E) | done |]. exists []. split; [done | by constructor].
Qed.

(** [ProcessFragment] of a piece: it returns, keeps the invariants, and a packet
    it returns is the payload. *)
Lemma ProcessFragment_ok now p h iif r :
  keys_ok r -> pieces_ok P r -> arrives P p h ->
  exists res effects r', ProcessFragment timeout now p h iif r = Some (res, effects, r') /\
    keys_ok r' /\ pieces_ok P r' /\ (forall q, res = Some q -> q = P (fragment_key h)) /\
    (forall e, e ∈ m_timeoutEventList r' -> e ∈ m_timeoutEventList r \/ te_time e = now + timeout) /\
    effects = (if (length (m_timeoutEventList r) =? 0)%nat then [ScheduleTimeout timeout] else []) /\
    (exists tl, m_timeoutEventList r' `sublist_of` m_timeoutEventList r ++ tl /\
       Forall (fun e => te_time e = now + timeout) tl).
Proof.
  intros Hk Hp Ha. unfold ProcessFragment. change (match m_fragments r !! fragment_key h with
    | Some (fragments, iter) => (fragments, iter, [], r)
    | None => let '(iter, effects, r) := SetTimeout timeout now (fragment_key h) h iif r in (Fragments_new, iter, effects, r)
    end) with (open_key now h iif r).
  assert (exists tl, m_timeoutEventList (open_key now h iif r).2 = m_timeoutEventList r ++ tl /\
    Forall (fun e => te_time e = now + timeout) tl /\
    (open_key now h iif r).1.2 = (if (length (m_timeoutEventList r) =? 0)%nat then [ScheduleTimeout timeout] else []))
    as (tl & Etl & Htl & Eeff).
  { unfold open_key. destruct (m_fragments r !! fragment_key h) as [[f i]|] eqn:Ef.
    - exists []. simpl. rewrite app_nil_r. split_and!; [done | by constructor |].
      destruct (proj1 (ko_find _ Hk _ _) (ex_intro _ f Ef)) as (e & He & _).
      destruct (m_timeoutEventList r); [by apply elem_of_nil in He | done].
    - eexists. simpl. split_and!; [reflexivity | by repeat constructor | done]. }
  destruct (open_key now h iif r) as [[[fragments iter] effects] r1] eqn:Eo. simpl in Etl, Eeff.
  set (f' := AddFragment p (GetFragmentOffset h) (negb (IsLastFragment h)) fragments).
  destruct (open_key_ok _ _ _ _ _ _ _ _ f' Hk Hp Eo) as (Hk1 & Ef & l & El & Hl).
  set (l' := l ++ [(p, GetFragmentOffset h, negb (IsLastFragment h))]).
  assert (f' = collect l' /\ Forall (fun '(p, o, more) => piece (P (fragment_key h)) p o more) l') as [Ef' Hl'].
  { unfold f', l'. rewrite El, collect_add. split; [done |]. apply Forall_app. split; [done |]. apply Forall_singleton. exact Ha. }
  assert (forall e, e ∈ m_timeoutEventList r1 -> e ∈ m_timeoutEventList r \/ te_time e = now + timeout) as Hmem.
  { intros e. rewrite Etl, elem_of_app. intros [?|Hin]; [by left |]. rewrite Forall_forall in Htl. right. auto. }
  destruct (IsEntire f') eqn:Ei.
  - rewrite Ef' in Ei |- *. destruct (IsEntire_inv _ (HP _) l' Hl' Ei) as [_ ->].
    eexists _, _, _. split; [reflexivity |]. split_and!.
    + pose proof (keys_ok_erase _ (fragment_key h) f' iter Hk1) as He. simpl in He.
      rewrite delete_insert_eq in He. apply He. by rewrite lookup_insert_eq.
    + rewrite Ef. intros k f i. simpl. intros Hd. apply lookup_delete_Some in Hd as [_ Hd]. eauto.
    + by intros q [= <-].
    + intros e [Hin _]%erase_timeout_elem. auto.
    + done.
    + exists tl. split; [| done]. rewrite <- Etl. apply erase_timeout_sublist.
  - eexists _, _, _. split; [reflexivity |]. split_and!; try done.
    + rewrite Ef. intros k f i. simpl. intros Hi. apply lookup_insert_Some in Hi as [[<- [= <- <-]]|[_ Hi]]; [| eauto].
      exists l'. split_and!; try done. unfold l'. by destruct l.
    + exists tl. by rewrite <- Etl.
Qed.

(** ** Timeouts *)

Lemma erase_head e l : NoDup (te_id <$> e :: l) -> erase_timeout (te_id e) (e :: l) = l.
Proof.
  intros [Hn _]%NoDup_cons. simpl. rewrite Z.eqb_refl. simpl. unfold erase_timeout.
  induction l as [|x l IH]; [done |]. simpl in *. apply not_elem_of_cons in Hn as [Hx Hn].
  rewrite (proj2 (Z.eqb_neq (te_id x) (te_id e))) by congruence. simpl. f_equal. auto.
Qed.

Lemma timeout_loop_ok fuel now r :
  keys_ok r -> pieces_ok P r -> (length (m_timeoutEventList r) <= fuel)%nat ->
  exists effects r' pre, timeout_loop fuel now r = Some (effects, r') /\ keys_ok r' /\ pieces_ok P r' /\
    m_timeoutEventList r = pre ++ m_timeoutEventList r' /\ Forall (fun e => te_time e = now) pre /\
    (forall e, head (m_timeoutEventList r') = Some e -> te_time e <> now) /\
    (forall d, ScheduleTimeout d ∉ effects).
Proof.
  revert r. induction fuel as [|fuel IH]; intros r Hk Hp Hf; simpl;
    destruct (m_timeoutEventList r) as [|e rest] eqn:El; simpl in Hf; try lia.
  1, 2: exists [], r, []; rewrite El; split_and!; try done; intros d ?%elem_of_nil; done.
  destruct (Z.eqb_spec (te_time e) now) as [Et|Et].
  2: { exists [], r, []. rewrite El. split_and!; try done; [by intros ? [= <-] | intros d ?%elem_of_nil; done]. }
  assert (e ∈ m_timeoutEventList r) as Hin by (rewrite El; by left).
  destruct (proj2 (ko_find _ Hk (te_key e) (te_id e))) as [f Hf2]; [by exists e |].
  destruct (Hp _ _ _ Hf2) as (l & Hne & -> & Hl). unfold HandleFragmentsTimeout. rewrite Hf2.
  destruct (GetPartialPacket_ok _ l (HP _) Hl Hne) as (k & -> & _). cbn [m_fragments m_timeoutEventList next_id].
  rewrite El. cbn [tail]. pose proof (keys_ok_erase _ _ _ _ Hk Hf2) as Hk'. pose proof (ko_id _ Hk) as Hid. rewrite El in Hk', Hid.
  rewrite erase_head in Hk' by done.
  destruct (IH _ Hk') as (effects & r' & pre & -> & A & B & C & D & F & G).
  { intros k' f' i' Hd. simpl in Hd. apply lookup_delete_Some in Hd as [_ Hd]. eauto. }
  { simpl. lia. }
  simpl in C. eexists _, r', (e :: pre). split; [reflexivity |]. split_and!; try done.
  - by rewrite C.
  - by constructor.
  - intros d. rewrite !elem_of_app. intros [[Hd|Hd]|Hd]; [| | by apply (G d)].
    + destruct (8 <? _); [by apply list_elem_of_singleton in Hd | by apply elem_of_nil in Hd].
    + by apply list_elem_of_singleton in Hd.
Qed.

(** ** The timer *)

Definition by_time (a b : TimeoutEntry) : Prop := te_time a <= te_time b.

(** The times at which the events scheduled by [effects] fire. *)
Definition scheduled (now : Z) (effects : list Effect) : list Z :=
  omap (fun e => match e with ScheduleTimeout d => Some (now + d) | _ => None end) effects.

(** The states reached when pieces of payloads arrive at any time and the
    events scheduled for [HandleTimeout], [pending], fire when they are due;
    [out] lists what was delivered. *)
Inductive rs_reach : Z -> list Z -> Reassembly -> list (Packet * Ipv4Header) -> Prop :=
  | rs_start now : rs_reach now [] Reassembly_new []
  | rs_wait now now' pending r out :
      rs_reach now pending r out -> now <= now' -> (forall t, t ∈ pending -> now' <= t) -> rs_reach now' pending r out
  | rs_arrive now pending r out p h iif res effects r' :
      rs_reach now pending r out -> arrives P p h ->
      LocalDeliver timeout now p h iif r = Some (res, effects, r') ->
      rs_reach now (pending ++ scheduled now effects) r' (out ++ option_list res)
  | rs_fire now p1 p2 r out effects r' :
      rs_reach now (p1 ++ now :: p2) r out -> HandleTimeout now r = Some (effects, r') ->
      rs_reach now (p1 ++ p2 ++ scheduled now effects) r' out.

Record rs_inv (now : Z) (pending : list Z) (r : Reassembly) (out : list (Packet * Ipv4Header)) : Prop := mkRsInv {
  rs_keys : keys_ok r;
  rs_pieces : pieces_ok P r;
  rs_sorted : StronglySorted by_time (m_timeoutEventList r);
  rs_times : forall e, e ∈ m_timeoutEventList r -> now <= te_time e <= now + timeout;
  rs_future : forall t, t ∈ pending -> now <= t;
  rs_timer : m_timeoutEventList r <> [] ->
    exists t, t ∈ pending /\ forall e, e ∈ m_timeoutEventList r -> t <= te_time e;
  rs_out : forall p h, (p, h) ∈ out -> p = P (fragment_key h)
}.

Lemma piece_whole Q p : piece Q p 0 false -> p = Q.
Proof.
  intros [Hb Hr Hs Hm]. symmetry in Hm. bool_prop. rewrite Hb, Hm. unfold slice.
  rewrite Z.sub_0_r, zlen_length, drop_0. by apply take_ge.
Qed.

Lemma sublist_subset {A} (l1 l2 : list A) x : l1 `sublist_of` l2 -> x ∈ l1 -> x ∈ l2.
Proof.
  induction 1 as [|y l1 l2 Hs IH|y l1 l2 Hs IH]; [done | |]; rewrite ?elem_of_cons; [| auto].
  intros [->|?]; [by left | right; auto].
Qed.

Lemma sorted_sublist l1 l2 : l1 `sublist_of` l2 -> StronglySorted by_time l2 -> StronglySorted by_time l1.
Proof.
  induction 1 as [|x l1 l2 Hs IH|x l1 l2 Hs IH]; intros H; [done | |]; apply StronglySorted_inv in H as [H Hx]; [| auto].
  constructor; [auto |]. rewrite Forall_forall in Hx |- *. intros y Hy. apply Hx. by eapply sublist_subset.
Qed.

Lemma scheduled_none now effects : (forall d, ScheduleTimeout d ∉ effects) -> scheduled now effects = [].
Proof.
  intros Hn. induction effects as [|e l IH]; [done |].
  assert (scheduled now l = []) as El by (apply IH; intros d Hd; apply (Hn d); by right).
  destruct e; [destruct (Hn delay); by left | exact El | exact El].
Qed.

(** [LocalDeliver] returns and keeps the invariant. *)
Lemma LocalDeliver_inv now pending r out p h iif :
  0 <= timeout -> rs_inv now pending r out -> arrives P p h ->
  exists res effects r', LocalDeliver timeout now p h iif r = Some (res, effects, r') /\
    rs_inv now (pending ++ scheduled now effects) r' (out ++ option_list res).
Proof.
  intros HT [I1 I2 I3 I4 I5 I6 I7] Ha. unfold LocalDeliver.
  destruct (negb (IsLastFragment h) || negb (GetFragmentOffset h =? 0)) eqn:Ef.
  2: { apply orb_false_iff in Ef as [E1%negb_false_iff E2%negb_false_iff]. apply Z.eqb_eq in E2.
       eexists _, _, _. split; [reflexivity |]. simpl. rewrite app_nil_r. split; try done.
       intros q hq [?|[= -> ->]%list_elem_of_singleton]%elem_of_app; [auto |].
       unfold arrives in Ha. rewrite E1, E2 in Ha. by apply piece_whole. }
  destruct (ProcessFragment_ok now p h iif r I1 I2 Ha) as (res & effects & r' & -> & K & Q & Hq & Hm & He & tl & Hsub & Htl).
  assert (rs_inv now (pending ++ scheduled now effects) r' out) as Hinv.
  { rewrite Forall_forall in Htl. split; try done.
    - eapply sorted_sublist; [done |]. apply StronglySorted_app_intro; [done | |].
      + clear Hsub. induction tl as [|x tl IHt]; constructor.
        * apply IHt. intros; apply Htl; by right.
        * apply Forall_forall. intros y Hy. unfold by_time. rewrite !Htl by (by left || by right). done.
      + intros x y Hx Hy. unfold by_time. rewrite (Htl _ Hy). apply I4 in Hx. lia.
    - intros e Hin. destruct (Hm _ Hin) as [?| ->]; [auto | lia].
    - intros t [?|Ht]%elem_of_app; [auto |]. rewrite He in Ht. destruct (_ =? 0)%nat; simpl in Ht.
      + apply list_elem_of_singleton in Ht as ->. lia.
      + by apply elem_of_nil in Ht.
    - intros Hne. destruct (Nat.eqb_spec (length (m_timeoutEventList r)) 0) as [E0|E0].
      + exists (now + timeout). rewrite He. split; [apply elem_of_app; right; by left |].
        intros e Hin. apply length_zero_iff_nil in E0. destruct (Hm _ Hin) as [Hr| ->]; [| done].
        rewrite E0 in Hr. by apply elem_of_nil in Hr.
      + destruct I6 as (t & Ht & Hle); [by intros E; rewrite E in E0 |]. exists t. split; [apply elem_of_app; by left |].
        intros e Hin. destruct (Hm _ Hin) as [?| ->]; [auto |].
        destruct (m_timeoutEventList r) as [|e0 l0]; [done |].
        pose proof (Hle e0 ltac:(by left)). pose proof (I4 e0 ltac:(by left)). lia. }
  destruct res as [q|].
  - eexists _, _, _. split; [reflexivity |]. destruct Hinv as [J1 J2 J3 J4 J5 J6 J7]. split; try done.
    intros q' h' [?|[= -> ->]%list_elem_of_singleton]%elem_of_app; [auto |]. exact (Hq q eq_refl).
  - eexists _, _, _. split; [reflexivity |]. simpl. by rewrite app_nil_r.
Qed.

(** [HandleTimeout] at a due time returns, keeps the invariant and leaves no
    reassembly whose deadline has passed. *)
Lemma HandleTimeout_inv now p1 p2 r out :
  rs_inv now (p1 ++ now :: p2) r out ->
  exists effects r', HandleTimeout now r = Some (effects, r') /\
    rs_inv now (p1 ++ p2 ++ scheduled now effects) r' out /\
    (forall e, e ∈ m_timeoutEventList r' -> now < te_time e) /\
    (forall e, e ∈ m_timeoutEventList r -> now < te_time e -> e ∈ m_timeoutEventList r').
Proof.
  intros [I1 I2 I3 I4 I5 I6 I7]. unfold HandleTimeout.
  destruct (timeout_loop_ok (length (m_timeoutEventList r)) now r I1 I2 ltac:(done))
    as (effects & r' & pre & -> & K & Q & El & Hpre & Hhd & Hns).
  rewrite El in I3. apply StronglySorted_app_inv in I3 as (_ & Hs & _).
  assert (forall e, e ∈ m_timeoutEventList r' -> now <= te_time e <= now + timeout) as Ht.
  { intros e He. apply I4. rewrite El. apply elem_of_app. by right. }
  assert (forall e, e ∈ m_timeoutEventList r' -> now < te_time e) as Hlt.
  { intros e He. destruct (m_timeoutEventList r') as [|e0 l0]; [by apply elem_of_nil in He |].
    pose proof (Hhd e0 eq_refl). pose proof (Ht e0 ltac:(by left)).
    apply elem_of_cons in He as [->|He]; [lia |].
    apply StronglySorted_inv in Hs as [_ Hs]. rewrite Forall_forall in Hs. specialize (Hs _ He). unfold by_time in Hs. lia. }
  assert (forall e, e ∈ m_timeoutEventList r -> now < te_time e -> e ∈ m_timeoutEventList r') as Hkeep.
  { intros e. rewrite El, elem_of_app. intros [He|?] ?; [| done]. rewrite Forall_forall in Hpre. specialize (Hpre _ He). lia. }
  assert (forall t, t ∈ p1 ++ p2 -> now <= t) as Hp by (intros t; rewrite elem_of_app; intros; apply I5; set_solver).
  destruct (m_timeoutEventList r') as [|e0 l0] eqn:E0.
  - eexists _, _. split; [reflexivity |]. rewrite scheduled_none, app_nil_r by done. rewrite E0.
    split_and!; try done. split; try done; rewrite ?E0; try done.
  - eexists _, _. split; [reflexivity |]. rewrite E0. split_and!; try done. unfold scheduled. rewrite omap_app.
    fold (scheduled now effects). rewrite scheduled_none by done. simpl.
    replace (now + (te_time e0 - now)) with (te_time e0) by lia. rewrite (app_assoc p1). split; rewrite ?E0; try done.
    + intros t [?|Hin]%elem_of_app; [auto |]. apply list_elem_of_singleton in Hin as ->. by apply Ht; left.
    + intros _. exists (te_time e0). split; [apply elem_of_app; right; by left |].
      intros e [->|He]%elem_of_cons; [lia |].
      apply StronglySorted_inv in Hs as [_ Hs]. rewrite Forall_forall in Hs. by apply Hs.
Qed.

Lemma rs_reach_inv now pending r out : 0 <= timeout -> rs_reach now pending r out -> rs_inv now pending r out.
Proof.
  intros HT H. induction H as [now|now now' pending r out H IH Hle Ht|now pending r out p h iif res effects r' H IH Ha E|
    now p1 p2 r out effects r' H IH E].
  - split; simpl; [apply keys_ok_new | by intros k f i; unfold Reassembly_new; cbn [m_fragments]; rewrite lookup_empty | constructor | set_solver | set_solver | done | set_solver].
  - destruct IH as [I1 I2 I3 I4 I5 I6 I7]. split; try done. intros e He. split; [| apply I4 in He; lia].
    destruct I6 as (t & Hin & Hte); [by intros E0; rewrite E0 in He; apply elem_of_nil in He |].
    specialize (Ht _ Hin). specialize (Hte _ He). lia.
  - destruct (LocalDeliver_inv _ _ _ _ _ _ iif HT IH Ha) as (? & ? & ? & E' & Hi). rewrite E in E'. by injection E' as <- <- <-.
  - destruct (HandleTimeout_inv _ _ _ _ _ IH) as (? & ? & E' & Hi & _). rewrite E in E'. by injection E' as <- <-.
Qed.

(** ** Correctness *)

(** Reassembly is correct under interleaving: when fragments of any number
    of packets arrive interleaved, reordered, duplicated and cut by several
    routers, and reassemblies time out in between, every packet delivered is
    exactly the payload its key stands for, and no handler runs into an abort. *)
Theorem reassembly_delivers_payload now pending r out :
  0 <= timeout -> rs_reach now pending r out ->
  (forall p h, (p, h) ∈ out -> p = P (fragment_key h)) /\
  (forall p h iif, arrives P p h -> is_Some (LocalDeliver timeout now p h iif r)) /\
  (now ∈ pending -> is_Some (HandleTimeout now r)).
Proof.
  intros HT Hr. pose proof (rs_reach_inv _ _ _ _ HT Hr) as Hi. split_and!; [apply (rs_out _ _ _ _ Hi) | |].
  - intros p h iif Ha. destruct (LocalDeliver_inv _ _ _ _ _ _ iif HT Hi Ha) as (? & ? & ? & -> & _). done.
  - intros Hin. apply list_elem_of_split in Hin as (p1 & p2 & ->).
    destruct (HandleTimeout_inv _ _ _ _ _ Hi) as (? & ? & -> & _). done.
Qed.

(** No reassembly outlives its deadline: every key with fragments has one
    deadline, at most the timeout ahead and never in the past, an event for
    [HandleTimeout] is pending no later than the earliest deadline, and the
    event drops exactly the reassemblies whose deadline is reached. *)
Theorem reassembly_deadlines now pending r out :
  0 <= timeout -> rs_reach now pending r out ->
  (forall k, is_Some (m_fragments r !! k) <-> exists e, e ∈ m_timeoutEventList r /\ te_key e = k) /\
  (forall e, e ∈ m_timeoutEventList r -> now <= te_time e <= now + timeout) /\
  (m_timeoutEventList r <> [] -> exists t, t ∈ pending /\ forall e, e ∈ m_timeoutEventList r -> t <= te_time e) /\
  (now ∈ pending -> exists effects r', HandleTimeout now r = Some (effects, r') /\
     forall e, e ∈ m_timeoutEventList r' <-> e ∈ m_timeoutEventList r /\ now < te_time e).
Proof.
  intros HT Hr. pose proof (rs_reach_inv _ _ _ _ HT Hr) as Hi. pose proof Hi as [[I1 _ _ _] _ _ I4 _ I6 _].
  split_and!; try done.
  - intros k. split.
    + intros [[f i] Hk]. destruct (proj1 (I1 k i)) as (e & ? & ? & _); [by exists f | by exists e].
    + intros (e & He & Hk). destruct (proj2 (I1 k (te_id e))) as [f ->]; [by exists e | done].
  - intros Hin. apply list_elem_of_split in Hin as (p1 & p2 & ->).
    destruct (HandleTimeout_inv _ _ _ _ _ Hi) as (effects & r' & E & Hi' & Hlt & Hkeep). exists effects, r'. split; [done |].
    intros e. split; [| by intros []; apply Hkeep]. intros He. split; [| by apply Hlt].
    destruct (timeout_loop_ok (length (m_timeoutEventList r)) now r (rs_keys _ _ _ _ Hi) (rs_pieces _ _ _ _ Hi) ltac:(done))
      as (eff2 & r2 & pre & E2 & _ & _ & El & _). unfold HandleTimeout in E. rewrite E2 in E.
    rewrite El. apply elem_of_app. right. destruct (m_timeoutEventList r2) eqn:E3; injection E as _ <-; by rewrite E3 in He.
Qed.

End Run.

(** ** Two interleaved packets *)

#[local] Existing Instances plain_memory plain_slices.

(** Packets 1 and 2 of one flow carry the bytes 0..31 and 32..63. *)
Definition demo_flow (id : Z) : Ipv4Header := SetIdentification id demo_header.
Definition demo_P (k : FragmentKey_t) : Packet := if k.2 =? 1 * 65536 + 17 then seqZ 0 32 else seqZ 32 32.
Definition demo_frag (id o n : Z) : Packet * Ipv4Header :=
  let P := demo_P (fragment_key (demo_flow id)) in
  let h := if o + n =? 32 then SetLastFragment (demo_flow id) else SetMoreFragments (demo_flow id) in
  (slice o (o + n) P, default h (SetFragmentOffset o h)).
Definition demo_deliver (x : Packet * Ipv4Header) (r : Reassembly) : Reassembly :=
  match LocalDeliver 30 5 x.1 x.2 0 r with Some (_, _, r') => r' | None => r end.
(** The second half of packet 1 and the first half of packet 2 have arrived. *)
Definition demo_waiting : Reassembly := demo_deliver (demo_frag 2 0 16) (demo_deliver (demo_frag 1 16 16) Reassembly_new).

Lemma demo_payload_ok k : payload_ok (demo_P k).
Proof. unfold demo_P. destruct (_ =? _); vm_compute; congruence. Qed.

Lemma demo_arrives id o : id = 1 \/ id = 2 -> o = 0 \/ o = 16 ->
  arrives demo_P (demo_frag id o 16).1 (demo_frag id o 16).2.
Proof. intros [-> | ->] [-> | ->]; (split; [vm_compute; reflexivity | vm_compute; split; congruence | reflexivity | reflexivity]). Qed.

Lemma demo_reach : rs_reach demo_P 30 5 [35] demo_waiting [].
Proof.
  apply (rs_arrive demo_P 30 5 [35] (demo_deliver (demo_frag 1 16 16) Reassembly_new) [] (demo_frag 2 0 16).1 (demo_frag 2 0 16).2 0
    None [] demo_waiting); [| apply demo_arrives; auto | vm_compute; reflexivity].
  apply (rs_arrive demo_P 30 5 [] Reassembly_new [] (demo_frag 1 16 16).1 (demo_frag 1 16 16).2 0
    None [ScheduleTimeout 30]); [| apply demo_arrives; auto | vm_compute; reflexivity].
  apply rs_start.
Qed.

Lemma reassembly_delivers_payload_witness :
  is_Some (LocalDeliver 30 5 (demo_frag 1 0 16).1 (demo_frag 1 0 16).2 0 demo_waiting).
Proof.
  destruct (reassembly_delivers_payload demo_P demo_payload_ok 30 5 [35] demo_waiting [] ltac:(lia) demo_reach) as (_ & H & _).
  apply H, demo_arrives; auto.
Defined.

Lemma reassembly_deadlines_witness :
  exists t, t ∈ [35] /\ forall e, e ∈ m_timeoutEventList demo_waiting -> t <= te_time e.
Proof.
  destruct (reassembly_deadlines demo_P demo_payload_ok 30 5 [35] demo_waiting [] ltac:(lia) demo_reach) as (_ & _ & H & _).
  apply H. vm_compute. discriminate.
Defined.

End Ipv4Reassembly.
