(* ===== verification/Ipv4L3.v ===== *)
(** * The IPv4 protocol: sending and forwarding (src/internet/model/ipv4-l3-protocol.cc)

    The node's interfaces, transport protocols and identification counters, the
    routing protocol behind the class [RoutingProtocol], and the handlers that
    send, fragment and forward packets. Handlers return the calls they make to
    interfaces, traces and ICMP. Duplicate packet detection is off, as by
    default. *)

From S2P Require Import Prelude Buffer BufferInv PacketBytes Ipv4Address Ipv4Interface Ipv4Header Ipv4StaticRouting.
From S2P Require Import Ipv4Fragment Ipv4Reassembly.
Import Buffer BufferInv PacketBytes Ipv4Mask Ipv4Address Ipv4InterfaceAddress Interfaces Ipv4StaticRouting
  Ipv4Header.Ipv4Header Ipv4Fragment.

Module Ipv4L3.

(** ** Data *)

Inductive DropReason :=
  DROP_TTL_EXPIRED | DROP_NO_ROUTE | DROP_BAD_CHECKSUM | DROP_INTERFACE_DOWN | DROP_ROUTE_ERROR
| DROP_FRAGMENT_TIMEOUT | DROP_DUPLICATE.

(** The socket tags of a packet that the handlers read or write. *)
Record Tags := mkTags {
  ttl_tag : option Z;
  tos_tag : option Z;
  priority_tag : option Z
}.

Inductive L3Call :=
  | InterfaceSend (interface : Z) (p : Packet) (t : Tags) (h : Ipv4Header) (target : Z)
  | DropTrace (h : Ipv4Header) (p : Packet) (reason : DropReason) (interface : Z)
  | IcmpTimeExceeded (h : Ipv4Header) (p : Packet).

Section Protocol.
Context {R : Type} `{RoutingProtocol R}.
(** [Node::ChecksumEnabled] *)
Context (checksum : bool).

Record L3 := mkL3 {
  l3_ifs : Interfaces;
  m_routingProtocol : option R;
  m_protocols : gmap (Z * Z) Z;
  m_defaultTtl : Z;
  m_identification : gmap (Z * Z) Z
}.
Definition set_ifs (i : Interfaces) (s : L3) : L3 :=
  mkL3 i (m_routingProtocol s) (m_protocols s) (m_defaultTtl s) (m_identification s).
Definition set_routing (r : option R) (s : L3) : L3 :=
  mkL3 (l3_ifs s) r (m_protocols s) (m_defaultTtl s) (m_identification s).
Definition set_ident (m : gmap (Z * Z) Z) (s : L3) : L3 :=
  mkL3 (l3_ifs s) (m_routingProtocol s) (m_protocols s) (m_defaultTtl s) m.

(** ** Transport protocols

    A protocol is known by an identity and its [GetProtocolNumber]. *)

Definition set_protocols (m : gmap (Z * Z) Z) (s : L3) : L3 :=
  mkL3 (l3_ifs s) (m_routingProtocol s) m (m_defaultTtl s) (m_identification s).
Definition Insert (protocol number : Z) (s : L3) : L3 :=
  set_protocols (<[(number, -1) := protocol]> (m_protocols s)) s.
Definition Insert_at (protocol number interfaceIndex : Z) (s : L3) : L3 :=
  set_protocols (<[(number, i32 interfaceIndex) := protocol]> (m_protocols s)) s.
Definition Remove (number : Z) (s : L3) : L3 := set_protocols (delete (number, -1) (m_protocols s)) s.
Definition Remove_at (number interfaceIndex : Z) (s : L3) : L3 :=
  set_protocols (delete (number, i32 interfaceIndex) (m_protocols s)) s.
(** [None] is the null pointer. *)
Definition GetProtocol_at (protocolNumber interfaceIndex : Z) (s : L3) : option Z :=
  match (if 0 <=? interfaceIndex then m_protocols s !! (protocolNumber, interfaceIndex) else None) with
  | Some p => Some p
  | None => m_protocols s !! (protocolNumber, -1)
  end.
Definition GetProtocol (protocolNumber : Z) (s : L3) : option Z := GetProtocol_at protocolNumber (-1) s.
Definition SetDefaultTtl (ttl : Z) (s : L3) : L3 :=
  mkL3 (l3_ifs s) (m_routingProtocol s) (m_protocols s) ttl (m_identification s).

(** ** Addresses and interface state *)

(** Notification of the routing protocol, if there is one. *)
Definition notify (f : R -> option R) (s : L3) : option L3 :=
  match m_routingProtocol s with
  | None => Some s
  | Some r => let* r' := f r in Some (set_routing (Some r') s)
  end.

Definition L3_AddAddress (i : Z) (address : Ipv4InterfaceAddress) (s : L3) : option (bool * L3) :=
  let* interface := GetInterface i (l3_ifs s) in
  let* ifs := update (fun x => (AddAddress address x).2) i (l3_ifs s) in
  let* s := notify (notify_add_address i address ifs) (set_ifs ifs s) in
  Some ((AddAddress address interface).1, s).
Definition RemoveAddress_at (i addressIndex : Z) (s : L3) : option (bool * L3) :=
  let* interface := GetInterface i (l3_ifs s) in
  let* (address, interface') := RemoveAddress_index addressIndex interface in
  let* ifs := update (fun _ => interface') i (l3_ifs s) in
  if bool_decide (address <> InterfaceAddress_default) then
    let* s := notify (notify_remove_address i address ifs) (set_ifs ifs s) in Some (true, s)
  else Some (false, set_ifs ifs s).
Definition L3_RemoveAddress (i address : Z) (s : L3) : option (bool * L3) :=
  if address =? Ipv4Address.GetLoopback then Some (false, s)
  else
    let* interface := GetInterface i (l3_ifs s) in
    let '(ifAddr, interface') := RemoveAddress address interface in
    let* ifs := update (fun _ => interface') i (l3_ifs s) in
    if bool_decide (ifAddr <> InterfaceAddress_default) then
      let* s := notify (notify_remove_address i ifAddr ifs) (set_ifs ifs s) in Some (true, s)
    else Some (false, set_ifs ifs s).

(** An interface whose device has an MTU under 68 bytes stays down. *)
Definition SetUp (i : Z) (s : L3) : option L3 :=
  let* interface := GetInterface i (l3_ifs s) in
  if 68 <=? dev_mtu (m_device interface) then
    let* ifs := update Ipv4Interface.SetUp i (l3_ifs s) in
    notify (notify_interface_up i ifs) (set_ifs ifs s)
  else Some s.
Definition SetDown (ifaceIndex : Z) (s : L3) : option L3 :=
  let* ifs := update Ipv4Interface.SetDown ifaceIndex (l3_ifs s) in
  notify (notify_interface_down ifaceIndex ifs) (set_ifs ifs s).

(** ** Headers *)

Definition ident_key (source destination protocol : Z) : Z * Z :=
  (Z.lor destination (u64 (Z.shiftl source 32)), protocol).
(** [m_identification[key]], zero for a new key. *)
Definition ident (key : Z * Z) (s : L3) : Z := default 0 (m_identification s !! key).
Definition DecreaseIdentification (source destination protocol : Z) (s : L3) : L3 :=
  let key := ident_key source destination protocol in
  set_ident (<[key := u16 (ident key s - 1)]> (m_identification s)) s.

Definition BuildHeader (source destination protocol payloadSize ttl tos : Z) (mayFragment : bool) (s : L3)
    : Ipv4Header * L3 :=
  let ipHeader := SetTos tos (SetTtl ttl (SetPayloadSize payloadSize (SetProtocol protocol
                    (SetDestination destination (SetSource source Ipv4Header_new))))) in
  let key := ident_key source destination protocol in
  let ipHeader := if mayFragment then SetMayFragment ipHeader else SetDontFragment ipHeader in
  let ipHeader := SetIdentification (ident key s) ipHeader in
  let s := set_ident (<[key := u16 (ident key s + 1)]> (m_identification s)) s in
  (if checksum then EnableChecksum ipHeader else ipHeader, s).

(** ** Sending *)

Definition SendRealOut (route : option Ipv4Route) (packet : Packet) (tags : Tags) (ipHeader : Ipv4Header) (s : L3)
    : option (list L3Call) :=
  match route with
  | None => Some [DropTrace ipHeader packet DROP_NO_ROUTE 0]
  | Some route =>
      let interface := GetInterfaceForDevice (rt_outputDevice route) (l3_ifs s) in
      assert* 0 <=? interface in
      let* outInterface := GetInterface interface (l3_ifs s) in
      let target := if IsAny (rt_gateway route) then GetDestination ipHeader else rt_gateway route in
      if Ipv4Interface.IsUp outInterface then
        let mtu := dev_mtu (m_device outInterface) in
        if mtu <? u32 (GetSize packet + GetSerializedSize ipHeader) then
          let* listFragments := DoFragmentation checksum packet ipHeader mtu in
          Some ((fun x => InterfaceSend interface x.1 tags x.2 target) <$> listFragments)
        else Some [InterfaceSend interface packet tags ipHeader target]
      else Some []
  end.

Definition SendWithHeader (packet : Packet) (tags : Tags) (ipHeader : Ipv4Header) (route : option Ipv4Route) (s : L3)
    : option (list L3Call) :=
  SendRealOut route packet tags (if checksum then EnableChecksum ipHeader else ipHeader) s.

(** The header built at the top of [Send]; the TTL and TOS tags are removed
    from the packet. *)
Definition send_header (packet : Packet) (tags : Tags) (source destination protocol : Z) (s : L3) : Ipv4Header * L3 :=
  BuildHeader source destination protocol (u16 (GetSize packet)) (default (m_defaultTtl s) (ttl_tag tags))
    (default 0 (tos_tag tags)) true s.

(** [Send] with a route (case 1). *)
Definition Send_route (packet : Packet) (tags : Tags) (source destination protocol : Z) (route : Ipv4Route) (s : L3)
    : option (list L3Call * L3) :=
  let '(ipHeader, s) := send_header packet tags source destination protocol s in
  if negb (gw_initialized route) then None
  else
    let* calls := SendRealOut (Some route) packet (mkTags None None (priority_tag tags)) ipHeader s in
    Some (calls, s).

(** The route made up for a broadcast on an interface. *)
Definition proxy_route (destination source : Z) (i : Ipv4Interface) : Ipv4Route :=
  mkRoute destination source GetAny true (dev_id (m_device i)).

(** The loop over the interfaces for a limited broadcast (case 2). All rounds
    send the same packet object, from which the first one removes the TTL and TOS
    tags. *)
Fixpoint broadcast_loop (packet : Packet) (tags : Tags) (source destination protocol : Z) (l : list Ipv4Interface)
    (s : L3) : option (list L3Call * L3) :=
  match l with
  | [] => Some ([], s)
  | outInterface :: rest =>
      let sendIt := IsAny source || existsb (fun a => m_local a =? source) (m_ifaddrs outInterface) in
      let* (calls, s) :=
        if sendIt then
          Send_route packet tags source destination protocol (proxy_route destination source outInterface)
            (DecreaseIdentification source destination protocol s)
        else Some ([], s) in
      let tags := if sendIt then mkTags None None (priority_tag tags) else tags in
      let* (calls', s) := broadcast_loop packet tags source destination protocol rest s in
      Some (calls ++ calls', s)
  end.

(** The interface whose subnet-directed broadcast the destination is (case 3). *)
Fixpoint find_directed (destination : Z) (ifs : Interfaces) (l : list Ipv4Interface) : option (option Ipv4Interface) :=
  match l with
  | [] => Some None
  | outInterface :: rest =>
      let* interface := GetInterface (GetInterfaceForDevice (dev_id (m_device outInterface)) ifs) ifs in
      if existsb (fun a => IsSubnetDirectedBroadcast destination (m_mask a) &&
            (CombineMask destination (m_mask a) =? CombineMask (m_local a) (m_mask a))) (m_ifaddrs interface)
      then Some (Some outInterface)
      else find_directed destination ifs rest
  end.

Definition Send (packet : Packet) (tags : Tags) (source destination protocol : Z) (route : option Ipv4Route) (s : L3)
    : option (list L3Call * L3) :=
  match route with
  | Some route => Send_route packet tags source destination protocol route s
  | None =>
      let '(ipHeader, s) := send_header packet tags source destination protocol s in
      if IsBroadcast destination || IsLocalMulticast destination then
        broadcast_loop packet tags source destination protocol (m_interfaces (l3_ifs s)) s
      else
        let* directed := find_directed destination (l3_ifs s) (m_interfaces (l3_ifs s)) in
        match directed with
        | Some outInterface =>
            Send_route packet tags source destination protocol (proxy_route destination source outInterface)
              (DecreaseIdentification source destination protocol s)
        | None =>
            let* newRoute :=
              match m_routingProtocol s with
              | Some r => let* (rt, _) := route_output ipHeader None (l3_ifs s) r in Some rt
              | None => Some None
              end in
            match newRoute with
            | Some rt =>
                Send_route packet tags source destination protocol rt
                  (DecreaseIdentification source destination protocol s)
            | None =>
                Some ([DropTrace ipHeader packet DROP_NO_ROUTE 0], DecreaseIdentification source destination protocol s)
            end
        end
  end.

(** ** Forwarding *)

Definition IpTos2Priority (ipTos : Z) : Z :=
  let c := Z.shiftr (Z.land ipTos 0x1e) 1 in
  if c <? 4 then 0 else if c <? 8 then 2 else if c <? 12 then 6 else 4.

Definition ICMP_PROTOCOL : Z := 1.
Definition IpForward (rtentry : Ipv4Route) (p : Packet) (tags : Tags) (header : Ipv4Header) (s : L3)
    : option (list L3Call) :=
  let interface := GetInterfaceForDevice (rt_outputDevice rtentry) (l3_ifs s) in
  let ipHeader := SetTtl (u8 (GetTtl header - 1)) header in
  if GetTtl ipHeader =? 0 then
    let* icmp :=
      if negb (IsBroadcast (GetDestination ipHeader)) && negb (IsMulticast (GetDestination ipHeader)) then
        let* _ := GetProtocol ICMP_PROTOCOL s in Some [IcmpTimeExceeded ipHeader p]
      else Some [] in
    Some (icmp ++ [DropTrace header p DROP_TTL_EXPIRED interface])
  else
    let priority := IpTos2Priority (GetTos ipHeader) in
    let tags := mkTags (ttl_tag tags) (tos_tag tags) (if priority =? 0 then None else Some priority) in
    SendRealOut (Some rtentry) p tags ipHeader s.

(** The loop over the output interfaces; an expired TTL ends it. *)
Fixpoint multicast_loop (outputs : list (Z * Z)) (p : Packet) (tags : Tags) (header : Ipv4Header) (s : L3)
    : option (list L3Call) :=
  match outputs with
  | [] => Some []
  | (interface, _) :: rest =>
      let ipHeader := SetTtl (u8 (GetTtl header - 1)) header in
      if GetTtl ipHeader =? 0 then Some [DropTrace header p DROP_TTL_EXPIRED interface]
      else
        let* device := GetNetDevice interface (l3_ifs s) in
        let rtentry := mkRoute (GetDestination ipHeader) (GetSource ipHeader) GetAny true (dev_id device) in
        let* calls := SendRealOut (Some rtentry) p tags ipHeader s in
        let* calls' := multicast_loop rest p tags header s in
        Some (calls ++ calls')
  end.
Definition IpMulticastForward (mrtentry : Ipv4MulticastRoute) (p : Packet) (tags : Tags) (header : Ipv4Header) (s : L3)
    : option (list L3Call) :=
  multicast_loop (m_ttls mrtentry) p tags header s.

Definition RouteInputError (p : Packet) (ipHeader : Ipv4Header) : list L3Call :=
  [DropTrace ipHeader p DROP_ROUTE_ERROR 0].

End Protocol.

Arguments L3 R : clear implicits.

End Ipv4L3.
