(* ===== verification/Ipv4L3Props.v ===== *)
(** * Correctness of IPv4 sending and forwarding

    Identification numbers, the TTL, the MTU, the absence of aborts, and the
    composition of sending on one node with reassembly on another. *)

From S2P Require Import Prelude Buffer BufferInv PacketBytes Ipv4Address Ipv4Interface Ipv4Header Ipv4StaticRouting.
From S2P Require Import Ipv4Fragment Ipv4Reassembly Ipv4L3.
Import Buffer BufferInv PacketBytes Ipv4Address Interfaces Ipv4StaticRouting Ipv4Header.Ipv4Header Ipv4Fragment Ipv4L3.

Module Ipv4L3Props.

Section Props.
Context {R : Type} `{HR : RoutingProtocol R} {HL : RoutingLaws R} (checksum : bool).

(** ** The header of a call *)

Definition call_header (c : L3Call) : Ipv4Header :=
  match c with InterfaceSend _ _ _ h _ => h | DropTrace h _ _ _ => h | IcmpTimeExceeded h _ => h end.

Lemma same_flow_refl h : same_flow h h.
Proof. by split_and!. Qed.

Lemma fragment_header_flow b last offset size h hq :
  fragment_header b last offset size h = Some hq -> same_flow h hq.
Proof.
  unfold fragment_header, SetFragmentOffset. intros E. inv_opt. by destruct last, b.
Qed.

Lemma fragment_loop_flow fuel b p h fs offset l :
  fragment_loop fuel b p h fs offset = Some l -> Forall (fun x => same_flow h x.2) l.
Proof.
  revert offset l. induction fuel as [|fuel IH]; intros offset l; [done |]. rewrite fragment_loop_unfold. cbv zeta.
  intros E. inv_opt. constructor; [by eapply fragment_header_flow |].
  destruct (_ <? _); [by eapply IH | by inv_opt].
Qed.

(** Whatever [SendRealOut] hands on has the flow of the packet. *)
Lemma SendRealOut_flow route p tags h (s : L3 R) calls :
  SendRealOut checksum route p tags h s = Some calls -> Forall (fun c => same_flow h (call_header c)) calls.
Proof.
  unfold SendRealOut. destruct route as [route|]; [| intros [= <-]; repeat constructor].
  intros E. inv_opt. destruct (Ipv4Interface.IsUp _); [| inv_opt; constructor].
  destruct (_ <? _); [| inv_opt; repeat constructor]. inv_opt. apply Forall_fmap. unfold DoFragmentation in *. inv_opt.
  by eapply fragment_loop_flow.
Qed.

(** ** Identification *)

Lemma send_header_ok p tags src dst proto (s : L3 R) h s1 :
  send_header checksum p tags src dst proto s = (h, s1) ->
  let k := ident_key src dst proto in
  Ipv4Header.m_identification h = ident k s /\ ident k s1 = u16 (ident k s + 1) /\
  (forall k', k' <> k -> ident k' s1 = ident k' s) /\
  l3_ifs s1 = l3_ifs s /\ m_routingProtocol s1 = m_routingProtocol s /\
  m_headerSize h = 20 /\ m_fragmentOffset h = 0 /\ m_flags h = 0.
Proof.
  intros E. unfold send_header, BuildHeader in E. injection E as <- <-. simpl. unfold ident. simpl. split_and!.
  - by destruct checksum.
  - by rewrite lookup_insert_eq.
  - intros k' Hk. by rewrite lookup_insert_ne.
  - done.
  - done.
  - by destruct checksum.
  - by destruct checksum.
  - by destruct checksum.
Qed.

Lemma decrease_ok src dst proto (s : L3 R) :
  let s1 := DecreaseIdentification src dst proto s in let k := ident_key src dst proto in
  ident k s1 = u16 (ident k s - 1) /\ (forall k', k' <> k -> ident k' s1 = ident k' s) /\
  l3_ifs s1 = l3_ifs s /\ m_routingProtocol s1 = m_routingProtocol s.
Proof.
  simpl. unfold ident, DecreaseIdentification. simpl. split_and!; [by rewrite lookup_insert_eq | | done | done].
  intros k' Hk. by rewrite lookup_insert_ne.
Qed.

Lemma u16_dec_inc x : 0 <= x < 2 ^ 16 -> u16 (u16 (x + 1) - 1) = x.
Proof.
  intros. unfold u16, wrap. rewrite Zminus_mod_idemp_l. replace (x + 1 - 1) with x by lia. by apply Z.mod_small.
Qed.

(** The counters after a call of [Send_route]. *)
Lemma Send_route_ident p tags src dst proto route (s : L3 R) calls s' :
  Send_route checksum p tags src dst proto route s = Some (calls, s') ->
  let k := ident_key src dst proto in
  Forall (fun c => Ipv4Header.m_identification (call_header c) = ident k s) calls /\
  ident k s' = u16 (ident k s + 1) /\ (forall k', k' <> k -> ident k' s' = ident k' s) /\ l3_ifs s' = l3_ifs s.
Proof.
  unfold Send_route. destruct (send_header _ _ _ _ _ _ _) as [h s1] eqn:Eh. intros E.
  destruct (send_header_ok _ _ _ _ _ _ _ _ Eh) as (H1 & H2 & H3 & H4 & _).
  destruct (negb (gw_initialized route)); [done |]. inv_opt. split_and!; try done.
  match goal with Hs : SendRealOut _ _ _ _ _ _ = Some _ |- _ => apply SendRealOut_flow in Hs; eapply Forall_impl; [exact Hs |] end.
  intros c Hc. simpl in *. destruct Hc as [-> _]. done.
Qed.

Lemma broadcast_loop_ident p tags src dst proto l (s : L3 R) calls s' :
  let k := ident_key src dst proto in
  (exists x, ident k s = u16 (x + 1) /\ 0 <= x < 2 ^ 16) ->
  broadcast_loop checksum p tags src dst proto l s = Some (calls, s') ->
  ident k s' = ident k s /\ (forall k', k' <> k -> ident k' s' = ident k' s) /\
  forall x, ident k s = u16 (x + 1) -> 0 <= x < 2 ^ 16 ->
    Forall (fun c => Ipv4Header.m_identification (call_header c) = x) calls.
Proof.
  intros k. revert tags s calls s'. induction l as [|i l IH]; intros tags s calls s' Hx E; cbn [broadcast_loop] in E.
  { injection E as <- <-. split_and!; try done. }
  destruct (if (_ || _)%bool then _ else _) as [[calls1 s1]|] eqn:E1; [| done].
  assert (ident k s1 = ident k s /\ (forall k', k' <> k -> ident k' s1 = ident k' s) /\
    forall x, ident k s = u16 (x + 1) -> 0 <= x < 2 ^ 16 -> Forall (fun c => Ipv4Header.m_identification (call_header c) = x) calls1)
    as (A & B & C).
  { destruct (_ || _)%bool; [| by injection E1 as <- <-].
    destruct (decrease_ok src dst proto s) as (D1 & D2 & _ & _). fold k in D1, D2.
    destruct (Send_route_ident _ _ _ _ _ _ _ _ _ E1) as (S1 & S2 & S3 & _). fold k in S1, S2, S3.
    destruct Hx as (x & Hx & Hr). rewrite D1, Hx, u16_dec_inc in S2 by done. split_and!.
    - by rewrite S2, Hx.
    - intros k' Hk. by rewrite S3, D2.
    - intros y Hy Hyr. rewrite D1, Hy, u16_dec_inc in S1 by done. done. }
  destruct (broadcast_loop _ _ _ _ _ _ _ s1) as [[calls2 s2]|] eqn:E2; [| done]. injection E as <- <-.
  destruct (IH _ _ _ _ ltac:(by rewrite A) E2) as (F1 & F2 & F3). split_and!; [congruence | |].
  - intros k' Hk. by rewrite F2, B.
  - intros x Hx' Hr. apply Forall_app. split; [by apply C | apply F3; [congruence | done]].
Qed.

Definition is_drop (c : L3Call) : Prop := match c with DropTrace _ _ _ _ => True | _ => False end.

(** Identification numbers: all packets one call of [Send] without a route
    gives out (a copy per interface for a broadcast, every fragment) carry the
    value the counter of their source, destination and protocol had; afterwards
    the counter is one more, except when the packet was only dropped for want of
    a route; the other counters are untouched. *)
Theorem Send_identification p tags src dst proto (s : L3 R) calls s' :
  Send checksum p tags src dst proto None s = Some (calls, s') ->
  let k := ident_key src dst proto in
  0 <= ident k s < 2 ^ 16 ->
  Forall (fun c => Ipv4Header.m_identification (call_header c) = ident k s) calls /\
  (ident k s' = u16 (ident k s + 1) \/ (ident k s' = ident k s /\ Forall is_drop calls)) /\
  (forall k', k' <> k -> ident k' s' = ident k' s).
Proof.
  intros E k Hk. unfold Send in E. destruct (send_header _ _ _ _ _ _ _) as [h s1] eqn:Eh.
  destruct (send_header_ok _ _ _ _ _ _ _ _ Eh) as (H1 & H2 & H3 & _ & Hr & _). fold k in H1, H2, H3.
  destruct (decrease_ok src dst proto s1) as (D1 & D2 & _). fold k in D1, D2.
  rewrite H2, u16_dec_inc in D1 by done.
  assert (forall route, Send_route checksum p tags src dst proto route (DecreaseIdentification src dst proto s1) = Some (calls, s') ->
    Forall (fun c => Ipv4Header.m_identification (call_header c) = ident k s) calls /\
    (ident k s' = u16 (ident k s + 1) \/ (ident k s' = ident k s /\ Forall is_drop calls)) /\
    (forall k', k' <> k -> ident k' s' = ident k' s)) as Hroute.
  { intros route Es. destruct (Send_route_ident _ _ _ _ _ _ _ _ _ Es) as (S1 & S2 & S3 & _). fold k in S1, S2, S3.
    rewrite D1 in S1, S2. split_and!; [done | by left |]. intros k' Hk'. by rewrite S3, D2, H3. }
  destruct (_ || _)%bool.
  - destruct (broadcast_loop_ident _ _ _ _ _ _ _ _ _ ltac:(exists (ident k s); split; [exact H2 | exact Hk]) E) as (B1 & B2 & B3).
    split_and!; [by apply B3 | left; fold k in B1; by rewrite B1 |]. intros k' Hk'. by rewrite B2, H3.
  - destruct (find_directed _ _ _) as [[i|]|]; [by eapply Hroute | | done].
    destruct (match m_routingProtocol s1 with Some _ => _ | None => _ end) as [[rt|]|]; [by eapply Hroute | | done].
    injection E as <- <-. split_and!.
    + by constructor.
    + right. split; [done | by repeat constructor].
    + intros k' Hk'. by rewrite D2, H3.
Qed.

(** ** TTL *)

(** Forwarding decrements the TTL of a packet that has one left, keeping
    every other field of the flow; a packet of TTL one is dropped with an ICMP
    message to its source, unless it was sent to a broadcast or multicast
    address. *)
Theorem IpForward_ttl rt p tags h (s : L3 R) :
  1 <= GetTtl h < 2 ^ 8 ->
  (GetTtl h = 1 -> is_Some (GetProtocol ICMP_PROTOCOL s) ->
     IpForward checksum rt p tags h s =
       Some ((if IsBroadcast (GetDestination h) || IsMulticast (GetDestination h) then []
              else [IcmpTimeExceeded (SetTtl 0 h) p]) ++
             [DropTrace h p DROP_TTL_EXPIRED (GetInterfaceForDevice (rt_outputDevice rt) (l3_ifs s))])) /\
  (1 < GetTtl h -> forall calls, IpForward checksum rt p tags h s = Some calls ->
     Forall (fun c => same_flow (SetTtl (GetTtl h - 1) h) (call_header c)) calls).
Proof.
  intros Ht. unfold IpForward. split.
  - intros E1 [icmp Hi]. rewrite E1. cbn [GetTtl SetTtl Ipv4Header.m_ttl]. change (u8 (1 - 1)) with 0. simpl (0 =? 0).
    cbv iota. unfold GetDestination. cbn [SetTtl Ipv4Header.m_destination]. rewrite Hi.
    by destruct (IsBroadcast _), (IsMulticast _).
  - intros Hgt calls. unfold u8. rewrite wrap_small by lia. unfold GetTtl at 1. cbn [SetTtl Ipv4Header.m_ttl].
    rewrite (proj2 (Z.eqb_neq _ 0)) by lia. intros E. by apply SendRealOut_flow in E.
Qed.

(** ** MTU *)

(** Interfaces that are up have the MTU [SetUp] asks for. *)
Definition mtu_ok (ifs : Interfaces) : Prop :=
  forall i, i ∈ m_interfaces ifs -> Ipv4Interface.IsUp i = true -> 68 <= dev_mtu (m_device i) < 2 ^ 16.

(** A packet that can be sent: at most an IPv4 payload, without options, and a
    piece of some payload when it is a fragment. *)
Definition sendable (p : Packet) (h : Ipv4Header) : Prop :=
  cut_ok h /\ zlen p <= 65515 /\
  (0 < zlen p -> exists P, payload_ok P /\ piece P p (GetFragmentOffset h) (negb (IsLastFragment h))).

Lemma route_interface ifs route : route_valid ifs route ->
  0 <= GetInterfaceForDevice (rt_outputDevice route) ifs /\
  exists i, GetInterface (GetInterfaceForDevice (rt_outputDevice route) ifs) ifs = Some i /\ i ∈ m_interfaces ifs.
Proof.
  intros (_ & dev & E & _). unfold GetNetDevice in E. destruct (GetInterface _ ifs) as [i|] eqn:Ei; [| done].
  split; [by eapply GetInterface_index |]. exists i. split; [done |].
  unfold GetInterface in Ei. destruct (_ <? 0); [done | by eapply list_elem_of_lookup_2].
Qed.

Lemma SendRealOut_ok route p tags h (s : L3 R) :
  route_valid (l3_ifs s) route -> mtu_ok (l3_ifs s) -> sendable p h ->
  exists calls i, SendRealOut checksum (Some route) p tags h s = Some calls /\
    GetInterface (GetInterfaceForDevice (rt_outputDevice route) (l3_ifs s)) (l3_ifs s) = Some i /\
    (Ipv4Interface.IsUp i = false -> calls = []) /\
    (Ipv4Interface.IsUp i = true -> exists l,
       calls = (fun x => InterfaceSend (GetInterfaceForDevice (rt_outputDevice route) (l3_ifs s)) x.1 tags x.2
                  (if IsAny (rt_gateway route) then GetDestination h else rt_gateway route)) <$> l /\
       (forall x, x ∈ l -> zlen x.1 + 20 <= dev_mtu (m_device i)) /\
       (l = [(p, h)] \/
        (28 <= dev_mtu (m_device i) < zlen p + 20 /\ DoFragmentation checksum p h (dev_mtu (m_device i)) = Some l))).
Proof.
  intros Hv Hm (Hc & Hz & Hp). destruct (route_interface _ _ Hv) as (H0 & i & Ei & Hin).
  unfold SendRealOut. rewrite (proj2 (Z.leb_le 0 _)) by done. simpl NS_ASSERT. cbv iota. rewrite Ei.
  unfold GetSerializedSize. rewrite (ct_size _ Hc). unfold GetSize. pose proof (zlen_nonneg p). rewrite u32_small by lia.
  destruct (Ipv4Interface.IsUp i) eqn:Eu; [| exists [], i; split_and!; [done | done | done | congruence]].
  specialize (Hm _ Hin Eu). destruct (Z.ltb_spec (dev_mtu (m_device i)) (zlen p + 20)).
  - destruct (Hp ltac:(lia)) as (P & HP & Hpc).
    destruct (DoFragmentation_ok checksum P p h (dev_mtu (m_device i)) Hpc HP Hc ltac:(lia)) as (l & E & _ & Hl).
    rewrite E. eexists _, i. split_and!; try done; [congruence |]. intros _. exists l. split_and!; [done | | right; split; [lia | done]].
    intros x Hx. rewrite Forall_forall in Hl. by destruct (Hl _ Hx).
  - eexists _, i. split_and!; try done; [congruence |]. intros _. exists [(p, h)]. split_and!; [done | | by left].
    intros x ->%list_elem_of_singleton. simpl. lia.
Qed.

(** A packet given to an interface always fits its link: [SendRealOut] with
    a valid route returns, sends nothing when the interface is down, and
    otherwise sends to the gateway (or the destination, on link) packets no
    larger than the MTU of the interface. *)
Theorem SendRealOut_fits_mtu route p tags h (s : L3 R) :
  route_valid (l3_ifs s) route -> mtu_ok (l3_ifs s) -> sendable p h ->
  exists calls i, SendRealOut checksum (Some route) p tags h s = Some calls /\
    GetInterface (GetInterfaceForDevice (rt_outputDevice route) (l3_ifs s)) (l3_ifs s) = Some i /\
    (Ipv4Interface.IsUp i = false -> calls = []) /\
    forall c, c ∈ calls -> exists q hq,
      c = InterfaceSend (GetInterfaceForDevice (rt_outputDevice route) (l3_ifs s)) q tags hq
            (if IsAny (rt_gateway route) then GetDestination h else rt_gateway route) /\
      zlen q + 20 <= dev_mtu (m_device i).
Proof.
  intros Hv Hm Hs. destruct (SendRealOut_ok route p tags h s Hv Hm Hs) as (calls & i & E & Ei & Hd & Hu).
  exists calls, i. split_and!; try done. intros c Hc. destruct (Ipv4Interface.IsUp i).
  - destruct (Hu eq_refl) as (l & -> & Hl & _). apply list_elem_of_fmap in Hc as ([q hq] & -> & Hin).
    exists q, hq. split; [done | by apply (Hl _ Hin)].
  - rewrite Hd in Hc by done. by apply elem_of_nil in Hc.
Qed.

(** ** Sending never aborts *)

Lemma send_header_sendable p tags src dst proto (s : L3 R) h s1 :
  send_header checksum p tags src dst proto s = (h, s1) -> zlen p <= 65515 -> sendable p h.
Proof.
  intros E Hz. destruct (send_header_ok _ _ _ _ _ _ _ _ E) as (_ & _ & _ & _ & _ & H1 & H2 & H3).
  split_and!; [split; [lia | rewrite H2; done | done] | done |]. intros Hp. exists p. split; [done |].
  apply whole_piece. split_and!; [split; [lia | rewrite H2; done | done] | done | | done].
  unfold IsLastFragment. by rewrite H3.
Qed.

Lemma Send_route_returns p tags src dst proto route (s : L3 R) :
  route_valid (l3_ifs s) route -> mtu_ok (l3_ifs s) -> zlen p <= 65515 ->
  exists calls s', Send_route checksum p tags src dst proto route s = Some (calls, s') /\ l3_ifs s' = l3_ifs s.
Proof.
  intros Hv Hm Hz. unfold Send_route. destruct (send_header _ _ _ _ _ _ _) as [h s1] eqn:Eh.
  pose proof (send_header_sendable _ _ _ _ _ _ _ _ Eh Hz) as Hs.
  destruct (send_header_ok _ _ _ _ _ _ _ _ Eh) as (_ & _ & _ & Ei & _). rewrite (proj1 Hv). cbn [negb].
  rewrite <- Ei in Hv, Hm.
  destruct (SendRealOut_ok route p (mkTags None None (priority_tag tags)) h s1 Hv Hm Hs) as (calls & i & -> & _).
  by exists calls, s1.
Qed.

Lemma proxy_valid ifs i dst src : table_ok ifs -> i ∈ m_interfaces ifs -> route_valid ifs (proxy_route dst src i).
Proof.
  intros Hok Hin. split; [done |]. simpl. exists (m_device i). split; [| done].
  apply list_elem_of_lookup in Hin as [k Hk]. apply (device_valid ifs (Z.of_nat k) (m_device i) Hok).
  unfold GetNetDevice, GetInterface. rewrite (proj2 (Z.ltb_ge _ 0)) by lia. by rewrite Nat2Z.id, Hk.
Qed.

Lemma broadcast_loop_returns p tags src dst proto l (s : L3 R) :
  table_ok (l3_ifs s) -> mtu_ok (l3_ifs s) -> zlen p <= 65515 -> (forall i, i ∈ l -> i ∈ m_interfaces (l3_ifs s)) ->
  exists calls s', broadcast_loop checksum p tags src dst proto l s = Some (calls, s').
Proof.
  revert tags s. induction l as [|i l IH]; intros tags s Hok Hm Hz Hl; [by exists [], s |]. cbn [broadcast_loop].
  assert (exists calls s1, (if IsAny src || existsb (fun a => Ipv4InterfaceAddress.m_local a =? src) (m_ifaddrs i) then
      Send_route checksum p tags src dst proto (proxy_route dst src i) (DecreaseIdentification src dst proto s)
    else Some ([], s)) = Some (calls, s1) /\ l3_ifs s1 = l3_ifs s) as (calls & s1 & -> & Ei).
  { destruct (_ || _)%bool; [| by exists [], s].
    destruct (Send_route_returns p tags src dst proto (proxy_route dst src i) (DecreaseIdentification src dst proto s))
      as (calls & s1 & -> & Ei); [apply proxy_valid; [done | apply Hl; by left] | done | done |]. by exists calls, s1. }
  set (tags' := if (_ || _)%bool then _ else tags).
  destruct (IH tags' s1) as (calls' & s2 & ->); [by rewrite Ei | by rewrite Ei | done | |].
  { intros j Hj. rewrite Ei. apply Hl. by right. }
  by eexists _, _.
Qed.

Lemma find_directed_returns dst ifs l :
  table_ok ifs -> (forall i, i ∈ l -> i ∈ m_interfaces ifs) ->
  exists res, find_directed dst ifs l = Some res /\ forall i, res = Some i -> i ∈ m_interfaces ifs.
Proof.
  intros Hok. induction l as [|i l IH]; intros Hl; [by exists None |]. cbn [find_directed].
  destruct (route_interface ifs (proxy_route dst 0 i)) as (_ & j & Ej & _); [apply proxy_valid; [done | apply Hl; by left] |].
  simpl in Ej. rewrite Ej. destruct (existsb _ _).
  - exists (Some i). split; [done |]. intros ? [= <-]. apply Hl. by left.
  - apply IH. intros k Hk. apply Hl. by right.
Qed.

(** [Send] never aborts: on a node with a well-formed interface table whose
    interfaces that are up have an MTU of at least 68 bytes, sending a payload
    that fits an IPv4 packet, to any destination, returns as soon as the routing
    protocol does; the routes it uses are good by the contract of routing
    protocols. *)
Theorem Send_returns p tags src dst proto (s : L3 R) :
  table_ok (l3_ifs s) -> mtu_ok (l3_ifs s) -> zlen p <= 65515 ->
  (forall h r, m_routingProtocol s = Some r -> is_Some (route_output h None (l3_ifs s) r)) ->
  exists calls s', Send checksum p tags src dst proto None s = Some (calls, s').
Proof.
  intros Hok Hm Hz Hr. unfold Send. destruct (send_header _ _ _ _ _ _ _) as [h s1] eqn:Eh.
  destruct (send_header_ok _ _ _ _ _ _ _ _ Eh) as (_ & _ & _ & Ei & Er & _).
  rewrite <- Ei in Hok, Hm. rewrite <- Er, <- Ei in Hr.
  assert (forall route, route_valid (l3_ifs s1) route -> exists calls s',
    Send_route checksum p tags src dst proto route (DecreaseIdentification src dst proto s1) = Some (calls, s')) as Hroute.
  { intros route Hv. destruct (Send_route_returns p tags src dst proto route (DecreaseIdentification src dst proto s1))
      as (calls & s' & -> & _); try done. by exists calls, s'. }
  destruct (_ || _)%bool; [by apply broadcast_loop_returns |].
  destruct (find_directed_returns dst _ (m_interfaces (l3_ifs s1)) Hok ltac:(done)) as ([i|] & -> & Hi).
  { apply Hroute, proxy_valid; auto. }
  destruct (m_routingProtocol s1) as [r|]; [| by eexists _, _].
  destruct (Hr h r eq_refl) as [[rt e] E]. rewrite E. destruct rt as [rt|]; [| by eexists _, _].
  apply Hroute. by eapply route_output_valid.
Qed.

(** ** The node stays well formed *)

Definition mtu_16bit (ifs : Interfaces) : Prop := forall i, i ∈ m_interfaces ifs -> dev_mtu (m_device i) < 2 ^ 16.
(** The interface table. *)
Definition ifs_wf (s : L3 R) : Prop := table_ok (l3_ifs s) /\ mtu_ok (l3_ifs s) /\ mtu_16bit (l3_ifs s).

(** The identification counters are 16-bit numbers. *)
Definition ids_ok (s : L3 R) : Prop := forall k, 0 <= ident k s < 2 ^ 16.
Definition l3_wf (s : L3 R) : Prop := ifs_wf s /\ ids_ok s.

(** The configuration of a node: its devices, addresses and interface states.
    A device is added once; its MTU is a 16-bit number. *)
Inductive l3_reach : L3 R -> Prop :=
  | l3_start fwd strong rt protocols ttl : l3_reach (mkL3 (empty_table fwd strong) rt protocols ttl ∅)
  | l3_add_interface s device :
      l3_reach s -> dev_mtu device < 2 ^ 16 -> Z.of_nat (length (m_interfaces (l3_ifs s))) + 1 < 2 ^ 31 ->
      m_reverseInterfacesContainer (l3_ifs s) !! dev_id device = None ->
      l3_reach (set_ifs (AddInterface device (l3_ifs s)).2 s)
  | l3_add_address s s' i a b : l3_reach s -> L3_AddAddress i a s = Some (b, s') -> l3_reach s'
  | l3_remove_at s s' i k b : l3_reach s -> RemoveAddress_at i k s = Some (b, s') -> l3_reach s'
  | l3_remove s s' i a b : l3_reach s -> L3_RemoveAddress i a s = Some (b, s') -> l3_reach s'
  | l3_up s s' i : l3_reach s -> SetUp i s = Some s' -> l3_reach s'
  | l3_down s s' i : l3_reach s -> SetDown i s = Some s' -> l3_reach s'
  | l3_forwarding s ifs i v : l3_reach s -> SetForwarding i v (l3_ifs s) = Some ifs -> l3_reach (set_ifs ifs s)
  | l3_metric s ifs i v : l3_reach s -> Interfaces.SetMetric i v (l3_ifs s) = Some ifs -> l3_reach (set_ifs ifs s)
  | l3_ip_forward s v : l3_reach s -> l3_reach (set_ifs (SetIpForward v (l3_ifs s)) s)
  | l3_insert s k n : l3_reach s -> l3_reach (Insert k n s)
  | l3_insert_at s k n i : l3_reach s -> l3_reach (Insert_at k n i s)
  | l3_remove_protocol s n : l3_reach s -> l3_reach (Remove n s)
  | l3_remove_protocol_at s n i : l3_reach s -> l3_reach (Remove_at n i s)
  | l3_set_ttl s ttl : l3_reach s -> l3_reach (SetDefaultTtl ttl s)
  | l3_send p tags src dst proto rt s calls s' :
      l3_reach s -> Send checksum p tags src dst proto rt s = Some (calls, s') -> l3_reach s'.

(** Replacing an interface by one with the same device. *)
Lemma update_table f k ifs ifs' :
  (forall i, GetInterface k ifs = Some i -> m_device (f i) = m_device i) -> update f k ifs = Some ifs' ->
  table_ok ifs -> table_ok ifs'.
Proof.
  intros Hf E [H1 H2]. unfold update in E. destruct (GetInterface k ifs) as [x|] eqn:Ex; [| done]. injection E as <-.
  specialize (Hf _ eq_refl). unfold GetInterface in Ex. destruct (k <? 0); [done |].
  split; simpl; [by rewrite length_insert |]. intros d j. rewrite H2. split; intros (i & Hi & Hd & Hj).
  - destruct (decide (Z.to_nat j = Z.to_nat k)) as [Ejk|Hne].
    + exists (f x). rewrite Ejk, list_lookup_insert_eq by (by eapply lookup_lt_Some). split_and!; try done.
      rewrite Hf. congruence.
    + exists i. rewrite list_lookup_insert_ne by done. done.
  - destruct (decide (Z.to_nat j = Z.to_nat k)) as [Ejk|Hne].
    + exists x. rewrite Ejk in Hi |- *. rewrite list_lookup_insert_eq in Hi by (by eapply lookup_lt_Some).
      injection Hi as <-. split_and!; try done. by rewrite <- Hf.
    + rewrite list_lookup_insert_ne in Hi by done. by exists i.
Qed.

Lemma update_mtu f k ifs ifs' :
  (forall i, GetInterface k ifs = Some i -> m_device (f i) = m_device i /\
     (Ipv4Interface.IsUp (f i) = true -> Ipv4Interface.IsUp i = true \/ 68 <= dev_mtu (m_device i))) ->
  update f k ifs = Some ifs' -> mtu_ok ifs -> mtu_16bit ifs -> mtu_ok ifs' /\ mtu_16bit ifs'.
Proof.
  intros Hf E Hm H16. unfold update in E. destruct (GetInterface k ifs) as [x|] eqn:Ex; [| done]. injection E as <-.
  destruct (Hf _ eq_refl) as [Hd Hu]. unfold GetInterface in Ex. destruct (k <? 0); [done |].
  apply list_elem_of_lookup_2 in Ex.
  assert (forall i, i ∈ <[Z.to_nat k := f x]> (m_interfaces ifs) -> i = f x \/ i ∈ m_interfaces ifs) as Hin.
  { intros i (j & Hj)%list_elem_of_lookup. apply list_lookup_insert_Some in Hj as [(_ & <- & _)|[_ Hj]]; [by left |].
    right. by eapply list_elem_of_lookup_2. }
  split; intros i Hi; simpl in Hi; apply Hin in Hi as [->|Hi]; rewrite ?Hd; auto.
  intros Hup. destruct (Hu Hup); [auto | split; [done | auto]].
Qed.

Lemma notify_ifs f (s s' : L3 R) : notify f s = Some s' -> l3_ifs s' = l3_ifs s.
Proof. unfold notify. destruct (m_routingProtocol s); [| by intros [= <-]]. intros E. by inv_opt. Qed.

Lemma Send_ifs p tags src dst proto rt (s s' : L3 R) calls :
  Send checksum p tags src dst proto rt s = Some (calls, s') -> l3_ifs s' = l3_ifs s.
Proof.
  assert (forall tags rt (s s' : L3 R) calls, Send_route checksum p tags src dst proto rt s = Some (calls, s') -> l3_ifs s' = l3_ifs s) as Hr
    by (intros; by eapply Send_route_ident).
  assert (forall l tags (s s' : L3 R) calls, broadcast_loop checksum p tags src dst proto l s = Some (calls, s') -> l3_ifs s' = l3_ifs s) as Hb.
  { induction l as [|i l IH]; intros tg s0 s1 c E; cbn [broadcast_loop] in E; [by injection E as _ <- |].
    destruct (if (_ || _)%bool then _ else _) as [[c1 s2]|] eqn:E1; [| done].
    assert (l3_ifs s2 = l3_ifs s0) as E2 by (destruct (_ || _)%bool; [by apply Hr in E1 | by injection E1 as _ <-]).
    destruct (broadcast_loop _ _ _ _ _ _ l s2) as [[c2 s3]|] eqn:E3; [| done]. injection E as _ <-. apply IH in E3. congruence. }
  unfold Send. destruct rt as [rt|]; [apply Hr |]. destruct (send_header _ _ _ _ _ _ _) as [h s1] eqn:Eh.
  destruct (send_header_ok _ _ _ _ _ _ _ _ Eh) as (_ & _ & _ & Ei & _). intros E. rewrite <- Ei.
  destruct (_ || _)%bool; [by apply Hb in E |]. inv_opt. case_match; [by apply Hr in E |]. inv_opt.
  case_match; [by apply Hr in E | by injection E as _ <-].
Qed.

Lemma remove_device a x : m_device (RemoveAddress a x).2 = m_device x /\
  Ipv4Interface.IsUp (RemoveAddress a x).2 = Ipv4Interface.IsUp x.
Proof. unfold RemoveAddress. destruct (_ =? _); [done |]. by destruct (remove_local _ _) as [[]|]. Qed.

(** An update that keeps devices and does not bring interfaces up. *)
Lemma update_wf f k (s : L3 R) ifs :
  (forall i, GetInterface k (l3_ifs s) = Some i -> m_device (f i) = m_device i /\
     (Ipv4Interface.IsUp (f i) = true -> Ipv4Interface.IsUp i = true \/ 68 <= dev_mtu (m_device i))) ->
  ifs_wf s -> update f k (l3_ifs s) = Some ifs -> ifs_wf (set_ifs ifs s).
Proof.
  intros Hf (H1 & H2 & H3) E. split; simpl; [eapply update_table; [| done | done] | by eapply update_mtu].
  intros i Hi. by apply Hf.
Qed.

Lemma wf_ifs (s s' : L3 R) : l3_ifs s' = l3_ifs s -> ifs_wf s -> ifs_wf s'.
Proof. unfold ifs_wf. by intros ->. Qed.

(** The interface is replaced by one with other addresses only. *)
Lemma replace_wf x' k (s : L3 R) ifs :
  (forall x, GetInterface k (l3_ifs s) = Some x -> m_device x' = m_device x /\ Ipv4Interface.IsUp x' = Ipv4Interface.IsUp x) ->
  ifs_wf s -> update (fun _ => x') k (l3_ifs s) = Some ifs -> ifs_wf (set_ifs ifs s).
Proof.
  intros Hx Hs E. eapply update_wf; [| done | done]. intros x Hg. destruct (Hx x Hg) as [Hd Hu].
  split; [done |]. rewrite Hu. auto.
Qed.

Lemma RemoveAddress_at_wf i k (s s' : L3 R) b : ifs_wf s -> RemoveAddress_at i k s = Some (b, s') -> ifs_wf s'.
Proof.
  intros Hs E. unfold RemoveAddress_at in E. destruct (GetInterface i (l3_ifs s)) as [x|] eqn:Ex; [| done].
  destruct (RemoveAddress_index k x) as [[addr x']|] eqn:Er; [| done].
  destruct (update _ i (l3_ifs s)) as [ifs|] eqn:Eu; [| done].
  assert (ifs_wf (set_ifs ifs s)) as Hw.
  { eapply replace_wf; [| done | done]. rewrite Ex. intros ? [= <-]. unfold RemoveAddress_index in Er. by inv_opt. }
  destruct (bool_decide _); inv_opt; [eapply wf_ifs; [by eapply notify_ifs | done] | done].
Qed.

Lemma RemoveAddress_wf i a (s s' : L3 R) b : ifs_wf s -> L3_RemoveAddress i a s = Some (b, s') -> ifs_wf s'.
Proof.
  intros Hs E. unfold L3_RemoveAddress in E. destruct (_ =? _); [by injection E as _ <- |].
  destruct (GetInterface i (l3_ifs s)) as [x|] eqn:Ex; [| done].
  pose proof (remove_device a x) as Hd. destruct (RemoveAddress a x) as [ifAddr x'].
  destruct (update _ i (l3_ifs s)) as [ifs|] eqn:Eu; [| done].
  assert (ifs_wf (set_ifs ifs s)) as Hw by (eapply replace_wf; [| done | done]; rewrite Ex; by intros ? [= <-]).
  destruct (bool_decide _); inv_opt; [eapply wf_ifs; [by eapply notify_ifs | done] | done].
Qed.

Lemma SetUp_wf i (s s' : L3 R) : ifs_wf s -> SetUp i s = Some s' -> ifs_wf s'.
Proof.
  intros Hs E. unfold SetUp in E. destruct (GetInterface i (l3_ifs s)) as [x|] eqn:Ex; [| done].
  destruct (Z.leb_spec 68 (dev_mtu (m_device x))); [| by injection E as <-]. inv_opt.
  eapply wf_ifs; [by eapply notify_ifs |]. eapply update_wf; [| done | done]. rewrite Ex. intros ? [= <-]. auto.
Qed.

Lemma SetDown_wf i (s s' : L3 R) : ifs_wf s -> SetDown i s = Some s' -> ifs_wf s'.
Proof.
  intros Hs E. unfold SetDown in E. inv_opt. eapply wf_ifs; [by eapply notify_ifs |].
  eapply update_wf; [| done | done]. by intros.
Qed.

Lemma SetIpForward_wf v (s : L3 R) : ifs_wf s -> ifs_wf (set_ifs (SetIpForward v (l3_ifs s)) s).
Proof.
  intros ([H1 H2] & H3 & H4). split_and!; simpl.
  - split; simpl; [by rewrite length_fmap |]. intros d k. rewrite H2. split; intros (i & Hi & Hd & Hk).
    + exists (Ipv4Interface.SetForwarding v i). by rewrite list_lookup_fmap, Hi.
    + rewrite list_lookup_fmap in Hi. destruct (m_interfaces (l3_ifs s) !! Z.to_nat k) as [j|] eqn:Ej; [| done].
      injection Hi as <-. by exists j.
  - intros i (j & -> & Hj)%list_elem_of_fmap. exact (H3 j Hj).
  - intros i (j & -> & Hj)%list_elem_of_fmap. exact (H4 j Hj).
Qed.

(** ** The counters *)

Lemma ids_same (s s' : L3 R) : m_identification s' = m_identification s -> ids_ok s -> ids_ok s'.
Proof. unfold ids_ok, ident. by intros ->. Qed.
Lemma ids_step k v (s s' : L3 R) : ident k s' = u16 v -> (forall k', k' <> k -> ident k' s' = ident k' s) -> ids_ok s -> ids_ok s'.
Proof.
  intros E Hne Hs k'. destruct (decide (k' = k)) as [->|Hk]; [rewrite E; apply (wrap_range 16); lia|]. rewrite Hne by done. apply Hs.
Qed.
Lemma Decrease_ids src dst proto (s : L3 R) : ids_ok s -> ids_ok (DecreaseIdentification src dst proto s).
Proof.
  apply (ids_step (ident_key src dst proto) (ident (ident_key src dst proto) s - 1)); unfold DecreaseIdentification, ident; cbn [m_identification set_ident].
  - by rewrite lookup_insert_eq.
  - intros k' Hk. by rewrite lookup_insert_ne.
Qed.
Lemma Send_route_ids p tags src dst proto rt (s s' : L3 R) calls : Send_route checksum p tags src dst proto rt s = Some (calls, s') -> ids_ok s -> ids_ok s'.
Proof. intros (_&E&Hne&_)%Send_route_ident. by eapply ids_step. Qed.
Lemma broadcast_ids p src dst proto l : forall tags (s s' : L3 R) calls, broadcast_loop checksum p tags src dst proto l s = Some (calls, s') -> ids_ok s -> ids_ok s'.
Proof.
  induction l as [|i l IH]; intros tags s s' calls E Hs; cbn [broadcast_loop] in E; [by injection E as _ <- |].
  destruct (if (_ || _)%bool then _ else _) as [[c1 s2]|] eqn:E1; [| done].
  assert (ids_ok s2) as H2 by (destruct (_ || _)%bool; [eapply Send_route_ids; [done|by apply Decrease_ids] | by injection E1 as _ <-]).
  destruct (broadcast_loop _ _ _ _ _ _ l s2) as [[c2 s3]|] eqn:E3; [| done]. injection E as _ <-. by eapply IH.
Qed.
Lemma Send_ids p tags src dst proto rt (s s' : L3 R) calls : Send checksum p tags src dst proto rt s = Some (calls, s') -> ids_ok s -> ids_ok s'.
Proof.
  unfold Send. destruct rt as [rt|]; [apply Send_route_ids |]. destruct (send_header _ _ _ _ _ _ _) as [h s1] eqn:Eh. intros E Hs.
  assert (ids_ok s1) as H1 by (destruct (send_header_ok _ _ _ _ _ _ _ _ Eh) as (_&E1&Hne&_); by eapply ids_step).
  pose proof (Decrease_ids src dst proto s1 H1) as H2.
  destruct (_ || _)%bool; [by eapply broadcast_ids |]. inv_opt. case_match; [by eapply Send_route_ids |]. inv_opt.
  case_match; [by eapply Send_route_ids | by injection E as _ <-].
Qed.
Lemma notify_ids f (s s' : L3 R) : notify f s = Some s' -> m_identification s' = m_identification s.
Proof. unfold notify. destruct (m_routingProtocol s); [| by intros [= <-]]. intros E. by inv_opt. Qed.
(** The operations on interfaces leave the counters alone. *)
Ltac same_ids E Hs := inv_opt; repeat (case_match; simplify_eq; inv_opt); first [done|exact Hs|eapply ids_same; [by eapply notify_ids|exact Hs]|eapply ids_same; [|exact Hs]; by simplify_eq].
Lemma L3_AddAddress_ids i a (s s' : L3 R) b : L3_AddAddress i a s = Some (b, s') -> ids_ok s -> ids_ok s'.
Proof. intros E Hs. unfold L3_AddAddress in E. same_ids E Hs. Qed.
Lemma RemoveAddress_at_ids i k (s s' : L3 R) b : RemoveAddress_at i k s = Some (b, s') -> ids_ok s -> ids_ok s'.
Proof. intros E Hs. unfold RemoveAddress_at in E. same_ids E Hs. Qed.
Lemma RemoveAddress_ids i a (s s' : L3 R) b : L3_RemoveAddress i a s = Some (b, s') -> ids_ok s -> ids_ok s'.
Proof. intros E Hs. unfold L3_RemoveAddress in E. same_ids E Hs. Qed.
Lemma SetUp_ids i (s s' : L3 R) : SetUp i s = Some s' -> ids_ok s -> ids_ok s'.
Proof. intros E Hs. unfold SetUp in E. same_ids E Hs. Qed.
Lemma SetDown_ids i (s s' : L3 R) : SetDown i s = Some s' -> ids_ok s -> ids_ok s'.
Proof. intros E Hs. unfold SetDown in E. same_ids E Hs. Qed.

Lemma reach_ids (s : L3 R) : l3_reach s -> ids_ok s.
Proof.
  induction 1; try done; try (by eapply L3_AddAddress_ids); try (by eapply RemoveAddress_at_ids); try (by eapply RemoveAddress_ids);
    try (by eapply SetUp_ids); try (by eapply SetDown_ids); by eapply Send_ids.
Qed.
Lemma reach_ifs (s : L3 R) : l3_reach s -> ifs_wf s.
Proof.
  induction 1 as [fwd strong rt protocols ttl|s device Hs IH Hm Hn Hd|s s' i a b Hs IH E|s s' i k b Hs IH E|
    s s' i a b Hs IH E|s s' i Hs IH E|s s' i Hs IH E|s ifs i v Hs IH E|s ifs i v Hs IH E|s v Hs IH|s k n Hs IH|s k n i Hs IH|s n Hs IH|s n i Hs IH|s ttl Hs IH|
    p tags src dst proto rt s calls s' Hs IH E]; try done.
  - split_and!; [apply empty_table_ok | by intros i ?%elem_of_nil | by intros i ?%elem_of_nil].
  - destruct IH as (H1 & H2 & H3). split_and!; [by apply AddInterface_ok | |]; simpl;
      intros i [Hi|Hi]%elem_of_app; auto; apply list_elem_of_singleton in Hi as ->; done.
  - unfold L3_AddAddress in E. inv_opt. eapply wf_ifs; [by eapply notify_ifs |]. eapply update_wf; [| done | done]. auto.
  - by eapply RemoveAddress_at_wf.
  - by eapply RemoveAddress_wf.
  - by eapply SetUp_wf.
  - by eapply SetDown_wf.
  - eapply update_wf; [| done | exact E]. auto.
  - eapply update_wf; [| done | exact E]. auto.
  - by apply SetIpForward_wf.
  - eapply wf_ifs; [by eapply Send_ifs | done].
Qed.

(** The node stays well formed: however devices and addresses are added, addresses
    and transport protocols removed, interfaces brought up and down and packets sent,
    every device is bound to one interface which the reverse map finds, every interface
    that is up has an MTU of at least 68 bytes, and every identification counter is a
    16-bit number. *)
Theorem l3_reach_wf (s : L3 R) : l3_reach s -> l3_wf s.
Proof. intros Hs. split; [by apply reach_ifs|by apply reach_ids]. Qed.

(** ** From one node to another *)

(** The packets handed to interfaces. *)
Definition sent (calls : list L3Call) : list Ipv4PayloadHeaderPair :=
  omap (fun c => match c with InterfaceSend _ p _ h _ => Some (p, h) | _ => None end) calls.

Context {mem : Memory}.

(** The receiver gets the packets one after the other. *)
Fixpoint deliver_all (timeout now iif : Z) (l : list Ipv4PayloadHeaderPair) (r : Ipv4Reassembly.Reassembly)
    : option (list Ipv4PayloadHeaderPair * Ipv4Reassembly.Reassembly) :=
  match l with
  | [] => Some ([], r)
  | (p, h) :: rest =>
      let* (res, _, r) := Ipv4Reassembly.LocalDeliver timeout now p h iif r in
      let* (out, r) := deliver_all timeout now iif rest r in
      Some (option_list res ++ out, r)
  end.

Lemma sent_fmap i tags tgt l : sent ((fun x : Ipv4PayloadHeaderPair => InterfaceSend i x.1 tags x.2 tgt) <$> l) = l.
Proof. induction l as [|[q hq] l IH]; [done |]. exact (f_equal (cons (q, hq)) IH). Qed.

Lemma chain_NoDup o e l P h mtu : chain o e l -> Forall (fragment_ok P h mtu) l -> NoDup l.
Proof.
  revert o. induction l as [|[q hq] l IH]; intros o Hc Hl; [by apply NoDup_nil |]. destruct Hc as [Hq Hc].
  apply Forall_cons in Hl as [Hx Hl]. apply NoDup_cons. split; [| by eapply IH]. intros Hin.
  destruct (chain_bounds _ _ _ _ _ _ _ Hc Hl Hin) as [Hb _]. simpl in Hb.
  pose proof (pc_size _ _ _ _ (fo_piece _ _ _ _ Hx)) as Hs. simpl in Hs. lia.
Qed.

Lemma flow_key h h' : same_flow h h' -> Ipv4Reassembly.fragment_key h' = Ipv4Reassembly.fragment_key h.
Proof.
  intros (H1 & _ & _ & H2 & H3 & H4 & _). unfold Ipv4Reassembly.fragment_key, GetSource, GetDestination, GetIdentification, Ipv4Header.GetProtocol.
  by rewrite H1, H2, H3, H4.
Qed.

(** [ProcessFragment] in the middle of a packet. *)
Lemma process_step timeout now q hq iif r pre i m0 :
  Ipv4Reassembly.m_fragments r = match pre with [] => m0 | _ => <[Ipv4Reassembly.fragment_key hq := (collect pre, i)]> m0 end ->
  m0 !! Ipv4Reassembly.fragment_key hq = None ->
  let f := collect (pre ++ [arrive (q, hq)]) in
  exists i' eff tl n, Ipv4Reassembly.ProcessFragment timeout now q hq iif r =
    if IsEntire f then
      let* p := GetPacket f in Some (Some p, eff, Ipv4Reassembly.mkReassembly (delete (Ipv4Reassembly.fragment_key hq) m0) tl n)
    else Some (None, eff, Ipv4Reassembly.mkReassembly (<[Ipv4Reassembly.fragment_key hq := (f, i')]> m0) tl n).
Proof.
  intros Hm H0 f. unfold Ipv4Reassembly.ProcessFragment. rewrite Hm. destruct pre as [|x pre].
  - rewrite H0. cbn [Ipv4Reassembly.SetTimeout Ipv4Reassembly.m_fragments]. rewrite Hm.
    change (AddFragment q (GetFragmentOffset hq) (negb (IsLastFragment hq)) Fragments_new) with f.
    destruct (IsEntire f); [| by eexists _, _, _, _].
    exists 0. destruct (GetPacket f); [by eexists _, _, _ | by exists [], [], 0].
  - rewrite lookup_insert_eq, Ipv4Reassembly.collect_add, Hm, delete_insert_eq, insert_insert_eq.
    change ((x :: pre) ++ [(q, GetFragmentOffset hq, negb (IsLastFragment hq))]) with ((x :: pre) ++ [arrive (q, hq)]). fold f.
    destruct (IsEntire f); [| by eexists _, _, _, _].
    exists 0. destruct (GetPacket f); [by eexists _, _, _ | by exists [], [], 0].
Qed.

(** The rest [suf] of the fragments arrives after [pre]. *)
Lemma deliver_rest timeout now iif P h mtu l pre suf r i m0 k :
  payload_ok P -> k = Ipv4Reassembly.fragment_key h -> NoDup (pre ++ suf) -> pre ++ suf ≡ₚ l -> suf <> [] ->
  Forall (fragment_ok P h mtu) l ->
  (forall x, x ∈ l -> negb (IsLastFragment x.2) || negb (GetFragmentOffset x.2 =? 0) = true) ->
  (forall l', (forall x, x ∈ l' -> x ∈ l) -> let f := collect (arrive <$> l') in
      (IsEntire f = true <-> forall x, x ∈ l -> x ∈ l') /\ (IsEntire f = true -> GetPacket f = Some P)) ->
  m0 !! k = None ->
  Ipv4Reassembly.m_fragments r = match pre with [] => m0 | _ => <[k := (collect (arrive <$> pre), i)]> m0 end ->
  exists r' hd, deliver_all timeout now iif suf r = Some ([(P, hd)], r') /\ same_flow h hd /\
    Ipv4Reassembly.m_fragments r' = m0.
Proof.
  intros HP -> Hnd Hperm Hne Hl Hfr Hent H0. revert pre r i Hnd Hperm Hne.
  induction suf as [|[q hq] suf IH]; [done |]. intros pre r i Hnd Hperm _ Hm.
  assert ((q, hq) ∈ l) as Hin by (rewrite <- Hperm; apply elem_of_app; right; by left).
  rewrite Forall_forall in Hl. pose proof (fo_flow _ _ _ _ (Hl _ Hin)) as Hflow. simpl in Hflow.
  pose proof (flow_key _ _ Hflow) as Ek. cbn [deliver_all]. unfold Ipv4Reassembly.LocalDeliver.
  pose proof (Hfr _ Hin) as Hf2. simpl in Hf2. rewrite Hf2. rewrite <- Ek in H0, Hm.
  destruct (process_step timeout now q hq iif r (arrive <$> pre) i m0) as (i' & eff & tl & n & ->); [by destruct pre | done |].
  change ((arrive <$> pre) ++ [arrive (q, hq)]) with ((arrive <$> pre) ++ (arrive <$> [(q, hq)])). rewrite <- fmap_app.
  destruct (Hent (pre ++ [(q, hq)])) as [He1 He2].
  { intros x Hx. rewrite <- Hperm. rewrite !elem_of_app, ?elem_of_cons in *. set_solver. }
  destruct (IsEntire (collect (arrive <$> pre ++ [(q, hq)]))) eqn:Ee.
  - rewrite (He2 eq_refl). unfold SetFragmentOffset. simpl (Z.land 0 7 =? 0). simpl NS_ASSERT. cbv iota.
    assert (suf = []) as ->.
    { destruct suf as [|y suf]; [done |]. exfalso. apply NoDup_app in Hnd as (_ & Hd & Hnd).
      apply NoDup_cons in Hnd as [Hn1 Hn2]. apply NoDup_cons in Hn2 as [Hn2 _].
      assert (y ∈ pre ++ [(q, hq)]) as Hy by (apply He1; [done | rewrite <- Hperm; set_solver]).
      apply elem_of_app in Hy as [Hy|Hy]; [apply (Hd _ Hy); set_solver | set_solver]. }
    simpl. eexists _, _. split; [reflexivity |]. split; [done |]. simpl. by rewrite delete_id.
  - destruct (IH (pre ++ [(q, hq)]) (Ipv4Reassembly.mkReassembly
      (<[Ipv4Reassembly.fragment_key hq := (collect (arrive <$> pre ++ [(q, hq)]), i')]> m0) tl n) i') as (r' & hd & -> & A & B).
    + by rewrite <- app_assoc.
    + by rewrite <- app_assoc.
    + intros ->. assert (false = true) as Ht; [| done]. apply He1. intros x Hx.
      by rewrite <- Hperm in Hx.
    + rewrite <- Ek. by destruct pre.
    + by exists r', hd.
Qed.

(** Sending and receiving compose. *)
Lemma send_receive_ok route P tags h (s : L3 R) i timeout now iif :
  JoinsSlices P -> route_valid (l3_ifs s) route -> mtu_ok (l3_ifs s) -> whole P h -> payload_ok P ->
  GetInterface (GetInterfaceForDevice (rt_outputDevice route) (l3_ifs s)) (l3_ifs s) = Some i ->
  Ipv4Interface.IsUp i = true ->
  exists calls, SendRealOut checksum (Some route) P tags h s = Some calls /\
    forall order r, order ≡ₚ sent calls -> Ipv4Reassembly.m_fragments r !! Ipv4Reassembly.fragment_key h = None ->
      exists r' hd, deliver_all timeout now iif order r = Some ([(P, hd)], r') /\ same_flow h hd /\
        Ipv4Reassembly.m_fragments r' = Ipv4Reassembly.m_fragments r.
Proof.
  intros HJ Hv Hm Hw HP Ei Hup. pose proof Hw as (Hc & H0 & Hlast & HP0). pose proof (whole_piece _ _ Hw) as Hpc.
  destruct (SendRealOut_ok route P tags h s Hv Hm) as (calls & i' & E & Ei' & _ & Hu).
  { split_and!; [done | done |]. intros _. by exists P. }
  rewrite Ei in Ei'. injection Ei' as <-. destruct (Hu Hup) as (l & Ec & Hsz & Hl). exists calls. split; [done |].
  rewrite Ec, sent_fmap. intros order r Hperm Hk. destruct Hl as [->|[Hmtu Ef]].
  - apply Permutation_singleton_r in Hperm as ->. cbn [deliver_all]. unfold Ipv4Reassembly.LocalDeliver.
    rewrite Hlast, H0. simpl. by exists r, h.
  - pose proof (zlen_nonneg P). unfold payload_ok in HP.
    destruct (fragmentation_ok checksum P h (dev_mtu (m_device i)) Hw HP ltac:(lia)) as (l2 & E2 & Hl & Hent).
    destruct (DoFragmentation_ok checksum P P h (dev_mtu (m_device i)) Hpc HP Hc ltac:(lia)) as (l3 & E3 & Hch & _).
    rewrite Ef in E2, E3. injection E2 as <-. injection E3 as <-.
    apply (deliver_rest timeout now iif P h (dev_mtu (m_device i)) l [] order r 0 _ _ HP eq_refl); try done.
    + rewrite Hperm. by eapply chain_NoDup.
    + intros ->. apply Permutation_nil_l in Hperm. subst l. simpl in Hch. lia.
    + intros x Hx. rewrite Forall_forall in Hl. destruct (fo_piece _ _ _ _ (Hl _ Hx)) as [_ Hr Hs Hmore].
      rewrite Hmore. specialize (Hsz _ Hx). destruct x as [q hq]. cbn [fst snd] in *. destruct (Z.eqb_spec (GetFragmentOffset hq) 0) as [E0|E0]; [| by rewrite orb_true_r].
      rewrite E0, Z.add_0_l, (proj2 (Z.eqb_neq _ _)) by lia. done.
Qed.

(** C13: sending and receiving compose: a payload given to [SendRealOut] with a
    valid route through an interface that is up is cut into packets that fit the
    link, and a receiver that gets these packets in any order, starting with no
    fragments of that flow, delivers the payload exactly once, with the
    identification, addresses, protocol, TTL and TOS of the sender, and is left
    without fragments of it. Assumed of the memory: the buffers of the receiver
    are such that [AddAtEnd] joins the beginning of the payload and the part that
    follows it ([JoinsSlices]; see [fragments_join] for the buffers that do). *)
Theorem send_receive_round_trip route P tags h (s : L3 R) i timeout now iif :
  JoinsSlices P -> route_valid (l3_ifs s) route -> mtu_ok (l3_ifs s) -> whole P h -> payload_ok P ->
  GetInterface (GetInterfaceForDevice (rt_outputDevice route) (l3_ifs s)) (l3_ifs s) = Some i ->
  Ipv4Interface.IsUp i = true ->
  exists calls, SendRealOut checksum (Some route) P tags h s = Some calls /\
    forall order r, order ≡ₚ sent calls -> Ipv4Reassembly.m_fragments r !! Ipv4Reassembly.fragment_key h = None ->
      exists r' hd, deliver_all timeout now iif order r = Some ([(P, hd)], r') /\ same_flow h hd /\
        Ipv4Reassembly.m_fragments r' = Ipv4Reassembly.m_fragments r.
Proof. apply send_receive_ok. Qed.

End Props.

(** ** A router *)

#[local] Existing Instances plain_memory plain_slices.

Definition demo_l3 : L3 Ipv4StaticRouting := mkL3 demo_ifs (Some demo_routes) {[(ICMP_PROTOCOL, -1) := 9]} 64 ∅.
Definition no_tags : Tags := mkTags None None None.
(** 1000 bytes to 10.1.2.3, which leave through the interface with MTU 600. *)
Definition demo_bytes : Packet := seqZ 0 1000.
Definition demo_route : Ipv4Route := mkRoute 0x0a010203 0x0a010001 0 true 200.

Lemma demo_route_valid : route_valid (l3_ifs demo_l3) demo_route.
Proof. split; [done |]. eexists. split; vm_compute; reflexivity. Qed.

Lemma demo_mtu_ok : mtu_ok (l3_ifs demo_l3).
Proof. intros i. simpl. rewrite !elem_of_cons, elem_of_nil. intros [->|[->|[]]] _; simpl; lia. Qed.

Lemma demo_bytes_whole : whole demo_bytes demo_header.
Proof.
  split; [| split_and!; reflexivity]. split; [split; vm_compute; congruence || done | | reflexivity].
  split; [vm_compute; congruence | reflexivity].
Qed.

Lemma Send_identification_witness :
  exists calls s', Send false demo_bytes no_tags 0x0a010001 0x0a010203 17 None demo_l3 = Some (calls, s') /\
    Forall (fun c => Ipv4Header.m_identification (call_header c) = 0) calls.
Proof.
  destruct (Send false demo_bytes no_tags 0x0a010001 0x0a010203 17 None demo_l3) as [[calls s']|] eqn:E.
  - exists calls, s'. split; [reflexivity |].
    exact (proj1 (Send_identification false _ _ _ _ _ _ _ _ E ltac:(vm_compute; split; congruence))).
  - exfalso. vm_compute in E. discriminate E.
Defined.

Lemma IpForward_ttl_witness :
  IpForward false demo_route demo_bytes no_tags (SetTtl 1 demo_header) demo_l3 =
    Some [IcmpTimeExceeded (SetTtl 0 (SetTtl 1 demo_header)) demo_bytes;
          DropTrace (SetTtl 1 demo_header) demo_bytes DROP_TTL_EXPIRED 1].
Proof.
  destruct (IpForward_ttl false demo_route demo_bytes no_tags (SetTtl 1 demo_header) demo_l3 ltac:(simpl; lia)) as [H _].
  exact (H eq_refl ltac:(vm_compute; eexists; reflexivity)).
Defined.

Lemma demo_sendable : sendable demo_bytes demo_header.
Proof.
  split_and!; [exact (proj1 demo_bytes_whole) | vm_compute; congruence |].
  intros _. exists demo_bytes. split; [vm_compute; congruence | exact (whole_piece _ _ demo_bytes_whole)].
Qed.

Lemma SendRealOut_fits_mtu_witness :
  exists calls i, SendRealOut false (Some demo_route) demo_bytes no_tags demo_header demo_l3 = Some calls /\
    GetInterface 1 (l3_ifs demo_l3) = Some i.
Proof.
  destruct (SendRealOut_fits_mtu false demo_route demo_bytes no_tags demo_header demo_l3 demo_route_valid demo_mtu_ok demo_sendable)
    as (calls & i & E & Ei & _). exists calls, i. split; [exact E | exact Ei].
Defined.

Lemma Send_returns_witness :
  exists calls s', Send false demo_bytes no_tags 0x0a010001 0x0a010203 17 None
    (mkL3 demo_ifs (@None Ipv4StaticRouting) ∅ 64 ∅) = Some (calls, s').
Proof.
  apply (Send_returns false demo_bytes no_tags 0x0a010001 0x0a010203 17 (mkL3 demo_ifs (@None Ipv4StaticRouting) ∅ 64 ∅)).
  - exact demo_table_ok.
  - exact demo_mtu_ok.
  - vm_compute. congruence.
  - intros h r Hr. discriminate Hr.
Defined.

Lemma send_receive_round_trip_witness :
  exists calls r' hd, SendRealOut false (Some demo_route) demo_bytes no_tags demo_header demo_l3 = Some calls /\
    deliver_all 30 0 0 (sent calls) Ipv4Reassembly.Reassembly_new = Some ([(demo_bytes, hd)], r').
Proof.
  destruct (send_receive_round_trip false demo_route demo_bytes no_tags demo_header demo_l3
    (demo_interface 200 600 0x0a010001 0xffff0000) 30 0 0 (plain_slices _) demo_route_valid demo_mtu_ok demo_bytes_whole) as (calls & E & H).
  - vm_compute. congruence.
  - vm_compute. reflexivity.
  - reflexivity.
  - destruct (H (sent calls) Ipv4Reassembly.Reassembly_new) as (r' & hd & D & _); [reflexivity | vm_compute; reflexivity |].
    exists calls, r', hd. split; [exact E | exact D].
Defined.

(** A packet that arrives with TTL zero is forwarded with TTL 255. *)
Lemma IpForward_ttl_zero_wraps :
  IpForward false demo_route [1; 2; 3] no_tags (SetTtl 0 demo_header) demo_l3 =
    Some [InterfaceSend 1 [1; 2; 3] no_tags (SetTtl 255 demo_header) (GetDestination demo_header)].
Proof. vm_compute. reflexivity. Qed.

(** A packet with the don't-fragment flag is fragmented. *)
Lemma dont_fragment_ignored :
  option_map (fun calls => length (sent calls))
    (SendRealOut false (Some demo_route) demo_bytes no_tags (SetDontFragment demo_header) demo_l3) = Some 2%nat.
Proof. vm_compute. reflexivity. Qed.

(** A limited broadcast carries the TTL of the packet's tag on the first
    interface only: the tag is gone when the second copy is sent. *)
Lemma broadcast_loses_ttl :
  option_map (fun r => (fun c => GetTtl (call_header c)) <$> r.1)
    (Send false [1; 2; 3] (mkTags (Some 1) None None) GetAny GetBroadcast 17 None demo_l3) = Some [1; 64].
Proof. vm_compute. reflexivity. Qed.

(** A node gets a device, an address and a transport protocol, brings the interface up,
    removes the protocol and sends a broadcast. *)
Definition wf_1 : L3 Ipv4StaticRouting := mkL3 (empty_table true false) (Some StaticRouting_new) ∅ 64 ∅.
Definition wf_2 : L3 Ipv4StaticRouting := set_ifs (AddInterface (mkDevice 100 1500 true true false) (l3_ifs wf_1)).2 wf_1.
Definition wf_3 : L3 Ipv4StaticRouting := from_option snd wf_2 (L3_AddAddress 0 (Ipv4InterfaceAddress.InterfaceAddress_new 0x0a010001 0xffff0000) wf_2).
Definition wf_4 : L3 Ipv4StaticRouting := Insert 9 17 wf_3.
Definition wf_5 : L3 Ipv4StaticRouting := from_option id wf_4 (SetUp 0 wf_4).
Definition wf_6 : L3 Ipv4StaticRouting := Remove 17 wf_5.
Definition wf_7 : L3 Ipv4StaticRouting := from_option snd wf_6 (Send false [1; 2; 3] no_tags GetAny GetBroadcast 17 None wf_6).
Lemma from_option_reach {A} (f : A -> L3 Ipv4StaticRouting) d (o : option A) : (forall x, o = Some x -> l3_reach false (f x)) -> l3_reach false d -> l3_reach false (from_option f d o).
Proof. intros H Hd. destruct o as [x|]; [by apply H|done]. Qed.
Lemma wf_7_reach : l3_reach false wf_7.
Proof.
  assert (l3_reach false wf_2) as H2 by (apply (l3_add_interface false wf_1); [apply l3_start | simpl; lia | simpl; lia | reflexivity]).
  assert (l3_reach false wf_3) as H3 by (apply from_option_reach; [intros [b s] E; by eapply l3_add_address | done]).
  assert (l3_reach false wf_4) as H4 by (by apply l3_insert).
  assert (l3_reach false wf_5) as H5 by (apply from_option_reach; [intros s E; by eapply l3_up | done]).
  assert (l3_reach false wf_6) as H6 by (by apply l3_remove_protocol).
  apply from_option_reach; [intros [calls s] E; by eapply l3_send | done].
Qed.
Lemma l3_reach_wf_witness : l3_reach false wf_7 /\ l3_wf wf_7 /\ ident (ident_key GetAny GetBroadcast 17) wf_7 = 1 /\ m_protocols wf_7 !! (17, -1) = None.
Proof. split; [exact wf_7_reach|]. split; [exact (l3_reach_wf false wf_7 wf_7_reach)|]. split; vm_compute; reflexivity. Defined.

End Ipv4L3Props.
