(* ===== verification/EndPoints.v ===== *)
(** * IPv4 end points and their table (src/internet/model/ipv4-end-point.cc,
    src/internet/model/ipv4-end-point-demux.cc)

    An end point is where a socket meets a transport protocol. The table allocates
    end points, with ephemeral ports on request, and finds the end point a packet is
    for. End points live exactly as long as they are in the table, so the table is a
    list of end points with their addresses in memory. *)

From S2P Require Import Prelude Ipv4Address Ipv4Interface.

Import Ipv4Mask Ipv4Address Ipv4InterfaceAddress Ipv4Interface.

(** ** End points *)

Module Ipv4EndPoint.

(** Devices and sockets are known by their addresses; a callback is a method of a
    socket. *)
Record Ipv4EndPoint := mkEndPoint {
  m_localAddr : Z;
  m_localPort : Z;
  m_peerAddr : Z;
  m_peerPort : Z;
  m_boundnetdevice : option Z;
  m_rxCallback : option Z;
  m_icmpCallback : option Z;
  m_destroyCallback : option Z;
  m_rxEnabled : bool
}.

Definition Ipv4EndPoint_new (address port : Z) : Ipv4EndPoint :=
  mkEndPoint address port GetAny 0 None None None None true.
Definition SetLocalAddress (address : Z) (e : Ipv4EndPoint) : Ipv4EndPoint :=
  mkEndPoint address (m_localPort e) (m_peerAddr e) (m_peerPort e) (m_boundnetdevice e) (m_rxCallback e)
    (m_icmpCallback e) (m_destroyCallback e) (m_rxEnabled e).
Definition SetPeer (address port : Z) (e : Ipv4EndPoint) : Ipv4EndPoint :=
  mkEndPoint (m_localAddr e) (m_localPort e) address port (m_boundnetdevice e) (m_rxCallback e)
    (m_icmpCallback e) (m_destroyCallback e) (m_rxEnabled e).
Definition BindToNetDevice (netdevice : option Z) (e : Ipv4EndPoint) : Ipv4EndPoint :=
  mkEndPoint (m_localAddr e) (m_localPort e) (m_peerAddr e) (m_peerPort e) netdevice (m_rxCallback e)
    (m_icmpCallback e) (m_destroyCallback e) (m_rxEnabled e).
Definition SetRxCallback (callback : option Z) (e : Ipv4EndPoint) : Ipv4EndPoint :=
  mkEndPoint (m_localAddr e) (m_localPort e) (m_peerAddr e) (m_peerPort e) (m_boundnetdevice e) callback
    (m_icmpCallback e) (m_destroyCallback e) (m_rxEnabled e).
Definition SetIcmpCallback (callback : option Z) (e : Ipv4EndPoint) : Ipv4EndPoint :=
  mkEndPoint (m_localAddr e) (m_localPort e) (m_peerAddr e) (m_peerPort e) (m_boundnetdevice e) (m_rxCallback e)
    callback (m_destroyCallback e) (m_rxEnabled e).
Definition SetDestroyCallback (callback : option Z) (e : Ipv4EndPoint) : Ipv4EndPoint :=
  mkEndPoint (m_localAddr e) (m_localPort e) (m_peerAddr e) (m_peerPort e) (m_boundnetdevice e) (m_rxCallback e)
    (m_icmpCallback e) callback (m_rxEnabled e).
Definition SetRxEnabled (enabled : bool) (e : Ipv4EndPoint) : Ipv4EndPoint :=
  mkEndPoint (m_localAddr e) (m_localPort e) (m_peerAddr e) (m_peerPort e) (m_boundnetdevice e) (m_rxCallback e)
    (m_icmpCallback e) (m_destroyCallback e) enabled.

End Ipv4EndPoint.

(** ** The table *)

Module EndPoints.
Export Ipv4EndPoint.

Record Ipv4EndPointDemux := mkDemux {
  m_ephemeral : Z;
  m_portLast : Z;
  m_portFirst : Z;
  m_endPoints : list (Z * Ipv4EndPoint);
  next_endPoint : Z                       (* the address the next end point gets *)
}.
Definition Ipv4EndPointDemux_new : Ipv4EndPointDemux := mkDemux 49152 65535 49152 [] 1.
Definition set_endPoints (l : list (Z * Ipv4EndPoint)) (d : Ipv4EndPointDemux) : Ipv4EndPointDemux :=
  mkDemux (m_ephemeral d) (m_portLast d) (m_portFirst d) l (next_endPoint d).

Definition LookupPortLocal (port : Z) (d : Ipv4EndPointDemux) : bool :=
  existsb (fun e => m_localPort e.2 =? port) (m_endPoints d).
Definition LookupLocal (boundNetDevice : option Z) (addr port : Z) (d : Ipv4EndPointDemux) : bool :=
  existsb (fun e => (m_localPort e.2 =? port) && (m_localAddr e.2 =? addr) &&
             bool_decide (m_boundnetdevice e.2 = boundNetDevice)) (m_endPoints d).

(** *** Ephemeral ports *)

Definition next_port (d : Ipv4EndPointDemux) (port : Z) : Z :=
  let port := u16 (port + 1) in
  if (port <? m_portFirst d) || (m_portLast d <? port) then m_portFirst d else port.
(** The turns of the loop that are left are those for which [count] is not yet
    negative; [None] is the early return. *)
Fixpoint ephemeral_loop (turns : nat) (d : Ipv4EndPointDemux) (port : Z) : option Z :=
  match turns with
  | O => None
  | S turns =>
      let port := next_port d port in
      if LookupPortLocal port d then ephemeral_loop turns d port else Some port
  end.
Definition AllocateEphemeralPort (d : Ipv4EndPointDemux) : Z * Ipv4EndPointDemux :=
  match ephemeral_loop (Z.to_nat (m_portLast d - m_portFirst d + 1)) d (m_ephemeral d) with
  | None => (0, d)
  | Some port => (port, mkDemux port (m_portLast d) (m_portFirst d) (m_endPoints d) (next_endPoint d))
  end.

(** *** Allocation; [None] is the null pointer *)

Definition push_back (e : Ipv4EndPoint) (d : Ipv4EndPointDemux) : option Z * Ipv4EndPointDemux :=
  (Some (next_endPoint d),
   mkDemux (m_ephemeral d) (m_portLast d) (m_portFirst d) (m_endPoints d ++ [(next_endPoint d, e)]) (next_endPoint d + 1)).
Definition Allocate_address (address : Z) (d : Ipv4EndPointDemux) : option Z * Ipv4EndPointDemux :=
  let '(port, d) := AllocateEphemeralPort d in
  if port =? 0 then (None, d) else push_back (Ipv4EndPoint_new address port) d.
Definition Allocate (d : Ipv4EndPointDemux) : option Z * Ipv4EndPointDemux :=
  let '(port, d) := AllocateEphemeralPort d in
  if port =? 0 then (None, d) else push_back (Ipv4EndPoint_new GetAny port) d.
Definition Allocate_local (boundNetDevice : option Z) (address port : Z) (d : Ipv4EndPointDemux)
    : option Z * Ipv4EndPointDemux :=
  if LookupLocal boundNetDevice address port d || LookupLocal None address port d then (None, d)
  else push_back (Ipv4EndPoint_new address port) d.
Definition Allocate_port (boundNetDevice : option Z) (port : Z) (d : Ipv4EndPointDemux)
    : option Z * Ipv4EndPointDemux :=
  Allocate_local boundNetDevice GetAny port d.
Definition Allocate_peer (boundNetDevice : option Z) (localAddress localPort peerAddress peerPort : Z)
    (d : Ipv4EndPointDemux) : option Z * Ipv4EndPointDemux :=
  if existsb (fun e => (m_localPort e.2 =? localPort) && (m_localAddr e.2 =? localAddress) &&
       (m_peerPort e.2 =? peerPort) && (m_peerAddr e.2 =? peerAddress) &&
       (bool_decide (m_boundnetdevice e.2 = boundNetDevice) || bool_decide (m_boundnetdevice e.2 = None)))
     (m_endPoints d)
  then (None, d)
  else push_back (SetPeer peerAddress peerPort (Ipv4EndPoint_new localAddress localPort)) d.

(** The end point at an address, and a change of it through its pointer. *)
Fixpoint get (p : Z) (l : list (Z * Ipv4EndPoint)) : option Ipv4EndPoint :=
  match l with [] => None | (q, e) :: l => if q =? p then Some e else get p l end.
Definition endPoint_at (p : Z) (d : Ipv4EndPointDemux) : option Ipv4EndPoint := get p (m_endPoints d).
Definition update_endPoint (p : Z) (f : Ipv4EndPoint -> Ipv4EndPoint) (d : Ipv4EndPointDemux) : Ipv4EndPointDemux :=
  set_endPoints ((fun e => if e.1 =? p then (e.1, f e.2) else e) <$> m_endPoints d) d.

(** The end point leaves the table; its destroy callback, if any, is returned for the
    owner of the table to run. *)
Fixpoint erase (p : Z) (l : list (Z * Ipv4EndPoint)) : option (Ipv4EndPoint * list (Z * Ipv4EndPoint)) :=
  match l with
  | [] => None
  | (q, e) :: l =>
      if q =? p then Some (e, l)
      else match erase p l with Some (r, l') => Some (r, (q, e) :: l') | None => None end
  end.
Definition DeAllocate (endPoint : Z) (d : Ipv4EndPointDemux) : option Z * Ipv4EndPointDemux :=
  match erase endPoint (m_endPoints d) with
  | Some (e, l) => (m_destroyCallback e, set_endPoints l d)
  | None => (None, d)
  end.
Definition GetAllEndPoints (d : Ipv4EndPointDemux) : list Z := (m_endPoints d).*1.

(** *** Lookup *)

(** What the loop of [Lookup] finds out about one end point: whether its local address
    matches exactly, or as a wildcard; [None] is a [continue]. *)
Definition match_local (daddr : Z) (incomingInterface : Ipv4Interface) (e : Ipv4EndPoint) : option (bool * bool) :=
  if m_localAddr e =? daddr then Some (true, false)
  else if m_localAddr e =? GetAny then Some (false, true)
  else
    let localAddressIsSubnetAny :=
      existsb (fun addr => let addrNetpart := CombineMask (m_local addr) (m_mask addr) in
                 (m_localAddr e =? addrNetpart) && (addrNetpart =? CombineMask daddr (m_mask addr)))
        (m_ifaddrs incomingInterface) in
    if negb localAddressIsSubnetAny then None else Some (false, localAddressIsSubnetAny).

Record Matches := mkMatches { retval1 : list Z; retval2 : list Z; retval3 : list Z; retval4 : list Z }.

Definition add_if (b : bool) (p : Z) (l : list Z) : list Z := if b then l ++ [p] else l.
Definition scan (daddr dport saddr sport : Z) (incomingInterface : Ipv4Interface) (r : Matches) (x : Z * Ipv4EndPoint)
    : Matches :=
  let '(p, endP) := x in
  if negb (m_rxEnabled endP) then r
  else if negb (m_localPort endP =? dport) then r
  else if match m_boundnetdevice endP with
          | Some dev => negb (dev =? dev_id (m_device incomingInterface))
          | None => false
          end then r
  else
    match match_local daddr incomingInterface endP with
    | None => r
    | Some (localAddressMatchesExact, localAddressMatchesWildCard) =>
        let remotePortMatchesExact := m_peerPort endP =? sport in
        let remotePortMatchesWildCard := m_peerPort endP =? 0 in
        let remoteAddressMatchesExact := m_peerAddr endP =? saddr in
        let remoteAddressMatchesWildCard := m_peerAddr endP =? GetAny in
        if negb (remotePortMatchesExact || remotePortMatchesWildCard) then r
        else if negb (remoteAddressMatchesExact || remoteAddressMatchesWildCard) then r
        else
          mkMatches
            (add_if (localAddressMatchesWildCard && remoteAddressMatchesWildCard && remotePortMatchesWildCard) p (retval1 r))
            (add_if (localAddressMatchesExact && remoteAddressMatchesWildCard && remotePortMatchesWildCard) p (retval2 r))
            (add_if (localAddressMatchesWildCard && remoteAddressMatchesExact && remotePortMatchesExact) p (retval3 r))
            (add_if (localAddressMatchesExact && remoteAddressMatchesExact && remotePortMatchesExact) p (retval4 r))
    end.
Definition is_empty {A} (l : list A) : bool := match l with [] => true | _ => false end.
(** More than one end point in the result is an abort. *)
Definition Lookup (daddr dport saddr sport : Z) (incomingInterface : Ipv4Interface) (d : Ipv4EndPointDemux)
    : option (list Z) :=
  let r := fold_left (scan daddr dport saddr sport incomingInterface) (m_endPoints d) (mkMatches [] [] [] []) in
  let retval :=
    if negb (is_empty (retval4 r)) then retval4 r
    else if negb (is_empty (retval3 r)) then retval3 r
    else if negb (is_empty (retval2 r)) then retval2 r
    else retval1 r in
  assert* (length retval <=? 1)%nat in Some retval.

(** The old lookup, which ICMP messages use. *)
Fixpoint simple_loop (daddr dport saddr sport : Z) (l : list (Z * Ipv4EndPoint)) (genericity : Z) (generic : option Z)
    : option Z :=
  match l with
  | [] => generic
  | (p, e) :: rest =>
      if negb (m_localPort e =? dport) then simple_loop daddr dport saddr sport rest genericity generic
      else if (m_localAddr e =? daddr) && (m_peerPort e =? sport) && (m_peerAddr e =? saddr) then Some p
      else
        let tmp := (if m_localAddr e =? GetAny then 1 else 0) + (if m_peerAddr e =? GetAny then 1 else 0) in
        if tmp <? genericity then simple_loop daddr dport saddr sport rest tmp (Some p)
        else simple_loop daddr dport saddr sport rest genericity generic
  end.
Definition SimpleLookup (daddr dport saddr sport : Z) (d : Ipv4EndPointDemux) : option Z :=
  simple_loop daddr dport saddr sport (m_endPoints d) 3 None.

End EndPoints.

(** * What the table of end points promises

    Ephemeral ports are fresh and found whenever one is free; [Lookup] finds the most
    specific end point; tables whose end points differ in address or port never make
    it abort. *)

Import Ipv4Mask Ipv4Address Ipv4InterfaceAddress Ipv4Interface EndPoints.

Module EndPointsProps.

(** ** Ephemeral ports *)

Definition ports (d : Ipv4EndPointDemux) : list Z := (fun e => m_localPort e.2) <$> m_endPoints d.
Lemma LookupPortLocal_spec port d : LookupPortLocal port d = true <-> port ∈ ports d.
Proof.
  unfold LookupPortLocal, ports. rewrite existsb_exists, list_elem_of_fmap. setoid_rewrite Z.eqb_eq.
  setoid_rewrite list_elem_of_In. naive_solver.
Qed.
Lemma LookupPortLocal_free port d : LookupPortLocal port d = false <-> port ∉ ports d.
Proof. rewrite <- LookupPortLocal_spec. by destruct (LookupPortLocal port d). Qed.

Record range_ok (d : Ipv4EndPointDemux) : Prop := mkRange {
  ro_range : 0 < m_portFirst d <= m_portLast d;
  ro_last : m_portLast d < 2 ^ 16;
  ro_ephemeral : m_portFirst d <= m_ephemeral d <= m_portLast d
}.
(** The port [k] turns after [port], around the range. *)
Definition port_after (d : Ipv4EndPointDemux) (port k : Z) : Z :=
  m_portFirst d + (port - m_portFirst d + k) mod (m_portLast d - m_portFirst d + 1).

Lemma next_port_after d port : 0 < m_portFirst d -> m_portLast d < 2 ^ 16 -> m_portFirst d <= port <= m_portLast d ->
  next_port d port = port_after d port 1 /\ m_portFirst d <= next_port d port <= m_portLast d.
Proof.
  intros H1 H2 Hp. unfold next_port, port_after, u16. set (n := m_portLast d - m_portFirst d + 1).
  destruct (decide (port = m_portLast d)) as [->|Hne].
  - replace (m_portLast d - m_portFirst d + 1) with (0 + 1 * n) by lia. rewrite Z_mod_plus_full, Z.mod_0_l by lia.
    assert ((wrap 16 (m_portLast d + 1) <? m_portFirst d) || (m_portLast d <? wrap 16 (m_portLast d + 1)) = true) as ->; [|lia].
    destruct (decide (m_portLast d + 1 = 2 ^ 16)) as [->|Hw].
    + unfold wrap. rewrite Z_mod_same_full. by rewrite (proj2 (Z.ltb_lt _ _)) by lia.
    + rewrite wrap_small by lia. rewrite (proj2 (Z.ltb_lt (m_portLast d) _)) by lia. apply orb_true_r.
  - rewrite wrap_small by lia. rewrite (proj2 (Z.ltb_ge _ _)), (proj2 (Z.ltb_ge _ _)) by lia. cbn [orb].
    rewrite Z.mod_small by lia. lia.
Qed.
Lemma port_after_after d port k : m_portFirst d <= m_portLast d -> port_after d (port_after d port 1) k = port_after d port (k + 1).
Proof.
  intros H. unfold port_after. set (n := m_portLast d - m_portFirst d + 1). f_equal.
  rewrite (Z.add_comm (m_portFirst d)), Z.add_simpl_r, Zplus_mod_idemp_l. f_equal. lia.
Qed.
Lemma ephemeral_loop_spec n d port : 0 < m_portFirst d -> m_portLast d < 2 ^ 16 -> m_portFirst d <= port <= m_portLast d ->
  match ephemeral_loop n d port with
  | Some q => m_portFirst d <= q <= m_portLast d /\ q ∉ ports d /\
      exists k, q = port_after d port k /\ 1 <= k <= Z.of_nat n /\ forall j, 1 <= j < k -> port_after d port j ∈ ports d
  | None => forall k, 1 <= k <= Z.of_nat n -> port_after d port k ∈ ports d
  end.
Proof.
  intros H1 H2. revert port. induction n as [|n IH]; intros port Hp; cbn [ephemeral_loop]; [lia|].
  destruct (next_port_after d port H1 H2 Hp) as [E Hr]. destruct (LookupPortLocal (next_port d port) d) eqn:El.
  - apply LookupPortLocal_spec in El. specialize (IH _ Hr). rewrite E in El.
    assert (forall m, (forall j, 1 <= j <= m -> port_after d (port_after d port 1) j ∈ ports d) ->
      forall j, 1 <= j <= m + 1 -> port_after d port j ∈ ports d) as Hshift.
    { intros m Hm j Hj. destruct (decide (j = 1)) as [->|Hj1]; [done|]. replace j with (j - 1 + 1) by lia.
      rewrite <- port_after_after by lia. apply Hm. lia. }
    rewrite E in IH |- *. destruct (ephemeral_loop n d (port_after d port 1)) as [q|].
    + destruct IH as (Hq&Hf&k&->&Hk&Hb). split; [done|]. split; [done|]. exists (k + 1). rewrite port_after_after by lia.
      split_and!; [done|lia|lia|]. intros j Hj. apply (Hshift (k - 1)); [|lia]. intros i Hi. apply Hb. lia.
    + intros k Hk. apply (Hshift (Z.of_nat n)); [|lia]. exact IH.
  - apply LookupPortLocal_free in El. split; [done|]. split; [done|]. exists 1. split_and!; [done|lia|lia|]. intros j Hj. lia.
Qed.
(** Every port of the range is met within one round. *)
Lemma port_after_all d port q : m_portFirst d <= port <= m_portLast d -> m_portFirst d <= q <= m_portLast d ->
  exists k, 1 <= k <= m_portLast d - m_portFirst d + 1 /\ port_after d port k = q.
Proof.
  intros Hp Hq. unfold port_after. set (n := m_portLast d - m_portFirst d + 1). destruct (decide (port < q)).
  - exists (q - port). rewrite Z.mod_small by lia. lia.
  - exists (q - port + n). replace (port - m_portFirst d + (q - port + n)) with (q - m_portFirst d + 1 * n) by lia.
    rewrite Z_mod_plus_full, Z.mod_small by lia. lia.
Qed.
Lemma AllocateEphemeralPort_spec d : range_ok d ->
  let '(port, d') := AllocateEphemeralPort d in
  range_ok d' /\ m_endPoints d' = m_endPoints d /\ next_endPoint d' = next_endPoint d /\ m_portFirst d' = m_portFirst d /\ m_portLast d' = m_portLast d /\
  ((port = 0 /\ d' = d /\ forall q, m_portFirst d <= q <= m_portLast d -> q ∈ ports d) \/
   (m_portFirst d <= port <= m_portLast d /\ port ∉ ports d /\ m_ephemeral d' = port)).
Proof.
  intros [H1 H2 H3]. unfold AllocateEphemeralPort.
  pose proof (ephemeral_loop_spec (Z.to_nat (m_portLast d - m_portFirst d + 1)) d (m_ephemeral d) ltac:(lia) H2 H3) as Hs.
  destruct (ephemeral_loop _ d _) as [q|].
  - destruct Hs as (Hq&Hf&_). split; [by constructor|]. split_and!; try done. by right.
  - split; [by constructor|]. split_and!; try done. left. split_and!; [done..|]. intros q Hq.
    destruct (port_after_all d (m_ephemeral d) q H3 Hq) as (k&Hk&<-). apply Hs. lia.
Qed.

(** ** Specification of [Lookup]

    How well an end point fits a packet: 0 if it may not have it; the peer counts
    twice as much as the local address. *)
Section Packet.
Context (daddr dport saddr sport : Z) (interface : Ipv4Interface).

Definition device_fits (e : Ipv4EndPoint) : bool :=
  match m_boundnetdevice e with Some dev => dev =? dev_id (m_device interface) | None => true end.
(** The end point is bound to the network of an address of the interface, and the packet
    is for that network. *)
Definition network_fits (e : Ipv4EndPoint) : bool :=
  existsb (fun a => (m_localAddr e =? CombineMask (m_local a) (m_mask a)) &&
             (CombineMask (m_local a) (m_mask a) =? CombineMask daddr (m_mask a))) (m_ifaddrs interface).
Definition local_exact (e : Ipv4EndPoint) : bool := m_localAddr e =? daddr.
Definition local_fits (e : Ipv4EndPoint) : bool := local_exact e || (m_localAddr e =? GetAny) || network_fits e.
Definition peer_exact (e : Ipv4EndPoint) : bool := (m_peerAddr e =? saddr) && (m_peerPort e =? sport).
Definition peer_open (e : Ipv4EndPoint) : bool := (m_peerAddr e =? GetAny) && (m_peerPort e =? 0).
Definition fits (e : Ipv4EndPoint) : bool :=
  m_rxEnabled e && (m_localPort e =? dport) && device_fits e && local_fits e && (peer_exact e || peer_open e).
Definition rank (e : Ipv4EndPoint) : Z :=
  if fits e then 1 + (if local_exact e then 1 else 0) + (if peer_exact e then 2 else 0) else 0.

(** The end points that fit and that none fits better. *)
Definition best (l : list (Z * Ipv4EndPoint)) : list (Z * Ipv4EndPoint) :=
  List.filter (fun x => fits x.2 && forallb (fun y => rank y.2 <=? rank x.2) l) l.

Definition receives (e : Ipv4EndPoint) : bool := m_rxEnabled e && (m_localPort e =? dport) && device_fits e && local_fits e.
Definition class4 (e : Ipv4EndPoint) : bool := receives e && (local_exact e && peer_exact e).
Definition class3 (e : Ipv4EndPoint) : bool := receives e && (negb (local_exact e) && peer_exact e).
Definition class2 (e : Ipv4EndPoint) : bool := receives e && (local_exact e && peer_open e).
Definition class1 (e : Ipv4EndPoint) : bool := receives e && (negb (local_exact e) && peer_open e).
Definition members (c : Ipv4EndPoint -> bool) (l : list (Z * Ipv4EndPoint)) : list Z := (List.filter (fun x => c x.2) l).*1.

Lemma scan_classes r x : scan daddr dport saddr sport interface r x =
  mkMatches (add_if (class1 x.2) x.1 (retval1 r)) (add_if (class2 x.2) x.1 (retval2 r))
    (add_if (class3 x.2) x.1 (retval3 r)) (add_if (class4 x.2) x.1 (retval4 r)).
Proof.
  destruct x as [p e]. unfold class1, class2, class3, class4, receives, scan, match_local, local_fits, device_fits.
  change (existsb _ (m_ifaddrs interface)) with (network_fits e). unfold local_exact, peer_exact, peer_open. cbn [fst snd].
  destruct (m_rxEnabled e); [|by destruct r]. destruct (m_localPort e =? dport); [|by destruct r].
  destruct (m_boundnetdevice e) as [dev|]; [destruct (dev =? _); [|by destruct r]|];
    (destruct (m_localAddr e =? daddr); [|destruct (m_localAddr e =? GetAny); [|destruct (network_fits e); [|by destruct r]]]);
    destruct (m_peerPort e =? sport), (m_peerPort e =? 0), (m_peerAddr e =? saddr), (m_peerAddr e =? GetAny); by destruct r.
Qed.
Lemma scan_members l r : fold_left (scan daddr dport saddr sport interface) l r =
  mkMatches (retval1 r ++ members class1 l) (retval2 r ++ members class2 l) (retval3 r ++ members class3 l) (retval4 r ++ members class4 l).
Proof.
  revert r. induction l as [|x l IH]; intros r; cbn [fold_left]; [destruct r; by rewrite !app_nil_r|].
  rewrite IH, scan_classes. unfold members. cbn [List.filter retval1 retval2 retval3 retval4]. unfold add_if.
  destruct (class1 x.2), (class2 x.2), (class3 x.2), (class4 x.2); cbn [fmap list_fmap]; by rewrite <- ?app_assoc.
Qed.

Lemma rank_range e : 0 <= rank e <= 4 /\ (fits e = true <-> 0 < rank e).
Proof. unfold rank. destruct (fits e), (local_exact e), (peer_exact e); split; try lia; split; done || lia. Qed.
Lemma class4_rank e : class4 e = (rank e =? 4).
Proof.
  unfold class4, rank, fits. fold (receives e). destruct (receives e); [|done].
  by destruct (local_exact e), (peer_exact e), (peer_open e).
Qed.
Lemma class3_rank e : class3 e = (rank e =? 3).
Proof.
  unfold class3, rank, fits. fold (receives e). destruct (receives e); [|done].
  by destruct (local_exact e), (peer_exact e), (peer_open e).
Qed.
Lemma class2_rank e : rank e <= 2 -> class2 e = (rank e =? 2).
Proof.
  unfold class2, rank, fits. fold (receives e). destruct (receives e); [|done].
  by destruct (local_exact e), (peer_exact e), (peer_open e).
Qed.
Lemma class1_rank e : rank e <= 1 -> class1 e = (rank e =? 1).
Proof.
  unfold class1, rank, fits. fold (receives e). destruct (receives e); [|done].
  by destruct (local_exact e), (peer_exact e), (peer_open e).
Qed.

Lemma is_empty_spec {A} (l : list A) : is_empty l = true <-> l = [].
Proof. by destruct l. Qed.
Lemma members_empty c l : is_empty (members c l) = true -> forall x, x ∈ l -> c x.2 = false.
Proof.
  intros E%is_empty_spec x Hx. destruct (c x.2) eqn:Ec; [|done]. exfalso. unfold members in E. apply fmap_nil_inv in E.
  assert (In x (List.filter (fun x => c x.2) l)) as Hi by (apply filter_In; split; [by apply list_elem_of_In|done]). by rewrite E in Hi.
Qed.
Lemma members_some c l : is_empty (members c l) = false -> exists x, x ∈ l /\ c x.2 = true.
Proof.
  intros E. unfold members in E. destruct (List.filter (fun x => c x.2) l) as [|x l'] eqn:Ef; [done|].
  assert (In x (List.filter (fun x => c x.2) l)) as Hi by (rewrite Ef; by left). apply filter_In in Hi as [Hi Hc].
  exists x. split; [by apply list_elem_of_In|done].
Qed.
(** The best end points are those of the highest rank that occurs. *)
Lemma best_members l k c : 0 < k -> (forall x, x ∈ l -> rank x.2 <= k /\ c x.2 = (rank x.2 =? k)) -> (k = 1 \/ exists x, x ∈ l /\ c x.2 = true) ->
  (best l).*1 = members c l.
Proof.
  intros Hk Hc Hx. unfold best, members. f_equal. apply filter_ext_in. intros y Hy%list_elem_of_In. destruct (Hc y Hy) as [Hr ->].
  destruct (rank_range y.2) as [R1 R2]. destruct (Z.eqb_spec (rank y.2) k) as [E|E].
  - apply andb_true_iff. split; [apply R2; lia|]. apply forallb_forall. intros z Hz%list_elem_of_In. apply Z.leb_le. rewrite E. by apply Hc.
  - destruct (fits y.2); [|done]. assert (0 < rank y.2) by (by apply R2). destruct Hx as [->|(x&Hx&Ex)]; [lia|].
    destruct (Hc x Hx) as [_ Ex']. rewrite Ex in Ex'. symmetry in Ex'. apply Z.eqb_eq in Ex'.
    apply not_true_iff_false. intros Hf. cbn [andb] in Hf. rewrite forallb_forall in Hf. specialize (Hf x (proj1 (list_elem_of_In _ _) Hx)). bool_prop. lia.
Qed.
Lemma demux_Lookup_ok d : Lookup daddr dport saddr sport interface d =
  let r := (best (m_endPoints d)).*1 in if (length r <=? 1)%nat then Some r else None.
Proof.
  unfold Lookup. rewrite scan_members. cbn [retval1 retval2 retval3 retval4 app]. set (l := m_endPoints d).
  cbv zeta. match goal with |- context [NS_ASSERT (Nat.leb (length ?r) 1)] => assert (r = (best l).*1) as Er end.
  2: { rewrite Er. by destruct (_ <=? 1)%nat. }
  symmetry. destruct (is_empty (members class4 l)) eqn:E4; cbn [negb].
  2: { apply (best_members l 4); [lia| |right; by apply members_some]. intros x _. pose proof (rank_range x.2). rewrite class4_rank. split; [lia|done]. }
  pose proof (members_empty _ _ E4) as H4. assert (forall x, x ∈ l -> rank x.2 <= 3) as R3.
  { intros x Hx. specialize (H4 x Hx). rewrite class4_rank in H4. bool_prop. pose proof (rank_range x.2). lia. }
  destruct (is_empty (members class3 l)) eqn:E3; cbn [negb].
  2: { apply (best_members l 3); [lia| |right; by apply members_some]. intros x Hx. rewrite class3_rank. split; [by apply R3|done]. }
  pose proof (members_empty _ _ E3) as H3. assert (forall x, x ∈ l -> rank x.2 <= 2) as R2.
  { intros x Hx. specialize (H3 x Hx). specialize (R3 x Hx). rewrite class3_rank in H3. bool_prop. lia. }
  destruct (is_empty (members class2 l)) eqn:E2; cbn [negb].
  2: { apply (best_members l 2); [lia| |right; by apply members_some]. intros x Hx. split; [by apply R2|apply class2_rank; by apply R2]. }
  pose proof (members_empty _ _ E2) as H2. apply (best_members l 1); [lia| |by left]. intros x Hx.
  assert (rank x.2 <= 1) as R1. { specialize (H2 x Hx). specialize (R2 x Hx). rewrite class2_rank in H2 by done. bool_prop. lia. }
  split; [done|by apply class1_rank].
Qed.
End Packet.

(** ** Tables that decide every packet *)

(** Two end points that never want the same packet with the same rank: they differ in
    an address or a port, or are bound to different devices. *)
Definition key (e : Ipv4EndPoint) : Z * Z * Z * Z := (m_localAddr e, m_localPort e, m_peerAddr e, m_peerPort e).
Definition devices_differ (a b : option Z) : Prop := exists x y, a = Some x /\ b = Some y /\ x <> y.
Definition compatible (x y : Z * Ipv4EndPoint) : Prop :=
  key x.2 <> key y.2 \/ devices_differ (m_boundnetdevice x.2) (m_boundnetdevice y.2).
Definition clash_free (d : Ipv4EndPointDemux) : Prop := StronglySorted compatible (m_endPoints d).
(** No end point is bound to a network the packet is for, except as its very address. *)
Definition no_network (daddr : Z) (interface : Ipv4Interface) (d : Ipv4EndPointDemux) : Prop :=
  forall x, x ∈ m_endPoints d -> network_fits daddr interface x.2 = true -> m_localAddr x.2 = daddr \/ m_localAddr x.2 = GetAny.

Lemma StronglySorted_filter {A} (R : A -> A -> Prop) (f : A -> bool) l : StronglySorted R l -> StronglySorted R (List.filter f l).
Proof.
  induction l as [|x l IH]; intros H; [constructor|]. apply StronglySorted_inv in H as [H Hx]. cbn [List.filter].
  destruct (f x); [|by apply IH]. constructor; [by apply IH|]. apply Forall_forall. intros y Hy%list_elem_of_In.
  apply filter_In in Hy as [Hy _]. apply (proj1 (Forall_forall _ _) Hx). by apply list_elem_of_In.
Qed.
Lemma best_in daddr dport saddr sport i l x : x ∈ best daddr dport saddr sport i l ->
  x ∈ l /\ fits daddr dport saddr sport i x.2 = true /\ forall y, y ∈ l -> rank daddr dport saddr sport i y.2 <= rank daddr dport saddr sport i x.2.
Proof.
  intros Hx%list_elem_of_In. apply filter_In in Hx as [Hx Hb]. apply andb_true_iff in Hb as [Hf Hb]. rewrite <- list_elem_of_In in Hx.
  split_and!; [done..|]. intros y Hy%list_elem_of_In. rewrite forallb_forall in Hb. apply Z.leb_le, Hb, Hy.
Qed.
(** End points of one rank are of one kind. *)
Lemma same_rank_key daddr dport saddr sport i x y : fits daddr dport saddr sport i x = true -> fits daddr dport saddr sport i y = true ->
  rank daddr dport saddr sport i x = rank daddr dport saddr sport i y ->
  (network_fits daddr i x = true -> m_localAddr x = daddr \/ m_localAddr x = GetAny) ->
  (network_fits daddr i y = true -> m_localAddr y = daddr \/ m_localAddr y = GetAny) ->
  key x = key y /\ ~ devices_differ (m_boundnetdevice x) (m_boundnetdevice y).
Proof.
  intros Hx Hy Hr Nx Ny. unfold rank in Hr. rewrite Hx, Hy in Hr. unfold fits, local_fits, device_fits, local_exact, peer_exact, peer_open in *.
  bool_prop. split.
  - assert (m_localAddr x = m_localAddr y /\ m_peerAddr x = m_peerAddr y /\ m_peerPort x = m_peerPort y) as (E1&E2&E3); [|unfold key; congruence].
    destruct (Z.eqb_spec (m_localAddr x) daddr), (Z.eqb_spec (m_localAddr y) daddr),
      (Z.eqb_spec (m_peerAddr x) saddr), (Z.eqb_spec (m_peerPort x) sport), (Z.eqb_spec (m_peerAddr y) saddr), (Z.eqb_spec (m_peerPort y) sport);
      cbn [andb orb] in *; try lia; bool_prop; split_and!; try congruence;
      repeat match goal with H : (_ || _)%bool = true |- _ => apply orb_true_iff in H as [H|H]; bool_prop end;
      try (specialize (Nx ltac:(assumption))); try (specialize (Ny ltac:(assumption))); intuition congruence.
  - intros (a&b&Ea&Eb&Hne). rewrite Ea in *. rewrite Eb in *. bool_prop. congruence.
Qed.
Lemma all_incompatible {A} (R : A -> A -> Prop) l : StronglySorted R l -> (forall x y, x ∈ l -> y ∈ l -> ~ R x y) -> (length l <= 1)%nat.
Proof.
  intros Hs Hr. destruct l as [|x [|y l]]; [cbn; lia..|]. exfalso. apply StronglySorted_inv in Hs as [_ Hx]. apply Forall_cons in Hx as [Hx _].
  eapply (Hr x y); [by left|right; by left|done].
Qed.
Lemma best_unique daddr dport saddr sport i d : clash_free d -> no_network daddr i d ->
  (length (best daddr dport saddr sport i (m_endPoints d)) <= 1)%nat.
Proof.
  intros Hc Hn. eapply all_incompatible; [by apply StronglySorted_filter|]. intros x y Hx Hy Hxy.
  fold (best daddr dport saddr sport i (m_endPoints d)) in Hx, Hy. apply best_in in Hx as (Ix&Fx&Mx), Hy as (Iy&Fy&My).
  destruct (same_rank_key daddr dport saddr sport i x.2 y.2) as [Ek Hd]; try done; [|by apply Hn..|].
  - specialize (Mx y Iy). specialize (My x Ix). lia.
  - by destruct Hxy.
Qed.
Lemma Lookup_total daddr dport saddr sport i d : clash_free d -> no_network daddr i d ->
  Lookup daddr dport saddr sport i d = Some (best daddr dport saddr sport i (m_endPoints d)).*1.
Proof.
  intros Hc Hn. rewrite demux_Lookup_ok. cbv zeta. rewrite length_fmap, (proj2 (Nat.leb_le _ _)); [done|]. by apply best_unique.
Qed.
Lemma list_maximum {A} (r : A -> Z) (l : list A) : l <> [] -> exists y, y ∈ l /\ forall z, z ∈ l -> r z <= r y.
Proof.
  induction l as [|a l IH]; [done|]. intros _. destruct l as [|b l].
  - exists a. split; [by left|]. by intros z ->%list_elem_of_singleton.
  - destruct (IH ltac:(done)) as (y&Hy&Hm). destruct (decide (r a <= r y)).
    + exists y. split; [by right|]. intros z [->|Hz]%elem_of_cons; [done|by apply Hm].
    + exists a. split; [by left|]. intros z [->|Hz]%elem_of_cons; [lia|]. specialize (Hm z Hz). lia.
Qed.
Lemma best_exists daddr dport saddr sport i l x : x ∈ l -> fits daddr dport saddr sport i x.2 = true -> exists y, y ∈ best daddr dport saddr sport i l.
Proof.
  intros Hx Hf. destruct (list_maximum (fun y => rank daddr dport saddr sport i y.2) l) as (y&Hy&Hmax); [by destruct l; [apply elem_of_nil in Hx|]|].
  exists y. apply list_elem_of_In, filter_In. split; [by apply list_elem_of_In|]. apply andb_true_iff. split.
  - apply (rank_range daddr dport saddr sport i). specialize (Hmax x Hx). destruct (rank_range daddr dport saddr sport i x.2) as [_ R].
    apply R in Hf. lia.
  - apply forallb_forall. intros z Hz%list_elem_of_In. apply Z.leb_le, (Hmax z Hz).
Qed.

(** ** Allocation keeps tables decided *)

Record demux_ok (d : Ipv4EndPointDemux) : Prop := mkDemuxOk {
  do_range : range_ok d;
  do_clash : clash_free d;
  do_fresh : forall x, x ∈ m_endPoints d -> x.1 < next_endPoint d;
  do_nodup : NoDup (m_endPoints d).*1
}.
Lemma Demux_new_ok : demux_ok Ipv4EndPointDemux_new.
Proof. split; [split; cbn; lia|constructor|by intros x ?%elem_of_nil|constructor]. Qed.
Lemma push_back_ok e d : demux_ok d -> (forall x, x ∈ m_endPoints d -> compatible x (next_endPoint d, e)) -> demux_ok (push_back e d).2.
Proof.
  intros [[] Hc Hf Hn] He. split; cbn [push_back snd m_endPoints next_endPoint]; [by split| | |].
  - apply StronglySorted_app_intro; [done|repeat constructor|]. intros x y Hx ->%list_elem_of_singleton. by apply He.
  - intros x Hx. apply elem_of_app in Hx as [Hx|Hx]; [specialize (Hf x Hx)|apply list_elem_of_singleton in Hx as ->; cbn]; lia.
  - rewrite fmap_app. apply NoDup_app. split_and!; [done| |apply NoDup_singleton]. intros q (x&->&Hx)%list_elem_of_fmap Hq.
    apply list_elem_of_singleton in Hq. specialize (Hf x Hx). cbn in Hq. lia.
Qed.
Lemma fresh_port_compatible port d x a : port ∉ ports d -> x ∈ m_endPoints d -> compatible x (next_endPoint d, Ipv4EndPoint_new a port).
Proof.
  intros Hp Hx. left. unfold key. cbn. intros [= _ E _ _]. apply Hp, list_elem_of_fmap. by exists x.
Qed.
(** The result of an allocation: nothing, or the next end point. *)
Definition allocated (e : Ipv4EndPoint) (d : Ipv4EndPointDemux) (r : option Z * Ipv4EndPointDemux) : Prop :=
  r.1 = Some (next_endPoint d) /\ m_endPoints r.2 = m_endPoints d ++ [(next_endPoint d, e)] /\ next_endPoint r.2 = next_endPoint d + 1.
Lemma push_back_allocated e d : allocated e d (push_back e d).
Proof. done. Qed.

Lemma Allocate_address_ok a d : demux_ok d -> let r := Allocate_address a d in demux_ok r.2 /\
  ((r = (None, d) /\ forall q, m_portFirst d <= q <= m_portLast d -> q ∈ ports d) \/
   exists port, m_portFirst d <= port <= m_portLast d /\ port ∉ ports d /\ allocated (Ipv4EndPoint_new a port) d r).
Proof.
  intros Hd. pose proof (AllocateEphemeralPort_spec d (do_range _ Hd)) as Hs. unfold Allocate_address. cbv zeta.
  destruct (AllocateEphemeralPort d) as [port d']. destruct Hs as (Hr&Ee&En&E1&E2&[(->&->&Hall)|(Hp&Hf&He)]).
  - split; [done|]. by left.
  - rewrite (proj2 (Z.eqb_neq _ _)) by (pose proof (ro_range _ (do_range _ Hd)); lia).
    assert (demux_ok d') as Hd' by (destruct Hd; split; unfold clash_free in *; rewrite ?Ee, ?En; done).
    split; [apply push_back_ok; [done|]; intros x Hx; apply fresh_port_compatible; [unfold ports; by rewrite Ee|done]|].
    right. exists port. split_and!; [lia..|done|]. unfold allocated, push_back. cbn [fst snd m_endPoints next_endPoint]. rewrite Ee, En. split_and!; done.
Qed.

Lemma LookupLocal_spec dev a port d : LookupLocal dev a port d = true <->
  exists x, x ∈ m_endPoints d /\ m_localPort x.2 = port /\ m_localAddr x.2 = a /\ m_boundnetdevice x.2 = dev.
Proof.
  unfold LookupLocal. rewrite existsb_exists. setoid_rewrite list_elem_of_In. setoid_rewrite andb_true_iff. setoid_rewrite andb_true_iff.
  setoid_rewrite Z.eqb_eq. setoid_rewrite bool_decide_eq_true. naive_solver.
Qed.
(** Changing end points through their pointers. *)
Lemma update_endPoint_elem p f d x : x ∈ m_endPoints (update_endPoint p f d) ->
  exists y, y ∈ m_endPoints d /\ x.1 = y.1 /\ x.2 = (if y.1 =? p then f y.2 else y.2).
Proof. intros (y&->&Hy)%list_elem_of_fmap. exists y. by destruct (y.1 =? p). Qed.
Lemma update_endPoint_fst p f d : (m_endPoints (update_endPoint p f d)).*1 = (m_endPoints d).*1.
Proof. cbn. rewrite <- list_fmap_compose. apply list_fmap_ext. intros i x _. cbn. by destruct (x.1 =? p). Qed.
Lemma update_endPoint_ok p f d : demux_ok d -> (forall e, key (f e) = key e /\ m_boundnetdevice (f e) = m_boundnetdevice e) -> demux_ok (update_endPoint p f d).
Proof.
  intros [[] Hc Hf Hn] Hk. split; [by split| | |by rewrite update_endPoint_fst].
  - unfold clash_free in *. cbn. induction Hc as [|x l Hs IH Hx]; cbn; [constructor|]. constructor.
    + apply IH; [intros y Hy; apply Hf; by right|]. cbn in Hn. by apply NoDup_cons in Hn as [_ ?].
    + apply Forall_fmap. eapply Forall_impl; [exact Hx|]. intros y Hxy. unfold compatible in *. cbn.
      destruct (Hk x.2) as [A1 A2], (Hk y.2) as [B1 B2]. destruct (x.1 =? p), (y.1 =? p); cbn [fst snd]; by rewrite ?A1, ?A2, ?B1, ?B2.
  - intros x Hx. apply update_endPoint_elem in Hx as (y&Hy&->&_). by apply Hf.
Qed.
Lemma update_allocated p f l e d : m_endPoints d = l ++ [(p, e)] -> (forall x, x ∈ l -> x.1 <> p) -> m_endPoints (update_endPoint p f d) = l ++ [(p, f e)].
Proof.
  intros E Hl. cbn. rewrite E, fmap_app. cbn. rewrite Z.eqb_refl. f_equal. clear E. induction l as [|x l IH]; [done|]. cbn.
  rewrite (proj2 (Z.eqb_neq _ _)) by (apply Hl; by left). f_equal. apply IH. intros y Hy. apply Hl. by right.
Qed.
Lemma sorted_last {A} (R : A -> A -> Prop) l x : StronglySorted R l -> (forall y, y ∈ l -> R y x) -> StronglySorted R (l ++ [x]).
Proof. intros Hl Hx. apply StronglySorted_app_intro; [done|repeat constructor|]. intros y z Hy ->%list_elem_of_singleton. by apply Hx. Qed.

(** Binding to a local address and port, and to the device of the socket. *)
Definition bind_local (dev : option Z) (a port : Z) (d : Ipv4EndPointDemux) : option Z * Ipv4EndPointDemux :=
  let '(r, d) := Allocate_local dev a port d in
  match r, dev with
  | Some p, Some _ => (Some p, update_endPoint p (BindToNetDevice dev) d)
  | _, _ => (r, d)
  end.
Definition taken (dev : option Z) (a port : Z) (d : Ipv4EndPointDemux) : Prop :=
  exists x, x ∈ m_endPoints d /\ m_localPort x.2 = port /\ m_localAddr x.2 = a /\ (m_boundnetdevice x.2 = dev \/ m_boundnetdevice x.2 = None).
(** A device has the port already, which binding to all devices does not notice. *)
Definition device_has (a port : Z) (d : Ipv4EndPointDemux) : Prop :=
  exists x, x ∈ m_endPoints d /\ m_localPort x.2 = port /\ m_localAddr x.2 = a /\ m_boundnetdevice x.2 <> None.
Lemma bind_local_ok dev a port d : demux_ok d -> (dev = None -> ~ device_has a port d) -> let r := bind_local dev a port d in demux_ok r.2 /\
  ((r = (None, d) /\ taken dev a port d) \/
   (~ taken dev a port d /\ allocated (BindToNetDevice dev (Ipv4EndPoint_new a port)) d r)).
Proof.
  intros Hd Hdev. unfold bind_local, Allocate_local. destruct (LookupLocal dev a port d || LookupLocal None a port d) eqn:E.
  - assert (taken dev a port d). { apply orb_true_iff in E as [(x&?&?&?&?)%LookupLocal_spec|(x&?&?&?&?)%LookupLocal_spec]; exists x; tauto. }
    destruct dev; (split; [done|by left]).
  - assert (~ taken dev a port d) as Ht.
    { intros (x&Hx&Hp&Ha&[Hb|Hb]); apply orb_false_iff in E as [E1 E2]; [rewrite (proj2 (LookupLocal_spec dev a port d)) in E1|rewrite (proj2 (LookupLocal_spec None a port d)) in E2]; try done; by exists x. }
    assert (forall x, x ∈ m_endPoints d -> compatible x (next_endPoint d, BindToNetDevice dev (Ipv4EndPoint_new a port))) as Hcomp.
    { intros x Hx. unfold compatible. destruct (decide (key x.2 = (a, port, GetAny, 0))) as [Ek|Hk]; [|by left]. injection Ek as Ea Ep _ _.
      right. destruct (m_boundnetdevice x.2) as [b|] eqn:Eb; [|exfalso; apply Ht; exists x; auto]. cbn. destruct dev as [dv|].
      - exists b, dv. split_and!; [done..|]. intros ->. apply Ht. exists x. rewrite Eb. auto.
      - exfalso. apply (Hdev eq_refl). exists x. by rewrite Eb. }
    assert (forall x, x ∈ m_endPoints d -> x.1 <> next_endPoint d) as Hne. { intros x Hx. pose proof (do_fresh _ Hd x Hx). lia. }
    destruct dev as [dv|]; cbn [push_back fst snd]; [|split; [by apply push_back_ok|by right]].
    set (d1 := mkDemux _ _ _ _ _). assert (m_endPoints (update_endPoint (next_endPoint d) (BindToNetDevice (Some dv)) d1) = m_endPoints d ++ [(next_endPoint d, BindToNetDevice (Some dv) (Ipv4EndPoint_new a port))]) as Eu by (by apply update_allocated).
    pose proof (push_back_ok _ d Hd Hcomp) as [Hr Hcf Hfr Hnd]. split; [|right; by split_and!]. split; [destruct Hr; by split|unfold clash_free; cbn [snd]; by rewrite Eu|cbn [snd]; by rewrite Eu|cbn [snd]; by rewrite Eu].
Qed.
(** A connected end point. *)
Lemma Allocate_peer_ok a port pa pp d : demux_ok d -> let r := Allocate_peer None a port pa pp d in
  (forall x, x ∈ m_endPoints d -> key x.2 = (a, port, pa, pp) -> m_boundnetdevice x.2 = None) -> demux_ok r.2 /\
  ((r = (None, d) /\ exists x, x ∈ m_endPoints d /\ key x.2 = (a, port, pa, pp)) \/ allocated (SetPeer pa pp (Ipv4EndPoint_new a port)) d r).
Proof.
  intros Hd r Hdev. subst r. unfold Allocate_peer. destruct (existsb _ _) eqn:E.
  - split; [done|]. left. split; [done|]. apply existsb_exists in E as (x&Hx%list_elem_of_In&E). bool_prop. exists x. split; [done|]. unfold key. congruence.
  - split; [|by right]. apply push_back_ok; [done|]. intros x Hx. left. intros Ek. cbn in Ek. apply not_true_iff_false in E. apply E, existsb_exists.
    exists x. split; [by apply list_elem_of_In|]. pose proof (Hdev x Hx Ek) as ->. injection Ek as -> -> -> ->. by rewrite !Z.eqb_refl.
Qed.
Lemma erase_sub p l e l' : erase p l = Some (e, l') -> exists l1 l2, l = l1 ++ (p, e) :: l2 /\ l' = l1 ++ l2.
Proof.
  revert l'. induction l as [|[q e0] l IH]; intros l'; cbn [erase]; [done|]. destruct (Z.eqb_spec q p) as [->|_].
  - intros [= -> ->]. by exists [], l'.
  - destruct (erase p l) as [[r l2]|]; [|done]. intros [= -> <-]. destruct (IH _ eq_refl) as (l1&l3&->&->). by exists ((q, e0) :: l1), l3.
Qed.
Lemma DeAllocate_ok p d : demux_ok d -> demux_ok (DeAllocate p d).2.
Proof.
  intros [[] Hc Hf Hn]. unfold DeAllocate. destruct (erase p (m_endPoints d)) as [[e l]|] eqn:E; [|by split]. apply erase_sub in E as (l1&l2&E&->).
  unfold clash_free in *. rewrite E in Hc, Hf, Hn. split; cbn [snd set_endPoints m_endPoints next_endPoint]; [by split|by eapply StronglySorted_remove_mid| |].
  - intros x Hx. apply Hf. set_solver.
  - rewrite fmap_app in Hn |- *. cbn in Hn. apply NoDup_app in Hn as (N1&N2&N3). apply NoDup_cons in N3 as [_ N3]. apply NoDup_app. set_solver.
Qed.

(** ** Tables of sockets *)

(** The tables that sockets make: a socket asks for an ephemeral port, for a local
    address and port (for all devices only when no device has them), or for a
    connection; it enables and disables its end point and gives it up. *)
Inductive demux_reach : Ipv4EndPointDemux -> Prop :=
  | dr_new : demux_reach Ipv4EndPointDemux_new
  | dr_allocate d : demux_reach d -> demux_reach (Allocate d).2
  | dr_address a d : demux_reach d -> demux_reach (Allocate_address a d).2
  | dr_local dev a port d : demux_reach d -> (dev = None -> ~ device_has a port d) -> demux_reach (bind_local dev a port d).2
  | dr_peer a port pa pp d : demux_reach d -> (forall x, x ∈ m_endPoints d -> key x.2 = (a, port, pa, pp) -> m_boundnetdevice x.2 = None) ->
      demux_reach (Allocate_peer None a port pa pp d).2
  | dr_callbacks p c1 c2 c3 d : demux_reach d -> demux_reach (update_endPoint p (fun e => SetDestroyCallback c3 (SetIcmpCallback c2 (SetRxCallback c1 e))) d)
  | dr_enabled p b d : demux_reach d -> demux_reach (update_endPoint p (SetRxEnabled b) d)
  | dr_deallocate p d : demux_reach d -> demux_reach (DeAllocate p d).2.
Lemma demux_reach_ok d : demux_reach d -> demux_ok d.
Proof.
  induction 1; [apply Demux_new_ok|by apply (Allocate_address_ok GetAny)|by apply Allocate_address_ok|by apply bind_local_ok|by apply Allocate_peer_ok|by apply update_endPoint_ok|by apply update_endPoint_ok|by apply DeAllocate_ok].
Qed.
Lemma get_in p e l : NoDup l.*1 -> (p, e) ∈ l -> get p l = Some e.
Proof.
  induction l as [|[q e0] l IH]; intros Hn Hx; [by apply elem_of_nil in Hx|]. cbn in Hn |- *. apply NoDup_cons in Hn as [Hq Hn].
  apply elem_of_cons in Hx as [[= -> ->]|Hx]; [by rewrite Z.eqb_refl|]. rewrite (proj2 (Z.eqb_neq q p)); [by apply IH|].
  intros ->. apply Hq. by apply (list_elem_of_fmap_2 fst _ (p, e)).
Qed.
Lemma best_lookup daddr dport saddr sport i d p : demux_ok d -> no_network daddr i d -> (best daddr dport saddr sport i (m_endPoints d)).*1 = [p] ->
  exists e, endPoint_at p d = Some e /\ fits daddr dport saddr sport i e = true /\
    forall x, x ∈ m_endPoints d -> rank daddr dport saddr sport i x.2 <= rank daddr dport saddr sport i e /\ (rank daddr dport saddr sport i x.2 = rank daddr dport saddr sport i e -> x.1 = p).
Proof.
  intros Hd Hn E. destruct (best daddr dport saddr sport i (m_endPoints d)) as [|[p' e] [|]] eqn:Eb; try done. injection E as ->.
  assert ((p, e) ∈ best daddr dport saddr sport i (m_endPoints d)) as Hin by (rewrite Eb; by left). pose proof (best_in _ _ _ _ _ _ _ Hin) as (Hi&Hf&Hm).
  exists e. split; [apply get_in; [by apply do_nodup|done]|]. split; [done|]. intros x Hx. split; [by apply Hm|]. intros Er.
  assert (x ∈ best daddr dport saddr sport i (m_endPoints d)) as Hxb; [|rewrite Eb in Hxb; by apply list_elem_of_singleton in Hxb as ->].
  apply list_elem_of_In, filter_In. split; [by apply list_elem_of_In|]. apply andb_true_iff. split.
  - apply (rank_range daddr dport saddr sport i). apply (rank_range daddr dport saddr sport i) in Hf. cbn in *. lia.
  - apply forallb_forall. intros y Hy%list_elem_of_In. apply Z.leb_le. specialize (Hm y Hy). cbn in *. lia.
Qed.
Lemma Lookup_decides daddr dport saddr sport i d : demux_ok d -> no_network daddr i d ->
  (Lookup daddr dport saddr sport i d = Some [] /\ forall x, x ∈ m_endPoints d -> fits daddr dport saddr sport i x.2 = false) \/
  exists p e, Lookup daddr dport saddr sport i d = Some [p] /\ endPoint_at p d = Some e /\ fits daddr dport saddr sport i e = true /\
    forall x, x ∈ m_endPoints d -> rank daddr dport saddr sport i x.2 <= rank daddr dport saddr sport i e /\ (rank daddr dport saddr sport i x.2 = rank daddr dport saddr sport i e -> x.1 = p).
Proof.
  intros Hd Hn. rewrite Lookup_total by (done || apply Hd). pose proof (best_unique daddr dport saddr sport i d (do_clash _ Hd) Hn) as Hu.
  destruct (best daddr dport saddr sport i (m_endPoints d)) as [|[p e] [|]] eqn:Eb; [left|right|cbn in Hu; lia].
  - split; [done|]. intros x Hx. destruct (fits daddr dport saddr sport i x.2) eqn:Ef; [|done]. destruct (best_exists _ _ _ _ _ _ _ Hx Ef) as [y Hy].
    rewrite Eb in Hy. by apply elem_of_nil in Hy.
  - destruct (best_lookup daddr dport saddr sport i d p Hd Hn) as (e'&He); [by rewrite Eb|]. by exists p, e'.
Qed.

(** ** Theorems *)

(** C17: [Lookup] with its four lists returns what a ranking of the end points gives:
    of the end points that may have the packet (enabled, with its port, not bound to
    another device, with its address or a wildcard for it, with its peer or open to
    all), those of the highest rank, where the peer counts more than the local address;
    if these are several, the program aborts, and if there is none, the list is empty. *)
Theorem Lookup_most_specific daddr dport saddr sport i d :
  Lookup daddr dport saddr sport i d =
    let r := (best daddr dport saddr sport i (m_endPoints d)).*1 in if (length r <=? 1)%nat then Some r else None.
Proof. apply demux_Lookup_ok. Qed.
(** In a table made by sockets, [Lookup] does not abort: a packet has exactly one
    end point that fits it best, and [Lookup] returns it, or it has none and the list is
    empty. The packet must not be for a network that an end point is bound to by its
    network address. *)
Theorem Lookup_decided daddr dport saddr sport i d : demux_reach d -> no_network daddr i d ->
  (Lookup daddr dport saddr sport i d = Some [] /\ forall x, x ∈ m_endPoints d -> fits daddr dport saddr sport i x.2 = false) \/
  exists p e, Lookup daddr dport saddr sport i d = Some [p] /\ endPoint_at p d = Some e /\ fits daddr dport saddr sport i e = true /\
    forall x, x ∈ m_endPoints d -> rank daddr dport saddr sport i x.2 <= rank daddr dport saddr sport i e /\ (rank daddr dport saddr sport i x.2 = rank daddr dport saddr sport i e -> x.1 = p).
Proof. intros Hr. apply Lookup_decides, demux_reach_ok, Hr. Qed.
(** Ephemeral ports: in a table made by sockets, [Allocate] gives an end point with a
    port of the ephemeral range that no end point of the table has, and fails only when
    all ports of the range are taken. *)
Theorem ephemeral_port_fresh a d : demux_reach d -> let r := Allocate_address a d in
  (r = (None, d) /\ forall q, m_portFirst d <= q <= m_portLast d -> q ∈ ports d) \/
  exists port, m_portFirst d <= port <= m_portLast d /\ port ∉ ports d /\ allocated (Ipv4EndPoint_new a port) d r.
Proof. intros Hr. apply Allocate_address_ok, demux_reach_ok, Hr. Qed.

(** ** A table *)

Definition demo_iface : Ipv4Interface := mkInterface true true 1 [InterfaceAddress_new 0x0a010101 0xffffff00] (mkDevice 1 1500 true true false).
Definition demo_table : Ipv4EndPointDemux := (bind_local (Some 2) GetAny 80 (bind_local None 0x0a010101 80 (Allocate Ipv4EndPointDemux_new).2).2).2.
Lemma demo_table_reach : demux_reach demo_table.
Proof.
  apply dr_local; [apply dr_local; [apply dr_allocate, dr_new|]|done]. intros _ (x&Hx&_&_&Hd). vm_compute in Hx. apply list_elem_of_singleton in Hx as ->. done.
Qed.
Lemma Lookup_decided_witness : Lookup 0x0a010101 80 0x0a010102 5000 demo_iface demo_table = Some [2].
Proof.
  destruct (Lookup_decided 0x0a010101 80 0x0a010102 5000 demo_iface demo_table demo_table_reach) as [[E _]|(p&e&E&_&Hf&_)].
  - intros x Hx Hn. vm_compute in Hx. repeat (apply elem_of_cons in Hx as [->|Hx]; [vm_compute in Hn; discriminate Hn|]). by apply elem_of_nil in Hx.
  - vm_compute in E. discriminate E.
  - rewrite E. vm_compute in E. injection E as <-. reflexivity.
Defined.
Lemma ephemeral_port_fresh_witness : (Allocate_address 0x0a010101 demo_table).1 = Some 4 /\ ports (Allocate_address 0x0a010101 demo_table).2 = [49153; 80; 80; 49154].
Proof.
  destruct (ephemeral_port_fresh 0x0a010101 demo_table demo_table_reach) as [[E _]|(port&_&_&E1&_)]; [vm_compute in E; discriminate E|].
  split; [exact E1|vm_compute; reflexivity].
Defined.
(** A port that one device has is given to a socket of all devices; the next packet
    for it that arrives through the device aborts the program. Binding in the other
    order is refused. *)
Lemma port_of_a_device : let d := (bind_local None GetAny 80 (bind_local (Some 1) GetAny 80 Ipv4EndPointDemux_new).2).2 in
  (m_endPoints d).*1 = [1; 2] /\ Lookup 0x0a010101 80 0x0a010102 5000 demo_iface d = None /\
  (bind_local (Some 1) GetAny 80 (bind_local None GetAny 80 Ipv4EndPointDemux_new).2).1 = None.
Proof. vm_compute. split_and!; reflexivity. Qed.
(** So do an end point for all addresses and one for the network address of the
    interface. *)
Lemma port_of_a_network : let d := (bind_local None GetAny 80 (bind_local None 0x0a010100 80 Ipv4EndPointDemux_new).2).2 in
  Lookup 0x0a010101 80 0x0a010102 5000 demo_iface d = None.
Proof. vm_compute. reflexivity. Qed.
(** [SimpleLookup] returns an end point connected to another peer: it compares no peer
    unless the match is exact, and prefers the end points with fewer wildcards. *)
Lemma simple_lookup_stranger : let d := (Allocate_peer None 0x0a010101 80 0x0a010107 7000 Ipv4EndPointDemux_new).2 in
  SimpleLookup 0x0a010101 80 0x0a010102 5000 d = Some 1 /\ Lookup 0x0a010101 80 0x0a010102 5000 demo_iface d = Some [].
Proof. vm_compute. split_and!; reflexivity. Qed.
End EndPointsProps.
