(* ===== verification/UdpSocket.v ===== *)
(** * UDP sockets (src/internet/model/udp-socket-impl.cc, udp-l4-protocol.cc and the base
    class src/network/model/socket.cc)

    The sockets of a node, the protocol object they share and its table of end points.
    Operations change this state, may abort, and make calls to the network layer and to
    the application, which they return in order. The IPv6 halves are not modelled: a
    node without IPv6. *)

From S2P Require Import Prelude Buffer BufferIterator BufferInv BufferRw BufferProps Wire Ipv4Header UdpHeader PacketBytes Ipv4Address Ipv4Interface Ipv4StaticRouting Ipv4L3.
From S2P Require Import EndPoints.

Module UdpSocket.
Import Buffer Iterator BufferInv BufferRw BufferProps PacketBytes Ipv4Address Ipv4InterfaceAddress Interfaces Ipv4StaticRouting EndPoints.

(** ** Data *)

Inductive Errno :=
  | E_NOTERROR | E_ISCONN | E_NOTCONN | E_MSGSIZE | E_AGAIN | E_SHUTDOWN | E_OPNOTSUPP | E_AFNOSUPPORT | E_INVAL | E_BADF
  | E_NOROUTETOHOST | E_NODEV | E_ADDRNOTAVAIL | E_ADDRINUSE | E_LAST.
Definition of_route_error (e : SocketErrno) : Errno :=
  match e with ERROR_NOTERROR => E_NOTERROR | ERROR_NOROUTETOHOST => E_NOROUTETOHOST end.

(** The tags of a packet that sockets read or write, by their class. *)
Record SocketTags := mkSocketTags {
  SocketIpTosTag : option Z;
  SocketPriorityTag : option Z;
  SocketIpTtlTag : option Z;
  SocketSetDontFragmentTag : option bool;
  Ipv4PacketInfoTag : option (Z * Z * Z)     (* address, TTL, interface *)
}.
Definition no_socket_tags : SocketTags := mkSocketTags None None None None None.
Record UPacket := mkUPacket { p_bytes : Packet; p_tags : SocketTags }.

(** A second tag of the same type is an assertion. *)
Definition add_tag {A} (old : option A) (v : A) : option (option A) := match old with Some _ => None | None => Some (Some v) end.

(** A socket address of IPv4, or anything that is none. *)
Inductive Address := InetSocketAddress (ipv4 port : Z) | OtherAddress.

(** The fields of class Socket. *)
Record Socket := mkSocket {
  m_boundnetdevice : option Z;
  m_recvPktInfo : bool;
  m_priority : Z;
  m_ipTos : Z;
  m_ipTtl : Z;
  m_manualIpTtl : bool;
  m_ipRecvTos : bool;
  m_ipRecvTtl : bool
}.

(** The attributes of class UdpSocket. *)
Record UdpAttributes := mkUdpAttributes {
  m_rcvBufSize : Z;
  m_ipMulticastTtl : Z;
  m_ipMulticastIf : Z;
  m_ipMulticastLoop : bool;
  m_mtuDiscover : bool
}.
Definition UdpAttributes_default : UdpAttributes := mkUdpAttributes 131072 0 (-1) false false.

Record UdpSocketImpl := mkUdpSocket {
  base : Socket;
  attributes : UdpAttributes;
  m_endPoint : option Z;
  m_defaultAddress : option Z;            (* an IPv4 address, or none *)
  m_defaultPort : Z;
  m_errno : Errno;
  m_shutdownSend : bool;
  m_shutdownRecv : bool;
  m_connected : bool;
  m_allowBroadcast : bool;
  m_deliveryQueue : list (UPacket * (Z * Z));
  m_rxAvailable : Z
}.
(** The attribute [IpTtl] is set to 0 when the object is made. *)
Definition UdpSocketImpl_new : UdpSocketImpl :=
  mkUdpSocket (mkSocket None false 0 0 0 true false false) UdpAttributes_default None None 0 E_NOTERROR false false false false [] 0.

Definition set_base (x : Socket) (s : UdpSocketImpl) : UdpSocketImpl :=
  mkUdpSocket x (attributes s) (m_endPoint s) (m_defaultAddress s) (m_defaultPort s) (m_errno s) (m_shutdownSend s) (m_shutdownRecv s) (m_connected s) (m_allowBroadcast s) (m_deliveryQueue s) (m_rxAvailable s).
Definition set_attributes (x : UdpAttributes) (s : UdpSocketImpl) : UdpSocketImpl :=
  mkUdpSocket (base s) x (m_endPoint s) (m_defaultAddress s) (m_defaultPort s) (m_errno s) (m_shutdownSend s) (m_shutdownRecv s) (m_connected s) (m_allowBroadcast s) (m_deliveryQueue s) (m_rxAvailable s).
Definition set_endPoint (x : option Z) (s : UdpSocketImpl) : UdpSocketImpl :=
  mkUdpSocket (base s) (attributes s) x (m_defaultAddress s) (m_defaultPort s) (m_errno s) (m_shutdownSend s) (m_shutdownRecv s) (m_connected s) (m_allowBroadcast s) (m_deliveryQueue s) (m_rxAvailable s).
Definition set_default (a port : Z) (s : UdpSocketImpl) : UdpSocketImpl :=
  mkUdpSocket (base s) (attributes s) (m_endPoint s) (Some a) port (m_errno s) (m_shutdownSend s) (m_shutdownRecv s) true (m_allowBroadcast s) (m_deliveryQueue s) (m_rxAvailable s).
Definition set_errno (x : Errno) (s : UdpSocketImpl) : UdpSocketImpl :=
  mkUdpSocket (base s) (attributes s) (m_endPoint s) (m_defaultAddress s) (m_defaultPort s) x (m_shutdownSend s) (m_shutdownRecv s) (m_connected s) (m_allowBroadcast s) (m_deliveryQueue s) (m_rxAvailable s).
Definition set_shutdown (send recv : bool) (s : UdpSocketImpl) : UdpSocketImpl :=
  mkUdpSocket (base s) (attributes s) (m_endPoint s) (m_defaultAddress s) (m_defaultPort s) (m_errno s) send recv (m_connected s) (m_allowBroadcast s) (m_deliveryQueue s) (m_rxAvailable s).
Definition set_delivery (q : list (UPacket * (Z * Z))) (rxAvailable : Z) (s : UdpSocketImpl) : UdpSocketImpl :=
  mkUdpSocket (base s) (attributes s) (m_endPoint s) (m_defaultAddress s) (m_defaultPort s) (m_errno s) (m_shutdownSend s) (m_shutdownRecv s) (m_connected s) (m_allowBroadcast s) q rxAvailable.
(** *** Options *)

Definition set_options (f : Socket -> Socket) (s : UdpSocketImpl) : UdpSocketImpl := set_base (f (base s)) s.
Definition SetRecvPktInfo (flag : bool) : UdpSocketImpl -> UdpSocketImpl := set_options (fun b =>
  mkSocket (m_boundnetdevice b) flag (m_priority b) (m_ipTos b) (m_ipTtl b) (m_manualIpTtl b) (m_ipRecvTos b) (m_ipRecvTtl b)).
Definition SetPriority (priority : Z) : UdpSocketImpl -> UdpSocketImpl := set_options (fun b =>
  mkSocket (m_boundnetdevice b) (m_recvPktInfo b) priority (m_ipTos b) (m_ipTtl b) (m_manualIpTtl b) (m_ipRecvTos b) (m_ipRecvTtl b)).
(** The socket is of type datagram. *)
Definition SetIpTos (tos : Z) : UdpSocketImpl -> UdpSocketImpl := set_options (fun b =>
  mkSocket (m_boundnetdevice b) (m_recvPktInfo b) (Ipv4L3.IpTos2Priority tos) tos (m_ipTtl b) (m_manualIpTtl b) (m_ipRecvTos b) (m_ipRecvTtl b)).
Definition SetIpTtl (ttl : Z) : UdpSocketImpl -> UdpSocketImpl := set_options (fun b =>
  mkSocket (m_boundnetdevice b) (m_recvPktInfo b) (m_priority b) (m_ipTos b) ttl true (m_ipRecvTos b) (m_ipRecvTtl b)).
Definition SetIpRecvTos (v : bool) : UdpSocketImpl -> UdpSocketImpl := set_options (fun b =>
  mkSocket (m_boundnetdevice b) (m_recvPktInfo b) (m_priority b) (m_ipTos b) (m_ipTtl b) (m_manualIpTtl b) v (m_ipRecvTtl b)).
Definition SetIpRecvTtl (v : bool) : UdpSocketImpl -> UdpSocketImpl := set_options (fun b =>
  mkSocket (m_boundnetdevice b) (m_recvPktInfo b) (m_priority b) (m_ipTos b) (m_ipTtl b) (m_manualIpTtl b) (m_ipRecvTos b) v).
Definition set_device (d : option Z) : UdpSocketImpl -> UdpSocketImpl := set_options (fun b =>
  mkSocket d (m_recvPktInfo b) (m_priority b) (m_ipTos b) (m_ipTtl b) (m_manualIpTtl b) (m_ipRecvTos b) (m_ipRecvTtl b)).
Definition SetRcvBufSize (size : Z) (s : UdpSocketImpl) : UdpSocketImpl :=
  let a := attributes s in set_attributes (mkUdpAttributes size (m_ipMulticastTtl a) (m_ipMulticastIf a) (m_ipMulticastLoop a) (m_mtuDiscover a)) s.
Definition SetIpMulticastTtl (ttl : Z) (s : UdpSocketImpl) : UdpSocketImpl :=
  let a := attributes s in set_attributes (mkUdpAttributes (m_rcvBufSize a) ttl (m_ipMulticastIf a) (m_ipMulticastLoop a) (m_mtuDiscover a)) s.
Definition SetIpMulticastIf (ipIf : Z) (s : UdpSocketImpl) : UdpSocketImpl :=
  let a := attributes s in set_attributes (mkUdpAttributes (m_rcvBufSize a) (m_ipMulticastTtl a) ipIf (m_ipMulticastLoop a) (m_mtuDiscover a)) s.
Definition SetIpMulticastLoop (loop : bool) (s : UdpSocketImpl) : UdpSocketImpl :=
  let a := attributes s in set_attributes (mkUdpAttributes (m_rcvBufSize a) (m_ipMulticastTtl a) (m_ipMulticastIf a) loop (m_mtuDiscover a)) s.
Definition SetMtuDiscover (discover : bool) (s : UdpSocketImpl) : UdpSocketImpl :=
  let a := attributes s in set_attributes (mkUdpAttributes (m_rcvBufSize a) (m_ipMulticastTtl a) (m_ipMulticastIf a) (m_ipMulticastLoop a) discover) s.
Definition SetAllowBroadcast (allow : bool) (s : UdpSocketImpl) : UdpSocketImpl :=
  mkUdpSocket (base s) (attributes s) (m_endPoint s) (m_defaultAddress s) (m_defaultPort s) (m_errno s) (m_shutdownSend s) (m_shutdownRecv s) (m_connected s) allow (m_deliveryQueue s) (m_rxAvailable s).

(** ** The protocol object *)

(** Sockets are known by their number, in order of creation. *)
Record UdpL4Protocol := mkUdpL4 {
  l4_endPoints : Ipv4EndPointDemux;
  m_sockets : list (Z * Z);               (* from index to socket *)
  m_socketIndex : Z;
  sockets : gmap Z UdpSocketImpl
}.
Definition UdpL4Protocol_new : UdpL4Protocol := mkUdpL4 Ipv4EndPointDemux_new [] 0 ∅.
Definition set_demux (d : Ipv4EndPointDemux) (u : UdpL4Protocol) : UdpL4Protocol := mkUdpL4 d (m_sockets u) (m_socketIndex u) (sockets u).
Definition set_sockets (m : gmap Z UdpSocketImpl) (u : UdpL4Protocol) : UdpL4Protocol := mkUdpL4 (l4_endPoints u) (m_sockets u) (m_socketIndex u) m.

(** Calls to the network layer ([m_downTarget]) and to callbacks of the application. *)
Inductive UdpCall :=
  | DownTarget (packet : UPacket) (saddr daddr : Z) (route : option Ipv4Route)
  | NotifyDataSent (socket size : Z)
  | NotifySend (socket spaceAvailable : Z)
  | NotifyDataRecv (socket : Z)
  | NotifyConnectionSucceeded (socket : Z)
  | NotifyConnectionFailed (socket : Z)
  | DropTrace (socket : Z) (packet : UPacket)
  | IcmpCallback (socket icmpSource icmpTtl icmpType icmpCode icmpInfo : Z).

(** ** Operations that read and write the state, may abort, and make calls *)

Definition M (A : Type) : Type := UdpL4Protocol -> option (A * UdpL4Protocol * list UdpCall).
Definition ret {A} (a : A) : M A := fun u => Some (a, u, []).
Definition bind {A B} (c : M A) (k : A -> M B) : M B := fun u =>
  let* (a, u, o) := c u in let* (b, u, o') := k a u in Some (b, u, o ++ o').
Definition fail {A} : M A := fun _ => None.
Definition call (c : UdpCall) : M unit := fun u => Some (tt, u, [c]).
Definition require {A} (x : option A) : M A := fun u => match x with Some a => Some (a, u, []) | None => None end.
Definition sock (s : Z) : M UdpSocketImpl := fun u => let* x := sockets u !! s in Some (x, u, []).
Definition modify (s : Z) (f : UdpSocketImpl -> UdpSocketImpl) : M unit := fun u =>
  let* x := sockets u !! s in Some (tt, set_sockets (<[s := f x]> (sockets u)) u, []).
Definition on_demux {A} (f : Ipv4EndPointDemux -> A * Ipv4EndPointDemux) : M A := fun u =>
  let '(a, d) := f (l4_endPoints u) in Some (a, set_demux d u, []).
(** Access through a pointer to an end point. *)
Definition endPoint (p : Z) : M Ipv4EndPoint := fun u => let* e := endPoint_at p (l4_endPoints u) in Some (e, u, []).
Definition modify_endPoint (p : Z) (f : Ipv4EndPoint -> Ipv4EndPoint) : M unit := fun u =>
  let* _ := endPoint_at p (l4_endPoints u) in Some (tt, set_demux (update_endPoint p f (l4_endPoints u)) u, []).
End UdpSocket.

Declare Scope udp_scope.
Delimit Scope udp_scope with udp.
Notation "'do' x <- c ; k" := (UdpSocket.bind c (fun x => k)) (at level 200, x name, c at level 100, k at level 200) : udp_scope.
Notation "c ;; k" := (UdpSocket.bind c (fun _ => k)) (at level 100, k at level 200, right associativity) : udp_scope.

(** * The operations of UDP sockets and of their protocol object
    (src/internet/model/udp-socket-impl.cc, udp-l4-protocol.cc) *)

Module UdpOps.
Import Buffer Iterator BufferInv BufferRw BufferProps PacketBytes Ipv4Address Ipv4InterfaceAddress Interfaces Ipv4StaticRouting EndPoints UdpSocket.
Open Scope udp_scope.

(** ** End points and sockets *)

Fixpoint erase_socket (s : Z) (l : list (Z * Z)) : option (list (Z * Z)) :=
  match l with
  | [] => None
  | (i, t) :: l => if t =? s then Some l else match erase_socket s l with Some l' => Some ((i, t) :: l') | None => None end
  end.
Definition RemoveSocket (s : Z) : M bool := fun u =>
  match erase_socket s (m_sockets u) with
  | Some l => Some (true, mkUdpL4 (l4_endPoints u) l (m_socketIndex u) (sockets u), [])
  | None => Some (false, u, [])
  end.
Definition CreateSocket : M Z := fun u =>
  let s := m_socketIndex u in
  Some (s, mkUdpL4 (l4_endPoints u) (m_sockets u ++ [(s, s)]) (u64 (s + 1)) (<[s := UdpSocketImpl_new]> (sockets u)), []).
Definition Destroy (s : Z) : M unit := RemoveSocket s ;; modify s (set_endPoint None).
(** The destructor of the end point runs the destroy callback. *)
Definition l4_DeAllocate (p : Z) : M unit :=
  do callback <- on_demux (DeAllocate p); match callback with Some s => Destroy s | None => ret tt end.
Definition DeallocateEndPoint (s : Z) : M unit :=
  do x <- sock s;
  match m_endPoint x with
  | Some p => l4_DeAllocate p ;; modify s (set_endPoint None)
  | None => ret tt
  end.

(** ** Binding; results are 0 or -1 *)

Definition FinishBind (s : Z) : M Z :=
  do x <- sock s;
  match m_endPoint x with
  | Some p =>
      modify_endPoint p (SetRxCallback (Some s)) ;; modify_endPoint p (SetIcmpCallback (Some s)) ;;
      modify_endPoint p (SetDestroyCallback (Some s)) ;; modify s (set_shutdown false false) ;; ret 0
  | None => ret (-1)
  end.
(** [Bind()]: the new end point is not checked before it is bound to the device. *)
Definition Bind_any (s : Z) : M Z :=
  do r <- on_demux Allocate; modify s (set_endPoint r) ;;
  do x <- sock s;
  match m_boundnetdevice (base x) with
  | Some dev => do p <- require r; modify_endPoint p (BindToNetDevice (Some dev)) ;; FinishBind s
  | None => FinishBind s
  end.
Definition Bind (s : Z) (address : Address) : M Z :=
  do x <- sock s;
  match address with
  | InetSocketAddress ipv4 port =>
      if negb (bool_decide (m_endPoint x = None)) then fail
      else
        do r <- on_demux (if (ipv4 =? GetAny) && (port =? 0) then Allocate
                          else if ipv4 =? GetAny then Allocate_port (m_boundnetdevice (base x)) port
                          else if port =? 0 then Allocate_address ipv4
                          else Allocate_local (m_boundnetdevice (base x)) ipv4 port);
        modify s (set_endPoint r) ;;
        match r with
        | None => modify s (set_errno (if port =? 0 then E_ADDRNOTAVAIL else E_ADDRINUSE)) ;; ret (-1)
        | Some p =>
            match m_boundnetdevice (base x) with
            | Some dev => modify_endPoint p (BindToNetDevice (Some dev)) ;; FinishBind s
            | None => FinishBind s
            end
        end
  | OtherAddress => modify s (set_errno E_INVAL) ;; ret (-1)
  end.
Definition ShutdownSend (s : Z) : M Z := modify s (fun x => set_shutdown true (m_shutdownRecv x) x) ;; ret 0.
Definition ShutdownRecv (s : Z) : M Z :=
  modify s (fun x => set_shutdown (m_shutdownSend x) true x) ;;
  do x <- sock s;
  match m_endPoint x with Some p => modify_endPoint p (SetRxEnabled false) ;; ret 0 | None => ret 0 end.
Definition Close (s : Z) : M Z :=
  do x <- sock s;
  if m_shutdownRecv x && m_shutdownSend x then modify s (set_errno E_BADF) ;; ret (-1)
  else modify s (set_shutdown true true) ;; DeallocateEndPoint s ;; ret 0.
Definition Connect (s : Z) (address : Address) : M Z :=
  match address with
  | InetSocketAddress ipv4 port => modify s (set_default ipv4 port) ;; call (NotifyConnectionSucceeded s) ;; ret 0
  | OtherAddress => call (NotifyConnectionFailed s) ;; ret (-1)
  end.
Definition Listen (s : Z) : M Z := modify s (set_errno E_OPNOTSUPP) ;; ret (-1).

Section Node.
Context (uninit : Z -> nat -> Z) {R : Type} `{RoutingProtocol R}.
(** The node: checksums enabled, its devices and their indices, its interfaces and its
    routing protocol. *)
Context (checksum : bool) (devices : list Z) (GetIfIndex : Z -> Z) (ipv4 : Interfaces) (routing : option R).

Definition BindToNetDevice (s : Z) (netdevice : option Z) : M unit :=
  match netdevice with Some d => if negb (existsb (Z.eqb d) devices) then fail else ret tt | None => ret tt end ;;
  modify s (set_device netdevice) ;;
  do x <- sock s;
  match m_endPoint x with Some p => modify_endPoint p (Ipv4EndPoint.BindToNetDevice netdevice) | None => ret tt end.

(** ** Headers of packets *)

Definition PROT_NUMBER : Z := 17.
Definition l4_header (saddr daddr : Z) : UdpHeader.UdpHeader :=
  if checksum then UdpHeader.InitializeChecksum (Wire.V4 saddr) (Wire.V4 daddr) PROT_NUMBER (UdpHeader.EnableChecksums UdpHeader.UdpHeader_new)
  else UdpHeader.UdpHeader_new.
Definition with_header (h : UdpHeader.UdpHeader) (bytes : list Z) : option (list Z) :=
  let* (b, m) := Wire.packet_of uninit bytes in
  let* (b, m) := Wire.AddHeader uninit UdpHeader.GetSerializedSize (UdpHeader.Serialize uninit h) b m in
  Some (content m b).
(** [UdpL4Protocol::Send], with and without a route. *)
Definition l4_Send (packet : UPacket) (saddr daddr sport dport : Z) (route : option Ipv4Route) : M unit :=
  let udpHeader := UdpHeader.SetSourcePort sport (UdpHeader.SetDestinationPort dport (l4_header saddr daddr)) in
  do bytes <- require (with_header udpHeader (p_bytes packet));
  call (DownTarget (mkUPacket bytes (p_tags packet)) saddr daddr route).

(** ** Sending; results are the size of the packet or -1, with the packet, to which tags
    are added in place *)

Definition MAX_IPV4_UDP_DATAGRAM_SIZE : Z := 65507.
Definition GetTxAvailable : Z := MAX_IPV4_UDP_DATAGRAM_SIZE.
Definition tos_and_priority (x : Socket) (tos : Z) (t : SocketTags) : SocketTags :=
  let priority := if tos =? 0 then m_priority x else Ipv4L3.IpTos2Priority tos in
  let t := if tos =? 0 then t
           else mkSocketTags (Some tos) (SocketPriorityTag t) (SocketIpTtlTag t) (SocketSetDontFragmentTag t) (Ipv4PacketInfoTag t) in
  if priority =? 0 then t
  else mkSocketTags (SocketIpTosTag t) (Some priority) (SocketIpTtlTag t) (SocketSetDontFragmentTag t) (Ipv4PacketInfoTag t).
Definition add_ttl (ttl : Z) (t : SocketTags) : option SocketTags :=
  let* v := add_tag (SocketIpTtlTag t) ttl in
  Some (mkSocketTags (SocketIpTosTag t) (SocketPriorityTag t) v (SocketSetDontFragmentTag t) (Ipv4PacketInfoTag t)).
Definition ttl_tag_of (x : UdpSocketImpl) (dest : Z) (t : SocketTags) : option SocketTags :=
  if negb (m_ipMulticastTtl (attributes x) =? 0) && IsMulticast dest then add_ttl (m_ipMulticastTtl (attributes x)) t
  else if m_manualIpTtl (base x) && negb (m_ipTtl (base x) =? 0) && negb (IsMulticast dest) && negb (IsBroadcast dest)
  then add_ttl (m_ipTtl (base x)) t
  else Some t.
(** A tag that is there is removed and stays away; without one the option is added. *)
Definition df_tag_of (x : UdpSocketImpl) (t : SocketTags) : SocketTags :=
  mkSocketTags (SocketIpTosTag t) (SocketPriorityTag t) (SocketIpTtlTag t)
    (match SocketSetDontFragmentTag t with Some _ => None | None => Some (m_mtuDiscover (attributes x)) end) (Ipv4PacketInfoTag t).
Definition LOCALHOST : Z := 0x7f000001.
(** The copies of a limited broadcast, one per interface from index [i]. *)
Fixpoint broadcast_copies (s : Z) (device : option Z) (p : UPacket) (dest sport port : Z) (l : list Ipv4Interface) : M unit :=
  match l with
  | [] => ret tt
  | i :: l =>
      do iaddr <- require (Ipv4Interface.GetAddress 0 i);
      (if m_local iaddr =? LOCALHOST then ret tt
       else if match device with Some d => negb (dev_id (m_device i) =? d) | None => false end then ret tt
       else l4_Send p (m_local iaddr) dest sport port None ;; call (NotifyDataSent s (GetSize (p_bytes p))) ;; call (NotifySend s GetTxAvailable)) ;;
      broadcast_copies s device p dest sport port l
  end.
Definition refuse (s : Z) (e : Errno) (p : UPacket) : M (Z * UPacket) := modify s (set_errno e) ;; ret (-1, p).
(** What is left of [DoSendTo] when there is an end point. *)
Definition send_from (s : Z) (p : UPacket) (dest port : Z) : M (Z * UPacket) :=
  do x <- sock s; do ep <- require (m_endPoint x); do e <- endPoint ep;
  let size := GetSize (p_bytes p) in
  if IsBroadcast dest then
    if negb (m_allowBroadcast x) then refuse s E_OPNOTSUPP p
    else broadcast_copies s (m_boundnetdevice (base x)) p dest (m_localPort e) port (m_interfaces ipv4) ;; ret (size, p)
  else if negb (m_localAddr e =? GetAny) then
    l4_Send p (m_localAddr e) dest (m_localPort e) port None ;;
    call (NotifyDataSent s size) ;; call (NotifySend s GetTxAvailable) ;; ret (size, p)
  else
    match routing with
    | Some r =>
        let header := Ipv4Header.SetProtocol PROT_NUMBER (Ipv4Header.SetDestination dest Ipv4Header.Ipv4Header_new) in
        do result <- require (route_output header (m_boundnetdevice (base x)) ipv4 r);
        match result with
        | (Some route, _) =>
            do directed <- (if m_allowBroadcast x then ret false
                            else do o <- require (GetInterface (GetInterfaceForDevice (rt_outputDevice route) ipv4) ipv4);
                                 ret (existsb (fun a => dest =? m_broadcast a) (m_ifaddrs o)));
            if directed then refuse s E_OPNOTSUPP p
            else l4_Send p (rt_source route) dest (m_localPort e) port (Some route) ;; call (NotifyDataSent s size) ;; ret (size, p)
        | (None, errno) => refuse s (of_route_error errno) p
        end
    | None => refuse s E_NOROUTETOHOST p
    end.
(** An end point is made when there is none. *)
Definition ensure_bound (s : Z) : M bool :=
  do x <- sock s;
  match m_endPoint x with
  | Some _ => ret true
  | None =>
      do r <- Bind_any s; do x <- sock s;
      if r =? -1 then (if bool_decide (m_endPoint x = None) then ret false else fail)
      else if bool_decide (m_endPoint x = None) then fail else ret true
  end.
Definition DoSendTo (s : Z) (p : UPacket) (dest port tos : Z) : M (Z * UPacket) :=
  do bound <- ensure_bound s;
  if negb bound then ret (-1, p)
  else
    do x <- sock s;
    if m_shutdownSend x then refuse s E_SHUTDOWN p
    else if GetTxAvailable <? GetSize (p_bytes p) then refuse s E_MSGSIZE p
    else
      do t <- require (ttl_tag_of x dest (tos_and_priority (base x) tos (p_tags p)));
      send_from s (mkUPacket (p_bytes p) (df_tag_of x t)) dest port.
Definition DoSend (s : Z) (p : UPacket) : M (Z * UPacket) :=
  do x <- sock s;
  do bound <- (if bool_decide (m_endPoint x = None) && negb (bool_decide (m_defaultAddress x = None)) then ensure_bound s else ret true);
  if negb bound then ret (-1, p)
  else
    do x <- sock s;
    if m_shutdownSend x then refuse s E_SHUTDOWN p
    else match m_defaultAddress x with
         | Some a => DoSendTo s p a (m_defaultPort x) (m_ipTos (base x))
         | None => refuse s E_AFNOSUPPORT p
         end.
Definition Send (s : Z) (p : UPacket) : M (Z * UPacket) :=
  do x <- sock s; if negb (m_connected x) then refuse s E_NOTCONN p else DoSend s p.
Definition SendTo (s : Z) (p : UPacket) (address : Address) : M (Z * UPacket) :=
  do x <- sock s;
  match address with
  | InetSocketAddress a port => DoSendTo s p a port (m_ipTos (base x))
  | OtherAddress => ret (-1, p)
  end.

(** ** Receiving *)

Definition GetRxAvailable (s : Z) : M Z := do x <- sock s; ret (m_rxAvailable x).
(** The packet and the address it came from; [None] is the null pointer, and then the
    address is written only when there is a packet that is too large. *)
Definition RecvFrom (s maxSize : Z) : M (option UPacket * option (Z * Z)) :=
  do x <- sock s;
  match m_deliveryQueue x with
  | [] => modify s (set_errno E_AGAIN) ;; ret (None, None)
  | (p, from) :: rest =>
      if GetSize (p_bytes p) <=? maxSize then
        modify s (set_delivery rest (u32 (m_rxAvailable x - GetSize (p_bytes p)))) ;; ret (Some p, Some from)
      else ret (None, Some from)
  end.
Definition Recv (s maxSize : Z) : M (option UPacket) := do r <- RecvFrom s maxSize; ret r.1.
Definition GetSockName (s : Z) : M (Z * Z) :=
  do x <- sock s;
  match m_endPoint x with Some p => do e <- endPoint p; ret (m_localAddr e, m_localPort e) | None => ret (0, 0) end.
Definition GetPeerName (s : Z) : M (Z * option (Z * Z)) :=
  do x <- sock s;
  if negb (m_connected x) then modify s (set_errno E_NOTCONN) ;; ret (-1, None)
  else match m_defaultAddress x with Some a => ret (0, Some (a, m_defaultPort x)) | None => fail end.

(** The tags a receiving socket asks for. *)
Definition receive_tags (b : Socket) (header : Ipv4Header.Ipv4Header) (device : Z) (t : SocketTags) : option SocketTags :=
  let info := if m_recvPktInfo b then Some (Ipv4Header.GetDestination header, Ipv4Header.GetTtl header, GetIfIndex device) else Ipv4PacketInfoTag t in
  let* tos := if m_ipRecvTos b then add_tag (SocketIpTosTag t) (Ipv4Header.GetTos header) else Some (SocketIpTosTag t) in
  let* ttl := if m_ipRecvTtl b then add_tag (SocketIpTtlTag t) (Ipv4Header.GetTtl header) else Some (SocketIpTtlTag t) in
  Some (mkSocketTags tos None ttl (SocketSetDontFragmentTag t) info).
Definition ForwardUp (s : Z) (packet : UPacket) (header : Ipv4Header.Ipv4Header) (port : Z) (incomingInterface : Ipv4Interface) : M unit :=
  do x <- sock s;
  if m_shutdownRecv x then ret tt
  else
    do t <- require (receive_tags (base x) header (dev_id (m_device incomingInterface)) (p_tags packet));
    let packet := mkUPacket (p_bytes packet) t in
    let size := GetSize (p_bytes packet) in
    if u32 (m_rxAvailable x + size) <=? m_rcvBufSize (attributes x) then
      modify s (set_delivery (m_deliveryQueue x ++ [(packet, (Ipv4Header.GetSource header, port))]) (u32 (m_rxAvailable x + size))) ;;
      call (NotifyDataRecv s)
    else call (DropTrace s packet).
Definition ForwardIcmp (s icmpSource icmpTtl icmpType icmpCode icmpInfo : Z) : M unit :=
  call (IcmpCallback s icmpSource icmpTtl icmpType icmpCode icmpInfo).
(** The end point forwards to its callback, if it has one. *)
Definition endPoint_ForwardUp (p : Z) (packet : UPacket) (header : Ipv4Header.Ipv4Header) (sport : Z) (incomingInterface : Ipv4Interface) : M unit :=
  do e <- endPoint p;
  match m_rxCallback e with Some s => ForwardUp s packet header sport incomingInterface | None => ret tt end.

Inductive RxStatus := RX_OK | RX_CSUM_FAILED | RX_ENDPOINT_UNREACH.
Fixpoint forward_all (l : list Z) (packet : UPacket) (header : Ipv4Header.Ipv4Header) (sport : Z) (interface : Ipv4Interface) : M unit :=
  match l with
  | [] => ret tt
  | p :: l => endPoint_ForwardUp p packet header sport interface ;; forward_all l packet header sport interface
  end.
(** [UdpL4Protocol::Receive]: the header is looked at, then removed. *)
Definition l4_Receive (packet : UPacket) (header : Ipv4Header.Ipv4Header) (interface : Ipv4Interface) : M RxStatus :=
  let h0 := if checksum then UdpHeader.EnableChecksums UdpHeader.UdpHeader_new else UdpHeader.UdpHeader_new in
  let h0 := UdpHeader.InitializeChecksum (Wire.V4 (Ipv4Header.GetSource header)) (Wire.V4 (Ipv4Header.GetDestination header)) PROT_NUMBER h0 in
  do bm <- require (Wire.packet_of uninit (p_bytes packet));
  do peeked <- require (UdpHeader.Deserialize uninit h0 (Begin bm.1) bm.2);
  let '(_, udpHeader, m) := peeked in
  if negb (UdpHeader.IsChecksumOk udpHeader) then ret RX_CSUM_FAILED
  else
    do endPoints <- (fun u => let* l := Lookup (Ipv4Header.GetDestination header) (UdpHeader.m_destinationPort udpHeader)
                        (Ipv4Header.GetSource header) (UdpHeader.m_sourcePort udpHeader) interface (l4_endPoints u) in Some (l, u, []));
    match endPoints with
    | [] => ret RX_ENDPOINT_UNREACH
    | _ =>
        do removed <- require (Wire.RemoveHeader (UdpHeader.Deserialize uninit udpHeader) bm.1 m);
        let '(_, udpHeader, b, m) := removed in
        forward_all endPoints (mkUPacket (content m b) (p_tags packet)) header (UdpHeader.m_sourcePort udpHeader) interface ;; ret RX_OK
    end.
(** [UdpL4Protocol::ReceiveIcmp]: the ports are read from the first bytes of the payload
    the message quotes. *)
Definition l4_ReceiveIcmp (icmpSource icmpTtl icmpType icmpCode icmpInfo payloadSource payloadDestination : Z) (payload : list Z) : M unit :=
  match payload with
  | p0 :: p1 :: p2 :: p3 :: _ =>
      let src := u16 (Z.lor (Z.shiftl p0 8) p1) in
      let dst := u16 (Z.lor (Z.shiftl p2 8) p3) in
      do r <- on_demux (fun d => (SimpleLookup payloadSource src payloadDestination dst d, d));
      match r with
      | Some p => do e <- endPoint p; match m_icmpCallback e with Some s => ForwardIcmp s icmpSource icmpTtl icmpType icmpCode icmpInfo | None => ret tt end
      | None => ret tt
      end
  | _ => fail
  end.
End Node.
End UdpOps.
