(* ===== verification/UdpProps.v ===== *)
(** * The bytes UDP sends and receives

    Adding a header to a packet of bytes, reading one from arbitrary bytes, and the two
    together: what [UdpL4Protocol::Send] hands down and [UdpL4Protocol::Receive] reads. *)

From S2P Require Import Prelude Buffer BufferIterator BufferInv BufferRw BufferProps Checksum Wire Ipv4Header UdpHeader PacketBytes Ipv4Address Ipv4Interface Ipv4StaticRouting.
From S2P Require Import Ipv4L3 EndPoints UdpSocket.

Module UdpBytes.
Import Buffer Iterator BufferInv BufferRw BufferProps Checksum UdpHeader UdpOps.

(** ** Headers *)

Definition u16_range (p : Z) : Prop := 0 <= p < 2 ^ 16.
Definition u32_addr (a : Z) : Prop := 0 <= a < 2 ^ 32.
Definition sent_header (checksum : bool) (saddr daddr sport dport : Z) : UdpHeader :=
  SetSourcePort sport (SetDestinationPort dport (l4_header checksum saddr daddr)).
Definition receive_header (checksum : bool) (saddr daddr : Z) : UdpHeader :=
  InitializeChecksum (Wire.V4 saddr) (Wire.V4 daddr) PROT_NUMBER (if checksum then EnableChecksums UdpHeader_new else UdpHeader_new).

Lemma sent_header_ok checksum saddr daddr sport dport : u32_addr saddr -> u32_addr daddr -> u16_range sport -> u16_range dport ->
  udp_ok (sent_header checksum saddr daddr sport dport).
Proof. intros Hs Hd Hsp Hdp. unfold u32_addr, u16_range in *. destruct checksum; constructor; cbn; try lia; try done. Qed.
Lemma receive_header_ok checksum saddr daddr : u32_addr saddr -> u32_addr daddr -> udp_ok (receive_header checksum saddr daddr).
Proof. intros Hs Hd. unfold u32_addr in *. destruct checksum; constructor; cbn; try lia; try done. Qed.
Lemma with_header_ok uninit h bytes : udp_ok h -> byte_list bytes -> udp_fits bytes -> with_header uninit h bytes = Some (udp_bytes h bytes ++ bytes).
Proof.
  intros Hok Hb Hf. pose proof (zlen_nonneg bytes). unfold udp_fits in Hf. destruct (Wire.packet_of_ok uninit bytes) as (b&m&E&Hi&Hc); [unfold MAX_CONTENT; lia|].
  unfold with_header. rewrite E. unfold Wire.AddHeader.
  destruct (AddAtStart_ok uninit 8 m b [] Hi) as ([b1 m1]&E1&Hi1&(x&Hx&Hc1)&Ho1&Hp&Hz&_); [lia|rewrite Hc; unfold MAX_CONTENT; lia|done|].
  change GetSerializedSize with 8. rewrite E1. rewrite Hc in Hc1.
  destruct (Serialize_bytes uninit h m1 b1 [] x bytes Hok Hi1 Wire.few_nil Hc1 Hx (conj Hp Hz) Hb Hf) as (m2&->&_&Hc2&_). by rewrite Hc2.
Qed.

(** ** Reading arbitrary bytes *)

(** The fields a header keeps when it reads. *)
Definition read_keeps (h h' : UdpHeader) : Prop :=
  m_forcedPayloadSize h' = m_forcedPayloadSize h /\ m_source h' = m_source h /\ m_destination h' = m_destination h /\
  m_protocol h' = m_protocol h /\ m_calcChecksum h' = m_calcChecksum h.
Lemma Deserialize_again uninit h h' i m : read_keeps h h' -> m_goodChecksum h' = m_goodChecksum h -> Deserialize uninit h' i m = Deserialize uninit h i m.
Proof. destruct h, h'. unfold read_keeps. cbn. intros (->&->&->&->&->) ->. reflexivity. Qed.
(** A port, the checksum field and the verdict on a packet, from its bytes. *)
Definition port_at (k : Z) (bytes : list Z) : Z := fold_left (shift_in 16) (slice k (k + 2) bytes) 0.
Definition checksum_field (bytes : list Z) : Z := fold_left (shift_in 16) (rev (slice 6 (6 + 2) bytes)) 0.
Definition good_bytes (h0 : UdpHeader) (bytes : list Z) : bool :=
  if m_calcChecksum h0 && negb (checksum_field bytes =? 0) then checksum_of (udp_sum h0 (drop 8 bytes)) bytes =? 0 else m_goodChecksum h0.
Definition reads_header (h0 h : UdpHeader) (bytes : list Z) : Prop :=
  m_sourcePort h = port_at 0 bytes /\ m_destinationPort h = port_at 2 bytes /\ m_goodChecksum h = good_bytes h0 bytes.
Lemma Deserialize_any uninit h0 m b hdr payload : udp_ok h0 -> inv m [b] -> content m b = hdr ++ payload -> zlen hdr = 8 -> byte_list (content m b) -> udp_fits payload ->
  exists h' m', Deserialize uninit h0 (Begin b) m = Some (8, h', m') /\ read_keeps h0 h' /\ inv m' [b] /\ content m' b = content m b /\ reads_header h0 h' (content m b).
Proof.
  intros Hok0 Hi Hc Hl Hb Hfit. pose proof (zlen_nonneg payload). pose proof (fun A r n f k R => @Wire.read_in A r n f k m b [] _ _ R Hi Hc) as Hat.
  unfold Deserialize. replace (ReadNtohU16 (Begin b) m) with (ReadNtohU16 (Construct b (m_start b + 0)) m) by (by rewrite Z.add_0_r).
  do 3 (rewrite (Hat _ _ _ _ _ reads_NtohU16) by lia; cbn iota). rewrite (Hat _ _ _ _ _ reads_U16) by lia. cbv beta iota zeta.
  assert (drop 8 (content m b) = payload) as Hdrop by (rewrite Hc; change 8%nat with (Z.to_nat 8); rewrite <- Hl; unfold zlen; by rewrite Nat2Z.id, drop_app_length).
  rewrite <- (slice_app_l 0 (0 + 2) hdr payload), <- (slice_app_l (0 + 2) (0 + 2 + 2) hdr payload), <- (slice_app_l (0 + 2 + 2 + 2) (0 + 2 + 2 + 2 + 2) hdr payload), <- Hc by lia.
  change (fold_left _ (slice 0 _ _) 0) with (port_at 0 (content m b)). change (fold_left _ (slice (0 + 2) _ (content m b)) 0) with (port_at 2 (content m b)). change (fold_left _ (rev _) 0) with (checksum_field (content m b)).
  unfold reads_header, good_bytes. set (c := _ && _). destruct c eqn:Ec; [|by eexists _, m]. subst c. apply andb_true_iff in Ec as [E0 _]. unfold udp_fits in *.
  assert (zlen (content m b) = zlen payload + 8) as Hsz by (rewrite Hc, zlen_app, Hl; lia).
  assert (u16 (IterSize (Begin b)) = zlen payload + 8) as Hu by (rewrite (Wire.IterSize_Begin _ _ _ Hi), Hsz; apply wrap_small; lia).
  destruct (CalculateHeaderChecksum_ok uninit h0 [b] payload Hok0 E0) with (m := m) as (m1&E1&Hi1&Ho1); [cbn; lia|done|done|].
  assert (content m1 b = content m b) as Hc1 by (apply Ho1; by left). pose proof (udp_sum_range h0 payload Hok0 E0 Hfit).
  eexists _, m1. rewrite Hu at 1. rewrite E1, (Wire.packet_sum _ m1 b [] Hi1); [|by rewrite Hc1|rewrite Hc1; lia|lia]. split; [reflexivity|]. split_and!; try done. cbn [m_goodChecksum]. by rewrite Hc1, Hdrop.
Qed.
(** Looking at the header of a packet of at least eight bytes, then removing it. *)
Lemma receive_bytes uninit h0 bytes : udp_ok h0 -> byte_list bytes -> 8 <= zlen bytes < 2 ^ 16 ->
  exists b m h' m', Wire.packet_of uninit bytes = Some (b, m) /\ Deserialize uninit h0 (Begin b) m = Some (8, h', m') /\ reads_header h0 h' bytes /\
    (m_goodChecksum h' = m_goodChecksum h0 -> exists h2 b2 m2, Wire.RemoveHeader (Deserialize uninit h') b m' = Some (8, h2, b2, m2) /\ content m2 b2 = drop 8 bytes /\ m_sourcePort h2 = port_at 0 bytes).
Proof.
  intros Hok Hb Hs. destruct (Wire.packet_of_ok uninit bytes) as (b&m&->&Hi&Hc); [unfold MAX_CONTENT; lia|].
  assert (zlen (take 8 bytes) = 8 /\ zlen (drop 8 bytes) = zlen bytes - 8) as [Hl Hd] by (unfold zlen in *; rewrite length_take, length_drop; lia).
  assert (udp_fits (drop 8 bytes)) as Hfit by (unfold udp_fits; lia). rewrite <- (take_drop 8 bytes) in Hc.
  assert (byte_list (content m b)) as Hbc by (rewrite Hc, take_drop; done).
  destruct (Deserialize_any uninit h0 m b _ _ Hok Hi Hc Hl Hbc Hfit) as (h'&m'&E&Hk&Hi'&Hc'&Hr'). exists b, m, h', m'. split; [done|]. split; [done|]. split; [by rewrite Hc, take_drop in Hr'|]. intros Hg.
  unfold Wire.RemoveHeader. rewrite (Deserialize_again _ _ _ _ _ Hk Hg). rewrite <- Hc' in Hbc. rewrite Hc in Hc'.
  destruct (Deserialize_any uninit h0 m' b _ _ Hok Hi' Hc' Hl Hbc Hfit) as (h2&m2&->&_&Hi2&Hc2&Hr2). destruct (RemoveAtStart_ok 8 m2 b [] Hi2) as (b2&->&Hi3&Hc3); [lia|].
  exists h2, b2, m2. split; [done|]. rewrite Hc3, Hc2, Hc', take_drop. split; [done|]. rewrite (proj1 Hr2), Hc', take_drop. done.
Qed.
(** The bytes of a sent datagram are read as they were sent. *)
Lemma receive_sent uninit checksum saddr daddr sport dport payload : u32_addr saddr -> u32_addr daddr -> u16_range sport -> u16_range dport -> byte_list payload -> udp_fits payload ->
  let h := sent_header checksum saddr daddr sport dport in let h0 := receive_header checksum saddr daddr in
  exists b m m' b2 m2 h2, Wire.packet_of uninit (udp_bytes h payload ++ payload) = Some (b, m) /\ Deserialize uninit h0 (Begin b) m = Some (8, udp_read h h0 payload, m') /\
    m_goodChecksum (udp_read h h0 payload) = true /\
    Wire.RemoveHeader (Deserialize uninit (udp_read h h0 payload)) b m' = Some (8, h2, b2, m2) /\ content m2 b2 = payload /\ m_sourcePort h2 = sport /\ m_destinationPort h2 = dport.
Proof.
  intros Hs Hd Hsp Hdp Hb Hf h h0. pose proof (sent_header_ok checksum saddr daddr sport dport Hs Hd Hsp Hdp) as Hok. pose proof (receive_header_ok checksum saddr daddr Hs Hd) as Hok0. fold h h0 in Hok, Hok0.
  assert (m_calcChecksum h0 = true -> m_source h0 = m_source h /\ m_destination h0 = m_destination h /\ m_protocol h0 = m_protocol h) as Hsame by (unfold h, h0; by destruct checksum).
  pose proof (zlen_nonneg payload). unfold udp_fits in Hf. destruct (Wire.packet_of_ok uninit (udp_bytes h payload ++ payload)) as (b&m&->&Hi&Hc); [rewrite zlen_app; change (zlen (udp_bytes h payload)) with 8; unfold MAX_CONTENT; lia|].
  destruct (Deserialize_bytes uninit h h0 m b [] payload Hok Hok0 Hsame Hi Wire.few_nil Hc Hb Hf) as (m'&E1&Hi'&Ho). assert (content m' b = udp_bytes h payload ++ payload) as Hc' by (rewrite Ho by (by left); done).
  destruct (Deserialize_bytes uninit h h0 m' b [] payload Hok Hok0 Hsame Hi' Wire.few_nil Hc' Hb Hf) as (m2&E2&Hi2&Ho2).
  destruct (RemoveAtStart_ok 8 m2 b [] Hi2) as (b2&Eb&Hi3&Hc3); [lia|]. exists b, m, m', b2, m2, (udp_read h h0 payload). split_and!; try done.
  - unfold h, h0. by destruct checksum.
  - unfold Wire.RemoveHeader. rewrite (Deserialize_again _ h0); [by rewrite E2, Eb|done|unfold h, h0; by destruct checksum].
  - rewrite Hc3, Ho2 by (by left). by rewrite Hc'.
Qed.
End UdpBytes.

(** * UDP sockets: the state of a node stays consistent

    A logic for the operations (what holds after them if they return), the invariant of
    the sockets and the table of end points, and that every operation keeps it. *)

Module UdpProps.
Import Buffer BufferInv PacketBytes Checksum Ipv4Address Interfaces Ipv4StaticRouting EndPoints EndPointsProps UdpSocket UdpOps UdpBytes.

(** ** What holds after an operation *)

Definition triple {A} (P : UdpL4Protocol -> Prop) (c : M A) (Q : A -> UdpL4Protocol -> Prop) : Prop :=
  forall u a u' o, P u -> c u = Some (a, u', o) -> Q a u'.
Lemma triple_bind {A B} P (c : M A) (k : A -> M B) Q R : triple P c Q -> (forall a, triple (Q a) (k a) R) -> triple P (bind c k) R.
Proof.
  intros Hc Hk u b u' o HP E. unfold bind in E. destruct (c u) as [[[a u1] o1]|] eqn:Ec; [|done]. destruct (k a u1) as [[[b' u2] o2]|] eqn:Ek; [|done].
  injection E as -> -> _. eapply Hk; [by eapply Hc|done].
Qed.
Lemma triple_pre {A} (P P' : UdpL4Protocol -> Prop) (c : M A) Q : (forall u, P u -> P' u) -> triple P' c Q -> triple P c Q.
Proof. intros H Ht u a u' o HP. apply Ht. by apply H. Qed.
Lemma triple_post {A} P (c : M A) (Q Q' : A -> UdpL4Protocol -> Prop) : triple P c Q -> (forall a u, Q a u -> Q' a u) -> triple P c Q'.
Proof. intros Ht H u a u' o HP E. eapply H, Ht; done. Qed.
(** Operations that only look, or only call. *)
Definition pure {A} (c : M A) : Prop := forall u a u' o, c u = Some (a, u', o) -> u' = u.
Lemma triple_pure {A} P (c : M A) : pure c -> triple P c (fun _ => P).
Proof. intros Hp u a u' o HP E. apply Hp in E. by subst. Qed.
Lemma pure_ret {A} (a : A) : pure (ret a).
Proof. by intros u b u' o [= _ <- _]. Qed.
Lemma pure_call c : pure (call c).
Proof. by intros u b u' o [= _ <- _]. Qed.
Lemma pure_require {A} (x : option A) : pure (require x).
Proof. intros u b u' o E. unfold require in E. destruct x; [|done]. by injection E as _ <- _. Qed.
Lemma pure_sock s : pure (sock s).
Proof. intros u b u' o E. unfold sock in E. destruct (sockets u !! s); [|done]. by injection E as _ <- _. Qed.
Lemma pure_endPoint p : pure (endPoint p).
Proof. intros u b u' o E. unfold endPoint in E. destruct (endPoint_at p _); [|done]. by injection E as _ <- _. Qed.
Lemma pure_fail {A} : pure (@fail A).
Proof. done. Qed.
Lemma pure_bind {A B} (c : M A) (k : A -> M B) : pure c -> (forall a, pure (k a)) -> pure (bind c k).
Proof.
  intros Hc Hk u b u' o E. unfold bind in E. destruct (c u) as [[[a u1] o1]|] eqn:Ec; [|done]. destruct (k a u1) as [[[b' u2] o2]|] eqn:Ek; [|done].
  injection E as _ <- _. apply Hk in Ek as ->. by eapply Hc.
Qed.
(** Running an operation, one step at a time. *)
Lemma bind_step {A B} (c : M A) (k : A -> M B) u a u1 : c u = Some (a, u1, []) -> bind c k u = k a u1.
Proof. intros E. unfold bind. rewrite E. by destruct (k a u1) as [[[b u2] o]|]. Qed.
Lemma bind_out {A B} (c : M A) (k : A -> M B) u a u1 o1 b u2 o2 : c u = Some (a, u1, o1) -> k a u1 = Some (b, u2, o2) -> bind c k u = Some (b, u2, o1 ++ o2).
Proof. intros E1 E2. unfold bind. by rewrite E1, E2. Qed.
Lemma sock_eq s u x : sockets u !! s = Some x -> sock s u = Some (x, u, []).
Proof. intros E. unfold sock. by rewrite E. Qed.
Lemma modify_eq s f u x : sockets u !! s = Some x -> modify s f u = Some (tt, set_sockets (<[s := f x]> (sockets u)) u, []).
Proof. intros E. unfold modify. by rewrite E. Qed.
Lemma endPoint_eq p u e : endPoint_at p (l4_endPoints u) = Some e -> endPoint p u = Some (e, u, []).
Proof. intros E. unfold endPoint. by rewrite E. Qed.
Lemma modify_endPoint_eq p f u e : endPoint_at p (l4_endPoints u) = Some e -> modify_endPoint p f u = Some (tt, set_demux (update_endPoint p f (l4_endPoints u)) u, []).
Proof. intros E. unfold modify_endPoint. by rewrite E. Qed.
Lemma require_eq {A} (x : A) u : require (Some x) u = Some (x, u, []).
Proof. done. Qed.
Create HintDb udp.
#[export] Hint Resolve pure_ret pure_call pure_require pure_sock pure_endPoint pure_fail : udp.

(** ** The table of end points *)

(** Well-formed tables, which may hold end points that clash. *)
Record demux_wf (d : Ipv4EndPointDemux) : Prop := mkDemuxWf {
  dw_range : range_ok d;
  dw_fresh : forall x, x ∈ m_endPoints d -> x.1 < next_endPoint d;
  dw_nodup : NoDup (m_endPoints d).*1
}.
(** A new end point calls nobody. *)
Definition silent (e : Ipv4EndPoint) : Prop := m_rxCallback e = None /\ m_icmpCallback e = None /\ m_destroyCallback e = None /\ m_rxEnabled e = true.
Definition allocates (f : Ipv4EndPointDemux -> option Z * Ipv4EndPointDemux) : Prop :=
  forall d, demux_wf d -> let r := f d in demux_wf r.2 /\ ((r.1 = None /\ m_endPoints r.2 = m_endPoints d) \/ exists e, allocated e d r /\ silent e).
Lemma push_back_wf e d : demux_wf d -> demux_wf (push_back e d).2.
Proof.
  intros [[] Hf Hn]. split; cbn [push_back snd m_endPoints next_endPoint]; [by split| |].
  - intros x Hx. apply elem_of_app in Hx as [Hx|Hx]; [specialize (Hf x Hx)|apply list_elem_of_singleton in Hx as ->; cbn]; lia.
  - rewrite fmap_app. apply NoDup_app. split_and!; [done| |apply NoDup_singleton]. intros q (x&->&Hx)%list_elem_of_fmap Hq.
    apply list_elem_of_singleton in Hq. specialize (Hf x Hx). cbn in Hq. lia.
Qed.
Lemma allocates_push e : silent e -> allocates (push_back e).
Proof. intros He d Hd. split; [by apply push_back_wf|]. right. exists e. split; [apply push_back_allocated|done]. Qed.
Lemma allocates_address a : allocates (Allocate_address a).
Proof.
  intros d [Hr Hf Hn]. unfold Allocate_address. pose proof (AllocateEphemeralPort_spec d Hr) as Hs. destruct (AllocateEphemeralPort d) as [port d'].
  destruct Hs as (Hr'&Ee&En&_). assert (demux_wf d') as Hd' by (split; [done|rewrite Ee, En; done|by rewrite Ee]). destruct (port =? 0); [split; [done|by left]|].
  destruct (allocates_push (Ipv4EndPoint_new a port) ltac:(done) d' Hd') as [Hw _]. split; [done|]. right. exists (Ipv4EndPoint_new a port). split; [|done].
  unfold allocated, push_back. cbn. rewrite Ee, En. done.
Qed.
Lemma allocates_local dev a port : allocates (Allocate_local dev a port).
Proof. intros d Hd. unfold Allocate_local. destruct (_ || _); [split; [done|by left]|]. by apply allocates_push. Qed.
Lemma update_demux_wf p f d : demux_wf d -> demux_wf (update_endPoint p f d).
Proof.
  intros [[] Hf Hn]. split; [by split| |by rewrite update_endPoint_fst]. intros x Hx. apply update_endPoint_elem in Hx as (y&Hy&->&_). by apply Hf.
Qed.
Lemma get_update p q f l : get q ((fun e : Z * Ipv4EndPoint => if e.1 =? p then (e.1, f e.2) else e) <$> l) = if q =? p then f <$> get q l else get q l.
Proof.
  induction l as [|[r e] l IH]; cbn; [by destruct (q =? p)|]. destruct (Z.eqb_spec r p) as [->|Hr]; cbn.
  - rewrite (Z.eqb_sym q p) in *. destruct (p =? q) eqn:E; [done|]. by rewrite IH.
  - destruct (Z.eqb_spec r q) as [->|Hrq]; [by rewrite (proj2 (Z.eqb_neq q p))|]. apply IH.
Qed.
Lemma endPoint_at_update p q f d : endPoint_at q (update_endPoint p f d) = if q =? p then f <$> endPoint_at q d else endPoint_at q d.
Proof. apply get_update. Qed.
Lemma get_elem p l e : get p l = Some e -> (p, e) ∈ l.
Proof. induction l as [|[q e0] l IH]; cbn; [done|]. destruct (Z.eqb_spec q p) as [->|_]; [intros [= ->]; by left|]. intros E. right. by apply IH. Qed.
Lemma get_app p l1 l2 : get p (l1 ++ l2) = match get p l1 with Some e => Some e | None => get p l2 end.
Proof. induction l1 as [|[q e0] l IH]; cbn; [done|]. by destruct (q =? p). Qed.
Lemma endPoint_at_allocated e d r : demux_wf d -> allocated e d r ->
  endPoint_at (next_endPoint d) r.2 = Some e /\ forall p e', endPoint_at p d = Some e' -> endPoint_at p r.2 = Some e' /\ p <> next_endPoint d.
Proof.
  intros [_ Hf _] (_&E&_). unfold endPoint_at. rewrite E. split.
  - rewrite get_app. destruct (get (next_endPoint d) (m_endPoints d)) as [e'|] eqn:Eg; [|cbn; by rewrite Z.eqb_refl]. apply get_elem, Hf in Eg. cbn in Eg. lia.
  - intros p e' Ep. rewrite get_app, Ep. split; [done|]. apply get_elem, Hf in Ep. cbn in Ep. lia.
Qed.
Lemma DeAllocate_spec p d : demux_wf d -> demux_wf (DeAllocate p d).2 /\
  (DeAllocate p d).1 = (e ← endPoint_at p d; m_destroyCallback e) /\
  (forall q, endPoint_at q (DeAllocate p d).2 = if q =? p then None else endPoint_at q d) /\
  forall x, x ∈ m_endPoints (DeAllocate p d).2 -> x ∈ m_endPoints d.
Proof.
  intros [[] Hf Hn]. unfold DeAllocate, endPoint_at. destruct (erase p (m_endPoints d)) as [[e l]|] eqn:E.
  - apply erase_sub in E as (l1&l2&E&->). rewrite E in Hf, Hn |- *. rewrite fmap_app in Hn. cbn in Hn. pose proof Hn as (N1&N2&N3)%NoDup_app. apply NoDup_cons in N3 as [N3 N4].
    assert (forall q e0 (l0 : list (Z * Ipv4EndPoint)), get q l0 = Some e0 -> q ∈ l0.*1) as Hg by (intros q e0 l0 Hq%get_elem; by apply (list_elem_of_fmap_2 fst _ (q, e0))).
    assert (get p l1 = None) as G1. { destruct (get p l1) eqn:Eg; [|done]. apply Hg in Eg. exfalso. apply (N2 p Eg). by left. }
    assert (get p l2 = None) as G2. { destruct (get p l2) eqn:Eg; [|done]. by apply Hg in Eg. }
    split_and!; cbn [fst snd set_endPoints m_endPoints].
    + split; [by split| |]; cbn. { intros x Hx. apply Hf. set_solver. } rewrite fmap_app. apply NoDup_app. set_solver.
    + rewrite get_app, G1. cbn. by rewrite Z.eqb_refl.
    + intros q. rewrite !get_app. cbn. rewrite (Z.eqb_sym p q). destruct (Z.eqb_spec q p) as [->|]; [by rewrite G1, G2|done].
    + set_solver.
  - assert (get p (m_endPoints d) = None) as G. { destruct (get p (m_endPoints d)) as [e|] eqn:Eg; [|done]. exfalso. clear Hf Hn. revert E Eg. generalize (m_endPoints d).
      induction l as [|[q e0] l IH]; cbn; [done|]. destruct (q =? p); [done|]. destruct (erase p l) as [[]|]; [done|]. by apply IH. }
    split_and!; cbn [fst snd]; [by split; [split|..]|by rewrite G| |done]. intros q. destruct (Z.eqb_spec q p) as [->|]; done.
Qed.

(** ** The invariant *)

Definition queue_size (q : list (UPacket * (Z * Z))) : Z := foldr (fun x n => GetSize (p_bytes x.1) + n) 0 q.
Definition MAX_RCV : Z := 2 ^ 32 - 2 ^ 16.
(** The counter of a socket is the size of its queue; nothing wraps. *)
Definition queue_ok (x : UdpSocketImpl) : Prop :=
  m_rxAvailable x = queue_size (m_deliveryQueue x) /\ queue_size (m_deliveryQueue x) <= MAX_RCV /\ m_rcvBufSize (attributes x) <= MAX_RCV.
Definition has_callback (s : Z) (e : Ipv4EndPoint) : Prop := m_rxCallback e = Some s \/ m_icmpCallback e = Some s \/ m_destroyCallback e = Some s.
(** The end point calls the socket. *)
Definition owns (skip : option Z) (s : Z) (e : Ipv4EndPoint) : Prop :=
  (m_rxCallback e = Some s /\ m_destroyCallback e = Some s) \/ (skip = Some s /\ m_destroyCallback e = None).
(** The invariant, where socket [skip] may be between getting an end point and setting
    its callbacks. *)
Record udp_inv_but (skip : option Z) (u : UdpL4Protocol) : Prop := mkUdpInv {
  ui_demux : demux_wf (l4_endPoints u);
  ui_owns : forall s x p, sockets u !! s = Some x -> m_endPoint x = Some p ->
    exists e, endPoint_at p (l4_endPoints u) = Some e /\ owns skip s e;
  ui_callbacks : forall y s, y ∈ m_endPoints (l4_endPoints u) -> has_callback s y.2 -> is_Some (sockets u !! s);
  ui_queue : forall s x, sockets u !! s = Some x -> queue_ok x
}.
Definition udp_inv : UdpL4Protocol -> Prop := udp_inv_but None.
Definition keeps {A} (c : M A) : Prop := triple udp_inv c (fun _ => udp_inv).

Lemma udp_inv_new : udp_inv UdpL4Protocol_new.
Proof.
  split; cbn; [split; [split; cbn; lia|by intros x ?%elem_of_nil|constructor]|done|by intros y s ?%elem_of_nil|done].
Qed.
Lemma inv_weaken s u : udp_inv u -> udp_inv_but (Some s) u.
Proof. intros [H1 H2 H3 H4]. split; try done. intros t x p Hx Hp. destruct (H2 t x p Hx Hp) as (e&A&[B|[B _]]); [|done]. exists e. split; [done|by left]. Qed.
Lemma keeps_pure {A} (c : M A) : pure c -> keeps c.
Proof. apply triple_pure. Qed.
Lemma keeps_bind {A B} (c : M A) (k : A -> M B) : keeps c -> (forall a, keeps (k a)) -> keeps (bind c k).
Proof. apply triple_bind. Qed.
(** A change of a socket that leaves its end point and keeps its queue in order. *)
Lemma modify_inv skip s f : (forall x, m_endPoint (f x) = m_endPoint x) -> (forall x, queue_ok x -> queue_ok (f x)) ->
  triple (udp_inv_but skip) (modify s f) (fun _ => udp_inv_but skip).
Proof.
  intros He Hq u a u' o [H1 H2 H3 H4] E. unfold modify in E. destruct (sockets u !! s) as [x|] eqn:Ex; [|done]. injection E as _ <- _. split; cbn.
  - done.
  - intros t y p Hy Hp. destruct (decide (s = t)) as [->|Hne].
    + rewrite lookup_insert_eq in Hy. injection Hy as <-. rewrite He in Hp. by apply (H2 t x p).
    + rewrite lookup_insert_ne in Hy by done. by apply (H2 t y p).
  - intros y t Hy Hc. destruct (decide (s = t)) as [->|Hne]; [by rewrite lookup_insert_eq|rewrite lookup_insert_ne by done; by eapply H3].
  - intros t y Hy. destruct (decide (s = t)) as [->|Hne].
    + rewrite lookup_insert_eq in Hy. injection Hy as <-. apply Hq. by eapply H4.
    + rewrite lookup_insert_ne in Hy by done. by eapply H4.
Qed.
Lemma keeps_modify s f : (forall x, m_endPoint (f x) = m_endPoint x) -> (forall x, queue_ok x -> queue_ok (f x)) -> keeps (modify s f).
Proof. apply modify_inv. Qed.
(** A change of an end point that leaves its callbacks. *)
Lemma modify_endPoint_inv skip p f :
  (forall e, m_rxCallback (f e) = m_rxCallback e /\ m_icmpCallback (f e) = m_icmpCallback e /\ m_destroyCallback (f e) = m_destroyCallback e) ->
  triple (udp_inv_but skip) (modify_endPoint p f) (fun _ => udp_inv_but skip).
Proof.
  intros Hf u a u' o [H1 H2 H3 H4] E. unfold modify_endPoint in E. destruct (endPoint_at p _) as [e|] eqn:Ee; [|done]. injection E as _ <- _. split; cbn [l4_endPoints set_demux sockets].
  - by apply update_demux_wf.
  - intros t x q Hx Hq. destruct (H2 t x q Hx Hq) as (e2&E2&B). rewrite endPoint_at_update, E2. destruct (q =? p); [|by exists e2].
    exists (f e2). split; [done|]. unfold owns. destruct (Hf e2) as (->&_&->). done.
  - intros y s Hy Hc. apply update_endPoint_elem in Hy as (z&Hz&_&Ez). apply (H3 z s Hz). rewrite Ez in Hc. destruct (z.1 =? p); [|done].
    unfold has_callback in *. destruct (Hf z.2) as (A&B&C). by rewrite A, B, C in Hc.
  - done.
Qed.
Lemma keeps_modify_endPoint p f : (forall e, m_rxCallback (f e) = m_rxCallback e /\ m_icmpCallback (f e) = m_icmpCallback e /\ m_destroyCallback (f e) = m_destroyCallback e) ->
  keeps (modify_endPoint p f).
Proof. apply modify_endPoint_inv. Qed.

(** ** Binding *)

Definition fresh_endPoint (r : option Z) (u : UdpL4Protocol) : Prop := forall p, r = Some p -> exists e, endPoint_at p (l4_endPoints u) = Some e /\ m_destroyCallback e = None.
Lemma on_demux_allocates f : allocates f -> triple udp_inv (on_demux f) (fun r u => udp_inv u /\ fresh_endPoint r u).
Proof.
  intros Hf u a u' o [H1 H2 H3 H4] E. unfold on_demux in E. destruct (Hf _ H1) as [Hw Hr]. destruct (f (l4_endPoints u)) as [r d] eqn:Ef. injection E as <- <- _. cbn [fst snd] in *.
  destruct Hr as [[-> Ee]|(e&Ha&Hs)].
  - split; [|done]. split; cbn; [done| | |done].
    + intros s x p Hx Hp. destruct (H2 s x p Hx Hp) as (e&A&B). exists e. unfold endPoint_at in *. by rewrite Ee.
    + rewrite Ee. done.
  - destruct (endPoint_at_allocated e _ _ H1 Ha) as [An Ao]. cbn [snd] in *. split; [split; cbn; [done| | |done]|].
    + intros s x p Hx Hp. destruct (H2 s x p Hx Hp) as (e'&A&B). exists e'. by destruct (Ao _ _ A) as [-> _].
    + destruct Ha as (_&Em&_). cbn in Em. rewrite Em. intros y s Hy Hc. apply elem_of_app in Hy as [Hy|Hy]; [by eapply H3|]. apply list_elem_of_singleton in Hy as ->.
      destruct Hs as (A&B&C&_). unfold has_callback in Hc. cbn in Hc. rewrite A, B, C in Hc. naive_solver.
    + intros p ->. destruct Ha as ([= ->]&_). cbn. exists e. split; [done|apply Hs].
Qed.
Lemma modify_set_endPoint s r : triple (fun u => udp_inv u /\ fresh_endPoint r u) (modify s (set_endPoint r)) (fun _ => udp_inv_but (Some s)).
Proof.
  intros u a u' o [[H1 H2 H3 H4] Hr] E. unfold modify in E. destruct (sockets u !! s) as [x|] eqn:Ex; [|done]. injection E as _ <- _. split; cbn; [done| | |].
  - intros t y p Hy Hp. destruct (decide (s = t)) as [->|Hne].
    + rewrite lookup_insert_eq in Hy. injection Hy as <-. cbn in Hp. destruct (Hr p Hp) as (e&He&Hd). exists e. split; [done|by right].
    + rewrite lookup_insert_ne in Hy by done. destruct (H2 t y p Hy Hp) as (e&A&[B|[B _]]); [|done]. exists e. split; [done|by left].
  - intros y t Hy Hc. destruct (decide (s = t)) as [->|Hne]; [by rewrite lookup_insert_eq|rewrite lookup_insert_ne by done; by eapply H3].
  - intros t y Hy. destruct (decide (s = t)) as [->|Hne].
    + rewrite lookup_insert_eq in Hy. injection Hy as <-. by eapply (H4 t x).
    + rewrite lookup_insert_ne in Hy by done. by eapply H4.
Qed.
Definition connect_callbacks (s : Z) (e : Ipv4EndPoint) : Ipv4EndPoint := SetDestroyCallback (Some s) (SetIcmpCallback (Some s) (SetRxCallback (Some s) e)).
Definition finished (s p : Z) (x : UdpSocketImpl) (u : UdpL4Protocol) : UdpL4Protocol :=
  set_sockets (<[s := set_shutdown false false x]> (sockets u)) (set_demux (update_endPoint p (connect_callbacks s) (l4_endPoints u)) u).
Lemma update_endPoint_twice p f g d : update_endPoint p g (update_endPoint p f d) = update_endPoint p (fun e => g (f e)) d.
Proof.
  unfold update_endPoint. cbn. unfold set_endPoints. cbn. f_equal. rewrite <- list_fmap_compose. apply list_fmap_ext. intros i y _. cbn.
  destruct (y.1 =? p) eqn:E; cbn; by rewrite E.
Qed.
Lemma FinishBind_eq s u x p : sockets u !! s = Some x -> m_endPoint x = Some p -> is_Some (endPoint_at p (l4_endPoints u)) ->
  FinishBind s u = Some (0, finished s p x u, []).
Proof.
  intros Hx Hp [e He]. unfold FinishBind. rewrite (bind_step _ _ _ _ _ (sock_eq _ _ _ Hx)), Hp.
  rewrite (bind_step _ _ _ _ _ (modify_endPoint_eq _ _ _ _ He)). set (u1 := set_demux _ u).
  assert (endPoint_at p (l4_endPoints u1) = Some (SetRxCallback (Some s) e)) as H1 by (unfold u1; cbn [l4_endPoints set_demux]; by rewrite endPoint_at_update, Z.eqb_refl, He).
  rewrite (bind_step _ _ _ _ _ (modify_endPoint_eq _ _ _ _ H1)). set (u2 := set_demux _ u1).
  assert (endPoint_at p (l4_endPoints u2) = Some (SetIcmpCallback (Some s) (SetRxCallback (Some s) e))) as H2 by (unfold u2; cbn [l4_endPoints set_demux]; by rewrite endPoint_at_update, Z.eqb_refl, H1).
  rewrite (bind_step _ _ _ _ _ (modify_endPoint_eq _ _ _ _ H2)). rewrite (bind_step _ _ _ _ _ (modify_eq s _ (set_demux _ u2) x Hx)).
  unfold ret, finished, u2, u1. cbn [l4_endPoints set_demux]. by rewrite !update_endPoint_twice.
Qed.
Lemma FinishBind_none s u x : sockets u !! s = Some x -> m_endPoint x = None -> FinishBind s u = Some (-1, u, []).
Proof. intros Hx Hp. unfold FinishBind, bind, sock. rewrite Hx, Hp. done. Qed.
Lemma finished_inv s p x u : udp_inv_but (Some s) u -> sockets u !! s = Some x -> m_endPoint x = Some p -> udp_inv (finished s p x u).
Proof.
  intros [H1 H2 H3 H4] Hx Hp. destruct (H2 s x p Hx Hp) as (e&He&Hs). unfold finished. split; cbn [l4_endPoints set_demux set_sockets sockets].
  - by apply update_demux_wf.
  - intros t y q Hy Hq. rewrite endPoint_at_update. destruct (decide (s = t)) as [->|Hne].
    + rewrite lookup_insert_eq in Hy. injection Hy as <-. cbn in Hq. rewrite Hp in Hq. injection Hq as <-. rewrite Z.eqb_refl, He. exists (connect_callbacks t e). split; [done|by left].
    + rewrite lookup_insert_ne in Hy by done. destruct (H2 t y q Hy Hq) as (e2&E2&B). destruct B as [[Er Ed]|[[= E] _]]; [|done].
      rewrite E2. destruct (Z.eqb_spec q p) as [->|Hqp]; [|exists e2; split; [done|by left]]. exfalso. unfold owns in Hs. naive_solver.
  - intros y t Hy Hc. apply update_endPoint_elem in Hy as (z&Hz&_&Ez). destruct (decide (s = t)) as [->|Hne]; [by rewrite lookup_insert_eq|]. rewrite lookup_insert_ne by done.
    apply (H3 z t Hz). rewrite Ez in Hc. destruct (z.1 =? p); [|done]. unfold has_callback in Hc. cbn in Hc. naive_solver.
  - intros t y Hy. destruct (decide (s = t)) as [->|Hne].
    + rewrite lookup_insert_eq in Hy. injection Hy as <-. by apply (H4 t x).
    + rewrite lookup_insert_ne in Hy by done. by eapply H4.
Qed.
Lemma FinishBind_inv s : triple (udp_inv_but (Some s)) (FinishBind s) (fun _ => udp_inv).
Proof.
  intros u a u' o Hi E. destruct (sockets u !! s) as [x|] eqn:Hx; [|unfold FinishBind, bind, sock in E; by rewrite Hx in E].
  destruct (m_endPoint x) as [p|] eqn:Hp.
  - destruct (ui_owns _ _ Hi s x p Hx Hp) as (e&He&_). rewrite (FinishBind_eq s u x p Hx Hp) in E by (by eexists). injection E as _ <- _. by eapply finished_inv.
  - rewrite (FinishBind_none s u x Hx Hp) in E. injection E as _ <- _. destruct Hi as [H1 H2 H3 H4]. split; try done.
    intros t y q Hy Hq. destruct (H2 t y q Hy Hq) as (e&He&[B|[[= ->] _]]); [exists e; split; [done|by left]|congruence].
Qed.
Lemma Bind_any_keeps s : keeps (Bind_any s).
Proof.
  eapply triple_bind; [apply on_demux_allocates, (allocates_address GetAny)|]. intros r. eapply triple_bind; [apply modify_set_endPoint|]. intros [].
  eapply triple_bind; [apply triple_pure, pure_sock|]. intros x. destruct (m_boundnetdevice (base x)) as [dev|]; [|apply FinishBind_inv].
  eapply triple_bind; [apply triple_pure, pure_require|]. intros p. eapply triple_bind; [by apply modify_endPoint_inv|]. intros []. apply FinishBind_inv.
Qed.
Lemma modify_clear s : keeps (modify s (set_endPoint None)).
Proof.
  intros u a u' o [H1 H2 H3 H4] E. unfold modify in E. destruct (sockets u !! s) as [x|] eqn:Ex; [|done]. injection E as _ <- _. split; cbn; [done| | |].
  - intros t y p Hy Hp. destruct (decide (s = t)) as [->|Hne]; [rewrite lookup_insert_eq in Hy; by injection Hy as <-|]. rewrite lookup_insert_ne in Hy by done. by apply (H2 t y p).
  - intros y t Hy Hc. destruct (decide (s = t)) as [->|Hne]; [by rewrite lookup_insert_eq|rewrite lookup_insert_ne by done; by eapply H3].
  - intros t y Hy. destruct (decide (s = t)) as [->|Hne].
    + rewrite lookup_insert_eq in Hy. injection Hy as <-. by eapply (H4 t x).
    + rewrite lookup_insert_ne in Hy by done. by eapply H4.
Qed.
Lemma Bind_keeps s address : keeps (Bind s address).
Proof.
  apply keeps_bind; [apply keeps_pure, pure_sock|]. intros x. destruct address as [ipv4 port|].
  2: { apply keeps_bind; [by apply keeps_modify|]. intros []. apply keeps_pure, pure_ret. }
  destruct (negb _); [apply keeps_pure, pure_fail|]. eapply triple_bind.
  { apply on_demux_allocates. destruct (_ && _); [apply (allocates_address GetAny)|]. destruct (ipv4 =? _); [apply allocates_local|]. destruct (port =? 0); [apply allocates_address|apply allocates_local]. }
  intros [p|].
  - eapply triple_bind; [apply modify_set_endPoint|]. intros []. destruct (m_boundnetdevice (base x)) as [dev|]; [|apply FinishBind_inv].
    eapply triple_bind; [by apply modify_endPoint_inv|]. intros []. apply FinishBind_inv.
  - eapply triple_bind; [eapply triple_pre; [|apply (modify_clear s)]; by intros u []|]. intros []. apply keeps_bind; [by apply keeps_modify|]. intros []. apply keeps_pure, pure_ret.
Qed.

(** ** Closing *)

Lemma inv_sockets_irrelevant skip d l i m l' i' : udp_inv_but skip (mkUdpL4 d l i m) -> udp_inv_but skip (mkUdpL4 d l' i' m).
Proof. intros []. by split. Qed.
Lemma RemoveSocket_eq s u : exists b l, RemoveSocket s u = Some (b, mkUdpL4 (l4_endPoints u) l (m_socketIndex u) (sockets u), []).
Proof. unfold RemoveSocket. destruct (erase_socket s (m_sockets u)) as [l|]; [by exists true, l|]. exists false, (m_sockets u). by destruct u. Qed.
Lemma dealloc_inv s x p u l i : udp_inv u -> sockets u !! s = Some x -> m_endPoint x = Some p ->
  udp_inv (mkUdpL4 (DeAllocate p (l4_endPoints u)).2 l i (<[s := set_endPoint None x]> (sockets u))).
Proof.
  intros [H1 H2 H3 H4] Hx Hp. destruct (DeAllocate_spec p _ H1) as (Hw&_&Hg&Hsub). destruct (H2 s x p Hx Hp) as (e&He&[[Hr Hd]|[? _]]); [|done]. split; cbn.
  - done.
  - intros t y q Hy Hq. destruct (decide (s = t)) as [->|Hne]; [rewrite lookup_insert_eq in Hy; by injection Hy as <-|]. rewrite lookup_insert_ne in Hy by done.
    destruct (H2 t y q Hy Hq) as (e2&E2&[B|[? _]]); [|done]. rewrite Hg. destruct (Z.eqb_spec q p) as [->|_]; [exfalso; naive_solver|]. exists e2. split; [done|by left].
  - intros y t Hy Hc. destruct (decide (s = t)) as [->|Hne]; [by rewrite lookup_insert_eq|]. rewrite lookup_insert_ne by done. by eapply H3; [apply Hsub|].
  - intros t y Hy. destruct (decide (s = t)) as [->|Hne].
    + rewrite lookup_insert_eq in Hy. injection Hy as <-. by apply (H4 t x).
    + rewrite lookup_insert_ne in Hy by done. by eapply H4.
Qed.
Lemma DeallocateEndPoint_eq s u x : udp_inv u -> sockets u !! s = Some x ->
  exists l, DeallocateEndPoint s u = Some (tt, mkUdpL4 (match m_endPoint x with Some p => (DeAllocate p (l4_endPoints u)).2 | None => l4_endPoints u end) l (m_socketIndex u)
    (match m_endPoint x with Some p => <[s := set_endPoint None x]> (sockets u) | None => sockets u end), []).
Proof.
  intros Hi Hx. unfold DeallocateEndPoint. rewrite (bind_step _ _ _ _ _ (sock_eq _ _ _ Hx)). destruct (m_endPoint x) as [p|] eqn:Hp; [|exists (m_sockets u); by destruct u].
  destruct (ui_owns _ _ Hi s x p Hx Hp) as (e&He&[[Hr Hd]|[? _]]); [|done]. destruct (DeAllocate_spec p _ (ui_demux _ _ Hi)) as (_&Hcb&_). rewrite He in Hcb. cbn in Hcb. rewrite Hd in Hcb.
  set (u1 := set_demux (DeAllocate p (l4_endPoints u)).2 u). destruct (RemoveSocket_eq s u1) as (b&l&Er). exists l. set (u2 := mkUdpL4 _ l _ _) in Er.
  assert (l4_DeAllocate p u = Some (tt, set_sockets (<[s := set_endPoint None x]> (sockets u)) u2, [])) as E.
  { unfold l4_DeAllocate. rewrite (bind_step _ _ _ (Some s) u1); [|unfold on_demux, u1; destruct (DeAllocate p (l4_endPoints u)); cbn in Hcb; by rewrite Hcb].
    unfold Destroy. rewrite (bind_step _ _ _ _ _ Er). by rewrite (modify_eq s _ u2 x Hx). }
  rewrite (bind_step _ _ _ _ _ E). rewrite (modify_eq s _ _ (set_endPoint None x)) by (cbn; by rewrite lookup_insert_eq). unfold set_sockets. cbn. by rewrite insert_insert_eq.
Qed.
Lemma DeallocateEndPoint_keeps s : keeps (DeallocateEndPoint s).
Proof.
  intros u a u' o Hi E. destruct (sockets u !! s) as [x|] eqn:Hx; [|unfold DeallocateEndPoint, bind, sock in E; by rewrite Hx in E].
  destruct (DeallocateEndPoint_eq s u x Hi Hx) as [l El]. rewrite El in E. injection E as _ <- _. destruct (m_endPoint x) as [p|] eqn:Hp; [by apply dealloc_inv|].
  destruct u. by eapply inv_sockets_irrelevant.
Qed.
(** Operations made of steps that keep the invariant. *)
Ltac keeps_steps := repeat first
  [ apply Bind_any_keeps | apply Bind_keeps | apply DeallocateEndPoint_keeps
  | apply keeps_bind; [| intros ?]
  | apply keeps_modify; done
  | apply keeps_modify_endPoint; done
  | apply keeps_pure; auto with udp; fail
  | case_match ].
Lemma ShutdownSend_keeps s : keeps (ShutdownSend s).
Proof. unfold ShutdownSend. keeps_steps. Qed.
Lemma ShutdownRecv_keeps s : keeps (ShutdownRecv s).
Proof. unfold ShutdownRecv. keeps_steps. Qed.
Lemma Close_keeps s : keeps (Close s).
Proof. unfold Close. keeps_steps. Qed.
Lemma Connect_keeps s address : keeps (Connect s address).
Proof. unfold Connect. keeps_steps. Qed.
Lemma Listen_keeps s : keeps (Listen s).
Proof. unfold Listen. keeps_steps. Qed.
Lemma CreateSocket_keeps : keeps CreateSocket.
Proof.
  intros u a u' o [H1 H2 H3 H4] E. injection E as _ <- _. split; cbn; [done| | |].
  - intros t y p Hy Hp. apply lookup_insert_Some in Hy as [[_ <-]|[_ Hy]]; [done|by apply (H2 t y p)].
  - intros y t Hy Hc. destruct (H3 y t Hy Hc) as [x Hx]. destruct (decide (m_socketIndex u = t)) as [->|Hne]; [by rewrite lookup_insert_eq|by rewrite lookup_insert_ne].
  - intros t y Hy. apply lookup_insert_Some in Hy as [[_ <-]|[_ Hy]]; [|by eapply H4]. by split_and!.
Qed.

(** ** Sending *)

Section Node.
Context (uninit : Z -> nat -> Z) {R : Type} `{RoutingProtocol R} (checksum : bool) (devices : list Z) (GetIfIndex : Z -> Z) (ipv4 : Interfaces) (routing : option R).

Lemma BindToNetDevice_keeps s d : keeps (BindToNetDevice devices s d).
Proof. unfold BindToNetDevice. keeps_steps. Qed.
Lemma l4_Send_pure p saddr daddr sport dport route : pure (l4_Send uninit checksum p saddr daddr sport dport route).
Proof. unfold l4_Send. apply pure_bind; auto with udp. Qed.
Lemma broadcast_copies_pure s dev p dest sport port l : pure (broadcast_copies uninit checksum s dev p dest sport port l).
Proof.
  induction l as [|i l IH]; cbn [broadcast_copies]; [apply pure_ret|]. apply pure_bind; [apply pure_require|]. intros a. apply pure_bind; [|done].
  destruct (_ =? _); [apply pure_ret|]. destruct (match dev with Some _ => _ | None => _ end); [apply pure_ret|].
  apply pure_bind; [apply l4_Send_pure|]. intros _. apply pure_bind; auto with udp.
Qed.
Lemma ensure_bound_keeps s : keeps (ensure_bound s).
Proof. unfold ensure_bound. keeps_steps. Qed.
Lemma refuse_keeps s e p : keeps (refuse s e p).
Proof. unfold refuse. keeps_steps. Qed.
Lemma send_from_keeps s p dest port : keeps (send_from uninit checksum ipv4 routing s p dest port).
Proof.
  unfold send_from. repeat first [apply refuse_keeps | apply keeps_bind; [|intros ?] | apply keeps_pure; auto using l4_Send_pure, broadcast_copies_pure with udp; fail | case_match ].
Qed.
Lemma DoSendTo_keeps s p dest port tos : keeps (DoSendTo uninit checksum ipv4 routing s p dest port tos).
Proof. unfold DoSendTo. repeat first [apply refuse_keeps | apply send_from_keeps | apply ensure_bound_keeps | apply keeps_bind; [|intros ?] | apply keeps_pure; auto with udp; fail | case_match ]. Qed.
Lemma SendTo_keeps s p address : keeps (SendTo uninit checksum ipv4 routing s p address).
Proof. unfold SendTo. repeat first [apply DoSendTo_keeps | apply keeps_bind; [|intros ?] | apply keeps_pure; auto with udp; fail | case_match ]. Qed.
Lemma Send_keeps s p : keeps (Send uninit checksum ipv4 routing s p).
Proof. unfold Send, DoSend. repeat first [apply refuse_keeps | apply DoSendTo_keeps | apply ensure_bound_keeps | apply keeps_bind; [|intros ?] | apply keeps_pure; auto with udp; fail | case_match ]. Qed.

(** ** Receiving *)

Lemma queue_size_cons x q : queue_size (x :: q) = GetSize (p_bytes x.1) + queue_size q.
Proof. done. Qed.
Lemma queue_size_nonneg q : 0 <= queue_size q.
Proof. induction q as [|x q IH]; [done|]. rewrite queue_size_cons. unfold GetSize. pose proof (zlen_nonneg (p_bytes x.1)). lia. Qed.
Lemma queue_size_app q1 q2 : queue_size (q1 ++ q2) = queue_size q1 + queue_size q2.
Proof. induction q1 as [|x q IH]; [done|]. cbn [app]. rewrite !queue_size_cons, IH. lia. Qed.
(** A socket replaced by one with the same end point and a queue in order. *)
Lemma replace_inv s x y u : udp_inv u -> sockets u !! s = Some x -> m_endPoint y = m_endPoint x -> queue_ok y -> udp_inv (set_sockets (<[s := y]> (sockets u)) u).
Proof.
  intros [H1 H2 H3 H4] Hx He Hq. split; cbn; [done| | |].
  - intros t z p Hz Hp. apply lookup_insert_Some in Hz as [[<- <-]|[_ Hz]]; [rewrite He in Hp; by apply (H2 s x p)|by apply (H2 t z p)].
  - intros z t Hz Hc. destruct (decide (s = t)) as [->|Hne]; [by rewrite lookup_insert_eq|rewrite lookup_insert_ne by done; by eapply H3].
  - intros t z Hz. apply lookup_insert_Some in Hz as [[_ <-]|[_ Hz]]; [done|by eapply H4].
Qed.
Lemma RecvFrom_keeps s maxSize : keeps (RecvFrom s maxSize).
Proof.
  intros u a u' o Hi E. destruct (sockets u !! s) as [x|] eqn:Hx; [|unfold RecvFrom, bind, sock in E; by rewrite Hx in E].
  unfold RecvFrom in E. rewrite (bind_step _ _ _ _ _ (sock_eq _ _ _ Hx)) in E. destruct (ui_queue _ _ Hi s x Hx) as (Q1&Q2&Q3).
  destruct (m_deliveryQueue x) as [|[p from] rest] eqn:Eq; [|destruct (_ <=? _); [|by injection E as _ <- _]].
  - rewrite (bind_step _ _ _ _ _ (modify_eq _ _ _ _ Hx)) in E. injection E as _ <- _. eapply replace_inv; try done. unfold queue_ok. cbn. by rewrite Eq.
  - rewrite (bind_step _ _ _ _ _ (modify_eq _ _ _ _ Hx)) in E. injection E as _ <- _. rewrite queue_size_cons in Q1, Q2. cbn [fst] in Q1, Q2. pose proof (queue_size_nonneg rest). unfold GetSize in *. pose proof (zlen_nonneg (p_bytes p)).
    eapply replace_inv; try done. unfold queue_ok. cbn [m_rxAvailable m_deliveryQueue attributes set_delivery]. unfold MAX_RCV in *. rewrite u32_small by lia. split_and!; lia.
Qed.
(** A packet that is too large for the buffer is dropped, the others are queued. *)
Lemma ForwardUp_inv s packet header port iface u a u' o : udp_inv u -> zlen (p_bytes packet) < 2 ^ 16 -> ForwardUp GetIfIndex s packet header port iface u = Some (a, u', o) -> udp_inv u'.
Proof.
  intros Hi Hp E. destruct (sockets u !! s) as [x|] eqn:Hx; [|unfold ForwardUp, bind, sock in E; by rewrite Hx in E].
  unfold ForwardUp in E. rewrite (bind_step _ _ _ _ _ (sock_eq _ _ _ Hx)) in E. destruct (m_shutdownRecv x); [by injection E as _ <- _|].
  destruct (receive_tags _ _ _ _ _) as [t|]; [|done]. rewrite (bind_step _ _ _ _ _ (require_eq _ _)) in E. destruct (ui_queue _ _ Hi s x Hx) as (Q1&Q2&Q3). cbn [p_bytes] in E. unfold GetSize in E.
  pose proof (queue_size_nonneg (m_deliveryQueue x)). pose proof (zlen_nonneg (p_bytes packet)). unfold MAX_RCV in *. rewrite u32_small in E by lia.
  destruct (Z.leb_spec (m_rxAvailable x + zlen (p_bytes packet)) (m_rcvBufSize (attributes x))); [|by injection E as _ <- _].
  rewrite (bind_step _ _ _ _ _ (modify_eq _ _ _ _ Hx)) in E. injection E as _ <- _. eapply replace_inv; try done.
  unfold queue_ok. cbn [m_rxAvailable m_deliveryQueue attributes set_delivery]. rewrite queue_size_app, queue_size_cons. cbn [fst p_bytes queue_size foldr]. unfold GetSize, MAX_RCV. split_and!; lia.
Qed.
Lemma forward_all_inv l packet header sport iface u a u' o : udp_inv u -> zlen (p_bytes packet) < 2 ^ 16 -> forward_all GetIfIndex l packet header sport iface u = Some (a, u', o) -> udp_inv u'.
Proof.
  revert u a u' o. induction l as [|p l IH]; intros u a u' o Hi Hp E; cbn [forward_all] in E; [by injection E as _ <- _|].
  unfold bind at 1 in E. destruct (endPoint_ForwardUp _ _ _ _ _ _ u) as [[[a1 u1] o1]|] eqn:E1; [|done]. destruct (forward_all _ _ _ _ _ _ u1) as [[[a2 u2] o2]|] eqn:E2; [|done].
  injection E as _ <- _. eapply IH; [|done|exact E2]. unfold endPoint_ForwardUp in E1. destruct (endPoint_at p (l4_endPoints u)) as [e|] eqn:He; [|unfold bind, endPoint in E1; by rewrite He in E1].
  rewrite (bind_step _ _ _ _ _ (endPoint_eq _ _ _ He)) in E1. destruct (m_rxCallback e); [by eapply ForwardUp_inv|by injection E1 as _ <- _].
Qed.
(** The addresses and the size of a packet that arrives. *)
Definition arrives (packet : UPacket) (header : Ipv4Header.Ipv4Header) : Prop :=
  byte_list (p_bytes packet) /\ 8 <= zlen (p_bytes packet) < 2 ^ 16 /\ u32_addr (Ipv4Header.GetSource header) /\ u32_addr (Ipv4Header.GetDestination header).
(** [Receive] on any bytes: the checksum is checked, the end point looked up, and the
    packet without its header is forwarded. *)
Definition wire_good (saddr daddr : Z) (bytes : list Z) : bool :=
  negb checksum || (checksum_field bytes =? 0) || (checksum_of (Wire.pseudo_sum (Wire.V4 saddr) (Wire.V4 daddr) PROT_NUMBER (zlen bytes)) bytes =? 0).
Lemma wire_good_eq saddr daddr bytes : 8 <= zlen bytes -> good_bytes (receive_header checksum saddr daddr) bytes = wire_good saddr daddr bytes.
Proof.
  intros Hl. unfold good_bytes, wire_good, UdpHeader.udp_sum. assert (zlen (drop 8 bytes) + 8 = zlen bytes) as -> by (unfold zlen in *; rewrite length_drop; lia). unfold receive_header. destruct checksum; cbn; [|done].
  by destruct (checksum_field bytes =? 0).
Qed.
Lemma l4_Receive_eq packet header iface u : arrives packet header -> let src := Ipv4Header.GetSource header in let dst := Ipv4Header.GetDestination header in let sport := port_at 0 (p_bytes packet) in
  l4_Receive uninit checksum GetIfIndex packet header iface u =
    if negb (wire_good src dst (p_bytes packet)) then Some (RX_CSUM_FAILED, u, [])
    else match Lookup dst (port_at 2 (p_bytes packet)) src sport iface (l4_endPoints u) with
         | None => None
         | Some [] => Some (RX_ENDPOINT_UNREACH, u, [])
         | Some l => bind (forward_all GetIfIndex l (mkUPacket (drop 8 (p_bytes packet)) (p_tags packet)) header sport iface) (fun _ => ret RX_OK) u
         end.
Proof.
  intros (Hb&Hl&Hs&Hd) src dst sport. pose proof (receive_header_ok checksum _ _ Hs Hd) as Hok. unfold l4_Receive. fold (receive_header checksum (Ipv4Header.GetSource header) (Ipv4Header.GetDestination header)).
  destruct (receive_bytes uninit _ _ Hok Hb Hl) as (b&m&h&m'&E1&E2&(Esp&Edp&Eg)&Hrem). rewrite E1, (bind_step _ _ _ _ _ (require_eq _ _)). cbn [fst snd].
  rewrite E2, (bind_step _ _ _ _ _ (require_eq _ _)). cbn iota. unfold UdpHeader.IsChecksumOk. rewrite wire_good_eq in Eg by lia. fold src dst in Eg. rewrite Eg. destruct (wire_good src dst (p_bytes packet)); cbn [negb]; [|done].
  destruct Hrem as (h2&b2&m2&Er&Hc&Es2). { rewrite Eg. unfold receive_header. by destruct checksum. }
  rewrite Esp, Edp. fold src dst sport in Es2 |- *. unfold bind at 1. destruct (Lookup _ _ _ _ _ _) as [[|p l]|]; [done| |done].
  rewrite Er. rewrite (bind_step _ _ _ _ _ (require_eq _ _)). cbn iota. rewrite Hc, Es2. fold sport. by destruct (bind _ _ u) as [[[]]|].
Qed.
Lemma l4_Receive_inv packet header iface u a u' o : udp_inv u -> arrives packet header -> l4_Receive uninit checksum GetIfIndex packet header iface u = Some (a, u', o) -> udp_inv u'.
Proof.
  intros Hi Ha E. rewrite (l4_Receive_eq packet header iface u Ha) in E. cbv zeta in E. destruct (negb _); [by injection E as _ <- _|].
  destruct (Lookup _ _ _ _ _ _) as [[|p l]|]; [by injection E as _ <- _| |done]. unfold bind at 1 in E. destruct (forward_all _ _ _ _ _ _ u) as [[[a1 u1] o1]|] eqn:E1; [|done].
  injection E as _ <- _. eapply forward_all_inv; [done| |exact E1]. cbn. destruct Ha as (_&Hl&_). unfold zlen in *. rewrite length_drop. lia.
Qed.

(** ** Programs *)

(** What applications do with the sockets of a node, and the packets that arrive. *)
Inductive UdpOp :=
  | OpCreate | OpBind (s : Z) (a : Address) | OpBindAny (s : Z) | OpBindDevice (s : Z) (d : option Z) | OpShutdownSend (s : Z) | OpShutdownRecv (s : Z)
  | OpClose (s : Z) | OpConnect (s : Z) (a : Address) | OpListen (s : Z) | OpSend (s : Z) (p : UPacket) | OpSendTo (s : Z) (p : UPacket) (a : Address)
  | OpRecvFrom (s maxSize : Z) | OpSetRcvBufSize (s size : Z) | OpSetOptions (s : Z) (f : Socket -> Socket) | OpAllowBroadcast (s : Z) (b : bool)
  | OpReceive (p : UPacket) (h : Ipv4Header.Ipv4Header) (i : Ipv4Interface).
Definition discard {A} (c : M A) : M unit := bind c (fun _ => ret tt).
Definition perform (op : UdpOp) : M unit :=
  match op with
  | OpCreate => discard CreateSocket
  | OpBind s a => discard (Bind s a)
  | OpBindAny s => discard (Bind_any s)
  | OpBindDevice s d => BindToNetDevice devices s d
  | OpShutdownSend s => discard (ShutdownSend s)
  | OpShutdownRecv s => discard (ShutdownRecv s)
  | OpClose s => discard (Close s)
  | OpConnect s a => discard (Connect s a)
  | OpListen s => discard (Listen s)
  | OpSend s p => discard (Send uninit checksum ipv4 routing s p)
  | OpSendTo s p a => discard (SendTo uninit checksum ipv4 routing s p a)
  | OpRecvFrom s n => discard (RecvFrom s n)
  | OpSetRcvBufSize s n => modify s (SetRcvBufSize n)
  | OpSetOptions s f => modify s (set_options f)
  | OpAllowBroadcast s b => modify s (SetAllowBroadcast b)
  | OpReceive p h i => discard (l4_Receive uninit checksum GetIfIndex p h i)
  end.
(** Receive buffers are not larger than [MAX_RCV]; packets have a UDP header. *)
Definition op_ok (op : UdpOp) : Prop :=
  match op with OpSetRcvBufSize _ n => n <= MAX_RCV | OpReceive p h _ => arrives p h | _ => True end.
Inductive udp_reach : UdpL4Protocol -> Prop :=
  | ur_new : udp_reach UdpL4Protocol_new
  | ur_step op u u' o : udp_reach u -> op_ok op -> perform op u = Some (tt, u', o) -> udp_reach u'.
Lemma discard_keeps {A} (c : M A) : keeps c -> keeps (discard c).
Proof. intros Hc. apply keeps_bind; [done|]. intros _. apply keeps_pure, pure_ret. Qed.
Lemma perform_inv op u u' o : op_ok op -> udp_inv u -> perform op u = Some (tt, u', o) -> udp_inv u'.
Proof.
  intros Hok Hi E. destruct op; cbn [perform] in E; [..|unfold discard, bind in E; destruct (l4_Receive _ _ _ _ _ _ u) as [[[a1 u1] o1]|] eqn:E1; [|done]; injection E as <- _; by eapply l4_Receive_inv].
  all: try (match type of E with ?c _ = _ => assert (keeps c) as Hk end; [|by eapply Hk]).
  all: try (apply discard_keeps; auto using CreateSocket_keeps, Bind_keeps, Bind_any_keeps, ShutdownSend_keeps, ShutdownRecv_keeps, Close_keeps, Connect_keeps, Listen_keeps, Send_keeps, SendTo_keeps, RecvFrom_keeps; fail).
  - apply BindToNetDevice_keeps.
  - apply keeps_modify; [done|]. intros x (A&B&C). by split_and!.
  - apply keeps_modify; done.
  - apply keeps_modify; done.
Qed.
Lemma udp_reach_inv u : udp_reach u -> udp_inv u.
Proof. induction 1 as [|op u u' o Hr IH Hok E]; [apply udp_inv_new|by eapply perform_inv]. Qed.

(** ** Receiving does not abort *)

Lemma ForwardUp_eq s x packet header port iface u t : sockets u !! s = Some x -> m_shutdownRecv x = false -> receive_tags GetIfIndex (base x) header (dev_id (m_device iface)) (p_tags packet) = Some t ->
  queue_ok x -> zlen (p_bytes packet) < 2 ^ 16 ->
  ForwardUp GetIfIndex s packet header port iface u =
    if m_rxAvailable x + zlen (p_bytes packet) <=? m_rcvBufSize (attributes x)
    then Some (tt, set_sockets (<[s := set_delivery (m_deliveryQueue x ++ [(mkUPacket (p_bytes packet) t, (Ipv4Header.GetSource header, port))]) (m_rxAvailable x + zlen (p_bytes packet)) x]> (sockets u)) u, [NotifyDataRecv s])
    else Some (tt, u, [DropTrace s (mkUPacket (p_bytes packet) t)]).
Proof.
  intros Hx Hr Ht (Q1&Q2&Q3) Hp. unfold ForwardUp. rewrite (bind_step _ _ _ _ _ (sock_eq _ _ _ Hx)), Hr, Ht, (bind_step _ _ _ _ _ (require_eq _ _)). cbn [p_bytes]. unfold GetSize.
  pose proof (queue_size_nonneg (m_deliveryQueue x)). pose proof (zlen_nonneg (p_bytes packet)). unfold MAX_RCV in *. rewrite !u32_small by lia.
  destruct (_ <=? _); [|done]. by rewrite (bind_step _ _ _ _ _ (modify_eq _ _ _ _ Hx)).
Qed.
(** The packet carries none of the tags that the receiving socket may add. *)
Definition untagged (t : SocketTags) : Prop := SocketIpTosTag t = None /\ SocketIpTtlTag t = None.
Lemma receive_tags_ok b header d t : untagged t -> exists t', receive_tags GetIfIndex b header d t = Some t'.
Proof. intros [E1 E2]. unfold receive_tags. rewrite E1, E2. destruct (m_ipRecvTos b), (m_ipRecvTtl b); by eexists. Qed.
(** The packet [p] from [saddr] and [sport] in the queue of socket [t]. *)
Definition delivered (t : Z) (y : UdpSocketImpl) (p : UPacket) (saddr sport : Z) (u : UdpL4Protocol) : UdpL4Protocol :=
  set_sockets (<[t := set_delivery (m_deliveryQueue y ++ [(p, (saddr, sport))]) (m_rxAvailable y + zlen (p_bytes p)) y]> (sockets u)) u.
(** What socket [s] does with a payload: nothing once it is shut down; otherwise it queues
    the payload and tells the application, or drops and reports it for want of room. *)
Definition socket_gets (s : Z) (payload : list Z) (src sport : Z) (u u' : UdpL4Protocol) (o : list UdpCall) : Prop :=
  exists x, sockets u !! s = Some x /\
    if m_shutdownRecv x then u' = u /\ o = []
    else exists t, let q := mkUPacket payload t in
      if m_rxAvailable x + zlen payload <=? m_rcvBufSize (attributes x) then u' = delivered s x q src sport u /\ o = [NotifyDataRecv s]
      else u' = u /\ o = [DropTrace s q].
Lemma endPoint_ForwardUp_total p e packet header port iface u : udp_inv u -> endPoint_at p (l4_endPoints u) = Some e -> untagged (p_tags packet) -> zlen (p_bytes packet) < 2 ^ 16 ->
  exists u' o, endPoint_ForwardUp GetIfIndex p packet header port iface u = Some (tt, u', o) /\
    match m_rxCallback e with Some s => socket_gets s (p_bytes packet) (Ipv4Header.GetSource header) port u u' o | None => u' = u /\ o = [] end.
Proof.
  intros Hi He Ht Hp. unfold endPoint_ForwardUp. rewrite (bind_step _ _ _ _ _ (endPoint_eq _ _ _ He)). destruct (m_rxCallback e) as [s|] eqn:Es; [|by eexists _, _].
  destruct (ui_callbacks _ _ Hi (p, e) s) as [x Hx]; [by apply get_elem|by left|]. unfold socket_gets. destruct (m_shutdownRecv x) eqn:Er.
  - unfold ForwardUp. rewrite (bind_step _ _ _ _ _ (sock_eq _ _ _ Hx)), Er. eexists _, _. split; [reflexivity|]. exists x. by rewrite Er.
  - destruct (receive_tags_ok (base x) header (dev_id (m_device iface)) _ Ht) as [t' Et]. rewrite (ForwardUp_eq s x packet header port iface u t' Hx Er Et (ui_queue _ _ Hi s x Hx) Hp).
    destruct (_ <=? _) eqn:Eroom; (eexists _, _; split; [reflexivity|]); exists x; rewrite Er; (split; [done|]); exists t'; by rewrite Eroom.
Qed.
(** What the bytes of a packet that arrives, the table of end points and the room of the
    socket say. *)
Definition received (packet : UPacket) (header : Ipv4Header.Ipv4Header) (iface : Ipv4Interface) (u : UdpL4Protocol) (a : RxStatus) (u' : UdpL4Protocol) (o : list UdpCall) : Prop :=
  let src := Ipv4Header.GetSource header in let dst := Ipv4Header.GetDestination header in
  let sport := port_at 0 (p_bytes packet) in let dport := port_at 2 (p_bytes packet) in
  if negb (wire_good src dst (p_bytes packet)) then a = RX_CSUM_FAILED /\ u' = u /\ o = []
  else (a = RX_ENDPOINT_UNREACH /\ u' = u /\ o = [] /\ forall x, x ∈ m_endPoints (l4_endPoints u) -> fits dst dport src sport iface x.2 = false) \/
    exists p e, a = RX_OK /\ endPoint_at p (l4_endPoints u) = Some e /\ fits dst dport src sport iface e = true /\
      (forall x, x ∈ m_endPoints (l4_endPoints u) -> rank dst dport src sport iface x.2 <= rank dst dport src sport iface e) /\
      match m_rxCallback e with Some s => socket_gets s (drop 8 (p_bytes packet)) src sport u u' o | None => u' = u /\ o = [] end.
Lemma l4_Receive_total packet header iface u : udp_inv u -> arrives packet header -> untagged (p_tags packet) ->
  clash_free (l4_endPoints u) -> no_network (Ipv4Header.GetDestination header) iface (l4_endPoints u) ->
  exists a u' o, l4_Receive uninit checksum GetIfIndex packet header iface u = Some (a, u', o) /\ received packet header iface u a u' o.
Proof.
  intros Hi Ha Ht Hc Hn. rewrite (l4_Receive_eq packet header iface u Ha). cbv zeta. unfold received. destruct (negb _); [by eexists _, _, _|].
  pose proof (ui_demux _ _ Hi) as [Dr Df Dn]. set (src := Ipv4Header.GetSource header) in *. set (dst := Ipv4Header.GetDestination header) in *. set (sport := port_at 0 (p_bytes packet)). set (dport := port_at 2 (p_bytes packet)).
  destruct (Lookup_decides dst dport src sport iface (l4_endPoints u)) as [[-> Hno]|(p&e&->&He&Hfit&Hbest)]; [by split|done|eexists _, _, _; split; [reflexivity|by left]|].
  cbn [forward_all]. destruct Ha as (_&Hl&_).
  destruct (endPoint_ForwardUp_total p e (mkUPacket (drop 8 (p_bytes packet)) (p_tags packet)) header sport iface u Hi He) as (u'&o&E&Hg); [done|cbn; unfold zlen in *; rewrite length_drop; lia|].
  unfold bind. rewrite E. eexists _, _, _. split; [reflexivity|]. right. exists p, e. split_and!; try done; [intros x Hx; by apply Hbest|]. cbn [p_bytes] in Hg. rewrite !app_nil_r. exact Hg.
Qed.
Lemma Close_eq s x u : udp_inv u -> sockets u !! s = Some x -> exists r u', Close s u = Some (r, u', []) /\
  (m_shutdownRecv x && m_shutdownSend x = false -> r = 0 /\ forall p, m_endPoint x = Some p -> endPoint_at p (l4_endPoints u') = None).
Proof.
  intros Hi Hx. unfold Close. rewrite (bind_step _ _ _ _ _ (sock_eq _ _ _ Hx)). destruct (m_shutdownRecv x && m_shutdownSend x).
  - rewrite (bind_step _ _ _ _ _ (modify_eq _ _ _ _ Hx)). by eexists _, _.
  - set (u1 := set_sockets (<[s := set_shutdown true true x]> (sockets u)) u).
    rewrite (bind_step _ _ _ tt u1); [|exact (modify_eq _ _ _ _ Hx)].
    assert (udp_inv u1) as Hi1 by (eapply replace_inv; [done|exact Hx|done|exact (ui_queue _ _ Hi s x Hx)]).
    destruct (DeallocateEndPoint_eq s u1 (set_shutdown true true x) Hi1) as [l E]; [apply lookup_insert_eq|]. rewrite (bind_step _ _ _ _ _ E).
    eexists _, _. split; [reflexivity|]. intros _. split; [done|]. intros p Hp. cbn [m_endPoint set_shutdown]. rewrite Hp. cbn [l4_endPoints].
    destruct (DeAllocate_spec p (l4_endPoints u1) (ui_demux _ _ Hi1)) as (_&_&Hg&_). by rewrite Hg, Z.eqb_refl.
Qed.

(** ** Theorems *)

(** C12: The sockets of a node stay consistent, whatever the applications do and whatever
    arrives: the counter of available bytes of a socket is the size of its queue, which
    stays within the buffer limits; the end point of a socket is in the table and calls
    the socket; every end point calls sockets that exist; and closing a socket returns,
    taking its end point out of the table. *)
Theorem udp_sockets_consistent u : udp_reach u ->
  (forall y s, y ∈ m_endPoints (l4_endPoints u) -> has_callback s y.2 -> is_Some (sockets u !! s)) /\
  forall s x, sockets u !! s = Some x -> m_rxAvailable x = queue_size (m_deliveryQueue x) /\ queue_size (m_deliveryQueue x) <= MAX_RCV /\
    (forall p, m_endPoint x = Some p -> exists e, endPoint_at p (l4_endPoints u) = Some e /\ m_rxCallback e = Some s /\ m_destroyCallback e = Some s) /\
    exists r u', Close s u = Some (r, u', []) /\
      (m_shutdownRecv x && m_shutdownSend x = false -> r = 0 /\ forall p, m_endPoint x = Some p -> endPoint_at p (l4_endPoints u') = None).
Proof.
  intros Hr%udp_reach_inv. split; [apply Hr|]. intros s x Hx. destruct (ui_queue _ _ Hr s x Hx) as (Q1&Q2&_). split_and!; [done..| |by apply Close_eq].
  intros p Hp. destruct (ui_owns _ _ Hr s x p Hx Hp) as (e&He&[B|[? _]]); [|done]. by exists e.
Qed.
(** C35: Receiving does not abort, and does what the bytes say: any packet of at least the
    eight bytes of a header, with any content and no tags of its own, that arrives at a node
    whose end points decide every packet is refused if its checksum is wrong; reported as
    unreachable if no end point fits its ports and addresses; and otherwise handed, without
    its header, to the socket of an end point that none fits better, which queues it and
    tells the application if it has room, drops and reports it if not, and ignores it once
    it is shut down. Nothing else changes. *)
Theorem udp_receive_total packet header iface u : udp_reach u -> arrives packet header -> untagged (p_tags packet) ->
  clash_free (l4_endPoints u) -> no_network (Ipv4Header.GetDestination header) iface (l4_endPoints u) ->
  exists a u' o, l4_Receive uninit checksum GetIfIndex packet header iface u = Some (a, u', o) /\ received packet header iface u a u' o /\ udp_reach u'.
Proof.
  intros Hr Ha Ht Hc Hn. destruct (l4_Receive_total packet header iface u (udp_reach_inv _ Hr) Ha Ht Hc Hn) as (a&u'&o&E&Hw). exists a, u', o. split; [done|]. split; [done|].
  apply (ur_step (OpReceive packet header iface) u u' (o ++ [])); [done..|]. cbn. unfold discard, bind. by rewrite E.
Qed.
End Node.
End UdpProps.
