(* ===== verification/UdpTransfer.v ===== *)
(** * From socket to socket

    A datagram sent by a UDP socket goes through the protocol object, is routed, cut
    into packets that fit the link, put together by the receiving node, and reaches the
    socket its port belongs to. *)

From S2P Require Import Prelude Buffer BufferIterator BufferInv BufferRw BufferProps Checksum Wire Ipv4Header UdpHeader PacketBytes Ipv4Address Ipv4Interface Ipv4StaticRouting.
From S2P Require Import Ipv4Fragment Ipv4Reassembly Ipv4L3 Ipv4L3Props EndPoints UdpSocket UdpProps.

Module UdpTransfer.
Import Buffer BufferInv PacketBytes Checksum Ipv4Address Ipv4InterfaceAddress Interfaces Ipv4StaticRouting Ipv4Fragment Ipv4L3Props EndPoints UdpSocket UdpOps UdpBytes UdpProps.

Section Nodes.
Context (uninit : Z -> nat -> Z) {R : Type} `{HR : RoutingProtocol R} {HL : RoutingLaws R} (checksum : bool) (GetIfIndex : Z -> Z) {mem : Memory}.

(** ** The sender *)

Record ready (u : UdpL4Protocol) (s : Z) (x : UdpSocketImpl) (e : Ipv4EndPoint) : Prop := mkReady {
  rd_socket : sockets u !! s = Some x;
  rd_endPoint : exists p, m_endPoint x = Some p /\ endPoint_at p (l4_endPoints u) = Some e;
  rd_open : m_shutdownSend x = false;
  rd_port : u16_range (m_localPort e)
}.
(** A packet an application may send. *)
Record sendable_packet (p : UPacket) : Prop := mkSendable {
  sp_bytes : byte_list (p_bytes p);
  sp_size : zlen (p_bytes p) <= MAX_IPV4_UDP_DATAGRAM_SIZE;
  sp_ttl : SocketIpTtlTag (p_tags p) = None
}.
Definition wire_bytes (saddr daddr sport dport : Z) (bytes : list Z) : list Z :=
  UdpHeader.udp_bytes (sent_header checksum saddr daddr sport dport) bytes ++ bytes.
Lemma l4_Send_eq p saddr daddr sport dport route u : byte_list (p_bytes p) -> UdpHeader.udp_fits (p_bytes p) -> u32_addr saddr -> u32_addr daddr -> u16_range sport -> u16_range dport ->
  l4_Send uninit checksum p saddr daddr sport dport route u = Some (tt, u, [DownTarget (mkUPacket (wire_bytes saddr daddr sport dport (p_bytes p)) (p_tags p)) saddr daddr route]).
Proof.
  intros Hb Hf Hs Hd Hsp Hdp. unfold l4_Send. fold (sent_header checksum saddr daddr sport dport). rewrite with_header_ok by (done || by apply sent_header_ok).
  by rewrite (bind_step _ _ _ _ _ (require_eq _ _)).
Qed.
Lemma sent_tags x dest tos p : SocketIpTtlTag (p_tags p) = None -> exists t, ttl_tag_of x dest (tos_and_priority (base x) tos (p_tags p)) = Some t.
Proof.
  intros Ht. assert (SocketIpTtlTag (tos_and_priority (base x) tos (p_tags p)) = None) as E by (unfold tos_and_priority; repeat case_match; done).
  unfold ttl_tag_of, add_ttl. rewrite E. cbn [add_tag]. destruct (_ && IsMulticast dest); [eexists; reflexivity|]. destruct (_ && _); eexists; reflexivity.
Qed.
(** A socket bound to all addresses sends from the address of the route. *)
Lemma SendTo_routed ipv4 r u s x e p dest port route err o : ready u s x e -> m_localAddr e = GetAny -> sendable_packet p -> IsBroadcast dest = false -> u32_addr dest -> u16_range port ->
  route_output (Ipv4Header.SetProtocol PROT_NUMBER (Ipv4Header.SetDestination dest Ipv4Header.Ipv4Header_new)) (m_boundnetdevice (base x)) ipv4 r = Some (Some route, err) ->
  u32_addr (rt_source route) -> GetInterface (GetInterfaceForDevice (rt_outputDevice route) ipv4) ipv4 = Some o ->
  (m_allowBroadcast x = true \/ existsb (fun a => dest =? m_broadcast a) (m_ifaddrs o) = false) ->
  exists t, SendTo uninit checksum ipv4 (Some r) s p (InetSocketAddress dest port) u =
    Some ((zlen (p_bytes p), mkUPacket (p_bytes p) t), u,
      [DownTarget (mkUPacket (wire_bytes (rt_source route) dest (m_localPort e) port (p_bytes p)) t) (rt_source route) dest (Some route); NotifyDataSent s (zlen (p_bytes p))]).
Proof.
  intros [Hx (ep&Hp&He) Hopen Hport] Hany [Hb Hs Ht] Hbr Hd Hdp Hroute Hsrc Ho Hdir. unfold SendTo. rewrite (bind_step _ _ _ _ _ (sock_eq _ _ _ Hx)). unfold DoSendTo.
  rewrite (bind_step _ _ _ true u); [|unfold ensure_bound; by rewrite (bind_step _ _ _ _ _ (sock_eq _ _ _ Hx)), Hp]. cbn [negb].
  rewrite (bind_step _ _ _ _ _ (sock_eq _ _ _ Hx)), Hopen. unfold GetTxAvailable, GetSize. rewrite (proj2 (Z.ltb_ge _ _)) by done.
  destruct (sent_tags x dest (m_ipTos (base x)) p Ht) as [t Et]. rewrite Et, (bind_step _ _ _ _ _ (require_eq _ _)). exists (df_tag_of x t). unfold send_from.
  rewrite (bind_step _ _ _ _ _ (sock_eq _ _ _ Hx)), Hp, (bind_step _ _ _ _ _ (require_eq _ _)), (bind_step _ _ _ _ _ (endPoint_eq _ _ _ He)), Hbr, Hany. change (negb (GetAny =? GetAny)) with false. cbv iota zeta.
  rewrite Hroute, (bind_step _ _ _ _ _ (require_eq _ _)). cbv iota. rewrite (bind_step _ _ _ false u).
  2: { destruct Hdir as [->|Hdir]; [done|]. destruct (m_allowBroadcast x); [done|]. rewrite Ho, (bind_step _ _ _ _ _ (require_eq _ _)). by rewrite Hdir. }
  unfold MAX_IPV4_UDP_DATAGRAM_SIZE in Hs. refine (bind_out _ _ _ tt u [_] _ u [_] _ _); [apply l4_Send_eq; done || (unfold UdpHeader.udp_fits; cbn; lia)|reflexivity].
Qed.

(** ** The receiver *)

(** The packet is for socket [t], which has room for it. *)
Record listening (u : UdpL4Protocol) (t : Z) (y : UdpSocketImpl) (iface : Ipv4Interface) (saddr sport daddr dport size : Z) : Prop := mkListening {
  ls_inv : udp_inv u;
  ls_socket : sockets u !! t = Some y;
  ls_lookup : exists q f, Lookup daddr dport saddr sport iface (l4_endPoints u) = Some [q] /\ endPoint_at q (l4_endPoints u) = Some f /\ m_rxCallback f = Some t;
  ls_open : m_shutdownRecv y = false;
  ls_room : m_rxAvailable y + size <= m_rcvBufSize (attributes y)
}.
Lemma l4_Receive_sent header saddr daddr iface tg u t y sport dport payload : Ipv4Header.GetSource header = saddr -> Ipv4Header.GetDestination header = daddr -> u32_addr saddr -> u32_addr daddr -> u16_range sport -> u16_range dport ->
  byte_list payload -> zlen payload <= MAX_IPV4_UDP_DATAGRAM_SIZE -> untagged tg ->
  listening u t y iface saddr sport daddr dport (zlen payload) ->
  exists t', l4_Receive uninit checksum GetIfIndex (mkUPacket (wire_bytes saddr daddr sport dport payload) tg) header iface u =
    Some (RX_OK, delivered t y (mkUPacket payload t') saddr sport u, [NotifyDataRecv t]).
Proof.
  intros <- <- Hs Hd Hsp Hdp Hb Hsz Ht [Hi Hy (q&f&Hl&Hq&Hf) Hr Hroom]. unfold MAX_IPV4_UDP_DATAGRAM_SIZE in Hsz. assert (UdpHeader.udp_fits payload) as Hfit by (unfold UdpHeader.udp_fits; lia).
  destruct (receive_sent uninit checksum _ _ sport dport payload Hs Hd Hsp Hdp Hb Hfit) as (b&m&m'&b2&m2&h2&E1&E2&Eg&E3&Ec&Esp&_).
  destruct (receive_tags_ok GetIfIndex (base y) header (dev_id (m_device iface)) tg Ht) as [t' Et]. exists t'. unfold l4_Receive, wire_bytes. cbn [p_bytes p_tags].
  fold (receive_header checksum (Ipv4Header.GetSource header) (Ipv4Header.GetDestination header)). rewrite E1, (bind_step _ _ _ _ _ (require_eq _ _)). cbn [fst snd].
  rewrite E2, (bind_step _ _ _ _ _ (require_eq _ _)). cbn iota. unfold UdpHeader.IsChecksumOk. rewrite Eg. cbn [negb UdpHeader.m_destinationPort UdpHeader.m_sourcePort UdpHeader.udp_read].
  rewrite (bind_step _ _ _ [q] u) by (cbn [UdpHeader.m_destinationPort UdpHeader.m_sourcePort sent_header UdpHeader.SetSourcePort UdpHeader.SetDestinationPort]; by rewrite Hl).
  rewrite E3, (bind_step _ _ _ _ _ (require_eq _ _)). cbn iota. rewrite Ec, Esp. cbn [forward_all].
  assert (endPoint_ForwardUp GetIfIndex q (mkUPacket payload tg) header sport iface u = Some (tt, delivered t y (mkUPacket payload t') (Ipv4Header.GetSource header) sport u, [NotifyDataRecv t])) as E.
  { unfold endPoint_ForwardUp. rewrite (bind_step _ _ _ _ _ (endPoint_eq _ _ _ Hq)), Hf. rewrite (ForwardUp_eq GetIfIndex t y (mkUPacket payload tg) header _ iface _ t' Hy Hr Et (ui_queue _ _ Hi t y Hy)) by (cbn; lia).
    cbn [p_bytes]. by rewrite (proj2 (Z.leb_le _ _)) by done. }
  unfold bind. rewrite E. done.
Qed.
Lemma RecvFrom_first t y p saddr sport u n : queue_ok y -> m_deliveryQueue y = [] -> zlen (p_bytes p) <= n ->
  exists u', RecvFrom t n (delivered t y p saddr sport u) = Some ((Some p, Some (saddr, sport)), u', []).
Proof.
  intros (Q1&_) Eq Hn. unfold RecvFrom. erewrite bind_step; [|apply sock_eq; cbn; apply lookup_insert_eq]. cbn [m_deliveryQueue set_delivery]. rewrite Eq. cbn [app]. unfold GetSize.
  rewrite (proj2 (Z.leb_le _ _)) by done. erewrite bind_step; [|apply modify_eq; cbn; apply lookup_insert_eq]. by eexists.
Qed.

(** ** The network in between *)

Lemma send_header_flow P tags src dst proto (l3 : Ipv4L3.L3 R) h l3' : Ipv4L3.send_header checksum P tags src dst proto l3 = (h, l3') ->
  Ipv4Header.m_source h = src /\ Ipv4Header.m_destination h = dst /\ Ipv4L3.l3_ifs l3' = Ipv4L3.l3_ifs l3 /\ (0 < zlen P -> whole P h).
Proof.
  intros E. pose proof (send_header_ok checksum P tags src dst proto l3 h l3' E) as (_&_&_&Ei&_&H1&H2&H3).
  unfold Ipv4L3.send_header, Ipv4L3.BuildHeader in E. injection E as Eh _. split_and!; [by subst h; destruct checksum|by subst h; destruct checksum|done|]. intros HP.
  split_and!; [split; [lia|by rewrite H2|done]|by unfold Ipv4Header.GetFragmentOffset|unfold Ipv4Header.IsLastFragment; by rewrite H3|done].
Qed.
(** A payload sent through a route arrives whatever the order of its packets. *)
Lemma routed_payload P tags src dst proto route (l3 : Ipv4L3.L3 R) i timeout now iif : JoinsSlices P -> 0 < zlen P <= 65515 -> route_valid (Ipv4L3.l3_ifs l3) route -> mtu_ok (Ipv4L3.l3_ifs l3) ->
  GetInterface (GetInterfaceForDevice (rt_outputDevice route) (Ipv4L3.l3_ifs l3)) (Ipv4L3.l3_ifs l3) = Some i -> Ipv4Interface.IsUp i = true ->
  exists calls l3', Ipv4L3.Send checksum P tags src dst proto (Some route) l3 = Some (calls, l3') /\
    forall order rs, order ≡ₚ sent calls -> Ipv4Reassembly.m_fragments rs !! Ipv4Reassembly.fragment_key (Ipv4L3.send_header checksum P tags src dst proto l3).1 = None ->
      exists rs' hd, deliver_all timeout now iif order rs = Some ([(P, hd)], rs') /\ Ipv4Header.GetSource hd = src /\ Ipv4Header.GetDestination hd = dst.
Proof.
  intros HJ HP Hv Hm Hi Hup. cbn [Ipv4L3.Send]. unfold Ipv4L3.Send_route. destruct (Ipv4L3.send_header checksum P tags src dst proto l3) as [h l3'] eqn:Eh.
  destruct (send_header_flow _ _ _ _ _ _ _ _ Eh) as (Es&Ed&Ei&Hw). rewrite (proj1 Hv). cbn [negb fst]. rewrite <- Ei in Hv, Hm, Hi.
  destruct (send_receive_ok checksum route P (Ipv4L3.mkTags None None (Ipv4L3.priority_tag tags)) h l3' i timeout now iif HJ Hv Hm (Hw ltac:(lia)) ltac:(unfold payload_ok; lia) Hi Hup) as (calls&->&Hdel).
  exists calls, l3'. split; [done|]. intros order rs Ho Hk. destruct (Hdel order rs Ho Hk) as (rs'&hd&E&Hf&_). exists rs', hd. destruct Hf as (_&_&_&_&A&B&_).
  unfold Ipv4Header.GetSource, Ipv4Header.GetDestination. rewrite A, B. done.
Qed.

(** ** Theorem *)

Definition l3_tags (t : SocketTags) : Ipv4L3.Tags := Ipv4L3.mkTags (SocketIpTtlTag t) (SocketIpTosTag t) (SocketPriorityTag t).
(** C6: A datagram goes from socket to socket. A socket bound to all addresses sends a
    packet to an address for which the node has a route through an interface that is up:
    [SendTo] returns its size and hands one packet down, from the address of the route.
    The network layer cuts it into packets for the link; if they reach a node, in any
    order, which has no fragments of that flow, its network layer delivers one payload;
    if the table of that node gives the port to a socket that has room, [Receive] puts
    the very bytes that were sent into its queue, with the address and the port of the
    sender, and tells the application; and if the queue was empty, [RecvFrom] returns
    them. Assumed of the memory of the receiver: when it puts the packets together,
    [AddAtEnd] joins the beginning of the datagram and the part that follows it
    ([JoinsSlices]), as it does for fragments of one packet ([fragments_join]). *)
Theorem udp_end_to_end r (l3 : Ipv4L3.L3 R) u s x e p dest port route err i timeout now iif :
  JoinsSlices (wire_bytes (rt_source route) dest (m_localPort e) port (p_bytes p)) ->
  ready u s x e -> m_localAddr e = GetAny -> sendable_packet p -> IsBroadcast dest = false -> u32_addr dest -> u16_range port ->
  route_output (Ipv4Header.SetProtocol PROT_NUMBER (Ipv4Header.SetDestination dest Ipv4Header.Ipv4Header_new)) (m_boundnetdevice (base x)) (Ipv4L3.l3_ifs l3) r = Some (Some route, err) ->
  u32_addr (rt_source route) -> (m_allowBroadcast x = true \/ existsb (fun a => dest =? m_broadcast a) (m_ifaddrs i) = false) ->
  table_ok (Ipv4L3.l3_ifs l3) -> mtu_ok (Ipv4L3.l3_ifs l3) -> GetInterface (GetInterfaceForDevice (rt_outputDevice route) (Ipv4L3.l3_ifs l3)) (Ipv4L3.l3_ifs l3) = Some i -> Ipv4Interface.IsUp i = true ->
  exists wire t calls l3', let src := rt_source route in let sport := m_localPort e in
    SendTo uninit checksum (Ipv4L3.l3_ifs l3) (Some r) s p (InetSocketAddress dest port) u =
      Some ((zlen (p_bytes p), mkUPacket (p_bytes p) t), u, [DownTarget (mkUPacket wire t) src dest (Some route); NotifyDataSent s (zlen (p_bytes p))]) /\
    Ipv4L3.Send checksum wire (l3_tags t) src dest PROT_NUMBER (Some route) l3 = Some (calls, l3') /\
    forall order rs, order ≡ₚ sent calls -> Ipv4Reassembly.m_fragments rs !! Ipv4Reassembly.fragment_key (Ipv4L3.send_header checksum wire (l3_tags t) src dest PROT_NUMBER l3).1 = None ->
      exists rs' hd, deliver_all timeout now iif order rs = Some ([(wire, hd)], rs') /\
        forall v k y iface tg, listening v k y iface src sport dest port (zlen (p_bytes p)) -> untagged tg ->
          exists q, p_bytes q = p_bytes p /\
            l4_Receive uninit checksum GetIfIndex (mkUPacket wire tg) hd iface v = Some (RX_OK, delivered k y q src sport v, [NotifyDataRecv k]) /\
            (m_deliveryQueue y = [] -> forall n, zlen (p_bytes p) <= n -> exists v', RecvFrom k n (delivered k y q src sport v) = Some ((Some q, Some (src, sport)), v', [])).
Proof.
  intros HJ Hrd Hany Hp Hbr Hd Hdp Hroute Hsrc Hdir Htab Hm Hi Hup. destruct Hp as [Hb Hsz Ht] eqn:Ep. clear Ep. pose proof (zlen_nonneg (p_bytes p)). unfold MAX_IPV4_UDP_DATAGRAM_SIZE in Hsz.
  pose proof (route_output_valid _ _ _ _ _ _ Htab Hroute) as Hv. pose proof (rd_port _ _ _ _ Hrd) as Hsp.
  destruct (SendTo_routed (Ipv4L3.l3_ifs l3) r u s x e p dest port route err i Hrd Hany ltac:(by split) Hbr Hd Hdp Hroute Hsrc Hi Hdir) as [t Hsend].
  set (wire := wire_bytes (rt_source route) dest (m_localPort e) port (p_bytes p)) in *.
  assert (zlen wire = zlen (p_bytes p) + 8) as Hw by (unfold wire, wire_bytes; rewrite zlen_app; change (zlen (UdpHeader.udp_bytes _ _)) with 8; lia).
  destruct (routed_payload wire (l3_tags t) (rt_source route) dest PROT_NUMBER route l3 i timeout now iif HJ ltac:(lia) Hv Hm Hi Hup) as (calls&l3'&Hs3&Hdel).
  exists wire, t, calls, l3'. cbv zeta. split; [done|]. split; [done|]. intros order rs Ho Hk. destruct (Hdel order rs Ho Hk) as (rs'&hd&Edel&Esrc&Edst). exists rs', hd. split; [done|].
  intros v k y iface tg Hls Htg. destruct (l4_Receive_sent hd _ _ iface tg v k y (m_localPort e) port (p_bytes p) Esrc Edst Hsrc Hd Hsp Hdp Hb Hsz Htg Hls) as [t' Er].
  exists (mkUPacket (p_bytes p) t'). split; [done|]. split; [done|]. intros Eq n Hn. by apply (RecvFrom_first k y _ _ _ v n (ui_queue _ _ (ls_inv _ _ _ _ _ _ _ _ _ Hls) k y (ls_socket _ _ _ _ _ _ _ _ _ Hls)) Eq).
Qed.
End Nodes.
End UdpTransfer.

(** * UDP on concrete nodes

    A datagram from one node to another, and programs whose behaviour surprises. *)

Module UdpDemo.
Import BufferProps Checksum Ipv4Address Ipv4InterfaceAddress Interfaces Ipv4StaticRouting PacketBytes Ipv4Fragment Ipv4L3Props EndPoints EndPointsProps UdpSocket UdpOps UdpBytes UdpProps UdpTransfer.

#[local] Existing Instances plain_memory plain_slices.

(** The node of the routing examples; a program on its sockets. *)
Definition demo_perform : UdpOp -> M unit := perform demo_uninit true [100; 200] (fun d => d) demo_ifs (Some demo_routes).
Fixpoint demo_run (ops : list UdpOp) : M unit :=
  match ops with [] => ret tt | op :: ops => bind (demo_perform op) (fun _ => demo_run ops) end.
Definition state_after (ops : list UdpOp) : UdpL4Protocol := match demo_run ops UdpL4Protocol_new with Some (_, u, _) => u | None => UdpL4Protocol_new end.
Lemma run_reach ops u u' o : Forall op_ok ops -> udp_reach demo_uninit true [100; 200] (fun d => d) demo_ifs (Some demo_routes) u ->
  demo_run ops u = Some (tt, u', o) -> udp_reach demo_uninit true [100; 200] (fun d => d) demo_ifs (Some demo_routes) u'.
Proof.
  intros Hok. revert u u' o. induction Hok as [|op ops Hop _ IH]; intros u u' o Hr E; cbn [demo_run] in E; [by injection E as <- _|].
  unfold bind in E. destruct (demo_perform op u) as [[[[] u1] o1]|] eqn:E1; [|done]. destruct (demo_run ops u1) as [[[[] u2] o2]|] eqn:E2; [|done]. injection E as <- _.
  eapply IH; [|exact E2]. by eapply ur_step.
Qed.

(** Socket 0 has port 5000 on all addresses, socket 1 has port 53. *)
Definition two_sockets : list UdpOp := [OpCreate; OpBind 0 (InetSocketAddress 0 5000); OpCreate; OpBind 1 (InetSocketAddress 0 53)].
Definition node : UdpL4Protocol := state_after two_sockets.
Lemma node_reach : udp_reach demo_uninit true [100; 200] (fun d => d) demo_ifs (Some demo_routes) node.
Proof. eapply (run_reach two_sockets); [by repeat constructor|apply ur_new|vm_compute; reflexivity]. Qed.
Definition socket_of (s : Z) (u : UdpL4Protocol) : UdpSocketImpl := default UdpSocketImpl_new (sockets u !! s).
Definition end_point_of (p : Z) (u : UdpL4Protocol) : Ipv4EndPoint := default (Ipv4EndPoint_new 0 0) (endPoint_at p (l4_endPoints u)).
Definition iface : Ipv4Interface := demo_interface 200 600 0x0a010001 0xffff0000.

(** ** Witnesses *)

Lemma udp_sockets_consistent_witness : m_rxAvailable (socket_of 1 node) = 0 /\ exists r u', Close 1 node = Some (r, u', []) /\ r = 0 /\ endPoint_at 2 (l4_endPoints u') = None.
Proof.
  destruct (udp_sockets_consistent demo_uninit true [100; 200] (fun d => d) demo_ifs (Some demo_routes) node node_reach) as [_ H].
  destruct (H 1 (socket_of 1 node)) as (_&_&_&r&u'&E&Hc); [vm_compute; reflexivity|]. split; [reflexivity|]. exists r, u'. split; [exact E|].
  destruct (Hc ltac:(reflexivity)) as [Hr Hp]. split; [exact Hr|]. apply Hp. reflexivity.
Defined.
Definition garbage : UPacket := mkUPacket [1; 2; 0; 53; 0; 0; 9; 9; 4] no_socket_tags.
Definition arrived : Ipv4Header.Ipv4Header := Ipv4Header.SetSource 0x0a010203 (Ipv4Header.SetDestination 0x0a010001 Ipv4Header.Ipv4Header_new).
Lemma node_clash_free : clash_free (l4_endPoints node).
Proof.
  unfold clash_free. replace (m_endPoints (l4_endPoints node)) with [(1, connect_callbacks 0 (Ipv4EndPoint_new 0 5000)); (2, connect_callbacks 1 (Ipv4EndPoint_new 0 53))] by (vm_compute; reflexivity).
  constructor; [repeat constructor|]. constructor; [|constructor]. left. vm_compute. discriminate.
Qed.
Lemma udp_receive_total_witness : exists u' o, l4_Receive demo_uninit true (fun d => d) garbage arrived iface node = Some (RX_CSUM_FAILED, u', o).
Proof.
  destruct (udp_receive_total demo_uninit true [100; 200] (fun d => d) demo_ifs (Some demo_routes) garbage arrived iface node node_reach) as (a&u'&o&E&_).
  - split; [repeat constructor; lia|]. split; [vm_compute; split; congruence|]. split; vm_compute; split; congruence.
  - split; reflexivity.
  - exact node_clash_free.
  - intros x Hx Hn. vm_compute in Hx. repeat (apply elem_of_cons in Hx as [->|Hx]; [right; reflexivity|]). by apply elem_of_nil in Hx.
  - assert (a = RX_CSUM_FAILED) as -> by (vm_compute in E; congruence). exists u', o. exact E.
Defined.
Definition message : UPacket := mkUPacket (replicate 700 7) no_socket_tags.
Definition via : Ipv4Route := mkRoute 0x0a010000 0x0a010001 0 true 200.
Lemma message_ok : sendable_packet message.
Proof. split; [cbn; repeat (constructor; [lia|]); constructor|vm_compute; congruence|reflexivity]. Qed.
(** 700 bytes from port 5000 to port 53, in two packets that arrive in the wrong order. *)
Lemma udp_end_to_end_witness : exists wire t calls l3' rs' hd q v,
  SendTo demo_uninit true demo_ifs (Some demo_routes) 0 message (InetSocketAddress 0x0a010203 53) node =
    Some ((700, mkUPacket (replicate 700 7) t), node, [DownTarget (mkUPacket wire t) 0x0a010001 0x0a010203 (Some via); NotifyDataSent 0 700]) /\
  Ipv4L3.Send true wire (l3_tags t) 0x0a010001 0x0a010203 PROT_NUMBER (Some via) demo_l3 = Some (calls, l3') /\
  deliver_all 30 0 0 (reverse (sent calls)) Ipv4Reassembly.Reassembly_new = Some ([(wire, hd)], rs') /\
  l4_Receive demo_uninit true (fun d => d) (mkUPacket wire no_socket_tags) hd iface node = Some (RX_OK, v, [NotifyDataRecv 1]) /\ p_bytes q = replicate 700 7 /\
  exists v', RecvFrom 1 1000 v = Some ((Some q, Some (0x0a010001, 5000)), v', []).
Proof.
  destruct (udp_end_to_end demo_uninit true (fun d => d) demo_routes demo_l3 node 0 (socket_of 0 node) (end_point_of 1 node) message 0x0a010203 53 via ERROR_NOTERROR iface 30 0 0) as (wire&t&calls&l3'&E1&E2&H).
  - apply plain_slices.
  - split; [vm_compute; reflexivity|exists 1; split; vm_compute; reflexivity|reflexivity|vm_compute; split; congruence].
  - reflexivity.
  - exact message_ok.
  - reflexivity.
  - vm_compute; split; congruence.
  - vm_compute; split; congruence.
  - vm_compute. reflexivity.
  - vm_compute; split; congruence.
  - right. reflexivity.
  - exact demo_table_ok.
  - exact demo_mtu_ok.
  - vm_compute. reflexivity.
  - reflexivity.
  - destruct (H (reverse (sent calls)) Ipv4Reassembly.Reassembly_new) as (rs'&hd&E3&H2); [apply reverse_Permutation|apply lookup_empty|].
    destruct (H2 node 1 (socket_of 1 node) iface no_socket_tags) as (q&Eq&E4&H3); [split|split; reflexivity|].
    + exact (udp_reach_inv _ _ _ _ _ _ _ node_reach).
    + vm_compute. reflexivity.
    + exists 2, (end_point_of 2 node). split_and!; vm_compute; reflexivity.
    + reflexivity.
    + vm_compute. congruence.
    + exists wire, t, calls, l3', rs', hd, q, (delivered 1 (socket_of 1 node) q 0x0a010001 5000 node).
      split; [exact E1|]. split; [exact E2|]. split; [exact E3|]. split; [exact E4|]. split; [exact Eq|]. apply H3; [reflexivity|vm_compute; congruence].
Defined.

(** ** Programs that surprise *)

(** A socket that was closed sends: it gets a new end point, which also clears the flag
    that it was shut down. *)
Lemma closed_socket_sends : let u := state_after [OpCreate; OpBind 0 (InetSocketAddress 0 5000); OpClose 0] in
  m_shutdownSend (socket_of 0 u) = true /\
  exists u' o, demo_perform (OpSendTo 0 message (InetSocketAddress 0x0a010203 53)) u = Some (tt, u', o) /\ length o = 2%nat /\ m_shutdownSend (socket_of 0 u') = false.
Proof. split; [vm_compute; reflexivity|]. eexists _, _. split; [vm_compute; reflexivity|split; reflexivity]. Qed.
(** [Bind()] twice: the first end point stays in the table when the socket is closed, and
    packets for it still reach the socket's queue as soon as the socket is bound again. *)
Lemma bind_twice_leaks : m_endPoints (l4_endPoints (state_after [OpCreate; OpBindAny 0; OpBindAny 0; OpClose 0])) =
  [(1, connect_callbacks 0 (Ipv4EndPoint_new 0 49153))].
Proof. vm_compute. reflexivity. Qed.
(** A socket with a TTL of its own aborts when the same packet is sent twice. *)
Definition with_ttl : UdpL4Protocol := state_after [OpCreate; OpSetOptions 0 (fun b => base (SetIpTtl 5 (set_base b UdpSocketImpl_new)))].
Lemma same_packet_twice : exists p' u' o, SendTo demo_uninit true demo_ifs (Some demo_routes) 0 message (InetSocketAddress 0x0a010203 53) with_ttl = Some ((700, p'), u', o) /\
  SendTo demo_uninit true demo_ifs (Some demo_routes) 0 p' (InetSocketAddress 0x0a010203 53) u' = None.
Proof. eexists _, _, _. split; [vm_compute; reflexivity|vm_compute; reflexivity]. Qed.
(** The don't-fragment option of a socket does not reach the network layer, and the packet
    is cut in two. *)
Lemma mtu_discover_ignored : let u := state_after [OpCreate; OpBindAny 0] in
  exists p' u' wire t, SendTo demo_uninit true demo_ifs (Some demo_routes) 0 message (InetSocketAddress 0x0a010203 53)
      (set_sockets (<[0 := SetMtuDiscover true (socket_of 0 u)]> (sockets u)) u) = Some ((700, p'), u', [DownTarget (mkUPacket wire t) 0x0a010001 0x0a010203 (Some via); NotifyDataSent 0 700]) /\
    SocketSetDontFragmentTag t = Some true /\
    option_map (fun r => length (sent r.1)) (Ipv4L3.Send true wire (l3_tags t) 0x0a010001 0x0a010203 PROT_NUMBER (Some via) demo_l3) = Some 2%nat.
Proof. eexists _, _, _, _. split; [vm_compute; reflexivity|]. split; vm_compute; reflexivity. Qed.
(** A broadcast aborts on a node with an interface that has no address. *)
Lemma broadcast_without_address : let u := state_after [OpCreate; OpAllowBroadcast 0 true] in
  SendTo demo_uninit true (set_interfaces [Ipv4Interface_new (mkDevice 1 1500 true true false)] demo_ifs) (Some demo_routes) 0 message (InetSocketAddress GetBroadcast 53) u = None.
Proof. vm_compute. reflexivity. Qed.
(** A datagram shorter than its header aborts the program. *)
Lemma short_datagram_aborts : l4_Receive demo_uninit true (fun d => d) (mkUPacket [0; 1; 0; 53; 0] no_socket_tags) arrived iface node = None.
Proof. vm_compute. reflexivity. Qed.
End UdpDemo.
