(* ===== verification/ErrorModel.v ===== *)
(** * Error models (src/network/utils/error-model.cc)

    What a device asks before it takes a packet from the wire. The base class forwards to
    the virtual [DoCorrupt]; the models without random numbers are given. *)

From S2P Require Import Prelude.

Module ErrorModel.

(** [DoCorrupt] and [DoReset] of a class whose objects have state [St]. A packet is its
    unique id and its bytes. *)
Class ErrorModelOps (St : Type) := { DoCorrupt : bool -> Z -> list Z -> St -> bool * St; DoReset : St -> St }.

Record ErrorModel (St : Type) := mkErrorModel { m_enable : bool; state : St }.
Arguments mkErrorModel {St}.
Arguments m_enable {St}.
Arguments state {St}.

Section Base.
Context {St : Type} `{ErrorModelOps St}.
Definition ErrorModel_new (st : St) : ErrorModel St := mkErrorModel true st.
Definition IsCorrupt (uid : Z) (p : list Z) (em : ErrorModel St) : bool * ErrorModel St :=
  let '(result, st) := DoCorrupt (m_enable em) uid p (state em) in (result, mkErrorModel (m_enable em) st).
Definition Reset (em : ErrorModel St) : ErrorModel St := mkErrorModel (m_enable em) (DoReset (state em)).
Definition Enable (em : ErrorModel St) : ErrorModel St := mkErrorModel true (state em).
Definition Disable (em : ErrorModel St) : ErrorModel St := mkErrorModel false (state em).
End Base.

(** ** ListErrorModel: the packets with given ids *)

Record ListErrorModel := mkList { l_packetList : list Z }.
Definition List_DoCorrupt (enabled : bool) (uid : Z) (p : list Z) (em : ListErrorModel) : bool * ListErrorModel :=
  if negb enabled then (false, em) else (existsb (Z.eqb uid) (l_packetList em), em).
Definition List_DoReset (em : ListErrorModel) : ListErrorModel := mkList [].
#[export] Instance ListErrorModel_ops : ErrorModelOps ListErrorModel := {| DoCorrupt := List_DoCorrupt; DoReset := List_DoReset |}.

(** ** ReceiveListErrorModel: the packets at given places in the order of arrival *)

Record ReceiveListErrorModel := mkReceiveList { r_packetList : list Z; m_timesInvoked : Z }.
Definition Receive_SetList (l : list Z) (em : ReceiveListErrorModel) : ReceiveListErrorModel := mkReceiveList l (m_timesInvoked em).
Definition Receive_DoCorrupt (enabled : bool) (uid : Z) (p : list Z) (em : ReceiveListErrorModel) : bool * ReceiveListErrorModel :=
  if negb enabled then (false, em)
  else
    let times := u32 (m_timesInvoked em + 1) in
    (existsb (Z.eqb (u32 (times - 1))) (r_packetList em), mkReceiveList (r_packetList em) times).
Definition Receive_DoReset (em : ReceiveListErrorModel) : ReceiveListErrorModel := mkReceiveList [] (m_timesInvoked em).
#[export] Instance ReceiveListErrorModel_ops : ErrorModelOps ReceiveListErrorModel := {| DoCorrupt := Receive_DoCorrupt; DoReset := Receive_DoReset |}.

(** ** BinaryErrorModel: every second packet *)

Record BinaryErrorModel := mkBinary { m_counter : Z }.
Definition Binary_DoCorrupt (enabled : bool) (uid : Z) (p : list Z) (em : BinaryErrorModel) : bool * BinaryErrorModel :=
  if negb enabled then (false, em) else (negb (m_counter em mod 2 =? 0), mkBinary (u8 (m_counter em + 1))).
Definition Binary_DoReset (em : BinaryErrorModel) : BinaryErrorModel := mkBinary 0.
#[export] Instance BinaryErrorModel_ops : ErrorModelOps BinaryErrorModel := {| DoCorrupt := Binary_DoCorrupt; DoReset := Binary_DoReset |}.

(** ** What the models do to a sequence of packets *)

Fixpoint corrupted {St} `{ErrorModelOps St} (ps : list (Z * list Z)) (em : ErrorModel St) : list bool * ErrorModel St :=
  match ps with
  | [] => ([], em)
  | (uid, p) :: ps => let '(c, em) := IsCorrupt uid p em in let '(cs, em) := corrupted ps em in (c :: cs, em)
  end.
(** A list of places drops the packets that arrive at those places. *)
Lemma receive_list_places ps places n : Z.of_nat (length ps) + n < 2 ^ 32 -> 0 <= n ->
  (corrupted ps (mkErrorModel true (mkReceiveList places n))).1 = map (fun i => existsb (Z.eqb (n + Z.of_nat i)) places) (seq 0 (length ps)).
Proof.
  revert n. induction ps as [|[uid p] ps IH]; intros n Hn Hn0; [done|]. cbn [length] in Hn.
  change (length ((uid, p) :: ps)) with (S (length ps)). rewrite <- cons_seq, <- seq_shift. cbn [map]. rewrite map_map.
  cbn [corrupted IsCorrupt DoCorrupt ReceiveListErrorModel_ops Receive_DoCorrupt m_enable state negb r_packetList m_timesInvoked].
  rewrite (u32_small (n + 1)) by lia. replace (n + 1 - 1) with n by lia. rewrite (u32_small n) by lia.
  specialize (IH (n + 1) ltac:(lia) ltac:(lia)). destruct (corrupted ps _) as [cs em]. cbn [fst] in IH |- *. rewrite IH. f_equal; [by rewrite Z.add_0_r|].
  apply map_ext. intros i. f_equal. f_equal. lia.
Qed.
(** Resetting the model forgets the list but not the count: a list set afterwards is
    matched against places counted from before the reset. *)
Lemma reset_keeps_count : let em := mkErrorModel true (mkReceiveList [1] 0) in
  let em' := Reset (corrupted [(7, []); (8, []); (9, [])] em).2 in
  (corrupted [(10, []); (11, [])] (mkErrorModel (m_enable em') (Receive_SetList [0] (state em')))).1 = [false; false] /\
  (corrupted [(10, []); (11, [])] (mkErrorModel true (Receive_SetList [0] (mkReceiveList [] 0)))).1 = [true; false].
Proof. vm_compute. done. Qed.

End ErrorModel.
