(* ===== verification/Queue.v ===== *)
(** * Packet queues (src/network/utils)

    [QueueSize] (queue-size.h, queue-size.cc), the base class of queues with its
    counters (queue.h, queue.cc) and [DropTailQueue] (drop-tail-queue.h). A
    container is a list of items; the trace sources of a queue are the log of the
    events it reported, which its owner reads. [QueueLimits] holds the limits on the
    bytes given to a device (dynamic-queue-limits.cc) and the device's queue that they
    stop (net-device-queue-interface.cc). *)

From S2P Require Import Prelude.

Module Queue.

(** ** Sizes *)

Inductive QueueSizeUnit := PACKETS | BYTES.
#[export] Instance unit_eq_dec : EqDecision QueueSizeUnit.
Proof. solve_decision. Defined.
Record QueueSize := mkSize { qs_unit : QueueSizeUnit; qs_value : Z }.

(** A packet: what queues read of it, and what it is told by. *)
Record Item := mkItem { uid : Z; GetSize : Z; GetTxQueueIndex : Z; priorityTag : option Z }.
#[export] Instance item_eq_dec : EqDecision Item.
Proof. solve_decision. Defined.

(** Comparing sizes of different units aborts. *)
Definition size_compare (f : Z -> Z -> bool) (a b : QueueSize) : option bool :=
  if decide (qs_unit a = qs_unit b) then Some (f (qs_value a) (qs_value b)) else None.
Definition size_lt := size_compare Z.ltb.
Definition size_gt := size_compare Z.gtb.
Definition size_ge := size_compare Z.geb.
Definition size_plus (a : QueueSize) (item : Item) : QueueSize :=
  match qs_unit a with
  | PACKETS => mkSize PACKETS (u32 (qs_value a + 1))
  | BYTES => mkSize BYTES (u32 (qs_value a + GetSize item))
  end.

(** ** The base class *)

(** The events reported to the trace sources. *)
Inductive qevent := TraceEnqueue (i : Item) | TraceDequeue (i : Item) | TraceDropBeforeEnqueue (i : Item) | TraceDropAfterDequeue (i : Item).

Record QueueBase := mkBase {
  m_nBytes : Z;
  m_nTotalReceivedBytes : Z;
  m_nPackets : Z;
  m_nTotalReceivedPackets : Z;
  m_nTotalDroppedBytes : Z;
  m_nTotalDroppedBytesBeforeEnqueue : Z;
  m_nTotalDroppedBytesAfterDequeue : Z;
  m_nTotalDroppedPackets : Z;
  m_nTotalDroppedPacketsBeforeEnqueue : Z;
  m_nTotalDroppedPacketsAfterDequeue : Z;
  m_maxSize : QueueSize
}.
Record Queue := mkQueue { base : QueueBase; m_packets : list Item; q_log : list qevent }.

Definition QueueBase_new : QueueBase := mkBase 0 0 0 0 0 0 0 0 0 0 (mkSize PACKETS UINT32_MAX).
Definition IsEmpty (q : Queue) : bool := m_nPackets (base q) =? 0.
Definition GetNPackets (q : Queue) : Z := m_nPackets (base q).
Definition GetNBytes (q : Queue) : Z := m_nBytes (base q).
Definition current_size (b : QueueBase) : QueueSize :=
  match qs_unit (m_maxSize b) with PACKETS => mkSize PACKETS (m_nPackets b) | BYTES => mkSize BYTES (m_nBytes b) end.
Definition GetCurrentSize (q : Queue) : QueueSize := current_size (base q).
Definition GetMaxSize (q : Queue) : QueueSize := m_maxSize (base q).

Definition ResetStatistics (q : Queue) : Queue :=
  let b := base q in
  mkQueue (mkBase (m_nBytes b) 0 (m_nPackets b) 0 0 0 0 0 0 0 (m_maxSize b)) (m_packets q) (q_log q).
Definition set_max (s : QueueSize) (b : QueueBase) : QueueBase :=
  mkBase (m_nBytes b) (m_nTotalReceivedBytes b) (m_nPackets b) (m_nTotalReceivedPackets b) (m_nTotalDroppedBytes b)
    (m_nTotalDroppedBytesBeforeEnqueue b) (m_nTotalDroppedBytesAfterDequeue b) (m_nTotalDroppedPackets b)
    (m_nTotalDroppedPacketsBeforeEnqueue b) (m_nTotalDroppedPacketsAfterDequeue b) s.
(** A null size is ignored; a maximum below the current size aborts. *)
Definition SetMaxSize (size : QueueSize) (q : Queue) : option Queue :=
  if qs_value size =? 0 then Some q else
  let q' := mkQueue (set_max size (base q)) (m_packets q) (q_log q) in
  let* less := size_lt size (GetCurrentSize q') in
  assert* negb less in Some q'.
Definition WouldOverflow (nPackets nBytes : Z) (q : Queue) : bool :=
  match qs_unit (GetMaxSize q) with
  | PACKETS => qs_value (GetMaxSize q) <? u32 (GetNPackets q + nPackets)
  | BYTES => qs_value (GetMaxSize q) <? u32 (GetNBytes q + nBytes)
  end.

Definition DropBeforeEnqueue (item : Item) (q : Queue) : Queue :=
  let b := base q in
  mkQueue (mkBase (m_nBytes b) (m_nTotalReceivedBytes b) (m_nPackets b) (m_nTotalReceivedPackets b)
    (u32 (m_nTotalDroppedBytes b + GetSize item)) (u32 (m_nTotalDroppedBytesBeforeEnqueue b + GetSize item)) (m_nTotalDroppedBytesAfterDequeue b)
    (u32 (m_nTotalDroppedPackets b + 1)) (u32 (m_nTotalDroppedPacketsBeforeEnqueue b + 1)) (m_nTotalDroppedPacketsAfterDequeue b) (m_maxSize b))
    (m_packets q) (q_log q ++ [TraceDropBeforeEnqueue item]).
Definition DropAfterDequeue (item : Item) (q : Queue) : Queue :=
  let b := base q in
  mkQueue (mkBase (m_nBytes b) (m_nTotalReceivedBytes b) (m_nPackets b) (m_nTotalReceivedPackets b)
    (u32 (m_nTotalDroppedBytes b + GetSize item)) (m_nTotalDroppedBytesBeforeEnqueue b) (u32 (m_nTotalDroppedBytesAfterDequeue b + GetSize item))
    (u32 (m_nTotalDroppedPackets b + 1)) (m_nTotalDroppedPacketsBeforeEnqueue b) (u32 (m_nTotalDroppedPacketsAfterDequeue b + 1)) (m_maxSize b))
    (m_packets q) (q_log q ++ [TraceDropAfterDequeue item]).

(** The item is inserted before position [pos]. *)
Definition DoEnqueue (pos : nat) (item : Item) (q : Queue) : option (bool * Queue) :=
  let* full := size_gt (size_plus (GetCurrentSize q) item) (GetMaxSize q) in
  if full then Some (false, DropBeforeEnqueue item q) else
  let b := base q in
  Some (true, mkQueue (mkBase (u32 (m_nBytes b + GetSize item)) (u32 (m_nTotalReceivedBytes b + GetSize item))
      (u32 (m_nPackets b + 1)) (u32 (m_nTotalReceivedPackets b + 1))
      (m_nTotalDroppedBytes b) (m_nTotalDroppedBytesBeforeEnqueue b) (m_nTotalDroppedBytesAfterDequeue b)
      (m_nTotalDroppedPackets b) (m_nTotalDroppedPacketsBeforeEnqueue b) (m_nTotalDroppedPacketsAfterDequeue b) (m_maxSize b))
    (take pos (m_packets q) ++ item :: drop pos (m_packets q)) (q_log q ++ [TraceEnqueue item])).

(** Taking out the item at position [pos]: [None] is an abort, an empty result a
    null pointer. *)
Definition take_out (pos : nat) (q : Queue) : option (option Item * Queue) :=
  if IsEmpty q then Some (None, q) else
  let* item := m_packets q !! pos in
  let b := base q in
  assert* GetSize item <=? m_nBytes b in
  assert* 0 <? m_nPackets b in
  Some (Some item, mkQueue (mkBase (u32 (m_nBytes b - GetSize item)) (m_nTotalReceivedBytes b) (u32 (m_nPackets b - 1)) (m_nTotalReceivedPackets b)
      (m_nTotalDroppedBytes b) (m_nTotalDroppedBytesBeforeEnqueue b) (m_nTotalDroppedBytesAfterDequeue b)
      (m_nTotalDroppedPackets b) (m_nTotalDroppedPacketsBeforeEnqueue b) (m_nTotalDroppedPacketsAfterDequeue b) (m_maxSize b))
    (delete pos (m_packets q)) (q_log q ++ [TraceDequeue item])).
Definition DoDequeue (pos : nat) (q : Queue) : option (option Item * Queue) := take_out pos q.
Definition DoRemove (pos : nat) (q : Queue) : option (option Item * Queue) :=
  let* (item, q') := take_out pos q in
  match item with
  | Some i => Some (item, DropAfterDequeue i q')
  | None => Some (None, q')
  end.
Definition DoPeek (pos : nat) (q : Queue) : option (option Item) :=
  if IsEmpty q then Some None else let* item := m_packets q !! pos in Some (Some item).

(** ** DropTailQueue *)

Definition DropTailQueue_new (maxSize : QueueSize) : option Queue := SetMaxSize maxSize (mkQueue QueueBase_new [] []).
Definition Enqueue (item : Item) (q : Queue) : option (bool * Queue) := DoEnqueue (length (m_packets q)) item q.
Definition Dequeue (q : Queue) : option (option Item * Queue) := DoDequeue 0 q.
Definition Remove (q : Queue) : option (option Item * Queue) := DoRemove 0 q.
Definition Peek (q : Queue) : option (option Item) := DoPeek 0 q.
(** [fuel] bounds the loop; the number of items is enough. *)
Fixpoint flush_loop (fuel : nat) (q : Queue) : option Queue :=
  if IsEmpty q then Some q else
  match fuel with
  | O => None
  | S fuel => let* (_, q') := Remove q in flush_loop fuel q'
  end.
Definition Flush (q : Queue) : option Queue := flush_loop (length (m_packets q)) q.

End Queue.

(** ** Limits on the bytes of a device (dynamic-queue-limits.cc), and the queue of a device
    that is stopped by them (net-device-queue-interface.cc) *)

Module QueueLimits.
Definition DQL_MAX_OBJECT : Z := UINT32_MAX / 16.
Definition DQL_MAX_LIMIT : Z := UINT32_MAX / 2 - DQL_MAX_OBJECT.
Record DynamicQueueLimits := mkLimits {
  m_numQueued : Z; m_adjLimit : Z; m_lastObjCnt : Z;
  m_limit : Z; m_numCompleted : Z;
  m_prevOvlimit : Z; m_prevNumQueued : Z; m_prevLastObjCnt : Z;
  m_lowestSlack : Z; m_slackStartTime : Z;
  m_maxLimit : Z; m_minLimit : Z; m_slackHoldTime : Z
}.
(** [Reset] does not touch [m_adjLimit]. *)
Definition Reset (now : Z) (s : DynamicQueueLimits) : DynamicQueueLimits :=
  mkLimits 0 (m_adjLimit s) 0 0 0 0 0 0 UINT32_MAX now (m_maxLimit s) (m_minLimit s) (m_slackHoldTime s).
Definition DynamicQueueLimits_new (now maxLimit minLimit holdTime : Z) : DynamicQueueLimits :=
  Reset now (mkLimits 0 0 0 0 0 0 0 0 UINT32_MAX 0 maxLimit minLimit holdTime).
Definition Posdiff (a b : Z) : Z := Z.max (i32 (i32 a - i32 b)) 0.
(** The limit before its bounds are applied, with the start of the slack interval and the
    lowest slack found in it. *)
Definition new_limit (now completed ovlimit : Z) (s : DynamicQueueLimits) : Z * Z * Z :=
  let limit := m_limit s in
  let inprogress := u32 (m_numQueued s - completed) in
  let prevInprogress := u32 (m_prevNumQueued s - m_numCompleted s) in
  let allPrevCompleted := 0 <=? i32 (u32 (completed - m_prevNumQueued s)) in
  if (negb (ovlimit =? 0) && (inprogress =? 0)) || (negb (m_prevOvlimit s =? 0) && allPrevCompleted) then
    (u32 (limit + u32 (Posdiff completed (m_prevNumQueued s) + m_prevOvlimit s)), now, UINT32_MAX)
  else if negb (inprogress =? 0) && negb (prevInprogress =? 0) && negb allPrevCompleted then
    let slack := Posdiff (u32 (limit + m_prevOvlimit s)) (u32 (2 * u32 (completed - m_numCompleted s))) in
    let slackLastObjs := if negb (m_prevOvlimit s =? 0) then Posdiff (m_prevLastObjCnt s) (m_prevOvlimit s) else 0 in
    let slack := Z.max slack slackLastObjs in
    let lowestSlack := if slack <? m_lowestSlack s then slack else m_lowestSlack s in
    if i64 (m_slackStartTime s + m_slackHoldTime s) <? now then (Posdiff limit lowestSlack, now, UINT32_MAX)
    else (limit, m_slackStartTime s, lowestSlack)
  else (limit, m_slackStartTime s, m_lowestSlack s).
Definition Completed (now count : Z) (s : DynamicQueueLimits) : option DynamicQueueLimits :=
  let numQueued := m_numQueued s in
  assert* count <=? u32 (numQueued - m_numCompleted s) in
  let completed := u32 (m_numCompleted s + count) in
  let ovlimit := Posdiff (u32 (numQueued - m_numCompleted s)) (m_limit s) in
  let '(limit, slackStartTime, lowestSlack) := new_limit now completed ovlimit s in
  let limit := Z.min (Z.max limit (m_minLimit s)) (m_maxLimit s) in
  let ovlimit := if negb (limit =? m_limit s) then 0 else ovlimit in
  Some (mkLimits numQueued (u32 (limit + completed)) (m_lastObjCnt s) limit completed ovlimit numQueued (m_lastObjCnt s)
    lowestSlack slackStartTime (m_maxLimit s) (m_minLimit s) (m_slackHoldTime s)).
Definition Available (s : DynamicQueueLimits) : Z := i32 (u32 (m_adjLimit s - m_numQueued s)).
Definition Queued (count : Z) (s : DynamicQueueLimits) : option DynamicQueueLimits :=
  assert* count <=? DQL_MAX_OBJECT in
  Some (mkLimits (u32 (m_numQueued s + count)) (m_adjLimit s) count (m_limit s) (m_numCompleted s) (m_prevOvlimit s) (m_prevNumQueued s)
    (m_prevLastObjCnt s) (m_lowestSlack s) (m_slackStartTime s) (m_maxLimit s) (m_minLimit s) (m_slackHoldTime s)).

(** [wakes] counts the calls of the wake callback, which is null when [m_wakeCallback] is
    false. *)
Record NetDeviceQueue := mkDeviceQueue { m_stoppedByDevice : bool; m_stoppedByQueueLimits : bool; m_queueLimits : option DynamicQueueLimits; m_wakeCallback : bool; wakes : Z }.
Definition NetDeviceQueue_new : NetDeviceQueue := mkDeviceQueue false false None false 0.
Definition IsStopped (t : NetDeviceQueue) : bool := m_stoppedByDevice t || m_stoppedByQueueLimits t.
Definition Start (t : NetDeviceQueue) : NetDeviceQueue := mkDeviceQueue false (m_stoppedByQueueLimits t) (m_queueLimits t) (m_wakeCallback t) (wakes t).
Definition Stop (t : NetDeviceQueue) : NetDeviceQueue := mkDeviceQueue true (m_stoppedByQueueLimits t) (m_queueLimits t) (m_wakeCallback t) (wakes t).
Definition Wake (t : NetDeviceQueue) : NetDeviceQueue :=
  mkDeviceQueue false (m_stoppedByQueueLimits t) (m_queueLimits t) (m_wakeCallback t) (if m_stoppedByDevice t && m_wakeCallback t then wakes t + 1 else wakes t).
Definition SetWakeCallback (t : NetDeviceQueue) : NetDeviceQueue := mkDeviceQueue (m_stoppedByDevice t) (m_stoppedByQueueLimits t) (m_queueLimits t) true (wakes t).
Definition SetQueueLimits (ql : option DynamicQueueLimits) (t : NetDeviceQueue) : NetDeviceQueue :=
  mkDeviceQueue (m_stoppedByDevice t) (m_stoppedByQueueLimits t) ql (m_wakeCallback t) (wakes t).
Definition ResetQueueLimits (now : Z) (t : NetDeviceQueue) : NetDeviceQueue := SetQueueLimits (Reset now <$> m_queueLimits t) t.
Definition NotifyQueuedBytes (bytes : Z) (t : NetDeviceQueue) : option NetDeviceQueue :=
  match m_queueLimits t with
  | None => Some t
  | Some ql =>
      let* ql := Queued bytes ql in
      let t := SetQueueLimits (Some ql) t in
      if 0 <=? Available ql then Some t
      else Some (mkDeviceQueue (m_stoppedByDevice t) true (m_queueLimits t) (m_wakeCallback t) (wakes t))
  end.
Definition NotifyTransmittedBytes (now bytes : Z) (t : NetDeviceQueue) : option NetDeviceQueue :=
  match m_queueLimits t with
  | None => Some t
  | Some ql =>
      if bytes =? 0 then Some t else
      let* ql := Completed now bytes ql in
      let t := SetQueueLimits (Some ql) t in
      if Available ql <? 0 then Some t
      else Some (mkDeviceQueue (m_stoppedByDevice t) false (m_queueLimits t) (m_wakeCallback t)
        (if m_stoppedByQueueLimits t && m_wakeCallback t then wakes t + 1 else wakes t))
  end.
End QueueLimits.
