(* ===== verification/QueueProps.v ===== *)
(** * Correctness of queues

    A [DropTailQueue] is a bounded first-in first-out queue: no operation aborts,
    the limit is kept, items leave in the order of their arrival, and every counter
    is what the reported events say. [QueueLimitsProps]: the limits on the bytes of a
    device never stall it. *)

From S2P Require Import Prelude Queue.

Module QueueProps.
Import Queue.

(** ** Sums and events *)

Definition total (l : list Item) : Z := foldr (fun i s => GetSize i + s) 0 l.
Lemma q_total_app l1 l2 : total (l1 ++ l2) = total l1 + total l2.
Proof. unfold total. induction l1 as [|i l1 IH]; cbn; [done|]. rewrite IH. lia. Qed.

Definition enqueued (l : list qevent) : list Item := omap (fun e => match e with TraceEnqueue i => Some i | _ => None end) l.
Definition dequeued (l : list qevent) : list Item := omap (fun e => match e with TraceDequeue i => Some i | _ => None end) l.
Definition dropped_before (l : list qevent) : list Item := omap (fun e => match e with TraceDropBeforeEnqueue i => Some i | _ => None end) l.
Definition dropped_after (l : list qevent) : list Item := omap (fun e => match e with TraceDropAfterDequeue i => Some i | _ => None end) l.

Lemma u32_plus x y : u32 (u32 x + y) = u32 (x + y).
Proof. unfold u32, wrap. apply Zplus_mod_idemp_l. Qed.
Lemma u32_minus x y : u32 (u32 x - y) = u32 (x - y).
Proof. unfold u32, wrap. apply Zminus_mod_idemp_l. Qed.

(** ** The invariant *)

(** A limit that leaves room for the counters: the bytes of a full queue fit 32
    bits when no item is larger than [smax]. *)
Definition capacity_ok (smax : Z) (s : QueueSize) : Prop :=
  1 <= smax /\ 0 < qs_value s < 2 ^ 32 - 1 /\
  match qs_unit s with PACKETS => qs_value s * smax < 2 ^ 32 | BYTES => qs_value s + smax < 2 ^ 32 end.
Definition item_ok (smax : Z) (i : Item) : Prop := 1 <= GetSize i <= smax.
Definition within (s : QueueSize) (l : list Item) : Prop :=
  match qs_unit s with PACKETS => Z.of_nat (length l) <= qs_value s | BYTES => total l <= qs_value s end.

(** The totals are those of the events since the statistics were reset. *)
Definition counters_ok (b : QueueBase) (l : list qevent) : Prop :=
  m_nTotalReceivedBytes b = u32 (total (enqueued l)) /\ m_nTotalReceivedPackets b = u32 (Z.of_nat (length (enqueued l))) /\
  m_nTotalDroppedBytesBeforeEnqueue b = u32 (total (dropped_before l)) /\ m_nTotalDroppedPacketsBeforeEnqueue b = u32 (Z.of_nat (length (dropped_before l))) /\
  m_nTotalDroppedBytesAfterDequeue b = u32 (total (dropped_after l)) /\ m_nTotalDroppedPacketsAfterDequeue b = u32 (Z.of_nat (length (dropped_after l))) /\
  m_nTotalDroppedBytes b = u32 (total (dropped_before l) + total (dropped_after l)) /\
  m_nTotalDroppedPackets b = u32 (Z.of_nat (length (dropped_before l)) + Z.of_nat (length (dropped_after l))).

Record queue_inv (smax : Z) (q : Queue) : Prop := mkInv {
  inv_capacity : capacity_ok smax (GetMaxSize q);
  inv_items : Forall (item_ok smax) (m_packets q);
  inv_within : within (GetMaxSize q) (m_packets q);
  inv_packets : GetNPackets q = Z.of_nat (length (m_packets q));
  inv_bytes : GetNBytes q = total (m_packets q);
  inv_fifo : enqueued (q_log q) = dequeued (q_log q) ++ m_packets q;
  inv_counters : exists l0 l1, q_log q = l0 ++ l1 /\ counters_ok (base q) l1
}.

Lemma q_total_bounds smax l : Forall (item_ok smax) l -> Z.of_nat (length l) <= total l <= Z.of_nat (length l) * smax.
Proof. induction 1 as [|i l Hi _ IH]; cbn [total foldr length]; [lia|]. unfold item_ok, total in *. nia. Qed.
Lemma q_total_fits smax s l :
  capacity_ok smax s -> within s l -> Forall (item_ok smax) l -> 0 <= total l < 2 ^ 32 /\ Z.of_nat (length l) < 2 ^ 32.
Proof.
  intros (H1&H2&H3) Hw Hl. pose proof (q_total_bounds _ _ Hl). unfold within in Hw. destruct (qs_unit s); split; nia.
Qed.

(** ** Operations *)

Section Operations.
Context (smax : Z).

(** Whether an item goes beyond the limit. *)
Definition exceeds (s : QueueSize) (l : list Item) (item : Item) : bool :=
  qs_value s <? match qs_unit s with PACKETS => Z.of_nat (length l) + 1 | BYTES => total l + GetSize item end.
Lemma exceeds_within s l item : exceeds s l item = false -> within s (l ++ [item]).
Proof. unfold exceeds, within. intros H%Z.ltb_ge. rewrite q_total_app, length_app. cbn. destruct (qs_unit s); lia. Qed.

Lemma full_exceeds q item : queue_inv smax q -> item_ok smax item ->
  size_gt (size_plus (GetCurrentSize q) item) (GetMaxSize q) = Some (exceeds (GetMaxSize q) (m_packets q) item).
Proof.
  intros [(H1&H2&H3) Hi Hw Hp Hb _ _] Hitem. pose proof (q_total_bounds _ _ Hi) as Ht. unfold within in Hw.
  unfold size_gt, size_compare, size_plus, GetCurrentSize, current_size, exceeds, item_ok, GetNPackets, GetNBytes in *. change (m_maxSize (base q)) with (GetMaxSize q) in *.
  destruct (qs_unit (GetMaxSize q)) eqn:Eu; cbn; rewrite Z.gtb_ltb, ?Hp, ?Hb, u32_small; done || lia.
Qed.

Lemma omap_snoc {X Y} (f : X -> option Y) l x : omap f (l ++ [x]) = omap f l ++ match f x with Some y => [y] | None => [] end.
Proof. rewrite omap_app. cbn. by destruct (f x). Qed.

(** What an event adds to the counters. *)
Ltac counters_tac :=
  unfold counters_ok, enqueued, dequeued, dropped_before, dropped_after; intros (H1&H2&H3&H4&H5&H6&H7&H8); rewrite !omap_snoc;
  cbn; rewrite ?app_nil_r, ?q_total_app, ?length_app; cbn;
  split_and!; rewrite ?H1, ?H2, ?H3, ?H4, ?H5, ?H6, ?H7, ?H8, ?u32_plus; try done; f_equal; lia.
Lemma counters_DropBefore q item l : counters_ok (base q) l -> counters_ok (base (DropBeforeEnqueue item q)) (l ++ [TraceDropBeforeEnqueue item]).
Proof. counters_tac. Qed.
Lemma counters_DropAfter q item l : counters_ok (base q) l -> counters_ok (base (DropAfterDequeue item q)) (l ++ [TraceDropAfterDequeue item]).
Proof. counters_tac. Qed.

Lemma Enqueue_ok q item : queue_inv smax q -> item_ok smax item ->
  exists q', Enqueue item q = Some (negb (exceeds (GetMaxSize q) (m_packets q) item), q') /\ queue_inv smax q' /\ GetMaxSize q' = GetMaxSize q /\
    m_packets q' = (if exceeds (GetMaxSize q) (m_packets q) item then m_packets q else m_packets q ++ [item]) /\
    q_log q' = q_log q ++ [if exceeds (GetMaxSize q) (m_packets q) item then TraceDropBeforeEnqueue item else TraceEnqueue item].
Proof.
  intros Hinv Hitem. unfold Enqueue, DoEnqueue. rewrite (full_exceeds q item Hinv Hitem).
  destruct Hinv as [Hc Hi Hw Hp Hb Hf (l0&l1&El&Hcnt)]. destruct (exceeds _ _ _) eqn:Ex.
  - eexists. split; [reflexivity|]. split; [|done]. constructor; try done.
    + cbn. unfold enqueued, dequeued in *. rewrite !omap_snoc. cbn. by rewrite !app_nil_r.
    + exists l0, (l1 ++ [TraceDropBeforeEnqueue item]). split; [cbn; by rewrite El, app_assoc|by apply counters_DropBefore].
  - rewrite firstn_all, drop_all. pose proof (exceeds_within _ _ _ Ex) as Hw'.
    assert (Forall (item_ok smax) (m_packets q ++ [item])) as Hi' by (apply Forall_app; by split; [|constructor]).
    destruct (q_total_fits _ _ _ Hc Hw' Hi') as [Ht Hn]. rewrite q_total_app, length_app in *. cbn in Ht, Hn.
    unfold GetNPackets, GetNBytes in *.
    eexists. split; [reflexivity|]. split; [|done]. constructor; try done; cbn.
    + unfold GetNPackets. cbn. rewrite Hp, length_app, u32_small; cbn; lia.
    + unfold GetNBytes. cbn. rewrite Hb, q_total_app, u32_small; cbn; lia.
    + unfold enqueued, dequeued in *. rewrite !omap_snoc. cbn. by rewrite Hf, app_nil_r, app_assoc.
    + exists l0, (l1 ++ [TraceEnqueue item]). split; [by rewrite El, app_assoc|]. clear -Hcnt. revert Hcnt. counters_tac.
Qed.

(** An empty queue gives nothing; otherwise the oldest item leaves. *)
Lemma take_out_ok q : queue_inv smax q ->
  exists q', take_out 0 q = Some (head (m_packets q), q') /\ queue_inv smax q' /\ GetMaxSize q' = GetMaxSize q /\ m_packets q' = tail (m_packets q) /\
    q_log q' = q_log q ++ match head (m_packets q) with Some i => [TraceDequeue i] | None => [] end.
Proof.
  intros Hinv. pose proof Hinv as [Hc Hi Hw Hp Hb Hf (l0&l1&El&Hcnt)]. unfold take_out, IsEmpty. unfold GetNPackets, GetNBytes in *. rewrite Hp, Hb.
  destruct (m_packets q) as [|i l] eqn:Eq; cbn [head tail length].
  - exists q. rewrite app_nil_r, Eq. by split_and!.
  - change (Z.of_nat (S (length l)) =? 0) with false. cbn [lookup list_lookup]. apply Forall_cons in Hi as [Hi1 Hi2].
    pose proof (q_total_bounds _ _ Hi2) as Ht. assert (total (i :: l) = GetSize i + total l) as Et by done.
    destruct (q_total_fits _ _ _ Hc Hw (Forall_cons_2 _ _ _ Hi1 Hi2)) as [Ht1 Hn1]. cbn [length] in Hn1. unfold item_ok in Hi1.
    assert (0 <= total l) by lia.
    replace (GetSize i <=? total (i :: l)) with true by lia. change (0 <? Z.of_nat (S (length l))) with true. cbn.
    eexists. split; [reflexivity|]. split; [|done]. constructor; try done; cbn.
    + unfold within in *. cbn [base m_maxSize GetMaxSize] in *. unfold GetMaxSize in *. destruct (qs_unit _); cbn in *; lia.
    + unfold GetNPackets. cbn. rewrite u32_small; lia.
    + unfold GetNBytes. cbn. change (foldr (fun i s => GetSize i + s) 0 l) with (total l) in *. rewrite u32_small; lia.
    + unfold enqueued, dequeued in *. rewrite !omap_snoc. cbn. by rewrite Hf, app_nil_r, <- app_assoc.
    + exists l0, (l1 ++ [TraceDequeue i]). split; [by rewrite El, app_assoc|]. clear -Hcnt. revert Hcnt. counters_tac.
Qed.
Lemma queue_Remove_ok q : queue_inv smax q ->
  exists q', Remove q = Some (head (m_packets q), q') /\ queue_inv smax q' /\ GetMaxSize q' = GetMaxSize q /\ m_packets q' = tail (m_packets q) /\
    q_log q' = q_log q ++ match head (m_packets q) with Some i => [TraceDequeue i; TraceDropAfterDequeue i] | None => [] end.
Proof.
  intros Hinv. destruct (take_out_ok q Hinv) as (q1&E&Hinv1&Hm&Hpk&Hl). unfold Remove, DoRemove. rewrite E.
  destruct (head (m_packets q)) as [i|]; [|by exists q1]. destruct Hinv1 as [Hc Hi Hw Hp Hb Hf (l0&l1&El&Hcnt)].
  eexists. split; [reflexivity|]. split; [|cbn; rewrite Hl, <- app_assoc; done]. constructor; try done; cbn.
  - unfold enqueued, dequeued in *. rewrite !omap_snoc. cbn. by rewrite !app_nil_r.
  - exists l0, (l1 ++ [TraceDropAfterDequeue i]). split; [by rewrite El, app_assoc|by apply counters_DropAfter].
Qed.
Lemma queue_Peek_ok q : queue_inv smax q -> Peek q = Some (head (m_packets q)).
Proof.
  intros [_ _ _ Hp _ _ _]. unfold Peek, DoPeek, IsEmpty. unfold GetNPackets in Hp. rewrite Hp. by destruct (m_packets q).
Qed.
Lemma ResetStatistics_ok q : queue_inv smax q -> queue_inv smax (ResetStatistics q).
Proof. intros []. constructor; try done. exists (q_log q), []. by rewrite app_nil_r. Qed.
Lemma DropTailQueue_new_ok s : capacity_ok smax s -> exists q, DropTailQueue_new s = Some q /\ queue_inv smax q /\ m_packets q = [] /\ q_log q = [] /\ GetMaxSize q = s.
Proof.
  intros Hc. pose proof Hc as (H1&H2&_). unfold DropTailQueue_new, SetMaxSize. replace (qs_value s =? 0) with false by lia.
  assert (size_lt s (GetCurrentSize (mkQueue (set_max s QueueBase_new) [] [])) = Some false) as E.
  { unfold size_lt, size_compare, GetCurrentSize, current_size. cbn. destruct (qs_unit s); cbn; f_equal; lia. }
  cbn [base m_packets q_log]. rewrite E. cbn. eexists. split; [reflexivity|]. split; [|done].
  constructor; try done. { unfold within. cbn. destruct (qs_unit s); lia. } by exists [], [].
Qed.

(** Flushing drops every item, oldest first. *)
Lemma flush_loop_ok n : forall q, queue_inv smax q -> length (m_packets q) = n ->
  exists q', flush_loop n q = Some q' /\ queue_inv smax q' /\ GetMaxSize q' = GetMaxSize q /\ m_packets q' = [] /\
    dropped_after (q_log q') = dropped_after (q_log q) ++ m_packets q.
Proof.
  induction n as [|n IH]; intros q Hinv Hn; cbn [flush_loop]; unfold IsEmpty; pose proof (inv_packets _ _ Hinv) as Hp; unfold GetNPackets in Hp; rewrite Hp, Hn.
  - apply nil_length_inv in Hn. exists q. by rewrite Hn, app_nil_r.
  - change (Z.of_nat (S n) =? 0) with false. destruct (queue_Remove_ok q Hinv) as (q1&->&Hinv1&Hm1&Hp1&Hl1). destruct (m_packets q) as [|i l]; [done|].
    cbn in Hp1, Hn, Hl1. destruct (IH q1 Hinv1) as (q'&E&Hinv'&Hm'&Hp'&Hd'); [rewrite Hp1; lia|]. exists q'. split; [exact E|]. split; [done|]. split; [congruence|]. split; [done|].
    rewrite Hd', Hp1, Hl1. unfold dropped_after. rewrite omap_app. cbn. by rewrite <- app_assoc.
Qed.
Lemma Flush_ok q : queue_inv smax q -> exists q', Flush q = Some q' /\ queue_inv smax q' /\ GetMaxSize q' = GetMaxSize q /\ m_packets q' = [] /\
  dropped_after (q_log q') = dropped_after (q_log q) ++ m_packets q.
Proof. intros Hinv. by apply flush_loop_ok. Qed.

(** Every use of a queue of limit [s]. *)
Inductive queue_reach (s : QueueSize) : Queue -> Prop :=
  | queue_new q : DropTailQueue_new s = Some q -> queue_reach s q
  | queue_enqueue item b q q' : queue_reach s q -> item_ok smax item -> Enqueue item q = Some (b, q') -> queue_reach s q'
  | queue_dequeue r q q' : queue_reach s q -> Dequeue q = Some (r, q') -> queue_reach s q'
  | queue_remove r q q' : queue_reach s q -> Remove q = Some (r, q') -> queue_reach s q'
  | queue_flush q q' : queue_reach s q -> Flush q = Some q' -> queue_reach s q'
  | queue_reset q : queue_reach s q -> queue_reach s (ResetStatistics q).
Lemma queue_reach_inv s q : capacity_ok smax s -> queue_reach s q -> queue_inv smax q /\ GetMaxSize q = s.
Proof.
  intros Hs. induction 1 as [q E|item b q q' _ [IH Em] Hi E|r q q' _ [IH Em] E|r q q' _ [IH Em] E|q q' _ [IH Em] E|q _ [IH Em]].
  - destruct (DropTailQueue_new_ok s Hs) as (q'&E'&Hinv&_&_&Hm). rewrite E in E'. by injection E' as <-.
  - destruct (Enqueue_ok q item IH Hi) as (q1&E'&Hinv&Hm&_). rewrite E in E'. injection E' as _ ->. split; [done|congruence].
  - destruct (take_out_ok q IH) as (q1&E'&Hinv&Hm&_). unfold Dequeue, DoDequeue in E. rewrite E in E'. injection E' as _ ->. split; [done|congruence].
  - destruct (queue_Remove_ok q IH) as (q1&E'&Hinv&Hm&_). rewrite E in E'. injection E' as _ ->. split; [done|congruence].
  - destruct (Flush_ok q IH) as (q1&E'&Hinv&Hm&_). rewrite E in E'. injection E' as ->. split; [done|congruence].
  - split; [by apply ResetStatistics_ok|done].
Qed.
End Operations.

(** A [DropTailQueue] is a bounded first-in first-out queue. However it is used
    (with items of 1 to [smax] bytes, the limit leaving room for them in 32 bits),
    no operation aborts; an item is accepted unless it would exceed the limit; the
    items that left, in order, followed by those inside are those that were accepted,
    in order; the limit is kept; and the counters of packets and bytes are exact. *)
Theorem droptail_fifo smax s q item : capacity_ok smax s -> queue_reach smax s q -> item_ok smax item ->
  (exists q', Enqueue item q = Some (negb (exceeds s (m_packets q) item), q')) /\
  (exists q', Dequeue q = Some (head (m_packets q), q')) /\ (exists q', Remove q = Some (head (m_packets q), q')) /\
  Peek q = Some (head (m_packets q)) /\ (exists q', Flush q = Some q' /\ m_packets q' = []) /\
  enqueued (q_log q) = dequeued (q_log q) ++ m_packets q /\ within s (m_packets q) /\
  GetNPackets q = Z.of_nat (length (m_packets q)) /\ GetNBytes q = total (m_packets q).
Proof.
  intros Hs Hr Hi. destruct (queue_reach_inv smax s q Hs Hr) as [Hinv Hm]. pose proof Hinv as [_ _ Hw Hp Hb Hf _]. rewrite Hm in Hw.
  split_and!; try done.
  - destruct (Enqueue_ok smax q item Hinv Hi) as (q'&E&_). rewrite Hm in E. by exists q'.
  - destruct (take_out_ok smax q Hinv) as (q'&E&_). by exists q'.
  - destruct (queue_Remove_ok smax q Hinv) as (q'&E&_). by exists q'.
  - by apply (queue_Peek_ok smax).
  - destruct (Flush_ok smax q Hinv) as (q'&E&_&_&Hp'&_). by exists q'.
Qed.

Definition demo_item (n : Z) : Item := mkItem n 100 0 None.
Definition the_queue {X} (r : option (X * Queue)) : Queue := match r with Some (_, q) => q | None => mkQueue QueueBase_new [] [] end.
Definition demo_queue0 : Queue := the_queue (let* q := DropTailQueue_new (mkSize PACKETS 2) in Some (tt, q)).
Definition demo_queue1 : Queue := the_queue (Enqueue (demo_item 1) demo_queue0).
Definition demo_queue2 : Queue := the_queue (Enqueue (demo_item 2) demo_queue1).
Definition demo_queue3 : Queue := the_queue (Enqueue (demo_item 3) demo_queue2).
Definition demo_queue : Queue := the_queue (Dequeue demo_queue3).
Lemma demo_queue_reach : queue_reach 1500 (mkSize PACKETS 2) demo_queue.
Proof.
  assert (forall n, item_ok 1500 (demo_item n)) as Hi by (intros n; unfold item_ok; cbn; lia).
  apply (queue_dequeue _ _ (Some (demo_item 1)) demo_queue3); [|vm_compute; reflexivity].
  apply (queue_enqueue _ _ (demo_item 3) false demo_queue2); [|apply Hi|vm_compute; reflexivity].
  apply (queue_enqueue _ _ (demo_item 2) true demo_queue1); [|apply Hi|vm_compute; reflexivity].
  apply (queue_enqueue _ _ (demo_item 1) true demo_queue0); [|apply Hi|vm_compute; reflexivity].
  apply queue_new. vm_compute. reflexivity.
Qed.
Lemma droptail_fifo_witness : Peek demo_queue = Some (Some (demo_item 2)) /\ within (mkSize PACKETS 2) (m_packets demo_queue).
Proof.
  destruct (droptail_fifo 1500 (mkSize PACKETS 2) demo_queue (demo_item 4)) as (_&_&_&H1&_&_&H2&_).
  - unfold capacity_ok. cbn. lia.
  - apply demo_queue_reach.
  - unfold item_ok. cbn. lia.
  - split; [exact H1|exact H2].
Defined.
End QueueProps.

(** * Limits on the bytes of a device *)

Module QueueLimitsProps.
Import QueueLimits.

(** The limits after [q] bytes were queued and [c] completed, ever. *)
Record limits_inv (s : DynamicQueueLimits) (q c : Z) : Prop := mkLimitsInv {
  li_queued : m_numQueued s = u32 q;
  li_completed : m_numCompleted s = u32 c;
  li_adjusted : m_adjLimit s = u32 (m_limit s + c);
  li_limit : 0 <= m_limit s <= m_maxLimit s /\ m_maxLimit s <= DQL_MAX_LIMIT;
  li_flight : 0 <= q - c <= m_maxLimit s + DQL_MAX_OBJECT
}.
Lemma max_sizes : DQL_MAX_LIMIT + DQL_MAX_OBJECT = 2 ^ 31 - 1 /\ 0 < DQL_MAX_OBJECT.
Proof. split; reflexivity. Qed.
Lemma u32_sub a b : u32 (u32 a - u32 b) = u32 (a - b).
Proof. unfold u32, wrap. symmetry. apply Zminus_mod. Qed.
Lemma u32_add a b : u32 (u32 a + b) = u32 (a + b).
Proof. unfold u32, wrap. by rewrite Z.add_mod_idemp_l by lia. Qed.
Lemma i32_u32 x : - 2 ^ 31 <= x < 2 ^ 31 -> i32 (u32 x) = x.
Proof. intros Hx. unfold i32, u32, wrap, swrap. rewrite Z.add_mod_idemp_l by lia. rewrite Z.mod_small; lia. Qed.
(** Although the counters wrap, what is available is exact. *)
Lemma Available_exact s q c : limits_inv s q c -> Available s = m_limit s - (q - c).
Proof.
  intros [Eq Ec Ea Hl Hf]. destruct max_sizes as [Hm Ho]. unfold Available. rewrite Ea, Eq, u32_sub. replace (m_limit s + c - q) with (m_limit s - (q - c)) by lia. apply i32_u32. lia.
Qed.
Lemma Posdiff_nonneg a b : 0 <= Posdiff a b.
Proof. apply Z.le_max_r. Qed.
Lemma new_limit_nonneg now completed ovlimit s : 0 <= m_limit s -> 0 <= (new_limit now completed ovlimit s).1.1.
Proof. intros Hl. unfold new_limit. case_ifs; cbn [fst]; try done; try apply u32_range; apply Posdiff_nonneg. Qed.
Lemma Completed_ok now n s q c : limits_inv s q c -> 0 <= n <= q - c -> exists s', Completed now n s = Some s' /\ limits_inv s' q (c + n) /\ m_maxLimit s' = m_maxLimit s.
Proof.
  intros [Eq Ec Ea [Hl Hmax] Hf] Hn. destruct max_sizes as [Hm Ho]. unfold Completed. rewrite Eq, Ec, u32_sub, (u32_small (q - c)), u32_add by lia. rewrite (proj2 (Z.leb_le n _)) by lia. cbn [NS_ASSERT].
  pose proof (new_limit_nonneg now (u32 (c + n)) (Posdiff (q - c) (m_limit s)) s ltac:(lia)) as Hc. destruct (new_limit _ _ _ s) as [[limit start] slack]. cbn [fst] in Hc.
  eexists. split; [reflexivity|]. split; [|done]. split; cbn; [done|done| |lia|lia]. by rewrite Z.add_comm, u32_add, Z.add_comm.
Qed.
Lemma Queued_ok n s q c : limits_inv s q c -> 0 <= n <= DQL_MAX_OBJECT -> q - c <= m_maxLimit s ->
  exists s', Queued n s = Some s' /\ limits_inv s' (q + n) c /\ m_limit s' = m_limit s /\ m_maxLimit s' = m_maxLimit s.
Proof.
  intros [Eq Ec Ea Hl Hf] Hn Hroom. unfold Queued. rewrite (proj2 (Z.leb_le n _)) by lia. cbn [NS_ASSERT]. eexists. split; [reflexivity|]. split; [|done]. split; cbn; try done; [|lia]. by rewrite Eq, u32_add.
Qed.

(** ** The queue of a device *)

Inductive limits_reach : NetDeviceQueue -> Z -> Z -> Prop :=
  | limits_start now maxLimit minLimit holdTime : 0 <= maxLimit <= DQL_MAX_LIMIT -> limits_reach (SetWakeCallback (SetQueueLimits (Some (DynamicQueueLimits_new now maxLimit minLimit holdTime)) NetDeviceQueue_new)) 0 0
  | limits_queued t q c n t' : limits_reach t q c -> IsStopped t = false -> 0 <= n <= DQL_MAX_OBJECT -> NotifyQueuedBytes n t = Some t' -> limits_reach t' (q + n) c
  | limits_transmitted t q c now n t' : limits_reach t q c -> 0 <= n <= q - c -> NotifyTransmittedBytes now n t = Some t' -> limits_reach t' q (c + n)
  | limits_device t q c t' : limits_reach t q c -> t' = Start t \/ t' = Stop t \/ t' = Wake t -> limits_reach t' q c.
Record queue_inv (t : NetDeviceQueue) (q c : Z) (ql : DynamicQueueLimits) : Prop := mkQueueInv {
  qi_limits : m_queueLimits t = Some ql;
  qi_inv : limits_inv ql q c;
  qi_callback : m_wakeCallback t = true;
  qi_stopped : m_stoppedByQueueLimits t = true -> m_limit ql < q - c;
  qi_running : m_stoppedByQueueLimits t = false -> q - c <= m_maxLimit ql
}.
Lemma NotifyQueuedBytes_ok n t q c ql : queue_inv t q c ql -> IsStopped t = false -> 0 <= n <= DQL_MAX_OBJECT -> exists t' ql', NotifyQueuedBytes n t = Some t' /\ queue_inv t' (q + n) c ql'.
Proof.
  intros [El Hi Hw Hs Hr] Hst Hn. unfold IsStopped in Hst. apply orb_false_iff in Hst as [_ Hst]. destruct (Queued_ok n ql q c Hi Hn (Hr Hst)) as (ql'&E&Hi'&Elim&Emax). unfold NotifyQueuedBytes. rewrite El, E. cbn [SetQueueLimits m_queueLimits]. pose proof Hi' as [_ _ _ Hlim _].
  pose proof (Available_exact _ _ _ Hi') as Ha. destruct (Z.leb_spec 0 (Available ql')) as [Hav|Hav]; eexists _, ql'; (split; [reflexivity|]); split; cbn; try done; intros; try congruence; lia.
Qed.
Lemma NotifyTransmittedBytes_ok now n t q c ql : queue_inv t q c ql -> 0 <= n <= q - c ->
  exists t' ql', NotifyTransmittedBytes now n t = Some t' /\ queue_inv t' q (c + n) ql' /\
    (m_stoppedByQueueLimits t' = m_stoppedByQueueLimits t /\ wakes t' = wakes t \/ m_stoppedByQueueLimits t' = false /\ wakes t' = wakes t + Z.b2z (m_stoppedByQueueLimits t)).
Proof.
  intros [El Hi Hw Hs Hr] Hn. unfold NotifyTransmittedBytes. rewrite El. destruct (Z.eqb_spec n 0) as [->|Hn0]; [exists t, ql; rewrite Z.add_0_r; split; [done|]; split; [done|by left]|].
  destruct (Completed_ok now n ql q c Hi Hn) as (ql'&E&Hi'&Emax). rewrite E. cbn [SetQueueLimits m_queueLimits m_stoppedByDevice m_stoppedByQueueLimits m_wakeCallback wakes]. pose proof (Available_exact _ _ _ Hi') as Ha. pose proof Hi' as [_ _ _ Hlim _].
  destruct (Z.ltb_spec (Available ql') 0) as [Hav|Hav]; eexists _, ql'; (split; [reflexivity|]).
  - split; [|by left]. split; cbn; try done; [lia|]. intros Hf. specialize (Hr Hf). lia.
  - split; [split; cbn; try done; lia|]. right. cbn. rewrite Hw, andb_true_r. split; [done|]. destruct (m_stoppedByQueueLimits t); cbn; lia.
Qed.
Lemma limits_reach_inv t q c : limits_reach t q c -> exists ql, queue_inv t q c ql.
Proof.
  induction 1 as [now maxL minL hold Hmax|t q c n t' _ [ql IH] Hst Hn E|t q c now n t' _ [ql IH] Hn E|t q c t' _ [ql [El Hi Hw Hs Hr]] Ht].
  - eexists. split; [reflexivity| |done|done|cbn; lia]. destruct max_sizes. split; cbn; try done; lia.
  - destruct (NotifyQueuedBytes_ok n t q c ql IH Hst Hn) as (t1&ql'&E'&H'). rewrite E in E'. injection E' as <-. eauto.
  - destruct (NotifyTransmittedBytes_ok now n t q c ql IH Hn) as (t1&ql'&E'&H'&_). rewrite E in E'. injection E' as <-. eauto.
  - exists ql. destruct Ht as [->|[->| ->]]; by split.
Qed.
(** Transmissions: the time and the bytes of each. *)
Definition transmit_all (l : list (Z * Z)) (t : NetDeviceQueue) : option NetDeviceQueue := foldl (fun t a => let* t := t in NotifyTransmittedBytes a.1 a.2 t) (Some t) l.
Definition bytes_of (l : list (Z * Z)) : Z := foldr (fun a s => a.2 + s) 0 l.
Lemma bytes_of_nonneg l : Forall (fun a => 0 <= a.2) l -> 0 <= bytes_of l.
Proof. induction 1 as [|a l Ha _ IH]; [done|]. cbn [bytes_of foldr]. unfold bytes_of in IH. lia. Qed.
Lemma transmit_all_ok l : forall t q c ql, queue_inv t q c ql -> Forall (fun a => 0 <= a.2) l -> bytes_of l <= q - c ->
  exists t' ql', transmit_all l t = Some t' /\ queue_inv t' q (c + bytes_of l) ql' /\ (m_stoppedByQueueLimits t' = false -> wakes t' = wakes t + Z.b2z (m_stoppedByQueueLimits t)).
Proof.
  induction l as [|[now n] l IH]; intros t q c ql Ht Hl Hb; [exists t, ql; cbn; rewrite Z.add_0_r; split; [done|]; split; [done|]; intros ->; cbn; lia|]. apply Forall_cons in Hl as [Hn Hl]. cbn [bytes_of foldr snd] in *. fold (bytes_of l) in *. pose proof (bytes_of_nonneg l Hl).
  destruct (NotifyTransmittedBytes_ok now n t q c ql Ht ltac:(lia)) as (t1&ql1&E&H1&Hw). destruct (IH t1 q (c + n) ql1 H1 Hl ltac:(lia)) as (t2&ql2&E2&H2&Hw2). exists t2, ql2. rewrite Z.add_assoc. split; [unfold transmit_all in *; cbn [foldl fst snd]; by rewrite E|]. split; [done|].
  intros Hf. specialize (Hw2 Hf). destruct Hw as [[Es Ew]|[Es Ew]]; rewrite Es, Ew in Hw2; [done|]. cbn in Hw2. lia.
Qed.

(** C23: The limits on the bytes of a device never stall it. Whatever was queued and
    transmitted, for any number of bytes (the counters wrap): the limit stays below its
    maximum and what is available is exactly the limit less the bytes in flight; a queue
    that is not stopped accepts any packet without a failure; a queue stopped by the limits
    has bytes in flight, and when they have been transmitted, in any pieces and at any
    times, it runs again and has called the wake callback exactly once. *)
Theorem queue_limits_never_stall t q c : limits_reach t q c -> exists ql, m_queueLimits t = Some ql /\ 0 <= m_limit ql <= m_maxLimit ql /\ Available ql = m_limit ql - (q - c) /\
  (forall n, IsStopped t = false -> 0 <= n <= DQL_MAX_OBJECT -> is_Some (NotifyQueuedBytes n t)) /\
  (m_stoppedByQueueLimits t = true -> m_limit ql < q - c) /\
  (forall l, Forall (fun a => 0 <= a.2) l -> bytes_of l = q - c ->
    exists t', transmit_all l t = Some t' /\ m_stoppedByQueueLimits t' = false /\ wakes t' = wakes t + Z.b2z (m_stoppedByQueueLimits t)).
Proof.
  intros Ht. destruct (limits_reach_inv t q c Ht) as [ql Hq]. pose proof Hq as [El Hi Hw Hs Hr]. exists ql. split; [done|]. pose proof Hi as [_ _ _ Hl Hf]. split; [lia|]. split; [by apply Available_exact|]. split; [|split; [done|]].
  - intros n Hst Hn. destruct (NotifyQueuedBytes_ok n t q c ql Hq Hst Hn) as (t'&_&->&_). eauto.
  - intros l Hl' Eb. destruct (transmit_all_ok l t q c ql Hq Hl' ltac:(lia)) as (t'&ql'&E&[_ Hi' _ Hs' _]&Hwk). exists t'. split; [done|]. assert (m_stoppedByQueueLimits t' = false) as Ef; [|by split; [|apply Hwk]].
    apply not_true_is_false. intros Et. specialize (Hs' Et). destruct Hi' as [_ _ _ Hl2 _]. lia.
Qed.
Definition demo_limited : NetDeviceQueue := SetWakeCallback (SetQueueLimits (Some (DynamicQueueLimits_new 0 10000 0 1000)) NetDeviceQueue_new).
Definition demo_over : NetDeviceQueue := default demo_limited (NotifyQueuedBytes 1500 demo_limited).
Lemma demo_over_reach : limits_reach demo_over 1500 0.
Proof. apply (limits_queued demo_limited 0 0 1500); [apply (limits_start 0 10000 0 1000); vm_compute; split; discriminate|reflexivity|vm_compute; split; discriminate|reflexivity]. Qed.
(** The first packet is over the initial limit of 0: the queue is stopped, and woken when the
    packet has left in two pieces. *)
Lemma queue_limits_never_stall_witness : m_stoppedByQueueLimits demo_over = true /\ exists t', transmit_all [(5, 1000); (9, 500)] demo_over = Some t' /\ m_stoppedByQueueLimits t' = false /\ wakes t' = 1.
Proof.
  split; [reflexivity|]. destruct (queue_limits_never_stall demo_over 1500 0 demo_over_reach) as (ql&_&_&_&_&_&Hall). apply (Hall [(5, 1000); (9, 500)]); [|reflexivity]. repeat (apply Forall_cons; split; [cbn; lia|]). constructor.
Defined.
(** After a reset while the queue is stopped nothing is in flight, and the queue stays
    stopped; the bytes that were in flight make the next completion fail. *)
Lemma reset_stays_stopped : IsStopped (ResetQueueLimits 3 demo_over) = true /\ NotifyTransmittedBytes 5 1500 (ResetQueueLimits 3 demo_over) = None.
Proof. vm_compute. done. Qed.
(** The limit is 0 after a reset, but the bytes completed before are still available. *)
Lemma reset_keeps_adjusted : (let* t := NotifyTransmittedBytes 5 1500 demo_over in let* ql := m_queueLimits (ResetQueueLimits 6 t) in Some (m_limit ql, Available ql)) = Some (0, 3000).
Proof. vm_compute. reflexivity. Qed.
End QueueLimitsProps.
