(* ===== verification/PointToPoint.v ===== *)
(** * Point-to-point links (src/point-to-point/model)

    [PppHeader] (ppp-header.cc), [PointToPointChannel] (point-to-point-channel.cc) and
    [PointToPointNetDevice] (point-to-point-net-device.cc). The devices run on the
    simulator of [Simulator], over any scheduler: transmissions are events it keeps.

    A packet belongs to the device it is sent on. The objects that wait in queues are
    addresses in the store [packets]; the copy an event carries is its bytes. *)

From S2P Require Import Prelude EventQueue Simulator NsTime Buffer BufferIterator BufferInv BufferRw BufferProps Checksum Wire ErrorModel Queue.

Module Ppp.
Import Buffer Iterator.
Record PppHeader := mkPpp { m_protocol : Z }.
Definition GetSerializedSize : Z := 2.
Definition SetProtocol (protocol : Z) (h : PppHeader) : PppHeader := mkPpp protocol.
Definition GetProtocol (h : PppHeader) : Z := m_protocol h.
Definition Serialize (h : PppHeader) (start : Iterator) (m : Mem) : option Mem :=
  let* (_, m) := WriteHtonU16 (m_protocol h) start m in Some m.
Definition Deserialize (start : Iterator) (m : Mem) : option (Z * PppHeader * Mem) :=
  let* (protocol, _) := ReadNtohU16 start m in Some (GetSerializedSize, mkPpp protocol, m).
End Ppp.

Module PointToPoint.
Import Simulator Buffer ErrorModel Queue.

(** ** Protocol numbers *)

Definition PppToEther (proto : Z) : option Z := if proto =? 0x21 then Some 0x800 else if proto =? 0x57 then Some 0x86DD else None.
Definition EtherToPpp (proto : Z) : option Z := if proto =? 0x800 then Some 0x21 else if proto =? 0x86DD then Some 0x57 else None.

(** ** The channel *)

Inductive WireState := INITIALIZING | IDLE | TRANSMITTING | PROPAGATING.
#[export] Instance WireState_eq_dec : EqDecision WireState.
Proof. solve_decision. Defined.
Record Link := mkLink { m_state : WireState; m_src : option Z; m_dst : option Z }.
Definition N_DEVICES : Z := 2.
Record Channel := mkChannel { m_delay : Z; m_nDevices : Z; m_link0 : Link; m_link1 : Link }.
Definition PointToPointChannel_new (delay : Z) : Channel :=
  mkChannel delay 0 (mkLink INITIALIZING None None) (mkLink INITIALIZING None None).
Definition set_src (device : Z) (l : Link) : Link := mkLink (m_state l) (Some device) (m_dst l).
Definition channel_Attach (device : Z) (c : Channel) : option Channel :=
  assert* m_nDevices c <? N_DEVICES in
  assert* negb (device =? nullptr) in
  let l0 := if m_nDevices c =? 0 then set_src device (m_link0 c) else m_link0 c in
  let l1 := if m_nDevices c =? 0 then m_link1 c else set_src device (m_link1 c) in
  let n := m_nDevices c + 1 in
  if n =? N_DEVICES then Some (mkChannel (m_delay c) n (mkLink IDLE (m_src l0) (m_src l1)) (mkLink IDLE (m_src l1) (m_src l0)))
  else Some (mkChannel (m_delay c) n l0 l1).
Definition GetNDevices (c : Channel) : Z := m_nDevices c.
Definition GetPointToPointDevice (i : Z) (c : Channel) : option (option Z) :=
  assert* i <? 2 in Some (m_src (if i =? 0 then m_link0 c else m_link1 c)).
Definition IsInitialized (c : Channel) : option bool :=
  assert* negb (bool_decide (m_state (m_link0 c) = INITIALIZING)) in
  assert* negb (bool_decide (m_state (m_link1 c) = INITIALIZING)) in Some true.

(** ** Devices *)

Inductive TxMachineState := READY | BUSY.
#[export] Instance TxMachineState_eq_dec : EqDecision TxMachineState.
Proof. solve_decision. Defined.
(** What a device does with the packets it takes from the wire. *)
Inductive Rx :=
  | PhyRxDrop (p : list Z)
  | PromiscCallback (p : list Z) (protocol remote address : Z)
  | RxCallback (p : list Z) (protocol remote : Z).

Section Model.
Context {EM : Type} `{ErrorModelOps EM} {S : Type} `{SchedulerOps S}.
Context (uninit : Z -> nat -> Z) (resolution : NsTime.Unit).

Record Device := mkDevice {
  m_txMachineState : TxMachineState;
  m_bps : Z;
  m_tInterframeGap : Z;
  m_channel : bool;
  m_queue : Queue;
  m_receiveErrorModel : option (ErrorModel EM);
  m_node : Z;
  m_address : Z;
  m_promisc : bool;
  m_linkUp : bool;
  m_mtu : Z;
  m_currentPkt : option Z;
  rx_log : list Rx;
  macTxDrop : list Z
}.
Definition PointToPointNetDevice_new (bps gap : Z) (queue : Queue) (node address mtu : Z) : Device :=
  mkDevice READY bps gap false queue None node address false false mtu None [] [].
Definition set_tx (st : TxMachineState) (pkt : option Z) (d : Device) : Device :=
  mkDevice st (m_bps d) (m_tInterframeGap d) (m_channel d) (m_queue d) (m_receiveErrorModel d) (m_node d) (m_address d) (m_promisc d) (m_linkUp d) (m_mtu d) pkt (rx_log d) (macTxDrop d).
Definition set_queue (q : Queue) (d : Device) : Device :=
  mkDevice (m_txMachineState d) (m_bps d) (m_tInterframeGap d) (m_channel d) q (m_receiveErrorModel d) (m_node d) (m_address d) (m_promisc d) (m_linkUp d) (m_mtu d) (m_currentPkt d) (rx_log d) (macTxDrop d).
Definition set_rx (em : option (ErrorModel EM)) (log : list Rx) (d : Device) : Device :=
  mkDevice (m_txMachineState d) (m_bps d) (m_tInterframeGap d) (m_channel d) (m_queue d) em (m_node d) (m_address d) (m_promisc d) (m_linkUp d) (m_mtu d) (m_currentPkt d) log (macTxDrop d).
Definition tx_drop (p : Z) (d : Device) : Device :=
  mkDevice (m_txMachineState d) (m_bps d) (m_tInterframeGap d) (m_channel d) (m_queue d) (m_receiveErrorModel d) (m_node d) (m_address d) (m_promisc d) (m_linkUp d) (m_mtu d) (m_currentPkt d) (rx_log d) (macTxDrop d ++ [p]).
Definition SetDataRate (bps : Z) (d : Device) : Device :=
  mkDevice (m_txMachineState d) bps (m_tInterframeGap d) (m_channel d) (m_queue d) (m_receiveErrorModel d) (m_node d) (m_address d) (m_promisc d) (m_linkUp d) (m_mtu d) (m_currentPkt d) (rx_log d) (macTxDrop d).
Definition SetInterframeGap (t : Z) (d : Device) : Device :=
  mkDevice (m_txMachineState d) (m_bps d) t (m_channel d) (m_queue d) (m_receiveErrorModel d) (m_node d) (m_address d) (m_promisc d) (m_linkUp d) (m_mtu d) (m_currentPkt d) (rx_log d) (macTxDrop d).
Definition SetReceiveErrorModel (em : option (ErrorModel EM)) (d : Device) : Device := set_rx em (rx_log d) d.
Definition SetPromiscReceiveCallback (cb : bool) (d : Device) : Device :=
  mkDevice (m_txMachineState d) (m_bps d) (m_tInterframeGap d) (m_channel d) (m_queue d) (m_receiveErrorModel d) (m_node d) (m_address d) cb (m_linkUp d) (m_mtu d) (m_currentPkt d) (rx_log d) (macTxDrop d).
(** [NotifyLinkUp] and the channel of [Attach]. *)
Definition attached (d : Device) : Device :=
  mkDevice (m_txMachineState d) (m_bps d) (m_tInterframeGap d) true (m_queue d) (m_receiveErrorModel d) (m_node d) (m_address d) (m_promisc d) true (m_mtu d) (m_currentPkt d) (rx_log d) (macTxDrop d).

(** ** Events and the world *)

Inductive LinkEvent := EvTransmitComplete (device : Z) | EvReceive (device : Z) (uid : Z) (p : list Z).
Record World := mkWorld {
  sim : Sim S;
  impls : gmap Z LinkEvent;
  nextImpl : Z;
  packets : gmap Z (list Z);
  nextPacket : Z;
  channel : Channel;
  devices : gmap Z Device
}.
Definition with_sim (s : Sim S) (w : World) : World := mkWorld s (impls w) (nextImpl w) (packets w) (nextPacket w) (channel w) (devices w).
Definition with_device (i : Z) (d : Device) (w : World) : World :=
  mkWorld (sim w) (impls w) (nextImpl w) (packets w) (nextPacket w) (channel w) (<[i := d]> (devices w)).
Definition with_channel (c : Channel) (w : World) : World := mkWorld (sim w) (impls w) (nextImpl w) (packets w) (nextPacket w) c (devices w).
(** [MakeEvent]: an object for the call. *)
Definition MakeEvent (ev : LinkEvent) (w : World) : Z * World :=
  (nextImpl w, mkWorld (sim w) (<[nextImpl w := ev]> (impls w)) (nextImpl w + 1) (packets w) (nextPacket w) (channel w) (devices w)).
Definition new_packet (p : list Z) (w : World) : Z * World :=
  (nextPacket w, mkWorld (sim w) (impls w) (nextImpl w) (<[nextPacket w := p]> (packets w)) (nextPacket w + 1) (channel w) (devices w)).
Definition schedule (delay : Z) (ev : LinkEvent) (w : World) : option World :=
  let '(i, w) := MakeEvent ev w in
  let* (_, s) := Schedule (m_mainThreadId (sim w)) delay i (sim w) in Some (with_sim s w).
Definition schedule_with_context (context delay : Z) (ev : LinkEvent) (w : World) : option World :=
  let '(i, w) := MakeEvent ev w in
  let* s := ScheduleWithContext (m_mainThreadId (sim w)) context delay i (sim w) in Some (with_sim s w).

(** ** Headers *)

Definition AddHeader (p : list Z) (protocolNumber : Z) : option (list Z) :=
  let* ppp := EtherToPpp protocolNumber in
  let* (b, m) := Wire.packet_of uninit p in
  let* (b, m) := Wire.AddHeader uninit Ppp.GetSerializedSize (Ppp.Serialize (Ppp.SetProtocol ppp (Ppp.mkPpp 0))) b m in
  Some (BufferInv.content m b).
(** The protocol and the packet without its header. *)
Definition ProcessHeader (p : list Z) : option (Z * list Z) :=
  let* (b, m) := Wire.packet_of uninit p in
  let* (_, ppp, b, m) := Wire.RemoveHeader Ppp.Deserialize b m in
  let* param := PppToEther (Ppp.GetProtocol ppp) in
  Some (param, BufferInv.content m b).

(** ** Transmission *)

(** [PointToPointChannel::TransmitStart]; the copy keeps the unique id. *)
Definition channel_TransmitStart (uid : Z) (p : list Z) (src txTime : Z) (w : World) : option World :=
  let c := channel w in
  assert* negb (bool_decide (m_state (m_link0 c) = INITIALIZING)) in
  assert* negb (bool_decide (m_state (m_link1 c) = INITIALIZING)) in
  let l := if bool_decide (m_src (m_link0 c) = Some src) then m_link0 c else m_link1 c in
  let* dst := m_dst l in
  let* d := devices w !! dst in
  schedule_with_context (m_node d) (i64 (txTime + m_delay c)) (EvReceive dst uid p) w.
Definition TransmitStart (i p : Z) (w : World) : option World :=
  let* d := devices w !! i in
  assert* bool_decide (m_txMachineState d = READY) in
  let w := with_device i (set_tx BUSY (Some p) d) w in
  let* bytes := packets w !! p in
  let* txTime := NsTime.CalculateBytesTxTime resolution (m_bps d) (zlen bytes) in
  let* w := schedule (i64 (txTime + m_tInterframeGap d)) (EvTransmitComplete i) w in
  assert* m_channel d in
  channel_TransmitStart p bytes i txTime w.
Definition TransmitComplete (i : Z) (w : World) : option World :=
  let* d := devices w !! i in
  assert* bool_decide (m_txMachineState d = BUSY) in
  assert* negb (bool_decide (m_currentPkt d = None)) in
  let* (p, q) := Dequeue (m_queue d) in
  let w := with_device i (set_queue q (set_tx READY None d)) w in
  match p with
  | None => Some w
  | Some item => TransmitStart i (uid item) w
  end.
Definition Send (i : Z) (packet : list Z) (protocolNumber : Z) (w : World) : option (bool * World) :=
  let* d := devices w !! i in
  if negb (m_linkUp d) then let '(p, w) := new_packet packet w in Some (false, with_device i (tx_drop p d) w)
  else
    let* bytes := AddHeader packet protocolNumber in
    let '(p, w) := new_packet bytes w in
    let* (enqueued, q) := Enqueue (mkItem p (zlen bytes) 0 None) (m_queue d) in
    if enqueued then
      if bool_decide (m_txMachineState d = READY) then
        let* (next, q) := Dequeue q in
        let* item := next in
        let* w := TransmitStart i (uid item) (with_device i (set_queue q d) w) in Some (true, w)
      else Some (true, with_device i (set_queue q d) w)
    else Some (false, with_device i (tx_drop p (set_queue q d)) w).

(** ** Reception *)

(** [GetRemote]: the address of the other device of the channel. *)
Definition GetRemote (i : Z) (w : World) : option Z :=
  let c := channel w in
  assert* GetNDevices c =? 2 in
  let* s0 := GetPointToPointDevice 0 c in
  let* s1 := GetPointToPointDevice 1 c in
  let* other := if negb (bool_decide (s0 = Some i)) then s0 else if negb (bool_decide (s1 = Some i)) then s1 else None in
  let* d := devices w !! other in Some (m_address d).
Definition Receive (i uid : Z) (packet : list Z) (w : World) : option World :=
  let* d := devices w !! i in
  let '(corrupt, em) := match m_receiveErrorModel d with
    | None => (false, None)
    | Some em => let '(c, em) := IsCorrupt uid packet em in (c, Some em)
    end in
  if corrupt then Some (with_device i (set_rx em (rx_log d ++ [PhyRxDrop packet]) d) w)
  else
    let* (protocol, packet) := ProcessHeader packet in
    let* remote := GetRemote i w in
    let log := rx_log d ++ (if m_promisc d then [PromiscCallback packet protocol remote (m_address d)] else []) ++ [RxCallback packet protocol remote] in
    Some (with_device i (set_rx em log d) w).

Definition Attach (i : Z) (w : World) : option World :=
  let* c := channel_Attach i (channel w) in
  let* d := devices w !! i in
  Some (with_device i (attached d) (with_channel c w)).

(** ** The event loop *)

Definition notify (ev : LinkEvent) (w : World) : option World :=
  match ev with
  | EvTransmitComplete i => TransmitComplete i w
  | EvReceive i uid p => Receive i uid p w
  end.
(** [DefaultSimulatorImpl::ProcessOneEvent], with the world the events act on. *)
Definition run_event (w : World) : option World :=
  let* (e, s) := dispatch (sim w) in
  let w := with_sim s w in
  let* w := if EventImpl_IsCancelled (impl e) s then Some w else let* ev := impls w !! impl e in notify ev w in
  let* s := ProcessEventsWithContext (sim w) in
  Some (with_sim s w).
(** The events until none is left, at most [n]. *)
Fixpoint run (n : nat) (w : World) : option World :=
  if sched_IsEmpty (m_events (sim w)) then Some w
  else match n with O => None | Datatypes.S n => let* w := run_event w in run n w end.

End Model.
Arguments Device : clear implicits.
Arguments World : clear implicits.
End PointToPoint.

(** * Frames on a point-to-point link

    The bytes [AddHeader] makes and [ProcessHeader] reads, and the header's place among
    the headers of packets. *)

Module PppWire.
Import Buffer Iterator BufferInv BufferRw BufferProps Checksum Wire PointToPoint.

Definition ppp_ok (h : Ppp.PppHeader) : Prop := 0 <= Ppp.m_protocol h < 2 ^ 16.

(** The header keeps the contract of headers. *)
Lemma ppp_write h m b bs x payload : inv m (b :: bs) -> content m b = x ++ payload -> zlen x = 2 -> room b 2 bs ->
  exists m', Ppp.Serialize h (Begin b) m = Some m' /\ inv m' (b :: bs) /\ content m' b = be 2 (Ppp.m_protocol h) ++ payload /\ same_contents m m' bs.
Proof.
  intros Hi Hc Hx Hr. unfold Ppp.Serialize. replace (Begin b) with (Construct b (m_start b + 0)) by (by rewrite Z.add_0_r).
  pose proof (zlen_nonneg payload). destruct (write_in_room _ _ 0 2 m b bs (writes_HtonU16 (Ppp.m_protocol h)) Hi Hr) as (m'&->&Hi'&Hc'&Ho); [rewrite Hc, zlen_app; lia|lia|done|done|].
  exists m'. split_and!; try done. rewrite Hc', Hc. by rewrite splice_start.
Qed.
Lemma ppp_read h m b bs payload : ppp_ok h -> inv m (b :: bs) -> content m b = be 2 (Ppp.m_protocol h) ++ payload ->
  Ppp.Deserialize (Begin b) m = Some (2, h, m).
Proof.
  intros Hok Hi Hc. unfold Ppp.Deserialize. replace (Begin b) with (Construct b (m_start b + 0)) by (by rewrite Z.add_0_r).
  rewrite (read_in _ _ _ 0 m b bs _ payload reads_NtohU16 Hi Hc) by (done || (cbn; lia)). change (slice 0 (0 + 2) (be 2 (Ppp.m_protocol h))) with (be 2 (Ppp.m_protocol h)).
  unfold ppp_ok in Hok. rewrite fold_be_value by (cbn; lia). by destruct h.
Qed.
#[export] Instance ppp_laws h (Hok : ppp_ok h) : HeaderLaws 2 (Ppp.Serialize h) Ppp.Deserialize (fun _ => True) (fun _ h' => h' = h).
Proof.
  split; [unfold MAX_CONTENT; lia|]. intros m b bs x payload Hi Hf Hc Hx Hr Hb _. destruct (ppp_write h m b bs x payload Hi Hc Hx Hr) as (m'&E&Hi'&Hc'&Ho).
  exists (be 2 (Ppp.m_protocol h)), m', h. split_and!; try done; [repeat constructor; apply byte_at_range; lia|].
  intros m2 b2 bs2 Hi2 _ Hc2. exists m2. split_and!; [by eapply ppp_read|done|done].
Qed.

(** ** Frames *)

Definition known (protocol : Z) : Prop := protocol = 0x800 \/ protocol = 0x86DD.
Definition ppp_number (protocol : Z) : Z := if protocol =? 0x800 then 0x21 else 0x57.
Definition wire (protocol : Z) (p : list Z) : list Z := be 2 (ppp_number protocol) ++ p.
Lemma wire_length protocol p : zlen (wire protocol p) = zlen p + 2.
Proof. unfold wire. rewrite zlen_app. change (zlen (be 2 _)) with 2. lia. Qed.

Lemma AddHeader_ok uninit protocol p : known protocol -> zlen p + 2 <= MAX_CONTENT -> AddHeader uninit p protocol = Some (wire protocol p).
Proof.
  intros Hk Hs. unfold AddHeader. assert (EtherToPpp protocol = Some (ppp_number protocol)) as -> by (by destruct Hk as [->| ->]).
  pose proof (zlen_nonneg p). destruct (packet_of_ok uninit p ltac:(lia)) as (b&m&->&Hi&Hc). unfold Wire.AddHeader. change Ppp.GetSerializedSize with 2.
  destruct (AddAtStart_ok uninit 2 m b [] Hi) as ([b1 m1]&->&Hi1&(x&Hx&Hc1)&_&Hp&Hz&_); [lia|rewrite Hc; lia|done|]. rewrite Hc in Hc1.
  destruct (ppp_write (Ppp.SetProtocol (ppp_number protocol) (Ppp.mkPpp 0)) m1 b1 [] x p Hi1 Hc1 Hx (conj Hp Hz)) as (m2&->&_&Hc2&_). by rewrite Hc2.
Qed.
Lemma ProcessHeader_ok uninit protocol p : known protocol -> zlen p + 2 <= MAX_CONTENT -> ProcessHeader uninit (wire protocol p) = Some (protocol, p).
Proof.
  intros Hk Hs. unfold ProcessHeader. destruct (packet_of_ok uninit (wire protocol p)) as (b&m&->&Hi&Hc); [rewrite wire_length; lia|].
  unfold RemoveHeader. rewrite (ppp_read (Ppp.mkPpp (ppp_number protocol)) m b [] p); [|unfold ppp_ok; destruct Hk as [->| ->]; cbn; lia|done|done].
  assert (zlen (content m b) = zlen p + 2) as Hl by (rewrite Hc; apply wire_length). pose proof (zlen_nonneg p). destruct (RemoveAtStart_ok 2 m b [] Hi) as (b2&->&_&Hc2); [lia|].
  rewrite Hc2, Hc. by destruct Hk as [->| ->].
Qed.
End PppWire.
