(* ===== verification/PointToPointInv.v ===== *)
(** * The events of point-to-point links on the simulator

    Scheduling an event and taking the next one, as the devices see it: the pending events
    of the simulator with the calls they stand for. *)

From Stdlib Require Import Sorting.Sorted.
From S2P Require Import Prelude EventQueue Simulator Int64x64 NsTime Buffer BufferInv BufferProps Wire ErrorModel Queue QueueProps PointToPoint.

Module LinkEvents.
Import Simulator ErrorModel PointToPoint.

Section Events.
Context {EM : Type} `{ErrorModelOps EM} {S : Type} `{SchedulerLaws S}.
Implicit Types w : World EM S.

Definition now w : Z := m_currentTs (sim w).
(** The pending events and what they call. *)
Definition resolve (I : gmap Z LinkEvent) (l : list Event) : list (Event * LinkEvent) := omap (fun e => pair e <$> I !! impl e) l.
Definition agenda w : list (Event * LinkEvent) := resolve (impls w) (pending (sim w)).
(** The devices, the channel and the packets are the same. *)
Definition same_net w w' : Prop :=
  packets w' = packets w /\ nextPacket w' = nextPacket w /\ channel w' = channel w /\ devices w' = devices w.

Record sound w : Prop := mkSound {
  so_sim : sim_inv (sim w);
  so_foreign : m_eventsWithContextEmpty (sim w) = true;
  so_cancelled : m_cancelled (sim w) = ∅;
  so_resolved : Forall (fun e => is_Some (impls w !! impl e)) (pending (sim w));
  so_fresh : forall i, is_Some (impls w !! i) -> i < nextImpl w
}.

Lemma resolve_permutation I l l' : l ≡ₚ l' -> resolve I l ≡ₚ resolve I l'.
Proof. intros E. unfold resolve. by rewrite E. Qed.
Lemma resolve_insert I l i ev : Forall (fun e => is_Some (I !! impl e)) l -> I !! i = None -> resolve (<[i := ev]> I) l = resolve I l.
Proof.
  intros Hl Hi. induction Hl as [|e l [x Hx] _ IH]; [done|]. unfold resolve in *. cbn [omap list_omap]. rewrite lookup_insert_ne by congruence. by rewrite Hx, IH.
Qed.
Lemma resolve_length I l : Forall (fun e => is_Some (I !! impl e)) l -> length (resolve I l) = length l.
Proof. induction 1 as [|e l [x Hx] _ IH]; [done|]. unfold resolve in *. cbn [omap list_omap]. rewrite Hx. cbn. by rewrite IH. Qed.
Lemma resolve_elem I l e ev : (e, ev) ∈ resolve I l -> e ∈ l /\ I !! impl e = Some ev.
Proof. unfold resolve. intros (x&Hx&E)%list_elem_of_omap. destruct (I !! impl x) as [v|] eqn:Ev; [|done]. by injection E as -> ->. Qed.
Lemma agenda_pending w x : sound w -> x ∈ agenda w -> x.1 ∈ pending (sim w).
Proof. intros _. destruct x as [e ev]. intros [He _]%resolve_elem. done. Qed.
Lemma agenda_nil w : sound w -> agenda w = [] -> pending (sim w) = [].
Proof. intros Hs E. apply length_zero_iff_nil. rewrite <- (resolve_length (impls w)) by apply Hs. by rewrite <- length_zero_iff_nil in E. Qed.

(** ** Scheduling *)

(** The world after an event was scheduled. *)
Record scheduled (e : Event) (ev : LinkEvent) w w' : Prop := mkScheduled {
  sc_sound : sound w';
  sc_net : same_net w w';
  sc_now : now w' = now w;
  sc_pending : pending (sim w') ≡ₚ e :: pending (sim w);
  sc_agenda : agenda w' ≡ₚ (e, ev) :: agenda w;
  sc_uid : uid_of e = m_nextUid (sim w);
  sc_next : m_nextUid (sim w') = m_nextUid (sim w) + 1
}.

Lemma fresh_None w : sound w -> impls w !! nextImpl w = None.
Proof. intros Hs. destruct (impls w !! nextImpl w) eqn:E; [|done]. assert (nextImpl w < nextImpl w) by (apply Hs; by rewrite E). lia. Qed.
(** Adding an event for the call to the simulator's. *)
Lemma scheduled_intro e ev w s : sound w -> sim_inv s -> same_moment (sim w) s -> m_cancelled s = ∅ ->
  pending s ≡ₚ e :: pending (sim w) -> impl e = nextImpl w -> uid_of e = m_nextUid (sim w) -> m_nextUid s = m_nextUid (sim w) + 1 ->
  scheduled e ev w (with_sim s (MakeEvent ev w).2).
Proof.
  intros Hs Hi (Hm1&Hm2&Hm3) Hc Hp He Hu Hn. pose proof (fresh_None w Hs) as Hf. pose proof Hs as [_ Hw _ Hr Hfr].
  assert (resolve (<[nextImpl w := ev]> (impls w)) (pending s) ≡ₚ (e, ev) :: agenda w) as Ha.
  { rewrite (resolve_permutation _ _ _ Hp). unfold resolve. cbn [omap list_omap]. rewrite He, lookup_insert_eq. cbn [fmap option_fmap option_map]. constructor.
    unfold agenda. by rewrite <- (resolve_insert (impls w) (pending (sim w)) (nextImpl w) ev Hr Hf). }
  assert (sound (with_sim s (MakeEvent ev w).2)) as Hs'; [|split; cbn; try done]. split; cbn; [done|by rewrite Hm3|done| |].
  - rewrite Hp. constructor; [rewrite He, lookup_insert_eq; by eexists|]. eapply Forall_impl; [exact Hr|]. intros x [v Hv]. cbn in *. destruct (decide (impl x = nextImpl w)) as [E|E]; [rewrite E, lookup_insert_eq; by eexists|].
    rewrite lookup_insert_ne by done. by eexists.
  - intros i [v Hv]. destruct (decide (i = nextImpl w)) as [->|E]; [lia|]. rewrite lookup_insert_ne in Hv by done. assert (i < nextImpl w) by (apply Hfr; by eexists). lia.
Qed.

Lemma schedule_ok delay ev w : sound w -> 0 <= delay -> now w + delay < 2 ^ 63 -> room (sim w) ->
  exists e w', schedule delay ev w = Some w' /\ scheduled e ev w w' /\ ts_of e = now w + delay.
Proof.
  intros Hs Hd Ht Hr. unfold schedule. cbn [MakeEvent sim].
  destruct (Schedule_ok delay (nextImpl w) (sim w) (so_sim _ Hs) Hd Ht Hr) as (s'&->&Hi'&_&Hm&Hp&Hc&Hn).
  eexists _, _. split; [reflexivity|]. split; [eapply (scheduled_intro _ ev w s'); [done|done|done|by rewrite Hc, (so_cancelled _ Hs)|exact Hp|reflexivity|reflexivity|exact Hn]|reflexivity].
Qed.
Lemma with_context_frame context delay i (s s' : Sim S) : ScheduleWithContext (m_mainThreadId s) context delay i s = Some s' -> m_nextUid s < 2 ^ 32 - 1 -> 0 <= m_nextUid s ->
  m_nextUid s' = m_nextUid s + 1 /\ m_cancelled s' = m_cancelled s.
Proof.
  unfold ScheduleWithContext, enqueue. rewrite Z.eqb_refl. destruct (sched_Insert _ _); [|done]. cbn. intros [= <-] Hlt Hge. cbn. by rewrite u32_small by lia.
Qed.
Lemma schedule_with_context_ok context delay ev w : sound w -> 0 <= delay -> now w + delay < 2 ^ 63 -> room (sim w) ->
  exists e w', schedule_with_context context delay ev w = Some w' /\ scheduled e ev w w' /\ ts_of e = now w + delay.
Proof.
  intros Hs Hd Ht Hr. unfold schedule_with_context. cbn [MakeEvent sim]. pose proof (si_uid _ (so_sim _ Hs)) as [_ Hu]. unfold VALID in Hu.
  destruct (ScheduleWithContext_ok context delay (nextImpl w) (sim w) (so_sim _ Hs) Hd Ht Hr) as (s'&E&Hi'&_&Hm&Hp). rewrite E.
  destruct (with_context_frame _ _ _ _ _ E) as [Hn Hc]; [destruct Hr; lia|lia|].
  eexists _, _. split; [reflexivity|]. split; [eapply (scheduled_intro _ ev w s'); [done|done|done|by rewrite Hc, (so_cancelled _ Hs)|exact Hp|reflexivity|reflexivity|exact Hn]|reflexivity].
Qed.

(** ** Taking the next event *)

Lemma dispatch_next (s s' : Sim S) e : dispatch s = Some (e, s') -> m_nextUid s' = m_nextUid s.
Proof. unfold dispatch. destruct (sched_RemoveNext _) as [[? ?]|]; [|done]. cbn. destruct (_ <=? _); [|done]. by intros [= <- <-]. Qed.
(** The world after its next event was taken out. *)
Record popped (e : Event) (ev : LinkEvent) w w1 : Prop := mkPopped {
  po_agenda : agenda w ≡ₚ (e, ev) :: agenda w1;
  po_sound : sound w1;
  po_net : same_net w w1;
  po_later : now w <= now w1;
  po_now : now w1 = ts_of e;
  po_next : m_nextUid (sim w1) = m_nextUid (sim w);
  po_minimal : minimal e (pending (sim w));
  po_pending : pending (sim w) ≡ₚ e :: pending (sim w1)
}.
Lemma run_event_ok (uninit : Z -> nat -> Z) resolution w : sound w -> agenda w <> [] ->
  exists e ev w1, popped e ev w w1 /\
    (forall w2, notify uninit resolution ev w1 = Some w2 -> sound w2 -> run_event uninit resolution w = Some w2).
Proof.
  intros Hs Hne. assert (pending (sim w) <> []) as Hne' by (intros E; apply Hne; unfold agenda; by rewrite E).
  destruct (dispatch_ok (sim w) (so_sim _ Hs) Hne') as (e&s&E&Hi&_&Hp&Hm&Ht&_&Hw&Hc&_). pose proof Hs as [_ Hwf Hcan Hr Hfr].
  assert (e ∈ pending (sim w)) as Hin by (rewrite Hp; by left). assert (is_Some (impls w !! impl e)) as [ev Hev] by (rewrite Forall_forall in Hr; by apply Hr).
  assert (sound (with_sim s w)) as Hs1. { split; cbn; [done|by rewrite Hw|by rewrite Hc| |done]. rewrite Hp in Hr. by apply Forall_cons in Hr as [_ Hr]. }
  exists e, ev, (with_sim s w). split; [split; [|done|done| |done|by eapply dispatch_next|done|done]|].
  - unfold agenda at 1. rewrite (resolve_permutation _ _ _ Hp). unfold resolve. cbn [omap list_omap]. by rewrite Hev.
  - pose proof (si_after _ (so_sim _ Hs) e Hin) as Ha. unfold after_current in Ha. unfold now. cbn. rewrite Ht. lia.
  - intros w2 E2 Hs2. unfold run_event. rewrite E. cbv beta iota zeta. unfold EventImpl_IsCancelled. rewrite bool_decide_eq_false_2 by (rewrite Hc, Hcan; set_solver).
    change (impls (with_sim s w)) with (impls w). rewrite Hev. cbn [option_bind mbind]. rewrite E2. unfold ProcessEventsWithContext. rewrite (so_foreign _ Hs2). by destruct w2.
Qed.
(** The head of a sorted list of events is the least one. *)
Lemma sorted_head {X} (x : Event * X) l P : StronglySorted before l.*1 -> x ∈ l -> minimal x.1 P -> (forall y, y ∈ l -> y.1 ∈ P) -> exists l', l = x :: l'.
Proof.
  intros Hs Hx Hm Hp. destruct l as [|y l]; [by apply elem_of_nil in Hx|]. apply elem_of_cons in Hx as [->|Hx]; [by eexists|]. exfalso.
  cbn in Hs. apply StronglySorted_inv in Hs as [_ Hf]. rewrite Forall_forall in Hf. specialize (Hf x.1 (list_elem_of_fmap_2 fst _ _ Hx)).
  specialize (Hm y.1 (Hp y ltac:(by left))). unfold before in Hf. congruence.
Qed.
End Events.
End LinkEvents.

(** * The invariant of a point-to-point link

    Each direction of the link is a stream: the frames the receiver took, those on the
    wire and those in the sender's queue are, in this order, the frames that were
    accepted. *)

Module LinkInv.
Import Simulator Buffer ErrorModel Queue QueueProps PointToPoint PppWire LinkEvents.

(** A protocol number and a packet. *)
Definition Frame : Type := Z * list Z.
Definition wire_of (f : Frame) : list Z := wire f.1 f.2.
Definition frame_ok (smax : Z) (f : Frame) : Prop := known f.1 /\ zlen f.2 + 2 <= smax.
(** The frames a device took from the wire, corrupted or not. *)
Definition taken (l : list Rx) : list (list Z) :=
  omap (fun x => match x with PhyRxDrop p => Some p | PromiscCallback _ _ _ _ => None | RxCallback p protocol _ => Some (wire protocol p) end) l.
Definition arrivals (dst : Z) (R : list (Event * LinkEvent)) : list (Event * list Z) :=
  omap (fun x => match x.2 with EvReceive d _ p => if d =? dst then Some (x.1, p) else None | EvTransmitComplete _ => None end) R.
Definition completions (src : Z) (R : list (Event * LinkEvent)) : list Event :=
  omap (fun x => match x.2 with EvTransmitComplete d => if d =? src then Some x.1 else None | EvReceive _ _ _ => None end) R.
Definition queued_as (P : gmap Z (list Z)) (f : Frame) (i : Item) : Prop := P !! uid i = Some (wire_of f) /\ GetSize i = zlen (wire_of f).

Section Stream.
Context {EM : Type} (smax D delay : Z).
Implicit Types d : Device EM.

(** What the sender's state says of the events: [t] is when it is ready again. *)
Definition tx_state (src : Z) (R : list (Event * LinkEvent)) (now : Z) d (queued : list Frame) (t : Z) : Prop :=
  match m_txMachineState d with
  | READY => completions src R = [] /\ queued = [] /\ t <= now
  | BUSY => exists e, completions src R = [e] /\ ts_of e = t /\ m_currentPkt d <> None
  end.
(** The stream but for the sender's state. *)
Record flow (dst : Z) (R : list (Event * LinkEvent)) (P : gmap Z (list Z)) (items : list Item) (log : list Rx) (acc : list Frame) (t : Z) (queued : list Frame) : Prop := mkFlow {
  fl_frames : Forall (frame_ok smax) acc;
  fl_split : exists done flying fl, acc = done ++ flying ++ queued /\ taken log = wire_of <$> done /\ arrivals dst R ≡ₚ fl /\ fl.*2 = wire_of <$> flying /\
    StronglySorted before fl.*1 /\ Forall (fun x => ts_of x.1 <= t + delay) fl;
  fl_queue : Forall2 (queued_as P) queued items
}.
Definition half (src dst : Z) (R : list (Event * LinkEvent)) (now : Z) (P : gmap Z (list Z)) d (log : list Rx) (acc : list Frame) : Prop :=
  exists t queued, flow dst R P (m_packets (m_queue d)) log acc t queued /\ tx_state src R now d queued t.

(** ** What other events leave alone *)

Lemma arrivals_permutation dst R R' : R ≡ₚ R' -> arrivals dst R ≡ₚ arrivals dst R'.
Proof. intros E. unfold arrivals. by rewrite E. Qed.
Lemma completions_permutation src R R' : R ≡ₚ R' -> completions src R ≡ₚ completions src R'.
Proof. intros E. unfold completions. by rewrite E. Qed.
Lemma queued_as_mono P P' queued items : P ⊆ P' -> Forall2 (queued_as P) queued items -> Forall2 (queued_as P') queued items.
Proof. intros Hs H. eapply Forall2_impl; [exact H|]. intros f i [E1 E2]. split; [by eapply lookup_weaken|done]. Qed.
Lemma flow_frame dst R R' P P' items log acc t queued : arrivals dst R' ≡ₚ arrivals dst R -> P ⊆ P' -> flow dst R P items log acc t queued -> flow dst R' P' items log acc t queued.
Proof.
  intros Ea HP [Hf (dn&flying&fl&E1&E2&E3&E4) Hq]. split; [done| |by eapply queued_as_mono]. exists dn, flying, fl. split_and!; try done; try apply E4. by rewrite Ea.
Qed.
Lemma tx_state_frame src R R' now now' d d' queued t : completions src R' ≡ₚ completions src R -> now <= now' -> m_txMachineState d' = m_txMachineState d -> m_currentPkt d' = m_currentPkt d ->
  tx_state src R now d queued t -> tx_state src R' now' d' queued t.
Proof.
  intros Ec Hn E1 E2 Ht. unfold tx_state in *. rewrite E1, E2. destruct (m_txMachineState d).
  - destruct Ht as (E&Eq&Hl). rewrite E in Ec. apply Permutation_nil_r in Ec. split_and!; [done|done|lia].
  - destruct Ht as (e&E&Hl). exists e. split; [|done]. rewrite E in Ec. by apply Permutation_singleton_r in Ec.
Qed.
Lemma half_frame src dst R R' now now' P P' d d' log acc : arrivals dst R' ≡ₚ arrivals dst R -> completions src R' ≡ₚ completions src R -> now <= now' -> P ⊆ P' ->
  m_txMachineState d' = m_txMachineState d -> m_currentPkt d' = m_currentPkt d -> m_queue d' = m_queue d ->
  half src dst R now P d log acc -> half src dst R' now' P' d' log acc.
Proof.
  intros Ea Ec Hn HP E1 E2 E3 (t&queued&Hf&Ht). exists t, queued. rewrite E3. split; [by eapply flow_frame|by eapply tx_state_frame].
Qed.

(** ** The events of a stream *)

(** The first frame on the wire arrives. *)
Lemma flow_arrival dst e u p R R' P items log acc t queued l : minimal e l -> (forall x, x ∈ R -> x.1 ∈ l) -> R ≡ₚ (e, EvReceive dst u p) :: R' ->
  flow dst R P items log acc t queued ->
  exists f, p = wire_of f /\ frame_ok smax f /\ forall log', taken log' = taken log ++ [p] -> flow dst R' P items log' acc t queued.
Proof.
  intros Hm Hl HR [Hf (dn&flying&fl&E1&E2&E3&E4&E5&E6) Hq]. pose proof (arrivals_permutation dst _ _ HR) as Ea. rewrite E3 in Ea. unfold arrivals in Ea. cbn [omap list_omap] in Ea. cbn [snd fst] in Ea. rewrite Z.eqb_refl in Ea.
  destruct (sorted_head (e, p) fl l) as [fl' ->]; [done|rewrite Ea; by left|done| |].
  - intros y Hy. rewrite <- E3 in Hy. apply list_elem_of_omap in Hy as ([e' ev]&Hx&Ex). cbn in Ex. specialize (Hl _ Hx). destruct ev; [done|]. destruct (_ =? _); [|done]. by injection Ex as <-.
  - destruct flying as [|f flying]; [done|]. injection E4 as -> E4. exists f. split; [done|]. split. { subst acc. apply Forall_app in Hf as [_ Hf]. by apply Forall_cons in Hf as [Hf _]. }
    apply Permutation_cons_inv in Ea. intros log' Elog. split; [done| |done]. exists (dn ++ [f]), flying, fl'. cbn in E5. apply StronglySorted_inv in E5 as [E5 _]. apply Forall_cons in E6 as [_ E6].
    split_and!; try done; [by rewrite E1, <- !app_assoc|by rewrite Elog, E2, fmap_app].
Qed.
(** A frame is put on the wire: its arrival is after those of the others. *)
Lemma flow_transmit dst e u f R R' P items log acc t t' queued : R' ≡ₚ (e, EvReceive dst u (wire_of f)) :: R -> t + delay <= ts_of e <= t' + delay ->
  (forall x, x ∈ R -> uid_of x.1 < uid_of e) -> flow dst R P items log acc t (f :: queued) ->
  flow dst R' P (tail items) log acc t' queued.
Proof.
  intros HR Hts Hu [Hf (dn&flying&fl&E1&E2&E3&E4&E5&E6) Hq]. split; [done| |by inversion Hq]. pose proof (arrivals_permutation dst _ _ HR) as Ea.
  unfold arrivals in Ea at 2. cbn [omap list_omap] in Ea. cbn [snd fst] in Ea. rewrite Z.eqb_refl in Ea. fold (arrivals dst R) in Ea.
  exists dn, (flying ++ [f]), (fl ++ [(e, wire_of f)]). split_and!.
  - by rewrite E1, <- !app_assoc.
  - done.
  - rewrite Ea, E3. apply Permutation_cons_append.
  - by rewrite !fmap_app, E4.
  - rewrite fmap_app. cbn. apply StronglySorted_app_intro; [done|repeat constructor|]. intros x y Hx ->%list_elem_of_singleton. apply list_elem_of_fmap in Hx as (z&->&Hz).
    rewrite Forall_forall in E6. pose proof (E6 z Hz) as Hzt. rewrite <- E3 in Hz. apply list_elem_of_omap in Hz as ([e' ev]&Hx&Ex). specialize (Hu _ Hx). cbn in Ex, Hu. destruct ev; [done|]. destruct (_ =? _); [|done]. injection Ex as <-. cbn in *.
    unfold before, event_lt, key_lt, ts_of, uid_of in *. apply orb_true_iff. destruct (decide (m_ts (key e') = m_ts (key e))) as [E|E]; [right|left]; bool_prop; [|lia]. rewrite E, Z.eqb_refl. cbn. lia.
  - apply Forall_app. split; [|repeat constructor; cbn; lia]. eapply Forall_impl; [exact E6|]. cbn. lia.
Qed.
(** A frame is accepted into the queue. *)
Lemma flow_enqueue dst R P items log acc t queued f item : frame_ok smax f -> queued_as P f item ->
  flow dst R P items log acc t queued -> flow dst R P (items ++ [item]) log (acc ++ [f]) t (queued ++ [f]).
Proof.
  intros Hf Hi [Ha (dn&flying&fl&->&E) Hq]. split; [apply Forall_app; split; [done|by constructor]| |apply Forall2_app; [done|by constructor]].
  exists dn, flying, fl. split; [by rewrite <- !app_assoc|done].
Qed.
Lemma flow_later dst R P items log acc t t' queued : t <= t' -> flow dst R P items log acc t queued -> flow dst R P items log acc t' queued.
Proof. intros Ht [Ha (dn&flying&fl&E1&E2&E3&E4&E5&E6) Hq]. split; [done| |done]. exists dn, flying, fl. split_and!; try done. eapply Forall_impl; [exact E6|]. cbn. lia. Qed.
End Stream.

(** ** The world *)

Section World.
Context {EM : Type} `{ErrorModelOps EM} {S : Type} `{SchedulerLaws S}.
Context (uninit : Z -> nat -> Z) (resolution : NsTime.Unit) (units : Z).
Context (smax D delay : Z).
Implicit Types w : World EM S.
Implicit Types d : Device EM.

(** [units] of the resolution are a second; [D] bounds the time a frame of at most [smax]
    bytes takes to leave and to arrive. *)
Record bounds_ok : Prop := mkBounds {
  bo_units : NsTime.unit_value NsTime.S = units * NsTime.unit_value resolution;
  bo_pos : 0 < units <= 2 ^ 60;
  bo_smax : 2 <= smax < 2 ^ 29;
  bo_delay : 0 <= delay;
  bo_D : D <= 2 ^ 60
}.
Record device_ok d : Prop := mkDeviceOk {
  dv_rate : 0 < m_bps d < 2 ^ 63;
  dv_gap : 0 <= m_tInterframeGap d;
  dv_time : smax * 8 * units <= (D - 1 - m_tInterframeGap d - delay) * m_bps d;
  dv_up : m_channel d = true /\ m_linkUp d = true;
  dv_queue : queue_inv smax (m_queue d)
}.
Lemma tx_time_bounded d size : bounds_ok -> device_ok d -> 0 <= size <= smax ->
  exists tx, NsTime.CalculateBytesTxTime resolution (m_bps d) size = Some tx /\ 0 <= tx /\ tx + m_tInterframeGap d + delay <= D.
Proof.
  intros [Hu [Hp1 Hp2] [Hs1 Hs2] Hd HD] [[Hr1 Hr2] Hg Ht _ _] Hsz. assert (size * 8 * units <= smax * 8 * units) as Hm by nia.
  destruct (NsTimeProps.tx_time_ok resolution units (m_bps d) size Hu Hp1 (conj Hr1 Hr2)) as (tx&E&Htx&Hb); [lia|nia|]. exists tx. split_and!; [done|done|].
  assert (tx * m_bps d - size * 8 * units <= m_bps d) by nia. nia.
Qed.

(** ** Bounds on time and on the numbers of events *)

Definition queue_of w (i : Z) : list Item := match devices w !! i with Some d => m_packets (m_queue d) | None => [] end.
Definition backlog w (a b : Z) : Z := Z.of_nat (length (queue_of w a)) + Z.of_nat (length (queue_of w b)).
Definition horizon w : Z := foldr (fun e => Z.max (ts_of e)) (now w) (pending (sim w)).
(** There is time and there are unique ids for the frames in the queues and [n] more. *)
Definition budget (a b n : Z) w : Prop :=
  horizon w + (backlog w a b + n) * D < 2 ^ 63 /\ m_nextUid (sim w) + 2 * (backlog w a b + n) < 2 ^ 32 - 1 /\
  Z.of_nat (length (pending (sim w))) + 2 * (backlog w a b + n) < 2 ^ 31 - 1.

Lemma foldr_max_ge l x : x <= foldr (fun e => Z.max (ts_of e)) x l /\ Forall (fun e => ts_of e <= foldr (fun e => Z.max (ts_of e)) x l) l.
Proof. induction l as [|e l [IH1 IH2]]; cbn; [split; [lia|constructor]|]. split; [lia|]. constructor; [lia|]. eapply Forall_impl; [exact IH2|]. cbn. lia. Qed.
Lemma foldr_max_le l x b : x <= b -> Forall (fun e => ts_of e <= b) l -> foldr (fun e => Z.max (ts_of e)) x l <= b.
Proof. intros Hx. induction 1; cbn; lia. Qed.
Lemma horizon_le w b : now w <= b -> Forall (fun e => ts_of e <= b) (pending (sim w)) -> horizon w <= b.
Proof. apply foldr_max_le. Qed.
Lemma horizon_now w : now w <= horizon w.
Proof. apply foldr_max_ge. Qed.
Lemma horizon_events w : Forall (fun e => ts_of e <= horizon w) (pending (sim w)).
Proof. apply foldr_max_ge. Qed.
End World.
End LinkInv.
