(* ===== verification/PointToPointProps.v ===== *)
(** * Correctness of point-to-point links

    Every operation keeps the invariant of the two streams, so no assertion of the devices
    and of the channel fails, frames arrive in the order they were accepted, and when the
    simulator has run all events every accepted frame has arrived. *)

From Stdlib Require Import Sorting.Sorted.
From S2P Require Import Prelude EventQueue Simulator Int64x64 NsTime Buffer BufferInv BufferProps Wire ErrorModel Queue QueueProps.
From S2P Require Import PointToPoint PointToPointInv.

Module LinkProps.
Import Simulator Buffer BufferInv ErrorModel Queue QueueProps PointToPoint PppWire LinkEvents LinkInv.

Section Links.
Context {EM : Type} `{ErrorModelOps EM} {S : Type} `{SchedulerLaws S}.
Context (uninit : Z -> nat -> Z) (resolution : NsTime.Unit) (units : Z).
Context (smax D delay : Z).
Implicit Types w : World EM S.
Implicit Types d : Device EM.
Notation device_ok := (device_ok units smax D delay).
Notation budget := (budget D).
Notation half := (half smax delay).
Notation flow := (flow smax delay).

Definition linked (a b : Z) (c : Channel) : Prop :=
  let l1 := mkLink IDLE (Some a) (Some b) in let l2 := mkLink IDLE (Some b) (Some a) in
  c = mkChannel delay 2 l1 l2 \/ c = mkChannel delay 2 l2 l1.
Definition device_of (ev : LinkEvent) : Z := match ev with EvTransmitComplete i => i | EvReceive i _ _ => i end.
(** The shared part of the invariant. *)
Record frame_inv (a b : Z) w : Prop := mkFrameInv {
  fi_sound : sound w;
  fi_ne : a <> b;
  fi_linked : linked a b (channel w);
  fi_packets : forall p, is_Some (packets w !! p) -> p < nextPacket w;
  fi_events : Forall (fun x => device_of x.2 = a \/ device_of x.2 = b) (agenda w)
}.
Record winv (a b : Z) w (acc1 acc2 : list Frame) : Prop := mkWinv {
  wi_frame : frame_inv a b w;
  wi_budget : budget a b 0 w;
  wi_devices : exists da db, devices w !! a = Some da /\ devices w !! b = Some db /\ device_ok da /\ device_ok db /\
    half a b (agenda w) (now w) (packets w) da (rx_log db) acc1 /\ half b a (agenda w) (now w) (packets w) db (rx_log da) acc2
}.
Lemma frame_inv_sym a b w : frame_inv a b w -> frame_inv b a w.
Proof.
  intros [Hs Hne Hl Hp He]. split; [done|done| |done|]; [unfold linked in *; tauto|]. eapply Forall_impl; [exact He|]. cbn. tauto.
Qed.
Lemma budget_sym a b n w : budget a b n w -> budget b a n w.
Proof. unfold LinkInv.budget, backlog. by rewrite (Z.add_comm (Z.of_nat (length (queue_of w b)))). Qed.
Lemma winv_sym a b w acc1 acc2 : winv a b w acc1 acc2 -> winv b a w acc2 acc1.
Proof.
  intros [Hf Hb (da&db&E1&E2&H1'&H2'&H3'&H4')]. split; [by apply frame_inv_sym|by apply budget_sym|]. exists db, da. by split_and!.
Qed.

(** ** Transmission *)

Definition measure (a b : Z) w : nat := length (pending (sim w)) + 2 * (length (queue_of w a) + length (queue_of w b)).

Lemma room_of w n : sound w -> m_nextUid (sim w) + n < 2 ^ 32 - 1 -> Z.of_nat (length (pending (sim w))) + n < 2 ^ 31 - 1 -> 0 <= n -> room (sim w).
Proof. intros Hs Hu Hl Hn. split; [lia|]. destruct (si_count _ (so_sim _ Hs)) as [-> _]. lia. Qed.
Lemma channel_TransmitStart_ok a b u p tx w d : sound w -> a <> b -> linked a b (channel w) -> devices w !! b = Some d -> 0 <= tx -> 0 <= delay -> tx + delay <= D -> now w + D < 2 ^ 63 -> room (sim w) ->
  exists e w', channel_TransmitStart u p a tx w = Some w' /\ scheduled e (EvReceive b u p) w w' /\ ts_of e = now w + tx + delay.
Proof.
  intros Hs Hne Hl Ed Htx Hd HD Hnow Hr. pose proof (si_time _ (so_sim _ Hs)). unfold now in *. unfold channel_TransmitStart.
  assert ((if bool_decide (m_src (m_link0 (channel w)) = Some a) then m_link0 (channel w) else m_link1 (channel w)) = mkLink IDLE (Some a) (Some b)) as El.
  { destruct Hl as [-> | ->]; cbn; [by rewrite bool_decide_eq_true_2|by rewrite bool_decide_eq_false_2 by congruence]. }
  assert (m_state (m_link0 (channel w)) = IDLE /\ m_state (m_link1 (channel w)) = IDLE /\ m_delay (channel w) = delay) as (->&->&->) by (by destruct Hl as [-> | ->]).
  rewrite El, bool_decide_eq_false_2 by done. cbn [negb NS_ASSERT m_dst]. rewrite Ed. rewrite i64_small by lia.
  destruct (schedule_with_context_ok (m_node d) (tx + delay) (EvReceive b u p) w Hs ltac:(lia) ltac:(unfold now; lia) Hr) as (e&w'&->&Hsc&Ht).
  exists e, w'. split_and!; [done|done|]. unfold now in Ht. lia.
Qed.
(** What [TransmitStart] adds to the world. *)
Lemma TransmitStart_ok a b p bytes w d db : bounds_ok resolution units smax D delay -> frame_inv a b w -> devices w !! a = Some d -> devices w !! b = Some db -> device_ok d ->
  m_txMachineState d = READY -> packets w !! p = Some bytes -> zlen bytes <= smax -> now w + D < 2 ^ 63 -> m_nextUid (sim w) + 2 < 2 ^ 32 - 1 -> Z.of_nat (length (pending (sim w))) + 2 < 2 ^ 31 - 1 ->
  exists e1 e2 w' s1, TransmitStart resolution a p w = Some w' /\ s1 = with_device a (set_tx BUSY (Some p) d) w /\
    sound w' /\ same_net s1 w' /\ now w' = now w /\ pending (sim w') ≡ₚ e2 :: e1 :: pending (sim w) /\
    agenda w' ≡ₚ (e2, EvReceive b p bytes) :: (e1, EvTransmitComplete a) :: agenda w /\
    now w + delay <= ts_of e2 <= ts_of e1 + delay /\ ts_of e2 <= now w + D /\ now w <= ts_of e1 <= now w + D /\
    (forall x, x ∈ pending (sim w) -> uid_of x < uid_of e2) /\ uid_of e1 < uid_of e2 /\ m_nextUid (sim w') = m_nextUid (sim w) + 2.
Proof.
  intros Hbo Hfi Ea Eb Hd HR Ep Hz Hnow Hu Hl. destruct (tx_time_bounded resolution units smax D delay d (zlen bytes) Hbo Hd) as (tx&Et&Htx&HD); [pose proof (zlen_nonneg bytes); lia|].
  destruct Hbo as [_ _ _ Hdl HD60]. destruct Hd as [_ Hgap _ [Hch _] _]. destruct Hfi as [Hs Hne Hli _ _]. pose proof (si_time _ (so_sim _ Hs)) as Htime.
  unfold TransmitStart. rewrite Ea, HR. cbn [bool_decide NS_ASSERT]. set (s1 := with_device a (set_tx BUSY (Some p) d) w). change (packets s1) with (packets w). rewrite bool_decide_eq_true_2 by done. cbn [NS_ASSERT]. rewrite Ep, Et.
  assert (sound s1) as Hs1 by (by destruct Hs). rewrite i64_small by lia.
  destruct (schedule_ok (tx + m_tInterframeGap d) (EvTransmitComplete a) s1 Hs1) as (e1&w1&->&[H1s (N1&N2&N3&N4) H1n H1p H1a H1u H1x]&Ht1); [lia|change (now s1) with (now w); lia|apply (room_of s1 2); cbn; lia || done|].
  rewrite Hch. cbn [NS_ASSERT]. change (sim s1) with (sim w) in *. change (now s1) with (now w) in *. change (agenda s1) with (agenda w) in *.
  assert (devices w1 !! b = Some db) as Eb1 by (rewrite N4; cbn; by rewrite lookup_insert_ne by congruence).
  assert (room (sim w1)) as Hr1 by (apply (room_of w1 1); [done|lia|rewrite H1p; cbn [length]; lia|lia]).
  destruct (channel_TransmitStart_ok a b p bytes tx w1 db H1s Hne) as (e2&w2&->&[H2s (M1&M2&M3&M4) H2n H2p H2a H2u H2x]&Ht2); [by rewrite N3|done|lia|lia|lia|lia|done|].
  exists e1, e2, w2, s1. rewrite H1n in Ht2. split_and!; try done; try lia.
  - split_and!; congruence.
  - by rewrite H2p, H1p.
  - by rewrite H2a, H1a.
  - intros x Hx. pose proof (si_issued _ (so_sim _ Hs) x Hx). lia.
Qed.

(** ** The invariant after a transmission started *)

Lemma arrivals_other dst e ev R : (forall u p, ev <> EvReceive dst u p) -> arrivals dst ((e, ev) :: R) = arrivals dst R.
Proof. intros Hne. unfold arrivals. cbn [omap list_omap]. destruct ev as [i|i u p]; cbn; [done|]. destruct (Z.eqb_spec i dst) as [->|]; [by destruct (Hne u p)|done]. Qed.
Lemma completions_other src e ev R : ev <> EvTransmitComplete src -> completions src ((e, ev) :: R) = completions src R.
Proof. intros Hne. unfold completions. cbn [omap list_omap]. destruct ev as [i|i u p]; cbn; [|done]. destruct (Z.eqb_spec i src) as [->|]; [done|done]. Qed.
Lemma completions_own src e R : completions src ((e, EvTransmitComplete src) :: R) = e :: completions src R.
Proof. unfold completions. cbn [omap list_omap]. cbn. by rewrite Z.eqb_refl. Qed.
Lemma queue_of_insert a d w i : queue_of (with_device a d w) i = if decide (i = a) then m_packets (m_queue d) else queue_of w i.
Proof. unfold queue_of. cbn. destruct (decide (i = a)) as [->|]; [by rewrite lookup_insert_eq|by rewrite lookup_insert_ne by done]. Qed.
Lemma queue_of_devices w w' i : devices w' = devices w -> queue_of w' i = queue_of w i.
Proof. intros E. unfold queue_of. by rewrite E. Qed.
Lemma queue_of_lookup w i d : devices w !! i = Some d -> queue_of w i = m_packets (m_queue d).
Proof. intros E. unfold queue_of. by rewrite E. Qed.
Lemma device_set_tx st p d : device_ok d -> device_ok (set_tx st p d).
Proof. intros []. by constructor. Qed.

Lemma transmit_winv a b p f w d db acc1 acc2 t queued item : bounds_ok resolution units smax D delay -> frame_inv a b w -> budget a b 1 w ->
  devices w !! a = Some d -> devices w !! b = Some db -> device_ok d -> device_ok db -> m_txMachineState d = READY -> packets w !! p = Some (wire_of f) -> frame_ok smax f ->
  flow b (agenda w) (packets w) (item :: m_packets (m_queue d)) (rx_log db) acc1 t (f :: queued) -> t <= now w -> completions a (agenda w) = [] ->
  half b a (agenda w) (now w) (packets w) db (rx_log d) acc2 ->
  exists w', TransmitStart resolution a p w = Some w' /\ winv a b w' acc1 acc2 /\ measure a b w' = (measure a b w + 2)%nat.
Proof.
  intros Hbo Hfi (Hb1&Hb2&Hb3) Ea Eb Hd Hdb HR Ep [Hk Hz] Hfl Ht Hc Hh. pose proof (horizon_now w) as Hhn. pose proof (fi_ne _ _ _ Hfi) as Hne.
  assert (0 <= D) as HD0. { destruct Hbo, Hd. nia. } assert (0 <= backlog w a b) by (unfold backlog; lia).
  destruct (TransmitStart_ok a b p (wire_of f) w d db Hbo Hfi Ea Eb Hd HR Ep) as (e1&e2&w'&s1&E&->&Hs'&(N1&N2&N3&N4)&Hn&Hp&Hag&Ht2&Ht2'&Ht1&Hu&Hu1&Hx); [unfold wire_of; rewrite wire_length; lia|nia|lia|lia|].
  cbn in N1, N2, N3, N4. assert (queue_of w' a = queue_of w a /\ queue_of w' b = queue_of w b) as [Qa Qb].
  { rewrite !(queue_of_devices (with_device a (set_tx BUSY (Some p) d) w) w') by done. rewrite !queue_of_insert, decide_True, decide_False by congruence. by rewrite (queue_of_lookup _ _ _ Ea). }
  exists w'. split; [done|]. split; [|unfold measure; rewrite Qa, Qb, Hp; cbn [length]; lia]. destruct Hfi as [Hs _ Hli Hpk Hev]. split.
  - split; [done|done|by rewrite N3|rewrite N1, N2; done|]. rewrite Hag. apply Forall_cons_2; [by right|]. apply Forall_cons_2; [by left|done].
  - assert (horizon w' <= horizon w + D) as Hh'. { apply horizon_le; [lia|]. rewrite Hp. apply Forall_cons_2; [lia|]. apply Forall_cons_2; [lia|]. eapply Forall_impl; [apply horizon_events|]. cbn. lia. }
    unfold LinkInv.budget, backlog in *. rewrite Qa, Qb, Hx, Hp. cbn [length]. lia.
  - exists (set_tx BUSY (Some p) d), db. rewrite N4, lookup_insert_eq, lookup_insert_ne by congruence. split_and!; [done|done|by apply device_set_tx|done| |].
    + exists (ts_of e1), queued. split.
      * rewrite N1. cbn [set_tx m_queue]. apply (flow_transmit smax delay b e2 p f ((e1, EvTransmitComplete a) :: agenda w) (agenda w') _ (item :: m_packets (m_queue d)) _ _ t); [done|lia| |].
        { intros x Hx'. apply elem_of_cons in Hx' as [->|Hx']; [done|]. by apply Hu, agenda_pending. }
        eapply flow_frame; [|reflexivity|exact Hfl]. by rewrite arrivals_other by done.
      * exists e1. split_and!; [|done|done]. apply Permutation_singleton_r. rewrite (completions_permutation _ _ _ Hag), completions_other, completions_own, Hc by done. done.
    + eapply half_frame; [| | | | | | |exact Hh]; [| |lia|by rewrite N1|done|done|done].
      * rewrite (arrivals_permutation _ _ _ Hag). rewrite !arrivals_other; [done|done|intros ? ? [= ? ? ?]; congruence].
      * rewrite (completions_permutation _ _ _ Hag), !completions_other; [done|congruence|done].
Qed.

(** ** Receiving *)

Lemma device_set_rx em log d : device_ok d -> device_ok (set_rx em log d).
Proof. intros []. by constructor. Qed.
Lemma GetRemote_ok a b w d : frame_inv a b w -> devices w !! a = Some d -> GetRemote b w = Some (m_address d).
Proof.
  intros Hfi Ea. unfold GetRemote. pose proof (fi_ne _ _ _ Hfi). destruct (fi_linked _ _ _ Hfi) as [-> | ->]; cbn.
  - rewrite bool_decide_eq_false_2 by congruence. cbn. by rewrite Ea.
  - rewrite bool_decide_eq_true_2, bool_decide_eq_false_2 by congruence. cbn. by rewrite Ea.
Qed.
Lemma link_Receive_ok a b u f w d db : bounds_ok resolution units smax D delay -> frame_inv a b w -> devices w !! a = Some d -> devices w !! b = Some db -> frame_ok smax f ->
  exists em log, Receive uninit b u (wire_of f) w = Some (with_device b (set_rx em log db) w) /\ taken log = taken (rx_log db) ++ [wire_of f].
Proof.
  intros Hbo Hfi Ea Eb [Hk Hz]. unfold Receive. rewrite Eb. destruct (match m_receiveErrorModel db with Some em => _ | None => _ end) as [corrupt em]. destruct corrupt.
  - eexists _, _. split; [reflexivity|]. unfold taken. by rewrite omap_app.
  - unfold wire_of at 1. rewrite ProcessHeader_ok by (done || (destruct Hbo; unfold MAX_CONTENT; lia)). rewrite (GetRemote_ok a b w d Hfi Ea).
    eexists _, _. split; [reflexivity|]. unfold taken. rewrite !omap_app. by destruct (m_promisc db).
Qed.

(** ** The event loop *)

Lemma frame_inv_device a b i d w : frame_inv a b w -> frame_inv a b (with_device i d w).
Proof. intros [Hs Hne Hl Hp He]. split; try done. by destruct Hs. Qed.
Lemma frame_inv_popped a b e ev w w1 : popped e ev w w1 -> frame_inv a b w -> frame_inv a b w1.
Proof.
  intros [Ha Hs (N1&N2&N3&N4) _ _ _ _ _] [_ Hne Hl Hp He]. split; [done|done|by rewrite N3|by rewrite N1, N2|]. rewrite Ha in He. by apply Forall_cons in He as [_ He].
Qed.
Lemma popped_horizon e ev w w1 : popped e ev w w1 -> horizon w1 <= horizon w.
Proof.
  intros [_ _ _ _ Hn _ _ Hp]. pose proof (horizon_events w) as Hh. rewrite Hp in Hh. apply Forall_cons in Hh as [He Hh]. apply horizon_le; [lia|done].
Qed.
Lemma popped_queues a e ev w w1 : popped e ev w w1 -> queue_of w1 a = queue_of w a.
Proof. intros [_ _ (_&_&_&N4) _ _ _ _ _]. by apply queue_of_devices. Qed.
Lemma popped_length e ev w w1 : popped e ev w w1 -> length (pending (sim w)) = Datatypes.S (length (pending (sim w1))).
Proof. intros Hpo. by rewrite (po_pending _ _ _ _ Hpo). Qed.
Lemma popped_half src dst e ev w w1 P d d' log acc : popped e ev w w1 -> P ⊆ packets w1 -> (forall u p, ev <> EvReceive dst u p) -> ev <> EvTransmitComplete src ->
  m_txMachineState d' = m_txMachineState d -> m_currentPkt d' = m_currentPkt d -> m_queue d' = m_queue d ->
  half src dst (agenda w) (now w) P d log acc -> half src dst (agenda w1) (now w1) (packets w1) d' log acc.
Proof.
  intros Hpo HP H1' H2'. apply half_frame; [| |apply Hpo|done]; symmetry.
  - by rewrite (arrivals_permutation _ _ _ (po_agenda _ _ _ _ Hpo)), arrivals_other.
  - by rewrite (completions_permutation _ _ _ (po_agenda _ _ _ _ Hpo)), completions_other.
Qed.

(** The arrival of a frame. *)
Lemma receive_winv a b e u p w w1 acc1 acc2 : bounds_ok resolution units smax D delay -> winv a b w acc1 acc2 -> popped e (EvReceive b u p) w w1 ->
  exists w2, Receive uninit b u p w1 = Some w2 /\ winv a b w2 acc1 acc2 /\ measure a b w = Datatypes.S (measure a b w2).
Proof.
  intros Hbo [Hfi (Hb1&Hb2&Hb3) (da&db&Ea&Eb&Hda&Hdb&(t&queued&Hfl&Htx)&Hh)] Hpo. pose proof (fi_ne _ _ _ Hfi) as Hne. pose proof (frame_inv_popped _ _ _ _ _ _ Hpo Hfi) as Hfi1.
  pose proof (po_net _ _ _ _ Hpo) as (N1&N2&N3&N4). pose proof (popped_length _ _ _ _ Hpo) as Hlen. pose proof (popped_horizon _ _ _ _ Hpo) as Hhor.
  destruct (flow_arrival smax delay b e u p _ _ _ _ _ _ _ _ _ (po_minimal _ _ _ _ Hpo) (fun x => agenda_pending w x (fi_sound _ _ _ Hfi)) (po_agenda _ _ _ _ Hpo) Hfl) as (f&->&Hf&Hfl1).
  destruct (link_Receive_ok a b u f w1 da db Hbo Hfi1) as (em&log&E&Hlog); [by rewrite N4..|done|]. eexists. split; [exact E|].
  assert (queue_of (with_device b (set_rx em log db) w1) a = queue_of w a /\ queue_of (with_device b (set_rx em log db) w1) b = queue_of w b) as [Qa Qb].
  { rewrite !queue_of_insert, decide_False, decide_True by congruence. by rewrite (popped_queues _ _ _ _ _ Hpo), (queue_of_lookup w b db). }
  split; [split|unfold measure; rewrite Qa, Qb; change (sim (with_device b (set_rx em log db) w1)) with (sim w1); lia].
  - by apply frame_inv_device.
  - unfold LinkInv.budget, backlog in *. rewrite Qa, Qb. change (horizon (with_device b (set_rx em log db) w1)) with (horizon w1). cbn [with_device sim]. rewrite (po_next _ _ _ _ Hpo). lia.
  - exists da, (set_rx em log db). cbn [devices with_device]. rewrite lookup_insert_eq, lookup_insert_ne, N4 by congruence. split_and!; [done|done|done|by apply device_set_rx| |].
    + exists t, queued. cbn [rx_log set_rx]. split; [rewrite <- N1 in Hfl1; by apply Hfl1|]. eapply tx_state_frame; [|exact (po_later _ _ _ _ Hpo)|done|done|exact Htx]. symmetry.
      change (agenda (with_device b (set_rx em log db) w1)) with (agenda w1). by rewrite (completions_permutation _ _ _ (po_agenda _ _ _ _ Hpo)), completions_other.
    + change (agenda (with_device b (set_rx em log db) w1)) with (agenda w1). change (now (with_device b (set_rx em log db) w1)) with (now w1). change (packets (with_device b (set_rx em log db) w1)) with (packets w1).
      eapply popped_half; [exact Hpo|by rewrite N1|intros ? ? [= ? ? ?]; congruence|done|done..|]. exact Hh.
Qed.

Lemma device_set_queue q d : queue_inv smax q -> device_ok d -> device_ok (set_queue q d).
Proof. intros Hq []. by constructor. Qed.
(** The end of a transmission; the next frame of the queue follows. *)
Lemma complete_winv a b e w w1 acc1 acc2 : bounds_ok resolution units smax D delay -> winv a b w acc1 acc2 -> popped e (EvTransmitComplete a) w w1 ->
  exists w2, TransmitComplete resolution a w1 = Some w2 /\ winv a b w2 acc1 acc2 /\ measure a b w = Datatypes.S (measure a b w2).
Proof.
  intros Hbo [Hfi (Hb1&Hb2&Hb3) (da&db&Ea&Eb&Hda&Hdb&(t&queued&Hfl&Htx)&Hh)] Hpo. pose proof (fi_ne _ _ _ Hfi) as Hne. pose proof (frame_inv_popped _ _ _ _ _ _ Hpo Hfi) as Hfi1.
  pose proof (po_net _ _ _ _ Hpo) as (N1&N2&N3&N4). pose proof (popped_length _ _ _ _ Hpo) as Hlen. pose proof (popped_horizon _ _ _ _ Hpo) as Hhor.
  pose proof (completions_permutation a _ _ (po_agenda _ _ _ _ Hpo)) as Ec. rewrite completions_own in Ec.
  unfold tx_state in Htx. destruct (m_txMachineState da) eqn:Est. { destruct Htx as (E&_). rewrite E in Ec. by apply Permutation_nil_l in Ec. }
  destruct Htx as (e'&E&Et&Hcur). rewrite E in Ec. apply Permutation_singleton_l in Ec. injection Ec as -> Ec. rewrite <- (po_now _ _ _ _ Hpo) in Et.
  destruct (take_out_ok smax (m_queue da) (dv_queue _ _ _ _ _ Hda)) as (q'&Eq&Hq'&_&Eqp&_).
  unfold TransmitComplete. rewrite N4, Ea, Est, bool_decide_eq_true_2, bool_decide_eq_false_2 by done. cbn [negb NS_ASSERT]. unfold Dequeue, DoDequeue. rewrite Eq.
  set (d1 := set_queue q' (set_tx READY None da)). set (w2 := with_device a d1 w1).
  assert (flow b (agenda w2) (packets w2) (m_packets (m_queue da)) (rx_log db) acc1 t queued) as Hfl2.
  { eapply flow_frame; [|cbn; by rewrite N1|exact Hfl]. change (agenda w2) with (agenda w1). symmetry. by rewrite (arrivals_permutation _ _ _ (po_agenda _ _ _ _ Hpo)), arrivals_other. }
  assert (half b a (agenda w2) (now w2) (packets w2) db (rx_log d1) acc2) as Hh2.
  { change (agenda w2) with (agenda w1). change (now w2) with (now w1). change (packets w2) with (packets w1). eapply popped_half; [exact Hpo|by rewrite N1|done|congruence|done..|exact Hh]. }
  assert (devices w2 !! a = Some d1 /\ devices w2 !! b = Some db) as [Ea2 Eb2] by (cbn; rewrite lookup_insert_eq, lookup_insert_ne, N4 by congruence; done).
  assert (device_ok d1) as Hd1 by (apply device_set_queue; [done|by apply device_set_tx]).
  assert (queue_of w2 a = tail (queue_of w a) /\ queue_of w2 b = queue_of w b) as [Qa Qb].
  { unfold w2. rewrite !queue_of_insert, decide_True, decide_False by congruence. rewrite (popped_queues _ _ _ _ _ Hpo), (queue_of_lookup w a da) by done. by cbn. }
  pose proof (queue_of_lookup w a da Ea) as Qda. pose proof (fl_queue _ _ _ _ _ _ _ _ _ _ Hfl2) as Hq2.
  destruct (m_packets (m_queue da)) as [|item items] eqn:Ei.
  - apply Forall2_nil_inv_r in Hq2 as ->. exists w2. rewrite Qda in Qa. split; [done|]. split; [split; [by apply frame_inv_device| |]|unfold measure; rewrite Qa, Qb, Qda; change (sim w2) with (sim w1); cbn [length tail]; lia].
    + unfold LinkInv.budget, backlog in *. rewrite Qa, Qb. rewrite Qda in Hb1, Hb2, Hb3. change (horizon w2) with (horizon w1). change (sim w2) with (sim w1). rewrite (po_next _ _ _ _ Hpo). cbn [length tail] in *. lia.
    + exists d1, db. split_and!; try done. exists t, []. cbn [m_queue d1 set_queue]. rewrite Eqp. split; [done|]. change (agenda w2) with (agenda w1). change (now w2) with (now w1). split_and!; [done|done|lia].
  - apply Forall2_cons_inv_r in Hq2 as (f&queued'&[Ep _]&_&->). cbn [head]. rewrite Qda in Qa. cbn [tail] in Qa.
    destruct (transmit_winv a b (uid item) f w2 d1 db acc1 acc2 t queued' item Hbo) as (w3&E3&Hw3&Hm3); try done; [by apply frame_inv_device| |..].
    + unfold LinkInv.budget, backlog in *. rewrite Qa, Qb. rewrite Qda in Hb1, Hb2, Hb3. change (horizon w2) with (horizon w1). change (sim w2) with (sim w1). rewrite (po_next _ _ _ _ Hpo). cbn [length] in *. nia.
    + pose proof (fl_frames _ _ _ _ _ _ _ _ _ _ Hfl2) as Hff. pose proof (fl_split _ _ _ _ _ _ _ _ _ _ Hfl2) as (dn&fly&_&->&_). rewrite !Forall_app in Hff. destruct Hff as (_&_&Hff). by apply Forall_cons in Hff as [Hff _].
    + cbn [m_queue d1 set_queue]. by rewrite Eqp.
    + change (now w2) with (now w1). lia.
    + exists w3. split; [done|]. split; [done|]. rewrite Hm3. unfold measure. rewrite Qa, Qb, Qda. change (sim w2) with (sim w1). cbn [length]. lia.
Qed.
Lemma run_event_winv a b w acc1 acc2 : bounds_ok resolution units smax D delay -> winv a b w acc1 acc2 -> agenda w <> [] ->
  exists w', run_event uninit resolution w = Some w' /\ winv a b w' acc1 acc2 /\ measure a b w = Datatypes.S (measure a b w').
Proof.
  intros Hbo Hw Hne. pose proof (wi_frame _ _ _ _ _ Hw) as Hfi. destruct (run_event_ok uninit resolution w (fi_sound _ _ _ Hfi) Hne) as (e&ev&w1&Hpo&Hrun).
  assert (exists w2, notify uninit resolution ev w1 = Some w2 /\ winv a b w2 acc1 acc2 /\ measure a b w = Datatypes.S (measure a b w2)) as (w2&E&Hw2&Hm).
  { assert (device_of ev = a \/ device_of ev = b) as Hdev. { pose proof (fi_events _ _ _ Hfi) as Hev. rewrite (po_agenda _ _ _ _ Hpo) in Hev. by apply Forall_cons in Hev as [Hev _]. }
    assert (forall i j w x y, winv i j w x y -> measure i j w = measure j i w) as Hms by (intros; unfold measure; lia).
    destruct ev as [i|i u p]; cbn [device_of notify] in *; destruct Hdev as [->| ->].
    - by apply (complete_winv a b e w w1).
    - destruct (complete_winv b a e w w1 acc2 acc1 Hbo (winv_sym _ _ _ _ _ Hw) Hpo) as (w2&E&Hw2&Hm). exists w2. split_and!; [done|by apply winv_sym|]. by rewrite (Hms _ _ _ _ _ Hw), Hm, (Hms _ _ _ _ _ Hw2).
    - destruct (receive_winv b a e u p w w1 acc2 acc1 Hbo (winv_sym _ _ _ _ _ Hw) Hpo) as (w2&E&Hw2&Hm). exists w2. split_and!; [done|by apply winv_sym|]. by rewrite (Hms _ _ _ _ _ Hw), Hm, (Hms _ _ _ _ _ Hw2).
    - by apply (receive_winv a b e u p w w1). }
  exists w2. split_and!; [|done|done]. apply Hrun; [done|]. apply Hw2.
Qed.

(** ** Sending *)

Definition item_for w (f : Frame) : Item := mkItem (nextPacket w) (zlen (wire_of f)) 0 None.
(** Whether the queue of the device has no room for the frame. *)
Definition full w (i : Z) (f : Frame) : bool :=
  match devices w !! i with Some d => exceeds (GetMaxSize (m_queue d)) (m_packets (m_queue d)) (item_for w f) | None => true end.
Lemma packet_fresh a b w : frame_inv a b w -> packets w !! nextPacket w = None.
Proof. intros Hfi. destruct (packets w !! nextPacket w) eqn:E; [|done]. assert (nextPacket w < nextPacket w) by (apply Hfi; by rewrite E). lia. Qed.
(** The world with the frame's packet in the store. *)
Definition stored (f : Frame) w : World EM S := (new_packet (wire_of f) w).2.
Lemma frame_inv_stored a b f w : frame_inv a b w -> frame_inv a b (stored f w).
Proof.
  intros [Hs Hne Hl Hp He]. split; [by destruct Hs|done|done| |done]. cbn. intros p [x Hx]. destruct (decide (p = nextPacket w)) as [->|Hn]; [lia|]. rewrite lookup_insert_ne in Hx by done.
  assert (p < nextPacket w) by (apply Hp; by eexists). lia.
Qed.
(** Only the queue of the sender changes, and the store grows. *)
Lemma stored_winv a b f w d db d1 acc1' acc2 n : frame_inv a b w -> devices w !! a = Some d -> devices w !! b = Some db -> device_ok d1 -> device_ok db -> rx_log d1 = rx_log d ->
  budget a b n w -> Z.of_nat (length (m_packets (m_queue d1))) <= Z.of_nat (length (m_packets (m_queue d))) + n -> 0 <= D ->
  half a b (agenda w) (now w) (packets (stored f w)) d1 (rx_log db) acc1' -> half b a (agenda w) (now w) (packets w) db (rx_log d) acc2 ->
  winv a b (with_device a d1 (stored f w)) acc1' acc2.
Proof.
  intros Hfi Ea Eb Hd1 Hdb Elog (Hb1&Hb2&Hb3) Hlen HD Hh1 Hh2. pose proof (fi_ne _ _ _ Hfi). split; [by apply frame_inv_device, frame_inv_stored| |].
  - unfold LinkInv.budget, backlog in *. rewrite !queue_of_insert, decide_True, decide_False by congruence. change (queue_of (stored f w) b) with (queue_of w b). rewrite (queue_of_lookup w a d Ea) in Hb1, Hb2, Hb3.
    change (horizon (with_device a d1 (stored f w))) with (horizon w). change (sim (with_device a d1 (stored f w))) with (sim w). nia.
  - exists d1, db. cbn [devices with_device]. rewrite lookup_insert_eq, lookup_insert_ne by congruence. split_and!; [done|done|done|done|done|]. rewrite Elog.
    eapply half_frame; [| | | | | | |exact Hh2]; try done. cbn. by apply insert_subseteq, (packet_fresh a b).
Qed.
Lemma Send_winv a b f w acc1 acc2 : bounds_ok resolution units smax D delay -> winv a b w acc1 acc2 -> frame_ok smax f -> budget a b 1 w ->
  exists w', Send uninit resolution a f.2 f.1 w = Some (negb (full w a f), w') /\ winv a b w' (if full w a f then acc1 else acc1 ++ [f]) acc2.
Proof.
  intros Hbo [Hfi Hb0 (da&db&Ea&Eb&Hda&Hdb&(t&queued&Hfl&Htx)&Hh)] [Hk Hz] Hb. pose proof (packet_fresh a b w Hfi) as Hfresh. pose proof (zlen_nonneg f.2).
  assert (0 <= D) as HD by (destruct Hbo, Hda; nia). assert (packets w ⊆ packets (stored f w)) as Hsub by (cbn; by apply insert_subseteq).
  unfold Send, full. rewrite Ea. destruct (dv_up _ _ _ _ _ Hda) as [_ ->]. cbn [negb]. rewrite AddHeader_ok by (done || (destruct Hbo; unfold MAX_CONTENT; lia)). fold (wire_of f).
  change (new_packet (wire_of f) w) with (nextPacket w, stored f w). cbn beta iota. change (mkItem (nextPacket w) (zlen (wire_of f)) 0 None) with (item_for w f).
  assert (item_ok smax (item_for w f)) as Hi by (unfold item_ok; cbn [GetSize item_for]; unfold wire_of; rewrite wire_length; lia).
  destruct (Enqueue_ok smax (m_queue da) (item_for w f) (dv_queue _ _ _ _ _ Hda) Hi) as (q1&->&Hq1&_&Eq1&_). destruct (exceeds _ _ _); cbn [negb].
  { eexists. split; [reflexivity|]. apply (stored_winv a b f w da db _ acc1 acc2 0); try done; [apply (device_set_queue q1 da) in Hq1 as []; [by constructor|done]|cbn [m_queue tx_drop set_queue]; rewrite Eq1; lia|].
    exists t, queued. cbn [m_queue tx_drop set_queue]. rewrite Eq1. split; [by eapply flow_frame|done]. }
  assert (flow b (agenda w) (packets (stored f w)) (m_packets q1) (rx_log db) (acc1 ++ [f]) t (queued ++ [f])) as Hfl1.
  { rewrite Eq1. apply flow_enqueue; [done|split; [cbn; by rewrite lookup_insert_eq|done]|by eapply flow_frame]. }
  unfold tx_state in Htx. destruct (m_txMachineState da) eqn:Est.
  - destruct Htx as (Hc&->&Ht). rewrite bool_decide_eq_true_2 by done. pose proof (fl_queue _ _ _ _ _ _ _ _ _ _ Hfl) as Hq0. apply Forall2_nil_inv_l in Hq0. rewrite Hq0 in Eq1. cbn in Eq1.
    destruct (take_out_ok smax q1 Hq1) as (q2&Eq2&Hq2&_&Ep2&_). unfold Dequeue, DoDequeue. rewrite Eq1 in Eq2, Ep2. rewrite Eq2. cbn [head tail] in *.
    assert (devices (with_device a (set_queue q2 da) (stored f w)) !! b = Some db) as Eb' by (cbn; rewrite lookup_insert_ne by (apply Hfi); done).
    destruct (transmit_winv a b (nextPacket w) f (with_device a (set_queue q2 da) (stored f w)) (set_queue q2 da) db (acc1 ++ [f]) acc2 t [] (item_for w f) Hbo) as (w'&E&Hw'&_); try done.
    + by apply frame_inv_device, frame_inv_stored.
    + unfold LinkInv.budget, backlog in *. pose proof (fi_ne _ _ _ Hfi). rewrite !queue_of_insert, decide_True, decide_False by congruence. rewrite (queue_of_lookup w a da Ea), Hq0 in Hb. cbn [m_queue set_queue]. by rewrite Ep2.
    + cbn. by rewrite lookup_insert_eq.
    + by apply device_set_queue.
    + cbn. by rewrite lookup_insert_eq.
    + cbn [m_queue set_queue]. rewrite Ep2. change (agenda (with_device a (set_queue q2 da) (stored f w))) with (agenda w). change (packets (with_device a (set_queue q2 da) (stored f w))) with (packets (stored f w)).
      by rewrite Eq1 in Hfl1.
    + eapply half_frame; [| | | | | | |exact Hh]; done.
    + cbn [item_for uid]. rewrite E. by eexists.
  - rewrite bool_decide_eq_false_2 by done. eexists. split; [reflexivity|]. apply (stored_winv a b f w da db _ (acc1 ++ [f]) acc2 1); try done; [by apply device_set_queue|cbn [m_queue set_queue]; rewrite Eq1, length_app; cbn [length]; lia|].
    exists t, (queued ++ [f]). split; [done|]. unfold tx_state. cbn [m_txMachineState set_queue m_currentPkt]. by rewrite Est.
Qed.
End Links.
End LinkProps.
