(* ===== verification/PointToPointSystem.v ===== *)
(** * Systems of two devices on a link

    Every world that sending and the simulator's events can reach keeps the invariant;
    the theorems about links follow. *)

From Stdlib Require Import Sorting.Sorted.
From S2P Require Import Prelude EventQueue MapScheduler Simulator SimulatorProps Int64x64 NsTime Buffer BufferInv BufferProps Wire ErrorModel Queue QueueProps.
From S2P Require Import PointToPoint PointToPointInv PointToPointProps.

Module LinkSystem.
Import Simulator Buffer BufferInv ErrorModel Queue QueueProps PointToPoint PppWire LinkEvents LinkInv LinkProps.

Section Systems.
Context {EM : Type} `{ErrorModelOps EM} {S : Type} `{SchedulerLaws S}.
Context (uninit : Z -> nat -> Z) (resolution : NsTime.Unit) (units : Z).
Context (smax D delay : Z).
Implicit Types w : World EM S.
Implicit Types d : Device EM.
Notation bounds_ok := (bounds_ok resolution units smax D delay).
Notation winv := (winv units smax D delay).

(** Two devices and a channel, before and after they are attached. *)
Definition unattached (thread a : Z) da (b : Z) db : World EM S :=
  mkWorld (DefaultSimulatorImpl_new thread) ∅ 1 ∅ 1 (PointToPointChannel_new delay) (<[a := da]> {[b := db]}).
Definition start_world (thread a : Z) da (b : Z) db : option (World EM S) :=
  let* half_attached := Attach a (unattached thread a da b db) in Attach b half_attached.
(** A device as it is configured before it is used. *)
Record fresh d : Prop := mkFresh {
  fr_state : m_txMachineState d = READY /\ m_currentPkt d = None /\ rx_log d = [] /\ m_packets (m_queue d) = [];
  fr_ok : device_ok units smax D delay (attached d)
}.

Lemma half_start src dst d : m_txMachineState d = READY -> m_packets (m_queue d) = [] -> half smax delay src dst [] 0 ∅ d [] [].
Proof. intros E1 E2. exists 0, []. split; [split; [constructor|exists [], [], []; split_and!; try done; constructor|by rewrite E2]|]. unfold tx_state. by rewrite E1. Qed.
Definition one_attached (a : Z) : Channel := mkChannel delay 1 (mkLink INITIALIZING (Some a) None) (mkLink INITIALIZING None None).
Lemma Attach_first a : a <> nullptr -> channel_Attach a (PointToPointChannel_new delay) = Some (one_attached a).
Proof. intros Ha. unfold channel_Attach. cbn. rewrite (proj2 (Z.eqb_neq _ _)) by done. done. Qed.
Lemma Attach_second a b : b <> nullptr -> channel_Attach b (one_attached a) = Some (mkChannel delay 2 (mkLink IDLE (Some a) (Some b)) (mkLink IDLE (Some b) (Some a))).
Proof. intros Hb. unfold channel_Attach. cbn. rewrite (proj2 (Z.eqb_neq _ _)) by done. done. Qed.
Lemma start_ok thread a da b db : bounds_ok -> a <> b -> a <> nullptr -> b <> nullptr -> fresh da -> fresh db ->
  exists w, start_world thread a da b db = Some w /\ winv a b w [] [].
Proof.
  intros Hbo Hne Ha Hb [(A1&A2&A3&A4) HA] [(B1&B2&B3&B4) HB]. unfold start_world, Attach. cbn [channel unattached]. rewrite Attach_first by done.
  cbn [devices unattached]. rewrite lookup_insert_eq. cbn [channel with_device with_channel]. rewrite Attach_second by done. cbn [devices with_device with_channel unattached]. rewrite !lookup_insert_ne, lookup_singleton_eq by congruence.
  eexists. split; [reflexivity|]. destruct (sched_new_ok (S := S)) as (_&Hc&_). pose proof (new_inv (S := S) thread) as Hi.
  assert (forall w, sim w = DefaultSimulatorImpl_new thread -> agenda w = []) as Hag by (intros w Ew; unfold agenda; rewrite Ew; unfold pending; cbn; by rewrite Hc).
  split; [split|..].
  - split; cbn; try done; [unfold pending; cbn; rewrite Hc; constructor|]. intros i [x Hx]. by rewrite lookup_empty in Hx.
  - done.
  - by left.
  - intros p [x Hx]. cbn in Hx. by rewrite lookup_empty in Hx.
  - rewrite Hag by done. constructor.
  - assert (forall w, devices w !! a = Some (attached da) -> devices w !! b = Some (attached db) -> sim w = DefaultSimulatorImpl_new thread -> LinkInv.budget D a b 0 w) as Hbud.
    { intros w E1 E2 E3. unfold budget, backlog, horizon, now. rewrite !(queue_of_lookup w _ _ E1), !(queue_of_lookup w _ _ E2), E3. cbn. rewrite A4, B4. unfold pending. cbn. rewrite Hc. done. }
    apply Hbud; [cbn; rewrite lookup_insert_ne by congruence; by rewrite lookup_insert_eq|cbn; by rewrite lookup_insert_eq|done].
  - exists (attached da), (attached db). rewrite Hag by done. cbn. rewrite A3, B3. rewrite lookup_insert_ne, !lookup_insert_eq by congruence. split_and!; [done|done|done|done|by apply half_start..].
Qed.

(** The worlds of a link, with the frames that were accepted in each direction. *)
Inductive link_reach : Z -> Z -> World EM S -> list Frame -> list Frame -> Prop :=
  | link_start thread a da b db w : a <> b -> a <> nullptr -> b <> nullptr -> fresh da -> fresh db ->
      start_world thread a da b db = Some w -> link_reach a b w [] []
  | link_send a b f r w w' acc1 acc2 : link_reach a b w acc1 acc2 -> frame_ok smax f -> budget D a b 1 w ->
      Send uninit resolution a f.2 f.1 w = Some (r, w') -> link_reach a b w' (if r then acc1 ++ [f] else acc1) acc2
  | link_event a b w w' acc1 acc2 : link_reach a b w acc1 acc2 -> pending (sim w) <> [] ->
      run_event uninit resolution w = Some w' -> link_reach a b w' acc1 acc2
  | link_swap a b w acc1 acc2 : link_reach b a w acc2 acc1 -> link_reach a b w acc1 acc2.

Lemma agenda_some w : sound w -> pending (sim w) <> [] -> agenda w <> [].
Proof. intros Hs Hp E. by apply Hp, agenda_nil. Qed.
Lemma link_reach_winv a b w acc1 acc2 : bounds_ok -> link_reach a b w acc1 acc2 -> winv a b w acc1 acc2.
Proof.
  intros Hbo. induction 1 as [thread a da b db w Hne Ha Hb HA HB E|a b f r w w' acc1 acc2 _ IH Hf Hbu E|a b w w' acc1 acc2 _ IH Hp E|a b w acc1 acc2 _ IH].
  - destruct (start_ok thread a da b db Hbo Hne Ha Hb HA HB) as (w1&E1&Hw). rewrite E in E1. by injection E1 as <-.
  - destruct (Send_winv uninit resolution units smax D delay a b f w acc1 acc2 Hbo IH Hf Hbu) as (w1&E1&Hw). rewrite E in E1. injection E1 as -> <-. by destruct (full w a f).
  - destruct (run_event_winv uninit resolution units smax D delay a b w acc1 acc2 Hbo IH) as (w1&E1&Hw&_); [apply agenda_some; [apply IH|done]|]. rewrite E in E1. by injection E1 as <-.
  - by apply winv_sym.
Qed.

(** ** The order of frames *)

Lemma half_order src dst R now P d log acc : half smax delay src dst R now P d log acc ->
  exists dn flying queued, acc = dn ++ flying ++ queued /\ taken log = wire_of <$> dn /\ (arrivals dst R).*2 ≡ₚ wire_of <$> flying /\ length queued = length (m_packets (m_queue d)) /\
    (m_txMachineState d = READY -> queued = []) /\ (R = [] -> flying = [] /\ queued = []).
Proof.
  intros (t&queued&[Hf (dn&flying&fl&E1&E2&E3&E4&_) Hq]&Htx). exists dn, flying, queued. unfold tx_state in Htx.
  assert ((arrivals dst R).*2 ≡ₚ wire_of <$> flying) as Ea by (by rewrite E3, E4). split_and!; [done|done|done|by eapply Forall2_length|intros Es; rewrite Es in Htx; apply Htx|].
  intros ->. cbn in Ea. apply Permutation_nil_l in Ea. split; [by destruct flying|]. destruct (m_txMachineState d); [apply Htx|]. by destruct Htx as (e&E&_).
Qed.

(** C5: Frames arrive in order and none is lost or invented. In every world that sending
    and the events of the simulator can reach, over any scheduler and any error model: the
    frames accepted by one device are those the other one took from the wire, in this
    order, those in flight, and those in the device's queue; a device that is not
    transmitting has an empty queue; with no event left, all have been taken. *)
Theorem link_in_order a b w acc1 acc2 : bounds_ok -> link_reach a b w acc1 acc2 ->
  exists da db dn flying queued, devices w !! a = Some da /\ devices w !! b = Some db /\ acc1 = dn ++ flying ++ queued /\ taken (rx_log db) = wire_of <$> dn /\
    (arrivals b (agenda w)).*2 ≡ₚ wire_of <$> flying /\ length queued = length (m_packets (m_queue da)) /\ (m_txMachineState da = READY -> queued = []) /\
    (agenda w = [] -> dn = acc1).
Proof.
  intros Hbo Hr. destruct (link_reach_winv a b w acc1 acc2 Hbo Hr) as [_ _ (da&db&Ea&Eb&_&_&Hh&_)].
  destruct (half_order _ _ _ _ _ _ _ _ Hh) as (dn&flying&queued&E1&E2&E3&E4&E5&E6). exists da, db, dn, flying, queued. split_and!; try done.
  intros Ha. destruct (E6 Ha) as [-> ->]. by rewrite E1, app_nil_r.
Qed.

(** C16: No assertion of devices, channel, queue or simulator fails, and no time overflows:
    in every reachable world the next event is processed, and a packet of a known protocol
    that is not too long can be sent, which is accepted exactly when the device's queue
    has room for it. *)
Theorem link_never_fails a b w acc1 acc2 f : bounds_ok -> link_reach a b w acc1 acc2 ->
  (pending (sim w) <> [] -> exists w', run_event uninit resolution w = Some w') /\
  (frame_ok smax f -> budget D a b 1 w -> exists w', Send uninit resolution a f.2 f.1 w = Some (negb (full w a f), w')).
Proof.
  intros Hbo Hr. pose proof (link_reach_winv a b w acc1 acc2 Hbo Hr) as Hw. split.
  - intros Hp. destruct (run_event_winv uninit resolution units smax D delay a b w acc1 acc2 Hbo Hw) as (w'&E&_); [apply agenda_some; [apply Hw|done]|]. by exists w'.
  - intros Hf Hb. destruct (Send_winv uninit resolution units smax D delay a b f w acc1 acc2 Hbo Hw Hf Hb) as (w'&E&_). by exists w'.
Qed.

(** ** Running to the end *)

Lemma run_ok n a b w acc1 acc2 : bounds_ok -> winv a b w acc1 acc2 -> measure a b w = n -> exists w', run uninit resolution n w = Some w' /\ winv a b w' acc1 acc2 /\ agenda w' = [].
Proof.
  intros Hbo. revert w. induction n as [|n IH]; intros w Hw Hm; cbn [run]; pose proof (fi_sound _ _ _ _ (wi_frame _ _ _ _ _ _ _ _ _ Hw)) as Hs; pose proof (sched_IsEmpty_ok _ (si_sched _ (so_sim _ Hs))) as He; destruct (sched_IsEmpty _).
  - exists w. split_and!; [done|done|]. unfold agenda, pending. by rewrite (proj1 He eq_refl).
  - exfalso. unfold measure in Hm. assert (pending (sim w) = []) as Hp by (apply length_zero_iff_nil; lia). unfold pending in Hp. by apply He in Hp.
  - exists w. split_and!; [done|done|]. unfold agenda, pending. by rewrite (proj1 He eq_refl).
  - destruct (run_event_winv uninit resolution units smax D delay a b w acc1 acc2 Hbo Hw) as (w1&->&Hw1&Hm1); [|apply IH; [done|lia]].
    apply agenda_some; [done|]. intros Hp. unfold pending in Hp. apply He in Hp. done.
Qed.

(** C11: From every reachable world the simulator runs to its end: after exactly as many
    events as are pending, and two for each frame in a queue, none is left and each device
    has taken, in order, every frame the other one accepted. *)
Theorem link_drains a b w acc1 acc2 : bounds_ok -> link_reach a b w acc1 acc2 ->
  exists w' da db, run uninit resolution (measure a b w) w = Some w' /\ agenda w' = [] /\ devices w' !! a = Some da /\ devices w' !! b = Some db /\
    taken (rx_log db) = wire_of <$> acc1 /\ taken (rx_log da) = wire_of <$> acc2 /\ m_packets (m_queue da) = [] /\ m_packets (m_queue db) = [].
Proof.
  intros Hbo Hr. destruct (run_ok _ a b w acc1 acc2 Hbo (link_reach_winv a b w acc1 acc2 Hbo Hr) eq_refl) as (w'&E&[_ _ (da&db&Ea&Eb&_&_&H1'&H2')]&Hag).
  destruct (half_order _ _ _ _ _ _ _ _ H1') as (d1&f1&q1&Eq1&Et1&_&El1&_&E1). destruct (half_order _ _ _ _ _ _ _ _ H2') as (d2&f2&q2&Eq2&Et2&_&El2&_&E2).
  destruct (E1 Hag) as [-> ->]. destruct (E2 Hag) as [-> ->]. rewrite app_nil_r in Eq1, Eq2. subst d1 d2. exists w', da, db. split_and!; try done; by apply length_zero_iff_nil.
Qed.
End Systems.
End LinkSystem.

(** * A link at work

    Two devices at 5 Mbit/s with 2 ms between them; every second frame that arrives at the
    second device is corrupted. The theorems about links apply to it. *)

Module LinkDemo.
Import Simulator Buffer BufferInv ErrorModel Queue QueueProps PointToPoint PppWire LinkEvents LinkInv LinkProps LinkSystem.

Definition zeros : Z -> nat -> Z := fun _ _ => 0.
Definition link_smax : Z := 1502.
Definition link_D : Z := 5000000.
Definition link_delay : Z := 2000000.
Definition link_queue : Queue := default (mkQueue QueueBase_new [] []) (DropTailQueue_new (mkSize PACKETS 2)).
Definition device_a : Device BinaryErrorModel := PointToPointNetDevice_new 5000000 0 link_queue 10 170 1500.
Definition device_b : Device BinaryErrorModel := SetReceiveErrorModel (Some (ErrorModel_new (mkBinary 0))) (PointToPointNetDevice_new 5000000 0 link_queue 20 187 1500).
Definition World' : Type := World BinaryErrorModel MapScheduler.t.
Definition no_world : World' := unattached link_delay 7 1 device_a 2 device_b.
Definition frame (n : Z) : Frame := (0x800, [n; n; n]).
Definition sent {X} (r : option (X * World')) : World' := match r with Some (_, w) => w | None => no_world end.
Definition world0 : World' := default no_world (start_world link_delay 7 1 device_a 2 device_b).
Definition send (n : Z) (w : World') : option (bool * World') := Send zeros NsTime.NS 1 (frame n).2 (frame n).1 w.
Definition world1 : World' := sent (send 1 world0).
Definition world2 : World' := sent (send 2 world1).
Definition world3 : World' := sent (send 3 world2).
Definition world4 : World' := sent (send 4 world3).

Lemma link_bounds : bounds_ok NsTime.NS (10 ^ 9) link_smax link_D link_delay.
Proof. split; vm_compute; repeat split; intros; discriminate. Qed.
Lemma link_queue_ok : queue_inv link_smax link_queue.
Proof.
  destruct (DropTailQueue_new_ok link_smax (mkSize PACKETS 2)) as (q&E&Hq&_); [unfold capacity_ok; vm_compute; repeat split; intros; discriminate|]. unfold link_queue. by rewrite E.
Qed.
Lemma devices_fresh : fresh (10 ^ 9) link_smax link_D link_delay device_a /\ fresh (10 ^ 9) link_smax link_D link_delay device_b.
Proof. split; (split; [by split_and!|]); (split; [vm_compute; split; reflexivity|vm_compute; discriminate|vm_compute; discriminate|by split|apply link_queue_ok]). Qed.
Lemma frame_small n : frame_ok link_smax (frame n).
Proof. split; [by left|vm_compute; discriminate]. Qed.
Lemma send_1 : Send zeros NsTime.NS 1 (frame 1).2 (frame 1).1 world0 = Some (true, world1).
Proof. vm_compute. reflexivity. Qed.
Lemma send_2 : Send zeros NsTime.NS 1 (frame 2).2 (frame 2).1 world1 = Some (true, world2).
Proof. vm_compute. reflexivity. Qed.
Lemma send_3 : Send zeros NsTime.NS 1 (frame 3).2 (frame 3).1 world2 = Some (true, world3).
Proof. vm_compute. reflexivity. Qed.
(** The fourth frame finds the queue full. *)
Lemma send_4 : Send zeros NsTime.NS 1 (frame 4).2 (frame 4).1 world3 = Some (false, world4).
Proof. vm_compute. reflexivity. Qed.
Lemma demo_budget (w : World') : forallb (fun w => (horizon w + (backlog w 1 2 + 1) * link_D <? 2 ^ 63) && (m_nextUid (sim w) + 2 * (backlog w 1 2 + 1) <? 2 ^ 32 - 1) &&
    (Z.of_nat (length (pending (sim w))) + 2 * (backlog w 1 2 + 1) <? 2 ^ 31 - 1)) [w] = true -> budget link_D 1 2 1 w.
Proof. cbn [forallb]. rewrite andb_true_r. intros Hb. unfold budget. bool_prop. by split_and!. Qed.
Lemma link_demo_reach : link_reach zeros NsTime.NS (10 ^ 9) link_smax link_D link_delay 1 2 world4 [frame 1; frame 2; frame 3] [].
Proof.
  apply (link_send _ _ _ _ _ _ 1 2 (frame 4) false world3); [|apply frame_small|apply demo_budget; vm_compute; reflexivity|exact send_4].
  apply (link_send _ _ _ _ _ _ 1 2 (frame 3) true world2 world3 [frame 1; frame 2]); [|apply frame_small|apply demo_budget; vm_compute; reflexivity|exact send_3].
  apply (link_send _ _ _ _ _ _ 1 2 (frame 2) true world1 world2 [frame 1]); [|apply frame_small|apply demo_budget; vm_compute; reflexivity|exact send_2].
  apply (link_send _ _ _ _ _ _ 1 2 (frame 1) true world0 world1 []); [|apply frame_small|apply demo_budget; vm_compute; reflexivity|exact send_1].
  destruct devices_fresh as [HA HB]. apply (link_start _ _ _ _ _ _ 7 1 device_a 2 device_b); [done..|vm_compute; reflexivity].
Qed.

Lemma link_in_order_witness : exists dn flying queued, [frame 1; frame 2; frame 3] = dn ++ flying ++ queued /\ length queued = 2%nat.
Proof.
  destruct (link_in_order zeros NsTime.NS (10 ^ 9) link_smax link_D link_delay 1 2 world4 [frame 1; frame 2; frame 3] [] link_bounds link_demo_reach) as (da&db&dn&flying&queued&Ea&Eb&E1&E2&E3&E4&_).
  exists dn, flying, queued. split; [exact E1|]. rewrite E4. vm_compute in Ea. injection Ea as <-. reflexivity.
Defined.
Lemma link_never_fails_witness : exists w', run_event zeros NsTime.NS world4 = Some w'.
Proof.
  destruct (link_never_fails zeros NsTime.NS (10 ^ 9) link_smax link_D link_delay 1 2 world4 [frame 1; frame 2; frame 3] [] (frame 5) link_bounds link_demo_reach) as [Hrun _].
  apply Hrun. vm_compute. discriminate.
Defined.
Lemma link_drains_witness : exists w' da db, run zeros NsTime.NS 6 world4 = Some w' /\ devices w' !! 1 = Some da /\ devices w' !! 2 = Some db /\ taken (rx_log db) = wire_of <$> [frame 1; frame 2; frame 3].
Proof.
  destruct (link_drains zeros NsTime.NS (10 ^ 9) link_smax link_D link_delay 1 2 world4 [frame 1; frame 2; frame 3] [] link_bounds link_demo_reach) as (w'&da&db&E&_&Ea&Eb&Et&_).
  exists w', da, db. split; [exact E|]. split; [exact Ea|]. split; [exact Eb|exact Et].
Defined.
(** What the receiver saw. *)
Lemma receiver_log : match run zeros NsTime.NS 6 world4 with Some w => rx_log <$> devices w !! 2 | None => None end =
  Some [RxCallback [1; 1; 1] 0x800 170; PhyRxDrop (wire 0x800 [2; 2; 2]); RxCallback [3; 3; 3] 0x800 170].
Proof. vm_compute. reflexivity. Qed.
(** The link of a device is up as soon as the device is attached, even if the other end
    of the channel is not: sending then aborts in the channel. *)
Lemma half_attached_aborts : match Attach 1 no_world with Some w => (m_linkUp <$> devices w !! 1, send 1 w) | None => (None, None) end = (Some true, None).
Proof. vm_compute. reflexivity. Qed.

End LinkDemo.
