(* ===== verification/QueueDisc.v ===== *)
(** * Queue discs (src/traffic-control/model/queue-disc.cc)

    The base class of queue discs: its statistics, the callbacks through which
    internal queues report to it, the packet held back by a peek or because the
    device is stopped, and the loop that hands packets to the device. What a queue
    disc does with its queues is an interface ([Discipline]) that the base class
    calls.

    Items are shared: their time stamp, their DS field, whether their header was
    added and whether their priority tag was removed are kept in a store that all
    holders of the item see. *)

From stdpp Require Import strings.
From S2P Require Import Prelude Queue.

Module QueueDisc.
Import Queue.
Open Scope Z_scope.

(** ** Statistics *)

Record Stats := mkStats {
  nTotalReceivedPackets : Z;
  nTotalReceivedBytes : Z;
  nTotalSentPackets : Z;
  nTotalSentBytes : Z;
  nTotalEnqueuedPackets : Z;
  nTotalEnqueuedBytes : Z;
  nTotalDequeuedPackets : Z;
  nTotalDequeuedBytes : Z;
  nTotalDroppedPackets : Z;
  nTotalDroppedPacketsBeforeEnqueue : Z;
  nDroppedPacketsBeforeEnqueue : gmap string Z;
  nTotalDroppedPacketsAfterDequeue : Z;
  nDroppedPacketsAfterDequeue : gmap string Z;
  nTotalDroppedBytes : Z;
  nTotalDroppedBytesBeforeEnqueue : Z;
  nDroppedBytesBeforeEnqueue : gmap string Z;
  nTotalDroppedBytesAfterDequeue : Z;
  nDroppedBytesAfterDequeue : gmap string Z;
  nTotalRequeuedPackets : Z;
  nTotalRequeuedBytes : Z;
  nTotalMarkedPackets : Z;
  nMarkedPackets : gmap string Z;
  nTotalMarkedBytes : Z;
  nMarkedBytes : gmap string Z
}.
Definition Stats_new : Stats := mkStats 0 0 0 0 0 0 0 0 0 0 ∅ 0 ∅ 0 0 ∅ 0 ∅ 0 0 0 ∅ 0 ∅.
(** The entry of a reason is incremented, or created. *)
Definition bump (w : Z -> Z) (reason : string) (n : Z) (m : gmap string Z) : gmap string Z :=
  match m !! reason with Some v => <[reason := w (v + n)]> m | None => <[reason := n]> m end.
Definition stats_received (item : Item) (s : Stats) : Stats :=
  mkStats (u32 (nTotalReceivedPackets s + 1)) (u64 (nTotalReceivedBytes s + GetSize item)) (nTotalSentPackets s) (nTotalSentBytes s)
    (nTotalEnqueuedPackets s) (nTotalEnqueuedBytes s) (nTotalDequeuedPackets s) (nTotalDequeuedBytes s) (nTotalDroppedPackets s)
    (nTotalDroppedPacketsBeforeEnqueue s) (nDroppedPacketsBeforeEnqueue s) (nTotalDroppedPacketsAfterDequeue s) (nDroppedPacketsAfterDequeue s)
    (nTotalDroppedBytes s) (nTotalDroppedBytesBeforeEnqueue s) (nDroppedBytesBeforeEnqueue s) (nTotalDroppedBytesAfterDequeue s)
    (nDroppedBytesAfterDequeue s) (nTotalRequeuedPackets s) (nTotalRequeuedBytes s) (nTotalMarkedPackets s) (nMarkedPackets s) (nTotalMarkedBytes s)
    (nMarkedBytes s).
Definition stats_enqueued (item : Item) (s : Stats) : Stats :=
  mkStats (nTotalReceivedPackets s) (nTotalReceivedBytes s) (nTotalSentPackets s) (nTotalSentBytes s) (u32 (nTotalEnqueuedPackets s + 1))
    (u64 (nTotalEnqueuedBytes s + GetSize item)) (nTotalDequeuedPackets s) (nTotalDequeuedBytes s) (nTotalDroppedPackets s)
    (nTotalDroppedPacketsBeforeEnqueue s) (nDroppedPacketsBeforeEnqueue s) (nTotalDroppedPacketsAfterDequeue s) (nDroppedPacketsAfterDequeue s)
    (nTotalDroppedBytes s) (nTotalDroppedBytesBeforeEnqueue s) (nDroppedBytesBeforeEnqueue s) (nTotalDroppedBytesAfterDequeue s)
    (nDroppedBytesAfterDequeue s) (nTotalRequeuedPackets s) (nTotalRequeuedBytes s) (nTotalMarkedPackets s) (nMarkedPackets s) (nTotalMarkedBytes s)
    (nMarkedBytes s).
Definition stats_dequeued (item : Item) (s : Stats) : Stats :=
  mkStats (nTotalReceivedPackets s) (nTotalReceivedBytes s) (nTotalSentPackets s) (nTotalSentBytes s) (nTotalEnqueuedPackets s) (nTotalEnqueuedBytes s)
    (u32 (nTotalDequeuedPackets s + 1)) (u64 (nTotalDequeuedBytes s + GetSize item)) (nTotalDroppedPackets s) (nTotalDroppedPacketsBeforeEnqueue s)
    (nDroppedPacketsBeforeEnqueue s) (nTotalDroppedPacketsAfterDequeue s) (nDroppedPacketsAfterDequeue s) (nTotalDroppedBytes s)
    (nTotalDroppedBytesBeforeEnqueue s) (nDroppedBytesBeforeEnqueue s) (nTotalDroppedBytesAfterDequeue s) (nDroppedBytesAfterDequeue s)
    (nTotalRequeuedPackets s) (nTotalRequeuedBytes s) (nTotalMarkedPackets s) (nMarkedPackets s) (nTotalMarkedBytes s) (nMarkedBytes s).
Definition stats_requeued (item : Item) (s : Stats) : Stats :=
  mkStats (nTotalReceivedPackets s) (nTotalReceivedBytes s) (nTotalSentPackets s) (nTotalSentBytes s) (nTotalEnqueuedPackets s) (nTotalEnqueuedBytes s)
    (nTotalDequeuedPackets s) (nTotalDequeuedBytes s) (nTotalDroppedPackets s) (nTotalDroppedPacketsBeforeEnqueue s) (nDroppedPacketsBeforeEnqueue s)
    (nTotalDroppedPacketsAfterDequeue s) (nDroppedPacketsAfterDequeue s) (nTotalDroppedBytes s) (nTotalDroppedBytesBeforeEnqueue s)
    (nDroppedBytesBeforeEnqueue s) (nTotalDroppedBytesAfterDequeue s) (nDroppedBytesAfterDequeue s) (u32 (nTotalRequeuedPackets s + 1))
    (u64 (nTotalRequeuedBytes s + GetSize item)) (nTotalMarkedPackets s) (nMarkedPackets s) (nTotalMarkedBytes s) (nMarkedBytes s).
Definition stats_dropped_before (item : Item) (reason : string) (s : Stats) : Stats :=
  mkStats (nTotalReceivedPackets s) (nTotalReceivedBytes s) (nTotalSentPackets s) (nTotalSentBytes s) (nTotalEnqueuedPackets s) (nTotalEnqueuedBytes s)
    (nTotalDequeuedPackets s) (nTotalDequeuedBytes s) (u32 (nTotalDroppedPackets s + 1)) (u32 (nTotalDroppedPacketsBeforeEnqueue s + 1))
    (bump u32 reason 1 (nDroppedPacketsBeforeEnqueue s)) (nTotalDroppedPacketsAfterDequeue s) (nDroppedPacketsAfterDequeue s)
    (u64 (nTotalDroppedBytes s + GetSize item)) (u64 (nTotalDroppedBytesBeforeEnqueue s + GetSize item))
    (bump u64 reason (GetSize item) (nDroppedBytesBeforeEnqueue s)) (nTotalDroppedBytesAfterDequeue s) (nDroppedBytesAfterDequeue s)
    (nTotalRequeuedPackets s) (nTotalRequeuedBytes s) (nTotalMarkedPackets s) (nMarkedPackets s) (nTotalMarkedBytes s) (nMarkedBytes s).
Definition stats_dropped_after (item : Item) (reason : string) (s : Stats) : Stats :=
  mkStats (nTotalReceivedPackets s) (nTotalReceivedBytes s) (nTotalSentPackets s) (nTotalSentBytes s) (nTotalEnqueuedPackets s) (nTotalEnqueuedBytes s)
    (nTotalDequeuedPackets s) (nTotalDequeuedBytes s) (u32 (nTotalDroppedPackets s + 1)) (nTotalDroppedPacketsBeforeEnqueue s)
    (nDroppedPacketsBeforeEnqueue s) (u32 (nTotalDroppedPacketsAfterDequeue s + 1)) (bump u32 reason 1 (nDroppedPacketsAfterDequeue s))
    (u64 (nTotalDroppedBytes s + GetSize item)) (nTotalDroppedBytesBeforeEnqueue s) (nDroppedBytesBeforeEnqueue s)
    (u64 (nTotalDroppedBytesAfterDequeue s + GetSize item)) (bump u64 reason (GetSize item) (nDroppedBytesAfterDequeue s)) (nTotalRequeuedPackets s)
    (nTotalRequeuedBytes s) (nTotalMarkedPackets s) (nMarkedPackets s) (nTotalMarkedBytes s) (nMarkedBytes s).
Definition stats_marked (item : Item) (reason : string) (s : Stats) : Stats :=
  mkStats (nTotalReceivedPackets s) (nTotalReceivedBytes s) (nTotalSentPackets s) (nTotalSentBytes s) (nTotalEnqueuedPackets s) (nTotalEnqueuedBytes s)
    (nTotalDequeuedPackets s) (nTotalDequeuedBytes s) (nTotalDroppedPackets s) (nTotalDroppedPacketsBeforeEnqueue s) (nDroppedPacketsBeforeEnqueue s)
    (nTotalDroppedPacketsAfterDequeue s) (nDroppedPacketsAfterDequeue s) (nTotalDroppedBytes s) (nTotalDroppedBytesBeforeEnqueue s)
    (nDroppedBytesBeforeEnqueue s) (nTotalDroppedBytesAfterDequeue s) (nDroppedBytesAfterDequeue s) (nTotalRequeuedPackets s) (nTotalRequeuedBytes s)
    (u32 (nTotalMarkedPackets s + 1)) (bump u32 reason 1 (nMarkedPackets s)) (u32 (nTotalMarkedBytes s + GetSize item))
    (bump u64 reason (GetSize item) (nMarkedBytes s)).
Definition stats_sent (packets bytes : Z) (s : Stats) : Stats :=
  mkStats (nTotalReceivedPackets s) (nTotalReceivedBytes s) (packets) (bytes) (nTotalEnqueuedPackets s) (nTotalEnqueuedBytes s)
    (nTotalDequeuedPackets s) (nTotalDequeuedBytes s) (nTotalDroppedPackets s) (nTotalDroppedPacketsBeforeEnqueue s) (nDroppedPacketsBeforeEnqueue s)
    (nTotalDroppedPacketsAfterDequeue s) (nDroppedPacketsAfterDequeue s) (nTotalDroppedBytes s) (nTotalDroppedBytesBeforeEnqueue s)
    (nDroppedBytesBeforeEnqueue s) (nTotalDroppedBytesAfterDequeue s) (nDroppedBytesAfterDequeue s) (nTotalRequeuedPackets s) (nTotalRequeuedBytes s)
    (nTotalMarkedPackets s) (nMarkedPackets s) (nTotalMarkedBytes s) (nMarkedBytes s).
Definition reason_count (m : gmap string Z) (reason : string) : Z := default 0 (m !! reason).
Definition GetNDroppedPackets (reason : string) (s : Stats) : Z :=
  u32 (reason_count (nDroppedPacketsBeforeEnqueue s) reason + reason_count (nDroppedPacketsAfterDequeue s) reason).
Definition GetNDroppedBytes (reason : string) (s : Stats) : Z :=
  u64 (reason_count (nDroppedBytesBeforeEnqueue s) reason + reason_count (nDroppedBytesAfterDequeue s) reason).
Definition GetNMarkedPackets (reason : string) (s : Stats) : Z := reason_count (nMarkedPackets s) reason.
Definition GetNMarkedBytes (reason : string) (s : Stats) : Z := reason_count (nMarkedBytes s) reason.

Definition INTERNAL_QUEUE_DROP : string := "Dropped by internal queue".

(** ** State *)

(** The parts of items that change, by item. *)
Record Items := mkItems { h_tstamp : gmap Z Z; h_tos : gmap Z Z; h_headerAdded : gset Z; h_untagged : gset Z }.
Definition GetTimeStamp (item : Item) (h : Items) : Z := default 0 (h_tstamp h !! uid item).
Definition SetTimeStamp (item : Item) (t : Z) (h : Items) : Items := mkItems (<[uid item := t]> (h_tstamp h)) (h_tos h) (h_headerAdded h) (h_untagged h).
Definition GetTos (item : Item) (h : Items) : Z := default 0 (h_tos h !! uid item).
(** The priority tag of the packet, until it is removed. *)
Definition PeekPriorityTag (item : Item) (h : Items) : option Z := if decide (uid item ∈ h_untagged h) then None else priorityTag item.
Definition RemovePriorityTag (item : Item) (h : Items) : Items := mkItems (h_tstamp h) (h_tos h) (h_headerAdded h) ({[uid item]} ∪ h_untagged h).
(** Adding a header twice fails an assertion. *)
Definition AddHeader (item : Item) (h : Items) : option Items :=
  assert* bool_decide (uid item ∉ h_headerAdded h) in
  Some (mkItems (h_tstamp h) (h_tos h) ({[uid item]} ∪ h_headerAdded h) (h_untagged h)).
(** [Ipv4QueueDiscItem::Mark]: the codepoint becomes CE unless it is Not-ECT or the
    header is already part of the packet. *)
Definition MarkItem (item : Item) (h : Items) : bool * Items :=
  if bool_decide (uid item ∉ h_headerAdded h) && negb (Z.land (GetTos item h) 3 =? 0)
  then (true, mkItems (h_tstamp h) (<[uid item := Z.lor (Z.land (GetTos item h) 0xfc) 3]> (h_tos h)) (h_headerAdded h) (h_untagged h))
  else (false, h).

(** The events of the trace sources and the packets sent. *)
Inductive devent :=
  | DEnqueue (i : Item) | DDequeue (i : Item) | DRequeue (i : Item)
  | DDropBeforeEnqueue (i : Item) (reason : string) | DDropAfterDequeue (i : Item) (reason : string)
  | DMark (i : Item) (reason : string) | DSojourn (t : Z) | DSend (i : Item).

Inductive QueueDiscSizePolicy := SINGLE_INTERNAL_QUEUE | SINGLE_CHILD_QUEUE_DISC | MULTIPLE_QUEUES | NO_LIMITS.

(** [m_devQueueIface] tells, for each transmission queue of the device, whether it
    is stopped. *)
Record QueueDisc := mkDisc {
  m_queues : list Queue;
  m_nPackets : Z;
  m_nBytes : Z;
  m_stats : Stats;
  m_maxSize : QueueSize;
  m_devQueueIface : option (list bool);
  m_quota : Z;
  m_requeued : option Item;
  m_running : bool;
  m_peeked : bool;
  m_sizePolicy : QueueDiscSizePolicy;
  m_prohibitChangeMode : bool;
  d_log : list devent
}.
Definition set_queues (x : list Queue) (d : QueueDisc) : QueueDisc :=
  mkDisc (x) (m_nPackets d) (m_nBytes d) (m_stats d) (m_maxSize d) (m_devQueueIface d) (m_quota d) (m_requeued d) (m_running d) (m_peeked d) (m_sizePolicy d) (m_prohibitChangeMode d) (d_log d).
Definition set_counts (p b : Z) (s : Stats) (d : QueueDisc) : QueueDisc :=
  mkDisc (m_queues d) (p) (b) (s) (m_maxSize d) (m_devQueueIface d) (m_quota d) (m_requeued d) (m_running d) (m_peeked d) (m_sizePolicy d) (m_prohibitChangeMode d) (d_log d).
Definition set_stats (s : Stats) (d : QueueDisc) : QueueDisc :=
  mkDisc (m_queues d) (m_nPackets d) (m_nBytes d) (s) (m_maxSize d) (m_devQueueIface d) (m_quota d) (m_requeued d) (m_running d) (m_peeked d) (m_sizePolicy d) (m_prohibitChangeMode d) (d_log d).
Definition set_maxSize (x : QueueSize) (d : QueueDisc) : QueueDisc :=
  mkDisc (m_queues d) (m_nPackets d) (m_nBytes d) (m_stats d) (x) (m_devQueueIface d) (m_quota d) (m_requeued d) (m_running d) (m_peeked d) (m_sizePolicy d) (m_prohibitChangeMode d) (d_log d).
Definition set_device (x : option (list bool)) (d : QueueDisc) : QueueDisc :=
  mkDisc (m_queues d) (m_nPackets d) (m_nBytes d) (m_stats d) (m_maxSize d) (x) (m_quota d) (m_requeued d) (m_running d) (m_peeked d) (m_sizePolicy d) (m_prohibitChangeMode d) (d_log d).
Definition set_requeued (x : option Item) (d : QueueDisc) : QueueDisc :=
  mkDisc (m_queues d) (m_nPackets d) (m_nBytes d) (m_stats d) (m_maxSize d) (m_devQueueIface d) (m_quota d) (x) (m_running d) (m_peeked d) (m_sizePolicy d) (m_prohibitChangeMode d) (d_log d).
Definition set_running (x : bool) (d : QueueDisc) : QueueDisc :=
  mkDisc (m_queues d) (m_nPackets d) (m_nBytes d) (m_stats d) (m_maxSize d) (m_devQueueIface d) (m_quota d) (m_requeued d) (x) (m_peeked d) (m_sizePolicy d) (m_prohibitChangeMode d) (d_log d).
Definition set_peeked (x : bool) (d : QueueDisc) : QueueDisc :=
  mkDisc (m_queues d) (m_nPackets d) (m_nBytes d) (m_stats d) (m_maxSize d) (m_devQueueIface d) (m_quota d) (m_requeued d) (m_running d) (x) (m_sizePolicy d) (m_prohibitChangeMode d) (d_log d).
Definition SetQuota (quota : Z) (d : QueueDisc) : QueueDisc :=
  mkDisc (m_queues d) (m_nPackets d) (m_nBytes d) (m_stats d) (m_maxSize d) (m_devQueueIface d) quota (m_requeued d) (m_running d) (m_peeked d) (m_sizePolicy d) (m_prohibitChangeMode d) (d_log d).
Definition trace (e : devent) (d : QueueDisc) : QueueDisc :=
  mkDisc (m_queues d) (m_nPackets d) (m_nBytes d) (m_stats d) (m_maxSize d) (m_devQueueIface d) (m_quota d) (m_requeued d) (m_running d) (m_peeked d) (m_sizePolicy d) (m_prohibitChangeMode d) (d_log d ++ [e]).

(** The queue disc with the store of items and what its class adds. *)
Record Disc (T : Type) := mkD { qd : QueueDisc; items : Items; spec : T }.
Arguments mkD {T}.
Arguments qd {T}.
Arguments items {T}.
Arguments spec {T}.
Definition on_qd {T} (f : QueueDisc -> QueueDisc) (d : Disc T) : Disc T := mkD (f (qd d)) (items d) (spec d).
Definition set_spec {T} (x : T) (d : Disc T) : Disc T := mkD (qd d) (items d) x.

Definition DEFAULT_QUOTA : Z := 64.
Definition QueueDisc_new (policy : QueueDiscSizePolicy) : QueueDisc :=
  mkDisc [] 0 0 Stats_new (mkSize PACKETS 1) None DEFAULT_QUOTA None false false policy false [].
Definition QueueDisc_new_unit (policy : QueueDiscSizePolicy) (unit : QueueSizeUnit) : QueueDisc :=
  mkDisc [] 0 0 Stats_new (mkSize unit 0) None DEFAULT_QUOTA None false false policy true [].
Definition AddInternalQueue (q : Queue) (d : QueueDisc) : QueueDisc := set_queues (m_queues d ++ [q]) d.

(** ** Sizes *)

(** A queue disc without limits aborts; without internal queues and classes the
    first two policies fall through to the last. *)
Definition GetMaxSize (d : QueueDisc) : option QueueSize :=
  match m_sizePolicy d with
  | NO_LIMITS => None
  | SINGLE_INTERNAL_QUEUE => match m_queues d with q :: _ => Some (Queue.GetMaxSize q) | [] => Some (m_maxSize d) end
  | SINGLE_CHILD_QUEUE_DISC | MULTIPLE_QUEUES => Some (m_maxSize d)
  end.
Definition SetMaxSize (size : QueueSize) (d : QueueDisc) : option (bool * QueueDisc) :=
  if qs_value size =? 0 then Some (false, d) else
  if m_prohibitChangeMode d && negb (bool_decide (qs_unit size = qs_unit (m_maxSize d))) then Some (false, d) else
  match m_sizePolicy d with
  | NO_LIMITS => None
  | SINGLE_INTERNAL_QUEUE =>
      match m_queues d with
      | q :: qs => let* q' := Queue.SetMaxSize size q in Some (true, set_maxSize size (set_queues (q' :: qs) d))
      | [] => Some (true, set_maxSize size d)
      end
  | SINGLE_CHILD_QUEUE_DISC | MULTIPLE_QUEUES => Some (true, set_maxSize size d)
  end.
Definition GetCurrentSize (d : QueueDisc) : option QueueSize :=
  let* m := GetMaxSize d in
  Some (match qs_unit m with PACKETS => mkSize PACKETS (m_nPackets d) | BYTES => mkSize BYTES (m_nBytes d) end).

(** ** Reports from the internal queues *)

Section Ops.
Context {T : Type} (now : Z).

Definition PacketEnqueued (item : Item) (d : Disc T) : Disc T :=
  on_qd (fun q => trace (DEnqueue item) (set_counts (u32 (m_nPackets q + 1)) (u32 (m_nBytes q + GetSize item)) (stats_enqueued item (m_stats q)) q)) d.
Definition count_dequeued (item : Item) (d : Disc T) : Disc T :=
  on_qd (fun q => trace (DDequeue item) (trace (DSojourn (now - GetTimeStamp item (items d)))
    (set_counts (u32 (m_nPackets q - 1)) (u32 (m_nBytes q - GetSize item)) (stats_dequeued item (m_stats q)) q))) d.
Definition PacketDequeued (item : Item) (d : Disc T) : Disc T := if m_peeked (qd d) then d else count_dequeued item d.
Definition DropBeforeEnqueue (item : Item) (reason : string) (d : Disc T) : Disc T :=
  on_qd (fun q => trace (DDropBeforeEnqueue item reason) (set_stats (stats_dropped_before item reason (m_stats q)) q)) d.
(** Within a peek the packet is counted as dequeued first. *)
Definition DropAfterDequeue (item : Item) (reason : string) (d : Disc T) : Disc T :=
  let d1 := on_qd (fun q => set_stats (stats_dropped_after item reason (m_stats q)) q) d in
  let d2 := if m_peeked (qd d1) then on_qd (set_peeked true) (PacketDequeued item (on_qd (set_peeked false) d1)) else d1 in
  on_qd (trace (DDropAfterDequeue item reason)) d2.
Definition Mark (item : Item) (reason : string) (d : Disc T) : bool * Disc T :=
  let '(retval, h) := MarkItem item (items d) in
  if retval then (true, mkD (trace (DMark item reason) (set_stats (stats_marked item reason (m_stats (qd d))) (qd d))) h (spec d))
  else (false, d).

(** What the queue disc does with an event of an internal queue. *)
Definition on_queue_event (d : Disc T) (e : qevent) : Disc T :=
  match e with
  | TraceEnqueue i => PacketEnqueued i d
  | TraceDequeue i => PacketDequeued i d
  | TraceDropBeforeEnqueue i => DropBeforeEnqueue i INTERNAL_QUEUE_DROP d
  | TraceDropAfterDequeue i => DropAfterDequeue i INTERNAL_QUEUE_DROP d
  end.
(** A call on internal queue [k]: the queue disc is told of the events as they occur. *)
Definition call_queue {X} (k : nat) (f : Queue -> option (X * Queue)) (d : Disc T) : option (X * Disc T) :=
  let* q := m_queues (qd d) !! k in
  let* (x, q') := f q in
  let d' := on_qd (fun b => set_queues (<[k := q']> (m_queues b)) b) d in
  Some (x, fold_left on_queue_event (drop (length (q_log q)) (q_log q')) d').
End Ops.

(** ** What a class of queue discs provides *)

Class Discipline (T : Type) := {
  DoEnqueue : Z -> Item -> Disc T -> option (bool * Disc T);
  DoDequeue : Z -> Disc T -> option (option Item * Disc T);
  (** the class's own [DoPeek], if it has one; it changes nothing *)
  DoPeek_override : option (Disc T -> option (option Item))
}.

Section Base.
Context {T : Type} `{Discipline T}.

Definition Enqueue (now : Z) (item : Item) (d : Disc T) : option (bool * Disc T) :=
  let* (retval, d1) := DoEnqueue now item (on_qd (fun q => set_stats (stats_received item (m_stats q)) q) d) in
  let d2 := if retval then mkD (qd d1) (SetTimeStamp item now (items d1)) (spec d1) else d1 in
  let s := m_stats (qd d2) in
  assert* nTotalReceivedPackets s =? u32 (nTotalDroppedPacketsBeforeEnqueue s + nTotalEnqueuedPackets s) in
  assert* nTotalReceivedBytes s =? u64 (nTotalDroppedBytesBeforeEnqueue s + nTotalEnqueuedBytes s) in
  Some (retval, d2).

(** Giving back the packet held since a peek or a failed transmission. *)
Definition release (now : Z) (item : Item) (d : Disc T) : Disc T :=
  let d1 := on_qd (set_requeued None) d in
  if m_peeked (qd d1) then PacketDequeued now item (on_qd (set_peeked false) d1) else d1.
Definition Dequeue (now : Z) (d : Disc T) : option (option Item * Disc T) :=
  let* (item, d1) := match m_requeued (qd d) with
    | Some i => Some (Some i, release now i d)
    | None => DoDequeue now d
    end in
  let s := m_stats (qd d1) in
  assert* m_nPackets (qd d1) =? u32 (nTotalEnqueuedPackets s - nTotalDequeuedPackets s) in
  assert* m_nBytes (qd d1) =? u64 (nTotalEnqueuedBytes s - nTotalDequeuedBytes s) in
  Some (item, d1).

(** [QueueDisc::DoPeek], which queue discs may override. *)
Definition DoPeek (now : Z) (d : Disc T) : option (option Item * Disc T) :=
  match m_requeued (qd d) with
  | Some i => Some (Some i, d)
  | None =>
      let* (item, d1) := Dequeue now (on_qd (set_peeked true) d) in
      let d2 := on_qd (set_requeued item) d1 in
      Some (item, match item with Some _ => d2 | None => on_qd (set_peeked false) d2 end)
  end.

Definition Peek (now : Z) (d : Disc T) : option (option Item * Disc T) :=
  match DoPeek_override with
  | Some peek => let* item := peek d in Some (item, d)
  | None => DoPeek now d
  end.

Definition GetStats (d : Disc T) : option (Stats * Disc T) :=
  let s := m_stats (qd d) in
  assert* nTotalDroppedPackets s =? u32 (nTotalDroppedPacketsBeforeEnqueue s + nTotalDroppedPacketsAfterDequeue s) in
  assert* nTotalDroppedBytes s =? u64 (nTotalDroppedBytesBeforeEnqueue s + nTotalDroppedBytesAfterDequeue s) in
  let s' := stats_sent
    (u32 (nTotalDequeuedPackets s - (if m_requeued (qd d) then 1 else 0) - nTotalDroppedPacketsAfterDequeue s))
    (u64 (nTotalDequeuedBytes s - match m_requeued (qd d) with Some i => GetSize i | None => 0 end - nTotalDroppedBytesAfterDequeue s)) s in
  Some (s', on_qd (set_stats s') d).

(** ** Sending to the device *)

(** Whether transmission queue [i] is stopped; asking for one that is not there
    fails an assertion. Without a queue interface nothing is ever stopped. *)
Definition IsStopped (i : Z) (d : Disc T) : option bool :=
  match m_devQueueIface (qd d) with
  | None => Some false
  | Some qs => qs !! Z.to_nat i
  end.
Definition Requeue (item : Item) (d : Disc T) : Disc T :=
  on_qd (fun q => trace (DRequeue item) (set_stats (stats_requeued item (m_stats q)) (set_requeued (Some item) q))) d.

Definition DequeuePacket (now : Z) (d : Disc T) : option (option Item * Disc T) :=
  match m_requeued (qd d) with
  | Some i =>
      let* stopped := IsStopped (GetTxQueueIndex i) d in
      if stopped then Some (None, d) else Some (Some i, release now i d)
  | None =>
      let* blocked := match m_devQueueIface (qd d) with
        | None => Some false
        | Some qs => if 1 <? Z.of_nat (length qs) then Some false else qs !! 0%nat
        end in
      if blocked then Some (None, d) else
      let* (item, d1) := Dequeue now d in
      match item with
      | Some i => let* h := AddHeader i (items d1) in Some (Some i, mkD (qd d1) h (spec d1))
      | None => Some (None, d1)
      end
  end.

(** The device takes the packet, and may stop its queues: [send] gives their state
    afterwards. *)
Context (send : Item -> list bool -> list bool).
Definition Transmit (item : Item) (d : Disc T) : option (bool * Disc T) :=
  let* stopped := IsStopped (GetTxQueueIndex item) d in
  if stopped then Some (false, Requeue item d) else
  let h := match m_devQueueIface (qd d) with
    | None => RemovePriorityTag item (items d)
    | Some qs => if (length qs =? 1)%nat then RemovePriorityTag item (items d) else items d
    end in
  let d1 := mkD (trace (DSend item) (set_device (send item <$> m_devQueueIface (qd d)) (qd d))) h (spec d) in
  if m_nPackets (qd d1) =? 0 then Some (false, d1) else
  let* stopped' := IsStopped (GetTxQueueIndex item) d1 in
  Some (negb stopped', d1).
Definition Restart (now : Z) (d : Disc T) : option (bool * Disc T) :=
  let* (item, d1) := DequeuePacket now d in
  match item with
  | None => Some (false, d1)
  | Some i => Transmit i d1
  end.
(** [None] when [fuel] runs out. *)
Fixpoint run_loop (fuel : nat) (now quota : Z) (d : Disc T) : option (Disc T) :=
  match fuel with
  | O => None
  | S fuel =>
      let* (again, d1) := Restart now d in
      if again then
        let quota := u32 (quota - 1) in
        if quota <=? 0 then Some d1 else run_loop fuel now quota d1
      else Some d1
  end.
Definition RunBegin (d : Disc T) : bool * Disc T := if m_running (qd d) then (false, d) else (true, on_qd (set_running true) d).
Definition RunEnd (d : Disc T) : Disc T := on_qd (set_running false) d.
Definition Run (fuel : nat) (now : Z) (d : Disc T) : option (Disc T) :=
  let '(begun, d1) := RunBegin d in
  if begun then let* d2 := run_loop fuel now (m_quota (qd d1)) d1 in Some (RunEnd d2) else Some d1.
End Base.

End QueueDisc.
