(* ===== verification/Disciplines.v ===== *)
(** * Queue discs with internal queues (src/traffic-control/model)

    [FifoQueueDisc], [PfifoFastQueueDisc] and [CoDelQueueDisc]: their configuration,
    and how they enqueue, dequeue and peek. None of them has child queue discs or
    packet filters, so the checks of [CheckConfig] for these are always passed. Times
    are nanoseconds; a null pointer that is followed is an abort. *)

From stdpp Require Import strings.
From S2P Require Import Prelude Queue QueueDisc.

Module Disciplines.
Import Queue QueueDisc.
Open Scope Z_scope.

Definition LIMIT_EXCEEDED_DROP : string := "Queue disc limit exceeded".
(** The comparison [GetCurrentSize () + item > GetMaxSize ()]. *)
Definition over_limit (item : Item) (d : QueueDisc) : option bool :=
  let* cur := QueueDisc.GetCurrentSize d in
  let* max := QueueDisc.GetMaxSize d in
  size_gt (size_plus cur item) max.
(** [n] drop-tail queues of the queue disc's size, when it has none. *)
Definition default_queues (n : nat) (d : QueueDisc) : option QueueDisc :=
  match m_queues d with
  | [] =>
      let* max := QueueDisc.GetMaxSize d in
      let* q := DropTailQueue_new max in
      Some (set_queues (replicate n q) d)
  | _ => Some d
  end.

(** ** FifoQueueDisc *)

Module Fifo.
Inductive FifoQueueDisc := mkFifo.

Definition FifoQueueDisc_new (maxSize : QueueSize) : option QueueDisc :=
  let* (_, d) := QueueDisc.SetMaxSize maxSize (QueueDisc_new SINGLE_INTERNAL_QUEUE) in Some d.
Definition CheckConfig (d : QueueDisc) : option (bool * QueueDisc) :=
  let* d' := default_queues 1 d in
  Some ((length (m_queues d') =? 1)%nat, d').

Definition FifoDoEnqueue (now : Z) (item : Item) (d : Disc FifoQueueDisc) : option (bool * Disc FifoQueueDisc) :=
  let* over := over_limit item (qd d) in
  if over then Some (false, QueueDisc.DropBeforeEnqueue item LIMIT_EXCEEDED_DROP d)
  else call_queue now 0 (Queue.Enqueue item) d.
Definition FifoDoDequeue (now : Z) (d : Disc FifoQueueDisc) : option (option Item * Disc FifoQueueDisc) :=
  let* (item, d') := call_queue now 0 Queue.Dequeue d in
  match item with None => Some (None, d') | Some i => Some (Some i, d') end.
Definition FifoDoPeek (d : Disc FifoQueueDisc) : option (option Item) :=
  let* q := m_queues (qd d) !! 0%nat in
  Queue.Peek q.
#[export] Instance fifo_discipline : Discipline FifoQueueDisc := {| DoEnqueue := FifoDoEnqueue; DoDequeue := FifoDoDequeue; DoPeek_override := Some FifoDoPeek |}.
End Fifo.

(** ** PfifoFastQueueDisc *)

Module PfifoFast.
Inductive PfifoFastQueueDisc := mkPfifoFast.

Definition prio2band : list nat := [1; 2; 2; 2; 1; 2; 0; 0; 1; 1; 1; 1; 1; 1; 1; 1]%nat.

Definition PfifoFastQueueDisc_new (maxSize : QueueSize) : option QueueDisc :=
  let* (_, d) := QueueDisc.SetMaxSize maxSize (QueueDisc_new_unit MULTIPLE_QUEUES PACKETS) in Some d.
(** Whether queue [i] is smaller than the queue disc. *)
Definition smaller (i : nat) (d : QueueDisc) : option bool :=
  let* q := m_queues d !! i in
  let* max := QueueDisc.GetMaxSize d in
  size_lt (Queue.GetMaxSize q) max.
Definition CheckConfig (d : QueueDisc) : option (bool * QueueDisc) :=
  let* d' := default_queues 3 d in
  if negb (length (m_queues d') =? 3)%nat then Some (false, d') else
  if existsb (fun q => negb (bool_decide (qs_unit (Queue.GetMaxSize q) = PACKETS))) (m_queues d') then Some (false, d') else
  let* s0 := smaller 0 d' in
  if s0 then Some (false, d') else
  let* s1 := smaller 1 d' in
  if s1 then Some (false, d') else Some (true, d').

Definition PfifoFastDoEnqueue (now : Z) (item : Item) (d : Disc PfifoFastQueueDisc) : option (bool * Disc PfifoFastQueueDisc) :=
  let* cur := QueueDisc.GetCurrentSize (qd d) in
  let* max := QueueDisc.GetMaxSize (qd d) in
  let* full := size_ge cur max in
  if full then Some (false, QueueDisc.DropBeforeEnqueue item LIMIT_EXCEEDED_DROP d) else
  let priority := match PeekPriorityTag item (items d) with Some p => p | None => 0 end in
  let* band := prio2band !! Z.to_nat (Z.land priority 0x0f) in
  call_queue now band (Queue.Enqueue item) d.
(** The loop over the bands, from band [i] on. *)
Fixpoint dequeue_bands (now : Z) (i n : nat) (d : Disc PfifoFastQueueDisc) : option (option Item * Disc PfifoFastQueueDisc) :=
  match n with
  | O => Some (None, d)
  | S n =>
      let* (item, d') := call_queue now i Queue.Dequeue d in
      match item with
      | Some x => Some (Some x, d')
      | None => dequeue_bands now (S i) n d'
      end
  end.
Definition PfifoFastDoDequeue (now : Z) (d : Disc PfifoFastQueueDisc) : option (option Item * Disc PfifoFastQueueDisc) :=
  dequeue_bands now 0 (length (m_queues (qd d))) d.
Fixpoint peek_bands (qs : list Queue) : option (option Item) :=
  match qs with
  | [] => Some None
  | q :: qs => let* item := Queue.Peek q in match item with Some x => Some (Some x) | None => peek_bands qs end
  end.
Definition PfifoFastDoPeek (d : Disc PfifoFastQueueDisc) : option (option Item) := peek_bands (m_queues (qd d)).
#[export] Instance pfifo_discipline : Discipline PfifoFastQueueDisc :=
  {| DoEnqueue := PfifoFastDoEnqueue; DoDequeue := PfifoFastDoDequeue; DoPeek_override := Some PfifoFastDoPeek |}.
End PfifoFast.

(** ** CoDelQueueDisc *)

Module CoDel.
Definition CODEL_SHIFT : Z := 10.
Definition REC_INV_SQRT_SHIFT : Z := 16.
Definition TARGET_EXCEEDED_DROP : string := "Target exceeded drop".
Definition OVERLIMIT_DROP : string := "Overlimit drop".
Definition TARGET_EXCEEDED_MARK : string := "Target exceeded mark".
Definition CE_THRESHOLD_EXCEEDED_MARK : string := "CE threshold exceeded mark".

Record CoDelQueueDisc := mkCoDel {
  m_useEcn : bool;
  m_useL4s : bool;
  m_minBytes : Z;
  m_interval : Z;
  m_target : Z;
  m_ceThreshold : Z;
  m_count : Z;
  m_lastCount : Z;
  m_dropping : bool;
  m_recInvSqrt : Z;
  m_firstAboveTime : Z;
  m_dropNext : Z
}.
Definition set_dropping (x : bool) (c : CoDelQueueDisc) : CoDelQueueDisc :=
  mkCoDel (m_useEcn c) (m_useL4s c) (m_minBytes c) (m_interval c) (m_target c) (m_ceThreshold c) (m_count c) (m_lastCount c) x (m_recInvSqrt c) (m_firstAboveTime c) (m_dropNext c).
Definition set_firstAbove (x : Z) (c : CoDelQueueDisc) : CoDelQueueDisc :=
  mkCoDel (m_useEcn c) (m_useL4s c) (m_minBytes c) (m_interval c) (m_target c) (m_ceThreshold c) (m_count c) (m_lastCount c) (m_dropping c) (m_recInvSqrt c) x (m_dropNext c).
Definition set_dropNext (x : Z) (c : CoDelQueueDisc) : CoDelQueueDisc :=
  mkCoDel (m_useEcn c) (m_useL4s c) (m_minBytes c) (m_interval c) (m_target c) (m_ceThreshold c) (m_count c) (m_lastCount c) (m_dropping c) (m_recInvSqrt c) (m_firstAboveTime c) x.
Definition set_count (n r : Z) (c : CoDelQueueDisc) : CoDelQueueDisc :=
  mkCoDel (m_useEcn c) (m_useL4s c) (m_minBytes c) (m_interval c) (m_target c) (m_ceThreshold c) n (m_lastCount c) (m_dropping c) r (m_firstAboveTime c) (m_dropNext c).
Definition set_lastCount (x : Z) (c : CoDelQueueDisc) : CoDelQueueDisc :=
  mkCoDel (m_useEcn c) (m_useL4s c) (m_minBytes c) (m_interval c) (m_target c) (m_ceThreshold c) (m_count c) x (m_dropping c) (m_recInvSqrt c) (m_firstAboveTime c) (m_dropNext c).
Definition on_codel (f : CoDelQueueDisc -> CoDelQueueDisc) (d : Disc CoDelQueueDisc) : Disc CoDelQueueDisc := set_spec (f (spec d)) d.

Definition CoDelQueueDisc_new (ecn l4s : bool) (minBytes interval target ceThreshold : Z) : CoDelQueueDisc :=
  mkCoDel ecn l4s minBytes interval target ceThreshold 0 0 false (Z.shiftr UINT32_MAX REC_INV_SQRT_SHIFT) 0 0.
(** Its base class. *)
Definition CoDelBase_new (maxSize : QueueSize) : option QueueDisc :=
  let* (_, d) := QueueDisc.SetMaxSize maxSize (QueueDisc_new SINGLE_INTERNAL_QUEUE) in Some d.
Definition CheckConfig (d : QueueDisc) : option (bool * QueueDisc) :=
  let* d' := default_queues 1 d in
  Some ((length (m_queues d') =? 1)%nat, d').

(** *** The control law, on 32-bit integers *)

Definition ReciprocalDivide (A R : Z) : Z := u32 (Z.shiftr (u64 (A * R)) 32).
Definition NewtonStep (recInvSqrt count : Z) : Z :=
  let invsqrt := u32 (Z.shiftl recInvSqrt REC_INV_SQRT_SHIFT) in
  let invsqrt2 := u32 (Z.shiftr (u64 (invsqrt * invsqrt)) 32) in
  let val := u64 (Z.shiftl 3 32 - u64 (count * invsqrt2)) in
  let val := Z.shiftr val 2 in
  let val := Z.shiftr (u64 (val * invsqrt)) (32 - 2 + 1) in
  u16 (Z.shiftr val REC_INV_SQRT_SHIFT).
Definition ControlLaw (t interval recInvSqrt : Z) : Z := u32 (t + ReciprocalDivide interval (u32 (Z.shiftl recInvSqrt REC_INV_SQRT_SHIFT))).
Definition Time2CoDel (t : Z) : Z := u32 (Z.shiftr t CODEL_SHIFT).
Definition CoDelTimeAfter (a b : Z) : bool := 0 <? a - b.
Definition CoDelTimeAfterEq (a b : Z) : bool := 0 <=? a - b.
Definition CoDelTimeBefore (a b : Z) : bool := a - b <? 0.

(** *** Operations *)

Definition CoDelDoEnqueue (now : Z) (item : Item) (d : Disc CoDelQueueDisc) : option (bool * Disc CoDelQueueDisc) :=
  let* over := over_limit item (qd d) in
  if over then Some (false, QueueDisc.DropBeforeEnqueue item OVERLIMIT_DROP d)
  else call_queue now 0 (Queue.Enqueue item) d.

(** [ns] is the simulation time, [now] the same in CoDel units. *)
Definition OkToDrop (ns now : Z) (item : option Item) (d : Disc CoDelQueueDisc) : option (bool * Disc CoDelQueueDisc) :=
  match item with
  | None => Some (false, on_codel (set_firstAbove 0) d)
  | Some i =>
      let sojournTime := Time2CoDel (ns - GetTimeStamp i (items d)) in
      let* q := m_queues (qd d) !! 0%nat in
      if CoDelTimeBefore sojournTime (Time2CoDel (m_target (spec d))) || (GetNBytes q <? m_minBytes (spec d))
      then Some (false, on_codel (set_firstAbove 0) d)
      else if m_firstAboveTime (spec d) =? 0
      then Some (false, on_codel (set_firstAbove (u32 (now + Time2CoDel (m_interval (spec d))))) d)
      else Some (CoDelTimeAfter now (m_firstAboveTime (spec d)), d)
  end.
(** [useEcn && Mark (item, reason)] *)
Definition MarkIf (use : bool) (i : Item) (reason : string) (d : Disc CoDelQueueDisc) : bool * Disc CoDelQueueDisc :=
  if use then Mark i reason d else (false, d).

(** The loop of the dropping state: [None] also when [fuel] runs out; the result
    tells whether the packet was marked. *)
Fixpoint drop_loop (fuel : nat) (ns now : Z) (item : option Item) (d : Disc CoDelQueueDisc) : option (bool * option Item * Disc CoDelQueueDisc) :=
  if m_dropping (spec d) && CoDelTimeAfterEq now (m_dropNext (spec d)) then
    match fuel with
    | O => None
    | S fuel =>
        let count := u32 (m_count (spec d) + 1) in
        let d1 := on_codel (fun c => set_count count (NewtonStep (m_recInvSqrt c) count) c) d in
        let* i := item in
        let '(marked, d2) := MarkIf (m_useEcn (spec d1)) i TARGET_EXCEEDED_MARK d1 in
        if marked
        then Some (true, item, on_codel (fun c => set_dropNext (ControlLaw now (Time2CoDel (m_interval c)) (m_recInvSqrt c)) c) d2)
        else
          let* (next, d3) := call_queue ns 0 Queue.Dequeue (QueueDisc.DropAfterDequeue ns i TARGET_EXCEEDED_DROP d2) in
          let* (ok, d4) := OkToDrop ns now next d3 in
          drop_loop fuel ns now next
            (if ok then on_codel (fun c => set_dropNext (ControlLaw (m_dropNext c) (Time2CoDel (m_interval c)) (m_recInvSqrt c)) c) d4
             else on_codel (set_dropping false) d4)
    end
  else Some (false, item, d).

(** Entering the dropping state. *)
Definition restart_law (now : Z) (c : CoDelQueueDisc) : CoDelQueueDisc :=
  let c0 := set_dropping true c in
  let delta := i32 (u32 (m_count c0 - m_lastCount c0)) in
  let c1 := if (1 <? delta) && CoDelTimeBefore (u32 (now - m_dropNext c0)) (u32 (16 * Time2CoDel (m_interval c0)))
    then set_count (u32 delta) (NewtonStep (m_recInvSqrt c0) (u32 delta)) c0
    else set_count 1 (Z.shiftr UINT32_MAX REC_INV_SQRT_SHIFT) c0 in
  let c2 := set_lastCount (m_count c1) c1 in
  set_dropNext (ControlLaw now (Time2CoDel (m_interval c2)) (m_recInvSqrt c2)) c2.
Definition enter_dropping (ns now : Z) (i : Item) (d : Disc CoDelQueueDisc) : option (bool * option Item * Disc CoDelQueueDisc) :=
  let '(marked, d1) := MarkIf (m_useEcn (spec d)) i TARGET_EXCEEDED_MARK d in
  if marked then Some (true, Some i, on_codel (restart_law now) d1) else
  let* (next, d2) := call_queue ns 0 Queue.Dequeue (QueueDisc.DropAfterDequeue ns i TARGET_EXCEEDED_DROP d1) in
  let* (_, d3) := OkToDrop ns now next d2 in
  Some (false, next, on_codel (restart_law now) d3).

(** The end of [DoDequeue]: it follows [item], null or not. *)
Definition dequeue_end (ns : Z) (marked : bool) (item : option Item) (d : Disc CoDelQueueDisc) : option (option Item * Disc CoDelQueueDisc) :=
  let* i := item in
  let ldelay := Time2CoDel (ns - GetTimeStamp i (items d)) in
  let c := spec d in
  if negb marked && negb (m_useL4s c) && m_useEcn c && CoDelTimeAfter ldelay (Time2CoDel (m_ceThreshold c))
  then Some (item, snd (Mark i CE_THRESHOLD_EXCEEDED_MARK d))
  else Some (item, d).
Definition CoDelDoDequeue (ns : Z) (d : Disc CoDelQueueDisc) : option (option Item * Disc CoDelQueueDisc) :=
  let* (item, d1) := call_queue ns 0 Queue.Dequeue d in
  match item with
  | None => Some (None, on_codel (set_dropping false) d1)
  | Some i =>
      let ldelay := Time2CoDel (ns - GetTimeStamp i (items d1)) in
      let ecn := Z.land (GetTos i (items d1)) 3 in
      if m_useL4s (spec d1) && ((ecn =? 1) || (ecn =? 3)) then
        Some (item, if CoDelTimeAfter ldelay (Time2CoDel (m_ceThreshold (spec d1))) then snd (Mark i CE_THRESHOLD_EXCEEDED_MARK d1) else d1)
      else
        let now := Time2CoDel ns in
        let* (okToDrop, d2) := OkToDrop ns now item d1 in
        if m_dropping (spec d2) then
          if negb okToDrop then dequeue_end ns false item (on_codel (set_dropping false) d2) else
          let* q := m_queues (qd d2) !! 0%nat in
          let* (marked, next, d3) := drop_loop (S (length (m_packets q))) ns now item d2 in
          dequeue_end ns marked next d3
        else if okToDrop then
          let* (marked, next, d3) := enter_dropping ns now i d2 in
          dequeue_end ns marked next d3
        else dequeue_end ns false item d2
  end.
#[export] Instance codel_discipline : Discipline CoDelQueueDisc := {| DoEnqueue := CoDelDoEnqueue; DoDequeue := CoDelDoDequeue; DoPeek_override := None |}.
End CoDel.

#[export] Existing Instances Fifo.fifo_discipline PfifoFast.pfifo_discipline CoDel.codel_discipline.
End Disciplines.
