(* ===== verification/QueueDiscProps.v ===== *)
(** * Correctness of the queue disc base class

    The statistics of a queue disc are the counts of the events it reported. Against
    the contract of a class of queue discs ([DisciplineLaws]): no assertion of the
    base class fails, every packet received is sent, dropped or still held, exactly
    once, and the loop that feeds the device ends. *)

From stdpp Require Import strings.
From S2P Require Import Prelude Queue QueueProps QueueDisc.

Module QueueDiscProps.
Import Queue QueueProps QueueDisc.
Open Scope Z_scope.

(** ** Events *)

#[local] Arguments total : simpl never.
Lemma q_total_one i : total [i] = GetSize i.
Proof. unfold total. cbn. lia. Qed.
Lemma q_total_nil : total [] = 0.
Proof. done. Qed.

Definition denq (l : list devent) : list Item := omap (fun e => match e with DEnqueue i => Some i | _ => None end) l.
Definition ddeq (l : list devent) : list Item := omap (fun e => match e with DDequeue i => Some i | _ => None end) l.
Definition dbef (l : list devent) : list Item := omap (fun e => match e with DDropBeforeEnqueue i _ => Some i | _ => None end) l.
Definition daft (l : list devent) : list Item := omap (fun e => match e with DDropAfterDequeue i _ => Some i | _ => None end) l.
Definition dreq (l : list devent) : list Item := omap (fun e => match e with DRequeue i => Some i | _ => None end) l.
Definition dmark (l : list devent) : list Item := omap (fun e => match e with DMark i _ => Some i | _ => None end) l.
Definition dsend (l : list devent) : list Item := omap (fun e => match e with DSend i => Some i | _ => None end) l.
(** The drops and marks for a reason. *)
Definition dbef_for (r : string) (l : list devent) : list Item := omap (fun e => match e with DDropBeforeEnqueue i r' => if (r =? r')%string then Some i else None | _ => None end) l.
Definition daft_for (r : string) (l : list devent) : list Item := omap (fun e => match e with DDropAfterDequeue i r' => if (r =? r')%string then Some i else None | _ => None end) l.
Definition dmark_for (r : string) (l : list devent) : list Item := omap (fun e => match e with DMark i r' => if (r =? r')%string then Some i else None | _ => None end) l.
Ltac unfold_events := unfold denq, ddeq, dbef, daft, dreq, dmark, dsend, dbef_for, daft_for, dmark_for in *.

(** The number of items and of bytes, at the widths of the counters. *)
Definition counts (p b : Z) (l : list Item) : Prop := p = u32 (Z.of_nat (length l)) /\ b = u64 (total l).
Definition reasons (p b : gmap string Z) (l : string -> list Item) : Prop := forall r, counts (reason_count p r) (reason_count b r) (l r).

(** The statistics, the two gauges and the log agree. *)
Record tally (q : QueueDisc) : Prop := mkTally {
  t_enq : counts (nTotalEnqueuedPackets (m_stats q)) (nTotalEnqueuedBytes (m_stats q)) (denq (d_log q));
  t_deq : counts (nTotalDequeuedPackets (m_stats q)) (nTotalDequeuedBytes (m_stats q)) (ddeq (d_log q));
  t_bef : counts (nTotalDroppedPacketsBeforeEnqueue (m_stats q)) (nTotalDroppedBytesBeforeEnqueue (m_stats q)) (dbef (d_log q));
  t_aft : counts (nTotalDroppedPacketsAfterDequeue (m_stats q)) (nTotalDroppedBytesAfterDequeue (m_stats q)) (daft (d_log q));
  t_drop : counts (nTotalDroppedPackets (m_stats q)) (nTotalDroppedBytes (m_stats q)) (dbef (d_log q) ++ daft (d_log q));
  t_req : counts (nTotalRequeuedPackets (m_stats q)) (nTotalRequeuedBytes (m_stats q)) (dreq (d_log q));
  t_mark : nTotalMarkedPackets (m_stats q) = u32 (Z.of_nat (length (dmark (d_log q)))) /\ nTotalMarkedBytes (m_stats q) = u32 (total (dmark (d_log q)));
  t_bef_for : reasons (nDroppedPacketsBeforeEnqueue (m_stats q)) (nDroppedBytesBeforeEnqueue (m_stats q)) (fun r => dbef_for r (d_log q));
  t_aft_for : reasons (nDroppedPacketsAfterDequeue (m_stats q)) (nDroppedBytesAfterDequeue (m_stats q)) (fun r => daft_for r (d_log q));
  t_mark_for : reasons (nMarkedPackets (m_stats q)) (nMarkedBytes (m_stats q)) (fun r => dmark_for r (d_log q));
  t_gauge : m_nPackets q = u32 (Z.of_nat (length (denq (d_log q))) - Z.of_nat (length (ddeq (d_log q)))) /\
    m_nBytes q = u32 (total (denq (d_log q)) - total (ddeq (d_log q)))
}.

Lemma u64_plus x y : u64 (u64 x + y) = u64 (x + y).
Proof. unfold u64, wrap. apply Zplus_mod_idemp_l. Qed.

Lemma counts_snoc p b l i : counts p b l -> counts (u32 (p + 1)) (u64 (b + GetSize i)) (l ++ [i]).
Proof.
  intros [-> ->]. unfold counts. rewrite u32_plus, u64_plus, q_total_app, q_total_one, length_app. split; [f_equal; cbn; lia|done].
Qed.
Lemma counts_mid p b l1 l2 i : counts p b (l1 ++ l2) -> counts (u32 (p + 1)) (u64 (b + GetSize i)) ((l1 ++ [i]) ++ l2).
Proof.
  intros [-> ->]. unfold counts. rewrite u32_plus, u64_plus, !q_total_app, q_total_one, !length_app. split; f_equal; cbn; lia.
Qed.
Lemma counts_perm p b l l' : l ≡ₚ l' -> counts p b l -> counts p b l'.
Proof.
  intros Hp [-> ->]. split; [by rewrite Hp|]. f_equal. unfold total. induction Hp; cbn; lia.
Qed.
Lemma bump_count w r' n m r : w 0 = 0 -> w n = n -> reason_count (bump w r' n m) r = if (r =? r')%string then w (reason_count m r + n) else reason_count m r.
Proof.
  intros H0 Hn. unfold bump, reason_count. destruct (String.eqb_spec r r') as [->|Hne].
  - destruct (m !! r') eqn:E; rewrite lookup_insert_eq; [done|]. cbn [default]. by rewrite Z.add_0_l, Hn.
  - destruct (m !! r') eqn:E; by rewrite lookup_insert_ne by congruence.
Qed.
Lemma reasons_bump p b l i r' : 0 <= GetSize i < 2 ^ 32 -> reasons p b l ->
  reasons (bump u32 r' 1 p) (bump u64 r' (GetSize i) b) (fun r => l r ++ if (r =? r')%string then [i] else []).
Proof.
  intros Hi H r. specialize (H r). rewrite !bump_count by (try apply u64_small; done || lia).
  destruct (r =? r')%string; [by apply counts_snoc|by rewrite app_nil_r].
Qed.
Lemma reasons_ext p b l l' : (forall r, l r = l' r) -> reasons p b l -> reasons p b l'.
Proof. intros E H r. rewrite <- E. apply H. Qed.

Section Tally.
Context {T : Type}.

(** The lists of an extended log. *)
Ltac tally_tac :=
  intros [H1 H2 H3 H4 H5 H6 H7 H8 H9 H10 [Hg1 Hg2]]; constructor; cbn -[u32 u64 bump]; unfold_events;
  rewrite ?omap_app; cbn -[u32 u64 bump]; rewrite ?app_nil_r; try done;
  try (apply counts_snoc; done); try (rewrite ?app_assoc; apply counts_snoc; done); try (apply counts_mid; done);
  try (eapply reasons_ext; [|by apply reasons_bump]; let x := fresh in intros x; cbn; rewrite omap_app; cbn; by destruct (x =? _)%string);
  try (eapply reasons_ext; [|eassumption]; intros ?; cbn; rewrite !omap_app; cbn; by rewrite !app_nil_r);
  rewrite ?Hg1, ?Hg2; try (destruct H7 as [-> ->]);
  rewrite ?q_total_app, ?q_total_one, ?length_app, ?u32_plus, ?u32_minus; split; f_equal; cbn; lia.

Lemma tally_enqueued item (d : Disc T) : tally (qd d) -> tally (qd (PacketEnqueued item d)).
Proof. tally_tac. Qed.
Lemma tally_dequeued now item (d : Disc T) : tally (qd d) -> tally (qd (count_dequeued now item d)).
Proof. tally_tac. Qed.
Lemma tally_requeue item (d : Disc T) : tally (qd d) -> tally (qd (Requeue item d)).
Proof. tally_tac. Qed.
Lemma tally_before item r (d : Disc T) : 0 <= GetSize item < 2 ^ 32 -> tally (qd d) -> tally (qd (DropBeforeEnqueue item r d)).
Proof. intros Hi. tally_tac. Qed.
Lemma tally_after item r (d : Disc T) : 0 <= GetSize item < 2 ^ 32 -> tally (qd d) ->
  tally (qd (on_qd (trace (DDropAfterDequeue item r)) (on_qd (fun q => set_stats (stats_dropped_after item r (m_stats q)) q) d))).
Proof. intros Hi. tally_tac. Qed.
Lemma tally_mark item r (q : QueueDisc) : 0 <= GetSize item < 2 ^ 32 -> tally q -> tally (trace (DMark item r) (set_stats (stats_marked item r (m_stats q)) q)).
Proof. intros Hi. tally_tac. Qed.
Lemma tally_send item f (q : QueueDisc) : tally q -> tally (trace (DSend item) (set_device f q)).
Proof. tally_tac. Qed.
End Tally.

(** ** What a step does to the base class *)

(** [d'] is [d] after the events [l]: the log grows by them, the statistics follow,
    and nothing else of the base class changes but the queues. *)
Record effect {T} (d d' : Disc T) (l : list devent) : Prop := mkEffect {
  e_log : d_log (qd d') = d_log (qd d) ++ l;
  e_tally : tally (qd d) -> tally (qd d');
  e_max : m_maxSize (qd d') = m_maxSize (qd d);
  e_device : m_devQueueIface (qd d') = m_devQueueIface (qd d);
  e_quota : m_quota (qd d') = m_quota (qd d);
  e_requeued : m_requeued (qd d') = m_requeued (qd d);
  e_running : m_running (qd d') = m_running (qd d);
  e_peeked : m_peeked (qd d') = m_peeked (qd d);
  e_policy : m_sizePolicy (qd d') = m_sizePolicy (qd d);
  e_received : nTotalReceivedPackets (m_stats (qd d')) = nTotalReceivedPackets (m_stats (qd d)) /\
    nTotalReceivedBytes (m_stats (qd d')) = nTotalReceivedBytes (m_stats (qd d));
  e_headers : h_headerAdded (items d') = h_headerAdded (items d)
}.

Section Effects.
Context {T : Type} (now : Z).

Lemma effect_refl (d : Disc T) : effect d d [].
Proof. constructor; try done. by rewrite app_nil_r. Qed.
Lemma effect_trans (d1 d2 d3 : Disc T) l1 l2 : effect d1 d2 l1 -> effect d2 d3 l2 -> effect d1 d3 (l1 ++ l2).
Proof.
  intros [A1 A2 A3 A4 A5 A6 A7 A8 A9 A10 A11] [B1 B2 B3 B4 B5 B6 B7 B8 B9 B10 B11]. constructor; try congruence; try tauto.
  - by rewrite B1, A1, app_assoc.
  - destruct A10, B10. split; congruence.
Qed.
Lemma effect_queues f (d : Disc T) : effect d (on_qd (fun b => set_queues (f b) b) d) [].
Proof. constructor; try done; [by rewrite app_nil_r|by intros []]. Qed.
Lemma effect_spec (x : T) (d : Disc T) : effect d (set_spec x d) [].
Proof. constructor; try done. by rewrite app_nil_r. Qed.

Lemma effect_enqueued i (d : Disc T) : effect d (PacketEnqueued i d) [DEnqueue i].
Proof. constructor; try done. by apply tally_enqueued. Qed.
Lemma effect_before i r (d : Disc T) : 0 <= GetSize i < 2 ^ 32 -> effect d (DropBeforeEnqueue i r d) [DDropBeforeEnqueue i r].
Proof. intros Hi. constructor; try done. by apply tally_before. Qed.
Lemma effect_mark i r (d : Disc T) : 0 <= GetSize i < 2 ^ 32 -> exists l, effect d (snd (Mark i r d)) l /\ (l = [] \/ l = [DMark i r]).
Proof.
  intros Hi. unfold Mark, MarkItem. destruct (bool_decide _ && _) eqn:E; cbn.
  - exists [DMark i r]. split; [|by right]. constructor; try done. by apply tally_mark.
  - exists []. split; [apply effect_refl|by left].
Qed.

(** The events of a dequeue: none while peeking. *)
Definition deq_events (peeked : bool) (i : Item) (d : Disc T) : list devent :=
  if peeked then [] else [DSojourn (now - GetTimeStamp i (items d)); DDequeue i].
Lemma effect_count_dequeued i (d : Disc T) : effect d (count_dequeued now i d) (deq_events false i d).
Proof. constructor; try done; [cbn; by rewrite <- app_assoc|by apply tally_dequeued]. Qed.
Lemma effect_dequeued i (d : Disc T) : effect d (PacketDequeued now i d) (deq_events (m_peeked (qd d)) i d).
Proof. unfold PacketDequeued. destruct (m_peeked (qd d)); [apply effect_refl|apply effect_count_dequeued]. Qed.

(** A drop while peeking counts the dequeue first. *)
Lemma effect_after i r (d : Disc T) : 0 <= GetSize i < 2 ^ 32 ->
  effect d (DropAfterDequeue now i r d) ((if m_peeked (qd d) then deq_events false i d else []) ++ [DDropAfterDequeue i r]).
Proof.
  intros Hi. unfold DropAfterDequeue. cbn [qd on_qd set_stats m_peeked]. destruct (m_peeked (qd d)) eqn:Ep.
  - constructor; try done.
    + cbn. by rewrite <- !app_assoc.
    + intros Ht%(tally_dequeued now i)%(tally_after i r); [|done]. cbn. by destruct Ht.
  - constructor; try done. intros Ht%(tally_after i r); [|done]. done.
Qed.
Lemma queues_dequeued i (d : Disc T) : m_queues (qd (PacketDequeued now i d)) = m_queues (qd d).
Proof. unfold PacketDequeued. by destruct (m_peeked (qd d)). Qed.
Lemma queues_after i r (d : Disc T) : m_queues (qd (DropAfterDequeue now i r d)) = m_queues (qd d).
Proof. unfold DropAfterDequeue. cbn. by destruct (m_peeked (qd d)). Qed.
Lemma spec_dequeued i (d : Disc T) : spec (PacketDequeued now i d) = spec d.
Proof. unfold PacketDequeued. by destruct (m_peeked (qd d)). Qed.
Lemma spec_after i r (d : Disc T) : spec (DropAfterDequeue now i r d) = spec d.
Proof. unfold DropAfterDequeue. cbn. by destruct (m_peeked (qd d)). Qed.
End Effects.

(** ** Calls on an internal queue *)

Lemma capacity_smax smax s : capacity_ok smax s -> 1 <= smax < 2 ^ 32.
Proof. intros (H1&H2&H3). destruct (qs_unit s); nia. Qed.
Lemma item_size_fits smax s i : capacity_ok smax s -> item_ok smax i -> 0 <= GetSize i < 2 ^ 32.
Proof. intros ?%capacity_smax ?. unfold item_ok in *. lia. Qed.

Section Calls.
Context {T : Type} (smax now : Z).

Lemma call_enqueue k q item (d : Disc T) : m_queues (qd d) !! k = Some q -> queue_inv smax q -> item_ok smax item ->
  exists q' d', call_queue now k (Queue.Enqueue item) d = Some (negb (exceeds (Queue.GetMaxSize q) (m_packets q) item), d') /\
    m_queues (qd d') = <[k := q']> (m_queues (qd d)) /\ spec d' = spec d /\
    queue_inv smax q' /\ Queue.GetMaxSize q' = Queue.GetMaxSize q /\
    m_packets q' = (if exceeds (Queue.GetMaxSize q) (m_packets q) item then m_packets q else m_packets q ++ [item]) /\
    effect d d' [if exceeds (Queue.GetMaxSize q) (m_packets q) item then DDropBeforeEnqueue item INTERNAL_QUEUE_DROP else DEnqueue item].
Proof.
  intros Hk Hq Hi. destruct (Enqueue_ok smax q item Hq Hi) as (q'&E&Hq'&Hm&Hp&Hl). exists q'. unfold call_queue. rewrite Hk, E, Hl, drop_app_length. clear E Hl.
  pose proof (item_size_fits _ _ _ (inv_capacity _ _ Hq) Hi) as Hs.
  eexists. split; [reflexivity|]. pose proof (effect_queues (fun b => <[k := q']> (m_queues b)) d) as He0.
  destruct (exceeds _ _ _); (split_and!; [done..|]); eapply (effect_trans _ _ _ []); [exact He0| |exact He0|]; [by apply effect_before|by apply effect_enqueued].
Qed.
Lemma call_dequeue k q (d : Disc T) : m_queues (qd d) !! k = Some q -> queue_inv smax q ->
  exists q' d' l, call_queue now k Queue.Dequeue d = Some (head (m_packets q), d') /\
    m_queues (qd d') = <[k := q']> (m_queues (qd d)) /\ spec d' = spec d /\ items d' = items d /\
    queue_inv smax q' /\ Queue.GetMaxSize q' = Queue.GetMaxSize q /\ m_packets q' = tail (m_packets q) /\ effect d d' l /\
    l = match head (m_packets q) with Some i => deq_events now (m_peeked (qd d)) i d | None => [] end.
Proof.
  intros Hk Hq. destruct (take_out_ok smax q Hq) as (q'&E&Hq'&Hm&Hp&Hl). exists q'. unfold call_queue, Queue.Dequeue, Queue.DoDequeue.
  rewrite Hk, E, Hl, drop_app_length. clear E Hl. pose proof (effect_queues (fun b => <[k := q']> (m_queues b)) d) as He0.
  destruct (head (m_packets q)) as [i|]; do 2 eexists; (split; [reflexivity|]); cbn [fold_left on_queue_event].
  - rewrite queues_dequeued, spec_dequeued. pose proof (effect_trans _ _ _ _ _ He0 (effect_dequeued now i _)) as He.
    split_and!; [done| |..]; try done. { unfold PacketDequeued. cbn. by destruct (m_peeked (qd d)). }
  - split_and!; done.
Qed.
End Calls.

(** ** The contract of a class of queue discs *)

(** Accepting or refusing a packet. *)
Definition enqueue_contract {T} (item : Item) (b : bool) (held held' : list Item) (d d' : Disc T) : Prop := exists l,
  effect d d' l /\ denq l = (if b then [item] else []) /\ dbef l = (if b then [] else [item]) /\
  ddeq l = [] /\ daft l = [] /\ dsend l = [] /\ held' ≡ₚ (if b then [item] else []) ++ held.
(** Giving out a packet, after dropping some; an empty result means that nothing is left. *)
Definition dequeue_contract {T} (r : option Item) (held held' : list Item) (d d' : Disc T) : Prop := exists l,
  effect d d' l /\ denq l = [] /\ dbef l = [] /\ dsend l = [] /\
  held ≡ₚ daft l ++ option_list r ++ held' /\ ddeq l ≡ₚ daft l ++ (if m_peeked (qd d) then [] else option_list r) /\ (r = None -> held' = []).

Class DisciplineLaws (smax : Z) (T : Type) `{Discipline T} := {
  ok : QueueDiscSizePolicy -> QueueSize -> list Queue -> T -> Prop;
  held : list Queue -> T -> list Item;
  ok_fits p m qs t : ok p m qs t -> total (held qs t) + smax < 2 ^ 32 /\ smax < 2 ^ 32;
  DoEnqueue_law now item d : ok (m_sizePolicy (qd d)) (m_maxSize (qd d)) (m_queues (qd d)) (spec d) -> item_ok smax item ->
    exists b d', DoEnqueue now item d = Some (b, d') /\ ok (m_sizePolicy (qd d')) (m_maxSize (qd d')) (m_queues (qd d')) (spec d') /\
      enqueue_contract item b (held (m_queues (qd d)) (spec d)) (held (m_queues (qd d')) (spec d')) d d';
  DoDequeue_law now d : ok (m_sizePolicy (qd d)) (m_maxSize (qd d)) (m_queues (qd d)) (spec d) ->
    exists r d', DoDequeue now d = Some (r, d') /\ ok (m_sizePolicy (qd d')) (m_maxSize (qd d')) (m_queues (qd d')) (spec d') /\
      dequeue_contract r (held (m_queues (qd d)) (spec d)) (held (m_queues (qd d')) (spec d')) d d';
  DoPeek_law d : ok (m_sizePolicy (qd d)) (m_maxSize (qd d)) (m_queues (qd d)) (spec d) ->
    match DoPeek_override with None => True | Some peek => exists r, peek d = Some r /\ (r = None -> held (m_queues (qd d)) (spec d) = []) end
}.
End QueueDiscProps.
