(* ===== verification/QueueDiscInv.v ===== *)
(** * Invariants of queue discs

    Against the contract of a class of queue discs: no assertion of the base class
    fails, every packet received is sent, dropped or still held, exactly once, and
    the loop that feeds the device ends having sent its quota, emptied the queue disc
    or met a stopped device queue. *)

From stdpp Require Import strings.
From S2P Require Import Prelude Queue QueueProps QueueDisc QueueDiscProps.

Module QueueDiscInv.
Import Queue QueueProps QueueDisc QueueDiscProps.
Open Scope Z_scope.
#[local] Arguments total : simpl never.
#[local] Arguments denq : simpl never.
#[local] Arguments ddeq : simpl never.
#[local] Arguments dbef : simpl never.
#[local] Arguments daft : simpl never.
#[local] Arguments dsend : simpl never.

Section Inv.
Context {smax : Z} {T : Type} `{DL : DisciplineLaws smax T}.

Definition okd (d : Disc T) : Prop := ok (m_sizePolicy (qd d)) (m_maxSize (qd d)) (m_queues (qd d)) (spec d).
Definition heldd (d : Disc T) : list Item := held (m_queues (qd d)) (spec d).
(** Each packet names a transmission queue that the device has. *)
Definition device_ok (qs : option (list bool)) (l : list Item) : Prop :=
  match qs with None => True | Some qs => (1 <= length qs)%nat /\ Forall (fun i => 0 <= GetTxQueueIndex i < Z.of_nat (length qs)) l end.

(** [rcv] are the packets received; [out] those dequeued and neither sent nor
    dropped; [x] those taken out of the queues and not counted as dequeued. *)
Record core (rcv x out : list Item) (d : Disc T) : Prop := mkCore {
  i_ok : okd d;
  i_tally : tally (qd d);
  i_received : counts (nTotalReceivedPackets (m_stats (qd d))) (nTotalReceivedBytes (m_stats (qd d))) rcv;
  i_rcv : rcv ≡ₚ denq (d_log (qd d)) ++ dbef (d_log (qd d));
  i_enq : denq (d_log (qd d)) ≡ₚ ddeq (d_log (qd d)) ++ heldd d ++ x;
  i_deq : ddeq (d_log (qd d)) ≡ₚ daft (d_log (qd d)) ++ dsend (d_log (qd d)) ++ out;
  i_items : Forall (item_ok smax) rcv;
  i_uids : NoDup (uid <$> rcv);
  i_headers u : u ∈ h_headerAdded (items d) -> u ∈ uid <$> dsend (d_log (qd d)) ++ out;
  i_device : device_ok (m_devQueueIface (qd d)) rcv;
  i_quota : 1 <= m_quota (qd d) < 2 ^ 32
}.
Definition uncounted (q : QueueDisc) : list Item := if m_peeked q then option_list (m_requeued q) else [].
Definition counted (q : QueueDisc) : list Item := if m_peeked q then [] else option_list (m_requeued q).
Definition disc_inv (rcv out : list Item) (d : Disc T) : Prop :=
  core rcv (uncounted (qd d)) (out ++ counted (qd d)) d /\ (m_peeked (qd d) = true -> is_Some (m_requeued (qd d))).

(** ** Facts of the core *)

Lemma events_app (l1 l2 : list devent) : denq (l1 ++ l2) = denq l1 ++ denq l2 /\ ddeq (l1 ++ l2) = ddeq l1 ++ ddeq l2 /\
  dbef (l1 ++ l2) = dbef l1 ++ dbef l2 /\ daft (l1 ++ l2) = daft l1 ++ daft l2 /\ dsend (l1 ++ l2) = dsend l1 ++ dsend l2.
Proof. unfold_events. by rewrite !omap_app. Qed.
Lemma dequeued_events t i l : denq (l ++ [DSojourn t; DDequeue i]) = denq l /\ ddeq (l ++ [DSojourn t; DDequeue i]) = ddeq l ++ [i] /\
  dbef (l ++ [DSojourn t; DDequeue i]) = dbef l /\ daft (l ++ [DSojourn t; DDequeue i]) = daft l /\ dsend (l ++ [DSojourn t; DDequeue i]) = dsend l.
Proof. unfold_events. rewrite !omap_app. cbn. by rewrite !app_nil_r. Qed.
Lemma q_total_perm l l' : l ≡ₚ l' -> total l = total l'.
Proof. unfold total. induction 1; cbn; lia. Qed.

(** Where each received packet is. *)
Lemma core_split rcv x out d : core rcv x out d ->
  rcv ≡ₚ dbef (d_log (qd d)) ++ daft (d_log (qd d)) ++ dsend (d_log (qd d)) ++ out ++ heldd d ++ x.
Proof. intros [_ _ _ Hr He Hd _ _ _ _ _]. rewrite Hr, He, Hd. solve_Permutation. Qed.
Lemma core_held rcv x out d : core rcv x out d -> Forall (item_ok smax) (heldd d ++ x).
Proof. intros Hc. pose proof (i_items _ _ _ _ Hc) as Hi. rewrite (core_split _ _ _ _ Hc), !Forall_app in Hi. rewrite Forall_app. tauto. Qed.
(** A packet still held has no header. *)
Lemma core_no_header rcv x out d i : core rcv x out d -> i ∈ heldd d ++ x -> uid i ∈ h_headerAdded (items d) -> False.
Proof.
  intros Hc Hi Hh%(i_headers _ _ _ _ Hc). pose proof (i_uids _ _ _ _ Hc) as Hn. apply (list_elem_of_fmap_2 uid) in Hi.
  assert (rcv ≡ₚ (heldd d ++ x) ++ (dsend (d_log (qd d)) ++ out) ++ dbef (d_log (qd d)) ++ daft (d_log (qd d))) as Hp
    by (rewrite (core_split _ _ _ _ Hc); solve_Permutation).
  rewrite Hp, fmap_app, NoDup_app in Hn. destruct Hn as (_&Hd&_). apply (Hd _ Hi). rewrite fmap_app, elem_of_app. by left.
Qed.

(** The assertions of [Dequeue]. *)
Lemma dequeue_asserts (q : QueueDisc) x : tally q -> denq (d_log q) ≡ₚ ddeq (d_log q) ++ x -> 0 <= total x < 2 ^ 32 ->
  (m_nPackets q =? u32 (nTotalEnqueuedPackets (m_stats q) - nTotalDequeuedPackets (m_stats q))) = true /\
  (m_nBytes q =? u64 (nTotalEnqueuedBytes (m_stats q) - nTotalDequeuedBytes (m_stats q))) = true.
Proof.
  intros [[E1 E2] [D1 D2] _ _ _ _ _ _ _ _ [G1 G2]] Hp Hx. rewrite G1, G2, E1, E2, D1, D2. rewrite (q_total_perm _ _ Hp), q_total_app.
  split; apply Z.eqb_eq.
  - unfold u32, wrap. by rewrite <- Zminus_mod.
  - replace (total _ + total x - _) with (total x) by lia. rewrite u32_small by done.
    unfold u64, wrap. rewrite <- Zminus_mod. replace (total _ + total x - _) with (total x) by lia. rewrite Z.mod_small; lia.
Qed.

(** ** Operations *)

Lemma DoDequeue_core now rcv out d : core rcv [] out d ->
  exists r d', DoDequeue now d = Some (r, d') /\
    core rcv (if m_peeked (qd d) then option_list r else []) (out ++ if m_peeked (qd d) then [] else option_list r) d' /\
    (exists l, effect d d' l /\ dsend l = []) /\ (forall i, r = Some i -> i ∈ heldd d) /\ (r = None -> heldd d' = []) /\
    (length (option_list r) + length (heldd d') <= length (heldd d))%nat.
Proof.
  intros Hc. destruct (DoDequeue_law now d (i_ok _ _ _ _ Hc)) as (r&d'&E&Hok&l&He&Ln&Lb&Ls&Hh&Hd&Hnone).
  exists r, d'. split; [done|]. fold (heldd d) (heldd d') in *. pose proof Hc as [_ Ht [Hr1 Hr2] Hr Hq Hdq Hi Hu Hhd Hdev Hqt].
  pose proof He as [Elog Etal _ Edev Eqt _ _ _ _ [Er1 Er2] Eh]. destruct (events_app (d_log (qd d)) l) as (A1&A2&A3&A4&A5).
  rewrite <- Elog, Ln, Lb, Ls, ?app_nil_r in *. split_and!.
  - constructor; try done.
    + by apply Etal.
    + rewrite Er1, Er2. by split.
    + by rewrite A1, A3.
    + rewrite A1, A2, Hq, Hd, Hh. destruct (m_peeked (qd d)); cbn; solve_Permutation.
    + rewrite A2, A4, A5, Hd, Hdq. destruct (m_peeked (qd d)); cbn; solve_Permutation.
    + intros u. rewrite Eh, A5. intros Hu'%Hhd. rewrite app_assoc, fmap_app, elem_of_app. by left.
    + by rewrite Edev.
    + by rewrite Eqt.
  - exists l. done.
  - intros i ->. rewrite Hh. cbn. set_solver.
  - done.
  - rewrite Hh, !length_app. lia.
Qed.

(** Handing over what the base class holds back. *)
Lemma release_inv now rcv out d i : disc_inv rcv out d -> m_requeued (qd d) = Some i ->
  disc_inv rcv (out ++ [i]) (release now i d) /\ m_requeued (qd (release now i d)) = None /\ m_peeked (qd (release now i d)) = false /\
  heldd (release now i d) = heldd d /\ dsend (d_log (qd (release now i d))) = dsend (d_log (qd d)) /\
  m_devQueueIface (qd (release now i d)) = m_devQueueIface (qd d).
Proof.
  intros [[Hok Ht Hr Hrc Hq Hdq Hi Hu Hhd Hdev Hqt] Hpk] Hreq. unfold release, uncounted, counted in *. cbn [qd on_qd set_requeued m_peeked].
  rewrite Hreq in *. destruct (m_peeked (qd d)) eqn:Ep; cbn [option_list] in *.
  - unfold PacketDequeued. cbn [qd on_qd set_peeked m_peeked].
    destruct (dequeued_events (now - GetTimeStamp i (items d)) i (d_log (qd d))) as (A1&A2&A3&A4&A5).
    apply (tally_dequeued now i) in Ht. rewrite ?app_nil_r in *.
    split; [|split_and!; try done; cbn; by rewrite <- app_assoc]. split; [|done].
    constructor; unfold uncounted, counted; cbn; rewrite <- ?app_assoc; cbn; rewrite ?A1, ?A2, ?A3, ?A4, ?A5; try done.
    + by destruct Ht.
    + rewrite Hq. unfold heldd. cbn. solve_Permutation.
    + rewrite Hdq. solve_Permutation.
    + intros u Hu'%Hhd. rewrite fmap_app, elem_of_app in Hu'. rewrite !fmap_app, !elem_of_app. tauto.
  - split; [|by split_and!]. split; [|cbn; by rewrite Ep]. constructor; unfold uncounted, counted; cbn; rewrite ?Ep; cbn; rewrite ?app_nil_r; try done; [by destruct Ht|]. by rewrite app_nil_r in Hq.
Qed.

Lemma total_held_nonneg l : Forall (item_ok smax) l -> 0 <= total l.
Proof. intros Hl. pose proof (q_total_bounds _ _ Hl). lia. Qed.
(** The gauges count what is held, with a packet out for a peek. *)
Lemma core_fits rcv x out d : core rcv x out d -> (x = [] \/ exists i, x = [i]) -> 0 <= total (heldd d ++ x) < 2 ^ 32.
Proof.
  intros Hc Hx. pose proof (core_held _ _ _ _ Hc) as Hh. split; [by apply total_held_nonneg|].
  destruct (ok_fits _ _ _ _ (i_ok _ _ _ _ Hc)) as [Hf _]. fold (heldd d) in Hf. rewrite q_total_app. destruct Hx as [->|[i ->]].
  - rewrite q_total_nil. destruct (ok_fits _ _ _ _ (i_ok _ _ _ _ Hc)) as [_ Hs].
    destruct (heldd d) as [|j l] eqn:E; [rewrite q_total_nil; lia|]. cbn in Hh. apply Forall_cons in Hh as [Hj _]. unfold item_ok in Hj. lia.
  - rewrite Forall_app in Hh. destruct Hh as [_ [Hi _]%Forall_cons]. rewrite q_total_one. unfold item_ok in Hi. lia.
Qed.
Lemma Dequeue_asserts rcv x out d : core rcv x out d -> (x = [] \/ exists i, x = [i]) -> exists b1 b2,
  (m_nPackets (qd d) =? u32 (nTotalEnqueuedPackets (m_stats (qd d)) - nTotalDequeuedPackets (m_stats (qd d)))) = b1 /\
  (m_nBytes (qd d) =? u64 (nTotalEnqueuedBytes (m_stats (qd d)) - nTotalDequeuedBytes (m_stats (qd d)))) = b2 /\ b1 = true /\ b2 = true.
Proof.
  intros Hc Hx. do 2 eexists. split; [done|]. split; [done|]. eapply dequeue_asserts; [apply Hc|apply (i_enq _ _ _ _ Hc)|by eapply core_fits].
Qed.
Lemma option_list_cases (r : option Item) : option_list r = [] \/ exists i, option_list r = [i].
Proof. destruct r; cbn; eauto. Qed.

Lemma Dequeue_inv now rcv out d : disc_inv rcv out d ->
  exists r d', Dequeue now d = Some (r, d') /\ disc_inv rcv (out ++ option_list r) d' /\ m_requeued (qd d') = None /\ m_peeked (qd d') = false /\
    dsend (d_log (qd d')) = dsend (d_log (qd d)) /\ m_devQueueIface (qd d') = m_devQueueIface (qd d) /\
    (m_requeued (qd d) = None -> forall i, r = Some i -> uid i ∉ h_headerAdded (items d')) /\ (r = None -> heldd d' = []) /\
    (length (option_list r) + length (heldd d') <= length (heldd d) + length (option_list (m_requeued (qd d))))%nat.
Proof.
  intros Hinv. unfold Dequeue. destruct (m_requeued (qd d)) as [i|] eqn:Ereq.
  - destruct (release_inv now _ _ _ i Hinv Ereq) as (Hinv'&Hr&Hp&Hh&Hs&Hd). exists (Some i), (release now i d).
    pose proof Hinv' as [Hc _]. unfold uncounted, counted in Hc. rewrite Hp, Hr in Hc.
    destruct (Dequeue_asserts _ _ _ _ Hc) as (?&?&->&->&->&->); [by left|]. cbn [option_list length]. rewrite Hh.
    split_and!; done || lia.
  - pose proof Hinv as [Hc Hpk]. rewrite Ereq in Hpk. destruct (m_peeked (qd d)) eqn:Ep; [destruct (Hpk eq_refl); done|].
    unfold uncounted, counted in Hc. rewrite Ep, Ereq in Hc. cbn in Hc. rewrite app_nil_r in Hc.
    destruct (DoDequeue_core now _ _ _ Hc) as (r&d'&E&Hc'&(l&He&Hs)&Hin&Hnone&Hlen). rewrite E. rewrite Ep in Hc'.
    destruct (Dequeue_asserts _ _ _ _ Hc') as (?&?&->&->&->&->); [by left|].
    pose proof He as [Elog _ _ Edev _ Erq _ Epk _ _ Eh]. destruct (events_app (d_log (qd d)) l) as (_&_&_&_&A5). rewrite <- Elog, Hs, app_nil_r in A5.
    exists r, d'. rewrite Ereq in Erq. rewrite Ep in Epk. split; [done|]. split.
    { split; [|by rewrite Epk]. unfold uncounted, counted. rewrite Epk, Erq. cbn. by rewrite app_nil_r. }
    split_and!; try done; [|cbn; lia]. intros _ i -> Hh. rewrite Eh in Hh.
    eapply core_no_header, Hh; [exact Hc|]. apply elem_of_app. left. by apply Hin.
Qed.

(** A new packet: one of its own, for a transmission queue of the device. *)
Definition fresh_item (rcv : list Item) (item : Item) (d : Disc T) : Prop :=
  item_ok smax item /\ uid item ∉ uid <$> rcv /\ device_ok (m_devQueueIface (qd d)) [item].

Lemma Enqueue_inv now rcv out d item : disc_inv rcv out d -> fresh_item rcv item d ->
  exists b d', Enqueue now item d = Some (b, d') /\ disc_inv (rcv ++ [item]) out d' /\
    heldd d' ≡ₚ (if b then [item] else []) ++ heldd d /\ dsend (d_log (qd d')) = dsend (d_log (qd d)) /\
    m_requeued (qd d') = m_requeued (qd d) /\ m_devQueueIface (qd d') = m_devQueueIface (qd d).
Proof.
  intros [Hc Hpk] (Hi&Hu&Hd). unfold Enqueue. set (d0 := on_qd _ d). assert (okd d0) as Hok0 by apply Hc.
  destruct (DoEnqueue_law now item d0 Hok0 Hi) as (b&d1&E&Hok&l&He&Ln&Lb&Lq&La&Ls&Hh). rewrite E.
  pose proof Hc as [_ Ht Hr Hrc Hq Hdq Hit Hun Hhd Hdev Hqt]. pose proof He as [Elog Etal _ Edev Eqt Ereq _ Epk _ [Er1 Er2] Eh].
  destruct (events_app (d_log (qd d)) l) as (A1&A2&A3&A4&A5). change (d_log (qd d0)) with (d_log (qd d)) in Elog.
  rewrite <- Elog, Ln, Lb, Lq, La, Ls, ?app_nil_r in *. clear E.
  set (d2 := if b then _ else d1). assert (qd d2 = qd d1) as E2 by (subst d2; by destruct b).
  assert (h_headerAdded (items d2) = h_headerAdded (items d1) /\ spec d2 = spec d1) as [E3 E4] by (subst d2; by destruct b). rewrite E2.
  assert (tally (qd d1)) as Ht1 by (apply Etal; by destruct Ht). pose proof (counts_snoc _ _ _ item Hr) as Hr1.
  cbn [qd on_qd set_stats m_stats stats_received nTotalReceivedPackets nTotalReceivedBytes d0] in Er1, Er2. rewrite <- Er1, <- Er2 in Hr1.
  assert (rcv ++ [item] ≡ₚ denq (d_log (qd d1)) ++ dbef (d_log (qd d1))) as Hrc1.
  { rewrite A1, A3, Hrc. destruct b; cbn; solve_Permutation. }
  assert (rcv ++ [item] ≡ₚ dbef (d_log (qd d1)) ++ denq (d_log (qd d1))) as Hrc2 by (rewrite Hrc1; solve_Permutation).
  destruct (counts_perm _ _ _ _ Hrc2 Hr1) as [C1 C2].
  rewrite length_app, Nat2Z.inj_add in C1. rewrite q_total_app in C2.
  destruct (t_enq _ Ht1) as [-> ->], (t_bef _ Ht1) as [-> ->]. rewrite C1, C2.
  replace (_ =? _) with true by (symmetry; apply Z.eqb_eq; unfold u32, wrap; by rewrite <- Zplus_mod).
  replace (_ =? _) with true by (symmetry; apply Z.eqb_eq; unfold u64, wrap; by rewrite <- Zplus_mod). cbn iota.
  exists b, d2. split; [done|]. assert (heldd d2 = heldd d1) as Eh2 by (unfold heldd; by rewrite E2, E4). rewrite Eh2. change (heldd d1 ≡ₚ (if b then [item] else []) ++ heldd d) in Hh.
  split; [|split_and!; rewrite ?E2; done]. split; [|rewrite E2, Epk, Ereq; exact Hpk].
  assert (uncounted (qd d2) = uncounted (qd d) /\ counted (qd d2) = counted (qd d)) as [-> ->] by (unfold uncounted, counted; by rewrite E2, Epk, Ereq).
  constructor; rewrite ?E2; try done.
  - unfold okd. by rewrite E2, E4.
  - rewrite Eh2, A1, A2, Hq, Hh. destruct b; cbn; solve_Permutation.
  - by rewrite A2, A4, A5.
  - apply Forall_app. split; [done|]. by constructor.
  - rewrite fmap_app. apply NoDup_app. split_and!; [done| |apply NoDup_singleton]. intros u H1 H2. cbn in H2. set_solver.
  - intros u. rewrite E3, Eh, A5. apply Hhd.
  - rewrite Edev. cbn. destruct (m_devQueueIface (qd d)); [|done]. cbn in *. rewrite Forall_app. tauto.
  - by rewrite Eqt.
Qed.

(** Peeking takes the packet out of the queues without counting it. *)
Lemma DoPeek_inv now rcv out d : disc_inv rcv out d ->
  exists r d', DoPeek now d = Some (r, d') /\ disc_inv rcv out d' /\ m_requeued (qd d') = r /\ (r = None -> heldd d' = []) /\
    dsend (d_log (qd d')) = dsend (d_log (qd d)) /\ m_devQueueIface (qd d') = m_devQueueIface (qd d).
Proof.
  intros Hinv. unfold DoPeek. destruct (m_requeued (qd d)) as [i|] eqn:Ereq; [by exists (Some i), d|].
  pose proof Hinv as [Hc Hpk]. rewrite Ereq in Hpk. destruct (m_peeked (qd d)) eqn:Ep; [destruct (Hpk eq_refl); done|].
  unfold uncounted, counted in Hc. rewrite Ep, Ereq in Hc. cbn in Hc. rewrite app_nil_r in Hc.
  assert (core rcv [] out (on_qd (set_peeked true) d)) as Hc0 by (destruct Hc as [? [] ? ? ? ? ? ? ? ? ?]; by constructor).
  unfold Dequeue. change (m_requeued (qd (on_qd (set_peeked true) d))) with (m_requeued (qd d)). rewrite Ereq.
  destruct (DoDequeue_core now _ _ _ Hc0) as (r&d1&E&Hc1&(l&He&Hs)&_&Hnone&_). rewrite E. cbn [qd on_qd set_peeked m_peeked] in Hc1. rewrite app_nil_r in Hc1.
  destruct (Dequeue_asserts _ _ _ _ Hc1) as (?&?&->&->&->&->); [apply option_list_cases|].
  pose proof He as [Elog _ _ Edev _ _ _ Epk _ _ _]. destruct (events_app (d_log (qd d)) l) as (_&_&_&_&A5).
  change (d_log (qd (on_qd (set_peeked true) d))) with (d_log (qd d)) in Elog. rewrite <- Elog, Hs, app_nil_r in A5.
  eexists _, _. split; [reflexivity|]. destruct r as [i|]; cbn; (split; [|by split_and!]).
  - split; [|done]. cbn. unfold uncounted, counted. cbn in *. rewrite Epk, app_nil_r. destruct Hc1 as [? [] ? ? ? ? ? ? ? ? ?]; by constructor.
  - split; [|done]. cbn. unfold uncounted, counted. cbn in *. rewrite app_nil_r. destruct Hc1 as [? [] ? ? ? ? ? ? ? ? ?]; by constructor.
Qed.

Lemma mod_sub2 m a b k : (a mod m - k - b mod m) mod m = (a - k - b) mod m.
Proof. rewrite Zminus_mod_idemp_r, <- !Z.sub_add_distr. apply Zminus_mod_idemp_l. Qed.
(** The totals, and the packets sent: those not held back, when none was peeked. *)
Lemma GetStats_inv rcv out d : disc_inv rcv out d -> exists s d', GetStats d = Some (s, d') /\ disc_inv rcv out d' /\
  (m_peeked (qd d) = false -> counts (nTotalSentPackets s) (nTotalSentBytes s) (dsend (d_log (qd d)) ++ out)).
Proof.
  intros [Hc Hpk]. pose proof (i_tally _ _ _ _ Hc) as Ht. unfold GetStats.
  destruct (t_bef _ Ht) as [B1 B2], (t_aft _ Ht) as [A1 A2], (t_drop _ Ht) as [D1 D2]. rewrite length_app, Nat2Z.inj_add in D1. rewrite q_total_app in D2.
  replace (nTotalDroppedPackets _ =? _) with true by (symmetry; apply Z.eqb_eq; rewrite B1, A1, D1; unfold u32, wrap; by rewrite <- Zplus_mod).
  replace (nTotalDroppedBytes _ =? _) with true by (symmetry; apply Z.eqb_eq; rewrite B2, A2, D2; unfold u64, wrap; by rewrite <- Zplus_mod). cbn iota.
  eexists _, _. split; [reflexivity|]. split.
  { split; [|done]. destruct Hc as [? [] ? ? ? ? ? ? ? ? ?]; by constructor. }
  intros Hp. pose proof (i_deq _ _ _ _ Hc) as Hd. unfold counted in Hd. rewrite Hp in Hd. destruct (t_deq _ Ht) as [Q1 Q2].
  cbn [nTotalSentPackets nTotalSentBytes stats_sent]. rewrite A1, A2, Q1, Q2. unfold counts. rewrite (q_total_perm _ _ Hd), Hd, !q_total_app, !length_app.
  unfold u32, u64, wrap. rewrite !mod_sub2. destruct (m_requeued (qd d)) as [i|]; [change (option_list (Some i)) with [i]|change (option_list (@None Item)) with (@nil Item)]; cbn [length]; rewrite ?q_total_one, ?q_total_nil.
  all: split; f_equal; lia.
Qed.

(** ** Feeding the device *)

Definition load (d : Disc T) : nat := length (heldd d) + length (option_list (m_requeued (qd d))).
Definition stuck (d : Disc T) : Prop := exists qs k, m_devQueueIface (qd d) = Some qs /\ qs !! k = Some true.
Lemma IsStopped_ok rcv i d : device_ok (m_devQueueIface (qd d)) rcv -> i ∈ rcv -> exists b, IsStopped (GetTxQueueIndex i) d = Some b /\ (b = true -> stuck d).
Proof.
  intros Hd Hi. unfold IsStopped, stuck, device_ok in *. destruct (m_devQueueIface (qd d)) as [qs|]; [|by exists false].
  destruct Hd as [_ Hd]. rewrite Forall_forall in Hd. specialize (Hd i Hi).
  destruct (lookup_lt_is_Some_2 qs (Z.to_nat (GetTxQueueIndex i)) ltac:(lia)) as [b E]. exists b. split; [done|]. intros ->. eauto.
Qed.
Lemma core_elem rcv x out d i : core rcv x out d -> i ∈ out ++ heldd d ++ x -> i ∈ rcv.
Proof. intros Hc Hi. rewrite (core_split _ _ _ _ Hc). set_solver. Qed.

Lemma out_none (out : list Item) : out ++ option_list (@None Item) = out.
Proof. apply app_nil_r. Qed.
Lemma DequeuePacket_inv now rcv out d : disc_inv rcv out d ->
  exists r d', DequeuePacket now d = Some (r, d') /\ disc_inv rcv (out ++ option_list r) d' /\ dsend (d_log (qd d')) = dsend (d_log (qd d)) /\
    (forall i, r = Some i -> m_requeued (qd d') = None /\ m_peeked (qd d') = false) /\ (r = None -> load d' = 0%nat \/ stuck d') /\
    (length (option_list r) + load d' <= load d)%nat.
Proof.
  intros Hinv. unfold DequeuePacket, load. destruct (m_requeued (qd d)) as [i|] eqn:Ereq.
  - destruct (release_inv now _ _ _ i Hinv Ereq) as (Hinv'&Hr&Hp&Hh&Hs&Hd). pose proof Hinv' as [Hc _].
    assert (i ∈ rcv) as Hi by (eapply core_elem; [exact Hc|]; cbn; set_solver).
    pose proof (i_device _ _ _ _ Hc) as Hdev. rewrite Hd in Hdev. destruct (IsStopped_ok rcv i d Hdev Hi) as (b&->&Hst). destruct b.
    + exists None, d. rewrite Ereq, out_none. split_and!; try done; auto.
    + exists (Some i), (release now i d). rewrite Hr, Hh. split_and!; done || (cbn; lia).
  - pose proof (i_device _ _ _ _ (proj1 Hinv)) as Hdev. set (blocked := match m_devQueueIface (qd d) with None => _ | Some _ => _ end).
    assert (exists b, blocked = Some b /\ (b = true -> stuck d)) as (b&->&Hst).
    { subst blocked. unfold device_ok, stuck in *. destruct (m_devQueueIface (qd d)) as [[|b qs]|]; [cbn in Hdev; lia| |by exists false].
      destruct (1 <? _); [by exists false|]. exists b. split; [done|]. intros ->. by exists (true :: qs), 0%nat. }
    destruct b; [exists None, d; rewrite Ereq, out_none; split_and!; try done; auto|].
    destruct (Dequeue_inv now _ _ _ Hinv) as (r&d1&E&Hinv1&Hrq&Hpk&Hs&Hd&Hnh&Hnone&Hlen). rewrite Ereq in Hlen, Hnh. cbn in Hlen. rewrite E. destruct r as [i|].
    + assert (uid i ∉ h_headerAdded (items d1)) as Hnoh by (by apply Hnh). unfold AddHeader. rewrite bool_decide_true by done. cbn iota.
      eexists _, _. split; [reflexivity|]. cbn [qd]. split; [|rewrite Hrq; split_and!; try done; cbn in *; unfold heldd in *; cbn; lia].
      destruct Hinv1 as [[] ?]. split; [|done]. constructor; try done. cbn. intros u [->%elem_of_singleton|Hu]%elem_of_union; [|by apply i_headers0].
      rewrite !fmap_app. cbn. set_solver.
    + rewrite out_none in Hinv1. exists None, d1. rewrite out_none. split_and!; try done; [|rewrite Hrq; cbn in *; lia]. intros _. left. rewrite Hrq, Hnone; done.
Qed.

Section Device.
Context (send : Item -> list bool -> list bool) (Hsend : forall i qs, length (send i qs) = length qs).

Lemma sent_inv rcv out i h d : disc_inv rcv (out ++ [i]) d -> m_requeued (qd d) = None -> m_peeked (qd d) = false -> h_headerAdded h = h_headerAdded (items d) ->
  disc_inv rcv out (mkD (trace (DSend i) (set_device (send i <$> m_devQueueIface (qd d)) (qd d))) h (spec d)).
Proof.
  intros [Hc _] Hr Hp Hh. unfold uncounted, counted in Hc. rewrite Hr, Hp in Hc. cbn in Hc. rewrite app_nil_r in Hc.
  assert (forall l, denq (l ++ [DSend i]) = denq l /\ ddeq (l ++ [DSend i]) = ddeq l /\ dbef (l ++ [DSend i]) = dbef l /\
    daft (l ++ [DSend i]) = daft l /\ dsend (l ++ [DSend i]) = dsend l ++ [i]) as Ha by (intros l; unfold_events; rewrite !omap_app; cbn; by rewrite !app_nil_r).
  destruct (Ha (d_log (qd d))) as (A1&A2&A3&A4&A5). destruct Hc as [Hok Ht Hrv Hrc Hq Hdq Hi Hu Hhd Hdev Hqt].
  split; [|cbn; by rewrite Hp]. unfold uncounted, counted. cbn. rewrite Hp, Hr. cbn. rewrite app_nil_r.
  constructor; cbn; rewrite ?A1, ?A2, ?A3, ?A4, ?A5; try done.
  - by apply tally_send.
  - rewrite Hdq. solve_Permutation.
  - rewrite Hh. intros u Hu'%Hhd. rewrite !fmap_app in *. set_solver.
  - unfold device_ok in *. destruct (m_devQueueIface (qd d)); [|done]. cbn. by rewrite Hsend.
Qed.
Lemma requeue_inv rcv out i d : disc_inv rcv (out ++ [i]) d -> m_requeued (qd d) = None -> m_peeked (qd d) = false -> disc_inv rcv out (Requeue i d).
Proof.
  intros [Hc _] Hr Hp. unfold uncounted, counted in Hc. rewrite Hr, Hp in Hc. cbn in Hc. pose proof Hc as [Hok Ht Hrv Hrc Hq Hdq Hi Hu Hhd Hdev Hqt].
  destruct (events_app (d_log (qd d)) [DRequeue i]) as (A1&A2&A3&A4&A5). unfold denq, ddeq, dbef, daft, dsend in A1, A2, A3, A4, A5. cbn in *.
  rewrite ?app_nil_r in A1, A2, A3, A4, A5. split; [|cbn; by rewrite Hp]. unfold uncounted, counted. cbn. rewrite Hp. cbn.
  constructor; cbn; unfold denq, ddeq, dbef, daft, dsend; rewrite ?A1, ?A2, ?A3, ?A4, ?A5; try done; [by apply tally_requeue|..].
  all: by rewrite app_nil_r in *.
Qed.
(** The gauge tells whether something is held. *)
Lemma gauge_zero rcv out d : disc_inv rcv out d -> m_requeued (qd d) = None -> m_nPackets (qd d) = 0 -> load d = 0%nat.
Proof.
  intros [Hc _] Hr Hz. pose proof (core_fits _ _ _ _ Hc) as Hf. pose proof (core_held _ _ _ _ Hc) as Hh.
  unfold uncounted in *. rewrite Hr in *. replace (if m_peeked (qd d) then option_list None else []) with (@nil Item) in * by (by destruct (m_peeked (qd d))).
  specialize (Hf (or_introl eq_refl)). rewrite app_nil_r in *. pose proof (q_total_bounds _ _ Hh) as Hb.
  destruct (t_gauge _ (i_tally _ _ _ _ Hc)) as [Hg _]. rewrite (i_enq _ _ _ _ Hc), !length_app in Hg. cbn in Hg. rewrite Hz in Hg.
  replace (Z.of_nat _ - _) with (Z.of_nat (length (heldd d))) in Hg by lia. rewrite u32_small in Hg by lia. unfold load. rewrite Hr. cbn. lia.
Qed.

(** One round: it asks for another only after a packet was sent. *)
Definition round_ok (rcv out : list Item) (again : bool) (d d' : Disc T) : Prop := exists sent,
  disc_inv rcv out d' /\ dsend (d_log (qd d')) = dsend (d_log (qd d)) ++ sent /\ (length sent + load d' <= load d)%nat /\ (length sent <= 1)%nat /\
  (again = true -> length sent = 1%nat) /\ (again = false -> load d' = 0%nat \/ stuck d').
Lemma Restart_ok now rcv out d : disc_inv rcv out d -> exists again d', Restart send now d = Some (again, d') /\ round_ok rcv out again d d'.
Proof.
  intros Hinv. unfold Restart. destruct (DequeuePacket_inv now _ _ _ Hinv) as (r&d1&->&Hinv1&Hs1&Hr1&Hn1&Hl1).
  destruct r as [i|]; [|rewrite out_none in Hinv1; exists false, d1; split; [done|]; exists []; rewrite app_nil_r; split_and!; try done; [cbn in *; lia..|auto]].
  destruct (Hr1 i eq_refl) as [Hrq Hpk]. cbn in Hl1. pose proof (i_device _ _ _ _ (proj1 Hinv1)) as Hdev.
  assert (i ∈ rcv) as Hi by (eapply core_elem; [apply Hinv1|]; cbn; set_solver).
  unfold Transmit. destruct (IsStopped_ok rcv i d1 Hdev Hi) as (b&->&Hst). destruct b.
  - exists false, (Requeue i d1). split; [done|]. exists []. split; [by apply requeue_inv|]. cbn [d_log qd Requeue on_qd trace].
    destruct (events_app (d_log (qd d1)) [DRequeue i]) as (_&_&_&_&A5). cbn in *. rewrite A5, Hs1. cbn. split_and!; try done; [|lia|].
    + unfold load in *. rewrite Hrq in Hl1. unfold heldd in *. cbn in *. lia.
    + intros _. right. exact (Hst eq_refl).
  - set (h := match m_devQueueIface (qd d1) with None => _ | Some _ => _ end). set (d2 := mkD _ h _).
    assert (h_headerAdded h = h_headerAdded (items d1)) as Eh by (subst h; repeat case_match; done). assert (disc_inv rcv out d2) as Hinv2 by (by apply sent_inv).
    assert (dsend (d_log (qd d2)) = dsend (d_log (qd d)) ++ [i]) as Hs2 by (rewrite <- Hs1; unfold dsend; cbn; by rewrite omap_app).
    assert (load d2 = load d1) as Hl2 by done. pose proof (i_device _ _ _ _ (proj1 Hinv2)) as Hdev2.
    assert (m_requeued (qd d2) = None) as Hrq2 by done.
    destruct (m_nPackets (qd d2) =? 0) eqn:Ez.
    + apply Z.eqb_eq in Ez. pose proof (gauge_zero _ _ _ Hinv2 Hrq2 Ez). exists false, d2. split; [done|]. exists [i]. split_and!; try done; [cbn; lia..|auto].
    + destruct (IsStopped_ok rcv i d2 Hdev2 Hi) as (b&->&Hst2). exists (negb b), d2. split; [done|]. exists [i].
      split_and!; try done; [cbn; lia..|]. intros Hb. right. apply Hst2. by destruct b.
Qed.

(** A run sends at most its quota; it stops short of it only with nothing left or at
    a stopped transmission queue. *)
Definition run_result (rcv out : list Item) (quota : Z) (d d' : Disc T) : Prop := exists sent,
  disc_inv rcv out d' /\ dsend (d_log (qd d')) = dsend (d_log (qd d)) ++ sent /\ (length sent + load d' <= load d)%nat /\
  Z.of_nat (length sent) <= quota /\ (Z.of_nat (length sent) = quota \/ load d' = 0%nat \/ stuck d').
Lemma disc_run_loop_ok fuel : forall now quota rcv out d, (load d < fuel)%nat -> 1 <= quota < 2 ^ 32 -> disc_inv rcv out d ->
  exists d', run_loop send fuel now quota d = Some d' /\ run_result rcv out quota d d'.
Proof.
  induction fuel as [|fuel IH]; intros now quota rcv out d Hf Hq Hinv; [lia|]. cbn [run_loop].
  destruct (Restart_ok now rcv out d Hinv) as (again&d1&->&sent&Hinv1&Hs&Hl&Hl1&Hagain&Hend). destruct again.
  - specialize (Hagain eq_refl). rewrite u32_small by lia. destruct (quota - 1 <=? 0) eqn:Eq.
    + exists d1. split; [done|]. exists sent. split_and!; try done; lia.
    + destruct (IH now (quota - 1) rcv out d1) as (d2&->&sent2&Hinv2&Hs2&Hl2&Hq2&Hend2); [lia..|done|].
      exists d2. split; [done|]. exists (sent ++ sent2). rewrite Hs2, Hs, length_app, app_assoc. split_and!; try done; [lia..|].
      destruct Hend2 as [H2|[H2|H2]]; [left; lia|auto..].
  - exists d1. split; [done|]. exists sent. split_and!; try done; [lia|auto].
Qed.
Lemma running_inv b rcv out d : disc_inv rcv out d -> disc_inv rcv out (on_qd (set_running b) d).
Proof. intros [[? [] ? ? ? ? ? ? ? ? ?] ?]. split; [by constructor|done]. Qed.
Lemma Run_inv fuel now rcv out d : disc_inv rcv out d -> (load d < fuel)%nat ->
  exists d', Run send fuel now d = Some d' /\ if m_running (qd d) then d' = d else run_result rcv out (m_quota (qd d)) d d' /\ m_running (qd d') = false.
Proof.
  intros Hinv Hf. pose proof (i_quota _ _ _ _ (proj1 Hinv)). unfold Run, RunBegin. destruct (m_running (qd d)); [by exists d|].
  destruct (disc_run_loop_ok fuel now (m_quota (qd d)) rcv out (on_qd (set_running true) d)) as (d2&E&sent&Hinv2&Hs&Hl&Hn&Hend); [done..|by apply running_inv|].
  change (m_quota (qd (on_qd (set_running true) d))) with (m_quota (qd d)). rewrite E. eexists. split; [reflexivity|]. split; [|done].
  exists sent. split; [by apply running_inv|]. done.
Qed.

(** ** Runs of a queue disc *)

(** A queue disc after its initialization. *)
Definition initial (d : Disc T) : Prop :=
  okd d /\ heldd d = [] /\ d_log (qd d) = [] /\ m_nPackets (qd d) = 0 /\ m_nBytes (qd d) = 0 /\ m_stats (qd d) = Stats_new /\
  m_requeued (qd d) = None /\ m_peeked (qd d) = false /\ h_headerAdded (items d) = ∅ /\
  1 <= m_quota (qd d) < 2 ^ 32 /\ device_ok (m_devQueueIface (qd d)) [].
(** The device stops or starts its transmission queues. *)
Definition same_device (a b : option (list bool)) : Prop := match a, b with Some x, Some y => length x = length y | None, None => True | _, _ => False end.

(** [reach rcv out d]: after packets [rcv] were received and [out] were taken by
    direct calls of [Dequeue]. *)
Inductive reach : list Item -> list Item -> Disc T -> Prop :=
  | reach_initial d : initial d -> reach [] [] d
  | reach_enqueue now rcv out d item b d' : reach rcv out d -> fresh_item rcv item d -> Enqueue now item d = Some (b, d') -> reach (rcv ++ [item]) out d'
  | reach_dequeue now rcv out d r d' : reach rcv out d -> Dequeue now d = Some (r, d') -> reach rcv (out ++ option_list r) d'
  | reach_peek now rcv out d r d' : reach rcv out d -> Peek now d = Some (r, d') -> reach rcv out d'
  | reach_stats rcv out d s d' : reach rcv out d -> GetStats d = Some (s, d') -> reach rcv out d'
  | reach_run fuel now rcv out d d' : reach rcv out d -> (load d < fuel)%nat -> Run send fuel now d = Some d' -> reach rcv out d'
  | reach_device qs rcv out d : reach rcv out d -> same_device qs (m_devQueueIface (qd d)) -> reach rcv out (on_qd (set_device qs) d).

Lemma initial_inv d : initial d -> disc_inv [] [] d.
Proof.
  intros (Hok&Hh&Hl&Hp&Hb&Hs&Hr&Hk&Hhd&Hq&Hd). split; [|by rewrite Hk]. unfold uncounted, counted. rewrite Hk, Hr.
  constructor; rewrite ?Hl, ?Hs, ?Hh; try done; [|by apply NoDup_nil|by rewrite Hhd].
  constructor; rewrite ?Hl, ?Hs, ?Hp, ?Hb; try done; intros r; done.
Qed.
Lemma Peek_inv now rcv out d : disc_inv rcv out d -> exists r d', Peek now d = Some (r, d') /\ disc_inv rcv out d'.
Proof.
  intros Hinv. pose proof (DoPeek_law d (i_ok _ _ _ _ (proj1 Hinv))) as Hp. unfold Peek. destruct DoPeek_override as [peek|].
  - destruct Hp as (r&->&_). by exists r, d.
  - destruct (DoPeek_inv now _ _ _ Hinv) as (r&d'&E&Hinv'&_). by exists r, d'.
Qed.
Lemma device_inv qs rcv out d : disc_inv rcv out d -> same_device qs (m_devQueueIface (qd d)) -> disc_inv rcv out (on_qd (set_device qs) d).
Proof.
  intros [[? [] ? ? ? ? ? ? ? Hdev ?] ?] Hs. split; [|done]. constructor; try done. unfold device_ok, same_device in *. cbn.
  destruct qs, (m_devQueueIface (qd d)); try done. by rewrite Hs.
Qed.
Lemma disc_reach_inv rcv out d : reach rcv out d -> disc_inv rcv out d.
Proof.
  induction 1 as [d Hi|now rcv out d item b d' _ IH Hf E|now rcv out d r d' _ IH E|now rcv out d r d' _ IH E|rcv out d s d' _ IH E|fuel now rcv out d d' _ IH Hf E|].
  - by apply initial_inv.
  - destruct (Enqueue_inv now _ _ _ _ IH Hf) as (b'&d1&E'&Hinv&_). congruence.
  - destruct (Dequeue_inv now _ _ _ IH) as (r'&d1&E'&Hinv&_). congruence.
  - destruct (Peek_inv now _ _ _ IH) as (r'&d1&E'&Hinv). congruence.
  - destruct (GetStats_inv _ _ _ IH) as (s'&d1&E'&Hinv&_). congruence.
  - destruct (Run_inv fuel now _ _ _ IH Hf) as (d1&E'&Hr). rewrite E in E'. injection E' as <-.
    destruct (m_running (qd d)); [by subst|]. destruct Hr as [(sent&Hinv&_) _]. exact Hinv.
  - by apply device_inv.
Qed.
End Device.
End Inv.
End QueueDiscInv.
