(* ===== verification/CoDelProps.v ===== *)
(** * Correctness of CoDel

    With a positive [MinBytes], [CoDelQueueDisc] meets the contract of queue discs:
    its dropping loop ends with a packet in hand. Its fixed-point arithmetic follows
    the control law: no 64-bit product overflows, and the next drop is due at most
    [interval / sqrt (count)] later. *)

From stdpp Require Import strings.
From S2P Require Import Prelude Queue QueueProps QueueDisc Disciplines QueueDiscProps DisciplinesProps.

Module CoDelProps.
Import Queue QueueProps QueueDisc QueueDiscProps Disciplines DisciplinesProps CoDel.
Open Scope Z_scope.
#[local] Arguments total : simpl never.

(** ** The contract *)

Definition codel_ok (smax : Z) (p : QueueDiscSizePolicy) (qs : list Queue) (c : CoDelQueueDisc) : Prop := single_ok smax p qs /\ 1 <= m_minBytes c.
Definition codel_okd (smax : Z) (d : Disc CoDelQueueDisc) : Prop := codel_ok smax (m_sizePolicy (qd d)) (m_queues (qd d)) (spec d).

(** Packet [i] was in hand, now [r] is; everything between was dropped. *)
Definition swap_contract (i r : Item) (d d' : Disc CoDelQueueDisc) : Prop := exists l,
  effect d d' l /\ denq l = [] /\ dbef l = [] /\ dsend l = [] /\
  i :: held_in (m_queues (qd d)) ≡ₚ daft l ++ r :: held_in (m_queues (qd d')) /\
  (if m_peeked (qd d) then [] else [i]) ++ ddeq l ≡ₚ daft l ++ (if m_peeked (qd d) then [] else [r]).

(** Steps that report nothing but marks keep the packet and the queues. *)
Definition quiet (d d' : Disc CoDelQueueDisc) : Prop :=
  m_queues (qd d') = m_queues (qd d) /\ exists l, effect d d' l /\ denq l = [] /\ dbef l = [] /\ dsend l = [] /\ ddeq l = [] /\ daft l = [].
Lemma quiet_swap i d d' : quiet d d' -> swap_contract i i d d'.
Proof. intros (Eq&l&He&L1&L2&L3&L4&L5). exists l. rewrite L1, L2, L3, L4, L5, Eq, app_nil_r. by split_and!. Qed.
Lemma quiet_codel f d : quiet d (on_codel f d).
Proof. split; [done|]. exists []. split; [|done]. apply effect_spec. Qed.
Lemma quiet_trans d1 d2 d3 : quiet d1 d2 -> quiet d2 d3 -> quiet d1 d3.
Proof.
  intros (E1&l&He&L1&L2&L3&L4&L5) (E2&l'&He'&M1&M2&M3&M4&M5). split; [congruence|]. exists (l ++ l'). split; [by eapply effect_trans|].
  unfold_events. by rewrite !omap_app, L1, L2, L3, L4, L5, M1, M2, M3, M4, M5.
Qed.
Lemma swap_trans i j k d1 d2 d3 : swap_contract i j d1 d2 -> swap_contract j k d2 d3 -> swap_contract i k d1 d3.
Proof.
  intros (l&He&L1&L2&L3&L4&L5) (l'&He'&M1&M2&M3&M4&M5). exists (l ++ l'). split; [by eapply effect_trans|].
  rewrite (e_peeked _ _ _ He) in M5. unfold_events. rewrite !omap_app, L1, L2, L3, M1, M2, M3. split_and!; try done.
  - rewrite L4, <- app_assoc, M4. solve_Permutation.
  - rewrite app_assoc, L5, <- !app_assoc, M5. solve_Permutation.
Qed.
Lemma quiet_ok smax d d' : quiet d d' -> m_minBytes (spec d') = m_minBytes (spec d) -> codel_okd smax d -> codel_okd smax d'.
Proof. intros (Eq&l&He&_) Em Hok. unfold codel_okd, codel_ok in *. by rewrite (e_policy _ _ _ He), Eq, Em. Qed.

Section Law.
Context (smax : Z).

Definition packets (d : Disc CoDelQueueDisc) : list Item := held_in (m_queues (qd d)).
Lemma single_queue d : codel_okd smax d -> exists q, m_queues (qd d) = [q] /\ packets d = m_packets q /\ queue_inv smax q /\ 1 <= m_minBytes (spec d).
Proof.
  intros [(_&Hl&Hq&_) Hm]. unfold packets. destruct (m_queues (qd d)) as [|q [|? ?]]; try done. exists q. apply Forall_cons in Hq as [Hq _]. cbn. by rewrite app_nil_r.
Qed.
(** It is fine to drop only while packets remain. *)
Lemma OkToDrop_ok ns now i d : codel_okd smax d -> exists b d', OkToDrop ns now (Some i) d = Some (b, d') /\ quiet d d' /\ codel_okd smax d' /\
  m_dropping (spec d') = m_dropping (spec d) /\ (b = true -> packets d' <> []).
Proof.
  intros Hok. destruct (single_queue _ Hok) as (q&Eq&Ep&Hq&Hm). cbn. rewrite Eq. cbn. destruct (_ || _) eqn:Elow.
  - eexists _, _. split; [reflexivity|]. split; [apply quiet_codel|]. by split_and!.
  - apply orb_false_elim in Elow as [_ Eb]. rewrite (inv_bytes _ _ Hq) in Eb.
    assert (packets d <> []) as Hne by (rewrite Ep; intros En; rewrite En in Eb; rewrite q_total_nil in Eb; lia).
    destruct (_ =? 0); (eexists _, _; split; [reflexivity|]).
    + split; [apply quiet_codel|]. by split_and!.
    + split; [split; [done|]; exists []; split; [apply effect_refl|done]|]. by split_and!.
Qed.
Lemma MarkIf_quiet use i r d : item_ok smax i -> smax < 2 ^ 32 -> quiet d (snd (MarkIf use i r d)) /\ spec (snd (MarkIf use i r d)) = spec d.
Proof.
  intros Hi Hs. unfold MarkIf. destruct use; [|split; [|done]; split; [done|]; exists []; split; [apply effect_refl|done]].
  destruct (effect_mark i r d) as (l&He&Hl); [unfold item_ok in Hi; lia|]. unfold Mark in *. destruct (MarkItem i (items d)) as [[] h]; cbn in *.
  all: split; [|done]; split; [done|]; exists l; split; [done|]; by destruct Hl as [-> | ->].
Qed.

(** Dropping the packet in hand and taking the next. *)
Lemma drop_next_ok ns i d : codel_okd smax d -> item_ok smax i -> packets d <> [] ->
  exists j d', call_queue ns 0 Queue.Dequeue (QueueDisc.DropAfterDequeue ns i TARGET_EXCEEDED_DROP d) = Some (Some j, d') /\
    swap_contract i j d d' /\ codel_okd smax d' /\ spec d' = spec d /\ packets d = j :: packets d' /\ item_ok smax j.
Proof.
  intros Hok Hi Hne. set (d0 := QueueDisc.DropAfterDequeue ns i TARGET_EXCEEDED_DROP d). destruct (single_queue _ Hok) as (q&Eq&Ep&Hq&Hm).
  pose proof Hok as [(Hpol&Hlen&Hqs) _]. assert (0 <= GetSize i < 2 ^ 32) as Hs by (unfold item_ok in Hi; destruct Hqs as (_&_&Hs); lia).
  pose proof (effect_after ns i TARGET_EXCEEDED_DROP d Hs) as He0. fold d0 in He0.
  assert (m_queues (qd d0) = m_queues (qd d) /\ spec d0 = spec d) as [Eq0 Es0] by (split; [apply queues_after|apply spec_after]).
  destruct (leaf_dequeue smax ns 0 q d0) as (q'&d'&l&E&Hq'&Eq'&Hpk&Hsp&_&He&L1&L2&L3&L4&L5&Hh); [by rewrite Eq0|by rewrite Eq0, Eq|].
  rewrite Ep in Hne. pose proof (inv_items _ _ Hq) as Hit. destruct (m_packets q) as [|j rest] eqn:Epk; [done|]. cbn in Hpk, E.
  exists j, d'. split; [exact E|]. rewrite Eq0, Eq in Eq'. cbn in Eq'. apply Forall_cons in Hit as [Hj _]. split; [|split; [|split; [congruence|split; [|done]]]].
  - eexists. split; [eapply effect_trans; [exact He0|exact He]|]. rewrite (e_peeked _ _ _ He0) in L5. rewrite Eq0 in Hh.
    unfold_events. rewrite !omap_app, L1, L2, L3, L4, L5. destruct (m_peeked (qd d)); cbn; rewrite ?app_nil_r; (split_and!; try done); rewrite Hh; done.
  - split; [|by rewrite Hsp, Es0]. split_and!; [by rewrite (e_policy _ _ _ He), (e_policy _ _ _ He0)|by rewrite Eq'|apply Hq'..].
  - rewrite Ep. unfold packets. rewrite Eq'. cbn. by rewrite app_nil_r, Hpk.
Qed.

Lemma on_codel_ok f d : codel_okd smax d -> m_minBytes (f (spec d)) = m_minBytes (spec d) -> codel_okd smax (on_codel f d).
Proof. intros Hok Hm. eapply quiet_ok; [apply quiet_codel|exact Hm|done]. Qed.

(** The loop of the dropping state ends with a packet in hand. *)
Lemma drop_loop_ok ns now fuel : forall i d, codel_okd smax d -> item_ok smax i -> (m_dropping (spec d) = true -> packets d <> []) -> (length (packets d) < fuel)%nat ->
  exists marked j d', drop_loop fuel ns now (Some i) d = Some (marked, Some j, d') /\ swap_contract i j d d' /\ codel_okd smax d' /\ item_ok smax j.
Proof.
  induction fuel as [|fuel IH]; intros i d Hok Hi Hne Hf; [lia|]. cbn [drop_loop].
  destruct (m_dropping (spec d) && CoDelTimeAfterEq now (m_dropNext (spec d))) eqn:Ego.
  2:{ exists false, i, d. split_and!; try done; [|apply Hok..]. apply quiet_swap. split; [done|]. exists []. split; [apply effect_refl|done]. }
  apply andb_true_iff in Ego as [Edrop _]. specialize (Hne Edrop). set (f := fun c : CoDelQueueDisc => set_count _ _ c). set (d1 := on_codel f d).
  assert (codel_okd smax d1) as Hok1 by (by apply on_codel_ok). assert (smax < 2 ^ 32) as Hs by apply Hok.
  destruct (MarkIf_quiet (m_useEcn (spec d1)) i TARGET_EXCEEDED_MARK d1 Hi Hs) as [Hq2 Hs2]. destruct (MarkIf _ _ _ d1) as [marked d2] eqn:Em. cbn [snd] in Hq2, Hs2.
  assert (codel_okd smax d2) as Hok2 by (eapply quiet_ok; [exact Hq2|by rewrite Hs2|done]).
  assert (quiet d d2) as Hq02 by (eapply quiet_trans; [apply quiet_codel|exact Hq2]).
  assert (packets d2 = packets d) as Hp2 by (unfold packets; by rewrite (proj1 Hq02)). destruct marked.
  - eexists true, i, _. split; [reflexivity|]. split; [|split; [by apply on_codel_ok|done]].
    apply quiet_swap. eapply quiet_trans; [exact Hq02|apply quiet_codel].
  - destruct (drop_next_ok ns i d2 Hok2 Hi) as (j&d3&E3&Hsw&Hok3&Hs3&Hp3&Hj); [by rewrite Hp2|]. rewrite E3.
    destruct (OkToDrop_ok ns now j d3 Hok3) as (b&d4&E4&Hq4&Hok4&Hdr4&Hb4). rewrite E4.
    set (d5 := if b then _ else _). assert (quiet d4 d5) as Hq5 by (subst d5; destruct b; apply quiet_codel).
    assert (codel_okd smax d5) as Hok5 by (subst d5; destruct b; by apply on_codel_ok).
    assert (packets d5 = packets d3) as Hp5 by (unfold packets; by rewrite (proj1 Hq5), (proj1 Hq4)).
    destruct (IH j d5 Hok5 Hj) as (marked&k&d6&E6&Hsw6&Hok6&Hk).
    + intros Hd5. subst d5. destruct b; [|done]. exact (Hb4 eq_refl).
    + rewrite <- Hp2, Hp3 in Hf. cbn in Hf. rewrite Hp5. lia.
    + exists marked, k, d6. split; [exact E6|]. split; [|done]. eapply swap_trans; [apply quiet_swap, Hq02|]. eapply swap_trans; [exact Hsw|].
      eapply swap_trans; [|exact Hsw6]. apply quiet_swap. eapply quiet_trans; [exact Hq4|exact Hq5].
Qed.
Lemma enter_dropping_ok ns now i d : codel_okd smax d -> item_ok smax i -> packets d <> [] ->
  exists marked j d', enter_dropping ns now i d = Some (marked, Some j, d') /\ swap_contract i j d d' /\ codel_okd smax d' /\ item_ok smax j.
Proof.
  intros Hok Hi Hne. unfold enter_dropping. assert (smax < 2 ^ 32) as Hs by apply Hok.
  destruct (MarkIf_quiet (m_useEcn (spec d)) i TARGET_EXCEEDED_MARK d Hi Hs) as [Hq1 Hs1]. destruct (MarkIf _ _ _ d) as [marked d1] eqn:Em. cbn [snd] in Hq1, Hs1.
  assert (codel_okd smax d1) as Hok1 by (eapply quiet_ok; [exact Hq1|by rewrite Hs1|done]).
  assert (forall c, m_minBytes (restart_law now c) = m_minBytes c) as Hmin by (intros c; unfold restart_law; by destruct (_ && _)). destruct marked.
  - eexists true, i, _. split; [reflexivity|]. split; [|split; [by apply on_codel_ok|done]]. apply quiet_swap. eapply quiet_trans; [exact Hq1|apply quiet_codel].
  - destruct (drop_next_ok ns i d1 Hok1 Hi) as (j&d2&E2&Hsw&Hok2&Hs2&Hp2&Hj); [unfold packets; by rewrite (proj1 Hq1)|]. rewrite E2.
    destruct (OkToDrop_ok ns now j d2 Hok2) as (b&d3&E3&Hq3&Hok3&_&_). rewrite E3. eexists false, j, _. split; [reflexivity|].
    split; [|split; [by apply on_codel_ok|done]]. eapply swap_trans; [apply quiet_swap, Hq1|]. eapply swap_trans; [exact Hsw|].
    apply quiet_swap. eapply quiet_trans; [exact Hq3|apply quiet_codel].
Qed.
Lemma dequeue_end_ok ns marked i d : codel_okd smax d -> item_ok smax i -> exists d', dequeue_end ns marked (Some i) d = Some (Some i, d') /\ quiet d d' /\ codel_okd smax d'.
Proof.
  intros Hok Hi. cbn. assert (smax < 2 ^ 32) as Hs by apply Hok. destruct (MarkIf_quiet true i CE_THRESHOLD_EXCEEDED_MARK d Hi Hs) as [Hq Hsp]. cbn in Hq, Hsp.
  destruct (_ && _ && _ && _); (eexists; split; [reflexivity|]).
  - split; [done|]. eapply quiet_ok; [exact Hq|by rewrite Hsp|done].
  - split; [|done]. split; [done|]. exists []. split; [apply effect_refl|done].
Qed.

(** What follows the first packet. *)
Definition after_first (ns : Z) (i : Item) (d1 : Disc CoDelQueueDisc) : option (option Item * Disc CoDelQueueDisc) :=
  let* (okToDrop, d2) := OkToDrop ns (Time2CoDel ns) (Some i) d1 in
  if m_dropping (spec d2) then
    if negb okToDrop then dequeue_end ns false (Some i) (on_codel (set_dropping false) d2) else
    let* q := m_queues (qd d2) !! 0%nat in
    let* (marked, next, d3) := drop_loop (S (length (m_packets q))) ns (Time2CoDel ns) (Some i) d2 in
    dequeue_end ns marked next d3
  else if okToDrop then
    let* (marked, next, d3) := enter_dropping ns (Time2CoDel ns) i d2 in
    dequeue_end ns marked next d3
  else dequeue_end ns false (Some i) d2.
Lemma after_first_ok ns i d : codel_okd smax d -> item_ok smax i -> exists j d', after_first ns i d = Some (Some j, d') /\ swap_contract i j d d' /\ codel_okd smax d'.
Proof.
  intros Hok Hi. unfold after_first. destruct (OkToDrop_ok ns (Time2CoDel ns) i d Hok) as (b&d2&E2&Hq2&Hok2&Hdr2&Hb2). rewrite E2.
  assert (forall marked j d3, swap_contract i j d2 d3 -> codel_okd smax d3 -> item_ok smax j ->
    exists j' d', dequeue_end ns marked (Some j) d3 = Some (Some j', d') /\ swap_contract i j' d d' /\ codel_okd smax d') as Hend.
  { intros marked j d3 Hsw Hok3 Hj. destruct (dequeue_end_ok ns marked j d3 Hok3 Hj) as (d'&E&Hq&Hok'). exists j, d'. split; [exact E|]. split; [|done].
    eapply swap_trans; [apply quiet_swap, Hq2|]. eapply swap_trans; [exact Hsw|]. by apply quiet_swap. }
  destruct (m_dropping (spec d2)) eqn:Edr; [destruct b|destruct b]; cbn [negb].
  - destruct (single_queue _ Hok2) as (q&Eq&Ep&_&_). rewrite Eq. cbn [lookup list_lookup].
    destruct (drop_loop_ok ns (Time2CoDel ns) (S (length (m_packets q))) i d2 Hok2 Hi) as (marked&j&d3&->&Hsw&Hok3&Hj); [by intros _; apply Hb2|rewrite Ep; lia|]. by apply Hend.
  - apply Hend; [|by apply on_codel_ok|done]. apply quiet_swap, quiet_codel.
  - destruct (enter_dropping_ok ns (Time2CoDel ns) i d2 Hok2 Hi (Hb2 eq_refl)) as (marked&j&d3&->&Hsw&Hok3&Hj). by apply Hend.
  - apply Hend; [|done..]. apply quiet_swap. split; [done|]. exists []. split; [apply effect_refl|done].
Qed.

Lemma CoDelDoDequeue_ok ns d : codel_okd smax d -> exists r d', CoDelDoDequeue ns d = Some (r, d') /\ codel_okd smax d' /\
  dequeue_contract r (held_in (m_queues (qd d))) (held_in (m_queues (qd d'))) d d'.
Proof.
  intros Hok. destruct (single_queue _ Hok) as (q&Eq&Ep&Hq&Hm). pose proof Hok as [(Hpol&Hlen&Hqs) _]. assert (smax < 2 ^ 32) as Hs by apply Hqs.
  destruct (leaf_dequeue smax ns 0 q d Hqs ltac:(by rewrite Eq)) as (q'&d1&l&E&Hq'&Eq'&Hpk&Hsp&Hit&He&L1&L2&L3&L4&L5&Hh). unfold CoDelDoDequeue. rewrite E.
  assert (codel_okd smax d1) as Hok1. { split; [|by rewrite Hsp]. split_and!; [by rewrite (e_policy _ _ _ He)|by rewrite Eq', length_insert|apply Hq'..]. }
  pose proof (inv_items _ _ Hq) as Hits. destruct (m_packets q) as [|i rest] eqn:Epk; cbn [head] in *.
  - eexists None, _. split; [reflexivity|]. split; [by apply on_codel_ok|]. exists (l ++ []). split; [eapply effect_trans; [exact He|apply effect_spec]|].
    rewrite app_nil_r, L1, L2, L3, L4, L5. split_and!; try done. intros _. cbn. rewrite Eq', Eq. cbn. by rewrite Hpk.
  - apply Forall_cons in Hits as [Hi _]. set (L4S := _ && _).
    assert (exists j d', (if L4S then Some (Some i, if CoDelTimeAfter (Time2CoDel (ns - GetTimeStamp i (items d1))) (Time2CoDel (m_ceThreshold (spec d1)))
        then snd (Mark i CE_THRESHOLD_EXCEEDED_MARK d1) else d1) else after_first ns i d1) = Some (Some j, d') /\ swap_contract i j d1 d' /\ codel_okd smax d') as (j&d'&E'&Hsw&Hok').
    { destruct L4S; [|by apply after_first_ok]. destruct (MarkIf_quiet true i CE_THRESHOLD_EXCEEDED_MARK d1 Hi Hs) as [Hq1 Hsp1]. cbn in Hq1, Hsp1.
      exists i. destruct (CoDelTimeAfter _ _); (eexists; split; [reflexivity|]).
      - split; [by apply quiet_swap|]. eapply quiet_ok; [exact Hq1|by rewrite Hsp1|done].
      - split; [|done]. apply quiet_swap. split; [done|]. exists []. split; [apply effect_refl|done]. }
    exists (Some j), d'. split; [exact E'|]. split; [done|]. destruct Hsw as (l'&He'&M1&M2&M3&M4&M5). exists (l ++ l'). split; [by eapply effect_trans|].
    rewrite (e_peeked _ _ _ He) in M5. unfold_events. rewrite !omap_app, L1, L2, L3, L4, L5, M1, M2, M3, Hh. cbn. by split_and!.
Qed.
#[export] Instance codel_laws : DisciplineLaws smax CoDelQueueDisc.
Proof.
  refine {| ok p _ qs c := codel_ok smax p qs c; held qs _ := held_in qs |}.
  - intros p m qs t [(_&_&Hq) _]. by apply queues_fit.
  - intros now item d [Hok Hm] Hi. destruct (single_enqueue smax now OVERLIMIT_DROP item d Hok Hi) as (b&d'&E&Hok'&Hs&Hc). exists b, d'. split; [done|]. split; [|done].
    split; [done|by rewrite Hs].
  - intros now d Hok. apply CoDelDoDequeue_ok, Hok.
  - done.
Defined.
End Law.

(** ** The control law *)

(** [recInvSqrt] is at most [2^16 / sqrt (count)]. *)
Definition newton_inv (c : CoDelQueueDisc) : Prop :=
  0 <= m_recInvSqrt c < 2 ^ 16 /\ 0 <= m_lastCount c <= m_count c /\ m_count c < 2 ^ 32 /\ m_count c * (m_recInvSqrt c * m_recInvSqrt c) <= 2 ^ 32.

(** No intermediate value overflows. *)
Lemma NewtonStep_exact r c : 0 <= r < 2 ^ 16 -> 0 <= c < 2 ^ 32 -> c * (r * r) <= 3 * 2 ^ 32 ->
  NewtonStep r c = u16 ((3 * 2 ^ 32 - c * (r * r)) / 4 * r / 2 ^ 31).
Proof.
  intros Hr Hc Hq. unfold NewtonStep, REC_INV_SQRT_SHIFT. rewrite !Z.shiftl_mul_pow2, !Z.shiftr_div_pow2 by lia.
  rewrite (u32_small (r * 2 ^ 16)) by lia. rewrite (u64_small (r * 2 ^ 16 * _)) by nia.
  replace (r * 2 ^ 16 * (r * 2 ^ 16) / 2 ^ 32) with (r * r) by (apply Z.div_unique_exact; lia).
  rewrite (u32_small (r * r)) by nia. rewrite (u64_small (c * _)) by nia. rewrite (u64_small (3 * 2 ^ 32 - _)) by nia.
  set (v := (3 * 2 ^ 32 - c * (r * r)) / 2 ^ 2). assert (0 <= v <= 3 * 2 ^ 30) as Hv by (subst v; split; [apply Z.div_pos|apply Z.div_le_upper_bound]; nia).
  rewrite u64_small by nia. f_equal. change (32 - 2 + 1) with 31. rewrite Z.div_div by lia. change (2 ^ 31 * 2 ^ 16) with (2 ^ 16 * 2 ^ 31).
  rewrite (Z.mul_comm r), Z.mul_assoc, (Z.mul_comm v), <- Z.mul_assoc, Z.div_mul_cancel_l by lia. done.
Qed.
(** One step of Newton's method stays at or below the root. *)
Lemma newton_upper r c n : 0 <= r -> 0 <= c -> c * (r * r) <= 3 * 2 ^ 32 -> 0 <= n -> n * 2 ^ 33 <= (3 * 2 ^ 32 - c * (r * r)) * r -> c * (n * n) <= 2 ^ 32.
Proof.
  intros Hr Hc Hq Hn Hle. set (M := 2 ^ 32) in *. set (q := c * (r * r)) in *. set (A := (3 * M - q) * r) in *.
  assert (n * 2 ^ 33 * (n * 2 ^ 33) <= A * A) as HA by (apply Z.square_le_mono_nonneg; lia).
  assert (c * (A * A) = q * ((3 * M - q) * (3 * M - q))) as E1 by (subst A q; ring).
  assert (q * ((3 * M - q) * (3 * M - q)) + (M - q) * (M - q) * (4 * M - q) = 4 * M * M * M) as E2 by ring.
  assert (0 <= (M - q) * (M - q) * (4 * M - q)) as H2 by (apply Z.mul_nonneg_nonneg; [apply Z.square_nonneg|lia]).
  assert (c * (n * 2 ^ 33 * (n * 2 ^ 33)) <= 4 * M * M * M) as H3 by (transitivity (c * (A * A)); [by apply Z.mul_le_mono_nonneg_l|lia]).
  subst M. lia.
Qed.
Lemma NewtonStep_ok r c : 0 <= r < 2 ^ 16 -> 1 <= c < 2 ^ 32 -> c * (r * r) <= 3 * 2 ^ 32 ->
  0 <= NewtonStep r c < 2 ^ 16 /\ c * (NewtonStep r c * NewtonStep r c) <= 2 ^ 32.
Proof.
  intros Hr Hc Hq. rewrite NewtonStep_exact by lia. set (v := (3 * 2 ^ 32 - c * (r * r)) / 4). set (n := v * r / 2 ^ 31).
  assert (0 <= v) as Hv by (apply Z.div_pos; lia). assert (4 * v <= 3 * 2 ^ 32 - c * (r * r)) as Hv4 by (apply Z.mul_div_le; lia).
  assert (0 <= n) as Hn by (apply Z.div_pos; nia). assert (2 ^ 31 * n <= v * r) as Hn31 by (apply Z.mul_div_le; lia).
  assert (n * 2 ^ 33 <= (3 * 2 ^ 32 - c * (r * r)) * r) as Hle by nia. clearbody n. clear v Hv Hv4 Hn31.
  assert (c * (n * n) <= 2 ^ 32) as Hu by (apply (newton_upper r); done || lia). assert (n < 2 ^ 16) as Hlt.
  { destruct (Z.lt_ge_cases n (2 ^ 16)) as [|Hge]; [done|]. assert (0 < (2 ^ 16 - r) * (2 ^ 16 - r) * (2 ^ 17 + r)) by (repeat apply Z.mul_pos_pos; lia).
    assert (2 ^ 49 <= (3 * 2 ^ 32 - c * (r * r)) * r) by lia. assert ((3 * 2 ^ 32 - c * (r * r)) * r <= (3 * 2 ^ 32 - r * r) * r) by nia. nia. }
  rewrite u16_small by lia. lia.
Qed.
(** The next drop is due at most [interval / sqrt (count)] later. *)
Lemma ControlLaw_ok c t I : newton_inv c -> 0 <= I < 2 ^ 32 ->
  exists k, ControlLaw t I (m_recInvSqrt c) = u32 (t + k) /\ 0 <= k <= I /\ m_count c * (k * k) <= I * I.
Proof.
  intros ((Hr0&Hr1)&Hl&Hc&Hq) HI. unfold ControlLaw, ReciprocalDivide, REC_INV_SQRT_SHIFT. rewrite Z.shiftl_mul_pow2, Z.shiftr_div_pow2 by lia.
  set (r := m_recInvSqrt c) in *. rewrite (u32_small (r * 2 ^ 16)) by lia. rewrite u64_small by nia.
  replace (I * (r * 2 ^ 16) / 2 ^ 32) with (I * r / 2 ^ 16) by (change (2 ^ 32) with (2 ^ 16 * 2 ^ 16); rewrite Z.mul_assoc, Z.div_mul_cancel_r; lia).
  set (k := I * r / 2 ^ 16). assert (0 <= k) as Hk by (apply Z.div_pos; nia). assert (2 ^ 16 * k <= I * r) as Hk2 by (apply Z.mul_div_le; lia). clearbody k.
  assert (k <= I) as HkI by nia. exists k. split; [by rewrite (u32_small k) by lia|]. split; [lia|].
  assert (2 ^ 16 * k * (2 ^ 16 * k) <= I * r * (I * r)) as H2 by (apply Z.square_le_mono_nonneg; lia).
  assert (m_count c * (2 ^ 16 * k * (2 ^ 16 * k)) <= m_count c * (I * r * (I * r))) as H3 by (apply Z.mul_le_mono_nonneg_l; lia).
  assert (m_count c * (I * r * (I * r)) = I * I * (m_count c * (r * r))) as E by ring.
  assert (I * I * (m_count c * (r * r)) <= I * I * 2 ^ 32) by (apply Z.mul_le_mono_nonneg_l; [apply Z.square_nonneg|lia]). lia.
Qed.

(** Counting a drop. *)
Lemma newton_count c : newton_inv c -> m_count c + 1 < 2 ^ 32 ->
  newton_inv (set_count (u32 (m_count c + 1)) (NewtonStep (m_recInvSqrt c) (u32 (m_count c + 1))) c).
Proof.
  intros (Hr&Hl&Hc&Hq) Hb. rewrite u32_small by lia. destruct (NewtonStep_ok (m_recInvSqrt c) (m_count c + 1)) as [H1 H2]; [lia..|nia|].
  split_and!; cbn [m_recInvSqrt m_lastCount m_count set_count]; lia.
Qed.
Lemma i32_pos n : 0 <= n < 2 ^ 32 -> 1 < i32 n -> i32 n = n.
Proof.
  intros Hn. unfold i32, swrap. change (32 - 1) with 31. destruct (Z.lt_ge_cases n (2 ^ 31)); [rewrite Z.mod_small; lia|].
  replace (n + 2 ^ 31) with (n - 2 ^ 31 + 1 * 2 ^ 32) by lia. rewrite Z_mod_plus_full, Z.mod_small; lia.
Qed.
Lemma newton_restart now c : newton_inv c -> newton_inv (restart_law now c) /\ m_count (restart_law now c) <= Z.max 1 (m_count c).
Proof.
  intros (Hr&Hl&Hc&Hq). unfold restart_law. cbn [m_count m_lastCount set_dropping m_recInvSqrt]. set (n := m_count c - m_lastCount c).
  destruct ((1 <? _) && _) eqn:E; cbn [m_count m_lastCount set_count set_lastCount set_dropNext set_dropping m_recInvSqrt].
  - apply andb_true_iff in E as [E _]. apply Z.ltb_lt in E. rewrite (u32_small n) in * by lia.
    assert (i32 n = n) as En by (apply i32_pos; lia). rewrite En in *. rewrite (u32_small n) by lia.
    destruct (NewtonStep_ok (m_recInvSqrt c) n) as [H1 H2]; [lia..|nia|]. unfold newton_inv. cbn [m_count m_lastCount set_count set_lastCount set_dropNext set_dropping m_recInvSqrt]. lia.
  - change (Z.shiftr UINT32_MAX REC_INV_SQRT_SHIFT) with 65535. unfold newton_inv. cbn [m_count m_lastCount set_count set_lastCount set_dropNext set_dropping m_recInvSqrt]. lia.
Qed.

Lemma spec_events {T} now l : forall d : Disc T, spec (fold_left (on_queue_event now) l d) = spec d.
Proof. induction l as [|e l IH]; intros d; [done|]. cbn. rewrite IH. destruct e; cbn; [done|apply spec_dequeued|done|apply spec_after]. Qed.
Lemma spec_call {T X} now k f (d : Disc T) (x : X) d' : call_queue now k f d = Some (x, d') -> spec d' = spec d.
Proof.
  unfold call_queue. destruct (m_queues (qd d) !! k) as [q|]; [|done]. destruct (f q) as [[y q']|]; [|done]. intros [= _ <-]. by rewrite spec_events.
Qed.
Lemma spec_Mark i r (d : Disc CoDelQueueDisc) : spec (snd (Mark i r d)) = spec d.
Proof. unfold Mark. by destruct (MarkItem i (items d)) as [[] h]. Qed.
Lemma spec_MarkIf b i r d : spec (snd (MarkIf b i r d)) = spec d.
Proof. destruct b; [apply spec_Mark|done]. Qed.

(** The parts of the law are changed by nothing else. *)
Definition same_law (c c' : CoDelQueueDisc) : Prop :=
  m_count c' = m_count c /\ m_lastCount c' = m_lastCount c /\ m_recInvSqrt c' = m_recInvSqrt c /\ m_interval c' = m_interval c.
Lemma same_law_inv c c' : same_law c c' -> newton_inv c -> newton_inv c'.
Proof. intros (E1&E2&E3&_). unfold newton_inv. by rewrite E1, E2, E3. Qed.
Lemma OkToDrop_law ns now item d b d' : OkToDrop ns now item d = Some (b, d') -> same_law (spec d) (spec d').
Proof.
  unfold OkToDrop. destruct item as [i|]; [|by intros [= _ <-]]. destruct (m_queues (qd d) !! 0%nat); [|done].
  destruct (_ || _); [by intros [= _ <-]|]. destruct (_ =? 0); by intros [= _ <-].
Qed.
Lemma OkToDrop_queues ns now item d b d' : OkToDrop ns now item d = Some (b, d') -> m_queues (qd d') = m_queues (qd d).
Proof.
  unfold OkToDrop. destruct item as [i|]; [|by intros [= _ <-]]. destruct (m_queues (qd d) !! 0%nat); [|done].
  destruct (_ || _); [by intros [= _ <-]|]. destruct (_ =? 0); by intros [= _ <-].
Qed.
Lemma dequeue_end_law ns marked item d r d' : dequeue_end ns marked item d = Some (r, d') -> spec d' = spec d.
Proof. unfold dequeue_end. destruct item; [|done]. destruct (_ && _ && _ && _); intros [= _ <-]; [apply spec_Mark|done]. Qed.

(** The invariant of the law, with a bound on the number of drops. *)
Definition law_ok (bound : Z) (d : Disc CoDelQueueDisc) : Prop := newton_inv (spec d) /\ m_count (spec d) <= bound /\ bound < 2 ^ 32.
Lemma law_same bound d d' : law_ok bound d -> same_law (spec d) (spec d') -> law_ok bound d'.
Proof. intros (H1&H2&H3) Hs. pose proof (same_law_inv _ _ Hs H1). destruct Hs as (E&_). split_and!; [done|lia|done]. Qed.
Lemma drop_loop_law ns now fuel : forall item d marked j d' bound, law_ok bound d -> bound + Z.of_nat fuel < 2 ^ 32 ->
  drop_loop fuel ns now item d = Some (marked, j, d') -> law_ok (bound + Z.of_nat fuel) d'.
Proof.
  induction fuel as [|fuel IH]; intros item d marked j d' bound Hl Hb E; cbn [drop_loop] in E; (destruct (_ && _); [|injection E as _ _ <-; destruct Hl as (?&?&?); split_and!; done || lia]); [done|].
  set (d1 := on_codel _ d) in E. assert (law_ok (bound + 1) d1) as Hl1.
  { destruct Hl as (H1&H2&H3). split_and!; [apply newton_count; [done|lia]|cbn; rewrite u32_small; destruct H1 as (_&?&_); lia|lia]. }
  destruct item as [i|]; [|done]. pose proof (spec_MarkIf (m_useEcn (spec d1)) i TARGET_EXCEEDED_MARK d1) as Hs. destruct (MarkIf _ _ _ d1) as [m d2]. cbn [snd] in Hs.
  assert (law_ok (bound + 1) d2) as Hl2 by (eapply law_same; [exact Hl1|by rewrite Hs]). destruct m.
  - injection E as _ _ <-. destruct (law_same _ _ (on_codel (fun c => set_dropNext (ControlLaw now (Time2CoDel (m_interval c)) (m_recInvSqrt c)) c) d2) Hl2) as (?&?&?); [done|].
    split_and!; [done|lia..].
  - destruct (call_queue _ _ _ _) as [[next d3]|] eqn:E3; [|done]. apply spec_call in E3. rewrite spec_after in E3.
    destruct (OkToDrop ns now next d3) as [[b d4]|] eqn:E4; [|done]. apply OkToDrop_law in E4. rewrite E3 in E4.
    replace (bound + Z.of_nat (S fuel)) with (bound + 1 + Z.of_nat fuel) by lia. eapply IH; [|lia|exact E]. eapply law_same; [exact Hl2|]. by destruct b.
Qed.
Lemma enter_dropping_law ns now i d marked j d' bound : law_ok bound d -> 1 <= bound -> enter_dropping ns now i d = Some (marked, j, d') -> law_ok bound d'.
Proof.
  intros Hl Hb. unfold enter_dropping. pose proof (spec_MarkIf (m_useEcn (spec d)) i TARGET_EXCEEDED_MARK d) as Hs. destruct (MarkIf _ _ _ d) as [m d1]. cbn [snd] in Hs.
  assert (forall d2, same_law (spec d) (spec d2) -> law_ok bound (on_codel (restart_law now) d2)) as Hend.
  { intros d2 Hs2. destruct (law_same _ _ _ Hl Hs2) as (H1&H2&H3). destruct (newton_restart now (spec d2) H1) as [H4 H5]. split_and!; [done|change (m_count (restart_law now (spec d2)) <= bound); lia|done]. }
  destruct m; [intros [= _ _ <-]; apply Hend; by rewrite Hs|].
  destruct (call_queue _ _ _ _) as [[next d3]|] eqn:E3; [|done]. apply spec_call in E3. rewrite spec_after, Hs in E3.
  destruct (OkToDrop ns now next d3) as [[b d4]|] eqn:E4; [|done]. apply OkToDrop_law in E4. rewrite E3 in E4. intros [= _ _ <-]. by apply Hend.
Qed.
Lemma after_first_law ns i d r d' bound q : law_ok bound d -> 1 <= bound -> m_queues (qd d) !! 0%nat = Some q -> bound + Z.of_nat (S (length (m_packets q))) < 2 ^ 32 ->
  after_first ns i d = Some (r, d') -> law_ok (bound + Z.of_nat (S (length (m_packets q)))) d'.
Proof.
  intros Hl Hb Hq Hbound E. unfold after_first in E. set (n := Z.of_nat (S (length (m_packets q)))) in *. assert (0 <= n) by lia.
  assert (forall d0, law_ok bound d0 -> law_ok (bound + n) d0) as Hweak by (intros d0 (?&?&?); split_and!; done || lia).
  destruct (OkToDrop _ _ _ d) as [[b d2]|] eqn:E2; [|done]. rewrite (OkToDrop_queues _ _ _ _ _ _ E2), Hq in E. apply OkToDrop_law in E2.
  assert (law_ok bound d2) as Hl2 by (by eapply law_same). destruct (m_dropping (spec d2)); [destruct b|destruct b]; cbn [negb] in E.
  - destruct (drop_loop _ _ _ _ d2) as [[[m nx] d3]|] eqn:E3; [|done]. apply (drop_loop_law _ _ _ _ _ _ _ _ bound) in E3; [|done..].
    apply dequeue_end_law in E. eapply law_same; [exact E3|by rewrite E].
  - apply dequeue_end_law in E. apply Hweak. eapply law_same; [exact Hl2|by rewrite E].
  - destruct (enter_dropping _ _ _ d2) as [[[m nx] d3]|] eqn:E3; [|done]. apply (enter_dropping_law _ _ _ _ _ _ _ bound) in E3; [|done..].
    apply dequeue_end_law in E. apply Hweak. eapply law_same; [exact E3|by rewrite E].
  - apply dequeue_end_law in E. apply Hweak. eapply law_same; [exact Hl2|by rewrite E].
Qed.
Lemma CoDelDoDequeue_law smax ns d r d' bound : codel_okd smax d -> law_ok bound d -> 1 <= bound -> bound + Z.of_nat (length (packets d)) < 2 ^ 32 ->
  CoDelDoDequeue ns d = Some (r, d') -> law_ok (bound + Z.of_nat (length (packets d))) d'.
Proof.
  intros Hok Hl Hb Hbound. destruct (single_queue _ _ Hok) as (q&Eq&Ep&_&_). pose proof Hok as [(_&_&Hqs) _]. rewrite Ep in *.
  destruct (leaf_dequeue smax ns 0 q d Hqs ltac:(by rewrite Eq)) as (q'&d1&l&E&_&Eq'&Hpk&Hsp&_). unfold CoDelDoDequeue. rewrite E.
  assert (law_ok bound d1) as Hl1 by (eapply law_same; [exact Hl|by rewrite Hsp]). rewrite Eq in Eq'. cbn in Eq'.
  destruct (m_packets q) as [|i rest]; cbn [head tail length] in *.
  - intros [= _ <-]. rewrite Z.add_0_r. eapply law_same; [exact Hl1|done].
  - set (L4S := _ && _). destruct L4S.
    + intros [= _ <-]. assert (law_ok (bound + Z.of_nat (S (length rest))) d1) as Hw by (destruct Hl1 as (?&?&?); split_and!; done || lia).
      eapply law_same; [exact Hw|]. destruct (CoDelTimeAfter _ _); [|done]. by rewrite spec_Mark.
    + intros E1. rewrite <- Hpk. apply (after_first_law ns i d1 r); [done|done|by rewrite Eq'|by rewrite Hpk|exact E1].
Qed.
Lemma Time2CoDel_range t : 0 <= Time2CoDel t < 2 ^ 32.
Proof. unfold Time2CoDel, u32, wrap. apply Z.mod_pos_bound. lia. Qed.
End CoDelProps.
