(* ===== verification/QueueSystem.v ===== *)
(** * Queue discs as a whole

    The theorems on queue discs, stated for every class that meets the contract; that
    the configured [FifoQueueDisc], [PfifoFastQueueDisc] and [CoDelQueueDisc] start in
    a state to which they apply; and runs of a concrete queue disc. *)

From stdpp Require Import strings.
From S2P Require Import Prelude Queue QueueProps QueueDisc Disciplines QueueDiscProps QueueDiscInv DisciplinesProps CoDelProps.

Module QueueSystem.
Import Queue QueueProps QueueDisc Disciplines QueueDiscProps QueueDiscInv DisciplinesProps CoDelProps.
Open Scope Z_scope.

(** ** Theorems *)

Section Theorems.
Context {smax : Z} {T : Type} `{DL : DisciplineLaws smax T} (send : Item -> list bool -> list bool).

(** C15: No packet is lost or duplicated in a queue disc. For every class that meets
    the contract and every sequence of operations, the packets received are, each
    exactly once, those dropped before being enqueued, those dropped after being
    dequeued, those sent to the device, those handed out by [Dequeue], those in the
    queues, and the one held back; and the statistics are the counts of the reported
    events. *)
Theorem queue_disc_conserves rcv out (d : Disc T) :
  (forall i qs, length (send i qs) = length qs) -> reach send rcv out d ->
  rcv ≡ₚ dbef (d_log (qd d)) ++ daft (d_log (qd d)) ++ dsend (d_log (qd d)) ++ out ++ heldd d ++ option_list (m_requeued (qd d)) /\
  counts (nTotalReceivedPackets (m_stats (qd d))) (nTotalReceivedBytes (m_stats (qd d))) rcv /\ tally (qd d).
Proof.
  intros Hs Hr. destruct (disc_reach_inv send Hs _ _ _ Hr) as [Hc _]. split; [|split; [apply Hc|apply Hc]].
  rewrite (core_split _ _ _ _ Hc) at 1. unfold uncounted, counted. destruct (m_peeked (qd d)); rewrite ?app_nil_r; solve_Permutation.
Qed.

(** C39: No operation of a queue disc fails an assertion, whatever came before: the
    base class's checks of its statistics hold at every [Enqueue], [Dequeue], [Peek]
    and [GetStats], no header is added twice, no device queue out of range is asked
    for; and without a peeked packet [GetStats] gives the number and the bytes of the
    packets that were sent or handed out. *)
Theorem queue_disc_never_fails now rcv out (d : Disc T) item :
  (forall i qs, length (send i qs) = length qs) -> reach send rcv out d -> fresh_item (smax := smax) rcv item d ->
  is_Some (Enqueue now item d) /\ is_Some (Dequeue now d) /\ is_Some (Peek now d) /\ is_Some (Run send (S (load d)) now d) /\
  exists s d', GetStats d = Some (s, d') /\
    (m_peeked (qd d) = false -> counts (nTotalSentPackets s) (nTotalSentBytes s) (dsend (d_log (qd d)) ++ out)).
Proof.
  intros Hs Hr Hi. pose proof (disc_reach_inv send Hs _ _ _ Hr) as Hinv. split_and!.
  - destruct (Enqueue_inv now _ _ _ item Hinv Hi) as (b&d'&->&_). done.
  - destruct (Dequeue_inv now _ _ _ Hinv) as (r&d'&->&_). done.
  - destruct (Peek_inv now _ _ _ Hinv) as (r&d'&->&_). done.
  - destruct (Run_inv send Hs (S (load d)) now _ _ _ Hinv) as (d'&->&_); [lia|done].
  - destruct (GetStats_inv _ _ _ Hinv) as (s&d'&E&_&Hc). by exists s, d'.
Qed.

(** A run of an idle queue disc ends and makes progress: it sends at most its
    quota of packets, and stops below the quota only when nothing is left to send or
    a transmission queue of the device is stopped. *)
Theorem queue_disc_run_progress now rcv out (d : Disc T) :
  (forall i qs, length (send i qs) = length qs) -> reach send rcv out d -> m_running (qd d) = false ->
  exists d' sent, Run send (S (load d)) now d = Some d' /\ reach send rcv out d' /\ dsend (d_log (qd d')) = dsend (d_log (qd d)) ++ sent /\
    Z.of_nat (length sent) <= m_quota (qd d) /\ (Z.of_nat (length sent) = m_quota (qd d) \/ load d' = 0%nat \/ stuck d').
Proof.
  intros Hs Hr Hrun. destruct (Run_inv send Hs (S (load d)) now _ _ _ (disc_reach_inv send Hs _ _ _ Hr)) as (d'&E&Hres); [lia|].
  rewrite Hrun in Hres. destruct Hres as [(sent&_&Hsent&_&Hn&Hend) _]. exists d', sent. split; [done|]. split; [|done].
  eapply reach_run; [exact Hr| |exact E]. lia.
Qed.
End Theorems.

(** CoDel's control law holds in 32-bit fixed-point arithmetic. While fewer than
    2^32 packets have been dropped, a dequeue keeps the reciprocal square root at or
    below [2^16 / sqrt (count)], without overflow on the way; so the law always puts
    the next drop, from any time [t], at most [interval / sqrt (count)] later. *)
Theorem codel_control_law smax ns (d : Disc CoDel.CoDelQueueDisc) r d' t :
  codel_okd smax d -> newton_inv (spec d) -> Z.max 1 (CoDel.m_count (spec d)) + Z.of_nat (length (packets d)) < 2 ^ 32 ->
  CoDel.CoDelDoDequeue ns d = Some (r, d') ->
  newton_inv (spec d') /\ exists k, let I := CoDel.Time2CoDel (CoDel.m_interval (spec d')) in
    CoDel.ControlLaw t I (CoDel.m_recInvSqrt (spec d')) = u32 (t + k) /\ 0 <= k <= I /\ CoDel.m_count (spec d') * (k * k) <= I * I.
Proof.
  intros Hok Hn Hb E. pose proof (CoDelDoDequeue_law smax ns d r d' (Z.max 1 (CoDel.m_count (spec d))) Hok) as H.
  destruct H as (Hn'&_&_); [|lia|done|done|]. { split_and!; [done|lia|lia]. }
  split; [done|]. apply ControlLaw_ok; [done|apply Time2CoDel_range].
Qed.

(** ** Configuration *)

Section Setup.
Context (smax : Z) (s : QueueSize) (dev : option (list bool)) (h : Items).
Context (Hs : capacity_ok smax s) (Hdev : device_ok dev []) (Hh : h_headerAdded h = ∅).

Lemma replicate_caps n q : caps smax (replicate n q) = Z.of_nat n * cap_bytes smax (Queue.GetMaxSize q).
Proof. unfold caps. induction n as [|n IH]; [done|]. rewrite replicate_S, fmap_cons. cbn [foldr]. rewrite IH. lia. Qed.
(** The queues a queue disc gets by default. *)
Lemma default_queues_ok n d : m_queues d = [] -> QueueDisc.GetMaxSize d = Some s -> Z.of_nat n * cap_bytes smax s + smax < 2 ^ 32 ->
  exists qs, default_queues n d = Some (set_queues qs d) /\ length qs = n /\ queues_ok smax qs /\ held_in qs = [] /\ Forall (fun q => Queue.GetMaxSize q = s) qs.
Proof.
  intros Hq Hm Hcap. unfold default_queues. rewrite Hq, Hm. destruct (DropTailQueue_new_ok smax s Hs) as (q&->&Hinv&Hp&_&Hmax).
  exists (replicate n q). split; [done|]. split; [apply length_replicate|]. pose proof (capacity_smax _ _ Hs). unfold queues_ok. split_and!.
  - by apply Forall_replicate.
  - by rewrite replicate_caps, Hmax.
  - lia.
  - unfold held_in. clear -Hp. induction n as [|n IH]; [done|]. cbn. by rewrite Hp, IH.
  - by apply Forall_replicate.
Qed.

Lemma fifo_configured : cap_bytes smax s + smax < 2 ^ 32 ->
  exists d d', Fifo.FifoQueueDisc_new s = Some d /\ Fifo.CheckConfig d = Some (true, d') /\
    initial (smax := smax) (mkD (set_device dev d') h Fifo.mkFifo).
Proof.
  intros Hcap. destruct Hs as (_&Hv&_). unfold Fifo.FifoQueueDisc_new, QueueDisc.SetMaxSize. replace (qs_value s =? 0) with false by lia. cbn.
  destruct (default_queues_ok 1 (set_maxSize s (QueueDisc_new SINGLE_INTERNAL_QUEUE)) eq_refl eq_refl ltac:(lia)) as (qs&E&Hl&Hok&Hhe&_).
  eexists _, _. split; [reflexivity|]. split; [unfold Fifo.CheckConfig; rewrite E; cbn; by rewrite Hl|]. split; [split_and!; done || apply Hok|]. split_and!; done.
Qed.
Lemma codel_configured c : cap_bytes smax s + smax < 2 ^ 32 -> 1 <= CoDel.m_minBytes c ->
  exists d d', CoDel.CoDelBase_new s = Some d /\ CoDel.CheckConfig d = Some (true, d') /\
    initial (smax := smax) (mkD (set_device dev d') h c).
Proof.
  intros Hcap Hmin. destruct Hs as (_&Hv&_). unfold CoDel.CoDelBase_new, QueueDisc.SetMaxSize. replace (qs_value s =? 0) with false by lia. cbn.
  destruct (default_queues_ok 1 (set_maxSize s (QueueDisc_new SINGLE_INTERNAL_QUEUE)) eq_refl eq_refl ltac:(lia)) as (qs&E&Hl&Hok&Hhe&_).
  eexists _, _. split; [reflexivity|]. split; [unfold CoDel.CheckConfig; rewrite E; cbn; by rewrite Hl|]. split; [split; [split_and!; done || apply Hok|done]|]. split_and!; done.
Qed.
Lemma pfifo_configured : qs_unit s = PACKETS -> 3 * cap_bytes smax s + smax < 2 ^ 32 ->
  exists d d', PfifoFast.PfifoFastQueueDisc_new s = Some d /\ PfifoFast.CheckConfig d = Some (true, d') /\
    initial (smax := smax) (mkD (set_device dev d') h PfifoFast.mkPfifoFast).
Proof.
  intros Hu Hcap. destruct Hs as (_&Hv&_). unfold PfifoFast.PfifoFastQueueDisc_new, QueueDisc.SetMaxSize. replace (qs_value s =? 0) with false by lia. cbn -[default_queues].
  rewrite bool_decide_true by done. cbn -[default_queues].
  destruct (default_queues_ok 3 (set_maxSize s (QueueDisc_new_unit MULTIPLE_QUEUES PACKETS)) eq_refl eq_refl ltac:(lia)) as (qs&E&Hl&Hok&Hhe&Hmax).
  eexists _, (set_queues qs (set_maxSize s (QueueDisc_new_unit MULTIPLE_QUEUES PACKETS))). split; [reflexivity|].
  split; [|split; [split_and!; done || apply Hok|]; split_and!; done]. unfold PfifoFast.CheckConfig. rewrite E. cbn [m_queues set_queues]. rewrite Hl. cbn [Nat.eqb negb]. destruct qs as [|q0 [|q1 [|q2 [|? ?]]]]; try done.
  rewrite !Forall_cons in Hmax. destruct Hmax as (E0&E1&E2&_). cbn [existsb]. rewrite E0, E1, E2, bool_decide_true by done. cbn [negb orb].
  unfold PfifoFast.smaller, QueueDisc.GetMaxSize. cbn. rewrite E0, E1. unfold size_lt, size_compare. rewrite decide_True by done. by rewrite Z.ltb_irrefl.
Qed.
End Setup.
End QueueSystem.

(** * Runs of concrete queue discs

    A [FifoQueueDisc] of two packets over a device with one transmission queue: the
    instances of the theorems on queue discs. Then behaviours at the edges: statistics
    while a packet is peeked, a root queue disc that was peeked, CoDel with a zero
    [MinBytes], the check of the internal queues of [PfifoFastQueueDisc], a zero
    quota. *)

Module QueueDemo.
Import Queue QueueProps QueueDisc Disciplines QueueDiscProps QueueDiscInv DisciplinesProps CoDelProps QueueSystem.
Open Scope Z_scope.

Definition no_items : Items := mkItems ∅ ∅ ∅ ∅.
(** A device that never stops its queue. *)
Definition eager (_ : Item) (qs : list bool) : list bool := qs.
Lemma eager_length i qs : length (eager i qs) = length qs.
Proof. done. Qed.
Definition the_disc {X T} (d0 : Disc T) (r : option (X * Disc T)) : Disc T := match r with Some (_, d) => d | None => d0 end.
Definition the_qd (r : option (bool * QueueDisc)) : QueueDisc := match r with Some (_, d) => d | None => QueueDisc_new NO_LIMITS end.

(** ** A first-in first-out queue disc *)

Definition demo_size : QueueSize := mkSize PACKETS 2.
Definition fifo0 : Disc Fifo.FifoQueueDisc :=
  mkD (set_device (Some [false]) (the_qd (let* d := Fifo.FifoQueueDisc_new demo_size in Fifo.CheckConfig d))) no_items Fifo.mkFifo.
Definition fifo1 : Disc Fifo.FifoQueueDisc := the_disc fifo0 (Enqueue 1 (demo_item 1) fifo0).
Definition fifo2 : Disc Fifo.FifoQueueDisc := the_disc fifo0 (Enqueue 2 (demo_item 2) fifo1).
Definition fifo3 : Disc Fifo.FifoQueueDisc := the_disc fifo0 (Enqueue 3 (demo_item 3) fifo2).

Lemma demo_capacity : capacity_ok 1500 demo_size.
Proof. unfold capacity_ok. cbn. lia. Qed.
Lemma fifo0_initial : initial (smax := 1500) fifo0.
Proof.
  destruct (fifo_configured 1500 demo_size (Some [false]) no_items demo_capacity) as (d&d'&E1&E2&Hi); [cbn; split; [lia|done]|done|cbn; lia|].
  unfold fifo0, the_qd. rewrite E1. cbn [mbind option_bind]. rewrite E2. exact Hi.
Qed.
Lemma demo_fresh n rcv (d : Disc Fifo.FifoQueueDisc) : n ∉ uid <$> rcv -> m_devQueueIface (qd d) = Some [false] -> fresh_item (smax := 1500) rcv (demo_item n) d.
Proof.
  intros Hn Hd. split_and!; [unfold item_ok; cbn; lia|exact Hn|]. rewrite Hd. cbn. split; [lia|]. repeat constructor; cbn; lia.
Qed.
Definition demo_rcv : list Item := [demo_item 1; demo_item 2; demo_item 3].
Lemma fifo3_reach : reach (smax := 1500) eager demo_rcv [] fifo3.
Proof.
  apply (reach_enqueue eager 3 [demo_item 1; demo_item 2] [] fifo2 (demo_item 3) false); [|apply demo_fresh; [cbn; set_solver|vm_compute; reflexivity]|vm_compute; reflexivity].
  apply (reach_enqueue eager 2 [demo_item 1] [] fifo1 (demo_item 2) true); [|apply demo_fresh; [cbn; set_solver|vm_compute; reflexivity]|vm_compute; reflexivity].
  apply (reach_enqueue eager 1 [] [] fifo0 (demo_item 1) true); [|apply demo_fresh; [cbn; set_solver|vm_compute; reflexivity]|vm_compute; reflexivity].
  apply reach_initial, fifo0_initial.
Qed.

Lemma queue_disc_conserves_witness : dbef (d_log (qd fifo3)) = [demo_item 3] /\ heldd (smax := 1500) fifo3 = [demo_item 1; demo_item 2] /\ tally (qd fifo3).
Proof.
  destruct (queue_disc_conserves eager demo_rcv [] fifo3 eager_length fifo3_reach) as (_&_&Ht).
  split; [vm_compute; reflexivity|]. split; [vm_compute; reflexivity|exact Ht].
Defined.
Lemma queue_disc_never_fails_witness : is_Some (Enqueue 4 (demo_item 4) fifo3) /\ is_Some (Run eager (S (load (smax := 1500) fifo3)) 4 fifo3).
Proof.
  destruct (queue_disc_never_fails eager 4 demo_rcv [] fifo3 (demo_item 4) eager_length fifo3_reach) as (H1&_&_&H4&_).
  - apply demo_fresh; [cbn; set_solver|vm_compute; reflexivity].
  - split; [exact H1|exact H4].
Defined.
Lemma queue_disc_run_progress_witness : exists d' sent, Run eager 3 4 fifo3 = Some d' /\ dsend (d_log (qd d')) = dsend (d_log (qd fifo3)) ++ sent /\ Z.of_nat (length sent) <= 64.
Proof.
  destruct (queue_disc_run_progress eager 4 demo_rcv [] fifo3 eager_length fifo3_reach eq_refl) as (d'&sent&H1&_&H2&H3&_).
  exists d', sent. split; [exact H1|]. split; [exact H2|exact H3].
Defined.

(** ** CoDel *)

Definition ms : Z := 1000000.
Definition codel0 (ecn : bool) (minBytes : Z) : Disc CoDel.CoDelQueueDisc :=
  mkD (set_device (Some [false]) (the_qd (let* d := CoDel.CoDelBase_new (mkSize PACKETS 10) in CoDel.CheckConfig d))) no_items
    (CoDel.CoDelQueueDisc_new ecn false minBytes (100 * ms) (5 * ms) (2 ^ 63 - 1)).
(** [n] packets arrive at time 0. *)
Fixpoint arrivals {T} `{Discipline T} (n : nat) (d : Disc T) : Disc T :=
  match n with O => d | S n => the_disc d (Enqueue 0 (demo_item (Z.of_nat n)) (arrivals n d)) end.
(** A dequeue at 10 ms finds the delay above the target for the first time. *)
Definition codel_above (minBytes : Z) (n : nat) : Disc CoDel.CoDelQueueDisc :=
  let d := arrivals n (codel0 false minBytes) in the_disc d (Dequeue (10 * ms) d).

Lemma codel_above_ok : codel_okd 1500 (codel_above 1 4).
Proof.
  assert (initial (smax := 1500) (codel0 false 1)) as Hi.
  { destruct (codel_configured 1500 (mkSize PACKETS 10) (Some [false]) no_items ltac:(unfold capacity_ok; cbn; lia) ltac:(cbn; split; [lia|done]) eq_refl
      (CoDel.CoDelQueueDisc_new false false 1 (100 * ms) (5 * ms) (2 ^ 63 - 1)) ltac:(cbn; lia) ltac:(cbn; lia)) as (d&d'&E1&E2&Hi).
    unfold codel0, the_qd. rewrite E1. cbn [mbind option_bind]. rewrite E2. exact Hi. }
  assert (forall n, item_ok 1500 (demo_item n)) as Hit by (intros n; unfold item_ok; cbn; lia).
  assert (forall n rcv (d : Disc CoDel.CoDelQueueDisc), n ∉ uid <$> rcv -> m_devQueueIface (qd d) = Some [false] -> fresh_item (smax := 1500) rcv (demo_item n) d) as Hfr.
  { intros n rcv d Hn Hd. split_and!; [apply Hit|exact Hn|]. rewrite Hd. cbn. split; [lia|]. repeat constructor; cbn; lia. }
  assert (reach (smax := 1500) eager [demo_item 0; demo_item 1; demo_item 2; demo_item 3] [demo_item 0] (codel_above 1 4)) as Hr.
  { apply (reach_dequeue eager (10 * ms) _ [] (arrivals 4 (codel0 false 1)) (Some (demo_item 0))); [|vm_compute; reflexivity].
    apply (reach_enqueue eager 0 [demo_item 0; demo_item 1; demo_item 2] [] (arrivals 3 (codel0 false 1)) (demo_item 3) true); [|apply Hfr; [cbn; set_solver|vm_compute; reflexivity]|vm_compute; reflexivity].
    apply (reach_enqueue eager 0 [demo_item 0; demo_item 1] [] (arrivals 2 (codel0 false 1)) (demo_item 2) true); [|apply Hfr; [cbn; set_solver|vm_compute; reflexivity]|vm_compute; reflexivity].
    apply (reach_enqueue eager 0 [demo_item 0] [] (arrivals 1 (codel0 false 1)) (demo_item 1) true); [|apply Hfr; [cbn; set_solver|vm_compute; reflexivity]|vm_compute; reflexivity].
    apply (reach_enqueue eager 0 [] [] (arrivals 0 (codel0 false 1)) (demo_item 0) true); [|apply Hfr; [cbn; set_solver|vm_compute; reflexivity]|vm_compute; reflexivity].
    apply reach_initial, Hi. }
  exact (i_ok _ _ _ _ (proj1 (disc_reach_inv eager eager_length _ _ _ Hr))).
Qed.
(** At 200 ms the first packet is dropped and the next is delivered. *)
Definition codel_dropped : Disc CoDel.CoDelQueueDisc := the_disc (codel_above 1 4) (CoDel.CoDelDoDequeue (200 * ms) (codel_above 1 4)).
Lemma codel_control_law_witness : CoDel.m_dropping (spec codel_dropped) = true /\ newton_inv (spec codel_dropped).
Proof.
  destruct (codel_control_law 1500 (200 * ms) (codel_above 1 4) (Some (demo_item 2)) codel_dropped 0) as [H _].
  - exact codel_above_ok.
  - unfold newton_inv. vm_compute. intuition discriminate.
  - vm_compute. reflexivity.
  - vm_compute. reflexivity.
  - split; [vm_compute; reflexivity|exact H].
Defined.

(** ** At the edges *)

(** With a zero [MinBytes] the last packet may be dropped, and the end of
    [DoDequeue] then follows a null pointer. *)
Lemma codel_zero_minbytes_aborts : CoDel.CoDelDoDequeue (200 * ms) (codel_above 0 2) = None /\ heldd (smax := 1500) (codel_above 0 2) = [demo_item 1].
Proof. split; vm_compute; reflexivity. Qed.

(** While a packet is peeked, the number of packets sent is one too low: here 2^32 - 1. *)
Lemma peeked_sent_wraps : exists d s d', Peek 1 (arrivals 1 (codel0 false 1500)) = Some (Some (demo_item 0), d) /\ GetStats d = Some (s, d') /\
  dsend (d_log (qd d)) = [] /\ nTotalSentPackets s = 2 ^ 32 - 1.
Proof. do 3 eexists. split; [vm_compute; reflexivity|]. split; [vm_compute; reflexivity|]. split; vm_compute; reflexivity. Qed.

(** A packet that was peeked on a root queue disc is sent without its header. *)
Lemma peeked_sent_without_header : exists d d', Peek 1 (arrivals 1 (codel0 false 1500)) = Some (Some (demo_item 0), d) /\ Run eager 5 2 d = Some d' /\
  dsend (d_log (qd d')) = [demo_item 0] /\ h_headerAdded (items d') = ∅.
Proof. do 2 eexists. split; [vm_compute; reflexivity|]. split; [vm_compute; reflexivity|]. split; vm_compute; reflexivity. Qed.

(** [PfifoFastQueueDisc] does not check the size of its third queue. *)
Lemma pfifo_third_queue_unchecked : exists q0 q2 d,
  DropTailQueue_new (mkSize PACKETS 1000) = Some q0 /\ DropTailQueue_new (mkSize PACKETS 1) = Some q2 /\
  PfifoFast.PfifoFastQueueDisc_new (mkSize PACKETS 1000) = Some d /\
  fst <$> PfifoFast.CheckConfig (set_queues [q0; q0; q2] d) = Some true /\ fst <$> PfifoFast.CheckConfig (set_queues [q2; q0; q0] d) = Some false.
Proof. do 3 eexists. split_and!; vm_compute; reflexivity. Qed.

(** A quota of zero is no limit: the counter wraps around. *)
Lemma zero_quota_sends_all : exists d, Run eager 5 1 (on_qd (SetQuota 0) (arrivals 2 fifo0)) = Some d /\ dsend (d_log (qd d)) = [demo_item 0; demo_item 1].
Proof. eexists. split; vm_compute; reflexivity. Qed.
End QueueDemo.
