(* ===== verification/GymSync.v ===== *)
(** * The message interface between the simulator and an agent (contrib/ns3-ai)

    The simulator and a Python process exchange messages through two structures
    in shared memory, each guarded by two counting semaphores that are spun on
    (ns3-ai-semaphore.h, ns3-ai-msg-interface.h). A process is a program whose
    instructions are the atomic accesses to the shared memory; the system is the
    interleaving of two programs. The protocol is also given as an abstract
    machine in which a message is sent and received in one step. *)

From S2P Require Import Prelude.

Module GymSync.

(** ** Shared memory *)

Definition MSG_BUFFER_SIZE : Z := 1024.
(** The structure of a message (ns3-ai-gym-msg.h): bytes, and a 32-bit size. *)
Notation byte := Byte.byte.
Record Ns3AiGymMsg := mkMsg { buffer : list byte; size : Z }.
Record Ns3AiMsgSync := mkSync {
  m_cpp2pyEmptyCount : Z;
  m_cpp2pyFullCount : Z;
  m_py2cppEmptyCount : Z;
  m_py2cppFullCount : Z
}.
Definition sync_new : Ns3AiMsgSync := mkSync 1 0 1 0.

Inductive chan := Cpp2Py | Py2Cpp.
Inductive semaphore := EmptyCount (c : chan) | FullCount (c : chan).
#[export] Instance chan_eq_dec : EqDecision chan.
Proof. solve_decision. Defined.
#[export] Instance semaphore_eq_dec : EqDecision semaphore.
Proof. solve_decision. Defined.

(** The segment: the semaphores and the two message structures. *)
Record Shm := mkShm { m_sync : Ns3AiMsgSync; m_cpp2pyStruct : Ns3AiGymMsg; m_py2CppStruct : Ns3AiGymMsg }.

Definition get_sem (s : semaphore) (m : Shm) : Z :=
  match s with
  | EmptyCount Cpp2Py => m_cpp2pyEmptyCount (m_sync m)
  | FullCount Cpp2Py => m_cpp2pyFullCount (m_sync m)
  | EmptyCount Py2Cpp => m_py2cppEmptyCount (m_sync m)
  | FullCount Py2Cpp => m_py2cppFullCount (m_sync m)
  end.
Definition set_sem (s : semaphore) (v : Z) (m : Shm) : Shm :=
  let '(mkSync a b c d) := m_sync m in
  mkShm (match s with
    | EmptyCount Cpp2Py => mkSync v b c d
    | FullCount Cpp2Py => mkSync a v c d
    | EmptyCount Py2Cpp => mkSync a b v d
    | FullCount Py2Cpp => mkSync a b c v
    end) (m_cpp2pyStruct m) (m_py2CppStruct m).
Definition get_msg (c : chan) (m : Shm) : Ns3AiGymMsg := match c with Cpp2Py => m_cpp2pyStruct m | Py2Cpp => m_py2CppStruct m end.
Definition set_msg (c : chan) (x : Ns3AiGymMsg) (m : Shm) : Shm :=
  match c with
  | Cpp2Py => mkShm (m_sync m) x (m_py2CppStruct m)
  | Py2Cpp => mkShm (m_sync m) (m_cpp2pyStruct m) x
  end.

(** ** Atomic operations (ns3-ai-semaphore.h) *)

Definition atomic_read8 (s : semaphore) (m : Shm) : Z := get_sem s m.
Definition atomic_cas8 (s : semaphore) (with_ cmp : Z) (m : Shm) : Z * Shm :=
  let old := get_sem s m in (old, if old =? cmp then set_sem s with_ m else m).
Definition atomic_add8 (s : semaphore) (val : Z) (m : Shm) : Z * Shm :=
  let old := get_sem s m in (old, set_sem s (u8 (old + val)) m).

(** ** Programs *)

(** [PSpin s c k] is inside the loop of [atomic_add_unless8]: [c] is the value
    last read, the compare-and-swap comes next. *)
Inductive prog (A : Type) : Type :=
  | PRet (a : A)
  | PAbort
  | PWait (s : semaphore) (k : prog A)
  | PSpin (s : semaphore) (c : Z) (k : prog A)
  | PPost (s : semaphore) (k : prog A)
  | PSetSize (c : chan) (n : Z) (k : prog A)
  | PSetByte (c : chan) (i : nat) (v : byte) (k : prog A)
  | PGetSize (c : chan) (k : Z -> prog A)
  | PGetByte (c : chan) (i : nat) (k : byte -> prog A).
Arguments PRet {A} a.
Arguments PAbort {A}.
Arguments PWait {A} s k.
Arguments PSpin {A} s c k.
Arguments PPost {A} s k.
Arguments PSetSize {A} c n k.
Arguments PSetByte {A} c i v k.
Arguments PGetSize {A} c k.
Arguments PGetByte {A} c i k.

(** The condition of the loop of [atomic_add_unless8] with the value [-1] and the
    bound 0; when it fails, [sem_wait] tries again. *)
Definition spin {A} (s : semaphore) (c : Z) (k : prog A) : prog A := if c =? 0 then PWait s k else PSpin s c k.

(** One atomic step; none when the program has ended. *)
Definition pstep {A} (p : prog A) (m : Shm) : option (prog A * Shm) :=
  match p with
  | PRet _ | PAbort => None
  | PWait s k => Some (spin s (atomic_read8 s m) k, m)
  | PSpin s c k => let '(old, m') := atomic_cas8 s (u8 (c + u8 (-1))) c m in Some (if old =? c then k else spin s old k, m')
  | PPost s k => Some (k, (atomic_add8 s 1 m).2)
  | PSetSize c n k => Some (k, set_msg c (mkMsg (buffer (get_msg c m)) (u32 n)) m)
  | PSetByte c i v k =>
      if Z.of_nat i <? MSG_BUFFER_SIZE then Some (k, set_msg c (mkMsg (<[i := v]> (buffer (get_msg c m))) (size (get_msg c m))) m) else Some (PAbort, m)
  | PGetSize c k => Some (k (size (get_msg c m)), m)
  | PGetByte c i k =>
      if Z.of_nat i <? MSG_BUFFER_SIZE then Some (k (nth i (buffer (get_msg c m)) Byte.x00), m) else Some (PAbort, m)
  end.

(** ** The operations of the interface *)

Definition CppSendBegin {A} (k : prog A) : prog A := PWait (EmptyCount Cpp2Py) k.
Definition CppSendEnd {A} (k : prog A) : prog A := PPost (FullCount Cpp2Py) k.
Definition CppRecvBegin {A} (k : prog A) : prog A := PWait (FullCount Py2Cpp) k.
Definition CppRecvEnd {A} (k : prog A) : prog A := PPost (EmptyCount Py2Cpp) k.
Definition PyRecvBegin {A} (k : prog A) : prog A := PWait (FullCount Cpp2Py) k.
Definition PyRecvEnd {A} (k : prog A) : prog A := PPost (EmptyCount Cpp2Py) k.
Definition PySendBegin {A} (k : prog A) : prog A := PWait (EmptyCount Py2Cpp) k.
Definition PySendEnd {A} (k : prog A) : prog A := PPost (FullCount Py2Cpp) k.

(** Copying a message into a structure and out of it, byte by byte. *)
Fixpoint write_bytes {A} (c : chan) (i : nat) (l : list byte) (k : prog A) : prog A :=
  match l with
  | [] => k
  | v :: l' => PSetByte c i v (write_bytes c (S i) l' k)
  end.
Fixpoint read_bytes {A} (c : chan) (i n : nat) (acc : list byte) (k : list byte -> prog A) : prog A :=
  match n with
  | O => k acc
  | S n' => PGetByte c i (fun v => read_bytes c (S i) n' (acc ++ [v]) k)
  end.

(** The simulator sets the size, asserts that it fits and serializes; the agent
    asserts first. A message has less than 2^31 bytes, which is the limit of protobuf, so
    the assertion on the size that was stored is one on the length. *)
Definition cpp_send {A} (l : list byte) (k : prog A) : prog A :=
  CppSendBegin (PSetSize Cpp2Py (Z.of_nat (length l))
    (if Z.of_nat (length l) <=? MSG_BUFFER_SIZE then write_bytes Cpp2Py 0 l (CppSendEnd k) else PAbort)).
Definition cpp_recv {A} (k : list byte -> prog A) : prog A :=
  CppRecvBegin (PGetSize Py2Cpp (fun n => read_bytes Py2Cpp 0 (Z.to_nat n) [] (fun l => CppRecvEnd (k l)))).
Definition py_recv {A} (k : list byte -> prog A) : prog A :=
  PyRecvBegin (PGetSize Cpp2Py (fun n => read_bytes Cpp2Py 0 (Z.to_nat n) [] (fun l => PyRecvEnd (k l)))).
Definition py_send {A} (l : list byte) (k : prog A) : prog A :=
  if Z.of_nat (length l) <=? MSG_BUFFER_SIZE then
    PySendBegin (PSetSize Py2Cpp (Z.of_nat (length l)) (write_bytes Py2Cpp 0 l (PySendEnd k)))
  else PAbort.

(** ** The system *)

Record sys (A B : Type) := mkSys { s_cpp : prog A; s_py : prog B; s_shm : Shm }.
Arguments mkSys {A B}.
Arguments s_cpp {A B}.
Arguments s_py {A B}.
Arguments s_shm {A B}.

Inductive sys_step {A B} : sys A B -> sys A B -> Prop :=
  | step_cpp p p' q m m' : pstep p m = Some (p', m') -> sys_step (mkSys p q m) (mkSys p' q m')
  | step_py p q q' m m' : pstep q m = Some (q', m') -> sys_step (mkSys p q m) (mkSys p q' m').

(** A schedule says which process moves. *)
Definition sys_next {A B} (who : bool) (x : sys A B) : sys A B :=
  if who then match pstep (s_cpp x) (s_shm x) with Some (p, m) => mkSys p (s_py x) m | None => x end
  else match pstep (s_py x) (s_shm x) with Some (q, m) => mkSys (s_cpp x) q m | None => x end.
Definition sys_run {A B} (schedule : list bool) (x : sys A B) : sys A B := fold_left (fun x who => sys_next who x) schedule x.

Definition shm_new (garbage : list byte) : Shm := mkShm sync_new (mkMsg garbage 0) (mkMsg garbage 0).

(** ** The abstract machine *)

(** A process that sends and receives whole messages. *)
Inductive hprog (A : Type) : Type :=
  | HRet (a : A)
  | HSend (l : list byte) (k : hprog A)
  | HRecv (k : list byte -> hprog A).
Arguments HRet {A} a.
Arguments HSend {A} l k.
Arguments HRecv {A} k.

Fixpoint cpp_prog {A} (h : hprog A) : prog A :=
  match h with
  | HRet a => PRet a
  | HSend l k => cpp_send l (cpp_prog k)
  | HRecv k => cpp_recv (fun l => cpp_prog (k l))
  end.
Fixpoint py_prog {A} (h : hprog A) : prog A :=
  match h with
  | HRet a => PRet a
  | HSend l k => py_send l (py_prog k)
  | HRecv k => py_recv (fun l => py_prog (k l))
  end.

(** One step of a process whose outgoing slot is [o] and whose incoming one is [i];
    none when the slot is not ready or the message does not fit. *)
Definition hstep {A} (h : hprog A) (o i : option (list byte)) : option (hprog A * option (list byte) * option (list byte)) :=
  match h, o, i with
  | HSend l k, None, _ => if Z.of_nat (length l) <=? MSG_BUFFER_SIZE then Some (k, Some l, i) else None
  | HRecv k, _, Some l => Some (k l, o, None)
  | _, _, _ => None
  end.

Record abs (A B : Type) := mkAbs { a_cpp : hprog A; a_py : hprog B; a_c2p : option (list byte); a_p2c : option (list byte) }.
Arguments mkAbs {A B}.
Arguments a_cpp {A B}.
Arguments a_py {A B}.
Arguments a_c2p {A B}.
Arguments a_p2c {A B}.

Definition abs_cpp {A B} (x : abs A B) : option (abs A B) :=
  match hstep (a_cpp x) (a_c2p x) (a_p2c x) with Some (h, o, i) => Some (mkAbs h (a_py x) o i) | None => None end.
Definition abs_py {A B} (x : abs A B) : option (abs A B) :=
  match hstep (a_py x) (a_p2c x) (a_c2p x) with Some (h, o, i) => Some (mkAbs (a_cpp x) h i o) | None => None end.
Inductive abs_step {A B} (x y : abs A B) : Prop :=
  | abs_step_cpp : abs_cpp x = Some y -> abs_step x y
  | abs_step_py : abs_py x = Some y -> abs_step x y.

End GymSync.
