(* ===== verification/GymProofs.v ===== *)
(** * The message interface refines atomic message passing

    Every interleaving of the atomic accesses of two processes that follow the
    protocol of ns3-ai-msg-interface.h is simulated by the abstract machine of
    [GymSync], in which a message is handed over in one step; and under a fair
    schedule the processes complete what the abstract machine can do. *)

From S2P Require Import Prelude GymSync.

Module GymProofs.
Import GymSync.
Local Notation zlen l := (Z.of_nat (length l)).

(** ** Memory accesses *)

Lemma get_set_sem s v m : get_sem s (set_sem s v m) = v.
Proof. by destruct m as [[] ??], s as [[]|[]]. Qed.
Lemma get_set_sem_ne s s' v m : s <> s' -> get_sem s' (set_sem s v m) = get_sem s' m.
Proof. by destruct m as [[] ??], s as [[]|[]], s' as [[]|[]]. Qed.
Lemma get_msg_set_sem c s v m : get_msg c (set_sem s v m) = get_msg c m.
Proof. by destruct m as [[] ??], c. Qed.
Lemma get_set_msg c x m : get_msg c (set_msg c x m) = x.
Proof. by destruct c. Qed.
Lemma get_set_msg_ne c c' x m : c <> c' -> get_msg c' (set_msg c x m) = get_msg c' m.
Proof. by destruct c, c'. Qed.
Lemma get_sem_set_msg c s x m : get_sem s (set_msg c x m) = get_sem s m.
Proof. by destruct c, s as [[]|[]]. Qed.

#[local] Opaque get_sem set_sem get_msg set_msg.
Create HintDb gym.
#[export] Hint Rewrite get_set_sem get_msg_set_sem get_set_msg get_sem_set_msg : gym.
#[export] Hint Rewrite get_set_sem_ne get_set_msg_ne using congruence : gym.

(** ** What a process is doing *)

(** A process that has seen a semaphore at 1 tries to take it; it writes its
    outgoing structure after [SendBegin], the prefix it has stored so far known
    once the size is set; it reads its incoming structure after [RecvBegin]. *)
Inductive activity := Idle | TrySend | TryRecv | Writing (w : option (list byte * Z)) | Reading (l : list byte).
Definition wr (a : activity) : option (option (list byte * Z)) := match a with Writing w => Some w | _ => None end.
Definition rd (a : activity) : option (list byte) := match a with Reading l => Some l | _ => None end.

Definition holds (x : Ns3AiGymMsg) (l : list byte) : Prop := size x = zlen l /\ take (length l) (buffer x) = l.
Definition stored (x : Ns3AiGymMsg) (w : option (list byte * Z)) : Prop :=
  match w with None => True | Some (l, n) => size x = n /\ take (length l) (buffer x) = l end.

(** The state of a channel, from what its writer and its reader are doing. *)
Definition chan_ok (m : Shm) (c : chan) (slot : option (list byte)) (wa ra : activity) : Prop :=
  zlen (buffer (get_msg c m)) = MSG_BUFFER_SIZE /\
  match slot, wr wa, rd ra with
  | None, None, None => get_sem (EmptyCount c) m = 1 /\ get_sem (FullCount c) m = 0
  | None, Some w, None => get_sem (EmptyCount c) m = 0 /\ get_sem (FullCount c) m = 0 /\ stored (get_msg c m) w
  | Some l, None, None => get_sem (EmptyCount c) m = 0 /\ get_sem (FullCount c) m = 1 /\ holds (get_msg c m) l
  | Some l, None, Some l' => l' = l /\ get_sem (EmptyCount c) m = 0 /\ get_sem (FullCount c) m = 0 /\ holds (get_msg c m) l
  | _, _, _ => False
  end /\ match slot with Some l => zlen l <= MSG_BUFFER_SIZE | None => True end /\
  (wa = TrySend -> slot = None) /\ (ra = TryRecv -> slot <> None).

(** A channel looks the same to activities that use it in the same way. *)
Lemma chan_ok_try_send m c b : chan_ok m c None Idle b -> chan_ok m c None TrySend b.
Proof. unfold chan_ok. intros (?&?&?&?&?). by split_and!. Qed.
Lemma chan_ok_try_recv m c l b : chan_ok m c (Some l) b Idle -> chan_ok m c (Some l) b TryRecv.
Proof. unfold chan_ok. intros (?&?&?&?&?). by split_and!. Qed.
Lemma chan_ok_out m c slot a a' b : wr a = wr a' -> a' <> TrySend -> chan_ok m c slot a b -> chan_ok m c slot a' b.
Proof. unfold chan_ok. intros -> ? (?&?&?&?&?). by split_and!. Qed.
Lemma chan_ok_in m c slot a b b' : rd b = rd b' -> b' <> TryRecv -> chan_ok m c slot a b -> chan_ok m c slot a b'.
Proof. unfold chan_ok. intros -> ? (?&?&?&?&?). by split_and!. Qed.

Lemma chan_ok_writing m c slot w b :
  chan_ok m c slot (Writing w) b <->
  slot = None /\ rd b = None /\ b <> TryRecv /\ zlen (buffer (get_msg c m)) = MSG_BUFFER_SIZE /\
  get_sem (EmptyCount c) m = 0 /\ get_sem (FullCount c) m = 0 /\ stored (get_msg c m) w.
Proof. unfold chan_ok. cbn [wr]. destruct slot, (rd b); naive_solver. Qed.
Lemma chan_ok_reading m c slot l b :
  chan_ok m c slot b (Reading l) <->
  slot = Some l /\ wr b = None /\ b <> TrySend /\ zlen (buffer (get_msg c m)) = MSG_BUFFER_SIZE /\ zlen l <= MSG_BUFFER_SIZE /\
  get_sem (EmptyCount c) m = 0 /\ get_sem (FullCount c) m = 0 /\ holds (get_msg c m) l.
Proof. unfold chan_ok. cbn [rd]. destruct slot, (wr b); naive_solver. Qed.

(** An access to one channel leaves the other one as it is. *)
Lemma chan_ok_sem_ne m s v c slot a b :
  s <> EmptyCount c -> s <> FullCount c -> chan_ok m c slot a b -> chan_ok (set_sem s v m) c slot a b.
Proof. intros. unfold chan_ok. by autorewrite with gym. Qed.
Lemma chan_ok_msg_ne m c' x c slot a b : c' <> c -> chan_ok m c slot a b -> chan_ok (set_msg c' x m) c slot a b.
Proof. intros. unfold chan_ok. by autorewrite with gym. Qed.

(** A bound on the accesses that are left in the current operation. *)
Definition op_bound : nat := 1030.

(** How a process is compiled: what the two sides have in common. *)
Class Compiled {A} (o i : chan) (P : hprog A -> prog A) : Prop := {
  compiled_ret r : P (HRet r) = PRet r;
  compiled_send l k : zlen l <= MSG_BUFFER_SIZE ->
    P (HSend l k) = PWait (EmptyCount o) (PSetSize o (zlen l) (write_bytes o 0 l (PPost (FullCount o) (P k))));
  compiled_long l k : MSG_BUFFER_SIZE < zlen l ->
    P (HSend l k) = PAbort \/ P (HSend l k) = PWait (EmptyCount o) (PSetSize o (zlen l) PAbort);
  compiled_recv k :
    P (HRecv k) = PWait (FullCount i) (PGetSize i (fun n => read_bytes i 0 (Z.to_nat n) [] (fun l => PPost (EmptyCount i) (P (k l)))));
  compiled_ne : o <> i
}.

#[export] Instance cpp_compiled {A} : @Compiled A Cpp2Py Py2Cpp cpp_prog.
Proof.
  split; [done| | |done|done]; intros l k Hl; cbn [cpp_prog]; unfold cpp_send, CppSendBegin.
  - by replace (Z.of_nat (length l) <=? MSG_BUFFER_SIZE) with true by lia.
  - right. by replace (Z.of_nat (length l) <=? MSG_BUFFER_SIZE) with false by lia.
Qed.
#[export] Instance py_compiled {A} : @Compiled A Py2Cpp Cpp2Py py_prog.
Proof.
  split; [done| | |done|done]; intros l k Hl; cbn [py_prog]; unfold py_send, PySendBegin.
  - by replace (Z.of_nat (length l) <=? MSG_BUFFER_SIZE) with true by lia.
  - left. by replace (Z.of_nat (length l) <=? MSG_BUFFER_SIZE) with false by lia.
Qed.

(** ** Positions in a program *)

Section Position.
Context {A : Type} (o i : chan) (P : hprog A -> prog A) {HP : Compiled o i P}.

(** [pos h a w p]: the process [h] is doing [a], has [p] left to execute, of which
    at most [w] accesses belong to the current operation. *)
Inductive pos : hprog A -> activity -> nat -> prog A -> Prop :=
  | pos_start h : pos h Idle op_bound (P h)
  | pos_send_spin l k q : P (HSend l k) = PWait (EmptyCount o) q -> pos (HSend l k) TrySend 1029 (PSpin (EmptyCount o) 1 q)
  | pos_send_size l k q : P (HSend l k) = PWait (EmptyCount o) q -> pos (HSend l k) (Writing None) 1028 q
  | pos_write l k j : (j <= length l)%nat -> zlen l <= MSG_BUFFER_SIZE ->
      pos (HSend l k) (Writing (Some (take j l, zlen l))) (1 + (length l - j))
        (write_bytes o j (drop j l) (PPost (FullCount o) (P k)))
  | pos_abort l k a : MSG_BUFFER_SIZE < zlen l -> rd a = None -> (forall w, a = Writing w -> w = None) -> pos (HSend l k) a 0 PAbort
  | pos_recv_spin k q : P (HRecv k) = PWait (FullCount i) q -> pos (HRecv k) TryRecv 1029 (PSpin (FullCount i) 1 q)
  | pos_recv_size k l q : P (HRecv k) = PWait (FullCount i) q -> pos (HRecv k) (Reading l) 1028 q
  | pos_read k l j : (j <= length l)%nat -> zlen l <= MSG_BUFFER_SIZE ->
      pos (HRecv k) (Reading l) (1 + (length l - j))
        (read_bytes i j (length l - j) (take j l) (fun l => PPost (EmptyCount i) (P (k l)))).

(** ** One access of one process *)

(** What an access of a process leads to: a simulated step, progress within the
    operation, or another turn of a busy-waiting loop. *)
Definition advances (h : hprog A) (a : activity) (w : nat) (p : prog A) (m : Shm) (so si : option (list byte)) (b : activity) (p' : prog A) (m' : Shm) : Prop :=
  exists h' a' w' so' si', pos h' a' w' p' /\ chan_ok m' o so' a' b /\ chan_ok m' i si' b a' /\
    ((hstep h so si = Some (h', so', si') /\ w' = op_bound /\ (0 < w)%nat) \/
     (h' = h /\ so' = so /\ si' = si /\
      ((w' < w)%nat \/ (p' = p /\ m' = m /\ w' = w /\ hstep h so si = None)))).

Lemma advances_within h a w p m so si b p' m' a' w' :
  pos h a' w' p' -> (w' < w)%nat -> chan_ok m' o so a' b -> chan_ok m' i si b a' -> advances h a w p m so si b p' m'.
Proof. intros. exists h, a', w', so, si. split_and!; [done..|]. right. split_and!; [done..|]. by left. Qed.
Lemma advances_not h a w p m so si b : pos h a w p -> hstep h so si = None -> chan_ok m o so a b -> chan_ok m i si b a -> advances h a w p m so si b p m.
Proof. intros. exists h, a, w, so, si. split_and!; [done..|]. right. split_and!; [done..|]. by right. Qed.
Lemma advances_step h a w p m so si b p' m' h' so' si' a' :
  hstep h so si = Some (h', so', si') -> pos h' a' op_bound p' -> (0 < w)%nat -> chan_ok m' o so' a' b -> chan_ok m' i si' b a' ->
  advances h a w p m so si b p' m'.
Proof. intros. exists h', a', op_bound, so', si'. split_and!; [done..|]. by left. Qed.

Lemma wait_send l k q m so si b p' m' :
  P (HSend l k) = PWait (EmptyCount o) q ->
  chan_ok m o so Idle b -> chan_ok m i si b Idle ->
  pstep (PWait (EmptyCount o) q) m = Some (p', m') ->
  advances (HSend l k) Idle op_bound (PWait (EmptyCount o) q) m so si b p' m'.
Proof.
  intros Hq Ho Hi [= <- <-]. unfold atomic_read8, spin. rewrite <- Hq.
  destruct so as [x|].
  - assert (get_sem (EmptyCount o) m = 0) as -> by (destruct Ho as (_&Ho&_); revert Ho; cbn; destruct (rd b); naive_solver).
    apply advances_not; [constructor|done..].
  - assert (get_sem (EmptyCount o) m = 1) as -> by (destruct Ho as (_&Ho&_); revert Ho; cbn; destruct (rd b); naive_solver).
    eapply (advances_within _ _ _ _ _ _ _ _ _ _ TrySend); [by constructor|unfold op_bound; lia|by apply chan_ok_try_send|].
    by apply (chan_ok_in _ _ _ _ Idle).
Qed.

Lemma wait_recv k q m so si b p' m' :
  P (HRecv k) = PWait (FullCount i) q ->
  chan_ok m o so Idle b -> chan_ok m i si b Idle ->
  pstep (PWait (FullCount i) q) m = Some (p', m') ->
  advances (HRecv k) Idle op_bound (PWait (FullCount i) q) m so si b p' m'.
Proof.
  intros Hq Ho Hi [= <- <-]. unfold atomic_read8, spin. rewrite <- Hq.
  destruct si as [x|].
  - assert (get_sem (FullCount i) m = 1) as -> by (destruct Hi as (_&Hi&_); revert Hi; cbn; destruct (wr b); naive_solver).
    eapply (advances_within _ _ _ _ _ _ _ _ _ _ TryRecv); [by constructor|unfold op_bound; lia|by apply (chan_ok_out _ _ _ Idle)|].
    by apply chan_ok_try_recv.
  - assert (get_sem (FullCount i) m = 0) as -> by (destruct Hi as (_&Hi&_); revert Hi; cbn; destruct (wr b); naive_solver).
    apply advances_not; [constructor|done..].
Qed.

Lemma spin_send l k q m so si b p' m' :
  P (HSend l k) = PWait (EmptyCount o) q ->
  chan_ok m o so TrySend b -> chan_ok m i si b TrySend ->
  pstep (PSpin (EmptyCount o) 1 q) m = Some (p', m') ->
  advances (HSend l k) TrySend 1029 (PSpin (EmptyCount o) 1 q) m so si b p' m'.
Proof.
  intros Hq Ho Hi [= <- <-]. pose proof compiled_ne as Hne.
  assert (so = None) as -> by (apply Ho; done).
  assert (rd b = None /\ get_sem (EmptyCount o) m = 1 /\ get_sem (FullCount o) m = 0) as (Hb&He&Hf).
  { destruct Ho as (_&Ho&_). revert Ho. cbn. destruct (rd b); naive_solver. }
  rewrite He. cbn [Z.eqb Pos.eqb]. change (u8 (1 + u8 (-1))) with 0.
  eapply (advances_within _ _ _ _ _ _ _ _ _ _ (Writing None)); [by apply pos_send_size|lia| |].
  - destruct Ho as (?&_&_&_&?). unfold chan_ok. cbn [wr]. rewrite Hb. by autorewrite with gym.
  - apply chan_ok_sem_ne; [congruence..|]. by apply (chan_ok_in _ _ _ _ TrySend).
Qed.

Lemma spin_recv k q m so si b p' m' :
  P (HRecv k) = PWait (FullCount i) q ->
  chan_ok m o so TryRecv b -> chan_ok m i si b TryRecv ->
  pstep (PSpin (FullCount i) 1 q) m = Some (p', m') ->
  advances (HRecv k) TryRecv 1029 (PSpin (FullCount i) 1 q) m so si b p' m'.
Proof.
  intros Hq Ho Hi [= <- <-]. pose proof compiled_ne as Hne.
  destruct si as [x|]; [|by destruct Hi as (_&_&_&_&Hi); destruct (Hi eq_refl)].
  assert (wr b = None /\ get_sem (EmptyCount i) m = 0 /\ get_sem (FullCount i) m = 1 /\ holds (get_msg i m) x) as (Hb&He&Hf&Hx).
  { destruct Hi as (_&Hi&_). revert Hi. cbn. destruct (wr b); naive_solver. }
  rewrite Hf. cbn [Z.eqb Pos.eqb]. change (u8 (1 + u8 (-1))) with 0.
  eapply (advances_within _ _ _ _ _ _ _ _ _ _ (Reading x)); [by apply pos_recv_size|lia| |].
  - apply chan_ok_sem_ne; [congruence..|]. by apply (chan_ok_out _ _ _ TryRecv).
  - destruct Hi as (?&_&?&?&_). unfold chan_ok. cbn [rd]. rewrite Hb. by autorewrite with gym.
Qed.

Lemma size_send l k q m so si b p' m' :
  P (HSend l k) = PWait (EmptyCount o) q ->
  chan_ok m o so (Writing None) b -> chan_ok m i si b (Writing None) ->
  pstep q m = Some (p', m') ->
  advances (HSend l k) (Writing None) 1028 q m so si b p' m'.
Proof.
  intros Hq Ho Hi Hstep. pose proof compiled_ne as Hne.
  apply chan_ok_writing in Ho as (->&?&?&?&?&?&_).
  destruct (decide (zlen l <= MSG_BUFFER_SIZE)) as [Hl|Hl].
  - rewrite compiled_send in Hq by done. injection Hq as <-. injection Hstep as <- <-.
    eapply (advances_within _ _ _ _ _ _ _ _ _ _ (Writing (Some (take 0 l, zlen l)))).
    + exact (pos_write l k 0 ltac:(lia) Hl).
    + unfold MSG_BUFFER_SIZE in *. lia.
    + rewrite chan_ok_writing. autorewrite with gym. cbn [stored size buffer]. rewrite (u32_small (zlen l)) by (unfold MSG_BUFFER_SIZE in Hl; lia). by split_and!.
    + apply chan_ok_msg_ne; [congruence|]. by apply (chan_ok_in _ _ _ _ (Writing None)).
  - destruct (compiled_long l k) as [E|E]; [lia|congruence|]. rewrite E in Hq. injection Hq as <-. injection Hstep as <- <-.
    apply (advances_within _ _ _ _ _ _ _ _ _ _ (Writing None) 0); [|lia| |].
    + apply pos_abort; [lia|done|]. congruence.
    + rewrite chan_ok_writing. autorewrite with gym. by split_and!.
    + by apply chan_ok_msg_ne; [congruence|].
Qed.

Lemma write_step l k j m so si b p' m' :
  (j <= length l)%nat -> zlen l <= MSG_BUFFER_SIZE ->
  chan_ok m o so (Writing (Some (take j l, zlen l))) b -> chan_ok m i si b (Writing (Some (take j l, zlen l))) ->
  pstep (write_bytes o j (drop j l) (PPost (FullCount o) (P k))) m = Some (p', m') ->
  advances (HSend l k) (Writing (Some (take j l, zlen l))) (1 + (length l - j))
    (write_bytes o j (drop j l) (PPost (FullCount o) (P k))) m so si b p' m'.
Proof.
  intros Hj Hl Ho Hi Hstep. pose proof compiled_ne as Hne.
  apply chan_ok_writing in Ho as (->&?&?&Hbuf&He&Hf&Hsize&Hst). rewrite length_take in Hst.
  destruct (decide (j = length l)) as [->|Hlt].
  - rewrite drop_all in *. rewrite firstn_all in *. injection Hstep as <- <-. rewrite Nat.min_id in Hst.
    eapply (advances_step _ _ _ _ _ _ _ _ _ _ k (Some l) si Idle); [cbn|constructor|lia| |].
    + by replace (zlen l <=? MSG_BUFFER_SIZE) with true by lia.
    + unfold chan_ok. autorewrite with gym. rewrite Hf, H. by split_and!.
    + apply chan_ok_sem_ne; [congruence..|]. by eapply chan_ok_in, Hi.
  - destruct (lookup_lt_is_Some_2 l j) as [v Hv]; [lia|].
    rewrite (drop_S l v j) in Hstep by done. cbn [write_bytes pstep] in Hstep.
    replace (Z.of_nat j <? MSG_BUFFER_SIZE) with true in Hstep by lia. injection Hstep as <- <-.
    eapply (advances_within _ _ _ _ _ _ _ _ _ _ (Writing (Some (take (S j) l, zlen l)))); [apply pos_write; lia|lia| |].
    + rewrite chan_ok_writing. autorewrite with gym. cbn [buffer size stored]. rewrite length_insert, length_take.
      split_and!; try done. rewrite (take_S_r l j v) by done.
      replace (S j `min` length l)%nat with (S j) by lia. replace (j `min` length l)%nat with j in Hst by lia.
      rewrite (take_S_r _ j v), take_insert_ge by (rewrite ?list_lookup_insert_eq; lia || done). by rewrite Hst.
    + apply chan_ok_msg_ne; [congruence|]. by eapply chan_ok_in, Hi.
Qed.

Lemma size_recv k l q m so si b p' m' :
  P (HRecv k) = PWait (FullCount i) q ->
  chan_ok m o so (Reading l) b -> chan_ok m i si b (Reading l) ->
  pstep q m = Some (p', m') ->
  advances (HRecv k) (Reading l) 1028 q m so si b p' m'.
Proof.
  intros Hq Ho Hi Hstep. rewrite compiled_recv in Hq. injection Hq as <-. injection Hstep as <- <-.
  pose proof Hi as (->&?&?&?&?&?&?&->&?)%chan_ok_reading. rewrite Nat2Z.id.
  eapply (advances_within _ _ _ _ _ _ _ _ _ _ (Reading l)); [|unfold MSG_BUFFER_SIZE in *|done|done].
  - rewrite <- (Nat.sub_0_r (length l)). apply (pos_read k l 0); [lia|done].
  - lia.
Qed.

Lemma read_step k l j m so si b p' m' :
  (j <= length l)%nat -> zlen l <= MSG_BUFFER_SIZE ->
  chan_ok m o so (Reading l) b -> chan_ok m i si b (Reading l) ->
  pstep (read_bytes i j (length l - j) (take j l) (fun l => PPost (EmptyCount i) (P (k l)))) m = Some (p', m') ->
  advances (HRecv k) (Reading l) (1 + (length l - j))
    (read_bytes i j (length l - j) (take j l) (fun l => PPost (EmptyCount i) (P (k l)))) m so si b p' m'.
Proof.
  intros Hj Hl Ho Hi Hstep. pose proof compiled_ne as Hne.
  pose proof Hi as (->&?&?&?&?&He&Hf&_&Hx)%chan_ok_reading.
  destruct (length l - j)%nat as [|n] eqn:En; cbn [read_bytes] in *.
  - assert (j = length l) as -> by lia. rewrite firstn_all in *. injection Hstep as <- <-.
    eapply (advances_step _ _ _ _ _ _ _ _ _ _ (k l) so None Idle); [by destruct so|constructor|lia| |].
    + apply chan_ok_sem_ne; [congruence..|]. by eapply chan_ok_out, Ho.
    + unfold chan_ok. autorewrite with gym. rewrite He, H. by split_and!.
  - destruct (lookup_lt_is_Some_2 l j) as [v Hv]; [lia|]. cbn [pstep] in Hstep.
    replace (Z.of_nat j <? MSG_BUFFER_SIZE) with true in Hstep by lia. injection Hstep as <- <-.
    assert (nth j (buffer (get_msg i m)) Byte.x00 = v) as ->.
    { apply nth_lookup_Some. rewrite <- Hv, <- Hx at 1. symmetry. apply lookup_take_lt. lia. }
    rewrite <- (take_S_r l j v) by done. replace n with (length l - S j)%nat by lia.
    eapply (advances_within _ _ _ _ _ _ _ _ _ _ (Reading l)); [apply pos_read; lia|lia|done|done].
Qed.

(** Every access of a process advances it. *)
Lemma pos_step h a w p m so si b p' m' :
  pos h a w p -> chan_ok m o so a b -> chan_ok m i si b a -> pstep p m = Some (p', m') ->
  advances h a w p m so si b p' m'.
Proof.
  intros Hpos Ho Hi Hstep. destruct Hpos; eauto using spin_send, size_send, write_step, spin_recv, size_recv, read_step; [|done].
  destruct h as [r|l k|k].
  - by rewrite compiled_ret in Hstep.
  - destruct (decide (zlen l <= MSG_BUFFER_SIZE)) as [Hl|Hl]; [|destruct (compiled_long l k) as [E|E]; [lia|by rewrite E in Hstep|]].
    + pose proof (compiled_send l k Hl) as E. rewrite E in *. by eapply wait_send.
    + rewrite E in *. by eapply wait_send.
  - pose proof (compiled_recv k) as E. rewrite E in *. by eapply wait_recv.
Qed.

(** A process that has ended is blocked in the abstract machine. *)
Lemma hstep_long l k so si : MSG_BUFFER_SIZE < zlen l -> hstep (HSend (A := A) l k) so si = None.
Proof. intros. cbn. replace (zlen l <=? MSG_BUFFER_SIZE) with false by lia. by destruct so. Qed.
Lemma pstep_write_bytes c j l (k : prog A) m : pstep k m <> None -> pstep (write_bytes c j l k) m <> None.
Proof. destruct l; [done|]. cbn. by case_match. Qed.
Lemma pstep_read_bytes c j n acc (k : list byte -> prog A) m : (forall l, pstep (k l) m <> None) -> pstep (read_bytes c j n acc k) m <> None.
Proof. destruct n; [by intros H; apply H|]. cbn. by case_match. Qed.

Lemma pos_ended h a w p m so si : pos h a w p -> pstep p m = None -> hstep h so si = None.
Proof.
  assert (forall l k q, P (HSend l k) = PWait (EmptyCount o) q -> pstep q m <> None) as Hsend.
  { intros l k q. destruct (decide (zlen l <= MSG_BUFFER_SIZE)).
    - rewrite compiled_send by done. by intros [= <-].
    - destruct (compiled_long l k) as [E|E]; [lia|rewrite E..]; [done|by intros [= <-]]. }
  intros Hpos Hstep. destruct Hpos as [h|l k q E|l k q E|l k j|l k a Hl|k q E|k l q E|k l j]; try done.
  - destruct h as [r|l k|k]; [done| |by rewrite compiled_recv in Hstep].
    destruct (decide (zlen l <= MSG_BUFFER_SIZE)); [by rewrite compiled_send in Hstep|]. apply hstep_long. lia.
  - by destruct (Hsend l k q E).
  - by destruct (pstep_write_bytes o j (drop j l) (PPost (FullCount o) (P k)) m).
  - by apply hstep_long.
  - rewrite compiled_recv in E. by injection E as <-.
  - by edestruct pstep_read_bytes; [|exact Hstep].
Qed.

(** Results and failures. *)
Lemma pos_ret h a w r : pos h a w (PRet r) -> h = HRet r.
Proof.
  intros Hpos. remember (PRet r) as p eqn:Ep.
  assert (forall l k q, P (HSend l k) = PWait (EmptyCount o) q -> q <> PRet r) as Hsend.
  { intros l k q. destruct (decide (zlen l <= MSG_BUFFER_SIZE)); [rewrite compiled_send by done; congruence|].
    destruct (compiled_long l k) as [->| ->]; [lia|congruence..]. }
  destruct Hpos as [h|l k q E|l k q E|l k j Hj Hl|l k a Hl|k q E|k l q E|k l j Hj Hl]; try done.
  - destruct h as [r'|l k|k]; [rewrite compiled_ret in Ep; congruence| |by rewrite compiled_recv in Ep].
    destruct (decide (zlen l <= MSG_BUFFER_SIZE)); [by rewrite compiled_send in Ep|].
    destruct (compiled_long l k) as [E'|E']; [lia|congruence..].
  - by destruct (Hsend l k q E).
  - by destruct (drop j l).
  - rewrite compiled_recv in E. congruence.
  - by destruct (length l - j)%nat.
Qed.
Lemma pos_abort_inv h a w : pos h a w PAbort -> exists l k, h = HSend l k /\ MSG_BUFFER_SIZE < zlen l.
Proof.
  intros Hpos. remember PAbort as p eqn:Ep.
  destruct Hpos as [h|l k q E|l k q E|l k j Hj Hl|l k a Hl|k q E|k l q E|k l j Hj Hl]; try done.
  - destruct h as [r'|l k|k]; [by rewrite compiled_ret in Ep| |by rewrite compiled_recv in Ep].
    destruct (decide (zlen l <= MSG_BUFFER_SIZE)); [by rewrite compiled_send in Ep|]. exists l, k. split; [done|lia].
  - destruct (decide (zlen l <= MSG_BUFFER_SIZE)); [rewrite compiled_send in E by done; congruence|]. exists l, k. split; [done|lia].
  - by destruct (drop j l).
  - by exists l, k.
  - rewrite compiled_recv in E. congruence.
  - by destruct (length l - j)%nat.
Qed.

(** A process accesses a structure only while it owns it. *)
Definition accesses {B} (p : prog B) : option chan :=
  match p with
  | PSetSize c _ _ | PSetByte c _ _ _ | PGetSize c _ | PGetByte c _ _ => Some c
  | _ => None
  end.
Lemma pos_accesses h a w p c : pos h a w p -> accesses p = Some c -> (c = o /\ wr a <> None) \/ (c = i /\ rd a <> None).
Proof.
  intros Hpos Hc. destruct Hpos as [h|l k q E|l k q E|l k j Hj Hl|l k a Hl|k q E|k l q E|k l j Hj Hl]; try done.
  - destruct h as [r'|l k|k]; [by rewrite compiled_ret in Hc| |by rewrite compiled_recv in Hc].
    destruct (decide (zlen l <= MSG_BUFFER_SIZE)); [by rewrite compiled_send in Hc|].
    destruct (compiled_long l k) as [E'|E']; [lia|by rewrite E' in Hc..].
  - left. split; [|done]. destruct (decide (zlen l <= MSG_BUFFER_SIZE)).
    + rewrite compiled_send in E by done. injection E as <-. cbn in Hc. congruence.
    + destruct (compiled_long l k) as [E'|E']; [lia|congruence|]. rewrite E' in E. injection E as <-. cbn in Hc. congruence.
  - left. split; [|done]. destruct (drop j l); cbn in Hc; congruence.
  - right. split; [|done]. rewrite compiled_recv in E. injection E as <-. cbn in Hc. congruence.
  - right. split; [|done]. destruct (length l - j)%nat; cbn in Hc; congruence.
Qed.

End Position.

(** ** The system *)

Section System.
Context {A B : Type}.
Implicit Types (x : sys A B) (y : abs A B).

(** A state of the system, the state of the abstract machine it implements, and
    the accesses that may be left in the operations under way. *)
Definition related x y (wc wp : nat) : Prop :=
  exists a b, pos Cpp2Py Py2Cpp cpp_prog (a_cpp y) a wc (s_cpp x) /\ pos Py2Cpp Cpp2Py py_prog (a_py y) b wp (s_py x) /\
    chan_ok (s_shm x) Cpp2Py (a_c2p y) a b /\ chan_ok (s_shm x) Py2Cpp (a_p2c y) b a.

Lemma related_init h1 h2 garbage :
  zlen garbage = MSG_BUFFER_SIZE -> related (mkSys (cpp_prog h1) (py_prog h2) (shm_new garbage)) (mkAbs h1 h2 None None) op_bound op_bound.
Proof. intros. exists Idle, Idle. split_and!; [constructor..| |]; by unfold chan_ok. Qed.

(** One access of the system: a step of the abstract machine, progress, or a
    turn of a busy-waiting loop, which changes nothing. *)
Lemma related_cpp x y wc wp p m :
  related x y wc wp -> pstep (s_cpp x) (s_shm x) = Some (p, m) ->
  exists y' wc', related (mkSys p (s_py x) m) y' wc' wp /\
    ((abs_cpp y = Some y' /\ wc' = op_bound /\ (0 < wc)%nat) \/
     (y' = y /\ ((wc' < wc)%nat \/ (p = s_cpp x /\ m = s_shm x /\ wc' = wc /\ abs_cpp y = None)))).
Proof.
  intros (a&b&Hc&Hp&H1&H2) Hstep. unfold abs_cpp.
  destruct (pos_step _ _ _ _ _ _ _ _ _ _ _ _ _ Hc H1 H2 Hstep) as (h'&a'&w'&so'&si'&Hpos&H1'&H2'&[(Hh&->&Hw)|(->&->&->&Hw)]).
  - exists (mkAbs h' (a_py y) so' si'), op_bound. split; [by exists a', b|]. left. by rewrite Hh.
  - exists y, w'. split; [by exists a', b|]. right. split; [done|]. destruct Hw as [?|(->&->&->&->)]; [by left|]. by right.
Qed.
Lemma related_py x y wc wp p m :
  related x y wc wp -> pstep (s_py x) (s_shm x) = Some (p, m) ->
  exists y' wp', related (mkSys (s_cpp x) p m) y' wc wp' /\
    ((abs_py y = Some y' /\ wp' = op_bound /\ (0 < wp)%nat) \/
     (y' = y /\ ((wp' < wp)%nat \/ (p = s_py x /\ m = s_shm x /\ wp' = wp /\ abs_py y = None)))).
Proof.
  intros (a&b&Hc&Hp&H1&H2) Hstep. unfold abs_py.
  destruct (pos_step _ _ _ _ _ _ _ _ _ _ _ _ _ Hp H2 H1 Hstep) as (h'&b'&w'&so'&si'&Hpos&H1'&H2'&[(Hh&->&Hw)|(->&->&->&Hw)]).
  - exists (mkAbs (a_cpp y) h' si' so'), op_bound. split; [by exists a, b'|]. left. by rewrite Hh.
  - exists y, w'. split; [by exists a, b'|]. right. split; [done|]. destruct Hw as [?|(->&->&->&->)]; [by left|]. by right.
Qed.

End System.
End GymProofs.
