(* ===== verification/GymSystem.v ===== *)
(** * Runs of the message interface

    The abstract machine is confluent, so the result of an exchange does not
    depend on the schedule; every schedule of the shared memory accesses is
    simulated by it, and a fair one completes the exchange. *)

From S2P Require Import Prelude GymSync GymProofs.

Module GymSystem.
Import GymSync GymProofs.
Local Notation zlen l := (Z.of_nat (length l)).

(** A schedule in which both processes are served at least [n] times in turn. *)
Definition fair (n : nat) (schedule : list bool) : Prop :=
  exists blocks, length blocks = n /\ concat blocks = schedule /\ Forall (fun b => true ∈ b /\ false ∈ b) blocks.

(** Runs of the abstract machine. *)
Inductive abs_run {A B} : nat -> abs A B -> abs A B -> Prop :=
  | abs_run_nil y : abs_run 0 y y
  | abs_run_cons n y y' z : abs_step y y' -> abs_run n y' z -> abs_run (S n) y z.
Definition stuck {A B} (y : abs A B) : Prop := abs_cpp y = None /\ abs_py y = None.

Section Abstract.
Context {A B : Type}.
Implicit Types (x : sys A B) (y z : abs A B).

Lemma abs_diamond y y1 y2 : abs_cpp y = Some y1 -> abs_py y = Some y2 -> exists z, abs_py y1 = Some z /\ abs_cpp y2 = Some z.
Proof.
  destruct y as [h1 h2 c p]. unfold abs_cpp, abs_py. cbn [a_cpp a_py a_c2p a_p2c].
  destruct h1 as [|l1 k1|k1], h2 as [|l2 k2|k2], c as [?|], p as [?|]; cbn [hstep]; try done;
    repeat match goal with |- context [Z.leb (zlen ?l) ?n] => destruct (Z.leb (zlen l) n) eqn:? end; intros [= <-] [= <-];
    cbn [hstep a_cpp a_py a_c2p a_p2c]; repeat match goal with H : Z.leb _ _ = _ |- _ => rewrite H end; by eexists.
Qed.

Lemma abs_run_step n y y' z : abs_run n y z -> stuck z -> abs_step y y' -> exists n', n = S n' /\ abs_run n' y' z.
Proof.
  intros Hrun [Hs1 Hs2]. revert y'. induction Hrun as [y|n y y1 z H1 Hrun IH]; intros y' H2.
  - by destruct H2; congruence.
  - exists n. split; [done|]. specialize (IH Hs1 Hs2).
    destruct H1 as [E1|E1], H2 as [E2|E2]; simplify_eq; try done.
    + destruct (abs_diamond _ _ _ E1 E2) as (w&W1&W2). destruct (IH w) as (n'&->&?); [by right|].
      apply (abs_run_cons _ _ w); [by left|done].
    + destruct (abs_diamond _ _ _ E2 E1) as (w&W1&W2). destruct (IH w) as (n'&->&?); [by left|].
      apply (abs_run_cons _ _ w); [by right|done].
Qed.

Lemma abs_run_stuck n y z : abs_run n y z -> stuck y -> n = O /\ z = y.
Proof. intros [|? ? ? ? [E|E] _] [H1 H2]; [done|congruence..]. Qed.

(** The end of a maximal run is the end of all of them, after as many steps. *)
Lemma abs_run_unique n n' y z z' : abs_run n y z -> stuck z -> abs_run n' y z' -> stuck z' -> n' = n /\ z' = z.
Proof.
  intros Hrun Hs Hrun' Hs'. revert n z Hrun Hs. induction Hrun' as [y|n' y y1 z' H1 Hrun' IH]; intros n z Hrun Hs.
  - by destruct (abs_run_stuck _ _ _ Hrun Hs') as [-> ->].
  - destruct (abs_run_step _ _ _ _ Hrun Hs H1) as (m&->&Hm). by destruct (IH Hs' m z Hm Hs) as [-> ->].
Qed.

Lemma abs_run_snoc n y z z' : abs_run n y z -> abs_step z z' -> abs_run (S n) y z'.
Proof. induction 1; intros; econstructor; eauto; constructor. Qed.

(** ** Simulation of runs *)

(** What remains to be done, in accesses. *)
Definition left_over (n wc wp : nat) : nat := n * op_bound + wc + wp.

Lemma sys_next_related who x y wc wp :
  related x y wc wp -> exists y' wc' wp', related (sys_next who x) y' wc' wp' /\
    ((abs_step y y' /\ (left_over 0 wc' wp' < op_bound + left_over 0 wc wp)%nat) \/
     (y' = y /\ (left_over 0 wc' wp' < left_over 0 wc wp)%nat) \/
     (sys_next who x = x /\ y' = y /\ wc' = wc /\ wp' = wp /\ (if who then abs_cpp y else abs_py y) = None)).
Proof.
  intros Hr. unfold left_over. destruct who; cbn [sys_next].
  - destruct (pstep (s_cpp x) (s_shm x)) as [[p m]|] eqn:E.
    + destruct (related_cpp x y wc wp p m Hr E) as (y'&wc'&Hr'&[(Hs&->&?)|(->&[?|(->&->&->&?)])]).
      * exists y', op_bound, wp. split; [done|]. left. split; [by left|lia].
      * exists y, wc', wp. split; [done|]. right. left. split; [done|lia].
      * exists y, wc, wp. split; [done|]. right. right. destruct x. by split_and!.
    + exists y, wc, wp. split; [done|]. right. right. destruct Hr as (?&?&Hc&_). unfold abs_cpp. by rewrite (pos_ended _ _ _ _ _ _ _ _ _ _ Hc E).
  - destruct (pstep (s_py x) (s_shm x)) as [[p m]|] eqn:E.
    + destruct (related_py x y wc wp p m Hr E) as (y'&wp'&Hr'&[(Hs&->&?)|(->&[?|(->&->&->&?)])]).
      * exists y', wc, op_bound. split; [done|]. left. split; [by right|lia].
      * exists y, wc, wp'. split; [done|]. right. left. split; [done|lia].
      * exists y, wc, wp. split; [done|]. right. right. destruct x. by split_and!.
    + exists y, wc, wp. split; [done|]. right. right. destruct Hr as (?&?&?&Hp&_). unfold abs_py. by rewrite (pos_ended _ _ _ _ _ _ _ _ _ _ Hp E).
Qed.

Lemma sys_run_related schedule x y wc wp :
  related x y wc wp -> exists n y' wc' wp', related (sys_run schedule x) y' wc' wp' /\ abs_run n y y'.
Proof.
  revert x y wc wp. induction schedule as [|who s IH]; intros x y wc wp Hr.
  - exists 0%nat, y, wc, wp. split; [done|constructor].
  - destruct (sys_next_related who x y wc wp Hr) as (y1&wc1&wp1&Hr1&Hs).
    destruct (IH _ _ _ _ Hr1) as (n&y2&wc2&wp2&Hr2&Hrun).
    destruct Hs as [[Hs _]|[[-> _]|(_&->&_)]]; [|by exists n, y2, wc2, wp2..].
    exists (S n), y2, wc2, wp2. split; [done|]. by econstructor.
Qed.

(** Serving both processes makes progress towards the end of a maximal run. *)
Lemma block_related b x y wc wp n z :
  related x y wc wp -> abs_run n y z -> stuck z ->
  exists n' y' wc' wp', related (sys_run b x) y' wc' wp' /\ abs_run n' y' z /\
    ((left_over n' wc' wp' < left_over n wc wp)%nat \/
     (sys_run b x = x /\ y' = y /\ n' = n /\ wc' = wc /\ wp' = wp /\ (true ∈ b -> abs_cpp y = None) /\ (false ∈ b -> abs_py y = None))).
Proof.
  intros Hr Hrun Hz. revert x y wc wp n Hr Hrun. induction b as [|who s IH]; intros x y wc wp n Hr Hrun.
  { exists n, y, wc, wp. split_and!; [done..|]. right. by split_and!; try done; intros ?%not_elem_of_nil. }
  destruct (sys_next_related who x y wc wp Hr) as (y1&wc1&wp1&Hr1&[[Hs Hw]|[[-> Hw]|(Hx&->&->&->&Hnone)]]).
  - destruct (abs_run_step _ _ _ _ Hrun Hz Hs) as (n1&->&Hrun1).
    destruct (IH _ _ _ _ _ Hr1 Hrun1) as (n'&y'&wc'&wp'&?&?&Hle). exists n', y', wc', wp'. split_and!; [done..|]. left.
    unfold left_over in *. destruct Hle as [?|(?&?&->&->&->&?)]; lia.
  - destruct (IH _ _ _ _ _ Hr1 Hrun) as (n'&y'&wc'&wp'&?&?&Hle). exists n', y', wc', wp'. split_and!; [done..|]. left.
    unfold left_over in *. destruct Hle as [?|(?&?&->&->&->&?)]; lia.
  - destruct (IH _ _ _ _ _ Hr1 Hrun) as (n'&y'&wc'&wp'&?&?&Hle). exists n', y', wc', wp'. split_and!; [done..|].
    destruct Hle as [?|(E&->&->&->&->&H1&H2)]; [by left|right]. cbn. rewrite Hx in E |- *. split_and!; try done;
      intros Hin%elem_of_cons; destruct who; naive_solver.
Qed.

Lemma blocks_related blocks x y wc wp n z :
  Forall (fun b => true ∈ b /\ false ∈ b) blocks -> related x y wc wp -> abs_run n y z -> stuck z ->
  (left_over n wc wp < length blocks)%nat ->
  exists wc' wp', related (sys_run (concat blocks) x) z wc' wp'.
Proof.
  intros Hb. revert x y wc wp n. induction Hb as [|b bs [Ht Hf] _ IH]; intros x y wc wp n Hr Hrun Hz Hlt; [cbn in Hlt; lia|].
  unfold sys_run. cbn [concat]. rewrite fold_left_app. fold (sys_run (A := A) (B := B) b x). cbn [length] in Hlt.
  destruct (block_related b x y wc wp n z Hr Hrun Hz) as (n'&y'&wc'&wp'&Hr'&Hrun'&[Hle|(Hx&->&->&->&->&H1&H2)]).
  - apply (IH _ y' wc' wp' n'); [done..|lia].
  - rewrite Hx. destruct (sys_run_related (concat bs) x y wc wp Hr) as (m&z'&wc1&wp1&Hr1&Hrun1).
    assert (stuck y) as Hy by (split; auto). destruct (abs_run_stuck _ _ _ Hrun' Hy) as [_ ->].
    destruct (abs_run_stuck _ _ _ Hrun1 Hy) as [_ ->]. by exists wc1, wp1.
Qed.

(** A process whose abstract program has ended has ended too. *)
Lemma pos_hret {C} o i (P : hprog C -> prog C) `{!Compiled o i P} r a w p : pos o i P (HRet r) a w p -> p = PRet r.
Proof. intros Hp. inversion Hp; subst. apply compiled_ret. Qed.

End Abstract.

(** ** The interface *)

(** Two processes that follow the protocol, on a new segment. *)
Definition start {A B} (h1 : hprog A) (h2 : hprog B) (garbage : list byte) : sys A B := mkSys (cpp_prog h1) (py_prog h2) (shm_new garbage).

(** What is seen of a state of the system in the abstract machine: results, and
    messages that are too long. *)
Definition ended_as {A} (p : prog A) (h : hprog A) : Prop :=
  (forall r, p = PRet r -> h = HRet r) /\ (p = PAbort -> exists l k, h = HSend l k /\ MSG_BUFFER_SIZE < zlen l).

Section Interface.
Context {A B : Type} (h1 : hprog A) (h2 : hprog B) (garbage : list byte).
Hypothesis segment_size : zlen garbage = MSG_BUFFER_SIZE.

Lemma start_related schedule :
  exists n y wc wp, related (sys_run schedule (start h1 h2 garbage)) y wc wp /\ abs_run n (mkAbs h1 h2 None None) y.
Proof.
  destruct (sys_run_related schedule _ _ _ _ (related_init h1 h2 garbage segment_size)) as (n&y&wc&wp&?&?). by exists n, y, wc, wp.
Qed.

Lemma refines_ok schedule :
  let x := sys_run schedule (start h1 h2 garbage) in
  exists n y, abs_run n (mkAbs h1 h2 None None) y /\ ended_as (s_cpp x) (a_cpp y) /\ ended_as (s_py x) (a_py y).
Proof.
  intros x. destruct (start_related schedule) as (n&y&wc&wp&(a&b&Hc&Hp&_)&Hrun). exists n, y. split; [done|]. unfold ended_as. fold x in Hc, Hp.
  split; (split; [intros r E|intros E]); rewrite E in *.
  - exact (pos_ret Cpp2Py Py2Cpp cpp_prog _ _ _ _ Hc).
  - exact (pos_abort_inv Cpp2Py Py2Cpp cpp_prog _ _ _ Hc).
  - exact (pos_ret Py2Cpp Cpp2Py py_prog _ _ _ _ Hp).
  - exact (pos_abort_inv Py2Cpp Cpp2Py py_prog _ _ _ Hp).
Qed.

Lemma exclusive_ok schedule c :
  let x := sys_run schedule (start h1 h2 garbage) in
  (accesses (s_cpp x) = Some c -> accesses (s_py x) <> Some c) /\
  0 <= get_sem (EmptyCount c) (s_shm x) /\ 0 <= get_sem (FullCount c) (s_shm x) /\
  get_sem (EmptyCount c) (s_shm x) + get_sem (FullCount c) (s_shm x) <= 1.
Proof.
  intros x. destruct (start_related schedule) as (n&y&wc&wp&(a&b&Hc&Hp&H1&H2)&_). fold x in Hc, Hp, H1, H2. split.
  - intros E1 E2. destruct H1 as (_&H1&_), H2 as (_&H2&_).
    destruct (pos_accesses _ _ _ _ _ _ _ _ Hc E1) as [[-> Ha]|[-> Ha]], (pos_accesses _ _ _ _ _ _ _ _ Hp E2) as [[? Hb]|[? Hb]]; try done;
      revert H1 H2; destruct (a_c2p y), (a_p2c y), (wr a), (rd b), (wr b), (rd a); done.
  - destruct H1 as (_&H1&_), H2 as (_&H2&_). destruct c; [clear H2; revert H1|clear H1; revert H2];
      destruct (a_c2p y), (a_p2c y), (wr a), (rd b), (wr b), (rd a); cbn; try done; intuition lia.
Qed.

Lemma fair_ok n r1 r2 c p k schedule :
  abs_run n (mkAbs h1 h2 None None) (mkAbs (HRet r1) (HRet r2) c p) -> fair k schedule -> (n * op_bound + 2 * op_bound < k)%nat ->
  let x := sys_run schedule (start h1 h2 garbage) in s_cpp x = PRet r1 /\ s_py x = PRet r2.
Proof.
  intros Hrun (blocks&<-&<-&Hb) Hk x.
  destruct (blocks_related blocks _ _ _ _ n _ Hb (related_init h1 h2 garbage segment_size) Hrun) as (wc&wp&a&b&Hc&Hp&_).
  - by split; unfold abs_cpp, abs_py; cbn; destruct c, p.
  - unfold left_over. lia.
  - split; [exact (pos_hret Cpp2Py Py2Cpp cpp_prog _ _ _ _ Hc)|exact (pos_hret Py2Cpp Cpp2Py py_prog _ _ _ _ Hp)].
Qed.

End Interface.

(** ** Messages that are too long *)

(** The accesses before the simulator's assertion fails. *)
Definition before_abort {A} (p : prog A) : nat :=
  match p with PWait _ _ => 3 | PSpin _ _ _ => 2 | PSetSize _ _ _ => 1 | _ => 0 end.

Section TooLong.
Context {A B : Type} (l : list byte) (k : hprog A).
Hypothesis too_long : MSG_BUFFER_SIZE < zlen l.

Lemma cpp_long : cpp_prog (HSend l k) = PWait (EmptyCount Cpp2Py) (PSetSize Cpp2Py (zlen l) PAbort).
Proof. cbn. unfold cpp_send, CppSendBegin. by replace (zlen l <=? MSG_BUFFER_SIZE) with false by lia. Qed.

Lemma long_pos a w p : pos Cpp2Py Py2Cpp cpp_prog (HSend l k) a w p ->
  (p = cpp_prog (HSend l k) /\ a = Idle) \/ (p = PSpin (EmptyCount Cpp2Py) 1 (PSetSize Cpp2Py (zlen l) PAbort) /\ a = TrySend) \/
  (p = PSetSize Cpp2Py (zlen l) PAbort /\ a = Writing None) \/ p = PAbort.
Proof.
  intros Hp. inversion Hp as [|? ? q E|? ? q E|? ? j Hj Hl| | | |]; subst; [by left| | |lia|by auto].
  - right; left. rewrite cpp_long in E. by injection E as <-.
  - do 2 right; left. rewrite cpp_long in E. by injection E as <-.
Qed.

(** Each access of the simulator brings it nearer to the assertion. *)
Lemma long_step a w p b m p' m' :
  pos Cpp2Py Py2Cpp cpp_prog (HSend l k) a w p -> chan_ok m Cpp2Py None a b -> pstep p m = Some (p', m') ->
  (before_abort p' < before_abort p)%nat.
Proof.
  intros Hp (_&Hc&_) Hs. apply long_pos in Hp as [[-> ->]|[[-> ->]|[[-> ->]| ->]]]; cbn [wr] in Hc.
  - rewrite cpp_long in *. assert (get_sem (EmptyCount Cpp2Py) m = 1) as E by (destruct (rd b); naive_solver).
    cbn [pstep] in Hs. unfold atomic_read8, spin in Hs. rewrite E in Hs. injection Hs as <- <-. cbn. lia.
  - assert (get_sem (EmptyCount Cpp2Py) m = 1) as E by (destruct (rd b); naive_solver).
    cbn [pstep] in Hs. unfold atomic_cas8 in Hs. rewrite E in Hs. injection Hs as <- <-. cbn. lia.
  - injection Hs as <- <-. cbn. lia.
  - done.
Qed.

(** The agent cannot put anything into the simulator's outgoing structure. *)
Lemma abs_py_keeps (y y' : abs A B) : abs_py y = Some y' -> a_c2p y = None -> a_cpp y' = a_cpp y /\ a_c2p y' = None.
Proof.
  unfold abs_py. intros E Hn. rewrite Hn in E. destruct (a_py y); cbn in E; [done| |by destruct (a_p2c y)].
  destruct (a_p2c y); [done|]. destruct (_ <=? _); by simplify_eq.
Qed.

Definition at_long (x : sys A B) : Prop := exists y wc wp, related x y wc wp /\ a_cpp y = HSend l k /\ a_c2p y = None.
Lemma long_next who x :
  at_long x -> at_long (sys_next who x) /\ (before_abort (s_cpp (sys_next who x)) <= before_abort (s_cpp x) - (if who then 1 else 0))%nat.
Proof.
  intros (y&wc&wp&Hr&Hy&Hn). unfold sys_next. destruct who.
  - destruct (pstep (s_cpp x) (s_shm x)) as [[p m]|] eqn:E.
    + split.
      * destruct (related_cpp x y wc wp p m Hr E) as (y'&wc'&Hr'&[(Hs&_)|(->&_)]); [|by exists y, wc', wp].
        exfalso. unfold abs_cpp in Hs. rewrite Hy, (hstep_long l k) in Hs by done. done.
      * destruct Hr as (a&b&Hc&_&H1&_). rewrite Hy in Hc. rewrite Hn in H1. pose proof (long_step _ _ _ _ _ _ _ Hc H1 E). cbn [s_cpp]. lia.
    + split; [by exists y, wc, wp|]. destruct Hr as (a&b&Hc&_). rewrite Hy in Hc.
      apply long_pos in Hc as [[Ep _]|[[Ep _]|[[Ep _]|Ep]]]; rewrite Ep in *; [by rewrite cpp_long in E|done|done|cbn; lia].
  - destruct (pstep (s_py x) (s_shm x)) as [[p m]|] eqn:E; cbn [s_cpp]; (split; [|lia]); [|by exists y, wc, wp].
    destruct (related_py x y wc wp p m Hr E) as (y'&wp'&Hr'&[(Hs&_)|(->&_)]); [|by exists y, wc, wp'].
    destruct (abs_py_keeps _ _ Hs Hn) as [E1 E2]. exists y', wc, wp'. split; [done|]. by rewrite E1.
Qed.

Lemma long_run schedule x :
  at_long x -> at_long (sys_run schedule x) /\
  (before_abort (s_cpp (sys_run schedule x)) <= before_abort (s_cpp x) - length (filter (eq true) schedule))%nat.
Proof.
  revert x. induction schedule as [|who s IH]; intros x Hx; [split; [done|cbn; lia]|].
  destruct (long_next who x Hx) as [Hx1 H1], (IH _ Hx1) as [Hx2 H2]. split; [exact Hx2|].
  unfold sys_run in *. cbn [fold_left]. rewrite filter_cons. destruct who; case_decide; try done; cbn [length] in *; lia.
Qed.

Lemma too_long_ok (h2 : hprog B) garbage schedule :
  zlen garbage = MSG_BUFFER_SIZE ->
  let x := sys_run schedule (start (HSend l k) h2 garbage) in
  get_sem (FullCount Cpp2Py) (s_shm x) = 0 /\ ((3 <= length (filter (eq true) schedule))%nat -> s_cpp x = PAbort).
Proof.
  intros Hg x. destruct (long_run schedule (start (HSend l k) h2 garbage)) as [(y&wc&wp&(a&b&Hc&_&(_&H1&_)&_)&Hy&Hn) H2].
  { eexists _, _, _. split; [by apply related_init|done]. }
  fold x in Hc, H1, H2. rewrite Hn in H1. split; [destruct (wr a), (rd b); naive_solver|]. intros H3.
  unfold start in H2. cbn [s_cpp] in H2. rewrite cpp_long in H2. cbn [before_abort] in H2. rewrite Hy in Hc.
  apply long_pos in Hc as [[Ep _]|[[Ep _]|[[Ep _]|Ep]]]; [..|exact Ep]; exfalso; revert H2; rewrite Ep, ?cpp_long; cbn [before_abort]; lia.
Qed.

End TooLong.

(** C8: for every two programs of the simulator and of the agent and every
    interleaving of their accesses to the shared segment, the processes are where
    the machine that passes whole messages in one step can be: a process that has
    returned has the result of that machine, so every message was received exactly
    as it was sent, and a process aborts only when it has a message longer than the
    buffer to send. *)
Theorem exchange_refines {A B} (h1 : hprog A) (h2 : hprog B) garbage schedule :
  zlen garbage = MSG_BUFFER_SIZE ->
  let x := sys_run schedule (start h1 h2 garbage) in
  exists n y, abs_run n (mkAbs h1 h2 None None) y /\ ended_as (s_cpp x) (a_cpp y) /\ ended_as (s_py x) (a_py y).
Proof. intros Hg. by apply refines_ok. Qed.

(** In every interleaving, the two processes never access the same message
    structure at the same time, and the two semaphores of a structure never sum to
    more than one, so that [sem_post] never wraps around. *)
Theorem exchange_exclusive {A B} (h1 : hprog A) (h2 : hprog B) garbage schedule c :
  zlen garbage = MSG_BUFFER_SIZE ->
  let x := sys_run schedule (start h1 h2 garbage) in
  (accesses (s_cpp x) = Some c -> accesses (s_py x) <> Some c) /\
  0 <= get_sem (EmptyCount c) (s_shm x) /\ 0 <= get_sem (FullCount c) (s_shm x) /\
  get_sem (EmptyCount c) (s_shm x) + get_sem (FullCount c) (s_shm x) <= 1.
Proof. intros Hg. by apply exclusive_ok. Qed.

(** C38: when passing whole messages leads both programs to their results in [n]
    steps, every schedule that serves both processes often enough leads the
    processes to the same results: the busy-waiting protocol neither deadlocks nor
    depends on the schedule. *)
Theorem exchange_completes {A B} (h1 : hprog A) (h2 : hprog B) garbage n r1 r2 c p k schedule :
  zlen garbage = MSG_BUFFER_SIZE ->
  abs_run n (mkAbs h1 h2 None None) (mkAbs (HRet r1) (HRet r2) c p) -> fair k schedule -> (n * op_bound + 2 * op_bound < k)%nat ->
  let x := sys_run schedule (start h1 h2 garbage) in s_cpp x = PRet r1 /\ s_py x = PRet r2.
Proof. intros Hg. exact (fair_ok h1 h2 garbage Hg n r1 r2 c p k schedule). Qed.

(** A simulator whose next message is longer than the buffer fails its
    assertion within three accesses of its own under every schedule, and the agent
    is never told that a message is there; an agent with such a message fails
    before it touches the segment. *)
Theorem too_long_aborts {A B} (l : list byte) (k : hprog A) (k' h2 : hprog B) garbage schedule :
  MSG_BUFFER_SIZE < zlen l -> zlen garbage = MSG_BUFFER_SIZE ->
  let x := sys_run schedule (start (HSend l k) h2 garbage) in
  get_sem (FullCount Cpp2Py) (s_shm x) = 0 /\ ((3 <= length (filter (eq true) schedule))%nat -> s_cpp x = PAbort) /\
  py_prog (HSend l k') = PAbort.
Proof.
  intros Hl Hg x. split_and!; [by apply (too_long_ok (B := B) l k Hl h2)..|].
  cbn. unfold py_send. by replace (zlen l <=? MSG_BUFFER_SIZE) with false by lia.
Qed.

End GymSystem.
