(* ===== verification/GymContainers.v ===== *)
(** * Spaces and data of the gym interface (contrib/ns3-ai)

    The values an environment observes and the actions an agent takes: the C++
    containers and spaces (container.cc, container.h, spaces.cc), the messages
    they are put into (messages.proto) and their Python counterparts
    (ns3_environment.py). A pointer to a container is a value with a null case;
    floating point numbers are only copied and stand for their bit patterns. *)

From stdpp Require Import strings.
From S2P Require Import Prelude.

Module GymContainers.
Open Scope Z_scope.

(** ** Messages (messages.proto) *)

Inductive SpaceType := NoSpaceType | Discrete | Box | Tuple | Dict.
Inductive Dtype := NoDType | INT | UINT | FLOAT | DOUBLE.

Record BoxSpacePb := mkBoxSpacePb { bs_low : Z; bs_high : Z; bs_dtype : Dtype; bs_shape : list Z }.
(** A description holds its space as a packed message. *)
Inductive SpaceDescription := mkSpaceDescription (sd_type : SpaceType) (sd_space : AnySpace) (sd_name : string)
with AnySpace :=
  | AnySpaceNone
  | AnyDiscreteSpace (n : Z)
  | AnyBoxSpace (b : BoxSpacePb)
  | AnyTupleSpace (element : list SpaceDescription)
  | AnyDictSpace (element : list SpaceDescription).

Record BoxDataContainerPb := mkBoxPb {
  bp_dtype : Dtype; bp_shape : list Z; intData : list Z; uintData : list Z; floatData : list Z; doubleData : list Z
}.
Inductive DataContainer := mkDataContainer (dc_type : SpaceType) (dc_data : AnyData) (dc_name : string)
with AnyData :=
  | AnyDataNone
  | AnyDiscreteData (data : Z)
  | AnyBoxData (b : BoxDataContainerPb)
  | AnyTupleData (element : list DataContainer)
  | AnyDictData (element : list DataContainer).

Definition dc_name (d : DataContainer) : string := let '(mkDataContainer _ _ n) := d in n.
Definition set_name (n : string) (d : DataContainer) : DataContainer := let '(mkDataContainer t x _) := d in mkDataContainer t x n.
Definition sd_name (d : SpaceDescription) : string := let '(mkSpaceDescription _ _ n) := d in n.
Definition set_sname (n : string) (d : SpaceDescription) : SpaceDescription :=
  let '(mkSpaceDescription t x _) := d in mkSpaceDescription t x n.
(** A message with no field set. *)
Definition DataContainer_new : DataContainer := mkDataContainer NoSpaceType AnyDataNone "".

(** [UnpackTo] leaves the target as it was when the packed message is another one. *)
Definition unpack_discrete (a : AnyData) : Z := match a with AnyDiscreteData x => x | _ => 0 end.
Definition unpack_box (a : AnyData) : BoxDataContainerPb := match a with AnyBoxData b => b | _ => mkBoxPb NoDType [] [] [] [] [] end.
Definition unpack_tuple (a : AnyData) : list DataContainer := match a with AnyTupleData l => l | _ => [] end.
Definition unpack_dict (a : AnyData) : list DataContainer := match a with AnyDictData l => l | _ => [] end.

(** ** Element types *)

Inductive ctype := int8_t | int16_t | int32_t | int64_t | uint8_t | uint16_t | uint32_t | uint64_t | float_t | double_t.
#[export] Instance ctype_eq_dec : EqDecision ctype.
Proof. solve_decision. Defined.
Definition TypeNameGet (T : ctype) : string :=
  match T with
  | int8_t => "int8_t" | int16_t => "int16_t" | int32_t => "int32_t" | int64_t => "int64_t"
  | uint8_t => "uint8_t" | uint16_t => "uint16_t" | uint32_t => "uint32_t" | uint64_t => "uint64_t"
  | float_t => "float" | double_t => "double"
  end.
Definition SetDtype (name : string) : Dtype :=
  if (name =? "int8_t")%string || (name =? "int16_t")%string || (name =? "int32_t")%string || (name =? "int64_t")%string then INT
  else if (name =? "uint8_t")%string || (name =? "uint16_t")%string || (name =? "uint32_t")%string || (name =? "uint64_t")%string then UINT
  else if (name =? "float")%string then FLOAT
  else if (name =? "double")%string then DOUBLE
  else FLOAT.

(** ** Containers (container.cc, container.h) *)

(** A [Ptr<OpenGymDataContainer>]; a dictionary is kept in the order of its keys. *)
Inductive Ptr :=
  | Null
  | OpenGymDiscreteContainer (m_n m_value : Z)
  | OpenGymBoxContainer (T : ctype) (m_shape m_data : list Z)
  | OpenGymTupleContainer (m_tuple : list Ptr)
  | OpenGymDictContainer (m_dict : list (string * Ptr)).

(** [std::map::insert] keeps the element that is already there. *)
Fixpoint map_insert {V} (key : string) (v : V) (m : list (string * V)) : list (string * V) :=
  match m with
  | [] => [(key, v)]
  | (k, w) :: m' => if (key <? k)%string then (key, v) :: m else if (key =? k)%string then m else (k, w) :: map_insert key v m'
  end.
Fixpoint map_find {V} (key : string) (m : list (string * V)) : option V :=
  match m with
  | [] => None
  | (k, w) :: m' => if (key =? k)%string then Some w else map_find key m'
  end.

Definition BoxContainer_AddValue (value : Z) (p : Ptr) : Ptr :=
  match p with OpenGymBoxContainer T sh d => OpenGymBoxContainer T sh (d ++ [value]) | _ => p end.
Definition BoxContainer_GetValue (idx : nat) (p : Ptr) : option Z :=
  match p with OpenGymBoxContainer _ _ d => Some (nth idx d 0) | _ => None end.
Definition TupleContainer_Add (data : Ptr) (p : Ptr) : Ptr :=
  match p with OpenGymTupleContainer l => OpenGymTupleContainer (l ++ [data]) | _ => p end.
Definition TupleContainer_Get (idx : nat) (p : Ptr) : option Ptr :=
  match p with OpenGymTupleContainer l => Some (nth idx l Null) | _ => None end.
Definition DictContainer_Add (key : string) (data : Ptr) (p : Ptr) : Ptr :=
  match p with OpenGymDictContainer m => OpenGymDictContainer (map_insert key data m) | _ => p end.
Definition DictContainer_Get (key : string) (p : Ptr) : option Ptr :=
  match p with OpenGymDictContainer m => Some (default Null (map_find key m)) | _ => None end.

(** The message of a box: the elements are converted to the field's type. *)
Definition box_pb (T : ctype) (shape data : list Z) : BoxDataContainerPb :=
  let d := SetDtype (TypeNameGet T) in
  match d with
  | INT => mkBoxPb d shape (i32 <$> data) [] [] []
  | UINT => mkBoxPb d shape [] (u32 <$> data) [] []
  | FLOAT => mkBoxPb d shape [] [] data []
  | DOUBLE => mkBoxPb d shape [] [] [] data
  | NoDType => mkBoxPb d shape [] [] data []
  end.

Definition Discrete_GetDataContainerPbMsg (v : Z) : DataContainer := mkDataContainer Discrete (AnyDiscreteData (i32 v)) "".
Definition Box_GetDataContainerPbMsg (T : ctype) (shape data : list Z) : DataContainer := mkDataContainer Box (AnyBoxData (box_pb T shape data)) "".
(** The messages of the elements, [None] for a call through a null pointer. *)
Definition elements {X Y} (f : X -> option Y) : list X -> option (list Y) :=
  fix go l := match l with [] => Some [] | x :: l' => let* e := f x in let* es := go l' in Some (e :: es) end.
Definition named_elements {X Y} (f : X -> option Y) (name : string -> Y -> Y) : list (string * X) -> option (list Y) :=
  fix go m := match m with [] => Some [] | (k, x) :: m' => let* e := f x in let* es := go m' in Some (name k e :: es) end.
Definition Tuple_GetDataContainerPbMsg (f : Ptr -> option DataContainer) (l : list Ptr) : option DataContainer :=
  let* es := elements f l in Some (mkDataContainer Tuple (AnyTupleData es) "").
Definition Dict_GetDataContainerPbMsg (f : Ptr -> option DataContainer) (m : list (string * Ptr)) : option DataContainer :=
  let* es := named_elements f set_name m in Some (mkDataContainer Dict (AnyDictData es) "").
(** The virtual function. *)
Fixpoint GetDataContainerPbMsg (p : Ptr) : option DataContainer :=
  match p with
  | Null => None
  | OpenGymDiscreteContainer _ v => Some (Discrete_GetDataContainerPbMsg v)
  | OpenGymBoxContainer T sh d => Some (Box_GetDataContainerPbMsg T sh d)
  | OpenGymTupleContainer l => Tuple_GetDataContainerPbMsg GetDataContainerPbMsg l
  | OpenGymDictContainer m => Dict_GetDataContainerPbMsg GetDataContainerPbMsg m
  end.

Definition CreateBox (b : BoxDataContainerPb) : Ptr :=
  match bp_dtype b with
  | INT => OpenGymBoxContainer int32_t [] (intData b)
  | UINT => OpenGymBoxContainer uint32_t [] (uintData b)
  | FLOAT => OpenGymBoxContainer float_t [] (floatData b)
  | DOUBLE => OpenGymBoxContainer double_t [] (doubleData b)
  | NoDType => OpenGymBoxContainer float_t [] (floatData b)
  end.
Fixpoint CreateFromDataContainerPbMsg (d : DataContainer) : Ptr :=
  let '(mkDataContainer type data _) := d in
  match type with
  | Discrete => OpenGymDiscreteContainer 0 (u32 (unpack_discrete data))
  | Box => CreateBox (unpack_box data)
  | Tuple => OpenGymTupleContainer (match data with AnyTupleData l => CreateFromDataContainerPbMsg <$> l | _ => [] end)
  | Dict =>
      OpenGymDictContainer (match data with
        | AnyDictData l => fold_left (fun m e => map_insert (dc_name e) (CreateFromDataContainerPbMsg e) m) l []
        | _ => []
        end)
  | NoSpaceType => Null
  end.

(** ** Spaces (spaces.cc) *)

Inductive OpenGymSpace :=
  | NullSpace
  | OpenGymDiscreteSpace (m_n : Z)
  | OpenGymBoxSpace (m_low m_high : Z) (m_shape : list Z) (m_dtypeName : string) (m_lowVec m_highVec : list Z)
  | OpenGymTupleSpace (m_tuple : list OpenGymSpace)
  | OpenGymDictSpace (m_dict : list (string * OpenGymSpace)).
(** The two constructors of a box space. *)
Definition BoxSpace_scalar (low high : Z) (shape : list Z) (dtype : string) : OpenGymSpace := OpenGymBoxSpace low high shape dtype [] [].
Definition BoxSpace_vector (low high : list Z) (shape : list Z) (dtype : string) : OpenGymSpace := OpenGymBoxSpace 0 0 shape dtype low high.
Definition TupleSpace_Add (space : OpenGymSpace) (p : OpenGymSpace) : OpenGymSpace :=
  match p with OpenGymTupleSpace l => OpenGymTupleSpace (l ++ [space]) | _ => p end.
Definition TupleSpace_Get (idx : nat) (p : OpenGymSpace) : option OpenGymSpace :=
  match p with OpenGymTupleSpace l => Some (nth idx l NullSpace) | _ => None end.
Definition DictSpace_Add (key : string) (space : OpenGymSpace) (p : OpenGymSpace) : OpenGymSpace :=
  match p with OpenGymDictSpace m => OpenGymDictSpace (map_insert key space m) | _ => p end.
Definition DictSpace_Get (key : string) (p : OpenGymSpace) : option OpenGymSpace :=
  match p with OpenGymDictSpace m => Some (default NullSpace (map_find key m)) | _ => None end.

Definition Discrete_GetSpaceDescription (n : Z) : SpaceDescription := mkSpaceDescription Discrete (AnyDiscreteSpace n) "".
Definition Box_GetSpaceDescription (low high : Z) (shape : list Z) (dtypeName : string) : SpaceDescription :=
  mkSpaceDescription Box (AnyBoxSpace (mkBoxSpacePb low high (SetDtype dtypeName) shape)) "".
Definition Tuple_GetSpaceDescription (f : OpenGymSpace -> option SpaceDescription) (l : list OpenGymSpace) : option SpaceDescription :=
  let* es := elements f l in Some (mkSpaceDescription Tuple (AnyTupleSpace es) "").
Definition Dict_GetSpaceDescription (f : OpenGymSpace -> option SpaceDescription) (m : list (string * OpenGymSpace)) : option SpaceDescription :=
  let* es := named_elements f set_sname m in Some (mkSpaceDescription Dict (AnyDictSpace es) "").
Fixpoint GetSpaceDescription (p : OpenGymSpace) : option SpaceDescription :=
  match p with
  | NullSpace => None
  | OpenGymDiscreteSpace n => Some (Discrete_GetSpaceDescription n)
  | OpenGymBoxSpace low high sh name _ _ => Some (Box_GetSpaceDescription low high sh name)
  | OpenGymTupleSpace l => Tuple_GetSpaceDescription GetSpaceDescription l
  | OpenGymDictSpace m => Dict_GetSpaceDescription GetSpaceDescription m
  end.

(** ** The Python side (ns3_environment.py) *)

(** Assignment to a key of a Python dictionary. *)
Fixpoint py_set {V} (key : string) (v : V) (m : list (string * V)) : list (string * V) :=
  match m with
  | [] => [(key, v)]
  | (k, w) :: m' => if (key =? k)%string then (k, v) :: m' else (k, w) :: py_set key v m'
  end.

Inductive np_dtype := np_int | np_uint | np_float.
Inductive pyspace :=
  | PyNoSpace
  | PyDiscrete (n : Z)
  | PyBox (low high : Z) (shape : list Z) (dtype : np_dtype)
  | PyTupleSpace (spaces : list pyspace)
  | PyDictSpace (spaces : list (string * pyspace)).
Definition np_of_dtype (d : Dtype) : np_dtype := match d with INT => np_int | UINT => np_uint | _ => np_float end.
Definition unpack_discrete_space (a : AnySpace) : Z := match a with AnyDiscreteSpace n => n | _ => 0 end.
Definition unpack_box_space (a : AnySpace) : BoxSpacePb := match a with AnyBoxSpace b => b | _ => mkBoxSpacePb 0 0 NoDType [] end.
Fixpoint _create_space (d : SpaceDescription) : pyspace :=
  let '(mkSpaceDescription type space _) := d in
  match type with
  | Discrete => PyDiscrete (unpack_discrete_space space)
  | Box => let b := unpack_box_space space in PyBox (bs_low b) (bs_high b) (bs_shape b) (np_of_dtype (bs_dtype b))
  | Tuple => PyTupleSpace (match space with AnyTupleSpace l => _create_space <$> l | _ => [] end)
  | Dict =>
      PyDictSpace (match space with AnyDictSpace l => fold_left (fun m e => py_set (sd_name e) (_create_space e) m) l [] | _ => [] end)
  | NoSpaceType => PyNoSpace
  end.

Inductive pydata :=
  | PyNone
  | PyInt (n : Z)
  | PyArray (l : list Z)
  | PyTuple (l : list pydata)
  | PyDict (l : list (string * pydata)).
Definition box_numbers (b : BoxDataContainerPb) : list Z :=
  match bp_dtype b with INT => intData b | UINT => uintData b | DOUBLE => doubleData b | _ => floatData b end.
Fixpoint _create_data (d : DataContainer) : pydata :=
  let '(mkDataContainer type data _) := d in
  match type with
  | Discrete => PyInt (unpack_discrete data)
  | Box => PyArray (box_numbers (unpack_box data))
  | Tuple => PyTuple (match data with AnyTupleData l => _create_data <$> l | _ => [] end)
  | Dict => PyDict (match data with AnyDictData l => fold_left (fun m e => py_set (dc_name e) (_create_data e) m) l [] | _ => [] end)
  | NoSpaceType => PyNone
  end.

(** The range checks of integer fields. *)
Definition int32_ok (x : Z) : bool := (- 2 ^ 31 <=? x) && (x <? 2 ^ 31).
Definition uint32_ok (x : Z) : bool := (0 <=? x) && (x <? 2 ^ 32).

(** Packing a number, and a sequence of numbers for a box; [None] is an exception. *)
Definition pack_scalar (n : Z) (space : pyspace) : option DataContainer :=
  match space with
  | PyDiscrete _ => if int32_ok n then Some (mkDataContainer Discrete (AnyDiscreteData n) "") else None
  | PyNoSpace => Some DataContainer_new
  | _ => None
  end.
Definition pack_box (l : list Z) (dtype : np_dtype) : option DataContainer :=
  let shape := [Z.of_nat (length l)] in
  match dtype with
  | np_int => if forallb int32_ok l then Some (mkDataContainer Box (AnyBoxData (mkBoxPb INT shape l [] [] [])) "") else None
  | np_uint => if forallb uint32_ok l then Some (mkDataContainer Box (AnyBoxData (mkBoxPb UINT shape [] l [] [])) "") else None
  | np_float => Some (mkDataContainer Box (AnyBoxData (mkBoxPb FLOAT shape [] [] l [])) "")
  end.
Definition py_numbers (l : list pydata) : option (list Z) := mapM (fun x => match x with PyInt n => Some n | _ => None end) l.

(** The spaces a tuple is packed with, and the one of a key of a dictionary: those
    of the whole action space [self]. *)
Definition tuple_spaces (self : pyspace) : option (list pyspace) :=
  match self with
  | PyTupleSpace l => Some l
  | PyDictSpace m => Some ((fun _ => PyNoSpace) <$> m)
  | _ => None
  end.
Definition dict_space (self : pyspace) (key : string) : option pyspace :=
  match self with PyDictSpace m => map_find key m | _ => None end.

Fixpoint _pack_data (self : pyspace) (actions : pydata) (spaceDesc : pyspace) {struct actions} : option DataContainer :=
  match spaceDesc with
  | PyNoSpace => Some DataContainer_new
  | PyDiscrete _ => match actions with PyInt n => pack_scalar n spaceDesc | _ => None end
  | PyBox _ _ _ dtype =>
      match actions with
      | PyArray l => pack_box l dtype
      | PyTuple l => let* ns := py_numbers l in pack_box ns dtype
      | _ => None
      end
  | PyTupleSpace _ =>
      let* spaceList := tuple_spaces self in
      let* es := match actions with
        | PyTuple l =>
            (fix go (l : list pydata) (ss : list pyspace) := match l, ss with
              | x :: l', sp :: ss' => let* e := _pack_data self x sp in let* es := go l' ss' in Some (e :: es)
              | _, _ => Some []
              end) l spaceList
        | PyArray l => mapM (fun '(n, sp) => pack_scalar n sp) (zip l spaceList)
        | _ => None
        end in
      Some (mkDataContainer Tuple (AnyTupleData es) "")
  | PyDictSpace _ =>
      match actions with
      | PyDict m =>
          let* es := (fix go (m : list (string * pydata)) := match m with
            | [] => Some []
            | (k, x) :: m' => let* sp := dict_space self k in let* e := _pack_data self x sp in let* es := go m' in Some (set_name k e :: es)
            end) m in
          Some (mkDataContainer Dict (AnyDictData es) "")
      | _ => None
      end
  end.

End GymContainers.
