(* ===== verification/GymContainersProps.v ===== *)
(** * What crosses the gym interface

    An observation reaches the agent, and an action the environment, with the
    values they have; what does not survive is shown too. *)

From stdpp Require Import strings.
From S2P Require Import Prelude GymContainers.

Module GymContainersProps.
Import GymContainers.
Open Scope Z_scope.

(** ** Keys *)

Lemma ltb_not s t : (s <? t)%string = true -> (t <? s)%string = false /\ (t =? s)%string = false.
Proof.
  unfold String.ltb. rewrite (String.compare_antisym t s). destruct (String.compare s t) eqn:E; cbn; try done.
  intros _. split; [done|]. apply String.eqb_neq. intros ->. pose proof (String.compare_antisym s s) as H. by rewrite E in H.
Qed.
Definition key_lt (s t : string) : Prop := (s <? t)%string = true.

Lemma map_insert_last {V} key (v : V) m : Forall (fun e => key_lt e.1 key) m -> map_insert key v m = m ++ [(key, v)].
Proof.
  induction 1 as [|[k w] m Hk _ IH]; [done|]. cbn in *. destruct (ltb_not _ _ Hk) as [-> ->]. by rewrite IH.
Qed.
Lemma py_set_new {V} key (v : V) m : Forall (fun e => (key =? e.1)%string = false) m -> py_set key v m = m ++ [(key, v)].
Proof. induction 1 as [|[k w] m Hk _ IH]; [done|]. cbn in *. by rewrite Hk, IH. Qed.

(** Adding the entries of a sorted dictionary in order rebuilds it. *)
Lemma fold_insert_sorted {X V} (name : X -> string) (f : X -> V) l acc :
  StronglySorted key_lt ((fst <$> acc) ++ (name <$> l)) ->
  fold_left (fun m e => map_insert (name e) (f e) m) l acc = acc ++ ((fun e => (name e, f e)) <$> l).
Proof.
  revert acc. induction l as [|e l IH]; intros acc Hs; [by rewrite app_nil_r|]. cbn [fold_left fmap list_fmap].
  assert (Forall (fun x => key_lt x.1 (name e)) acc) as Hacc.
  { apply Forall_forall. intros x Hx. apply StronglySorted_app in Hs as (H&_&_).
    apply (H x.1 (name e)); [by apply list_elem_of_fmap_2|]. apply elem_of_cons. by left. }
  rewrite map_insert_last, IH, <- app_assoc by (try done; rewrite fmap_app, <- app_assoc; done). done.
Qed.
Lemma fold_set_sorted {X V} (name : X -> string) (f : X -> V) l acc :
  StronglySorted key_lt ((fst <$> acc) ++ (name <$> l)) ->
  fold_left (fun m e => py_set (name e) (f e) m) l acc = acc ++ ((fun e => (name e, f e)) <$> l).
Proof.
  revert acc. induction l as [|e l IH]; intros acc Hs; [by rewrite app_nil_r|]. cbn [fold_left fmap list_fmap].
  assert (Forall (fun x => (name e =? x.1)%string = false) acc) as Hacc.
  { apply Forall_forall. intros x Hx. apply StronglySorted_app in Hs as (H&_&_).
    apply ltb_not. apply (H x.1 (name e)); [by apply list_elem_of_fmap_2|]. apply elem_of_cons. by left. }
  rewrite py_set_new, IH, <- app_assoc by (try done; rewrite fmap_app, <- app_assoc; done). done.
Qed.

(** ** Containers *)

(** Induction on nested containers. *)
Lemma Ptr_nested_ind (Q : Ptr -> Prop) :
  Q Null -> (forall n v, Q (OpenGymDiscreteContainer n v)) -> (forall T sh d, Q (OpenGymBoxContainer T sh d)) ->
  (forall l, Forall Q l -> Q (OpenGymTupleContainer l)) -> (forall m, Forall (fun e => Q e.2) m -> Q (OpenGymDictContainer m)) ->
  forall p, Q p.
Proof.
  intros H0 H1 H2 H3 H4. fix IH 1. intros [|n v|T sh d|l|m]; [done..| |].
  - apply H3. induction l; constructor; auto.
  - apply H4. induction m as [|[k x] m]; constructor; auto.
Qed.

(** No null pointers inside, and the entries of a dictionary in order. *)
Inductive wf_container : Ptr -> Prop :=
  | wf_discrete n v : wf_container (OpenGymDiscreteContainer n v)
  | wf_box T sh d : wf_container (OpenGymBoxContainer T sh d)
  | wf_tuple l : Forall wf_container l -> wf_container (OpenGymTupleContainer l)
  | wf_dict m : Forall (fun e => wf_container e.2) m -> StronglySorted key_lt (fst <$> m) -> wf_container (OpenGymDictContainer m).

(** What is left of an element on the wire. *)
Definition wire (T : ctype) (x : Z) : Z :=
  match SetDtype (TypeNameGet T) with INT => i32 x | UINT => u32 x | _ => x end.
Definition wire_type (T : ctype) : ctype :=
  match SetDtype (TypeNameGet T) with INT => int32_t | UINT => uint32_t | DOUBLE => double_t | _ => float_t end.

(** What the agent sees of a container, and what another simulator would. *)
Fixpoint py_view (p : Ptr) : pydata :=
  match p with
  | Null => PyNone
  | OpenGymDiscreteContainer _ v => PyInt (i32 v)
  | OpenGymBoxContainer T _ d => PyArray (wire T <$> d)
  | OpenGymTupleContainer l => PyTuple (py_view <$> l)
  | OpenGymDictContainer m => PyDict ((fun e => (e.1, py_view e.2)) <$> m)
  end.
Fixpoint received (p : Ptr) : Ptr :=
  match p with
  | Null => Null
  | OpenGymDiscreteContainer _ v => OpenGymDiscreteContainer 0 (u32 v)
  | OpenGymBoxContainer T _ d => OpenGymBoxContainer (wire_type T) [] (wire T <$> d)
  | OpenGymTupleContainer l => OpenGymTupleContainer (received <$> l)
  | OpenGymDictContainer m => OpenGymDictContainer ((fun e => (e.1, received e.2)) <$> m)
  end.

Lemma u32_i32 x : u32 (i32 x) = u32 x.
Proof. unfold u32, i32, wrap, swrap. rewrite Zminus_mod_idemp_l. f_equal. lia. Qed.

Lemma box_view T sh d : box_numbers (box_pb T sh d) = wire T <$> d /\ CreateBox (box_pb T sh d) = OpenGymBoxContainer (wire_type T) [] (wire T <$> d).
Proof. by destruct T; cbn; unfold wire; cbn; rewrite ?list_fmap_id. Qed.

(** The elements of a tuple and of a dictionary, as messages. *)
Definition pb_of (p : Ptr) (d : DataContainer) : Prop := _create_data d = py_view p /\ CreateFromDataContainerPbMsg d = received p.

Lemma set_name_view k d : _create_data (set_name k d) = _create_data d /\ CreateFromDataContainerPbMsg (set_name k d) = CreateFromDataContainerPbMsg d /\ dc_name (set_name k d) = k.
Proof. by destruct d. Qed.

Lemma container_pb p : wf_container p -> exists d, GetDataContainerPbMsg p = Some d /\ pb_of p d.
Proof.
  induction p as [|n v|T sh d|l IH|m IH] using Ptr_nested_ind; intros Hwf; inversion Hwf as [| |? Hl|? Hm Hs]; subst.
  - eexists. split; [done|]. split; [done|]. cbn. by rewrite u32_i32.
  - eexists. split; [done|]. split; cbn; by rewrite ?(proj1 (box_view T sh d)), ?(proj2 (box_view T sh d)).
  - cbn [GetDataContainerPbMsg]. unfold Tuple_GetDataContainerPbMsg.
    assert (exists ds, elements GetDataContainerPbMsg l = Some ds /\ Forall2 pb_of l ds) as (ds&->&Hds).
    { clear Hwf. induction l as [|x l IHl]; [by exists []|]. apply Forall_cons in IH as [IHx IH], Hl as [Hx Hl].
      destruct (IHx Hx) as (e&Ee&He), (IHl IH Hl) as (es&Ees&Hes). exists (e :: es). cbn. rewrite Ee, Ees.
      by split; [|constructor]. }
    eexists. split; [done|]. split; cbn; f_equal; clear -Hds; induction Hds as [|?? ?? [E1 E2]]; cbn; congruence.
  - cbn [GetDataContainerPbMsg]. unfold Dict_GetDataContainerPbMsg.
    assert (exists ds, named_elements GetDataContainerPbMsg set_name m = Some ds /\ Forall2 (fun e d => dc_name d = e.1 /\ pb_of e.2 d) m ds) as (ds&->&Hds).
    { clear Hwf Hs. induction m as [|[k x] m IHm]; [by exists []|]. apply Forall_cons in IH as [IHx IH], Hm as [Hx Hm]. cbn [snd] in *.
      destruct (IHx Hx) as (e&Ee&He1&He2), (IHm IH Hm) as (es&Ees&Hes). exists (set_name k e :: es). cbn. rewrite Ee, Ees.
      destruct (set_name_view k e) as (E1&E2&E3). split; [done|]. constructor; [|done]. split; [done|].
      unfold pb_of. by rewrite E1, E2. }
    assert (dc_name <$> ds = fst <$> m) as Hn by (clear -Hds; induction Hds as [|?? ?? [E1 ?]]; cbn; congruence).
    eexists. split; [done|]. split; cbn; f_equal; (rewrite fold_set_sorted || rewrite fold_insert_sorted); try (cbn; by rewrite Hn);
      cbn [app]; clear -Hds; induction Hds as [|?? ?? [E0 [E1 E2]]]; cbn; congruence.
Qed.

(** Values that fit the fields of the messages arrive as they are. *)
Definition fits_wire (T : ctype) (x : Z) : Prop :=
  match SetDtype (TypeNameGet T) with INT => - 2 ^ 31 <= x < 2 ^ 31 | UINT => 0 <= x < 2 ^ 32 | _ => True end.
Lemma int32_exact x : - 2 ^ 31 <= x < 2 ^ 31 -> i32 x = x.
Proof. intros. unfold i32, swrap. rewrite Z.mod_small; lia. Qed.
Lemma wire_exact T x : fits_wire T x -> wire T x = x.
Proof. unfold fits_wire, wire. destruct (SetDtype (TypeNameGet T)); auto using int32_exact, u32_small. Qed.

(** ** Building containers *)

Lemma key_lt_trans s t u : key_lt s t -> key_lt t u -> key_lt s u.
Proof.
  unfold key_lt, String.ltb. revert t u. induction s as [|a s IH]; intros [|b t] [|c u]; try done. cbn.
  unfold Ascii.compare. specialize (IH t u).
  destruct (N.compare_spec (Ascii.N_of_ascii a) (Ascii.N_of_ascii b)), (N.compare_spec (Ascii.N_of_ascii b) (Ascii.N_of_ascii c)),
    (N.compare_spec (Ascii.N_of_ascii a) (Ascii.N_of_ascii c)); try done; try lia; auto.
Qed.
Lemma map_find_none {V} key (m : list (string * V)) : Forall (key_lt key) (fst <$> m) -> map_find key m = None.
Proof.
  induction m as [|[k w] m IH]; intros Hk; [done|]. apply Forall_cons in Hk as [Hk Hm]. cbn in *.
  destruct (ltb_not _ _ Hk) as [_ E]. rewrite String.eqb_sym, E. auto.
Qed.

(** A key that is present keeps its value; another one is added. *)
Lemma map_find_insert {V} key key' (v : V) m :
  StronglySorted key_lt (fst <$> m) ->
  map_find key' (map_insert key v m) = if (key' =? key)%string then Some (default v (map_find key m)) else map_find key' m.
Proof.
  induction m as [|[k w] m IH]; intros Hs; cbn; [done|]. apply StronglySorted_inv in Hs as [Hs Hk].
  destruct (key <? k)%string eqn:Elt.
  - cbn. destruct (key' =? key)%string eqn:E; [|done].
    destruct (ltb_not _ _ Elt) as [_ E']. rewrite String.eqb_sym, E'.
    rewrite map_find_none; [done|]. eapply Forall_impl; [exact Hk|]. intros x. by apply key_lt_trans.
  - destruct (key =? k)%string eqn:Eq; cbn.
    + apply String.eqb_eq in Eq as ->. by destruct (key' =? k)%string.
    + rewrite IH by done. destruct (key' =? k)%string eqn:E1, (key' =? key)%string eqn:E2; try done.
      apply String.eqb_eq in E1 as ->, E2 as ->. by rewrite String.eqb_refl in Eq.
Qed.
Lemma ltb_total s t : (s <? t)%string = false -> (s =? t)%string = false -> key_lt t s.
Proof.
  unfold key_lt, String.ltb. rewrite (String.compare_antisym s t). destruct (String.compare t s) eqn:E; try done.
  intros _ H%String.eqb_neq. by apply String.compare_eq_iff in E.
Qed.
Lemma map_insert_keys {V} (P : string -> Prop) key (v : V) m : P key -> Forall P (fst <$> m) -> Forall P (fst <$> map_insert key v m).
Proof.
  intros HP. induction m as [|[k w] m IH]; intros Hm; cbn; [by constructor|].
  destruct (key <? k)%string, (key =? k)%string; cbn in *; apply Forall_cons in Hm as [? ?]; repeat constructor; auto.
Qed.
Lemma map_insert_sorted {V} key (v : V) m : StronglySorted key_lt (fst <$> m) -> StronglySorted key_lt (fst <$> map_insert key v m).
Proof.
  induction m as [|[k w] m IH]; intros Hs; cbn; [by repeat constructor|]. pose proof Hs as Hs'. apply StronglySorted_inv in Hs' as [Hm Hk].
  destruct (key <? k)%string eqn:E1; [|destruct (key =? k)%string eqn:E2]; cbn; [|done|].
  - constructor; [done|]. constructor; [done|]. eapply Forall_impl; [exact Hk|]. intros x. by apply key_lt_trans.
  - constructor; [auto|]. apply map_insert_keys; [by apply ltb_total|done].
Qed.
Lemma map_insert_values {V} (P : V -> Prop) key v (m : list (string * V)) :
  P v -> Forall (fun e => P e.2) m -> Forall (fun e => P e.2) (map_insert key v m).
Proof.
  intros HP. induction m as [|[k w] m IH]; intros Hm; cbn; [by constructor|].
  destruct (key <? k)%string, (key =? k)%string; apply Forall_cons in Hm as [? ?]; repeat constructor; auto.
Qed.

Lemma AddValue_wf v p : wf_container p -> wf_container (BoxContainer_AddValue v p).
Proof. by destruct 1; constructor. Qed.
Lemma TupleContainer_Add_wf x p : wf_container x -> wf_container p -> wf_container (TupleContainer_Add x p).
Proof. intros Hx []; constructor; try done. apply Forall_app. by split; [|constructor]. Qed.
Lemma DictContainer_Add_wf k x p : wf_container x -> wf_container p -> wf_container (DictContainer_Add k x p).
Proof. intros Hx []; constructor; try done; [by apply (map_insert_values wf_container)|by apply map_insert_sorted]. Qed.

(** The messages of a container built from boxes, discrete values, tuples and
    dictionaries of them are always produced, the agent reads from them the
    numbers, the order and the keys the environment put in (each element reduced to
    the 32 bits of its field), and a simulator that reads them back gets the same
    values in containers of the 32-bit types without a shape; adding to a
    dictionary keeps its order and the entry that was there. *)
Theorem container_round_trip p :
  wf_container p ->
  (exists d, GetDataContainerPbMsg p = Some d /\ _create_data d = py_view p /\ CreateFromDataContainerPbMsg d = received p) /\
  (forall k x, wf_container x -> wf_container (DictContainer_Add k x p)) /\
  (forall k x m k', p = OpenGymDictContainer m ->
     DictContainer_Get k' (DictContainer_Add k x p) = if (k' =? k)%string then Some (default x (map_find k m)) else DictContainer_Get k' p).
Proof.
  intros Hwf. split_and!.
  - destruct (container_pb p Hwf) as (d&?&?&?). by exists d.
  - intros. by apply DictContainer_Add_wf.
  - intros k x m k' ->. inversion Hwf as [| | |? _ Hs]; subst. cbn. rewrite map_find_insert by done. by case_ifs.
Qed.
Lemma container_round_trip_witness :
  exists d, GetDataContainerPbMsg (OpenGymDictContainer [("a", OpenGymBoxContainer uint32_t [2] [3; 4]); ("b", OpenGymDiscreteContainer 5 2)]) = Some d.
Proof.
  destruct (container_round_trip (OpenGymDictContainer [("a", OpenGymBoxContainer uint32_t [2] [3; 4]); ("b", OpenGymDiscreteContainer 5 2)])) as [(d&E&_) _].
  - constructor; repeat constructor.
  - exists d. exact E.
Defined.

(** ** Actions *)

(** A number or a sequence of numbers for a discrete or box space, and the
    container the environment is to get for it. *)
Definition leaf_fits (a : pydata) (sp : pyspace) : bool :=
  match sp, a with
  | PyDiscrete _, PyInt n => int32_ok n
  | PyBox _ _ _ np_int, PyArray l => forallb int32_ok l
  | PyBox _ _ _ np_uint, PyArray l => forallb uint32_ok l
  | PyBox _ _ _ np_float, PyArray _ => true
  | _, _ => false
  end.
Definition leaf_action (a : pydata) (sp : pyspace) : Ptr :=
  match sp, a with
  | PyDiscrete _, PyInt n => OpenGymDiscreteContainer 0 (u32 n)
  | PyBox _ _ _ np_int, PyArray l => OpenGymBoxContainer int32_t [] l
  | PyBox _ _ _ np_uint, PyArray l => OpenGymBoxContainer uint32_t [] l
  | PyBox _ _ _ np_float, PyArray l => OpenGymBoxContainer float_t [] l
  | _, _ => Null
  end.

Lemma leaf_packed self a sp :
  leaf_fits a sp = true -> exists d, _pack_data self a sp = Some d /\ CreateFromDataContainerPbMsg d = leaf_action a sp.
Proof.
  destruct sp as [|n|low high sh []|l|m], a as [|x|l'|l'|l']; try done; cbn; intros E; unfold pack_scalar, pack_box; rewrite ?E; by eexists.
Qed.

Lemma tuple_packed l ss :
  Forall2 (fun a sp => leaf_fits a sp = true) l ss ->
  exists d, _pack_data (PyTupleSpace ss) (PyTuple l) (PyTupleSpace ss) = Some d /\
    CreateFromDataContainerPbMsg d = OpenGymTupleContainer (zip_with leaf_action l ss).
Proof.
  intros H. cbn [_pack_data tuple_spaces]. generalize (PyTupleSpace ss) at 1. intros self.
  assert (exists es, (fix go (l : list pydata) (ss : list pyspace) := match l, ss with
              | x :: l', sp :: ss' => let* e := _pack_data self x sp in let* es := go l' ss' in Some (e :: es)
              | _, _ => Some []
              end) l ss = Some es /\ CreateFromDataContainerPbMsg <$> es = zip_with leaf_action l ss) as (es&->&E).
  { induction H as [|a sp l ss Ha _ IH]; [by exists []|]. destruct (leaf_packed self a sp Ha) as (e&->&He), IH as (es&->&Hes).
    exists (e :: es). split; [done|]. cbn. by rewrite He, Hes. }
  eexists. split; [done|]. cbn. by rewrite E.
Qed.

Lemma fold_insert_find (es : list DataContainer) acc k :
  StronglySorted key_lt (fst <$> acc) ->
  map_find k (fold_left (fun m e => map_insert (dc_name e) (CreateFromDataContainerPbMsg e) m) es acc) =
  match map_find k acc with
  | Some v => Some v
  | None => CreateFromDataContainerPbMsg <$> find (fun e => (k =? dc_name e)%string) es
  end.
Proof.
  revert acc. induction es as [|e es IH]; intros acc Hs; cbn [fold_left find]; [by destruct (map_find k acc)|].
  rewrite IH, map_find_insert by auto using map_insert_sorted.
  destruct (k =? dc_name e)%string eqn:E; [|by destruct (map_find k acc)].
  apply String.eqb_eq in E as ->. by destruct (map_find (dc_name e) acc).
Qed.

(** The actions of a dictionary, each with the space of its key. *)
Definition dict_fits (m : list (string * pyspace)) (e : string * pydata) : Prop :=
  exists sp, map_find e.1 m = Some sp /\ leaf_fits e.2 sp = true.

Lemma dict_packed l m :
  Forall (dict_fits m) l ->
  exists d, _pack_data (PyDictSpace m) (PyDict l) (PyDictSpace m) = Some d /\
    forall k a sp, map_find k l = Some a -> map_find k m = Some sp ->
      DictContainer_Get k (CreateFromDataContainerPbMsg d) = Some (leaf_action a sp).
Proof.
  intros H. cbn [_pack_data].
  assert (exists es, (fix go (l : list (string * pydata)) := match l with
            | [] => Some []
            | (k, x) :: m' => let* sp := dict_space (PyDictSpace m) k in let* e := _pack_data (PyDictSpace m) x sp in let* es := go m' in Some (set_name k e :: es)
            end) l = Some es /\
     forall k a sp, map_find k l = Some a -> map_find k m = Some sp ->
       CreateFromDataContainerPbMsg <$> find (fun e => (k =? dc_name e)%string) es = Some (leaf_action a sp)) as (es&->&E).
  { induction H as [|[k x] l (sp&Hsp&Hx) _ IH]; [by exists []|]. cbn [fst snd] in *. unfold dict_space at 1. rewrite Hsp.
    destruct (leaf_packed (PyDictSpace m) x sp Hx) as (e&->&He), IH as (es&->&Hes). exists (set_name k e :: es). split; [done|].
    destruct (set_name_view k e) as (_&E2&E3). intros k' a sp'. cbn [map_find find]. rewrite E3.
    destruct (k' =? k)%string eqn:E; [|by apply Hes]. apply String.eqb_eq in E as ->. intros [= <-] ?. simplify_eq. cbn. by rewrite E2, He. }
  eexists. split; [done|]. intros k a sp Ha Hsp. cbn. rewrite fold_insert_find by constructor. cbn.
  by rewrite (E k a sp Ha Hsp).
Qed.

(** An action of a space whose parts are discrete values and boxes of
    integers or floats is packed without an exception when its integers fit their
    fields, and the environment receives the container of the space's element type
    with the same numbers, in the same order for a tuple and under the same key for
    a dictionary. *)
Theorem flat_action_received :
  (forall self a sp, leaf_fits a sp = true ->
     exists d, _pack_data self a sp = Some d /\ CreateFromDataContainerPbMsg d = leaf_action a sp) /\
  (forall l ss, Forall2 (fun a sp => leaf_fits a sp = true) l ss ->
     exists d, _pack_data (PyTupleSpace ss) (PyTuple l) (PyTupleSpace ss) = Some d /\
       CreateFromDataContainerPbMsg d = OpenGymTupleContainer (zip_with leaf_action l ss)) /\
  (forall l m, Forall (dict_fits m) l ->
     exists d, _pack_data (PyDictSpace m) (PyDict l) (PyDictSpace m) = Some d /\
       forall k a sp, map_find k l = Some a -> map_find k m = Some sp ->
         DictContainer_Get k (CreateFromDataContainerPbMsg d) = Some (leaf_action a sp)).
Proof. split; [exact leaf_packed|]. split; [exact tuple_packed|exact dict_packed]. Qed.

(** A tuple inside a tuple is packed with the spaces of the outer one: an action
    of the nested space raises an exception or is sent with the wrong types. *)
Example nested_tuple_action_fails :
  let sp := PyTupleSpace [PyDiscrete 4; PyTupleSpace [PyBox 0 1 [2] np_uint; PyDiscrete 3]] in
  _pack_data sp (PyTuple [PyInt 1; PyTuple [PyArray [0; 1]; PyInt 2]]) sp = None.
Proof. reflexivity. Qed.
(** The bounds of a box space given by vectors are not sent: the agent sees an
    empty range. *)
Lemma vector_bounds_lost low high sh dt :
  exists d, GetSpaceDescription (BoxSpace_vector low high sh dt) = Some d /\ _create_space d = PyBox 0 0 sh (np_of_dtype (SetDtype dt)).
Proof. by eexists. Qed.
(** The actions of a box space of doubles arrive in a container of floats. *)
Lemma double_action_is_float self low high sh l :
  exists d, GetSpaceDescription (BoxSpace_scalar low high sh (TypeNameGet double_t)) = Some d /\
    exists a, _pack_data self (PyArray l) (_create_space d) = Some a /\ CreateFromDataContainerPbMsg a = OpenGymBoxContainer float_t [] l.
Proof. eexists. split; [done|]. by eexists. Qed.
(** A 64-bit element loses its upper half. *)
Example wide_element_truncated : py_view (OpenGymBoxContainer uint64_t [1] [2 ^ 32 + 7]) = PyArray [7].
Proof. reflexivity. Qed.

End GymContainersProps.
