(* ===== verification/GymEnv.v ===== *)
(** * The gym interface: a simulation and an agent (contrib/ns3-ai)

    [OpenGymInterface] (ns3-ai-gym-interface.cc), the environment that notifies it
    (ns3-ai-gym-env.cc) and the Python environment of the agent
    (ns3_environment.py), as processes that exchange messages. The generated
    protobuf code is a parameter: how a message becomes bytes and back. *)

From stdpp Require Import strings.
From S2P Require Import Prelude GymSync GymContainers.

Module GymEnv.
Import GymSync GymContainers.
Open Scope Z_scope.

(** ** Messages (messages.proto) *)

Record SimInitMsg := mkSimInitMsg { obsSpace : option SpaceDescription; actSpace : option SpaceDescription }.
Record SimInitAck := mkSimInitAck { ack_done : bool; ack_stopSimReq : bool }.
Inductive Reason := SimulationEnd | GameOver.
Record EnvStateMsg := mkEnvStateMsg {
  st_obsData : option DataContainer; st_reward : Z; st_isGameOver : bool; st_reason : Reason; st_info : string
}.
Record EnvActMsg := mkEnvActMsg { actData : option DataContainer; act_stopSimReq : bool }.

(** Serialization of a message, and parsing, which gives the message that the
    parsed object holds afterwards. *)
Class Wire (X : Type) := { ser : X -> list byte; parse : list byte -> X }.
(** What protobuf documents: parsing restores what was serialized. *)
Class WireLaws (X : Type) `{Wire X} : Prop := parse_ser (x : X) : parse (ser x) = x.

(** ** Processes with a result *)

Fixpoint hbind {A B} (h : hprog A) (k : A -> hprog B) : hprog B :=
  match h with
  | HRet a => k a
  | HSend l h' => HSend l (hbind h' k)
  | HRecv f => HRecv (fun l => hbind (f l) k)
  end.

(** The C++ process returns from a call, leaves by [std::exit] or crashes; it
    carries the state [W] along. *)
Inductive outcome (X : Type) := Returned (x : X) | Exited | Crashed.
Arguments Returned {X} x.
Arguments Exited {X}.
Arguments Crashed {X}.
Definition M (W X : Type) : Type := W -> hprog (outcome X * W).
Definition ret {W X} (x : X) : M W X := fun w => HRet (Returned x, w).
Definition exit {W X} : M W X := fun w => HRet (Exited, w).
Definition crash {W X} : M W X := fun w => HRet (Crashed, w).
Definition bind {W X Y} (c : M W X) (k : X -> M W Y) : M W Y :=
  fun w => hbind (c w) (fun r => match r with
    | (Returned x, w') => k x w'
    | (Exited, w') => HRet (Exited, w')
    | (Crashed, w') => HRet (Crashed, w')
    end).
Definition get {W} : M W W := fun w => HRet (Returned w, w).
Definition put {W} (w : W) : M W unit := fun _ => HRet (Returned tt, w).
Definition send {W} (l : list byte) : M W unit := fun w => HSend l (HRet (Returned tt, w)).
Definition recv {W} : M W (list byte) := fun w => HRecv (fun l => HRet (Returned l, w)).
Definition of_option {W X} (o : option X) : M W X := match o with Some x => ret x | None => crash end.
Notation "'let!' x := c 'in' k" := (bind c (fun x => k)) (at level 10, x pattern, c at level 100, k at level 200) : ns3_scope.
Notation "'do!' c 'in' k" := (bind c (fun _ => k)) (at level 10, c at level 100, k at level 200) : ns3_scope.

(** ** OpenGymInterface *)

Section Simulation.
Context {St : Type}.

(** A callback may change the state of the simulation; an action may also crash. *)
Record OpenGymInterface := mkInterface {
  m_simEnd : bool;
  m_stopEnvRequested : bool;
  m_initSimMsgSent : bool;
  m_actionSpaceCb : option (St -> OpenGymSpace * St);
  m_observationSpaceCb : option (St -> OpenGymSpace * St);
  m_gameOverCb : option (St -> bool * St);
  m_obsCb : option (St -> Ptr * St);
  m_rewardCb : option (St -> Z * St);
  m_extraInfoCb : option (St -> string * St);
  m_actionCb : option (Ptr -> St -> option St)
}.
Definition interface_new : OpenGymInterface := mkInterface false false false None None None None None None None.
Record world := mkWorld { w_iface : OpenGymInterface; w_sim : St }.

Definition set_simEnd (i : OpenGymInterface) : OpenGymInterface :=
  mkInterface true (m_stopEnvRequested i) (m_initSimMsgSent i) (m_actionSpaceCb i) (m_observationSpaceCb i) (m_gameOverCb i) (m_obsCb i) (m_rewardCb i) (m_extraInfoCb i) (m_actionCb i).
Definition set_stopEnvRequested (i : OpenGymInterface) : OpenGymInterface :=
  mkInterface (m_simEnd i) true (m_initSimMsgSent i) (m_actionSpaceCb i) (m_observationSpaceCb i) (m_gameOverCb i) (m_obsCb i) (m_rewardCb i) (m_extraInfoCb i) (m_actionCb i).
Definition set_initSimMsgSent (i : OpenGymInterface) : OpenGymInterface :=
  mkInterface (m_simEnd i) (m_stopEnvRequested i) true (m_actionSpaceCb i) (m_observationSpaceCb i) (m_gameOverCb i) (m_obsCb i) (m_rewardCb i) (m_extraInfoCb i) (m_actionCb i).

Definition GetActionSpace (w : world) : OpenGymSpace * world :=
  match m_actionSpaceCb (w_iface w) with Some cb => let '(x, s) := cb (w_sim w) in (x, mkWorld (w_iface w) s) | None => (NullSpace, w) end.
Definition GetObservationSpace (w : world) : OpenGymSpace * world :=
  match m_observationSpaceCb (w_iface w) with Some cb => let '(x, s) := cb (w_sim w) in (x, mkWorld (w_iface w) s) | None => (NullSpace, w) end.
Definition GetObservation (w : world) : Ptr * world :=
  match m_obsCb (w_iface w) with Some cb => let '(x, s) := cb (w_sim w) in (x, mkWorld (w_iface w) s) | None => (Null, w) end.
Definition GetReward (w : world) : Z * world :=
  match m_rewardCb (w_iface w) with Some cb => let '(x, s) := cb (w_sim w) in (x, mkWorld (w_iface w) s) | None => (0, w) end.
Definition IsGameOver (w : world) : bool * world :=
  let '(gameOver, w') := match m_gameOverCb (w_iface w) with Some cb => let '(x, s) := cb (w_sim w) in (x, mkWorld (w_iface w) s) | None => (false, w) end in
  (gameOver || m_simEnd (w_iface w'), w').
Definition GetExtraInfo (w : world) : string * world :=
  match m_extraInfoCb (w_iface w) with Some cb => let '(x, s) := cb (w_sim w) in (x, mkWorld (w_iface w) s) | None => ("", w) end.
Definition ExecuteActions (action : Ptr) (w : world) : option world :=
  match m_actionCb (w_iface w) with Some cb => let* s := cb action (w_sim w) in Some (mkWorld (w_iface w) s) | None => Some w end.

(** The messages built from the callbacks; [None] is a call through a null pointer. *)
Definition describe (s : OpenGymSpace) : option (option SpaceDescription) :=
  match s with NullSpace => Some None | _ => let* d := GetSpaceDescription s in Some (Some d) end.
Definition init_msg (w : world) : option (SimInitMsg * world) :=
  let '(os, w1) := GetObservationSpace w in
  let '(acs, w2) := GetActionSpace w1 in
  let* od := describe os in
  let* ad := describe acs in
  Some (mkSimInitMsg od ad, w2).
Definition state_msg (w : world) : option (EnvStateMsg * world) :=
  let '(obs, w1) := GetObservation w in
  let '(reward, w2) := GetReward w1 in
  let '(isGameOver, w3) := IsGameOver w2 in
  let '(extraInfo, w4) := GetExtraInfo w3 in
  let* d := match obs with Null => Some None | _ => let* d := GetDataContainerPbMsg obs in Some (Some d) end in
  let reason := if isGameOver then if m_simEnd (w_iface w4) then SimulationEnd else GameOver else SimulationEnd in
  Some (mkEnvStateMsg d reward isGameOver reason extraInfo, w4).

Context `{Wire SimInitMsg, Wire SimInitAck, Wire EnvStateMsg, Wire EnvActMsg}.

Definition Init : M world unit :=
  let! w := get in
  if m_initSimMsgSent (w_iface w) then ret tt else
  do! put (mkWorld (set_initSimMsgSent (w_iface w)) (w_sim w)) in
  let! w := get in
  let! (simInitMsg, w') := of_option (init_msg w) in
  do! put w' in
  do! send (ser simInitMsg) in
  let! l := recv in
  let simInitAck : SimInitAck := parse l in
  if ack_stopSimReq simInitAck then
    let! w := get in
    do! put (mkWorld (set_stopEnvRequested (w_iface w)) (w_sim w)) in
    exit
  else ret tt.

Definition NotifyCurrentState : M world unit :=
  let! w := get in
  do! (if m_initSimMsgSent (w_iface w) then ret tt else Init) in
  let! w := get in
  if m_stopEnvRequested (w_iface w) then ret tt else
  let! (envStateMsg, w') := of_option (state_msg w) in
  do! put w' in
  do! send (ser envStateMsg) in
  let! l := recv in
  let envActMsg : EnvActMsg := parse l in
  if m_simEnd (w_iface w') then ret tt else
  if act_stopSimReq envActMsg then
    do! put (mkWorld (set_stopEnvRequested (w_iface w')) (w_sim w')) in
    exit
  else
    let actDataContainer := CreateFromDataContainerPbMsg (default DataContainer_new (actData envActMsg)) in
    let! w'' := of_option (ExecuteActions actDataContainer w') in
    put w''.

Definition WaitForStop : M world unit := NotifyCurrentState.
Definition NotifySimulationEnd : M world unit :=
  let! w := get in
  do! put (mkWorld (set_simEnd (w_iface w)) (w_sim w)) in
  if m_initSimMsgSent (w_iface w) then WaitForStop else ret tt.

(** ** OpenGymEnv *)

(** The virtual functions of an environment. *)
Record OpenGymEnv := mkEnv {
  env_GetActionSpace : St -> OpenGymSpace * St;
  env_GetObservationSpace : St -> OpenGymSpace * St;
  env_GetGameOver : St -> bool * St;
  env_GetObservation : St -> Ptr * St;
  env_GetReward : St -> Z * St;
  env_GetExtraInfo : St -> string * St;
  env_ExecuteActions : Ptr -> St -> option St
}.
Definition SetOpenGymInterface (e : OpenGymEnv) (i : OpenGymInterface) : OpenGymInterface :=
  mkInterface (m_simEnd i) (m_stopEnvRequested i) (m_initSimMsgSent i) (Some (env_GetActionSpace e)) (Some (env_GetObservationSpace e))
    (Some (env_GetGameOver e)) (Some (env_GetObservation e)) (Some (env_GetReward e)) (Some (env_GetExtraInfo e)) (Some (env_ExecuteActions e)).
(** [OpenGymInterface::Notify] sets the callbacks that are called at each step. *)
Definition set_step_callbacks (e : OpenGymEnv) (i : OpenGymInterface) : OpenGymInterface :=
  mkInterface (m_simEnd i) (m_stopEnvRequested i) (m_initSimMsgSent i) (m_actionSpaceCb i) (m_observationSpaceCb i)
    (Some (env_GetGameOver e)) (Some (env_GetObservation e)) (Some (env_GetReward e)) (Some (env_GetExtraInfo e)) (Some (env_ExecuteActions e)).
Definition Notify (e : OpenGymEnv) : M world unit :=
  let! w := get in
  do! put (mkWorld (set_step_callbacks e (w_iface w)) (w_sim w)) in
  NotifyCurrentState.

(** A simulation that notifies after each of its steps, and at its end. *)
Fixpoint sim_steps (e : OpenGymEnv) (steps : list (St -> St)) : M world unit :=
  match steps with
  | [] => NotifySimulationEnd
  | f :: steps' =>
      let! w := get in
      do! put (mkWorld (w_iface w) (f (w_sim w))) in
      do! Notify e in
      sim_steps e steps'
  end.
Definition sim_main (e : OpenGymEnv) (steps : list (St -> St)) (s : St) : hprog (outcome unit * world) :=
  sim_steps e steps (mkWorld (SetOpenGymInterface e interface_new) s).

End Simulation.
Arguments OpenGymInterface St : clear implicits.
Arguments world St : clear implicits.
Arguments OpenGymEnv St : clear implicits.

(** ** Ns3Env (ns3_environment.py) *)

Record Ns3Env := mkNs3Env {
  newStateRx : bool;
  obsData : pydata;
  reward : Z;
  gameOver : bool;
  gameOverReason : option Reason;
  extraInfo : option string;
  action_space : pyspace;
  observation_space : pyspace;
  envDirty : bool
}.
Definition Ns3Env_new : Ns3Env := mkNs3Env false PyNone 0 false None None PyNoSpace PyNoSpace false.
Definition SpaceDescription_new : SpaceDescription := mkSpaceDescription NoSpaceType AnySpaceNone "".

Section Agent.
Context `{Wire SimInitMsg, Wire SimInitAck, Wire EnvStateMsg, Wire EnvActMsg}.

Definition set_newStateRx (b : bool) (p : Ns3Env) : Ns3Env :=
  mkNs3Env b (obsData p) (reward p) (gameOver p) (gameOverReason p) (extraInfo p) (action_space p) (observation_space p) (envDirty p).
Definition set_envDirty (b : bool) (p : Ns3Env) : Ns3Env :=
  mkNs3Env (newStateRx p) (obsData p) (reward p) (gameOver p) (gameOverReason p) (extraInfo p) (action_space p) (observation_space p) b.
Definition set_spaces (m : SimInitMsg) (p : Ns3Env) : Ns3Env :=
  mkNs3Env (newStateRx p) (obsData p) (reward p) (gameOver p) (gameOverReason p) (extraInfo p)
    (_create_space (default SpaceDescription_new (actSpace m))) (_create_space (default SpaceDescription_new (obsSpace m))) (envDirty p).
Definition set_state (m : EnvStateMsg) (p : Ns3Env) : Ns3Env :=
  mkNs3Env (newStateRx p) (_create_data (default DataContainer_new (st_obsData m))) (st_reward m) (st_isGameOver m) (Some (st_reason m))
    (extraInfo p) (action_space p) (observation_space p) (envDirty p).
Definition set_extraInfo (m : EnvStateMsg) (p : Ns3Env) : Ns3Env :=
  mkNs3Env (newStateRx p) (obsData p) (reward p) (gameOver p) (gameOverReason p)
    (if (st_info m =? "")%string then None else Some (st_info m)) (action_space p) (observation_space p) (envDirty p).

Definition initialize_env : M Ns3Env unit :=
  let! request := recv in
  let! p := get in
  do! put (set_spaces (parse request) p) in
  send (ser (mkSimInitAck true false)).
Definition send_close_command : M Ns3Env unit :=
  do! send (ser (mkEnvActMsg None true)) in
  let! p := get in
  put (set_newStateRx false p).
Definition rx_env_state : M Ns3Env unit :=
  let! p := get in
  if newStateRx p then ret tt else
  let! request := recv in
  let envStateMsg : EnvStateMsg := parse request in
  do! put (set_state envStateMsg p) in
  do! (if st_isGameOver envStateMsg then send_close_command else ret tt) in
  let! p := get in
  put (set_newStateRx true (set_extraInfo envStateMsg p)).
Definition send_actions (actions : pydata) : M Ns3Env unit :=
  let! p := get in
  let! actionMsg := of_option (_pack_data (action_space p) actions (action_space p)) in
  do! send (ser (mkEnvActMsg (Some actionMsg) false)) in
  let! p := get in
  put (set_newStateRx false p).
Definition __init__ : M Ns3Env unit :=
  do! initialize_env in
  do! rx_env_state in
  let! p := get in
  put (set_envDirty false p).
Definition step (actions : pydata) : M Ns3Env unit :=
  do! send_actions actions in
  do! rx_env_state in
  let! p := get in
  put (set_envDirty true p).

(** An agent that acts on what it sees until the episode is over; [fuel] bounds the
    steps it takes. *)
Context {G : Type} (get_action : G -> pydata -> Z -> bool -> option string -> pydata * G).
Fixpoint agent_loop (fuel : nat) (g : G) (rew : Z) (done : bool) : M Ns3Env (option G) :=
  match fuel with
  | O => ret None
  | S fuel =>
      let! p := get in
      let '(action, g') := get_action g (obsData p) rew done (extraInfo p) in
      do! step action in
      let! p := get in
      if gameOver p then ret (Some g') else agent_loop fuel g' (reward p) (gameOver p)
  end.
Definition agent_main (fuel : nat) (g : G) : hprog (outcome (option G) * Ns3Env) :=
  (do! __init__ in agent_loop fuel g 0 false) Ns3Env_new.

End Agent.
End GymEnv.
