(* ===== verification/GymEnvProps.v ===== *)
(** * An episode of a simulation and an agent

    What the two processes of the gym interface compute together is the episode
    in which the environment and the agent call each other directly; every fair
    schedule of their shared memory accesses ends with its result. *)

From stdpp Require Import strings.
From stdpp Require Import strings countable.
From S2P Require Import Prelude GymSync GymProofs GymSystem GymContainers GymEnv.

Module GymEnvProps.
Import GymSync GymProofs GymSystem GymContainers GymEnv.
Open Scope Z_scope.

Section Episode.
Context {St G : Type} `{WireLaws SimInitMsg, WireLaws SimInitAck, WireLaws EnvStateMsg, WireLaws EnvActMsg}.
Variable e : OpenGymEnv St.
Variable get_action : G -> pydata -> Z -> bool -> option string -> pydata * G.

(** ** The reference *)

Definition fits_buffer (l : list byte) : bool := Z.of_nat (length l) <=? MSG_BUFFER_SIZE.
Definition stop_msg : EnvActMsg := mkEnvActMsg None true.

(** The environment is observed; the agent notes what it sees. *)
Definition see (m : EnvStateMsg) (dirty : bool) (p : Ns3Env) : Ns3Env := set_envDirty dirty (set_newStateRx true (set_extraInfo m (set_state m p))).
Definition observe (w : world St) : option (EnvStateMsg * world St) :=
  let* (m, w') := state_msg w in
  if fits_buffer (ser m) then Some (m, w') else None.
(** The agent chooses, and the environment executes. *)
Definition act (w : world St) (p : Ns3Env) (g : G) (rew : Z) : option (world St * Ns3Env * G) :=
  let '(a, g') := get_action g (obsData p) rew false (extraInfo p) in
  let* d := _pack_data (action_space p) a (action_space p) in
  if fits_buffer (ser (mkEnvActMsg (Some d) false)) then
    let* w' := ExecuteActions (CreateFromDataContainerPbMsg d) w in
    Some (w', set_newStateRx false p, g')
  else None.

Definition result : Type := outcome unit * world St * Ns3Env * G.
Definition at_step (f : St -> St) (w : world St) : world St := mkWorld (set_step_callbacks e (w_iface w)) (f (w_sim w)).
Definition at_end (w : world St) : world St := mkWorld (set_simEnd (w_iface w)) (w_sim w).
Definition stopped (w : world St) : world St := mkWorld (set_stopEnvRequested (w_iface w)) (w_sim w).

Fixpoint episode (steps : list (St -> St)) (w : world St) (p : Ns3Env) (g : G) : option result :=
  match steps with
  | [] =>
      let* (m, w1) := observe (at_end w) in
      Some (Returned tt, w1, see m true p, g)
  | f :: steps' =>
      let* (m, w1) := observe (at_step f w) in
      let p1 := see m true p in
      if st_isGameOver m then Some (Exited, stopped w1, p1, g) else
      let* (w2, p2, g2) := act w1 p1 g (reward p1) in
      episode steps' w2 p2 g2
  end.
(** The first observation is made when the agent's environment is created; the
    reward and the end of the episode that come with it are not passed on. *)
Definition first_episode (steps : list (St -> St)) (s : St) (g : G) : option result :=
  match steps with
  | [] => None
  | f :: steps' =>
      let w := at_step f (mkWorld (SetOpenGymInterface e interface_new) s) in
      let* (im, w1) := init_msg (mkWorld (set_initSimMsgSent (w_iface w)) (w_sim w)) in
      if fits_buffer (ser im) && fits_buffer (ser (mkSimInitAck true false)) && fits_buffer (ser stop_msg) then
        let* (m, w2) := observe w1 in
        if st_isGameOver m then None else
        let p1 := see m false (set_spaces im Ns3Env_new) in
        let* (w3, p2, g2) := act w2 p1 g 0 in
        episode steps' w3 p2 g2
      else None
  end.

(** ** Steps of the two processes *)

Lemma abs_run_app {A B} n n' (x y z : abs A B) : abs_run n x y -> abs_run n' y z -> abs_run (n + n') x z.
Proof. induction 1; intros; cbn; [done|]. econstructor; eauto. Qed.

(** The simulation sends and the agent answers. *)
Lemma exchange_run {A B} n l l' (kc : list byte -> hprog A) (kp : list byte -> hprog B) kp' z :
  fits_buffer l = true -> fits_buffer l' = true -> kp l = HSend l' kp' ->
  abs_run n (mkAbs (kc l') kp' None None) z ->
  abs_run (4 + n) (mkAbs (HSend l (HRecv kc)) (HRecv kp) None None) z.
Proof.
  unfold fits_buffer. intros Hl Hl' Hp Hrun.
  eapply abs_run_cons; [left; unfold abs_cpp; cbn; by rewrite Hl|].
  eapply abs_run_cons; [right; unfold abs_py; cbn; by rewrite Hp|].
  eapply abs_run_cons; [right; unfold abs_py; cbn; by rewrite Hl'|].
  by eapply abs_run_cons; [left|].
Qed.

(** The flags of the interface while an episode runs. *)
Definition running (w : world St) : Prop :=
  m_initSimMsgSent (w_iface w) = true /\ m_stopEnvRequested (w_iface w) = false /\ m_simEnd (w_iface w) = false.

Lemma GetObservation_iface (w : world St) : w_iface (GetObservation w).2 = w_iface w.
Proof. unfold GetObservation. by destruct (m_obsCb _) as [cb|]; [destruct (cb _)|]. Qed.
Lemma GetReward_iface (w : world St) : w_iface (GetReward w).2 = w_iface w.
Proof. unfold GetReward. by destruct (m_rewardCb _) as [cb|]; [destruct (cb _)|]. Qed.
Lemma GetExtraInfo_iface (w : world St) : w_iface (GetExtraInfo w).2 = w_iface w.
Proof. unfold GetExtraInfo. by destruct (m_extraInfoCb _) as [cb|]; [destruct (cb _)|]. Qed.
Lemma IsGameOver_iface (w : world St) : w_iface (IsGameOver w).2 = w_iface w /\ (m_simEnd (w_iface w) = true -> (IsGameOver w).1 = true).
Proof.
  unfold IsGameOver. destruct (m_gameOverCb _) as [cb|]; [destruct (cb _) as [b s]|]; cbn; (split; [done|]); intros ->; [|done].
  by rewrite orb_true_r.
Qed.
Lemma state_msg_iface (w : world St) m w' : state_msg w = Some (m, w') -> w_iface w' = w_iface w /\ (m_simEnd (w_iface w) = true -> st_isGameOver m = true).
Proof.
  unfold state_msg. pose proof (GetObservation_iface w) as E1. destruct (GetObservation w) as [obs w1].
  pose proof (GetReward_iface w1) as E2. destruct (GetReward w1) as [r w2].
  pose proof (IsGameOver_iface w2) as [E3 E4]. destruct (IsGameOver w2) as [b w3].
  pose proof (GetExtraInfo_iface w3) as E5. destruct (GetExtraInfo w3) as [i w4]. cbn [fst snd] in *.
  intros E. inv_opt. cbn. split; [congruence|]. intros Hs. apply E4. congruence.
Qed.

(** The simulation at a step: it sends the state, and acts on the answer. *)
Lemma sim_step_sends f steps w m w' :
  running w -> state_msg (at_step f w) = Some (m, w') ->
  exists kc, sim_steps e (f :: steps) w = HSend (ser m) (HRecv kc) /\ running w' /\
    (forall l, act_stopSimReq (parse l) = true -> kc l = HRet (Exited, stopped w')) /\
    (forall l w'', act_stopSimReq (parse l) = false ->
       ExecuteActions (CreateFromDataContainerPbMsg (default DataContainer_new (actData (parse l)))) w' = Some w'' -> kc l = sim_steps e steps w'').
Proof.
  intros (Hi&Hs&He) Hm. pose proof (state_msg_iface _ _ _ Hm) as [Ef _]. cbn [w_iface at_step] in Ef.
  assert (running w') as Hr by (unfold running; by rewrite Ef).
  unfold at_step in Hm. cbn [sim_steps]. unfold bind, get, put, Notify, NotifyCurrentState. cbn [hbind w_iface w_sim].
  cbn. rewrite Hi. cbn. rewrite Hs, Hm. cbn. eexists. split; [reflexivity|]. split; [done|].
  destruct Hr as (Hi'&Hs'&He'). rewrite He'. split.
  - intros l ->. reflexivity.
  - intros l w'' -> E. rewrite E. reflexivity.
Qed.

Lemma ExecuteActions_iface a (w w' : world St) : ExecuteActions a w = Some w' -> w_iface w' = w_iface w.
Proof. unfold ExecuteActions. destruct (m_actionCb _); intros; by inv_opt. Qed.

(** The simulation at its end: it sends the state and waits for any answer. *)
Lemma sim_end_sends w m w' :
  running w -> state_msg (at_end w) = Some (m, w') ->
  exists kc, sim_steps e [] w = HSend (ser m) (HRecv kc) /\ st_isGameOver m = true /\ (forall l, kc l = HRet (Returned tt, w')).
Proof.
  intros (Hi&Hs&He) Hm. pose proof (state_msg_iface _ _ _ Hm) as [Ef Hover]. specialize (Hover eq_refl).
  unfold at_end in *. cbn [sim_steps]. unfold NotifySimulationEnd, WaitForStop, NotifyCurrentState, bind, get, put.
  cbn. rewrite Hi. cbn. rewrite Hi. cbn. rewrite Hs, Hm. cbn. eexists. split; [reflexivity|]. split; [done|].
  intros l. by rewrite Ef.
Qed.

(** The agent that has acted and waits for the next state. *)
Definition awaiting (fuel : nat) (p : Ns3Env) (g : G) (P : hprog (outcome (option G) * Ns3Env)) : Prop :=
  exists kp, P = HRecv kp /\ forall m, kp (ser m) =
    if st_isGameOver m then HSend (ser stop_msg) (HRet (Returned (Some g), see m true p))
    else agent_loop get_action fuel g (st_reward m) false (see m true p).

Lemma agent_acts fuel w p g rew w' p' g' :
  act w p g rew = Some (w', p', g') ->
  exists d P, agent_loop get_action (S fuel) g rew false p = HSend (ser (mkEnvActMsg (Some d) false)) P /\ awaiting fuel p' g' P /\
    fits_buffer (ser (mkEnvActMsg (Some d) false)) = true /\ ExecuteActions (CreateFromDataContainerPbMsg d) w = Some w'.
Proof.
  unfold act. cbn [agent_loop]. unfold bind at 1, get at 1. cbn [hbind].
  destruct (get_action g (obsData p) rew false (extraInfo p)) as [a g1]. intros E.
  destruct (_pack_data _ _ _) as [d|] eqn:Ed; [|done]. destruct (fits_buffer _) eqn:Ef; [|done]. inv_opt.
  exists d. unfold step, send_actions, rx_env_state, bind, get, put, send, recv, of_option. cbn. rewrite Ed. cbn.
  eexists. split; [reflexivity|]. split; [|done]. eexists. split; [reflexivity|].
  intros m. cbn. rewrite parse_ser. destruct (st_isGameOver m) eqn:Eo; cbn; by rewrite Eo.
Qed.

(** ** The two processes together *)

Lemma episode_run fuel steps w p g oc w' p' g' P :
  episode steps w p g = Some (oc, w', p', g') -> running w -> fits_buffer (ser stop_msg) = true -> awaiting fuel p g P ->
  (length steps <= fuel)%nat ->
  exists n, (n <= 4 * S (length steps))%nat /\ abs_run n (mkAbs (sim_steps e steps w) P None None) (mkAbs (HRet (oc, w')) (HRet (Returned (Some g'), p')) None None).
Proof.
  revert fuel w p g P. induction steps as [|f steps IH]; intros fuel w p g P E Hr Hstop (kp&->&Hkp) Hfuel; cbn [episode] in E; unfold observe in E.
  - destruct (state_msg (at_end w)) as [[m w1]|] eqn:Em; [|done]. destruct (fits_buffer (ser m)) eqn:Ef; [|done]. simplify_eq.
    destruct (sim_end_sends w m w' Hr Em) as (kc&->&Ho&Hkc). exists 4%nat. split; [cbn; lia|]. eapply (exchange_run 0); [done|done|by rewrite Hkp, Ho|].
    rewrite Hkc. constructor.
  - destruct (state_msg (at_step f w)) as [[m w1]|] eqn:Em; [|done]. destruct (fits_buffer (ser m)) eqn:Ef; [|done].
    destruct (sim_step_sends f steps w m w1 Hr Em) as (kc&->&Hr1&Hk1&Hk2). destruct (st_isGameOver m) eqn:Eo.
    + simplify_eq. exists 4%nat. split; [lia|]. eapply (exchange_run 0); [done|done|by rewrite Hkp, Eo|]. rewrite Hk1 by (by rewrite parse_ser). constructor.
    + destruct (act w1 _ g _) as [[[w2 p2] g2]|] eqn:Ea; [|done]. destruct fuel as [|fuel]; [cbn in Hfuel; lia|].
      destruct (agent_acts fuel _ _ _ _ _ _ _ Ea) as (d&P&HP&Haw&Hd&Hx).
      edestruct (IH fuel w2 p2 g2 P) as (n&Hn&Hrun); [done| |done|done|cbn in Hfuel; lia|].
      { destruct Hr1 as (?&?&?). unfold running. by rewrite (ExecuteActions_iface _ _ _ Hx). }
      exists (4 + n)%nat. split; [cbn [length]; lia|]. eapply (exchange_run n); [done|exact Hd|rewrite Hkp, Eo; exact HP|].
      by rewrite (Hk2 _ w2) by (rewrite parse_ser; done).
Qed.

Lemma init_msg_iface (w : world St) im w1 : init_msg w = Some (im, w1) -> w_iface w1 = w_iface w.
Proof.
  unfold init_msg, GetObservationSpace, GetActionSpace. intros E.
  destruct (m_observationSpaceCb (w_iface w)) as [cb|]; [destruct (cb (w_sim w)) as [os s1]|]; cbn in E;
    (destruct (m_actionSpaceCb (w_iface w)) as [cb'|]; [destruct (cb' _) as [acs s2]|]); cbn in E; by inv_opt.
Qed.

(** The start of the simulation: the description of the spaces, then the first state. *)
Lemma sim_starts f steps s im w1 m w' :
  let w := at_step f (mkWorld (SetOpenGymInterface e interface_new) s) in
  init_msg (mkWorld (set_initSimMsgSent (w_iface w)) (w_sim w)) = Some (im, w1) -> state_msg w1 = Some (m, w') ->
  exists kc0, sim_main e (f :: steps) s = HSend (ser im) (HRecv kc0) /\
    forall l0, ack_stopSimReq (parse l0) = false -> exists kc, kc0 l0 = HSend (ser m) (HRecv kc) /\ running w' /\
      (forall l, act_stopSimReq (parse l) = true -> kc l = HRet (Exited, stopped w')) /\
      forall l w'', act_stopSimReq (parse l) = false ->
        ExecuteActions (CreateFromDataContainerPbMsg (default DataContainer_new (actData (parse l)))) w' = Some w'' -> kc l = sim_steps e steps w''.
Proof.
  intros w Him Hm. pose proof (state_msg_iface _ _ _ Hm) as [Ef _]. rewrite (init_msg_iface _ _ _ Him) in Ef. cbn in Ef.
  assert (running w') as Hr by (unfold running; by rewrite Ef).
  unfold sim_main. cbn [sim_steps]. unfold Notify, NotifyCurrentState, Init, bind, get, put. cbn.
  unfold w, at_step in Him. cbn in Him. rewrite Him. cbn. eexists. split; [reflexivity|]. intros l0 E0.
  cbn. rewrite E0. cbn. rewrite (init_msg_iface _ _ _ Him). cbn. rewrite Hm. cbn. eexists. split; [reflexivity|]. split; [done|].
  destruct Hr as (_&_&->). split; [by intros l ->|]. intros l w'' -> E. by rewrite E.
Qed.

Lemma agent_starts fuel g :
  exists kp0, agent_main get_action fuel g = HRecv kp0 /\
    forall im, exists kp, kp0 (ser im) = HSend (ser (mkSimInitAck true false)) (HRecv kp) /\
      forall m, let acts := agent_loop get_action fuel g 0 false (see m false (set_spaces im Ns3Env_new)) in
        kp (ser m) = if st_isGameOver m then HSend (ser stop_msg) acts else acts.
Proof.
  unfold agent_main, __init__, initialize_env, rx_env_state, bind, get, put, send, recv. cbn.
  eexists. split; [reflexivity|]. intros im. cbn. rewrite parse_ser. eexists. split; [reflexivity|].
  intros m. cbn. rewrite parse_ser. by destruct (st_isGameOver m).
Qed.

Lemma first_episode_run fuel steps s g oc w' p' g' :
  first_episode steps s g = Some (oc, w', p', g') -> (length steps <= fuel)%nat ->
  exists n, (n <= 4 * S (S (length steps)))%nat /\
    abs_run n (mkAbs (sim_main e steps s) (agent_main get_action fuel g) None None) (mkAbs (HRet (oc, w')) (HRet (Returned (Some g'), p')) None None).
Proof.
  destruct steps as [|f steps]; [done|]. cbn [first_episode]. unfold observe. intros E Hfuel.
  destruct (init_msg _) as [[im w1]|] eqn:Eim; [|done]. destruct (_ && _ && _) eqn:Ef; [|done].
  apply andb_true_iff in Ef as [[Ef1 Ef2]%andb_true_iff Ef3].
  destruct (state_msg w1) as [[m w2]|] eqn:Em; [|done]. destruct (fits_buffer (ser m)) eqn:Ef; [|done].
  destruct (st_isGameOver m) eqn:Eo; [done|]. destruct (act w2 _ g _) as [[[w3 p2] g2]|] eqn:Ea; [|done].
  destruct (sim_starts f steps s im w1 m w2 Eim Em) as (kc0&->&Hk0), (agent_starts fuel g) as (kp0&->&Hp0).
  destruct (Hk0 (ser (mkSimInitAck true false))) as (kc&Ekc&Hr&_&Hkc); [by rewrite parse_ser|].
  destruct (Hp0 im) as (kp&Ekp&Hkp). destruct fuel as [|fuel]; [cbn in Hfuel; lia|].
  destruct (agent_acts fuel _ _ _ _ _ _ _ Ea) as (d&P&HP&Haw&Hd&Hx).
  destruct (episode_run fuel steps w3 p2 g2 oc w' p' g' P) as (n&Hn&Hrun); [done| |done|done|cbn in Hfuel; lia|].
  { destruct Hr as (?&?&?). unfold running. by rewrite (ExecuteActions_iface _ _ _ Hx). }
  exists (4 + (4 + n))%nat. split; [cbn [length]; lia|].
  eapply exchange_run; [done|exact Ef2|exact Ekp|]. rewrite Ekc.
  eapply exchange_run; [done|exact Hd|rewrite Hkp, Eo; exact HP|]. by rewrite (Hkc _ w3) by (rewrite parse_ser; done).
Qed.

End Episode.

(** C7: when the environment and the agent, calling each other's functions without a
    message in between, come to the end of an episode, the simulator process and the Python
    process come to the same end under every schedule of their shared memory accesses that
    serves both of them often enough: the same state of the simulation, of the agent and of
    its environment. The direct episode [first_episode] still converts actions with
    [_pack_data] and [CreateFromDataContainerPbMsg], as the processes do; what it leaves out
    is the messages, the protocol and the memory. It comes to an end unless a message does
    not fit the buffer, an action cannot be packed or executed, there is no step, or the
    first observation is already the last: in the last two cases the processes hang
    ([silent_simulation_blocks_agent], [first_is_last_blocks_agent]). *)
Theorem gym_episode {St G} `{WireLaws SimInitMsg, WireLaws SimInitAck, WireLaws EnvStateMsg, WireLaws EnvActMsg}
    (e : OpenGymEnv St) (get_action : G -> pydata -> Z -> bool -> option string -> pydata * G)
    fuel steps s g oc w' p' g' garbage k schedule :
  first_episode e get_action steps s g = Some (oc, w', p', g') -> (length steps <= fuel)%nat ->
  Z.of_nat (length garbage) = MSG_BUFFER_SIZE -> fair k schedule -> ((4 * length steps + 10) * op_bound < k)%nat ->
  let x := sys_run schedule (start (sim_main e steps s) (agent_main get_action fuel g) garbage) in
  s_cpp x = PRet (oc, w') /\ s_py x = PRet (Returned (Some g'), p').
Proof.
  intros E Hfuel Hg Hfair Hk. destruct (first_episode_run e get_action fuel steps s g oc w' p' g' E Hfuel) as (n&Hn&Hrun).
  apply (fair_ok _ _ garbage Hg n _ _ None None k schedule Hrun Hfair).
  apply Nat.le_lt_trans with ((4 * length steps + 10) * op_bound)%nat; [|done].
  rewrite <- Nat.mul_add_distr_r. apply Nat.mul_le_mono_r. lia.
Qed.

(** ** Where the exchange does not end *)

(** A simulation that ends before its first notification leaves the agent waiting
    for the description of the spaces. *)
Lemma silent_simulation_blocks_agent {St G} `{Wire SimInitMsg, Wire SimInitAck, Wire EnvStateMsg, Wire EnvActMsg}
    (e : OpenGymEnv St) (get_action : G -> pydata -> Z -> bool -> option string -> pydata * G) fuel s g :
  stuck (mkAbs (sim_main e [] s) (agent_main get_action fuel g) None None) /\
  exists r, sim_main e [] s = HRet r /\ forall r', agent_main get_action fuel g <> HRet r'.
Proof. split; [done|]. eexists. split; [reflexivity|done]. Qed.

(** An episode whose first observation is its last: the agent answers it with the
    stop request, does not learn that it is over, and waits for another state. *)
Lemma first_is_last_blocks_agent {St G} `{WireLaws SimInitMsg, WireLaws SimInitAck, WireLaws EnvStateMsg, WireLaws EnvActMsg}
    (e : OpenGymEnv St) (get_action : G -> pydata -> Z -> bool -> option string -> pydata * G)
    fuel f steps s g im w1 m w2 w3 p2 g2 :
  let w := at_step e f (mkWorld (SetOpenGymInterface e interface_new) s) in
  init_msg (mkWorld (set_initSimMsgSent (w_iface w)) (w_sim w)) = Some (im, w1) -> observe w1 = Some (m, w2) -> st_isGameOver m = true ->
  fits_buffer (ser im) && fits_buffer (ser (mkSimInitAck true false)) && fits_buffer (ser stop_msg) = true ->
  act get_action w2 (see m false (set_spaces im Ns3Env_new)) g 0 = Some (w3, p2, g2) ->
  exists n y, abs_run n (mkAbs (sim_main e (f :: steps) s) (agent_main get_action (S fuel) g) None None) y /\ stuck y /\
    a_cpp y = HRet (Exited, stopped w2) /\ forall r, a_py y <> HRet r.
Proof.
  intros w Eim Em Eo Ef Ea. unfold observe in Em. apply andb_true_iff in Ef as [[Ef1 Ef2]%andb_true_iff Ef3].
  destruct (state_msg w1) as [[m' w']|] eqn:Es; [|done]. destruct (fits_buffer (ser m')) eqn:Ef; simplify_eq.
  destruct (sim_starts e f steps s im w1 m w2 Eim Es) as (kc0&->&Hk0), (agent_starts get_action (S fuel) g) as (kp0&->&Hp0).
  destruct (Hk0 (ser (mkSimInitAck true false))) as (kc&Ekc&Hr&Hkc&_); [by rewrite parse_ser|].
  destruct (Hp0 im) as (kp&Ekp&Hkp). destruct (agent_acts get_action fuel _ _ _ _ _ _ _ Ea) as (d&P&HP&(kp'&->&_)&Hd&Hx).
  eexists _, (mkAbs (HRet (Exited, stopped w2)) (HRecv kp') None (Some _)). split; [|done].
  eapply exchange_run; [done|exact Ef2|exact Ekp|]. rewrite Ekc.
  eapply exchange_run; [done|exact Ef3|by rewrite Hkp, Eo|]. rewrite Hkc by (by rewrite parse_ser). rewrite HP.
  eapply abs_run_cons; [|constructor]. right. unfold abs_py. cbn. unfold fits_buffer in Hd. by rewrite Hd.
Qed.

End GymEnvProps.

(** * The a-plus-b example on the gym interface

    The environment of contrib/ns3-ai/examples/a-plus-b/use-gym, which sends two
    numbers and expects their sum, with its agent; and a concrete encoding of the
    messages, on which the theorems of the exchange are evaluated. *)

Module GymDemo.
Import GymSync GymProofs GymSystem GymContainers GymEnv GymEnvProps.
Open Scope Z_scope.

(** ** ApbEnv (apb.cc) *)

(** The fields of the environment and the sums it has printed. *)
Record ApbEnv := mkApb { m_a : Z; m_b : Z; m_sum : Z; printed : list Z }.
Definition apb_env : OpenGymEnv ApbEnv := mkEnv
  (fun s => (BoxSpace_scalar 0 20 [1] (TypeNameGet uint32_t), s))
  (fun s => (BoxSpace_scalar 0 10 [2] (TypeNameGet uint32_t), s))
  (fun s => (false, s))
  (fun s => (BoxContainer_AddValue (m_b s) (BoxContainer_AddValue (m_a s) (OpenGymBoxContainer uint32_t [2] [])), s))
  (fun s => (0, s))
  (fun s => ("", s))
  (fun action s =>
    match action with
    | OpenGymBoxContainer uint32_t _ d => Some (mkApb (m_a s) (m_b s) (nth 0 d 0) (printed s))
    | _ => None
    end).
(** The loop of [main]: the sum obtained for the numbers before is printed, and new
    numbers are set. *)
Definition apb_step (ab : Z * Z) (s : ApbEnv) : ApbEnv := mkApb ab.1 ab.2 (m_sum s) (printed s ++ [m_sum s]).
(** [ApbAgent.get_action] (apb.py). *)
Definition apb_agent (g : unit) (obs : pydata) (reward : Z) (done : bool) (info : option string) : pydata * unit :=
  (match obs with PyArray (a :: b :: _) => PyArray [a + b] | _ => PyNone end, g).

(** ** An encoding of messages *)

Definition leaf : Type := Z + (string + list Z).
Fixpoint enc_space (d : SpaceDescription) : gen_tree leaf :=
  let '(mkSpaceDescription t a n) := d in
  GenNode (match t with NoSpaceType => 0 | Discrete => 1 | Box => 2 | Tuple => 3 | Dict => 4 end)
    [GenLeaf (inr (inl n)); match a with
      | AnySpaceNone => GenNode 0 []
      | AnyDiscreteSpace x => GenNode 1 [GenLeaf (inl x)]
      | AnyBoxSpace b => GenNode 2 [GenLeaf (inl (bs_low b)); GenLeaf (inl (bs_high b));
          GenLeaf (inl (match bs_dtype b with NoDType => 0 | INT => 1 | UINT => 2 | FLOAT => 3 | DOUBLE => 4 end)); GenLeaf (inr (inr (bs_shape b)))]
      | AnyTupleSpace l => GenNode 3 (enc_space <$> l)
      | AnyDictSpace l => GenNode 4 (enc_space <$> l)
      end].
Definition dec_type (n : nat) : SpaceType := match n with 0%nat => NoSpaceType | 1%nat => Discrete | 2%nat => Box | 3%nat => Tuple | _ => Dict end.
Definition dec_dtype (x : Z) : Dtype := match x with 0 => NoDType | 1 => INT | 2 => UINT | 3 => FLOAT | _ => DOUBLE end.
Definition dec_z (t : gen_tree leaf) : Z := match t with GenLeaf (inl x) => x | _ => 0 end.
Definition dec_s (t : gen_tree leaf) : string := match t with GenLeaf (inr (inl x)) => x | _ => "" end.
Definition dec_l (t : gen_tree leaf) : list Z := match t with GenLeaf (inr (inr x)) => x | _ => [] end.
Fixpoint dec_space (t : gen_tree leaf) : SpaceDescription :=
  match t with
  | GenNode n [x; GenNode k l] => mkSpaceDescription (dec_type n)
      (match k, l with
       | 1%nat, [y] => AnyDiscreteSpace (dec_z y)
       | 2%nat, [a; b; c; d] => AnyBoxSpace (mkBoxSpacePb (dec_z a) (dec_z b) (dec_dtype (dec_z c)) (dec_l d))
       | 3%nat, _ => AnyTupleSpace (dec_space <$> l)
       | 4%nat, _ => AnyDictSpace (dec_space <$> l)
       | _, _ => AnySpaceNone
       end) (dec_s x)
  | _ => mkSpaceDescription NoSpaceType AnySpaceNone ""
  end.
Lemma dec_enc_space : forall d, dec_space (enc_space d) = d.
Proof.
  fix IH 1. intros [t a n]. destruct a as [|x|[lo hi dt sh]|l|l]; cbn; f_equal; try (by destruct t).
  - by destruct dt.
  - f_equal. induction l as [|d l IHl]; cbn; [done|]. by rewrite IH, IHl.
  - f_equal. induction l as [|d l IHl]; cbn; [done|]. by rewrite IH, IHl.
Qed.

Fixpoint enc_data (d : DataContainer) : gen_tree leaf :=
  let '(mkDataContainer t a n) := d in
  GenNode (match t with NoSpaceType => 0 | Discrete => 1 | Box => 2 | Tuple => 3 | Dict => 4 end)
    [GenLeaf (inr (inl n)); match a with
      | AnyDataNone => GenNode 0 []
      | AnyDiscreteData x => GenNode 1 [GenLeaf (inl x)]
      | AnyBoxData b => GenNode 2 [GenLeaf (inl (match bp_dtype b with NoDType => 0 | INT => 1 | UINT => 2 | FLOAT => 3 | DOUBLE => 4 end));
          GenLeaf (inr (inr (bp_shape b))); GenLeaf (inr (inr (intData b))); GenLeaf (inr (inr (uintData b)));
          GenLeaf (inr (inr (floatData b))); GenLeaf (inr (inr (doubleData b)))]
      | AnyTupleData l => GenNode 3 (enc_data <$> l)
      | AnyDictData l => GenNode 4 (enc_data <$> l)
      end].
Fixpoint dec_data (t : gen_tree leaf) : DataContainer :=
  match t with
  | GenNode n [x; GenNode k l] => mkDataContainer (dec_type n)
      (match k, l with
       | 1%nat, [y] => AnyDiscreteData (dec_z y)
       | 2%nat, [a; b; c; d; f; g] => AnyBoxData (mkBoxPb (dec_dtype (dec_z a)) (dec_l b) (dec_l c) (dec_l d) (dec_l f) (dec_l g))
       | 3%nat, _ => AnyTupleData (dec_data <$> l)
       | 4%nat, _ => AnyDictData (dec_data <$> l)
       | _, _ => AnyDataNone
       end) (dec_s x)
  | _ => DataContainer_new
  end.
Lemma dec_enc_data : forall d, dec_data (enc_data d) = d.
Proof.
  fix IH 1. intros [t a n]. destruct a as [|x|[dt sh il ul fl dl]|l|l]; cbn; f_equal; try (by destruct t).
  - by destruct dt.
  - f_equal. induction l as [|d l IHl]; cbn; [done|]. by rewrite IH, IHl.
  - f_equal. induction l as [|d l IHl]; cbn; [done|]. by rewrite IH, IHl.
Qed.

#[export] Instance SpaceDescription_eq_dec : EqDecision SpaceDescription.
Proof. intros x y. destruct (decide (enc_space x = enc_space y)) as [E|N]; [left|right; congruence]. by rewrite <- (dec_enc_space x), E, dec_enc_space. Defined.
#[export] Instance SpaceDescription_countable : Countable SpaceDescription := inj_countable' enc_space dec_space dec_enc_space.
#[export] Instance DataContainer_eq_dec : EqDecision DataContainer.
Proof. intros x y. destruct (decide (enc_data x = enc_data y)) as [E|N]; [left|right; congruence]. by rewrite <- (dec_enc_data x), E, dec_enc_data. Defined.
#[export] Instance DataContainer_countable : Countable DataContainer := inj_countable' enc_data dec_data dec_enc_data.

(** The bytes of a positive number, the lowest first, and back. *)
Fixpoint bytes_of (fuel : nat) (n : N) : list byte :=
  match fuel with
  | O => []
  | S fuel' => match n with N0 => [] | _ => default Byte.x00 (Byte.of_N (n mod 256)) :: bytes_of fuel' (n / 256) end
  end.
Fixpoint number_of (l : list byte) : N := match l with [] => 0%N | b :: l => (Byte.to_N b + 256 * number_of l)%N end.
Lemma number_of_bytes fuel n : (n < 256 ^ N.of_nat fuel)%N -> number_of (bytes_of fuel n) = n.
Proof.
  revert n. induction fuel as [|fuel IH]; intros n Hn; [cbn in *; lia|]. rewrite Nat2N.inj_succ, N.pow_succ_r' in Hn. destruct n as [|p]; [done|]. cbn [bytes_of]. set (n := N.pos p) in *.
  assert (n mod 256 < 256)%N as Hm by (by apply N.mod_lt). destruct (Byte.of_N (n mod 256)) as [b|] eqn:Eb; [|apply Byte.of_N_None_iff in Eb; lia]. apply Byte.to_of_N in Eb.
  cbn [default number_of id]. rewrite Eb, IH by (by apply N.Div0.div_lt_upper_bound). pose proof (N.div_mod n 256 ltac:(done)). lia.
Qed.
Lemma size_bytes p : (N.pos p < 256 ^ N.of_nat (Pos.to_nat (Pos.size p)))%N.
Proof.
  rewrite positive_nat_N. change 256%N with (2 ^ 8)%N. rewrite <- N.pow_mul_r. apply N.lt_le_trans with (2 ^ N.pos (Pos.size p))%N; [exact (Pos.size_gt p)|].
  apply N.pow_le_mono_r; lia.
Qed.

(** A message as the bytes of a number. *)
Section Numbered.
Context {X Y : Type} `{Countable Y} (f : X -> Y) (g : Y -> X) (dflt : X) (gf : forall x, g (f x) = x).
Definition number_wire : Wire X := {|
  ser x := bytes_of (Pos.to_nat (Pos.size (encode (f x)))) (Npos (encode (f x)));
  parse l := match number_of l with Npos n => match decode n with Some y => g y | None => dflt end | N0 => dflt end
|}.
Lemma number_wire_laws : @WireLaws X number_wire.
Proof. intros x. cbn. rewrite number_of_bytes by apply size_bytes. by rewrite decode_encode, gf. Qed.
End Numbered.

#[export] Instance wire_init : Wire SimInitMsg :=
  number_wire (fun m => (obsSpace m, actSpace m)) (fun t => mkSimInitMsg t.1 t.2) (mkSimInitMsg None None).
#[export] Instance wire_init_laws : WireLaws SimInitMsg := number_wire_laws _ _ _ (fun x => match x with mkSimInitMsg _ _ => eq_refl end).
#[export] Instance wire_ack : Wire SimInitAck :=
  number_wire (fun m => (ack_done m, ack_stopSimReq m)) (fun t => mkSimInitAck t.1 t.2) (mkSimInitAck false false).
#[export] Instance wire_ack_laws : WireLaws SimInitAck := number_wire_laws _ _ _ (fun x => match x with mkSimInitAck _ _ => eq_refl end).
Definition reason_bit (r : Reason) : bool := match r with SimulationEnd => false | GameOver => true end.
#[export] Instance wire_state : Wire EnvStateMsg :=
  number_wire (fun m => (st_obsData m, st_reward m, st_isGameOver m, reason_bit (st_reason m), st_info m))
    (fun t => mkEnvStateMsg t.1.1.1.1 t.1.1.1.2 t.1.1.2 (if t.1.2 then GameOver else SimulationEnd) t.2) (mkEnvStateMsg None 0 false SimulationEnd "").
#[export] Instance wire_state_laws : WireLaws EnvStateMsg.
Proof. apply number_wire_laws. by intros [? ? ? [] ?]. Qed.
#[export] Instance wire_act : Wire EnvActMsg :=
  number_wire (fun m => (actData m, act_stopSimReq m)) (fun t => mkEnvActMsg t.1 t.2) (mkEnvActMsg None false).
#[export] Instance wire_act_laws : WireLaws EnvActMsg := number_wire_laws _ _ _ (fun x => match x with mkEnvActMsg _ _ => eq_refl end).

(** ** An episode *)

Definition demo_steps : list (ApbEnv -> ApbEnv) := apb_step <$> [(3, 4); (10, 9); (1, 1)].
Definition demo_garbage : list byte := replicate 1024 Byte.x07.
(** Serving the processes in turn. *)
Definition round_robin (n : nat) : list bool := concat (replicate n [true; false]).
Lemma round_robin_fair n : fair n (round_robin n).
Proof.
  exists (replicate n [true; false]). split; [apply length_replicate|]. split; [done|]. apply Forall_replicate.
  by rewrite !elem_of_cons; auto.
Qed.

(** The sums of the first two pairs have been printed when the third is set. *)
Lemma demo_episode : exists w p, first_episode apb_env apb_agent demo_steps (mkApb 0 0 0 []) tt = Some (Returned tt, w, p, tt) /\
  printed (w_sim w) = [0; 7; 19] /\ m_sum (w_sim w) = 2 /\ gameOver p = true.
Proof. eexists _, _. split; [lazy; reflexivity|]. by split_and!. Qed.

Definition demo_rounds : nat := S ((4 * length demo_steps + 10) * op_bound).
Lemma gym_episode_witness : exists w p,
  let x := sys_run (round_robin demo_rounds) (start (sim_main apb_env demo_steps (mkApb 0 0 0 [])) (agent_main apb_agent 3 tt) demo_garbage) in
  printed (w_sim w) = [0; 7; 19] /\ s_cpp x = PRet (Returned tt, w) /\ s_py x = PRet (Returned (Some tt), p).
Proof.
  destruct demo_episode as (w&p&E&Hp&_). exists w, p. split; [exact Hp|].
  apply (gym_episode apb_env apb_agent 3 demo_steps (mkApb 0 0 0 []) tt _ w p tt demo_garbage demo_rounds _ E).
  - cbn. lia.
  - vm_compute. reflexivity.
  - apply round_robin_fair.
  - apply Nat.lt_succ_diag_r.
Defined.

(** ** Two small programs *)

Definition ping : hprog (list byte) := HSend [Byte.x01; Byte.x02] (HRecv (fun l => HRet l)).
Definition pong : hprog unit := HRecv (fun l => HSend (rev l) (HRet tt)).
Lemma ping_pong_run : abs_run 4 (mkAbs ping pong None None) (mkAbs (HRet [Byte.x02; Byte.x01]) (HRet tt) None None).
Proof.
  eapply abs_run_cons; [by left|]. eapply abs_run_cons; [by right|]. eapply abs_run_cons; [by right|].
  eapply abs_run_cons; [by left|]. constructor.
Qed.
(** Both programs have ended after forty rounds. *)
Lemma exchange_refines_witness :
  let x := sys_run (round_robin 40) (start ping pong demo_garbage) in
  s_cpp x = PRet [Byte.x02; Byte.x01] /\ s_py x = PRet tt /\
  exists n y, abs_run n (mkAbs ping pong None None) y /\ ended_as (s_cpp x) (a_cpp y) /\ ended_as (s_py x) (a_py y).
Proof.
  split; [vm_compute; reflexivity|]. split; [vm_compute; reflexivity|].
  destruct (exchange_refines ping pong demo_garbage (round_robin 40)) as (n&y&H1&H2&H3); [vm_compute; reflexivity|].
  exists n, y. split; [exact H1|]. split; [exact H2|exact H3].
Defined.
Lemma exchange_exclusive_witness :
  get_sem (EmptyCount Cpp2Py) (s_shm (sys_run [true; true; true] (start ping pong demo_garbage))) = 0 /\
  get_sem (EmptyCount Cpp2Py) (s_shm (sys_run [true; true; true] (start ping pong demo_garbage))) +
    get_sem (FullCount Cpp2Py) (s_shm (sys_run [true; true; true] (start ping pong demo_garbage))) <= 1.
Proof.
  split; [vm_compute; reflexivity|].
  apply (exchange_exclusive ping pong demo_garbage [true; true; true] Cpp2Py). vm_compute. reflexivity.
Defined.
Lemma exchange_completes_witness :
  s_cpp (sys_run (round_robin (S (4 * op_bound + 2 * op_bound))) (start ping pong demo_garbage)) = PRet [Byte.x02; Byte.x01].
Proof.
  apply (exchange_completes ping pong demo_garbage 4 [Byte.x02; Byte.x01] tt None None (S (4 * op_bound + 2 * op_bound)) (round_robin (S (4 * op_bound + 2 * op_bound)))).
  - vm_compute. reflexivity.
  - exact ping_pong_run.
  - apply round_robin_fair.
  - apply Nat.lt_succ_diag_r.
Defined.

Lemma too_long_aborts_witness :
  s_cpp (sys_run [true; false; true; false; true] (start (HSend (replicate 1025 Byte.x00) (HRet tt)) pong demo_garbage)) = PAbort.
Proof.
  destruct (too_long_aborts (replicate 1025 Byte.x00) (HRet tt) pong pong demo_garbage [true; false; true; false; true]) as (_&H&_).
  - vm_compute. reflexivity.
  - vm_compute. reflexivity.
  - apply H. vm_compute. repeat constructor.
Defined.

End GymDemo.
